(* ===== verification/_CoqProject ===== *)
-Q . S2P
Prelude.v
DnsMsg.v
Validator.v
DnsConfig.v
NetIP.v
Text.v
Iptables.v
Settings.v
Rule.v
Router.v
Response.v
Loop.v
Cache.v
CacheSpec.v
CacheProps.v
Metrics.v
Net.v
Upstream.v
Exchange.v
ExchangeProps.v
Handler.v
HandlerProps.v
Listener.v
ListenerProps.v
DnsModule.v
DnsModuleProps.v
Store.v
StoreLists.v
JsonRef.v
StoreProps.v
NodeRefs.v
Configure.v
Catalog.v
DeleteProps.v
ConfigureProps.v
CatalogRef.v
CatalogProps.v
UpdateProps.v
ConnectProps.v
Automation.v
StoreFrame.v
AutomationProps.v
AutomationRef.v
AutomationPass.v
GroupProps.v
ProbeProps.v
Process.v
ProcessProps.v
SelectionProps.v
Netfilter.v
CommandLines.v
InterceptSetup.v
InterceptRef.v
InterceptProps.v
CoreConfig.v
ServerData.v
Upgrade.v
TemplateData.v
Routing.v
DnsTemplate.v
Template.v
TemplateProps.v
OutboundProps.v
TemplateClosed.v
TemplateSafe.v
DnsTemplateProps.v
TemplateDual.v
TemplateRef.v
Codecs.v
Url.v
UrlProps.v
ShareLinks.v
ShareLinkProps.v
V2RayLinks.v
NodeConfig.v
ShareNodes.v
ShareProps.v
Clash.v
Imports.v
ShareRef.v
