(* ===== verification/Prelude.v ===== *)
(** * v2rayA: a verification development

    v2rayA is a proxy manager of two programs.  The service (src/service) stores
    servers, subscriptions and settings, keeps them up to date, writes the
    configuration of the core, runs the core and intercepts the host's packets
    while it runs.  The core (src/core) is an xray-core build with a DNS module
    (src/core/dns), which answers the queries of the host and of its clients: it
    decides by rules which upstream gets a query, sends it there directly, through
    a proxy or through the core's dispatcher, caches the answer, and must neither
    mix answers up nor talk to itself.

    ** The parts and their files

    A file ending in Props, Spec, Pass, Closed, Safe or Dual holds theorems about
    the files it follows; one ending in Ref has concrete instances of the classes,
    with which the hypotheses of theorems are shown to hold.

    Shared: [Prelude] (Go integers as [Z] with their wrap-around, the error type
    with [fmt.Errorf] texts, strings as bytes, tactics and the hint database),
    [NetIP] (packages net and netip), [Text] (package strings on lines and words),
    [Settings] (setting.go, const.go, ports.go, dnsrules.go, migrate_dns.go).

    The core's DNS module: a query travels listener -> handler -> router -> cache
    -> upstream exchange -> validation -> cache -> listener.

    - [DnsMsg]: messages and records.  The class [Miekg] has the operations of
      github.com/miekg/dns the module calls, [MiekgLaws] what it relies on.
    - [Validator] (validator.go), [DnsConfig] (config.go, types.go, qtype.go).
    - [Rule], [Router] (rule.go, router.go): matchers and first-match routing.
      Go's regular expressions are the class [Regexp].
    - [Response] (response.go): building and extending replies, DNS64, EDNS0.
    - [Loop] (loop.go): the private EDNS0 option by which the process recognises
      its own queries, and the rate-limited log.
    - [Cache], [CacheSpec], [CacheProps] (cache.go): the list of pointers, the map
      and the statistics as the code has them; [CacheSpec.LRU] is the abstract
      cache, a list of entries ordered by recency.
    - [Metrics] (metrics.go): counters, and a heap of per-upstream figures, since
      snapshots share them.
    - [Net]: the environment.  The class [Env] has the network, TLS, HTTP, clock
      and socket operations on an abstract world; the monad [IO] threads the world
      and records the requests made.  Nothing is assumed of the answers.
    - [Upstream], [Exchange], [ExchangeProps] (upstream.go, upstream_stub.go,
      doh.go): instances, health checks, and the direct, SOCKS5, dispatcher and
      HTTPS exchanges.
    - [Handler], [HandlerProps] (handler.go): the three actions and prefetching.
      [HandlerProps.sys_step] is the module as a transition system: a query, a
      prefetch job, a change of rules.
    - [Listener], [ListenerProps] (listener.go): packets and sockets.  The class
      [Handler] is the Go interface and [HandlerPromise] what the listener needs
      of it; [dns_handler_promise] discharges it for the real handler.
    - [DnsModule], [DnsModuleProps] (module.go, dns_unix.go): start, bootstrap
      resolution, stop.

    The service's data:

    - [Store], [StoreLists], [StoreProps] (db/listOp.go, setOp.go, plainOp.go): the
      SQLite tables as lists of rows; any statement may fail ([faults]); JSON is
      the class [Json].
    - [NodeRefs], [Configure], [ConfigureProps] (db/configure): references to nodes,
      the stored servers, subscriptions, groups and accounts.  Share links and
      nodes are the class [ServerObjs].
    - [Upgrade] (db/migrate.go, schema.go and the two migrations beside them): what
      becomes of the database of an older release.  Files are a map from paths;
      operations on them may fail, and the process may end at any of them.
    - [Catalog], [DeleteProps], [CatalogProps], [UpdateProps], [ConnectProps]
      (server/service/touch.go, subscription.go, connect.go): deleting and
      connecting nodes, storing a fetched subscription.  The running core is the
      class [Kernel].
    - [Automation], [StoreFrame], [AutomationProps], [AutomationPass], [GroupProps],
      [ProbeProps] (server/service/automation.go): the worker that updates
      subscriptions and groups; what others do between its steps, and what answers
      on the network, are the class [Outside], functions of the number of
      interactions so far.

    The service and the core's process:

    - [Process], [ProcessProps], [SelectionProps] (kernel/v2ray/processManager.go,
      process.go, connectivity.go): starting, reloading and stopping the core.  The
      lock is released while a start sets up the host: between two locked regions
      any sequence of the atomic actions of other goroutines may run ([event]).
      Here the rules in the host are one flag, set by a setup and reset when the
      commands that undo it are run, whose failures the code ignores; a second flag is
      the proxy of the system, which is restored separately and with errors.
    - [Iptables], [Netfilter], [CommandLines], [InterceptSetup], [InterceptProps]
      (kernel/iptables: redirect.go, tproxy.go, legacy_whitelist.go, utils.go): what
      stands behind that flag, the texts of the iptables commands and their effect
      on the chains of the host, whose documented behaviour is [NetfilterLaws].

    The configuration that the service writes for the core:

    - [CoreConfig] (kernel/coreObj/coreObj.go): its records.
    - [ServerData] (template_serverdata.go): the connected nodes
      by link and by group.  The class [Nodes] is the interface of a node and
      [NodeLaws] what every implementation does; the order in which a map is ranged
      over is a choice ([MapOrder]).
    - [TemplateData], [Routing], [DnsTemplate], [Template] (kernel/v2ray/template_*.go,
      tun_core.go, tun_exclude.go): [NewTemplate], from the connected nodes and the
      stored settings ([ServiceEnv]) to inbounds, outbounds, balancers, rules, marks
      and the DNS module's configuration; also the core's reading of the latter
      (core/main/dns_module.go), so that both sides of the JSON are here.
    - [TemplateProps], [OutboundProps], [TemplateClosed], [TemplateSafe],
      [TemplateDual], [DnsTemplateProps]: the theorems.

    Nodes and links:

    - [Codecs] (common/crypto.go, kernel/coreObj, encoding/base64): base64, URL
      escaping, name-based identifiers, certificate pins.
    - [Url], [UrlProps]: net/url as the parsers and exporters use it.
    - [ShareLinks], [ShareLinkProps], [V2RayLinks] (kernel/serverObj, a file per
      protocol): parsing and exporting the links of nodes.  The objects in VMess
      links are read and written by jsoniter, the class [VmessJson].
    - [NodeConfig] (the Configuration methods of kernel/serverObj): what a node asks
      the core for.
    - [ShareNodes], [ShareProps] (serverObj.go, server/service/resolve.go,
      subscription_probe.go): the registers of protocols and the interface of a node.
      [share_objects], [share_nodes] and their laws discharge [ServerObjs], [Nodes]
      and [NodeLaws], so that what is shown of the store and of the template holds of
      the nodes the service really has.
    - [Clash] (serverObj/clash): importing Clash configurations; YAML is the class
      [ClashYaml].
    - [Imports] (server/service/import.go, subscription.go, share.go): fetching and
      resolving subscriptions, importing and sharing, on the store; the web is the
      class [Web].

    Operations that update an object take and return it; a Go panic (nil record,
    nil response) is [None]; an error is [Err].  Operations that read the clock
    take the time as an argument or run in a monad.

    ** What is shown

    - DNS, end to end: along every history from a start, in every environment, the
      handler does not panic, always answers or returns an error, and answers the
      question asked; every cached entry answers its key; every packet gets one
      matching reply; start and stop account for every socket.  The cache refines
      a recency list; a compiled rule selects what its fields mean and the first
      selecting rule decides; only validated answers come back, on the upstream's
      channel, with at most the requests its channel allows (eight through a proxy).
    - Stored data: whatever statements fail, the stored lists refine plain lists, and
      their numbering survives but for the removals outside of a transaction, which can
      leave a gap ([failed_removal_leaves_gap]).  While no statement fails, deleting
      nodes (each named once) and updating a subscription lead every reference that stays
      to its node, a change of a group that the core refuses is undone, and groups follow
      the health of their candidates; what a failing read does instead is shown by
      [failed_read_drops_connections] and [failed_backup_clears].  The worker loses no
      deadline of a stored subscription unless it cannot read the list
      ([failed_read_drops_schedules]) or is cancelled.  The upgrade of a BoltDB file
      never loses it; when nothing fails it succeeds, but for files with automatic
      selection, which it refuses for ever.
    - Process: under every interleaving, packets are intercepted only while a core
      runs at the last release of the lock of a start, which happens completely or not
      at all; also afterwards, unless a core exits between the last release of the
      lock and the end of a reload that keeps the rules ([late_exit_leaves_rules]).
      Whatever command of a setup fails, the cleanup leaves every chain of the host as
      it was.
    - Template: rules, balancers and DNS rules name only what exists, up to two kinds
      of names that the code does not check; traffic to the nodes is direct and their
      names are resolved outside the proxy, at the first server that is an IP address
      and not a loopback one, in the router that the core builds from what the service
      wrote; groups without members fail closed; sockets of the core
      are exempt from the interception; the twins on the IPv6 loopback are routed as
      the inbounds they double.
    - Links: for every protocol that can be shared, what a node exports is resolved
      to the node the link says;
      the copy of a node that is probed asks the core for what the node asks for;
      a Clash configuration, with proxies of any of the nine types, and a list of links,
      plain or in base64, become the nodes they describe, in order; a shared server can
      be imported again; a subscription is stored once, with its address and the first
      node of every link, or not at all.  What these need of the JSON library is in the
      classes [TextLaws] and [SubscriptionLaws].

    ** Bounds

    Recursion is structural but for: IPv6 parsing, eight rounds, and
    [direct_attempts], two, as the loops of the source; [exchange_at] nests twice,
    enough because the inner call has the tag "direct" (that the bound is never
    reached is part of [exchange_returns_validated_answer]); [ones_of_byte] reads
    eight bits; [free_name] searches one name more than are in use, so it finds one
    ([free_name_free]); [find_hardcodes] has the length of the line as fuel and
    takes at least five characters a round; [free_backup] tries one name more than
    there are files ([backup_free]); [trim_marks] has the length of the body,
    of which a mark takes three bytes.

    ** Not modelled

    Locks inside an operation of the DNS module: operations run as atomic steps, a
    handler as one and a prefetch as another.  Log lines, diagnostics.go, texts of
    String methods, socket options, other platforms' ways of finding servers.  Of
    the interception: nft, the other platforms, packets passing the chains.  Of the
    template: the processes that own ports, scripts, writing the file.  Third-party
    code is a class or an argument throughout: the DNS library, SQLite's failures,
    JSON, YAML, regular expressions, RoutingA's parser, the plugin manager, xray-core.
    Left out: the upgrade from version 4 (service/pre_database.go), the core's command
    line and loader (core/hint), system proxies and tun devices of other
    platforms, netstat, downloads, latency tests, accounts and the HTTP interface. *)

From stdpp Require Export base gmap list strings fin_maps.
From Stdlib Require Export ZArith Lia Ascii.

#[export] Set Default Goal Selector "!".
#[local] Open Scope Z_scope.

(** ** Machine integers

    Go integers are kept as [Z]; every operation or conversion that can leave
    the width of its type is written with the wrap-around below. *)

Definition u8 (x : Z) : Z := x mod 2 ^ 8.
Definition u16 (x : Z) : Z := x mod 2 ^ 16.
Definition u32 (x : Z) : Z := x mod 2 ^ 32.

(** [int], [int64] and [time.Duration]: two's complement, 64 bits. *)
Definition i64 (x : Z) : Z := (x + 2 ^ 63) mod 2 ^ 64 - 2 ^ 63.

Definition is_u16 (x : Z) : Prop := 0 <= x < 2 ^ 16.
Definition is_u32 (x : Z) : Prop := 0 <= x < 2 ^ 32.
Definition is_i64 (x : Z) : Prop := - 2 ^ 63 <= x < 2 ^ 63.

Lemma u32_range x : is_u32 (u32 x).
Proof. apply Z.mod_pos_bound. lia. Qed.

Lemma u32_small x : is_u32 x -> u32 x = x.
Proof. intros H. by apply Z.mod_small. Qed.

Lemma i64_range x : is_i64 (i64 x).
Proof. unfold i64, is_i64. pose proof (Z.mod_pos_bound (x + 2 ^ 63) (2 ^ 64)). lia. Qed.

Lemma i64_small x : is_i64 x -> i64 x = x.
Proof. unfold i64, is_i64. intros H. rewrite Z.mod_small; lia. Qed.

(** Wrapping commutes with addition. *)
Lemma i64_add_l a b : i64 (i64 a + b) = i64 (a + b).
Proof.
  unfold i64. f_equal.
  replace ((a + 2 ^ 63) mod 2 ^ 64 - 2 ^ 63 + b + 2 ^ 63) with ((a + 2 ^ 63) mod 2 ^ 64 + b) by lia.
  rewrite Z.add_mod_idemp_l by lia. f_equal. lia.
Qed.

(** ** Time

    A [time.Time] is the number of nanoseconds since the zero [Time]; its
    [IsZero] is a comparison with 0.  Wall clock and monotonic reading are not
    told apart.  A [time.Duration] is an [int64] number of nanoseconds. *)

Definition Millisecond : Z := 1000000.
Definition Second : Z := 1000000000.
Definition Minute : Z := 60000000000.
Definition MaxInt64 : Z := 2 ^ 63 - 1.
Definition MinInt64 : Z := - 2 ^ 63.

(** [t.Add(d)] *)
Definition time_add (t d : Z) : Z := t + d.
(** [t.Sub(u)]: the difference, saturated at the bounds of a Duration. *)
Definition time_sub (t u : Z) : Z := Z.max MinInt64 (Z.min MaxInt64 (t - u)).
(** [t.IsZero()] *)
Definition time_is_zero (t : Z) : bool := t =? 0.
(** [time.Duration(n) * time.Second] *)
Definition seconds (n : Z) : Z := i64 (n * Second).

Lemma seconds_u32 n : is_u32 n -> seconds n = n * Second.
Proof. unfold seconds, is_u32, Second. intros H. apply i64_small. unfold is_i64. lia. Qed.

Lemma time_sub_small t u : is_i64 (t - u) -> time_sub t u = t - u.
Proof. unfold time_sub, is_i64, MaxInt64, MinInt64. lia. Qed.

(** ** Errors

    [fmt.Errorf] keeps its format and operands; [%w] wraps another error.  An
    error made by a library or the operating system is [ExtErr]. *)

Inductive farg :=
| FStr (s : string)
| FInt (n : Z).

Inductive error :=
| ExtErr (what : string)
| Errorf (format : string) (args : list farg)
| Wrapf (format : string) (args : list farg) (inner : error).

Inductive result (A : Type) :=
| Ok (a : A)
| Err (e : error).
Arguments Ok {A} _.
Arguments Err {A} _.

Definition is_ok {A} (r : result A) : bool :=
  match r with Ok _ => true | Err _ => false end.

Declare Scope go_scope.
Delimit Scope go_scope with go.

(** [x, err := e; if err != nil { return err }]. *)
Notation "'let?' x ':=' e 'in' k" :=
  (match e with Ok x => k | Err err => Err err end)
  (at level 10, x pattern, e at level 100, k at level 200) : go_scope.

(** A guard that returns early: [if b { return fmt.Errorf(...) }]. *)
Notation "'fail_if' b 'with' e 'in' k" :=
  (if b then Err e else k)
  (at level 10, b at level 100, e at level 100, k at level 200) : go_scope.

Lemma is_ok_spec {A} (r : result A) : is_ok r = true <-> exists a, r = Ok a.
Proof. destruct r; simpl; naive_solver. Qed.

(** ** Run-time panics

    A function that can panic (a nil dereference, an index out of range)
    returns an [option]; [None] is the panic.  stdpp's option monad, with its
    notation [x ← e; k], propagates it. *)

Definition panic {A} : option A := None.

(** ** Strings *)

Definition HasPrefix (s p : string) : bool := String.prefix p s.

Definition HasSuffix (s suf : string) : bool :=
  (String.length suf <=? String.length s)%nat &&
  String.eqb (String.substring (String.length s - String.length suf) (String.length suf) s) suf.

Definition TrimPrefix (s p : string) : string :=
  if HasPrefix s p
  then String.substring (String.length p) (String.length s - String.length p) s
  else s.

Definition TrimSuffix (s suf : string) : string :=
  if HasSuffix s suf
  then String.substring 0 (String.length s - String.length suf) s
  else s.

(** [strings.IndexByte(s, c) >= 0] *)
Fixpoint has_byte (c : Ascii.ascii) (s : string) : bool :=
  match s with
  | EmptyString => false
  | String a s' => Ascii.eqb a c || has_byte c s'
  end.

Abbreviation s_len := String.length.

Lemma s_app_cons a s t : String a s +:+ t = String a (s +:+ t).
Proof. done. Qed.

Lemma s_app_nil t : EmptyString +:+ t = t.
Proof. done. Qed.

Lemma s_app_assoc s t u : s +:+ (t +:+ u) = (s +:+ t) +:+ u.
Proof. induction s as [|a s IH]; [done|]. rewrite !s_app_cons. by rewrite IH. Qed.

Lemma s_len_app s t : s_len (s +:+ t) = (s_len s + s_len t)%nat.
Proof. induction s as [|a s IH]; [done|]. rewrite s_app_cons. simpl. by rewrite IH. Qed.

Lemma substring_all s n : (s_len s <= n)%nat -> String.substring 0 n s = s.
Proof.
  revert n. induction s as [|a s IH]; intros [|n] H; simpl in *; try done; [lia|].
  f_equal. apply IH. lia.
Qed.

Lemma substring_app_l s t : String.substring 0 (s_len s) (s +:+ t) = s.
Proof.
  induction s as [|a s IH]; [by destruct t|]. rewrite s_app_cons. simpl. by rewrite IH.
Qed.

Lemma substring_app_r s t n m :
  String.substring (s_len s + n) m (s +:+ t) = String.substring n m t.
Proof. induction s as [|a s IH]; [done|]. rewrite s_app_cons. simpl. auto. Qed.

Lemma substring_split s n :
  (n <= s_len s)%nat ->
  s = String.substring 0 n s +:+ String.substring n (s_len s - n) s.
Proof.
  revert n. induction s as [|a s IH]; intros [|n] H; simpl in *; try done; try lia.
  - rewrite s_app_nil. f_equal. by rewrite substring_all.
  - rewrite s_app_cons. f_equal. apply IH. lia.
Qed.

Lemma HasSuffix_spec s suf : HasSuffix s suf = true <-> exists p, s = p +:+ suf.
Proof.
  unfold HasSuffix. rewrite andb_true_iff, Nat.leb_le, String.eqb_eq. split.
  - intros [Hl He]. exists (String.substring 0 (s_len s - s_len suf) s).
    rewrite <-He at 2. rewrite (substring_split s (s_len s - s_len suf)) at 1 by lia.
    f_equal. f_equal. lia.
  - intros [p ->]. rewrite s_len_app. split; [lia|].
    replace (s_len p + s_len suf - s_len suf)%nat with (s_len p + 0)%nat by lia.
    by rewrite substring_app_r, substring_all.
Qed.

Lemma HasPrefix_spec s p : HasPrefix s p = true <-> exists t, s = p +:+ t.
Proof.
  unfold HasPrefix. revert s. induction p as [|a p IH]; intros [|b s]; simpl.
  - split; [by exists EmptyString|done].
  - split; [by exists (String b s)|done].
  - split; [done|]. by intros [? ?].
  - destruct (Ascii.ascii_dec a b) as [->|Hne].
    + rewrite IH. split; intros [t Ht]; exists t; rewrite ?s_app_cons in *; congruence.
    + split; [done|]. intros [t Ht]. rewrite s_app_cons in Ht. congruence.
Qed.

Lemma TrimSuffix_app s suf : TrimSuffix (s +:+ suf) suf = s.
Proof.
  unfold TrimSuffix.
  rewrite (proj2 (HasSuffix_spec _ _)) by eauto.
  rewrite s_len_app. replace (s_len s + s_len suf - s_len suf)%nat with (s_len s) by lia.
  apply substring_app_l.
Qed.

Lemma TrimPrefix_app p s : TrimPrefix (p +:+ s) p = s.
Proof.
  unfold TrimPrefix.
  rewrite (proj2 (HasPrefix_spec _ _)) by eauto.
  rewrite s_len_app. replace (s_len p + s_len s - s_len p)%nat with (s_len s) by lia.
  pose proof (substring_app_r p s 0 (s_len s)) as H.
  rewrite Nat.add_0_r in H. by rewrite H, substring_all.
Qed.

Lemma has_byte_app c s t : has_byte c (s +:+ t) = has_byte c s || has_byte c t.
Proof.
  induction s as [|a s IH]; [done|]. rewrite s_app_cons. simpl. by rewrite IH, orb_assoc.
Qed.

(** [strings.ToUpper] and [strings.TrimSpace] on ASCII text. *)
Definition upper_char (a : Ascii.ascii) : Ascii.ascii :=
  let n := Ascii.nat_of_ascii a in
  if (97 <=? n)%nat && (n <=? 122)%nat then Ascii.ascii_of_nat (n - 32) else a.

Fixpoint ToUpper (s : string) : string :=
  match s with
  | EmptyString => EmptyString
  | String a s' => String (upper_char a) (ToUpper s')
  end.

Definition is_space (a : Ascii.ascii) : bool :=
  let n := Ascii.nat_of_ascii a in ((9 <=? n)%nat && (n <=? 13)%nat) || (n =? 32)%nat.

Fixpoint trim_left (s : string) : string :=
  match s with
  | EmptyString => EmptyString
  | String a s' => if is_space a then trim_left s' else s
  end.

Fixpoint trim_right (s : string) : string :=
  match s with
  | EmptyString => EmptyString
  | String a s' =>
    match trim_right s' with
    | EmptyString => if is_space a then EmptyString else String a EmptyString
    | t => String a t
    end
  end.

Definition TrimSpace (s : string) : string := trim_right (trim_left s).

(** ** Options used as Go's [x != nil] *)

Definition is_some {A} (o : option A) : bool :=
  match o with Some _ => true | None => false end.

(** ** Lists *)

Lemma forallb_Forall {A} (f : A -> bool) (l : list A) :
  forallb f l = true <-> Forall (fun x => f x = true) l.
Proof. rewrite forallb_forall, List.Forall_forall. done. Qed.

Lemma filter_all {A} (P : A -> Prop) `{!forall x, Decision (P x)} (l : list A) :
  (forall x, x ∈ l -> P x) -> filter P l = l.
Proof.
  induction l as [|a l IH]; intros HP; [done|].
  rewrite filter_cons, decide_True by (apply HP; left). f_equal. apply IH. intros x Hx.
  apply HP. by right.
Qed.

Lemma omap_ext_in {A B} (f g : A -> option B) (l : list A) :
  (forall x, x ∈ l -> f x = g x) -> omap f l = omap g l.
Proof.
  induction l as [|a l IH]; intros H; [done|]. simpl.
  rewrite (H a) by left.
  destruct (g a); [f_equal|]; apply IH; intros x Hx; apply H; by right.
Qed.

Lemma elem_of_concat_map {A B} (f : A -> list B) (l : list A) (y : B) :
  y ∈ concat (map f l) <-> exists x, x ∈ l /\ y ∈ f x.
Proof.
  induction l as [|a l IH]; simpl.
  - split; [by intros ?%elem_of_nil|]. by intros (x & ?%elem_of_nil & _).
  - rewrite elem_of_app, IH. setoid_rewrite elem_of_cons. naive_solver.
Qed.

Lemma concat_map_nil {A B} (f : A -> list B) (l : list A) :
  concat (map f l) = [] <-> Forall (fun x => f x = []) l.
Proof. induction l as [|a l IH]; simpl; [done|]. by rewrite app_nil, IH, Forall_cons. Qed.

(** ** Automation *)

Create HintDb go discriminated.
Create Rewrite HintDb go.
#[export] Hint Resolve u32_range i64_range : go.
#[export] Hint Rewrite @u32_small @i64_small using (unfold is_u32, is_i64 in *; lia) : go.

(** Case on the scrutinee of every [match]/[if] of the goal, closing what the
    equations contradict. *)
Ltac go_cases :=
  repeat (case_match; simplify_eq/=; try done).

(** Boolean comparisons on [Z] to propositions. *)
Ltac zbool :=
  repeat match goal with
  | H : (_ <? _) = true |- _ => apply Z.ltb_lt in H
  | H : (_ <? _) = false |- _ => apply Z.ltb_ge in H
  | H : (_ <=? _) = true |- _ => apply Z.leb_le in H
  | H : (_ <=? _) = false |- _ => apply Z.leb_gt in H
  | H : (_ >? _) = true |- _ => apply Z.gtb_lt in H
  | H : (_ >? _) = false |- _ => rewrite Z.gtb_ltb in H; apply Z.ltb_ge in H
  | H : (_ =? _) = true |- _ => apply Z.eqb_eq in H
  | H : (_ =? _) = false |- _ => apply Z.eqb_neq in H
  end.
