(* ===== verification/DnsMsg.v ===== *)
(** * DNS messages

    The structures the module passes around ([core/dns/types.go]), the parts of
    [github.com/miekg/dns] messages it reads and writes, and the interface of
    that library as a type class: its operations are parameters, its documented
    behaviour is the class [MiekgLaws].  [miekg_ref] is a small implementation
    that satisfies the laws and makes the model executable. *)

From S2P Require Import Prelude.

#[local] Open Scope Z_scope.

(** ** Constants of the DNS protocol *)

Definition TypeA : Z := 1.
Definition TypeNS : Z := 2.
Definition TypeCNAME : Z := 5.
Definition TypeSOA : Z := 6.
Definition TypePTR : Z := 12.
Definition TypeMX : Z := 15.
Definition TypeTXT : Z := 16.
Definition TypeAAAA : Z := 28.
Definition TypeSRV : Z := 33.
Definition TypeOPT : Z := 41.
Definition TypeRRSIG : Z := 46.
Definition TypeTSIG : Z := 250.

Definition ClassINET : Z := 1.
Definition MinMsgSize : Z := 512.
Definition DefaultMsgSize : Z := 4096.
Definition MaxMsgSize : Z := 65535.
Definition EDNS0SUBNET : Z := 8.

Definition RcodeSuccess : Z := 0.
Definition RcodeFormatError : Z := 1.
Definition RcodeServerFailure : Z := 2.
Definition RcodeNameError : Z := 3.
Definition RcodeNotImplemented : Z := 4.
Definition RcodeRefused : Z := 5.

(** ** Messages of miekg/dns *)

Record RR_Header := mkHdr {
  hdr_Name : string;
  hdr_Rrtype : Z;
  hdr_Class : Z;
  hdr_Ttl : Z;
}.

(** An EDNS0 option: the two kinds the module builds or inspects, and any other. *)
Inductive EDNS0 :=
| EDNS0_LOCAL (Code : Z) (Data : list Z)
| EDNS0_SUBNET (Code Family SourceNetmask SourceScope : Z) (Address : list Z)
| EDNS0_other (Code : Z) (Data : list Z).

(** A resource record: the concrete types the module asserts on, and any other. *)
Inductive RR :=
| RR_A (Hdr : RR_Header) (A : list Z)
| RR_AAAA (Hdr : RR_Header) (AAAA : list Z)
| RR_OPT (Hdr : RR_Header) (Option : list EDNS0)
| RR_other (Hdr : RR_Header) (Rdata : list Z).

Definition rr_hdr (r : RR) : RR_Header :=
  match r with RR_A h _ | RR_AAAA h _ | RR_OPT h _ | RR_other h _ => h end.

Definition rr_set_hdr (r : RR) (h : RR_Header) : RR :=
  match r with
  | RR_A _ a => RR_A h a
  | RR_AAAA _ a => RR_AAAA h a
  | RR_OPT _ o => RR_OPT h o
  | RR_other _ d => RR_other h d
  end.

(** An element of a section is an interface value, which may be nil; calling
    [Header] on a nil interface panics. *)
Definition Header (rr : option RR) : option RR_Header := rr_hdr <$> rr.

Definition set_Ttl (h : RR_Header) (ttl : Z) : RR_Header :=
  mkHdr (hdr_Name h) (hdr_Rrtype h) (hdr_Class h) ttl.
Definition set_Class (h : RR_Header) (c : Z) : RR_Header :=
  mkHdr (hdr_Name h) (hdr_Rrtype h) c (hdr_Ttl h).

Record Question := mkQuestion { q_Name : string; q_Qtype : Z; q_Qclass : Z }.

Record Msg := mkMsg {
  m_Id : Z;
  m_Response : bool;
  m_Opcode : Z;
  m_Authoritative : bool;
  m_Truncated : bool;
  m_RecursionDesired : bool;
  m_RecursionAvailable : bool;
  m_AuthenticatedData : bool;
  m_CheckingDisabled : bool;
  m_Rcode : Z;
  m_Compress : bool;
  m_Question : list Question;
  m_Answer : list (option RR);
  m_Ns : list (option RR);
  m_Extra : list (option RR);
}.

(** [new(dns.Msg)] *)
Definition new_Msg : Msg :=
  mkMsg 0 false 0 false false false false false false 0 false [] [] [] [].

Definition set_Id (m : Msg) (id : Z) : Msg :=
  let 'mkMsg _ qr op aa tc rd ra ad cd rc co q an ns ex := m in
  mkMsg id qr op aa tc rd ra ad cd rc co q an ns ex.
Definition set_Response (m : Msg) (b : bool) : Msg :=
  let 'mkMsg id _ op aa tc rd ra ad cd rc co q an ns ex := m in
  mkMsg id b op aa tc rd ra ad cd rc co q an ns ex.
Definition set_Authoritative (m : Msg) (b : bool) : Msg :=
  let 'mkMsg id qr op _ tc rd ra ad cd rc co q an ns ex := m in
  mkMsg id qr op b tc rd ra ad cd rc co q an ns ex.
Definition set_TruncatedFlag (m : Msg) (b : bool) : Msg :=
  let 'mkMsg id qr op aa _ rd ra ad cd rc co q an ns ex := m in
  mkMsg id qr op aa b rd ra ad cd rc co q an ns ex.
Definition set_RecursionDesired (m : Msg) (b : bool) : Msg :=
  let 'mkMsg id qr op aa tc _ ra ad cd rc co q an ns ex := m in
  mkMsg id qr op aa tc b ra ad cd rc co q an ns ex.
Definition set_RecursionAvailable (m : Msg) (b : bool) : Msg :=
  let 'mkMsg id qr op aa tc rd _ ad cd rc co q an ns ex := m in
  mkMsg id qr op aa tc rd b ad cd rc co q an ns ex.
Definition set_AuthenticatedData (m : Msg) (b : bool) : Msg :=
  let 'mkMsg id qr op aa tc rd ra _ cd rc co q an ns ex := m in
  mkMsg id qr op aa tc rd ra b cd rc co q an ns ex.
Definition set_CheckingDisabled (m : Msg) (b : bool) : Msg :=
  let 'mkMsg id qr op aa tc rd ra ad _ rc co q an ns ex := m in
  mkMsg id qr op aa tc rd ra ad b rc co q an ns ex.
Definition set_Rcode (m : Msg) (rc : Z) : Msg :=
  let 'mkMsg id qr op aa tc rd ra ad cd _ co q an ns ex := m in
  mkMsg id qr op aa tc rd ra ad cd rc co q an ns ex.
Definition set_Compress (m : Msg) (b : bool) : Msg :=
  let 'mkMsg id qr op aa tc rd ra ad cd rc _ q an ns ex := m in
  mkMsg id qr op aa tc rd ra ad cd rc b q an ns ex.
Definition set_Question (m : Msg) (q : list Question) : Msg :=
  let 'mkMsg id qr op aa tc rd ra ad cd rc co _ an ns ex := m in
  mkMsg id qr op aa tc rd ra ad cd rc co q an ns ex.
Definition set_Answer (m : Msg) (an : list (option RR)) : Msg :=
  let 'mkMsg id qr op aa tc rd ra ad cd rc co q _ ns ex := m in
  mkMsg id qr op aa tc rd ra ad cd rc co q an ns ex.
Definition set_Ns (m : Msg) (ns : list (option RR)) : Msg :=
  let 'mkMsg id qr op aa tc rd ra ad cd rc co q an _ ex := m in
  mkMsg id qr op aa tc rd ra ad cd rc co q an ns ex.
Definition set_Extra (m : Msg) (ex : list (option RR)) : Msg :=
  let 'mkMsg id qr op aa tc rd ra ad cd rc co q an ns _ := m in
  mkMsg id qr op aa tc rd ra ad cd rc co q an ns ex.

Lemma set_sections_spec m a n x :
  m_Answer (set_Extra (set_Ns (set_Answer m a) n) x) = a /\
  m_Ns (set_Extra (set_Ns (set_Answer m a) n) x) = n /\
  m_Extra (set_Extra (set_Ns (set_Answer m a) n) x) = x.
Proof. by destruct m. Qed.

Lemma m_Extra_set m x : m_Extra (set_Extra m x) = x.
Proof. by destruct m. Qed.

Lemma set_Extra_same m : set_Extra m (m_Extra m) = m.
Proof. by destruct m. Qed.

(** ** Queries and responses of the module (types.go)

    A [net.IP] is its list of bytes; the nil IP is the empty list. *)

Record DnsQuery := mkQuery {
  Name : string;
  QType : Z;
  QClass : Z;
  ClientIP : list Z;
  IsBootstrap : bool;
}.

Record DnsResponse := mkResponse {
  resp_Query : DnsQuery;
  resp_RawMsg : option Msg;
  resp_Rcode : Z;
  resp_Answer : list (option RR);
  resp_Authority : list (option RR);
  resp_Additional : list (option RR);
  resp_TTL : Z;
  resp_Upstream : string;
  resp_ProxyTag : string;
  resp_RTT : Z;
  resp_Cached : bool;
}.

(** ** Query types (qtype.go) *)

Definition SupportsQType (qt : Z) : bool :=
  existsb (Z.eqb qt)
    [TypeA; TypeAAAA; TypeCNAME; TypeTXT; TypeMX; TypeSRV; TypeNS; TypePTR; TypeSOA].

Definition SupportedQTypes : list Z :=
  [TypeA; TypeAAAA; TypeCNAME; TypeTXT; TypeMX; TypeSRV; TypeNS; TypePTR; TypeSOA].

Definition IsAddressQuery (qt : Z) : bool := (qt =? TypeA) || (qt =? TypeAAAA).

Definition NeedsDNS64 (qt : Z) : bool := qt =? TypeAAAA.

(** ** The interface of miekg/dns

    [IsEdns0] returns a pointer into the additional section: the position of
    the OPT record it denotes.  [SetQuestion] draws a random message id, which
    is an argument here. *)

Class Miekg := {
  Fqdn : string -> string;
  SetQuestion : Z -> Msg -> string -> Z -> Msg;
  SetReply : Msg -> Msg -> Msg;
  SetRcode : Msg -> Msg -> Z -> Msg;
  SetEdns0 : Msg -> Z -> bool -> Msg;
  IsEdns0 : Msg -> option nat;
  OPT_UDPSize : RR_Header -> Z;
  OPT_SetUDPSize : RR_Header -> Z -> RR_Header;
  OPT_Do : RR_Header -> bool;
  OPT_SetDo : RR_Header -> RR_Header;
  Msg_Copy : Msg -> Msg;
  RR_Copy : option RR -> option RR;
  Msg_Pack : Msg -> result (list Z);
  Msg_Unpack : list Z -> result Msg;
  Msg_Len : Msg -> Z;
  StringToType : string -> option Z;
  TypeToString : Z -> string;
}.

(** An OPT pointer denotes a record of type [*dns.OPT]. *)
Definition is_OPT_ptr (rr : option RR) (h : RR_Header) (o : list EDNS0) : Prop :=
  rr = Some (RR_OPT h o) /\ hdr_Rrtype h = TypeOPT.

(** The documented behaviour the module relies on. *)
Class MiekgLaws (M : Miekg) : Prop := {
  (** "If s is already fully qualified, it behaves as the identity function." *)
  Fqdn_idem s : Fqdn (Fqdn s) = Fqdn s;
  Fqdn_nonempty s : Fqdn s <> EmptyString;
  (** "It sets the Question section, generates an Id and sets the RecursionDesired bit." *)
  SetQuestion_spec id m z t :
    SetQuestion id m z t =
    set_RecursionDesired (set_Question (set_Id m id) [mkQuestion z t ClassINET]) true;
  (** "SetReply creates a reply message from a request message." *)
  SetReply_Id m req : m_Id (SetReply m req) = m_Id req;
  SetReply_Response m req : m_Response (SetReply m req) = true;
  SetReply_Rcode m req : m_Rcode (SetReply m req) = RcodeSuccess;
  SetReply_Question m q qs req :
    m_Question req = q :: qs -> m_Question (SetReply m req) = [q];
  SetReply_sections m req :
    m_Answer (SetReply m req) = m_Answer m /\ m_Ns (SetReply m req) = m_Ns m /\
    m_Extra (SetReply m req) = m_Extra m;
  (** "SetRcode creates an error message suitable for the request." *)
  SetRcode_spec m req rc : SetRcode m req rc = set_Rcode (SetReply m req) rc;
  (** "SetEdns0 appends a EDNS0 OPT RR to the message." *)
  SetEdns0_spec m size do_ : exists h,
    SetEdns0 m size do_ = set_Extra m (m_Extra m ++ [Some (RR_OPT h [])]) /\
    hdr_Rrtype h = TypeOPT /\ OPT_Do h = do_ /\ (is_u16 size -> OPT_UDPSize h = size);
  (** "IsEdns0 checks if the message has a EDNS0 (OPT) record, any EDNS0 record
      in the additional section will do. It returns the OPT record found or nil." *)
  IsEdns0_Some m i : IsEdns0 m = Some i ->
    exists h o rr, m_Extra m !! i = Some rr /\ is_OPT_ptr rr h o;
  IsEdns0_None m : IsEdns0 m = None ->
    Forall (fun rr => forall h o, ~ is_OPT_ptr rr h o) (m_Extra m);
  IsEdns0_Extra m m' : m_Extra m = m_Extra m' -> IsEdns0 m = IsEdns0 m';
  (** The option list and the flags of the OPT found do not change which one it is. *)
  IsEdns0_update m i h o h' o' :
    IsEdns0 m = Some i -> m_Extra m !! i = Some (Some (RR_OPT h o)) ->
    hdr_Rrtype h' = TypeOPT ->
    IsEdns0 (set_Extra m (<[i := Some (RR_OPT h' o')]> (m_Extra m))) = Some i;
  OPT_SetUDPSize_spec h n : is_u16 n ->
    OPT_UDPSize (OPT_SetUDPSize h n) = n /\ OPT_Do (OPT_SetUDPSize h n) = OPT_Do h /\
    hdr_Rrtype (OPT_SetUDPSize h n) = hdr_Rrtype h;
  OPT_SetDo_spec h :
    OPT_Do (OPT_SetDo h) = true /\ OPT_UDPSize (OPT_SetDo h) = OPT_UDPSize h /\
    hdr_Rrtype (OPT_SetDo h) = hdr_Rrtype h;
  (** The class of an OPT record is the payload size and DO is a bit of its TTL
      (RFC 6891). *)
  OPT_UDPSize_Class h : OPT_UDPSize h = hdr_Class h;
  OPT_Do_zero h : hdr_Ttl h = 0 -> OPT_Do h = false;
  (** Unpacking builds a record for every entry of a section. *)
  Msg_Unpack_no_nil b m : Msg_Unpack b = Ok m ->
    Forall (fun rr => is_Some rr) (m_Answer m ++ m_Ns m ++ m_Extra m);
  (** "Copy returns a new *Msg which is a deep-copy of dns"; likewise for a record. *)
  Msg_Copy_spec m : Msg_Copy m = m;
  RR_Copy_spec rr : RR_Copy rr = rr;
}.

(** ** The OPT record of a message

    [opt := m.IsEdns0()] and writes through the pointer [opt]. *)

Section Opt.
Context `{ML : MiekgLaws}.

Definition find_opt (m : Msg) : option (nat * RR_Header * list EDNS0) :=
  match IsEdns0 m with
  | Some i =>
    match m_Extra m !! i with Some (Some (RR_OPT h o)) => Some (i, h, o) | _ => None end
  | None => None
  end.

Definition put_opt (m : Msg) (i : nat) (h : RR_Header) (o : list EDNS0) : Msg :=
  set_Extra m (<[i := Some (RR_OPT h o)]> (m_Extra m)).

(** No element of the section is a pointer to an OPT record. *)
Definition no_opt (rrs : list (option RR)) : Prop :=
  Forall (fun rr => forall h o, ~ is_OPT_ptr rr h o) rrs.

Lemma find_opt_Some m i h o :
  find_opt m = Some (i, h, o) ->
  IsEdns0 m = Some i /\ m_Extra m !! i = Some (Some (RR_OPT h o)) /\ hdr_Rrtype h = TypeOPT.
Proof.
  unfold find_opt. destruct (IsEdns0 m) as [j|] eqn:E; [|done].
  destruct (IsEdns0_Some m j E) as (h' & o' & rr & Hj & -> & Ht). rewrite Hj.
  by intros [= <- <- <-].
Qed.

Lemma find_opt_None m : find_opt m = None -> no_opt (m_Extra m).
Proof.
  unfold find_opt. destruct (IsEdns0 m) as [j|] eqn:E; [|by intros _; apply IsEdns0_None].
  destruct (IsEdns0_Some m j E) as (h' & o' & rr & Hj & -> & Ht). by rewrite Hj.
Qed.

Lemma find_opt_put m i h o h' o' :
  find_opt m = Some (i, h, o) -> hdr_Rrtype h' = TypeOPT ->
  find_opt (put_opt m i h' o') = Some (i, h', o').
Proof.
  intros (Hi & Hl & _)%find_opt_Some Ht. unfold find_opt, put_opt.
  rewrite (IsEdns0_update m i h o h' o' Hi Hl Ht).
  assert (m_Extra (set_Extra m (<[i:=Some (RR_OPT h' o')]> (m_Extra m))) =
          <[i:=Some (RR_OPT h' o')]> (m_Extra m)) as -> by by destruct m.
  rewrite list_lookup_insert_eq; [done|]. by eapply lookup_lt_Some.
Qed.

Lemma find_opt_append m h o :
  find_opt m = None -> hdr_Rrtype h = TypeOPT ->
  find_opt (set_Extra m (m_Extra m ++ [Some (RR_OPT h o)])) = Some (length (m_Extra m), h, o).
Proof.
  intros Hn%find_opt_None Ht. set (m' := set_Extra _ _).
  assert (m_Extra m' = m_Extra m ++ [Some (RR_OPT h o)]) as Hx by by destruct m.
  destruct (find_opt m') as [[[i h'] o']|] eqn:E.
  - apply find_opt_Some in E as (_ & Hl & Ht'). rewrite Hx in Hl.
    apply lookup_app_Some in Hl as [Hl|[Hle Hl]].
    + unfold no_opt in Hn. rewrite Forall_lookup in Hn. by destruct (Hn _ _ Hl h' o').
    + apply list_lookup_singleton_Some in Hl as [Hi Hl]. simplify_eq.
      repeat f_equal. lia.
  - apply find_opt_None in E. unfold no_opt in E. rewrite Hx, Forall_app, Forall_singleton in E.
    destruct E as [_ E]. by destruct (E h o).
Qed.

(** The number of OPT records of a section. *)
Definition is_opt (rr : option RR) : bool :=
  match rr with Some (RR_OPT h _) => hdr_Rrtype h =? TypeOPT | _ => false end.

Definition opt_count (rrs : list (option RR)) : nat := length (List.filter is_opt rrs).

Lemma opt_count_app l l' : opt_count (l ++ l') = (opt_count l + opt_count l')%nat.
Proof. unfold opt_count. by rewrite List.filter_app, length_app. Qed.

Lemma opt_count_insert l i x y :
  l !! i = Some x -> is_opt x = is_opt y -> opt_count (<[i := y]> l) = opt_count l.
Proof.
  revert i. induction l as [|a l IH]; intros [|i] Hl Hxy; simplify_eq/=.
  - unfold opt_count. simpl. by rewrite Hxy; destruct (is_opt y).
  - specialize (IH i Hl Hxy). unfold opt_count in *. simpl. destruct (is_opt a); simpl; lia.
Qed.

Lemma no_opt_count l : no_opt l -> opt_count l = 0%nat.
Proof.
  unfold no_opt, opt_count. induction 1 as [|rr l Hrr Hl IH]; [done|]. simpl.
  destruct (is_opt rr) eqn:E; [|done]. destruct rr as [[]|]; simpl in E; try done. zbool.
  by destruct (Hrr Hdr Option).
Qed.

Lemma opt_count_put m i h o h' o' :
  find_opt m = Some (i, h, o) -> hdr_Rrtype h' = TypeOPT ->
  opt_count (m_Extra (put_opt m i h' o')) = Nat.max 1 (opt_count (m_Extra m)).
Proof.
  intros (_ & Hl & Ht)%find_opt_Some Ht'. unfold put_opt. rewrite m_Extra_set.
  assert (forall h o, hdr_Rrtype h = TypeOPT -> is_opt (Some (RR_OPT h o)) = true) as Ho
    by (intros; simpl; by apply Z.eqb_eq).
  rewrite (opt_count_insert _ _ _ _ Hl) by by rewrite !Ho.
  rewrite <-(take_drop_middle _ _ _ Hl), opt_count_app. unfold opt_count. cbn [List.filter].
  rewrite Ho by done. simpl. lia.
Qed.

Lemma opt_count_append m h o :
  find_opt m = None -> hdr_Rrtype h = TypeOPT ->
  opt_count (m_Extra m ++ [Some (RR_OPT h o)]) = Nat.max 1 (opt_count (m_Extra m)).
Proof.
  intros E Ht. rewrite opt_count_app, (no_opt_count _ (find_opt_None _ E)).
  unfold opt_count. simpl. by rewrite Ht.
Qed.

End Opt.

(** ** The TTL of an answer

    Every place that derives a response's TTL runs the same loop: the first
    record's TTL, lowered by each later one; an empty answer keeps [dflt]. *)

Fixpoint ttl_loop (ttl : Z) (rrs : list (option RR)) : option Z :=
  match rrs with
  | [] => Some ttl
  | rr :: rrs' =>
    h ← Header rr;
    ttl_loop (if hdr_Ttl h <? ttl then hdr_Ttl h else ttl) rrs'
  end.

Definition answer_ttl (dflt : Z) (answer : list (option RR)) : option Z :=
  match answer with
  | [] => Some dflt
  | rr :: rest => h ← Header rr; ttl_loop (hdr_Ttl h) rest
  end.

(** No nil interface among the records. *)
Definition no_nil (rrs : list (option RR)) : Prop := Forall (fun rr => is_Some rr) rrs.

(** The TTLs of the records of a section. *)
Definition section_ttls (rrs : list (option RR)) : list Z :=
  omap (fun rr => hdr_Ttl <$> Header rr) rrs.

Lemma ttl_loop_spec rrs : forall ttl,
  no_nil rrs ->
  exists t, ttl_loop ttl rrs = Some t /\ t ∈ ttl :: section_ttls rrs /\
    Forall (fun x => t <= x) (ttl :: section_ttls rrs).
Proof.
  induction rrs as [|rr rrs IH]; intros ttl Hn; simpl.
  - exists ttl. split; [done|]. split; [left|]. by repeat constructor.
  - apply Forall_cons in Hn as [[r ->] Hn]. simpl.
    edestruct (IH (if hdr_Ttl (rr_hdr r) <? ttl then hdr_Ttl (rr_hdr r) else ttl) Hn)
      as (t & Ht & Hin & Hall).
    exists t. split; [done|]. apply Forall_cons in Hall as [H1 H2].
    destruct (hdr_Ttl (rr_hdr r) <? ttl) eqn:E; zbool; split; try set_solver;
      repeat constructor; try done; lia.
Qed.

(** The loop computes the least TTL of the answer, and only a nil record can
    make it panic. *)
Lemma answer_ttl_spec dflt rrs :
  no_nil rrs -> rrs <> [] ->
  exists t, answer_ttl dflt rrs = Some t /\ t ∈ section_ttls rrs /\
    Forall (fun x => t <= x) (section_ttls rrs).
Proof.
  destruct rrs as [|rr rrs]; [done|]. intros Hn _.
  apply Forall_cons in Hn as [[r ->] Hn]. simpl. by apply ttl_loop_spec.
Qed.

Lemma answer_ttl_is_Some dflt rrs : no_nil rrs -> is_Some (answer_ttl dflt rrs).
Proof.
  destruct rrs as [|rr rrs]; [by eexists|]. intros Hn.
  destruct (answer_ttl_spec dflt (rr :: rrs) Hn) as (t & -> & _); [done|by eexists].
Qed.

(** ** A reference implementation of the interface *)

Module Ref.

Definition is_OPTb (rr : option RR) : bool :=
  match rr with Some (RR_OPT h _) => hdr_Rrtype h =? TypeOPT | _ => false end.

Fixpoint last_index {A} (f : A -> bool) (l : list A) : option nat :=
  match l with
  | [] => None
  | x :: l' =>
    match last_index f l' with
    | Some i => Some (S i)
    | None => if f x then Some 0%nat else None
    end
  end.

Definition fqdn (s : string) : string := if HasSuffix s "." then s else s +:+ ".".

Definition do_bit : Z := 2 ^ 15.

Definition set_question (id : Z) (m : Msg) (z : string) (t : Z) : Msg :=
  set_RecursionDesired (set_Question (set_Id m id) [mkQuestion z t ClassINET]) true.

Definition set_reply (m req : Msg) : Msg :=
  let m1 := set_Response (set_Id m (m_Id req)) true in
  let m2 := set_CheckingDisabled (set_RecursionDesired m1 (m_RecursionDesired req))
              (m_CheckingDisabled req) in
  let m3 := set_Rcode m2 RcodeSuccess in
  match m_Question req with q :: _ => set_Question m3 [q] | [] => m3 end.

Definition opt_do (h : RR_Header) : bool := Z.testbit (hdr_Ttl h) 15.
Definition opt_set_do (h : RR_Header) : RR_Header := set_Ttl h (Z.lor (hdr_Ttl h) do_bit).

Definition set_edns0 (m : Msg) (size : Z) (do_ : bool) : Msg :=
  let h := mkHdr "." TypeOPT size 0 in
  set_Extra m (m_Extra m ++ [Some (RR_OPT (if do_ then opt_set_do h else h) [])]).

(** The wire format is an arbitrary injective code of a message. *)
Definition edns0_code (o : EDNS0) : Z * list Z * (Z * list Z) + Z * list Z :=
  match o with
  | EDNS0_LOCAL c d => inl (0, [c], (0, d))
  | EDNS0_SUBNET c f s k a => inl (1, [c; f; s; k], (0, a))
  | EDNS0_other c d => inr (c, d)
  end.
Definition edns0_decode (x : Z * list Z * (Z * list Z) + Z * list Z) : EDNS0 :=
  match x with
  | inl (_, [c], (_, d)) => EDNS0_LOCAL c d
  | inl (_, [c; f; s; k], (_, a)) => EDNS0_SUBNET c f s k a
  | inl (_, _, (_, d)) => EDNS0_other 0 d
  | inr (c, d) => EDNS0_other c d
  end.

#[export] Instance EDNS0_eq_dec : EqDecision EDNS0.
Proof. solve_decision. Defined.
#[export] Instance EDNS0_countable : Countable EDNS0.
Proof. refine (inj_countable' edns0_code edns0_decode _). by intros []. Defined.

#[export] Instance RR_Header_eq_dec : EqDecision RR_Header.
Proof. solve_decision. Defined.
#[export] Instance RR_Header_countable : Countable RR_Header.
Proof.
  refine (inj_countable' (fun h => (hdr_Name h, hdr_Rrtype h, hdr_Class h, hdr_Ttl h))
    (fun '(n, t, c, ttl) => mkHdr n t c ttl) _). by intros [].
Defined.

#[export] Instance RR_eq_dec : EqDecision RR.
Proof. solve_decision. Defined.
#[export] Instance RR_countable : Countable RR.
Proof.
  refine (inj_countable'
    (fun r => match r with
      | RR_A h a => inl (inl (h, a)) | RR_AAAA h a => inl (inr (h, a))
      | RR_OPT h o => inr (inl (h, o)) | RR_other h d => inr (inr (h, d)) end)
    (fun x => match x with
      | inl (inl (h, a)) => RR_A h a | inl (inr (h, a)) => RR_AAAA h a
      | inr (inl (h, o)) => RR_OPT h o | inr (inr (h, d)) => RR_other h d end) _).
  by intros [].
Defined.

#[export] Instance Question_eq_dec : EqDecision Question.
Proof. solve_decision. Defined.
#[export] Instance Question_countable : Countable Question.
Proof.
  refine (inj_countable' (fun q => (q_Name q, q_Qtype q, q_Qclass q))
    (fun '(n, t, c) => mkQuestion n t c) _). by intros [].
Defined.

#[export] Instance Msg_eq_dec : EqDecision Msg.
Proof. solve_decision. Defined.
#[export] Instance Msg_countable : Countable Msg.
Proof.
  refine (inj_countable'
    (fun m => (m_Id m, m_Response m, m_Opcode m, m_Authoritative m, m_Truncated m,
       m_RecursionDesired m, m_RecursionAvailable m, m_AuthenticatedData m,
       m_CheckingDisabled m, m_Rcode m, m_Compress m, m_Question m, m_Answer m, m_Ns m, m_Extra m))
    (fun '(id, qr, op, aa, tc, rd, ra, ad, cd, rc, co, q, an, ns, ex) =>
       mkMsg id qr op aa tc rd ra ad cd rc co q an ns ex) _).
  by intros [].
Defined.

Definition pack (m : Msg) : result (list Z) := Ok [Zpos (encode m)].
Definition unpack (b : list Z) : result Msg :=
  match b with
  | [Zpos p] =>
    match decode p with
    | Some m =>
      if forallb is_some (m_Answer m ++ m_Ns m ++ m_Extra m) then Ok m
      else Err (ExtErr "dns: overflow unpacking")
    | None => Err (ExtErr "dns: overflow unpacking")
    end
  | _ => Err (ExtErr "dns: overflow unpacking")
  end.

Definition types : list (string * Z) :=
  [("A", 1); ("NS", 2); ("CNAME", 5); ("SOA", 6); ("PTR", 12); ("MX", 15); ("TXT", 16);
   ("AAAA", 28); ("SRV", 33)].

#[export] Instance miekg_ref : Miekg := {|
  Fqdn := fqdn;
  SetQuestion := set_question;
  SetReply := set_reply;
  SetRcode := fun m req rc => set_Rcode (set_reply m req) rc;
  SetEdns0 := set_edns0;
  IsEdns0 := fun m => last_index is_OPTb (m_Extra m);
  OPT_UDPSize := hdr_Class;
  OPT_SetUDPSize := set_Class;
  OPT_Do := opt_do;
  OPT_SetDo := opt_set_do;
  Msg_Copy := fun m => m;
  RR_Copy := fun rr => rr;
  Msg_Pack := pack;
  Msg_Unpack := unpack;
  Msg_Len := fun m =>
    12 + 32 * Z.of_nat (length (m_Answer m) + length (m_Ns m) + length (m_Extra m));
  StringToType := fun s => snd <$> List.find (fun p => String.eqb (fst p) s) types;
  TypeToString := fun t => from_option fst "TYPE" (List.find (fun p => snd p =? t) types);
|}.

Lemma last_index_Some {A} (f : A -> bool) l i :
  last_index f l = Some i ->
  (exists x, l !! i = Some x /\ f x = true) /\
  (forall j x, (i < j)%nat -> l !! j = Some x -> f x = false).
Proof.
  revert i. induction l as [|a l IH]; intros i; simpl; [done|].
  destruct (last_index f l) as [k|] eqn:E.
  - intros [= <-]. destruct (IH k eq_refl) as [(x & Hx & Hf) Hj]. split; [by exists x|].
    intros [|j] y Hij Hy; [lia|]. eapply (Hj j); [lia|done].
  - destruct (f a) eqn:Ha; [|done]. intros [= <-]. split; [by exists a|].
    intros [|j] y Hij Hy; [lia|]. clear IH. revert j Hij y Hy E. clear Ha.
    induction l as [|b l IHl]; intros j Hij y Hy E; simpl in *; [done|].
    destruct (last_index f l); [done|]. destruct (f b) eqn:Hb; [done|].
    destruct j as [|j]; simpl in *; [congruence|]. eapply (IHl j); [lia|done|done].
Qed.

Lemma last_index_None {A} (f : A -> bool) l :
  last_index f l = None <-> Forall (fun x => f x = false) l.
Proof.
  induction l as [|a l IH]; simpl; [by split|].
  rewrite Forall_cons. destruct (last_index f l); [naive_solver|].
  destruct (f a); naive_solver.
Qed.

Lemma last_index_update {A} (f : A -> bool) l i x :
  last_index f l = Some i -> f x = true -> last_index f (<[i := x]> l) = Some i.
Proof.
  revert i. induction l as [|a l IH]; intros i; simpl; [done|].
  destruct (last_index f l) as [k|] eqn:E.
  - intros [= <-] Hx. simpl. by rewrite (IH k).
  - destruct (f a); [|done]. intros [= <-] Hx. simpl. by rewrite E, Hx.
Qed.

Lemma is_OPTb_spec rr : is_OPTb rr = true <-> exists h o, is_OPT_ptr rr h o.
Proof.
  unfold is_OPTb, is_OPT_ptr. destruct rr as [[]|]; simpl; try naive_solver.
  rewrite Z.eqb_eq. naive_solver.
Qed.

Lemma opt_do_set h : opt_do (opt_set_do h) = true.
Proof. unfold opt_do, opt_set_do. cbn [set_Ttl hdr_Ttl]. rewrite Z.lor_spec. apply orb_true_r. Qed.

#[export] Instance miekg_ref_laws : MiekgLaws miekg_ref.
Proof.
  constructor; simpl.
  - intros s. unfold fqdn at 2 3. destruct (HasSuffix s ".") eqn:E; [|].
    + unfold fqdn. by rewrite E.
    + unfold fqdn. by rewrite (proj2 (HasSuffix_spec _ _)) by eauto.
  - intros s. unfold fqdn. destruct (HasSuffix s ".") eqn:E.
    + apply HasSuffix_spec in E as [p ->]. by destruct p.
    + by destruct s.
  - done.
  - intros [] []. unfold set_reply. simpl. by destruct m_Question1.
  - intros [] []. unfold set_reply. simpl. by destruct m_Question1.
  - intros [] []. unfold set_reply. simpl. by destruct m_Question1.
  - intros [] q qs [] H. unfold set_reply. simpl in *. by subst.
  - intros [] []. unfold set_reply. simpl. by destruct m_Question1.
  - done.
  - intros m size do_. unfold set_edns0. eexists. split; [done|].
    destruct do_; simpl; [rewrite opt_do_set|]; done.
  - intros m i H. apply last_index_Some in H as [(x & Hx & Hf) _].
    apply is_OPTb_spec in Hf as (h & o & ?). by exists h, o, x.
  - intros m H. apply last_index_None in H. eapply Forall_impl; [exact H|].
    intros rr Hf h o Hp. assert (is_OPTb rr = true) by (apply is_OPTb_spec; eauto). congruence.
  - intros m m' H. by rewrite H.
  - intros [] i h o h' o' H1 H2 H3. simpl in *. apply last_index_update; [done|].
    simpl. by apply Z.eqb_eq.
  - done.
  - intros h. by rewrite opt_do_set.
  - done.
  - intros h H. unfold opt_do. by rewrite H.
  - intros b m. unfold unpack. destruct b as [|[|p|p] [|? ?]]; try done.
    destruct (decode p) as [m'|]; [|done]. destruct (forallb _ _) eqn:Hf; [|done].
    intros [= <-]. apply forallb_Forall in Hf. eapply Forall_impl; [exact Hf|].
    intros rr Hrr. destruct rr; [by eexists|done].
  - done.
  - done.
Qed.

End Ref.
