(* ===== verification/Validator.v ===== *)
(** * Response validation (core/dns/validator.go)

    What an upstream's message must satisfy before the module uses it: an
    exact characterisation of [ValidateResponse] and [ValidateQuestionMatch],
    and the guarantee later code depends on, that an accepted message has no
    nil record. *)

From S2P Require Import Prelude DnsMsg.

#[local] Open Scope Z_scope.
#[local] Open Scope go_scope.

(** The response codes the switch of [validateRcode] names. *)
Definition known_rcodes : list Z :=
  [0; 1; 2; 3; 4; 5; 6; 7; 8; 9; 10; 16; 17; 18; 19; 20; 21; 22; 23].

Definition validateRcode (rcode : Z) : result unit :=
  if existsb (Z.eqb rcode) known_rcodes then Ok tt
  else
    fail_if (rcode <? 0) || (rcode >? 4095)
      with Errorf "invalid rcode %d: out of valid range (0-4095)" [FInt rcode] in
    Ok tt.

Fixpoint validate_answer (i : Z) (rrs : list (option RR)) : result unit :=
  match rrs with
  | [] => Ok tt
  | None :: _ => Err (Errorf "dns validator: nil answer record at index %d" [FInt i])
  | Some rr :: rrs' =>
    fail_if hdr_Rrtype (rr_hdr rr) =? 0
      with Errorf "dns validator: answer record %d has zero type" [FInt i] in
    fail_if String.eqb (hdr_Name (rr_hdr rr)) ""
      with Errorf "dns validator: answer record %d has empty name" [FInt i] in
    validate_answer (i + 1) rrs'
  end.

Fixpoint validate_authority (i : Z) (rrs : list (option RR)) : result unit :=
  match rrs with
  | [] => Ok tt
  | None :: _ => Err (Errorf "dns validator: nil authority record at index %d" [FInt i])
  | Some rr :: rrs' =>
    fail_if hdr_Rrtype (rr_hdr rr) =? 0
      with Errorf "dns validator: authority record %d has zero type" [FInt i] in
    validate_authority (i + 1) rrs'
  end.

Fixpoint validate_additional (i : Z) (rrs : list (option RR)) : result unit :=
  match rrs with
  | [] => Ok tt
  | None :: _ => Err (Errorf "dns validator: nil additional record at index %d" [FInt i])
  | Some rr :: rrs' =>
    if hdr_Rrtype (rr_hdr rr) =? TypeOPT then validate_additional (i + 1) rrs' else
    fail_if hdr_Rrtype (rr_hdr rr) =? 0
      with Errorf "dns validator: additional record %d has zero type" [FInt i] in
    validate_additional (i + 1) rrs'
  end.

Definition ValidateResponse (msg : option Msg) : result unit :=
  match msg with
  | None => Err (Errorf "dns validator: nil response message" [])
  | Some m =>
    fail_if negb (m_Response m)
      with Errorf "dns validator: message is not a response (QR bit not set)" [] in
    match m_Question m with
    | [] => Err (Errorf "dns validator: response has no question section" [])
    | q :: _ =>
      fail_if String.eqb (q_Name q) ""
        with Errorf "dns validator: empty question name" [] in
      fail_if q_Qtype q =? 0
        with Errorf "dns validator: zero query type in question" [] in
      fail_if q_Qclass q =? 0
        with Errorf "dns validator: zero query class in question" [] in
      match validateRcode (m_Rcode m) with
      | Err e => Err (Wrapf "dns validator: %w" [] e)
      | Ok _ =>
        let? _ := validate_answer 0 (m_Answer m) in
        let? _ := validate_authority 0 (m_Ns m) in
        validate_additional 0 (m_Extra m)
      end
    end
  end.

Definition ValidateAnswerCount (msg : option Msg) : result unit :=
  match msg with
  | None => Err (Errorf "dns validator: nil message" [])
  | Some m =>
    fail_if (m_Rcode m =? RcodeSuccess) && (length (m_Answer m) =? 0)%nat
      with Errorf "dns validator: success response with zero answers" [] in
    Ok tt
  end.

Definition ValidateQuestionMatch `{Miekg} (msg : option Msg) (expectedName : string)
    (expectedQType : Z) : result unit :=
  match msg with
  | None => Err (Errorf "dns validator: nil message" [])
  | Some m =>
    match m_Question m with
    | [] => Err (Errorf "dns validator: no question in response" [])
    | q :: _ =>
      fail_if negb (String.eqb (q_Name q) (Fqdn expectedName))
        with Errorf "dns validator: question name mismatch: got %q, expected %q"
               [FStr (q_Name q); FStr (Fqdn expectedName)] in
      fail_if negb (q_Qtype q =? u16 expectedQType)
        with Errorf "dns validator: question type mismatch: got %d, expected %d"
               [FInt (q_Qtype q); FInt (u16 expectedQType)] in
      Ok tt
    end
  end.

(** ** Specification *)

(** A record of the answer section names an owner and a type. *)
Definition answer_rr_ok (rr : option RR) : Prop :=
  exists r, rr = Some r /\ hdr_Rrtype (rr_hdr r) <> 0 /\ hdr_Name (rr_hdr r) <> EmptyString.

Definition other_rr_ok (rr : option RR) : Prop :=
  exists r, rr = Some r /\ hdr_Rrtype (rr_hdr r) <> 0.

(** What makes a message an acceptable response. *)
Record valid_response (m : Msg) : Prop := {
  vr_response : m_Response m = true;
  vr_question : exists q qs, m_Question m = q :: qs /\
    q_Name q <> EmptyString /\ q_Qtype q <> 0 /\ q_Qclass q <> 0;
  vr_rcode : 0 <= m_Rcode m <= 4095;
  vr_answer : Forall answer_rr_ok (m_Answer m);
  vr_ns : Forall other_rr_ok (m_Ns m);
  vr_extra : Forall other_rr_ok (m_Extra m);
}.

Lemma validateRcode_ok rcode : validateRcode rcode = Ok tt <-> 0 <= rcode <= 4095.
Proof.
  unfold validateRcode. destruct (existsb _ _) eqn:E.
  - split; [intros _|done]. apply existsb_exists in E as (x & Hx & He). zbool. subst.
    unfold known_rcodes in Hx. simpl in Hx. lia.
  - destruct (_ || _) eqn:E2; [split; [done|]|split; [|done]].
    + apply orb_true_iff in E2 as [?|?]; zbool; lia.
    + intros _. apply orb_false_iff in E2 as [??]. zbool. lia.
Qed.

Lemma validate_answer_ok i rrs : validate_answer i rrs = Ok tt <-> Forall answer_rr_ok rrs.
Proof.
  revert i. induction rrs as [|[r|] rrs IH]; intros i; simpl; [by split| |].
  - rewrite Forall_cons, <-(IH (i + 1)).
    destruct (_ =? 0) eqn:E; zbool; [unfold answer_rr_ok; naive_solver|].
    destruct (String.eqb _ _) eqn:E2; [apply String.eqb_eq in E2|apply String.eqb_neq in E2];
      unfold answer_rr_ok; naive_solver.
  - rewrite Forall_cons. unfold answer_rr_ok. naive_solver.
Qed.

Lemma validate_authority_ok i rrs : validate_authority i rrs = Ok tt <-> Forall other_rr_ok rrs.
Proof.
  revert i. induction rrs as [|[r|] rrs IH]; intros i; simpl; [by split| |].
  - rewrite Forall_cons, <-(IH (i + 1)).
    destruct (_ =? 0) eqn:E; zbool; unfold other_rr_ok; naive_solver.
  - rewrite Forall_cons. unfold other_rr_ok. naive_solver.
Qed.

Lemma validate_additional_ok i rrs : validate_additional i rrs = Ok tt <-> Forall other_rr_ok rrs.
Proof.
  revert i. induction rrs as [|[r|] rrs IH]; intros i; simpl; [by split| |].
  - rewrite Forall_cons, <-(IH (i + 1)).
    destruct (_ =? TypeOPT) eqn:E; zbool.
    + assert (other_rr_ok (Some r)) by (exists r; split; [done|]; rewrite E; done). naive_solver.
    + destruct (_ =? 0) eqn:E2; zbool; unfold other_rr_ok; naive_solver.
  - rewrite Forall_cons. unfold other_rr_ok. naive_solver.
Qed.

Lemma other_rr_ok_no_nil rrs : Forall other_rr_ok rrs -> no_nil rrs.
Proof. intros HF. eapply Forall_impl; [exact HF|]. intros rr (r & -> & _). by eexists. Qed.

Lemma answer_rr_ok_no_nil rrs : Forall answer_rr_ok rrs -> no_nil rrs.
Proof. intros HF. eapply Forall_impl; [exact HF|]. intros rr (r & -> & _). by eexists. Qed.

#[export] Hint Resolve other_rr_ok_no_nil answer_rr_ok_no_nil : go.

Lemma ValidateResponse_valid m : ValidateResponse (Some m) = Ok tt <-> valid_response m.
Proof.
  unfold ValidateResponse. split.
  - intros H. destruct (m_Response m) eqn:ER; simpl in H; [|done].
    destruct (m_Question m) as [|q qs] eqn:EQ; [done|].
    destruct (String.eqb _ _) eqn:E1; [done|]. apply String.eqb_neq in E1.
    destruct (q_Qtype q =? 0) eqn:E2; [done|]. destruct (q_Qclass q =? 0) eqn:E3; [done|]. zbool.
    destruct (validateRcode _) as [[]|] eqn:E4; [|done]. apply validateRcode_ok in E4.
    destruct (validate_answer _ _) as [[]|] eqn:E5; [|done]. apply validate_answer_ok in E5.
    destruct (validate_authority _ _) as [[]|] eqn:E6; [|done]. apply validate_authority_ok in E6.
    apply validate_additional_ok in H. constructor; eauto 10.
  - intros [-> (q & qs & -> & H1 & H2 & H3) H4 H5 H6 H7]. simpl.
    rewrite (proj2 (String.eqb_neq _ _) H1), (proj2 (Z.eqb_neq _ _) H2), (proj2 (Z.eqb_neq _ _) H3).
    rewrite (proj2 (validateRcode_ok _) H4), (proj2 (validate_answer_ok _ _) H5),
      (proj2 (validate_authority_ok _ _) H6). by apply validate_additional_ok.
Qed.

Lemma ValidateQuestionMatch_ok `{Miekg} m name qt :
  ValidateQuestionMatch (Some m) name qt = Ok tt <->
  exists q qs, m_Question m = q :: qs /\ q_Name q = Fqdn name /\ q_Qtype q = u16 qt.
Proof.
  unfold ValidateQuestionMatch. destruct (m_Question m) as [|q qs]; [naive_solver|].
  destruct (String.eqb _ _) eqn:E1; [apply String.eqb_eq in E1|apply String.eqb_neq in E1]; simpl;
    [|naive_solver].
  destruct (_ =? _) eqn:E2; zbool; simpl; naive_solver.
Qed.

(** ** Properties *)

(** [ValidateResponse] accepts a message exactly when it is a
    well-formed response: the QR bit is set, there is a question with a name, a
    type and a class, the response code is within 0..4095, every answer record
    is non-nil with a type and an owner name, and every authority and
    additional record is non-nil with a type; a nil message is always refused. *)
Theorem validate_response_exact (msg : option Msg) :
  ValidateResponse msg = Ok tt <-> exists m, msg = Some m /\ valid_response m.
Proof.
  destruct msg as [m|]; [|naive_solver].
  rewrite ValidateResponse_valid. naive_solver.
Qed.

(** Once a message passes [ValidateResponse], the loop that derives the
    response TTL cannot panic on a nil record, and for a non-empty answer it
    yields the least TTL among the answer records. *)
Theorem validated_ttl_is_minimum (m : Msg) (dflt : Z)
  (Hv : ValidateResponse (Some m) = Ok tt) :
  exists t, answer_ttl dflt (m_Answer m) = Some t /\
    (m_Answer m = [] -> t = dflt) /\
    (m_Answer m <> [] -> t ∈ section_ttls (m_Answer m) /\
       Forall (fun x => t <= x) (section_ttls (m_Answer m))).
Proof.
  apply ValidateResponse_valid in Hv. pose proof (answer_rr_ok_no_nil _ (vr_answer _ Hv)) as Hn.
  destruct (m_Answer m) as [|rr rrs] eqn:E; [by exists dflt|].
  destruct (answer_ttl_spec dflt (rr :: rrs) Hn) as (t & Ht & H1 & H2); [done|].
  exists t. by repeat split.
Qed.

Definition sample_msg : Msg :=
  set_Answer (set_Question (set_Response new_Msg true) [mkQuestion "a.example." 1 1])
    [Some (RR_A (mkHdr "a.example." 1 1 300) [1; 2; 3; 4]);
     Some (RR_A (mkHdr "a.example." 1 1 120) [1; 2; 3; 5])].

Lemma validated_ttl_is_minimum_witness :
  exists t, answer_ttl 0 (m_Answer sample_msg) = Some t /\
    (m_Answer sample_msg = [] -> t = 0) /\
    (m_Answer sample_msg <> [] -> t ∈ section_ttls (m_Answer sample_msg) /\
       Forall (fun x => t <= x) (section_ttls (m_Answer sample_msg))).
Proof. apply (validated_ttl_is_minimum sample_msg 0). reflexivity. Defined.
