(* ===== verification/DnsConfig.v ===== *)
(** * Configuration of the DNS module (core/dns/config.go, types.go)

    The configuration records, their defaults and [Validate], with an exact
    characterisation of the configurations [Validate] accepts. *)

From S2P Require Import Prelude DnsMsg.

#[local] Open Scope Z_scope.
#[local] Open Scope go_scope.

Definition DefaultListenAddr : string := "0.0.0.0:52353".
Definition DefaultTimeout : Z := 5.
Definition DefaultCacheSize : Z := 4096.
Definition DefaultMinTTL : Z := 60.
Definition DefaultMaxTTL : Z := 86400.

Record DnsListenerConfig := mkListenerConfig {
  ListenAddr : string;
  ExtraListenAddrs : list string;
  Timeout : Z;
}.

Record CacheConfig := mkCacheConfig {
  cfg_Enabled : bool;
  cfg_Size : Z;
  cfg_MinTTL : Z;
  cfg_MaxTTL : Z;
  cfg_Prefetch : bool;
  cfg_PrefetchThreshold : Z;
  cfg_NegativeCache : bool;
}.

Record UpstreamConfig := mkUpstreamConfig {
  uc_ID : string;
  uc_Addr : string;
  uc_Protocol : string;
  uc_ProxyTag : string;
  uc_Bootstrap : bool;
  uc_ServerName : string;
}.

(** [RuleConfig] and [DnsRule] have the same fields; [Reload] and [Start] copy
    one into the other field by field. *)
Record DnsRule := mkRule {
  rule_ID : string;
  rule_Domain : list string;
  rule_DomainSuffix : list string;
  rule_DomainRegex : list string;
  rule_IP : list string;
  rule_QueryType : list Z;
  rule_ClientIP : list string;
  rule_Upstream : string;
  rule_Action : string;
  rule_Policy : string;
}.

Record RuleConfig := mkRuleConfig {
  rc_ID : string;
  rc_Domain : list string;
  rc_DomainSuffix : list string;
  rc_DomainRegex : list string;
  rc_IP : list string;
  rc_QueryType : list Z;
  rc_ClientIP : list string;
  rc_Upstream : string;
  rc_Action : string;
  rc_Policy : string;
}.

(** The loop of [Reload] and of [Start] that converts the configured rules. *)
Definition rule_of_config (rc : RuleConfig) : DnsRule :=
  mkRule (rc_ID rc) (rc_Domain rc) (rc_DomainSuffix rc) (rc_DomainRegex rc) (rc_IP rc)
    (rc_QueryType rc) (rc_ClientIP rc) (rc_Upstream rc) (rc_Action rc) (rc_Policy rc).

Record DnsModuleConfig := mkModuleConfig {
  mc_Listener : DnsListenerConfig;
  mc_Cache : CacheConfig;
  mc_Upstreams : list UpstreamConfig;
  mc_Rules : list RuleConfig;
  mc_DefaultUpstream : string;
  mc_ProxyMap : gmap string string;
  mc_Bootstrap : list string;
  mc_BootstrapDns : list string;
  mc_EgressInterface : string;
}.

Definition DefaultDnsListenerConfig : DnsListenerConfig :=
  mkListenerConfig DefaultListenAddr [] DefaultTimeout.

Definition DefaultDnsModuleConfig : DnsModuleConfig :=
  mkModuleConfig DefaultDnsListenerConfig
    (mkCacheConfig true DefaultCacheSize DefaultMinTTL DefaultMaxTTL false 0 false)
    [] [] "" ∅ [] [] "".

(** [strings.Contains(s, ":")] *)
Definition has_colon (s : string) : bool := has_byte ":"%char s.

Fixpoint validate_extra (i : Z) (addrs : list string) : result unit :=
  match addrs with
  | [] => Ok tt
  | addr :: addrs' =>
    fail_if negb (has_colon addr)
      with Errorf "dns listener: extra address[%d] %q must include port" [FInt i; FStr addr] in
    validate_extra (i + 1) addrs'
  end.

Definition ListenerConfig_Validate (c : DnsListenerConfig) : result unit :=
  fail_if String.eqb (ListenAddr c) ""
    with Errorf "dns listener: listen address must not be empty" [] in
  fail_if negb (has_colon (ListenAddr c))
    with Errorf "dns listener: listen address %q must include port" [FStr (ListenAddr c)] in
  let? _ := validate_extra 0 (ExtraListenAddrs c) in
  fail_if Timeout c <=? 0
    with Errorf "dns listener: timeout must be positive, got %d" [FInt (Timeout c)] in
  Ok tt.

Definition ModuleConfig_Validate (c : DnsModuleConfig) : result unit :=
  let? _ := ListenerConfig_Validate (mc_Listener c) in
  let cache := mc_Cache c in
  fail_if cfg_Size cache <? 0
    with Errorf "dns module: cache size must be non-negative, got %d" [FInt (cfg_Size cache)] in
  fail_if cfg_MinTTL cache <? 0
    with Errorf "dns module: min TTL must be non-negative, got %d" [FInt (cfg_MinTTL cache)] in
  fail_if cfg_MaxTTL cache <? 0
    with Errorf "dns module: max TTL must be non-negative, got %d" [FInt (cfg_MaxTTL cache)] in
  fail_if (cfg_MinTTL cache >? cfg_MaxTTL cache) && (cfg_MaxTTL cache >? 0)
    with Errorf "dns module: min TTL (%d) must not exceed max TTL (%d)"
           [FInt (cfg_MinTTL cache); FInt (cfg_MaxTTL cache)] in
  Ok tt.

(** ** Specification *)

Definition listener_config_ok (c : DnsListenerConfig) : Prop :=
  has_colon (ListenAddr c) = true /\
  Forall (fun a => has_colon a = true) (ExtraListenAddrs c) /\
  0 < Timeout c.

(** The TTL window of an accepted cache configuration: the maximum, when it is
    set, is not below the minimum. *)
Definition cache_config_ok (c : CacheConfig) : Prop :=
  0 <= cfg_Size c /\ 0 <= cfg_MinTTL c /\ 0 <= cfg_MaxTTL c /\
  (cfg_MaxTTL c = 0 \/ cfg_MinTTL c <= cfg_MaxTTL c).

Lemma validate_extra_ok i addrs :
  validate_extra i addrs = Ok tt <-> Forall (fun a => has_colon a = true) addrs.
Proof.
  revert i. induction addrs as [|a addrs IH]; intros i; simpl; [by split|].
  rewrite Forall_cons, <-(IH (i + 1)). destruct (has_colon a); naive_solver.
Qed.

Lemma ListenerConfig_Validate_ok c :
  ListenerConfig_Validate c = Ok tt <-> listener_config_ok c.
Proof.
  unfold ListenerConfig_Validate, listener_config_ok.
  rewrite <-(validate_extra_ok 0 (ExtraListenAddrs c)).
  destruct (String.eqb _ _) eqn:E1.
  { apply String.eqb_eq in E1. rewrite E1. split; [done|]. by intros (? & _). }
  destruct (has_colon _); simpl; [|naive_solver].
  destruct (validate_extra _ _) as [[]|]; [|naive_solver].
  destruct (_ <=? 0) eqn:E2; zbool; naive_solver lia.
Qed.

(** [DnsModuleConfig.Validate] accepts a configuration exactly when
    the listener addresses all carry a port, the timeout is positive, the cache
    size and TTL bounds are non-negative, and the minimum TTL does not exceed a
    configured (non-zero) maximum. *)
Theorem module_config_validate_exact (c : DnsModuleConfig) :
  ModuleConfig_Validate c = Ok tt <->
  listener_config_ok (mc_Listener c) /\ cache_config_ok (mc_Cache c).
Proof.
  unfold ModuleConfig_Validate, cache_config_ok. rewrite <-ListenerConfig_Validate_ok.
  destruct (ListenerConfig_Validate _) as [[]|]; [|naive_solver].
  repeat (case_match; zbool); try naive_solver lia.
Qed.
