(* ===== verification/NetIP.v ===== *)
(** * The parts of Go's [net] and [net/netip] the DNS module uses

    Textual addresses ([ParseAddr], [ParseIP], [ParseCIDR], [ParseAddrPort] and
    the printing of an address and port), CIDR membership, the address classes
    and [SplitHostPort]/[JoinHostPort], as executable functions on bytes.  A
    [net.IP] is its list of bytes: 4 or 16 of them, none for the nil IP. *)

From stdpp Require Import pretty.
From S2P Require Import Prelude.

#[local] Open Scope Z_scope.

(** ** Characters *)

Definition code (a : Ascii.ascii) : Z := Z.of_nat (Ascii.nat_of_ascii a).

Fixpoint codes (s : string) : list Z :=
  match s with EmptyString => [] | String a s' => code a :: codes s' end.

Definition dot : Z := 46.
Definition colon : Z := 58.
Definition percent : Z := 37.

Definition is_digit (c : Z) : bool := (48 <=? c) && (c <=? 57).

Definition hex_value (c : Z) : option Z :=
  if is_digit c then Some (c - 48)
  else if (97 <=? c) && (c <=? 102) then Some (c - 87)
  else if (65 <=? c) && (c <=? 70) then Some (c - 55)
  else None.

(** ** Textual addresses (net/netip) *)

Inductive Addr :=
| AddrV4 (b : list Z)
| AddrV6 (b : list Z) (zone : list Z).

#[export] Instance Addr_eq_dec : EqDecision Addr.
Proof. solve_decision. Defined.

(** [parseIPv4Fields]: [first] at the start of the field list, [prevdot] after a
    dot. *)
Fixpoint v4_fields (s : list Z) (first prevdot : bool) (val digLen pos : Z) (acc : list Z)
    : option (list Z) :=
  match s with
  | [] => if pos <? 3 then None else Some (acc ++ [val])
  | c :: s' =>
    if is_digit c then
      if (digLen =? 1) && (val =? 0) then None
      else
        let val := val * 10 + (c - 48) in
        if val >? 255 then None else v4_fields s' false false val (digLen + 1) pos acc
    else if c =? dot then
      if first || bool_decide (s' = []) || prevdot then None
      else if pos =? 3 then None
      else v4_fields s' false true 0 0 (pos + 1) (acc ++ [val])
    else None
  end.

Definition parse_v4 (s : list Z) : option (list Z) := v4_fields s true false 0 0 0 [].

(** The hexadecimal digits at the front of a field: value, count and rest. *)
Fixpoint hex_prefix (s : list Z) (off : nat) (acc : Z) : option (Z * nat * list Z) :=
  match s with
  | [] => Some (acc, off, [])
  | c :: s' =>
    match hex_value c with
    | Some d => if (3 <? off)%nat then None else hex_prefix s' (S off) (acc * 16 + d)
    | None => Some (acc, off, s)
    end
  end.

(** The loop of [parseIPv6]; each round but the last stores two bytes, so eight
    rounds fill the sixteen bytes and [fuel] is the number of rounds left. *)
Fixpoint v6_loop (fuel : nat) (i : nat) (ell : option nat) (bytes s : list Z)
    : option (nat * option nat * list Z * list Z) :=
  match fuel with
  | O => Some (i, ell, bytes, s)
  | S fuel =>
    '(acc, off, rest) ← hex_prefix s 0 0;
    if (off =? 0)%nat then None
    else if bool_decide (head rest = Some dot) then
      if negb (is_some ell) && negb (i =? 12)%nat then None
      else if (16 <? i + 4)%nat then None
      else v4 ← parse_v4 s; Some ((i + 4)%nat, ell, bytes ++ v4, [])
    else
      let bytes := bytes ++ [Z.shiftr acc 8; Z.land acc 255] in
      let i := (i + 2)%nat in
      match rest with
      | [] => Some (i, ell, bytes, [])
      | c :: rest =>
        if negb (c =? colon) then None
        else
          match rest with
          | [] => None
          | c2 :: rest' =>
            if c2 =? colon then
              if is_some ell then None
              else
                match rest' with
                | [] => Some (i, Some i, bytes, [])
                | _ => v6_loop fuel i (Some i) bytes rest'
                end
            else v6_loop fuel i ell bytes rest
          end
      end
  end.

Definition v6_finish (r : nat * option nat * list Z * list Z) : option (list Z) :=
  let '(i, ell, bytes, s) := r in
  match s with
  | _ :: _ => None
  | [] =>
    if (i <? 16)%nat then
      match ell with
      | None => None
      | Some e => Some (take e bytes ++ replicate (16 - i) 0 ++ drop e bytes)
      end
    else if is_some ell then None else Some bytes
  end.

Fixpoint cut_at (c : Z) (s : list Z) : option (list Z * list Z) :=
  match s with
  | [] => None
  | x :: s' =>
    if x =? c then Some ([], s')
    else '(a, b) ← cut_at c s'; Some (x :: a, b)
  end.

Definition parse_v6 (inp : list Z) : option Addr :=
  '(s, zone) ← match cut_at percent inp with
               | None => Some (inp, [])
               | Some (s, zone) => match zone with [] => None | _ => Some (s, zone) end
               end;
  match s with
  | 58 :: 58 :: [] => Some (AddrV6 (replicate 16 0) zone)
  | 58 :: 58 :: s' => r ← v6_loop 8 0 (Some 0%nat) [] s'; b ← v6_finish r; Some (AddrV6 b zone)
  | _ => r ← v6_loop 8 0 None [] s; b ← v6_finish r; Some (AddrV6 b zone)
  end.

Fixpoint addr_kind (s : list Z) : option Z :=
  match s with
  | [] => None
  | c :: s' => if (c =? dot) || (c =? colon) || (c =? percent) then Some c else addr_kind s'
  end.

Definition ParseAddr (s : string) : option Addr :=
  let s := codes s in
  match addr_kind s with
  | Some 46 => AddrV4 <$> parse_v4 s
  | Some 58 => parse_v6 s
  | _ => None
  end.

Definition v4in6_prefix : list Z := [0; 0; 0; 0; 0; 0; 0; 0; 0; 0; 255; 255].

Definition As16 (a : Addr) : list Z :=
  match a with AddrV4 b => v4in6_prefix ++ b | AddrV6 b _ => b end.

Definition BitLen (a : Addr) : Z := match a with AddrV4 _ => 32 | AddrV6 _ _ => 128 end.

Definition has_zone (a : Addr) : bool :=
  match a with AddrV4 _ => false | AddrV6 _ z => negb (bool_decide (z = [])) end.

(** ** net.IP *)

Definition ParseIP (s : string) : option (list Z) :=
  a ← ParseAddr s; if has_zone a then None else Some (As16 a).

Definition To4 (ip : list Z) : option (list Z) :=
  if (length ip =? 4)%nat then Some ip
  else if (length ip =? 16)%nat && bool_decide (take 12 ip = v4in6_prefix) then Some (drop 12 ip)
  else None.

Definition To16 (ip : list Z) : option (list Z) :=
  if (length ip =? 4)%nat then Some (v4in6_prefix ++ ip)
  else if (length ip =? 16)%nat then Some ip
  else None.

Definition IP_Equal (a b : list Z) : bool :=
  if (length a =? length b)%nat then bool_decide (a = b)
  else if (length a =? 4)%nat && (length b =? 16)%nat then bool_decide (v4in6_prefix ++ a = b)
  else if (length a =? 16)%nat && (length b =? 4)%nat then bool_decide (a = v4in6_prefix ++ b)
  else false.

Definition IPv4zero : list Z := v4in6_prefix ++ [0; 0; 0; 0].
Definition IPv4bcast : list Z := v4in6_prefix ++ [255; 255; 255; 255].
Definition IPv6unspecified : list Z := replicate 16 0.
Definition IPv6loopback : list Z := replicate 15 0 ++ [1].

Definition nth_byte (ip : list Z) (i : nat) : Z := nth i ip 0.

Definition IsUnspecified (ip : list Z) : bool := IP_Equal ip IPv4zero || IP_Equal ip IPv6unspecified.

Definition IsLoopback (ip : list Z) : bool :=
  match To4 ip with
  | Some ip4 => nth_byte ip4 0 =? 127
  | None => IP_Equal ip IPv6loopback
  end.

Definition IsPrivate (ip : list Z) : bool :=
  match To4 ip with
  | Some ip4 =>
    (nth_byte ip4 0 =? 10) ||
    ((nth_byte ip4 0 =? 172) && (Z.land (nth_byte ip4 1) 240 =? 16)) ||
    ((nth_byte ip4 0 =? 192) && (nth_byte ip4 1 =? 168))
  | None => (length ip =? 16)%nat && (Z.land (nth_byte ip 0) 254 =? 252)
  end.

Definition IsMulticast (ip : list Z) : bool :=
  match To4 ip with
  | Some ip4 => Z.land (nth_byte ip4 0) 240 =? 224
  | None => (length ip =? 16)%nat && (nth_byte ip 0 =? 255)
  end.

Definition IsLinkLocalUnicast (ip : list Z) : bool :=
  match To4 ip with
  | Some ip4 => (nth_byte ip4 0 =? 169) && (nth_byte ip4 1 =? 254)
  | None =>
    (length ip =? 16)%nat && (nth_byte ip 0 =? 254) && (Z.land (nth_byte ip 1) 192 =? 128)
  end.

Definition IsGlobalUnicast (ip : list Z) : bool :=
  ((length ip =? 4)%nat || (length ip =? 16)%nat) &&
  negb (IP_Equal ip IPv4bcast) && negb (IsUnspecified ip) && negb (IsLoopback ip) &&
  negb (IsMulticast ip) && negb (IsLinkLocalUnicast ip).

(** ** net.IPNet *)

Record IPNet := mkIPNet { net_IP : list Z; net_Mask : list Z }.

Fixpoint CIDRMask (n : Z) (nbytes : nat) : list Z :=
  match nbytes with
  | O => []
  | S k => if n >=? 8 then 255 :: CIDRMask (n - 8) k
           else (255 - Z.shiftr 255 n) :: CIDRMask 0 k
  end.

Fixpoint land_bytes (a b : list Z) : list Z :=
  match a, b with x :: a', y :: b' => Z.land x y :: land_bytes a' b' | _, _ => [] end.

Definition IP_Mask (ip mask : list Z) : list Z :=
  let mask := if (length mask =? 16)%nat && (length ip =? 4)%nat &&
                 bool_decide (take 12 mask = replicate 12 255) then drop 12 mask else mask in
  let ip := if (length mask =? 4)%nat && (length ip =? 16)%nat &&
               bool_decide (take 12 ip = v4in6_prefix) then drop 12 ip else ip in
  if (length ip =? length mask)%nat then land_bytes ip mask else [].

Fixpoint dtoi_loop (s : list Z) (n : Z) : option Z :=
  match s with
  | [] => Some n
  | c :: s' =>
    if is_digit c then
      let n := n * 10 + (c - 48) in
      if n >=? 16777215 then None else dtoi_loop s' n
    else None
  end.

(** [dtoi] followed by the caller's check that all of the text was digits. *)
Definition dtoi (s : list Z) : option Z := match s with [] => None | _ => dtoi_loop s 0 end.

(** [strings.Cut(s, "/")] *)
Fixpoint s_cut (c : Ascii.ascii) (s : string) : option (string * string) :=
  match s with
  | EmptyString => None
  | String a s' =>
    if Ascii.eqb a c then Some (EmptyString, s')
    else '(x, y) ← s_cut c s'; Some (String a x, y)
  end.

Definition ParseCIDR (s : string) : option IPNet :=
  '(addr, mask) ← s_cut "/" s;
  a ← ParseAddr addr;
  if has_zone a then None
  else
    n ← dtoi (codes mask);
    if n >? BitLen a then None
    else
      let m := CIDRMask n (Z.to_nat (BitLen a / 8)) in
      Some (mkIPNet (IP_Mask (As16 a) m) m).

Definition networkNumberAndMask (n : IPNet) : list Z * list Z :=
  let ip := match To4 (net_IP n) with
            | Some ip => Some ip
            | None => if (length (net_IP n) =? 16)%nat then Some (net_IP n) else None
            end in
  match ip with
  | None => ([], [])
  | Some ip =>
    let m := net_Mask n in
    if (length m =? 4)%nat then
      if (length ip =? 4)%nat then (ip, m) else ([], [])
    else if (length m =? 16)%nat then
      if (length ip =? 4)%nat then (ip, drop 12 m) else (ip, m)
    else ([], [])
  end.

Definition IPNet_Contains (n : IPNet) (ip : list Z) : bool :=
  let '(nn, m) := networkNumberAndMask n in
  let ip := match To4 ip with Some x => x | None => ip end in
  (length ip =? length nn)%nat && bool_decide (land_bytes nn m = land_bytes ip m).

(** ** host:port *)

Fixpoint last_index_byte (c : Ascii.ascii) (s : string) : option nat :=
  match s with
  | EmptyString => None
  | String a s' =>
    match last_index_byte c s' with
    | Some i => Some (S i)
    | None => if Ascii.eqb a c then Some 0%nat else None
    end
  end.

Fixpoint index_byte (c : Ascii.ascii) (s : string) : option nat :=
  match s with
  | EmptyString => None
  | String a s' => if Ascii.eqb a c then Some 0%nat else S <$> index_byte c s'
  end.

Definition s_take (n : nat) (s : string) : string := String.substring 0 n s.
Definition s_drop (n : nat) (s : string) : string := String.substring n (s_len s - n) s.

Definition missingPort : error := ExtErr "missing port in address".
Definition tooManyColons : error := ExtErr "too many colons in address".

Definition split_tail (hostport : string) (i j k : nat) (host : string) : result (string * string) :=
  if has_byte "[" (s_drop j hostport) then Err (ExtErr "unexpected '[' in address")
  else if has_byte "]" (s_drop k hostport) then Err (ExtErr "unexpected ']' in address")
  else Ok (host, s_drop (S i) hostport).

Definition SplitHostPort (hostport : string) : result (string * string) :=
  match last_index_byte ":" hostport with
  | None => Err missingPort
  | Some i =>
    if HasPrefix hostport "[" then
      match index_byte "]" hostport with
      | None => Err (ExtErr "missing ']' in address")
      | Some e =>
        if (e + 1 =? s_len hostport)%nat then Err missingPort
        else if (e + 1 =? i)%nat then
          split_tail hostport i 1 (e + 1) (String.substring 1 (e - 1) hostport)
        else if HasPrefix (s_drop (e + 1) hostport) ":" then Err tooManyColons
        else Err missingPort
      end
    else
      let host := s_take i hostport in
      if has_byte ":" host then Err tooManyColons
      else split_tail hostport i 0 0 host
  end.

Definition JoinHostPort (host port : string) : string :=
  if has_byte ":" host then "[" +:+ host +:+ "]:" +:+ port else host +:+ ":" +:+ port.

(** ** netip.AddrPort *)

Record AddrPort := mkAddrPort { ap_Addr : Addr; ap_Port : Z }.

#[export] Instance AddrPort_eq_dec : EqDecision AddrPort.
Proof. solve_decision. Defined.

(** [strconv.ParseUint(s, 10, 16)]: decimal digits only, at most 65535. *)
Fixpoint parse_uint16 (s : list Z) (n : Z) : option Z :=
  match s with
  | [] => Some n
  | c :: s' =>
    if is_digit c then
      let n := n * 10 + (c - 48) in
      if n >? 65535 then None else parse_uint16 s' n
    else None
  end.

(** The brackets of an IPv6 literal, stripped, and whether there were any. *)
Definition strip_brackets (ip : string) : option (string * bool) :=
  if HasPrefix ip "[" then
    if (s_len ip <? 2)%nat || negb (HasSuffix ip "]") then None
    else Some (String.substring 1 (s_len ip - 2) ip, true)
  else Some (ip, false).

Definition ParseAddrPort (s : string) : option AddrPort :=
  i ← last_index_byte ":"%char s;
  let ip := s_take i s in
  let port := s_drop (S i) s in
  if String.eqb ip "" || String.eqb port "" then None
  else
    match strip_brackets ip with
    | None => None
    | Some (ip, v6) =>
      p ← parse_uint16 (codes port) 0;
      a ← ParseAddr ip;
      match a with
      | AddrV4 _ => if v6 then None else Some (mkAddrPort a p)
      | AddrV6 _ _ => if v6 then Some (mkAddrPort a p) else None
      end
    end.

Definition Unmap (a : Addr) : Addr :=
  match a with
  | AddrV6 b _ => if bool_decide (take 12 b = v4in6_prefix) then AddrV4 (drop 12 b) else a
  | AddrV4 _ => a
  end.

Definition Addr_IsLoopback (a : Addr) : bool :=
  match Unmap a with
  | AddrV4 b => nth_byte b 0 =? 127
  | AddrV6 b z => bool_decide (b = IPv6loopback) && bool_decide (z = [])
  end.

Definition Addr_IsPrivate (a : Addr) : bool :=
  match Unmap a with
  | AddrV4 b =>
    (nth_byte b 0 =? 10) || ((nth_byte b 0 =? 172) && (Z.land (nth_byte b 1) 240 =? 16)) ||
    ((nth_byte b 0 =? 192) && (nth_byte b 1 =? 168))
  | AddrV6 b _ => Z.land (nth_byte b 0) 254 =? 252
  end.

(** Printing. *)
Definition dec (n : Z) : string := pretty n.

Definition v4_string (b : list Z) : string :=
  dec (nth_byte b 0) +:+ "." +:+ dec (nth_byte b 1) +:+ "." +:+ dec (nth_byte b 2) +:+ "." +:+
  dec (nth_byte b 3).

Definition hex_digit (d : Z) : string :=
  String.substring (Z.to_nat d) 1 "0123456789abcdef".

Definition hex16 (n : Z) : string :=
  (if n >=? 4096 then hex_digit (Z.shiftr n 12) else EmptyString) +:+
  (if n >=? 256 then hex_digit (Z.land (Z.shiftr n 8) 15) else EmptyString) +:+
  (if n >=? 16 then hex_digit (Z.land (Z.shiftr n 4) 15) else EmptyString) +:+
  hex_digit (Z.land n 15).

Fixpoint groups (b : list Z) : list Z :=
  match b with x :: y :: b' => (x * 256 + y) :: groups b' | _ => [] end.

Fixpoint zero_run (g : list Z) : nat :=
  match g with 0 :: g' => S (zero_run g') | _ => O end.

(** The first longest run of at least two zero groups: start and length. *)
Fixpoint best_run (g : list Z) (i : nat) (best : nat * nat) : nat * nat :=
  match g with
  | [] => best
  | _ :: g' =>
    let l := zero_run g in
    best_run g' (S i) (if (2 <=? l)%nat && (snd best <? l)%nat then (i, l) else best)
  end.

Fixpoint join_hex (g : list Z) : string :=
  match g with
  | [] => EmptyString
  | [x] => hex16 x
  | x :: g' => hex16 x +:+ ":" +:+ join_hex g'
  end.

Definition v6_string (b : list Z) : string :=
  let g := groups b in
  match best_run g 0 (0, 0)%nat with
  | (_, O) => join_hex g
  | (s, l) => join_hex (take s g) +:+ "::" +:+ join_hex (drop (s + l) g)
  end.

Fixpoint string_of_codes (l : list Z) : string :=
  match l with
  | [] => EmptyString
  | c :: l' => String (Ascii.ascii_of_nat (Z.to_nat c)) (string_of_codes l')
  end.

Definition AddrPort_String (ap : AddrPort) : string :=
  match ap_Addr ap with
  | AddrV4 b => v4_string b +:+ ":" +:+ dec (ap_Port ap)
  | AddrV6 b z =>
    let zone := match z with [] => EmptyString | _ => "%" +:+ string_of_codes z end in
    let host := if bool_decide (take 12 b = v4in6_prefix) then "::ffff:" +:+ v4_string (drop 12 b)
                else v6_string b in
    "[" +:+ host +:+ zone +:+ "]:" +:+ dec (ap_Port ap)
  end.

(** [IP.String] for an address of 4 or 16 bytes. *)
Definition IP_String (ip : list Z) : string :=
  match To4 ip with
  | Some b => v4_string b
  | None => if (length ip =? 16)%nat then v6_string ip else "<nil>"
  end.

(** [simpleMaskLength]: the number of leading ones of a mask, when nothing but
    zeros follows them. *)
Fixpoint ones_of_byte (fuel : nat) (v : Z) : option Z :=
  match fuel with
  | O => Some 0
  | S k =>
    if Z.testbit v 7 then n ← ones_of_byte k (u8 (Z.shiftl v 1)); Some (n + 1)
    else if v =? 0 then Some 0 else None
  end.

Fixpoint mask_length (m : list Z) : option Z :=
  match m with
  | [] => Some 0
  | v :: m' =>
    if v =? 255 then n ← mask_length m'; Some (n + 8)
    else n ← ones_of_byte 8 v; if forallb (Z.eqb 0) m' then Some n else None
  end.

Fixpoint mask_string (m : list Z) : string :=
  match m with
  | [] => EmptyString
  | v :: m' => hex_digit (Z.shiftr v 4) +:+ hex_digit (Z.land v 15) +:+ mask_string m'
  end.

Definition IPNet_String (n : IPNet) : string :=
  let '(nn, m) := networkNumberAndMask n in
  match nn, m with
  | [], _ | _, [] => "<nil>"
  | _, _ =>
    match mask_length m with
    | Some l => IP_String nn +:+ "/" +:+ dec l
    | None => IP_String nn +:+ "/" +:+ mask_string m
    end
  end.

(** ** Facts *)

Example parse_v4_ok : ParseIP "192.168.0.1" = Some (v4in6_prefix ++ [192; 168; 0; 1]).
Proof. reflexivity. Qed.
Example parse_v4_zero : ParseIP "192.168.00.1" = None.
Proof. reflexivity. Qed.
Example parse_v6_ok :
  ParseIP "2001:4860:4860::8888" = Some [32; 1; 72; 96; 72; 96; 0; 0; 0; 0; 0; 0; 0; 0; 136; 136].
Proof. reflexivity. Qed.
Example parse_v6_mapped : ParseIP "::ffff:1.2.3.4" = Some (v4in6_prefix ++ [1; 2; 3; 4]).
Proof. reflexivity. Qed.
Example parse_v6_two_ell : ParseIP "1::2::3" = None.
Proof. reflexivity. Qed.
Example print_v6 :
  AddrPort_String <$> ParseAddrPort "[2001:4860:4860:0:0::8888]:53" = Some "[2001:4860:4860::8888]:53".
Proof. reflexivity. Qed.
Example cidr_contains :
  (fun n => (IPNet_Contains n [10; 1; 2; 3], IPNet_Contains n [11; 1; 2; 3])) <$> ParseCIDR "10.0.0.0/8"
  = Some (true, false).
Proof. reflexivity. Qed.
Example split_v6 : SplitHostPort "[::1]:53" = Ok ("::1", "53").
Proof. reflexivity. Qed.
Example print_cidr :
  IPNet_String <$> ParseCIDR "172.16.31.9/12" = Some "172.16.0.0/12".
Proof. reflexivity. Qed.
Example print_cidr6 :
  IPNet_String <$> ParseCIDR "2001:db8:1::/33" = Some "2001:db8::/33".
Proof. reflexivity. Qed.

(** *** host:port *)

Lemma last_index_none c s : has_byte c s = false -> last_index_byte c s = None.
Proof.
  induction s as [|a s IH]; [done|]. simpl. intros [Ha Hs]%orb_false_iff. by rewrite IH, Ha.
Qed.

Lemma last_index_app c h p :
  has_byte c p = false -> last_index_byte c (h +:+ String c p) = Some (s_len h).
Proof.
  intros Hp. induction h as [|a h IH].
  - rewrite s_app_nil. simpl. by rewrite last_index_none, Ascii.eqb_refl.
  - rewrite s_app_cons. simpl. by rewrite IH.
Qed.

Lemma index_app c h t : has_byte c h = false -> index_byte c (h +:+ String c t) = Some (s_len h).
Proof.
  induction h as [|a h IH].
  - intros _. rewrite s_app_nil. simpl. by rewrite Ascii.eqb_refl.
  - cbn [has_byte]. intros [Ha Hs]%orb_false_iff. rewrite s_app_cons. simpl. by rewrite Ha, IH.
Qed.

Lemma s_take_app h t : s_take (s_len h) (h +:+ t) = h.
Proof. apply substring_app_l. Qed.

Lemma s_drop_app h t : s_drop (s_len h) (h +:+ t) = t.
Proof.
  unfold s_drop. rewrite s_len_app. pose proof (substring_app_r h t 0 (s_len t)) as H.
  rewrite Nat.add_0_r in H. replace (s_len h + s_len t - s_len h)%nat with (s_len t) by lia.
  by rewrite H, substring_all.
Qed.

Lemma s_drop_0 t : s_drop 0 t = t.
Proof. apply (s_drop_app EmptyString). Qed.

Definition bracket_free (s : string) : Prop := has_byte "[" s = false /\ has_byte "]" s = false.

Lemma prefix_has_byte c s : HasPrefix s (String c EmptyString) = true -> has_byte c s = true.
Proof.
  intros [t ->]%HasPrefix_spec. rewrite s_app_cons. simpl. by rewrite Ascii.eqb_refl.
Qed.

(** [SplitHostPort] undoes [JoinHostPort]. *)
Lemma split_join_name host port :
  bracket_free host -> bracket_free port -> has_byte ":" port = false -> has_byte ":" host = false ->
  SplitHostPort (host +:+ String ":" port) = Ok (host, port).
Proof.
  intros [Ho Hc] [Po Pc] Hcol Hh. unfold SplitHostPort. rewrite last_index_app by done.
  assert (forall c, Ascii.eqb ":" c = false -> has_byte c host = false -> has_byte c port = false ->
    has_byte c (host +:+ String ":" port) = false) as Hfree.
  { intros c H1 H2 H3. rewrite has_byte_app, H2. cbn [has_byte]. by rewrite H1, H3. }
  destruct (HasPrefix _ "[") eqn:Hp.
  { apply prefix_has_byte in Hp. by rewrite Hfree in Hp. }
  rewrite s_take_app, Hh. unfold split_tail. rewrite s_drop_0, !Hfree by done.
  change (String ":" port) with (":" +:+ port). rewrite s_app_assoc.
  replace (S (s_len host)) with (s_len (host +:+ ":")) by (rewrite s_len_app; simpl; lia).
  by rewrite s_drop_app.
Qed.

Lemma split_join_literal host port :
  bracket_free host -> bracket_free port -> has_byte ":" port = false ->
  SplitHostPort ("[" +:+ host +:+ "]:" +:+ port) = Ok (host, port).
Proof.
  intros [Ho Hc] [Po Pc] Hcol.
  assert ("[" +:+ host +:+ "]:" +:+ port = ("[" +:+ host +:+ "]") +:+ String ":" port) as E1.
  { change ("]:" +:+ port) with ("]" +:+ String ":" port). by rewrite !s_app_assoc. }
  assert ("[" +:+ host +:+ "]:" +:+ port = ("[" +:+ host) +:+ String "]" (String ":" port)) as E2.
  { change ("]:" +:+ port) with (String "]" (String ":" port)). by rewrite !s_app_assoc. }
  set (s := "[" +:+ host +:+ "]:" +:+ port) in *.
  assert (last_index_byte ":" s = Some (S (S (s_len host)))) as Hl.
  { rewrite E1, last_index_app by done. f_equal. rewrite !s_len_app. simpl. lia. }
  assert (index_byte "]" s = Some (S (s_len host))) as Hi.
  { rewrite E2, index_app; [by rewrite s_len_app|]. by rewrite has_byte_app, Hc. }
  assert (s_len s = (3 + s_len host + s_len port)%nat) as Hlen.
  { rewrite E1, !s_len_app. simpl. lia. }
  unfold SplitHostPort. rewrite Hl, Hi.
  rewrite (proj2 (HasPrefix_spec s "[")) by (eexists; reflexivity).
  rewrite (proj2 (Nat.eqb_neq _ _)) by lia. rewrite (proj2 (Nat.eqb_eq _ _)) by lia.
  unfold split_tail.
  assert (s_drop 1 s = host +:+ "]:" +:+ port) as -> by apply (s_drop_app "[").
  assert (s_drop (S (s_len host) + 1) s = String ":" port) as ->.
  { rewrite E1. rewrite <-(s_drop_app ("[" +:+ host +:+ "]") (String ":" port)) at 2. f_equal.
    rewrite !s_len_app. simpl. lia. }
  assert (s_drop (S (S (S (s_len host)))) s = port) as ->.
  { rewrite E1. change (String ":" port) with (":" +:+ port). rewrite s_app_assoc.
    rewrite <-(s_drop_app (("[" +:+ host +:+ "]") +:+ ":") port) at 2. f_equal.
    rewrite !s_len_app. simpl. lia. }
  assert (String.substring 1 (S (s_len host) - 1) s = host) as ->.
  { rewrite <-(substring_app_l host ("]:" +:+ port)) at 2. simpl. rewrite Nat.sub_0_r.
    apply (substring_app_r "[" (host +:+ "]:" +:+ port) 0). }
  rewrite !has_byte_app, Ho. simpl. by rewrite Po, Pc.
Qed.

Lemma split_join host port :
  bracket_free host -> bracket_free port -> has_byte ":" port = false ->
  SplitHostPort (JoinHostPort host port) = Ok (host, port).
Proof.
  intros Hh Hp Hc. unfold JoinHostPort. destruct (has_byte ":" host) eqn:E.
  - by apply split_join_literal.
  - change (":" +:+ port) with (String ":" port). by apply split_join_name.
Qed.
