(* ===== verification/Text.v ===== *)
(** * Functions of Go's package strings on lines and words

    Splitting, cutting and replacing, and the laws that let a rewritten text be
    read line by line and word by word. *)

From S2P Require Import Prelude.

#[local] Open Scope nat_scope.

Definition newline : Ascii.ascii := Ascii.ascii_of_nat 10.
Definition nl : string := String newline EmptyString.

Definition between (lo n hi : nat) : bool := (lo <=? n) && (n <=? hi).

(** The pieces between the bytes that satisfy [p]. *)
Fixpoint split_on (p : Ascii.ascii -> bool) (s : string) : list string :=
  match s with
  | EmptyString => [EmptyString]
  | String a s' =>
    if p a then EmptyString :: split_on p s'
    else match split_on p s' with
         | [] => [String a EmptyString]
         | w :: ws => String a w :: ws
         end
  end.

(** [strings.Split(s, "\n")] *)
Definition lines (s : string) : list string := split_on (Ascii.eqb newline) s.

(** [strings.Split(s, ",")] and the like *)
Definition Split_byte (c : Ascii.ascii) (s : string) : list string := split_on (Ascii.eqb c) s.

(** The words of a line, as a shell splits it when nothing is quoted. *)
Definition nonempty (s : string) : bool := negb (String.eqb s "").
Definition words (s : string) : list string := List.filter nonempty (split_on is_space s).

(** [strings.ReplaceAll(s, old, new)] for a nonempty [old]; [skip] bytes of [s]
    belong to an occurrence that was already replaced. *)
Fixpoint replace_from (old new : string) (skip : nat) (s : string) : string :=
  match s with
  | EmptyString => EmptyString
  | String a s' =>
    match skip with
    | S skip => replace_from old new skip s'
    | O => if HasPrefix s old then new +:+ replace_from old new (pred (s_len old)) s'
           else String a (replace_from old new O s')
    end
  end.

Definition ReplaceAll (s old new : string) : string := replace_from old new O s.

(** [strings.Cut(s, sep)] *)
Fixpoint Cut (s sep : string) : option (string * string) :=
  if HasPrefix s sep then Some (EmptyString, TrimPrefix s sep)
  else match s with
       | EmptyString => None
       | String a s' => match Cut s' sep with Some (before, after) => Some (String a before, after) | None => None end
       end.

(** [strings.Contains(s, sub)] *)
Definition Contains (s sub : string) : bool := is_some (Cut s sub).

(** [strings.Join] *)
Fixpoint Join (sep : string) (l : list string) : string :=
  match l with
  | [] => EmptyString
  | [x] => x
  | x :: l => x +:+ sep +:+ Join sep l
  end.

(** [strings.ToLower] on ASCII *)
Definition lower_char (a : Ascii.ascii) : Ascii.ascii :=
  let n := Ascii.nat_of_ascii a in
  if (65 <=? n)%nat && (n <=? 90)%nat then Ascii.ascii_of_nat (n + 32) else a.

Fixpoint ToLower (s : string) : string :=
  match s with
  | EmptyString => EmptyString
  | String a s' => String (lower_char a) (ToLower s')
  end.

(** [strings.SplitN(s, sep, n)] *)
Fixpoint SplitN (n : nat) (sep s : string) : list string :=
  match n with
  | S (S _ as m) => match Cut s sep with Some (a, b) => a :: SplitN m sep b | None => [s] end
  | _ => [s]
  end.

Fixpoint concat_strings (l : list string) : string :=
  match l with
  | [] => EmptyString
  | s :: l => s +:+ concat_strings l
  end.

(** ** Pieces *)

Definition none_of (p : Ascii.ascii -> bool) (s : string) : Prop := split_on p s = [s].

Fixpoint free_of (p : Ascii.ascii -> bool) (s : string) : bool :=
  match s with
  | EmptyString => true
  | String a s' => negb (p a) && free_of p s'
  end.

Lemma s_app_nil_r s : s +:+ EmptyString = s.
Proof. induction s as [|a s IH]; [done|]. by rewrite s_app_cons, IH. Qed.

Lemma app_inj_l (p s t : string) : p +:+ s = p +:+ t -> s = t.
Proof. induction p as [|a p IH]; [done|]. rewrite !s_app_cons. intros [= H]. auto. Qed.

Lemma app_inj_r (s t q : string) : s +:+ q = t +:+ q -> s = t.
Proof.
  revert t. induction s as [|a s IH]; intros [|b t]; rewrite ?s_app_cons; [done| | |].
  - intros H. apply (f_equal s_len) in H. rewrite s_app_nil in H. cbn in H. rewrite s_len_app in H. lia.
  - intros H. apply (f_equal s_len) in H. rewrite s_app_nil in H. cbn in H. rewrite s_len_app in H. lia.
  - intros [= -> H]. by rewrite (IH t).
Qed.

Lemma free_of_app p s t : free_of p (s +:+ t) = free_of p s && free_of p t.
Proof. induction s as [|a s IH]; [done|]. rewrite s_app_cons. cbn [free_of]. by rewrite IH, andb_assoc. Qed.

Lemma free_of_mono (p q : Ascii.ascii -> bool) s : (forall a, q a = true -> p a = true) -> free_of p s = true -> free_of q s = true.
Proof.
  intros H. induction s as [|a s IH]; [done|]. cbn [free_of]. rewrite !andb_true_iff, !negb_true_iff. intros [H1 H2].
  split; [|auto]. destruct (q a) eqn:E; [|done]. apply H in E. congruence.
Qed.

Lemma split_on_cons p s : exists w ws, split_on p s = w :: ws.
Proof.
  destruct s as [|a s]; cbn; [eauto|]. destruct (p a); [eauto|]. destruct (split_on p s); eauto.
Qed.

(** The first piece has no separator. *)
Lemma split_on_free p s : Forall (fun w => free_of p w = true) (split_on p s).
Proof.
  induction s as [|a s IH]; cbn; [by constructor|]. destruct (p a) eqn:Ha; [by constructor|].
  destruct (split_on p s) as [|w ws]; [by constructor; [cbn; by rewrite Ha|]|].
  apply Forall_cons in IH as [IH1 IH2]. constructor; [|done]. cbn. by rewrite Ha, IH1.
Qed.

(** A piece without separators goes to the first piece of what follows. *)
Lemma split_on_app p s t : free_of p s = true ->
  split_on p (s +:+ t) = match split_on p t with [] => [s] | w :: ws => (s +:+ w) :: ws end.
Proof.
  induction s as [|a s IH]; intros H.
  - rewrite s_app_nil. destruct (split_on_cons p t) as (w & ws & ->). by rewrite s_app_nil.
  - cbn [free_of] in H. apply andb_true_iff in H as [Ha Hs]. rewrite s_app_cons. cbn [split_on].
    destruct (p a); [done|]. rewrite (IH Hs). destruct (split_on_cons p t) as (w & ws & ->). by rewrite s_app_cons.
Qed.

Lemma split_on_one p s : free_of p s = true -> split_on p s = [s].
Proof. intros H. rewrite <-(s_app_nil_r s) at 1. rewrite split_on_app by done. cbn. by rewrite s_app_nil_r. Qed.

(** A separator separates. *)
Lemma split_on_sep p s c t : p c = true -> split_on p (s +:+ String c t) = split_on p s ++ split_on p t.
Proof.
  intros Hc. induction s as [|a s IH].
  - rewrite s_app_nil. cbn. by rewrite Hc.
  - rewrite s_app_cons. cbn [split_on]. destruct (p a); [by rewrite IH|]. rewrite IH.
    by destruct (split_on_cons p s) as (w & ws & ->).
Qed.

(** ** Replacing *)

Section Replace.
Context (old new : string) (Hold : old <> EmptyString).

Lemma replace_skip n s t : s_len s = n -> replace_from old new n (s +:+ t) = replace_from old new 0 t.
Proof.
  revert n. induction s as [|a s IH]; intros n H; cbn in H; subst n; [done|]. rewrite s_app_cons. cbn. by apply IH.
Qed.

Lemma ReplaceAll_hit t : ReplaceAll (old +:+ t) old new = new +:+ ReplaceAll t old new.
Proof.
  unfold ReplaceAll. destruct old as [|a o] eqn:Ho; [done|]. rewrite s_app_cons. cbn [replace_from].
  rewrite (proj2 (HasPrefix_spec _ _)) by (exists t; by rewrite s_app_cons).
  cbn [s_len pred]. rewrite <-Ho. by rewrite (replace_skip (s_len o) o t eq_refl).
Qed.

Lemma ReplaceAll_miss a s : HasPrefix (String a s) old = false ->
  ReplaceAll (String a s) old new = String a (ReplaceAll s old new).
Proof. intros H. unfold ReplaceAll. cbn [replace_from]. by rewrite H. Qed.

Lemma prefix_app s t : HasPrefix s old = true -> HasPrefix (s +:+ t) old = true.
Proof. rewrite !HasPrefix_spec. intros [u ->]. exists (u +:+ t). by rewrite s_app_assoc. Qed.

(** Pieces are replaced one by one. *)
Lemma split_on_replace p s : free_of p old = true -> free_of p new = true ->
  split_on p (ReplaceAll s old new) = map (fun w => ReplaceAll w old new) (split_on p s).
Proof.
  intros Ho Hn. remember (s_len s) as n eqn:Hlen. revert s Hlen.
  induction n as [n IH] using lt_wf_ind. intros s ->.
  destruct (HasPrefix s old) eqn:Hp.
  - apply HasPrefix_spec in Hp as [t ->]. rewrite ReplaceAll_hit, !split_on_app by done.
    assert (Hlt : s_len t < s_len (old +:+ t)) by (rewrite s_len_app; destruct old; [done|cbn; lia]).
    rewrite (IH _ Hlt t eq_refl). destruct (split_on_cons p t) as (w & ws & ->). cbn [map]. by rewrite ReplaceAll_hit.
  - destruct s as [|a s]; [done|]. rewrite ReplaceAll_miss by done. cbn [split_on].
    rewrite (IH (s_len s) ltac:(cbn; lia) s eq_refl). destruct (p a) eqn:Ha; [done|].
    destruct (split_on_cons p s) as (w & ws & Hw). rewrite Hw. cbn [map]. f_equal.
    rewrite ReplaceAll_miss; [done|]. apply not_true_iff_false. intros H.
    assert (exists u, s = w +:+ u) as [u Hu].
    { clear -Hw. revert w ws Hw. induction s as [|b s IHs]; intros w ws; cbn.
      - intros [= <- <-]. by exists EmptyString.
      - destruct (p b); [intros [= <- <-]; by eexists|]. destruct (split_on_cons p s) as (w' & ws' & Hs). rewrite Hs.
        intros [= <- <-]. destruct (IHs _ _ Hs) as [u ->]. by exists u. }
    apply (prefix_app _ u) in H. rewrite s_app_cons, <-Hu in H. congruence.
Qed.

Lemma ReplaceAll_nonempty w : new <> EmptyString -> nonempty w = true -> nonempty (ReplaceAll w old new) = true.
Proof.
  intros Hn Hw. destruct (HasPrefix w old) eqn:Hp.
  - apply HasPrefix_spec in Hp as [t ->]. rewrite ReplaceAll_hit. by destruct new.
  - destruct w as [|a w]; [done|]. by rewrite ReplaceAll_miss.
Qed.

Lemma words_replace s : free_of is_space old = true -> free_of is_space new = true -> new <> EmptyString ->
  words (ReplaceAll s old new) = map (fun w => ReplaceAll w old new) (words s).
Proof.
  intros Ho Hn He. unfold words. rewrite split_on_replace by done.
  induction (split_on is_space s) as [|w ws IH]; [done|]. cbn [map List.filter].
  destruct (nonempty w) eqn:Hw.
  - rewrite ReplaceAll_nonempty by done. cbn [map]. by rewrite IH.
  - destruct w; [|done]. exact IH.
Qed.

Lemma lines_replace s : free_of (Ascii.eqb newline) old = true -> free_of (Ascii.eqb newline) new = true ->
  lines (ReplaceAll s old new) = map (fun w => ReplaceAll w old new) (lines s).
Proof. apply split_on_replace. Qed.

End Replace.

(** ** Words *)

Lemma words_sep s c t : is_space c = true -> words (s +:+ String c t) = words s ++ words t.
Proof. intros H. unfold words. by rewrite split_on_sep, List.filter_app. Qed.

Lemma words_one s : s <> EmptyString -> free_of is_space s = true -> words s = [s].
Proof. intros Hs H. unfold words. rewrite split_on_one by done. by destruct s. Qed.

Lemma words_spaces u : free_of (fun a => negb (is_space a)) u = true -> words u = [].
Proof.
  induction u as [|a u IH]; [done|]. cbn [free_of]. rewrite negb_involutive, andb_true_iff. intros [Ha Hu].
  unfold words in *. cbn [split_on]. rewrite Ha. exact (IH Hu).
Qed.

Lemma words_app_spaces t u : free_of (fun a => negb (is_space a)) u = true -> words (t +:+ u) = words t.
Proof.
  intros Hu. destruct u as [|c u]; [by rewrite s_app_nil_r|]. cbn [free_of] in Hu.
  rewrite negb_involutive, andb_true_iff in Hu. destruct Hu as [Hc Hu]. rewrite words_sep by done.
  by rewrite (words_spaces u Hu), app_nil_r.
Qed.

Lemma trim_right_spec s : exists u, s = trim_right s +:+ u /\ free_of (fun a => negb (is_space a)) u = true.
Proof.
  induction s as [|a s (u & Hs & Hu)]; [by exists EmptyString|]. cbn [trim_right].
  destruct (trim_right s) as [|b t] eqn:Ht.
  - destruct (is_space a) eqn:Ha.
    + exists (String a u). rewrite s_app_nil in *. subst u. split; [done|]. cbn. by rewrite Ha.
    + exists u. rewrite s_app_nil in Hs. subst u. split; [by rewrite s_app_cons, s_app_nil|done].
  - exists u. split; [|done]. rewrite s_app_cons. by rewrite <-Hs.
Qed.

Lemma words_trim_left s : words (trim_left s) = words s.
Proof.
  induction s as [|a s IH]; [done|]. cbn [trim_left]. destruct (is_space a) eqn:Ha; [|done]. rewrite IH.
  unfold words. cbn [split_on]. by rewrite Ha.
Qed.

Lemma words_TrimSpace s : words (TrimSpace s) = words s.
Proof.
  unfold TrimSpace. destruct (trim_right_spec (trim_left s)) as (u & Hs & Hu).
  rewrite <-(words_trim_left s). rewrite Hs at 2. by rewrite words_app_spaces.
Qed.

Lemma trim_left_head s : match trim_left s with EmptyString => True | String a _ => is_space a = false end.
Proof. induction s as [|a s IH]; [done|]. cbn [trim_left]. destruct (is_space a) eqn:Ha; [done|]. exact Ha. Qed.

Lemma TrimSpace_head s : match TrimSpace s with EmptyString => True | String a _ => is_space a = false end.
Proof.
  unfold TrimSpace. pose proof (trim_left_head s) as H. destruct (trim_right_spec (trim_left s)) as (u & Hs & _).
  destruct (trim_right (trim_left s)) as [|a t]; [done|]. rewrite Hs, s_app_cons in H. exact H.
Qed.

(** A line that starts with a word starts with its first word. *)
Lemma words_head a s : is_space a = false -> exists w ws u, words (String a s) = String a w :: ws /\ s = w +:+ u.
Proof.
  intros Ha. unfold words. cbn [split_on]. rewrite Ha. destruct (split_on_cons is_space s) as (w & ws & Hs). rewrite Hs.
  exists w, (List.filter nonempty ws). assert (exists u, s = w +:+ u) as [u Hu]; [|by exists u].
  clear Ha a. revert w ws Hs. induction s as [|b s IH]; intros w ws; cbn.
  - intros [= <- <-]. by exists EmptyString.
  - destruct (is_space b); [intros [= <- <-]; by eexists|]. destruct (split_on_cons is_space s) as (w' & ws' & Hs). rewrite Hs.
    intros [= <- <-]. destruct (IH _ _ Hs) as [u ->]. by exists u.
Qed.

(** Blank lines and comments, told by their words. *)
Definition skipped (ws : list string) : bool :=
  match ws with [] => true | w :: _ => HasPrefix w "#" end.

Lemma prefix_char a w u : HasPrefix (String a w +:+ u) "#" = HasPrefix (String a w) "#".
Proof.
  assert (H : forall v, HasPrefix (String a v) "#" = if Ascii.ascii_dec "#" a then true else false).
  { intros v. unfold HasPrefix, String.prefix. destruct (Ascii.ascii_dec "#" a); [by destruct v|done]. }
  by rewrite s_app_cons, !H.
Qed.

Lemma skipped_line s :
  String.eqb (TrimSpace s) "" || HasPrefix (TrimSpace s) "#" = skipped (words s).
Proof.
  rewrite <-(words_TrimSpace s). pose proof (TrimSpace_head s) as H. destruct (TrimSpace s) as [|a t]; [done|].
  destruct (words_head a t H) as (w & ws & u & -> & ->). cbn [skipped].
  change (HasPrefix (String a w +:+ u) "#" = HasPrefix (String a w) "#"). apply prefix_char.
Qed.
