(* ===== verification/Iptables.v ===== *)
(** * The commands that intercept packets (service/kernel/iptables, service/common/cmds)

    The legacy implementations of the redirect and tproxy modes: the texts they
    run, the white list between them, and [Setter.Run].  The texts are those of
    the source; what running a line does is left to the class [HostTools]. *)

From S2P Require Import Prelude.
From S2P Require Import NetIP Text.

#[local] Open Scope Z_scope.
#[local] Open Scope string_scope.
#[local] Open Scope go_scope.

(** The host: [sh -c line], a program with its arguments and standard input, and
    what can be found out about it. *)
Class HostTools := {
  host : Type;
  sh : string -> host -> option error * host;
  exec_input : string -> list string -> string -> host -> option error * host;
  commandAvailable : string -> bool;
  on_linux : bool;
  in_docker : bool;
  supports_ipv6 : bool;
  IPV6Support : string;
  NftablesSupport : string;
  iptables_version : option string;
  geoip : string -> list string * list string;
}.

(** ** The texts *)

(** The text of the first part for IPv4, and the part after the white list. *)
Definition redirect_rules4 : string := "
iptables -w 2 -t nat -N TP_OUT
iptables -w 2 -t nat -N TP_PRE
iptables -w 2 -t nat -N TP_RULE
iptables -w 2 -t nat -N DNS_REDIRECT
iptables -w 2 -t nat -A TP_RULE -d 0.0.0.0/32 -j RETURN
iptables -w 2 -t nat -A TP_RULE -d 10.0.0.0/8 -j RETURN
iptables -w 2 -t nat -A TP_RULE -d 100.64.0.0/10 -j RETURN
iptables -w 2 -t nat -A TP_RULE -d 127.0.0.0/8 -j RETURN
iptables -w 2 -t nat -A TP_RULE -d 169.254.0.0/16 -j RETURN
iptables -w 2 -t nat -A TP_RULE -d 172.16.0.0/12 -j RETURN
iptables -w 2 -t nat -A TP_RULE -d 192.0.0.0/24 -j RETURN
iptables -w 2 -t nat -A TP_RULE -d 192.0.2.0/24 -j RETURN
iptables -w 2 -t nat -A TP_RULE -d 192.88.99.0/24 -j RETURN
iptables -w 2 -t nat -A TP_RULE -d 192.168.0.0/16 -j RETURN
# fakedns
iptables -w 2 -t nat -A TP_RULE -d 198.18.0.0/15 -j RETURN
iptables -w 2 -t nat -A TP_RULE -d 198.51.100.0/24 -j RETURN
iptables -w 2 -t nat -A TP_RULE -d 203.0.113.0/24 -j RETURN
iptables -w 2 -t nat -A TP_RULE -d 224.0.0.0/4 -j RETURN
iptables -w 2 -t nat -A TP_RULE -d 240.0.0.0/4 -j RETURN
iptables -w 2 -t nat -A TP_RULE -m mark --mark 0x80/0x80 -j RETURN
# DNS 重定向到新 DNS 模块端口 52353（必须在通用 REDIRECT 规则之前）
iptables -w 2 -t nat -A DNS_REDIRECT -m mark --mark 0x80/0x80 -j RETURN
iptables -w 2 -t nat -A DNS_REDIRECT -p tcp -j REDIRECT --to-port 52353
iptables -w 2 -t nat -A DNS_REDIRECT -p udp -j REDIRECT --to-port 52353
"%string.

Definition redirect_hooks4 : string := "
iptables -w 2 -t nat -A TP_RULE -p tcp -j REDIRECT --to-ports 52345

iptables -w 2 -t nat -I PREROUTING -p tcp -j TP_PRE
iptables -w 2 -t nat -I OUTPUT -p tcp -j TP_OUT
iptables -w 2 -t nat -A TP_PRE -j TP_RULE
iptables -w 2 -t nat -A TP_OUT -j TP_RULE
# DNS 跳转在 TP_PRE/TP_OUT 之后插入：-I 总是插到链首，后插入者排在前面，
# 因此 DNS 规则实际位于通用透明代理规则之前（否则本机/局域网 TCP DNS 会
# 先命中 TP_OUT/TP_PRE 被重定向到 52345，绕过 DNS 模块）。
iptables -w 2 -t nat -I PREROUTING -p udp --dport 53 -j DNS_REDIRECT
iptables -w 2 -t nat -I PREROUTING -p tcp --dport 53 -j DNS_REDIRECT
iptables -w 2 -t nat -I OUTPUT -p udp --dport 53 -j DNS_REDIRECT
iptables -w 2 -t nat -I OUTPUT -p tcp --dport 53 -j DNS_REDIRECT
"%string.

(** The same for IPv6. *)
Definition redirect_rules6 : string := "
ip6tables -w 2 -t nat -N TP_OUT
ip6tables -w 2 -t nat -N TP_PRE
ip6tables -w 2 -t nat -N TP_RULE
ip6tables -w 2 -t nat -N DNS_REDIRECT
ip6tables -w 2 -t nat -A DNS_REDIRECT -m mark --mark 0x80/0x80 -j RETURN
ip6tables -w 2 -t nat -A DNS_REDIRECT -p tcp -j REDIRECT --to-port 52353
ip6tables -w 2 -t nat -A DNS_REDIRECT -p udp -j REDIRECT --to-port 52353
ip6tables -w 2 -t nat -A TP_RULE -d ::/128 -j RETURN
ip6tables -w 2 -t nat -A TP_RULE -d ::1/128 -j RETURN
ip6tables -w 2 -t nat -A TP_RULE -d 64:ff9b::/96 -j RETURN
ip6tables -w 2 -t nat -A TP_RULE -d 100::/64 -j RETURN
ip6tables -w 2 -t nat -A TP_RULE -d 2001::/32 -j RETURN
ip6tables -w 2 -t nat -A TP_RULE -d 2001:20::/28 -j RETURN
ip6tables -w 2 -t nat -A TP_RULE -d 2001:db8::/32 -j RETURN
ip6tables -w 2 -t nat -A TP_RULE -d 2002::/16 -j RETURN
# fakedns
ip6tables -w 2 -t nat -A TP_RULE -d fc00::/7 -j RETURN
ip6tables -w 2 -t nat -A TP_RULE -d fe80::/10 -j RETURN
ip6tables -w 2 -t nat -A TP_RULE -d ff00::/8 -j RETURN
ip6tables -w 2 -t nat -A TP_RULE -m mark --mark 0x80/0x80 -j RETURN
"%string.

Definition redirect_hooks6 : string := "
ip6tables -w 2 -t nat -A TP_RULE -p tcp -j REDIRECT --to-ports 52345

ip6tables -w 2 -t nat -I PREROUTING -p tcp -j TP_PRE
ip6tables -w 2 -t nat -I OUTPUT -p tcp -j TP_OUT
ip6tables -w 2 -t nat -A TP_PRE -j TP_RULE
ip6tables -w 2 -t nat -A TP_OUT -j TP_RULE
# DNS 跳转最后插入（-I 后到者居首），确保排在 TP_PRE/TP_OUT 之前
ip6tables -w 2 -t nat -I PREROUTING -p udp --dport 53 -j DNS_REDIRECT
ip6tables -w 2 -t nat -I PREROUTING -p tcp --dport 53 -j DNS_REDIRECT
ip6tables -w 2 -t nat -I OUTPUT -p udp --dport 53 -j DNS_REDIRECT
ip6tables -w 2 -t nat -I OUTPUT -p tcp --dport 53 -j DNS_REDIRECT
"%string.

Definition redirect_clean4 : string := "
iptables -w 2 -t nat -F DNS_REDIRECT
iptables -w 2 -t nat -D PREROUTING -p udp --dport 53 -j DNS_REDIRECT
iptables -w 2 -t nat -D PREROUTING -p tcp --dport 53 -j DNS_REDIRECT
iptables -w 2 -t nat -D OUTPUT -p udp --dport 53 -j DNS_REDIRECT
iptables -w 2 -t nat -D OUTPUT -p tcp --dport 53 -j DNS_REDIRECT
iptables -w 2 -t nat -X DNS_REDIRECT
iptables -w 2 -t nat -F TP_OUT
iptables -w 2 -t nat -D OUTPUT -p tcp -j TP_OUT
iptables -w 2 -t nat -X TP_OUT
iptables -w 2 -t nat -F TP_PRE
iptables -w 2 -t nat -D PREROUTING -p tcp -j TP_PRE
iptables -w 2 -t nat -X TP_PRE
iptables -w 2 -t nat -F TP_RULE
iptables -w 2 -t nat -X TP_RULE
"%string.

Definition redirect_clean6 : string := "
ip6tables -w 2 -t nat -F DNS_REDIRECT
ip6tables -w 2 -t nat -D PREROUTING -p udp --dport 53 -j DNS_REDIRECT
ip6tables -w 2 -t nat -D PREROUTING -p tcp --dport 53 -j DNS_REDIRECT
ip6tables -w 2 -t nat -D OUTPUT -p udp --dport 53 -j DNS_REDIRECT
ip6tables -w 2 -t nat -D OUTPUT -p tcp --dport 53 -j DNS_REDIRECT
ip6tables -w 2 -t nat -X DNS_REDIRECT
ip6tables -w 2 -t nat -F TP_OUT
ip6tables -w 2 -t nat -D OUTPUT -p tcp -j TP_OUT
ip6tables -w 2 -t nat -X TP_OUT
ip6tables -w 2 -t nat -F TP_PRE
ip6tables -w 2 -t nat -D PREROUTING -p tcp -j TP_PRE
ip6tables -w 2 -t nat -X TP_PRE
ip6tables -w 2 -t nat -F TP_RULE
ip6tables -w 2 -t nat -X TP_RULE
"%string.

Definition clean_sets : string := "ipset destroy v2raya_white4 2>/dev/null || true
ipset destroy v2raya_white6 2>/dev/null || true
"%string.

(** The text before the excluded interfaces, before the white list and after it. *)
Definition tproxy_rules4 : string := "
ip rule add fwmark 0x40/0xc0 table 100
ip route add local 0.0.0.0/0 dev lo table 100

iptables -w 2 -t mangle -N TP_OUT
iptables -w 2 -t mangle -N TP_PRE
iptables -w 2 -t mangle -N TP_RULE
iptables -w 2 -t mangle -N TP_MARK
iptables -w 2 -t mangle -N DNS_MARK

# DNS 规则必须在透明代理规则之前插入（环路保护）
iptables -w 2 -t mangle -I OUTPUT -p udp --dport 53 -j DNS_MARK
iptables -w 2 -t mangle -I OUTPUT -p tcp --dport 53 -j DNS_MARK
iptables -w 2 -t mangle -I OUTPUT -j TP_OUT
# DNS 规则必须在透明代理规则之前插入
iptables -w 2 -t mangle -I PREROUTING -p udp --dport 53 -j DNS_MARK
iptables -w 2 -t mangle -I PREROUTING -p tcp --dport 53 -j DNS_MARK
iptables -w 2 -t mangle -I PREROUTING -j TP_PRE

iptables -w 2 -t mangle -A TP_OUT -m mark --mark 0x80/0x80 -j RETURN
iptables -w 2 -t mangle -A TP_OUT -p tcp -m addrtype --src-type LOCAL ! --dst-type LOCAL -j TP_RULE
iptables -w 2 -t mangle -A TP_OUT -p udp -m addrtype --src-type LOCAL ! --dst-type LOCAL -j TP_RULE

iptables -w 2 -t mangle -A TP_PRE -i lo -m mark ! --mark 0x40/0xc0 -j RETURN
iptables -w 2 -t mangle -A TP_PRE -p tcp -m addrtype ! --src-type LOCAL ! --dst-type LOCAL -j TP_RULE
iptables -w 2 -t mangle -A TP_PRE -p udp -m addrtype ! --src-type LOCAL ! --dst-type LOCAL -j TP_RULE
# 本机 DNS 查询在 nat OUTPUT 已被 REDIRECT 改写端口（53→52353），经 lo 重入时
# 带着 0x40 标记但端口不再是 53，必须放行，否则命中通用 TPROXY 规则被劫持到 52345
iptables -w 2 -t mangle -A TP_PRE -p tcp --dport 52353 -j RETURN
iptables -w 2 -t mangle -A TP_PRE -p udp --dport 52353 -j RETURN
# DNS 流量重定向到新 DNS 模块端口 52353（必须在通用 TPROXY 规则之前）
iptables -w 2 -t mangle -A TP_PRE -p tcp -m mark --mark 0x40/0xc0 --dport 53 -j TPROXY --on-port 52353 --on-ip 127.2.0.17
iptables -w 2 -t mangle -A TP_PRE -p udp -m mark --mark 0x40/0xc0 --dport 53 -j TPROXY --on-port 52353 --on-ip 127.2.0.17
# 通用 TPROXY 规则
iptables -w 2 -t mangle -A TP_PRE -p tcp -m mark --mark 0x40/0xc0 -j TPROXY --on-port 52345 --on-ip 127.0.0.1
iptables -w 2 -t mangle -A TP_PRE -p udp -m mark --mark 0x40/0xc0 -j TPROXY --on-port 52345 --on-ip 127.0.0.1
iptables -w 2 -t mangle -A TP_RULE -j CONNMARK --restore-mark
iptables -w 2 -t mangle -A TP_RULE -m mark --mark 0x40/0xc0 -j RETURN
"%string.

Definition tproxy_dns4 : string := "
iptables -w 2 -t mangle -A TP_RULE -p udp --dport 53 -j TP_MARK
iptables -w 2 -t mangle -A TP_RULE -p tcp --dport 53 -j TP_MARK
iptables -w 2 -t mangle -A TP_RULE -m mark --mark 0x40/0xc0 -j RETURN
"%string.

Definition tproxy_mark4 : string := "
iptables -w 2 -t mangle -A TP_RULE -j TP_MARK

iptables -w 2 -t mangle -A TP_MARK -p tcp -m tcp --syn -j MARK --set-xmark 0x40/0x40
iptables -w 2 -t mangle -A TP_MARK -p udp -m conntrack --ctstate NEW -j MARK --set-xmark 0x40/0x40
iptables -w 2 -t mangle -A TP_MARK -j CONNMARK --save-mark
# DNS_MARK 链：环路保护 + 标记 DNS 流量
iptables -w 2 -t mangle -A DNS_MARK -m mark --mark 0x80/0x80 -j RETURN
iptables -w 2 -t mangle -A DNS_MARK -j MARK --set-xmark 0x40/0x40
iptables -w 2 -t mangle -A DNS_MARK -j ACCEPT
"%string.

Definition tproxy_rules6 : string := "
ip -6 rule add fwmark 0x40/0xc0 table 100
ip -6 route add local ::/0 dev lo table 100

ip6tables -w 2 -t mangle -N TP_OUT
ip6tables -w 2 -t mangle -N TP_PRE
ip6tables -w 2 -t mangle -N TP_RULE
ip6tables -w 2 -t mangle -N TP_MARK
ip6tables -w 2 -t mangle -N DNS_MARK

# IPv6 DNS 规则必须在透明代理规则之前插入
ip6tables -w 2 -t mangle -I OUTPUT -p udp --dport 53 -j DNS_MARK
ip6tables -w 2 -t mangle -I OUTPUT -p tcp --dport 53 -j DNS_MARK
ip6tables -w 2 -t mangle -I OUTPUT -j TP_OUT
# IPv6 DNS 规则必须在透明代理规则之前插入
ip6tables -w 2 -t mangle -I PREROUTING -p udp --dport 53 -j DNS_MARK
ip6tables -w 2 -t mangle -I PREROUTING -p tcp --dport 53 -j DNS_MARK
ip6tables -w 2 -t mangle -I PREROUTING -j TP_PRE

ip6tables -w 2 -t mangle -A TP_OUT -m mark --mark 0x80/0x80 -j RETURN
ip6tables -w 2 -t mangle -A TP_OUT -p tcp -m addrtype --src-type LOCAL ! --dst-type LOCAL -j TP_RULE
ip6tables -w 2 -t mangle -A TP_OUT -p udp -m addrtype --src-type LOCAL ! --dst-type LOCAL -j TP_RULE

ip6tables -w 2 -t mangle -A TP_PRE -i lo -m mark ! --mark 0x40/0xc0 -j RETURN
ip6tables -w 2 -t mangle -A TP_PRE -p tcp -m addrtype ! --src-type LOCAL ! --dst-type LOCAL -j TP_RULE
ip6tables -w 2 -t mangle -A TP_PRE -p udp -m addrtype ! --src-type LOCAL ! --dst-type LOCAL -j TP_RULE
# 本机 DNS 查询在 nat OUTPUT 已被 REDIRECT 改写端口（53→52353），经 lo 重入时
# 带着 0x40 标记但端口不再是 53，必须放行，否则命中通用 TPROXY 规则被劫持到 52345
ip6tables -w 2 -t mangle -A TP_PRE -p tcp --dport 52353 -j RETURN
ip6tables -w 2 -t mangle -A TP_PRE -p udp --dport 52353 -j RETURN
# DNS 流量重定向到新 DNS 模块端口 52353（必须在通用 TPROXY 规则之前）
ip6tables -w 2 -t mangle -A TP_PRE -p tcp -m mark --mark 0x40/0xc0 --dport 53 -j TPROXY --on-port 52353 --on-ip ::1
ip6tables -w 2 -t mangle -A TP_PRE -p udp -m mark --mark 0x40/0xc0 --dport 53 -j TPROXY --on-port 52353 --on-ip ::1
# 通用 TPROXY 规则
ip6tables -w 2 -t mangle -A TP_PRE -p tcp -m mark --mark 0x40/0xc0 -j TPROXY --on-port 52345 --on-ip ::1
ip6tables -w 2 -t mangle -A TP_PRE -p udp -m mark --mark 0x40/0xc0 -j TPROXY --on-port 52345 --on-ip ::1
ip6tables -w 2 -t mangle -A TP_RULE -j CONNMARK --restore-mark
ip6tables -w 2 -t mangle -A TP_RULE -m mark --mark 0x40/0xc0 -j RETURN
"%string.

Definition tproxy_dns6 : string := "
ip6tables -w 2 -t mangle -A TP_RULE -p udp --dport 53 -j TP_MARK
ip6tables -w 2 -t mangle -A TP_RULE -p tcp --dport 53 -j TP_MARK
ip6tables -w 2 -t mangle -A TP_RULE -m mark --mark 0x40/0xc0 -j RETURN
"%string.

Definition tproxy_mark6 : string := "
ip6tables -w 2 -t mangle -A TP_RULE -j TP_MARK

ip6tables -w 2 -t mangle -A TP_MARK -p tcp -m tcp --syn -j MARK --set-xmark 0x40/0x40
ip6tables -w 2 -t mangle -A TP_MARK -p udp -m conntrack --ctstate NEW -j MARK --set-xmark 0x40/0x40
ip6tables -w 2 -t mangle -A TP_MARK -j CONNMARK --save-mark
# IPv6 DNS_MARK 链：环路保护 + 标记 DNS 流量
ip6tables -w 2 -t mangle -A DNS_MARK -m mark --mark 0x80/0x80 -j RETURN
ip6tables -w 2 -t mangle -A DNS_MARK -j MARK --set-xmark 0x40/0x40
ip6tables -w 2 -t mangle -A DNS_MARK -j ACCEPT
"%string.

Definition tproxy_clean4 : string := "
ip rule del fwmark 0x40/0xc0 table 100 2>/dev/null || true
ip route del local 0.0.0.0/0 dev lo table 100 2>/dev/null || true

iptables -w 2 -t mangle -F TP_OUT
iptables -w 2 -t mangle -D OUTPUT -j TP_OUT
iptables -w 2 -t mangle -X TP_OUT
iptables -w 2 -t mangle -F TP_PRE
iptables -w 2 -t mangle -D PREROUTING -j TP_PRE
iptables -w 2 -t mangle -X TP_PRE
iptables -w 2 -t mangle -F TP_RULE
iptables -w 2 -t mangle -X TP_RULE
iptables -w 2 -t mangle -F TP_MARK
iptables -w 2 -t mangle -X TP_MARK
iptables -w 2 -t mangle -F DNS_MARK
iptables -w 2 -t mangle -D PREROUTING -p udp --dport 53 -j DNS_MARK
iptables -w 2 -t mangle -D PREROUTING -p tcp --dport 53 -j DNS_MARK
iptables -w 2 -t mangle -D OUTPUT -p udp --dport 53 -j DNS_MARK
iptables -w 2 -t mangle -D OUTPUT -p tcp --dport 53 -j DNS_MARK
iptables -w 2 -t mangle -X DNS_MARK
"%string.

Definition tproxy_clean6 : string := "
ip -6 rule del fwmark 0x40/0xc0 table 100 2>/dev/null || true
ip -6 route del local ::/0 dev lo table 100 2>/dev/null || true

ip6tables -w 2 -t mangle -F TP_OUT
ip6tables -w 2 -t mangle -D OUTPUT -j TP_OUT
ip6tables -w 2 -t mangle -X TP_OUT
ip6tables -w 2 -t mangle -F TP_PRE
ip6tables -w 2 -t mangle -D PREROUTING -j TP_PRE
ip6tables -w 2 -t mangle -X TP_PRE
ip6tables -w 2 -t mangle -F TP_RULE
ip6tables -w 2 -t mangle -X TP_RULE
ip6tables -w 2 -t mangle -F TP_MARK
ip6tables -w 2 -t mangle -X TP_MARK
ip6tables -w 2 -t mangle -F DNS_MARK
ip6tables -w 2 -t mangle -D PREROUTING -p udp --dport 53 -j DNS_MARK
ip6tables -w 2 -t mangle -D PREROUTING -p tcp --dport 53 -j DNS_MARK
ip6tables -w 2 -t mangle -D OUTPUT -p udp --dport 53 -j DNS_MARK
ip6tables -w 2 -t mangle -D OUTPUT -p tcp --dport 53 -j DNS_MARK
ip6tables -w 2 -t mangle -X DNS_MARK
"%string.

Definition tproxy_clean_rest : string := "conntrack -D --mark 0x40 2>/dev/null || true
ipset destroy v2raya_white4 2>/dev/null || true
ipset destroy v2raya_white6 2>/dev/null || true
"%string.

Definition legacyWhitelist4Marker : string := "__V2RAYA_WHITE4__".
Definition legacyWhitelist6Marker : string := "__V2RAYA_WHITE6__".

(** The rules for the excluded interfaces. *)
Definition interface_rules (binary table flag : string) (interfaces : list string) : string :=
  concat_strings (map (fun v =>
    binary +:+ " -w 2 -t " +:+ table +:+ " -A TP_RULE " +:+ flag +:+ " " +:+ ReplaceAll v "*" "+" +:+ " -j RETURN" +:+ nl)
    interfaces).

Section Commands.
Context `{T : HostTools}.

(** ** The environment *)

Definition IsNftablesSupported : bool :=
  if negb on_linux then false
  else if String.eqb NftablesSupport "on" then true
  else if String.eqb NftablesSupport "off" then false
  else if in_docker then false
  else if negb (commandAvailable "nft") then false
  else match iptables_version with
       | None => true
       | Some out => Contains out "nf_tables"
       end.

(** [Redirect] is chosen when the program starts. *)
Definition IsNft : bool := IsNftablesSupported.

Definition IsIPv6Supported : bool :=
  if String.eqb IPV6Support "on" then true
  else if String.eqb IPV6Support "off" then false
  else if in_docker then false
  else if negb supports_ipv6 then false
  else if negb on_linux then true
  else if IsNft then true
  else commandAvailable "ip6tables" || commandAvailable "ip6tables-nft".

Definition rewriteIptablesBinaries (commands variant : string) : string :=
  let commands := ReplaceAll commands "iptables" ("iptables-" +:+ variant) in
  ReplaceAll commands "ip6tables" ("ip6tables-" +:+ variant).

Definition rewriteIptablesCommands (commands : string) : string :=
  if in_docker then rewriteIptablesBinaries commands "legacy"
  else if (negb (commandAvailable "iptables") || IsNftablesSupported) && commandAvailable "iptables-nft"
  then rewriteIptablesBinaries commands "nft"
  else commands.

(** ** Running commands *)

Definition HM (A : Type) : Type := host -> A * host.
Definition hm_ret {A} (a : A) : HM A := fun h => (a, h).
Definition hm_bind {A B} (c : HM A) (k : A -> HM B) : HM B := fun h => let '(a, h) := c h in k a h.

End Commands.

Notation "'hm!' x ':=' e 'in' k" := (hm_bind e (fun x => k))
  (at level 10, x pattern, e at level 100, k at level 200) : go_scope.

Record legacyWhitelist := mkLegacyWhitelist {
  binary : string;
  table : string;
  setName : string;
  family : string;
  cidrs : list string;
}.

Record setterStep := mkSetterStep { step_commands : string; step_whitelist : option legacyWhitelist }.

(** Only [PreFunc] and no [AfterFunc] is set by the modes modelled here; [PreFunc]
    is the function that returns the given error. *)
Record Setter := mkSetter { Cmds : string; PreFunc : option (option error); steps : list setterStep }.

Section Run.
Context `{T : HostTools}.

(** The loop of [ExecCommands]; [e] is the last error. *)
Fixpoint exec_lines (ls : list string) (stopWhenError : bool) (e : option error) : HM (option error) :=
  match ls with
  | [] => hm_ret e
  | line :: ls =>
    let line := TrimSpace line in
    if String.eqb line "" || HasPrefix line "#" then exec_lines ls stopWhenError e
    else
      hm! err := sh line in
      match err with
      | None => exec_lines ls stopWhenError e
      | Some err =>
        let e := Some (Wrapf "ExecCommands: %v %v: %w" [FStr line] err) in
        if stopWhenError then hm_ret e else exec_lines ls stopWhenError e
      end
  end.

Definition ExecCommands (commands : string) (stopWhenError : bool) : HM (option error) :=
  exec_lines (lines commands) stopWhenError None.

Definition ipsetPayload (w : legacyWhitelist) : string :=
  "create " +:+ setName w +:+ " hash:net family " +:+ family w +:+ " maxelem 65536" +:+ nl +:+
  "flush " +:+ setName w +:+ nl +:+
  concat_strings (map (fun cidr => "add " +:+ setName w +:+ " " +:+ cidr +:+ nl) (cidrs w)).

Definition restorePayload (w : legacyWhitelist) : string :=
  "*" +:+ table w +:+ nl +:+
  concat_strings (map (fun cidr => "-A TP_RULE -d " +:+ cidr +:+ " -j RETURN" +:+ nl) (cidrs w)) +:+
  "COMMIT" +:+ nl.

Definition perLineCommands (w : legacyWhitelist) : string :=
  concat_strings (map (fun cidr =>
    binary w +:+ " -w 2 -t " +:+ table w +:+ " -A TP_RULE -d " +:+ cidr +:+ " -j RETURN" +:+ nl) (cidrs w)).

Definition set_match_args (w : legacyWhitelist) : list string :=
  ["-w"; "2"; "-t"; table w; "-A"; "TP_RULE"; "-m"; "set"; "--match-set"; setName w; "dst"; "-j"; "RETURN"].

(** What is tried first: a set and one rule that refers to it. *)
Definition whitelist_by_set (w : legacyWhitelist) (rewrite : string -> string) : HM bool :=
  if commandAvailable "ipset" then
    hm! err := exec_input "ipset" ["restore"; "-!"] (ipsetPayload w) in
    hm! done := (match err with
                 | Some _ => hm_ret false
                 | None => hm! err := exec_input (rewrite (binary w)) (set_match_args w) "" in hm_ret (negb (is_some err))
                 end) in
    if done then hm_ret true
    else hm! _ := exec_input "ipset" ["destroy"; setName w] "" in hm_ret false
  else hm_ret false.

(** Then all rules at once. *)
Definition whitelist_by_restore (w : legacyWhitelist) (rewrite : string -> string) : HM bool :=
  let restore := rewrite (binary w +:+ "-restore") in
  if commandAvailable restore then
    hm! err := exec_input restore ["-w"; "2"; "--noflush"] (restorePayload w) in hm_ret (negb (is_some err))
  else hm_ret false.

Definition whitelist_run (w : legacyWhitelist) (stopAtError : bool) (rewrite : string -> string) : HM (option error) :=
  hm! done := whitelist_by_set w rewrite in
  if done then hm_ret None
  else
    hm! done := whitelist_by_restore w rewrite in
    if done then hm_ret None
    else ExecCommands (rewrite (perLineCommands w)) stopAtError.

Definition step_run (s : setterStep) (stopAtError : bool) (rewrite : string -> string) : HM (option error) :=
  match step_whitelist s with
  | Some w => whitelist_run w stopAtError rewrite
  | None => if nonempty (step_commands s) then ExecCommands (rewrite (step_commands s)) stopAtError else hm_ret None
  end.

(** The first of the errors; with [stopAtError] the loop ends at it. *)
Fixpoint run_steps (ss : list setterStep) (stopAtError : bool) (rewrite : string -> string) (first : option error)
    : HM (option error) :=
  match ss with
  | [] => hm_ret first
  | s :: ss =>
    hm! e := step_run s stopAtError rewrite in
    match e with
    | None => run_steps ss stopAtError rewrite first
    | Some e =>
      let first := match first with Some _ => first | None => Some e end in
      if stopAtError then hm_ret first else run_steps ss stopAtError rewrite first
    end
  end.

Definition setter_run (c : Setter) (stopAtError : bool) (rewrite : string -> string) : HM (option error) :=
  let first := default None (PreFunc c) in
  if is_some first && stopAtError then hm_ret first
  else
    match steps c with
    | [] => if nonempty (Cmds c) then
              hm! e := ExecCommands (rewrite (Cmds c)) stopAtError in
              hm_ret (match first with Some _ => first | None => e end)
            else hm_ret first
    | ss => run_steps ss stopAtError rewrite first
    end.

Definition Run (c : Setter) (stopAtError : bool) : HM (option error) := setter_run c stopAtError rewriteIptablesCommands.

Definition NewErrorSetter (err : error) : Setter := mkSetter "" (Some (Some err)) [].

(** ** The values of the settings *)

Definition plain_name_char (a : Ascii.ascii) : bool :=
  let n := Ascii.nat_of_ascii a in
  ((65 <=? n) && (n <=? 90) || (97 <=? n) && (n <=? 122) || (48 <=? n) && (n <=? 57))%nat ||
  existsb (Ascii.eqb a) ["_"; "."; ":"; "*"; "+"; "-"]%char.

(** [interfaceNameRegexp] *)
Definition interface_name (v : string) : bool := nonempty v && free_of (fun a => negb (plain_name_char a)) v.

Fixpoint read_interfaces (vs : list string) : result (list string) :=
  match vs with
  | [] => Ok []
  | v :: vs =>
    let v := TrimSpace v in
    if String.eqb v "" then read_interfaces vs
    else if negb (interface_name v) then Err (Errorf "invalid tproxy excluded interface %q" [FStr v])
    else let? res := read_interfaces vs in Ok (v :: res)
  end.

Definition GetExcludedInterfaces (TproxyExcludedInterfaces : string) : result (list string) :=
  if String.eqb TproxyExcludedInterfaces "" then Ok []
  else read_interfaces (Split_byte "," TproxyExcludedInterfaces).

Record TproxyWhiteIpGroups := mkTproxyWhiteIpGroups { CountryCodes : list string; CustomIps : list string }.

Fixpoint custom_ips (vs : list string) (ipv4List ipv6List : list string) : result (list string * list string) :=
  match vs with
  | [] => Ok (ipv4List, ipv6List)
  | v :: vs =>
    let v := TrimSpace v in
    if String.eqb v "" then custom_ips vs ipv4List ipv6List
    else if negb (is_some (ParseIP v)) && negb (is_some (ParseCIDR v))
    then Err (Errorf "invalid tproxy whitelist IP/CIDR %q" [FStr v])
    else if Contains v ":" then custom_ips vs ipv4List (ipv6List ++ [v])%list
    else custom_ips vs (ipv4List ++ [v])%list ipv6List
  end.

Definition GetWhiteListIPs (dataModal : TproxyWhiteIpGroups) : result (list string * list string) :=
  custom_ips (CustomIps dataModal) (concat (map (fun cc => fst (geoip cc)) (CountryCodes dataModal)))
    (concat (map (fun cc => snd (geoip cc)) (CountryCodes dataModal))).

(** [strconv.Atoi]: an optional sign and digits, in the range of an int. *)
Definition digit_char (a : Ascii.ascii) : bool := is_digit (code a).

Fixpoint digits_value (s : string) (n : Z) : Z :=
  match s with
  | EmptyString => n
  | String a s' => digits_value s' (n * 10 + (code a - 48))
  end.

Definition Atoi (s : string) : option Z :=
  let unsigned neg t :=
    if nonempty t && free_of (fun a => negb (digit_char a)) t then
      let n := (if neg : bool then - digits_value t 0 else digits_value t 0)%Z in
      if ((MinInt64 <=? n) && (n <=? MaxInt64))%Z then Some n else None
    else None in
  match s with
  | EmptyString => None
  | String a s' => if Ascii.eqb a "-" then unsigned true s'
                   else if Ascii.eqb a "+" then unsigned false s'
                   else unsigned false s
  end.

Definition DnsModulePort (DnsListenAddr : string) : string :=
  match last_index_byte ":" DnsListenAddr with
  | Some i =>
    let port := s_drop (S i) DnsListenAddr in
    if nonempty port && is_some (Atoi port) then port else "52353"
  | None => "52353"
  end.

(** What the setup reads: the excluded interfaces, the white list and the address
    of the DNS module. *)
Record settings := mkSettings { s_excluded : string; s_white : TproxyWhiteIpGroups; s_listen : string }.

Definition s_port (s : settings) : string := DnsModulePort (s_listen s).

Definition getTproxySetupValues (s : settings) : result (list string * list string * list string) :=
  let? interfaces := GetExcludedInterfaces (s_excluded s) in
  let? (ipv4, ipv6) := GetWhiteListIPs (s_white s) in
  Ok (interfaces, ipv4, ipv6).

Definition withDnsModulePort (port rules : string) : string :=
  if String.eqb port "52353" then rules else ReplaceAll rules "52353" port.

(** ** Setup and cleanup *)

Definition family_steps (table marker bin set fam : string) (ips : list string) (acc : list setterStep * string)
    : list setterStep * string :=
  let '(ss, commands) := acc in
  match Cut commands marker with
  | None => (ss, commands)
  | Some (before, after) =>
    ((ss ++ [mkSetterStep before None] ++
      match ips with [] => [] | _ => [mkSetterStep "" (Some (mkLegacyWhitelist bin table set fam ips))] end)%list, after)
  end.

Definition newLegacyWhitelistSetter (commands table : string) (ipv4 ipv6 : list string) : Setter :=
  let '(ss, commands) :=
    family_steps table legacyWhitelist6Marker "ip6tables" "v2raya_white6" "inet6" ipv6
      (family_steps table legacyWhitelist4Marker "iptables" "v2raya_white4" "inet" ipv4 ([], commands)) in
  mkSetter "" None (ss ++ [mkSetterStep commands None])%list.

Definition redirect_text (interfaces : list string) : string :=
  redirect_rules4 +:+ interface_rules "iptables" "nat" "-i" interfaces +:+
  interface_rules "iptables" "nat" "-o" interfaces +:+ legacyWhitelist4Marker +:+ nl +:+ redirect_hooks4 +:+
  (if IsIPv6Supported then
     redirect_rules6 +:+ interface_rules "ip6tables" "nat" "-i" interfaces +:+
     interface_rules "ip6tables" "nat" "-o" interfaces +:+ legacyWhitelist6Marker +:+ nl +:+ redirect_hooks6
   else "").

Definition tproxy_text (interfaces : list string) : string :=
  tproxy_rules4 +:+ interface_rules "iptables" "mangle" "-i" interfaces +:+
  interface_rules "iptables" "mangle" "-o" interfaces +:+ tproxy_dns4 +:+ legacyWhitelist4Marker +:+ nl +:+ tproxy_mark4 +:+
  (if IsIPv6Supported then
     tproxy_rules6 +:+ interface_rules "ip6tables" "mangle" "-i" interfaces +:+
     interface_rules "ip6tables" "mangle" "-o" interfaces +:+ tproxy_dns6 +:+ legacyWhitelist6Marker +:+ nl +:+ tproxy_mark6
   else "").

Definition legacyRedirect_GetSetupCommands (s : settings) : Setter :=
  match getTproxySetupValues s with
  | Err err => NewErrorSetter err
  | Ok (interfaces, ipv4, ipv6) =>
    newLegacyWhitelistSetter (withDnsModulePort (s_port s) (redirect_text interfaces)) "nat" ipv4 ipv6
  end.

Definition legacyRedirect_GetCleanCommands (s : settings) : Setter :=
  mkSetter (withDnsModulePort (s_port s)
    (redirect_clean4 +:+ (if IsIPv6Supported then redirect_clean6 else "") +:+ clean_sets)) None [].

Definition legacyTproxy_GetSetupCommands (s : settings) : Setter :=
  match getTproxySetupValues s with
  | Err err => NewErrorSetter err
  | Ok (interfaces, ipv4, ipv6) =>
    newLegacyWhitelistSetter (withDnsModulePort (s_port s) (tproxy_text interfaces)) "mangle" ipv4 ipv6
  end.

Definition legacyTproxy_GetCleanCommands (s : settings) : Setter :=
  mkSetter (withDnsModulePort (s_port s)
    (tproxy_clean4 +:+ (if IsIPv6Supported then tproxy_clean6 else "") +:+ tproxy_clean_rest)) None [].

(** ** The addresses of the host *)

(** An address without a dot is taken for IPv6; the position is the one in the
    chain, the first when there is none. *)
Definition whitelist_command (table position cidr : string) : string :=
  let commands := "iptables -w 2 -t " +:+ table +:+ position +:+ " -d " +:+ cidr +:+ " -j RETURN" in
  if Contains cidr "." then commands
  else match Cut commands "iptables" with Some (before, after) => before +:+ "ip6tables" +:+ after | None => commands end.

Definition legacyRedirect_RemoveIPWhitelist (cidr : string) : HM (option error) :=
  ExecCommands (whitelist_command "nat" " -D TP_RULE" cidr) false.

Definition legacyRedirect_AddIPWhitelist (cidr : string) : HM (option error) :=
  hm! _ := legacyRedirect_RemoveIPWhitelist cidr in
  ExecCommands (whitelist_command "nat" " -I TP_RULE" cidr) false.

Definition legacyTproxy_RemoveIPWhitelist (cidr : string) : HM (option error) :=
  ExecCommands (whitelist_command "mangle" " -D TP_RULE" cidr) false.

Definition legacyTproxy_AddIPWhitelist (cidr : string) : HM (option error) :=
  hm! _ := legacyTproxy_RemoveIPWhitelist cidr in
  ExecCommands (whitelist_command "mangle" " -I TP_RULE 7" cidr) false.

End Run.
