(* ===== verification/Settings.v ===== *)
(** * Settings of the service (service/db/configure: setting.go, const.go, ports.go, customInbound.go, dnsrules.go, migrate_dns.go)

    The stored settings, ports, custom inbounds and DNS rules, with the defaults
    that are filled in when they are read. *)

From S2P Require Import Prelude.
From S2P Require Import NetIP Iptables.

#[local] Open Scope Z_scope.

(** ** Settings *)

Record Setting := mkSetting {
  LogLevel : string;
  RulePortMode : string;
  ProxyModeWhenSubscribe : string;
  GFWListAutoUpdateMode : string;
  GFWListAutoUpdateIntervalHour : Z;
  SubscriptionAutoUpdateMode : string;
  SubscriptionAutoUpdateIntervalHour : Z;
  TcpFastOpen : string;
  MuxOn : string;
  Mux : Z;
  InboundSniffing : string;
  Transparent : string;
  IpForward : bool;
  RouteOnly : bool;
  PortSharing : bool;
  TransparentType : string;
  TproxyExcludedInterfaces : string;
  TunAutoRoute : bool;
  TunRouteShellType : string;
  TunRouteShellPath : string;
  TunSetupScript : string;
  TunTeardownScript : string;
  TunExcludeProcesses : string;
  SsBackend : string;
  TrojanBackend : string;
  DnsListenAddr : string;
  DnsCacheEnabled : bool;
  DnsCacheSize : Z;
  DnsCacheMinTTL : Z;
  DnsCacheMaxTTL : Z;
  DnsPrefetch : bool;
  DnsNegativeCache : bool;
}.

#[export] Instance Setting_eq : EqDecision Setting.
Proof. solve_decision. Defined.

Definition TransparentClose : string := "close".
Definition TransparentProxy : string := "proxy".
Definition TransparentWhitelist : string := "whitelist".
Definition TransparentGfwlist : string := "gfwlist".
Definition TransparentFollowRule : string := "pac".
Definition TransparentTproxy : string := "tproxy".
Definition TransparentRedirect : string := "redirect".
Definition TransparentSystemProxy : string := "system_proxy".
Definition TransparentTun : string := "tun".

Definition Default : string := "default".
Definition Yes : string := "yes".
Definition No : string := "no".

Definition WhitelistMode : string := "whitelist".
Definition GfwlistMode : string := "gfwlist".
Definition RoutingAMode : string := "routingA".

Definition InboundSniffingDisable : string := "disable".
Definition InboundSniffingHttpTLS : string := "http,tls".

(** [common.FillEmpty]: a field that is zero takes the other value, but for the
    fields of type bool. *)
Definition fill_string (a b : string) : string := if String.eqb a "" then b else a.
Definition fill_int (a b : Z) : Z := if a =? 0 then b else a.

Definition FillEmpty (s d : Setting) : Setting := {|
  LogLevel := fill_string (LogLevel s) (LogLevel d);
  RulePortMode := fill_string (RulePortMode s) (RulePortMode d);
  ProxyModeWhenSubscribe := fill_string (ProxyModeWhenSubscribe s) (ProxyModeWhenSubscribe d);
  GFWListAutoUpdateMode := fill_string (GFWListAutoUpdateMode s) (GFWListAutoUpdateMode d);
  GFWListAutoUpdateIntervalHour := fill_int (GFWListAutoUpdateIntervalHour s) (GFWListAutoUpdateIntervalHour d);
  SubscriptionAutoUpdateMode := fill_string (SubscriptionAutoUpdateMode s) (SubscriptionAutoUpdateMode d);
  SubscriptionAutoUpdateIntervalHour :=
    fill_int (SubscriptionAutoUpdateIntervalHour s) (SubscriptionAutoUpdateIntervalHour d);
  TcpFastOpen := fill_string (TcpFastOpen s) (TcpFastOpen d);
  MuxOn := fill_string (MuxOn s) (MuxOn d);
  Mux := fill_int (Mux s) (Mux d);
  InboundSniffing := fill_string (InboundSniffing s) (InboundSniffing d);
  Transparent := fill_string (Transparent s) (Transparent d);
  IpForward := IpForward s;
  RouteOnly := RouteOnly s;
  PortSharing := PortSharing s;
  TransparentType := fill_string (TransparentType s) (TransparentType d);
  TproxyExcludedInterfaces := fill_string (TproxyExcludedInterfaces s) (TproxyExcludedInterfaces d);
  TunAutoRoute := TunAutoRoute s;
  TunRouteShellType := fill_string (TunRouteShellType s) (TunRouteShellType d);
  TunRouteShellPath := fill_string (TunRouteShellPath s) (TunRouteShellPath d);
  TunSetupScript := fill_string (TunSetupScript s) (TunSetupScript d);
  TunTeardownScript := fill_string (TunTeardownScript s) (TunTeardownScript d);
  TunExcludeProcesses := fill_string (TunExcludeProcesses s) (TunExcludeProcesses d);
  SsBackend := fill_string (SsBackend s) (SsBackend d);
  TrojanBackend := fill_string (TrojanBackend s) (TrojanBackend d);
  DnsListenAddr := fill_string (DnsListenAddr s) (DnsListenAddr d);
  DnsCacheEnabled := DnsCacheEnabled s;
  DnsCacheSize := fill_int (DnsCacheSize s) (DnsCacheSize d);
  DnsCacheMinTTL := fill_int (DnsCacheMinTTL s) (DnsCacheMinTTL d);
  DnsCacheMaxTTL := fill_int (DnsCacheMaxTTL s) (DnsCacheMaxTTL d);
  DnsPrefetch := DnsPrefetch s;
  DnsNegativeCache := DnsNegativeCache s;
|}.

(** [IsTransparentOn]; a lite installation does not intercept packets. *)
Definition transparent_on (lite : bool) (setting : Setting) : bool :=
  if String.eqb (Transparent setting) TransparentClose then false
  else if lite && (String.eqb (TransparentType setting) TransparentTproxy ||
                   String.eqb (TransparentType setting) TransparentRedirect) then false
  else true.

(** ** Ports *)

Record ApiPort := mkApiPort { ap_Port : Z; ap_Services : list string }.

Record Ports := mkPorts {
  Socks5 : Z;
  Http : Z;
  Socks5WithPac : Z;
  HttpWithPac : Z;
  Vmess : Z;
  Api : ApiPort;
}.

Record CustomInbound := mkCustomInbound {
  ci_Tag : string;
  ci_Protocol : string;
  ci_Port : Z;
  ci_Outbound : string;
  ci_OutboundType : string;
  ci_RoutingARules : string;
  ci_Username : string;
  ci_Password : string;
}.

(** ** DNS rules *)

Record ServiceDnsRule := mkServiceDnsRule {
  dr_Server : string;
  dr_Domains : string;
  dr_Outbound : string;
  dr_ID : Z;
  dr_Domain : string;
  dr_IP : string;
  dr_QueryType : string;
  dr_ClientIP : string;
  dr_Upstream : string;
  dr_Action : string;
  dr_Policy : string;
  dr_RuleID : string;
}.

Definition simple_rule (server domains outbound : string) : ServiceDnsRule :=
  mkServiceDnsRule server domains outbound 0 "" "" "" "" "" "" "" "".

Definition DefaultDnsRules : list ServiceDnsRule :=
  [simple_rule "localhost" "geosite:private" "direct"; simple_rule "223.5.5.5" "geosite:cn" "direct";
   simple_rule "1.0.0.1" "" "proxy"].

(** The stored rules, when they can be read and there are some. *)
Definition GetDnsRulesNotNil (stored : option (list ServiceDnsRule)) : list ServiceDnsRule :=
  match stored with
  | Some (r :: rules) => r :: rules
  | _ => DefaultDnsRules
  end.

(** The assignments in order: a later one sees the earlier. *)
Definition migrate_rule (r : ServiceDnsRule) : ServiceDnsRule :=
  let upstream := fill_string (dr_Upstream r) (dr_Server r) in
  let server := fill_string (dr_Server r) upstream in
  let domain := fill_string (dr_Domain r) (dr_Domains r) in
  let domains := fill_string (dr_Domains r) domain in
  {| dr_Server := server; dr_Domains := domains; dr_Outbound := fill_string (dr_Outbound r) "direct"; dr_ID := dr_ID r;
     dr_Domain := domain; dr_IP := dr_IP r; dr_QueryType := fill_string (dr_QueryType r) "*"; dr_ClientIP := dr_ClientIP r;
     dr_Upstream := upstream; dr_Action := fill_string (dr_Action r) "route"; dr_Policy := fill_string (dr_Policy r) "single";
     dr_RuleID := fill_string (dr_RuleID r) ("rule-" +:+ dec (dr_ID r)) |}.

Definition MigrateDnsRules (oldRules : list ServiceDnsRule) : list ServiceDnsRule := map migrate_rule oldRules.

(** The port of the DNS module, shared with the interception rules. *)
Definition dnsModulePort (setting : Setting) : string := DnsModulePort (DnsListenAddr setting).
