(* ===== verification/Rule.v ===== *)
(** * Query matchers (core/dns/rule.go)

    The five matchers, [parseCIDR], [BuildMatchers] and [MatchAll], and the
    meaning of a routing rule: OR inside a field group, AND across groups.
    Go's regular expressions are a parameter, the class [Regexp]. *)

From S2P Require Import Prelude DnsMsg DnsConfig NetIP.

#[local] Open Scope Z_scope.
#[local] Open Scope go_scope.

(** [regexp.Compile] and [MatchString]. *)
Class Regexp := {
  Re : Type;
  Compile : string -> result Re;
  MatchString : Re -> string -> bool;
}.

(** A resolver maps a geosite tag to exact domains and suffixes. *)
Abbreviation GeositeResolver := (string -> list string * list string).

Section Matchers.
Context `{RX : Regexp}.

Record DomainRule := mkDomainRule {
  dr_Domain : string;
  dr_IsSuffix : bool;
  dr_IsRegex : bool;
  dr_Re : option Re;
}.

(** [name] is the query name without its final dot; a nil [Re] panics. *)
Definition DomainRule_Match (r : DomainRule) (query : DnsQuery) : option bool :=
  let name := TrimSuffix (Name query) "." in
  if dr_IsRegex r then re ← dr_Re r; Some (MatchString re name)
  else if dr_IsSuffix r then
    let domain := TrimSuffix (dr_Domain r) "." in
    if HasPrefix domain "." then Some (HasSuffix name domain)
    else if String.eqb name domain then Some true
    else Some (HasSuffix name ("." +:+ domain))
  else
    let domain := TrimSuffix (dr_Domain r) "." in
    Some (String.eqb name domain).

(** [IPRule], [QueryTypeRule], [ClientIPRule] and [OrMatcher] are the other
    implementations of the interface [RuleMatcher]; a nil CIDR is [None]. *)
Inductive RuleMatcher :=
| MDomain (r : DomainRule)
| MIP (CIDR : option IPNet)
| MQueryType (QType : Z)
| MClientIP (CIDR : option IPNet)
| MOr (Matchers : list RuleMatcher).

Definition IPRule_Match (cidr : option IPNet) (query : DnsQuery) : bool :=
  match cidr with None => false | Some n => IPNet_Contains n (ClientIP query) end.

Definition ClientIPRule_Match (cidr : option IPNet) (query : DnsQuery) : bool :=
  match cidr, ClientIP query with
  | None, _ => false
  | _, [] => false
  | Some n, ip => IPNet_Contains n ip
  end.

Definition QueryTypeRule_Match (qt : Z) (query : DnsQuery) : bool := qt =? QType query.

(** The loop of [OrMatcher.Match]: the first match ends it. *)
Fixpoint or_match {A} (match_ : A -> option bool) (ms : list A) : option bool :=
  match ms with
  | [] => Some false
  | m :: ms' => b ← match_ m; if b : bool then Some true else or_match match_ ms'
  end.

Fixpoint Match (m : RuleMatcher) (query : DnsQuery) : option bool :=
  match m with
  | MDomain r => DomainRule_Match r query
  | MIP c => Some (IPRule_Match c query)
  | MQueryType t => Some (QueryTypeRule_Match t query)
  | MClientIP c => Some (ClientIPRule_Match c query)
  | MOr ms => or_match (fun m => Match m query) ms
  end.

Definition Type_ (m : RuleMatcher) : string :=
  match m with
  | MDomain r =>
    if dr_IsRegex r then "domain_regex" else if dr_IsSuffix r then "domain_suffix" else "domain"
  | MIP _ => "ip"
  | MQueryType _ => "query_type"
  | MClientIP _ => "client_ip"
  | MOr _ => "or_group"
  end.

Definition Value (m : RuleMatcher) : string :=
  match m with
  | MDomain r => dr_Domain r
  | MIP c | MClientIP c => match c with None => "" | Some n => IPNet_String n end
  | MQueryType t => dec (u16 t)
  | MOr ms => dec (Z.of_nat (length ms)) +:+ " matchers"
  end.

Definition parse_net (s : string) : result IPNet :=
  match ParseCIDR s with
  | Some n => Ok n
  | None => Err (ExtErr "invalid CIDR address")
  end.

Definition parseCIDR (s : string) : result IPNet :=
  if has_byte "/"%char s then
    match parse_net s with
    | Err err => Err (Wrapf "invalid CIDR %q: %w" [FStr s] err)
    | Ok cidr => Ok cidr
    end
  else
    match ParseIP s with
    | None => Err (Errorf "invalid IP address %q" [FStr s])
    | Some ip =>
      if is_some (To4 ip) then parse_net (s +:+ "/32")
      else parse_net (s +:+ "/128")
    end.

(** ** BuildMatchers *)

Definition exact_rule (d : string) : RuleMatcher := MDomain (mkDomainRule d false false None).
Definition suffix_rule (d : string) : RuleMatcher := MDomain (mkDomainRule d true false None).
Definition regex_rule (d : string) (re : Re) : RuleMatcher :=
  MDomain (mkDomainRule d false true (Some re)).

Definition geosite : string := "geosite:".

(** One round of the two loops over [rule.Domain] and [rule.DomainSuffix];
    [plain] builds the matcher of an entry that is not a geosite tag. *)
Definition domain_entry (resolver : option GeositeResolver) (plain : string -> RuleMatcher)
    (d : string) : list RuleMatcher :=
  if HasPrefix d geosite then
    match resolver with
    | None => []
    | Some f =>
      let '(doms, suffs) := f (TrimPrefix d geosite) in
      map exact_rule doms ++ map suffix_rule suffs
    end
  else [plain d].

Fixpoint build_regex (ds : list string) : result (list RuleMatcher) :=
  match ds with
  | [] => Ok []
  | d :: ds' =>
    match Compile d with
    | Err err => Err (Wrapf "invalid domain regex %q: %w" [FStr d] err)
    | Ok re => let? rest := build_regex ds' in Ok (regex_rule d re :: rest)
    end
  end.

Fixpoint build_cidrs (what : string) (mk : IPNet -> RuleMatcher) (ss : list string)
    : result (list RuleMatcher) :=
  match ss with
  | [] => Ok []
  | s :: ss' =>
    match parseCIDR s with
    | Err err => Err (Wrapf what [FStr s] err)
    | Ok cidr => let? rest := build_cidrs what mk ss' in Ok (mk cidr :: rest)
    end
  end.

(** The final list gets nothing for an empty group, the matcher itself for one
    of one matcher, and an OR of a larger one. *)
Definition add_group (matchers group : list RuleMatcher) : list RuleMatcher :=
  match group with
  | [] => matchers
  | [m] => matchers ++ [m]
  | _ => matchers ++ [MOr group]
  end.

Definition BuildMatchers (rule : DnsRule) (resolver : option GeositeResolver)
    : result (list RuleMatcher) :=
  let domainMatchers := concat (map (domain_entry resolver exact_rule) (rule_Domain rule)) in
  let domainMatchers := domainMatchers ++
    concat (map (domain_entry resolver suffix_rule) (rule_DomainSuffix rule)) in
  let? regexes := build_regex (rule_DomainRegex rule) in
  let domainMatchers := domainMatchers ++ regexes in
  let? ipMatchers :=
    build_cidrs "invalid IP CIDR %q: %w" (fun c => MIP (Some c)) (rule_IP rule) in
  let qtypeMatchers := map MQueryType (rule_QueryType rule) in
  let? clientIPMatchers :=
    build_cidrs "invalid client IP CIDR %q: %w" (fun c => MClientIP (Some c)) (rule_ClientIP rule) in
  let matchers := [] in
  let matchers := add_group matchers domainMatchers in
  let matchers := add_group matchers ipMatchers in
  let matchers := add_group matchers qtypeMatchers in
  let matchers := add_group matchers clientIPMatchers in
  Ok matchers.

(** The loop of [MatchAll]: the first group that does not match ends it. *)
Fixpoint MatchAll (matchers : list RuleMatcher) (query : DnsQuery) : option bool :=
  match matchers with
  | [] => Some true
  | m :: ms => b ← Match m query; if b : bool then MatchAll ms query else Some false
  end.

(** ** The meaning of a rule *)

Definition strip_dot (s : string) : string := TrimSuffix s ".".

Definition names_exactly (d : string) (q : DnsQuery) : Prop :=
  strip_dot (Name q) = strip_dot d.

(** The query name is [d] or lies below it; when [d] is written with a leading
    dot only the names below it count. *)
Definition names_under (d : string) (q : DnsQuery) : Prop :=
  if HasPrefix (strip_dot d) "." then exists p, strip_dot (Name q) = p +:+ strip_dot d
  else strip_dot (Name q) = strip_dot d \/
       exists p, strip_dot (Name q) = p +:+ "." +:+ strip_dot d.

(** What a geosite tag stands for. *)
Definition expands (resolver : option GeositeResolver) (d : string)
    (doms suffs : list string) : Prop :=
  HasPrefix d geosite = true /\
  match resolver with
  | None => doms = [] /\ suffs = []
  | Some f => f (TrimPrefix d geosite) = (doms, suffs)
  end.

Inductive domain_hit (resolver : option GeositeResolver) (rule : DnsRule) (q : DnsQuery) : Prop :=
| hit_exact d :
    d ∈ rule_Domain rule -> HasPrefix d geosite = false -> names_exactly d q ->
    domain_hit resolver rule q
| hit_suffix d :
    d ∈ rule_DomainSuffix rule -> HasPrefix d geosite = false -> names_under d q ->
    domain_hit resolver rule q
| hit_geosite_exact d doms suffs x :
    d ∈ rule_Domain rule ++ rule_DomainSuffix rule -> expands resolver d doms suffs ->
    x ∈ doms -> names_exactly x q -> domain_hit resolver rule q
| hit_geosite_suffix d doms suffs x :
    d ∈ rule_Domain rule ++ rule_DomainSuffix rule -> expands resolver d doms suffs ->
    x ∈ suffs -> names_under x q -> domain_hit resolver rule q
| hit_regex p re :
    p ∈ rule_DomainRegex rule -> Compile p = Ok re ->
    MatchString re (strip_dot (Name q)) = true -> domain_hit resolver rule q.

(** The domain fields put no constraint: they are empty but for tags that
    expand to nothing. *)
Definition domain_open (resolver : option GeositeResolver) (rule : DnsRule) : Prop :=
  rule_DomainRegex rule = [] /\
  Forall (fun d => expands resolver d [] []) (rule_Domain rule ++ rule_DomainSuffix rule).

Definition cidr_hit (ss : list string) (q : DnsQuery) : Prop :=
  exists s n, s ∈ ss /\ parseCIDR s = Ok n /\ IPNet_Contains n (ClientIP q) = true.

(** OR inside each of the four groups, AND across the groups that are set. *)
Definition rule_selects (resolver : option GeositeResolver) (rule : DnsRule) (q : DnsQuery)
    : Prop :=
  (domain_open resolver rule \/ domain_hit resolver rule q) /\
  (rule_IP rule = [] \/ cidr_hit (rule_IP rule) q) /\
  (rule_QueryType rule = [] \/ QType q ∈ rule_QueryType rule) /\
  (rule_ClientIP rule = [] \/ (ClientIP q <> [] /\ cidr_hit (rule_ClientIP rule) q)).

(** Every pattern of the rule can be compiled. *)
Definition rule_compiles (rule : DnsRule) : Prop :=
  Forall (fun p => exists re, Compile p = Ok re) (rule_DomainRegex rule) /\
  Forall (fun s => exists n, parseCIDR s = Ok n) (rule_IP rule) /\
  Forall (fun s => exists n, parseCIDR s = Ok n) (rule_ClientIP rule).

(** ** Lemmas *)

Definition total (q : DnsQuery) (m : RuleMatcher) : Prop := is_Some (Match m q).
Definition hits (q : DnsQuery) (m : RuleMatcher) : Prop := Match m q = Some true.

(** What one group contributes to the conjunction. *)
Definition group_match (g : list RuleMatcher) (q : DnsQuery) : option bool :=
  match g with [] => Some true | _ => or_match (fun m => Match m q) g end.

Lemma MatchAll_app ms ms' q :
  MatchAll (ms ++ ms') q = (b ← MatchAll ms q; if b : bool then MatchAll ms' q else Some false).
Proof.
  induction ms as [|m ms IH]; simpl; [done|].
  destruct (Match m q) as [[]|]; simpl; [apply IH|done|done].
Qed.

Lemma MatchAll_add_group ms g q :
  MatchAll (add_group ms g) q =
  (b ← MatchAll ms q; if b : bool then group_match g q else Some false).
Proof.
  destruct g as [|m [|m' g]]; simpl.
  - by destruct (MatchAll ms q) as [[]|].
  - rewrite MatchAll_app. destruct (MatchAll ms q) as [[]|]; [|done|done].
    simpl. by destruct (Match m q) as [[]|].
  - rewrite MatchAll_app. destruct (MatchAll ms q) as [[]|]; [|done|done].
    simpl. destruct (Match m q) as [[]|]; [done| |done].
    simpl. destruct (Match m' q) as [[]|]; [done| |done].
    simpl. by destruct (or_match _ g) as [[]|].
Qed.

Lemma or_match_spec q ms :
  Forall (total q) ms ->
  exists b, or_match (fun m => Match m q) ms = Some b /\
    (b = true <-> exists m, m ∈ ms /\ hits q m).
Proof.
  induction 1 as [|m ms [b Hb] Hms (b' & Hb' & IH)]; simpl.
  - exists false. split; [done|]. split; [done|]. by intros (m & Hm%elem_of_nil & _).
  - rewrite Hb. simpl. unfold hits in *. setoid_rewrite elem_of_cons.
    destruct b; [exists true|exists b']; split; try done; naive_solver.
Qed.

Lemma group_match_spec q g :
  Forall (total q) g ->
  exists b, group_match g q = Some b /\
    (b = true <-> g = [] \/ exists m, m ∈ g /\ hits q m).
Proof.
  intros Hg. destruct (or_match_spec q g Hg) as (b & Hb & Hiff).
  destruct g as [|m g]; [exists true; naive_solver|].
  exists b. split; [done|]. rewrite Hiff. naive_solver.
Qed.

Lemma exact_hits d q : hits q (exact_rule d) <-> names_exactly d q.
Proof.
  unfold hits, names_exactly, strip_dot. simpl. unfold DomainRule_Match. simpl.
  rewrite <-String.eqb_eq. by split; [intros [= ->]|intros ->].
Qed.

Lemma suffix_hits d q : hits q (suffix_rule d) <-> names_under d q.
Proof.
  unfold hits, names_under, strip_dot. simpl. unfold DomainRule_Match. simpl.
  destruct (HasPrefix _ _).
  - rewrite <-HasSuffix_spec. by split; [intros [= ->]|intros ->].
  - destruct (String.eqb _ _) eqn:E; [apply String.eqb_eq in E; naive_solver|].
    apply String.eqb_neq in E. rewrite <-HasSuffix_spec.
    split; [intros [= ->]; auto|]. by intros [?| ->].
Qed.

Lemma regex_hits d re q :
  hits q (regex_rule d re) <-> MatchString re (strip_dot (Name q)) = true.
Proof.
  change (Some (MatchString re (strip_dot (Name q))) = Some true <->
          MatchString re (strip_dot (Name q)) = true). split; congruence.
Qed.

(** The matchers of a domain entry, whatever [plain] is. *)
Lemma domain_entry_elem resolver plain d m :
  m ∈ domain_entry resolver plain d <->
  (HasPrefix d geosite = false /\ m = plain d) \/
  (exists doms suffs, expands resolver d doms suffs /\
     ((exists x, x ∈ doms /\ m = exact_rule x) \/ (exists x, x ∈ suffs /\ m = suffix_rule x))).
Proof.
  unfold domain_entry, expands. destruct (HasPrefix d geosite); [|set_solver].
  destruct resolver as [f|].
  - destruct (f _) as [doms suffs] eqn:Hf. rewrite elem_of_app.
    rewrite !list_elem_of_fmap. split; [|naive_solver]. intros H. right. exists doms, suffs.
    naive_solver.
  - split; [by intros ?%elem_of_nil|].
    by intros [[? _]|(? & ? & (_ & -> & ->) & [(x & ?%elem_of_nil & _)|(x & ?%elem_of_nil & _)])].
Qed.

Lemma domain_entry_total resolver plain d q :
  total q (plain d) -> Forall (total q) (domain_entry resolver plain d).
Proof.
  intros Hp. apply Forall_forall. intros m Hm. apply domain_entry_elem in Hm.
  destruct Hm as [[_ ->]|(doms & suffs & _ & [(x & _ & ->)|(x & _ & ->)])]; [done| |];
    unfold total; simpl; unfold DomainRule_Match; simpl; repeat case_match; by eexists.
Qed.

Lemma build_regex_spec ds :
  (exists ms, build_regex ds = Ok ms) <-> Forall (fun p => exists re, Compile p = Ok re) ds.
Proof.
  induction ds as [|d ds IH]; simpl; [naive_solver|].
  rewrite Forall_cons, <-IH. destruct (Compile d) as [re|]; [|naive_solver].
  destruct (build_regex ds); naive_solver.
Qed.

Lemma build_regex_elem ds : forall ms m,
  build_regex ds = Ok ms ->
  (m ∈ ms <-> exists p re, p ∈ ds /\ Compile p = Ok re /\ m = regex_rule p re).
Proof.
  induction ds as [|d ds IH]; intros ms m; simpl.
  - intros [= <-]. set_solver.
  - destruct (Compile d) as [re|] eqn:Hd; [|done].
    destruct (build_regex ds) as [rest|]; [|done]. intros [= <-].
    rewrite elem_of_cons, (IH rest m eq_refl). setoid_rewrite elem_of_cons.
    split; [naive_solver|]. intros (p & re' & [->|Hp] & Hc & ->); [left|right; eauto].
    congruence.
Qed.

Lemma build_cidrs_spec what mk ss :
  (exists ms, build_cidrs what mk ss = Ok ms) <-> Forall (fun s => exists n, parseCIDR s = Ok n) ss.
Proof.
  induction ss as [|d ss IH]; simpl; [naive_solver|].
  rewrite Forall_cons, <-IH. destruct (parseCIDR d) as [n|]; [|naive_solver].
  destruct (build_cidrs _ _ ss); naive_solver.
Qed.

Lemma build_cidrs_elem what mk ss : forall ms m,
  build_cidrs what mk ss = Ok ms ->
  (m ∈ ms <-> exists s n, s ∈ ss /\ parseCIDR s = Ok n /\ m = mk n).
Proof.
  induction ss as [|d ss IH]; intros ms m; simpl.
  - intros [= <-]. set_solver.
  - destruct (parseCIDR d) as [n|] eqn:Hd; [|done].
    destruct (build_cidrs _ _ ss) as [rest|]; [|done]. intros [= <-].
    rewrite elem_of_cons, (IH rest m eq_refl). setoid_rewrite elem_of_cons.
    split; [naive_solver|]. intros (s & n' & [->|Hs] & Hc & ->); [left|right; eauto].
    congruence.
Qed.

Lemma build_regex_nil ds ms : build_regex ds = Ok ms -> (ms = [] <-> ds = []).
Proof.
  destruct ds as [|d ds]; simpl; [by intros [= <-]|]. repeat (case_match; try done).
  by intros [= <-].
Qed.

Lemma build_cidrs_nil what mk ss ms : build_cidrs what mk ss = Ok ms -> (ms = [] <-> ss = []).
Proof.
  destruct ss as [|d ss]; simpl; [by intros [= <-]|]. repeat (case_match; try done).
  by intros [= <-].
Qed.

Lemma domain_entry_nil resolver plain d :
  domain_entry resolver plain d = [] <-> expands resolver d [] [].
Proof.
  unfold domain_entry, expands. destruct (HasPrefix d geosite); [|naive_solver].
  destruct resolver as [f|]; [|naive_solver]. destruct (f _) as [[|x xs] [|y ys]]; naive_solver.
Qed.

(** The matchers of the domain group. *)
Definition domain_group (resolver : option GeositeResolver) (rule : DnsRule)
    (regexes : list RuleMatcher) : list RuleMatcher :=
  (concat (map (domain_entry resolver exact_rule) (rule_Domain rule)) ++
   concat (map (domain_entry resolver suffix_rule) (rule_DomainSuffix rule))) ++ regexes.

Lemma domain_group_open resolver rule rx :
  build_regex (rule_DomainRegex rule) = Ok rx ->
  (domain_group resolver rule rx = [] <-> domain_open resolver rule).
Proof.
  intros Hrx. unfold domain_group, domain_open.
  rewrite !app_nil, !concat_map_nil, Forall_app, (build_regex_nil _ _ Hrx).
  setoid_rewrite domain_entry_nil.
  tauto.
Qed.

Lemma domain_group_hit resolver rule rx q :
  build_regex (rule_DomainRegex rule) = Ok rx ->
  (exists m, m ∈ domain_group resolver rule rx /\ hits q m) <-> domain_hit resolver rule q.
Proof.
  intros Hrx. unfold domain_group. setoid_rewrite elem_of_app. setoid_rewrite elem_of_app.
  setoid_rewrite elem_of_concat_map. setoid_rewrite domain_entry_elem.
  setoid_rewrite (build_regex_elem _ _ _ Hrx). split.
  - intros (m & [[(d & Hd & Hm)|(d & Hd & Hm)]|(p & re & Hp & Hc & ->)] & Hh).
    + destruct Hm as [[Hg ->]|(doms & suffs & He & [(x & Hx & ->)|(x & Hx & ->)])];
        rewrite ?exact_hits, ?suffix_hits in Hh;
        [by apply (hit_exact _ _ _ d) | apply (hit_geosite_exact _ _ _ d doms suffs x)
        | apply (hit_geosite_suffix _ _ _ d doms suffs x)]; try done; apply elem_of_app; auto.
    + destruct Hm as [[Hg ->]|(doms & suffs & He & [(x & Hx & ->)|(x & Hx & ->)])];
        rewrite ?exact_hits, ?suffix_hits in Hh;
        [by apply (hit_suffix _ _ _ d) | apply (hit_geosite_exact _ _ _ d doms suffs x)
        | apply (hit_geosite_suffix _ _ _ d doms suffs x)]; try done; apply elem_of_app; auto.
    + rewrite regex_hits in Hh. by eapply hit_regex.
  - intros [d Hd Hg Hn|d Hd Hg Hn|d doms suffs x Hd He Hx Hn|d doms suffs x Hd He Hx Hn|p re Hp Hc Hm].
    + exists (exact_rule d). rewrite exact_hits. naive_solver.
    + exists (suffix_rule d). rewrite suffix_hits. naive_solver.
    + exists (exact_rule x). rewrite exact_hits. apply elem_of_app in Hd. split; [|done].
      left. destruct Hd; [left|right]; exists d; split; eauto 10.
    + exists (suffix_rule x). rewrite suffix_hits. apply elem_of_app in Hd. split; [|done].
      left. destruct Hd; [left|right]; exists d; split; eauto 10.
    + exists (regex_rule p re). rewrite regex_hits. eauto 10.
Qed.

Lemma domain_group_total resolver rule rx q :
  build_regex (rule_DomainRegex rule) = Ok rx -> Forall (total q) (domain_group resolver rule rx).
Proof.
  intros Hrx. unfold domain_group. rewrite !Forall_app.
  assert (forall plain ds, (forall d, total q (plain d)) ->
    Forall (total q) (concat (map (domain_entry resolver plain) ds))) as Hc.
  { intros plain ds Hp. apply Forall_forall. intros m (d & _ & Hm)%elem_of_concat_map.
    pose proof (domain_entry_total resolver plain d q (Hp d)) as Ht.
    rewrite Forall_forall in Ht. by apply Ht. }
  split_and!; [apply Hc|apply Hc|].
  - intros d. by eexists.
  - intros d. unfold total. simpl. unfold DomainRule_Match. simpl. repeat case_match; by eexists.
  - apply Forall_forall. intros m Hm. apply (build_regex_elem _ _ _ Hrx) in Hm.
    destruct Hm as (p & re & _ & _ & ->). by eexists.
Qed.

Lemma cidr_group_spec what mk ss ms (P : DnsQuery -> Prop) q :
  build_cidrs what mk ss = Ok ms ->
  (forall n, total q (mk n)) ->
  (forall n, hits q (mk n) <-> P q /\ IPNet_Contains n (ClientIP q) = true) ->
  exists b, group_match ms q = Some b /\ (b = true <-> ss = [] \/ (P q /\ cidr_hit ss q)).
Proof.
  intros Hms Ht Hh. destruct (group_match_spec q ms) as (b & Hb & Hiff).
  { apply Forall_forall. intros m Hm. apply (build_cidrs_elem _ _ _ _ _ Hms) in Hm.
    by destruct Hm as (s & n & _ & _ & ->). }
  exists b. split; [done|]. rewrite Hiff, (build_cidrs_nil _ _ _ _ Hms).
  setoid_rewrite (build_cidrs_elem _ _ _ _ _ Hms). unfold cidr_hit. split.
  - intros [?|(m & (s & n & Hs & Hn & ->) & H)]; [by left|right]. apply Hh in H. naive_solver.
  - intros [?|(HP & s & n & Hs & Hn & H)]; [by left|right]. exists (mk n). rewrite Hh. eauto 10.
Qed.

Lemma qtype_group_spec ts q :
  exists b, group_match (map MQueryType ts) q = Some b /\ (b = true <-> ts = [] \/ QType q ∈ ts).
Proof.
  destruct (group_match_spec q (map MQueryType ts)) as (b & Hb & Hiff).
  { apply Forall_forall. intros m (t & -> & _)%list_elem_of_fmap. by eexists. }
  exists b. split; [done|]. rewrite Hiff. destruct ts as [|t ts]; [naive_solver|].
  assert (forall t', hits q (MQueryType t') <-> t' = QType q) as Hq.
  { intros t'. unfold hits. simpl. unfold QueryTypeRule_Match. rewrite <-Z.eqb_eq.
    split; congruence. }
  setoid_rewrite list_elem_of_fmap. split.
  - intros [?|(m & (t' & -> & Ht') & Hm)]; [done|right]. apply Hq in Hm. by subst.
  - intros [?|H]; [done|right]. exists (MQueryType (QType q)). rewrite Hq. eauto.
Qed.

Lemma built_rule_sem (rule : DnsRule) (resolver : option GeositeResolver)
    (ms : list RuleMatcher) (q : DnsQuery) :
  BuildMatchers rule resolver = Ok ms ->
  exists b, MatchAll ms q = Some b /\ (b = true <-> rule_selects resolver rule q).
Proof.
  unfold BuildMatchers. destruct (build_regex _) as [rx|] eqn:Hrx; [|done].
  destruct (build_cidrs _ _ (rule_IP rule)) as [ips|] eqn:Hip; [|done].
  destruct (build_cidrs _ _ (rule_ClientIP rule)) as [cips|] eqn:Hc; [|done].
  intros [= <-]. rewrite !MatchAll_add_group. fold (domain_group resolver rule rx).
  destruct (group_match_spec q _ (domain_group_total resolver rule rx q Hrx)) as (b1 & -> & H1).
  rewrite (domain_group_open _ _ _ Hrx), (domain_group_hit _ _ _ _ Hrx) in H1.
  destruct (cidr_group_spec _ _ _ _ (fun _ => True) q Hip) as (b2 & -> & H2).
  { by eexists. }
  { intros n. unfold hits. simpl. split; [by intros [= ->]|by intros [_ ->]]. }
  destruct (qtype_group_spec (rule_QueryType rule) q) as (b3 & -> & H3).
  destruct (cidr_group_spec _ _ _ _ (fun q => ClientIP q <> []) q Hc) as (b4 & -> & H4).
  { by eexists. }
  { intros n. unfold hits. simpl. destruct (ClientIP q); [naive_solver|].
    split; [by intros [= ->]|by intros [_ ->]]. }
  exists (b1 && b2 && b3 && b4). split; [by destruct b1, b2, b3, b4|].
  unfold rule_selects. rewrite !andb_true_iff, H1, H2, H3, H4. naive_solver.
Qed.

Lemma compiles_iff (rule : DnsRule) (resolver : option GeositeResolver) :
  (exists ms, BuildMatchers rule resolver = Ok ms) <-> rule_compiles rule.
Proof.
  unfold BuildMatchers, rule_compiles.
  rewrite <-build_regex_spec, <-(build_cidrs_spec "invalid IP CIDR %q: %w" (fun c => MIP (Some c))),
    <-(build_cidrs_spec "invalid client IP CIDR %q: %w" (fun c => MClientIP (Some c))).
  repeat case_match; naive_solver.
Qed.


(** [BuildMatchers] succeeds exactly when every regular expression
    compiles and every address or network parses; unresolved geosite tags are
    not an error. *)
Theorem build_matchers_ok_exact (rule : DnsRule) (resolver : option GeositeResolver) :
  (exists ms, BuildMatchers rule resolver = Ok ms) <-> rule_compiles rule.
Proof. apply compiles_iff. Qed.

End Matchers.

(** A regular expression engine for literal patterns: a pattern without
    metacharacters matches the names it occurs in. *)
Module LiteralRe.

Definition metachars : list Ascii.ascii :=
  ["\"; "."; "+"; "*"; "?"; "("; ")"; "|"; "["; "]"; "{"; "}"; "^"; "$"]%char.

Definition compile (p : string) : result string :=
  if existsb (fun c => has_byte c p) metachars then Err (ExtErr "error parsing regexp") else Ok p.

#[export] Instance literal_re : Regexp := {|
  Re := string;
  Compile := compile;
  MatchString := fun p s => is_some (String.index 0 p s);
|}.

End LiteralRe.

Section Examples.
#[local] Existing Instance LiteralRe.literal_re.

Definition sample_rule : DnsRule :=
  mkRule "r1" ["geosite:cn"; "exact.org"] ["example.com"] ["ads"] ["10.0.0.0/8"; "fd00::1"]
    [TypeA; TypeAAAA] [] "u1" "" "".

Definition sample_resolver : GeositeResolver :=
  fun tag => if String.eqb tag "cn" then (["baidu.com"], ["qq.com"]) else ([], []).

Definition sample_query (name : string) (ip : list Z) : DnsQuery :=
  mkQuery name TypeA ClassINET ip false.

Example sample_rule_matches :
  match BuildMatchers sample_rule (Some sample_resolver) with
  | Ok ms =>
    map (fun n => MatchAll ms (sample_query n [10; 0; 0; 9]))
      ["www.qq.com."; "baidu.com"; "www.baidu.com."; "a.example.com"; "myads.net."; "xexample.com"]
  | Err _ => []
  end = [Some true; Some true; Some false; Some true; Some true; Some false].
Proof. vm_compute. reflexivity. Qed.


(** A rule whose only condition is geosite tags matches every
    query while no resolver is set: the tags are skipped, no matcher is built
    and an empty matcher list is no constraint. *)
Theorem unresolved_geosite_rule_matches_all (rule : DnsRule) :
  Forall (fun d => HasPrefix d geosite = true) (rule_Domain rule ++ rule_DomainSuffix rule) ->
  rule_DomainRegex rule = [] -> rule_IP rule = [] -> rule_QueryType rule = [] ->
  rule_ClientIP rule = [] ->
  BuildMatchers rule None = Ok [] /\ forall q, MatchAll [] q = Some true.
Proof.
  intros Hd Hr Hi Hq Hc. unfold BuildMatchers. rewrite Hr, Hi, Hq, Hc. simpl.
  assert (domain_group None rule [] = []) as Hg.
  { apply domain_group_open; [by rewrite Hr|]. split; [done|].
    eapply Forall_impl; [exact Hd|]. intros d H. by split. }
  unfold domain_group in Hg. by rewrite Hg.
Qed.

Lemma unresolved_geosite_rule_matches_all_witness :
  BuildMatchers (mkRule "cn" ["geosite:cn"] [] [] [] [] [] "u" "reject" "") None = Ok [] /\
  forall q, MatchAll [] q = Some true.
Proof.
  apply (unresolved_geosite_rule_matches_all
    (mkRule "cn" ["geosite:cn"] [] [] [] [] [] "u" "reject" "")); try reflexivity.
  repeat constructor.
Defined.

(** An IPv4-mapped single address is given the mask /32 but parsed as IPv6, so
    its network is ::/32 and the client it names is not in it. *)
Example mapped_address_misses_its_client :
  match parseCIDR "::ffff:1.2.3.4" with
  | Ok n => IPNet_String n = "::/32" /\ IPNet_Contains n [1; 2; 3; 4] = false
  | Err _ => False
  end.
Proof. vm_compute. split; reflexivity. Qed.

End Examples.
