(* ===== verification/Router.v ===== *)
(** * The routing engine (core/dns/router.go)

    An ordered list of compiled rules; the first one that selects a query
    decides its upstream.  The lock is not modelled: each operation is one
    critical section (two for [Reload], which is the composition of both). *)

From S2P Require Import Prelude DnsMsg DnsConfig NetIP Rule.

#[local] Open Scope Z_scope.
#[local] Open Scope go_scope.

Record RouteResult := mkRouteResult {
  rr_UpstreamID : string;
  rr_UpstreamAddr : string;
  rr_Action : string;
  rr_RuleID : string;
  rr_Policy : string;
  rr_ProxyTag : string;
}.

(** A Go map read of a missing key is the zero value. *)
Definition map_get (m : gmap string string) (k : string) : string := default EmptyString (m !! k).

Section Router.
Context `{RX : Regexp}.

Record Router := mkRouter {
  r_rules : list DnsRule;
  r_matchers : list (list RuleMatcher);
  r_upstreamMap : gmap string string;
  r_upstreamProxyTag : gmap string string;
  r_defaultUpstream : string;
  r_geositeResolver : option GeositeResolver;
}.

(** The loop of [NewRouter] and [Reload] over the upstreams. *)
Fixpoint upstream_maps (upstreams : list UpstreamConfig) (addrs tags : gmap string string)
    : gmap string string * gmap string string :=
  match upstreams with
  | [] => (addrs, tags)
  | u :: us =>
    if negb (String.eqb (uc_ID u) "") then
      let addrs := <[uc_ID u := uc_Addr u]> addrs in
      let tags := if negb (String.eqb (uc_ProxyTag u) "")
                  then <[uc_ID u := uc_ProxyTag u]> tags else tags in
      upstream_maps us addrs tags
    else upstream_maps us addrs tags
  end.

Fixpoint build_all (resolver : option GeositeResolver) (i : Z) (rules : list DnsRule)
    : result (list (list RuleMatcher)) :=
  match rules with
  | [] => Ok []
  | rule :: rules' =>
    match BuildMatchers rule resolver with
    | Err err => Err (Wrapf "rule %d (id=%q): %w" [FInt i; FStr (rule_ID rule)] err)
    | Ok matchers => let? rest := build_all resolver (i + 1) rules' in Ok (matchers :: rest)
    end
  end.

Definition UpdateRules (r : Router) (rules : list DnsRule) : Router * result unit :=
  match build_all (r_geositeResolver r) 0 rules with
  | Err err => (r, Err err)
  | Ok newMatchers =>
    (mkRouter rules newMatchers (r_upstreamMap r) (r_upstreamProxyTag r) (r_defaultUpstream r)
       (r_geositeResolver r), Ok tt)
  end.

Definition NewRouter (rules : list DnsRule) (upstreams : list UpstreamConfig)
    (defaultUpstream : string) : result Router :=
  let '(addrs, tags) := upstream_maps upstreams ∅ ∅ in
  let r := mkRouter [] [] addrs tags defaultUpstream None in
  match UpdateRules r rules with
  | (_, Err err) => Err (Wrapf "new router: %w" [] err)
  | (r, Ok _) => Ok r
  end.

(** The result of a rule that matched, and the one of no match. *)
Definition matched_result (r : Router) (rule : DnsRule) : RouteResult :=
  let upstreamAddr := map_get (r_upstreamMap r) (rule_Upstream rule) in
  let action := if String.eqb (rule_Action rule) "" then "route" else rule_Action rule in
  let policy := if String.eqb (rule_Policy rule) "" then "single" else rule_Policy rule in
  let proxyTag := map_get (r_upstreamProxyTag r) (rule_Upstream rule) in
  mkRouteResult (rule_Upstream rule) upstreamAddr action (rule_ID rule) policy proxyTag.

Definition default_result (r : Router) : RouteResult :=
  let defaultAddr := map_get (r_upstreamMap r) (r_defaultUpstream r) in
  let defaultProxyTag := map_get (r_upstreamProxyTag r) (r_defaultUpstream r) in
  mkRouteResult (r_defaultUpstream r) defaultAddr "route" "" "single" defaultProxyTag.

Fixpoint route_loop (r : Router) (i : nat) (rules : list DnsRule) (query : DnsQuery)
    : option RouteResult :=
  match rules with
  | [] => Some (default_result r)
  | rule :: rules' =>
    match r_matchers r !! i with
    | None => route_loop r (S i) rules' query
    | Some matchers =>
      b ← MatchAll matchers query;
      if b : bool then Some (matched_result r rule) else route_loop r (S i) rules' query
    end
  end.

Definition Route (r : Router) (query : DnsQuery) : option RouteResult :=
  route_loop r 0 (r_rules r) query.

Definition ListRules (r : Router) : list DnsRule := r_rules r.

Definition SetGeositeResolver (r : Router) (resolver : option GeositeResolver) : Router :=
  mkRouter (r_rules r) (r_matchers r) (r_upstreamMap r) (r_upstreamProxyTag r)
    (r_defaultUpstream r) resolver.

(** [None] is a nil configuration. *)
Definition Reload (r : Router) (cfg : option DnsModuleConfig) : Router * result unit :=
  match cfg with
  | None => (r, Err (Errorf "router reload: config is nil" []))
  | Some cfg =>
    let rules := map rule_of_config (mc_Rules cfg) in
    let '(addrs, tags) := upstream_maps (mc_Upstreams cfg) ∅ ∅ in
    let r := mkRouter (r_rules r) (r_matchers r) addrs tags (r_defaultUpstream r)
               (r_geositeResolver r) in
    UpdateRules r rules
  end.

(** ** Reachable routers *)

(** [reachable r f]: [r] has come about by these operations, and [f] is the
    resolver that was set when its rules were last installed. *)
Inductive reachable : Router -> option GeositeResolver -> Prop :=
| reach_new rules ups d r : NewRouter rules ups d = Ok r -> reachable r None
| reach_update r f rules r' res :
    reachable r f -> UpdateRules r rules = (r', res) ->
    reachable r' (if is_ok res then r_geositeResolver r else f)
| reach_resolver r f g : reachable r f -> reachable (SetGeositeResolver r g) f
| reach_reload r f cfg r' res :
    reachable r f -> Reload r cfg = (r', res) ->
    reachable r' (if is_ok res then r_geositeResolver r else f).

(** Matchers and rules correspond: they were built by one resolver. *)
Definition compiled (r : Router) (resolver : option GeositeResolver) : Prop :=
  Forall2 (fun rule ms => BuildMatchers rule resolver = Ok ms) (r_rules r) (r_matchers r).

(** The specification of [Route]. *)
Definition routes_to (resolver : option GeositeResolver) (r : Router) (q : DnsQuery)
    (res : RouteResult) : Prop :=
  (exists pre rule post, r_rules r = pre ++ rule :: post /\
     Forall (fun x => ~ rule_selects resolver x q) pre /\ rule_selects resolver rule q /\
     res = matched_result r rule) \/
  (Forall (fun x => ~ rule_selects resolver x q) (r_rules r) /\ res = default_result r).

Lemma build_all_spec resolver rules : forall i mss,
  build_all resolver i rules = Ok mss <->
  Forall2 (fun rule ms => BuildMatchers rule resolver = Ok ms) rules mss.
Proof.
  induction rules as [|rule rules IH]; intros i mss; simpl.
  - split; [by intros [= <-]|]. intros H. by inversion H.
  - split.
    + destruct (BuildMatchers rule resolver) as [ms|] eqn:E; [|done].
      destruct (build_all _ _ rules) as [rest|] eqn:E'; [|done]. intros [= <-].
      constructor; [done|]. by apply (IH (i + 1)).
    + intros H. inversion H as [|? ms ? rest H1 H2]; subst. rewrite H1.
      apply (IH (i + 1)) in H2. by rewrite H2.
Qed.

Lemma build_all_ok resolver rules : forall i,
  Forall rule_compiles rules <-> exists mss, build_all resolver i rules = Ok mss.
Proof.
  induction rules as [|rule rules IH]; intros i; simpl; [naive_solver|].
  rewrite Forall_cons, (IH (i + 1)), <-(compiles_iff rule resolver).
  destruct (BuildMatchers _ _); [|naive_solver]. destruct (build_all _ _ _); naive_solver.
Qed.

Lemma UpdateRules_compiled r rules r' res f :
  UpdateRules r rules = (r', res) -> compiled r f ->
  compiled r' (if is_ok res then r_geositeResolver r else f).
Proof.
  unfold UpdateRules. destruct (build_all _ _ _) as [mss|] eqn:E; intros [= <- <-] Hc; [|done].
  by apply build_all_spec in E.
Qed.

Lemma reachable_compiled r f : reachable r f -> compiled r f.
Proof.
  induction 1 as [rules ups d r H|r f rules r' res _ IH H|r f g _ IH|r f cfg r' res _ IH H].
  - unfold NewRouter in H. destruct (upstream_maps _ _ _) as [addrs tags].
    destruct (UpdateRules _ _) as [r' [[]|]] eqn:E; simplify_eq/=.
    apply (UpdateRules_compiled _ _ _ _ None E). constructor.
  - by eapply UpdateRules_compiled.
  - done.
  - unfold Reload in H. destruct cfg as [cfg|]; [|by simplify_eq].
    destruct (upstream_maps _ _ _) as [addrs tags].
    by apply (UpdateRules_compiled _ _ _ _ f H).
Qed.

Lemma route_loop_spec r q resolver rules mss : forall i,
  Forall2 (fun rule ms => BuildMatchers rule resolver = Ok ms) rules mss ->
  (forall j, r_matchers r !! (i + j)%nat = mss !! j) ->
  exists res, route_loop r i rules q = Some res /\
  ((exists pre rule post, rules = pre ++ rule :: post /\
      Forall (fun x => ~ rule_selects resolver x q) pre /\ rule_selects resolver rule q /\
      res = matched_result r rule) \/
   (Forall (fun x => ~ rule_selects resolver x q) rules /\ res = default_result r)).
Proof.
  intros i H. revert i. induction H as [|rule ms rules mss Hb Hf IH]; intros i Hm; simpl.
  - exists (default_result r). split; [done|]. by right.
  - pose proof (Hm 0%nat) as H0. rewrite Nat.add_0_r in H0. rewrite H0. simpl.
    destruct (built_rule_sem rule resolver ms q Hb) as ([] & -> & Hiff); simpl.
    + exists (matched_result r rule). split; [done|]. left. exists [], rule, rules. naive_solver.
    + destruct (IH (S i)) as (res & -> & Hres).
      { intros j. rewrite Nat.add_succ_comm. apply (Hm (S j)). }
      assert (~ rule_selects resolver rule q) as Hn by (intros Hs; naive_solver).
      exists res. split; [done|].
      destruct Hres as [(pre & x & post & -> & Hp & Hx & ->)|[Hall ->]].
      * left. exists (rule :: pre), x, post. naive_solver.
      * right. naive_solver.
Qed.

(** C34. Whatever the history of a router, [Route] returns, without a
    panic, the outcome of the first rule in order that selects the query (its
    upstream with the configured address and proxy tag, its action or "route",
    its policy or "single"), and the default upstream when none does; geosite
    tags stand for what the resolver in force at the last successful update of
    the rules made of them. *)
Theorem route_takes_first_selecting_rule (r : Router) (resolver : option GeositeResolver)
    (q : DnsQuery) :
  reachable r resolver -> exists res, Route r q = Some res /\ routes_to resolver r q res.
Proof.
  intros Hc%reachable_compiled. by apply (route_loop_spec r q resolver (r_rules r) (r_matchers r) 0).
Qed.

(** [UpdateRules] is atomic: it installs the new rules when
    every one of them compiles, and otherwise returns an error and leaves the
    router as it was. *)
Theorem update_rules_atomic (r : Router) (rules : list DnsRule) :
  (Forall rule_compiles rules ->
     exists mss, UpdateRules r rules =
       (mkRouter rules mss (r_upstreamMap r) (r_upstreamProxyTag r) (r_defaultUpstream r)
          (r_geositeResolver r), Ok tt) /\
     Forall2 (fun rule ms => BuildMatchers rule (r_geositeResolver r) = Ok ms) rules mss) /\
  (~ Forall rule_compiles rules -> exists e, UpdateRules r rules = (r, Err e)).
Proof.
  pose proof (build_all_ok (r_geositeResolver r) rules 0) as Hok.
  unfold UpdateRules. split.
  - intros [mss H]%Hok. rewrite H. exists mss. split; [done|]. by apply build_all_spec in H.
  - intros Hn. destruct (build_all _ _ _) as [mss|e]; [|by exists e].
    destruct Hn. apply Hok. by exists mss.
Qed.

(** The address of the last upstream with an id, and the last proxy tag set
    for it. *)
Definition last_of (f : UpstreamConfig -> string) (id : string) (us : list UpstreamConfig)
    : option string :=
  last (map f (filter (fun u => uc_ID u = id /\ uc_ID u <> "") us)).

Definition tagged (us : list UpstreamConfig) : list UpstreamConfig :=
  filter (fun u => uc_ProxyTag u <> "") us.

Lemma last_of_cons f id u us :
  last_of f id (u :: us) =
  match last_of f id us with
  | Some x => Some x
  | None => if decide (uc_ID u = id /\ uc_ID u <> "") then Some (f u) else None
  end.
Proof.
  unfold last_of. rewrite filter_cons. destruct (decide _); simpl; [|by destruct (last _)].
  destruct (filter _ us) as [|v vs]; [done|]. simpl.
  destruct (last (f v :: map f vs)) eqn:E; [by rewrite <-E|]. by apply last_None in E.
Qed.

Lemma upstream_maps_spec us id : forall addrs tags,
  fst (upstream_maps us addrs tags) !! id =
    match last_of uc_Addr id us with Some a => Some a | None => addrs !! id end /\
  snd (upstream_maps us addrs tags) !! id =
    match last_of uc_ProxyTag id (tagged us) with Some t => Some t | None => tags !! id end.
Proof.
  induction us as [|u us IH]; intros addrs tags; simpl; [done|].
  assert (tagged (u :: us) = if decide (uc_ProxyTag u <> "") then u :: tagged us else tagged us)
    as -> by (unfold tagged; rewrite filter_cons; done).
  rewrite last_of_cons. destruct (String.eqb_spec (uc_ID u) "") as [He|He]; simpl.
  - destruct (IH addrs tags) as [-> ->]. rewrite (decide_False (P := _ /\ _)) by naive_solver.
    split; [by destruct (last_of _ _ _)|].
    destruct (decide _); [|done]. rewrite last_of_cons.
    rewrite (decide_False (P := _ /\ _)) by naive_solver. by destruct (last_of _ _ (tagged us)).
  - edestruct (IH (<[uc_ID u := uc_Addr u]> addrs)) as [-> ->]. split.
    + destruct (last_of _ _ us); [done|]. destruct (decide _) as [[-> _]|Hn].
      * by rewrite lookup_insert_eq.
      * rewrite lookup_insert_ne; [done|]. naive_solver.
    + destruct (String.eqb_spec (uc_ProxyTag u) "") as [Ht|Ht]; simpl.
      * by rewrite decide_False by naive_solver.
      * rewrite decide_True by done. rewrite last_of_cons.
        destruct (last_of _ _ (tagged us)); [done|]. destruct (decide _) as [[-> _]|Hn].
        -- by rewrite lookup_insert_eq.
        -- rewrite lookup_insert_ne; [done|]. naive_solver.
Qed.

(** [Reload] gives every id the address of the last configured
    upstream of that id and the last non-empty proxy tag, whether it succeeds or
    not; the rules are the configured ones when all of them compile, and
    otherwise stay the old ones although the upstream maps have changed. *)
Theorem reload_effect (r : Router) (cfg : DnsModuleConfig) (id : string) :
  let '(r', res) := Reload r (Some cfg) in
  map_get (r_upstreamMap r') id = default EmptyString (last_of uc_Addr id (mc_Upstreams cfg)) /\
  map_get (r_upstreamProxyTag r') id =
    default EmptyString (last_of uc_ProxyTag id (tagged (mc_Upstreams cfg))) /\
  (r_rules r' = if is_ok res then map rule_of_config (mc_Rules cfg) else r_rules r) /\
  (is_ok res = true <-> Forall rule_compiles (map rule_of_config (mc_Rules cfg))).
Proof.
  unfold Reload. pose proof (upstream_maps_spec (mc_Upstreams cfg) id ∅ ∅) as Hm.
  destruct (upstream_maps _ _ _) as [addrs tags]. simpl in Hm. destruct Hm as [Ha Ht].
  pose proof (build_all_ok (r_geositeResolver r) (map rule_of_config (mc_Rules cfg)) 0) as Hok.
  unfold UpdateRules. simpl. unfold map_get.
  destruct (build_all _ _ _) as [mss|e]; simpl; rewrite Ha, Ht, !lookup_empty;
    (split; [by destruct (last_of _ _ _)|]); (split; [by destruct (last_of _ _ (tagged _))|]);
    naive_solver.
Qed.

End Router.

Section Examples.
#[local] Existing Instance LiteralRe.literal_re.

Definition sample_upstreams : list UpstreamConfig :=
  [mkUpstreamConfig "u1" "1.1.1.1:53" "udp" "proxy" false "";
   mkUpstreamConfig "u2" "8.8.8.8:53" "udp" "" false ""].

Definition sample_router : result Router := NewRouter [sample_rule] sample_upstreams "u2".

Lemma route_takes_first_selecting_rule_witness :
  match sample_router with
  | Ok r =>
    Route r (sample_query "www.example.com." [10; 0; 0; 9]) =
      Some (mkRouteResult "u1" "1.1.1.1:53" "route" "r1" "single" "proxy") /\
    exists res, Route r (sample_query "www.example.com." [10; 0; 0; 9]) = Some res /\
      routes_to None r (sample_query "www.example.com." [10; 0; 0; 9]) res
  | Err _ => False
  end.
Proof.
  destruct sample_router as [r|] eqn:E.
  - split; [vm_compute in E; injection E as <-; vm_compute; reflexivity|].
    exact (route_takes_first_selecting_rule r None _ (reach_new _ _ _ r E)).
  - vm_compute in E. discriminate E.
Defined.

Lemma update_rules_atomic_witness :
  match sample_router with
  | Ok r => exists e, UpdateRules r [sample_rule; mkRule "bad" [] [] ["("] [] [] [] "" "" ""] = (r, Err e)
  | Err _ => False
  end.
Proof.
  destruct sample_router as [r|] eqn:E.
  - apply (proj2 (update_rules_atomic r _)). intros H.
    apply Forall_cons in H as [_ H]. apply Forall_cons in H as [[H _] _].
    apply Forall_cons in H as [[re H] _]. vm_compute in H. discriminate H.
  - vm_compute in E. discriminate E.
Defined.

End Examples.
