(* ===== verification/Response.v ===== *)
(** * Building responses (core/dns/response.go)

    The response builder with its EDNS0, ECS, DNSSEC and DNS64 helpers, and the
    conversions between wire messages and the module's queries and responses.
    The random id of [SetQuestion] and [dns.Id] is the argument [id]. *)

From S2P Require Import Prelude DnsMsg NetIP.

#[local] Open Scope Z_scope.
#[local] Open Scope go_scope.

Record ResponseBuilder := mkBuilder {
  EnableDNS64 : bool;
  DNS64Prefix : list Z;
}.

Definition NewResponseBuilder : ResponseBuilder := mkBuilder false [].

Section Response.
Context `{ML : MiekgLaws}.

(** ** DNS64 *)

(** The first loop stops at an AAAA record; a nil record before it panics. *)
Fixpoint has_aaaa (answer : list (option RR)) : option bool :=
  match answer with
  | [] => Some false
  | rr :: rest =>
    h ← Header rr;
    if hdr_Rrtype h =? TypeAAAA then Some true else has_aaaa rest
  end.

Definition a_records (answer : list (option RR)) : list (RR_Header * list Z) :=
  omap (fun rr => match rr with Some (RR_A h a) => Some (h, a) | _ => None end) answer.

(** [copy(syntheticIP, prefix)] and the four stores. *)
Definition synthetic_ip (prefix ipv4 : list Z) : list Z := take 12 prefix ++ ipv4.

Definition synthesize_one (prefix : list Z) (r : RR_Header * list Z) : option (option RR) :=
  let '(h, a) := r in
  match To4 a with
  | None => None
  | Some ipv4 =>
    Some (Some (RR_AAAA (mkHdr (hdr_Name h) TypeAAAA (hdr_Class h) (hdr_Ttl h))
                  (synthetic_ip prefix ipv4)))
  end.

Definition synthesizeDNS64 (b : ResponseBuilder) (m : Msg) : option Msg :=
  if negb (EnableDNS64 b) || bool_decide (DNS64Prefix b = []) then Some m
  else
    hasAAAA ← has_aaaa (m_Answer m);
    if hasAAAA : bool then Some m
    else
      match a_records (m_Answer m) with
      | [] => Some m
      | aRecords =>
        match To16 (DNS64Prefix b) with
        | None => Some m
        | Some prefix => Some (set_Answer m (m_Answer m ++ omap (synthesize_one prefix) aRecords))
        end
      end.

(** ** BuildResponse

    A nil [RawMsg] panics in [SetReply]. *)

Definition BuildResponse (b : ResponseBuilder) (query : DnsQuery) (upstreamResp : DnsResponse)
    : option Msg :=
  raw ← resp_RawMsg upstreamResp;
  let m := SetReply new_Msg raw in
  let m := set_Question m [mkQuestion (Fqdn (Name query)) (u16 (QType query)) (QClass query)] in
  let m := set_Response m true in
  let m := set_Rcode m (resp_Rcode upstreamResp) in
  let m := set_RecursionAvailable m (m_RecursionAvailable raw) in
  let m := set_Authoritative m (m_Authoritative raw) in
  let m := set_AuthenticatedData m (m_AuthenticatedData raw) in
  let m := set_CheckingDisabled m (m_CheckingDisabled raw) in
  let m := match resp_Answer upstreamResp with [] => m | a => set_Answer m a end in
  let m := match resp_Authority upstreamResp with [] => m | a => set_Ns m a end in
  let m := match resp_Additional upstreamResp with [] => m | a => set_Extra m a end in
  let m := set_Compress m true in
  if EnableDNS64 b && (m_Rcode m =? RcodeSuccess) then synthesizeDNS64 b m else Some m.

(** The body [BuildRefused], [BuildNXDOMAIN] and [BuildServerFailure] share. *)
Definition error_reply (id : Z) (query : DnsQuery) (rcode : Z) : Msg :=
  let m := SetQuestion id new_Msg (Fqdn (Name query)) (u16 (QType query)) in
  let m := set_Response m true in
  let m := set_Rcode m rcode in
  let m := set_RecursionAvailable m true in
  set_Compress m true.

Definition BuildRefused (id : Z) (query : DnsQuery) : Msg := error_reply id query RcodeRefused.
Definition BuildNXDOMAIN (id : Z) (query : DnsQuery) : Msg := error_reply id query RcodeNameError.
Definition BuildServerFailure (id : Z) (query : DnsQuery) : Msg :=
  error_reply id query RcodeServerFailure.

Definition SetTruncated (m : Msg) : Msg := set_TruncatedFlag m true.
Definition IsTruncated (m : Msg) : bool := m_Truncated m.

(** ** EDNS0 *)

Definition AddEDNS0 (m : Msg) (udpPayloadSize : Z) (options : list EDNS0) : Msg :=
  match find_opt m with
  | Some (i, h, o) => put_opt m i (OPT_SetUDPSize h udpPayloadSize) (o ++ options)
  | None =>
    set_Extra m (m_Extra m ++ [Some (RR_OPT (mkHdr "." TypeOPT udpPayloadSize 0) options)])
  end.

Definition ecs_option (clientIP : list Z) : EDNS0 :=
  let '(family, mask, ip) :=
    match To4 clientIP with
    | Some ipv4 => (1, 24, ipv4)
    | None => (2, 48, default [] (To16 clientIP))
    end in
  EDNS0_SUBNET EDNS0SUBNET family mask 0 ip.

Definition AddECSSubnet (m : Msg) (clientIP : list Z) : Msg :=
  match clientIP with
  | [] => m
  | _ => AddEDNS0 m 4096 [ecs_option clientIP]
  end.

Definition SetDNSSEC (m : Msg) : Msg :=
  match find_opt m with
  | Some (i, h, o) => put_opt m i (OPT_SetDo h) o
  | None =>
    let extra := m_Extra m ++ [Some (RR_OPT (mkHdr "." TypeOPT DefaultMsgSize 0) [])] in
    set_Extra m (<[(length extra - 1)%nat :=
      Some (RR_OPT (OPT_SetDo (mkHdr "." TypeOPT DefaultMsgSize 0)) [])]> extra)
  end.

(** ** Conversions *)

Definition no_query : DnsQuery := mkQuery "" 0 0 [] false.

Definition ExtractRecords (msg : option Msg) : option (option DnsResponse) :=
  match msg with
  | None => Some None
  | Some msg =>
    ttl ← answer_ttl 0 (m_Answer msg);
    Some (Some (mkResponse no_query (Some msg) (m_Rcode msg) (m_Answer msg) (m_Ns msg)
                  (m_Extra msg) ttl "" "" 0 false))
  end.

Definition ExtractQuestion (msg : option Msg) : result DnsQuery :=
  match msg with
  | None => Err (Errorf "dns response: nil message" [])
  | Some msg =>
    match m_Question msg with
    | [] => Err (Errorf "dns response: no question section" [])
    | q :: _ => Ok (mkQuery (Fqdn (q_Name q)) (q_Qtype q) (q_Qclass q) [] false)
    end
  end.

Definition BuildResponseMsg (id : Z) (query : DnsQuery) (answer : list (option RR)) (rcode : Z)
    : Msg :=
  let req := set_Question (set_Id new_Msg id)
               [mkQuestion (Fqdn (Name query)) (u16 (QType query)) (QClass query)] in
  let m := SetReply new_Msg req in
  let m := set_Response m true in
  let m := set_Rcode m rcode in
  let m := set_RecursionAvailable m true in
  let m := set_Compress m true in
  match answer with [] => m | _ => set_Answer m answer end.

Definition PackMsg (m : Msg) : result (list Z) :=
  match Msg_Pack m with
  | Ok wire => Ok wire
  | Err err => Err (Wrapf "dns response: pack error: %w" [] err)
  end.

Definition UnpackMsg (wire : list Z) : result Msg :=
  match Msg_Unpack wire with
  | Ok m => Ok m
  | Err err => Err (Wrapf "dns response: unpack error: %w" [] err)
  end.

Definition handleTruncation (m : Msg) (maxSize : Z) : Msg :=
  if Msg_Len m >? maxSize
  then set_Extra (set_Ns (set_Answer (set_TruncatedFlag m true) []) []) []
  else m.

Definition ResponseTime (now queryTime rtt : Z) : Z :=
  if rtt >? 0 then rtt else time_sub now queryTime.

(** ** Properties *)

(** The message built from an upstream response answers the
    client's own question with the upstream's code, flags and sections; only a
    response without a raw message makes it panic. *)
Theorem build_response_carries_upstream (b : ResponseBuilder) (q : DnsQuery) (r : DnsResponse) :
  EnableDNS64 b = false ->
  match resp_RawMsg r with
  | None => BuildResponse b q r = None
  | Some raw => exists m, BuildResponse b q r = Some m /\
      m_Id m = m_Id raw /\ m_Response m = true /\ m_Rcode m = resp_Rcode r /\
      m_Question m = [mkQuestion (Fqdn (Name q)) (u16 (QType q)) (QClass q)] /\
      m_Answer m = resp_Answer r /\ m_Ns m = resp_Authority r /\ m_Extra m = resp_Additional r /\
      m_RecursionAvailable m = m_RecursionAvailable raw /\
      m_Authoritative m = m_Authoritative raw /\
      m_AuthenticatedData m = m_AuthenticatedData raw
  end.
Proof.
  intros Hb. unfold BuildResponse. destruct (resp_RawMsg r) as [raw|]; [|done].
  cbn [mbind option_bind]. rewrite Hb. eexists. split; [done|].
  pose proof (SetReply_Id new_Msg raw) as Hid.
  destruct (SetReply_sections new_Msg raw) as (Ha & Hn & Hx).
  destruct (SetReply new_Msg raw). simpl in *. subst.
  destruct (resp_Answer r), (resp_Authority r), (resp_Additional r); done.
Qed.

(** The records a DNS64 answer gains. *)
Definition synthetic (prefix : list Z) (answer : list (option RR)) : list (option RR) :=
  omap (synthesize_one prefix) (a_records answer).

Lemma has_aaaa_spec answer :
  no_nil answer ->
  exists b, has_aaaa answer = Some b /\
    (b = true <-> exists r, Some r ∈ answer /\ hdr_Rrtype (rr_hdr r) = TypeAAAA).
Proof.
  induction 1 as [|rr answer [r ->] Hn (b & Hb & IH)]; simpl.
  - exists false. split; [done|]. split; [done|]. by intros (r & ?%elem_of_nil & _).
  - setoid_rewrite elem_of_cons. destruct (_ =? _) eqn:E; zbool; [exists true|exists b];
      (split; [done|]); naive_solver.
Qed.

Lemma synthetic_elem prefix answer rr :
  rr ∈ synthetic prefix answer ->
  exists h a v4, Some (RR_A h a) ∈ answer /\ To4 a = Some v4 /\
    rr = Some (RR_AAAA (mkHdr (hdr_Name h) TypeAAAA (hdr_Class h) (hdr_Ttl h)) (take 12 prefix ++ v4)).
Proof.
  unfold synthetic. intros ([h a] & Ha & Hs)%list_elem_of_omap. simpl in Hs.
  apply list_elem_of_omap in Ha as (x & Hx & Ha).
  destruct (To4 a) as [v4|] eqn:Hv; [|done]. injection Hs as <-.
  destruct x as [[]|]; simplify_eq/=. eauto 10.
Qed.

Lemma To4_length a v4 : To4 a = Some v4 -> length v4 = 4%nat.
Proof.
  unfold To4. destruct (length a =? 4)%nat eqn:E; [apply Nat.eqb_eq in E; naive_solver|].
  destruct (length a =? 16)%nat eqn:E'; [|done]. apply Nat.eqb_eq in E'. simpl.
  destruct (bool_decide _); [|done]. intros [= <-]. rewrite length_drop. lia.
Qed.

Lemma To16_length a p : To16 a = Some p -> length p = 16%nat.
Proof.
  unfold To16. destruct (length a =? 4)%nat eqn:E.
  - apply Nat.eqb_eq in E. intros [= <-]. simpl. lia.
  - destruct (length a =? 16)%nat eqn:E'; [|done]. apply Nat.eqb_eq in E'. naive_solver.
Qed.

Lemma To16_nil : To16 [] = None.
Proof. done. Qed.

(** With a usable prefix, an answer that has no AAAA record gains one
    per IPv4 A record: same name, class and TTL, the sixteen bytes of the NAT64
    prefix with the IPv4 address in the last four; an answer with an AAAA record
    is left alone. *)
Theorem dns64_synthesis (b : ResponseBuilder) (m : Msg) (prefix : list Z) :
  EnableDNS64 b = true -> To16 (DNS64Prefix b) = Some prefix -> no_nil (m_Answer m) ->
  exists m', synthesizeDNS64 b m = Some m' /\
    ((exists r, Some r ∈ m_Answer m /\ hdr_Rrtype (rr_hdr r) = TypeAAAA) -> m' = m) /\
    ((forall r, Some r ∈ m_Answer m -> hdr_Rrtype (rr_hdr r) <> TypeAAAA) ->
       m' = set_Answer m (m_Answer m ++ synthetic prefix (m_Answer m)) /\
       Forall (fun rr => exists h ip, rr = Some (RR_AAAA h ip) /\ length ip = 16%nat)
         (synthetic prefix (m_Answer m))).
Proof.
  intros Hb Hp Hn. unfold synthesizeDNS64. rewrite Hb. cbn [negb orb].
  rewrite bool_decide_eq_false_2 by (intros H; rewrite H, To16_nil in Hp; done).
  destruct (has_aaaa_spec _ Hn) as ([] & -> & Hiff); cbn [mbind option_bind].
  - exists m. split; [done|]. split; [done|]. intros Hno.
    destruct (proj1 Hiff eq_refl) as (r & Hr & Ht). by destruct (Hno r Hr).
  - assert (forall m', (exists r, Some r ∈ m_Answer m /\ hdr_Rrtype (rr_hdr r) = TypeAAAA) -> m' = m)
      as Hno by (intros m' H; by apply Hiff in H).
    assert (Forall (fun rr => exists h ip, rr = Some (RR_AAAA h ip) /\ length ip = 16%nat)
      (synthetic prefix (m_Answer m))) as Hall.
    { apply Forall_forall. intros rr (h & a & v4 & _ & Hv & ->)%synthetic_elem.
      exists (mkHdr (hdr_Name h) TypeAAAA (hdr_Class h) (hdr_Ttl h)), (take 12 prefix ++ v4).
      split; [done|].
      by rewrite length_app, length_take, (To16_length _ _ Hp), (To4_length _ _ Hv). }
    destruct (a_records (m_Answer m)) as [|r rs] eqn:Hr.
    + exists m. split; [done|]. split; [done|]. intros _. split; [|done].
      unfold synthetic. rewrite Hr. simpl. rewrite app_nil_r. by destruct m.
    + rewrite Hp. eexists. split; [done|]. split; [apply Hno|]. intros _. split; [|done].
      unfold synthetic. by rewrite Hr.
Qed.

(** Adding EDNS0 options keeps a message at one OPT record: an existing
    record gets the new payload size and the options appended, its DNSSEC OK bit
    stays; otherwise one record is added. Nothing else changes. *)
Theorem edns0_added_in_place (m : Msg) (size : Z) (options : list EDNS0) :
  is_u16 size ->
  let m' := AddEDNS0 m size options in
  m' = set_Extra m (m_Extra m') /\
  opt_count (m_Extra m') = Nat.max 1 (opt_count (m_Extra m)) /\
  exists i h o, find_opt m' = Some (i, h, o ++ options) /\ OPT_UDPSize h = size /\
    match find_opt m with
    | Some (j, h0, o0) => i = j /\ o = o0 /\ OPT_Do h = OPT_Do h0
    | None => o = [] /\ OPT_Do h = false
    end.
Proof.
  intros Hs. unfold AddEDNS0. destruct (find_opt m) as [[[i h] o]|] eqn:E; cbv zeta.
  - pose proof (find_opt_Some _ _ _ _ E) as (_ & _ & Ht).
    destruct (OPT_SetUDPSize_spec h size Hs) as (H1 & H2 & H3).
    split; [unfold put_opt; by rewrite m_Extra_set|].
    split; [apply (opt_count_put _ _ _ _ _ _ E); congruence|].
    exists i, (OPT_SetUDPSize h size), o.
    rewrite (find_opt_put _ _ _ _ _ _ E) by congruence. done.
  - split; [by rewrite m_Extra_set|]. rewrite m_Extra_set.
    split; [by apply opt_count_append|].
    exists (length (m_Extra m)), (mkHdr "." TypeOPT size 0), [].
    rewrite (find_opt_append _ _ _ E) by done. rewrite OPT_UDPSize_Class, OPT_Do_zero by done. done.
Qed.

(** Setting DNSSEC OK: the bit is set, nothing else of the OPT record changes. *)
Lemma SetDNSSEC_spec m :
  exists i h o, find_opt (SetDNSSEC m) = Some (i, h, o) /\ OPT_Do h = true /\
    match find_opt m with
    | Some (j, h0, o0) => i = j /\ o = o0 /\ OPT_UDPSize h = OPT_UDPSize h0
    | None => o = [] /\ OPT_UDPSize h = DefaultMsgSize
    end.
Proof.
  unfold SetDNSSEC. destruct (find_opt m) as [[[i h] o]|] eqn:E.
  - pose proof (find_opt_Some _ _ _ _ E) as (_ & _ & Ht).
    destruct (OPT_SetDo_spec h) as (H1 & H2 & H3).
    exists i, (OPT_SetDo h), o. rewrite (find_opt_put _ _ _ _ _ _ E) by congruence. done.
  - destruct (OPT_SetDo_spec (mkHdr "." TypeOPT DefaultMsgSize 0)) as (H1 & H2 & H3).
    rewrite length_app, insert_app_r_alt by (simpl; lia).
    replace (length (m_Extra m) + _ - 1 - length (m_Extra m))%nat with 0%nat by (simpl; lia).
    cbn [insert list_insert]. eexists _, _, _. rewrite (find_opt_append _ _ _ E) by done. split; [done|].
    split; [done|]. by rewrite H2, OPT_UDPSize_Class.
Qed.

(** The question of a built reply reads back as the query it was built for. *)
Lemma build_extract_question id q answer rc :
  is_u16 (QType q) ->
  ExtractQuestion (Some (BuildResponseMsg id q answer rc)) =
  Ok (mkQuery (Fqdn (Name q)) (QType q) (QClass q) [] false).
Proof.
  intros Hq. unfold BuildResponseMsg, ExtractQuestion.
  set (req := set_Question _ _).
  pose proof (SetReply_Question new_Msg
    (mkQuestion (Fqdn (Name q)) (u16 (QType q)) (QClass q)) [] req eq_refl) as H.
  assert (m_Question (match answer with
    | [] => set_Compress (set_RecursionAvailable (set_Rcode (set_Response (SetReply new_Msg req) true) rc) true) true
    | _ => set_Answer (set_Compress (set_RecursionAvailable (set_Rcode (set_Response (SetReply new_Msg req) true) rc) true) true) answer
    end) = m_Question (SetReply new_Msg req)) as -> by (destruct (SetReply new_Msg req), answer; done).
  rewrite H. simpl. rewrite Fqdn_idem. unfold u16, is_u16 in *. by rewrite Z.mod_small.
Qed.

End Response.

Section Examples.
#[local] Existing Instance Ref.miekg_ref.
#[local] Existing Instance Ref.miekg_ref_laws.

Definition a_rr (ip : list Z) : option RR := Some (RR_A (mkHdr "x.org." TypeA ClassINET 300) ip).
Definition sample_answer : Msg :=
  set_Answer (set_Response (Ref.set_question 7 new_Msg "x.org." TypeA) true) [a_rr [192; 0; 2; 1]].
Definition nat64 : ResponseBuilder := mkBuilder true [0; 100; 255; 155; 0; 0; 0; 0; 0; 0; 0; 0; 0; 0; 0; 0].

Lemma build_response_carries_upstream_witness :
  exists m, BuildResponse NewResponseBuilder (mkQuery "x.org" TypeA ClassINET [] false)
      (mkResponse no_query (Some sample_answer) 0 (m_Answer sample_answer) [] [] 300 "" "" 0 false)
    = Some m /\ m_Id m = 7.
Proof.
  destruct (build_response_carries_upstream NewResponseBuilder
    (mkQuery "x.org" TypeA ClassINET [] false)
    (mkResponse no_query (Some sample_answer) 0 (m_Answer sample_answer) [] [] 300 "" "" 0 false)
    eq_refl) as (m & Hm & Hid & _).
  exists m. split; [exact Hm|exact Hid].
Defined.

Lemma dns64_synthesis_witness :
  exists m', synthesizeDNS64 nat64 sample_answer = Some m' /\ length (m_Answer m') = 2%nat.
Proof.
  destruct (dns64_synthesis nat64 sample_answer (DNS64Prefix nat64)) as (m' & Hm & _).
  - reflexivity.
  - reflexivity.
  - repeat constructor. by eexists.
  - exists m'. split; [exact Hm|]. vm_compute in Hm. injection Hm as <-. reflexivity.
Defined.

Lemma edns0_added_in_place_witness :
  opt_count (m_Extra (AddEDNS0 (AddEDNS0 sample_answer 1232 []) 4096 [ecs_option [192; 0; 2; 1]])) = 1%nat.
Proof.
  destruct (edns0_added_in_place (AddEDNS0 sample_answer 1232 []) 4096 [ecs_option [192; 0; 2; 1]])
    as (_ & H & _).
  - unfold is_u16. lia.
  - exact H.
Defined.

End Examples.
