(* ===== verification/Loop.v ===== *)
(** * Resolver loops (core/dns/loop.go)

    A query sent upstream carries the process's token in an EDNS0 local option;
    a query that arrives with it has come back.  The token is drawn once per
    process; [rand] is the outcome of reading eight random bytes. *)

From S2P Require Import Prelude DnsMsg.

#[local] Open Scope Z_scope.

Definition loopOptionCode : Z := 65042.
Definition loopLogInterval : Z := 10 * Second.

(** "v2rayadn", the token of a process without a random source *)
Definition fixed_token : list Z := [118; 50; 114; 97; 121; 97; 100; 110].

(** The state is [loopTokenValue], [None] before the first use. *)
Definition loopToken (rand : result (list Z)) (st : option (list Z)) : list Z * option (list Z) :=
  match st with
  | Some tok => (tok, st)
  | None =>
    let b := match rand with Ok b => b | Err _ => fixed_token end in
    (b, Some b)
  end.

Section Loop.
Context `{ML : MiekgLaws}.
(** The value [loopToken()] has for the life of the process. *)
Variable token : list Z.

(** The loop over [opt.Option]: the first loop option gets the token. *)
Fixpoint mark_existing (os : list EDNS0) : option (list EDNS0) :=
  match os with
  | [] => None
  | o :: os' =>
    match o with
    | EDNS0_LOCAL c d =>
      if c =? loopOptionCode then Some (EDNS0_LOCAL c token :: os')
      else os'' ← mark_existing os'; Some (o :: os'')
    | _ => os'' ← mark_existing os'; Some (o :: os'')
    end
  end.

Definition mark_options (os : list EDNS0) : list EDNS0 :=
  match mark_existing os with
  | Some os' => os'
  | None => os ++ [EDNS0_LOCAL loopOptionCode token]
  end.

Definition markOutgoing (msg : option Msg) : option Msg :=
  match msg with
  | None => None
  | Some msg =>
    let '(msg, opt) :=
      match find_opt msg with
      | Some opt => (msg, Some opt)
      | None => let msg := SetEdns0 msg 4096 false in (msg, find_opt msg)
      end in
    match opt with
    | None => Some msg
    | Some (i, h, o) => Some (put_opt msg i h (mark_options o))
    end
  end.

(** The comparison loop: [data] has the length of the token. *)
Fixpoint same_bytes (data tok : list Z) : bool :=
  match tok, data with
  | [], _ => true
  | t :: tok', d :: data' => if d =? t then same_bytes data' tok' else false
  | _ :: _, [] => false
  end.

Definition is_own (o : EDNS0) : bool :=
  match o with
  | EDNS0_LOCAL c d =>
    if negb (c =? loopOptionCode) || negb (length d =? length token)%nat then false
    else same_bytes d token
  | _ => false
  end.

Definition carriesOwnToken (msg : option Msg) : bool :=
  match msg with
  | None => false
  | Some msg =>
    match find_opt msg with
    | None => false
    | Some (_, _, o) => existsb is_own o
    end
  end.

(** [loopDetected]: the counter, the time of the last log line, and whether a
    line is written. *)
Record loop_log := mkLoopLog { loopLastLog : Z; loopSuppressed : Z }.

Definition loopDetected (now : Z) (st : loop_log) : loop_log * bool :=
  let n := i64 (loopSuppressed st + 1) in
  if negb (time_is_zero (loopLastLog st)) && (time_sub now (loopLastLog st) <? loopLogInterval)
  then (mkLoopLog (loopLastLog st) n, false)
  else (mkLoopLog now n, true).

(** ** Properties *)

Lemma same_bytes_spec data tok :
  length data = length tok -> same_bytes data tok = true <-> data = tok.
Proof.
  revert data. induction tok as [|t tok IH]; intros [|d data] Hl; simpl in *; try done.
  destruct (d =? t) eqn:E; zbool; [rewrite IH by lia; naive_solver|]. naive_solver.
Qed.

Lemma is_own_spec o : is_own o = true <-> o = EDNS0_LOCAL loopOptionCode token.
Proof.
  destruct o as [c d| |]; simpl; [|naive_solver|naive_solver].
  destruct (c =? loopOptionCode) eqn:E; zbool; simpl; [|naive_solver].
  destruct (length d =? length token)%nat eqn:El; simpl.
  - apply Nat.eqb_eq in El. rewrite same_bytes_spec by done. naive_solver.
  - apply Nat.eqb_neq in El. naive_solver.
Qed.

Definition loop_opt (o : EDNS0) : bool :=
  match o with EDNS0_LOCAL c _ => c =? loopOptionCode | _ => false end.

Definition loop_opts (os : list EDNS0) : nat := length (List.filter loop_opt os).
Definition other_opts (os : list EDNS0) : list EDNS0 := List.filter (fun o => negb (loop_opt o)) os.

Lemma mark_existing_spec os os' :
  mark_existing os = Some os' ->
  EDNS0_LOCAL loopOptionCode token ∈ os' /\ loop_opts os' = loop_opts os /\
  other_opts os' = other_opts os /\ mark_existing os' = Some os'.
Proof.
  revert os'. induction os as [|o os IH]; intros os'; cbn [mark_existing]; [done|].
  assert (forall os'', mark_existing os = Some os'' -> loop_opt o = false ->
    EDNS0_LOCAL loopOptionCode token ∈ o :: os'' /\ loop_opts (o :: os'') = loop_opts (o :: os) /\
    other_opts (o :: os'') = other_opts (o :: os)) as Hrec.
  { intros os'' H Hl. destruct (IH _ H) as (H1 & H2 & H3 & H4).
    unfold loop_opts, other_opts in *. cbn [List.filter]. rewrite Hl. cbn [negb].
    split; [by right|]. split; [done|]. by f_equal. }
  destruct o as [c d| |].
  - destruct (c =? loopOptionCode) eqn:E.
    + intros [= <-]. zbool. subst c. split; [left|]. done.
    + destruct (mark_existing os) as [os''|] eqn:Hm; [|done]. intros [= <-].
      destruct (Hrec os'') as (H1 & H2 & H3); [done..|].
      split_and!; try done. cbn [mark_existing]. rewrite E.
      destruct (IH _ eq_refl) as (_ & _ & _ & ->). done.
  - destruct (mark_existing os) as [os''|] eqn:Hm; [|done]. intros [= <-].
    destruct (Hrec os'') as (H1 & H2 & H3); [done..|].
    split_and!; try done. cbn [mark_existing]. destruct (IH _ eq_refl) as (_ & _ & _ & ->). done.
  - destruct (mark_existing os) as [os''|] eqn:Hm; [|done]. intros [= <-].
    destruct (Hrec os'') as (H1 & H2 & H3); [done..|].
    split_and!; try done. cbn [mark_existing]. destruct (IH _ eq_refl) as (_ & _ & _ & ->). done.
Qed.

Lemma mark_existing_None os : mark_existing os = None -> loop_opts os = 0%nat.
Proof.
  induction os as [|o os IH]; [done|]. cbn [mark_existing]. unfold loop_opts in *.
  cbn [List.filter]. intros H.
  assert (loop_opt o = false /\ mark_existing os = None) as [-> Hos]; [|by apply IH].
  destruct o as [c d| |]; simpl in *; [destruct (c =? _); [done|]| |];
    by destruct (mark_existing os).
Qed.

Lemma mark_existing_fresh os d :
  mark_existing os = None ->
  mark_existing (os ++ [EDNS0_LOCAL loopOptionCode d]) =
  Some (os ++ [EDNS0_LOCAL loopOptionCode token]).
Proof.
  induction os as [|o os IH]; [done|]. cbn [mark_existing app]. intros H.
  assert (mark_existing os = None) as Hos
    by (destruct o as [c e| |]; [destruct (c =? _); [done|]| |]; by destruct (mark_existing os)).
  rewrite (IH Hos). rewrite Hos in H. destruct o as [c e| |]; [|done|done].
  by destruct (c =? loopOptionCode).
Qed.

(** Marking keeps the other options in order, leaves exactly one loop option
    where there was at most one, and does nothing the second time. *)
Lemma mark_options_spec os :
  EDNS0_LOCAL loopOptionCode token ∈ mark_options os /\
  loop_opts (mark_options os) = Nat.max 1 (loop_opts os) /\
  other_opts (mark_options os) = other_opts os /\
  mark_options (mark_options os) = mark_options os.
Proof.
  unfold mark_options at 1 2 3 5 6. destruct (mark_existing os) as [os'|] eqn:E.
  - destruct (mark_existing_spec _ _ E) as (H1 & H2 & H3 & H4).
    split_and!; [done| |done|by unfold mark_options; rewrite H4]. rewrite H2.
    assert (loop_opts os' <> 0%nat); [|lia]. rewrite H2. clear -H1 H2.
    intros H0. rewrite <-H2 in H0. unfold loop_opts in H0. apply nil_length_inv in H0.
    apply list_elem_of_In in H1.
    assert (In (EDNS0_LOCAL loopOptionCode token) (List.filter loop_opt os')) as Hin
      by by apply filter_In.
    by rewrite H0 in Hin.
  - pose proof (mark_existing_None _ E) as H0. split_and!.
    + apply elem_of_app. right. left.
    + unfold loop_opts in *. rewrite List.filter_app, length_app, H0. done.
    + unfold other_opts. rewrite List.filter_app. apply app_nil_r.
    + unfold mark_options. by rewrite (mark_existing_fresh _ _ E).
Qed.

Lemma carriesOwnToken_spec m :
  carriesOwnToken (Some m) = true <->
  exists i h o, find_opt m = Some (i, h, o) /\ EDNS0_LOCAL loopOptionCode token ∈ o.
Proof.
  unfold carriesOwnToken. destruct (find_opt m) as [[[i h] o]|]; [|naive_solver].
  rewrite existsb_exists. setoid_rewrite <-list_elem_of_In. setoid_rewrite is_own_spec.
  split; [|naive_solver]. intros (x & Hx & ->). eauto.
Qed.

(** What marking does to the message: the OPT record it has, or a new one with
    the DNSSEC OK bit clear, ends up with the marked options. *)
Lemma markOutgoing_spec m :
  exists m', markOutgoing (Some m) = Some m' /\
  match find_opt m with
  | Some (i, h, o) => m' = put_opt m i h (mark_options o)
  | None => exists h, m' = set_Extra m (m_Extra m ++ [Some (RR_OPT h (mark_options []))]) /\
      hdr_Rrtype h = TypeOPT /\ OPT_Do h = false /\ OPT_UDPSize h = 4096
  end.
Proof.
  unfold markOutgoing. destruct (find_opt m) as [[[i h] o]|] eqn:E; [by eexists|].
  destruct (SetEdns0_spec m 4096 false) as (h & -> & Ht & Hd & Hs).
  rewrite (find_opt_append m h [] E Ht). eexists. split; [done|].
  exists h. split; [|by split_and!; [..|apply Hs]]. unfold put_opt. destruct m; simpl.
  by rewrite insert_app_r_alt, Nat.sub_diag by done.
Qed.

Lemma find_opt_marked m m' :
  markOutgoing (Some m) = Some m' ->
  exists i h o, find_opt m' = Some (i, h, mark_options o) /\
    (forall j h0 o0, find_opt m = Some (j, h0, o0) -> j = i /\ h0 = h /\ o0 = o) /\
    (find_opt m = None -> OPT_Do h = false).
Proof.
  intros Hm. destruct (markOutgoing_spec m) as (m'' & Hm' & Hspec). rewrite Hm in Hm'.
  injection Hm' as <-. destruct (find_opt m) as [[[i h] o]|] eqn:E.
  - subst m'. exists i, h, o. pose proof (find_opt_Some _ _ _ _ E) as (_ & _ & Ht).
    rewrite (find_opt_put _ _ _ _ _ _ E Ht). naive_solver.
  - destruct Hspec as (h & -> & Ht & Hd & _). exists (length (m_Extra m)), h, [].
    rewrite (find_opt_append _ _ _ E Ht). naive_solver.
Qed.

Lemma marked_opt_count m m' :
  markOutgoing (Some m) = Some m' ->
  m' = set_Extra m (m_Extra m') /\ opt_count (m_Extra m') = Nat.max 1 (opt_count (m_Extra m)).
Proof.
  intros Hm. destruct (markOutgoing_spec m) as (m'' & Hm' & Hspec). rewrite Hm in Hm'.
  injection Hm' as <-. destruct (find_opt m) as [[[i h] o]|] eqn:E.
  - pose proof (find_opt_Some _ _ _ _ E) as (_ & _ & Ht). subst m'.
    split; [by destruct m|]. by rewrite (opt_count_put _ _ _ _ _ _ E).
  - destruct Hspec as (h & -> & Ht & _). split; [by destruct m|].
    by rewrite m_Extra_set, (opt_count_append _ _ _ E).
Qed.

(** C37. A query marked for an upstream is recognised when it comes
    back; marking changes nothing but the OPT record: it keeps the single OPT
    record a query has or adds one (with DNSSEC OK clear), keeps the other
    options, and is idempotent. *)
Theorem marked_query_is_recognised (m : Msg) :
  exists m', markOutgoing (Some m) = Some m' /\
    carriesOwnToken (Some m') = true /\
    m' = set_Extra m (m_Extra m') /\
    opt_count (m_Extra m') = Nat.max 1 (opt_count (m_Extra m)) /\
    markOutgoing (Some m') = Some m' /\
    (forall i h o, find_opt m = Some (i, h, o) ->
       exists o', find_opt m' = Some (i, h, o') /\ other_opts o' = other_opts o /\
         loop_opts o' = Nat.max 1 (loop_opts o)) /\
    (find_opt m = None -> exists i h o', find_opt m' = Some (i, h, o') /\ OPT_Do h = false).
Proof.
  destruct (markOutgoing_spec m) as (m' & Hm & _). exists m'. split; [done|].
  destruct (find_opt_marked m m' Hm) as (i & h & o & Hf & Hsame & Hnone).
  destruct (mark_options_spec o) as (H1 & H2 & H3 & H4).
  destruct (marked_opt_count _ _ Hm) as [Hx Hc].
  split_and!; [|done|done| | |].
  - apply carriesOwnToken_spec. eauto.
  - unfold markOutgoing. rewrite Hf, H4. apply find_opt_Some in Hf as (_ & Hl & _).
    unfold put_opt. by rewrite list_insert_id, set_Extra_same.
  - intros j h0 o0 H. destruct (Hsame _ _ _ H) as (-> & -> & ->). eauto.
  - intros H. exists i, h, (mark_options o). auto.
Qed.

(** A query counts as a loop exactly when the OPT record of the
    query has a local option with the private code and this process's token:
    neither another instance's token nor any other option is taken for one. *)
Theorem loop_recognition_exact (m : Msg) :
  carriesOwnToken (Some m) = true <->
  exists i h o, find_opt m = Some (i, h, o) /\ EDNS0_LOCAL loopOptionCode token ∈ o.
Proof. apply carriesOwnToken_spec. Qed.

(** The log lines of a sequence of looped queries arriving at [times]. *)
Fixpoint loop_lines (times : list Z) (st : loop_log) : list Z * loop_log :=
  match times with
  | [] => ([], st)
  | now :: times' =>
    let '(st, logged) := loopDetected now st in
    let '(lines, st) := loop_lines times' st in
    (if logged : bool then now :: lines else lines, st)
  end.

(** Consecutive lines, the last one before them included, are one interval apart. *)
Fixpoint spaced (last : Z) (lines : list Z) : Prop :=
  match lines with
  | [] => True
  | t :: lines' => (last = 0 \/ loopLogInterval <= t - last) /\ spaced t lines'
  end.

Lemma loop_lines_spaced times : forall st,
  Forall (fun t => t <> 0) times -> spaced (loopLastLog st) (fst (loop_lines times st)).
Proof.
  induction times as [|now times IH]; intros st Hz; [done|].
  apply Forall_cons in Hz as [Hnow Hz]. simpl. unfold loopDetected, time_is_zero.
  destruct (loopLastLog st =? 0) eqn:E0; zbool; simpl.
  - specialize (IH (mkLoopLog now (i64 (loopSuppressed st + 1))) Hz).
    destruct (loop_lines times _) as [lines st']. simpl in *. auto.
  - destruct (time_sub _ _ <? _) eqn:E; zbool.
    + specialize (IH (mkLoopLog (loopLastLog st) (i64 (loopSuppressed st + 1))) Hz).
      destruct (loop_lines times _) as [lines st']. done.
    + specialize (IH (mkLoopLog now (i64 (loopSuppressed st + 1))) Hz).
      destruct (loop_lines times _) as [lines st']. simpl in *. split; [|done]. right.
      unfold time_sub, loopLogInterval, Second, MaxInt64, MinInt64 in *. lia.
Qed.

Lemma loop_lines_counted times : forall st,
  0 <= loopSuppressed st -> loopSuppressed st + Z.of_nat (length times) < 2 ^ 63 ->
  loopSuppressed (snd (loop_lines times st)) = loopSuppressed st + Z.of_nat (length times).
Proof.
  induction times as [|now times IH]; intros st H0 Hl; simpl; [lia|].
  cbn [length] in Hl. unfold loopDetected. rewrite i64_small by (unfold is_i64; lia).
  assert (forall l, loopSuppressed (snd (loop_lines times (mkLoopLog l (loopSuppressed st + 1)))) =
    loopSuppressed st + 1 + Z.of_nat (length times)) as H by (intros l; rewrite IH; simpl; lia).
  destruct (_ && _); [specialize (H (loopLastLog st))|specialize (H now)];
    destruct (loop_lines times _) as [lines st']; simpl in *; lia.
Qed.

(** However fast looped queries arrive, their log lines are at
    least ten seconds apart, and every one of the queries is counted. *)
Theorem loop_log_is_rate_limited (times : list Z) :
  Forall (fun t => t <> 0) times -> Z.of_nat (length times) < 2 ^ 63 ->
  spaced 0 (fst (loop_lines times (mkLoopLog 0 0))) /\
  loopSuppressed (snd (loop_lines times (mkLoopLog 0 0))) = Z.of_nat (length times).
Proof.
  intros Hz Hl. split; [by apply (loop_lines_spaced times (mkLoopLog 0 0))|].
  by rewrite loop_lines_counted.
Qed.

End Loop.

(** The token does not change once drawn, and has eight bytes when the random
    source delivers eight. *)
Lemma loopToken_stable rand rand' st :
  let '(tok, st') := loopToken rand st in loopToken rand' st' = (tok, st').
Proof. by destruct st. Qed.

Lemma loopToken_fresh_length rand tok st :
  (forall b, rand = Ok b -> length b = 8%nat) -> loopToken rand None = (tok, st) -> length tok = 8%nat.
Proof. intros Hr [= <- _]. destruct rand; [by apply Hr|done]. Qed.

Section Examples.
#[local] Existing Instance Ref.miekg_ref.
#[local] Existing Instance Ref.miekg_ref_laws.

Definition plain_query : Msg := Ref.set_question 77 new_Msg "example.com." TypeA.

Lemma marked_query_is_recognised_witness :
  exists m', @markOutgoing Ref.miekg_ref fixed_token (Some plain_query) = Some m' /\
    carriesOwnToken fixed_token (Some m') = true /\
    carriesOwnToken [1; 2; 3; 4; 5; 6; 7; 8] (Some m') = false.
Proof.
  destruct (marked_query_is_recognised fixed_token plain_query) as (m' & Hm & Hc & _).
  exists m'. split; [exact Hm|]. split; [exact Hc|].
  vm_compute in Hm. injection Hm as <-. vm_compute. reflexivity.
Defined.

Lemma loop_recognition_exact_witness :
  carriesOwnToken fixed_token (Some plain_query) = false /\
  ~ exists i h o, find_opt plain_query = Some (i, h, o) /\
      EDNS0_LOCAL loopOptionCode fixed_token ∈ o.
Proof.
  split; [vm_compute; reflexivity|]. intros H.
  apply (proj2 (loop_recognition_exact fixed_token plain_query)) in H.
  vm_compute in H. discriminate H.
Defined.

Lemma loop_log_is_rate_limited_witness :
  spaced 0 (fst (loop_lines [5; 6; 10 * Second + 6; 11 * Second] (mkLoopLog 0 0))) /\
  loopSuppressed (snd (loop_lines [5; 6; 10 * Second + 6; 11 * Second] (mkLoopLog 0 0))) = 4.
Proof.
  apply (loop_log_is_rate_limited [5; 6; 10 * Second + 6; 11 * Second]).
  - repeat constructor; discriminate.
  - reflexivity.
Defined.

End Examples.
