(* ===== verification/CacheSpec.v ===== *)
(** * Correctness of the DNS cache

    The abstract cache is a list of entries ordered by recency, most recent
    first.  [abs] reads it off the list/index/store representation of
    [Cache.v]; [wf] is the representation invariant.  Every method preserves
    [wf] and commutes with [abs]; the guarantees are then proved on the
    abstract cache. *)

From S2P Require Import Prelude DnsMsg DnsConfig Cache.

#[local] Open Scope Z_scope.

(** ** The abstract cache *)

Module LRU.

Definition lookup (k : CacheKey) (l : list CacheEntry) : option CacheEntry :=
  List.find (fun e => bool_decide (ce_Key e = k)) l.

Definition remove (k : CacheKey) (l : list CacheEntry) : list CacheEntry :=
  filter (fun e => ce_Key e <> k) l.

(** A hit is an unexpired entry; it becomes the most recent one.  An expired
    entry is dropped. *)
Definition get (now : Z) (k : CacheKey) (l : list CacheEntry)
    : option CacheEntry * list CacheEntry :=
  match lookup k l with
  | None => (None, l)
  | Some e =>
    if now >? ce_ExpiresAt e then (None, remove k l)
    else (Some e, entry_hit e :: remove k l)
  end.

(** A store makes its entry the most recent one; a new key in a full cache
    costs the least recent entry its place. *)
Definition set (now : Z) (config : CacheConfig) (max : Z) (k : CacheKey)
    (resp : option DnsResponse) (ttl : Z) (l : list CacheEntry) : list CacheEntry :=
  if rejects_negative config resp then l
  else
    match lookup k l with
    | Some e => entry_update now config resp ttl e :: remove k l
    | None =>
      let l' := entry_new now config k resp ttl :: l in
      if Z.of_nat (length l') >? max then removelast l' else l'
    end.

Definition replace (k : CacheKey) (e' : CacheEntry) (l : list CacheEntry) : list CacheEntry :=
  (fun e => if decide (ce_Key e = k) then e' else e) <$> l.

Lemma lookup_Some k l e : lookup k l = Some e -> ce_Key e = k /\ e ∈ l.
Proof.
  unfold lookup. intros H. apply find_some in H as [Hin Hk].
  apply bool_decide_eq_true in Hk. by rewrite list_elem_of_In.
Qed.

Lemma lookup_None k l : lookup k l = None <-> k ∉ ce_Key <$> l.
Proof.
  unfold lookup. induction l as [|e l IH]; simpl; [set_solver|].
  case_bool_decide; [set_solver|]. rewrite IH. set_solver.
Qed.

Lemma lookup_elem k l e : NoDup (ce_Key <$> l) -> e ∈ l -> ce_Key e = k -> lookup k l = Some e.
Proof.
  induction l as [|e' l IH]; simpl; [set_solver|].
  intros [Hn Hd]%NoDup_cons He <-. unfold lookup. simpl.
  case_bool_decide as Hk.
  - apply elem_of_cons in He as [->|He]; [done|].
    exfalso. apply Hn. rewrite Hk. by apply list_elem_of_fmap_2.
  - apply elem_of_cons in He as [->|He]; [done|]. by apply IH.
Qed.

Lemma remove_notin k l : k ∉ ce_Key <$> l -> remove k l = l.
Proof.
  intros Hk. unfold remove. apply filter_all. intros e He <-. apply Hk.
  by apply list_elem_of_fmap_2.
Qed.

Lemma replace_notin k e' l : k ∉ ce_Key <$> l -> replace k e' l = l.
Proof.
  intros Hk. unfold replace. rewrite <-(list_fmap_id l) at 2. apply list_fmap_ext.
  intros i e He. case_decide as Hd; [|done]. exfalso. apply Hk. rewrite <-Hd.
  apply list_elem_of_fmap_2. by eapply list_elem_of_lookup_2.
Qed.

Lemma remove_no_key k l : k ∉ ce_Key <$> remove k l.
Proof. unfold remove. rewrite list_elem_of_fmap. intros (e & -> & He%list_elem_of_filter). naive_solver. Qed.

Lemma lookup_remove_ne k k' l : k <> k' -> lookup k (remove k' l) = lookup k l.
Proof.
  intros Hne. induction l as [|e l IH]; [done|].
  unfold remove. rewrite filter_cons. case_decide as Hd; unfold lookup in *; simpl.
  - case_bool_decide; [done|]. apply IH.
  - rewrite bool_decide_eq_false_2 by congruence. apply IH.
Qed.

Lemma lookup_cons k e l :
  lookup k (e :: l) = if decide (ce_Key e = k) then Some e else lookup k l.
Proof. unfold lookup. simpl. case_decide; case_bool_decide; done. Qed.

End LRU.

(** ** Representation *)

Definition abs (c : DnsCache) : list CacheEntry :=
  omap (fun id => c_elems c !! id) (c_lruList c).

Record wf_store (c : DnsCache) : Prop := {
  wf_nodup : NoDup (c_lruList c);
  wf_elems : forall id, id ∈ c_lruList c <-> is_Some (c_elems c !! id);
  wf_index : forall k id,
    c_entries c !! k = Some id <-> exists e, c_elems c !! id = Some e /\ ce_Key e = k;
  wf_next : forall id, id ∈ c_lruList c -> (id < c_next c)%nat;
}.

(** The representation invariant: list, store and index agree, the capacity is
    never exceeded, and the reported size never undercounts. *)
Record wf (c : DnsCache) : Prop := {
  wf_rep : wf_store c;
  wf_len : lru_len c <= c_maxSize c;
  wf_size : lru_len c <= st_Size (c_stats c) <= c_maxSize c;
  wf_max : 0 < c_maxSize c;
}.

Section Representation.
Context (c : DnsCache) (Hwf : wf_store c).

Lemma key_inj id1 id2 e1 e2 :
  c_elems c !! id1 = Some e1 -> c_elems c !! id2 = Some e2 -> ce_Key e1 = ce_Key e2 -> id1 = id2.
Proof.
  intros H1 H2 Hk.
  assert (c_entries c !! ce_Key e1 = Some id1) as E1 by (apply wf_index; eauto).
  assert (c_entries c !! ce_Key e1 = Some id2) as E2 by (apply wf_index; eauto).
  congruence.
Qed.

Lemma abs_elem id e : c_elems c !! id = Some e -> e ∈ abs c.
Proof.
  intros He. unfold abs. rewrite list_elem_of_omap. exists id. split; [|done].
  apply wf_elems; [done|]. by eexists.
Qed.

(** Facts about the entries of a sub-list of the LRU list, by induction on it. *)
Lemma omap_filter_key id e L :
  c_elems c !! id = Some e -> (forall x, x ∈ L -> is_Some (c_elems c !! x)) ->
  omap (fun x => c_elems c !! x) (filter (fun x => x <> id) L) =
  LRU.remove (ce_Key e) (omap (fun x => c_elems c !! x) L).
Proof.
  intros He HL. induction L as [|x L IH]; [done|].
  destruct (HL x) as [ex Hx]; [set_solver|].
  rewrite filter_cons. case_decide as Hd; simpl; rewrite Hx.
  - rewrite Hx || idtac. unfold LRU.remove. rewrite filter_cons.
    rewrite decide_True; [|intros Hk; apply Hd; by eapply key_inj].
    f_equal. apply IH. set_solver.
  - subst x.
    rewrite He in Hx. injection Hx as ->.
    unfold LRU.remove. rewrite filter_cons, decide_False by naive_solver.
    apply IH. set_solver.
Qed.

Lemma omap_write id e e' L :
  c_elems c !! id = Some e -> (forall x, x ∈ L -> is_Some (c_elems c !! x)) ->
  omap (fun x => <[id := e']> (c_elems c) !! x) L =
  LRU.replace (ce_Key e) e' (omap (fun x => c_elems c !! x) L).
Proof.
  intros He HL. induction L as [|x L IH]; [done|].
  destruct (HL x) as [ex Hx]; [set_solver|]. simpl. rewrite Hx.
  assert (forall x, x ∈ L -> is_Some (c_elems c !! x)) as HL' by set_solver.
  specialize (IH HL'). destruct (decide (id = x)) as [->|Hne].
  - rewrite lookup_insert_eq. rewrite He in Hx. injection Hx as ->.
    unfold LRU.replace in *. simpl. rewrite decide_True by done. by f_equal.
  - rewrite lookup_insert_ne, Hx by done. unfold LRU.replace in *. simpl.
    rewrite decide_False by (intros Hk; apply Hne; by eapply key_inj). by f_equal.
Qed.

Lemma abs_keys_nodup : NoDup (ce_Key <$> abs c).
Proof.
  unfold abs. pose proof (wf_nodup c Hwf) as Hn.
  assert (forall x, x ∈ c_lruList c -> is_Some (c_elems c !! x)) as HL
    by (intros x; apply wf_elems, Hwf).
  induction (c_lruList c) as [|x L IH]; [constructor|].
  destruct (HL x) as [ex Hx]; [set_solver|]. apply NoDup_cons in Hn as [Hx' Hn].
  simpl. rewrite Hx. simpl. constructor; [|apply IH; set_solver].
  rewrite list_elem_of_fmap. intros (e & Hk & He%list_elem_of_omap).
  destruct He as (y & Hy & Hye). apply Hx'. by rewrite (key_inj x y ex e Hx Hye Hk).
Qed.

(** The index finds exactly what the abstract cache holds. *)
Lemma abs_lookup k :
  LRU.lookup k (abs c) =
  (id ← c_entries c !! k; c_elems c !! id).
Proof.
  destruct (c_entries c !! k) as [id|] eqn:E; simpl.
  - apply (wf_index c Hwf) in E as (e & He & Hk). rewrite He.
    apply LRU.lookup_elem; [apply abs_keys_nodup|by eapply abs_elem|done].
  - apply LRU.lookup_None. rewrite list_elem_of_fmap. intros (e & -> & He).
    unfold abs in He. apply list_elem_of_omap in He as (id & _ & He).
    assert (c_entries c !! ce_Key e = Some id) by (apply wf_index; eauto). congruence.
Qed.

Lemma length_abs : Z.of_nat (length (abs c)) = lru_len c.
Proof.
  unfold abs, lru_len. f_equal.
  assert (forall x, x ∈ c_lruList c -> is_Some (c_elems c !! x)) as HL
    by (intros x; apply wf_elems, Hwf).
  induction (c_lruList c) as [|x L IH]; [done|].
  destruct (HL x) as [ex Hx]; [set_solver|]. simpl. rewrite Hx. simpl. f_equal. apply IH. set_solver.
Qed.

Lemma abs_removeElement id e :
  c_elems c !! id = Some e -> abs (removeElement c id) = LRU.remove (ce_Key e) (abs c).
Proof.
  intros He. unfold removeElement, abs. rewrite He. simpl.
  rewrite <-(omap_filter_key id e) by (done || intros x; apply wf_elems, Hwf).
  apply omap_ext_in. intros x [Hne _]%list_elem_of_filter. by rewrite lookup_delete_ne.
Qed.

Lemma removeElement_wf id : wf_store (removeElement c id).
Proof.
  destruct Hwf as [H1 H2 H3 H4]. unfold removeElement. constructor; simpl.
  - by apply NoDup_filter.
  - intros x. rewrite list_elem_of_filter, lookup_delete_is_Some, <-H2. naive_solver.
  - intros k x. destruct (c_elems c !! id) as [e|] eqn:E.
    + rewrite lookup_delete_Some, H3. setoid_rewrite lookup_delete_Some. split.
      * intros (Hne & e' & He' & Hk). exists e'. split; [|done]. split; [|done].
        intros ->. congruence.
      * intros (e' & (Hne & He') & Hk). split; [|eauto]. intros Hk'. apply Hne.
        eapply key_inj; eauto. congruence.
    + rewrite delete_id by done. apply H3.
  - intros x Hx%list_elem_of_filter. apply H4, Hx.
Qed.

Lemma MoveToFront_wf id : wf_store (MoveToFront c id).
Proof.
  unfold MoveToFront. case_decide as Hd; [|done]. destruct Hwf as [H1 H2 H3 H4].
  constructor; simpl; try done.
  - apply NoDup_cons. split; [|by apply NoDup_filter]. rewrite list_elem_of_filter. tauto.
  - intros x. rewrite elem_of_cons, list_elem_of_filter, <-H2.
    destruct (decide (x = id)); naive_solver.
  - intros x. rewrite elem_of_cons, list_elem_of_filter. intros [->|[_ Hx]]; auto.
Qed.

Lemma abs_MoveToFront id e :
  c_elems c !! id = Some e -> abs (MoveToFront c id) = e :: LRU.remove (ce_Key e) (abs c).
Proof.
  intros He. unfold MoveToFront. rewrite decide_True by (apply wf_elems; [done|by eexists]).
  unfold abs. simpl. rewrite He. f_equal. apply omap_filter_key; [done|].
  intros x. apply wf_elems, Hwf.
Qed.

Lemma abs_write_entry id e e' :
  c_elems c !! id = Some e -> abs (write_entry c id e') = LRU.replace (ce_Key e) e' (abs c).
Proof.
  intros He. unfold abs, write_entry. simpl. apply omap_write; [done|].
  intros x. apply wf_elems, Hwf.
Qed.

Lemma write_entry_wf id e e' :
  c_elems c !! id = Some e -> ce_Key e' = ce_Key e -> wf_store (write_entry c id e').
Proof.
  intros He Hk. destruct Hwf as [H1 H2 H3 H4]. constructor; simpl; try done.
  - intros x. rewrite H2, lookup_insert_is_Some.
    destruct (decide (id = x)) as [->|]; [|naive_solver]. rewrite He. naive_solver.
  - intros k x. rewrite H3. destruct (decide (id = x)) as [->|Hne].
    + rewrite lookup_insert_eq, He. naive_solver.
    + by rewrite lookup_insert_ne.
Qed.

Lemma push_entry_wf k e :
  c_entries c !! k = None -> ce_Key e = k -> wf_store (push_entry c k e).
Proof.
  intros Hk He. destruct Hwf as [H1 H2 H3 H4].
  assert (c_elems c !! c_next c = None) as Hfresh.
  { apply eq_None_not_Some. rewrite <-H2. intros Hin%H4. lia. }
  constructor; simpl.
  - apply NoDup_cons. split; [|done]. intros Hin%H4. lia.
  - intros x. rewrite elem_of_cons, H2, lookup_insert_is_Some'. naive_solver.
  - intros k' x. destruct (decide (x = c_next c)) as [->|Hx].
    + rewrite lookup_insert_eq. rewrite lookup_insert. case_decide as Hkk.
      * subst. naive_solver.
      * rewrite H3. rewrite Hfresh. naive_solver.
    + rewrite (lookup_insert_ne (c_elems c)) by done. rewrite lookup_insert.
      case_decide as Hkk; [|apply H3].
      subst k'. rewrite <-(H3 k x), Hk. naive_solver.
  - intros x. rewrite elem_of_cons. intros [->|Hx%H4]; lia.
Qed.

Lemma abs_push_entry k e : abs (push_entry c k e) = e :: abs c.
Proof.
  unfold abs, push_entry. simpl. rewrite lookup_insert_eq. f_equal.
  apply omap_ext_in. intros x Hx%(wf_next c Hwf). rewrite lookup_insert_ne by lia. done.
Qed.

End Representation.

(** ** The methods implement the abstract cache *)

Definition same_limits (c c' : DnsCache) : Prop :=
  c_config c' = c_config c /\ c_maxSize c' = c_maxSize c.

Lemma wf_store_stats c s : wf_store (set_stats c s) <-> wf_store c.
Proof. split; intros []; constructor; done. Qed.

Lemma abs_stats c s : abs (set_stats c s) = abs c.
Proof. done. Qed.

Lemma lru_len_removeElement c id :
  wf_store c -> lru_len (removeElement c id) <= lru_len c.
Proof.
  intros _. unfold lru_len, removeElement. simpl. pose proof (length_filter (fun x => x <> id) (c_lruList c)). lia.
Qed.

Lemma lru_len_MoveToFront c id : wf_store c -> lru_len (MoveToFront c id) = lru_len c.
Proof.
  intros Hwf. rewrite <-!length_abs by (done || by apply MoveToFront_wf).
  unfold MoveToFront. case_decide as Hd; [|done].
  apply (wf_elems c Hwf) in Hd as Hs. destruct Hs as [e He].
  pose proof (abs_MoveToFront c Hwf id e He) as Ha. unfold MoveToFront in Ha.
  rewrite decide_True in Ha by done. rewrite Ha. simpl.
  f_equal. pose proof (abs_keys_nodup c Hwf) as Hn.
  pose proof (abs_elem c Hwf id e He) as Hin. clear -Hn Hin.
  induction (abs c) as [|x l IH]; [set_solver|]. simpl in Hn. apply NoDup_cons in Hn as [Hx Hn].
  unfold LRU.remove. rewrite filter_cons. apply elem_of_cons in Hin as [->|Hin].
  - rewrite decide_False by tauto. simpl. f_equal.
    fold (LRU.remove (ce_Key x) l). by rewrite LRU.remove_notin.
  - rewrite decide_True; [simpl; f_equal; by apply IH|].
    intros Hk. apply Hx. rewrite Hk. by apply list_elem_of_fmap_2.
Qed.

Lemma MoveToFront_frame c id :
  same_limits c (MoveToFront c id) /\ c_stats (MoveToFront c id) = c_stats c /\
  c_elems (MoveToFront c id) = c_elems c.
Proof. unfold MoveToFront. by case_decide. Qed.

(** Dropping the back of the list drops the least recent entry. *)
Lemma abs_remove_back c back :
  wf_store c -> last (c_lruList c) = Some back ->
  abs (removeElement c back) = removelast (abs c) /\
  lru_len (removeElement c back) = lru_len c - 1.
Proof.
  intros Hwf Hb. apply last_Some in Hb as Hb'. destruct Hb' as [L HL].
  assert (is_Some (c_elems c !! back)) as [e He] by (apply wf_elems; [done|]; rewrite HL; apply elem_of_app; right; left).
  assert (abs c = omap (fun x => c_elems c !! x) L ++ [e]) as Ha.
  { unfold abs. rewrite HL, omap_app. simpl. by rewrite He. }
  rewrite <-!length_abs by (done || by apply removeElement_wf).
  rewrite (abs_removeElement c Hwf back e He), Ha, removelast_last.
  enough (LRU.remove (ce_Key e) (omap (fun x => c_elems c !! x) L ++ [e]) =
          omap (fun x => c_elems c !! x) L) as ->.
  { split; [done|]. rewrite length_app. simpl. lia. }
  pose proof (abs_keys_nodup c Hwf) as Hn. rewrite Ha, fmap_app in Hn.
  apply NoDup_app in Hn as (_ & Hn & _). unfold LRU.remove. rewrite filter_app.
  rewrite (filter_cons _ e []), decide_False by tauto. simpl. rewrite app_nil_r.
  apply LRU.remove_notin. intros Hin. apply (Hn (ce_Key e) Hin). left.
Qed.

(** Writing an entry at the front of the list after moving it there. *)
Lemma abs_move_write c id e e' :
  wf_store c -> c_elems c !! id = Some e -> ce_Key e' = ce_Key e ->
  abs (write_entry (MoveToFront c id) id e') = e' :: LRU.remove (ce_Key e) (abs c).
Proof.
  intros Hwf He Hk.
  assert (c_elems (MoveToFront c id) !! id = Some e) as He'
    by (unfold MoveToFront; by case_decide).
  rewrite (abs_write_entry _ (MoveToFront_wf c Hwf id) id e) by done.
  rewrite (abs_MoveToFront c Hwf id e) by done.
  unfold LRU.replace. simpl. rewrite decide_True by done. f_equal.
  apply LRU.replace_notin, LRU.remove_no_key.
Qed.

Lemma move_write_wf c id e e' :
  wf_store c -> c_elems c !! id = Some e -> ce_Key e' = ce_Key e ->
  wf_store (write_entry (MoveToFront c id) id e').
Proof.
  intros Hwf He Hk. eapply write_entry_wf; [by apply MoveToFront_wf| |done].
  unfold MoveToFront. by case_decide.
Qed.

Lemma Get_refines `{Miekg} now c k :
  wf c ->
  exists c', wf c' /\ same_limits c c' /\ abs c' = (LRU.get now k (abs c)).2 /\
    Get now c k =
    match (LRU.get now k (abs c)).1 with
    | None => Some (None, c')
    | Some e =>
      r ← copyCachedResponse (ce_Response e) (time_sub now (ce_StoredAt e)) (cfg_MinTTL (c_config c));
      Some (Some r, c')
    end.
Proof.
  intros [Hr Hl Hs Hm]. unfold LRU.get. rewrite abs_lookup by done. unfold Get.
  destruct (c_entries c !! k) as [id|] eqn:Ek; simpl.
  2:{ eexists. split; [|split; [|split; [|reflexivity]]]; [|done|done].
      constructor; simpl; [by apply wf_store_stats|done|done|done]. }
  apply (wf_index c Hr) in Ek as (e & He & Hk). rewrite He.
  case_match; simpl.
  - eexists. split; [|split; [|split; [|reflexivity]]]; [|done|].
    + pose proof (lru_len_removeElement c id Hr) as Hlen. unfold lru_len in *.
      constructor; simpl; [|unfold lru_len; simpl in *; lia..|done].
      apply wf_store_stats. by apply removeElement_wf.
    + rewrite abs_stats, (abs_removeElement c Hr id e) by done. by rewrite Hk.
  - pose proof (lru_len_MoveToFront c id Hr) as Hlen. unfold lru_len in Hlen.
    destruct (MoveToFront_frame c id) as ([Hc Hx] & Hst & _).
    rewrite Hc. eexists. split; [|split; [|split; [|reflexivity]]].
    + constructor; simpl; rewrite ?Hx, ?Hst; [|unfold lru_len; simpl; rewrite ?Hlen; done..].
      apply wf_store_stats. by eapply move_write_wf.
    + done.
    + rewrite abs_stats, (abs_move_write c id e) by done. by rewrite Hk.
Qed.

Lemma Set_refines now c k resp ttl :
  wf c ->
  exists c', wf c' /\ same_limits c c' /\ Set_ now c k resp ttl = Some c' /\
    abs c' = LRU.set now (c_config c) (c_maxSize c) k resp ttl (abs c).
Proof.
  intros [Hr Hl Hs Hm]. unfold Set_, LRU.set.
  destruct (rejects_negative _ _); [by exists c|].
  rewrite abs_lookup by done. destruct (c_entries c !! k) as [id|] eqn:Ek; cbn [mbind option_bind].
  - apply (wf_index c Hr) in Ek as (e & He & Hk).
    destruct (MoveToFront_frame c id) as ([Hc Hx] & Hst & Hel).
    pose proof (lru_len_MoveToFront c id Hr) as Hlen.
    rewrite Hel, He, Hc. cbn [mbind option_bind]. eexists. split; [|split; [|split; [reflexivity|]]].
    + constructor; simpl; unfold lru_len in *; simpl; rewrite ?Hx; try lia.
      apply wf_store_stats. by eapply move_write_wf.
    + done.
    + rewrite abs_stats, (abs_move_write c id e) by done. by rewrite Hk.
  - set (e := entry_new _ _ _ _ _). pose proof (push_entry_wf c Hr k e Ek eq_refl) as Hw.
    set (c1 := push_entry c k e) in *.
    assert (lru_len c1 = lru_len c + 1) as Hlen by (unfold lru_len; simpl; lia).
    assert (Z.of_nat (length (e :: abs c)) = lru_len c1) as Hla.
    { rewrite Hlen, <-(length_abs c Hr). simpl. lia. }
    rewrite Hla, <-(abs_push_entry c Hr k e). fold c1.
    change (c_maxSize c1) with (c_maxSize c).
    destruct (lru_len c1 >? c_maxSize c) eqn:E; zbool.
    + destruct (last (c_lruList c1)) as [back|] eqn:Eb; [|by apply last_None in Eb].
      destruct (abs_remove_back c1 back Hw Eb) as [Ha Hlb].
      eexists. split; [|split; [|split; [reflexivity|]]]; [|done|exact Ha].
      constructor; simpl; unfold lru_len in *; simpl in *; try lia.
      repeat apply wf_store_stats. by apply removeElement_wf.
    + eexists. split; [|split; [|split; [reflexivity|]]]; [|by split|done].
      constructor; simpl; unfold lru_len in *; simpl in *; try lia.
      by apply wf_store_stats.
Qed.

Lemma Remove_refines c k :
  wf c -> wf (Remove c k) /\ same_limits c (Remove c k) /\
  abs (Remove c k) = LRU.remove k (abs c).
Proof.
  intros Hw. pose proof Hw as [Hr Hl Hs Hm]. unfold Remove.
  destruct (c_entries c !! k) as [id|] eqn:Ek.
  - apply (wf_index c Hr) in Ek as (e & He & Hk).
    pose proof (lru_len_removeElement c id Hr) as Hlen.
    split; [|split]; [|done|].
    + constructor; simpl; unfold lru_len in *; simpl in *; try lia.
      apply wf_store_stats. by apply removeElement_wf.
    + rewrite abs_stats, (abs_removeElement c Hr id e) by done. by rewrite Hk.
  - split; [done|]. split; [done|]. symmetry. apply LRU.remove_notin, LRU.lookup_None.
    rewrite abs_lookup by done. by rewrite Ek.
Qed.

Lemma Clear_refines c : wf c -> wf (Clear c) /\ same_limits c (Clear c) /\ abs (Clear c) = [].
Proof.
  intros [Hr Hl Hs Hm]. split; [|done]. constructor; simpl; unfold lru_len; simpl; try lia.
  constructor; simpl; [constructor| | |].
  - intros id. rewrite lookup_empty. split; [set_solver|]. by intros [? ?].
  - intros k id. rewrite lookup_empty. split; [done|]. by intros (e & ? & _).
  - intros id. set_solver.
Qed.

(** The three prefetch methods rewrite one entry in place and keep its key. *)
Lemma with_entry_refines c k (f : CacheEntry -> CacheEntry) (g : CacheStats -> CacheStats) :
  wf c -> (forall e, ce_Key (f e) = ce_Key e) -> (forall s, st_Size (g s) = st_Size s) ->
  let c' := with_entry c k (fun id e =>
              let c1 := write_entry c id (f e) in set_stats c1 (g (c_stats c1))) in
  wf c' /\ same_limits c c' /\
  abs c' = match LRU.lookup k (abs c) with
           | Some e => LRU.replace k (f e) (abs c) | None => abs c end.
Proof.
  intros Hw Hf Hg. pose proof Hw as [Hr Hl Hs Hm]. simpl. unfold with_entry.
  rewrite abs_lookup by done. destruct (c_entries c !! k) as [id|] eqn:Ek; [|done].
  apply (wf_index c Hr) in Ek as (e & He & Hk). rewrite He. simpl.
  split; [|split; [done|]].
  - constructor; simpl; unfold lru_len in *; simpl; rewrite ?Hg; try done.
    apply wf_store_stats. by eapply write_entry_wf.
  - rewrite abs_stats, (abs_write_entry c Hr id e) by done. by rewrite He, Hk.
Qed.

Lemma NewDnsCache_wf config : wf (NewDnsCache config) /\ abs (NewDnsCache config) = [].
Proof.
  split; [|done]. unfold NewDnsCache.
  constructor; simpl; unfold lru_len; simpl; try (case_match; zbool; lia).
  constructor; simpl; [constructor| | |].
  - intros id. rewrite lookup_empty. split; [set_solver|]. by intros [? ?].
  - intros k id. rewrite lookup_empty. split; [done|]. by intros (e & ? & _).
  - intros id. set_solver.
Qed.
