(* ===== verification/CacheProps.v ===== *)
(** * Guarantees of the DNS cache

    Runs of cache operations, the refinement of the abstract LRU cache without
    panics, and the properties clients rely on: what a hit serves, how long an
    entry lives, what is evicted, what is never stored, when a refresh may
    start, and what the counters mean. *)

From S2P Require Import Prelude DnsMsg DnsConfig Cache CacheSpec.

#[local] Open Scope Z_scope.
#[local] Existing Instance Ref.miekg_ref_laws.

(** ** Operations and runs *)

Inductive cache_op :=
| OpGet (now : Z) (key : CacheKey)
| OpSet (now : Z) (key : CacheKey) (resp : option DnsResponse) (ttl : Z)
| OpRemove (key : CacheKey)
| OpClear
| OpSetPrefetching (key : CacheKey) (status : bool)
| OpPrefetchFailure (now : Z) (key : CacheKey)
| OpPrefetchSuccess (key : CacheKey).

Definition step_cache `{Miekg} (c : DnsCache) (op : cache_op) : option DnsCache :=
  match op with
  | OpGet now k => snd <$> Get now c k
  | OpSet now k resp ttl => Set_ now c k resp ttl
  | OpRemove k => Some (Remove c k)
  | OpClear => Some (Clear c)
  | OpSetPrefetching k b => Some (SetPrefetching c k b)
  | OpPrefetchFailure now k => Some (RecordPrefetchFailure now c k)
  | OpPrefetchSuccess k => Some (RecordPrefetchSuccess c k)
  end.

Fixpoint run_cache `{Miekg} (c : DnsCache) (ops : list cache_op) : option DnsCache :=
  match ops with
  | [] => Some c
  | op :: ops' => c' ← step_cache c op; run_cache c' ops'
  end.

(** The same operations on the abstract cache. *)
Definition prefetch_flag (status : bool) (e : CacheEntry) : CacheEntry :=
  set_prefetch_fields e status (ce_PrefetchFailCount e) (ce_PrefetchBackoff e) (ce_LastPrefetchFail e).
Definition prefetch_failed (now : Z) (e : CacheEntry) : CacheEntry :=
  set_prefetch_fields e false (ce_PrefetchFailCount e + 1)
    (prefetchBackoff (ce_PrefetchFailCount e + 1)) now.
Definition prefetch_done (e : CacheEntry) : CacheEntry :=
  set_prefetch_fields e false 0 0 (ce_LastPrefetchFail e).

Definition on_entry (k : CacheKey) (f : CacheEntry -> CacheEntry) (l : list CacheEntry)
    : list CacheEntry :=
  match LRU.lookup k l with Some e => LRU.replace k (f e) l | None => l end.

Definition step_spec (config : CacheConfig) (max : Z) (l : list CacheEntry) (op : cache_op)
    : list CacheEntry :=
  match op with
  | OpGet now k => (LRU.get now k l).2
  | OpSet now k resp ttl => LRU.set now config max k resp ttl l
  | OpRemove k => LRU.remove k l
  | OpClear => []
  | OpSetPrefetching k b => on_entry k (prefetch_flag b) l
  | OpPrefetchFailure now k => on_entry k (prefetch_failed now) l
  | OpPrefetchSuccess k => on_entry k prefetch_done l
  end.

Definition run_spec (config : CacheConfig) (max : Z) (l : list CacheEntry) (ops : list cache_op)
    : list CacheEntry := fold_left (step_spec config max) ops l.

(** ** Copies *)

(** A response whose records can be copied: none of them is nil. *)
Definition storable (resp : option DnsResponse) : Prop :=
  exists r, resp = Some r /\
    match resp_RawMsg r with
    | Some m => no_nil (m_Answer m) /\ no_nil (m_Ns m) /\ no_nil (m_Extra m)
    | None => no_nil (resp_Answer r) /\ no_nil (resp_Authority r) /\ no_nil (resp_Additional r)
    end.

(** [rr'] is [rr] after [elapsed] seconds in the cache: OPT and TSIG records
    are left alone, any other record's TTL drops but not below the floor. *)
Definition aged (elapsed floor : Z) (rr rr' : option RR) : Prop :=
  exists r, rr = Some r /\
    if (hdr_Rrtype (rr_hdr r) =? TypeOPT) || (hdr_Rrtype (rr_hdr r) =? TypeTSIG)
    then rr' = Some r
    else rr' = Some (rr_set_hdr r (set_Ttl (rr_hdr r)
                 (Z.max floor (Z.max 0 (hdr_Ttl (rr_hdr r) - elapsed))))).

Lemma decrease_spec rrs elapsed floor :
  no_nil rrs ->
  exists rrs', decreaseRecordTTLs rrs elapsed floor = Some rrs' /\
    Forall2 (aged elapsed floor) rrs rrs' /\ no_nil rrs'.
Proof.
  unfold decreaseRecordTTLs. induction rrs as [|rr rrs IH]; intros Hn.
  { exists []. by repeat constructor. }
  apply Forall_cons in Hn as [[r ->] Hn]. destruct (IH Hn) as (rrs' & Hm & HF & Hn').
  assert (exists rr', decrease_ttl elapsed floor (Some r) = Some rr' /\
            aged elapsed floor (Some r) rr' /\ is_Some rr') as (rr' & H1 & H2 & H3).
  { unfold decrease_ttl, aged. simpl.
    destruct (_ || _) eqn:E; eexists; (split; [reflexivity|]); split; try by eexists.
    - exists r. by rewrite E.
    - exists r. split; [done|]. rewrite E. do 3 f_equal.
      repeat case_match; zbool; lia. }
  exists (rr' :: rrs'). split; [|by repeat constructor].
  apply mapM_Some_2. constructor; [done|]. by apply mapM_Some_1.
Qed.

Definition copy_floor (minTTL : Z) : Z := if minTTL >? 0 then u32 minTTL else 60.
Definition copy_elapsed (d : Z) : Z := if d >? 0 then u32 (Z.quot d Second) else 0.

Definition stored_answer (r : DnsResponse) : list (option RR) :=
  match resp_RawMsg r with Some m => m_Answer m | None => resp_Answer r end.

Lemma copy_spec `{M : Miekg} `{!MiekgLaws M} resp d minTTL :
  storable resp ->
  exists r r', resp = Some r /\ copyCachedResponse resp d minTTL = Some r' /\
    resp_Cached r' = true /\ resp_Query r' = resp_Query r /\ resp_Rcode r' = resp_Rcode r /\
    resp_Upstream r' = resp_Upstream r /\ resp_ProxyTag r' = resp_ProxyTag r /\
    Forall2 (aged (copy_elapsed d) (copy_floor minTTL)) (stored_answer r) (resp_Answer r') /\
    answer_ttl (resp_TTL r) (resp_Answer r') = Some (resp_TTL r') /\
    (forall m', resp_RawMsg r' = Some m' ->
       m_Answer m' = resp_Answer r' /\ m_Ns m' = resp_Authority r' /\
       m_Extra m' = resp_Additional r') /\
    (is_Some (resp_RawMsg r') <-> is_Some (resp_RawMsg r)).
Proof.
  intros (r & -> & Hn). exists r. unfold copyCachedResponse, stored_answer. simpl.
  assert (forall l : list (option RR), copyRRs l = l) as Hcp.
  { intros l. unfold copyRRs. rewrite <-(list_fmap_id l) at 2. apply list_fmap_ext.
    intros i x _. apply RR_Copy_spec. }
  assert (exists a n x, match resp_RawMsg r with
    | Some m => (m_Answer (Msg_Copy m), m_Ns (Msg_Copy m), m_Extra (Msg_Copy m))
    | None => (copyRRs (resp_Answer r), copyRRs (resp_Authority r), copyRRs (resp_Additional r))
    end = (a, n, x) /\ a = stored_answer r /\ no_nil a /\ no_nil n /\ no_nil x)
    as (a & n & x & Heq & Ha & H1 & H2 & H3).
  { unfold stored_answer. destruct (resp_RawMsg r) as [m|]; rewrite ?Msg_Copy_spec, ?Hcp;
      destruct Hn as (?&?&?); do 3 eexists; by repeat split. }
  unfold stored_answer in Ha.
  destruct (decrease_spec a (copy_elapsed d) (copy_floor minTTL) H1) as (a' & Ea & Fa & Na).
  destruct (decrease_spec n (copy_elapsed d) (copy_floor minTTL) H2) as (n' & En & _ & _).
  destruct (decrease_spec x (copy_elapsed d) (copy_floor minTTL) H3) as (x' & Ex & _ & _).
  destruct (answer_ttl_is_Some (resp_TTL r) a' Na) as [t Ht].
  unfold copy_elapsed, copy_floor in *.
  destruct (resp_RawMsg r) as [m|] eqn:Er; simpl in *; injection Heq as -> -> ->; simpl;
    change (u32 DefaultMinTTL) with 60; rewrite Ea; simpl; rewrite En; simpl; rewrite Ex; simpl;
    rewrite Ht; simpl; eexists; (split; [done|]); (split; [reflexivity|]); simpl;
    subst a; split_and!; try done.
  intros m' [= <-]. apply set_sections_spec.
Qed.

(** ** The abstract run keeps every stored response copyable *)

Definition op_storable (op : cache_op) : Prop :=
  match op with OpSet _ _ resp _ => storable resp | _ => True end.

Definition all_storable (l : list CacheEntry) : Prop :=
  Forall (fun e => storable (ce_Response e)) l.

Lemma all_storable_remove k l : all_storable l -> all_storable (LRU.remove k l).
Proof.
  unfold all_storable, LRU.remove. rewrite !Forall_forall.
  intros HF e [_ He]%list_elem_of_filter. auto.
Qed.

Lemma all_storable_lookup k l e : all_storable l -> LRU.lookup k l = Some e -> storable (ce_Response e).
Proof.
  intros HF [_ Hin]%LRU.lookup_Some. unfold all_storable in HF. rewrite Forall_forall in HF. auto.
Qed.

Lemma all_storable_replace k e' l :
  all_storable l -> storable (ce_Response e') -> all_storable (LRU.replace k e' l).
Proof.
  intros HF He. unfold all_storable, LRU.replace. apply Forall_fmap.
  eapply Forall_impl; [exact HF|]. intros e Hs. simpl. by case_decide.
Qed.

Lemma all_storable_on_entry k f l :
  all_storable l -> (forall e, ce_Response (f e) = ce_Response e) -> all_storable (on_entry k f l).
Proof.
  intros HF Hf. unfold on_entry. destruct (LRU.lookup k l) as [e|] eqn:E; [|done].
  apply all_storable_replace; [done|]. rewrite Hf. by eapply all_storable_lookup.
Qed.

Lemma step_spec_storable config max l op :
  all_storable l -> op_storable op -> all_storable (step_spec config max l op).
Proof.
  intros HF Ho. destruct op; simpl; try by apply all_storable_on_entry.
  - unfold LRU.get. destruct (LRU.lookup _ _) as [e|] eqn:E; [|done].
    case_match; simpl; [by apply all_storable_remove|].
    constructor; [|by apply all_storable_remove]. simpl. by eapply all_storable_lookup.
  - unfold LRU.set. case_match; [done|]. destruct (LRU.lookup _ _) as [e|].
    + constructor; [done|by apply all_storable_remove].
    + assert (all_storable (entry_new now config key resp ttl :: l)) as Hc by by constructor.
      case_match; [|done]. rewrite removelast_firstn_len. by apply Forall_take.
  - by apply all_storable_remove.
  - constructor.
Qed.

Lemma step_refines `{M : Miekg} `{!MiekgLaws M} c op :
  wf c -> all_storable (abs c) ->
  exists c', step_cache c op = Some c' /\ wf c' /\ same_limits c c' /\
    abs c' = step_spec (c_config c) (c_maxSize c) (abs c) op.
Proof.
  intros Hw Hs. destruct op; simpl.
  - destruct (Get_refines now c key Hw) as (c' & Hw' & Hl & Ha & HG). exists c'.
    rewrite HG, Ha. unfold LRU.get.
    destruct (LRU.lookup key (abs c)) as [e|] eqn:E; [|by split_and!]. destruct (now >? _); [by split_and!|]. simpl.
    destruct (copy_spec (ce_Response e) (time_sub now (ce_StoredAt e)) (cfg_MinTTL (c_config c)))
      as (r & r' & _ & -> & _); [by eapply all_storable_lookup|by split_and!].
  - destruct (Set_refines now c key resp ttl Hw) as (c' & ? & ? & ? & ?). by exists c'.
  - eexists. split; [done|]. by apply Remove_refines.
  - eexists. split; [done|]. by apply Clear_refines.
  - eexists. split; [done|]. unfold on_entry.
    destruct status.
    + by apply (with_entry_refines c key (prefetch_flag true) stats_prefetch).
    + pose proof (with_entry_refines c key (prefetch_flag false) (fun s => s) Hw) as HW.
      unfold SetPrefetching, with_entry in *. simpl in *.
      repeat case_match; try (by apply HW). 
  - eexists. split; [done|].
    by apply (with_entry_refines c key (prefetch_failed now) (fun s => s)).
  - eexists. split; [done|].
    by apply (with_entry_refines c key prefetch_done (fun s => s)).
Qed.

Lemma run_refines `{M : Miekg} `{!MiekgLaws M} ops : forall c,
  wf c -> all_storable (abs c) -> Forall op_storable ops ->
  exists c', run_cache c ops = Some c' /\ wf c' /\ same_limits c c' /\
    abs c' = run_spec (c_config c) (c_maxSize c) (abs c) ops.
Proof.
  induction ops as [|op ops IH]; intros c Hw Hs Ho; simpl; [by exists c|].
  apply Forall_cons in Ho as [Ho1 Ho2].
  destruct (step_refines c op Hw Hs) as (c1 & -> & Hw1 & [Hc Hm] & Ha1).
  destruct (IH c1 Hw1) as (c2 & HR & Hw2 & [Hc2 Hm2] & Ha2); [|done|].
  { rewrite Ha1. by apply step_spec_storable. }
  exists c2. simpl. unfold same_limits. rewrite HR, Ha2, Hc2, Hm2, Hc, Hm, Ha1. done.
Qed.

(** C2. Starting from [NewDnsCache], every sequence of cache operations that
    stores copyable responses runs without a panic; the list, the index and the
    entries stay consistent, the capacity is never exceeded, and the state
    reached is exactly the one of the abstract recency list with per-entry
    expiry. *)
Theorem cache_refines_lru `{M : Miekg} `{!MiekgLaws M} (config : CacheConfig)
    (ops : list cache_op) (Hops : Forall op_storable ops) :
  exists c, run_cache (NewDnsCache config) ops = Some c /\ wf c /\
    abs c = run_spec config (c_maxSize (NewDnsCache config)) [] ops.
Proof.
  destruct (NewDnsCache_wf config) as [Hw Ha].
  destruct (run_refines ops (NewDnsCache config) Hw) as (c & HR & Hc & _ & Habs);
    [by rewrite Ha; constructor|done|].
  exists c. split; [done|]. split; [done|]. by rewrite Habs, Ha.
Qed.

(** Sample data for the witnesses. *)
Definition sample_config : CacheConfig := mkCacheConfig true 2 60 3600 true 30 true.
Definition sample_key (n : string) : CacheKey := mkKey "8.8.8.8:53" "direct" n TypeA.
Definition sample_query : DnsQuery := mkQuery "a.example." TypeA 1 [] false.
Definition sample_resp : DnsResponse :=
  mkResponse sample_query None RcodeSuccess
    [Some (RR_A (mkHdr "a.example." 1 1 300) [1; 2; 3; 4])] [] [] 300 "8.8.8.8:53" "direct" 7 false.

Lemma sample_storable : storable (Some sample_resp).
Proof. exists sample_resp. split; [done|]. repeat constructor; by eexists. Qed.

Lemma cache_refines_lru_witness :
  exists c, @run_cache Ref.miekg_ref (NewDnsCache sample_config)
      [OpSet 0 (sample_key "a.example.") (Some sample_resp) 300;
       OpGet 1 (sample_key "a.example.")] = Some c /\ wf c /\
    abs c = run_spec sample_config (c_maxSize (NewDnsCache sample_config)) []
      [OpSet 0 (sample_key "a.example.") (Some sample_resp) 300;
       OpGet 1 (sample_key "a.example.")].
Proof.
  apply (cache_refines_lru (M := Ref.miekg_ref)).
  repeat constructor. exact sample_storable.
Defined.

(** ** What a hit serves, and for how long *)

(** A hit returns an entry stored under exactly that key that has not
    expired; the answer records are the stored ones with their TTLs lowered by
    the seconds spent in the cache but not below the configured minimum, the
    response TTL is recomputed from them, the raw message carries the same
    aged sections, and the key becomes the most recently used one. *)
Theorem hit_serves_aged_copy `{M : Miekg} `{!MiekgLaws M} (now : Z) (c c' : DnsCache)
    (key : CacheKey) (r' : DnsResponse)
    (Hwf : wf c) (Hst : all_storable (abs c))
    (Hget : Get now c key = Some (Some r', c')) :
  exists e r, e ∈ abs c /\ ce_Key e = key /\ ce_Response e = Some r /\
    now <= ce_ExpiresAt e /\
    resp_Cached r' = true /\ resp_Query r' = resp_Query r /\ resp_Rcode r' = resp_Rcode r /\
    Forall2 (aged (copy_elapsed (time_sub now (ce_StoredAt e)))
                  (copy_floor (cfg_MinTTL (c_config c))))
      (stored_answer r) (resp_Answer r') /\
    answer_ttl (resp_TTL r) (resp_Answer r') = Some (resp_TTL r') /\
    (forall m', resp_RawMsg r' = Some m' -> m_Answer m' = resp_Answer r') /\
    head (abs c') = Some (entry_hit e).
Proof.
  destruct (Get_refines now c key Hwf) as (c1 & _ & _ & Ha & HG). rewrite HG in Hget.
  unfold LRU.get in *. destruct (LRU.lookup key (abs c)) as [e|] eqn:E; [|done].
  destruct (now >? ce_ExpiresAt e) eqn:Ex; simpl in *; [done|]. zbool.
  pose proof (all_storable_lookup _ _ _ Hst E) as Hse.
  apply LRU.lookup_Some in E as [Hk Hin].
  destruct (copy_spec (ce_Response e) (time_sub now (ce_StoredAt e)) (cfg_MinTTL (c_config c)) Hse)
    as (r & r1 & Hr & Hc & H1 & H2 & H3 & _ & _ & H4 & H5 & H6 & _).
  rewrite Hc in Hget. simpl in Hget. injection Hget as <- <-.
  exists e, r. rewrite Ha. split_and!; try done. intros m' Hm'. by apply H6.
Qed.

(** A stored answer is served until its expiry and never after:
    after [Set] stores a response (which a negative answer is only when
    negative caching is on), a [Get] of the same key up to [now + effective TTL]
    hits and yields a cached copy with the same query and code, and any later
    [Get] misses. *)
Theorem set_get_until_expiry `{M : Miekg} `{!MiekgLaws M} (now now' : Z) (c c' : DnsCache)
    (key : CacheKey) (r : DnsResponse) (ttl : Z)
    (Hwf : wf c) (Hst : storable (Some r))
    (Hneg : rejects_negative (c_config c) (Some r) = false)
    (Hset : Set_ now c key (Some r) ttl = Some c') :
  let expiry := time_add now (seconds (computeEffectiveTTL (Some r) ttl (c_config c))) in
  (now' <= expiry ->
     exists r' c'', Get now' c' key = Some (Some r', c'') /\
       resp_Cached r' = true /\ resp_Query r' = resp_Query r /\ resp_Rcode r' = resp_Rcode r) /\
  (expiry < now' -> exists c'', Get now' c' key = Some (None, c'')).
Proof.
  destruct (Set_refines now c key (Some r) ttl Hwf) as (c1 & Hw1 & [Hc Hm] & HS & Ha).
  rewrite HS in Hset. injection Hset as <-. simpl.
  assert (exists e l, abs c1 = e :: l /\ ce_Key e = key /\ ce_Response e = Some r /\
    ce_ExpiresAt e = time_add now (seconds (computeEffectiveTTL (Some r) ttl (c_config c))))
    as (e & l & Hab & Hk & Hr & He).
  { rewrite Ha. unfold LRU.set. rewrite Hneg.
    destruct (LRU.lookup key (abs c)) as [e|] eqn:E.
    - apply LRU.lookup_Some in E as [Hk _]. by do 2 eexists.
    - destruct (_ >? _) eqn:Eg; [|by do 2 eexists].
      pose proof (wf_max c Hwf). zbool. destruct (abs c); simpl in *; [lia|by do 2 eexists]. }
  destruct (Get_refines now' c1 key Hw1) as (c2 & _ & _ & _ & HG).
  unfold LRU.get in HG. rewrite Hab, LRU.lookup_cons, decide_True in HG by done.
  rewrite He in HG. set (x := time_add now _) in *. split; intros Hexp.
  - destruct (now' >? x) eqn:Eg; zbool; [lia|]. simpl in HG. rewrite Hr in HG.
    destruct (copy_spec (Some r) (time_sub now' (ce_StoredAt e)) (cfg_MinTTL (c_config c1)) Hst)
      as (r0 & r' & [= <-] & Hcp & H1 & H2 & H3 & _).
    rewrite Hcp in HG. by exists r', c2.
  - destruct (now' >? x) eqn:Eg; zbool; [|lia]. by exists c2.
Qed.

Lemma set_get_until_expiry_witness :
  let c := NewDnsCache sample_config in
  let k := sample_key "a.example." in
  let expiry := time_add 5 (seconds (computeEffectiveTTL (Some sample_resp) 300 sample_config)) in
  let c1 := default c (Set_ 5 c k (Some sample_resp) 300) in
  (300000000000 <= expiry ->
     exists r' c'', @Get Ref.miekg_ref 300000000000 c1 k = Some (Some r', c'') /\
       resp_Cached r' = true /\ resp_Query r' = resp_Query sample_resp /\
       resp_Rcode r' = resp_Rcode sample_resp) /\
  (expiry < 300000000000 -> exists c'', @Get Ref.miekg_ref 300000000000 c1 k = Some (None, c'')).
Proof.
  apply (set_get_until_expiry (M := Ref.miekg_ref) 5 300000000000 (NewDnsCache sample_config)).
  - apply NewDnsCache_wf.
  - exact sample_storable.
  - reflexivity.
  - reflexivity.
Defined.

(** A cache holding the sample answer, and the outcome of a hit on it. *)
Definition sample_cache : DnsCache :=
  default (NewDnsCache sample_config)
    (Set_ 0 (NewDnsCache sample_config) (sample_key "a.example.") (Some sample_resp) 300).
Definition sample_hit : option (option DnsResponse * DnsCache) :=
  @Get Ref.miekg_ref 100000000000 sample_cache (sample_key "a.example.").

Lemma sample_cache_wf : wf sample_cache.
Proof.
  destruct (Set_refines 0 (NewDnsCache sample_config) (sample_key "a.example.")
    (Some sample_resp) 300) as (c1 & Hw & _ & HS & _); [apply NewDnsCache_wf|].
  unfold sample_cache. rewrite HS. exact Hw.
Qed.

Lemma hit_serves_aged_copy_witness :
  match sample_hit with
  | Some (Some r', c') =>
    resp_TTL r' = 200 /\ exists e, e ∈ abs sample_cache /\
      ce_Key e = sample_key "a.example." /\ head (abs c') = Some (entry_hit e)
  | _ => False
  end.
Proof.
  assert (match sample_hit with Some (Some r, _) => resp_TTL r = 200 | _ => False end) as H
    by (vm_compute; reflexivity).
  destruct sample_hit as [[[r'|] c']|] eqn:E; [|destruct H..]. split.
  - exact H.
  - destruct (hit_serves_aged_copy (M := Ref.miekg_ref) 100000000000 sample_cache c'
      (sample_key "a.example.") r' sample_cache_wf) as (e & r & H1 & H2 & Hrest).
    + repeat constructor. exact sample_storable.
    + exact E.
    + exists e. tauto.
Defined.

(** ** TTL policy *)

(** The bounds in force once the defaults are applied. *)
Definition min_in_force (config : CacheConfig) : Z :=
  if cfg_MinTTL config <=? 0 then 60 else cfg_MinTTL config.
Definition max_in_force (config : CacheConfig) : Z :=
  if cfg_MaxTTL config <=? 0 then 86400 else cfg_MaxTTL config.

Lemma force_u32 config :
  cfg_MinTTL config < 2 ^ 32 -> cfg_MaxTTL config < 2 ^ 32 ->
  is_u32 (min_in_force config) /\ is_u32 (max_in_force config).
Proof. unfold min_in_force, max_in_force, is_u32. intros. split; case_match; zbool; lia. Qed.

Lemma calculate_clamps ttl config :
  cfg_MinTTL config < 2 ^ 32 -> cfg_MaxTTL config < 2 ^ 32 ->
  calculateEffectiveTTL ttl (cfg_MinTTL config) (cfg_MaxTTL config) =
  Z.min (Z.max (min_in_force config) ttl) (max_in_force config).
Proof.
  intros H1 H2. destruct (force_u32 config H1 H2) as [H3 H4]. unfold calculateEffectiveTTL.
  fold (min_in_force config) (max_in_force config). cbv zeta.
  rewrite !u32_small by done. repeat case_match; zbool; lia.
Qed.

Lemma computeEffectiveTTL_cases resp ttl config :
  computeEffectiveTTL resp ttl config =
  if resp_negative resp
  then negativeTTL (match resp with Some r => resp_Rcode r | None => 0 end)
  else calculateEffectiveTTL ttl (cfg_MinTTL config) (cfg_MaxTTL config).
Proof. by destruct resp. Qed.

Lemma negativeTTL_table rcode : negativeTTL rcode ∈ [60; 30; 10; 5].
Proof. unfold negativeTTL. repeat case_match; set_solver. Qed.

Lemma effective_is_u32 resp ttl config :
  is_u32 ttl -> cfg_MinTTL config < 2 ^ 32 -> cfg_MaxTTL config < 2 ^ 32 ->
  is_u32 (computeEffectiveTTL resp ttl config).
Proof.
  intros Ht H1 H2. rewrite computeEffectiveTTL_cases. destruct (resp_negative resp).
  - pose proof (negativeTTL_table (match resp with Some r => resp_Rcode r | None => 0 end)) as H.
    set_unfold in H. unfold is_u32. lia.
  - rewrite calculate_clamps by done. destruct (force_u32 config H1 H2). unfold is_u32 in *. lia.
Qed.

(** C39. With bounds that fit 32 bits, the lifetime of an answer without an error
    code is its TTL clamped to the window, i.e. min(max(minTTL, TTL), maxTTL) with
    the defaults 60 and 86400; that of an answer with an error code is 60 s for
    NXDOMAIN (3), 30 s for SERVFAIL (2), 10 s for REFUSED (5) and 5 s for any other
    code, whatever its TTL; and the expiry time is stored without overflow, exactly
    that many seconds after the store. *)
Theorem effective_ttl_policy (now ttl : Z) (config : CacheConfig) (resp : option DnsResponse)
    (key : CacheKey) (Httl : is_u32 ttl)
    (Hmin : cfg_MinTTL config < 2 ^ 32) (Hmax : cfg_MaxTTL config < 2 ^ 32) :
  let eff := computeEffectiveTTL resp ttl config in
  eff = match resp_Rcode <$> resp with
        | None | Some 0 => Z.min (Z.max (min_in_force config) ttl) (max_in_force config)
        | Some 3 => 60
        | Some 2 => 30
        | Some 5 => 10
        | Some _ => 5
        end /\
  is_u32 eff /\
  ce_ExpiresAt (entry_new now config key resp ttl) = now + eff * Second.
Proof.
  intros eff. pose proof (effective_is_u32 resp ttl config Httl Hmin Hmax) as Hu.
  pose proof (computeEffectiveTTL_cases resp ttl config) as Hc. fold eff in Hu, Hc.
  split_and!; try apply Hu.
  - rewrite Hc. destruct resp as [r|]; cbn [resp_negative fmap option_fmap option_map]; [|by apply calculate_clamps].
    unfold RcodeSuccess. destruct (Z.eqb_spec (resp_Rcode r) 0) as [->|Hn]; [by apply calculate_clamps|].
    cbn [negb]. unfold negativeTTL, RcodeNameError, RcodeServerFailure, RcodeRefused.
    destruct (resp_Rcode r) as [|p|p]; [done|do 3 (destruct p as [p|p|]; try done)|done].
  - unfold entry_new. cbn [ce_ExpiresAt]. fold eff. by rewrite seconds_u32.
Qed.

Lemma effective_ttl_policy_witness :
  computeEffectiveTTL (Some sample_resp) 5 sample_config = 60 /\
  ce_ExpiresAt (entry_new 9 sample_config (sample_key "a.") (Some sample_resp) 5) = 9 + 60 * Second.
Proof.
  destruct (effective_ttl_policy 9 5 sample_config (Some sample_resp) (sample_key "a."))
    as (H1 & _ & H4); [split; reflexivity || (intros H; discriminate H)|reflexivity..|].
  split; [exact H1|exact H4].
Defined.

(** ** Eviction *)

(** The keys held, most recently used first. *)
Definition recency (c : DnsCache) : list CacheKey := ce_Key <$> abs c.

Lemma keys_remove k l : ce_Key <$> LRU.remove k l = filter (fun k' => k' <> k) (ce_Key <$> l).
Proof.
  unfold LRU.remove. induction l as [|e l IH]; [done|].
  rewrite fmap_cons, !filter_cons. by case_decide; rewrite ?fmap_cons, IH.
Qed.

Lemma keys_removelast l : ce_Key <$> removelast l = removelast (ce_Key <$> l).
Proof.
  induction l as [|e l IH]; [done|]. destruct l as [|e' l]; [done|].
  change (removelast (e :: e' :: l)) with (e :: removelast (e' :: l)).
  by rewrite fmap_cons, IH.
Qed.

Lemma lookup_removelast k l :
  NoDup (ce_Key <$> l) -> k ∈ ce_Key <$> removelast l -> LRU.lookup k (removelast l) = LRU.lookup k l.
Proof.
  intros Hn Hin. apply list_elem_of_fmap in Hin as (e & -> & He).
  assert (e ∈ l) as Hel.
  { destruct l as [|x l']; [set_solver|]. rewrite (app_removelast_last x (l := x :: l')) by done.
    set_solver. }
  rewrite (LRU.lookup_elem (ce_Key e) l e) by done.
  apply LRU.lookup_elem; [|done|done]. rewrite keys_removelast.
  rewrite removelast_firstn_len. eapply sublist_NoDup; [exact Hn|apply sublist_take].
Qed.

(** When [Set] stores a response under a key, that key becomes the most
    recently used one; a key already present displaces nothing, a new key in a
    cache with room displaces nothing, and a new key in a full cache displaces
    exactly the least recently used key.  The entries of the other keys that
    remain are untouched. *)
Theorem set_evicts_least_recent (now : Z) (c c' : DnsCache) (key : CacheKey)
    (resp : option DnsResponse) (ttl : Z) (Hwf : wf c)
    (Hneg : rejects_negative (c_config c) resp = false)
    (Hset : Set_ now c key resp ttl = Some c') :
  recency c' =
    (if decide (key ∈ recency c) then key :: filter (fun k => k <> key) (recency c)
     else if lru_len c <? c_maxSize c then key :: recency c
     else key :: removelast (recency c)) /\
  (forall k, k <> key -> k ∈ recency c' -> LRU.lookup k (abs c') = LRU.lookup k (abs c)).
Proof.
  destruct (Set_refines now c key resp ttl Hwf) as (c1 & _ & _ & HS & Ha).
  rewrite HS in Hset. injection Hset as <-. pose proof (abs_keys_nodup c (wf_rep c Hwf)) as Hn.
  pose proof (length_abs c (wf_rep c Hwf)) as Hla.
  unfold recency in *. rewrite Ha. unfold LRU.set. rewrite Hneg.
  destruct (LRU.lookup key (abs c)) as [e|] eqn:E.
  - apply LRU.lookup_Some in E as [Hk Hin].
    rewrite decide_True by (subst; by apply list_elem_of_fmap_2).
    split; [rewrite fmap_cons, keys_remove; simpl; by rewrite Hk|].
    intros k Hne _. rewrite LRU.lookup_cons, decide_False by (simpl; congruence).
    by apply LRU.lookup_remove_ne.
  - rewrite decide_False by (by apply LRU.lookup_None). cbv zeta.
    change (length (entry_new now (c_config c) key resp ttl :: abs c))
      with (S (length (abs c))).
    destruct (lru_len c <? c_maxSize c) eqn:Elt; zbool.
    + destruct (_ >? _) eqn:Egt; zbool; [lia|]. split; [done|].
      intros k Hne _. by rewrite LRU.lookup_cons, decide_False by (simpl; congruence).
    + destruct (_ >? _) eqn:Egt; zbool; [|lia]. pose proof (wf_max c Hwf).
      destruct (abs c) as [|e0 l0] eqn:Eabs; [simpl in *; lia|].
      split; [by rewrite keys_removelast, fmap_cons|].
      intros k Hne Hin. rewrite lookup_removelast; [|rewrite fmap_cons; constructor|done].
      * by rewrite LRU.lookup_cons, decide_False by (simpl; congruence).
      * simpl. by apply LRU.lookup_None in E.
      * done.
Qed.

Lemma set_evicts_least_recent_witness :
  let c0 := NewDnsCache sample_config in
  let put n c := default c (Set_ 0 c (sample_key n) (Some sample_resp) 300) in
  recency (put "a." c0) = [sample_key "a."] /\
  recency (put "c." (put "b." (put "a." c0))) = [sample_key "c."; sample_key "b."].
Proof.
  intros c0 put.
  destruct (set_evicts_least_recent 0 c0 (put "a." c0) (sample_key "a.") (Some sample_resp) 300)
    as [H1 H2]; [apply NewDnsCache_wf|reflexivity|reflexivity|].
  split; [rewrite H1; reflexivity|vm_compute; reflexivity].
Defined.

(** [Set] ignores an answer exactly when negative caching is off and
    its code is NXDOMAIN, SERVFAIL or REFUSED: the cache, its order and its
    counters are then unchanged.  Every other answer, other error codes
    included, becomes the newest entry under its key. *)
Theorem set_stores_or_ignores (now : Z) (c : DnsCache) (key : CacheKey) (r : DnsResponse)
    (ttl : Z) (Hwf : wf c) :
  exists c', Set_ now c key (Some r) ttl = Some c' /\
    if negb (cfg_NegativeCache (c_config c)) &&
       bool_decide (resp_Rcode r ∈ [RcodeNameError; RcodeServerFailure; RcodeRefused])
    then c' = c
    else exists e, head (abs c') = Some e /\ ce_Key e = key /\ ce_Response e = Some r /\
           ce_Prefetching e = false /\ ce_StoredAt e = now /\ ce_OriginalTTL e = ttl /\
           ce_Negative e = negb (resp_Rcode r =? RcodeSuccess).
Proof.
  destruct (Set_refines now c key (Some r) ttl Hwf) as (c' & _ & _ & HS & Ha). exists c'.
  split; [done|].
  assert (rejects_negative (c_config c) (Some r) =
    negb (cfg_NegativeCache (c_config c)) &&
    bool_decide (resp_Rcode r ∈ [RcodeNameError; RcodeServerFailure; RcodeRefused])) as Hrej.
  { unfold rejects_negative. f_equal. case_bool_decide as Hb.
    - set_unfold in Hb. rewrite !orb_true_iff, !Z.eqb_eq. tauto.
    - set_unfold in Hb. apply orb_false_iff. split; [apply orb_false_iff; split|];
        apply Z.eqb_neq; tauto. }
  rewrite <-Hrej. unfold LRU.set in Ha. destruct (rejects_negative _ _) eqn:E.
  - unfold Set_ in HS. rewrite E in HS. congruence.
  - rewrite Ha. destruct (LRU.lookup key (abs c)) as [e|] eqn:El.
    + apply LRU.lookup_Some in El as [Hk _]. eexists. by split_and!.
    + pose proof (wf_max c Hwf).
      assert (head (if Z.of_nat (length (entry_new now (c_config c) key (Some r) ttl :: abs c))
                       >? c_maxSize c
                    then removelast (entry_new now (c_config c) key (Some r) ttl :: abs c)
                    else entry_new now (c_config c) key (Some r) ttl :: abs c) =
              Some (entry_new now (c_config c) key (Some r) ttl)) as Hh.
      { destruct (_ >? _) eqn:Eg; [|done]. zbool. destruct (abs c); [simpl in *; lia|done]. }
      eexists. rewrite Hh. by split_and!.
Qed.

Lemma set_stores_or_ignores_witness :
  exists c', Set_ 0 (NewDnsCache sample_config) (sample_key "a.") (Some sample_resp) 9 = Some c' /\
    exists e, head (abs c') = Some e /\ ce_Key e = sample_key "a.".
Proof.
  destruct (set_stores_or_ignores 0 (NewDnsCache sample_config) (sample_key "a.") sample_resp 9)
    as (c' & H1 & e & H2 & H3 & _); [apply NewDnsCache_wf|].
  exists c'. split; [exact H1|]. exists e. split; [exact H2|exact H3].
Defined.

(** ** Prefetching *)

Lemma ShouldPrefetch_abs now1 now2 c key :
  wf c ->
  ShouldPrefetch now1 now2 c key =
  match LRU.lookup key (abs c) with
  | Some e => shouldPrefetch now1 now2 e (c_config c)
  | None => false
  end.
Proof.
  intros [Hr _ _ _]. rewrite abs_lookup by done. unfold ShouldPrefetch.
  destruct (c_entries c !! key) as [id|]; simpl; [|done]. by destruct (c_elems c !! id).
Qed.

Lemma lookup_replace k e e' l :
  LRU.lookup k l = Some e -> ce_Key e' = k -> LRU.lookup k (LRU.replace k e' l) = Some e'.
Proof.
  intros Hl Hk. unfold LRU.replace. induction l as [|x l IH]; [done|].
  rewrite LRU.lookup_cons in Hl. rewrite fmap_cons, LRU.lookup_cons.
  case_decide as Hd; simplify_eq.
  - by rewrite decide_True.
  - rewrite decide_False by done. auto.
Qed.

(** The entry a prefetch method leaves behind. *)
Lemma prefetch_after (op : cache_op) c key e (f : CacheEntry -> CacheEntry) `{M : Miekg} `{!MiekgLaws M} :
  wf c -> all_storable (abs c) -> LRU.lookup key (abs c) = Some e ->
  (forall x, ce_Key (f x) = ce_Key x) ->
  (forall config max l, step_spec config max l op = on_entry key f l) ->
  exists c', step_cache c op = Some c' /\ c_config c' = c_config c /\ wf c' /\
    LRU.lookup key (abs c') = Some (f e).
Proof.
  intros Hw Hs He Hf Hop.
  destruct (step_refines c op Hw Hs) as (c' & HS & Hw' & [Hc _] & Ha). exists c'.
  split_and!; try done. rewrite Ha, Hop. unfold on_entry. rewrite He.
  apply (lookup_replace key e); [done|]. rewrite Hf. by apply LRU.lookup_Some in He as [? _].
Qed.

(** A refresh of a cached entry is started at most once at a time
    and with back-off: while a refresh is marked as running none is due; after
    a failed refresh none is due until 5 s (first failure) or 30 s (second
    failure) have passed since the failure; and from the third consecutive
    failure on none is due any more, at any time. *)
Theorem prefetch_discipline `{M : Miekg} `{!MiekgLaws M} (now now1 now2 : Z) (c : DnsCache)
    (key : CacheKey) (e : CacheEntry)
    (Hwf : wf c) (Hst : all_storable (abs c)) (He : LRU.lookup key (abs c) = Some e)
    (Hfails : 0 <= ce_PrefetchFailCount e) :
  ShouldPrefetch now1 now2 (SetPrefetching c key true) key = false /\
  (ce_PrefetchFailCount e = 0 -> now1 - now < 5 * Second ->
     ShouldPrefetch now1 now2 (RecordPrefetchFailure now c key) key = false) /\
  (ce_PrefetchFailCount e = 1 -> now1 - now < 30 * Second ->
     ShouldPrefetch now1 now2 (RecordPrefetchFailure now c key) key = false) /\
  (2 <= ce_PrefetchFailCount e ->
     ShouldPrefetch now1 now2 (RecordPrefetchFailure now c key) key = false).
Proof.
  destruct (prefetch_after (OpSetPrefetching key true) c key e (prefetch_flag true))
    as (c1 & [= <-] & Hc1 & Hw1 & He1); [done..|].
  destruct (prefetch_after (OpPrefetchFailure now key) c key e (prefetch_failed now))
    as (c2 & [= <-] & Hc2 & Hw2 & He2); [done..|].
  rewrite (ShouldPrefetch_abs _ _ _ _ Hw1), He1, !(ShouldPrefetch_abs _ _ _ _ Hw2), He2.
  assert (forall b, 0 < b -> b <= 30 * Second -> now1 - now < b -> time_sub now1 now < b) as Hsub.
  { intros b. unfold time_sub, MinInt64, MaxInt64, Second. lia. }
  unfold shouldPrefetch, prefetch_failed, prefetch_flag, set_prefetch_fields.
  cbn [ce_Prefetching ce_PrefetchFailCount ce_LastPrefetchFail ce_ExpiresAt ce_StoredAt].
  split_and!.
  - by destruct (cfg_Prefetch _).
  - intros -> Hd. destruct (cfg_Prefetch _); cbn [negb]; [|done].
    change (prefetchBackoff (0 + 1)) with (5 * Second).
    apply (Hsub (5 * Second)) in Hd; [|done..]. apply Z.ltb_lt in Hd. by rewrite Hd.
  - intros -> Hd. destruct (cfg_Prefetch _); cbn [negb]; [|done].
    change (prefetchBackoff (1 + 1)) with (30 * Second).
    apply (Hsub (30 * Second)) in Hd; [|done..]. apply Z.ltb_lt in Hd. by rewrite Hd.
  - intros Hge. destruct (cfg_Prefetch _); cbn [negb]; [|done].
    replace (ce_PrefetchFailCount e + 1 >=? 3) with true; [done|].
    symmetry. apply Z.geb_le. lia.
Qed.

Lemma prefetch_discipline_witness :
  ShouldPrefetch 299000000000 299000000000 sample_cache (sample_key "a.example.") = true /\
  ShouldPrefetch 299000000000 299000000000
    (SetPrefetching sample_cache (sample_key "a.example.") true) (sample_key "a.example.") = false.
Proof.
  split; [vm_compute; reflexivity|].
  destruct (prefetch_discipline (M := Ref.miekg_ref) 0 299000000000 299000000000 sample_cache
    (sample_key "a.example.")
    (entry_new 0 sample_config (sample_key "a.example.") (Some sample_resp) 300)
    sample_cache_wf) as [H _].
  - repeat constructor. exact sample_storable.
  - reflexivity.
  - simpl. lia.
  - exact H.
Defined.

(** ** Counters *)

Definition is_get (op : cache_op) : Prop :=
  match op with OpGet _ _ => True | _ => False end.

#[export] Instance is_get_dec op : Decision (is_get op).
Proof. destruct op; simpl; apply _. Defined.

Definition lookups (s : CacheStats) : Z := st_Hits s + st_Misses s.

Lemma step_lookups `{Miekg} c op c' :
  step_cache c op = Some c' ->
  lookups (c_stats c') = lookups (c_stats c) + (if decide (is_get op) then 1 else 0).
Proof.
  unfold lookups. destruct op; simpl; intros HS.
  - destruct (Get now c key) as [[o c1]|] eqn:E; simplify_eq/=. unfold Get, MoveToFront in E.
    repeat (case_match; simplify_eq/=; try lia).
    all: destruct (copyCachedResponse _ _ _); simplify_eq/=; lia.
  - unfold Set_ in HS. destruct (rejects_negative _ _); simplify_eq; [lia|].
    destruct (c_entries c !! key) as [id|].
    + destruct (MoveToFront_frame c id) as (_ & Hst & Hel). rewrite Hel in HS.
      destruct (c_elems c !! id); simplify_eq/=. rewrite Hst. lia.
    + cbv zeta in HS. injection HS as <-. simpl. repeat (case_match; simpl); lia.
  - simplify_eq. unfold Remove. case_match; simpl; lia.
  - simplify_eq. simpl. lia.
  - simplify_eq. unfold SetPrefetching, with_entry. repeat (case_match; simpl); lia.
  - simplify_eq. unfold RecordPrefetchFailure, with_entry. repeat (case_match; simpl); lia.
  - simplify_eq. unfold RecordPrefetchSuccess, with_entry. repeat (case_match; simpl); lia.
Qed.

Lemma run_lookups `{Miekg} ops : forall c c',
  run_cache c ops = Some c' ->
  lookups (c_stats c') = lookups (c_stats c) + Z.of_nat (length (filter is_get ops)).
Proof.
  induction ops as [|op ops IH]; intros c c'; simpl; [intros [= ->]; lia|].
  destruct (step_cache c op) as [c1|] eqn:E; simpl; [|done]. intros HR.
  apply step_lookups in E. apply IH in HR. rewrite HR, E, filter_cons.
  case_decide; simpl; lia.
Qed.

(** Every lookup is counted exactly once: after any run from an
    empty cache, hits plus misses is the number of [Get] calls made. *)
Theorem lookups_counted_once `{M : Miekg} (config : CacheConfig) (ops : list cache_op)
    (c : DnsCache) (Hrun : run_cache (NewDnsCache config) ops = Some c) :
  st_Hits (Stats c) + st_Misses (Stats c) = Z.of_nat (length (filter is_get ops)).
Proof. by apply run_lookups in Hrun. Qed.

Definition sample_ops : list cache_op :=
  [OpSet 0 (sample_key "a.example.") (Some sample_resp) 300;
   OpGet 1 (sample_key "a.example."); OpGet 2 (sample_key "b.example.")].

Lemma lookups_counted_once_witness :
  exists c, @run_cache Ref.miekg_ref (NewDnsCache sample_config) sample_ops = Some c /\
    st_Hits (Stats c) + st_Misses (Stats c) = 2.
Proof.
  destruct (@run_cache Ref.miekg_ref (NewDnsCache sample_config) sample_ops) as [c|] eqn:E.
  - exists c. split; [reflexivity|].
    exact (lookups_counted_once (M := Ref.miekg_ref) sample_config sample_ops c E).
  - assert (is_some (@run_cache Ref.miekg_ref (NewDnsCache sample_config) sample_ops) = true) as H
      by (vm_compute; reflexivity).
    rewrite E in H. discriminate H.
Defined.

(** The reported size can be stale: a lookup that drops an expired entry
    does not refresh [Stats().Size], so the cache can be empty while the
    statistics still report one entry. *)
Theorem reported_size_stale_after_expiry :
  exists c, @run_cache Ref.miekg_ref (NewDnsCache sample_config)
      [OpSet 0 (sample_key "a.example.") (Some sample_resp) 300;
       OpGet 301000000000 (sample_key "a.example.")] = Some c /\
    Len c = 0 /\ st_Size (Stats c) = 1.
Proof.
  destruct (@run_cache Ref.miekg_ref _ _) as [c|] eqn:E.
  - exists c. split; [done|].
    assert (match @run_cache Ref.miekg_ref (NewDnsCache sample_config)
      [OpSet 0 (sample_key "a.example.") (Some sample_resp) 300;
       OpGet 301000000000 (sample_key "a.example.")] with
      | Some c => Len c = 0 /\ st_Size (Stats c) = 1 | None => False end) as H
      by (vm_compute; done).
    by rewrite E in H.
  - by vm_compute in E.
Qed.
