(* ===== verification/Metrics.v ===== *)
(** * Metrics (core/dns/metrics.go)

    Counters, per-type, per-upstream and per-rule maps and the latency
    histogram.  An [*UpstreamMetrics] is shared: [QueriesByUpstream] and every
    snapshot hold the same pointer, so the objects live in a heap ([um_heap]) and
    the maps hold positions in it.  Each counter update is one atomic step. *)

From S2P Require Import Prelude DnsMsg.

#[local] Open Scope Z_scope.

Record UpstreamMetrics := mkUM {
  um_Queries : Z;
  um_Successes : Z;
  um_Errors : Z;
  um_AvgRTT : Z;
  um_MinRTT : Z;
  um_MaxRTT : Z;
  um_LastQuery : Z;
}.

Record LatencyBucket := mkBucket { lb_Label : string; lb_Count : Z }.

Record DnsMetrics := mkMetrics {
  mx_TotalQueries : Z;
  mx_TotalResponses : Z;
  mx_TotalErrors : Z;
  mx_TotalTimeouts : Z;
  mx_QueriesByType : gmap Z Z;
  mx_QueriesByUpstream : gmap string nat;
  mx_ErrorsByUpstream : gmap string Z;
  mx_HitsByRule : gmap string Z;
  mx_CacheHits : Z;
  mx_CacheMisses : Z;
  mx_CacheEvictions : Z;
  mx_PrefetchCount : Z;
  mx_LatencyBuckets : list LatencyBucket;
  mx_RoutedQueries : Z;
  mx_RejectedQueries : Z;
  mx_BypassedQueries : Z;
  mx_startedAt : Z;
  um_heap : list UpstreamMetrics;
}.

Definition with_TotalQueries (m : DnsMetrics) (x : Z) : DnsMetrics :=
  let 'mkMetrics _ tr te tt_ qt qu eu hr ch cm ce pc lb rq rj bq sa hp := m in
  mkMetrics x tr te tt_ qt qu eu hr ch cm ce pc lb rq rj bq sa hp.
Definition with_TotalResponses (m : DnsMetrics) (x : Z) : DnsMetrics :=
  let 'mkMetrics tq _ te tt_ qt qu eu hr ch cm ce pc lb rq rj bq sa hp := m in
  mkMetrics tq x te tt_ qt qu eu hr ch cm ce pc lb rq rj bq sa hp.
Definition with_TotalErrors (m : DnsMetrics) (x : Z) : DnsMetrics :=
  let 'mkMetrics tq tr _ tt_ qt qu eu hr ch cm ce pc lb rq rj bq sa hp := m in
  mkMetrics tq tr x tt_ qt qu eu hr ch cm ce pc lb rq rj bq sa hp.
Definition with_TotalTimeouts (m : DnsMetrics) (x : Z) : DnsMetrics :=
  let 'mkMetrics tq tr te _ qt qu eu hr ch cm ce pc lb rq rj bq sa hp := m in
  mkMetrics tq tr te x qt qu eu hr ch cm ce pc lb rq rj bq sa hp.
Definition with_QueriesByType (m : DnsMetrics) (x : gmap Z Z) : DnsMetrics :=
  let 'mkMetrics tq tr te tt_ _ qu eu hr ch cm ce pc lb rq rj bq sa hp := m in
  mkMetrics tq tr te tt_ x qu eu hr ch cm ce pc lb rq rj bq sa hp.
Definition with_QueriesByUpstream (m : DnsMetrics) (x : gmap string nat) : DnsMetrics :=
  let 'mkMetrics tq tr te tt_ qt _ eu hr ch cm ce pc lb rq rj bq sa hp := m in
  mkMetrics tq tr te tt_ qt x eu hr ch cm ce pc lb rq rj bq sa hp.
Definition with_ErrorsByUpstream (m : DnsMetrics) (x : gmap string Z) : DnsMetrics :=
  let 'mkMetrics tq tr te tt_ qt qu _ hr ch cm ce pc lb rq rj bq sa hp := m in
  mkMetrics tq tr te tt_ qt qu x hr ch cm ce pc lb rq rj bq sa hp.
Definition with_HitsByRule (m : DnsMetrics) (x : gmap string Z) : DnsMetrics :=
  let 'mkMetrics tq tr te tt_ qt qu eu _ ch cm ce pc lb rq rj bq sa hp := m in
  mkMetrics tq tr te tt_ qt qu eu x ch cm ce pc lb rq rj bq sa hp.
Definition with_CacheHits (m : DnsMetrics) (x : Z) : DnsMetrics :=
  let 'mkMetrics tq tr te tt_ qt qu eu hr _ cm ce pc lb rq rj bq sa hp := m in
  mkMetrics tq tr te tt_ qt qu eu hr x cm ce pc lb rq rj bq sa hp.
Definition with_CacheMisses (m : DnsMetrics) (x : Z) : DnsMetrics :=
  let 'mkMetrics tq tr te tt_ qt qu eu hr ch _ ce pc lb rq rj bq sa hp := m in
  mkMetrics tq tr te tt_ qt qu eu hr ch x ce pc lb rq rj bq sa hp.
Definition with_CacheEvictions (m : DnsMetrics) (x : Z) : DnsMetrics :=
  let 'mkMetrics tq tr te tt_ qt qu eu hr ch cm _ pc lb rq rj bq sa hp := m in
  mkMetrics tq tr te tt_ qt qu eu hr ch cm x pc lb rq rj bq sa hp.
Definition with_PrefetchCount (m : DnsMetrics) (x : Z) : DnsMetrics :=
  let 'mkMetrics tq tr te tt_ qt qu eu hr ch cm ce _ lb rq rj bq sa hp := m in
  mkMetrics tq tr te tt_ qt qu eu hr ch cm ce x lb rq rj bq sa hp.
Definition with_LatencyBuckets (m : DnsMetrics) (x : list LatencyBucket) : DnsMetrics :=
  let 'mkMetrics tq tr te tt_ qt qu eu hr ch cm ce pc _ rq rj bq sa hp := m in
  mkMetrics tq tr te tt_ qt qu eu hr ch cm ce pc x rq rj bq sa hp.
Definition with_RoutedQueries (m : DnsMetrics) (x : Z) : DnsMetrics :=
  let 'mkMetrics tq tr te tt_ qt qu eu hr ch cm ce pc lb _ rj bq sa hp := m in
  mkMetrics tq tr te tt_ qt qu eu hr ch cm ce pc lb x rj bq sa hp.
Definition with_RejectedQueries (m : DnsMetrics) (x : Z) : DnsMetrics :=
  let 'mkMetrics tq tr te tt_ qt qu eu hr ch cm ce pc lb rq _ bq sa hp := m in
  mkMetrics tq tr te tt_ qt qu eu hr ch cm ce pc lb rq x bq sa hp.
Definition with_BypassedQueries (m : DnsMetrics) (x : Z) : DnsMetrics :=
  let 'mkMetrics tq tr te tt_ qt qu eu hr ch cm ce pc lb rq rj _ sa hp := m in
  mkMetrics tq tr te tt_ qt qu eu hr ch cm ce pc lb rq rj x sa hp.
Definition with_startedAt (m : DnsMetrics) (x : Z) : DnsMetrics :=
  let 'mkMetrics tq tr te tt_ qt qu eu hr ch cm ce pc lb rq rj bq _ hp := m in
  mkMetrics tq tr te tt_ qt qu eu hr ch cm ce pc lb rq rj bq x hp.
Definition with_um_heap (m : DnsMetrics) (x : list UpstreamMetrics) : DnsMetrics :=
  let 'mkMetrics tq tr te tt_ qt qu eu hr ch cm ce pc lb rq rj bq sa _ := m in
  mkMetrics tq tr te tt_ qt qu eu hr ch cm ce pc lb rq rj bq sa x.

Definition incr (n : Z) : Z := i64 (n + 1).

Definition NewDnsMetrics (now : Z) : DnsMetrics :=
  mkMetrics 0 0 0 0 ∅ ∅ ∅ ∅ 0 0 0 0
    [mkBucket "<1ms" 0; mkBucket "1-5ms" 0; mkBucket "5-10ms" 0; mkBucket "10-50ms" 0;
     mkBucket "50-200ms" 0; mkBucket "200ms+" 0]
    0 0 0 now [].

Definition fresh_um : UpstreamMetrics := mkUM 0 0 0 0 MaxInt64 0 0.

(** [LoadOrStore]: the pointer under the key, or a fresh object. *)
Definition getOrCreateUpstreamMetrics (m : DnsMetrics) (upstream : string) : DnsMetrics * nat :=
  match mx_QueriesByUpstream m !! upstream with
  | Some p => (m, p)
  | None =>
    let p := length (um_heap m) in
    let m := with_um_heap m (um_heap m ++ [fresh_um]) in
    (with_QueriesByUpstream m (<[upstream := p]> (mx_QueriesByUpstream m)), p)
  end.

(** [getOrInitCounter(m, key).Add(1)] *)
Definition bump {K} `{Countable K} (m : gmap K Z) (key : K) : gmap K Z :=
  <[key := incr (default 0 (m !! key))]> m.

(** An update of the object [p] points to, under its lock. *)
Definition update_um (f : UpstreamMetrics -> UpstreamMetrics) (m : DnsMetrics) (upstream : string)
    : DnsMetrics :=
  let '(m, p) := getOrCreateUpstreamMetrics m upstream in
  with_um_heap m (alter f p (um_heap m)).

Definition RecordQuery (now : Z) (m : DnsMetrics) (qtype : Z) (upstream : string) : DnsMetrics :=
  let m := with_TotalQueries m (incr (mx_TotalQueries m)) in
  let m := with_QueriesByType m (bump (mx_QueriesByType m) qtype) in
  if negb (String.eqb upstream "") then
    update_um (fun um => mkUM (incr (um_Queries um)) (um_Successes um) (um_Errors um) (um_AvgRTT um)
                           (um_MinRTT um) (um_MaxRTT um) now) m upstream
  else m.

(** [rtt.Milliseconds()] truncates. *)
Definition Milliseconds (d : Z) : Z := Z.quot d Millisecond.

Definition latency_index (rtt : Z) : nat :=
  let ms := Milliseconds rtt in
  if ms <? 1 then 0%nat
  else if ms <=? 5 then 1%nat
  else if ms <=? 10 then 2%nat
  else if ms <=? 50 then 3%nat
  else if ms <=? 200 then 4%nat
  else 5%nat.

Definition recordLatency (m : DnsMetrics) (rtt : Z) : DnsMetrics :=
  with_LatencyBuckets m
    (alter (fun b => mkBucket (lb_Label b) (incr (lb_Count b))) (latency_index rtt)
       (mx_LatencyBuckets m)).

Definition record_rtt (rtt : Z) (um : UpstreamMetrics) : UpstreamMetrics :=
  if rtt >? 0 then
    let avg := if um_AvgRTT um =? 0 then rtt
               else Z.quot (i64 (i64 (um_AvgRTT um * 2) + rtt)) 3 in
    let mn := if rtt <? um_MinRTT um then rtt else um_MinRTT um in
    let mx := if rtt >? um_MaxRTT um then rtt else um_MaxRTT um in
    mkUM (um_Queries um) (um_Successes um) (um_Errors um) avg mn mx (um_LastQuery um)
  else um.

Definition RecordResponse (m : DnsMetrics) (upstream : string) (rtt : Z) : DnsMetrics :=
  let m := with_TotalResponses m (incr (mx_TotalResponses m)) in
  let m := recordLatency m rtt in
  if negb (String.eqb upstream "") then
    update_um (fun um =>
      record_rtt rtt (mkUM (um_Queries um) (incr (um_Successes um)) (um_Errors um) (um_AvgRTT um)
                        (um_MinRTT um) (um_MaxRTT um) (um_LastQuery um))) m upstream
  else m.

Definition RecordError (m : DnsMetrics) (upstream : string) : DnsMetrics :=
  let m := with_TotalErrors m (incr (mx_TotalErrors m)) in
  if negb (String.eqb upstream "") then
    let m := with_ErrorsByUpstream m (bump (mx_ErrorsByUpstream m) upstream) in
    update_um (fun um => mkUM (um_Queries um) (um_Successes um) (incr (um_Errors um)) (um_AvgRTT um)
                           (um_MinRTT um) (um_MaxRTT um) (um_LastQuery um)) m upstream
  else m.

Definition RecordTimeout (m : DnsMetrics) (upstream : string) : DnsMetrics :=
  let m := with_TotalTimeouts m (incr (mx_TotalTimeouts m)) in
  RecordError m upstream.

Definition RecordCacheHit (m : DnsMetrics) : DnsMetrics := with_CacheHits m (incr (mx_CacheHits m)).
Definition RecordCacheMiss (m : DnsMetrics) : DnsMetrics :=
  with_CacheMisses m (incr (mx_CacheMisses m)).
Definition RecordCacheEviction (m : DnsMetrics) : DnsMetrics :=
  with_CacheEvictions m (incr (mx_CacheEvictions m)).
Definition RecordPrefetch (m : DnsMetrics) : DnsMetrics :=
  with_PrefetchCount m (incr (mx_PrefetchCount m)).

Definition RecordRuleHit (m : DnsMetrics) (ruleID : string) : DnsMetrics :=
  if String.eqb ruleID "" then m else with_HitsByRule m (bump (mx_HitsByRule m) ruleID).

Definition RecordAction (m : DnsMetrics) (action : string) : DnsMetrics :=
  if String.eqb action "route" then with_RoutedQueries m (incr (mx_RoutedQueries m))
  else if String.eqb action "reject" then with_RejectedQueries m (incr (mx_RejectedQueries m))
  else if String.eqb action "bypass" then with_BypassedQueries m (incr (mx_BypassedQueries m))
  else m.

(** [Reset] deletes the entries of the maps; the objects they pointed to stay
    reachable from earlier snapshots. *)
Definition Reset (now : Z) (m : DnsMetrics) : DnsMetrics :=
  mkMetrics 0 0 0 0 ∅ ∅ ∅ ∅ 0 0 0 0
    (map (fun b => mkBucket (lb_Label b) 0) (mx_LatencyBuckets m))
    0 0 0 now (um_heap m).

(** ** Snapshot

    The counters are copied; the per-upstream objects are not, the snapshot gets
    their pointers.  The uptime is kept as the rounded duration that the source
    prints. *)
Record MetricsSnapshot := mkSnapshot {
  sn_TotalQueries : Z; sn_TotalResponses : Z; sn_TotalErrors : Z; sn_TotalTimeouts : Z;
  sn_QueriesByType : gmap string Z;
  sn_QueriesByUpstream : gmap string nat;
  sn_ErrorsByUpstream : gmap string Z;
  sn_HitsByRule : gmap string Z;
  sn_CacheHits : Z; sn_CacheMisses : Z; sn_CacheEvictions : Z; sn_PrefetchCount : Z;
  sn_LatencyBuckets : list LatencyBucket;
  sn_RoutedQueries : Z; sn_RejectedQueries : Z; sn_BypassedQueries : Z;
  sn_Uptime : Z;
}.

(** [d.Round(time.Second)], halves away from zero. *)
Definition round_second (d : Z) : Z :=
  let r := Z.rem d Second in
  if d <? 0 then
    if - r + - r <? Second then d - r else d - Second - r
  else
    if r + r <? Second then d - r else d + Second - r.

Definition Snapshot `{Miekg} (now : Z) (m : DnsMetrics) : MetricsSnapshot :=
  mkSnapshot (mx_TotalQueries m) (mx_TotalResponses m) (mx_TotalErrors m) (mx_TotalTimeouts m)
    (map_fold (fun qt n acc => <[TypeToString qt := n]> acc) ∅ (mx_QueriesByType m))
    (mx_QueriesByUpstream m) (mx_ErrorsByUpstream m) (mx_HitsByRule m)
    (mx_CacheHits m) (mx_CacheMisses m) (mx_CacheEvictions m) (mx_PrefetchCount m)
    (mx_LatencyBuckets m) (mx_RoutedQueries m) (mx_RejectedQueries m) (mx_BypassedQueries m)
    (round_second (time_sub now (mx_startedAt m))).

(** Reading an upstream's figures through a snapshot, in the current heap. *)
Definition snapshot_um (s : MetricsSnapshot) (m : DnsMetrics) (upstream : string)
    : option UpstreamMetrics :=
  p ← sn_QueriesByUpstream s !! upstream; um_heap m !! p.

(** ** Consistency *)

Definition map_total {K} `{Countable K} (m : gmap K Z) : Z := map_fold (fun _ v acc => v + acc) 0 m.
Definition bucket_total (bs : list LatencyBucket) : Z :=
  foldr (fun b acc => lb_Count b + acc) 0 bs.

Lemma map_total_insert {K} `{Countable K} (m : gmap K Z) k v :
  m !! k = None -> map_total (<[k := v]> m) = v + map_total m.
Proof. intros Hk. unfold map_total. rewrite map_fold_insert_L; [done|intros; lia|done]. Qed.

Lemma map_total_delete {K} `{Countable K} (m : gmap K Z) k :
  map_total m = default 0 (m !! k) + map_total (delete k m).
Proof.
  destruct (m !! k) as [v|] eqn:E; simpl.
  - rewrite <-(insert_delete_id m k v E) at 1.
    rewrite map_total_insert by (apply lookup_delete_eq). done.
  - by rewrite delete_id.
Qed.

Definition nonneg {K} `{Countable K} (m : gmap K Z) : Prop := forall k v, m !! k = Some v -> 0 <= v.

Lemma map_total_nonneg {K} `{Countable K} (m : gmap K Z) : nonneg m -> 0 <= map_total m.
Proof.
  induction m as [|k v m Hk IH] using map_ind; intros Hn; [done|].
  rewrite map_total_insert by done. pose proof (Hn k v (lookup_insert_eq m k v)).
  assert (nonneg m) as Hm; [|specialize (IH Hm); lia]. intros k' v' H'. apply (Hn k').
  rewrite lookup_insert_ne; [done|]. by intros ->; rewrite H' in Hk.
Qed.

Lemma bump_spec {K} `{Countable K} (m : gmap K Z) k :
  nonneg m -> map_total m < 2 ^ 63 - 1 ->
  map_total (bump m k) = map_total m + 1 /\ nonneg (bump m k).
Proof.
  intros Hn Hb. rewrite (map_total_delete m k) in Hb |- *.
  assert (nonneg (delete k m)) as Hd.
  { intros k' v'. rewrite lookup_delete_Some. intros [_ Hv]. by eapply Hn. }
  pose proof (map_total_nonneg _ Hd). assert (0 <= default 0 (m !! k)) as Hk0
    by (destruct (m !! k) eqn:E; simpl; [by eapply Hn|lia]).
  unfold bump, incr. rewrite i64_small by (unfold is_i64; lia). split.
  - rewrite <-insert_delete_eq, map_total_insert by apply lookup_delete_eq. lia.
  - intros k' v'. destruct (decide (k = k')) as [<-|Hne].
    + rewrite lookup_insert_eq. intros [= <-]. lia.
    + rewrite lookup_insert_ne by done. apply Hn.
Qed.

Lemma bucket_alter bs i :
  (i < length bs)%nat -> Forall (fun b => 0 <= lb_Count b) bs -> bucket_total bs < 2 ^ 63 - 1 ->
  let bs' := alter (fun b => mkBucket (lb_Label b) (incr (lb_Count b))) i bs in
  bucket_total bs' = bucket_total bs + 1 /\ Forall (fun b => 0 <= lb_Count b) bs' /\
  length bs' = length bs.
Proof.
  assert (forall l, Forall (fun b => 0 <= lb_Count b) l -> 0 <= bucket_total l) as Hpos.
  { induction 1; simpl; lia. }
  revert i. induction bs as [|b bs IH]; intros [|i] Hi Hf Hs; simpl in *; try lia;
    apply Forall_cons in Hf as [Hb Hf]; pose proof (Hpos _ Hf).
  - unfold incr. rewrite i64_small by (unfold is_i64; lia). split; [simpl; lia|].
    split; [|done]. constructor; [simpl; lia|done].
  - destruct (IH i) as (H1 & H2 & H3); [lia|done|lia|].
    split; [|split; [by constructor|by f_equal]].
    transitivity (lb_Count b + (bucket_total bs + 1)); [by f_equal|unfold bucket_total; lia].
Qed.

Lemma latency_index_lt rtt : (latency_index rtt < 6)%nat.
Proof. unfold latency_index. repeat case_match; lia. Qed.

(** The operations of a collector, as a sequence of steps. *)
Inductive mop :=
| OQuery (now qtype : Z) (upstream : string)
| OResponse (upstream : string) (rtt : Z)
| OError (upstream : string)
| OTimeout (upstream : string)
| OCacheHit | OCacheMiss | OCacheEviction | OPrefetch
| ORuleHit (id : string)
| OAction (action : string)
| OReset (now : Z).

Definition mstep (m : DnsMetrics) (op : mop) : DnsMetrics :=
  match op with
  | OQuery now t u => RecordQuery now m t u
  | OResponse u rtt => RecordResponse m u rtt
  | OError u => RecordError m u
  | OTimeout u => RecordTimeout m u
  | OCacheHit => RecordCacheHit m
  | OCacheMiss => RecordCacheMiss m
  | OCacheEviction => RecordCacheEviction m
  | OPrefetch => RecordPrefetch m
  | ORuleHit r => RecordRuleHit m r
  | OAction a => RecordAction m a
  | OReset now => Reset now m
  end.

Definition mrun (now : Z) (ops : list mop) : DnsMetrics := foldl mstep (NewDnsMetrics now) ops.

(** Totals agree with their breakdowns; [n] bounds the counters. *)
Record totals_ok (n : Z) (m : DnsMetrics) : Prop := {
  to_buckets : length (mx_LatencyBuckets m) = 6%nat;
  to_counts : Forall (fun b => 0 <= lb_Count b) (mx_LatencyBuckets m);
  to_latency : bucket_total (mx_LatencyBuckets m) = mx_TotalResponses m;
  to_responses : mx_TotalResponses m <= n;
  to_types : nonneg (mx_QueriesByType m);
  to_queries : map_total (mx_QueriesByType m) = mx_TotalQueries m;
  to_query_bound : mx_TotalQueries m <= n;
  to_errors : 0 <= mx_TotalTimeouts m <= mx_TotalErrors m /\ mx_TotalErrors m <= n;
}.

(** The fields [totals_ok] reads. *)
Definition totals (m : DnsMetrics) :=
  (mx_LatencyBuckets m, mx_TotalResponses m, mx_QueriesByType m, mx_TotalQueries m,
   mx_TotalTimeouts m, mx_TotalErrors m).

Lemma totals_ok_eq n m m' : totals m = totals m' -> totals_ok n m -> totals_ok n m'.
Proof. destruct m, m'. intros [= -> -> -> -> -> ->] []. by split. Qed.

Lemma totals_ok_mono n n' m : n <= n' -> totals_ok n m -> totals_ok n' m.
Proof. intros Hn []. split; try done; lia. Qed.

Lemma totals_update_um f m u : totals (update_um f m u) = totals m.
Proof.
  unfold update_um, getOrCreateUpstreamMetrics. destruct m. simpl. by destruct (_ !! u).
Qed.

Lemma incr_small x : - 2 ^ 63 <= x < 2 ^ 63 - 1 -> incr x = x + 1.
Proof. intros H. unfold incr. apply i64_small. unfold is_i64. lia. Qed.

Lemma bucket_total_nonneg bs : Forall (fun b => 0 <= lb_Count b) bs -> 0 <= bucket_total bs.
Proof. induction 1; simpl; lia. Qed.

Lemma totals_count_query n m qtype :
  totals_ok n m -> 0 <= n < 2 ^ 63 - 1 ->
  totals_ok (n + 1) (with_QueriesByType (with_TotalQueries m (incr (mx_TotalQueries m)))
    (bump (mx_QueriesByType m) qtype)).
Proof.
  intros [A1 A2 A3 A4 A5 A6 A7 A8] Hn.
  destruct (bump_spec (mx_QueriesByType m) qtype A5) as [H1 H2]; [lia|].
  pose proof (map_total_nonneg _ A5). rewrite incr_small by lia.
  destruct m as [tq tr te tto qt qu eu hr ch cm ce pc lb rq rj bq sa hp].
  cbn -[bucket_total map_total bump] in *. split; cbn -[bucket_total map_total bump]; try done; lia.
Qed.

Lemma totals_count_response n m rtt :
  totals_ok n m -> 0 <= n < 2 ^ 63 - 1 ->
  totals_ok (n + 1) (recordLatency (with_TotalResponses m (incr (mx_TotalResponses m))) rtt).
Proof.
  intros [A1 A2 A3 A4 A5 A6 A7 A8] Hn.
  destruct (bucket_alter (mx_LatencyBuckets m) (latency_index rtt)) as (H1 & H2 & H3);
    [rewrite A1; apply latency_index_lt|done|lia|].
  pose proof (bucket_total_nonneg _ A2). rewrite incr_small by lia. unfold recordLatency.
  destruct m as [tq tr te tto qt qu eu hr ch cm ce pc lb rq rj bq sa hp].
  cbn -[bucket_total map_total bump alter] in *.
  split; cbn -[bucket_total map_total bump alter]; try done; lia.
Qed.

Lemma totals_count_error n m k :
  totals_ok n m -> 0 <= n < 2 ^ 63 - 1 -> k = 0 \/ k = 1 ->
  totals_ok (n + 1) (with_TotalErrors (with_TotalTimeouts m (mx_TotalTimeouts m + k))
    (incr (mx_TotalErrors m))).
Proof.
  intros [A1 A2 A3 A4 A5 A6 A7 A8] Hn Hk. rewrite incr_small by lia.
  destruct m as [tq tr te tto qt qu eu hr ch cm ce pc lb rq rj bq sa hp].
  cbn -[bucket_total map_total] in *. split; cbn -[bucket_total map_total]; try done; lia.
Qed.

Lemma totals_RecordError n m u :
  totals_ok n (with_TotalErrors m (incr (mx_TotalErrors m))) -> totals_ok n (RecordError m u).
Proof.
  intros H. unfold RecordError. case_match; [|done].
  eapply totals_ok_eq; [symmetry; apply totals_update_um|].
  eapply totals_ok_eq; [|exact H]. by destruct m.
Qed.

Lemma totals_step n m op : totals_ok n m -> 0 <= n < 2 ^ 63 - 1 -> totals_ok (n + 1) (mstep m op).
Proof.
  intros Hok Hn. pose proof (totals_ok_mono n (n + 1) m ltac:(lia) Hok) as Hok1.
  destruct op; cbn [mstep]; try (eapply totals_ok_eq; [|exact Hok1]; by destruct m).
  - pose proof (totals_count_query n m qtype Hok Hn) as H1.
    unfold RecordQuery. assert (mx_QueriesByType (with_TotalQueries m (incr (mx_TotalQueries m)))
      = mx_QueriesByType m) as -> by by destruct m.
    case_match; [|done]. eapply totals_ok_eq; [symmetry; apply totals_update_um|done].
  - pose proof (totals_count_response n m rtt Hok Hn) as H1. unfold RecordResponse.
    case_match; [|done]. eapply totals_ok_eq; [symmetry; apply totals_update_um|done].
  - apply totals_RecordError. pose proof (totals_count_error n m 0 Hok Hn ltac:(lia)) as H1.
    eapply totals_ok_eq; [|exact H1]. destruct m. simpl. by rewrite Z.add_0_r.
  - unfold RecordTimeout. rewrite (incr_small (mx_TotalTimeouts m)) by (destruct Hok; lia).
    apply totals_RecordError. pose proof (totals_count_error n m 1 Hok Hn ltac:(lia)) as H1.
    eapply totals_ok_eq; [|exact H1]. by destruct m.
  - unfold RecordRuleHit. case_match; [done|]. eapply totals_ok_eq; [|exact Hok1]. by destruct m.
  - unfold RecordAction.
    repeat case_match; try done; (eapply totals_ok_eq; [|exact Hok1]; by destruct m).
  - destruct Hok as [A1 A2 A3 A4 A5 A6 A7 A8].
    split; cbn -[bucket_total map_total]; try done; try lia.
    + by rewrite length_map.
    + apply Forall_fmap, Forall_true. intros. simpl. lia.
    + clear. induction (mx_LatencyBuckets m); [done|]. done.
Qed.

(** The figures of one upstream: no round trip recorded yet, or the average lies
    between the extremes. *)
Definition um_ok (um : UpstreamMetrics) : Prop :=
  (um_AvgRTT um = 0 /\ um_MinRTT um = MaxInt64 /\ um_MaxRTT um = 0) \/
  (0 < um_MinRTT um <= um_AvgRTT um /\ um_AvgRTT um <= um_MaxRTT um < 2 ^ 61).

Record heap_ok (m : DnsMetrics) : Prop := {
  ho_figures : Forall um_ok (um_heap m);
  ho_errors : forall u p, mx_QueriesByUpstream m !! u = Some p ->
    exists um, um_heap m !! p = Some um /\ um_Errors um = default 0 (mx_ErrorsByUpstream m !! u);
  ho_own : forall u u' p, mx_QueriesByUpstream m !! u = Some p ->
    mx_QueriesByUpstream m !! u' = Some p -> u = u';
  ho_none : forall u, mx_QueriesByUpstream m !! u = None -> mx_ErrorsByUpstream m !! u = None;
}.

Lemma record_rtt_ok rtt um : rtt < 2 ^ 61 -> um_ok um -> um_ok (record_rtt rtt um).
Proof.
  intros Hr Hok. unfold record_rtt. destruct (rtt >? 0) eqn:E; zbool; [|done].
  destruct Hok as [(Ha & Hm & Hx)|[Ha Hb]]; right; simpl.
  - rewrite Ha, Hm, Hx. simpl. rewrite (proj2 (Z.ltb_lt _ _)) by (unfold MaxInt64; lia).
    rewrite (proj2 (Z.gtb_lt _ _)) by lia. lia.
  - rewrite (proj2 (Z.eqb_neq _ _)) by lia.
    rewrite (i64_small (um_AvgRTT um * 2)) by (unfold is_i64; lia).
    rewrite i64_small by (unfold is_i64; lia). rewrite Z.quot_div_nonneg by lia.
    assert (um_MinRTT um `min` rtt <= (um_AvgRTT um * 2 + rtt) / 3 <= um_MaxRTT um `max` rtt) as H.
    { split; [apply Z.div_le_lower_bound; lia|]. apply Z.div_le_upper_bound; lia. }
    destruct (rtt <? um_MinRTT um) eqn:E1, (rtt >? um_MaxRTT um) eqn:E2; zbool; lia.
Qed.

Lemma create_ok m u m' p :
  heap_ok m -> getOrCreateUpstreamMetrics m u = (m', p) ->
  heap_ok m' /\ mx_QueriesByUpstream m' !! u = Some p /\
  mx_ErrorsByUpstream m' = mx_ErrorsByUpstream m.
Proof.
  intros Hok. unfold getOrCreateUpstreamMetrics.
  destruct (mx_QueriesByUpstream m !! u) as [q|] eqn:E; intros [= <- <-]; [done|].
  destruct Hok as [A1 A2 A3 A4]. pose proof (A4 u E) as Hu.
  destruct m as [tq tr te tto qt qu eu hr ch cm ce pc lb rq rj bq sa hp]. cbn in *.
  split; [|by rewrite lookup_insert_eq]. split; cbn.
  - apply Forall_app. split; [done|]. repeat constructor.
  - intros u' p. destruct (decide (u = u')) as [<-|Hne].
    + rewrite lookup_insert_eq. intros [= <-]. exists fresh_um.
      rewrite lookup_app_r, Nat.sub_diag by done. by rewrite Hu.
    + rewrite lookup_insert_ne by done. intros (um & Hl & He)%A2. exists um.
      rewrite lookup_app_l by (by eapply lookup_lt_Some). done.
  - intros u1 u2 p. rewrite !lookup_insert_Some.
    assert (forall u', qu !! u' <> Some (length hp)) as Hfresh.
    { intros u' (um & Hl%lookup_lt_Some & _)%A2. lia. }
    intros [[<- <-]|[H1 H2]] [[<- H3]|[H3 H4]]; try done; naive_solver.
  - intros u'. rewrite lookup_insert_None. naive_solver.
Qed.

Lemma update_um_ok f m u e' :
  heap_ok m -> (forall um, um_ok um -> um_ok (f um)) ->
  (forall um, um_Errors um = default 0 (mx_ErrorsByUpstream m !! u) ->
     um_Errors (f um) = default 0 (e' !! u)) ->
  (forall u', u' <> u -> e' !! u' = mx_ErrorsByUpstream m !! u') ->
  heap_ok (with_ErrorsByUpstream (update_um f m u) e').
Proof.
  intros Hok Hf He Ho. unfold update_um.
  destruct (getOrCreateUpstreamMetrics m u) as [m' p] eqn:E.
  destruct (create_ok _ _ _ _ Hok E) as ([A1 A2 A3 A4] & Hp & Heq). rewrite <-Heq in He, Ho.
  clear Hok E Heq m. destruct m' as [tq tr te tto qt qu eu hr ch cm ce pc lb rq rj bq sa hp].
  cbn in *. split; cbn.
  - apply Forall_alter; [done|]. intros; by apply Hf.
  - intros u' p' Hu'. destruct (A2 _ _ Hu') as (um & Hl & Hum).
    destruct (decide (u = u')) as [<-|Hne].
    + simplify_eq. exists (f um). rewrite list_lookup_alter_eq, Hl. simpl. auto.
    + exists um. rewrite Ho by done. rewrite list_lookup_alter_ne; [done|].
      intros ->. by destruct Hne; apply (A3 _ _ p').
  - done.
  - intros u' Hn. rewrite Ho by (intros ->; congruence). auto.
Qed.

Lemma heap_ok_eq m m' :
  um_heap m = um_heap m' -> mx_QueriesByUpstream m = mx_QueriesByUpstream m' ->
  mx_ErrorsByUpstream m = mx_ErrorsByUpstream m' -> heap_ok m -> heap_ok m'.
Proof. destruct m, m'. simpl. intros -> -> -> []. by split. Qed.

Lemma heap_RecordError m u : heap_ok m -> heap_ok (RecordError m u).
Proof.
  intros Hok. unfold RecordError. assert (heap_ok (with_TotalErrors m (incr (mx_TotalErrors m)))) as H1
    by (eapply heap_ok_eq; [..|exact Hok]; by destruct m).
  case_match; [|done]. clear Hok. set (m1 := with_TotalErrors _ _) in *. clearbody m1.
  pose proof (update_um_ok (fun um => mkUM (um_Queries um) (um_Successes um) (incr (um_Errors um))
    (um_AvgRTT um) (um_MinRTT um) (um_MaxRTT um) (um_LastQuery um)) m1 u
    (bump (mx_ErrorsByUpstream m1) u) H1) as H2.
  eapply heap_ok_eq; [..|apply H2].
  1-3: unfold update_um, getOrCreateUpstreamMetrics;
    destruct m1 as [tq tr te tto qt qu eu hr ch cm ce pc lb rq rj bq sa hp];
    cbn -[alter bump]; by destruct (qu !! u).
  - done.
  - intros um Hum. simpl. unfold bump. by rewrite lookup_insert_eq, Hum.
  - intros u' Hne. unfold bump. by rewrite lookup_insert_ne.
Qed.

Lemma heap_update_um f m u :
  heap_ok m -> (forall um, um_ok um -> um_ok (f um)) ->
  (forall um, um_Errors (f um) = um_Errors um) -> heap_ok (update_um f m u).
Proof.
  intros Hok Hf He. pose proof (update_um_ok f m u (mx_ErrorsByUpstream m) Hok Hf) as H2.
  eapply heap_ok_eq; [..|apply H2].
  1-3: unfold update_um, getOrCreateUpstreamMetrics;
    destruct m as [tq tr te tto qt qu eu hr ch cm ce pc lb rq rj bq sa hp];
    cbn -[alter]; by destruct (qu !! u).
  - intros um. by rewrite He.
  - done.
Qed.

(** A recorded round trip is below 2^61 ns, some 73 years. *)
Definition rtt_sane (op : mop) : Prop :=
  match op with OResponse _ rtt => rtt < 2 ^ 61 | _ => True end.

Lemma heap_step m op : rtt_sane op -> heap_ok m -> heap_ok (mstep m op).
Proof.
  intros Hs Hok. destruct op; cbn [mstep rtt_sane] in *;
    try (eapply heap_ok_eq; [..|exact Hok]; by destruct m).
  - unfold RecordQuery. set (m1 := with_QueriesByType _ _).
    assert (heap_ok m1) as H1 by (eapply heap_ok_eq; [..|exact Hok]; by destruct m).
    case_match; [|done]. by apply heap_update_um.
  - unfold RecordResponse. set (m1 := recordLatency _ _).
    assert (heap_ok m1) as H1 by (eapply heap_ok_eq; [..|exact Hok]; by destruct m).
    case_match; [|done]. apply heap_update_um; [done| |].
    + intros um Hum. apply record_rtt_ok; done.
    + intros um. unfold record_rtt. by case_match.
  - by apply heap_RecordError.
  - unfold RecordTimeout. apply heap_RecordError. eapply heap_ok_eq; [..|exact Hok]; by destruct m.
  - unfold RecordRuleHit. case_match; [done|]. eapply heap_ok_eq; [..|exact Hok]; by destruct m.
  - unfold RecordAction. repeat case_match; try done; (eapply heap_ok_eq; [..|exact Hok]; by destruct m).
  - destruct Hok. split; simpl; try done.
Qed.

Lemma mrun_ok now ops :
  Forall rtt_sane ops -> Z.of_nat (length ops) < 2 ^ 63 - 1 ->
  totals_ok (Z.of_nat (length ops)) (mrun now ops) /\ heap_ok (mrun now ops).
Proof.
  unfold mrun. intros Hs Hl. revert Hs Hl.
  induction ops as [|op ops IH] using rev_ind; intros Hs Hl.
  - split; split; cbn; try done; try lia.
    repeat (apply Forall_cons; split; [cbn; lia|]). by apply Forall_nil.
  - apply Forall_app in Hs as [Hs Hop]. rewrite length_app in Hl |- *. simpl in Hl |- *.
    destruct IH as [H1 H2]; [done|lia|]. rewrite foldl_app. cbn [foldl].
    replace (Z.of_nat (length ops + 1)) with (Z.of_nat (length ops) + 1) by lia. split.
    + apply totals_step; [done|lia].
    + apply heap_step; [by inversion Hop|done].
Qed.

(** After any sequence of recordings and resets the totals
    agree with their breakdowns: the six latency buckets add up to the responses,
    the per-type counters to the queries, timeouts are among the errors, the error
    counter of an upstream is the one in its detailed figures, and an upstream's
    average round trip lies between its minimum and its maximum. *)
Theorem metrics_are_consistent (now : Z) (ops : list mop) :
  Forall rtt_sane ops -> Z.of_nat (length ops) < 2 ^ 63 - 1 ->
  let m := mrun now ops in
  bucket_total (mx_LatencyBuckets m) = mx_TotalResponses m /\
  map_total (mx_QueriesByType m) = mx_TotalQueries m /\
  0 <= mx_TotalTimeouts m <= mx_TotalErrors m /\
  (forall u p, mx_QueriesByUpstream m !! u = Some p -> exists um,
     um_heap m !! p = Some um /\ um_ok um /\
     um_Errors um = default 0 (mx_ErrorsByUpstream m !! u)).
Proof.
  intros Hs Hl. destruct (mrun_ok now ops Hs Hl) as [[_ _ H3 _ _ H6 _ [H8 _]] [A1 A2 _ _]].
  split_and!; try done; [lia..|]. intros u p (um & Hp & He)%A2. exists um.
  split_and!; [done| |done]. rewrite Forall_lookup in A1. by eapply A1.
Qed.

Lemma metrics_are_consistent_witness :
  bucket_total (mx_LatencyBuckets (mrun 1 [OQuery 2 1 "u"; OResponse "u" 7000000; OTimeout "u"])) =
  mx_TotalResponses (mrun 1 [OQuery 2 1 "u"; OResponse "u" 7000000; OTimeout "u"]).
Proof.
  apply (metrics_are_consistent 1 [OQuery 2 1 "u"; OResponse "u" 7000000; OTimeout "u"]).
  - repeat constructor.
  - reflexivity.
Defined.

(** A snapshot is not frozen: its per-upstream figures are the
    live objects, so a query recorded later shows up in a snapshot taken before
    it, while the copied total does not move. *)
Theorem snapshot_shares_upstream_figures `{Miekg} (m : DnsMetrics) (u : string) (um : UpstreamMetrics)
    (now t qt : Z) :
  let s := Snapshot now m in
  u <> "" -> snapshot_um s m u = Some um ->
  snapshot_um s (RecordQuery t m qt u) u =
    Some (mkUM (incr (um_Queries um)) (um_Successes um) (um_Errors um) (um_AvgRTT um)
            (um_MinRTT um) (um_MaxRTT um) t) /\
  sn_TotalQueries s = mx_TotalQueries m.
Proof.
  intros s Hu. unfold snapshot_um, s, Snapshot. cbn [sn_QueriesByUpstream sn_TotalQueries].
  destruct (mx_QueriesByUpstream m !! u) as [p|] eqn:E; [|done]. cbn. intros Hp. split; [|done].
  unfold RecordQuery. rewrite (proj2 (String.eqb_neq _ _) Hu). cbn [negb].
  unfold update_um, getOrCreateUpstreamMetrics.
  destruct m as [tq tr te tto ty qu eu hr ch cm ce pc lb rq rj bq sa hp]. cbn -[alter bump] in *.
  rewrite E. cbn -[alter bump]. by rewrite list_lookup_alter_eq, Hp.
Qed.

Lemma snapshot_shares_upstream_figures_witness :
  let m := RecordQuery 5 (NewDnsMetrics 1) 1 "u" in
  um_Queries <$> @snapshot_um (@Snapshot Ref.miekg_ref 6 m) (RecordQuery 7 m 1 "u") "u" = Some 2.
Proof.
  cbv zeta. rewrite (proj1 (@snapshot_shares_upstream_figures Ref.miekg_ref
    (RecordQuery 5 (NewDnsMetrics 1) 1 "u") "u" (mkUM 1 0 0 0 MaxInt64 0 5) 6 7 1 ltac:(discriminate)
    ltac:(vm_compute; reflexivity))).
  vm_compute. reflexivity.
Defined.
