(* ===== verification/Net.v ===== *)
(** * The environment of the DNS module

    What the module asks of the operating system, of the miekg/dns client, of
    HTTP and TLS and of the xray dispatcher.  These are the operations of the
    class [Env]: each takes the state of the outside world and returns an
    outcome and a new state, so that nothing is assumed about what the network
    answers.  Computations are run in the monad [IO], which also records the
    requests made ([event]), in order: that is what the theorems about where a
    query may go speak of. *)

From S2P Require Import Prelude DnsMsg.

#[local] Open Scope Z_scope.

(** How an HTTP connection is dialled: the marked dialer, or the dispatcher
    with a proxy tag. *)
Inductive dialer := DialDirect | DialDispatch (tag : string).

(** What a client's [Exchange] returns. *)
Record exchanged := mkExchanged { x_resp : option Msg; x_rtt : Z; x_err : option error }.

Class Env := {
  World : Type;
  Conn : Type;
  env_now : World -> Z * World;
  env_sleep : Z -> World -> World;
  (** the random id of a message *)
  env_id : World -> Z * World;
  (** [client.Exchange(msg, addr)] of a marked client: network, TLS server name *)
  env_exchange : string -> string -> Msg -> string -> World -> exchanged * World;
  (** an HTTP POST of a DNS message: the status, and what reading at most the
      given number of bytes of the body gives *)
  env_post : dialer -> string -> list Z -> Z -> World -> result (Z * result (list Z)) * World;
  env_dial : string -> World -> result Conn * World;
  env_dispatch : string -> string -> World -> result Conn * World;
  env_tls : Conn -> string -> World -> result Conn * World;
  env_write : Conn -> list Z -> World -> option error * World;
  (** [conn.Read] into a buffer of the given size *)
  env_read : Conn -> nat -> World -> result (list Z) * World;
  (** [io.ReadFull] of the given number of bytes *)
  env_read_full : Conn -> nat -> World -> result (list Z) * World;
  (** [net.ListenPacket]/[net.Listen] on a network and address, [Shutdown] of the
      server that uses the socket *)
  env_listen : string -> string -> World -> option error * World;
  env_shutdown : string -> string -> World -> option error * World;
  (** [net.LookupPort("tcp", service)] *)
  env_port : string -> World -> option Z * World;
}.

(** The requests that leave the process. *)
Inductive event :=
| EvExchange (network servername : string) (msg : Msg) (addr : string)
| EvPost (d : dialer) (url : string) (body : list Z)
| EvDial (addr : string)
| EvDispatch (addr tag : string)
| EvWrite (bytes : list Z)
| EvOpened (network addr : string)
| EvClosed (network addr : string)
(** a [Shutdown] that returned an error: the server had not started serving *)
| EvRefused (network addr : string).

Section IO.
Context `{E : Env}.

Definition IO (A : Type) : Type := World -> A * World * list event.

Definition ret {A} (a : A) : IO A := fun w => (a, w, []).

Definition bind {A B} (c : IO A) (k : A -> IO B) : IO B :=
  fun w =>
    let '(a, w, t) := c w in
    let '(b, w, t') := k a w in
    (b, w, t ++ t').

Definition lift {A} (f : World -> A * World) (t : list event) : IO A :=
  fun w => let '(a, w) := f w in (a, w, t).

Definition now : IO Z := lift env_now [].
Definition sleep (d : Z) : IO unit := lift (fun w => (tt, env_sleep d w)) [].
Definition new_id : IO Z := lift env_id [].
Definition client_exchange (network servername : string) (msg : Msg) (addr : string)
    : IO exchanged :=
  lift (env_exchange network servername msg addr) [EvExchange network servername msg addr].
Definition http_post (d : dialer) (url : string) (body : list Z) (limit : Z)
    : IO (result (Z * result (list Z))) :=
  lift (env_post d url body limit) [EvPost d url body].
Definition dial_tcp (addr : string) : IO (result Conn) := lift (env_dial addr) [EvDial addr].
Definition dispatch (addr tag : string) : IO (result Conn) :=
  lift (env_dispatch addr tag) [EvDispatch addr tag].
Definition tls_over (c : Conn) (servername : string) : IO (result Conn) :=
  lift (env_tls c servername) [].
Definition conn_write (c : Conn) (b : list Z) : IO (option error) :=
  lift (env_write c b) [EvWrite b].
Definition conn_read (c : Conn) (n : nat) : IO (result (list Z)) := lift (env_read c n) [].
Definition read_full (c : Conn) (n : nat) : IO (result (list Z)) := lift (env_read_full c n) [].
Definition emit (e : event) : IO unit := fun w => (tt, w, [e]).
Definition listen (network addr : string) : IO (option error) := lift (env_listen network addr) [].
Definition shutdown (network addr : string) : IO (option error) :=
  fun w =>
    let '(err, w) := env_shutdown network addr w in
    (err, w, [match err with None => EvClosed network addr | Some _ => EvRefused network addr end]).
Definition lookup_port (s : string) : IO (option Z) := lift (env_port s) [].

(** [run c w a t]: started in the world [w], [c] returns [a] and makes the
    requests [t]. *)
Definition run {A} (c : IO A) (w : World) (a : A) (t : list event) : Prop :=
  exists w', c w = (a, w', t).

(** Every result satisfies [Q] and every request satisfies [P], in any world. *)
Definition safe {A} (P : event -> Prop) (Q : A -> Prop) (c : IO A) : Prop :=
  forall w a w' t, c w = (a, w', t) -> Q a /\ Forall P t.

Lemma safe_ret {A} P (Q : A -> Prop) a : Q a -> safe P Q (ret a).
Proof. intros H w a' w' t [= <- <- <-]. split; [done|constructor]. Qed.

Lemma safe_bind {A B} P (R : A -> Prop) (Q : B -> Prop) (c : IO A) (k : A -> IO B) :
  safe P R c -> (forall a, R a -> safe P Q (k a)) -> safe P Q (bind c k).
Proof.
  intros Hc Hk w b w' t. unfold bind.
  destruct (c w) as [[a w1] t1] eqn:E1. destruct (k a w1) as [[b' w2] t2] eqn:E2.
  intros [= <- <- <-]. destruct (Hc _ _ _ _ E1) as [Ha Ht1].
  destruct (Hk a Ha _ _ _ _ E2) as [Hb Ht2]. split; [done|]. by apply Forall_app.
Qed.

Lemma safe_lift {A} P (Q : A -> Prop) f t :
  Forall P t -> (forall w a w', f w = (a, w') -> Q a) -> safe P Q (lift f t).
Proof.
  intros Ht HQ w a w' t'. unfold lift. destruct (f w) as [x w1] eqn:Ef.
  intros [= <- <- <-]. eauto.
Qed.

Lemma safe_weaken {A} (P P' : event -> Prop) (Q Q' : A -> Prop) c :
  (forall e, P e -> P' e) -> (forall a, Q a -> Q' a) -> safe P Q c -> safe P' Q' c.
Proof.
  intros HP HQ Hc w a w' t H. destruct (Hc _ _ _ _ H) as [Ha Ht]. split; [auto|].
  by eapply Forall_impl.
Qed.

End IO.

(** [x := e; k] in the monad. *)
Notation "'let!' x ':=' e 'in' k" := (bind e (fun x => k))
  (at level 10, x pattern, e at level 100, k at level 200) : go_scope.

(** [x, err := e; if err != nil { return nil, wrap(err) }] *)
Notation "'try!' x ':=' e 'or' err '=>' h 'in' k" :=
  (bind e (fun r => match r with Ok x => k | Err err => ret (Err h) end))
  (at level 10, x pattern, e at level 100, err name, h at level 100, k at level 200) : go_scope.

(** ** A scripted environment

    A world that plays back prepared outcomes; it makes the model executable. *)
Module Script.

Record script := mkScript {
  clock : Z;
  exchanges : list exchanged;
  posts : list (result (Z * result (list Z)));
  dials : list (result unit);
  reads : list (result (list Z));
}.

Definition pop {A} (d : A) (l : list A) : A * list A :=
  match l with [] => (d, []) | x :: l' => (x, l') end.

Definition broken : error := ExtErr "i/o timeout".

#[export] Instance script_env : Env := {|
  World := script;
  Conn := unit;
  env_now w := (clock w, w);
  env_sleep d w := mkScript (clock w + d) (exchanges w) (posts w) (dials w) (reads w);
  env_id w := (4242, w);
  env_exchange _ _ _ _ w :=
    let '(x, l) := pop (mkExchanged None 0 (Some broken)) (exchanges w) in
    (x, mkScript (clock w + 1) l (posts w) (dials w) (reads w));
  env_post _ _ _ _ w :=
    let '(x, l) := pop (Err broken) (posts w) in
    (x, mkScript (clock w + 1) (exchanges w) l (dials w) (reads w));
  env_dial _ w :=
    let '(x, l) := pop (Err broken) (dials w) in
    (x, mkScript (clock w + 1) (exchanges w) (posts w) l (reads w));
  env_dispatch _ _ w :=
    let '(x, l) := pop (Err broken) (dials w) in
    (x, mkScript (clock w + 1) (exchanges w) (posts w) l (reads w));
  env_tls c _ w := (Ok c, w);
  env_write _ _ w := (None, w);
  env_read _ _ w :=
    let '(x, l) := pop (Err broken) (reads w) in
    (x, mkScript (clock w + 1) (exchanges w) (posts w) (dials w) l);
  env_read_full _ _ w :=
    let '(x, l) := pop (Err broken) (reads w) in
    (x, mkScript (clock w + 1) (exchanges w) (posts w) (dials w) l);
  env_listen _ _ w :=
    let '(x, l) := pop (Ok tt) (dials w) in
    (match x with Ok _ => None | Err e => Some e end,
     mkScript (clock w) (exchanges w) (posts w) l (reads w));
  env_shutdown _ _ w := (None, w);
  env_port s w := (if String.eqb s "53" then Some 53 else if String.eqb s "853" then Some 853 else None, w);
|}.

End Script.
