(* ===== verification/Upstream.v ===== *)
(** * The upstream manager (core/dns/upstream.go)

    Instances of upstream servers, indexed by id and by the composite key
    "addr|tag".  Both indexes and every caller share pointers to the instances,
    whose [Healthy] flag health checks write, so the instances live in a heap and
    the maps hold positions in it. *)

From S2P Require Import Prelude DnsMsg DnsConfig Net NetIP.

#[local] Open Scope Z_scope.
#[local] Open Scope go_scope.

Definition BuildUpstreamKey (addr proxyTag : string) : string := addr +:+ "|" +:+ proxyTag.

(** [Client] is the network of the marked client, [None] for a nil client. *)
Record UpstreamInstance := mkInstance {
  ui_ID : string;
  ui_Addr : string;
  ui_Protocol : string;
  ui_ProxyTag : string;
  ui_Client : option string;
  ui_Healthy : bool;
  ui_Bootstrap : bool;
  ui_ServerName : string;
}.

Definition CompositeKey (u : UpstreamInstance) : string :=
  BuildUpstreamKey (ui_Addr u) (ui_ProxyTag u).

(** [um_dispatcher] tells whether a dispatcher is set; what it does is the
    environment's. *)
Record UpstreamManager := mkManager {
  um_instances : list UpstreamInstance;
  um_upstreams : gmap string nat;
  um_upstreamsByID : gmap string nat;
  um_proxyAddrResolver : option (string -> string);
  um_dispatcher : bool;
  um_bootstrapIPs : gmap string string;
}.

(** [newMarkedDnsClient]: every socket of the client carries the mark. *)
Definition newMarkedDnsClient (network : string) : option string := Some network.

(** The defaults of an instance built from a configuration. *)
Definition effective_id (cfg : UpstreamConfig) : string :=
  if String.eqb (uc_ID cfg) "" then uc_Addr cfg else uc_ID cfg.
Definition effective_net (cfg : UpstreamConfig) : string :=
  if String.eqb (uc_Protocol cfg) "" then "udp" else uc_Protocol cfg.
Definition effective_tag (cfg : UpstreamConfig) : string :=
  if String.eqb (uc_ProxyTag cfg) "" then "direct" else uc_ProxyTag cfg.

Definition instance_of (cfg : UpstreamConfig) : UpstreamInstance :=
  let net := effective_net cfg in
  mkInstance (effective_id cfg) (uc_Addr cfg) net (effective_tag cfg) (newMarkedDnsClient net)
    true (uc_Bootstrap cfg) (uc_ServerName cfg).

Definition add_instance (m : UpstreamManager) (u : UpstreamInstance) : UpstreamManager :=
  let p := length (um_instances m) in
  mkManager (um_instances m ++ [u]) (<[CompositeKey u := p]> (um_upstreams m))
    (<[ui_ID u := p]> (um_upstreamsByID m)) (um_proxyAddrResolver m) (um_dispatcher m)
    (um_bootstrapIPs m).

Definition NewUpstreamManager (configs : list UpstreamConfig) : UpstreamManager :=
  foldl (fun m cfg => add_instance m (instance_of cfg)) (mkManager [] ∅ ∅ None false ∅) configs.

Definition GetUpstream (m : UpstreamManager) (id : string) : option nat :=
  match um_upstreamsByID m !! id with
  | Some p => Some p
  | None => um_upstreams m !! id
  end.

Definition GetUpstreamByKey (m : UpstreamManager) (compositeKey : string) : option nat :=
  um_upstreams m !! compositeKey.

Definition GetOrCreateUpstream (m : UpstreamManager) (config : UpstreamConfig)
    : UpstreamManager * nat :=
  let proxyTag := effective_tag config in
  let compositeKey := BuildUpstreamKey (uc_Addr config) proxyTag in
  match um_upstreams m !! compositeKey with
  | Some existing => (m, existing)
  | None =>
    let net := effective_net config in
    let instance := mkInstance (effective_id config) (uc_Addr config) net proxyTag
                      (newMarkedDnsClient net) true (uc_Bootstrap config) "" in
    let p := length (um_instances m) in
    (mkManager (um_instances m ++ [instance]) (<[compositeKey := p]> (um_upstreams m))
       (<[effective_id config := p]> (um_upstreamsByID m)) (um_proxyAddrResolver m)
       (um_dispatcher m) (um_bootstrapIPs m), p)
  end.

Definition SetProxyAddrResolver (m : UpstreamManager) (resolver : option (string -> string))
    : UpstreamManager :=
  mkManager (um_instances m) (um_upstreams m) (um_upstreamsByID m) resolver (um_dispatcher m)
    (um_bootstrapIPs m).

Definition SetDispatcher (m : UpstreamManager) (d : bool) : UpstreamManager :=
  mkManager (um_instances m) (um_upstreams m) (um_upstreamsByID m) (um_proxyAddrResolver m) d
    (um_bootstrapIPs m).

Definition SetBootstrapIPs (m : UpstreamManager) (ips : gmap string string) : UpstreamManager :=
  mkManager (um_instances m) (um_upstreams m) (um_upstreamsByID m) (um_proxyAddrResolver m)
    (um_dispatcher m) ips.

Definition ListUpstreams (m : UpstreamManager) : list nat := map snd (map_to_list (um_upstreams m)).

(** The address that is dialled for an https upstream. *)
Definition dialTarget (m : UpstreamManager) (addr : string) : string :=
  match SplitHostPort addr with
  | Err _ => addr
  | Ok (host, port) =>
    match um_bootstrapIPs m !! host with
    | Some ip => if negb (String.eqb ip "") then JoinHostPort ip port else addr
    | None => addr
    end
  end.

Section Health.
Context `{Miekg} `{Env}.

Definition pingUpstream (u : UpstreamInstance) : IO bool :=
  match ui_Client u with
  | None => ret false
  | Some net =>
    let! id := new_id in
    let msg := SetQuestion id new_Msg "." TypeSOA in
    let msg := set_RecursionDesired msg true in
    let! x := client_exchange net "" msg (ui_Addr u) in
    ret (negb (is_some (x_err x)))
  end.

Definition set_Healthy (u : UpstreamInstance) (b : bool) : UpstreamInstance :=
  mkInstance (ui_ID u) (ui_Addr u) (ui_Protocol u) (ui_ProxyTag u) (ui_Client u) b
    (ui_Bootstrap u) (ui_ServerName u).

(** The two loops over the map; Go leaves their order open, so it is the
    argument [order], the entries of the map in the order they are visited.
    [wanted] selects the instances that are checked. *)
Fixpoint health_loop (wanted : UpstreamInstance -> bool) (order : list (string * nat))
    (insts : list UpstreamInstance) (results : gmap string bool)
    : IO (list UpstreamInstance * gmap string bool) :=
  match order with
  | [] => ret (insts, results)
  | (key, p) :: rest =>
    match insts !! p with
    | None => ret (insts, results)
    | Some u =>
      if wanted u then
        let! healthy := pingUpstream u in
        health_loop wanted rest (<[p := set_Healthy u healthy]> insts) (<[key := healthy]> results)
      else health_loop wanted rest insts results
    end
  end.

Definition health_check (wanted : UpstreamInstance -> bool) (order : list (string * nat))
    (m : UpstreamManager) : IO (UpstreamManager * gmap string bool) :=
  let! r := health_loop wanted order (um_instances m) ∅ in
  ret (mkManager (fst r) (um_upstreams m) (um_upstreamsByID m) (um_proxyAddrResolver m)
         (um_dispatcher m) (um_bootstrapIPs m), snd r).

Definition HealthCheck (order : list (string * nat)) (m : UpstreamManager)
    : IO (UpstreamManager * gmap string bool) := health_check (fun _ => true) order m.

Definition HealthCheckByProxyTag (proxyTag : string) (order : list (string * nat))
    (m : UpstreamManager) : IO (UpstreamManager * gmap string bool) :=
  health_check (fun u => String.eqb (ui_ProxyTag u) proxyTag) order m.

End Health.

(** ** Properties *)

(** The last configuration that satisfies [P]. *)
Definition last_cfg (P : UpstreamConfig -> bool) (cs : list UpstreamConfig) : option UpstreamConfig :=
  last (List.filter P cs).

Lemma last_cfg_snoc P cs c :
  last_cfg P (cs ++ [c]) = if P c then Some c else last_cfg P cs.
Proof.
  unfold last_cfg. rewrite List.filter_app. simpl. destruct (P c); [by rewrite last_snoc|].
  by rewrite app_nil_r.
Qed.

Definition has_id (id : string) (c : UpstreamConfig) : bool := String.eqb (effective_id c) id.
Definition has_key (key : string) (c : UpstreamConfig) : bool :=
  String.eqb (BuildUpstreamKey (uc_Addr c) (effective_tag c)) key.

(** A pointer to the instance of the configuration found, or nothing. *)
Definition points_to (insts : list UpstreamInstance) (p : option nat) (c : option UpstreamConfig)
    : Prop :=
  match c with
  | Some c => exists i, p = Some i /\ insts !! i = Some (instance_of c)
  | None => p = None
  end.

Lemma points_to_snoc insts p c u : points_to insts p c -> points_to (insts ++ [u]) p c.
Proof.
  destruct c as [c|]; [|done]. intros (i & -> & Hi). exists i. split; [done|].
  by apply lookup_app_l_Some.
Qed.

Lemma NewUpstreamManager_snoc cs c :
  NewUpstreamManager (cs ++ [c]) = add_instance (NewUpstreamManager cs) (instance_of c).
Proof. unfold NewUpstreamManager. by rewrite foldl_app. Qed.

Lemma manager_index cs :
  (forall id, points_to (um_instances (NewUpstreamManager cs))
     (um_upstreamsByID (NewUpstreamManager cs) !! id) (last_cfg (has_id id) cs)) /\
  (forall key, points_to (um_instances (NewUpstreamManager cs))
     (um_upstreams (NewUpstreamManager cs) !! key) (last_cfg (has_key key) cs)).
Proof.
  induction cs as [|c cs [IH1 IH2]] using rev_ind; [done|].
  rewrite NewUpstreamManager_snoc. set (m := NewUpstreamManager cs) in *.
  cbn [add_instance um_instances um_upstreams um_upstreamsByID]. split.
  - intros id. rewrite last_cfg_snoc. unfold has_id at 1. cbn [instance_of ui_ID].
    destruct (String.eqb_spec (effective_id c) id) as [<-|Hne].
    + exists (length (um_instances m)). by rewrite lookup_insert_eq, list_lookup_middle.
    + rewrite lookup_insert_ne by done. by apply points_to_snoc.
  - intros key. rewrite last_cfg_snoc. unfold has_key at 1. unfold CompositeKey.
    cbn [instance_of ui_Addr ui_ProxyTag].
    destruct (String.eqb_spec (BuildUpstreamKey (uc_Addr c) (effective_tag c)) key) as [<-|Hne].
    + exists (length (um_instances m)). by rewrite lookup_insert_eq, list_lookup_middle.
    + rewrite lookup_insert_ne by done. by apply points_to_snoc.
Qed.

(** Distinct address and tag pairs have distinct keys, as long as no address
    contains the separator. *)
Lemma BuildUpstreamKey_inj a t a' t' :
  has_byte "|"%char a = false -> has_byte "|"%char a' = false ->
  BuildUpstreamKey a t = BuildUpstreamKey a' t' -> a = a' /\ t = t'.
Proof.
  unfold BuildUpstreamKey. revert a'. induction a as [|x a IH]; intros [|y a'] Ha Ha' Heq.
  - rewrite !s_app_nil in Heq. change ("|" +:+ t) with (String "|"%char t) in Heq.
    change ("|" +:+ t') with (String "|"%char t') in Heq. split; congruence.
  - rewrite s_app_nil, s_app_cons in Heq. change ("|" +:+ t) with (String "|"%char t) in Heq.
    injection Heq as <- _. simpl in Ha'. done.
  - rewrite s_app_nil, s_app_cons in Heq. change ("|" +:+ t') with (String "|"%char t') in Heq.
    injection Heq as -> _. simpl in Ha. done.
  - rewrite !s_app_cons in Heq. injection Heq as -> Heq.
    simpl in Ha, Ha'. apply orb_false_iff in Ha as [_ Ha], Ha' as [_ Ha'].
    destruct (IH _ Ha Ha' Heq) as [-> ->]. done.
Qed.

(** After construction an id leads to the instance of the last
    configuration with that id (the address stands in for a missing id), a
    composite key to the instance of the last configuration with that address and
    channel, with the defaults filled in; [GetUpstream] falls back to keys only
    for ids that no configuration has. *)
Theorem manager_lookup_last_wins (cs : list UpstreamConfig) (id key : string) :
  let m := NewUpstreamManager cs in
  points_to (um_instances m) (GetUpstreamByKey m key) (last_cfg (has_key key) cs) /\
  points_to (um_instances m) (GetUpstream m id)
    (match last_cfg (has_id id) cs with Some c => Some c | None => last_cfg (has_key id) cs end).
Proof.
  cbv zeta. destruct (manager_index cs) as [H1 H2]. split; [apply H2|].
  specialize (H1 id). specialize (H2 id). unfold GetUpstream.
  destruct (last_cfg (has_id id) cs) as [c|]; cbn [points_to] in *.
  - destruct H1 as (i & -> & Hi). eauto.
  - by rewrite H1.
Qed.

(** [GetOrCreateUpstream] returns the instance the key already
    has, or a new one that every later lookup of the key and of the id finds; a
    second call with the same configuration changes nothing and returns the same
    pointer. The new instance keeps no TLS server name, whatever was configured. *)
Theorem get_or_create_idempotent (m : UpstreamManager) (c : UpstreamConfig) :
  let '(m', p) := GetOrCreateUpstream m c in
  let key := BuildUpstreamKey (uc_Addr c) (effective_tag c) in
  GetUpstreamByKey m' key = Some p /\
  GetOrCreateUpstream m' c = (m', p) /\
  (forall i u, um_instances m !! i = Some u -> um_instances m' !! i = Some u) /\
  match GetUpstreamByKey m key with
  | Some q => m' = m /\ p = q
  | None => GetUpstream m' (effective_id c) = Some p /\
      exists u, um_instances m' !! p = Some u /\ CompositeKey u = key /\ ui_ServerName u = ""
  end.
Proof.
  unfold GetOrCreateUpstream at 1, GetUpstreamByKey.
  destruct (um_upstreams m !! _) as [q|] eqn:E.
  - split_and!; try done. unfold GetOrCreateUpstream. by rewrite E.
  - cbn [um_upstreams um_instances]. rewrite lookup_insert_eq. split_and!; [done| | | |].
    + unfold GetOrCreateUpstream. cbn [um_upstreams]. by rewrite lookup_insert_eq.
    + intros i u Hi. by apply lookup_app_l_Some.
    + unfold GetUpstream. cbn. by rewrite lookup_insert_eq.
    + eexists. rewrite list_lookup_middle by done. by split_and!.
Qed.

Section HealthProps.
Context `{Miekg} `{Env}.

(** What one pass leaves: the checked instances have the flag that is reported. *)
Lemma health_loop_spec wanted order : forall insts results w insts' results' w' t,
  NoDup (map fst order) -> NoDup (map snd order) ->
  Forall (fun kp => is_Some (insts !! snd kp)) order ->
  health_loop wanted order insts results w = ((insts', results'), w', t) ->
  (forall k p u, (k, p) ∈ order -> insts !! p = Some u ->
     if wanted u then exists b, results' !! k = Some b /\ insts' !! p = Some (set_Healthy u b)
     else results' !! k = results !! k /\ insts' !! p = Some u) /\
  (forall p, p ∉ map snd order -> insts' !! p = insts !! p) /\
  (forall k, k ∉ map fst order -> results' !! k = results !! k).
Proof.
  induction order as [|[key q] order IH]; intros insts results w insts' results' w' t Hk Hp Hl Hr;
    cbn [health_loop] in Hr.
  { injection Hr as <- <- <- <-. split_and!; try done. by intros ? ? ? ?%elem_of_nil. }
  cbn [map fst snd] in Hk, Hp. apply NoDup_cons in Hk as [Hk1 Hk2], Hp as [Hp1 Hp2].
  apply Forall_cons in Hl as [[u0 Hu0] Hl]. cbn [snd] in Hu0. rewrite Hu0 in Hr.
  assert (forall k p, (k, p) ∈ order -> k <> key /\ p <> q) as Hneq.
  { intros k p Hin. split; intros ->; [apply Hk1|apply Hp1];
      apply list_elem_of_fmap; eexists; (split; [|exact Hin]); done. }
  destruct (wanted u0) eqn:Hw.
  - unfold bind in Hr at 1. destruct (pingUpstream u0 w) as [[b w1] t1].
    destruct (health_loop _ _ _ _ w1) as [[[i2 r2] w2] t2] eqn:Hr2. injection Hr as <- <- <- <-.
    apply IH in Hr2; [|done|done|].
    2: { eapply Forall_impl; [exact Hl|]. intros [k p] [u Hu]. cbn in *.
         destruct (decide (p = q)) as [->|Hne].
         - rewrite list_lookup_insert_eq; [by eexists|]. by eapply lookup_lt_Some.
         - rewrite list_lookup_insert_ne by done. by eexists. }
    destruct Hr2 as (H1 & H2 & H3).
    assert (q < length insts)%nat as Hlt by by eapply lookup_lt_Some.
    split_and!.
    + intros k p u [[= -> ->]|Hin]%elem_of_cons Hu.
      * simplify_eq. rewrite Hw. exists b. rewrite H3, lookup_insert_eq by done.
        by rewrite H2, list_lookup_insert_eq by done.
      * destruct (Hneq _ _ Hin) as [Hk' Hp']. specialize (H1 k p u Hin).
        rewrite list_lookup_insert_ne, lookup_insert_ne in H1 by done. by apply H1.
    + cbn [map snd]. intros p [Hp' Hin]%not_elem_of_cons. rewrite H2 by done.
      by rewrite list_lookup_insert_ne.
    + cbn [map fst]. intros k [Hk' Hin]%not_elem_of_cons. rewrite H3 by done.
      by rewrite lookup_insert_ne.
  - destruct (IH _ _ _ _ _ _ _ Hk2 Hp2 Hl Hr) as (H1 & H2 & H3). split_and!.
    + intros k p u [[= -> ->]|Hin]%elem_of_cons Hu; [|by apply H1].
      simplify_eq. rewrite Hw. by rewrite H3, H2 by done.
    + cbn [map snd]. intros p [Hp' Hin]%not_elem_of_cons. by apply H2.
    + cbn [map fst]. intros k [Hk' Hin]%not_elem_of_cons. by apply H3.
Qed.

End HealthProps.
