(* ===== verification/Exchange.v ===== *)
(** * Asking an upstream (core/dns/upstream_stub.go, doh.go)

    [Exchange] and the three ways a query can leave the process: a direct marked
    socket, a SOCKS5 proxy, the xray dispatcher; DNS over TCP framing, DNS over
    HTTPS.  Network outcomes come from the environment ([Net.Env]). *)

From S2P Require Import Prelude DnsMsg Validator DnsConfig NetIP Response Loop Net Upstream.

#[local] Open Scope Z_scope.
#[local] Open Scope go_scope.

Definition shouldAttachECS (clientIP : list Z) : bool :=
  negb (bool_decide (clientIP = [])) && IsGlobalUnicast clientIP && negb (IsPrivate clientIP) &&
  negb (IsLoopback clientIP) && negb (IsLinkLocalUnicast clientIP).

(** What an exchange yields: [None] is a panic, [Ok None] the nil response. *)
Abbreviation reply := (option (result (option DnsResponse))).

Section Exchange.
Context `{M : Miekg} `{E : Env}.
(** The loop token of this process. *)
Variable token : list Z.

(** ** The query sent upstream *)

(** The part the three exchanges share: question, EDNS0, token, client subnet. *)
Definition upstream_query (query : DnsQuery) : IO Msg :=
  let! id := new_id in
  let msg := SetQuestion id new_Msg (Fqdn (Name query)) (u16 (QType query)) in
  let msg := set_RecursionDesired msg true in
  let msg := SetEdns0 msg 4096 true in
  let msg := default msg (markOutgoing token (Some msg)) in
  ret (if shouldAttachECS (ClientIP query) then AddECSSubnet msg (ClientIP query) else msg).

(** ** DNS over TCP *)

Definition tcp_frame (packed : list Z) : list Z :=
  let n := Z.of_nat (length packed) in
  u8 (Z.shiftr n 8) :: u8 n :: packed.

Definition frame_length (hdr : list Z) : Z := Z.lor (Z.shiftl (nth_byte hdr 0) 8) (nth_byte hdr 1).

(** Write the query, read the length and the answer; [via] names the channel in
    the errors. *)
Definition tcp_roundtrip (via : string) (conn : Conn) (packed : list Z) : IO (result (list Z)) :=
  let! werr := conn_write conn (tcp_frame packed) in
  match werr with
  | Some err => ret (Err (Wrapf "dns write via %s: %w" [FStr via] err))
  | None =>
    try! hdr := read_full conn 2 or err => Wrapf "dns read length via %s: %w" [FStr via] err in
    let respLen := frame_length hdr in
    if (respLen <? 0) || (respLen >? 65535) then
      ret (Err (Errorf "dns invalid response length: %d" [FInt respLen]))
    else
      try! respData := read_full conn (Z.to_nat respLen)
        or err => Wrapf "dns read data via %s: %w" [FStr via] err in
      ret (Ok respData)
  end.

Definition unpack_answer (respData : list Z) : result Msg :=
  match Msg_Unpack respData with
  | Err err => Err (Wrapf "dns unpack: %w" [] err)
  | Ok m => Ok m
  end.

(** ** DNS over HTTPS *)

Definition StatusOK : Z := 200.

Definition failed (e : error) : exchanged := mkExchanged None 0 (Some e).

Definition exchangeDoH (upstream : UpstreamInstance) (msg : Msg) (dial : dialer) : IO exchanged :=
  match Msg_Pack msg with
  | Err err => ret (failed (Wrapf "dns pack: %w" [] err))
  | Ok packed =>
    let! start := now in
    let! resp := http_post dial (ui_Addr upstream) packed (MaxMsgSize + 1) in
    match resp with
    | Err err => ret (failed err)
    | Ok (status, body) =>
      if negb (status =? StatusOK) then
        ret (failed (Errorf "doh %s: HTTP %d" [FStr (ui_Addr upstream); FInt status]))
      else
        match body with
        | Err err => ret (failed err)
        | Ok body =>
          if Z.of_nat (length body) >? MaxMsgSize then
            ret (failed (Errorf "doh %s: response over %d bytes"
                           [FStr (ui_Addr upstream); FInt MaxMsgSize]))
          else
            match Msg_Unpack body with
            | Err err => ret (failed (Wrapf "dns unpack: %w" [] err))
            | Ok answer =>
              let! t := now in
              ret (mkExchanged (Some answer) (time_sub t start) None)
            end
        end
    end
  end.

(** ** Wrapping an answer

    Validation, the TTL loop and the response record, with the error texts of
    the caller. *)
Definition finish (invalid mismatch : string) (upstream : UpstreamInstance) (query : DnsQuery)
    (resp : Msg) (rtt : Z) : reply :=
  match ValidateResponse (Some resp) with
  | Err err => Some (Err (Wrapf invalid [] err))
  | Ok _ =>
    match ValidateQuestionMatch (Some resp) (Name query) (QType query) with
    | Err err => Some (Err (Wrapf mismatch [] err))
    | Ok _ =>
      ttl ← answer_ttl 0 (m_Answer resp);
      Some (Ok (Some (mkResponse query (Some resp) (m_Rcode resp) (m_Answer resp) (m_Ns resp)
                        (m_Extra resp) ttl (ui_Addr upstream) (ui_ProxyTag upstream) rtt false)))
    end
  end.

Definition finishDispatched (upstream : UpstreamInstance) (query : DnsQuery) (dnsResp : Msg)
    (rtt : Z) : reply :=
  finish "dns upstream: invalid dispatcher response: %w"
    "dns upstream: dispatcher question mismatch: %w" upstream query dnsResp rtt.

(** ** Direct *)

Definition retry_delay : Z := 100 * Millisecond.

(** The retry loop; [fuel] attempts are left, [last] is the outcome so far. *)
Fixpoint direct_attempts (fuel : nat) (attempt : Z) (upstream : UpstreamInstance)
    (protocol servername : string) (msg : Msg) (last : exchanged) : IO exchanged :=
  match fuel with
  | O => ret last
  | S fuel =>
    if String.eqb protocol "https" then
      let! x := exchangeDoH upstream msg DialDirect in
      if is_some (x_err x) then
        let! _ := sleep retry_delay in
        direct_attempts fuel (attempt + 1) upstream protocol servername msg x
      else ret x
    else
      let! _ := (if attempt >? 0 then sleep retry_delay else ret tt) in
      let! x := client_exchange protocol servername msg (ui_Addr upstream) in
      if is_some (x_err x) then
        direct_attempts fuel (attempt + 1) upstream protocol servername msg x
      else
        if match x_resp x with Some r => m_Truncated r | None => false end &&
           String.eqb protocol "udp"
        then
          let! y := client_exchange "tcp" "" msg (ui_Addr upstream) in
          if is_some (x_err y) then
            direct_attempts fuel (attempt + 1) upstream protocol servername msg y
          else ret y
        else ret x
  end.

Definition exchangeDirect (upstream : option UpstreamInstance) (query : DnsQuery) : IO reply :=
  match upstream with
  | None => ret (Some (Ok None))
  | Some upstream =>
    let! msg := upstream_query query in
    let protocol := if String.eqb (ui_Protocol upstream) "" then "udp" else ui_Protocol upstream in
    let servername :=
      if String.eqb protocol "tcp-tls" && negb (String.eqb (ui_ServerName upstream) "")
      then ui_ServerName upstream else "" in
    let! x := direct_attempts 2 0 upstream protocol servername msg (mkExchanged None 0 None) in
    match x_err x with
    | Some err => ret (Some (Err (Wrapf "dns upstream: exchange failed: %w" [] err)))
    | None =>
      match x_resp x with
      | None => ret (Some (Ok None))
      | Some resp =>
        ret (finish "dns upstream: invalid response: %w" "dns upstream: question mismatch: %w"
               upstream query resp (x_rtt x))
      end
    end
  end.

(** ** SOCKS5 *)

(** The connect request: address type, address, port. *)
Definition socks5_request (host : string) (port : Z) : list Z :=
  match ParseIP host with
  | Some ip =>
    match To4 ip with
    | Some ip4 => [5; 1; 0; 1] ++ ip4
    | None => [5; 1; 0; 4] ++ default [] (To16 ip)
    end
  | None => [5; 1; 0; 3] ++ [u8 (Z.of_nat (s_len host))] ++ codes host
  end ++ [u8 (Z.shiftr port 8); u8 port].

Definition socks5_target (targetAddr : string) : IO (string * Z) :=
  let '(host, portStr) :=
    match SplitHostPort targetAddr with Ok hp => hp | Err _ => (targetAddr, "53") end in
  let! p := lookup_port portStr in
  ret (host, default 53 p).

Definition exchangeViaSocks5 (proxyAddr targetAddr : string) (msg : Msg) : IO (result Msg) :=
  try! conn := dial_tcp proxyAddr or err => Wrapf "socks5 dial: %w" [] err in
  let! werr := conn_write conn [5; 1; 0] in
  match werr with
  | Some err => ret (Err (Wrapf "socks5 greeting: %w" [] err))
  | None =>
    try! buf := conn_read conn 2 or err => Wrapf "socks5 greeting response: %w" [] err in
    if negb (nth_byte buf 0 =? 5) then
      ret (Err (Errorf "socks5: invalid version: %d" [FInt (nth_byte buf 0)]))
    else
      let! target := socks5_target targetAddr in
      let! werr := conn_write conn (socks5_request (fst target) (snd target)) in
      match werr with
      | Some err => ret (Err (Wrapf "socks5 connect request: %w" [] err))
      | None =>
        try! respBuf := conn_read conn 256 or err => Wrapf "socks5 connect response: %w" [] err in
        if (length respBuf <? 2)%nat || negb (nth_byte respBuf 0 =? 5) ||
           negb (nth_byte respBuf 1 =? 0)
        then
          ret (Err (Errorf "socks5 connect failed: version=%d status=%d"
                      [FInt (nth_byte respBuf 0); FInt (nth_byte respBuf 1)]))
        else
          match Msg_Pack msg with
          | Err err => ret (Err (Wrapf "dns pack: %w" [] err))
          | Ok packed =>
            let! r := tcp_roundtrip "socks5" conn packed in
            ret (let? respData := r in unpack_answer respData)
          end
      end
  end.

Definition resolveProxyAddr (m : UpstreamManager) (proxyTag : string) : string :=
  let addr := match um_proxyAddrResolver m with Some f => f proxyTag | None => "" end in
  if negb (String.eqb addr "") then addr
  else if String.eqb proxyTag "proxy" then "127.0.0.1:1080" else "".

(** The network of the client that is used. *)
Definition getClientForProtocol (upstream : UpstreamInstance) (protocol : string) : option string :=
  match ui_Client upstream with
  | Some net => if String.eqb net protocol then Some net else newMarkedDnsClient protocol
  | None => newMarkedDnsClient protocol
  end.

Definition direct_fallback (upstream : UpstreamInstance) : UpstreamInstance :=
  mkInstance "" (ui_Addr upstream) "tcp" "direct" (getClientForProtocol upstream "tcp")
    false false "".

(** [exchange] is [Exchange], which the fallback calls again. *)
Definition exchangeViaProxy (exchange : UpstreamInstance -> DnsQuery -> IO reply)
    (m : UpstreamManager) (upstream : option UpstreamInstance) (query : DnsQuery) : IO reply :=
  match upstream with
  | None => ret (Some (Ok None))
  | Some upstream =>
    let proxyAddr := resolveProxyAddr m (ui_ProxyTag upstream) in
    if String.eqb proxyAddr "" then exchange (direct_fallback upstream) query
    else
      let! msg := upstream_query query in
      let wrap resp rtt :=
        finish "dns upstream: invalid proxy response: %w"
          "dns upstream: proxy question mismatch: %w" upstream query resp rtt in
      let! start := now in
      let! r := exchangeViaSocks5 proxyAddr (ui_Addr upstream) msg in
      let! t := now in
      match r with
      | Ok resp => ret (wrap resp (time_sub t start))
      | Err _ =>
        let! _ := sleep retry_delay in
        let! start := now in
        let! r := exchangeViaSocks5 proxyAddr (ui_Addr upstream) msg in
        let! t := now in
        match r with
        | Err err => ret (Some (Err (Wrapf "dns upstream: proxy exchange failed: %w" [] err)))
        | Ok resp => ret (wrap resp (time_sub t start))
        end
      end
  end.

(** ** The dispatcher *)

(** [dial]: one retry after a delay. *)
Definition dispatch_retry (addr tag : string) : IO (result Conn) :=
  let! r := dispatch addr tag in
  match r with
  | Ok conn => ret (Ok conn)
  | Err _ => let! _ := sleep retry_delay in dispatch addr tag
  end.

Definition tls_if_needed (upstream : UpstreamInstance) (conn : Conn) : IO (result Conn) :=
  if String.eqb (ui_Protocol upstream) "tcp-tls" then
    let serverName :=
      if String.eqb (ui_ServerName upstream) "" then
        match SplitHostPort (ui_Addr upstream) with Ok (host, _) => host | Err _ => "" end
      else ui_ServerName upstream in
    tls_over conn serverName
  else ret (Ok conn).

Definition exchangeViaDispatcher (m : UpstreamManager) (upstream : option UpstreamInstance)
    (query : DnsQuery) : IO reply :=
  match upstream with
  | None => ret (Some (Ok None))
  | Some upstream =>
    if negb (um_dispatcher m) then ret (Some (Ok None))
    else
      let! msg := upstream_query query in
      if String.eqb (ui_Protocol upstream) "https" then
        let! x := exchangeDoH upstream msg (DialDispatch (ui_ProxyTag upstream)) in
        match x_err x, x_resp x with
        | Some err, _ => ret (Some (Err (Wrapf "dns upstream: doh via dispatcher: %w" [] err)))
        | None, Some resp => ret (finishDispatched upstream query resp (x_rtt x))
        | None, None =>
          ret (Some (Err (Wrapf "dns upstream: invalid dispatcher response: %w" []
                            (Errorf "dns validator: nil response message" []))))
        end
      else
        match Msg_Pack msg with
        | Err err => ret (Some (Err (Wrapf "dns pack: %w" [] err)))
        | Ok packed =>
          let! start := now in
          let! r := dispatch_retry (ui_Addr upstream) (ui_ProxyTag upstream) in
          match r with
          | Err err => ret (Some (Err (Wrapf "dns upstream: dispatcher retry failed: %w" [] err)))
          | Ok conn =>
            let! r := tls_if_needed upstream conn in
            match r with
            | Err err => ret (Some (Err (Wrapf "dns upstream: tls via dispatcher: %w" [] err)))
            | Ok conn =>
              let! r := tcp_roundtrip "dispatcher" conn packed in
              match r with
              | Err err => ret (Some (Err err))
              | Ok respData =>
                let! t := now in
                match unpack_answer respData with
                | Err err => ret (Some (Err err))
                | Ok dnsResp => ret (finishDispatched upstream query dnsResp (time_sub t start))
                end
              end
            end
          end
        end
  end.

(** ** Exchange

    [depth] bounds the nesting of [Exchange]: the fallback of the proxy calls it
    once more, with the tag "direct". *)
Fixpoint exchange_at (depth : nat) (m : UpstreamManager) (upstream : UpstreamInstance)
    (query : DnsQuery) : IO reply :=
  match depth with
  | O => ret panic
  | S depth =>
    if negb (String.eqb (ui_ProxyTag upstream) "") &&
       negb (String.eqb (ui_ProxyTag upstream) "direct")
    then
      if um_dispatcher m then exchangeViaDispatcher m (Some upstream) query
      else exchangeViaProxy (exchange_at depth m) m (Some upstream) query
    else exchangeDirect (Some upstream) query
  end.

Definition Exchange (m : UpstreamManager) (upstream : option UpstreamInstance) (query : DnsQuery)
    : IO reply :=
  match upstream with
  | None => ret (Some (Ok None))
  | Some upstream => exchange_at 2 m upstream query
  end.

(** ** Raw exchanges *)

Definition exchangeWithProtocol (upstream : UpstreamInstance) (msg : Msg) (protocol : string)
    : IO exchanged :=
  match getClientForProtocol upstream protocol with
  | None => ret (failed (Errorf "failed to create DNS client for %s" [FStr protocol]))
  | Some net => client_exchange net "" msg (ui_Addr upstream)
  end.

Definition ExchangeRaw (upstream : option UpstreamInstance) (msg : option Msg) : IO exchanged :=
  match upstream, msg with
  | None, _ => ret (failed (Errorf "dns upstream: nil upstream" []))
  | _, None => ret (failed (Errorf "dns upstream: nil message" []))
  | Some upstream, Some msg =>
    let protocol := if String.eqb (ui_Protocol upstream) "" then "udp" else ui_Protocol upstream in
    let msg := default msg (markOutgoing token (Some msg)) in
    let! x := client_exchange (default "" (getClientForProtocol upstream protocol)) "" msg
                (ui_Addr upstream) in
    match x_err x with
    | Some err =>
      ret (mkExchanged None (x_rtt x) (Some (Wrapf "dns upstream: exchange raw: %w" [] err)))
    | None =>
      if match x_resp x with Some r => m_Truncated r | None => false end && String.eqb protocol "udp"
      then
        let! y := client_exchange (default "" (getClientForProtocol upstream "tcp")) "" msg
                    (ui_Addr upstream) in
        match x_err y with
        | Some err =>
          ret (mkExchanged None (x_rtt y)
                 (Some (Wrapf "dns upstream: exchange raw tcp fallback: %w" [] err)))
        | None => ret y
        end
      else ret x
    end
  end.

End Exchange.
