(* ===== verification/ExchangeProps.v ===== *)
(** * What an exchange with an upstream guarantees

    For every behaviour of the network: what is sent, over which channel, how
    much of it, and what an accepted answer looks like. *)

From S2P Require Import Prelude DnsMsg Validator DnsConfig NetIP Response Loop Net Upstream.
From S2P Require Import Exchange.

#[local] Open Scope Z_scope.
#[local] Open Scope go_scope.

Section IOLemmas.
Context `{E : Env}.

Lemma safe_any {A B} P (Q : B -> Prop) (c : IO A) (k : A -> IO B) :
  safe P (fun _ => True) c -> (forall a, safe P Q (k a)) -> safe P Q (bind c k).
Proof. intros Hc Hk. eapply safe_bind; [exact Hc|]. auto. Qed.

Lemma safe_op {A} P f (t : list event) : Forall P t -> safe P (fun _ : A => True) (lift f t).
Proof. intros Ht. by apply safe_lift. Qed.

(** [at_most n c]: [c] makes at most [n] requests, whatever the world does. *)
Definition at_most {A} (n : nat) (c : IO A) : Prop :=
  forall w a w' t, c w = (a, w', t) -> (length t <= n)%nat.

Lemma at_most_ret {A} n (a : A) : at_most n (ret a).
Proof. intros w a' w' t [= <- <- <-]. simpl. lia. Qed.

Lemma at_most_lift {A} n f t : (length t <= n)%nat -> at_most n (lift (A := A) f t).
Proof. intros Ht w a w' t'. unfold lift. destruct (f w). by intros [= <- <- <-]. Qed.

Lemma at_most_bind {A B} n n' (c : IO A) (k : A -> IO B) :
  at_most n c -> (forall a, at_most n' (k a)) -> at_most (n + n') (bind c k).
Proof.
  intros Hc Hk w b w' t. unfold bind.
  destruct (c w) as [[a w1] t1] eqn:E1. destruct (k a w1) as [[b' w2] t2] eqn:E2.
  intros [= <- <- <-]. rewrite length_app. apply Hc in E1. apply Hk in E2. lia.
Qed.

Lemma at_most_weaken {A} n n' (c : IO A) : (n <= n')%nat -> at_most n c -> at_most n' c.
Proof. intros Hn Hc w a w' t H. apply Hc in H. lia. Qed.

(** A request-free operation, and one request, in front of [k]. *)
Lemma at_most_free {A B} n f (k : A -> IO B) :
  (forall a, at_most n (k a)) -> at_most n (bind (lift f []) k).
Proof. intros Hk. apply (at_most_bind 0 n); [by apply at_most_lift|done]. Qed.

Lemma at_most_one {A B} n f e (k : A -> IO B) :
  (forall a, at_most n (k a)) -> at_most (S n) (bind (lift f [e]) k).
Proof. intros Hk. apply (at_most_bind 1 n); [by apply at_most_lift|done]. Qed.

End IOLemmas.

(** Count the requests of a computation in the monad. *)
Ltac count :=
  repeat first
    [ apply at_most_ret
    | apply at_most_free; intros ?
    | apply at_most_one; intros ?
    | apply at_most_lift; simpl; lia
    | case_match ].

Section Props.
Context `{ML : MiekgLaws} `{E : Env}.
Variable token : list Z.
Variable q : DnsQuery.

(** The message sent upstream for [q]. *)
Definition sent_query (msg : Msg) : Prop :=
  m_Question msg = [mkQuestion (Fqdn (Name q)) (u16 (QType q)) ClassINET] /\
  opt_count (m_Extra msg) = 1%nat /\
  exists i h, OPT_Do h = true /\
    find_opt msg = Some (i, h, EDNS0_LOCAL loopOptionCode token ::
      if shouldAttachECS (ClientIP q) then [ecs_option (ClientIP q)] else []).

Definition sent_wire (b : list Z) : Prop := exists msg, sent_query msg /\ Msg_Pack msg = Ok b.

Lemma find_opt_no_extra m : m_Extra m = [] -> find_opt m = None.
Proof.
  intros H. destruct (find_opt m) as [[[i h] o]|] eqn:Ef; [|done].
  apply find_opt_Some in Ef as (_ & Hl & _). by rewrite H in Hl.
Qed.

Lemma m_Question_put m i h o : m_Question (put_opt m i h o) = m_Question m.
Proof. by destruct m. Qed.

Lemma marked_base m h :
  m_Extra m = [] -> hdr_Rrtype h = TypeOPT ->
  markOutgoing token (Some (set_Extra m [Some (RR_OPT h [])])) =
  Some (set_Extra m [Some (RR_OPT h [EDNS0_LOCAL loopOptionCode token])]).
Proof.
  intros Hx Ht. pose proof (find_opt_append m h [] (find_opt_no_extra m Hx) Ht) as Hf.
  rewrite Hx in Hf. simpl in Hf. unfold markOutgoing. rewrite Hf. unfold put_opt.
  rewrite m_Extra_set. by destruct m.
Qed.

Lemma base_ok m h o :
  m_Extra m = [] -> hdr_Rrtype h = TypeOPT ->
  find_opt (set_Extra m [Some (RR_OPT h o)]) = Some (0%nat, h, o) /\
  opt_count (m_Extra (set_Extra m [Some (RR_OPT h o)])) = 1%nat.
Proof.
  intros Hx Ht. pose proof (find_opt_append m h o (find_opt_no_extra m Hx) Ht) as Hf.
  rewrite Hx in Hf. split; [done|]. rewrite m_Extra_set. unfold opt_count. simpl. by rewrite Ht.
Qed.

Lemma upstream_query_ok : safe (fun _ => False) sent_query (upstream_query token q).
Proof.
  unfold upstream_query. apply safe_any; [by apply safe_op|]. intros mid. apply safe_ret.
  rewrite SetQuestion_spec.
  set (m0 := set_RecursionDesired (set_RecursionDesired _ _) _).
  assert (m_Extra m0 = []) as Hx by done.
  destruct (SetEdns0_spec m0 4096 true) as (h & -> & Ht & Hd & _). rewrite Hx. cbn [app].
  rewrite (marked_base m0 h Hx Ht). cbn [default from_option id].
  destruct (base_ok m0 h [EDNS0_LOCAL loopOptionCode token] Hx Ht) as [Hf Hc].
  set (m1 := set_Extra m0 _) in *.
  assert (m_Question m1 = [mkQuestion (Fqdn (Name q)) (u16 (QType q)) ClassINET]) as Hq by done.
  destruct (shouldAttachECS (ClientIP q)) eqn:Hecs; unfold sent_query; rewrite Hecs.
  - unfold AddECSSubnet. destruct (ClientIP q) as [|b bs] eqn:Hip; [done|]. rewrite <-Hip.
    unfold AddEDNS0. rewrite Hf.
    destruct (OPT_SetUDPSize_spec h 4096 ltac:(unfold is_u16; lia)) as (_ & H2 & H3).
    split_and!; [by rewrite m_Question_put| |].
    + rewrite (opt_count_put _ _ _ _ _ _ Hf) by congruence. by rewrite Hc.
    + exists 0%nat, (OPT_SetUDPSize h 4096). rewrite (find_opt_put _ _ _ _ _ _ Hf) by congruence.
      split; [congruence|]. by rewrite Hip.
  - split_and!; [done|done|]. by exists 0%nat, h.
Qed.

(** An accepted answer: a valid response to this very question, and its
    contents in the module's record. *)
Definition answers (addr tag : string) (resp : DnsResponse) : Prop :=
  exists raw, resp_RawMsg resp = Some raw /\ valid_response raw /\
    (exists x rest, m_Question raw = x :: rest /\ q_Name x = Fqdn (Name q) /\
       q_Qtype x = u16 (QType q)) /\
    resp_Query resp = q /\ resp_Rcode resp = m_Rcode raw /\ resp_Answer resp = m_Answer raw /\
    resp_Authority resp = m_Ns raw /\ resp_Additional resp = m_Extra raw /\
    answer_ttl 0 (m_Answer raw) = Some (resp_TTL resp) /\
    resp_Upstream resp = addr /\ resp_ProxyTag resp = tag /\ resp_Cached resp = false.

(** No panic, and a response only of that kind. *)
Definition outcome (addr tag : string) (r : reply) : Prop :=
  r <> None /\ forall resp, r = Some (Ok (Some resp)) -> answers addr tag resp.

Lemma outcome_err addr tag e : outcome addr tag (Some (Err e)).
Proof. split; naive_solver. Qed.

Lemma outcome_nil addr tag : outcome addr tag (Some (Ok None)).
Proof. split; naive_solver. Qed.

Lemma finish_ok inv mis up raw rtt :
  outcome (ui_Addr up) (ui_ProxyTag up) (finish inv mis up q raw rtt).
Proof.
  unfold finish. destruct (ValidateResponse (Some raw)) as [[]|] eqn:Hv; [|apply outcome_err].
  destruct (ValidateQuestionMatch _ _ _) as [[]|] eqn:Hq; [|apply outcome_err].
  apply ValidateResponse_valid in Hv. apply ValidateQuestionMatch_ok in Hq.
  destruct (answer_ttl 0 (m_Answer raw)) as [ttl|] eqn:Ht.
  - split; [done|]. intros resp [= <-]. exists raw. by split_and!.
  - exfalso. destruct (answer_ttl_is_Some 0 (m_Answer raw)) as [x Hx]; [|congruence].
    apply answer_rr_ok_no_nil. by destruct Hv.
Qed.

(** ** Channels *)

Inductive direct_event (addr : string) : event -> Prop :=
| de_exchange net sn msg : sent_query msg -> direct_event addr (EvExchange net sn msg addr)
| de_post b : sent_wire b -> direct_event addr (EvPost DialDirect addr b).

Inductive dispatch_event (addr tag : string) : event -> Prop :=
| ds_dial : dispatch_event addr tag (EvDispatch addr tag)
| ds_post b : sent_wire b -> dispatch_event addr tag (EvPost (DialDispatch tag) addr b)
| ds_query b : sent_wire b -> dispatch_event addr tag (EvWrite (tcp_frame b)).

Inductive socks_event (proxy : string) : event -> Prop :=
| so_dial : socks_event proxy (EvDial proxy)
| so_greet : socks_event proxy (EvWrite [5; 1; 0])
| so_connect host port : socks_event proxy (EvWrite (socks5_request host port))
| so_query b : sent_wire b -> socks_event proxy (EvWrite (tcp_frame b)).

#[local] Hint Constructors direct_event dispatch_event socks_event : core.
#[local] Hint Resolve outcome_err outcome_nil finish_ok : core.

Definition proxied (up : UpstreamInstance) : bool :=
  negb (String.eqb (ui_ProxyTag up) "") && negb (String.eqb (ui_ProxyTag up) "direct").

(** Where the requests for [q] to [up] may go. *)
Definition allowed (m : UpstreamManager) (up : UpstreamInstance) (e : event) : Prop :=
  if proxied up then
    if um_dispatcher m then dispatch_event (ui_Addr up) (ui_ProxyTag up) e
    else
      if String.eqb (resolveProxyAddr m (ui_ProxyTag up)) "" then direct_event (ui_Addr up) e
      else socks_event (resolveProxyAddr m (ui_ProxyTag up)) e
  else direct_event (ui_Addr up) e.

(** The tag of an answer: the upstream's, or "direct" after the fallback. *)
Definition answer_tag (m : UpstreamManager) (up : UpstreamInstance) : string :=
  if proxied up && negb (um_dispatcher m) &&
     String.eqb (resolveProxyAddr m (ui_ProxyTag up)) "" then "direct" else ui_ProxyTag up.

Lemma upstream_query_any {B} P (Q : B -> Prop) k :
  (forall msg, sent_query msg -> safe P Q (k msg)) -> safe P Q (bind (upstream_query token q) k).
Proof.
  intros Hk. eapply safe_bind; [|exact Hk]. eapply safe_weaken; [| |apply upstream_query_ok]; [done|].
  auto.
Qed.

Ltac io :=
  repeat first
    [ apply safe_ret; solve [done | eauto]
    | apply safe_any; [apply safe_op; solve [done | repeat constructor; eauto]|intros ?]
    | case_match ].

Lemma exchangeDoH_safe P up msg d :
  (forall b, Msg_Pack msg = Ok b -> P (EvPost d (ui_Addr up) b)) ->
  safe P (fun _ => True) (exchangeDoH up msg d).
Proof.
  intros HP. unfold exchangeDoH. destruct (Msg_Pack msg) as [b|]; [|by apply safe_ret].
  apply safe_any; [by apply safe_op|intros start].
  apply safe_any; [apply safe_op; constructor; auto|intros r]. io.
Qed.

Lemma direct_attempts_safe fuel attempt up protocol sn msg last :
  sent_query msg ->
  safe (direct_event (ui_Addr up)) (fun _ => True)
    (direct_attempts fuel attempt up protocol sn msg last).
Proof.
  intros Hm. revert attempt last. induction fuel as [|fuel IH]; intros attempt last;
    cbn [direct_attempts]; [by apply safe_ret|].
  destruct (String.eqb protocol "https").
  - apply safe_any; [apply exchangeDoH_safe; intros; constructor; by eexists|intros x].
    destruct (is_some (x_err x)); [|by apply safe_ret].
    apply safe_any; [by apply safe_op|intros _]. apply IH.
  - apply safe_any; [destruct (attempt >? 0); [by apply safe_op|by apply safe_ret]|intros _].
    apply safe_any; [apply safe_op, Forall_singleton; by constructor|intros x].
    destruct (is_some (x_err x)); [apply IH|].
    destruct (_ && _); [|by apply safe_ret].
    apply safe_any; [apply safe_op, Forall_singleton; by constructor|intros y].
    destruct (is_some (x_err y)); [apply IH|by apply safe_ret].
Qed.

Lemma exchangeDirect_safe up :
  safe (direct_event (ui_Addr up)) (outcome (ui_Addr up) (ui_ProxyTag up))
    (exchangeDirect token (Some up) q).
Proof.
  unfold exchangeDirect. apply upstream_query_any. intros msg Hm.
  apply safe_any; [by apply direct_attempts_safe|intros x].
  destruct (x_err x); [apply safe_ret; auto|]. destruct (x_resp x); apply safe_ret; auto.
Qed.

Lemma tcp_roundtrip_safe (P : event -> Prop) via conn b :
  P (EvWrite (tcp_frame b)) -> safe P (fun _ => True) (tcp_roundtrip via conn b).
Proof.
  intros HP. unfold tcp_roundtrip.
  apply safe_any; [apply safe_op; by repeat constructor|intros x]. io.
Qed.

Lemma exchangeViaSocks5_safe proxy target msg :
  sent_query msg -> safe (socks_event proxy) (fun _ => True) (exchangeViaSocks5 proxy target msg).
Proof.
  intros Hm. unfold exchangeViaSocks5, socks5_target. destruct (SplitHostPort target) as [[? ?]|]; io.
  all: apply safe_any;
    [apply safe_any; [by apply safe_op|intros ?; by apply safe_ret]|intros ?]; io.
  all: apply safe_any; [apply tcp_roundtrip_safe; constructor; by eexists|intros ?; by apply safe_ret].
Qed.

Lemma exchangeViaProxy_safe exchange m up :
  safe (direct_event (ui_Addr up)) (outcome (ui_Addr up) "direct")
    (exchange (direct_fallback up) q) ->
  safe (fun e => if String.eqb (resolveProxyAddr m (ui_ProxyTag up)) ""
                 then direct_event (ui_Addr up) e
                 else socks_event (resolveProxyAddr m (ui_ProxyTag up)) e)
    (outcome (ui_Addr up) (if String.eqb (resolveProxyAddr m (ui_ProxyTag up)) ""
                           then "direct" else ui_ProxyTag up))
    (exchangeViaProxy token exchange m (Some up) q).
Proof.
  intros Hd. unfold exchangeViaProxy. destruct (String.eqb _ "") eqn:Hp; [exact Hd|].
  apply upstream_query_any. intros msg Hm.
  apply safe_any; [by apply safe_op|intros start].
  apply safe_any; [by apply exchangeViaSocks5_safe|intros r].
  apply safe_any; [by apply safe_op|intros t].
  destruct r; [apply safe_ret; auto|].
  apply safe_any; [by apply safe_op|intros _].
  apply safe_any; [by apply safe_op|intros start2].
  apply safe_any; [by apply exchangeViaSocks5_safe|intros r].
  apply safe_any; [by apply safe_op|intros t2].
  destruct r; apply safe_ret; auto.
Qed.

Lemma exchangeViaDispatcher_safe m up :
  safe (dispatch_event (ui_Addr up) (ui_ProxyTag up)) (outcome (ui_Addr up) (ui_ProxyTag up))
    (exchangeViaDispatcher token m (Some up) q).
Proof.
  unfold exchangeViaDispatcher. destruct (negb _); [apply safe_ret; auto|].
  apply upstream_query_any. intros msg Hm.
  destruct (String.eqb (ui_Protocol up) "https").
  { apply safe_any; [apply exchangeDoH_safe; intros; constructor; by eexists|intros x].
    destruct (x_err x), (x_resp x); apply safe_ret; auto; apply finish_ok. }
  destruct (Msg_Pack msg) as [packed|] eqn:Hk; [|apply safe_ret; auto].
  apply safe_any; [by apply safe_op|intros start].
  apply safe_any; [unfold dispatch_retry|intros [conn|]; [|apply safe_ret; auto]].
  { apply safe_any; [apply safe_op, Forall_singleton; auto|intros [?|]; [by apply safe_ret|]].
    apply safe_any; [by apply safe_op|intros _]. apply safe_op, Forall_singleton; auto. }
  apply safe_any; [unfold tls_if_needed; case_match; [by apply safe_op|by apply safe_ret]|].
  intros [conn'|]; [|apply safe_ret; auto].
  apply safe_any; [apply tcp_roundtrip_safe; constructor; by eexists|].
  intros [data|]; [|apply safe_ret; auto].
  apply safe_any; [by apply safe_op|intros t].
  destruct (unpack_answer data); apply safe_ret; auto; apply finish_ok.
Qed.

Lemma exchange_safe m up :
  safe (allowed m up) (outcome (ui_Addr up) (answer_tag m up)) (Exchange token m (Some up) q).
Proof.
  unfold Exchange, allowed, answer_tag. cbn [exchange_at]. fold (proxied up).
  destruct (proxied up); [|apply exchangeDirect_safe]. cbn [andb].
  destruct (um_dispatcher m); cbn [negb andb]; [apply exchangeViaDispatcher_safe|].
  apply exchangeViaProxy_safe. apply (exchangeDirect_safe (direct_fallback up)).
Qed.

(** C32. Whatever the network does, [Exchange] does not panic, and a
    response it returns is a well-formed DNS response to the question asked (name
    and type), carried over unchanged with the least TTL of its answer, and
    attributed to the upstream and the channel used. *)
Theorem exchange_returns_validated_answer (m : UpstreamManager) (up : UpstreamInstance)
    (w w' : World) (r : reply) (t : list event) :
  Exchange token m (Some up) q w = (r, w', t) ->
  r <> None /\
  forall resp, r = Some (Ok (Some resp)) -> answers (ui_Addr up) (answer_tag m up) resp.
Proof. intros H. by apply exchange_safe in H as [H _]. Qed.


(** ** Bounds *)

Lemma at_most_query {B} n (k : Msg -> IO B) :
  (forall msg, at_most n (k msg)) -> at_most n (bind (upstream_query token q) k).
Proof.
  intros Hk. apply (at_most_bind 0 n); [|done]. unfold upstream_query, new_id. count.
Qed.

Lemma at_most_doh up msg d : at_most 1 (exchangeDoH up msg d).
Proof. unfold exchangeDoH, now, http_post. count. Qed.

(** The requests of one attempt: a truncated UDP answer is asked for again over
    TCP. *)
Definition per_attempt (protocol : string) : nat := if String.eqb protocol "udp" then 2 else 1.

Lemma at_most_attempts fuel : forall attempt up protocol sn msg last,
  at_most (per_attempt protocol * fuel) (direct_attempts fuel attempt up protocol sn msg last).
Proof.
  induction fuel as [|fuel IH]; intros; cbn [direct_attempts]; [rewrite Nat.mul_0_r; apply at_most_ret|].
  assert (per_attempt protocol * S fuel = 1 + (Nat.pred (per_attempt protocol) + per_attempt protocol * fuel))%nat as ->
    by (unfold per_attempt; case_match; lia).
  destruct (String.eqb_spec protocol "https") as [->|_].
  - apply at_most_bind; [apply at_most_doh|intros x]. case_match; [|apply at_most_ret].
    apply at_most_free. intros _. apply IH.
  - apply (at_most_bind 0); [case_match; [by apply at_most_lift|apply at_most_ret]|intros _].
    apply at_most_one. intros x.
    destruct (is_some (x_err x)); [eapply at_most_weaken; [|apply IH]; lia|].
    destruct (String.eqb_spec protocol "udp") as [->|_]; rewrite ?andb_false_r; [|apply at_most_ret].
    destruct (_ && _); [|apply at_most_ret]. apply at_most_one. intros y.
    destruct (is_some (x_err y)); [apply IH|apply at_most_ret].
Qed.

Definition direct_protocol (up : UpstreamInstance) : string :=
  if String.eqb (ui_Protocol up) "" then "udp" else ui_Protocol up.

Lemma at_most_direct up : at_most (per_attempt (direct_protocol up) * 2) (exchangeDirect token (Some up) q).
Proof.
  unfold exchangeDirect. apply at_most_query. intros msg. fold (direct_protocol up).
  rewrite <-(Nat.add_0_r (_ * 2)). apply at_most_bind; [apply (at_most_attempts 2)|intros x]. count.
Qed.

Lemma at_most_tcp via conn b : at_most 1 (tcp_roundtrip via conn b).
Proof. unfold tcp_roundtrip, conn_write, read_full. count. Qed.

Lemma at_most_socks5 proxy target msg : at_most 4 (exchangeViaSocks5 proxy target msg).
Proof.
  unfold exchangeViaSocks5. apply at_most_one. intros [conn|]; [|apply at_most_ret].
  apply at_most_one. intros [?|]; [apply at_most_ret|].
  apply at_most_free. intros [buf|]; [|apply at_most_ret]. case_match; [apply at_most_ret|].
  apply (at_most_bind 0 2); [unfold socks5_target, lookup_port; count|intros tgt].
  apply at_most_one. intros [?|]; [apply at_most_ret|].
  apply at_most_free. intros [rb|]; [|apply at_most_ret]. case_match; [apply at_most_ret|].
  case_match; [|apply at_most_ret]. apply (at_most_bind 1 0); [apply at_most_tcp|intros r]. count.
Qed.

Lemma at_most_dispatched m up :
  at_most (if String.eqb (ui_Protocol up) "https" then 1 else 3) (exchangeViaDispatcher token m (Some up) q).
Proof.
  unfold exchangeViaDispatcher. destruct (negb _); [apply at_most_ret|]. apply at_most_query. intros msg.
  destruct (String.eqb (ui_Protocol up) "https"); [apply (at_most_bind 1 0); [apply at_most_doh|intros x]; count|].
  case_match; [|apply at_most_ret]. apply at_most_free. intros start. apply (at_most_bind 2 1).
  { unfold dispatch_retry. apply at_most_one. intros [?|]; [apply at_most_ret|]. apply at_most_free. intros _. by apply at_most_lift. }
  intros [conn|]; [|apply at_most_ret]. apply (at_most_bind 0 1); [unfold tls_if_needed, tls_over; count|].
  intros [c2|]; [|apply at_most_ret]. apply (at_most_bind 1 0); [apply at_most_tcp|intros [d|]; [|apply at_most_ret]]. unfold now. count.
Qed.

(** The most requests one query may cause, by the channel of its upstream. *)
Definition most_requests (m : UpstreamManager) (up : UpstreamInstance) : nat :=
  if proxied up then
    if um_dispatcher m then (if String.eqb (ui_Protocol up) "https" then 1 else 3)
    else if String.eqb (resolveProxyAddr m (ui_ProxyTag up)) "" then 2 else 8
  else if String.eqb (ui_Protocol up) "" || String.eqb (ui_Protocol up) "udp" then 4 else 2.

Lemma at_most_exchange m up : at_most (most_requests m up) (Exchange token m (Some up) q).
Proof.
  unfold Exchange, most_requests. cbn [exchange_at]. fold (proxied up). destruct (proxied up).
  - destruct (um_dispatcher m); [apply at_most_dispatched|]. unfold exchangeViaProxy.
    destruct (String.eqb (resolveProxyAddr m (ui_ProxyTag up)) ""); [apply (at_most_direct (direct_fallback up))|].
    apply at_most_query. intros msg. apply at_most_free. intros start.
    apply (at_most_bind 4 4); [apply at_most_socks5|intros r]. apply at_most_free. intros t.
    case_match; [apply at_most_ret|]. apply at_most_free. intros _. apply at_most_free. intros s2.
    apply (at_most_bind 4 0); [apply at_most_socks5|intros r2]. unfold now. count.
  - eapply at_most_weaken; [|apply at_most_direct]. unfold per_attempt, direct_protocol.
    destruct (String.eqb_spec (ui_Protocol up) "") as [->|_]; [done|]. by destruct (String.eqb (ui_Protocol up) "udp").
Qed.

(** C40. [Exchange] always returns, and whatever the network does one query causes
    no more requests than its channel allows: a direct upstream is tried twice, over
    UDP with at most one repetition over TCP each time (4 requests), over another
    transport once each time (2); through the dispatcher there are at most two dials
    and one message (3), or one HTTPS request; through a SOCKS5 proxy at most two
    sessions of a dial, two handshake messages and one query (8), and without a proxy
    address two direct tries over TCP. *)
Theorem exchange_requests_bounded (m : UpstreamManager) (up : UpstreamInstance) (w : World) :
  exists r w' t, Exchange token m (Some up) q w = (r, w', t) /\ (length t <= most_requests m up)%nat.
Proof.
  destruct (Exchange token m (Some up) q w) as [[r w'] t] eqn:H. exists r, w', t. split; [done|].
  by eapply at_most_exchange.
Qed.

End Props.

(** The two-byte length prefix of DNS over TCP round-trips for every
    message of at most 65535 bytes. *)
Theorem tcp_frame_roundtrip (packed : list Z) :
  Z.of_nat (length packed) <= 65535 ->
  frame_length (take 2 (tcp_frame packed)) = Z.of_nat (length packed) /\
  drop 2 (tcp_frame packed) = packed.
Proof.
  intros Hn. split; [|done]. unfold tcp_frame, frame_length, nth_byte. cbn [take nth].
  set (n := Z.of_nat _) in *. assert (0 <= n) as H0 by (subst n; lia). clearbody n.
  unfold u8. rewrite (Z.mod_small (Z.shiftr n 8)).
  2: { rewrite Z.shiftr_div_pow2 by lia.
       split; [apply Z.div_pos; lia|apply Z.div_lt_upper_bound; lia]. }
  apply Z.bits_inj'. intros i Hi. rewrite Z.lor_spec. destruct (Z.lt_ge_cases i 8) as [Hl|Hg].
  - by rewrite Z.shiftl_spec_low, Z.mod_pow2_bits_low by lia.
  - rewrite Z.shiftl_spec_high, Z.shiftr_spec, Z.mod_pow2_bits_high by lia.
    rewrite orb_false_r. f_equal. lia.
Qed.

Lemma tcp_frame_roundtrip_witness :
  frame_length (take 2 (tcp_frame (repeat 7 300))) = 300 /\ drop 2 (tcp_frame (repeat 7 300)) = repeat 7 300.
Proof. apply (tcp_frame_roundtrip (repeat 7 300)). vm_compute. discriminate. Defined.

Section Examples.
#[local] Existing Instance Ref.miekg_ref.
#[local] Existing Instance Ref.miekg_ref_laws.
#[local] Existing Instance Script.script_env.

Definition ex_query : DnsQuery := mkQuery "example.com" TypeA 0 [203; 0; 113; 9] false.
Definition ex_raw : Msg :=
  set_Answer (set_Response (Ref.set_question 4242 new_Msg "example.com." TypeA) true)
    [Some (RR_A (mkHdr "example.com." TypeA ClassINET 300) [192; 0; 2; 1]);
     Some (RR_A (mkHdr "example.com." TypeA ClassINET 60) [192; 0; 2; 2])].
Definition ex_upstream : UpstreamInstance :=
  instance_of (mkUpstreamConfig "u" "9.9.9.9:53" "udp" "" false "").

(** The first attempt times out, the second is truncated and repeated over TCP. *)
Definition ex_world : Script.script :=
  Script.mkScript 1000
    [mkExchanged None 0 (Some Script.broken);
     mkExchanged (Some (set_TruncatedFlag ex_raw true)) 5 None;
     mkExchanged (Some ex_raw) 7 None] [] [] [].

Definition ex_run : reply * Script.script * list event :=
  @Exchange _ Script.script_env fixed_token (NewUpstreamManager []) (Some ex_upstream) ex_query
    ex_world.

Example ex_run_ttl :
  match fst (fst ex_run) with Some (Ok (Some r)) => (resp_TTL r, resp_RTT r) | _ => (0, 0) end
  = (60, 7).
Proof. vm_compute. reflexivity. Qed.

Lemma exchange_returns_validated_answer_witness :
  match fst (fst ex_run) with
  | Some (Ok (Some resp)) => answers ex_query "9.9.9.9:53" "direct" resp
  | _ => False
  end.
Proof.
  destruct ex_run as [[r w'] t] eqn:H.
  assert (match r with Some (Ok (Some _)) => True | _ => False end) as Hr
    by (change r with (fst (fst (r, w', t))); rewrite <-H; vm_compute; exact I).
  destruct (exchange_returns_validated_answer (E := Script.script_env) fixed_token ex_query (NewUpstreamManager [])
    ex_upstream ex_world w' r t H) as [_ Ha].
  cbn [fst]. destruct r as [[[resp|]|]|]; try destruct Hr. exact (Ha resp eq_refl).
Defined.


End Examples.
