(* ===== verification/Handler.v ===== *)
(** * The query handler (core/dns/handler.go)

    [HandleQuery] and its three actions on the state of the module, the
    prefetch that a cache hit may start, and the canned responses.  A handler
    runs as one step of the module; the prefetch it starts is a job that runs as
    a later step of its own.  [None] is a panic. *)

From S2P Require Import Prelude DnsMsg Validator DnsConfig NetIP Rule Router Response Loop Net.
From S2P Require Import Upstream Exchange Cache Metrics.

#[local] Open Scope Z_scope.
#[local] Open Scope go_scope.

Record DnsStats := mkDnsStats {
  ds_TotalQueries : Z;
  ds_RoutedQueries : gmap string Z;
  ds_RejectedQueries : Z;
  ds_BypassedQueries : Z;
  ds_CacheHits : Z;
  ds_CacheMisses : Z;
  ds_AvgRTT : Z;
  ds_StartedAt : Z;
}.

(** [updateAvgRTT]: int64 arithmetic, truncating division. *)
Definition updateAvgRTT (current sample count : Z) : Z :=
  if count <=? 1 then sample
  else i64 (Z.quot (i64 (current * i64 (count - 1))) count + Z.quot sample count).

Definition QueryTypeFromString (s : string) : result Z :=
  let s := TrimSpace s in
  let u := ToUpper s in
  if String.eqb u "A" then Ok TypeA
  else if String.eqb u "AAAA" then Ok TypeAAAA
  else if String.eqb u "CNAME" then Ok TypeCNAME
  else if String.eqb u "TXT" then Ok TypeTXT
  else if String.eqb u "MX" then Ok TypeMX
  else if String.eqb u "SRV" then Ok TypeSRV
  else if String.eqb u "NS" then Ok TypeNS
  else if String.eqb u "PTR" then Ok TypePTR
  else if String.eqb u "SOA" then Ok TypeSOA
  else Err (Errorf "unknown query type: %s" [FStr s]).

Section Handler.
Context `{M : Miekg} `{E : Env} `{RX : Regexp}.
Variable token : list Z.

(** The state of [DnsModule] the handler reads and writes. *)
Record DnsModule := mkModule {
  md_config : DnsModuleConfig;
  md_router : option Router;
  md_upstreamMgr : option UpstreamManager;
  md_cache : option DnsCache;
  md_stats : DnsStats;
  md_metrics : option DnsMetrics;
  md_dispatcher : bool;
  md_healthy : bool;
}.

Definition with_stats (md : DnsModule) (f : DnsStats -> DnsStats) : DnsModule :=
  mkModule (md_config md) (md_router md) (md_upstreamMgr md) (md_cache md) (f (md_stats md))
    (md_metrics md) (md_dispatcher md) (md_healthy md).
Definition with_metrics (md : DnsModule) (f : DnsMetrics -> DnsMetrics) : DnsModule :=
  mkModule (md_config md) (md_router md) (md_upstreamMgr md) (md_cache md) (md_stats md)
    (f <$> md_metrics md) (md_dispatcher md) (md_healthy md).
Definition with_cache (md : DnsModule) (c : DnsCache) : DnsModule :=
  mkModule (md_config md) (md_router md) (md_upstreamMgr md) (Some c) (md_stats md)
    (md_metrics md) (md_dispatcher md) (md_healthy md).

Definition count_query (s : DnsStats) : DnsStats :=
  mkDnsStats (incr (ds_TotalQueries s)) (ds_RoutedQueries s) (ds_RejectedQueries s)
    (ds_BypassedQueries s) (ds_CacheHits s) (ds_CacheMisses s) (ds_AvgRTT s) (ds_StartedAt s).
Definition count_rejected (s : DnsStats) : DnsStats :=
  mkDnsStats (ds_TotalQueries s) (ds_RoutedQueries s) (incr (ds_RejectedQueries s))
    (ds_BypassedQueries s) (ds_CacheHits s) (ds_CacheMisses s) (ds_AvgRTT s) (ds_StartedAt s).
Definition count_bypassed (s : DnsStats) : DnsStats :=
  mkDnsStats (ds_TotalQueries s) (ds_RoutedQueries s) (ds_RejectedQueries s)
    (incr (ds_BypassedQueries s)) (ds_CacheHits s) (ds_CacheMisses s) (ds_AvgRTT s)
    (ds_StartedAt s).
Definition count_hit (s : DnsStats) : DnsStats :=
  mkDnsStats (ds_TotalQueries s) (ds_RoutedQueries s) (ds_RejectedQueries s)
    (ds_BypassedQueries s) (incr (ds_CacheHits s)) (ds_CacheMisses s) (ds_AvgRTT s)
    (ds_StartedAt s).
Definition count_miss (s : DnsStats) : DnsStats :=
  mkDnsStats (ds_TotalQueries s) (ds_RoutedQueries s) (ds_RejectedQueries s)
    (ds_BypassedQueries s) (ds_CacheHits s) (incr (ds_CacheMisses s)) (ds_AvgRTT s)
    (ds_StartedAt s).
Definition count_routed (upstream : string) (s : DnsStats) : DnsStats :=
  mkDnsStats (ds_TotalQueries s) (bump (ds_RoutedQueries s) upstream) (ds_RejectedQueries s)
    (ds_BypassedQueries s) (ds_CacheHits s) (ds_CacheMisses s) (ds_AvgRTT s) (ds_StartedAt s).
Definition average_rtt (rtt : Z) (s : DnsStats) : DnsStats :=
  mkDnsStats (ds_TotalQueries s) (ds_RoutedQueries s) (ds_RejectedQueries s)
    (ds_BypassedQueries s) (ds_CacheHits s) (ds_CacheMisses s)
    (updateAvgRTT (ds_AvgRTT s) rtt (ds_TotalQueries s)) (ds_StartedAt s).

(** ** Canned responses *)

Definition buildStubResponse (id : Z) (query : DnsQuery) : DnsResponse :=
  let m := SetQuestion id new_Msg (Name query) (u16 (QType query)) in
  let m := set_Response m true in
  let m := set_RecursionAvailable m true in
  let m := set_Rcode m RcodeSuccess in
  mkResponse query (Some m) RcodeSuccess [] [] [] 0 "stub" "direct" 0 false.

Definition buildRefused (id : Z) (query : DnsQuery) : DnsResponse :=
  let m := SetQuestion id new_Msg (Name query) (u16 (QType query)) in
  let m := set_Response m true in
  let m := set_Rcode m RcodeRefused in
  mkResponse query (Some m) RcodeRefused [] [] [] 0 "" "" 0 false.

(** ** Upstream selection *)

Definition buildCacheKey (query : DnsQuery) (upstream : option UpstreamInstance) : CacheKey :=
  let proxyTag :=
    match upstream with
    | Some u => if negb (String.eqb (ui_ProxyTag u) "") then ui_ProxyTag u else "direct"
    | None => "direct"
    end in
  let upstreamAddr := match upstream with Some u => ui_Addr u | None => "" end in
  mkKey upstreamAddr proxyTag (Name query) (QType query).

(** The instance behind the pointer that [GetUpstream] returns. *)
Definition get_upstream (mgr : UpstreamManager) (id : string) : option UpstreamInstance :=
  p ← GetUpstream mgr id; um_instances mgr !! p.

(** By id, and by address when there is none. *)
Definition upstream_of_config (mgr : UpstreamManager) (u : UpstreamConfig)
    : option UpstreamInstance :=
  match get_upstream mgr (uc_ID u) with
  | Some x => Some x
  | None => get_upstream mgr (uc_Addr u)
  end.

(** The loop stops at the first configuration that is not for bootstrap. *)
Definition first_non_bootstrap (mgr : UpstreamManager) (ups : list UpstreamConfig)
    : option UpstreamInstance :=
  match List.find (fun u => negb (uc_Bootstrap u)) ups with
  | Some u => upstream_of_config mgr u
  | None => None
  end.

Definition requested_upstream (mgr : UpstreamManager) (id : string) : option UpstreamInstance :=
  if negb (String.eqb id "") then get_upstream mgr id else None.

Definition route_upstream (mgr : UpstreamManager) (ups : list UpstreamConfig) (id : string)
    : option UpstreamInstance :=
  match requested_upstream mgr id with
  | Some u => Some u
  | None =>
    match first_non_bootstrap mgr ups with
    | Some u => Some u
    | None => match ups with [] => None | u :: _ => upstream_of_config mgr u end
    end
  end.

Definition bypass_upstream (mgr : UpstreamManager) (ups : list UpstreamConfig) (id : string)
    : option UpstreamInstance :=
  match requested_upstream mgr id with
  | Some u => Some u
  | None => first_non_bootstrap mgr ups
  end.

(** ** Actions *)

(** A prefetch that has been started. *)
Record job := mkJob { job_upstream : UpstreamInstance; job_query : DnsQuery; job_key : CacheKey }.

(** The module after the handler, what it returns, and the jobs it starts. *)
Abbreviation handled := (option (DnsModule * result (option DnsResponse) * list job)).

Definition record_action (t : Z) (query : DnsQuery) (upstream action ruleID : string)
    (mx : DnsMetrics) : DnsMetrics :=
  let mx := RecordQuery t mx (QType query) upstream in
  let mx := RecordAction mx action in
  if negb (String.eqb ruleID "") then RecordRuleHit mx ruleID else mx.

Definition stub (md : DnsModule) (query : DnsQuery) : IO handled :=
  let! id := new_id in
  ret (Some (md, Ok (Some (buildStubResponse id query)), [])).

(** The part of [handleRoute] after a cache miss. *)
Definition route_fetch (md : DnsModule) (mgr : UpstreamManager) (query : DnsQuery)
    (upstream : UpstreamInstance) (upstreamID : string) (key : CacheKey) : IO handled :=
  let! start := now in
  let! r := Exchange token mgr (Some upstream) query in
  let! t := now in
  let rtt := time_sub t start in
  match r with
  | None => ret None
  | Some (Err err) =>
    let md := with_stats md (count_routed upstreamID) in
    let md := with_metrics md (fun mx => RecordError mx upstreamID) in
    ret (Some (md, Err (Wrapf "dns handler: upstream error: %w" [] err), []))
  | Some (Ok None) => stub md query
  | Some (Ok (Some resp)) =>
    let finish md :=
      let md := with_stats md (fun s => average_rtt rtt (count_routed upstreamID s)) in
      let md := with_metrics md (fun mx => RecordResponse mx (resp_Upstream resp) rtt) in
      ret (Some (md, Ok (Some resp), [])) in
    match md_cache md with
    | Some c =>
      if negb (IsBootstrap query) then
        let! t := now in
        match Set_ t c key (Some resp) (resp_TTL resp) with
        | None => ret None
        | Some c => finish (with_cache md c)
        end
      else finish md
    | None => finish md
    end
  end.

Definition handleRoute (md : DnsModule) (query : DnsQuery) (result : RouteResult) : IO handled :=
  let upstreamID := rr_UpstreamID result in
  match md_upstreamMgr md with
  | None => stub md query
  | Some mgr =>
    match route_upstream mgr (mc_Upstreams (md_config md)) upstreamID with
    | None => stub md query
    | Some upstream =>
      let key := buildCacheKey query (Some upstream) in
      let! t := now in
      let md := with_metrics md (record_action t query upstreamID "route" (rr_RuleID result)) in
      match md_cache md with
      | None => route_fetch md mgr query upstream upstreamID key
      | Some c =>
        let! t := now in
        match Get t c key with
        | None => ret None
        | Some (Some cached, c) =>
          let md := with_stats (with_cache md c) count_hit in
          let md := with_metrics md RecordCacheHit in
          let! t1 := now in
          let! t2 := now in
          if ShouldPrefetch t1 t2 c key then
            let md := with_cache md (SetPrefetching c key true) in
            ret (Some (md, Ok (Some cached), [mkJob upstream query key]))
          else ret (Some (md, Ok (Some cached), []))
        | Some (None, c) =>
          let md := with_stats (with_cache md c) count_miss in
          let md := with_metrics md RecordCacheMiss in
          route_fetch md mgr query upstream upstreamID key
        end
      end
    end
  end.

Definition handleReject (md : DnsModule) (query : DnsQuery) (result : RouteResult) : IO handled :=
  let md := with_stats md count_rejected in
  let! t := now in
  let md := with_metrics md (record_action t query "" "reject" (rr_RuleID result)) in
  let! id := new_id in
  ret (Some (md, Ok (Some (buildRefused id query)), [])).

Definition handleBypass (md : DnsModule) (query : DnsQuery) (result : RouteResult) : IO handled :=
  let md := with_stats md count_bypassed in
  match md_upstreamMgr md with
  | None => stub md query
  | Some mgr =>
    match bypass_upstream mgr (mc_Upstreams (md_config md)) (rr_UpstreamID result) with
    | None => stub md query
    | Some upstream =>
      let! t := now in
      let md := with_metrics md
                  (record_action t query (rr_UpstreamID result) "bypass" (rr_RuleID result)) in
      let! start := now in
      let! r := Exchange token mgr (Some upstream) query in
      let! t := now in
      let rtt := time_sub t start in
      match r with
      | None => ret None
      | Some (Err err) =>
        let md := with_metrics md (fun mx => RecordError mx (rr_UpstreamID result)) in
        ret (Some (md, Err (Wrapf "dns handler: bypass upstream error: %w" [] err), []))
      | Some (Ok None) => stub md query
      | Some (Ok (Some resp)) =>
        let md := with_stats md (fun s => average_rtt rtt (count_routed (ui_ID upstream) s)) in
        let md := with_metrics md (fun mx => RecordResponse mx (resp_Upstream resp) rtt) in
        ret (Some (md, Ok (Some resp), []))
      end
    end
  end.

(** [ctx_err] is the error of a context that is already done. *)
Definition HandleQuery (ctx_err : option error) (md : DnsModule) (query : DnsQuery) : IO handled :=
  match ctx_err with
  | Some err => ret (Some (md, Err (Wrapf "dns handler: context cancelled: %w" [] err), []))
  | None =>
    let md := with_stats md count_query in
    match match md_router md with
          | Some router => Route router query
          | None => Some (mkRouteResult "" "" "route" "" "single" "")
          end with
    | None => ret None
    | Some result =>
      if String.eqb (rr_Action result) "reject" then handleReject md query result
      else if String.eqb (rr_Action result) "bypass" then handleBypass md query result
      else handleRoute md query result
    end
  end.

(** A handler without a module answers with the stub. *)
Definition HandleQuery_no_module (query : DnsQuery) : IO DnsResponse :=
  let! id := new_id in ret (buildStubResponse id query).

(** ** Prefetch

    A job runs with the instance and the manager it was started with. *)
Definition prefetchAsync (md : DnsModule) (j : job) : IO (option DnsModule) :=
  match md_cache md, md_upstreamMgr md with
  | None, _ => ret None
  | Some c, None => ret (Some (with_cache md (SetPrefetching c (job_key j) false)))
  | Some c, Some mgr =>
    let md := with_metrics md RecordPrefetch in
    let! r := Exchange token mgr (Some (job_upstream j)) (job_query j) in
    match r with
    | None => ret None
    | Some (Err _) | Some (Ok None) =>
      let! t := now in
      ret (Some (with_cache md (RecordPrefetchFailure t c (job_key j))))
    | Some (Ok (Some resp)) =>
      let! t := now in
      match Set_ t c (job_key j) (Some resp) (resp_TTL resp) with
      | None => ret None
      | Some c => ret (Some (with_cache md (RecordPrefetchSuccess c (job_key j))))
      end
    end
  end.

End Handler.
