(* ===== verification/HandlerProps.v ===== *)
(** * Guarantees of the query handler

    The invariant of the running module (a consistent cache whose entries answer
    their own keys, a compiled router), its preservation by queries and prefetch
    jobs in any order, and what a client gets: no panic, an answer to its own
    question, refusals without traffic, hits without traffic. *)

From S2P Require Import Prelude DnsMsg Validator DnsConfig NetIP Rule Router Response Loop Net.
From S2P Require Import Upstream Exchange ExchangeProps Cache CacheSpec CacheProps Metrics.
From S2P Require Import Handler.

#[local] Open Scope Z_scope.
#[local] Open Scope go_scope.

(** ** Entries that answer their keys *)

Section Entries.
Context `{ML : MiekgLaws}.

(** [r] is an answer to a question for this name and type. *)
Definition answers_question (name : string) (qtype : Z) (r : DnsResponse) : Prop :=
  Name (resp_Query r) = name /\ QType (resp_Query r) = qtype /\
  exists raw x rest, resp_RawMsg r = Some raw /\ m_Response raw = true /\
    m_Question raw = x :: rest /\ (q_Name x = Fqdn name \/ q_Name x = name) /\
    q_Qtype x = u16 qtype.

Definition entry_good (k : CacheKey) (resp : option DnsResponse) : Prop :=
  storable resp /\ exists r, resp = Some r /\ resp_Upstream r = ck_UpstreamAddr k /\
    answers_question (ck_Name k) (ck_QType k) r.

Definition entries_good (l : list CacheEntry) : Prop :=
  Forall (fun e => entry_good (ce_Key e) (ce_Response e)) l.

Definition cache_good (c : DnsCache) : Prop := wf c /\ entries_good (abs c).

Lemma entries_good_storable l : entries_good l -> all_storable l.
Proof. intros H. eapply Forall_impl; [exact H|]. by intros e [? _]. Qed.

Lemma entries_good_lookup k l e :
  entries_good l -> LRU.lookup k l = Some e -> entry_good k (ce_Response e).
Proof.
  intros HF [<- Hin]%LRU.lookup_Some. unfold entries_good in HF. rewrite Forall_forall in HF. auto.
Qed.

Lemma entries_good_remove k l : entries_good l -> entries_good (LRU.remove k l).
Proof.
  unfold entries_good, LRU.remove. rewrite !Forall_forall.
  intros HF e [_ He]%list_elem_of_filter. auto.
Qed.

Lemma entries_good_on_entry k f l :
  entries_good l -> (forall e, ce_Response (f e) = ce_Response e) ->
  (forall e, ce_Key (f e) = ce_Key e) -> entries_good (on_entry k f l).
Proof.
  intros HF Hr Hk. unfold on_entry. destruct (LRU.lookup k l) as [e|] eqn:E; [|done].
  pose proof (entries_good_lookup _ _ _ HF E) as He. apply LRU.lookup_Some in E as [Hke _].
  unfold entries_good, LRU.replace. apply Forall_fmap. eapply Forall_impl; [exact HF|].
  intros e' He'. simpl. case_decide; [|done]. by rewrite Hr, Hk, Hke.
Qed.

Definition op_good (op : cache_op) : Prop :=
  match op with OpSet _ k resp _ => entry_good k resp | _ => True end.

Lemma step_spec_good config max l op :
  entries_good l -> op_good op -> entries_good (step_spec config max l op).
Proof.
  intros HF Ho. destruct op; simpl; try by apply entries_good_on_entry.
  - unfold LRU.get. destruct (LRU.lookup _ _) as [e|] eqn:E; [|done].
    case_match; simpl; [by apply entries_good_remove|].
    constructor; [|by apply entries_good_remove]. simpl.
    pose proof (entries_good_lookup _ _ _ HF E). apply LRU.lookup_Some in E as [-> _]. done.
  - unfold LRU.set. case_match; [done|]. destruct (LRU.lookup _ _) as [e|] eqn:E.
    + constructor; [|by apply entries_good_remove]. apply LRU.lookup_Some in E as [Hke _].
      cbn. by rewrite Hke.
    + assert (entries_good (entry_new now config key resp ttl :: l)) as Hc by by constructor.
      case_match; [|done]. rewrite removelast_firstn_len. by apply Forall_take.
  - by apply entries_good_remove.
  - constructor.
Qed.

(** Every operation that stores only good answers keeps a good cache good, and
    does not panic. *)
Lemma cache_good_step c op :
  cache_good c -> op_good op -> exists c', step_cache c op = Some c' /\ cache_good c'.
Proof.
  intros [Hw Hg] Ho.
  destruct (step_refines c op Hw (entries_good_storable _ Hg)) as (c' & Hs & Hw' & _ & Ha).
  exists c'. split; [done|]. split; [done|]. rewrite Ha. by apply step_spec_good.
Qed.

Lemma cache_good_new config : cache_good (NewDnsCache config).
Proof. destruct (NewDnsCache_wf config) as [Hw Ha]. split; [done|]. rewrite Ha. constructor. Qed.

Lemma copy_keeps_question r d minTTL r' :
  copyCachedResponse (Some r) d minTTL = Some r' ->
  resp_Query r' = resp_Query r /\ resp_Upstream r' = resp_Upstream r /\
  forall raw, resp_RawMsg r = Some raw -> exists raw', resp_RawMsg r' = Some raw' /\
    m_Question raw' = m_Question raw /\ m_Response raw' = m_Response raw.
Proof.
  unfold copyCachedResponse. intros H. apply bind_Some in H as (r0 & [= <-] & H).
  destruct (resp_RawMsg r) as [raw|] eqn:Er; cbv zeta in H;
    apply bind_Some in H as (a & _ & H); apply bind_Some in H as (n & _ & H);
    apply bind_Some in H as (x & _ & H); apply bind_Some in H as (t & _ & H);
    injection H as <-; (split; [done|]); (split; [done|]); [|done].
  intros raw0 [= <-]. eexists. split; [done|]. rewrite Msg_Copy_spec. by destruct raw.
Qed.

(** A lookup in a good cache: no panic, and a hit answers the key. *)
Lemma cache_good_get t c k :
  cache_good c ->
  exists o c', Get t c k = Some (o, c') /\ cache_good c' /\
    forall r, o = Some r -> answers_question (ck_Name k) (ck_QType k) r /\
      resp_Upstream r = ck_UpstreamAddr k.
Proof.
  intros Hc. destruct (cache_good_step c (OpGet t k) Hc I) as (c' & Hs & Hg).
  cbn [step_cache] in Hs. destruct (Get t c k) as [[o c1]|] eqn:HG; [|done].
  injection Hs as ->. exists o, c'. split; [done|]. split; [done|]. intros r ->.
  destruct Hc as [Hw He]. destruct (Get_refines t c k Hw) as (c2 & _ & _ & _ & Heq).
  rewrite HG in Heq. unfold LRU.get in Heq.
  destruct (LRU.lookup k (abs c)) as [e|] eqn:El; [|done]. destruct (t >? _); [done|].
  cbn [fst] in Heq. destruct (entries_good_lookup _ _ _ He El) as (_ & r0 & Hr0 & Hu & Hn & Hq & raw
    & x & rest & Hraw & Hresp & Hquest & Hname & Htype).
  rewrite Hr0 in Heq. destruct (copyCachedResponse (Some r0) _ _) as [r'|] eqn:Hcopy; [|done].
  injection Heq as <- _. destruct (copy_keeps_question _ _ _ _ Hcopy) as (H1 & H2 & H3).
  destruct (H3 raw Hraw) as (raw' & H4 & H5 & H6).
  split; [|congruence]. split; [congruence|]. split; [congruence|].
  exists raw', x, rest. split_and!; congruence || done.
Qed.

End Entries.

(** ** The module *)

Section Module.
Context `{ML : MiekgLaws} `{E : Env} `{RX : Regexp}.
Variable token : list Z.

Definition module_good (md : DnsModule) : Prop :=
  (forall c, md_cache md = Some c -> cache_good c) /\
  (forall r, md_router md = Some r -> exists f, reachable r f).

(** A job refreshes the entry of the query it was started for. *)
Definition job_good (md : DnsModule) (j : job) : Prop :=
  is_Some (md_cache md) /\ job_key j = buildCacheKey (job_query j) (Some (job_upstream j)).

(** What a handler may return for [q]. *)
Definition handled_good (q : DnsQuery) (had_cache : bool)
    (r : option (DnsModule * result (option DnsResponse) * list job)) : Prop :=
  exists md' res jobs, r = Some (md', res, jobs) /\ module_good md' /\
    is_some (md_cache md') = had_cache /\ Forall (job_good md') jobs /\
    res <> Ok None /\
    forall resp, res = Ok (Some resp) -> answers_question (Name q) (QType q) resp.

Lemma with_stats_good md f : module_good md -> module_good (with_stats md f).
Proof. done. Qed.
Lemma with_metrics_good md f : module_good md -> module_good (with_metrics md f).
Proof. done. Qed.
Lemma with_cache_good md c : module_good md -> cache_good c -> module_good (with_cache md c).
Proof. intros [_ H] Hc. split; [|done]. by intros c' [= <-]. Qed.
#[local] Hint Resolve with_stats_good with_metrics_good with_cache_good : core.

Lemma canned_answers q raw rc up tag id :
  raw = set_Question (set_Id new_Msg id) [mkQuestion (Name q) (u16 (QType q)) ClassINET] ->
  forall m, m_Question m = m_Question raw -> m_Response m = true ->
  answers_question (Name q) (QType q) (mkResponse q (Some m) rc [] [] [] 0 up tag 0 false).
Proof.
  intros -> m Hq Hr. split; [done|]. split; [done|].
  exists m, (mkQuestion (Name q) (u16 (QType q)) ClassINET), []. by split_and!; try right.
Qed.

Lemma stub_answers id q : answers_question (Name q) (QType q) (buildStubResponse id q).
Proof. eapply (canned_answers q _ _ _ _ id eq_refl); by rewrite SetQuestion_spec. Qed.

Lemma refused_answers id q : answers_question (Name q) (QType q) (buildRefused id q).
Proof. eapply (canned_answers q _ _ _ _ id eq_refl); by rewrite SetQuestion_spec. Qed.

(** What [Exchange] accepts may be cached under the key of the query. *)
Lemma exchange_entry_good up q tag resp :
  answers q (ui_Addr up) tag resp ->
  entry_good (buildCacheKey q (Some up)) (Some resp) /\ answers_question (Name q) (QType q) resp.
Proof.
  intros (raw & Hraw & Hv & (x & rest & Hq & Hn & Ht) & Hqq & Hrc & Ha & Hns & Hx & _ & Hu & _).
  assert (answers_question (Name q) (QType q) resp) as Haq.
  { split; [by rewrite Hqq|]. split; [by rewrite Hqq|]. exists raw, x, rest.
    split_and!; try done; [by destruct Hv|by left]. }
  split; [|done]. split; [|by exists resp].
  exists resp. split; [done|]. rewrite Hraw. destruct Hv. split_and!; eauto with go.
Qed.

Lemma stub_good md q :
  module_good md ->
  safe (fun _ => True) (handled_good q (is_some (md_cache md))) (stub md q).
Proof.
  intros Hg. unfold stub. apply safe_any; [by apply safe_op; repeat constructor|intros id].
  apply safe_ret. eexists _, _, _. split; [done|]. split_and!; try done.
  intros resp [= <-]. apply stub_answers.
Qed.

Lemma exchange_any {B} mgr up q (Q : B -> Prop) k :
  (forall r, outcome q (ui_Addr up) (answer_tag mgr up) r -> safe (fun _ => True) Q (k r)) ->
  safe (fun _ => True) Q (bind (Exchange token mgr (Some up) q) k).
Proof.
  intros Hk. eapply safe_bind; [|exact Hk]. eapply safe_weaken; [| |apply exchange_safe]; auto.
Qed.

Lemma error_good md md' q e :
  module_good md' -> is_some (md_cache md') = is_some (md_cache md) ->
  handled_good q (is_some (md_cache md)) (Some (md', Err e, [])).
Proof. intros Hg Hc. eexists _, _, _. by split_and!. Qed.

Lemma answer_good md md' q resp jobs :
  module_good md' -> is_some (md_cache md') = is_some (md_cache md) ->
  Forall (job_good md') jobs -> answers_question (Name q) (QType q) resp ->
  handled_good q (is_some (md_cache md)) (Some (md', Ok (Some resp), jobs)).
Proof.
  intros Hg Hc Hj Ha. eexists _, _, _. split_and!; try done. by intros r [= <-].
Qed.

Lemma route_fetch_good md mgr q up id :
  module_good md ->
  safe (fun _ => True) (handled_good q (is_some (md_cache md)))
    (route_fetch token md mgr q up id (buildCacheKey q (Some up))).
Proof.
  intros Hg. unfold route_fetch.
  apply safe_any; [by apply safe_op|intros start].
  apply exchange_any. intros r [Hp Ha].
  apply safe_any; [by apply safe_op|intros t].
  destruct r as [[[resp|]|err]|]; [| | |done].
  - destruct (exchange_entry_good up q _ resp (Ha resp eq_refl)) as [He Hq].
    destruct (md_cache md) as [c|] eqn:Hc.
    2: { apply safe_ret. rewrite <-Hc. apply answer_good; auto. }
    destruct (negb (IsBootstrap q)).
    2: { apply safe_ret. change true with (is_some (Some c)). rewrite <-Hc.
         apply answer_good; auto. }
    apply safe_any; [by apply safe_op|intros t2].
    destruct (cache_good_step c (OpSet t2 (buildCacheKey q (Some up)) (Some resp) (resp_TTL resp)))
      as (c' & Hs & Hc'); [by apply Hg|done|].
    cbn [step_cache] in Hs. rewrite Hs. apply safe_ret.
    change true with (is_some (Some c)). rewrite <-Hc. apply answer_good; auto; by rewrite Hc.
  - by apply stub_good.
  - apply safe_ret. by apply error_good.
Qed.

Lemma handleRoute_good md q res :
  module_good md ->
  safe (fun _ => True) (handled_good q (is_some (md_cache md))) (handleRoute token md q res).
Proof.
  intros Hg. unfold handleRoute.
  destruct (md_upstreamMgr md) as [mgr|]; [|by apply stub_good].
  destruct (route_upstream _ _ _) as [up|]; [|by apply stub_good].
  apply safe_any; [by apply safe_op|intros t]. set (md1 := with_metrics md _).
  change (md_cache md) with (md_cache md1). assert (module_good md1) as Hg1 by (by apply with_metrics_good).
  clearbody md1. destruct (md_cache md1) as [c|] eqn:Hc.
  2: { change false with (is_some (None (A := DnsCache))). rewrite <-Hc. by apply route_fetch_good. }
  apply safe_any; [by apply safe_op|intros t1].
  destruct (cache_good_get t1 c (buildCacheKey q (Some up))) as (o & c' & HG & Hgc & Ho);
    [by apply Hg1|]. rewrite HG. destruct o as [cached|].
  - destruct (Ho cached eq_refl) as [Haq _].
    apply safe_any; [by apply safe_op|intros t2]. apply safe_any; [by apply safe_op|intros t3].
    change (is_some (Some c)) with (is_some (Some c')).
    destruct (ShouldPrefetch _ _ _ _); apply safe_ret.
    + destruct (cache_good_step c' (OpSetPrefetching (buildCacheKey q (Some up)) true) Hgc I)
        as (c2 & [= <-] & Hc2).
      apply (answer_good (with_cache md1 c')); auto. constructor; [|constructor].
      split; [by eexists|done].
    + apply (answer_good (with_cache md1 c')); auto.
  - apply (route_fetch_good (with_metrics (with_stats (with_cache md1 c') count_miss) RecordCacheMiss)).
    auto.
Qed.

Lemma handleReject_good md q res :
  module_good md ->
  safe (fun _ => True) (handled_good q (is_some (md_cache md))) (handleReject md q res).
Proof.
  intros Hg. unfold handleReject. apply safe_any; [by apply safe_op|intros t].
  apply safe_any; [by apply safe_op|intros id]. apply safe_ret. apply answer_good; auto.
  apply refused_answers.
Qed.

Lemma handleBypass_good md q res :
  module_good md ->
  safe (fun _ => True) (handled_good q (is_some (md_cache md))) (handleBypass token md q res).
Proof.
  intros Hg. unfold handleBypass. change (md_upstreamMgr (with_stats md count_bypassed)) with (md_upstreamMgr md).
  destruct (md_upstreamMgr md) as [mgr|]; [|by apply (stub_good (with_stats md count_bypassed))].
  destruct (bypass_upstream _ _ _) as [up|]; [|by apply (stub_good (with_stats md count_bypassed))].
  apply safe_any; [by apply safe_op|intros t]. apply safe_any; [by apply safe_op|intros start].
  apply exchange_any. intros r [Hp Ha].
  apply safe_any; [by apply safe_op|intros t2].
  destruct r as [[[resp|]|err]|]; [| | |done].
  - destruct (exchange_entry_good up q _ resp (Ha resp eq_refl)) as [_ Hq].
    apply safe_ret. apply answer_good; auto.
  - match goal with |- safe _ _ (stub ?m _) => by apply (stub_good m) end.
  - apply safe_ret. apply error_good; auto.
Qed.

Lemma HandleQuery_good ctx md q :
  module_good md ->
  safe (fun _ => True) (handled_good q (is_some (md_cache md))) (HandleQuery token ctx md q).
Proof.
  intros Hg. unfold HandleQuery. destruct ctx; [apply safe_ret; by apply error_good|].
  set (md1 := with_stats md count_query). change (md_cache md) with (md_cache md1).
  assert (module_good md1) as Hg1 by by apply with_stats_good.
  assert (exists res, match md_router md1 with
    | Some router => Route router q
    | None => Some (mkRouteResult "" "" "route" "" "single" "") end = Some res) as [res Hres].
  { destruct (md_router md1) as [router|] eqn:Hr; [|by eexists].
    destruct (proj2 Hg1 router Hr) as [f Hf]. unfold Route.
    destruct (route_loop_spec router q f (r_rules router) (r_matchers router) 0
      (reachable_compiled _ _ Hf)) as (res & -> & _); [done|]. by eexists. }
  rewrite Hres. destruct (String.eqb _ "reject"); [by apply handleReject_good|].
  destruct (String.eqb _ "bypass"); [by apply handleBypass_good|by apply handleRoute_good].
Qed.

Lemma prefetch_good md j :
  module_good md -> job_good md j ->
  safe (fun _ => True) (fun r => exists md', r = Some md' /\ module_good md' /\
          is_some (md_cache md') = is_some (md_cache md)) (prefetchAsync token md j).
Proof.
  intros Hg [[c Hc] Hk]. unfold prefetchAsync. rewrite Hc. pose proof (proj1 Hg c Hc) as Hgc.
  assert (forall op md0, op_good op -> module_good md0 -> exists c', step_cache c op = Some c' /\
    module_good (with_cache md0 c')) as Hstep.
  { intros op md0 Ho Hm. destruct (cache_good_step c op Hgc Ho) as (c' & Hs & Hc'). eauto. }
  destruct (md_upstreamMgr md) as [mgr|].
  2: { apply safe_ret. destruct (Hstep (OpSetPrefetching (job_key j) false) md I Hg)
         as (c' & [= <-] & Hm). by eexists. }
  apply exchange_any. intros r [Hp Ha].
  destruct r as [[[resp|]|err]|]; [| | |done]; (apply safe_any; [by apply safe_op|intros t]).
  - destruct (exchange_entry_good (job_upstream j) (job_query j) _ resp (Ha resp eq_refl)) as [He _].
    rewrite <-Hk in He.
    destruct (Hstep (OpSet t (job_key j) (Some resp) (resp_TTL resp)) md He Hg) as (c1 & Hs & Hm1).
    cbn [step_cache] in Hs. rewrite Hs. apply safe_ret.
    destruct (cache_good_step c1 (OpPrefetchSuccess (job_key j))) as (c2 & [= <-] & Hc2);
      [by apply Hm1|done|]. eexists. split; [done|]. split; [|done].
    apply with_cache_good; auto.
  - apply safe_ret. destruct (Hstep (OpPrefetchFailure t (job_key j)) md I Hg) as (c' & [= <-] & Hm).
    eexists. split; [done|]. split; [|done]. by destruct Hm.
  - apply safe_ret. destruct (Hstep (OpPrefetchFailure t (job_key j)) md I Hg) as (c' & [= <-] & Hm).
    eexists. split; [done|]. split; [|done]. by destruct Hm.
Qed.

(** ** The running module

    Queries, prefetch jobs and changes of the rules, in any order. *)
Record system := mkSystem { sys_module : DnsModule; sys_jobs : list job }.

Definition set_router (md : DnsModule) (r : Router) : DnsModule :=
  mkModule (md_config md) (Some r) (md_upstreamMgr md) (md_cache md) (md_stats md)
    (md_metrics md) (md_dispatcher md) (md_healthy md).

Inductive sys_step : system -> system -> Prop :=
| step_query md js ctx q w w' t md' res new :
    HandleQuery token ctx md q w = (Some (md', res, new), w', t) ->
    sys_step (mkSystem md js) (mkSystem md' (js ++ new))
| step_job md pre j post w w' t md' :
    prefetchAsync token md j w = (Some md', w', t) ->
    sys_step (mkSystem md (pre ++ j :: post)) (mkSystem md' (pre ++ post))
| step_resolver md js r f :
    md_router md = Some r ->
    sys_step (mkSystem md js) (mkSystem (set_router md (SetGeositeResolver r f)) js)
| step_reload md js r cfg r' res :
    md_router md = Some r -> Reload r cfg = (r', res) ->
    sys_step (mkSystem md js) (mkSystem (set_router md r') js).

(** The state [Start] leaves: a fresh router, an empty cache if any, counters at
    zero, no jobs. *)
Record fresh (s : system) : Prop := {
  fresh_jobs : sys_jobs s = [];
  fresh_cache : forall c, md_cache (sys_module s) = Some c -> exists cfg, c = NewDnsCache cfg;
  fresh_router : forall r, md_router (sys_module s) = Some r ->
    exists rules ups d, NewRouter rules ups d = Ok r;
  fresh_stats : exists now, md_stats (sys_module s) = mkDnsStats 0 ∅ 0 0 0 0 0 now;
  fresh_metrics : forall mx, md_metrics (sys_module s) = Some mx ->
    exists now, mx = Reset now mx;
}.

Inductive sys_reachable : system -> Prop :=
| sys_start s : fresh s -> sys_reachable s
| sys_next s s' : sys_reachable s -> sys_step s s' -> sys_reachable s'.

Definition system_good (s : system) : Prop :=
  module_good (sys_module s) /\ Forall (job_good (sys_module s)) (sys_jobs s).

Lemma job_good_keep md md' j :
  is_some (md_cache md') = is_some (md_cache md) -> job_good md j -> job_good md' j.
Proof.
  intros Hc [[c Hm] Hk]. split; [|done]. rewrite Hm in Hc. by destruct (md_cache md').
Qed.

Lemma sys_step_good s s' : system_good s -> sys_step s s' -> system_good s'.
Proof.
  intros [Hg Hj] Hstep.
  destruct Hstep as [md js ctx q w w' t md' res new H|md pre j post w w' t md' H|md js r f H
    |md js r cfg r' res H1 H2]; cbn [sys_module sys_jobs] in *.
  - apply HandleQuery_good in H as [(md2 & res2 & j2 & [= <- <- <-] & Hg' & Hc & Hn & _) _]; [|done].
    split; [done|]. apply Forall_app. split; [|done].
    eapply Forall_impl; [exact Hj|]. intros j. by apply job_good_keep.
  - apply Forall_app in Hj as [Hj1 Hj2]. apply Forall_cons in Hj2 as [Hj Hj2].
    apply prefetch_good in H as [(md2 & [= <-] & Hg' & Hc) _]; [|done|done].
    split; [done|]. cbn [sys_jobs sys_module].
    apply Forall_app; split; (eapply Forall_impl; [eassumption|]; intros x; by apply job_good_keep).
  - destruct Hg as [Hg1 Hg2]. split; [|done]. split; [done|]. intros r' [= <-].
    destruct (Hg2 r H) as [g Hr]. exists g. by apply reach_resolver.
  - destruct Hg as [Hg1 Hg2]. split; [|done]. split; [done|]. intros r2 [= <-].
    destruct (Hg2 r H1) as [g Hr]. eexists. by eapply reach_reload.
Qed.

Lemma sys_reachable_good s : sys_reachable s -> system_good s.
Proof.
  induction 1 as [s [Hj Hc Hr _ _]|s s' _ IH Hs]; [|by eapply sys_step_good].
  split; [|rewrite Hj; constructor]. split.
  - intros c (cfg & ->)%Hc. apply cache_good_new.
  - intros r (rules & ups & d & Hn)%Hr. exists None. by eapply reach_new.
Qed.

(** C1. Along every history of queries, prefetches and rule changes, and
    whatever the network and the clock do, the handler does not panic, never
    returns a nil response without an error, and a response it returns answers
    the question that was asked: its query and the question of its raw message
    have the query's name and type. Prefetch jobs do not panic either. *)
Theorem handler_total_and_answers (s : system) (ctx : option error) (q : DnsQuery) (w : World) :
  sys_reachable s ->
  (exists md' res jobs w' t,
     HandleQuery token ctx (sys_module s) q w = (Some (md', res, jobs), w', t) /\ res <> Ok None /\
     forall resp, res = Ok (Some resp) -> answers_question (Name q) (QType q) resp) /\
  (forall j, j ∈ sys_jobs s -> exists md' w' t,
     prefetchAsync token (sys_module s) j w = (Some md', w', t)).
Proof.
  intros [Hg Hj]%sys_reachable_good. split.
  - destruct (HandleQuery token ctx (sys_module s) q w) as [[r w'] t] eqn:H.
    destruct (HandleQuery_good ctx _ q Hg _ _ _ _ H) as [(md' & res & jobs & -> & _ & _ & _ & Hn & Ha) _].
    by exists md', res, jobs, w', t.
  - intros j Hin. rewrite Forall_forall in Hj.
    destruct (prefetchAsync token (sys_module s) j w) as [[r w'] t] eqn:H.
    destruct (prefetch_good _ j Hg (Hj j Hin) _ _ _ _ H) as [(md' & -> & _) _].
    by exists md', w', t.
Qed.

(** C31. In every reachable state each cache entry holds an answer from
    the upstream of its key to the name and type of its key: answers of different
    upstreams, names or types are never mixed up. *)
Theorem cached_answers_match_their_keys (s : system) (c : DnsCache) (e : CacheEntry) :
  sys_reachable s -> md_cache (sys_module s) = Some c -> e ∈ abs c ->
  exists r, ce_Response e = Some r /\ resp_Upstream r = ck_UpstreamAddr (ce_Key e) /\
    answers_question (ck_Name (ce_Key e)) (ck_QType (ce_Key e)) r.
Proof.
  intros [Hg _]%sys_reachable_good Hc He. destruct (proj1 Hg c Hc) as [_ Hall].
  unfold entries_good in Hall. rewrite Forall_forall in Hall. by destruct (Hall e He) as [_ ?].
Qed.

(** ** Actions *)

(** [spec R c]: in every world result and requests are related by [R]. *)
Definition spec {A} (R : A -> list event -> Prop) (c : IO A) : Prop :=
  forall w a w' t, c w = (a, w', t) -> R a t.

Lemma spec_ret {A} (R : A -> list event -> Prop) a : R a [] -> spec R (ret a).
Proof. by intros H w a' w' t [= <- <- <-]. Qed.

Lemma spec_free {A B} (R : B -> list event -> Prop) f (k : A -> IO B) :
  (forall a, spec R (k a)) -> spec R (bind (lift f []) k).
Proof.
  intros Hk w b w' t. unfold bind, lift. destruct (f w) as [a w1].
  destruct (k a w1) as [[b' w2] t2] eqn:Ek. intros [= <- <- <-]. by eapply Hk.
Qed.

Lemma spec_safe {A} (Q : A -> Prop) c : safe (fun _ => True) Q c -> spec (fun a _ => Q a) c.
Proof. intros Hc w a w' t H. by apply Hc in H as [? _]. Qed.

Lemma spec_weaken {A} (R R' : A -> list event -> Prop) c :
  (forall a t, R a t -> R' a t) -> spec R c -> spec R' c.
Proof. intros HR Hc w a w' t H. by apply HR, (Hc w a w'). Qed.

(** The response of a handler, if it returns one. *)
Definition response_of (r : option (DnsModule * result (option DnsResponse) * list job))
    : option DnsResponse :=
  match r with Some (_, Ok (Some resp), _) => Some resp | _ => None end.

Definition not_cached (r : option (DnsModule * result (option DnsResponse) * list job)) : Prop :=
  forall resp, response_of r = Some resp -> resp_Cached resp = false.

Lemma stub_not_cached md q : safe (fun _ => True) not_cached (stub md q).
Proof.
  unfold stub. apply safe_any; [by apply safe_op|intros id]. apply safe_ret. by intros r [= <-].
Qed.

Lemma exchange_not_cached up q tag resp : answers q (ui_Addr up) tag resp -> resp_Cached resp = false.
Proof. unfold answers. naive_solver. Qed.

Lemma route_fetch_not_cached md mgr q up id key :
  safe (fun _ => True) not_cached (route_fetch token md mgr q up id key).
Proof.
  unfold route_fetch. apply safe_any; [by apply safe_op|intros start].
  apply exchange_any. intros r [_ Ha]. apply safe_any; [by apply safe_op|intros t].
  destruct r as [[[resp|]|err]|]; try (by apply safe_ret); [|apply stub_not_cached].
  assert (forall m, not_cached (Some (m, Ok (Some resp), []))) as Hn.
  { intros m r [= <-]. by eapply exchange_not_cached, Ha. }
  destruct (md_cache md); [|apply safe_ret, Hn]. destruct (negb _); [|apply safe_ret, Hn].
  apply safe_any; [by apply safe_op|intros t2]. destruct (Set_ _ _ _ _ _); apply safe_ret; [apply Hn|done].
Qed.

(** A response served from the cache costs no request: whenever
    the handler returns a response marked as cached, nothing was sent. *)
Theorem cached_response_sends_nothing (md md' : DnsModule) (ctx : option error) (q : DnsQuery)
    (w w' : World) (resp : DnsResponse) (jobs : list job) (t : list event) :
  HandleQuery token ctx md q w = (Some (md', Ok (Some resp), jobs), w', t) ->
  resp_Cached resp = true -> t = [].
Proof.
  intros H Hcached. revert H.
  assert (spec (fun r t => not_cached r \/ t = []) (HandleQuery token ctx md q)) as Hspec.
  { assert (forall c, safe (fun _ => True) not_cached c ->
      spec (fun r t => not_cached r \/ t = []) c) as Hs.
    { intros c Hc. eapply spec_weaken; [|by apply spec_safe]. auto. }
    unfold HandleQuery. destruct ctx; [by apply spec_ret; left|].
    destruct (match md_router _ with Some _ => _ | None => _ end) as [res|];
      [|by apply spec_ret; left].
    destruct (String.eqb _ "reject").
    { apply spec_free. intros t1. apply spec_free. intros id. by apply spec_ret; right. }
    destruct (String.eqb _ "bypass"); [apply Hs|].
    - unfold handleBypass. destruct (md_upstreamMgr _) as [mgr|]; [|apply stub_not_cached].
      destruct (bypass_upstream _ _ _) as [up|]; [|apply stub_not_cached].
      apply safe_any; [by apply safe_op|intros t1]. apply safe_any; [by apply safe_op|intros s1].
      apply exchange_any. intros r [_ Ha]. apply safe_any; [by apply safe_op|intros t2].
      destruct r as [[[rs|]|err]|]; try (by apply safe_ret); [|apply stub_not_cached].
      apply safe_ret. intros x [= <-]. by eapply exchange_not_cached, Ha.
    - unfold handleRoute. destruct (md_upstreamMgr _) as [mgr|]; [|apply Hs, stub_not_cached].
      destruct (route_upstream _ _ _) as [up|]; [|apply Hs, stub_not_cached].
      apply spec_free. intros t1. destruct (md_cache _) as [c|]; [|apply Hs, route_fetch_not_cached].
      apply spec_free. intros t2. destruct (Get t2 c _) as [[[cached|] c']|].
      + apply spec_free. intros t3. apply spec_free. intros t4.
        destruct (ShouldPrefetch _ _ _ _); by apply spec_ret; right.
      + apply Hs, route_fetch_not_cached.
      + by apply spec_ret; right. }
  intros H. destruct (Hspec _ _ _ _ H) as [Hn|Ht]; [|done].
  specialize (Hn resp eq_refl). congruence.
Qed.

(** A rejected query is answered REFUSED without any request; neither
    a rejected nor a bypassed query reads or fills the cache or starts a
    prefetch. *)
Theorem reject_and_bypass_leave_cache (md : DnsModule) (q : DnsQuery) (r : Router)
    (res : RouteResult) (w : World) :
  md_router md = Some r -> Route r q = Some res ->
  (rr_Action res = "reject" ->
     exists md' resp w', HandleQuery token None md q w = (Some (md', Ok (Some resp), []), w', []) /\
       resp_Rcode resp = RcodeRefused /\ md_cache md' = md_cache md) /\
  (rr_Action res = "bypass" ->
     forall md' out jobs w' t,
       HandleQuery token None md q w = (Some (md', out, jobs), w', t) ->
       md_cache md' = md_cache md /\ jobs = []).
Proof.
  intros Hr Hroute. split; intros Ha; unfold HandleQuery;
    change (md_router (with_stats md count_query)) with (md_router md);
    rewrite Hr, Hroute, Ha; cbn [String.eqb Ascii.eqb Bool.eqb].
  - unfold handleReject, bind, now, new_id, lift, ret. destruct (env_now w) as [t1 w1].
    destruct (env_id w1) as [id w2]. by eexists _, _, _.
  - intros md' out jobs w' t H.
    assert (safe (fun _ => True) (fun r => forall md' out jobs,
      r = Some (md', out, jobs) -> md_cache md' = md_cache md /\ jobs = [])
      (handleBypass token (with_stats md count_query) q res)) as Hs.
    { assert (forall m, md_cache m = md_cache md -> safe (fun _ => True) (fun r => forall md' out jobs,
        r = Some (md', out, jobs) -> md_cache md' = md_cache md /\ jobs = []) (stub m q)) as Hstub.
      { intros m Hm. unfold stub. apply safe_any; [by apply safe_op|intros id].
        apply safe_ret. by intros ? ? ? [= <- <- <-]. }
      unfold handleBypass. destruct (md_upstreamMgr _) as [mgr|]; [|by apply Hstub].
      destruct (bypass_upstream _ _ _) as [up|]; [|by apply Hstub].
      apply safe_any; [by apply safe_op|intros t1]. apply safe_any; [by apply safe_op|intros s1].
      apply exchange_any. intros x _. apply safe_any; [by apply safe_op|intros t2].
      destruct x as [[[rs|]|err]|]; [| |..]; try (apply safe_ret; by intros ? ? ? [= <- <- <-]).
      by apply Hstub. }
    destruct (Hs _ _ _ _ H) as [Hq _]. by eapply Hq.
Qed.

(** ** Accounting *)

Definition accounts (md : DnsModule) : Prop :=
  forall mx, md_metrics md = Some mx ->
    mx_TotalQueries mx = i64 (mx_RoutedQueries mx + mx_RejectedQueries mx + mx_BypassedQueries mx) /\
    mx_CacheHits mx = ds_CacheHits (md_stats md) /\
    mx_CacheMisses mx = ds_CacheMisses (md_stats md) /\
    mx_RejectedQueries mx = ds_RejectedQueries (md_stats md).

Definition acct (mx : DnsMetrics) :=
  (mx_TotalQueries mx, mx_RoutedQueries mx, mx_RejectedQueries mx, mx_BypassedQueries mx,
   mx_CacheHits mx, mx_CacheMisses mx).

Lemma acct_update_um f mx u : acct (update_um f mx u) = acct mx.
Proof. unfold update_um, getOrCreateUpstreamMetrics. destruct mx. simpl. by destruct (_ !! u). Qed.

Lemma acct_RecordQuery t mx qt u :
  acct (RecordQuery t mx qt u) = acct (with_TotalQueries mx (incr (mx_TotalQueries mx))).
Proof. unfold RecordQuery. case_match; [rewrite acct_update_um|]; by destruct mx. Qed.

Lemma acct_RecordResponse mx u rtt : acct (RecordResponse mx u rtt) = acct mx.
Proof. unfold RecordResponse. case_match; [rewrite acct_update_um|]; by destruct mx. Qed.

Lemma acct_RecordError mx u : acct (RecordError mx u) = acct mx.
Proof. unfold RecordError. case_match; [rewrite acct_update_um|]; by destruct mx. Qed.

Lemma acct_RecordRuleHit mx r : acct (RecordRuleHit mx r) = acct mx.
Proof. unfold RecordRuleHit. case_match; by destruct mx. Qed.

Lemma accounts_metrics md f :
  (forall mx, acct (f mx) = acct mx) -> accounts md -> accounts (with_metrics md f).
Proof.
  intros Hf Ha mx' Hmx. cbn in Hmx. destruct (md_metrics md) as [mx|] eqn:Hm; [|done].
  injection Hmx as <-. specialize (Hf mx). unfold acct in Hf.
  injection Hf as -> -> -> -> -> ->. by apply Ha.
Qed.

(** One query and one action, other than a rejection. *)
Lemma accounts_action md t q u action rid :
  action = "route" \/ action = "bypass" ->
  accounts md -> accounts (with_metrics md (record_action t q u action rid)).
Proof.
  intros Hact Ha mx' Hmx. cbn in Hmx. destruct (md_metrics md) as [mx|] eqn:Hm; [|done].
  injection Hmx as <-. destruct (Ha mx Hm) as (H1 & H2 & H3 & H4). unfold record_action.
  set (m1 := RecordQuery t mx (QType q) u).
  assert (acct (if negb (String.eqb rid "") then RecordRuleHit (RecordAction m1 action) rid
                else RecordAction m1 action) = acct (RecordAction m1 action)) as Hacct
    by (case_match; [apply acct_RecordRuleHit|done]).
  pose proof (acct_RecordQuery t mx (QType q) u) as Hq. fold m1 in Hq. clearbody m1.
  unfold acct in Hacct. injection Hacct as -> -> -> -> -> ->.
  destruct mx, m1. unfold acct in Hq. cbn in Hq. injection Hq as -> -> -> -> -> ->. cbn in *.
  destruct Hact as [-> | ->]; cbn; (split; [|done]); unfold incr; rewrite H1, i64_add_l.
  - rewrite <-!Z.add_assoc, i64_add_l. f_equal. lia.
  - rewrite (Z.add_comm (_ + _) (i64 _)), i64_add_l. f_equal. lia.
Qed.

Lemma accounts_reject md t q rid :
  accounts md ->
  accounts (with_metrics (with_stats md count_rejected) (record_action t q "" "reject" rid)).
Proof.
  intros Ha mx' Hmx. cbn in Hmx. destruct (md_metrics md) as [mx|] eqn:Hm; [|done].
  injection Hmx as <-. destruct (Ha mx Hm) as (H1 & H2 & H3 & H4). unfold record_action.
  set (m1 := RecordQuery t mx (QType q) "").
  assert (acct (if negb (String.eqb rid "") then RecordRuleHit (RecordAction m1 "reject") rid
                else RecordAction m1 "reject") = acct (RecordAction m1 "reject")) as Hacct
    by (case_match; [apply acct_RecordRuleHit|done]).
  pose proof (acct_RecordQuery t mx (QType q) "") as Hq. fold m1 in Hq. clearbody m1.
  unfold acct in Hacct. injection Hacct as -> -> -> -> -> ->.
  destruct mx, m1. unfold acct in Hq. cbn in Hq. injection Hq as -> -> -> -> -> ->. cbn in *.
  rewrite H4. split; [|done]. unfold incr. rewrite H1, H4, i64_add_l.
  match goal with |- _ = i64 (?a + i64 ?b + ?c) =>
    replace (a + i64 b + c) with (i64 b + (a + c)) by lia end.
  rewrite i64_add_l. f_equal. lia.
Qed.

Lemma accounts_hit md : accounts md -> accounts (with_metrics (with_stats md count_hit) RecordCacheHit).
Proof.
  intros Ha mx' Hmx. cbn in Hmx. destruct (md_metrics md) as [mx|] eqn:Hm; [|done].
  injection Hmx as <-. destruct (Ha mx Hm) as (H1 & H2 & H3 & H4). destruct mx. cbn in *.
  by rewrite H2.
Qed.

Lemma accounts_miss md : accounts md -> accounts (with_metrics (with_stats md count_miss) RecordCacheMiss).
Proof.
  intros Ha mx' Hmx. cbn in Hmx. destruct (md_metrics md) as [mx|] eqn:Hm; [|done].
  injection Hmx as <-. destruct (Ha mx Hm) as (H1 & H2 & H3 & H4). destruct mx. cbn in *.
  by rewrite H3.
Qed.

(** The books balance in the state a handler leaves. *)
Definition balanced (r : option (DnsModule * result (option DnsResponse) * list job)) : Prop :=
  forall md' out jobs, r = Some (md', out, jobs) -> accounts md'.

Lemma balanced_ret md out jobs : accounts md -> safe (fun _ => True) balanced (ret (Some (md, out, jobs))).
Proof. intros Ha. apply safe_ret. by intros ? ? ? [= <- <- <-]. Qed.

Lemma stub_balanced md q : accounts md -> safe (fun _ => True) balanced (stub md q).
Proof. intros Ha. unfold stub. apply safe_any; [by apply safe_op|intros id]. by apply balanced_ret. Qed.

Lemma route_fetch_balanced md mgr q up id key :
  accounts md -> safe (fun _ => True) balanced (route_fetch token md mgr q up id key).
Proof.
  intros Ha. unfold route_fetch. apply safe_any; [by apply safe_op|intros start].
  apply exchange_any. intros r _. apply safe_any; [by apply safe_op|intros t].
  destruct r as [[[resp|]|err]|]; [|by apply stub_balanced| |by apply safe_ret].
  - assert (forall m, accounts m -> safe (fun _ => True) balanced (ret (Some (with_metrics
      (with_stats m (fun s => average_rtt (time_sub t start) (count_routed id s)))
      (fun mx => RecordResponse mx (resp_Upstream resp) (time_sub t start)), Ok (Some resp), []))))
      as Hfin.
    { intros m Hm. apply balanced_ret, accounts_metrics; [intros; apply acct_RecordResponse|done]. }
    destruct (md_cache md); [|by apply Hfin]. destruct (negb _); [|by apply Hfin].
    apply safe_any; [by apply safe_op|intros t2].
    destruct (Set_ _ _ _ _ _); [by apply Hfin|by apply safe_ret].
  - apply balanced_ret, accounts_metrics; [intros; apply acct_RecordError|done].
Qed.

Lemma HandleQuery_balanced ctx md q :
  accounts md -> safe (fun _ => True) balanced (HandleQuery token ctx md q).
Proof.
  intros Ha. unfold HandleQuery. destruct ctx; [by apply balanced_ret|].
  assert (accounts (with_stats md count_query)) as Ha1 by done.
  set (md1 := with_stats md count_query) in *. clearbody md1.
  destruct (match md_router _ with Some _ => _ | None => _ end) as [res|]; [|by apply safe_ret].
  destruct (String.eqb _ "reject").
  { apply safe_any; [by apply safe_op|intros t]. apply safe_any; [by apply safe_op|intros id].
    by apply balanced_ret, accounts_reject. }
  destruct (String.eqb _ "bypass").
  - unfold handleBypass. destruct (md_upstreamMgr _) as [mgr|]; [|by apply stub_balanced].
    destruct (bypass_upstream _ _ _) as [up|]; [|by apply stub_balanced].
    apply safe_any; [by apply safe_op|intros t]. apply safe_any; [by apply safe_op|intros start].
    pose proof (accounts_action (with_stats md1 count_bypassed) t q (rr_UpstreamID res) "bypass"
      (rr_RuleID res) (or_intror eq_refl) Ha1) as Ha2.
    set (md2 := with_metrics _ _) in *. clearbody md2.
    apply exchange_any. intros r _. apply safe_any; [by apply safe_op|intros t2].
    destruct r as [[[resp|]|err]|]; [|by apply stub_balanced| |by apply safe_ret].
    + apply balanced_ret, accounts_metrics; [intros; apply acct_RecordResponse|done].
    + apply balanced_ret, accounts_metrics; [intros; apply acct_RecordError|done].
  - unfold handleRoute. destruct (md_upstreamMgr _) as [mgr|]; [|by apply stub_balanced].
    destruct (route_upstream _ _ _) as [up|]; [|by apply stub_balanced].
    apply safe_any; [by apply safe_op|intros t].
    pose proof (accounts_action md1 t q (rr_UpstreamID res) "route" (rr_RuleID res)
      (or_introl eq_refl) Ha1) as Ha2.
    set (md2 := with_metrics md1 _) in *. clearbody md2.
    destruct (md_cache md2) as [c|]; [|by apply route_fetch_balanced].
    apply safe_any; [by apply safe_op|intros t1].
    destruct (Get t1 c _) as [[[cached|] c']|]; [| |by apply safe_ret].
    + apply safe_any; [by apply safe_op|intros t2]. apply safe_any; [by apply safe_op|intros t3].
      pose proof (accounts_hit (with_cache md2 c') Ha2) as Ha3.
      destruct (ShouldPrefetch _ _ _ _); by apply balanced_ret.
    + apply route_fetch_balanced. by apply (accounts_miss (with_cache md2 c')).
Qed.

(** In every reachable state the metrics balance: each recorded
    query was recorded under exactly one action, and cache hits, cache misses and
    rejections agree between the metrics and the module's statistics. *)
Theorem metrics_balance (s : system) : sys_reachable s -> accounts (sys_module s).
Proof.
  induction 1 as [s [_ _ _ [now Hst] Hm]|s s' _ IH Hs].
  - intros mx Hmx. destruct (Hm mx Hmx) as [t Ht]. rewrite Ht, Hst. by destruct mx.
  - destruct Hs as [md js ctx q w w' t md' res new H|md pre j post w w' t md' H|md js r f H
      |md js r cfg r' res H1 H2]; cbn [sys_module] in *; try done.
    + apply HandleQuery_balanced in H as [Hb _]; [|done]. by eapply Hb.
    + assert (safe (fun _ => True) (fun r => forall md', r = Some md' -> accounts md')
        (prefetchAsync token md j)) as Hs.
      { unfold prefetchAsync. destruct (md_cache md) as [c|]; [|by apply safe_ret].
        destruct (md_upstreamMgr md) as [mgr|]; [|apply safe_ret; by intros ? [= <-]].
        assert (accounts (with_metrics md RecordPrefetch)) as Hp
          by (apply accounts_metrics; [by intros []|done]).
        apply exchange_any. intros r _.
        destruct r as [[[resp|]|err]|]; [| | |by apply safe_ret];
          (apply safe_any; [by apply safe_op|intros t2]).
        - destruct (Set_ _ _ _ _ _); apply safe_ret; [by intros ? [= <-]|done].
        - apply safe_ret. by intros ? [= <-].
        - apply safe_ret. by intros ? [= <-]. }
      destruct (Hs _ _ _ _ H) as [Hq _]. by apply Hq.
Qed.

End Module.

Section Examples.
#[local] Existing Instance Ref.miekg_ref.
#[local] Existing Instance Ref.miekg_ref_laws.
#[local] Existing Instance Script.script_env.
#[local] Existing Instance LiteralRe.literal_re.

Definition ex_configs : list UpstreamConfig := [mkUpstreamConfig "u" "9.9.9.9:53" "udp" "" false ""].

Definition ex_rules : list DnsRule :=
  [mkRule "ads" [] ["ads.org"] [] [] [] [] "" "reject" "";
   mkRule "lan" [] ["lan"] [] [] [] [] "u" "bypass" ""].

Definition ex_router : option Router :=
  match NewRouter ex_rules ex_configs "u" with Ok r => Some r | Err _ => None end.

Definition ex_module : DnsModule :=
  mkModule DefaultDnsModuleConfig ex_router (Some (NewUpstreamManager ex_configs))
    (Some (NewDnsCache sample_config)) (mkDnsStats 0 ∅ 0 0 0 0 0 1) (Some (NewDnsMetrics 1)) false true.

Definition ex_system : system := mkSystem ex_module [].

Lemma ex_system_fresh : fresh ex_system.
Proof.
  constructor.
  - done.
  - intros c [= <-]. by eexists.
  - intros r Hr. change (ex_router = Some r) in Hr. unfold ex_router in Hr.
    destruct (NewRouter ex_rules ex_configs "u") as [r'|] eqn:En; [|done].
    injection Hr as <-. exists ex_rules, ex_configs, "u". exact En.
  - by eexists.
  - intros mx Hm. cbn in Hm. injection Hm as <-. exists 1. reflexivity.
Qed.

Definition one_answer : Script.script :=
  Script.mkScript (1000 * Second) [mkExchanged (Some ex_raw) 7 None] [] [] [].

Definition ex_q (name : string) : DnsQuery := mkQuery name TypeA 0 [] false.

Lemma handler_total_and_answers_witness :
  exists md' res jobs w' t,
    HandleQuery (E := Script.script_env) fixed_token None ex_module (ex_q "example.com") one_answer =
      (Some (md', res, jobs), w', t) /\ res <> Ok None.
Proof.
  destruct (handler_total_and_answers (E := Script.script_env) fixed_token ex_system None
    (ex_q "example.com") one_answer (sys_start _ _ ex_system_fresh)) as [H _].
  destruct H as (md' & res & jobs & w' & t & H & Hn & _). exists md', res, jobs, w', t.
  split; [exact H|exact Hn].
Defined.

(** The module after one answered query, its response and the requests made. *)
Definition ex_after := HandleQuery (E := Script.script_env) fixed_token None ex_module
  (ex_q "example.com") one_answer.

Lemma cached_answers_match_their_keys_witness :
  match fst (fst ex_after) with
  | Some (md', _, _) =>
    match md_cache md' with
    | Some c => length (abs c) = 1%nat /\ forall e, e ∈ abs c ->
        exists r, ce_Response e = Some r /\ resp_Upstream r = ck_UpstreamAddr (ce_Key e) /\
          answers_question (ck_Name (ce_Key e)) (ck_QType (ce_Key e)) r
    | None => False
    end
  | None => False
  end.
Proof.
  assert (match fst (fst ex_after) with
    | Some (md', _, _) =>
      match md_cache md' with Some c => length (abs c) = 1%nat | None => False end
    | None => False end) as Hlen by (vm_compute; reflexivity).
  destruct ex_after as [[[[[md' res] jobs]|] w'] t] eqn:He; cbn [fst] in *; [|exact Hlen].
  destruct (md_cache md') as [c|] eqn:Hc; [|exact Hlen]. split; [exact Hlen|]. intros e Hin.
  apply (cached_answers_match_their_keys (E := Script.script_env) fixed_token
    (mkSystem md' ([] ++ jobs)) c e); [|exact Hc|exact Hin].
  eapply sys_next; [apply sys_start; exact ex_system_fresh|].
  exact (step_query fixed_token ex_module [] None (ex_q "example.com") one_answer w' t md' res jobs He).
Defined.

(** The same question again, a second later. *)
Definition ex_again :=
  match fst (fst ex_after) with
  | Some (md', _, _) =>
    HandleQuery (E := Script.script_env) fixed_token None md' (ex_q "example.com")
      (Script.mkScript (1001 * Second) [] [] [] [])
  | None => (None, one_answer, [])
  end.

Lemma cached_response_sends_nothing_witness :
  match ex_again with
  | (Some (_, Ok (Some resp), _), _, t) => resp_Cached resp = true /\ t = []
  | _ => False
  end.
Proof.
  assert (match ex_again with
    | (Some (_, Ok (Some resp), _), _, _) => resp_Cached resp = true | _ => False end) as Hc
    by (vm_compute; reflexivity).
  unfold ex_again in *. destruct (fst (fst ex_after)) as [[[md' res] jobs]|]; [|destruct Hc].
  destruct (HandleQuery _ _ _ _ _) as [[[[[md2 [[resp|]|]] j2]|] w'] t] eqn:He;
    try (destruct Hc; fail).
  split; [exact Hc|].
  exact (cached_response_sends_nothing (E := Script.script_env) fixed_token md' md2 None _ _ w' resp j2 t
    He Hc).
Defined.

Lemma reject_and_bypass_leave_cache_witness :
  match ex_router with
  | Some r =>
    exists md' resp w', HandleQuery (E := Script.script_env) fixed_token None ex_module
        (ex_q "x.ads.org.") one_answer = (Some (md', Ok (Some resp), []), w', []) /\
      resp_Rcode resp = RcodeRefused /\ md_cache md' = md_cache ex_module
  | None => False
  end.
Proof.
  destruct ex_router as [r|] eqn:Hr; [|vm_compute in Hr; discriminate Hr].
  destruct (Route r (ex_q "x.ads.org.")) as [res|] eqn:Hq.
  - destruct (reject_and_bypass_leave_cache (E := Script.script_env) fixed_token ex_module
      (ex_q "x.ads.org.") r res one_answer Hr Hq) as [H _].
    apply H. vm_compute in Hr. injection Hr as <-. vm_compute in Hq. injection Hq as <-. reflexivity.
  - exfalso. vm_compute in Hr. injection Hr as <-. vm_compute in Hq. discriminate Hq.
Defined.

Lemma metrics_balance_witness : accounts (sys_module ex_system).
Proof.
  exact (metrics_balance (E := Script.script_env) fixed_token ex_system
    (sys_start _ _ ex_system_fresh)).
Defined.

(** Queries and errors of an upstream are recorded under its id, successes and
    round trips under its address: after one answered query the figures of the
    upstream are split over two entries. *)
Definition figures (mx : DnsMetrics) (u : string) : option (Z * Z * Z) :=
  p ← mx_QueriesByUpstream mx !! u; um ← um_heap mx !! p;
  Some (um_Queries um, um_Successes um, um_AvgRTT um).

Theorem upstream_figures_are_split :
  match fst (fst ex_after) with
  | Some (md', Ok (Some _), _) =>
    match md_metrics md' with
    | Some mx => figures mx "u" = Some (1, 0, 0) /\ figures mx "9.9.9.9:53" = Some (0, 1, 1)
    | None => False
    end
  | _ => False
  end.
Proof. vm_compute. split; reflexivity. Qed.

End Examples.
