(* ===== verification/Listener.v ===== *)
(** * The listener (core/dns/listener.go)

    [handlePacket] with its EDNS clean-up, and the life cycle of the sockets.
    The listener knows its handler only through the interface [Handler]; what it
    relies on is [HandlerPromise], which the module's handler fulfils
    (ListenerProps). *)

From S2P Require Import Prelude DnsMsg DnsConfig Response Loop Net.

#[local] Open Scope Z_scope.
#[local] Open Scope go_scope.

(** The interface [Handler]: a state and the handling of one query, given the
    error of an expired context.  [None] is a panic. *)
Class Handler `{E : Env} := {
  HState : Type;
  HandleQuery_ : option error -> HState -> DnsQuery ->
    IO (option (HState * result (option DnsResponse)));
}.

(** The address of a client: UDP and TCP addresses have an IP. *)
Inductive client_addr := UDPAddr (ip : list Z) | TCPAddr (ip : list Z) | OtherAddr.

Section Clean.
Context `{M : Miekg}.

(** Keep the records of a type other than [t]; a nil record panics. *)
Fixpoint drop_type (t : Z) (rrs : list (option RR)) : option (list (option RR)) :=
  match rrs with
  | [] => Some []
  | rr :: rest =>
    h ← Header rr;
    out ← drop_type t rest;
    Some (if negb (hdr_Rrtype h =? t) then rr :: out else out)
  end.

Definition dropSigs (rrs : list (option RR)) : option (list (option RR)) := drop_type TypeRRSIG rrs.

Definition sanitizeForClient (m query : Msg) : option Msg :=
  let clientOpt := find_opt query in
  extra ← drop_type TypeOPT (m_Extra m);
  let m := set_Extra m extra in
  let wantSigs := match clientOpt with Some (_, h, _) => OPT_Do h | None => false end in
  m ← (if negb wantSigs then
         answer ← dropSigs (m_Answer m);
         ns ← dropSigs (m_Ns m);
         extra ← dropSigs (m_Extra m);
         Some (set_Extra (set_Ns (set_Answer m answer) ns) extra)
       else Some m);
  Some (match clientOpt with
        | Some (_, h, _) =>
          let size := OPT_UDPSize h in
          let size := if size <? MinMsgSize then MinMsgSize else size in
          SetEdns0 m size (OPT_Do h)
        | None => m
        end).

End Clean.

Section Packet.
Context `{M : Miekg} `{E : Env} `{H : !Handler}.
Variable token : list Z.

Definition servfail (msg : Msg) : Msg := set_Rcode (SetReply new_Msg msg) RcodeServerFailure.

(** The query handed to the handler. *)
Definition packet_query (q : Question) (client : client_addr) : DnsQuery :=
  mkQuery (q_Name q) (q_Qtype q) 0
    (match client with UDPAddr ip => ip | TCPAddr ip => ip | OtherAddr => [] end) false.

(** The reply to [msg] made of the handler's response, before the clean-up. *)
Definition reply_message (msg : Msg) (resp : option DnsResponse) : result Msg :=
  match resp with
  | None => Ok (SetReply new_Msg msg)
  | Some r =>
    match resp_RawMsg r with
    | Some raw =>
      let? rawBytes := Msg_Pack raw in
      let? m := Msg_Unpack rawBytes in
      let origRcode := m_Rcode m in
      Ok (set_Rcode (SetReply m msg) origRcode)
    | None =>
      let m := SetReply new_Msg msg in
      let m := set_Rcode m (resp_Rcode r) in
      Ok (set_Extra (set_Ns (set_Answer m (resp_Answer r)) (resp_Authority r)) (resp_Additional r))
    end
  end.

(** The state of the handler, the loop log, and the messages written. *)
Abbreviation packet_result := (option (HState * loop_log * list Msg)).

Definition handlePacket (ctx_err : option error) (st : HState) (log : loop_log)
    (client : client_addr) (msg : option Msg) : IO packet_result :=
  match msg with
  | None => ret (Some (st, log, []))
  | Some msg =>
    match m_Question msg with
    | [] => ret (Some (st, log, []))
    | q :: _ =>
      if carriesOwnToken token (Some msg) then
        let! t := now in
        let '(log, _) := loopDetected t log in
        ret (Some (st, log, [SetRcode new_Msg msg RcodeServerFailure]))
      else
        let! r := HandleQuery_ ctx_err st (packet_query q client) in
        match r with
        | None => ret None
        | Some (st, Err _) => ret (Some (st, log, [servfail msg]))
        | Some (st, Ok resp) =>
          match reply_message msg resp with
          | Err _ => ret (Some (st, log, [servfail msg]))
          | Ok m =>
            match sanitizeForClient m msg with
            | None => ret None
            | Some m => ret (Some (st, log, [m]))
            end
          end
        end
    end
  end.

End Packet.

(** ** Sockets *)

(** [l_ctx] is [None] before the first start, then whether the context has been
    cancelled; [l_servers] are the addresses with a UDP and a TCP server. *)
Record DnsListener := mkListener {
  l_config : option DnsListenerConfig;
  l_handler : bool;
  l_servers : list string;
  l_ctx : option bool;
}.

Definition NewDnsListener (config : option DnsListenerConfig) (handler : bool) : DnsListener :=
  mkListener config handler [] None.

Section Sockets.
Context `{E : Env}.

(** The UDP socket is closed again when the TCP one cannot be opened. *)
Definition startPair (addr : string) : IO (result unit) :=
  let! uerr := listen "udp" addr in
  match uerr with
  | Some err => ret (Err (Wrapf "listen udp: %w" [] err))
  | None =>
    let! _ := emit (EvOpened "udp" addr) in
    let! terr := listen "tcp" addr in
    match terr with
    | Some err =>
      let! _ := emit (EvClosed "udp" addr) in
      ret (Err (Wrapf "listen tcp: %w" [] err))
    | None =>
      let! _ := emit (EvOpened "tcp" addr) in
      ret (Ok tt)
    end
  end.

(** The loop of [Stop]; the last error is kept. *)
Fixpoint shutdown_all (servers : list string) (lastErr : option error) : IO (option error) :=
  match servers with
  | [] => ret lastErr
  | addr :: rest =>
    let! uerr := shutdown "udp" addr in
    let lastErr := if is_some uerr then uerr else lastErr in
    let! terr := shutdown "tcp" addr in
    let lastErr := if is_some terr then terr else lastErr in
    shutdown_all rest lastErr
  end.

Definition Listener_Stop (l : DnsListener) : IO (DnsListener * result unit) :=
  let ctx := match l_ctx l with Some _ => Some true | None => None end in
  let! lastErr := shutdown_all (l_servers l) None in
  let l := mkListener (l_config l) (l_handler l) [] ctx in
  match lastErr with
  | Some err => ret (l, Err (Wrapf "dns listener: shutdown error: %w" [] err))
  | None => ret (l, Ok tt)
  end.

Fixpoint start_all (l : DnsListener) (addrs : list string) : IO (DnsListener * result unit) :=
  match addrs with
  | [] => ret (l, Ok tt)
  | addr :: rest =>
    let! r := startPair addr in
    match r with
    | Err err =>
      let! s := Listener_Stop l in
      ret (fst s, Err (Wrapf "dns listener: %s: %w" [FStr addr] err))
    | Ok _ =>
      start_all (mkListener (l_config l) (l_handler l) (l_servers l ++ [addr]) (l_ctx l)) rest
    end
  end.

Definition Listener_Start (l : DnsListener) : IO (DnsListener * result unit) :=
  match l_config l with
  | None => ret (l, Err (Errorf "dns listener: config is nil" []))
  | Some config =>
    if negb (l_handler l) then ret (l, Err (Errorf "dns listener: handler is nil" []))
    else
      match ListenerConfig_Validate config with
      | Err err => ret (l, Err (Wrapf "dns listener: invalid config: %w" [] err))
      | Ok _ =>
        let l := mkListener (l_config l) (l_handler l) (l_servers l) (Some false) in
        start_all l (ListenAddr config :: ExtraListenAddrs config)
      end
  end.

Definition Listener_Healthy (l : DnsListener) : bool :=
  match l_servers l with
  | [] => false
  | _ => match l_ctx l with Some cancelled => negb cancelled | None => false end
  end.

End Sockets.
