(* ===== verification/ListenerProps.v ===== *)
(** * Guarantees of the listener

    Replies that match what the client asked for, one reply per question, and
    sockets that are opened all or not at all.  The theorems about packets are
    proved for any handler that keeps [HandlerPromise]; the module's handler is
    shown to keep it. *)

From S2P Require Import Prelude DnsMsg Validator DnsConfig NetIP Rule Router Response Loop Net.
From S2P Require Import Upstream Exchange ExchangeProps Cache CacheSpec CacheProps Metrics.
From S2P Require Import Handler HandlerProps Listener.

#[local] Open Scope Z_scope.
#[local] Open Scope go_scope.

(** What the listener relies on: as long as the handler's invariant holds it
    holds again afterwards, there is no panic, and a response has a raw message. *)
Class HandlerPromise `{E : Env} (H : Handler) : Type := {
  HInv : HState -> Prop;
  promise ctx st q : HInv st ->
    safe (fun _ => True)
      (fun r => exists st' res, r = Some (st', res) /\ HInv st' /\
         forall resp, res = Ok (Some resp) -> is_Some (resp_RawMsg resp))
      (HandleQuery_ ctx st q);
}.

Section Clean.
Context `{ML : MiekgLaws}.

Definition is_type (t : Z) (rr : option RR) : bool :=
  match rr with Some r => hdr_Rrtype (rr_hdr r) =? t | None => false end.

Definition without (t : Z) (rrs : list (option RR)) : list (option RR) :=
  List.filter (fun rr => negb (is_type t rr)) rrs.

Lemma drop_type_spec t rrs : no_nil rrs -> drop_type t rrs = Some (without t rrs).
Proof.
  induction 1 as [|rr rrs [r ->] _ IH]; [done|]. simpl. rewrite IH. done.
Qed.

Lemma without_no_nil t rrs : no_nil rrs -> no_nil (without t rrs).
Proof.
  intros Hn. unfold no_nil in *. rewrite Forall_forall in *. intros rr Hin.
  apply Hn. apply list_elem_of_In in Hin. apply list_elem_of_In.
  unfold without in Hin. rewrite filter_In in Hin. by destruct Hin.
Qed.

(** The signatures a client gets: all of them when it set DNSSEC OK, none
    otherwise. *)
Definition wants_sigs (query : Msg) : bool :=
  match find_opt query with Some (_, h, _) => OPT_Do h | None => false end.

Definition for_client (query : Msg) (rrs : list (option RR)) : list (option RR) :=
  if wants_sigs query then rrs else without TypeRRSIG rrs.

Lemma sanitize_spec m query :
  no_nil (m_Answer m) -> no_nil (m_Ns m) -> no_nil (m_Extra m) ->
  exists m', sanitizeForClient m query = Some m' /\
    m_Answer m' = for_client query (m_Answer m) /\ m_Ns m' = for_client query (m_Ns m) /\
    m_Id m' = m_Id m /\ m_Response m' = m_Response m /\ m_Rcode m' = m_Rcode m /\
    m_Question m' = m_Question m /\
    match find_opt query with
    | None => m_Extra m' = for_client query (without TypeOPT (m_Extra m))
    | Some (_, h, _) => exists h',
        m_Extra m' = for_client query (without TypeOPT (m_Extra m)) ++ [Some (RR_OPT h' [])] /\
        hdr_Rrtype h' = TypeOPT /\ OPT_Do h' = OPT_Do h /\
        (is_u16 (OPT_UDPSize h) -> OPT_UDPSize h' = Z.max MinMsgSize (OPT_UDPSize h))
    end.
Proof.
  intros Ha Hn Hx. unfold sanitizeForClient, for_client, wants_sigs.
  rewrite (drop_type_spec TypeOPT _ Hx). cbn [mbind option_bind].
  set (m1 := set_Extra m _).
  assert (m_Answer m1 = m_Answer m /\ m_Ns m1 = m_Ns m /\ m_Extra m1 = without TypeOPT (m_Extra m) /\
    m_Id m1 = m_Id m /\ m_Response m1 = m_Response m /\ m_Rcode m1 = m_Rcode m /\
    m_Question m1 = m_Question m) as (E1 & E2 & E3 & E4 & E5 & E6 & E7) by by destruct m.
  clearbody m1. set (ws := match find_opt query with Some (_, h, _) => OPT_Do h | None => false end).
  assert (exists m2, (if negb ws then
         answer ← dropSigs (m_Answer m1);
         ns ← dropSigs (m_Ns m1);
         extra ← dropSigs (m_Extra m1);
         Some (set_Extra (set_Ns (set_Answer m1 answer) ns) extra)
       else Some m1) = Some m2 /\
    m_Answer m2 = (if ws then m_Answer m else without TypeRRSIG (m_Answer m)) /\
    m_Ns m2 = (if ws then m_Ns m else without TypeRRSIG (m_Ns m)) /\
    m_Extra m2 = (if ws then without TypeOPT (m_Extra m)
                  else without TypeRRSIG (without TypeOPT (m_Extra m))) /\
    m_Id m2 = m_Id m /\ m_Response m2 = m_Response m /\ m_Rcode m2 = m_Rcode m /\
    m_Question m2 = m_Question m) as (m2 & -> & F1 & F2 & F3 & F4).
  { destruct ws; cbn [negb]; [by exists m1|]. unfold dropSigs. rewrite E1, E2, E3.
    rewrite !drop_type_spec by auto using without_no_nil. cbn [mbind option_bind].
    eexists. split; [done|]. by destruct m1. }
  cbn [mbind option_bind]. eexists. split; [done|]. subst ws.
  destruct (find_opt query) as [[[i h] o]|]; [|by destruct F4 as (? & ? & ? & ?); split_and!].
  set (size := if _ <? _ then _ else _).
  destruct (SetEdns0_spec m2 size (OPT_Do h)) as (h' & -> & Ht & Hd & Hs).
  assert (forall l, m_Answer (set_Extra m2 l) = m_Answer m2 /\ m_Ns (set_Extra m2 l) = m_Ns m2 /\
    m_Id (set_Extra m2 l) = m_Id m2 /\ m_Response (set_Extra m2 l) = m_Response m2 /\
    m_Rcode (set_Extra m2 l) = m_Rcode m2 /\ m_Question (set_Extra m2 l) = m_Question m2) as Hset
    by by destruct m2.
  destruct (Hset (m_Extra m2 ++ [Some (RR_OPT h' [])])) as (-> & -> & -> & -> & -> & ->).
  rewrite F1, F2, m_Extra_set, F3. destruct F4 as (-> & -> & -> & ->).
  split_and!; try done. exists h'. split_and!; try done. intros Hu.
  assert (size = Z.max MinMsgSize (OPT_UDPSize h)) as Hsize
    by (subst size; destruct (OPT_UDPSize h <? MinMsgSize) eqn:Es; zbool; lia).
  rewrite <-Hsize. apply Hs. rewrite Hsize. unfold is_u16, MinMsgSize in *. lia.
Qed.

(** The reply matches what the client asked for: a client that sent
    no OPT record gets none back, one that did gets exactly one, freshly made with
    its own DNSSEC OK bit, at least 512 bytes of payload and no options (in
    particular not the module's loop token); signatures are delivered only to a
    client that set DNSSEC OK, and all other records are kept in order. *)
Theorem sanitized_reply_matches_client (m query : Msg) :
  no_nil (m_Answer m) -> no_nil (m_Ns m) -> no_nil (m_Extra m) ->
  exists m', sanitizeForClient m query = Some m' /\
    m_Answer m' = for_client query (m_Answer m) /\ m_Ns m' = for_client query (m_Ns m) /\
    m_Rcode m' = m_Rcode m /\ m_Question m' = m_Question m /\
    match find_opt query with
    | None => m_Extra m' = for_client query (without TypeOPT (m_Extra m))
    | Some (_, h, _) => exists h',
        m_Extra m' = for_client query (without TypeOPT (m_Extra m)) ++ [Some (RR_OPT h' [])] /\
        hdr_Rrtype h' = TypeOPT /\ OPT_Do h' = OPT_Do h /\
        (is_u16 (OPT_UDPSize h) -> OPT_UDPSize h' = Z.max MinMsgSize (OPT_UDPSize h))
    end.
Proof.
  intros Ha Hn Hx. destruct (sanitize_spec m query Ha Hn Hx) as (m' & H). exists m'. naive_solver.
Qed.

End Clean.

Section Packet.
Context `{ML : MiekgLaws} `{E : Env} `{H : !Handler} `{HP : !HandlerPromise H}.
Variable token : list Z.

(** A reply to [msg]: its id, its first question, the QR bit. *)
Definition replies_to (msg : Msg) (q : Question) (m : Msg) : Prop :=
  m_Id m = m_Id msg /\ m_Response m = true /\ m_Question m = [q].

Lemma SetReply_replies m msg q qs :
  m_Question msg = q :: qs -> forall rc, replies_to msg q (set_Rcode (SetReply m msg) rc).
Proof.
  intros Hq rc. pose proof (SetReply_Id m msg) as H1. pose proof (SetReply_Response m msg) as H2.
  pose proof (SetReply_Question m q qs msg Hq) as H3. destruct (SetReply m msg). done.
Qed.

Lemma reply_message_ok msg q qs resp m :
  m_Question msg = q :: qs -> (forall r, resp = Some r -> is_Some (resp_RawMsg r)) ->
  reply_message msg resp = Ok m ->
  replies_to msg q m /\ no_nil (m_Answer m) /\ no_nil (m_Ns m) /\ no_nil (m_Extra m).
Proof.
  intros Hq Hraw. unfold reply_message. destruct resp as [r|].
  - destruct (Hraw r eq_refl) as [raw Hr]. rewrite Hr.
    destruct (Msg_Pack raw) as [b|]; [|done]. destruct (Msg_Unpack b) as [u|] eqn:Hu; [|done].
    intros [= <-]. split; [by eapply SetReply_replies|].
    apply Msg_Unpack_no_nil in Hu. rewrite !Forall_app in Hu. destruct Hu as (H1 & H2 & H3).
    destruct (SetReply_sections u msg) as (S1 & S2 & S3). rewrite <-S1 in H1.
    rewrite <-S2 in H2. rewrite <-S3 in H3. by destruct (SetReply u msg).
  - intros [= <-]. destruct (SetReply_sections new_Msg msg) as (S1 & S2 & S3).
    rewrite S1, S2, S3. split; [|split_and!; constructor].
    split_and!; [apply SetReply_Id|apply SetReply_Response|by eapply SetReply_Question].
Qed.

(** What [handlePacket] leaves for a message with the first question [q]. *)
Definition packet_ok (st : HState) (msg : Msg) (q : Question)
    (r : option (HState * loop_log * list Msg)) : Prop :=
  exists st' log' m, r = Some (st', log', [m]) /\ HInv st' /\ replies_to msg q m /\
    (carriesOwnToken token (Some msg) = true -> st' = st /\ m_Rcode m = RcodeServerFailure).

Lemma handlePacket_ok ctx st log client msg q qs :
  HInv st -> m_Question msg = q :: qs ->
  safe (fun _ => True) (packet_ok st msg q) (handlePacket token ctx st log client (Some msg)).
Proof.
  intros Hi Hq. unfold handlePacket. rewrite Hq.
  destruct (carriesOwnToken token (Some msg)) eqn:Hloop.
  { apply safe_any; [by apply safe_op|intros t]. destruct (loopDetected t log) as [log' b].
    apply safe_ret. eexists _, _, _. split; [done|]. split; [done|]. rewrite SetRcode_spec.
    split; [by eapply SetReply_replies|]. intros _. split; [done|]. by destruct (SetReply new_Msg msg). }
  eapply safe_bind; [by apply (promise ctx st (packet_query q client))|].
  intros r (st' & res & -> & Hi' & Hraw).
  assert (forall log m, replies_to msg q m -> safe (fun _ => True) (packet_ok st msg q)
    (ret (Some (st', log, [m])))) as Hret.
  { intros log0 m Hm. apply safe_ret. eexists _, _, _. split; [done|]. split; [done|].
    split; [done|]. by rewrite Hloop. }
  assert (replies_to msg q (servfail msg)) as Hsf by by eapply SetReply_replies.
  destruct res as [resp|]; [|by apply Hret].
  destruct (reply_message msg resp) as [m|] eqn:Hm; [|by apply Hret].
  destruct (reply_message_ok msg q qs resp m Hq) as ((R1 & R2 & R3) & N1 & N2 & N3); [|done|].
  { intros r ->. by apply Hraw. }
  destruct (sanitize_spec m msg N1 N2 N3) as (m' & -> & _ & _ & S1 & S2 & _ & S3 & _).
  apply Hret. split_and!; congruence.
Qed.

(** C36. Every message with a question gets exactly one reply, with the
    client's id and question; a message without one gets none. A query that
    carries this process's loop token is answered SERVFAIL and never reaches the
    handler. The listener does not panic. *)
Theorem packet_gets_one_reply (ctx : option error) (st : HState) (log : loop_log)
    (client : client_addr) (msg : Msg) (w : World) :
  HInv st ->
  (m_Question msg = [] ->
     handlePacket token ctx st log client (Some msg) w = (Some (st, log, []), w, [])) /\
  (forall q qs, m_Question msg = q :: qs ->
     exists r w' t, handlePacket token ctx st log client (Some msg) w = (r, w', t) /\
       packet_ok st msg q r).
Proof.
  intros Hi. split.
  - intros Hq. unfold handlePacket. by rewrite Hq.
  - intros q qs Hq. destruct (handlePacket token ctx st log client (Some msg) w) as [[r w'] t] eqn:Hr.
    exists r, w', t. split; [done|]. by apply (handlePacket_ok ctx st log client msg q qs Hi Hq) in Hr as [? _].
Qed.

End Packet.

(** ** The module's handler keeps the promise *)

Section Instance_.
Context `{ML : MiekgLaws} `{E : Env} `{RX : Regexp}.
Variable token : list Z.

(** The handler as the listener sees it; the jobs it starts stay with it. *)
#[export] Instance dns_handler : Handler := {|
  HState := system;
  HandleQuery_ ctx s q :=
    let! r := HandleQuery token ctx (sys_module s) q in
    ret (match r with
         | Some (md, res, new) => Some (mkSystem md (sys_jobs s ++ new), res)
         | None => None
         end);
|}.

#[export] Instance dns_handler_promise : HandlerPromise dns_handler.
Proof.
  refine {| HInv := system_good |}. intros ctx s q [Hg Hj]. cbn [HandleQuery_ dns_handler].
  eapply safe_bind; [by apply HandleQuery_good|].
  intros r (md' & res & jobs & -> & Hg' & Hc & Hn & _ & Ha). apply safe_ret.
  eexists _, _. split; [done|]. split.
  - split; [done|]. cbn [sys_jobs sys_module]. apply Forall_app. split; [|done].
    eapply Forall_impl; [exact Hj|]. intros j. by apply job_good_keep.
  - intros resp ->. destruct (Ha resp eq_refl) as (_ & _ & raw & x & rest & -> & _). by eexists.
Defined.

End Instance_.

(** ** Sockets *)

Section Sockets.
Context `{E : Env}.

(** The sockets open after a trace, newest first. *)
Fixpoint opened (t : list event) (acc : list (string * string)) : list (string * string) :=
  match t with
  | [] => acc
  | EvOpened n a :: t => opened t ((n, a) :: acc)
  | EvClosed n a :: t => opened t (filter (fun x => x <> (n, a)) acc)
  | _ :: t => opened t acc
  end.

Lemma opened_app t t' acc : opened (t ++ t') acc = opened t' (opened t acc).
Proof. revert acc. induction t as [|e t IH]; intros acc; [done|]. destruct e; simpl; apply IH. Qed.

Lemma opened_cons e t acc : opened (e :: t) acc = opened t (opened [e] acc).
Proof. apply (opened_app [e] t). Qed.

(** The sockets of a list of servers. *)
Definition sockets_of (servers : list string) (x : string * string) : Prop :=
  exists a, a ∈ servers /\ (x = ("udp", a) \/ x = ("tcp", a)).

(** [Shutdown] of the server on the socket returned an error. *)
Definition refused (x : string * string) (t : list event) : Prop := EvRefused (fst x) (snd x) ∈ t.

Lemma opened_shutdown n a (err : option error) acc x :
  x ∈ opened [match err with None => EvClosed n a | Some _ => EvRefused n a end] acc ->
  x ∈ acc /\ (x = (n, a) -> refused x [match err with None => EvClosed n a | Some _ => EvRefused n a end]).
Proof.
  destruct err; cbn.
  - intros Hx. split; [done|]. intros ->. by apply list_elem_of_singleton.
  - rewrite list_elem_of_filter. naive_solver.
Qed.

(** Sockets still open after a shutdown were open before, and those of the
    servers shut down belong to a [Shutdown] that returned an error. *)
Lemma shutdown_all_closes servers : forall last w r w' t acc,
  shutdown_all servers last w = (r, w', t) ->
  forall x, x ∈ opened t acc -> x ∈ acc /\ (sockets_of servers x -> refused x t).
Proof.
  induction servers as [|a servers IH]; intros last w r w' t acc; cbn [shutdown_all].
  - intros [= <- <- <-] x Hx. split; [done|]. by intros (a & Ha%elem_of_nil & _).
  - unfold bind at 1, shutdown at 1. destruct (env_shutdown "udp" a w) as [ue w1].
    unfold bind at 1, shutdown at 1. destruct (env_shutdown "tcp" a w1) as [te w2].
    destruct (shutdown_all servers _ w2) as [[r3 w3] t3] eqn:Hs. intros [= <- <- <-] x.
    rewrite opened_cons, (opened_cons _ t3). intros [H1 H2]%(IH _ _ _ _ _ _ Hs).
    apply opened_shutdown in H1 as [[H1 H3]%opened_shutdown H4]. split; [done|].
    intros (b & [->|Hb]%elem_of_cons & Hx); unfold refused in *; rewrite !elem_of_cons.
    + destruct Hx as [->| ->].
      * left. by apply list_elem_of_singleton, H3.
      * right. left. by apply list_elem_of_singleton, H4.
    + right. right. apply H2. by exists b.
Qed.

Lemma startPair_trace a w r w' t acc :
  startPair a w = (r, w', t) ->
  (r = Ok tt /\ opened t acc = ("tcp", a) :: ("udp", a) :: acc) \/
  ((exists e, r = Err e) /\ forall x, x ∈ opened t acc -> x ∈ acc).
Proof.
  unfold startPair, bind, listen, emit, lift, ret.
  destruct (env_listen "udp" a w) as [[err|] w1]; [intros [= <- <- <-]; right; eauto|].
  destruct (env_listen "tcp" a w1) as [[err|] w2]; intros [= <- <- <-]; [|by left].
  right. split; [eauto|]. intros x. simpl. rewrite list_elem_of_filter, elem_of_cons. naive_solver.
Qed.

(** Only sockets whose [Shutdown] returned an error are open. *)
Definition only_refused (t : list event) (acc : list (string * string)) : Prop :=
  forall x, x ∈ acc -> refused x t.

(** Exactly the sockets of [l] are open. *)
Definition all_open (l : DnsListener) (acc : list (string * string)) : Prop :=
  forall x, x ∈ acc <-> sockets_of (l_servers l) x.

Lemma start_all_spec addrs : forall l w l' res w' t acc,
  (forall x, x ∈ acc -> sockets_of (l_servers l) x) ->
  (forall x, sockets_of (l_servers l) x -> x ∈ acc) ->
  start_all l addrs w = ((l', res), w', t) ->
  l_config l' = l_config l /\
  (if is_ok res then l_servers l' = l_servers l ++ addrs /\ l_ctx l' = l_ctx l /\
                     all_open l' (opened t acc)
   else l_servers l' = [] /\ only_refused t (opened t acc)).
Proof.
  induction addrs as [|a addrs IH]; intros l w l' res w' t acc H1 H2; cbn [start_all].
  - intros [= <- <- <- <-]. split; [done|]. cbn. rewrite app_nil_r. split_and!; try done.
    intros x. naive_solver.
  - unfold bind at 1. destruct (startPair a w) as [[r w1] t1] eqn:Hp.
    destruct (startPair_trace a w r w1 t1 acc Hp) as [[-> Ho]|[[e ->] Ho]].
    + destruct (start_all _ addrs w1) as [[[l2 r2] w2] t2] eqn:Hs.
      intros [= <- <- <- <-]. rewrite opened_app, Ho. eapply IH in Hs; [| |].
      * destruct Hs as [Hc Hs]. split; [exact Hc|]. cbn [l_servers l_ctx] in Hs.
        rewrite <-app_assoc in Hs. destruct (is_ok r2); [exact Hs|]. destruct Hs as [Hl Hx].
        split; [exact Hl|]. intros x Hxo. unfold refused. apply elem_of_app. right. by apply Hx.
      * intros x [->|[->|Hx]%elem_of_cons]%elem_of_cons; cbn [l_servers].
        -- exists a. rewrite elem_of_app, list_elem_of_singleton. auto.
        -- exists a. rewrite elem_of_app, list_elem_of_singleton. auto.
        -- destruct (H1 x Hx) as (b & Hb & Hx'). exists b. rewrite elem_of_app. auto.
      * intros x (b & Hb & Hx). cbn [l_servers] in Hb. rewrite !elem_of_cons.
        apply elem_of_app in Hb as [Hb|Hb%list_elem_of_singleton]; [|naive_solver].
        right. right. apply H2. by exists b.
    + unfold bind, Listener_Stop. unfold bind.
      destruct (shutdown_all (l_servers l) None w1) as [[le w2] t2] eqn:Hs.
      assert (only_refused (t1 ++ t2) (opened (t1 ++ t2) acc)) as Hnil.
      { intros x. rewrite opened_app. intros [Hx Hn]%(shutdown_all_closes _ _ _ _ _ _ _ Hs).
        unfold refused. apply elem_of_app. right. apply Hn, H1, Ho, Hx. }
      destruct le; intros [= <- <- <- <-]; cbn; rewrite !app_nil_r; done.
Qed.

(** What a start leaves: the listener's servers and the open sockets. *)
Lemma Listener_Start_spec config w w' l' res t :
  Listener_Start (NewDnsListener (Some config) true) w = ((l', res), w', t) ->
  Listener_Healthy l' = is_ok res /\
  (if is_ok res then l_servers l' = ListenAddr config :: ExtraListenAddrs config /\
                     all_open l' (opened t [])
   else only_refused t (opened t [])).
Proof.
  unfold Listener_Start. cbn [NewDnsListener l_config l_handler negb].
  destruct (ListenerConfig_Validate config) as [[]|err].
  2: { intros [= <- <- <- <-]. split; [done|]. by intros x ?%elem_of_nil. }
  intros Hs. eapply (start_all_spec _ _ _ _ _ _ _ []) in Hs; [| |].
  - destruct Hs as [_ Hs]. unfold Listener_Healthy. destruct res as [[]|e]; cbn [is_ok] in *.
    + destruct Hs as (Hl & Hc & Ho). rewrite Hl, Hc. by split_and!.
    + destruct Hs as [Hl Ho]. by rewrite Hl.
  - by intros x ?%elem_of_nil.
  - intros x (b & Hb%elem_of_nil & _). done.
Qed.

(** Starting a listener opens the UDP and TCP sockets of the
    primary and all extra addresses, or fails, and then the only sockets left open
    are those whose server refused to shut down because it was not serving yet;
    the listener reports healthy exactly when the start succeeded. *)
Theorem listener_start_all_or_nothing (config : DnsListenerConfig) (w w' : World)
    (l' : DnsListener) (res : result unit) (t : list event) :
  Listener_Start (NewDnsListener (Some config) true) w = ((l', res), w', t) ->
  Listener_Healthy l' = is_ok res /\
  (if is_ok res
   then forall x, x ∈ opened t [] <-> sockets_of (ListenAddr config :: ExtraListenAddrs config) x
   else only_refused t (opened t [])).
Proof.
  intros [Hh Ho]%Listener_Start_spec. split; [exact Hh|]. destruct (is_ok res); [|exact Ho].
  destruct Ho as [Hl Ho]. intros x. rewrite (Ho x). by rewrite Hl.
Qed.

End Sockets.

Section Examples.
#[local] Existing Instance Ref.miekg_ref.
#[local] Existing Instance Ref.miekg_ref_laws.
#[local] Existing Instance Script.script_env.
#[local] Existing Instance LiteralRe.literal_re.

Definition signed_answer : Msg :=
  set_Extra (set_Answer ex_raw (m_Answer ex_raw ++
    [Some (RR_other (mkHdr "example.com." TypeRRSIG ClassINET 300) [1])]))
    [Some (RR_OPT (mkHdr "." TypeOPT 4096 0) [EDNS0_LOCAL loopOptionCode fixed_token])].

Lemma sanitized_reply_matches_client_witness :
  exists m', sanitizeForClient signed_answer plain_query = Some m' /\
    length (m_Answer m') = 2%nat /\ m_Extra m' = [].
Proof.
  destruct (sanitized_reply_matches_client signed_answer plain_query) as (m' & Hm & Ha & _ & _ & _ & Hx).
  - repeat constructor; by eexists.
  - constructor.
  - repeat constructor; by eexists.
  - exists m'. split; [exact Hm|]. split; [rewrite Ha; vm_compute; reflexivity|].
    exact Hx.
Defined.

Lemma ex_system_good : system_good ex_system.
Proof. apply (sys_reachable_good (E := Script.script_env) fixed_token). apply sys_start, ex_system_fresh. Qed.

Lemma packet_gets_one_reply_witness :
  exists r w' t,
    handlePacket (H := dns_handler (E := Script.script_env) fixed_token) fixed_token None ex_system
      (mkLoopLog 0 0) (UDPAddr [10; 0; 0; 2]) (Some plain_query) one_answer = (r, w', t) /\
    packet_ok (HP := dns_handler_promise (E := Script.script_env) fixed_token) fixed_token ex_system
      plain_query (mkQuestion "example.com." TypeA ClassINET) r.
Proof.
  destruct (packet_gets_one_reply (HP := dns_handler_promise (E := Script.script_env) fixed_token)
    fixed_token None ex_system (mkLoopLog 0 0) (UDPAddr [10; 0; 0; 2]) plain_query one_answer
    ex_system_good) as [_ H].
  exact (H (mkQuestion "example.com." TypeA ClassINET) [] eq_refl).
Defined.

(** The second address cannot be bound to TCP. *)
Definition port_taken : Script.script :=
  Script.mkScript 0 [] [] [Ok tt; Ok tt; Ok tt; Err Script.broken] [].

Lemma listener_start_all_or_nothing_witness :
  match Listener_Start (E := Script.script_env)
    (NewDnsListener (Some (mkListenerConfig "0.0.0.0:52353" ["127.2.0.17:53"] 5)) true) port_taken with
  | ((l', res), _, t) => is_ok res = false /\ Listener_Healthy l' = false /\
      only_refused t (opened t []) /\ opened t [] = []
  end.
Proof.
  destruct (Listener_Start (E := Script.script_env) _ port_taken) as [[[l' res] w'] t] eqn:Hs.
  assert (is_ok res = false /\ opened t [] = []) as [Hr Hn].
  { change res with (snd (fst (fst ((l', res), w', t)))).
    change t with (snd ((l', res), w', t)) at 2. rewrite <-Hs. split; vm_compute; reflexivity. }
  destruct (listener_start_all_or_nothing (E := Script.script_env) _ _ _ _ _ _ Hs) as [Hh Ho].
  rewrite Hr in Ho, Hh. by split_and!.
Defined.

End Examples.
