(* ===== verification/DnsModule.v ===== *)
(** * The module's life cycle (core/dns/module.go, dns_unix.go, dns.go)

    [NewDnsModule], [Start] with bootstrap resolution and address completion,
    the choice of the default upstream, the servers bootstrap may ask, [Stop] and
    [Healthy]; and the reading of resolv.conf.  The lines of that file, Go's URL
    parser and the clock are the environment's. *)

From S2P Require Import Prelude DnsMsg DnsConfig NetIP Rule Router Loop Net Upstream Cache.
From S2P Require Import Metrics Handler Listener.

#[local] Open Scope Z_scope.
#[local] Open Scope go_scope.

(** ** resolv.conf *)

(** [strings.IndexByte(t, c) >= 0] *)
Definition in_bytes (t : string) (c : Ascii.ascii) : bool := has_byte c t.

Fixpoint countAnyByte (s t : string) : nat :=
  match s with
  | EmptyString => 0
  | String c s' => if in_bytes t c then S (countAnyByte s' t) else countAnyByte s' t
  end.

(** The loop: [cur] is [s[last:i]], the field being read. *)
Fixpoint split_loop (s t cur : string) : list string :=
  match s with
  | EmptyString => if (0 <? s_len cur)%nat then [cur] else []
  | String c s' =>
    if in_bytes t c then
      if (0 <? s_len cur)%nat then cur :: split_loop s' t EmptyString
      else split_loop s' t EmptyString
    else split_loop s' t (cur +:+ String c EmptyString)
  end.

Definition splitAtBytes (s t : string) : list string := split_loop s t EmptyString.

(** " \r\t\n" *)
Definition field_separators : string :=
  String " "%char (String (Ascii.ascii_of_nat 13) (String (Ascii.ascii_of_nat 9)
    (String (Ascii.ascii_of_nat 10) EmptyString))).

Definition getFields (s : string) : list string := splitAtBytes s field_separators.

Definition defaultDNS : list AddrPort :=
  [mkAddrPort (AddrV4 [127; 0; 0; 1]) 53; mkAddrPort (AddrV6 IPv6loopback []) 53].

(** One line of the file. *)
Definition nameserver_of (line : string) : option AddrPort :=
  match getFields line with
  | f0 :: f1 :: _ =>
    if String.eqb f0 "nameserver" then (fun a => mkAddrPort a 53) <$> ParseAddr f1 else None
  | _ => None
  end.

(** [None]: the file cannot be opened. *)
Definition GetSystemDNS (resolv_conf : option (list string)) : list AddrPort :=
  match resolv_conf with
  | None => defaultDNS
  | Some lines => omap nameserver_of lines
  end.

(** ** Bootstrap servers *)

Definition wellKnownPublicDns : list string :=
  ["223.5.5.5:53"; "223.6.6.6:53"; "[2400:3200::1]:53"; "[2400:3200:baba::1]:53"; "119.29.29.29:53";
   "8.8.8.8:53"; "8.8.4.4:53"; "[2001:4860:4860::8888]:53"; "[2001:4860:4860::8844]:53";
   "1.1.1.1:53"; "1.0.0.1:53"; "[2606:4700:4700::1111]:53"; "[2606:4700:4700::1001]:53"].

Definition selfAddrs : list string := ["127.0.0.1:53"; "127.2.0.17:53"; "127.0.0.1:5353"].

Definition isOwnAddress (ap : AddrPort) : bool :=
  if negb (Addr_IsLoopback (ap_Addr ap)) && negb (Addr_IsPrivate (ap_Addr ap)) then false
  else existsb (fun addr => match ParseAddrPort addr with
                            | Some parsed => bool_decide (parsed = ap)
                            | None => false
                            end) selfAddrs.

(** The servers collected so far and the texts already seen. *)
Fixpoint addServers (list_ : list string) (st : list AddrPort * gset string)
    : list AddrPort * gset string :=
  match list_ with
  | [] => st
  | s :: rest =>
    let '(servers, seen) := st in
    if decide (s ∈ seen) then addServers rest st
    else
      match ParseAddrPort s with
      | Some ap => addServers rest (servers ++ [ap], {[s]} ∪ seen)
      | None => addServers rest st
      end
  end.

Fixpoint add_system (list_ : list AddrPort) (st : list AddrPort * gset string)
    : list AddrPort * gset string :=
  match list_ with
  | [] => st
  | ap :: rest =>
    let s := AddrPort_String ap in
    if isOwnAddress ap then add_system rest st
    else
      let '(servers, seen) := st in
      if decide (s ∈ seen) then add_system rest st
      else add_system rest (servers ++ [ap], {[s]} ∪ seen)
  end.

Definition collectBootstrapDns (resolv_conf : option (list string)) (config : DnsModuleConfig)
    : list AddrPort :=
  let st := addServers (mc_BootstrapDns config) ([], ∅) in
  let st := add_system (GetSystemDNS resolv_conf) st in
  let st := addServers wellKnownPublicDns st in
  fst st.

(** ** The default upstream *)

Definition id_or_addr (u : UpstreamConfig) : string :=
  if String.eqb (uc_ID u) "" then uc_Addr u else uc_ID u.

Definition selectDefaultUpstream (config : DnsModuleConfig) : string :=
  if negb (String.eqb (mc_DefaultUpstream config) "") then mc_DefaultUpstream config
  else
    let defaultUpstream :=
      foldl (fun acc u => if negb (uc_Bootstrap u) then id_or_addr u else acc) EmptyString
        (mc_Upstreams config) in
    if String.eqb defaultUpstream "" then
      match last (mc_Upstreams config) with
      | Some u => id_or_addr u
      | None => defaultUpstream
      end
    else defaultUpstream.

(** ** Addresses *)

Definition set_addr (u : UpstreamConfig) (addr : string) : UpstreamConfig :=
  mkUpstreamConfig (uc_ID u) addr (uc_Protocol u) (uc_ProxyTag u) (uc_Bootstrap u) (uc_ServerName u).
Definition set_server_name (u : UpstreamConfig) (name : string) : UpstreamConfig :=
  mkUpstreamConfig (uc_ID u) (uc_Addr u) (uc_Protocol u) (uc_ProxyTag u) (uc_Bootstrap u) name.

(** The second loop of [Start]: a missing port is added. *)
Definition add_default_port (u : UpstreamConfig) : UpstreamConfig :=
  if String.eqb (uc_Protocol u) "https" then u
  else
    match SplitHostPort (uc_Addr u) with
    | Ok _ => u
    | Err _ =>
      let port := if String.eqb (uc_Protocol u) "tcp-tls" || String.eqb (uc_Protocol u) "tls"
                  then "853" else "53" in
      set_addr u (JoinHostPort (uc_Addr u) port)
    end.

Section Module.
Context `{M : Miekg} `{E : Env} `{RX : Regexp}.
Variable token : list Z.
(** [url.Parse(s)] and [Hostname()] of the result. *)
Variable url_Hostname : string -> option string.

(** The first loop of [Start]: resolved names are replaced, the name is kept for
    TLS. *)
Definition bootstrap_upstream (resolved : gmap string string) (u : UpstreamConfig)
    : UpstreamConfig :=
  if uc_Bootstrap u then u
  else if String.eqb (uc_Protocol u) "https" then
    match url_Hostname (uc_Addr u) with Some h => set_server_name u h | None => u end
  else
    match SplitHostPort (uc_Addr u) with
    | Err _ =>
      match resolved !! uc_Addr u with
      | Some ip => set_addr u (ip +:+ ":53")
      | None => u
      end
    | Ok (host, port) =>
      if is_some (ParseIP host) then u
      else
        let u' := set_server_name u host in
        match resolved !! host with
        | Some ip => set_addr u' (JoinHostPort ip port)
        | None => u'
        end
    end.

(** ** Bootstrap resolution *)

(** The first A record of an answer. *)
Definition first_a (answer : list (option RR)) : option (list Z) :=
  head (omap (fun rr => match rr with Some (RR_A _ a) => Some a | _ => None end) answer).

Fixpoint resolve_domain (servers : list AddrPort) (domain : string) : IO (option string) :=
  match servers with
  | [] => ret None
  | srv :: rest =>
    let! id := new_id in
    let m := SetQuestion id new_Msg (Fqdn domain) TypeA in
    let m := set_RecursionDesired m true in
    let! x := client_exchange "udp" "" m (AddrPort_String srv) in
    if is_some (x_err x) then resolve_domain rest domain
    else
      match x_resp x with
      | None => resolve_domain rest domain
      | Some resp =>
        match first_a (m_Answer resp) with
        | Some a => ret (Some (IP_String a))
        | None => resolve_domain rest domain
        end
      end
  end.

(** A domain that occurs twice is resolved twice; an earlier result stays when
    the later attempt finds nothing. *)
Fixpoint resolve_domains (servers : list AddrPort) (domains : list string)
    (resolved : gmap string string) : IO (gmap string string) :=
  match domains with
  | [] => ret resolved
  | domain :: rest =>
    if String.eqb domain "" then resolve_domains servers rest resolved
    else if is_some (ParseIP domain) then
      resolve_domains servers rest (<[domain := domain]> resolved)
    else
      let! r := resolve_domain servers domain in
      resolve_domains servers rest
        (match r with Some ip => <[domain := ip]> resolved | None => resolved end)
  end.

Definition resolveBootstrap (resolv_conf : option (list string)) (config : DnsModuleConfig)
    (domains : list string) : IO (gmap string string) :=
  match domains with
  | [] => ret ∅
  | _ =>
    match collectBootstrapDns resolv_conf config with
    | [] => ret ∅
    | sysServers => resolve_domains sysServers domains ∅
    end
  end.

(** ** Life cycle *)

(** The module with its listener and the process-wide egress interface. *)
Record module_state := mkState {
  ms_module : DnsModule;
  ms_listener : option DnsListener;
  ms_egress : string;
}.

Definition zero_stats (now : Z) : DnsStats := mkDnsStats 0 ∅ 0 0 0 0 0 now.

Definition NewDnsModule (config : option DnsModuleConfig) : IO module_state :=
  let config := default DefaultDnsModuleConfig config in
  let! t1 := now in
  let! t2 := now in
  ret (mkState (mkModule config None None None (zero_stats t1) (Some (NewDnsMetrics t2)) false false)
         None (mc_EgressInterface config)).

Definition SetDispatcher_module (s : module_state) (d : bool) : module_state :=
  let md := ms_module s in
  mkState (mkModule (md_config md) (md_router md) (md_upstreamMgr md) (md_cache md) (md_stats md)
             (md_metrics md) d (md_healthy md)) (ms_listener s) (ms_egress s).

Definition set_upstreams (c : DnsModuleConfig) (us : list UpstreamConfig) : DnsModuleConfig :=
  mkModuleConfig (mc_Listener c) (mc_Cache c) us (mc_Rules c) (mc_DefaultUpstream c) (mc_ProxyMap c)
    (mc_Bootstrap c) (mc_BootstrapDns c) (mc_EgressInterface c).

(** The manager [Start] builds from the completed configuration. *)
Definition start_manager (config : DnsModuleConfig) (resolved : gmap string string)
    (dispatcher : bool) : UpstreamManager :=
  let mgr := NewUpstreamManager (mc_Upstreams config) in
  let mgr := SetBootstrapIPs mgr resolved in
  let mgr := if dispatcher then SetDispatcher mgr true else mgr in
  if decide (mc_ProxyMap config = ∅) then mgr
  else SetProxyAddrResolver mgr (Some (fun tag => default EmptyString (mc_ProxyMap config !! tag))).

(** The names resolved and the upstreams with them. *)
Definition bootstrap_phase (resolv_conf : option (list string)) (config : DnsModuleConfig)
    : IO (gmap string string * list UpstreamConfig) :=
  match mc_Bootstrap config with
  | [] => ret (∅, mc_Upstreams config)
  | domains =>
    let! resolved := resolveBootstrap resolv_conf config domains in
    ret (resolved, map (bootstrap_upstream resolved) (mc_Upstreams config))
  end.

Definition Start (resolv_conf : option (list string)) (s : module_state)
    : IO (module_state * result unit) :=
  let md := ms_module s in
  if md_healthy md then ret (s, Err (Errorf "dns module: already started" []))
  else
    match ModuleConfig_Validate (md_config md) with
    | Err err => ret (s, Err (Wrapf "dns module: invalid config: %w" [] err))
    | Ok _ =>
      let! t1 := now in
      let! t2 := now in
      let stats := zero_stats t1 in
      let metrics := Reset t2 <$> md_metrics md in
      let config := md_config md in
      let! boot := bootstrap_phase resolv_conf config in
      let config := set_upstreams config (map add_default_port (snd boot)) in
      let mgr := start_manager config (fst boot) (md_dispatcher md) in
      let cache := if cfg_Enabled (mc_Cache config) then Some (NewDnsCache (mc_Cache config)) else None in
      let rules := map rule_of_config (mc_Rules config) in
      match NewRouter rules (mc_Upstreams config) (selectDefaultUpstream config) with
      | Err err =>
        ret (mkState (mkModule config (md_router md) (Some mgr) cache stats metrics (md_dispatcher md)
                        false) (ms_listener s) (ms_egress s),
             Err (Wrapf "dns module: failed to create router: %w" [] err))
      | Ok router =>
        let! r := Listener_Start (NewDnsListener (Some (mc_Listener config)) true) in
        let '(listener, res) := r in
        match res with
        | Err err =>
          ret (mkState (mkModule config (Some router) (Some mgr) cache stats metrics
                          (md_dispatcher md) false) (Some listener) (ms_egress s),
               Err (Wrapf "dns module: failed to start listener: %w" [] err))
        | Ok _ =>
          ret (mkState (mkModule config (Some router) (Some mgr) cache stats metrics
                          (md_dispatcher md) true) (Some listener) (ms_egress s), Ok tt)
        end
      end
    end.

Definition set_healthy (md : DnsModule) (b : bool) : DnsModule :=
  mkModule (md_config md) (md_router md) (md_upstreamMgr md) (md_cache md) (md_stats md)
    (md_metrics md) (md_dispatcher md) b.

(** The error of stopping the listener is only logged. *)
Definition Stop (s : module_state) : IO module_state :=
  if negb (md_healthy (ms_module s)) then ret (mkState (ms_module s) (ms_listener s) "")
  else
    let! l := (match ms_listener s with
               | Some l => let! r := Listener_Stop l in ret (Some (fst r))
               | None => ret None
               end) in
    ret (mkState (set_healthy (ms_module s) false) l "").

Definition Healthy (s : module_state) : bool :=
  if negb (md_healthy (ms_module s)) then false
  else match ms_listener s with None => false | Some l => Listener_Healthy l end.

End Module.
