(* ===== verification/DnsModuleProps.v ===== *)
(** * Theorems about the module's life cycle

    What [Start] and [Stop] leave behind, which servers bootstrap may ask, and
    how upstream addresses are completed. *)

From S2P Require Import Prelude DnsMsg DnsConfig NetIP Rule Router Loop Net Upstream Cache.
From S2P Require Import Metrics Handler HandlerProps Listener ListenerProps DnsModule.

#[local] Open Scope Z_scope.
#[local] Open Scope go_scope.

(** ** Fields of a line *)

Definition separator_free (t s : string) : Prop :=
  Forall (fun c => in_bytes t c = false) (String.list_ascii_of_string s).

Definition kept (t s : string) : list Ascii.ascii :=
  filter (fun c => in_bytes t c = false) (String.list_ascii_of_string s).

Lemma list_ascii_app s1 s2 :
  String.list_ascii_of_string (s1 +:+ s2) =
  String.list_ascii_of_string s1 ++ String.list_ascii_of_string s2.
Proof. induction s1 as [|c s1 IH]; [done|]. rewrite s_app_cons. cbn. by rewrite IH. Qed.

Lemma split_loop_spec t s : forall cur,
  separator_free t cur ->
  Forall (fun f => f <> "" /\ separator_free t f) (split_loop s t cur) /\
  concat (map String.list_ascii_of_string (split_loop s t cur)) =
    String.list_ascii_of_string cur ++ kept t s /\
  (length (split_loop s t cur) <= 1 + countAnyByte s t)%nat.
Proof.
  induction s as [|c s IH]; intros cur Hcur; cbn [split_loop countAnyByte].
  - destruct cur as [|c cur]; cbn; [auto|]. split_and!; [|by rewrite app_nil_r|lia].
    apply Forall_singleton. by split.
  - unfold kept. cbn [String.list_ascii_of_string]. rewrite filter_cons.
    destruct (in_bytes t c) eqn:Hc; rewrite ?decide_False by congruence;
      rewrite ?decide_True by done.
    + destruct (IH EmptyString) as (H1 & H2 & H3); [constructor|].
      destruct cur as [|c' cur]; cbn [s_len String.length Nat.ltb Nat.leb].
      * split_and!; [done|exact H2|lia].
      * split_and!; [by constructor| |cbn; lia]. cbn [map concat]. by rewrite H2.
    + destruct (IH (cur +:+ String c EmptyString)) as (H1 & H2 & H3).
      { unfold separator_free. rewrite list_ascii_app. apply Forall_app. split; [done|].
        by apply Forall_singleton. }
      split_and!; [done| |done]. rewrite H2, list_ascii_app, <-app_assoc. done.
Qed.

(** [splitAtBytes] cuts a line into its maximal runs of other bytes: the
    fields are non-empty and free of separators, together they are the line
    without its separators, and there are never more of them than the slots
    allocated for them, so that no store is out of range. *)
Theorem fields_are_separator_free (s t : string) :
  Forall (fun f => f <> "" /\ separator_free t f) (splitAtBytes s t) /\
  concat (map String.list_ascii_of_string (splitAtBytes s t)) = kept t s /\
  (length (splitAtBytes s t) <= 1 + countAnyByte s t)%nat.
Proof. apply (split_loop_spec t s EmptyString). constructor. Qed.

(** ** Bootstrap servers *)

(** What [addServers] adds are the parsed texts; texts already seen belong to
    servers already there. *)
Definition seen_ok (st : list AddrPort * gset string) : Prop :=
  forall s ap, s ∈ snd st -> ParseAddrPort s = Some ap -> ap ∈ fst st.

Lemma addServers_spec l : forall st st',
  seen_ok st -> addServers l st = st' ->
  seen_ok st' /\ (exists more, fst st' = fst st ++ more) /\
  (forall ap, ap ∈ fst st' <-> ap ∈ fst st \/ exists s, s ∈ l /\ ParseAddrPort s = Some ap).
Proof.
  induction l as [|s l IH]; intros [servers seen] st' Hok; cbn [addServers].
  - intros <-. split_and!; [done|by exists []; rewrite app_nil_r|].
    intros ap. setoid_rewrite elem_of_nil. naive_solver.
  - destruct (decide (s ∈ seen)) as [Hin|Hin].
    { intros (H1 & H2 & H3)%IH; [|done]. split_and!; [done|done|]. intros ap. rewrite H3.
      setoid_rewrite elem_of_cons. split; [naive_solver|].
      intros [?|(x & [->|Hx] & Hp)]; [by left|left; by eapply (Hok s)|eauto]. }
    destruct (ParseAddrPort s) as [ap0|] eqn:Hp.
    + intros (H1 & [more H2] & H3)%IH.
      * split_and!; [done|exists (ap0 :: more); rewrite H2; cbn; by rewrite <-app_assoc|].
        intros ap. rewrite H3. cbn [fst]. rewrite elem_of_app, list_elem_of_singleton.
        setoid_rewrite elem_of_cons. naive_solver.
      * intros x ap. cbn [fst snd]. rewrite elem_of_union, elem_of_singleton, elem_of_app,
          list_elem_of_singleton. intros [->|Hx] Hp'; [naive_solver|left; by eapply (Hok x)].
    + intros (H1 & H2 & H3)%IH; [|done]. split_and!; [done|done|]. intros ap. rewrite H3.
      setoid_rewrite elem_of_cons. naive_solver.
Qed.

(** Without the texts seen: servers are appended, and each comes from the list. *)
Lemma addServers_sound l : forall st,
  exists more, fst (addServers l st) = fst st ++ more /\
    Forall (fun ap => exists s, s ∈ l /\ ParseAddrPort s = Some ap) more.
Proof.
  induction l as [|s l IH]; intros [servers seen]; cbn [addServers].
  - exists []. by rewrite app_nil_r.
  - assert (forall more, Forall (fun ap => exists x, x ∈ l /\ ParseAddrPort x = Some ap) more ->
      Forall (fun ap => exists x, x ∈ s :: l /\ ParseAddrPort x = Some ap) more) as Hmore.
    { intros more H. apply (Forall_impl _ _ _ H). intros ap (x & Hx & Hp). exists x. rewrite elem_of_cons. auto. }
    destruct (decide (s ∈ seen)); [|destruct (ParseAddrPort s) as [ap0|] eqn:Hp].
    1,3: destruct (IH (servers, seen)) as (more & H1 & H2); exists more; by auto.
    destruct (IH (servers ++ [ap0], {[s]} ∪ seen)) as (more & H1 & H2).
    exists (ap0 :: more). rewrite H1. cbn. rewrite <-app_assoc. split; [done|]. constructor; [|auto].
    exists s. rewrite elem_of_cons. auto.
Qed.

Lemma add_system_spec l : forall st,
  exists more, fst (add_system l st) = fst st ++ more /\
    Forall (fun ap => ap ∈ l /\ isOwnAddress ap = false) more.
Proof.
  induction l as [|ap0 l IH]; intros [servers seen]; cbn [add_system].
  - exists []. by rewrite app_nil_r.
  - assert (forall more, Forall (fun ap => ap ∈ l /\ isOwnAddress ap = false) more ->
      Forall (fun ap => ap ∈ ap0 :: l /\ isOwnAddress ap = false) more) as Hmore.
    { intros more H. apply (Forall_impl _ _ _ H). intros ap [? ?]. rewrite elem_of_cons. auto. }
    destruct (isOwnAddress ap0) eqn:Hown; [|destruct (decide (AddrPort_String ap0 ∈ seen))].
    1,2: destruct (IH (servers, seen)) as (more & H1 & H2); exists more; by auto.
    destruct (IH (servers ++ [ap0], {[AddrPort_String ap0]} ∪ seen)) as (more & H1 & H2).
    exists (ap0 :: more). rewrite H1. cbn. rewrite <-app_assoc. split; [done|]. constructor; [|auto].
    rewrite elem_of_cons. auto.
Qed.

(** Nothing has been seen before the first server is there. *)
Definition seen_empty (st : list AddrPort * gset string) : Prop := fst st = [] -> snd st = ∅.

Lemma addServers_seen_empty l : forall st, seen_empty st -> seen_empty (addServers l st).
Proof.
  induction l as [|s l IH]; intros [servers seen] H; cbn [addServers]; [done|].
  destruct (decide _); [by apply IH|]. destruct (ParseAddrPort s); apply IH; [|done].
  intros Hn. by destruct servers.
Qed.

Lemma add_system_seen_empty l : forall st, seen_empty st -> seen_empty (add_system l st).
Proof.
  induction l as [|ap l IH]; intros [servers seen] H; cbn [add_system]; [done|].
  destruct (isOwnAddress ap); [by apply IH|]. destruct (decide _); apply IH; [done|].
  intros Hn. by destruct servers.
Qed.

Lemma addServers_first s l ap :
  ParseAddrPort s = Some ap -> fst (addServers (s :: l) ([], ∅)) <> [].
Proof.
  intros Hap. cbn [addServers]. rewrite decide_False by apply not_elem_of_empty. rewrite Hap.
  destruct (addServers_sound l ([] ++ [ap], {[s]} ∪ ∅)) as (more & -> & _). done.
Qed.

Lemma well_known_added : fst (addServers wellKnownPublicDns ([], ∅)) <> [].
Proof. eapply addServers_first. reflexivity. Qed.

Lemma collected conf sys wk :
  fst (addServers wk ([], ∅)) <> [] ->
  exists configured others,
    fst (addServers wk (add_system sys (addServers conf ([], ∅)))) = configured ++ others /\
    configured ++ others <> [] /\
    (forall ap, ap ∈ configured <-> exists s, s ∈ conf /\ ParseAddrPort s = Some ap) /\
    Forall (fun ap => (ap ∈ sys /\ isOwnAddress ap = false) \/
                      exists s, s ∈ wk /\ ParseAddrPort s = Some ap) others.
Proof.
  intros Hwk.
  destruct (addServers_spec conf ([], ∅) (addServers conf ([], ∅))) as (_ & _ & H1); [|reflexivity|].
  { intros s ap Hs. by apply elem_of_empty in Hs. }
  pose proof (addServers_seen_empty conf ([], ∅) (fun _ => eq_refl)) as Hs1.
  remember (addServers conf ([], ∅)) as st1 eqn:Est1. clear Est1.
  destruct (add_system_spec sys st1) as (m2 & E2 & H2).
  pose proof (add_system_seen_empty sys st1 Hs1) as Hs2.
  remember (add_system sys st1) as st2 eqn:Est2. clear Est2.
  destruct (addServers_sound wk st2) as (m3 & E3 & H3).
  exists (fst st1), (m2 ++ m3). rewrite app_assoc, <-E2, <-E3. split_and!; [done| | |].
  - intros Hn. rewrite E3 in Hn. apply app_nil in Hn as [Hn1 Hn2].
    rewrite (surjective_pairing st2), Hn1, (Hs2 Hn1) in E3. cbn [fst] in E3. by rewrite Hn2 in E3.
  - intros ap. rewrite H1. cbn [fst]. split; [by intros [?%elem_of_nil|?]|by right].
  - apply Forall_app. split; [apply (Forall_impl _ _ _ H2)|apply (Forall_impl _ _ _ H3)]; auto.
Qed.

(** Bootstrap always has servers to ask: the configured
    ones that parse are among them, ahead of the others; every other one is a
    server of resolv.conf that is not an address of the module itself, or one of
    the well-known public servers. *)
Theorem bootstrap_servers (resolv_conf : option (list string)) (config : DnsModuleConfig) :
  exists configured others,
    collectBootstrapDns resolv_conf config = configured ++ others /\ configured ++ others <> [] /\
    (forall ap, ap ∈ configured <->
       exists s, s ∈ mc_BootstrapDns config /\ ParseAddrPort s = Some ap) /\
    Forall (fun ap => (ap ∈ GetSystemDNS resolv_conf /\ isOwnAddress ap = false) \/
                      exists s, s ∈ wellKnownPublicDns /\ ParseAddrPort s = Some ap) others.
Proof. apply collected, well_known_added. Qed.

(** ** Addresses *)

(** After [Start] has completed them, the address of every plain
    upstream written without brackets splits into host and port: an address that
    already did is kept, any other becomes the host, with port 853 for DNS over TLS
    and 53 otherwise.  HTTPS upstreams are left alone. *)
Theorem default_port_completes (u : UpstreamConfig) :
  bracket_free (uc_Addr u) ->
  (uc_Protocol u = "https" -> add_default_port u = u) /\
  (uc_Protocol u <> "https" ->
   SplitHostPort (uc_Addr (add_default_port u)) =
     match SplitHostPort (uc_Addr u) with
     | Ok hp => Ok hp
     | Err _ => Ok (uc_Addr u,
         if decide (uc_Protocol u ∈ ["tcp-tls"; "tls"]) then "853" else "53")
     end).
Proof.
  intros Hb. unfold add_default_port. split; intros Hp.
  { by rewrite Hp. }
  rewrite (proj2 (String.eqb_neq _ _)) by done.
  destruct (SplitHostPort (uc_Addr u)) as [hp|e] eqn:Hs; [exact Hs|]. cbn [uc_Addr set_addr].
  destruct (String.eqb_spec (uc_Protocol u) "tcp-tls") as [->|H1]; cbn [orb].
  { rewrite decide_True by set_solver. by apply split_join. }
  destruct (String.eqb_spec (uc_Protocol u) "tls") as [->|H2].
  { rewrite decide_True by set_solver. by apply split_join. }
  rewrite decide_False by set_solver. by apply split_join.
Qed.

(** ** Start and Stop *)

Section Life.
Context `{ML : MiekgLaws} `{E : Env} `{RX : Regexp}.
Variable token : list Z.
Variable url_Hostname : string -> option string.

(** Requests that open or close no socket of the listener. *)
Definition no_socket (e : event) : Prop :=
  match e with EvOpened _ _ | EvClosed _ _ | EvRefused _ _ => False | _ => True end.

Lemma no_socket_opened t acc : Forall no_socket t -> opened t acc = acc.
Proof. induction 1 as [|e t He Ht IH]; [done|]. by destruct e. Qed.

Lemma resolve_domain_quiet servers domain :
  safe no_socket (fun _ => True) (resolve_domain servers domain).
Proof.
  induction servers as [|srv servers IH]; cbn [resolve_domain]; [by apply safe_ret|].
  eapply (safe_bind _ (fun _ => True)); [by apply safe_lift|intros id _].
  eapply (safe_bind _ (fun _ => True)); [by apply safe_lift; [apply Forall_singleton|]|intros x _].
  destruct (is_some (x_err x)); [exact IH|]. destruct (x_resp x) as [m|]; [|exact IH].
  destruct (first_a (m_Answer m)); [by apply safe_ret|exact IH].
Qed.

Lemma resolve_domains_quiet servers domains : forall resolved,
  safe no_socket (fun _ => True) (resolve_domains servers domains resolved).
Proof.
  induction domains as [|d domains IH]; intros resolved; cbn [resolve_domains]; [by apply safe_ret|].
  destruct (String.eqb d ""); [apply IH|]. destruct (is_some (ParseIP d)); [apply IH|].
  eapply safe_bind; [apply resolve_domain_quiet|]. intros r _. apply IH.
Qed.

Lemma resolveBootstrap_quiet rc config domains :
  safe no_socket (fun _ => True) (resolveBootstrap rc config domains).
Proof.
  unfold resolveBootstrap. destruct domains; [by apply safe_ret|].
  destruct (collectBootstrapDns rc config); [by apply safe_ret|]. apply resolve_domains_quiet.
Qed.

Lemma Reset_Reset now now' m : Reset now (Reset now' m) = Reset now m.
Proof.
  unfold Reset. f_equal. cbn. rewrite map_map. apply map_ext. by intros [].
Qed.

Lemma bootstrap_phase_quiet rc config :
  safe no_socket (fun _ => True) (bootstrap_phase url_Hostname rc config).
Proof.
  unfold bootstrap_phase. destruct (mc_Bootstrap config); [by apply safe_ret|].
  eapply safe_bind; [apply resolveBootstrap_quiet|]. intros r _. by apply safe_ret.
Qed.

(** The sockets of a configuration's listener. *)
Definition configured_sockets (s : module_state) : string * string -> Prop :=
  let l := mc_Listener (md_config (ms_module s)) in
  sockets_of (ListenAddr l :: ExtraListenAddrs l).

(** What a first start leaves. *)
Record started (s' : module_state) (res : result unit) (t : list event) : Prop := {
  st_healthy : Healthy s' = is_ok res;
  st_flag : md_healthy (ms_module s') = is_ok res;
  st_reachable : is_ok res = true -> sys_reachable token (mkSystem (ms_module s') []);
  st_open : if is_ok res then forall x, x ∈ opened t [] <-> configured_sockets s' x
            else only_refused t (opened t []);
  st_listener : is_ok res = true -> exists l, ms_listener s' = Some l /\ all_open l (opened t []);
}.

Lemma failed_start s' res t :
  md_healthy (ms_module s') = false -> is_ok res = false -> only_refused t (opened t []) ->
  started s' res t.
Proof.
  intros Hh Hr Ho.
  split; [unfold Healthy; by rewrite Hh, Hr|congruence|congruence|by rewrite Hr|congruence].
Qed.

Lemma nothing_open t : opened t [] = [] -> only_refused t (opened t []).
Proof. intros -> x. by intros ?%elem_of_nil. Qed.

Lemma Start_spec rc s w s' res w' t :
  md_healthy (ms_module s) = false ->
  Start url_Hostname rc s w = ((s', res), w', t) -> started s' res t.
Proof.
  intros Hh. unfold Start. rewrite Hh.
  destruct (ModuleConfig_Validate (md_config (ms_module s))) as [[]|err].
  2: { intros [= <- <- <- <-]. apply failed_start; [done..|]. by apply nothing_open. }
  unfold now, lift, bind at 1. destruct (env_now w) as [t1 w1].
  unfold bind at 1. destruct (env_now w1) as [t2 w2]. unfold bind at 1.
  destruct (bootstrap_phase url_Hostname rc (md_config (ms_module s)) w2)
    as [[[resolved ups] w3] tb] eqn:Hb.
  destruct (bootstrap_phase_quiet rc (md_config (ms_module s)) _ _ _ _ Hb) as [_ Hq]. cbn [fst snd].
  set (config := set_upstreams _ _).
  destruct (NewRouter _ _ _) as [router|err] eqn:Hr.
  2: { intros [= <- <- <- <-]. apply failed_start; [done..|]. apply nothing_open. cbn.
       by rewrite app_nil_r, no_socket_opened. }
  unfold bind at 1. destruct (Listener_Start _ w3) as [[[l lres] w4] tl] eqn:Hl.
  destruct (Listener_Start_spec _ _ _ _ _ _ Hl) as [Hlh Hlo].
  assert (opened (tb ++ tl) [] = opened tl []) as Hot by (by rewrite opened_app, (no_socket_opened tb)).
  destruct lres as [[]|err]; intros [= <- <- <- <-]; cbn [app];
    rewrite ?app_nil_r; cbn [is_ok] in *.
  2: { apply failed_start; [done..|]. rewrite Hot. intros x Hx. unfold refused. apply elem_of_app.
       right. by apply Hlo. }
  destruct Hlo as [Hls Hlo].
  split; cbn [ms_module ms_listener md_healthy is_ok].
  - done.
  - done.
  - intros _. apply sys_start. split; cbn; [done| | | |].
    + intros c. destruct (cfg_Enabled _); [|done]. intros [= <-]. eauto.
    + intros r [= <-]. eauto.
    + by exists t1.
    + intros mx. destruct (md_metrics (ms_module s)) as [m|]; [|done]. intros [= <-].
      exists t2. symmetry. apply Reset_Reset.
  - intros x. by rewrite Hot, (Hlo x), Hls.
  - intros _. exists l. split; [done|]. by rewrite Hot.
Qed.

(** [Start] of a running module fails and changes nothing.  Otherwise
    it succeeds exactly when the module is healthy afterwards; then the UDP and
    TCP sockets of every configured address are open and the module is in a state
    from which every theorem about the handler holds; and when it fails the only
    sockets left open are those whose server refused to shut down. *)
Theorem module_start_outcome (rc : option (list string)) (s s' : module_state) (w w' : World)
    (res : result unit) (t : list event) :
  Start url_Hostname rc s w = ((s', res), w', t) ->
  if md_healthy (ms_module s) then s' = s /\ is_ok res = false /\ w' = w /\ t = []
  else Healthy s' = is_ok res /\
    (if is_ok res then forall x, x ∈ opened t [] <-> configured_sockets s' x
     else only_refused t (opened t [])) /\
    (is_ok res = true -> sys_reachable token (mkSystem (ms_module s') [])).
Proof.
  destruct (md_healthy (ms_module s)) eqn:Hh.
  - unfold Start. rewrite Hh. by intros [= <- <- <- <-].
  - intros [H1 H2 H3 H4 H5]%Start_spec; auto.
Qed.

(** C38. Whatever [Start] returned, a following [Stop] leaves the module
    stopped and ready to be started again, the egress interface unset, and every
    socket that [Start] had opened closed, except those whose server refused to
    shut down. *)
Theorem stop_releases_everything (rc : option (list string)) (s s1 s2 : module_state)
    (w w1 w2 : World) (res : result unit) (t1 t2 : list event) :
  md_healthy (ms_module s) = false ->
  Start url_Hostname rc s w = ((s1, res), w1, t1) -> Stop s1 w1 = (s2, w2, t2) ->
  only_refused (t1 ++ t2) (opened (t1 ++ t2) []) /\ md_healthy (ms_module s2) = false /\
  ms_egress s2 = "" /\ Healthy s2 = false.
Proof.
  intros Hh Hs Hstop. destruct (Start_spec _ _ _ _ _ _ _ Hh Hs) as [H1 H2 H3 H4 H5]. clear Hs.
  revert Hstop. unfold Stop, Healthy. rewrite H2.
  destruct res as [[]|err]; cbn [is_ok negb] in *.
  - destruct H5 as (l & Hl & Ho); [done|]. rewrite Hl. unfold bind at 1, bind at 1.
    unfold Listener_Stop, bind at 1.
    destruct (shutdown_all (l_servers l) None w1) as [[le w3] t3] eqn:Hsd.
    assert (only_refused (t1 ++ t3) (opened (t1 ++ t3) [])) as Hn.
    { intros x. rewrite opened_app. intros [Hx Hx']%(shutdown_all_closes _ _ _ _ _ _ _ Hsd).
      unfold refused. apply elem_of_app. right. by apply Hx', Ho. }
    destruct le; intros [= <- <- <-]; cbn; by rewrite !app_nil_r.
  - intros [= <- <- <-]. cbn. rewrite H2, app_nil_r. by split_and!.
Qed.

End Life.

Section Examples.
#[local] Existing Instance Ref.miekg_ref.
#[local] Existing Instance Ref.miekg_ref_laws.
#[local] Existing Instance Script.script_env.
#[local] Existing Instance LiteralRe.literal_re.

Definition no_url (_ : string) : option string := None.

Definition idle : Script.script := Script.mkScript 1000 [] [] [] [].

(** A stopped module with the default configuration. *)
Definition ex_stopped : module_state :=
  fst (fst (NewDnsModule (E := Script.script_env) None idle)).

Definition ex_dot : UpstreamConfig := mkUpstreamConfig "dot" "dns.example" "tls" "" false "".

Lemma default_port_completes_witness :
  SplitHostPort (uc_Addr (add_default_port ex_dot)) = Ok ("dns.example", "853").
Proof.
  destruct (default_port_completes ex_dot) as [_ H]; [by split|].
  rewrite H; [reflexivity|discriminate].
Defined.

(** The default configuration starts in a world where every address is free. *)
Lemma module_start_outcome_witness :
  match Start (E := Script.script_env) no_url None ex_stopped idle with
  | ((s', res), _, t) => is_ok res = true /\ Healthy s' = true /\
      (forall x, x ∈ opened t [] <-> configured_sockets s' x) /\
      sys_reachable (E := Script.script_env) fixed_token (mkSystem (ms_module s') [])
  end.
Proof.
  destruct (Start (E := Script.script_env) _ _ _ _) as [[[s' res] w'] t] eqn:Hs.
  assert (is_ok res = true) as Hr
    by (change res with (snd (fst (fst ((s', res), w', t)))); rewrite <-Hs; vm_compute; reflexivity).
  destruct (module_start_outcome (E := Script.script_env) fixed_token no_url _ _ _ _ _ _ _ Hs)
    as (H1 & H2 & H3).
  rewrite Hr in *. split_and!; [done|done|exact H2|by apply H3].
Defined.

Lemma stop_releases_everything_witness :
  match Start (E := Script.script_env) no_url None ex_stopped idle with
  | ((s1, res), w1, t1) =>
    match Stop (E := Script.script_env) s1 w1 with
    | (s2, _, t2) => only_refused (t1 ++ t2) (opened (t1 ++ t2) []) /\ Healthy s2 = false
    end
  end.
Proof.
  destruct (Start (E := Script.script_env) _ _ _ _) as [[[s1 res] w1] t1] eqn:Hs.
  destruct (Stop (E := Script.script_env) s1 w1) as [[s2 w2] t2] eqn:Hst.
  destruct (stop_releases_everything (E := Script.script_env) fixed_token no_url None ex_stopped _ _ _ _ _ _ _ _
    eq_refl Hs Hst) as (H1 & _ & _ & H2). by split.
Defined.

(** An IPv6 literal in brackets without a port is taken for a bare host: the
    completed address has the brackets twice, and does not split. *)
Theorem bracketed_literal_not_completed :
  uc_Addr (add_default_port (mkUpstreamConfig "v6" "[2400:3200::1]" "udp" "" false "")) =
    "[[2400:3200::1]]:53" /\
  is_ok (SplitHostPort "[[2400:3200::1]]:53") = false.
Proof. split; reflexivity. Qed.

(** A DNS-over-TLS upstream given as a bare name gets port 53 and no TLS server
    name when bootstrap resolves it, and port 853 when it does not. *)
Theorem bare_tls_name_gets_plain_port :
  add_default_port (bootstrap_upstream no_url {["dns.example" := "192.0.2.1"]} ex_dot) =
    mkUpstreamConfig "dot" "192.0.2.1:53" "tls" "" false "" /\
  add_default_port (bootstrap_upstream no_url ∅ ex_dot) =
    mkUpstreamConfig "dot" "dns.example:853" "tls" "" false "".
Proof. split; reflexivity. Qed.

End Examples.
