(* ===== verification/Store.v ===== *)
(** * The service's database (service/db: listOp.go, setOp.go, plainOp.go, sqlite.go)

    The SQLite tables as lists of rows in rowid order, the statements the code
    issues as functions on them, and the operations built from the statements.
    Any statement, and the begin and the commit of a transaction, may fail: what
    fails is played back from [faults], an arbitrary list, and a statement that
    fails changes nothing.  JSON texts are values of the class [Json], whose
    operations are those of jsoniter and gjson that the code calls. *)

From S2P Require Import Prelude.

#[local] Open Scope Z_scope.
#[local] Open Scope go_scope.

(** ** JSON texts *)

(** The struct of [subscriptionJSON]. *)
Record sub_fields (D : Type) := mkSubFields {
  sf_databaseId : Z;
  sf_remarks : string;
  sf_address : string;
  sf_status : string;
  sf_info : string;
  sf_servers : list D;
  sf_autoSelect : bool;
  sf_updateMode : string;
  sf_updateIntervalMinutes : Z;
  sf_failureIntervalMinutes : Z;
  sf_allowDirectRecovery : bool;
}.
Arguments mkSubFields {D} _ _ _ _ _ _ _ _ _ _ _.
Arguments sf_databaseId {D} _.
Arguments sf_remarks {D} _.
Arguments sf_address {D} _.
Arguments sf_status {D} _.
Arguments sf_info {D} _.
Arguments sf_servers {D} _.
Arguments sf_autoSelect {D} _.
Arguments sf_updateMode {D} _.
Arguments sf_updateIntervalMinutes {D} _.
Arguments sf_failureIntervalMinutes {D} _.
Arguments sf_allowDirectRecovery {D} _.

Class Json := {
  doc : Type;
  (** [parsed.Get(path).String()], [.Bool()], [.Int()], and the [.Raw] of the
      elements of [.Array()] *)
  gj_String : doc -> string -> string;
  gj_Bool : doc -> string -> bool;
  gj_Int : doc -> string -> Z;
  gj_Array : doc -> string -> list doc;
  (** the elements of a document that is an array *)
  gj_elements : doc -> option (list doc);
  (** [jsoniter.Marshal] of the struct of [subscriptionJSON] *)
  Marshal_subscription : sub_fields doc -> result doc;
}.

(** [jsoniter.Marshal] and [jsoniter.Unmarshal] at a Go type. *)
Class GoJson `{Json} (A : Type) := {
  Marshal : A -> result doc;
  Unmarshal : doc -> result A;
}.

(** What the code relies on: a subscription that was written can be read back
    field by field, and the elements of a written list are the written elements. *)
Class JsonLaws `(J : Json) : Prop := {
  marshal_total : forall f, exists d, Marshal_subscription f = Ok d;
  marshal_fields : forall f d, Marshal_subscription f = Ok d ->
    gj_String d "address" = sf_address f /\ gj_String d "remarks" = sf_remarks f /\
    gj_String d "status" = sf_status f /\ gj_String d "info" = sf_info f /\
    gj_Bool d "autoSelect" = sf_autoSelect f /\ gj_String d "updateMode" = sf_updateMode f /\
    gj_Int d "updateIntervalMinutes" = sf_updateIntervalMinutes f /\
    gj_Int d "failureIntervalMinutes" = sf_failureIntervalMinutes f /\
    gj_Bool d "allowDirectRecovery" = sf_allowDirectRecovery f /\
    gj_Array d "servers" = sf_servers f;
}.

Section Store.
Context `{J : Json}.

(** ** Tables *)

Record server_row := mkServerRow {
  sv_id : Z;
  sv_type : string;
  sv_sub_id : option Z;
  sv_config_json : doc;
  sv_sort : Z;
}.

Record sub_row := mkSubRow {
  sb_id : Z;
  sb_address : string;
  sb_remarks : string;
  sb_status : string;
  sb_info : string;
  sb_auto_select : Z;
  sb_update_mode : string;
  sb_update_interval_minutes : Z;
  sb_failure_interval_minutes : Z;
  sb_allow_direct_recovery : bool;
  sb_sort : Z;
}.

(** The last ids given out are kept by AUTOINCREMENT. *)
Record tables := mkTables {
  t_servers : list server_row;
  t_servers_seq : Z;
  t_subscriptions : list sub_row;
  t_subscriptions_seq : Z;
  t_outbound_names : list (string * Z);
  t_system_config : gmap string doc;
}.

Definition with_servers (t : tables) (rows : list server_row) : tables :=
  mkTables rows (t_servers_seq t) (t_subscriptions t) (t_subscriptions_seq t) (t_outbound_names t)
    (t_system_config t).
Definition with_subscriptions (t : tables) (rows : list sub_row) : tables :=
  mkTables (t_servers t) (t_servers_seq t) rows (t_subscriptions_seq t) (t_outbound_names t)
    (t_system_config t).
Definition with_outbound_names (t : tables) (rows : list (string * Z)) : tables :=
  mkTables (t_servers t) (t_servers_seq t) (t_subscriptions t) (t_subscriptions_seq t) rows
    (t_system_config t).
Definition with_system_config (t : tables) (m : gmap string doc) : tables :=
  mkTables (t_servers t) (t_servers_seq t) (t_subscriptions t) (t_subscriptions_seq t)
    (t_outbound_names t) m.

(** ** Statements *)

Record database := mkDatabase { db_tables : tables; db_faults : list (option error) }.

Definition DB (A : Type) : Type := database -> result A * database.

Definition db_ret {A} (a : A) : DB A := fun s => (Ok a, s).
Definition db_fail {A} (e : error) : DB A := fun s => (Err e, s).
(** [x, err := c; if err != nil { return err }; k] *)
Definition db_bind {A B} (c : DB A) (k : A -> DB B) : DB B :=
  fun s => match c s with (Ok a, s) => k a s | (Err e, s) => (Err e, s) end.
(** [x, err := c], with [err] examined by what follows *)
Definition db_try {A} (c : DB A) : DB (result A) :=
  fun s => let '(r, s) := c s in (Ok r, s).
Definition db_lift {A} (r : result A) : DB A := fun s => (r, s).

Definition pop_fault (s : database) : option error * database :=
  match db_faults s with
  | [] => (None, s)
  | f :: fs => (f, mkDatabase (db_tables s) fs)
  end.

(** One statement: it fails, or reads and changes the tables. *)
Definition stmt {A} (f : tables -> A * tables) : DB A :=
  fun s =>
    match pop_fault s with
    | (Some e, s) => (Err e, s)
    | (None, s) => let '(a, t) := f (db_tables s) in (Ok a, mkDatabase t (db_faults s))
    end.

Definition query {A} (f : tables -> A) : DB A := stmt (fun t => (f t, t)).
Definition exec (f : tables -> tables) : DB unit := stmt (fun t => (tt, f t)).

(** The whole transaction runs on one connection: what it wrote is visible to
    it, and undone by the rollback. *)
Definition ReadModifyWrite {A} (fn : DB A) : DB A :=
  fun s =>
    match pop_fault s with
    | (Some e, s) => (Err (Wrapf "failed to begin transaction: %w" [] e), s)
    | (None, s) =>
      match fn s with
      | (Err e, s') => (Err e, mkDatabase (db_tables s) (db_faults s'))
      | (Ok a, s') =>
        match pop_fault s' with
        | (Some e, s'') => (Err e, mkDatabase (db_tables s) (db_faults s''))
        | (None, s'') => (Ok a, s'')
        end
      end
    end.

End Store.

Notation "'db!' x ':=' e 'in' k" := (db_bind e (fun x => k))
  (at level 10, x pattern, e at level 100, k at level 200) : go_scope.

(** ** SQL on rows *)

(** [ORDER BY key] *)
Fixpoint insert_by {A} (key : A -> Z) (x : A) (l : list A) : list A :=
  match l with
  | [] => [x]
  | y :: l' => if key x <=? key y then x :: l else y :: insert_by key x l'
  end.
Definition order_by {A} (key : A -> Z) (l : list A) : list A := foldr (insert_by key) [] l.

(** [COALESCE(MAX(x), -1)] *)
Definition max_or_minus_one (l : list Z) : Z :=
  match l with [] => -1 | x :: l' => foldl Z.max x l' end.

(** [UPDATE t SET key = (SELECT COUNT( * ) FROM t s2 WHERE s2.key < t.key)]: the
    rows are visited one after the other, and a row's subquery sees the rows
    already changed. *)
Fixpoint renumber {A} (key : A -> Z) (set : A -> Z -> A) (done_ todo : list A) : list A :=
  match todo with
  | [] => done_
  | r :: rest =>
    let n := Z.of_nat (length (filter (fun s => key s < key r) (done_ ++ todo))) in
    renumber key set (done_ ++ [set r n]) rest
  end.

Section Operations.
Context `{J : Json}.

Definition is_server (r : server_row) : bool := String.eqb (sv_type r) "server".
Definition in_subscription (id : Z) (r : server_row) : bool :=
  String.eqb (sv_type r) "subscription_server" && bool_decide (sv_sub_id r = Some id).

Definition set_server_sort (r : server_row) (n : Z) : server_row :=
  mkServerRow (sv_id r) (sv_type r) (sv_sub_id r) (sv_config_json r) n.
Definition set_server_config (r : server_row) (d : doc) : server_row :=
  mkServerRow (sv_id r) (sv_type r) (sv_sub_id r) d (sv_sort r).
Definition set_sub_sort (r : sub_row) (n : Z) : sub_row :=
  mkSubRow (sb_id r) (sb_address r) (sb_remarks r) (sb_status r) (sb_info r) (sb_auto_select r)
    (sb_update_mode r) (sb_update_interval_minutes r) (sb_failure_interval_minutes r)
    (sb_allow_direct_recovery r) n.

(** The rows of type 'server' are visited among the others. *)
Fixpoint renumber_servers (done_ todo : list server_row) : list server_row :=
  match todo with
  | [] => done_
  | r :: rest =>
    let r' :=
      if is_server r then
        set_server_sort r (Z.of_nat (length (filter (fun s => is_server s = true /\ sv_sort s < sv_sort r)
                                               (done_ ++ todo))))
      else r in
    renumber_servers (done_ ++ [r']) rest
  end.

Definition insert_server (type : string) (sub_id : option Z) (config : doc) (sort : Z) (t : tables)
    : tables :=
  let id := t_servers_seq t + 1 in
  mkTables (t_servers t ++ [mkServerRow id type sub_id config sort]) id (t_subscriptions t)
    (t_subscriptions_seq t) (t_outbound_names t) (t_system_config t).

Definition delete_servers (P : server_row -> bool) (t : tables) : tables :=
  with_servers t (filter (fun r => P r = false) (t_servers t)).

(** ** listOp.go: servers *)

Definition ServersSet {V} `{!GoJson V} (index : Z) (val : V) : DB unit :=
  db! b := db_lift (Marshal val) in
  db! rows := stmt (fun t =>
    let hit r := is_server r && (sv_sort r =? index) in
    (length (filter (fun r => hit r = true) (t_servers t)),
     with_servers t (map (fun r => if hit r then set_server_config r b else r) (t_servers t)))) in
  if (rows =? 0)%nat then db_fail (Errorf "ListSet: server at index %d not found" [FInt index])
  else db_ret tt.

Definition serversGet (index : Z) : DB doc :=
  db! r := query (fun t => List.find (fun r => is_server r && (sv_sort r =? index)) (t_servers t)) in
  match r with
  | None => db_fail (Errorf "ListGet: can't get element from an empty list" [])
  | Some r => db_ret (sv_config_json r)
  end.

Definition append_server (config : doc) : DB unit :=
  exec (fun t =>
    let next := max_or_minus_one (map sv_sort (filter (fun r => is_server r = true) (t_servers t))) + 1 in
    insert_server "server" None config next t).

Fixpoint append_servers (items : list doc) : DB unit :=
  match items with
  | [] => db_ret tt
  | item :: rest => db! _ := append_server item in append_servers rest
  end.

Definition ServersAppend {V} `{!GoJson V} (val : V) : DB unit :=
  db! b := db_lift (Marshal val) in
  match gj_elements b with
  | Some items => append_servers items
  | None => append_server b
  end.

Definition ServersGetAll : DB (list doc) :=
  query (fun t => map sv_config_json
    (order_by sv_sort (filter (fun r => is_server r = true) (t_servers t)))).

Fixpoint delete_indexes (indexes : list Z) : DB unit :=
  match indexes with
  | [] => db_ret tt
  | idx :: rest =>
    db! _ := exec (delete_servers (fun r => is_server r && (sv_sort r =? idx))) in
    delete_indexes rest
  end.

Definition serversRemove (indexes : list Z) : DB unit :=
  match indexes with
  | [] => db_fail (Errorf "ListRemove: nothing to remove" [])
  | _ =>
    db! _ := delete_indexes indexes in
    exec (fun t => with_servers t (renumber_servers [] (t_servers t)))
  end.

Definition ServersLen : DB Z :=
  query (fun t => Z.of_nat (length (filter (fun r => is_server r = true) (t_servers t)))).

(** ** listOp.go: subscriptions *)

Fixpoint insert_sub_servers (wrap : Z -> error -> error) (subID j : Z) (servers : list doc) : DB unit :=
  match servers with
  | [] => db_ret tt
  | s :: rest =>
    db! r := db_try (exec (insert_server "subscription_server" (Some subID) s j)) in
    match r with
    | Err e => db_fail (wrap j e)
    | Ok _ => insert_sub_servers wrap subID (j + 1) rest
    end
  end.

(** The columns taken from a document. *)
Definition doc_columns (parsed : doc) (id sort : Z) : sub_row :=
  let updateMode := gj_String parsed "updateMode" in
  mkSubRow id (gj_String parsed "address") (gj_String parsed "remarks") (gj_String parsed "status")
    (gj_String parsed "info") (if gj_Bool parsed "autoSelect" then 1 else 0)
    (if String.eqb updateMode "" then "disabled" else updateMode)
    (gj_Int parsed "updateIntervalMinutes")
    (Z.max 1 (gj_Int parsed "failureIntervalMinutes")) (gj_Bool parsed "allowDirectRecovery") sort.

(** The UPDATE changes every row with the index, and returns the id of the
    first. *)
Definition setSubscription (index : Z) (parsed : doc) : DB unit :=
  db! subID := stmt (fun t =>
    (sb_id <$> List.find (fun r => sb_sort r =? index) (t_subscriptions t),
     with_subscriptions t
       (map (fun r => if sb_sort r =? index then doc_columns parsed (sb_id r) (sb_sort r) else r)
          (t_subscriptions t)))) in
  match subID with
  | None => db_fail (Errorf "ListSet: subscription at index %d not found" [FInt index])
  | Some subID =>
    db! r := db_try (exec (delete_servers (in_subscription subID))) in
    match r with
    | Err e =>
      db_fail (Wrapf "ListSet: failed to clear old servers of subscription %d: %w" [FInt index] e)
    | Ok _ =>
      insert_sub_servers
        (fun j e => Wrapf "ListSet: failed to update subscription server %d/%d: %w" [FInt index; FInt j] e)
        subID 0 (gj_Array parsed "servers")
    end
  end.

(** [beforeSet] is [None] for nil. *)
Definition SubscriptionsSet {V} `{!GoJson V} (index : Z) (val : V) (beforeSet : option (DB unit))
    : DB unit :=
  db! b := db_lift (Marshal val) in
  ReadModifyWrite (
    db! _ := (match beforeSet with Some f => f | None => db_ret tt end) in
    setSubscription index b).

Definition subscriptionJSON (r : sub_row) (servers : list doc) : result doc :=
  Marshal_subscription (mkSubFields (sb_id r) (sb_remarks r) (sb_address r) (sb_status r) (sb_info r)
    servers (negb (sb_auto_select r =? 0)) (sb_update_mode r) (sb_update_interval_minutes r)
    (sb_failure_interval_minutes r) (sb_allow_direct_recovery r)).

Definition servers_of_subscription (id : Z) : DB (list doc) :=
  query (fun t => map sv_config_json
    (order_by sv_sort (filter (fun r => in_subscription id r = true) (t_servers t)))).

Definition SubscriptionsGet (index : Z) : DB doc :=
  db! r := query (fun t => List.find (fun r => sb_sort r =? index) (t_subscriptions t)) in
  match r with
  | None => db_fail (Errorf "ListGet: can't get element from an empty list" [])
  | Some r =>
    db! servers := servers_of_subscription (sb_id r) in
    db_lift (subscriptionJSON r servers)
  end.

Fixpoint subscription_docs (rows : list sub_row) : DB (list doc) :=
  match rows with
  | [] => db_ret []
  | r :: rest =>
    db! servers := servers_of_subscription (sb_id r) in
    db! d := db_lift (subscriptionJSON r servers) in
    db! ds := subscription_docs rest in
    db_ret (d :: ds)
  end.

Definition SubscriptionsGetAll : DB (list doc) :=
  db! rows := query (fun t => order_by sb_sort (t_subscriptions t)) in
  subscription_docs rows.

(** An array of one statement per subscription and server, without a
    transaction; a document that is no array appends nothing. *)
Fixpoint append_subscriptions (items : list doc) : DB unit :=
  match items with
  | [] => db_ret tt
  | item :: rest =>
    db! subID := stmt (fun t =>
      let id := t_subscriptions_seq t + 1 in
      let sort := max_or_minus_one (map sb_sort (t_subscriptions t)) + 1 in
      (id, mkTables (t_servers t) (t_servers_seq t) (t_subscriptions t ++ [doc_columns item id sort]) id
             (t_outbound_names t) (t_system_config t))) in
    db! _ := insert_sub_servers
               (fun _ e => Wrapf "ListAppend: failed to insert subscription server: %w" [] e)
               subID 0 (gj_Array item "servers") in
    append_subscriptions rest
  end.

Definition SubscriptionsAppend {V} `{!GoJson V} (val : V) : DB unit :=
  db! b := db_lift (Marshal val) in
  match gj_elements b with
  | Some items => append_subscriptions items
  | None => db_ret tt
  end.

Fixpoint delete_subscriptions (indexes : list Z) : DB unit :=
  match indexes with
  | [] => db_ret tt
  | idx :: rest =>
    db! r := query (fun t => List.find (fun r => sb_sort r =? idx) (t_subscriptions t)) in
    match r with
    | None => delete_subscriptions rest
    | Some r =>
      db! _ := exec (delete_servers (in_subscription (sb_id r))) in
      db! _ := exec (fun t => with_subscriptions t
                       (filter (fun x => sb_id x <> sb_id r) (t_subscriptions t))) in
      delete_subscriptions rest
    end
  end.

Definition subscriptionsRemove (indexes : list Z) : DB unit :=
  match indexes with
  | [] => db_fail (Errorf "ListRemove: nothing to remove" [])
  | _ =>
    db! _ := delete_subscriptions indexes in
    exec (fun t => with_subscriptions t (renumber sb_sort set_sub_sort [] (t_subscriptions t)))
  end.

Definition SubscriptionsLen : DB Z := query (fun t => Z.of_nat (length (t_subscriptions t))).

Definition RemoveTx (subscriptions servers : list Z) (connected : DB unit) : DB unit :=
  ReadModifyWrite (
    db! _ := connected in
    db! _ := (match subscriptions with [] => db_ret tt | _ => subscriptionsRemove subscriptions end) in
    match servers with [] => db_ret tt | _ => serversRemove servers end).

(** ** listOp.go: dispatch on bucket and key *)

Definition ListSet {V} `{!GoJson V} (bucket key : string) (index : Z) (val : V) : DB unit :=
  let bk := bucket +:+ "/" +:+ key in
  if String.eqb bk "touch/servers" then ServersSet index val
  else if String.eqb bk "touch/subscriptions" then SubscriptionsSet index val None
  else db_fail (Errorf "ListSet: unsupported bucket/key: %s/%s" [FStr bucket; FStr key]).

Definition ListSetWithTransaction {V} `{!GoJson V} (bucket key : string) (index : Z) (val : V)
    (beforeSet : option (DB unit)) : DB unit :=
  if negb (String.eqb (bucket +:+ "/" +:+ key) "touch/subscriptions") then
    db_fail (Errorf "ListSetWithTransaction: unsupported bucket/key: %s/%s" [FStr bucket; FStr key])
  else SubscriptionsSet index val beforeSet.

Definition ListGet (bucket key : string) (index : Z) : DB doc :=
  let bk := bucket +:+ "/" +:+ key in
  if String.eqb bk "touch/servers" then serversGet index
  else if String.eqb bk "touch/subscriptions" then SubscriptionsGet index
  else db_fail (Errorf "ListGet: unsupported bucket/key: %s/%s" [FStr bucket; FStr key]).

(** Any other list is a single value of system_config, under "bucket/key". *)
Definition ListAppend {V} `{!GoJson V} (bucket key : string) (val : V) : DB unit :=
  let bk := bucket +:+ "/" +:+ key in
  if String.eqb bk "touch/servers" then ServersAppend val
  else if String.eqb bk "touch/subscriptions" then SubscriptionsAppend val
  else
    db! b := db_lift (Marshal val) in
    exec (fun t => with_system_config t (<[bk := b]> (t_system_config t))).

Definition ListGetAll (bucket key : string) : DB (list doc) :=
  let bk := bucket +:+ "/" +:+ key in
  if String.eqb bk "touch/servers" then ServersGetAll
  else if String.eqb bk "touch/subscriptions" then SubscriptionsGetAll
  else db_fail (Errorf "ListGetAll: unsupported bucket/key: %s/%s" [FStr bucket; FStr key]).

Definition ListRemove (bucket key : string) (indexes : list Z) : DB unit :=
  match indexes with
  | [] => db_fail (Errorf "ListRemove: nothing to remove" [])
  | _ =>
    let bk := bucket +:+ "/" +:+ key in
    if String.eqb bk "touch/servers" then serversRemove indexes
    else if String.eqb bk "touch/subscriptions" then subscriptionsRemove indexes
    else db_fail (Errorf "ListRemove: unsupported bucket/key: %s/%s" [FStr bucket; FStr key])
  end.

Definition ListLen (bucket key : string) : DB Z :=
  let bk := bucket +:+ "/" +:+ key in
  if String.eqb bk "touch/servers" then ServersLen
  else if String.eqb bk "touch/subscriptions" then SubscriptionsLen
  else db_fail (Errorf "ListLen: unsupported bucket/key: %s/%s" [FStr bucket; FStr key]).

(** ** setOp.go: the names of the outbound groups

    The value is a Go string, the only type the callers pass. *)

Definition names_key (bucket key : string) : bool :=
  String.eqb (bucket +:+ "/" +:+ key) "outbounds/names".

(** An error of the query for the largest sort value is ignored; the value is
    then 0. *)
Definition SetAdd (bucket key name : string) : DB unit :=
  if names_key bucket key then
    db! r := db_try (query (fun t => max_or_minus_one (map snd (t_outbound_names t)))) in
    let maxSort := match r with Ok m => m | Err _ => 0 end in
    exec (fun t =>
      if decide (name ∈ map fst (t_outbound_names t)) then t
      else with_outbound_names t (t_outbound_names t ++ [(name, maxSort + 1)]))
  else db_fail (Errorf "SetAdd: unsupported bucket/key: %s/%s" [FStr bucket; FStr key]).

Definition SetRemove (bucket key name : string) : DB unit :=
  if names_key bucket key then
    exec (fun t => with_outbound_names t (filter (fun r => fst r <> name) (t_outbound_names t)))
  else db_fail (Errorf "SetRemove: unsupported bucket/key: %s/%s" [FStr bucket; FStr key]).

Definition SetIsMember (bucket key member : string) : DB bool :=
  if names_key bucket key then
    query (fun t => bool_decide (member ∈ map fst (t_outbound_names t)))
  else db_fail (Errorf "SetIsMember: unsupported bucket/key: %s/%s" [FStr bucket; FStr key]).

Definition SetMembers (bucket key : string) : DB (list string) :=
  if names_key bucket key then
    query (fun t => map fst (order_by snd (t_outbound_names t)))
  else db_fail (Errorf "SetMembers: unsupported bucket/key: %s/%s" [FStr bucket; FStr key]).

Definition StringSetGetAll (bucket key : string) : DB (list string) := SetMembers bucket key.

(** ** plainOp.go *)

Definition makeKey (bucket key : string) : string := bucket +:+ ":" +:+ key.

(** [SELECT value ... WHERE key = ?]; [None] is [sql.ErrNoRows]. *)
Definition select_value (key : string) : DB (option doc) := query (fun t => t_system_config t !! key).

Definition find_value (bucket key : string) : DB (option doc) :=
  db! v := select_value (makeKey bucket key) in
  match v with
  | None => if String.eqb bucket "accounts" then select_value key else db_ret None
  | Some d => db_ret (Some d)
  end.

Definition db_Get {V} `{!GoJson V} (bucket key : string) : DB V :=
  db! v := find_value bucket key in
  match v with
  | None => db_fail (Errorf "Get: key is not found" [])
  | Some d => db_lift (Unmarshal d)
  end.

Definition GetRaw (bucket key : string) : DB doc :=
  db! v := select_value (makeKey bucket key) in
  match v with
  | None => db_fail (Errorf "GetRaw: key is not found" [])
  | Some d => db_ret d
  end.

(** An error is logged and counts as absence. *)
Definition db_Exists (bucket key : string) : DB bool :=
  db! r := db_try (db! v := find_value bucket key in db_ret (is_some v)) in
  db_ret (match r with Ok b => b | Err _ => false end).

(** [LIKE]: "%" matches any text, "_" one character, other characters match
    without regard to ASCII case; [esc] quotes the next character. *)
Inductive like_token := LikeChar (c : Ascii.ascii) | LikeOne | LikeMany.

Fixpoint like_tokens (esc : option Ascii.ascii) (pat : string) : list like_token :=
  match pat with
  | EmptyString => []
  | String c rest =>
    if match esc with Some e => Ascii.eqb c e | None => false end then
      match rest with
      | String c' rest' => LikeChar c' :: like_tokens esc rest'
      | EmptyString => []
      end
    else
      (if Ascii.eqb c "%" then LikeMany else if Ascii.eqb c "_" then LikeOne else LikeChar c)
        :: like_tokens esc rest
  end.

Fixpoint like_match (ts : list like_token) : string -> bool :=
  match ts with
  | [] => fun s => String.eqb s ""
  | LikeChar c :: ts =>
    fun s => match s with
             | String a s' => Ascii.eqb (upper_char a) (upper_char c) && like_match ts s'
             | EmptyString => false
             end
  | LikeOne :: ts => fun s => match s with String _ s' => like_match ts s' | EmptyString => false end
  | LikeMany :: ts =>
    fix many (s : string) : bool :=
      like_match ts s || match s with String _ s' => many s' | EmptyString => false end
  end.

Definition like (pat s : string) : bool := like_match (like_tokens None pat) s.
Definition like_escaped (pat s : string) : bool := like_match (like_tokens (Some "\"%char) pat) s.

(** [bucketLikeEscaper.Replace] *)
Fixpoint escape_like (s : string) : string :=
  match s with
  | EmptyString => EmptyString
  | String c s' =>
    if Ascii.eqb c "\" || Ascii.eqb c "%" || Ascii.eqb c "_"
    then String "\" (String c (escape_like s')) else String c (escape_like s')
  end.

Definition bucketLikePattern (bucket : string) : string := escape_like (bucket +:+ ":") +:+ "%".

Definition config_keys (t : tables) : list string := map fst (map_to_list (t_system_config t)).

Definition GetBucketLen (bucket : string) : DB Z :=
  query (fun t => Z.of_nat (length (filter (fun k => like (bucket +:+ ":%") k = true) (config_keys t)))).

(** [ORDER BY key] compares bytes; the order is left to [sorted]. *)
Definition GetBucketKeys (sorted : list string -> list string) (bucket : string) : DB (list string) :=
  let prefix := bucket +:+ ":" in
  let wanted k := like (prefix +:+ "%") k ||
                  (String.eqb bucket "accounts" && negb (like "%:%" k)) in
  query (fun t => map (fun k => TrimPrefix k prefix)
    (sorted (filter (fun k => wanted k = true) (config_keys t)))).

Definition db_Set {V} `{!GoJson V} (bucket key : string) (val : V) : DB unit :=
  db! b := db_lift (Marshal val) in
  exec (fun t => with_system_config t (<[makeKey bucket key := b]> (t_system_config t))).

Definition db_Delete (bucket key : string) : DB unit :=
  exec (fun t =>
    let m := base.delete (makeKey bucket key) (t_system_config t) in
    with_system_config t (if String.eqb bucket "accounts" then base.delete key m else m)).

Definition BucketClear (bucket : string) : DB unit :=
  exec (fun t => with_system_config t
    (filter (fun kv => like_escaped (bucketLikePattern bucket) (fst kv) = false) (t_system_config t))).

End Operations.
