(* ===== verification/StoreLists.v ===== *)
(** * Reasoning about the stored lists (service/db: listOp.go)

    Every operation is described by [wp]: its outcome and the tables it leaves,
    whatever statements fail.  The tables are read as plain lists ([view_of]),
    with an invariant on the numbering of their rows ([store_ok]). *)

From stdpp Require Import sorting.
From S2P Require Import Prelude.
From S2P Require Import Store.

#[local] Open Scope Z_scope.
#[local] Open Scope go_scope.

(** ** Running statements against every fault *)

Section Wp.
Context `{J : Json}.

(** With [F = false] no statement fails. *)
Definition wp (F : bool) {A} (c : DB A) (t : tables) (Q : result A -> tables -> Prop) : Prop :=
  forall fs, (F = false -> fs = []) ->
  exists r t' fs', c (mkDatabase t fs) = (r, mkDatabase t' fs') /\ (F = false -> fs' = []) /\ Q r t'.

Lemma wp_ret F {A} (a : A) t Q : Q (Ok a) t -> wp F (db_ret a) t Q.
Proof. intros HQ fs Hfs. by exists (Ok a), t, fs. Qed.

Lemma wp_fail F {A} e t (Q : result A -> tables -> Prop) : Q (Err e) t -> wp F (db_fail e) t Q.
Proof. intros HQ fs Hfs. by exists (Err e), t, fs. Qed.

Lemma wp_lift F {A} (r : result A) t Q : Q r t -> wp F (db_lift r) t Q.
Proof. intros HQ fs Hfs. by exists r, t, fs. Qed.

Lemma wp_mono F {A} (c : DB A) t (Q Q' : result A -> tables -> Prop) :
  wp F c t Q -> (forall r t', Q r t' -> Q' r t') -> wp F c t Q'.
Proof. intros H HQ fs Hfs. destruct (H fs Hfs) as (r & t' & fs' & ? & ? & ?). exists r, t', fs'. auto. Qed.

Lemma wp_bind F {A B} (c : DB A) (k : A -> DB B) t Q :
  wp F c t (fun r t' => match r with Ok a => wp F (k a) t' Q | Err e => Q (Err e) t' end) ->
  wp F (db_bind c k) t Q.
Proof.
  intros H fs Hfs. destruct (H fs Hfs) as (r & t' & fs' & Hc & Hfs' & HQ).
  unfold db_bind. rewrite Hc. destruct r as [a|e]; [by apply HQ|]. by exists (Err e), t', fs'.
Qed.

Lemma wp_try F {A} (c : DB A) t Q : wp F c t (fun r t' => Q (Ok r) t') -> wp F (db_try c) t Q.
Proof.
  intros H fs Hfs. destruct (H fs Hfs) as (r & t' & fs' & Hc & Hfs' & HQ).
  unfold db_try. rewrite Hc. by exists (Ok r), t', fs'.
Qed.

Lemma pop_cases F t fs : (F = false -> fs = []) ->
  exists f fs', pop_fault (mkDatabase t fs) = (f, mkDatabase t fs') /\ (F = false -> fs' = [] /\ f = None).
Proof.
  intros Hfs. destruct fs as [|f fs]; cbn.
  - exists None, []. auto.
  - exists f, fs. split; [done|]. intros HF. by specialize (Hfs HF).
Qed.

Lemma wp_stmt F {A} (f : tables -> A * tables) t Q :
  (F = true -> forall e, Q (Err e) t) -> Q (Ok (f t).1) (f t).2 -> wp F (stmt f) t Q.
Proof.
  intros He HQ fs Hfs. destruct (pop_cases F t fs Hfs) as (fo & fs' & Hp & Hfs').
  unfold stmt. rewrite Hp. destruct fo as [e|].
  - exists (Err e), t, fs'. split; [done|]. destruct F; [split; [done|by apply He]|].
    by destruct (Hfs' eq_refl).
  - cbn. destruct (f t) as [a t']. exists (Ok a), t', fs'. naive_solver.
Qed.

Lemma wp_query F {A} (f : tables -> A) t Q :
  (F = true -> forall e, Q (Err e) t) -> Q (Ok (f t)) t -> wp F (query f) t Q.
Proof. intros. by apply wp_stmt. Qed.

Lemma wp_exec F f t (Q : result unit -> tables -> Prop) :
  (F = true -> forall e, Q (Err e) t) -> Q (Ok tt) (f t) -> wp F (exec f) t Q.
Proof. intros. by apply wp_stmt. Qed.

(** A transaction leaves its work or nothing. *)
Lemma wp_ReadModifyWrite F {A} (fn : DB A) t (Q : result A -> tables -> Prop) :
  (F = true -> forall e, Q (Err e) t) ->
  wp F fn t (fun r t' => match r with Ok a => Q (Ok a) t' | Err e => Q (Err e) t end) ->
  wp F (ReadModifyWrite fn) t Q.
Proof.
  intros He H fs Hfs. destruct (pop_cases F t fs Hfs) as (fo & fs1 & Hp & Hfs1).
  unfold ReadModifyWrite. rewrite Hp. destruct fo as [e|].
  - eexists (Err _), t, fs1. split; [done|]. destruct F; [split; [done|by apply He]|].
    by destruct (Hfs1 eq_refl).
  - destruct (H fs1) as (r & t' & fs2 & Hc & Hfs2 & HQ); [naive_solver|]. rewrite Hc.
    destruct r as [a|e]; cbn; [|by exists (Err e), t, fs2].
    destruct (pop_cases F t' fs2 Hfs2) as (fo & fs3 & Hp3 & Hfs3). rewrite Hp3.
    destruct fo as [e|]; cbn.
    + exists (Err e), t, fs3. split; [done|]. destruct F; [split; [done|by apply He]|].
      by destruct (Hfs3 eq_refl).
    + exists (Ok a), t', fs3. naive_solver.
Qed.

(** From [wp] to a run. *)
Lemma wp_run {A} (c : DB A) s (Q : bool -> result A -> tables -> Prop) :
  (forall F, wp F c (db_tables s) (Q F)) ->
  Q true (c s).1 (db_tables (c s).2) /\
  (db_faults s = [] -> Q false (c s).1 (db_tables (c s).2) /\ db_faults (c s).2 = []).
Proof.
  destruct s as [t fs]. cbn. intros H. split.
  - destruct (H true fs ltac:(done)) as (r & t' & fs' & Hc & _ & HQ). by rewrite Hc.
  - intros ->. destruct (H false [] ltac:(done)) as (r & t' & fs' & Hc & Hf & HQ). rewrite Hc. cbn. auto.
Qed.

End Wp.

(** Steps through a sequence of statements. *)
Ltac wp_step :=
  lazymatch goal with
  | |- wp _ (db_bind _ _) _ _ => apply wp_bind
  | |- wp _ (db_ret _) _ _ => apply wp_ret
  | |- wp _ (db_fail _) _ _ => apply wp_fail
  | |- wp _ (db_lift _) _ _ => apply wp_lift
  | |- wp _ (db_try _) _ _ => apply wp_try
  | |- wp _ (query _) _ _ => apply wp_query; [intros HF ?; first [discriminate HF | rewrite HF in *; clear HF]|]
  | |- wp _ (exec _) _ _ => apply wp_exec; [intros HF ?; first [discriminate HF | rewrite HF in *; clear HF]|]
  | |- wp _ (stmt _) _ _ => apply wp_stmt; [intros HF ?; first [discriminate HF | rewrite HF in *; clear HF]|]
  end.

(** ** Orders and numberings *)

(** Positions that increase, and positions without a gap. *)
Definition increasing (l : list Z) : Prop := StronglySorted Z.lt l /\ Forall (Z.le 0) l.
Definition packed (l : list Z) : Prop := l = seqZ 0 (Z.of_nat (length l)).

Lemma insert_by_head {A} (key : A -> Z) x l :
  Forall (fun y => key x < key y) l -> insert_by key x l = x :: l.
Proof.
  intros H. destruct l as [|y l]; [done|]. apply Forall_cons in H as [H _]. simpl.
  by rewrite (proj2 (Z.leb_le _ _)) by lia.
Qed.

Lemma sorted_map_cons {A} (key : A -> Z) x l :
  StronglySorted Z.lt (map key (x :: l)) <->
  StronglySorted Z.lt (map key l) /\ Forall (fun y => key x < key y) l.
Proof.
  simpl. rewrite <-(Forall_map key (Z.lt (key x)) l). split.
  - apply StronglySorted_inv.
  - intros [? ?]. by constructor.
Qed.

(** [ORDER BY] is the identity on rows already in order. *)
Lemma order_by_sorted {A} (key : A -> Z) l : StronglySorted Z.lt (map key l) -> order_by key l = l.
Proof.
  induction l as [|x l IH]; intros H; [done|]. apply sorted_map_cons in H as [H1 H2].
  unfold order_by in *. simpl. rewrite IH by done. by apply insert_by_head.
Qed.

Lemma Forall_filter_sub {A} (Q : A -> Prop) P `{!forall x : A, Decision (P x)} l :
  Forall Q l -> Forall Q (filter P l).
Proof. rewrite !Forall_forall. intros Hl x [_ Hx]%list_elem_of_filter. auto. Qed.

Lemma StronglySorted_filter_map {A} (key : A -> Z) P `{!forall x : A, Decision (P x)} l :
  StronglySorted Z.lt (map key l) -> StronglySorted Z.lt (map key (filter P l)).
Proof.
  induction l as [|x l IH]; intros Hl; [done|]. apply sorted_map_cons in Hl as [H1 H2].
  rewrite filter_cons. destruct (decide (P x)); [|by apply IH].
  apply sorted_map_cons. split; [by apply IH|]. by apply Forall_filter_sub.
Qed.

Lemma increasing_filter {A} (key : A -> Z) P `{!forall x : A, Decision (P x)} l :
  increasing (map key l) -> increasing (map key (filter P l)).
Proof.
  intros [H1 H2]. split; [by apply StronglySorted_filter_map|].
  rewrite Forall_map in H2 |- *. by apply Forall_filter_sub.
Qed.

Lemma seqZ_increasing m n : 0 <= m -> increasing (seqZ m n).
Proof.
  intros Hm. split; [|apply Forall_forall; intros x Hx; apply elem_of_seqZ in Hx; lia].
  destruct (decide (n <= 0)) as [Hn|Hn]; [rewrite seqZ_nil by lia; constructor|].
  rewrite <-(Z2Nat.id n) by lia. clear Hn. generalize (Z.to_nat n) as k. intros k. revert m Hm.
  induction k as [|k IH]; intros m Hm; [constructor|].
  rewrite seqZ_cons by lia. constructor; [|].
  - replace (Z.pred (Z.of_nat (S k))) with (Z.of_nat k) by lia. apply IH. lia.
  - apply Forall_forall. intros x Hx. apply elem_of_seqZ in Hx. lia.
Qed.

Lemma packed_increasing l : packed l -> increasing l.
Proof. intros ->. by apply seqZ_increasing. Qed.

(** The largest position of an increasing list is the last. *)
Lemma max_increasing l x : StronglySorted Z.lt (l ++ [x]) -> max_or_minus_one (l ++ [x]) = x.
Proof.
  intros H. destruct l as [|y l]; [done|]. simpl.
  assert (Hle : forall l y, StronglySorted Z.lt ((y :: l) ++ [x]) -> foldl Z.max y (l ++ [x]) = x).
  { clear. intros l. induction l as [|z l IH]; intros y H; simpl in *.
    - apply StronglySorted_inv in H as [_ H]. apply Forall_cons in H as [? _]. lia.
    - assert (Hyz : y < z). { apply StronglySorted_inv in H as [_ H]. by apply Forall_cons in H as [? _]. }
      rewrite Z.max_r by lia. apply IH. by apply StronglySorted_inv in H as [H _]. }
  by apply Hle.
Qed.

Lemma packed_snoc l x : packed (l ++ [x]) <-> packed l /\ x = Z.of_nat (length l).
Proof.
  unfold packed. rewrite length_app. simpl. rewrite Nat.add_1_r, seqZ_S, Z.add_0_l. split.
  - intros [H1 H2]%app_inj_2; [|done]. by injection H2.
  - by intros [<- ->].
Qed.

Lemma max_packed l : packed l -> max_or_minus_one l + 1 = Z.of_nat (length l).
Proof.
  intros H. destruct l as [|x l _] using rev_ind; [done|].
  rewrite max_increasing by apply (packed_increasing _ H).
  apply packed_snoc in H as [_ ->]. rewrite length_app. simpl. lia.
Qed.

Lemma foldl_max_ge y l x : x ∈ y :: l -> x <= foldl Z.max y l.
Proof.
  revert x y. induction l as [|z l IH]; intros x y; simpl.
  - intros ->%list_elem_of_singleton. lia.
  - rewrite !elem_of_cons. intros [->|[->|Hx]].
    + trans (Z.max y z); [lia|]. apply IH. left.
    + trans (Z.max y z); [lia|]. apply IH. left.
    + apply IH. by right.
Qed.

Lemma max_ge l x : x ∈ l -> x <= max_or_minus_one l.
Proof. destruct l as [|y l]; [by intros ?%elem_of_nil|]. apply foldl_max_ge. Qed.

Lemma max_nonneg l : Forall (Z.le 0) l -> -1 <= max_or_minus_one l.
Proof.
  destruct l as [|y l]; intros H; [done|]. apply Forall_cons in H as [H _].
  pose proof (max_ge (y :: l) y ltac:(left)). lia.
Qed.

Lemma increasing_snoc l : increasing l -> increasing (l ++ [max_or_minus_one l + 1]).
Proof.
  intros [H1 H2]. pose proof (max_nonneg l H2). pose proof (max_ge l) as Hge. split.
  - apply StronglySorted_app_2; [|done|repeat constructor].
    intros x y Hx ->%list_elem_of_singleton. specialize (Hge x Hx). lia.
  - apply Forall_app. split; [done|]. constructor; [lia|done].
Qed.

(** ** The renumbering after a removal *)

Definition rank {A} (key : A -> Z) (l : list A) (r : A) : Z :=
  Z.of_nat (length (filter (fun s => key s < key r) l)).

(** The rows numbered in order. *)
Definition number {A} (set : A -> Z -> A) (k : Z) (l : list A) : list A :=
  zip_with set l (seqZ k (Z.of_nat (length l))).

Lemma number_cons {A} (set : A -> Z -> A) k x l : number set k (x :: l) = set x k :: number set (k + 1) l.
Proof.
  unfold number. cbn [length]. rewrite seqZ_cons by lia.
  replace (Z.pred (Z.of_nat (S (length l)))) with (Z.of_nat (length l)) by lia.
  by rewrite Z.add_1_r.
Qed.

Lemma filter_none {A} (P : A -> Prop) `{!forall x, Decision (P x)} (l : list A) :
  (forall x, x ∈ l -> ~ P x) -> filter P l = [].
Proof.
  induction l as [|a l IH]; intros HP; [done|].
  rewrite filter_cons, decide_False by (apply HP; left). apply IH. intros x Hx. apply HP. by right.
Qed.

Lemma filter_ext_in {A} (P Q : A -> Prop) `{!forall x, Decision (P x), !forall x, Decision (Q x)}
    (l : list A) :
  (forall x, x ∈ l -> P x <-> Q x) -> filter P l = filter Q l.
Proof.
  induction l as [|a l IH]; intros HPQ; [done|]. rewrite !filter_cons.
  pose proof (HPQ a ltac:(left)) as Ha. rewrite IH by (intros x Hx; apply HPQ; by right).
  destruct (decide (P a)), (decide (Q a)); tauto.
Qed.

Lemma filter_lt_split {A} (key : A -> Z) (l1 l2 : list A) n :
  Forall (fun s => key s < n) l1 -> Forall (fun s => n <= key s) l2 ->
  filter (fun s => key s < n) (l1 ++ l2) = l1.
Proof.
  intros H1 H2. rewrite filter_app, filter_all by (by apply Forall_forall).
  rewrite filter_none; [apply app_nil_r|].
  intros x Hx Hlt. rewrite Forall_forall in H2. specialize (H2 x Hx). lia.
Qed.

Section Renumber.
Context {A : Type} (key : A -> Z) (set : A -> Z -> A).
Hypothesis key_set : forall x n, key (set x n) = n.

(** The statement changes the rows one after the other; on increasing positions
    what it changed before never disturbs what it counts next. *)
Lemma renumber_from (done_ todo : list A) k :
  Forall (fun s => key s < k) done_ -> length done_ = Z.to_nat k -> 0 <= k ->
  StronglySorted Z.lt (map key todo) -> Forall (fun s => k <= key s) todo ->
  renumber key set done_ todo = done_ ++ number set k todo.
Proof.
  revert done_ k. induction todo as [|r todo IH]; intros done_ k Hd Hl Hk Hs Ht; simpl.
  { unfold number. simpl. by rewrite app_nil_r. }
  apply Forall_cons in Ht as [Hr Ht]. apply sorted_map_cons in Hs as [Hs1 Hs2].
  rewrite (filter_lt_split key done_ (r :: todo) (key r)); cycle 1.
  { apply (Forall_impl _ _ _ Hd). intros x Hx. lia. }
  { constructor; [lia|]. apply (Forall_impl _ _ _ Hs2). simpl. intros x Hx. lia. }
  rewrite Hl, Z2Nat.id by done. rewrite (IH _ (k + 1)).
  - by rewrite number_cons, <-app_assoc.
  - apply Forall_app. split; [apply (Forall_impl _ _ _ Hd); intros x Hx; simpl; lia|].
    constructor; [rewrite key_set; lia|done].
  - rewrite length_app. simpl. lia.
  - lia.
  - done.
  - apply (Forall_impl _ _ _ Hs2). simpl. intros x Hx. lia.
Qed.

Lemma renumber_increasing l : increasing (map key l) -> renumber key set [] l = number set 0 l.
Proof.
  intros [H1 H2]. rewrite (renumber_from [] l 0); try done. by rewrite Forall_map in H2.
Qed.

Lemma number_rank l1 l : StronglySorted Z.lt (map key (l1 ++ l)) ->
  number set (Z.of_nat (length l1)) l = map (fun r => set r (rank key (l1 ++ l) r)) l.
Proof.
  revert l1. induction l as [|r l IH]; intros l1 Hs; [done|].
  rewrite number_cons. cbn [map]. f_equal.
  - f_equal. unfold rank. rewrite map_app in Hs. rewrite filter_lt_split; [done| |].
    + apply Forall_forall. intros x Hx. apply (StronglySorted_app_1_elem_of _ _ _ _ _ Hs).
      * apply list_elem_of_fmap. eauto.
      * left.
    + apply StronglySorted_app_1_r, sorted_map_cons in Hs as [_ Hs]. constructor; [lia|].
      apply (Forall_impl _ _ _ Hs). simpl. intros x Hx. lia.
  - rewrite (cons_middle r l1 l), app_assoc in Hs |- *.
    rewrite <-IH by done. f_equal. rewrite length_app. simpl. lia.
Qed.

Lemma renumber_is_rank l : increasing (map key l) ->
  renumber key set [] l = map (fun r => set r (rank key l r)) l.
Proof. intros H. rewrite renumber_increasing by done. apply (number_rank [] l), H. Qed.

Lemma number_keys k l : map key (number set k l) = seqZ k (Z.of_nat (length l)).
Proof.
  revert k. induction l as [|r l IH]; intros k; [done|].
  rewrite number_cons. cbn [map length]. rewrite key_set, IH, (seqZ_cons k) by lia.
  f_equal. f_equal; lia.
Qed.

Lemma number_packed l : packed (map key (number set 0 l)).
Proof. unfold packed. rewrite length_map. rewrite number_keys. unfold number. rewrite length_zip_with, length_seqZ, Nat2Z.id, Nat.min_id. done. Qed.

Lemma number_map {B} (f : A -> B) k l : (forall x n, f (set x n) = f x) -> map f (number set k l) = map f l.
Proof.
  intros Hf. revert k. induction l as [|r l IH]; intros k; [done|].
  rewrite number_cons. cbn [map]. by rewrite Hf, IH.
Qed.

End Renumber.

(** ** Rows at their positions *)

Section Positions.
Context {A : Type} (key : A -> Z).

Definition packed_from (k : Z) (l : list A) : Prop := map key l = seqZ k (Z.of_nat (length l)).

Lemma packed_from_0 l : packed (map key l) <-> packed_from 0 l.
Proof. unfold packed, packed_from. by rewrite length_map. Qed.

Lemma packed_from_cons k x l : packed_from k (x :: l) <-> key x = k /\ packed_from (k + 1) l.
Proof.
  unfold packed_from. cbn [map length]. rewrite seqZ_cons by lia.
  replace (Z.pred (Z.of_nat (S (length l)))) with (Z.of_nat (length l)) by lia.
  rewrite Z.add_1_r. split; [|by intros [-> ->]]. intros H. by injection H.
Qed.

Lemma packed_from_ge k l x : packed_from k l -> x ∈ l -> k <= key x.
Proof.
  intros H Hx. assert (Hk : key x ∈ map key l) by (apply list_elem_of_fmap; eauto).
  rewrite H in Hk. apply elem_of_seqZ in Hk. lia.
Qed.

Lemma packed_lookup l n x : packed (map key l) -> l !! n = Some x -> key x = Z.of_nat n.
Proof.
  intros Hp Hl. pose proof (lookup_lt_Some _ _ _ Hl) as Hn.
  assert (H : map key l !! n = Some (key x)) by (by apply (list_lookup_fmap_Some_2 key)).
  rewrite Hp, length_map, lookup_seqZ in H. lia.
Qed.

Lemma packed_find_from k l i : packed_from k l -> k <= i ->
  List.find (fun r => key r =? i) l = l !! Z.to_nat (i - k).
Proof.
  revert k. induction l as [|x l IH]; intros k H Hi; [done|].
  apply packed_from_cons in H as [Hx H]. cbn [List.find]. rewrite Hx.
  destruct (Z.eqb_spec k i) as [->|Hne]; [by rewrite Z.sub_diag|].
  rewrite (IH (k + 1)) by (done || lia).
  replace (Z.to_nat (i - k)) with (S (Z.to_nat (i - (k + 1)))) by lia. done.
Qed.

Lemma find_below k l i : packed_from k l -> i < k -> List.find (fun r => key r =? i) l = None.
Proof.
  intros H Hi. destruct (List.find _ l) as [x|] eqn:Hf; [|done].
  apply List.find_some in Hf as [Hx%list_elem_of_In Hk]. apply (packed_from_ge k) in Hx; [|done]. zbool. lia.
Qed.

Lemma packed_update_from k l (g : A -> A) i : packed_from k l -> k <= i ->
  map (fun r => if key r =? i then g r else r) l = alter g (Z.to_nat (i - k)) l.
Proof.
  revert k. induction l as [|x l IH]; intros k H Hi; [done|].
  apply packed_from_cons in H as [Hx H]. cbn [map]. rewrite Hx.
  destruct (Z.eqb_spec k i) as [->|Hne].
  - rewrite Z.sub_diag. change (alter g (Z.to_nat 0) (x :: l)) with (g x :: l). f_equal.
    rewrite <-(map_id l) at 2. apply map_ext_in.
    intros y Hy%list_elem_of_In. apply (packed_from_ge (i + 1)) in Hy; [|done].
    by rewrite (proj2 (Z.eqb_neq _ _)) by lia.
  - replace (Z.to_nat (i - k)) with (S (Z.to_nat (i - (k + 1)))) by lia.
    rewrite (IH (k + 1)) by (done || lia). done.
Qed.

(** The elements whose position is not listed. *)
Fixpoint remove_from {B} (k : Z) (indexes : list Z) (l : list B) : list B :=
  match l with
  | [] => []
  | x :: l => if decide (k ∈ indexes) then remove_from (k + 1) indexes l
              else x :: remove_from (k + 1) indexes l
  end.

Lemma packed_filter_from k l indexes : packed_from k l ->
  filter (fun r => key r ∉ indexes) l = remove_from k indexes l.
Proof.
  revert k. induction l as [|x l IH]; intros k H; [done|].
  apply packed_from_cons in H as [Hx H]. rewrite filter_cons, Hx. cbn [remove_from].
  rewrite (IH (k + 1)) by done.
  destruct (decide (k ∈ indexes)); [rewrite decide_False by tauto|rewrite decide_True by done]; done.
Qed.

Lemma remove_from_map {B C} (f : B -> C) k indexes l :
  map f (remove_from k indexes l) = remove_from k indexes (map f l).
Proof.
  revert k. induction l as [|x l IH]; intros k; [done|]. cbn.
  destruct (decide (k ∈ indexes)); cbn; by rewrite IH.
Qed.

End Positions.

(** [l[i]], if [i] is an index of [l]. *)
Definition at_index {A} (l : list A) (i : Z) : option A := if i <? 0 then None else l !! Z.to_nat i.
Definition remove_at {A} : list Z -> list A -> list A := remove_from 0.

Lemma remove_at_nil {A} (l : list A) : remove_at [] l = l.
Proof.
  unfold remove_at. generalize 0. induction l as [|x l IH]; intros k; [done|]. cbn [remove_from].
  by rewrite decide_False, IH by apply not_elem_of_nil.
Qed.

Lemma packed_find {A} (key : A -> Z) l i : packed (map key l) ->
  List.find (fun r => key r =? i) l = at_index l i.
Proof.
  intros H%packed_from_0. unfold at_index. destruct (Z.ltb_spec i 0); [by eapply find_below|].
  rewrite (packed_find_from _ 0) by done. by rewrite Z.sub_0_r.
Qed.

Lemma packed_update {A} (key : A -> Z) l (g : A -> A) n : packed (map key l) ->
  map (fun r => if key r =? Z.of_nat n then g r else r) l = alter g n l.
Proof.
  intros H%packed_from_0. rewrite (packed_update_from _ 0) by (done || lia). by rewrite Z.sub_0_r, Nat2Z.id.
Qed.

Lemma at_index_Some {A} (l : list A) i x : at_index l i = Some x ->
  i = Z.of_nat (Z.to_nat i) /\ l !! Z.to_nat i = Some x /\ (Z.to_nat i < length l)%nat.
Proof.
  unfold at_index. destruct (Z.ltb_spec i 0); [done|]. intros Hl.
  pose proof (lookup_lt_Some _ _ _ Hl). auto with lia.
Qed.

Lemma map_alter_const {A B} (f : A -> B) (g : A -> A) n l d :
  (forall x, f (g x) = d) -> map f (alter g n l) = <[n := d]> (map f l).
Proof.
  intros Hd. revert n. induction l as [|x l IH]; intros [|n]; try done.
  - cbn. by rewrite Hd.
  - change (f x :: map f (alter g n l) = f x :: <[n := d]> (map f l)). by rewrite IH.
Qed.

Lemma map_unless {A} (P : A -> bool) (g : A -> A) l :
  filter (fun r => P r = true) l = [] -> map (fun r => if P r then g r else r) l = l.
Proof.
  induction l as [|x l IH]; [done|]. rewrite filter_cons. cbn [map].
  destruct (P x); [by rewrite decide_True|]. rewrite decide_False by done. intros H. by rewrite IH.
Qed.

Lemma list_filter_and {A} (P Q : A -> Prop) `{!forall x, Decision (P x), !forall x, Decision (Q x)} (l : list A) :
  filter (fun x => P x /\ Q x) l = filter Q (filter P l).
Proof. rewrite list_filter_filter. apply list_filter_iff. tauto. Qed.

Lemma find_filter {A} (P : A -> bool) (Q : A -> bool) l :
  List.find (fun r => P r && Q r) l = List.find Q (filter (fun r => P r = true) l).
Proof.
  induction l as [|x l IH]; [done|]. rewrite filter_cons. cbn [List.find].
  destruct (P x); cbn; [rewrite decide_True by done|rewrite decide_False by done]; cbn; by rewrite IH.
Qed.

Lemma find_none_filter {A} (P : A -> bool) l :
  List.find P l = None <-> filter (fun r => P r = true) l = [].
Proof.
  induction l as [|x l IH]; [done|]. rewrite filter_cons. cbn [List.find].
  destruct (P x); [rewrite decide_True by done|rewrite decide_False by done]; done.
Qed.

(** ** The lists that the tables hold *)

Section Lists.
Context `{J : Json}.

Definition server_rows (rows : list server_row) : list server_row :=
  filter (fun r => is_server r = true) rows.
Definition rows_of (id : Z) (rows : list server_row) : list server_row :=
  filter (fun r => in_subscription id r = true) rows.

(** What the lists say, without the numbering. *)
Record view := mkView {
  v_servers : list doc;
  v_subs : list (sub_row * list doc);
  v_names : list (string * Z);
  v_config : gmap string doc;
}.

Definition sub_view (rows : list server_row) (r : sub_row) : sub_row * list doc :=
  (set_sub_sort r 0, map sv_config_json (rows_of (sb_id r) rows)).

Definition view_of (t : tables) : view :=
  mkView (map sv_config_json (server_rows (t_servers t)))
    (map (sub_view (t_servers t)) (t_subscriptions t)) (t_outbound_names t) (t_system_config t).

Definition view_servers (v : view) (l : list doc) : view := mkView l (v_subs v) (v_names v) (v_config v).
Definition view_subs (v : view) (l : list (sub_row * list doc)) : view :=
  mkView (v_servers v) l (v_names v) (v_config v).
Definition view_config (v : view) (m : gmap string doc) : view :=
  mkView (v_servers v) (v_subs v) (v_names v) m.

(** Rows are kept in the order of their positions, subscription ids are given
    out in order and never twice, and the servers of a subscription are numbered
    from 0. *)
Record store_ok (t : tables) : Prop := {
  ok_servers : increasing (map sv_sort (server_rows (t_servers t)));
  ok_subs : increasing (map sb_sort (t_subscriptions t));
  ok_ids : StronglySorted Z.lt (map sb_id (t_subscriptions t));
  ok_seq : Forall (fun r => sb_id r <= t_subscriptions_seq t) (t_subscriptions t);
  ok_owner : Forall (fun r => forall id, in_subscription id r = true -> id <= t_subscriptions_seq t)
               (t_servers t);
  ok_sub_servers : forall id, packed (map sv_sort (rows_of id (t_servers t)));
}.

(** Positions are indexes: no gap in either list. *)
Record store_packed (t : tables) : Prop := {
  packed_servers : packed (map sv_sort (server_rows (t_servers t)));
  packed_subs : packed (map sb_sort (t_subscriptions t));
}.

Lemma view_servers_nil v : v = view_servers v (v_servers v ++ []).
Proof. rewrite app_nil_r. by destruct v. Qed.

Lemma server_not_owned id r : is_server r = true -> in_subscription id r = false.
Proof. unfold is_server, in_subscription. intros ->%String.eqb_eq. done. Qed.

(** Changing server rows in place leaves the subscriptions alone. *)
Lemma rows_of_map id f rows :
  (forall r, in_subscription id (f r) = in_subscription id r) ->
  (forall r, in_subscription id r = true -> f r = r) -> rows_of id (map f rows) = rows_of id rows.
Proof.
  intros Hi Hf. unfold rows_of. induction rows as [|r rows IH]; [done|]. cbn [map].
  rewrite !filter_cons, Hi, IH. destruct (in_subscription id r) eqn:E; [|done].
  rewrite !decide_True by done. f_equal. by apply Hf.
Qed.

Lemma server_rows_map f rows :
  (forall r, is_server (f r) = is_server r) -> server_rows (map f rows) = map f (server_rows rows).
Proof.
  intros Hf. unfold server_rows. induction rows as [|r rows IH]; [done|]. cbn [map].
  rewrite !filter_cons, Hf, IH. by destruct (decide (is_server r = true)).
Qed.

Lemma sub_views_ext rows rows' subs :
  (forall r, r ∈ subs -> rows_of (sb_id r) rows' = rows_of (sb_id r) rows) ->
  map (sub_view rows') subs = map (sub_view rows) subs.
Proof.
  intros H. apply map_ext_in. intros r Hr%list_elem_of_In. unfold sub_view. by rewrite H.
Qed.

(** Replacing the server rows of [t] without touching those of subscriptions. *)
Lemma servers_changed t rows l :
  store_ok t -> increasing (map sv_sort (server_rows rows)) ->
  (forall id, rows_of id rows = rows_of id (t_servers t)) ->
  map sv_config_json (server_rows rows) = l ->
  store_ok (with_servers t rows) /\ view_of (with_servers t rows) = view_servers (view_of t) l.
Proof.
  intros Hok Hinc Hrows <-. split.
  - destruct Hok. split; try done.
    + apply Forall_forall. intros r Hr id Hid.
      assert (Hin : r ∈ rows_of id rows) by (by apply list_elem_of_filter).
      rewrite Hrows in Hin. apply list_elem_of_filter in Hin as [_ Hin].
      rewrite Forall_forall in ok_owner0. eauto.
    + intros id. change (packed (map sv_sort (rows_of id rows))). by rewrite Hrows.
  - unfold view_of, view_servers. cbn. f_equal. apply sub_views_ext. auto.
Qed.

Lemma server_rows_snoc rows r : is_server r = true -> server_rows (rows ++ [r]) = server_rows rows ++ [r].
Proof. intros H. unfold server_rows. by rewrite filter_app, filter_cons, decide_True. Qed.

Lemma server_rows_cons r rows :
  server_rows (r :: rows) = if is_server r then r :: server_rows rows else server_rows rows.
Proof. unfold server_rows. rewrite filter_cons. by destruct (is_server r). Qed.

Lemma rows_of_snoc_other id rows r : in_subscription id r = false -> rows_of id (rows ++ [r]) = rows_of id rows.
Proof.
  intros H. unfold rows_of. rewrite filter_app, filter_cons, decide_False by (by rewrite H).
  apply app_nil_r.
Qed.

(** *** Servers *)

Definition set_config (index : Z) (d : doc) (r : server_row) : server_row :=
  if is_server r && (sv_sort r =? index) then set_server_config r d else r.

Lemma set_config_rows t index d n : store_ok t -> store_packed t -> index = Z.of_nat n ->
  let t' := with_servers t (map (set_config index d) (t_servers t)) in
  store_ok t' /\ store_packed t' /\
  view_of t' = view_servers (view_of t) (<[n := d]> (v_servers (view_of t))).
Proof.
  intros Hok Hp ->. cbn.
  assert (Hs : forall r, is_server (set_config (Z.of_nat n) d r) = is_server r).
  { intros r. unfold set_config. by destruct (is_server r && _). }
  assert (Hk : forall l, map sv_sort (map (set_config (Z.of_nat n) d) l) = map sv_sort l).
  { intros l. rewrite map_map. apply map_ext. intros r. unfold set_config. by destruct (is_server r && _). }
  assert (Hrows : server_rows (map (set_config (Z.of_nat n) d) (t_servers t)) =
                  alter (fun r => set_server_config r d) n (server_rows (t_servers t))).
  { rewrite server_rows_map by done. rewrite <-(packed_update sv_sort) by apply Hp.
    apply map_ext_in. intros r [Hr _]%list_elem_of_In%list_elem_of_filter.
    unfold set_config. by rewrite Hr. }
  destruct (servers_changed t (map (set_config (Z.of_nat n) d) (t_servers t))
              (<[n := d]> (map sv_config_json (server_rows (t_servers t))))) as [H1 H2]; try done.
  - rewrite server_rows_map, Hk by done. apply Hok.
  - intros id. apply rows_of_map; intros r; unfold set_config.
    + by destruct (is_server r && _).
    + intros Hr. destruct (is_server r) eqn:E; [|done]. by rewrite (server_not_owned id r E) in Hr.
  - rewrite Hrows. by apply map_alter_const.
  - split; [done|]. split; [|done]. split; [|by apply Hp].
    change (packed (map sv_sort (server_rows (map (set_config (Z.of_nat n) d) (t_servers t))))).
    rewrite server_rows_map, Hk by done. apply Hp.
Qed.


Lemma at_index_map {A B} (f : A -> B) l i : at_index (map f l) i = f <$> at_index l i.
Proof. unfold at_index. destruct (i <? 0); [done|]. apply list_lookup_fmap. Qed.

Lemma server_at t i : packed (map sv_sort (server_rows (t_servers t))) ->
  List.find (fun r => is_server r && (sv_sort r =? i)) (t_servers t) =
  at_index (server_rows (t_servers t)) i.
Proof. intros H. rewrite find_filter. by apply packed_find. Qed.

Lemma wp_ServersSet F {V} `{!GoJson V} i (v : V) t : store_ok t -> store_packed t ->
  wp F (ServersSet i v) t (fun r t' =>
    match r with
    | Ok _ => store_ok t' /\ store_packed t' /\
        exists d, Marshal v = Ok d /\ is_Some (at_index (v_servers (view_of t)) i) /\
          view_of t' = view_servers (view_of t) (<[Z.to_nat i := d]> (v_servers (view_of t)))
    | Err _ => t' = t /\
        (F = false -> is_ok (Marshal v) = false \/ at_index (v_servers (view_of t)) i = None)
    end).
Proof.
  intros Hok Hp. unfold ServersSet. do 2 wp_step. destruct (Marshal v) as [d|e] eqn:Hm; [|by auto].
  do 2 wp_step; [by split|]. cbn [fst snd].
  change (v_servers (view_of t)) with (map sv_config_json (server_rows (t_servers t))).
  rewrite at_index_map.
  destruct (filter _ (t_servers t)) as [|r0 rs] eqn:Hf; cbn [length Nat.eqb]; wp_step.
  - pose proof (proj2 (find_none_filter _ _) Hf) as Hnone. rewrite server_at in Hnone by apply Hp.
    rewrite Hnone. split; [|by auto].
    rewrite (map_unless (fun r => is_server r && (sv_sort r =? i))) by done. by destruct t.
  - pose proof (find_none_filter (fun r => is_server r && (sv_sort r =? i)) (t_servers t)) as Hsome.
    rewrite server_at, Hf in Hsome by apply Hp.
    destruct (at_index (server_rows (t_servers t)) i) as [r|] eqn:Hr; [|by discriminate (proj1 Hsome eq_refl)].
    destruct (at_index_Some _ _ _ Hr) as (Hi & _ & _).
    destruct (set_config_rows t i d (Z.to_nat i) Hok Hp Hi) as (H1 & H2 & H3). eauto 10.
Qed.

Lemma wp_serversGet F i t : store_packed t ->
  wp F (serversGet i) t (fun r t' => t' = t /\
    match r with
    | Ok d => at_index (v_servers (view_of t)) i = Some d
    | Err _ => F = false -> at_index (v_servers (view_of t)) i = None
    end).
Proof.
  intros Hp. unfold serversGet. do 2 wp_step; [by split|].
  change (v_servers (view_of t)) with (map sv_config_json (server_rows (t_servers t))).
  rewrite at_index_map, server_at by apply Hp.
  destruct (at_index _ i) as [r|]; wp_step; by split.
Qed.

Lemma wp_ServersGetAll F t : store_ok t ->
  wp F ServersGetAll t (fun r t' => t' = t /\
    match r with Ok l => l = v_servers (view_of t) | Err _ => F = true end).
Proof.
  intros Hok. unfold ServersGetAll. wp_step; [by split|]. split; [done|].
  by rewrite order_by_sorted by apply Hok.
Qed.

Lemma wp_ServersLen F t :
  wp F ServersLen t (fun r t' => t' = t /\
    match r with Ok n => n = Z.of_nat (length (v_servers (view_of t))) | Err _ => F = true end).
Proof. unfold ServersLen. wp_step; [by split|]. split; [done|]. cbn. by rewrite length_map. Qed.

(** *** Appending servers *)

Lemma append_server_row t d : store_ok t ->
  let t' := insert_server "server" None d
              (max_or_minus_one (map sv_sort (server_rows (t_servers t))) + 1) t in
  store_ok t' /\ view_of t' = view_servers (view_of t) (v_servers (view_of t) ++ [d]) /\
  (store_packed t -> store_packed t').
Proof.
  intros Hok. set (r := mkServerRow (t_servers_seq t + 1) "server" None d
    (max_or_minus_one (map sv_sort (server_rows (t_servers t))) + 1)).
  assert (Hr : is_server r = true) by done.
  destruct (servers_changed t (t_servers t ++ [r]) (v_servers (view_of t) ++ [d])) as [H1 H2]; try done.
  - rewrite server_rows_snoc, map_app by done. apply increasing_snoc, Hok.
  - intros id. apply rows_of_snoc_other. by apply server_not_owned.
  - by rewrite server_rows_snoc, map_app.
  - split; [by destruct H1|]. split; [done|]. intros [Hp1 Hp2]. split; [|done]. cbn.
    change (packed (map sv_sort (server_rows (t_servers t ++ [r])))).
    rewrite server_rows_snoc, map_app by done. apply packed_snoc. split; [done|].
    cbn. by apply max_packed.
Qed.

Lemma wp_append_servers F items t : store_ok t ->
  wp F (append_servers items) t (fun r t' => store_ok t' /\ (store_packed t -> store_packed t') /\
    exists k, view_of t' = view_servers (view_of t) (v_servers (view_of t) ++ take k items) /\
      match r with Ok _ => k = length items | Err _ => F = true end).
Proof.
  revert t. induction items as [|d items IH]; intros t Hok; cbn [append_servers].
  { wp_step. split; [done|]. split; [done|]. exists 0%nat. split; [apply view_servers_nil|done]. }
  unfold append_server. do 2 wp_step.
  { split; [done|]. split; [done|]. exists 0%nat. split; [apply view_servers_nil|done]. }
  destruct (append_server_row t d Hok) as (H1 & H2 & H3). cbn zeta in *.
  eapply wp_mono; [apply (IH _ H1)|]. intros r t' (Hok' & Hp' & k & Hv & Hr).
  split; [done|]. split; [auto|]. exists (S k). split.
  { rewrite Hv, H2. unfold view_servers. cbn [v_servers v_subs v_names v_config].
    by rewrite <-app_assoc. }
  destruct r; [by rewrite Hr|done].
Qed.

(** The documents that a value appends. *)
Definition appended (d : doc) : list doc := match gj_elements d with Some l => l | None => [d] end.

Lemma wp_ServersAppend F {V} `{!GoJson V} (v : V) t : store_ok t ->
  wp F (ServersAppend v) t (fun r t' => store_ok t' /\ (store_packed t -> store_packed t') /\
    match r with
    | Ok _ => exists d, Marshal v = Ok d /\
        view_of t' = view_servers (view_of t) (v_servers (view_of t) ++ appended d)
    | Err _ => (exists d k, Marshal v = Ok d /\ F = true /\
        view_of t' = view_servers (view_of t) (v_servers (view_of t) ++ take k (appended d))) \/
        is_ok (Marshal v) = false /\ t' = t
    end).
Proof.
  intros Hok. unfold ServersAppend. do 2 wp_step.
  destruct (Marshal v) as [d|e] eqn:Hm; [|by auto 10]. unfold appended.
  destruct (gj_elements d) as [items|] eqn:He.
  - eapply wp_mono; [by apply wp_append_servers|]. intros r t' (H1 & H2 & k & Hv & Hr).
    split; [done|]. split; [done|]. destruct r as [u|e].
    + exists d. rewrite He, Hv, Hr, firstn_all. done.
    + left. exists d, k. by rewrite He.
  - unfold append_server. wp_step.
    + split; [done|]. split; [done|]. left. exists d, 0%nat.
      split; [done|]. split; [done|]. apply view_servers_nil.
    + destruct (append_server_row t d Hok) as (H1 & H2 & H3). cbn zeta in *.
      split; [done|]. split; [done|]. exists d. rewrite He. done.
Qed.

(** *** Removing servers *)

Definition listed_server (indexes : list Z) (r : server_row) : bool :=
  is_server r && bool_decide (sv_sort r ∈ indexes).

Lemma delete_servers_twice P Q t :
  delete_servers P (delete_servers Q t) = delete_servers (fun r => Q r || P r) t.
Proof.
  unfold delete_servers, with_servers. cbn [t_servers t_servers_seq t_subscriptions t_subscriptions_seq
    t_outbound_names t_system_config]. f_equal.
  rewrite list_filter_filter. apply list_filter_iff. intros r.
  rewrite orb_false_iff. tauto.
Qed.

Lemma delete_servers_ext P Q t : (forall r, P r = Q r) -> delete_servers P t = delete_servers Q t.
Proof. intros H. unfold delete_servers. f_equal. apply list_filter_iff. intros r. by rewrite H. Qed.

Lemma delete_servers_none P t : (forall r, P r = false) -> delete_servers P t = t.
Proof.
  intros H. unfold delete_servers. rewrite filter_all by auto. by destruct t.
Qed.

Lemma wp_delete_indexes F indexes t :
  wp F (delete_indexes indexes) t (fun r t' => exists k,
    t' = delete_servers (listed_server (take k indexes)) t /\
    match r with Ok _ => k = length indexes | Err _ => F = true end).
Proof.
  revert t. induction indexes as [|i indexes IH]; intros t; cbn [delete_indexes].
  - wp_step. exists 0%nat. split; [|done]. symmetry. apply delete_servers_none. intros r.
    unfold listed_server. by destruct (is_server r).
  - do 2 wp_step.
    + exists 0%nat. split; [|done]. symmetry. apply delete_servers_none. intros r.
      unfold listed_server. by destruct (is_server r).
    + eapply wp_mono; [apply IH|]. intros r t' (k & -> & Hr). exists (S k). split.
      * rewrite delete_servers_twice. apply delete_servers_ext. intros s. unfold listed_server.
        cbn [take]. apply eq_true_iff_eq.
        rewrite orb_true_iff, !andb_true_iff, Z.eqb_eq, !bool_decide_eq_true, elem_of_cons. tauto.
      * destruct r; [by rewrite Hr|done].
Qed.

Lemma server_rows_delete P rows : (forall r, P r = true -> is_server r = true) ->
  server_rows (filter (fun r => P r = false) rows) = filter (fun r => P r = false) (server_rows rows).
Proof.
  intros _. unfold server_rows. rewrite !list_filter_filter. apply list_filter_iff. tauto.
Qed.

Lemma rows_of_delete id P rows : (forall r, in_subscription id r = true -> P r = false) ->
  rows_of id (filter (fun r => P r = false) rows) = rows_of id rows.
Proof.
  intros H. unfold rows_of. rewrite list_filter_filter. apply list_filter_iff. naive_solver.
Qed.

Lemma listed_not_owned indexes id r : in_subscription id r = true -> listed_server indexes r = false.
Proof.
  intros H. unfold listed_server. destruct (is_server r) eqn:E; [|done].
  by rewrite (server_not_owned id) in H.
Qed.

(** The statement numbers the server rows as if the others were not there, and
    leaves the others alone. *)
Lemma renumber_servers_rows done_ todo :
  server_rows (renumber_servers done_ todo) =
    renumber sv_sort set_server_sort (server_rows done_) (server_rows todo) /\
  (forall id, rows_of id (renumber_servers done_ todo) = rows_of id (done_ ++ todo)).
Proof.
  revert done_. induction todo as [|r todo IH]; intros done_; cbn [renumber_servers].
  { split; [done|]. intros id. by rewrite app_nil_r. }
  destruct (is_server r) eqn:Hr.
  - destruct (IH (done_ ++ [set_server_sort r (Z.of_nat (length (filter
      (fun s => is_server s = true /\ sv_sort s < sv_sort r) (done_ ++ r :: todo))))])) as [H1 H2].
    split.
    + rewrite H1, server_rows_snoc by done. rewrite server_rows_cons, Hr. cbn [renumber].
      by rewrite list_filter_and, filter_app, filter_cons, decide_True.
    + intros id. rewrite H2. unfold rows_of. rewrite !filter_app, !filter_cons.
      pose proof (server_not_owned id r Hr) as Hn.
      rewrite !decide_False by (by rewrite ?Hn; unfold in_subscription, set_server_sort; cbn; fold (in_subscription id r); rewrite ?Hn).
      by rewrite app_nil_r.
  - destruct (IH (done_ ++ [r])) as [H1 H2]. split.
    + rewrite H1, server_rows_cons, Hr. unfold server_rows at 1. rewrite filter_app, filter_cons.
      rewrite decide_False by (by rewrite Hr). by rewrite app_nil_r.
    + intros id. rewrite H2, <-app_assoc. done.
Qed.

(** The server rows numbered from [k] in place. *)
Fixpoint number_servers (k : Z) (rows : list server_row) : list server_row :=
  match rows with
  | [] => []
  | r :: rows => if is_server r then set_server_sort r k :: number_servers (k + 1) rows
                 else r :: number_servers k rows
  end.

Lemma server_rows_app l1 l2 : server_rows (l1 ++ l2) = server_rows l1 ++ server_rows l2.
Proof. apply filter_app. Qed.

Lemma renumber_servers_from done_ todo k :
  Forall (fun s => sv_sort s < k) (server_rows done_) -> length (server_rows done_) = Z.to_nat k -> 0 <= k ->
  StronglySorted Z.lt (map sv_sort (server_rows todo)) ->
  Forall (fun s => k <= sv_sort s) (server_rows todo) ->
  renumber_servers done_ todo = done_ ++ number_servers k todo.
Proof.
  revert done_ k. induction todo as [|r todo IH]; intros done_ k Hd Hl Hk Hs Ht;
    cbn [renumber_servers number_servers]; [by rewrite app_nil_r|].
  rewrite server_rows_cons in Hs, Ht. destruct (is_server r) eqn:Hr.
  - apply Forall_cons in Ht as [Hkr Ht]. apply sorted_map_cons in Hs as [Hs1 Hs2].
    assert (Hlt : Forall (fun y => k + 1 <= sv_sort y) (server_rows todo)).
    { apply (Forall_impl _ _ _ Hs2). intros y Hy. cbn in Hy. lia. }
    assert (Hn : Z.of_nat (length (filter (fun s => is_server s = true /\ sv_sort s < sv_sort r)
                                     (done_ ++ r :: todo))) = k).
    { rewrite list_filter_and. fold (server_rows (done_ ++ r :: todo)).
      rewrite server_rows_app, server_rows_cons, Hr. rewrite (filter_lt_split sv_sort).
      - rewrite Hl. lia.
      - apply (Forall_impl _ _ _ Hd). intros y Hy. cbn in Hy. lia.
      - constructor; [lia|]. apply (Forall_impl _ _ _ Hs2). intros y Hy. cbn in Hy. lia. }
    rewrite Hn, (IH _ (k + 1)); [by rewrite <-app_assoc| | |lia|done|done].
    + rewrite server_rows_snoc by done. apply Forall_app. split; [|constructor; [cbn; lia|done]].
      apply (Forall_impl _ _ _ Hd). intros y Hy. cbn in Hy. lia.
    + rewrite server_rows_snoc, length_app by done. cbn. lia.
  - assert (Hdone : server_rows (done_ ++ [r]) = server_rows done_).
    { by rewrite server_rows_app, server_rows_cons, Hr, app_nil_r. }
    rewrite (IH _ k); rewrite ?Hdone; try done. by rewrite <-app_assoc.
Qed.

Lemma number_servers_rank pre rows : StronglySorted Z.lt (map sv_sort (server_rows (pre ++ rows))) ->
  number_servers (Z.of_nat (length (server_rows pre))) rows =
  map (fun r => if is_server r then set_server_sort r (rank sv_sort (server_rows (pre ++ rows)) r) else r) rows.
Proof.
  revert pre. induction rows as [|r rows IH]; intros pre Hs; [done|]. cbn [number_servers map].
  assert (Happ : pre ++ r :: rows = (pre ++ [r]) ++ rows) by (by rewrite <-app_assoc).
  destruct (is_server r) eqn:Hr.
  - f_equal.
    + f_equal. unfold rank. rewrite server_rows_app, map_app in Hs. rewrite server_rows_app.
      rewrite server_rows_cons, Hr in Hs |- *. rewrite filter_lt_split; [done| |].
      * apply Forall_forall. intros x Hx. apply (StronglySorted_app_1_elem_of _ _ _ _ _ Hs); [|left].
        apply list_elem_of_fmap. eauto.
      * apply StronglySorted_app_1_r, sorted_map_cons in Hs as [_ Hs]. constructor; [lia|].
        apply (Forall_impl _ _ _ Hs). intros x Hx. cbn in Hx. lia.
    + rewrite Happ in Hs |- *. rewrite <-IH by done. f_equal.
      rewrite server_rows_snoc, length_app by done. cbn. lia.
  - f_equal. rewrite Happ in Hs |- *. rewrite <-IH by done. f_equal.
    by rewrite server_rows_app, server_rows_cons, Hr, app_nil_r.
Qed.

Lemma delete_listed_ok indexes t : store_ok t ->
  let t' := delete_servers (listed_server indexes) t in
  store_ok t' /\
  view_of t' = view_servers (view_of t)
    (map sv_config_json (filter (fun r => sv_sort r ∉ indexes) (server_rows (t_servers t)))).
Proof.
  intros Hok.
  assert (Hrows : server_rows (filter (fun r => listed_server indexes r = false) (t_servers t)) =
                  filter (fun r => sv_sort r ∉ indexes) (server_rows (t_servers t))).
  { unfold server_rows. rewrite !list_filter_filter. apply list_filter_iff. intros r.
    unfold listed_server. rewrite andb_false_iff, bool_decide_eq_false.
    destruct (is_server r); naive_solver. }
  apply servers_changed; try done.
  - rewrite Hrows. apply increasing_filter, Hok.
  - intros id. apply rows_of_delete. intros r. apply listed_not_owned.
  - by rewrite Hrows.
Qed.

Lemma renumber_servers_ok t : store_ok t ->
  let t' := with_servers t (renumber_servers [] (t_servers t)) in
  store_ok t' /\ packed (map sv_sort (server_rows (t_servers t'))) /\ view_of t' = view_of t.
Proof.
  intros Hok. destruct (renumber_servers_rows [] (t_servers t)) as [H1 H2].
  change (server_rows []) with (@nil server_row) in H1.
  rewrite (renumber_increasing sv_sort) in H1 by (done || apply Hok).
  assert (Hpk : packed (map sv_sort (server_rows (renumber_servers [] (t_servers t))))).
  { rewrite H1. by apply number_packed. }
  destruct (servers_changed t (renumber_servers [] (t_servers t)) (v_servers (view_of t)) Hok)
    as [H3 H4]; [by apply packed_increasing|done| |].
  - rewrite H1. by apply number_map.
  - cbn zeta. split; [done|]. split; [done|]. rewrite H4. by destruct (view_of t).
Qed.

(** A removal that fails has deleted the first of the rows at most, and left their
    numbers. *)
Lemma wp_serversRemove F indexes t : store_ok t ->
  wp F (serversRemove indexes) t (fun r t' => store_ok t' /\
    (packed (map sb_sort (t_subscriptions t)) -> packed (map sb_sort (t_subscriptions t'))) /\
    match r with
    | Ok _ => indexes <> [] /\ packed (map sv_sort (server_rows (t_servers t'))) /\
        (packed (map sv_sort (server_rows (t_servers t))) ->
         view_of t' = view_servers (view_of t) (remove_at indexes (v_servers (view_of t))))
    | Err _ => (F = false -> indexes = [] /\ t' = t) /\
        (packed (map sv_sort (server_rows (t_servers t))) ->
         exists k, view_of t' = view_servers (view_of t) (remove_at (take k indexes) (v_servers (view_of t))))
    end).
Proof.
  intros Hok. unfold serversRemove. destruct indexes as [|i indexes].
  { wp_step. split; [done|]. split; [done|]. split; [done|]. intros _. exists 0%nat. rewrite remove_at_nil. by destruct (view_of t). }
  wp_step. eapply wp_mono; [apply wp_delete_indexes|]. intros r t1 (k & -> & Hr).
  destruct (delete_listed_ok (take k (i :: indexes)) t Hok) as [Hok1 Hv1]. cbn zeta in *.
  assert (Hv : packed (map sv_sort (server_rows (t_servers t))) ->
    view_of (delete_servers (listed_server (take k (i :: indexes))) t) =
    view_servers (view_of t) (remove_at (take k (i :: indexes)) (v_servers (view_of t)))).
  { intros Hp. rewrite Hv1. f_equal. unfold remove_at. rewrite (packed_filter_from sv_sort 0) by (by apply packed_from_0).
    by rewrite remove_from_map. }
  destruct r as [u|e]; [|rewrite Hr; split; [done|]; split; [done|]; split; [done|]; eauto]. subst k. rewrite firstn_all in Hok1, Hv1, Hv |- *.
  destruct (renumber_servers_ok _ Hok1) as (Hok2 & Hp2 & Hv2).
  wp_step; [split; [done|]; split; [done|]; split; [done|]; intros Hp; exists (length (i :: indexes)); rewrite firstn_all; auto|].
  split; [done|]. split; [done|]. split; [done|]. split; [done|].
  intros Hp. by rewrite Hv2, Hv.
Qed.

(** *** Subscriptions *)

Lemma in_subscription_inj id id' r :
  in_subscription id r = true -> in_subscription id' r = true -> id = id'.
Proof.
  unfold in_subscription. rewrite !andb_true_iff, !bool_decide_eq_true. intros [_ H] [_ H']. congruence.
Qed.

(** The subscription that a document describes. *)
Definition sub_of_doc (id : Z) (d : doc) : sub_row * list doc := (doc_columns d id 0, gj_Array d "servers").

Definition sub_servers (subID j : Z) (docs : list doc) (seq : Z) : list server_row :=
  imap (fun n d => mkServerRow (seq + 1 + Z.of_nat n) "subscription_server" (Some subID) d (j + Z.of_nat n)) docs.

Lemma sub_servers_cons subID j d docs seq :
  sub_servers subID j (d :: docs) seq =
  mkServerRow (seq + 1) "subscription_server" (Some subID) d j :: sub_servers subID (j + 1) docs (seq + 1).
Proof.
  unfold sub_servers. cbn [imap]. f_equal; [f_equal; lia|].
  apply imap_ext. intros n x _. cbn. f_equal; lia.
Qed.

(** Servers added to a subscription. *)
Definition add_rows (t : tables) (rows : list server_row) : tables :=
  mkTables (t_servers t ++ rows) (t_servers_seq t + Z.of_nat (length rows)) (t_subscriptions t)
    (t_subscriptions_seq t) (t_outbound_names t) (t_system_config t).

Lemma wp_insert_sub_servers F wrap subID j docs t :
  wp F (insert_sub_servers wrap subID j docs) t (fun r t' => exists k,
    t' = add_rows t (sub_servers subID j (take k docs) (t_servers_seq t)) /\
    match r with Ok _ => k = length docs | Err _ => F = true end).
Proof.
  revert j t. induction docs as [|d docs IH]; intros j t; cbn [insert_sub_servers].
  - wp_step. exists 0%nat. split; [|done]. unfold add_rows. cbn. rewrite app_nil_r, Z.add_0_r. by destruct t.
  - do 3 wp_step.
    + wp_step. exists 0%nat. split; [|done]. unfold add_rows. cbn. rewrite app_nil_r, Z.add_0_r. by destruct t.
    + eapply wp_mono; [apply IH|]. intros r t' (k & -> & Hr). exists (S k). split.
      * cbn [take]. rewrite sub_servers_cons. unfold add_rows, insert_server. cbn -[Z.of_nat Z.add sub_servers].
        f_equal; [by rewrite <-app_assoc|lia].
      * destruct r; [by rewrite Hr|done].
Qed.

Lemma sub_servers_rows subID j docs seq :
  Forall (fun r => in_subscription subID r = true) (sub_servers subID j docs seq) /\
  map sv_config_json (sub_servers subID j docs seq) = docs /\
  map sv_sort (sub_servers subID j docs seq) = seqZ j (Z.of_nat (length docs)).
Proof.
  revert j seq. induction docs as [|d docs IH]; intros j seq; [done|].
  rewrite sub_servers_cons. destruct (IH (j + 1) (seq + 1)) as (H1 & H2 & H3).
  split; [|split].
  - constructor; [|done]. unfold in_subscription. cbn. by rewrite bool_decide_true.
  - cbn [map]. by rewrite H2.
  - cbn [map length]. rewrite H3, (seqZ_cons j) by lia. cbn. f_equal. f_equal; lia.
Qed.

Lemma add_sub_servers t subID docs : store_ok t -> subID <= t_subscriptions_seq t ->
  rows_of subID (t_servers t) = [] ->
  let t' := add_rows t (sub_servers subID 0 docs (t_servers_seq t)) in
  store_ok t' /\ server_rows (t_servers t') = server_rows (t_servers t) /\
  map sv_config_json (rows_of subID (t_servers t')) = docs /\
  (forall id, id <> subID -> rows_of id (t_servers t') = rows_of id (t_servers t)).
Proof.
  intros Hok Hid Hempty. destruct (sub_servers_rows subID 0 docs (t_servers_seq t)) as (H1 & H2 & H3).
  set (new := sub_servers subID 0 docs (t_servers_seq t)) in *.
  rewrite Forall_forall in H1. cbn zeta.
  assert (Hs : server_rows (t_servers t ++ new) = server_rows (t_servers t)).
  { unfold server_rows. rewrite filter_app, (filter_none _ new); [apply app_nil_r|].
    intros r Hr Hs. specialize (H1 r Hr). by rewrite (server_not_owned subID) in H1. }
  assert (Ho : forall id, id <> subID -> rows_of id (t_servers t ++ new) = rows_of id (t_servers t)).
  { intros id Hne. unfold rows_of. rewrite filter_app, (filter_none _ new); [apply app_nil_r|].
    intros r Hr Hs'. apply Hne. eapply in_subscription_inj; eauto. }
  assert (Hn : rows_of subID (t_servers t ++ new) = new).
  { unfold rows_of in *. rewrite filter_app, Hempty. by apply filter_all. }
  unfold add_rows; cbn [t_servers]. split; [|split; [done|split; [by rewrite Hn|done]]].
  destruct Hok. split; cbn [t_servers t_subscriptions t_subscriptions_seq]; try done.
  - by rewrite Hs.
  - apply Forall_app. split; [done|]. apply Forall_forall. intros r Hr id Hr'.
    by rewrite (in_subscription_inj id subID r Hr' (H1 r Hr)).
  - intros id. destruct (decide (id = subID)) as [->|Hne]; [|by rewrite Ho].
    rewrite Hn. unfold packed. by rewrite H3, length_seqZ, Nat2Z.id.
Qed.

Lemma sorted_nodup (l : list Z) : StronglySorted Z.lt l -> NoDup l.
Proof.
  induction l as [|x l IH]; intros H; [constructor|]. apply StronglySorted_cons in H as [H1 H2].
  constructor; [|by apply IH]. intros Hx. rewrite Forall_forall in H1. specialize (H1 x Hx). lia.
Qed.

Lemma sub_id_inj t m n a b : store_ok t -> t_subscriptions t !! m = Some a ->
  t_subscriptions t !! n = Some b -> sb_id a = sb_id b -> m = n.
Proof.
  intros Hok Ha Hb Hab. apply (NoDup_lookup (map sb_id (t_subscriptions t)) m n (sb_id a)).
  - apply sorted_nodup, Hok.
  - by apply (list_lookup_fmap_Some_2 sb_id).
  - rewrite Hab. by apply (list_lookup_fmap_Some_2 sb_id).
Qed.

(** Dropping the servers of a subscription. *)
Lemma delete_owned_ok t subID : store_ok t ->
  let t' := delete_servers (in_subscription subID) t in
  store_ok t' /\ server_rows (t_servers t') = server_rows (t_servers t) /\
  rows_of subID (t_servers t') = [] /\
  (forall id, id <> subID -> rows_of id (t_servers t') = rows_of id (t_servers t)).
Proof.
  intros Hok. unfold delete_servers, with_servers. cbn zeta; cbn [t_servers].
  assert (Hs : server_rows (filter (fun r => in_subscription subID r = false) (t_servers t)) =
               server_rows (t_servers t)).
  { unfold server_rows. rewrite list_filter_filter. apply list_filter_iff. intros r.
    split; [tauto|]. intros Hr. split; [done|]. by apply server_not_owned. }
  assert (He : rows_of subID (filter (fun r => in_subscription subID r = false) (t_servers t)) = []).
  { apply filter_none. intros r [Hr _]%list_elem_of_filter. by rewrite Hr. }
  assert (Ho : forall id, id <> subID ->
    rows_of id (filter (fun r => in_subscription subID r = false) (t_servers t)) = rows_of id (t_servers t)).
  { intros id Hne. apply rows_of_delete. intros r Hr. apply not_true_is_false. intros Hr'.
    apply Hne. eapply in_subscription_inj; eauto. }
  split; [|done]. destruct Hok. split; cbn [t_servers t_subscriptions t_subscriptions_seq]; try done.
  - by rewrite Hs.
  - by apply Forall_filter_sub.
  - intros id. destruct (decide (id = subID)) as [->|Hne]; [by rewrite He|by rewrite Ho].
Qed.

End Lists.
