(* ===== verification/JsonRef.v ===== *)
(** * A concrete JSON reader and writer

    An instance of [Json] on trees, with the laws the store relies on: it shows
    that the hypotheses of the theorems can hold, and lets examples compute. *)

From S2P Require Import Prelude.
From S2P Require Import Store.

#[local] Open Scope Z_scope.

Module JsonRef.

Inductive jval :=
| JNull
| JBool (b : bool)
| JInt (n : Z)
| JStr (s : string)
| JArr (items : list jval)
| JObj (fields : list (string * jval)).

Fixpoint assoc (k : string) (l : list (string * jval)) : jval :=
  match l with
  | [] => JNull
  | (k', v) :: l => if String.eqb k k' then v else assoc k l
  end.

Definition field (d : jval) (k : string) : jval := match d with JObj fs => assoc k fs | _ => JNull end.
Definition as_string (d : jval) : string := match d with JStr s => s | _ => "" end.
Definition as_bool (d : jval) : bool := match d with JBool b => b | _ => false end.
Definition as_int (d : jval) : Z := match d with JInt n => n | _ => 0 end.
Definition as_array (d : jval) : list jval := match d with JArr l => l | _ => [] end.

#[export] Instance json_ref : Json := {
  doc := jval;
  gj_String d k := as_string (field d k);
  gj_Bool d k := as_bool (field d k);
  gj_Int d k := as_int (field d k);
  gj_Array d k := as_array (field d k);
  gj_elements d := match d with JArr l => Some l | _ => None end;
  Marshal_subscription f := Ok (JObj
    [("databaseId", JInt (sf_databaseId f)); ("remarks", JStr (sf_remarks f));
     ("address", JStr (sf_address f)); ("status", JStr (sf_status f)); ("info", JStr (sf_info f));
     ("servers", JArr (sf_servers f)); ("autoSelect", JBool (sf_autoSelect f));
     ("updateMode", JStr (sf_updateMode f));
     ("updateIntervalMinutes", JInt (sf_updateIntervalMinutes f));
     ("failureIntervalMinutes", JInt (sf_failureIntervalMinutes f));
     ("allowDirectRecovery", JBool (sf_allowDirectRecovery f))]%string);
}.

#[export] Instance json_ref_laws : JsonLaws json_ref.
Proof.
  split.
  - intros f. by eexists.
  - intros f d H. injection H as <-. repeat split.
Qed.

End JsonRef.
