(* ===== verification/StoreProps.v ===== *)
(** * What the stored lists promise (service/db: listOp.go)

    The lists of servers and of subscriptions behave as plain lists indexed from
    0, an update in a transaction happens completely or not at all, and the
    numbering of the rows survives every operation, whatever statements fail. *)

From stdpp Require Import sorting.
From S2P Require Import Prelude.
From S2P Require Import Store StoreLists JsonRef.

#[local] Open Scope Z_scope.
#[local] Open Scope go_scope.

Section Subscriptions.
Context `{J : Json}.

Lemma sub_at t i : store_packed t ->
  List.find (fun r => sb_sort r =? i) (t_subscriptions t) = at_index (t_subscriptions t) i.
Proof. intros H. apply packed_find, H. Qed.

Lemma at_index_subs t i :
  at_index (v_subs (view_of t)) i = sub_view (t_servers t) <$> at_index (t_subscriptions t) i.
Proof. apply at_index_map. Qed.

(** The columns of row [n] replaced, its id and position kept. *)
Lemma set_columns_ok t d n r : store_ok t -> store_packed t -> t_subscriptions t !! n = Some r ->
  let t' := with_subscriptions t (map (fun r => if sb_sort r =? Z.of_nat n
                                                then doc_columns d (sb_id r) (sb_sort r) else r)
                                      (t_subscriptions t)) in
  store_ok t' /\ store_packed t' /\
  t_subscriptions t' = <[n := doc_columns d (sb_id r) (Z.of_nat n)]> (t_subscriptions t).
Proof.
  intros Hok Hp Hr. cbn zeta.
  set (f := fun r => if sb_sort r =? Z.of_nat n then doc_columns d (sb_id r) (sb_sort r) else r).
  assert (Hsort : map sb_sort (map f (t_subscriptions t)) = map sb_sort (t_subscriptions t)).
  { rewrite map_map. apply map_ext. intros x. unfold f. by destruct (sb_sort x =? _). }
  assert (Hids : map sb_id (map f (t_subscriptions t)) = map sb_id (t_subscriptions t)).
  { rewrite map_map. apply map_ext. intros x. unfold f. by destruct (sb_sort x =? _). }
  split; [|split].
  - destruct Hok. split; unfold with_subscriptions; cbn [t_servers t_subscriptions t_subscriptions_seq]; try done.
    + by rewrite Hsort.
    + by rewrite Hids.
    + rewrite Forall_map. apply (Forall_impl _ _ _ ok_seq). intros x Hx. unfold f.
      by destruct (sb_sort x =? _).
  - destruct Hp. split; unfold with_subscriptions; cbn [t_servers t_subscriptions]; [done|by rewrite Hsort].
  - cbn [t_subscriptions with_subscriptions]. unfold f.
    rewrite (packed_update sb_sort _ (fun r => doc_columns d (sb_id r) (sb_sort r))) by apply Hp.
    pose proof (packed_lookup _ _ _ _ (packed_subs _ Hp) Hr) as Hk.
    apply list_eq. intros m. destruct (decide (m = n)) as [->|Hne].
    + rewrite list_lookup_alter_eq, list_lookup_insert_eq by (by eapply lookup_lt_Some).
      by rewrite Hr; cbn; rewrite Hk.
    + by rewrite list_lookup_alter_ne, list_lookup_insert_ne.
Qed.

(** Replacing the servers of row [n] with those of a document. *)
Lemma replace_sub_servers t n r docs : store_ok t -> t_subscriptions t !! n = Some r ->
  let t1 := delete_servers (in_subscription (sb_id r)) t in
  let t2 := add_rows t1 (sub_servers (sb_id r) 0 docs (t_servers_seq t1)) in
  store_ok t2 /\ (store_packed t -> store_packed t2) /\
  view_of t2 = view_subs (view_of t) (<[n := (set_sub_sort r 0, docs)]> (v_subs (view_of t))).
Proof.
  intros Hok Hr. cbn zeta.
  destruct (delete_owned_ok t (sb_id r) Hok) as (Hok1 & Hs1 & He1 & Ho1). cbn zeta in *.
  set (t1 := delete_servers (in_subscription (sb_id r)) t) in *.
  assert (Hid : sb_id r <= t_subscriptions_seq t1).
  { pose proof (ok_seq _ Hok) as Hq. rewrite Forall_forall in Hq. apply (Hq r).
    by eapply list_elem_of_lookup_2. }
  destruct (add_sub_servers t1 (sb_id r) docs Hok1 Hid He1) as (Hok2 & Hs2 & Hd2 & Ho2). cbn zeta in *.
  set (t2 := add_rows t1 _) in *. split; [done|]. split.
  { intros [Hp1 Hp2]. split; [|done]. by rewrite Hs2, Hs1. }
  unfold view_of at 1, view_subs. rewrite Hs2, Hs1. f_equal.
  change (t_subscriptions t2) with (t_subscriptions t).
  apply list_eq. intros m. rewrite (list_lookup_fmap (sub_view (t_servers t2))).
  destruct (decide (m = n)) as [->|Hne].
  - rewrite Hr, list_lookup_insert_eq; [unfold fmap, option_fmap, option_map, sub_view; by rewrite Hd2|].
    cbn. rewrite length_map. by eapply lookup_lt_Some.
  - rewrite list_lookup_insert_ne by done. cbn. rewrite (list_lookup_fmap (sub_view (t_servers t))).
    destruct (t_subscriptions t !! m) as [r'|] eqn:Hr'; [|done].
    unfold fmap, option_fmap, option_map, sub_view.
    rewrite Ho2, Ho1; try done; intros He; apply Hne; by eapply (sub_id_inj t).
Qed.

Lemma wp_setSubscription F i d t : store_ok t -> store_packed t ->
  wp F (setSubscription i d) t (fun r t' =>
    match r with
    | Ok _ => store_ok t' /\ store_packed t' /\
        exists r0 docs, at_index (v_subs (view_of t)) i = Some (r0, docs) /\
          view_of t' = view_subs (view_of t)
            (<[Z.to_nat i := sub_of_doc (sb_id r0) d]> (v_subs (view_of t)))
    | Err _ => F = false -> at_index (v_subs (view_of t)) i = None
    end).
Proof.
  intros Hok Hp. unfold setSubscription. do 2 wp_step; [done|]. cbn [fst snd].
  rewrite at_index_subs, sub_at by done.
  destruct (at_index (t_subscriptions t) i) as [r|] eqn:Hr; cbn [fmap option_fmap option_map]; [|by wp_step].
  destruct (at_index_Some _ _ _ Hr) as (Hi & Hr' & Hlt). set (n := Z.to_nat i) in *. rewrite Hi. clear Hi.
  destruct (set_columns_ok t d n r Hok Hp Hr') as (Hok1 & Hp1 & Hs1). cbn zeta in *.
  set (t1 := with_subscriptions t _) in *.
  assert (Hr1 : t_subscriptions t1 !! n = Some (doc_columns d (sb_id r) (Z.of_nat n))).
  { rewrite Hs1. by apply list_lookup_insert_eq. }
  destruct (replace_sub_servers t1 n _ (gj_Array d "servers") Hok1 Hr1) as (Hok2 & Hp2 & Hv2).
  cbn zeta in *. do 3 wp_step; [by wp_step|].
  eapply wp_mono; [apply wp_insert_sub_servers|]. intros res t2 (k & -> & Hk).
  destruct res as [u|e]; [|by rewrite Hk]. subst k. rewrite firstn_all.
  split; [done|]. split; [auto|]. eexists _, _. split; [done|].
  change (sb_id (doc_columns d (sb_id r) (Z.of_nat n))) with (sb_id r) in *. rewrite Hv2.
  unfold view_subs, view_of. cbn [v_servers v_subs v_names v_config]. f_equal.
  rewrite Hs1. change (t_servers t1) with (t_servers t).
  change (map (sub_view (t_servers t))) with (fmap (M := list) (sub_view (t_servers t))).
  by rewrite list_fmap_insert, list_insert_insert_eq.
Qed.

Lemma config_changed t m : store_ok t ->
  store_ok (with_system_config t m) /\ (store_packed t -> store_packed (with_system_config t m)) /\
  view_of (with_system_config t m) = view_config (view_of t) m.
Proof. intros []. split; [by split|]. split; [by intros [? ?]; split|done]. Qed.

(** What a callback of a transaction may do: write [om] to system_config, or,
    with [None], fail. *)
Definition writes_config (F : bool) (c : DB unit) (t : tables) (om : option (gmap string doc)) : Prop :=
  wp F c t (fun r t' =>
    match r with
    | Ok _ => exists m, om = Some m /\ t' = with_system_config t m
    | Err _ => F = true \/ om = None
    end).

Lemma wp_SubscriptionsSet F {V} `{!GoJson V} i (v : V) before t om : store_ok t -> store_packed t ->
  writes_config F (match before with Some f => f | None => db_ret tt end) t om ->
  wp F (SubscriptionsSet i v before) t (fun r t' =>
    match r with
    | Ok _ => store_ok t' /\ store_packed t' /\
        exists d r0 docs m, Marshal v = Ok d /\ at_index (v_subs (view_of t)) i = Some (r0, docs) /\
          om = Some m /\
          view_of t' = view_subs (view_config (view_of t) m)
            (<[Z.to_nat i := sub_of_doc (sb_id r0) d]> (v_subs (view_of t)))
    | Err _ => t' = t /\
        (F = false -> is_ok (Marshal v) = false \/ om = None \/ at_index (v_subs (view_of t)) i = None)
    end).
Proof.
  intros Hok Hp Hb. unfold SubscriptionsSet. do 2 wp_step.
  destruct (Marshal v) as [d|e] eqn:Hm; [|by auto].
  apply wp_ReadModifyWrite; [intros ->; by split|]. wp_step. eapply wp_mono; [apply Hb|].
  cbn beta. intros [u|e] t1 H1; [|split; [done|]; intros ->; destruct H1; [done|by auto]].
  destruct H1 as (m & -> & ->).
  destruct (config_changed t m Hok) as (Hok1 & Hp1 & Hv1).
  eapply wp_mono; [apply wp_setSubscription; auto|]. rewrite Hv1. cbn [v_subs view_config].
  intros [u'|e] t2 H2; [|by auto]. destruct H2 as (H2 & H3 & r0 & docs & H4 & H5).
  split; [done|]. split; [done|]. by exists d, r0, docs, m.
Qed.

(** *** Removing subscriptions *)

Lemma filter_sub_id t r : store_ok t -> r ∈ t_subscriptions t ->
  filter (fun x => sb_id x <> sb_id r) (t_subscriptions t) =
  filter (fun x => sb_sort x <> sb_sort r) (t_subscriptions t).
Proof.
  intros Hok [n Hn]%list_elem_of_lookup_1.
  assert (Heq : forall x, x ∈ t_subscriptions t -> sb_id x = sb_id r <-> sb_sort x = sb_sort r).
  { intros x [m Hm]%list_elem_of_lookup_1. split; intros He.
    - assert (m = n) as -> by (by eapply (sub_id_inj t)). congruence.
    - assert (m = n) as ->; [|congruence].
      apply (NoDup_lookup (map sb_sort (t_subscriptions t)) m n (sb_sort x)).
      + apply sorted_nodup, Hok.
      + by apply (list_lookup_fmap_Some_2 sb_sort).
      + rewrite He. by apply (list_lookup_fmap_Some_2 sb_sort). }
  apply filter_ext_in. intros x Hx. by rewrite (Heq x Hx).
Qed.

Lemma filter_subs_ok t P `{!forall x : sub_row, Decision (P x)} : store_ok t ->
  store_ok (with_subscriptions t (filter P (t_subscriptions t))).
Proof.
  intros []. split; cbn [with_subscriptions t_servers t_subscriptions t_subscriptions_seq]; try done.
  - by apply increasing_filter.
  - by apply StronglySorted_filter_map.
  - by apply Forall_filter_sub.
Qed.

(** The first [k] are gone; the next may have lost its servers. *)
Definition deleted_to (k : nat) (emptied indexes : list Z) (t t' : tables) : Prop :=
  t_subscriptions t' = filter (fun r => sb_sort r ∉ take k indexes) (t_subscriptions t) /\
  forall r, r ∈ t_subscriptions t' ->
    rows_of (sb_id r) (t_servers t') = if decide (sb_sort r ∈ emptied) then [] else rows_of (sb_id r) (t_servers t).

Lemma deleted_none indexes t : deleted_to 0 [] indexes t t.
Proof.
  split; [symmetry; apply filter_all; intros r _; apply not_elem_of_nil|]. intros r _. by rewrite decide_False by apply not_elem_of_nil.
Qed.

Lemma deleted_next k emptied i indexes t t1 t' r : store_ok t -> r ∈ t_subscriptions t -> sb_sort r = i ->
  t_subscriptions t1 = filter (fun x => sb_id x <> sb_id r) (t_subscriptions t) ->
  (forall id, id <> sb_id r -> rows_of id (t_servers t1) = rows_of id (t_servers t)) ->
  deleted_to k emptied indexes t1 t' -> deleted_to (S k) emptied (i :: indexes) t t'.
Proof.
  intros Hok Hr Hi Hs Ho [H1 H2]. split.
  - rewrite H1, Hs, filter_sub_id, list_filter_filter, Hi by done. apply list_filter_iff. intros x. cbn [take]. rewrite not_elem_of_cons. tauto.
  - intros x Hx. rewrite H2, Ho by done || (rewrite H1, Hs in Hx; by apply list_elem_of_filter in Hx as [_ [Hx _]%list_elem_of_filter]). done.
Qed.

Lemma wp_delete_subscriptions F indexes t : store_ok t ->
  wp F (delete_subscriptions indexes) t (fun r t' => store_ok t' /\
    t_outbound_names t' = t_outbound_names t /\ t_system_config t' = t_system_config t /\
    server_rows (t_servers t') = server_rows (t_servers t) /\
    exists k emptied, deleted_to k emptied indexes t t' /\
    match r with
    | Ok _ => k = length indexes /\ emptied = []
    | Err _ => F = true /\ (emptied = [] \/ exists i, indexes !! k = Some i /\ emptied = [i])
    end).
Proof.
  revert t. induction indexes as [|i indexes IH]; intros t Hok; cbn [delete_subscriptions].
  { wp_step. repeat (split; [done|]). exists 0%nat, []. split; [apply deleted_none|done]. }
  do 2 wp_step; [repeat (split; [done|]); exists 0%nat, []; split; [apply deleted_none|auto]|].
  destruct (List.find _ (t_subscriptions t)) as [r|] eqn:Hf.
  - apply List.find_some in Hf as [Hr%list_elem_of_In Hi]. zbool.
    destruct (delete_owned_ok t (sb_id r) Hok) as (Hok1 & Hs1 & He1 & Ho1). cbn zeta in *.
    set (t1 := delete_servers (in_subscription (sb_id r)) t) in *.
    pose proof (filter_subs_ok t1 (fun x => sb_id x <> sb_id r) Hok1) as Hok2.
    do 2 wp_step; [repeat (split; [done|]); exists 0%nat, []; split; [apply deleted_none|auto]|].
    do 2 wp_step.
    { repeat (split; [done|]). exists 0%nat, [i]. split; [|split; [done|]; right; by exists i].
      split; [symmetry; apply filter_all; intros x _; apply not_elem_of_nil|]. intros x Hx.
      assert (Hx' : x ∈ filter (fun x => sb_id x <> sb_id r) (t_subscriptions t) <-> x ∈ filter (fun x => sb_sort x <> sb_sort r) (t_subscriptions t))
        by by rewrite (filter_sub_id t r Hok Hr).
      rewrite !list_elem_of_filter in Hx'. change (x ∈ t_subscriptions t) in Hx.
      case_decide as Hd; rewrite list_elem_of_singleton in Hd; [|by apply Ho1; apply Hx'; split; [congruence|done]].
      destruct (decide (sb_id x = sb_id r)) as [->|Hn]; [done|]. destruct (proj1 Hx' (conj Hn Hx)). congruence. }
    eapply wp_mono; [by apply IH|]. intros res t' (H1 & H2 & H3 & H4 & k & emptied & Hd & H5). rewrite H2, H3, H4.
    repeat (split; [done|]). exists (S k), emptied. split; [|by destruct res as [u|e]; [destruct H5 as [-> ->]|]].
    apply (deleted_next k emptied i indexes t (with_subscriptions t1 (filter (fun x => sb_id x <> sb_id r) (t_subscriptions t1))) t' r); done.
  - pose proof (List.find_none _ _ Hf) as Hnone.
    eapply wp_mono; [by apply IH|]. intros res t' (H1 & H2 & H3 & H4 & k & emptied & [Hd1 Hd2] & H5).
    repeat (split; [done|]). exists (S k), emptied. split; [|by destruct res as [u|e]; [destruct H5 as [-> ->]|]]. split; [|done].
    rewrite Hd1. apply filter_ext_in. intros x Hx. cbn [take]. rewrite not_elem_of_cons. split; [|tauto]. intros Hn. split; [|done].
    apply list_elem_of_In, Hnone in Hx. by zbool.
Qed.

Lemma renumber_subs_ok t : store_ok t ->
  let t' := with_subscriptions t (renumber sb_sort set_sub_sort [] (t_subscriptions t)) in
  store_ok t' /\ packed (map sb_sort (t_subscriptions t')) /\ view_of t' = view_of t.
Proof.
  intros Hok. cbn zeta. rewrite (renumber_increasing sb_sort) by (done || apply Hok).
  set (subs := number set_sub_sort 0 (t_subscriptions t)).
  assert (Hpk : packed (map sb_sort subs)) by (by apply number_packed).
  assert (Hids : map sb_id subs = map sb_id (t_subscriptions t)) by (by apply number_map).
  split; [|split; [done|]].
  - destruct Hok. split; cbn [with_subscriptions t_servers t_subscriptions t_subscriptions_seq]; try done.
    + by apply packed_increasing.
    + by rewrite Hids.
    + rewrite <-(Forall_map sb_id (fun n => n <= t_subscriptions_seq t)), Hids, Forall_map. done.
  - unfold view_of. cbn [with_subscriptions t_servers t_subscriptions t_outbound_names t_system_config].
    f_equal. by apply number_map.
Qed.

(** The subscriptions at these positions without their servers. *)
Definition empty_at (emptied : list Z) (l : list (sub_row * list doc)) : list (sub_row * list doc) :=
  imap (fun i p => if decide (Z.of_nat i ∈ emptied) then (fst p, []) else p) l.

Lemma empty_at_nil l : empty_at [] l = l.
Proof.
  unfold empty_at. apply list_eq. intros n. rewrite list_lookup_imap. destruct (l !! n); [|done]. cbn.
  by rewrite decide_False by apply not_elem_of_nil.
Qed.

Lemma view_deleted k emptied indexes t t' : packed (map sb_sort (t_subscriptions t)) -> deleted_to k emptied indexes t t' ->
  t_outbound_names t' = t_outbound_names t -> t_system_config t' = t_system_config t ->
  server_rows (t_servers t') = server_rows (t_servers t) ->
  view_of t' = view_subs (view_of t) (remove_at (take k indexes) (empty_at emptied (v_subs (view_of t)))).
Proof.
  intros Hp [H1 H2] Hn Hc Hs. unfold view_of, view_subs. cbn [v_servers v_subs v_names v_config]. rewrite Hs, Hn, Hc. f_equal.
  set (g := fun r => if decide (sb_sort r ∈ emptied) then (set_sub_sort r 0, []) else sub_view (t_servers t) r).
  assert (He : empty_at emptied (map (sub_view (t_servers t)) (t_subscriptions t)) = map g (t_subscriptions t)).
  { apply list_eq. intros n. unfold empty_at. rewrite list_lookup_imap, !list_lookup_fmap.
    destruct (t_subscriptions t !! n) as [r|] eqn:E; [|done]. cbn [fmap option_fmap option_map]. f_equal. unfold g.
    assert (Hi : sb_sort r = Z.of_nat n); [|by rewrite Hi]. apply (list_lookup_fmap_Some_2 sb_sort) in E. unfold packed in Hp. change (map sb_sort (t_subscriptions t) !! n = Some (sb_sort r)) in E.
    rewrite Hp in E. apply lookup_seqZ in E. lia. }
  rewrite He. unfold remove_at. rewrite <-remove_from_map, <-(packed_filter_from sb_sort 0) by (by apply packed_from_0). rewrite <-H1.
  apply map_ext_in. intros r Hr%list_elem_of_In. unfold g, sub_view. rewrite (H2 r Hr). by destruct (decide _).
Qed.

Lemma wp_subscriptionsRemove F indexes t : store_ok t ->
  wp F (subscriptionsRemove indexes) t (fun r t' => store_ok t' /\
    (packed (map sv_sort (server_rows (t_servers t))) -> packed (map sv_sort (server_rows (t_servers t')))) /\
    match r with
    | Ok _ => indexes <> [] /\ packed (map sb_sort (t_subscriptions t')) /\
        (packed (map sb_sort (t_subscriptions t)) ->
         view_of t' = view_subs (view_of t) (remove_at indexes (v_subs (view_of t))))
    | Err _ => (F = false -> indexes = [] /\ t' = t) /\
        (packed (map sb_sort (t_subscriptions t)) -> exists k emptied, (emptied = [] \/ exists i, indexes !! k = Some i /\ emptied = [i]) /\
         view_of t' = view_subs (view_of t) (remove_at (take k indexes) (empty_at emptied (v_subs (view_of t)))))
    end).
Proof.
  intros Hok. unfold subscriptionsRemove. destruct indexes as [|i indexes].
  { wp_step. split; [done|]. split; [done|]. split; [done|]. intros _. exists 0%nat, []. split; [by left|].
    rewrite empty_at_nil. cbn [take]. rewrite remove_at_nil. by destruct (view_of t). }
  wp_step. eapply wp_mono; [by apply wp_delete_subscriptions|].
  intros r t1 (Hok1 & Hn & Hc & Hs & k & emptied & Hd & H).
  assert (Hv : packed (map sb_sort (t_subscriptions t)) ->
    view_of t1 = view_subs (view_of t) (remove_at (take k (i :: indexes)) (empty_at emptied (v_subs (view_of t)))))
    by (intros Hp; by apply view_deleted).
  destruct r as [u|e].
  2: { destruct H as [-> H]. rewrite Hs. split; [done|]. split; [done|]. split; [done|]. intros Hp. exists k, emptied. auto. }
  destruct H as [-> ->]. rewrite firstn_all, empty_at_nil in Hv. destruct (renumber_subs_ok t1 Hok1) as (Hok2 & Hp2 & Hv2). cbn zeta in *.
  wp_step.
  { rewrite Hs. split; [done|]. split; [done|]. split; [done|]. intros Hp. exists (length (i :: indexes)), [].
    rewrite firstn_all, empty_at_nil. auto. }
  split; [done|]. split; [by cbn [with_subscriptions t_servers]; rewrite Hs|]. split; [done|]. split; [done|].
  intros Hp. by rewrite Hv2, Hv.
Qed.

(** Both lists and the connected lists change, or nothing. *)
Lemma wp_RemoveTx F subs servers connected t om : store_ok t -> store_packed t ->
  writes_config F connected t om ->
  wp F (RemoveTx subs servers connected) t (fun r t' =>
    match r with
    | Ok _ => store_ok t' /\ store_packed t' /\ exists m, om = Some m /\
        view_of t' = mkView (remove_at servers (v_servers (view_of t))) (remove_at subs (v_subs (view_of t)))
                       (v_names (view_of t)) m
    | Err _ => t' = t /\ (F = true \/ om = None)
    end).
Proof.
  intros Hok Hp Hc. unfold RemoveTx. apply wp_ReadModifyWrite; [intros ->; by auto|].
  wp_step. eapply wp_mono; [apply Hc|]. cbn beta. intros [u|e] t1 H1; [|by split].
  destruct H1 as (m & -> & ->).
  destruct (config_changed t m Hok) as (Hok1 & Hp1 & Hv1). specialize (Hp1 Hp).
  set (t1 := with_system_config t m) in *. wp_step.
  apply (wp_mono _ _ _ (fun r t2 => match r with
    | Ok _ => store_ok t2 /\ store_packed t2 /\
        view_of t2 = view_subs (view_of t1) (remove_at subs (v_subs (view_of t1)))
    | Err _ => F = true end)).
  { destruct subs as [|i subs].
    - wp_step. split; [done|]. split; [done|]. rewrite remove_at_nil. by destruct (view_of t1).
    - eapply wp_mono; [by apply wp_subscriptionsRemove|]. intros r t2 (H1 & H2 & H3).
      destruct r as [u'|e]; [|destruct F; [done|by destruct (proj1 H3 eq_refl)]]. destruct H3 as (_ & H3 & H4).
      split; [done|]. split; [split; [apply H2, Hp1|done]|]. apply H4, Hp1. }
  intros [u'|e] t2 H2; [|by auto]. destruct H2 as (Hok2 & Hp2 & Hv2).
  destruct servers as [|i servers].
  - wp_step. split; [done|]. split; [done|]. exists m. by rewrite Hv2, Hv1, remove_at_nil.
  - eapply wp_mono; [by apply wp_serversRemove|]. intros r t3 (H1 & H2 & H3).
    destruct r as [u''|e]; [|split; [done|]; left; destruct F; [done|by destruct (proj1 H3 eq_refl)]].
    destruct H3 as (_ & H3 & H4). split; [done|]. split; [split; [done|apply H2, Hp2]|].
    exists m. by rewrite (H4 (packed_servers _ Hp2)), Hv2, Hv1.
Qed.

(** *** Appending subscriptions *)

Definition new_subs (seq : Z) (docs : list doc) : list (sub_row * list doc) :=
  imap (fun n d => sub_of_doc (seq + 1 + Z.of_nat n) d) docs.

Lemma new_subs_cons seq d docs : new_subs seq (d :: docs) = sub_of_doc (seq + 1) d :: new_subs (seq + 1) docs.
Proof.
  unfold new_subs. cbn [imap]. f_equal; [f_equal; lia|].
  apply imap_ext. intros n x _. cbn. f_equal. lia.
Qed.

Definition add_sub (d : doc) (t : tables) : tables :=
  mkTables (t_servers t) (t_servers_seq t)
    (t_subscriptions t ++ [doc_columns d (t_subscriptions_seq t + 1)
                             (max_or_minus_one (map sb_sort (t_subscriptions t)) + 1)])
    (t_subscriptions_seq t + 1) (t_outbound_names t) (t_system_config t).

Lemma rows_of_fresh t id : store_ok t -> t_subscriptions_seq t < id -> rows_of id (t_servers t) = [].
Proof.
  intros Hok Hid. apply filter_none. intros r Hr Hin. pose proof (ok_owner _ Hok) as Ho.
  rewrite Forall_forall in Ho. specialize (Ho r Hr id Hin). lia.
Qed.

Lemma add_sub_ok t d : store_ok t ->
  store_ok (add_sub d t) /\ (store_packed t -> store_packed (add_sub d t)).
Proof.
  intros [H1 H2 H3 H4 H5 H6]. unfold add_sub. split.
  - split; cbn [t_servers t_subscriptions t_subscriptions_seq]; try done.
    + rewrite map_app. by apply increasing_snoc.
    + rewrite map_app. apply StronglySorted_app_2; [|done|repeat constructor].
      intros x y (r & -> & Hr)%list_elem_of_fmap ->%list_elem_of_singleton. cbn.
      rewrite Forall_forall in H4. specialize (H4 r Hr). lia.
    + apply Forall_app. split; [|repeat constructor; cbn; lia].
      apply (Forall_impl _ _ _ H4). cbn. intros; lia.
    + apply (Forall_impl _ _ _ H5). cbn. intros r Hr id Hid. specialize (Hr id Hid). lia.
  - intros [P1 P2]. split; cbn [t_servers t_subscriptions]; [done|]. rewrite map_app.
    apply packed_snoc. split; [done|]. cbn. by apply max_packed.
Qed.

Lemma append_sub_row t d docs : store_ok t ->
  let t1 := add_sub d t in
  let t2 := add_rows t1 (sub_servers (t_subscriptions_seq t + 1) 0 docs (t_servers_seq t1)) in
  store_ok t2 /\ (store_packed t -> store_packed t2) /\
  view_of t2 = view_subs (view_of t)
    (v_subs (view_of t) ++ [(doc_columns d (t_subscriptions_seq t + 1) 0, docs)]).
Proof.
  intros Hok. cbn zeta. destruct (add_sub_ok t d Hok) as [Hok1 Hp1].
  set (id := t_subscriptions_seq t + 1).
  assert (He : rows_of id (t_servers (add_sub d t)) = []) by (change (rows_of id (t_servers t) = []); apply rows_of_fresh; [done|unfold id; lia]).
  assert (Hle : id <= t_subscriptions_seq (add_sub d t)) by (unfold id; cbn; lia).
  destruct (add_sub_servers (add_sub d t) id docs Hok1 Hle He) as (Hok2 & Hs2 & Hd2 & Ho2). cbn zeta in *.
  set (t2 := add_rows _ _) in *. split; [done|]. split.
  { intros Hp. destruct (Hp1 Hp) as [? ?]. split; [by rewrite Hs2|done]. }
  unfold view_of at 1. unfold view_subs. rewrite Hs2. f_equal. cbn [t2 add_rows t_subscriptions].
  change (t_subscriptions t2) with (t_subscriptions (add_sub d t)). unfold add_sub at 1.
  cbn [t_subscriptions]. rewrite map_app. f_equal; cycle 1.
  { change ([(doc_columns d id 0, map sv_config_json (rows_of id (t_servers t2)))] =
            [(doc_columns d id 0, docs)]). by rewrite Hd2. }
  apply sub_views_ext. intros r Hr. apply Ho2. pose proof (ok_seq _ Hok) as Hq.
  rewrite Forall_forall in Hq. specialize (Hq r Hr). unfold id. lia.
Qed.

Lemma view_subs_nil v : v = view_subs v (v_subs v ++ []).
Proof. rewrite app_nil_r. by destruct v. Qed.

Lemma view_subs_twice v l l' : view_subs (view_subs v l) l' = view_subs v l'.
Proof. done. Qed.

(** A failure leaves the subscriptions before it, the last perhaps without some
    of its servers. *)
Lemma wp_append_subscriptions F items t : store_ok t ->
  wp F (append_subscriptions items) t (fun r t' => store_ok t' /\ (store_packed t -> store_packed t') /\
    match r with
    | Ok _ => view_of t' = view_subs (view_of t) (v_subs (view_of t) ++ new_subs (t_subscriptions_seq t) items)
    | Err _ => F = true /\ exists k partial, (length partial <= 1)%nat /\
        view_of t' = view_subs (view_of t)
          (v_subs (view_of t) ++ new_subs (t_subscriptions_seq t) (take k items) ++ partial)
    end).
Proof.
  revert t. induction items as [|d items IH]; intros t Hok; cbn [append_subscriptions].
  { wp_step. split; [done|]. split; [done|]. apply view_subs_nil. }
  do 2 wp_step.
  { split; [done|]. split; [done|]. split; [done|]. exists 0%nat, []. split; [cbn; lia|]. apply view_subs_nil. }
  cbn [fst snd]. fold (add_sub d t). wp_step. eapply wp_mono; [apply wp_insert_sub_servers|].
  intros r t2 (k & -> & Hr).
  destruct (append_sub_row t d (take k (gj_Array d "servers")) Hok) as (Hok2 & Hp2 & Hv2). cbn zeta in *.
  destruct r as [u|e].
  - subst k. rewrite firstn_all in *. eapply wp_mono; [by apply IH|].
    cbn [add_rows add_sub t_subscriptions_seq]. rewrite Hv2. cbn [v_subs view_subs]. clear Hv2.
    intros r t' (H1 & H2 & H3). split; [done|]. split; [auto|]. destruct r as [u'|e].
    + rewrite H3, new_subs_cons, <-app_assoc. done.
    + destruct H3 as (HF & k & partial & Hl & H3). split; [done|]. exists (S k), partial.
      split; [done|]. cbn [take]. rewrite H3, new_subs_cons, <-app_assoc. done.
  - split; [done|]. split; [done|]. split; [done|].
    eexists 0%nat, [_]. split; [cbn; lia|]. exact Hv2.
Qed.

(** *** Reading subscriptions *)

Lemma wp_servers_of_subscription F id t : store_ok t ->
  wp F (servers_of_subscription id) t (fun r t' => t' = t /\
    match r with Ok l => l = map sv_config_json (rows_of id (t_servers t)) | Err _ => F = true end).
Proof.
  intros Hok. unfold servers_of_subscription. wp_step; [by split|]. split; [done|].
  rewrite order_by_sorted; [done|]. apply packed_increasing, (ok_sub_servers _ Hok).
Qed.

Definition json_of (p : sub_row * list doc) : result doc := subscriptionJSON p.1 p.2.

Lemma wp_SubscriptionsGet F i t : store_ok t -> store_packed t ->
  wp F (SubscriptionsGet i) t (fun r t' => t' = t /\
    match r with
    | Ok d => exists p, at_index (v_subs (view_of t)) i = Some p /\ json_of p = Ok d
    | Err _ => F = false -> at_index (v_subs (view_of t)) i = None \/
        exists p, at_index (v_subs (view_of t)) i = Some p /\ is_ok (json_of p) = false
    end).
Proof.
  intros Hok Hp. unfold SubscriptionsGet. do 2 wp_step; [by split|].
  rewrite sub_at, at_index_subs by done.
  destruct (at_index (t_subscriptions t) i) as [r|]; [|wp_step; split; [done|]; by left].
  wp_step. eapply wp_mono; [by apply wp_servers_of_subscription|].
  intros [l|e] t' [-> H]; [subst l|by subst F]. wp_step. split; [done|].
  change (subscriptionJSON r (map sv_config_json (rows_of (sb_id r) (t_servers t))))
    with (json_of (sub_view (t_servers t) r)).
  destruct (json_of _) as [d|e] eqn:Hj; [by eexists|]. intros _. right. eexists. split; [done|]. by rewrite Hj.
Qed.

Lemma wp_subscription_docs F rows t : store_ok t ->
  wp F (subscription_docs rows) t (fun r t' => t' = t /\
    match r with
    | Ok ds => Forall2 (fun p d => json_of p = Ok d) (map (sub_view (t_servers t)) rows) ds
    | Err _ => F = false -> Exists (fun p => is_ok (json_of p) = false) (map (sub_view (t_servers t)) rows)
    end).
Proof.
  intros Hok. induction rows as [|r rows IH]; cbn [subscription_docs]; [wp_step; split; [done|constructor]|].
  wp_step. eapply wp_mono; [by apply wp_servers_of_subscription|].
  intros [l|e] t' [-> H]; [subst l|by subst F]. do 2 wp_step. cbn [map].
  change (subscriptionJSON r (map sv_config_json (rows_of (sb_id r) (t_servers t))))
    with (json_of (sub_view (t_servers t) r)).
  destruct (json_of _) as [d|e] eqn:Hj.
  - wp_step. eapply wp_mono; [apply IH|]. intros [ds|e] t' [-> H].
    + wp_step. split; [done|]. by constructor.
    + split; [done|]. intros HF. apply Exists_cons_tl. auto.
  - split; [done|]. intros _. apply Exists_cons_hd. by rewrite Hj.
Qed.

Lemma wp_SubscriptionsGetAll F t : store_ok t ->
  wp F SubscriptionsGetAll t (fun r t' => t' = t /\
    match r with
    | Ok ds => Forall2 (fun p d => json_of p = Ok d) (v_subs (view_of t)) ds
    | Err _ => F = false -> Exists (fun p => is_ok (json_of p) = false) (v_subs (view_of t))
    end).
Proof.
  intros Hok. unfold SubscriptionsGetAll. do 2 wp_step; [by split|].
  rewrite order_by_sorted by apply Hok. by apply wp_subscription_docs.
Qed.

Lemma wp_SubscriptionsLen F t :
  wp F SubscriptionsLen t (fun r t' => t' = t /\
    match r with Ok n => n = Z.of_nat (length (v_subs (view_of t))) | Err _ => F = true end).
Proof. unfold SubscriptionsLen. wp_step; [by split|]. split; [done|]. cbn. by rewrite length_map. Qed.

End Subscriptions.

(** ** The calls of the service *)

Section Calls.
Context `{J : Json}.

(** [jsoniter.RawMessage]: a document is its own encoding. *)
#[export] Instance raw_message : GoJson doc := { Marshal d := Ok d; Unmarshal d := Ok d }.

Inductive list_op :=
| OpServersSet (index : Z) (d : doc)
| OpServersAppend (d : doc)
| OpSubscriptionsSet (index : Z) (d : doc)
| OpSubscriptionsAppend (d : doc)
| OpRemove (subscriptions servers : list Z)
| OpServersRemove (indexes : list Z)
| OpSubscriptionsRemove (indexes : list Z).

Definition run_op (op : list_op) : DB unit :=
  match op with
  | OpServersSet i d => ServersSet i d
  | OpServersAppend d => ServersAppend d
  | OpSubscriptionsSet i d => SubscriptionsSet i d None
  | OpSubscriptionsAppend d => SubscriptionsAppend d
  | OpRemove subs servers => RemoveTx subs servers (db_ret tt)
  | OpServersRemove indexes => serversRemove indexes
  | OpSubscriptionsRemove indexes => subscriptionsRemove indexes
  end.

(** The removals that run statement by statement, outside of a transaction. *)
Definition piecemeal (op : list_op) : bool :=
  match op with OpServersRemove _ | OpSubscriptionsRemove _ => true | _ => false end.

(** The operation on plain lists; [seq] is the last subscription id given out,
    and [None] an index out of range. *)
Definition spec_op (seq : Z) (op : list_op) (v : view) : option view :=
  match op with
  | OpServersSet i d =>
    if at_index (v_servers v) i then Some (view_servers v (<[Z.to_nat i := d]> (v_servers v))) else None
  | OpServersAppend d => Some (view_servers v (v_servers v ++ appended d))
  | OpSubscriptionsSet i d =>
    match at_index (v_subs v) i with
    | Some (r, _) => Some (view_subs v (<[Z.to_nat i := sub_of_doc (sb_id r) d]> (v_subs v)))
    | None => None
    end
  | OpSubscriptionsAppend d =>
    Some (view_subs v (v_subs v ++ new_subs seq (default [] (gj_elements d))))
  | OpRemove subs servers =>
    Some (mkView (remove_at servers (v_servers v)) (remove_at subs (v_subs v)) (v_names v) (v_config v))
  | OpServersRemove indexes =>
    match indexes with [] => None | _ => Some (view_servers v (remove_at indexes (v_servers v))) end
  | OpSubscriptionsRemove indexes =>
    match indexes with [] => None | _ => Some (view_subs v (remove_at indexes (v_subs v))) end
  end.

(** What a failing statement may leave of the operation: a beginning of what is
    appended; of a removal outside of a transaction, the first of the rows are gone,
    and the next subscription may have lost its servers; and nothing of anything
    else. *)
Definition interrupted (seq : Z) (op : list_op) (v v' : view) : Prop :=
  match op with
  | OpServersAppend d => exists k, v' = view_servers v (v_servers v ++ take k (appended d))
  | OpSubscriptionsAppend d => exists k partial, (length partial <= 1)%nat /\
      v' = view_subs v (v_subs v ++ new_subs seq (take k (default [] (gj_elements d))) ++ partial)
  | OpServersRemove indexes => exists k, v' = view_servers v (remove_at (take k indexes) (v_servers v))
  | OpSubscriptionsRemove indexes => exists k emptied, (emptied = [] \/ exists i, indexes !! k = Some i /\ emptied = [i]) /\
      v' = view_subs v (remove_at (take k indexes) (empty_at emptied (v_subs v)))
  | _ => v' = v
  end.

Lemma writes_nothing F t : writes_config F (db_ret tt) t (Some (t_system_config t)).
Proof. unfold writes_config. wp_step. eexists. split; [done|]. by destruct t. Qed.

Lemma wp_run_op F op t : store_ok t -> store_packed t ->
  wp F (run_op op) t (fun r t' => store_ok t' /\ (piecemeal op = false \/ is_ok r = true -> store_packed t') /\
    match r with
    | Ok _ => spec_op (t_subscriptions_seq t) op (view_of t) = Some (view_of t')
    | Err _ => interrupted (t_subscriptions_seq t) op (view_of t) (view_of t') /\
        (F = false -> t' = t /\ spec_op (t_subscriptions_seq t) op (view_of t) = None)
    end).
Proof.
  intros Hok Hp. destruct op as [i d|d|i d|d|subs servers|indexes|indexes]; cbn [run_op spec_op interrupted piecemeal].
  - eapply wp_mono; [by apply wp_ServersSet|]. intros [u|e] t'.
    + intros (H1 & H2 & d' & [= <-] & [x Hx] & H3). split; [done|]. split; [done|]. by rewrite Hx, H3.
    + intros [-> H]. do 3 (split; [done|]). intros HF. split; [done|].
      destruct (H HF) as [H'|H']; [done|by rewrite H'].
  - eapply wp_mono; [by apply wp_ServersAppend|]. intros [u|e] t' (H1 & H2 & H3).
    + destruct H3 as (d' & [= <-] & H3). by rewrite H3; auto.
    + destruct H3 as [(d' & k & [= <-] & -> & H3)|[? _]]; [|done]. split; [done|]. split; [auto|]. split; [|done].
      by exists k.
  - eapply wp_mono; [apply wp_SubscriptionsSet; [done|done|apply writes_nothing]|]. intros [u|e] t'.
    + intros (H1 & H2 & d' & r0 & docs & m & [= <-] & H3 & [= <-] & H4). by rewrite H3, H4.
    + intros [-> H]. do 3 (split; [done|]). intros HF. split; [done|].
      destruct (H HF) as [H'|[H'|H']]; [done|done|by rewrite H'].
  - unfold SubscriptionsAppend. do 2 wp_step. cbn [Marshal raw_message].
    destruct (gj_elements d) as [items|].
    + cbn [default]. eapply wp_mono; [by apply wp_append_subscriptions|]. intros [u|e] t' (H1 & H2 & H3).
      * by rewrite H3; auto.
      * destruct H3 as (-> & k & partial & Hl & H3). split; [done|]. split; [auto|]. split; [|done]. by eexists _, _.
    + wp_step. split; [done|]. split; [done|]. f_equal. symmetry. apply view_subs_nil.
  - eapply wp_mono; [apply wp_RemoveTx; [done|done|apply writes_nothing]|]. intros [u|e] t'.
    + intros (H1 & H2 & m & [= <-] & ->). done.
    + intros (-> & [->|?]); [|done]. done.
  - destruct Hp as [Hp1 Hp2]. eapply wp_mono; [by apply wp_serversRemove|]. intros [u|e] t' (H1 & H2 & H3); (split; [done|]).
    + destruct H3 as (Hne & H3 & H4). split; [by split; auto|]. rewrite (H4 Hp1). by destruct indexes.
    + destruct H3 as [H3 H4]. split; [by intros [?|?]|]. split; [auto|]. intros HF. by destruct (H3 HF) as [-> ->].
  - destruct Hp as [Hp1 Hp2]. eapply wp_mono; [by apply wp_subscriptionsRemove|]. intros [u|e] t' (H1 & H2 & H3); (split; [done|]).
    + destruct H3 as (Hne & H3 & H4). split; [by split; auto|]. rewrite (H4 Hp2). by destruct indexes.
    + destruct H3 as [H3 H4]. split; [by intros [?|?]|]. split; [auto|]. intros HF. by destruct (H3 HF) as [-> ->].
Qed.

(** The state after a sequence of operations, each of which may fail. *)
Fixpoint run_ops (ops : list list_op) (s : database) : database :=
  match ops with
  | [] => s
  | op :: ops => run_ops ops (run_op op s).2
  end.

Definition empty_tables : tables := mkTables [] 0 [] 0 [] ∅.

Lemma empty_ok : store_ok empty_tables /\ store_packed empty_tables.
Proof. split; split; try done; by repeat constructor. Qed.

(** No removal outside of a transaction is cut short. *)
Fixpoint unbroken (ops : list list_op) (s : database) : Prop :=
  match ops with
  | [] => True
  | op :: ops => (piecemeal op = true -> is_ok (run_op op s).1 = true) /\ unbroken ops (run_op op s).2
  end.

Lemma run_ops_ok ops s : store_ok (db_tables s) -> store_packed (db_tables s) -> unbroken ops s ->
  store_ok (db_tables (run_ops ops s)) /\ store_packed (db_tables (run_ops ops s)).
Proof.
  revert s. induction ops as [|op ops IH]; intros s Hok Hp Hu; [done|]. cbn [run_ops]. destruct Hu as [Hu1 Hu2].
  destruct (wp_run (run_op op) s (fun _ r t' => store_ok t' /\ (piecemeal op = false \/ is_ok r = true -> store_packed t'))) as [[H1 H2] _].
  - intros F. eapply wp_mono; [by apply wp_run_op|]. naive_solver.
  - apply IH; [done| |done]. apply H2. destruct (piecemeal op); auto.
Qed.

(** C19. From tables in order (an empty database is), after any sequence of list
    operations, whatever statements of the appends, updates and transactional removals
    fail in between, the rows of both lists are numbered 0, 1, 2, ... in the order they
    are stored, subscription ids are unique, and the servers of each subscription are
    numbered from 0; the removals that run outside of a transaction must not fail. *)
Theorem lists_stay_numbered ops s : store_ok (db_tables s) -> store_packed (db_tables s) -> unbroken ops s ->
  let t := db_tables (run_ops ops s) in
  packed (map sv_sort (server_rows (t_servers t))) /\ packed (map sb_sort (t_subscriptions t)) /\
  NoDup (map sb_id (t_subscriptions t)) /\
  forall id, packed (map sv_sort (rows_of id (t_servers t))).
Proof.
  intros H1 H2 Hu. cbn zeta. destruct (run_ops_ok ops s H1 H2 Hu) as [[] []]. repeat split; auto using sorted_nodup.
Qed.

(** C18. On tables in order, every list operation does what the same
    operation does on plain lists: it succeeds only with the specified result, an
    error without a failing statement means an index out of range, or nothing to
    remove, and changes nothing, and a failing statement leaves at most a beginning of
    what is appended, nothing of an update or a transactional removal, and of a
    removal outside of a transaction (which only the migration from version 4 uses) the
    lists without the first of the rows, with at most the next subscription emptied. *)
Theorem stored_lists_refine_lists op s : store_ok (db_tables s) -> store_packed (db_tables s) ->
  let '(r, s') := run_op op s in
  let seq := t_subscriptions_seq (db_tables s) in
  let v := view_of (db_tables s) in
  let v' := view_of (db_tables s') in
  match r with
  | Ok _ => spec_op seq op v = Some v'
  | Err _ => interrupted seq op v v' /\
             (db_faults s = [] -> db_tables s' = db_tables s /\ spec_op seq op v = None)
  end.
Proof.
  intros Hok Hp. destruct (wp_run (run_op op) s _ (fun F => wp_run_op F op _ Hok Hp)) as [H1 H2].
  destruct (run_op op s) as [r s']. cbn [fst snd] in *. destruct r as [u|e]; [by apply H1|].
  split; [by apply H1|]. intros Hf. destruct (H2 Hf) as [(_ & _ & _ & H) _]. by apply H.
Qed.

(** The UPDATE that renumbers the rows after a removal visits them
    one by one and counts among rows it has already changed; on rows stored in the
    order of their positions this equals numbering every row by its rank in the
    table before the statement, for the servers and for the subscriptions. *)
Theorem renumbering_is_rank rows subs :
  increasing (map sv_sort (server_rows rows)) -> increasing (map sb_sort subs) ->
  renumber_servers [] rows =
    map (fun r => if is_server r then set_server_sort r (rank sv_sort (server_rows rows) r) else r) rows /\
  renumber sb_sort set_sub_sort [] subs = map (fun r => set_sub_sort r (rank sb_sort subs r)) subs.
Proof.
  intros [H1 H2] H3. split; [|by apply renumber_is_rank].
  rewrite (renumber_servers_from [] rows 0) by (done || by rewrite Forall_map in H2).
  apply (number_servers_rank [] rows). done.
Qed.

(** Out of order, the progressive statement gives two rows the same position. *)
Lemma renumbering_needs_order d :
  let row n := mkServerRow n "server" None d n in
  map sv_sort (renumber_servers [] [row 5; row 3]) = [1; 1].
Proof. done. Qed.

End Calls.

(** A subscription that was stored reads back as its document: the fields it
    keeps, with an empty update mode as "disabled" and a failure interval below a
    minute as one. *)
Definition reads_back `{Json} (d d' : doc) : Prop :=
  gj_String d' "address" = gj_String d "address" /\ gj_String d' "remarks" = gj_String d "remarks" /\
  gj_String d' "status" = gj_String d "status" /\ gj_String d' "info" = gj_String d "info" /\
  gj_Bool d' "autoSelect" = gj_Bool d "autoSelect" /\
  gj_String d' "updateMode" =
    (if String.eqb (gj_String d "updateMode") "" then "disabled" else gj_String d "updateMode") /\
  gj_Int d' "updateIntervalMinutes" = gj_Int d "updateIntervalMinutes" /\
  gj_Int d' "failureIntervalMinutes" = Z.max 1 (gj_Int d "failureIntervalMinutes") /\
  gj_Bool d' "allowDirectRecovery" = gj_Bool d "allowDirectRecovery" /\
  gj_Array d' "servers" = gj_Array d "servers".

Section RoundTrip.
Context `{J : Json} `{!JsonLaws J}.

Lemma sub_of_doc_reads_back id d d' : json_of (sub_of_doc id d) = Ok d' -> reads_back d d'.
Proof.
  intros H. apply marshal_fields in H. cbn in H. unfold reads_back.
  destruct H as (-> & -> & -> & -> & -> & -> & -> & -> & -> & ->).
  repeat split; try done. by destruct (gj_Bool d "autoSelect").
Qed.

(** When storing a subscription at an index succeeds, the
    subscription read from that index afterwards has its fields and its servers,
    every other subscription and every server is read as before, and without
    failing statements the write and the read both succeed exactly when the index
    is in range. *)
Theorem subscription_set_get {V} `{!GoJson V} s i (v : V) d :
  store_ok (db_tables s) -> store_packed (db_tables s) -> Marshal v = Ok d ->
  let '(r, s1) := SubscriptionsSet i v None s in
  match r with
  | Ok _ =>
    (forall d' s2, SubscriptionsGet i s1 = (Ok d', s2) -> reads_back d d') /\
    (forall j d1 d2 s2 s3, j <> i -> SubscriptionsGet j s = (Ok d1, s2) ->
       SubscriptionsGet j s1 = (Ok d2, s3) -> d1 = d2) /\
    (db_faults s = [] -> is_ok (SubscriptionsGet i s1).1 = true) /\
    v_servers (view_of (db_tables s1)) = v_servers (view_of (db_tables s))
  | Err _ => db_tables s1 = db_tables s /\
    (db_faults s = [] -> at_index (v_subs (view_of (db_tables s))) i = None)
  end.
Proof.
  intros Hok Hp Hm.
  destruct (wp_run (SubscriptionsSet i v None) s _
    (fun F => wp_SubscriptionsSet F i v None (db_tables s) _ Hok Hp (writes_nothing F _))) as [H1 H2].
  destruct (SubscriptionsSet i v None s) as [r s1]. cbn [fst snd] in *. rewrite Hm in *.
  destruct r as [u|e]; cycle 1.
  { destruct H1 as [H1 _]. split; [done|]. intros Hf. destruct (H2 Hf) as [[_ H] _].
    by destruct (H eq_refl) as [?|[?|?]]. }
  destruct H1 as (Hok1 & Hp1 & d0 & r0 & docs & m & [= <-] & Hi & _ & Hv).
  assert (Hget : forall s0 j, store_ok (db_tables s0) -> store_packed (db_tables s0) -> forall d' s2,
    SubscriptionsGet j s0 = (Ok d', s2) ->
    exists p, at_index (v_subs (view_of (db_tables s0))) j = Some p /\ json_of p = Ok d').
  { intros s0 j Hok0 Hp0 d' s2 Hg.
    destruct (wp_run (SubscriptionsGet j) s0 _ (fun F => wp_SubscriptionsGet F j _ Hok0 Hp0)) as [Hg' _].
    rewrite Hg in Hg'. apply Hg'. }
  destruct (at_index_Some _ _ _ Hi) as (Hz & _ & Hlt).
  assert (Hnew : at_index (v_subs (view_of (db_tables s1))) i = Some (sub_of_doc (sb_id r0) d)).
  { rewrite Hv. cbn [v_subs view_subs view_config]. unfold at_index.
    rewrite (proj2 (Z.ltb_ge _ _)) by lia. by apply list_lookup_insert_eq. }
  split; [|split; [|split]].
  - intros d' s2 Hg. destruct (Hget s1 i Hok1 Hp1 _ _ Hg) as (p & Hp' & Hj).
    rewrite Hnew in Hp'. injection Hp' as <-. by eapply sub_of_doc_reads_back.
  - intros j d1 d2 s2 s3 Hne Hg1 Hg2.
    destruct (Hget s j Hok Hp _ _ Hg1) as (p1 & Hp1' & Hj1).
    destruct (Hget s1 j Hok1 Hp1 _ _ Hg2) as (p2 & Hp2' & Hj2).
    rewrite Hv in Hp2'. cbn [v_subs view_subs view_config] in Hp2'. unfold at_index in Hp1', Hp2'.
    destruct (Z.ltb_spec j 0); [done|]. rewrite list_lookup_insert_ne in Hp2' by lia. congruence.
  - intros Hf. destruct (H2 Hf) as [_ Hf1].
    destruct (wp_run (SubscriptionsGet i) s1 _ (fun F => wp_SubscriptionsGet F i _ Hok1 Hp1)) as [_ Hg].
    destruct (Hg Hf1) as [[_ Hg'] _]. destruct (SubscriptionsGet i s1) as [[d'|e] s2]; [done|]. cbn [fst snd] in Hg'.
    destruct (Hg' eq_refl) as [Hn|(p & Hp' & Hj)]; [congruence|]. exfalso.
    destruct (marshal_total (mkSubFields (sb_id p.1) (sb_remarks p.1) (sb_address p.1) (sb_status p.1)
      (sb_info p.1) p.2 (negb (sb_auto_select p.1 =? 0)) (sb_update_mode p.1)
      (sb_update_interval_minutes p.1) (sb_failure_interval_minutes p.1) (sb_allow_direct_recovery p.1)))
      as [x Hx]. unfold json_of, subscriptionJSON in Hj. by rewrite Hx in Hj.
  - by rewrite Hv.
Qed.

End RoundTrip.

(** ** Examples *)

Section Examples.
Import JsonRef.

(** Three servers and a subscription of two. *)
Definition example_state : database :=
  run_ops [OpServersAppend (JArr [JStr "a"; JStr "b"; JStr "c"]);
           OpSubscriptionsAppend (JArr [JObj [("address", JStr "https://sub.example");
                                              ("servers", JArr [JStr "x"; JStr "y"])]%string])]
    (mkDatabase empty_tables []).

Lemma example_ok : store_ok (db_tables example_state) /\ store_packed (db_tables example_state).
Proof. apply run_ops_ok; [apply empty_ok..|]. by repeat split. Qed.

Definition example_ops : list list_op := [OpServersRemove [1]; OpRemove [0] []; OpServersAppend (JStr "d")].

Lemma lists_stay_numbered_witness :
  let t := db_tables (run_ops example_ops example_state) in
  packed (map sv_sort (server_rows (t_servers t))) /\ map sv_config_json (t_servers t) = [JStr "a"; JStr "c"; JStr "d"].
Proof.
  cbv zeta. destruct (lists_stay_numbered example_ops example_state) as [H _].
  - apply example_ok.
  - apply example_ok.
  - split; [intros _; vm_compute; reflexivity|]. split; [discriminate|]. split; [discriminate|exact I].
  - split; [exact H|vm_compute; reflexivity].
Defined.

(** The renumbering of a removal outside of a transaction fails: the servers left
    are numbered 0 and 2, and the second cannot be read by its index. *)
Lemma failed_removal_leaves_gap :
  let s' := (run_op (OpServersRemove [1]) (mkDatabase (db_tables example_state) [None; Some (ExtErr "database is locked")])).2 in
  map sv_sort (server_rows (t_servers (db_tables s'))) = [0; 2] /\ is_ok (serversGet 1 s').1 = false.
Proof. vm_compute. auto. Qed.

Lemma stored_lists_refine_lists_witness :
  v_servers (view_of (db_tables (run_op (OpRemove [] [0; 2]) example_state).2)) = [JStr "b"] /\
  store_ok (db_tables example_state) /\ store_packed (db_tables example_state).
Proof.
  pose proof (stored_lists_refine_lists (OpRemove [] [0; 2]) example_state
                (proj1 example_ok) (proj2 example_ok)) as H.
  split; [|apply example_ok].
  destruct (run_op (OpRemove [] [0; 2]) example_state) as [r s'] eqn:He.
  assert (Hr : r = Ok tt) by (apply (f_equal fst) in He; vm_compute in He; by rewrite <-He).
  subst r. cbn [snd].
  apply (f_equal (fun o => match o with Some v => v_servers v | None => [] end)) in H.
  etrans; [symmetry; exact H|]. reflexivity.
Defined.

Definition example_rows : list server_row :=
  [mkServerRow 1 "server" None JNull 1; mkServerRow 2 "subscription_server" (Some 1) JNull 0;
   mkServerRow 3 "server" None JNull 4].

Lemma renumbering_is_rank_witness :
  increasing (map sv_sort (server_rows example_rows)) /\
  map sv_sort (renumber_servers [] example_rows) = [0; 0; 1].
Proof.
  assert (Hi : increasing (map sv_sort (server_rows example_rows))).
  { split; repeat constructor; vm_compute; done. }
  split; [exact Hi|].
  rewrite (proj1 (renumbering_is_rank example_rows [] Hi ltac:(split; constructor))). reflexivity.
Defined.

Lemma subscription_set_get_witness :
  let d := JObj [("address", JStr "https://new.example"); ("servers", JArr [JStr "z"])]%string in
  let s1 := (SubscriptionsSet 0 d None example_state).2 in
  store_ok (db_tables example_state) /\
  match SubscriptionsGet 0 s1 with (Ok d', _) => reads_back d d' | (Err _, _) => False end.
Proof.
  cbn zeta. split; [apply example_ok|].
  pose proof (subscription_set_get (J := json_ref) (V := jval) example_state 0
    (JObj [("address", JStr "https://new.example"); ("servers", JArr [JStr "z"])]%string) _
    (proj1 example_ok) (proj2 example_ok) eq_refl) as H.
  destruct (SubscriptionsSet 0 _ None example_state) as [r s1] eqn:He. cbn [snd].
  assert (Hr : r = Ok tt) by (apply (f_equal fst) in He; vm_compute in He; by rewrite <-He).
  subst r. destruct H as (H1 & _ & H3 & _). specialize (H3 eq_refl).
  destruct (SubscriptionsGet 0 s1) as [[d'|e] s2]; [by apply (H1 d' s2)|done].
Defined.

End Examples.
