(* ===== verification/NodeRefs.v ===== *)
(** * References to stored nodes (service/db/configure/which.go)

    A [NodeRef] names a server, a subscription or a server of a subscription by
    its position.  The reference lists, their order and the lookup of a node. *)

From S2P Require Import Prelude.

#[local] Open Scope Z_scope.

(** ** Node types *)

Definition SubscriptionType : string := "subscription".
Definition ServerType : string := "server".
Definition SubscriptionServerType : string := "subscriptionServer".

Record NodeRef := mkNodeRef {
  TYPE : string;
  ID : Z;
  Sub : Z;
  Outbound : string;
}.

#[export] Instance node_ref_eq_dec : EqDecision NodeRef.
Proof. solve_decision. Defined.

Definition with_id (r : NodeRef) (n : Z) : NodeRef := mkNodeRef (TYPE r) n (Sub r) (Outbound r).
Definition with_sub (r : NodeRef) (n : Z) : NodeRef := mkNodeRef (TYPE r) (ID r) n (Outbound r).
Definition with_outbound (r : NodeRef) (o : string) : NodeRef := mkNodeRef (TYPE r) (ID r) (Sub r) o.

(** [NodeRefs] is its list of touches; a nil pointer is an empty list for [Len]
    and [Get]. *)
Record NodeRefs := mkNodeRefs { Touches : list NodeRef }.

Definition NodeRefs_Len (rs : option NodeRefs) : Z :=
  match rs with None => 0 | Some rs => Z.of_nat (length (Touches rs)) end.
Definition NodeRefs_Get (rs : option NodeRefs) : list NodeRef :=
  match rs with None => [] | Some rs => Touches rs end.
Definition NodeRefs_Add (rs : NodeRefs) (ref : NodeRef) : NodeRefs := mkNodeRefs (Touches rs ++ [ref]).
Definition NodeRefs_Extend (rs refs : NodeRefs) : NodeRefs := mkNodeRefs (Touches rs ++ Touches refs).
Definition NewNodeRefs (refs : list NodeRef) : NodeRefs := mkNodeRefs refs.

(** ** Which *)

Record Which := mkWhich { w_NodeRef : NodeRef; Latency : string; Link : string; Selected : bool }.

Definition ToWhiches (rs : option NodeRefs) : list Which :=
  match rs with None => [] | Some rs => map (fun r => mkWhich r "" "" false) (Touches rs) end.

(** A missing key of the map counts 0. *)
Definition quantifyType (t : string) : Z :=
  if String.eqb t ServerType then 0 else if String.eqb t SubscriptionType then 1
  else if String.eqb t SubscriptionServerType then 2 else 0.

Definition Less (a b : Which) : bool :=
  let a := w_NodeRef a in let b := w_NodeRef b in
  if negb (String.eqb (TYPE a) (TYPE b)) then quantifyType (TYPE a) <? quantifyType (TYPE b)
  else if String.eqb (TYPE a) ServerType then ID a <? ID b
  else if negb (Sub a =? Sub b) then Sub a <? Sub b
  else ID a <? ID b.

(** [sort.Sort] with [Less].  The order of elements of which neither is less is
    not specified by [sort.Sort]; here it is the one they come in. *)
Fixpoint insert_less {A} (less : A -> A -> bool) (x : A) (l : list A) : list A :=
  match l with
  | [] => [x]
  | y :: l' => if less y x then y :: insert_less less x l' else x :: l
  end.
Definition sort_by {A} (less : A -> A -> bool) (l : list A) : list A := foldr (insert_less less) [] l.

Lemma insert_less_perm {A} (less : A -> A -> bool) x l : insert_less less x l ≡ₚ x :: l.
Proof.
  induction l as [|y l IH]; [done|]. cbn [insert_less]. destruct (less y x); [|done].
  rewrite IH. by constructor.
Qed.

Lemma sort_by_perm {A} (less : A -> A -> bool) l : sort_by less l ≡ₚ l.
Proof.
  induction l as [|x l IH]; [done|]. unfold sort_by in *. cbn [foldr]. rewrite insert_less_perm. by constructor.
Qed.

Definition Whiches_Sort (ws : list Which) : list Which := sort_by Less ws.

(** [x[a], x[b] = x[b], x[a]] *)
Definition swap {A} (l : list A) (a b : nat) : list A :=
  match l !! a, l !! b with
  | Some x, Some y => <[a := y]> (<[b := x]> l)
  | _, _ => l
  end.

(** [for j := 0; j < (i-begin)/2; j++ { swap begin+j, i-j-1 }], with [k] rounds
    left *)
Fixpoint reverse_loop {A} (begin i : nat) (k j : nat) (l : list A) : list A :=
  match k with
  | O => l
  | S k => reverse_loop begin i k (S j) (swap l (begin + j) (i - j - 1))
  end.
Definition reverse_range {A} (begin i : nat) (l : list A) : list A :=
  reverse_loop begin i ((i - begin) / 2) 0 l.

(** The loop over [i], with the type and the beginning of the current run; it
    ends with the beginning of the last run. *)
Fixpoint reverse_runs (n i begin : nat) (typ : string) (l : list Which) : nat * list Which :=
  match n with
  | O => (begin, l)
  | S n =>
    let typ := if String.eqb typ "" then match l !! 0%nat with Some w => TYPE (w_NodeRef w) | None => "" end
               else typ in
    match l !! i with
    | None => (begin, l)
    | Some w =>
      if negb (String.eqb (TYPE (w_NodeRef w)) typ)
      then let l := reverse_range begin i l in
           reverse_runs n (S i) i (match l !! i with Some w => TYPE (w_NodeRef w) | None => "" end) l
      else reverse_runs n (S i) begin typ l
    end
  end.

Definition SortSameTypeReverse (ws : list Which) : list Which :=
  let l := Whiches_Sort ws in
  let '(begin, l) := reverse_runs (length l) 0 0 "" l in
  if (Z.of_nat begin <? Z.of_nat (length l) - 1) then reverse_range begin (length l) l else l.

(** [w.EqualTo(another)] *)
Definition EqualTo (w another : NodeRef) : bool :=
  if String.eqb (TYPE w) SubscriptionServerType then
    String.eqb (TYPE another) (TYPE w) && (Sub another =? Sub w) && (ID another =? ID w) &&
    String.eqb (Outbound another) (Outbound w)
  else if String.eqb (TYPE w) ServerType then
    String.eqb (TYPE another) (TYPE w) && (ID another =? ID w) && String.eqb (Outbound another) (Outbound w)
  else if String.eqb (TYPE w) SubscriptionType then
    String.eqb (TYPE another) (TYPE w) && (ID another =? ID w)
  else false.

(** ** Locating *)

Section Locate.
Context {ServerRaw : Type}.

(** [Locator.Locate] against the lists it has read; the second list holds the
    servers of each subscription. *)
Definition Locate (servers : list ServerRaw) (subscriptions : list (list ServerRaw)) (w : NodeRef)
    : result ServerRaw :=
  let ind := ID w - 1 in
  if String.eqb (TYPE w) ServerType then
    match (if ind <? 0 then None else servers !! Z.to_nat ind) with
    | None => Err (Errorf "server #%d does not exist (there are %d servers); reload the page"
                     [FInt (ID w); FInt (Z.of_nat (length servers))])
    | Some s => Ok s
    end
  else if String.eqb (TYPE w) SubscriptionServerType then
    match (if (Sub w <? 0) || (ind <? 0) then None
           else ss ← subscriptions !! Z.to_nat (Sub w); ss !! Z.to_nat ind) with
    | None => Err (Errorf "server #%d of subscription #%d does not exist; reload the page"
                     [FInt (ID w); FInt (Sub w + 1)])
    | Some s => Ok s
    end
  else Err (Errorf "unknown item type %q; expected %q or %q"
              [FStr (TYPE w); FStr ServerType; FStr SubscriptionServerType]).

End Locate.
