(* ===== verification/Configure.v ===== *)
(** * The stored configuration (service/db/configure: configure.go, which.go, raw.go, outbound.go)

    Servers, subscriptions, outbound groups with their settings and connected
    lists, and the accounts, read and written through the database operations.
    What a share link decodes to is the class [ServerObjs]; how the values look
    as JSON is the class [Encodings]. *)

From S2P Require Import Prelude.
From S2P Require Import Store NodeRefs.

#[local] Open Scope Z_scope.
#[local] Open Scope go_scope.

(** ** Nodes *)

(** The methods of [serverObj.ServerObj] that the configuration uses, and
    [serverObj.New]. *)
Class ServerObjs := {
  ServerObj : Type;
  ExportToURL : ServerObj -> string;
  GetProtocol : ServerObj -> string;
  GetHostname : ServerObj -> string;
  GetPort : ServerObj -> Z;
  GetName : ServerObj -> string;
  serverObj_New : string -> result ServerObj;
}.

Record ServerRaw `{ServerObjs} := mkServerRaw { sr_ServerObj : ServerObj; sr_Latency : string }.

Arguments mkServerRaw {_} _ _.

Record SubscriptionRaw `{ServerObjs} := mkSubscriptionRaw {
  su_DatabaseID : Z;
  su_UpdateMode : string;
  su_UpdateIntervalMinutes : Z;
  su_FailureIntervalMinutes : Z;
  su_AllowDirectRecovery : bool;
  su_Remarks : string;
  su_Address : string;
  su_Status : string;
  su_Servers : list ServerRaw;
  su_Info : string;
  su_AutoSelect : bool;
}.

Arguments mkSubscriptionRaw {_} _ _ _ _ _ _ _ _ _ _ _.

Record OutboundSetting := mkOutboundSetting {
  AutoAdd : bool;
  ProbeURL : string;
  ProbeInterval : string;
  os_Type : string;
  os_Selected : string;
  StickyCurrent : string;
}.

Definition LeastPing : string := "leastping".
Definition KeepCurrent : string := "keepcurrent".
Definition RoundRobin : string := "roundrobin".
Definition Random : string := "random".

Definition DefaultOutboundSetting : OutboundSetting :=
  mkOutboundSetting false "https://www.gstatic.com/generate_204" "60s" LeastPing "" "".
Definition DefaultOutboundName : string := "proxy".

Definition SubscriptionUpdateDisabled : string := "disabled".
Definition SubscriptionUpdateOnStart : string := "on_start".
Definition SubscriptionUpdateAtInterval : string := "at_interval".
Definition SubscriptionUpdateIntervalFailsafe : string := "interval_failsafe".

(** jsoniter at the types of the configuration.  Decoding a node fills in an
    object made before; [null] is what [nil] is written as. *)
Class Encodings `{Json} `{ServerObjs} := {
  #[global] json_servers :: GoJson (list ServerRaw);
  #[global] json_server :: GoJson ServerRaw;
  #[global] json_subscription :: GoJson SubscriptionRaw;
  #[global] json_refs :: GoJson NodeRefs;
  #[global] json_nil :: GoJson unit;
  #[global] json_outbound_setting :: GoJson OutboundSetting;
  #[global] json_string :: GoJson string;
  #[global] json_bool :: GoJson bool;
  #[global] json_subscriptions :: GoJson (list SubscriptionRaw);
  unmarshal_server : ServerRaw -> doc -> result ServerRaw;
  unmarshal_subscription : SubscriptionRaw -> doc -> result SubscriptionRaw;
  time_ParseDuration : string -> result Z;
}.

Section Configure.
Context `{J : Json} `{O : ServerObjs} `{E : !Encodings}.

(** ** raw.go *)

Fixpoint new_objects (rawList : list doc) : result (list ServerRaw) :=
  match rawList with
  | [] => Ok []
  | raw :: rest =>
    let? obj := serverObj_New (gj_String raw "serverObj.protocol") in
    let? objs := new_objects rest in
    Ok (mkServerRaw obj "" :: objs)
  end.

Definition Bytes2SubscriptionRaw (b : doc) : result SubscriptionRaw :=
  let? servers := new_objects (gj_Array b "servers") in
  unmarshal_subscription
    (mkSubscriptionRaw 0 SubscriptionUpdateDisabled 0 1 false "" "" "" servers "" false) b.

Definition Bytes2ServerRaw (b : doc) : result ServerRaw :=
  let protocol := gj_String b "serverObj.protocol" in
  let protocol := if String.eqb protocol "" then "vmess"%string else protocol in
  let? obj := serverObj_New protocol in
  unmarshal_server (mkServerRaw obj "") b.

(** ** Lists *)

Definition RemoveSubscriptions (indexes : list Z) : DB unit := subscriptionsRemove indexes.
Definition RemoveServers (indexes : list Z) : DB unit := serversRemove indexes.
Definition SetServer (index : Z) (server : ServerRaw) : DB unit := ServersSet index server.
Definition SetSubscription (index : Z) (subscription : SubscriptionRaw) : DB unit :=
  SubscriptionsSet index subscription None.
Definition AppendServers (server : list ServerRaw) : DB unit := ServersAppend server.
Definition AppendSubscriptions (subscription : list SubscriptionRaw) : DB unit :=
  SubscriptionsAppend subscription.

(** What cannot be decoded is skipped; what cannot be read is an empty list. *)
Definition decoded {A} (f : doc -> result A) (raw : list doc) : list A :=
  omap (fun b => match f b with Ok t => Some t | Err _ => None end) raw.

Definition GetServers : DB (list ServerRaw) :=
  db! r := db_try ServersGetAll in
  db_ret (match r with Ok raw => decoded Bytes2ServerRaw raw | Err _ => [] end).

Definition GetSubscriptions : DB (list SubscriptionRaw) :=
  db! r := db_try SubscriptionsGetAll in
  db_ret (match r with Ok raw => decoded Bytes2SubscriptionRaw raw | Err _ => [] end).

(** [None] is nil. *)
Definition GetSubscription (index : Z) : DB (option SubscriptionRaw) :=
  db! r := db_try (SubscriptionsGet index) in
  db_ret (match r with
          | Ok b => match Bytes2SubscriptionRaw b with Ok s => Some s | Err _ => None end
          | Err _ => None
          end).

(** A call of [panic(err)]; no caller below recovers, so nothing more happens. *)
Definition db_panic {A} (e : error) : DB A := db_fail (Wrapf "panic: %w" [] e).
Definition or_panic {A} (c : DB A) : DB A :=
  db! r := db_try c in match r with Ok a => db_ret a | Err e => db_panic e end.

Definition GetLenSubscriptions : DB Z := or_panic SubscriptionsLen.
Definition GetLenServers : DB Z := or_panic ServersLen.
Definition GetLenSubscriptionServers (index : Z) : DB Z :=
  db! b := or_panic (SubscriptionsGet index) in db_ret (Z.of_nat (length (gj_Array b "servers"))).

(** [NewLocator().Locate(w)]: the list that the type of [w] needs is read. *)
Definition LocateServerRaw (w : NodeRef) : DB ServerRaw :=
  db! servers := (if String.eqb (TYPE w) ServerType then GetServers else db_ret []) in
  db! subs := (if String.eqb (TYPE w) SubscriptionServerType then GetSubscriptions else db_ret []) in
  db_lift (Locate servers (map su_Servers subs) w).

(** The condition for a touch to name something stored. *)
Definition in_range (v : NodeRef) : DB bool :=
  let ind := ID v - 1 in
  if String.eqb (TYPE v) SubscriptionType then
    if 0 <=? ind then db! n := GetLenSubscriptions in db_ret (ind <? n) else db_ret false
  else if String.eqb (TYPE v) ServerType then
    if 0 <=? ind then db! n := GetLenServers in db_ret (ind <? n) else db_ret false
  else if String.eqb (TYPE v) SubscriptionServerType then
    if negb (0 <=? Sub v) then db_ret false
    else
      db! n := GetLenSubscriptions in
      if negb (Sub v <? n) || negb (0 <=? ind) then db_ret false
      else db! n := GetLenSubscriptionServers (Sub v) in db_ret (ind <? n)
  else db_ret false.

(** The map keeps the last touch of each reference; its iteration order is the
    argument [order], applied to the first occurrences. *)
Fixpoint collect_touches (touches : list Which) (ts : list (NodeRef * Which)) : DB (list (NodeRef * Which)) :=
  match touches with
  | [] => db_ret ts
  | v :: rest =>
    db! ok := in_range (w_NodeRef v) in
    collect_touches rest
      (if ok then
         if decide (w_NodeRef v ∈ map fst ts)
         then map (fun kv => if decide (fst kv = w_NodeRef v) then (fst kv, v) else kv) ts
         else ts ++ [(w_NodeRef v, v)]
       else ts)
  end.

Definition GetNonDuplicated (order : list Which -> list Which) (touches : list Which) : DB (list Which) :=
  db! ts := collect_touches touches [] in db_ret (order (map snd ts)).

(** ** Outbound groups *)

Definition outbound_bucket (outbound : string) : string := "outbound." +:+ outbound.
Definition or_proxy (outbound : string) : string :=
  if String.eqb outbound "" then "proxy" else outbound.

(** [sort.Strings] *)
Definition sort_strings (l : list string) : list string := sort_by String.ltb l.

Definition GetOutbounds : DB (list string) :=
  db! r := db_try (StringSetGetAll "outbounds" "names") in
  let members := match r with Ok m => m | Err _ => [] end in
  db_ret ("proxy"%string :: sort_strings (filter (fun m => m <> "proxy"%string) members)).

Definition InitDefaultOutbound : DB unit :=
  db! r := db_try (StringSetGetAll "outbounds" "names") in
  match r with
  | Err _ => SetAdd "outbounds" "names" DefaultOutboundName
  | Ok members =>
    if decide (DefaultOutboundName ∈ members) then db_ret tt
    else SetAdd "outbounds" "names" DefaultOutboundName
  end.

Definition SetOutboundSetting (outbound : string) (setting : OutboundSetting) : DB unit :=
  match time_ParseDuration (ProbeInterval setting) with
  | Err e => db_fail e
  | Ok _ => db_Set (outbound_bucket outbound) "setting" setting
  end.

Definition GetOutboundSetting (outbound : string) : DB OutboundSetting :=
  db! r := db_try (db_Get (outbound_bucket outbound) "setting") in
  db_ret (match r with Ok setting => setting | Err _ => DefaultOutboundSetting end).

Definition AddOutbound (outbound : string) : DB unit :=
  if String.eqb outbound "proxy" || String.eqb outbound "direct" || String.eqb outbound "block" then
    db_fail (Errorf "%q is a reserved outbound name (proxy, direct, block); choose another" [FStr outbound])
  else
    db! _ := SetAdd "outbounds" "names" outbound in
    SetOutboundSetting outbound DefaultOutboundSetting.

Definition RemoveOutbound (outbound : string) : DB unit :=
  db! _ := BucketClear (outbound_bucket outbound) in
  SetRemove "outbounds" "names" outbound.

(** ** Connected lists *)

Definition connected_key : string := "connectedServers".

Definition GetConnectedServersByOutbound (outbound : string) : DB (option NodeRefs) :=
  db! r := db_try (db_Get (outbound_bucket (or_proxy outbound)) connected_key) in
  db_ret (match r with Ok w => Some w | Err _ => None end).

Fixpoint gather_connected (outbounds : list string) (wts : option NodeRefs) : DB (option NodeRefs) :=
  match outbounds with
  | [] => db_ret wts
  | outbound :: rest =>
    db! w := GetConnectedServersByOutbound outbound in
    gather_connected rest
      (match w with
       | None => wts
       | Some w => Some (NodeRefs_Extend (default (mkNodeRefs []) wts) w)
       end)
  end.

Definition GetConnectedServers : DB (option NodeRefs) :=
  db! outbounds := GetOutbounds in
  db! wts := gather_connected outbounds None in
  db_ret (match wts with
          | Some w => if NodeRefs_Len wts =? 0 then None else Some w
          | None => None
          end).

Definition ClearConnects (outbound : string) : DB unit :=
  db_Set (outbound_bucket (or_proxy outbound)) connected_key tt.

(** The list as stored, empty if it cannot be read. *)
Definition stored_refs (bucket : string) : DB NodeRefs :=
  db! r := db_try (db_Get bucket connected_key) in
  db_ret (match r with Ok w => w | Err _ => mkNodeRefs [] end).

Definition normalize (v : NodeRef) : NodeRef := with_outbound v (or_proxy (Outbound v)).

(** The entries before the one found are normalized in place, but nothing is
    stored then. *)
Definition AddConnect (wt : NodeRef) : DB unit :=
  let wt := normalize wt in
  let bucket := outbound_bucket (Outbound wt) in
  db! wcs := stored_refs bucket in
  let touches := map normalize (Touches wcs) in
  if existsb (fun v => EqualTo v wt) touches then db_ret tt
  else db_Set bucket connected_key (NodeRefs_Add (mkNodeRefs touches) wt).

Fixpoint remove_first {A} (P : A -> bool) (l : list A) : option (list A) :=
  match l with
  | [] => None
  | v :: l => if P v then Some l else cons v <$> remove_first P l
  end.

Definition RemoveConnect (wt : NodeRef) : DB unit :=
  let wt := normalize wt in
  let bucket := outbound_bucket (Outbound wt) in
  db! wcs := stored_refs bucket in
  match remove_first (fun v => EqualTo v wt) (map normalize (Touches wcs)) with
  | Some touches => db_Set bucket connected_key (mkNodeRefs touches)
  | None => db_fail (Errorf "server #%d (%s) is not in the connected list of outbound %q; reload the page"
                       [FInt (ID wt); FStr (TYPE wt); FStr (Outbound wt)])
  end.

(** The references of each outbound, in their order. *)
Definition byOutbound (ws : list NodeRef) : gmap string NodeRefs :=
  foldl (fun out w =>
    <[Outbound w := NodeRefs_Add (default (mkNodeRefs []) (out !! Outbound w)) w]> out) ∅ ws.

(** A loop over a map of lists; which list is written first does not matter, no
    two have the same key. *)
Fixpoint write_lists (groups : list (string * NodeRefs)) : DB unit :=
  match groups with
  | [] => db_ret tt
  | (out, refs) :: rest =>
    db! _ := db_Set (outbound_bucket out) connected_key refs in write_lists rest
  end.

Definition OverwriteConnects (ws : option NodeRefs) : DB unit :=
  write_lists (map_to_list (byOutbound (NodeRefs_Get ws))).

(** An empty list for every group without references. *)
Definition with_empty_groups (outs : list string) (groups : gmap string NodeRefs) : gmap string NodeRefs :=
  foldl (fun groups out => match groups !! out with
                           | None => <[out := NewNodeRefs []]> groups
                           | Some _ => groups
                           end) groups outs.

Definition RemoveNodes (subscriptions servers : list Z) (connected : NodeRefs) : DB unit :=
  db! outs := GetOutbounds in
  let groups := with_empty_groups outs (byOutbound (Touches connected)) in
  RemoveTx subscriptions servers (write_lists (map_to_list groups)).

(** The callback reads the connected lists of the committed state, which within
    the transaction nothing has changed yet. *)
Definition SetSubscriptionAndConnects (index : Z) (subscription : SubscriptionRaw) (ws : option NodeRefs)
    : DB unit :=
  SubscriptionsSet index subscription (Some (
    db! current := GetConnectedServers in
    let cleared := foldl (fun m ref => <[Outbound ref := mkNodeRefs []]> m) ∅ (NodeRefs_Get current) in
    let outboundRefs := foldl (fun m ref =>
      <[Outbound ref := NodeRefs_Add (default (mkNodeRefs []) (m !! Outbound ref)) ref]> m)
      cleared (NodeRefs_Get ws) in
    write_lists (map_to_list outboundRefs))).

(** ** Groups with special treatment *)

Fixpoint any_group (P : OutboundSetting -> bool) (outs : list string) : DB bool :=
  match outs with
  | [] => db_ret false
  | name :: rest => db! s := GetOutboundSetting name in if P s then db_ret true else any_group P rest
  end.

Definition HasAutomaticGroup : DB bool :=
  db! outs := GetOutbounds in any_group AutoAdd outs.
Definition HasFailClosedGroup : DB bool :=
  db! outs := GetOutbounds in
  any_group (fun setting => AutoAdd setting || String.eqb (os_Type setting) KeepCurrent) outs.

(** ** Accounts *)

Definition is_hex (a : Ascii.ascii) : bool :=
  let n := Ascii.nat_of_ascii a in
  ((48 <=? n) && (n <=? 57))%nat || ((97 <=? n) && (n <=? 102))%nat || ((65 <=? n) && (n <=? 70))%nat.

(** [hex.DecodeString] of an even number of characters *)
Fixpoint all_hex (s : string) : bool :=
  match s with EmptyString => true | String a s => is_hex a && all_hex s end.

Definition isAccountPasswordHash (passwordHash : string) : bool :=
  if (s_len passwordHash =? 32)%nat then all_hex passwordHash
  else HasPrefix passwordHash "$2a$" || HasPrefix passwordHash "$2b$" || HasPrefix passwordHash "$2y$".

Definition SetAccount (username password : string) : DB unit := db_Set "accounts" username password.

Definition GetPasswordOfAccount (username : string) : DB string :=
  db! pwd := db_Get "accounts" username in
  if negb (isAccountPasswordHash pwd) then db_fail (Errorf "account not found" []) else db_ret pwd.

Definition ExistsAccount (username : string) : DB bool :=
  db! r := db_try (GetPasswordOfAccount username) in
  db_ret (match r with Ok pwd => isAccountPasswordHash pwd | Err _ => false end).

Fixpoint read_accounts (unames : list string) : DB (list (string * string)) :=
  match unames with
  | [] => db_ret []
  | uname :: rest =>
    db! r := db_try (db_Get "accounts" uname) in
    db! accounts := read_accounts rest in
    db_ret (match r with
            | Ok passwd => if isAccountPasswordHash passwd then (uname, passwd) :: accounts else accounts
            | Err _ => accounts
            end)
  end.

Definition GetAccounts : DB (list (string * string)) :=
  db! unames := GetBucketKeys sort_strings "accounts" in read_accounts unames.

Fixpoint delete_accounts (accounts : list (string * string)) : DB unit :=
  match accounts with
  | [] => db_ret tt
  | a :: rest => db! _ := db_Delete "accounts" (fst a) in delete_accounts rest
  end.

Definition ResetAccounts : DB unit := db! accounts := GetAccounts in delete_accounts accounts.

Definition HasAnyAccounts : DB bool :=
  db! r := db_try GetAccounts in
  db_ret (match r with Ok (_ :: _) => true | _ => false end).

(** ** Core state *)

Definition SetRunning (running : bool) : DB unit := db_Set "system" "running" running.
Definition GetRunning : DB bool :=
  db! r := db_try (db_Get "system" "running") in
  db_ret (match r with Ok b => b | Err _ => false end).

Definition SetLastKernelExitStatus (status : string) : DB unit := db_Set "system" "lastKernelExit" status.
Definition GetLastKernelExitStatus : DB string :=
  db! r := db_try (db_Get "system" "lastKernelExit") in
  db_ret (match r with Ok s => s | Err _ => "" end).

End Configure.
