(* ===== verification/Catalog.v ===== *)
(** * Changing the catalogue (service/server/service: touch.go, subscription.go, connect.go, core_config.go)

    Deleting nodes, storing a fetched subscription, editing its policy, and
    connecting nodes to outbound groups.  The running core is reached through the
    class [Kernel]: the operations here depend on what it promises, not on how
    it is started. *)

From S2P Require Import Prelude.
From S2P Require Import Store NodeRefs Configure.

#[local] Open Scope Z_scope.
#[local] Open Scope go_scope.

(** ** The core as the service sees it *)

Class Kernel `{Json} := {
  kernel : Type;
  (** [ProcessManager.Running()] *)
  k_running : kernel -> bool;
  (** [v2ray.UpdateV2RayConfig] and [v2ray.UpdateGroupConfig] *)
  k_update : database * kernel -> result unit * (database * kernel);
  k_update_group : database * kernel -> result unit * (database * kernel);
  (** what [checkSupport] and the IP forwarding do: look at asset files, write a
      kernel parameter *)
  k_check_support : kernel -> result unit;
  k_set_ip_forward : kernel -> kernel;
}.

(** The keys that starting and stopping the core may write. *)
Definition kernel_key (k : string) : Prop := HasPrefix k "system:" = true.

(** The same stored state, but for the keys of the core. *)
Definition same_catalogue `{Json} (t t' : tables) : Prop :=
  t_servers t' = t_servers t /\ t_subscriptions t' = t_subscriptions t /\
  t_subscriptions_seq t' = t_subscriptions_seq t /\ t_outbound_names t' = t_outbound_names t /\
  forall k, ~ kernel_key k -> t_system_config t' !! k = t_system_config t !! k.

(** Starting the core writes its own keys only, and meets the failures that lie
    ahead, no others. *)
Class KernelLaws `(K : Kernel) : Prop := {
  update_keeps : forall s r s', k_update s = (r, s') -> same_catalogue (db_tables s.1) (db_tables s'.1);
  update_group_keeps : forall s r s',
    k_update_group s = (r, s') -> same_catalogue (db_tables s.1) (db_tables s'.1);
  update_faults : forall s r s', k_update s = (r, s') -> db_faults s'.1 `suffix_of` db_faults s.1;
  update_group_faults : forall s r s', k_update_group s = (r, s') -> db_faults s'.1 `suffix_of` db_faults s.1;
}.

(** ** Service operations: the database and the core *)

Section Service.
Context `{J : Json} `{K : !Kernel}.

Definition SV (A : Type) : Type := database * kernel -> result A * (database * kernel).

Definition sv_ret {A} (a : A) : SV A := fun s => (Ok a, s).
Definition sv_fail {A} (e : error) : SV A := fun s => (Err e, s).
Definition sv_bind {A B} (c : SV A) (k : A -> SV B) : SV B :=
  fun s => match c s with (Ok a, s) => k a s | (Err e, s) => (Err e, s) end.
Definition sv_try {A} (c : SV A) : SV (result A) := fun s => let '(r, s) := c s in (Ok r, s).
Definition sv_db {A} (c : DB A) : SV A :=
  fun s => let '(r, d) := c s.1 in (r, (d, s.2)).
Definition sv_running : SV bool := fun s => (Ok (k_running s.2), s).
Definition sv_update : SV unit := k_update.
Definition sv_update_group : SV unit := k_update_group.

End Service.

Notation "'sv!' x ':=' e 'in' k" := (sv_bind e (fun x => k))
  (at level 10, x pattern, e at level 100, k at level 200) : go_scope.

(** ** touch.go: deletion *)

Inductive verdict := Drop | Change (cs : NodeRef) | Keep.

(** A connected node when the subscription with index [ind] goes. *)
Definition visit_subscription (ind : Z) (cs : NodeRef) : verdict :=
  if String.eqb (TYPE cs) SubscriptionServerType then
    if ind =? Sub cs then Drop else if ind <? Sub cs then Change (with_sub cs (Sub cs - 1)) else Keep
  else Keep.

(** A connected node when the server with number [id] goes. *)
Definition visit_server (id : Z) (cs : NodeRef) : verdict :=
  if String.eqb (TYPE cs) ServerType then
    if id =? ID cs then Drop else if id <? ID cs then Change (with_id cs (ID cs - 1)) else Keep
  else Keep.

(** [cssAfter]: the objects that the pointers lead to, the backing array of
    pointers, and the length of the slice. *)
Record css_state := mkCss { heap : list NodeRef; arr : list nat; len : nat }.

(** [cssAfter = append(cssAfter[:i], cssAfter[i+1:]...)]: the elements behind [i]
    move down in the array, which keeps its length. *)
Definition slice_remove (i : nat) (s : css_state) : css_state :=
  mkCss (heap s) (take i (arr s) ++ drop (S i) (take (len s) (arr s)) ++ drop (len s - 1) (arr s)) (len s - 1).

(** [for i := len(css) - 1; i >= 0; i--], where [css] is the slice as it was
    before the loop, on the same array. *)
Fixpoint css_loop (visit : NodeRef -> verdict) (i : nat) (s : css_state) : css_state :=
  match i with
  | O => s
  | S i =>
    css_loop visit i
      (match arr s !! i with
       | None => s
       | Some p =>
         match heap s !! p with
         | None => s
         | Some cs =>
           match visit cs with
           | Drop => slice_remove i s
           | Change cs' => mkCss (<[p := cs']> (heap s)) (arr s) (len s)
           | Keep => s
           end
         end
       end)
  end.

Definition visit_touch (v : NodeRef) (cs : NodeRef) : verdict :=
  if String.eqb (TYPE v) SubscriptionType then visit_subscription (ID v - 1) cs
  else if String.eqb (TYPE v) ServerType then visit_server (ID v) cs
  else Keep.

Definition css_touch (s : css_state) (v : Which) : css_state :=
  css_loop (visit_touch (w_NodeRef v)) (len s) s.

Definition css_init (css : list NodeRef) : css_state := mkCss css (seq 0 (length css)) (length css).

(** What [cssAfter] points at. *)
Definition css_refs (s : css_state) : list NodeRef :=
  omap (fun p => heap s !! p) (take (len s) (arr s)).

(** The indexes collected for a type. *)
Definition touched_indexes (type : string) (touches : list Which) : list Z :=
  omap (fun v => if String.eqb (TYPE (w_NodeRef v)) type then Some (ID (w_NodeRef v) - 1) else None) touches.

Section Catalog.
Context `{J : Json} `{O : ServerObjs} `{E : !Encodings} `{K : !Kernel}.

(** What is deleted and the connected lists that remain. *)
Definition delete_nodes (order : list Which -> list Which) (ws : list Which) : DB unit :=
  db! data := GetNonDuplicated order ws in
  let touches := SortSameTypeReverse data in
  db! cssRaw := GetConnectedServers in
  let cssAfter := foldl css_touch (css_init (NodeRefs_Get cssRaw)) touches in
  RemoveNodes (touched_indexes SubscriptionType touches) (touched_indexes ServerType touches)
    (NewNodeRefs (css_refs cssAfter)).

Definition DeleteWhich (order : list Which -> list Which) (ws : list Which) : SV unit :=
  sv! _ := sv_db (delete_nodes order ws) in
  sv! running := sv_running in
  if running then sv_update_group else sv_ret tt.

(** ** subscription.go: storing an update *)

(** The first node with the same share link. *)
Fixpoint find_link (url : string) (i : Z) (nodes : list ServerObj) : Z :=
  match nodes with
  | [] => 0
  | node :: rest => if String.eqb (ExportToURL node) url then i + 1 else find_link url (i + 1) rest
  end.

(** The only match, 0 without one and -1 with several. *)
Fixpoint find_unique (matches : ServerObj -> bool) (i found : Z) (nodes : list ServerObj) : Z :=
  match nodes with
  | [] => found
  | node :: rest =>
    if matches node then
      if negb (found =? 0) then -1 else find_unique matches (i + 1) (i + 1) rest
    else find_unique matches (i + 1) found rest
  end.

Definition same_endpoint (old n : ServerObj) : bool :=
  String.eqb (GetProtocol n) (GetProtocol old) && String.eqb (GetHostname n) (GetHostname old) &&
  (GetPort n =? GetPort old).
Definition same_name (old n : ServerObj) : bool :=
  negb (String.eqb (GetName old) "") && String.eqb (GetName n) (GetName old) &&
  String.eqb (GetProtocol n) (GetProtocol old).

Definition remapSubscriptionNodeDetailed (old : option ServerObj) (nodes : list ServerObj) : Z * bool :=
  match old with
  | None => (0, false)
  | Some old =>
    let i := find_link (ExportToURL old) 0 nodes in
    if negb (i =? 0) then (i, true)
    else
      let found := find_unique (same_endpoint old) 0 0 nodes in
      if 0 <? found then (found, false)
      else
        let found := find_unique (same_name old) 0 0 nodes in
        if 0 <? found then (found, false) else (0, false)
  end.

(** [mappedIDs] with [exactMatches], and [fallbackClaims]. *)
Record remap_state := mkRemap { mappedIDs : gmap Z (Z * bool); fallbackClaims : gmap Z Z }.

Definition remap_ref (index : Z) (oldServers : list ServerRaw) (nodes : list ServerObj)
    (st : remap_state) (ref : NodeRef) : remap_state :=
  if negb (String.eqb (TYPE ref) SubscriptionServerType) || negb (Sub ref =? index) || (ID ref <=? 0) ||
     (Z.of_nat (length oldServers) <? ID ref)
  then st
  else
    match mappedIDs st !! ID ref with
    | Some _ => st
    | None =>
      let '(id, exact) := remapSubscriptionNodeDetailed
                            (sr_ServerObj <$> oldServers !! Z.to_nat (ID ref - 1)) nodes in
      mkRemap (<[ID ref := (id, exact)]> (mappedIDs st))
        (if negb (id =? 0) && negb exact
         then <[id := default 0 (fallbackClaims st !! id) + 1]> (fallbackClaims st)
         else fallbackClaims st)
    end.

Definition remap_refs (index : Z) (oldServers : list ServerRaw) (nodes : list ServerObj)
    (refs : list NodeRef) : remap_state :=
  foldl (remap_ref index oldServers nodes) (mkRemap ∅ ∅) refs.

(** The loop that builds [updated]: the servers of [next], the retained nodes,
    whether anything is affected, and the references so far. *)
Record update_state := mkUpdate {
  us_servers : list ServerRaw;
  us_retained : gmap Z Z;
  us_affected : bool;
  us_updated : list NodeRef;
}.

Definition set_servers (sub : SubscriptionRaw) (servers : list ServerRaw) : SubscriptionRaw :=
  mkSubscriptionRaw (su_DatabaseID sub) (su_UpdateMode sub) (su_UpdateIntervalMinutes sub)
    (su_FailureIntervalMinutes sub) (su_AllowDirectRecovery sub) (su_Remarks sub) (su_Address sub)
    (su_Status sub) servers (su_Info sub) (su_AutoSelect sub).
Definition set_status (sub : SubscriptionRaw) (status info : string) : SubscriptionRaw :=
  mkSubscriptionRaw (su_DatabaseID sub) (su_UpdateMode sub) (su_UpdateIntervalMinutes sub)
    (su_FailureIntervalMinutes sub) (su_AllowDirectRecovery sub) (su_Remarks sub) (su_Address sub)
    status (su_Servers sub) info (su_AutoSelect sub).

(** The node that takes over, 0 without one or with a second claim to it. *)
Definition new_id (rm : remap_state) (ref : NodeRef) : Z :=
  let '(mapped, exact) := default (0, false) (mappedIDs rm !! ID ref) in
  if negb exact && (1 <? default 0 (fallbackClaims rm !! mapped)) then 0 else mapped.

(** One reference of the subscription, which exists as [raw]. *)
Definition update_own (rm : remap_state) (drop_lost : bool) (raw : ServerRaw) (ref : NodeRef)
    (st : update_state) : update_state :=
  let id := new_id rm ref in
  if (id =? 0) && drop_lost then
    mkUpdate (us_servers st) (us_retained st) true (us_updated st)
  else
    let '(servers, retained, id) :=
      if id =? 0 then
        let kept := default 0 (us_retained st !! ID ref) in
        if kept =? 0 then
          let servers := us_servers st ++ [raw] in
          let n := Z.of_nat (length servers) in
          (servers, <[ID ref := n]> (us_retained st), n)
        else (us_servers st, us_retained st, kept)
      else (us_servers st, us_retained st, id) in
    let changed := negb (id =? ID ref) ||
      negb (match servers !! Z.to_nat (id - 1) with
            | Some s => String.eqb (ExportToURL (sr_ServerObj s)) (ExportToURL (sr_ServerObj raw))
            | None => false
            end) in
    mkUpdate servers retained (us_affected st || changed) (us_updated st ++ [with_id ref id]).

Fixpoint update_refs (index : Z) (oldServers : list ServerRaw) (rm : remap_state) (disconnect : bool)
    (refs : list NodeRef) (st : update_state) : DB update_state :=
  match refs with
  | [] => db_ret st
  | ref :: rest =>
    if String.eqb (TYPE ref) SubscriptionServerType && (Sub ref =? index) then
      if (ID ref <=? 0) || (Z.of_nat (length oldServers) <? ID ref) then
        db_fail (Errorf "invalid connected server reference" [])
      else
        match oldServers !! Z.to_nat (ID ref - 1) with
        | None => db_fail (Errorf "invalid connected server reference" [])
        | Some raw =>
          (* the group's setting is read only for a reference without a new node *)
          db! drop_lost := (if (new_id rm ref =? 0) && negb disconnect
                            then db! s := GetOutboundSetting (Outbound ref) in db_ret (AutoAdd s)
                            else db_ret disconnect) in
          update_refs index oldServers rm disconnect rest (update_own rm drop_lost raw ref st)
        end
    else
      update_refs index oldServers rm disconnect rest
        (mkUpdate (us_servers st) (us_retained st) (us_affected st) (us_updated st ++ [ref]))
  end.

(** [status] is the time stamp of [touch.NewUpdateStatus]. *)
Definition storeSubscriptionUpdate (status : string) (index : Z) (old : SubscriptionRaw)
    (nodes : list ServerObj) (info : string) (disconnect : bool) : SV unit :=
  let next := set_status old status info in
  sv! previous := sv_db GetConnectedServers in
  let refs := NodeRefs_Get previous in
  let rm := remap_refs index (su_Servers old) nodes refs in
  sv! st := sv_db (update_refs index (su_Servers old) rm disconnect refs
                     (mkUpdate (map (fun n => mkServerRaw n "") nodes) ∅ false [])) in
  let next := set_servers next (us_servers st) in
  let updated := Some (mkNodeRefs (us_updated st)) in
  sv! _ := sv_db (SetSubscriptionAndConnects index next updated) in
  if negb (us_affected st) then sv_ret tt
  else
    sv! running := sv_running in
    if running then
      sv! r := sv_try sv_update in
      match r with
      | Ok _ => sv_ret tt
      | Err err =>
        sv! _ := sv_try (sv_db (SetSubscriptionAndConnects index old previous)) in
        sv! _ := sv_try sv_update in
        sv_fail (Wrapf "subscription stored, but the core could not apply it: %w" [] err)
      end
    else sv_ret tt.

(** ** subscription.go: editing a subscription *)

Record touch_Subscription := mkTouchSubscription {
  ts_UpdateMode : option string;
  ts_UpdateIntervalMinutes : option Z;
  ts_FailureIntervalMinutes : option Z;
  ts_AllowDirectRecovery : option bool;
  ts_Remarks : string;
  ts_ID : Z;
  ts_Address : string;
}.

Definition in_minutes (n : Z) : bool := (1 <=? n) && (n <=? 525600).

(** The policy that the edited fields give, or the complaint about it. *)
Definition edited_policy (raw : SubscriptionRaw) (s : touch_Subscription) : result (string * Z * Z) :=
  let mode := default (su_UpdateMode raw) (ts_UpdateMode s) in
  let regular := default (su_UpdateIntervalMinutes raw) (ts_UpdateIntervalMinutes s) in
  let failure := default (su_FailureIntervalMinutes raw) (ts_FailureIntervalMinutes s) in
  let failure := if (failure =? 0) && negb (String.eqb mode SubscriptionUpdateIntervalFailsafe)
                 then 1 else failure in
  if String.eqb mode SubscriptionUpdateDisabled || String.eqb mode SubscriptionUpdateOnStart then
    Ok (mode, regular, failure)
  else if String.eqb mode SubscriptionUpdateAtInterval then
    if (is_some (ts_UpdateMode s) && negb (is_some (ts_UpdateIntervalMinutes s))) || negb (in_minutes regular)
    then Err (Errorf "update interval must be 1–525600 minutes" [])
    else Ok (mode, regular, failure)
  else if String.eqb mode SubscriptionUpdateIntervalFailsafe then
    if (is_some (ts_UpdateMode s) &&
        (negb (is_some (ts_UpdateIntervalMinutes s)) || negb (is_some (ts_FailureIntervalMinutes s)))) ||
       negb (in_minutes regular) || negb (in_minutes failure)
    then Err (Errorf "regular and failure intervals must be 1–525600 minutes" [])
    else Ok (mode, regular, failure)
  else Err (Errorf "unknown subscription update mode %q" [FStr mode]).

Definition ModifySubscriptionRemark (subscription : touch_Subscription) : DB unit :=
  db! raw := GetSubscription (ts_ID subscription - 1) in
  match raw with
  | None => db_fail (Errorf "subscription does not exist" [])
  | Some raw =>
    db! policy := db_lift (edited_policy raw subscription) in
    let '(mode, regular, failure) := policy in
    SetSubscription (ts_ID subscription - 1)
      (mkSubscriptionRaw (su_DatabaseID raw) mode regular failure
         (default (su_AllowDirectRecovery raw) (ts_AllowDirectRecovery subscription))
         (ts_Remarks subscription) (ts_Address subscription) (su_Status raw) (su_Servers raw)
         (su_Info raw) (su_AutoSelect raw))
  end.

(** ** core_config.go *)

(** The error keeps what failed of the update, the restore and the second
    update. *)
Definition applyCoreConfig (restore store : SV unit) (update : SV unit) : SV unit :=
  sv! _ := store in
  sv! running := sv_running in
  if negb running then sv_ret tt
  else
    sv! r := sv_try update in
    match r with
    | Ok _ => sv_ret tt
    | Err updateErr =>
      sv! restored := sv_try restore in
      match restored with
      | Err e => sv_fail (Wrapf "%v; the previous value could not be restored (%v)" [] updateErr)
      | Ok _ =>
        sv! again := sv_try update in
        match again with
        | Err e => sv_fail (Wrapf "%v; the core could not be restarted with the previous value (%v)" [] updateErr)
        | Ok _ => sv_fail updateErr
        end
      end
    end.

(** ** connect.go *)

Definition managed_error (outbound : string) : error :=
  Errorf "group %q manages its membership automatically; turn automatic membership off before editing it"
    [FStr outbound].

(** The deferred function that puts a context before the error. *)
Definition sv_wrap {A} (format : string) (c : SV A) : SV A :=
  sv! r := sv_try c in
  match r with Ok a => sv_ret a | Err e => sv_fail (Wrapf format [] e) end.

(** Put back the list of one group; errors are ignored. *)
Definition restore_group (outbound : string) (backup : option NodeRefs) : SV unit :=
  sv! _ := sv_try (sv_db (if 0 <? NodeRefs_Len backup then OverwriteConnects backup else ClearConnects outbound)) in
  sv_ret tt.

Definition Disconnect (which : NodeRef) (clearOutbound : bool) : SV unit :=
  let which := with_outbound which (or_proxy (Outbound which)) in
  sv! setting := sv_db (GetOutboundSetting (Outbound which)) in
  if AutoAdd setting then sv_fail (managed_error (Outbound which))
  else sv_wrap "failed to disconnect: %w" (
    sv! lastConnected := sv_db (GetConnectedServersByOutbound (Outbound which)) in
    sv! _ := sv_db (if clearOutbound then ClearConnects (Outbound which) else RemoveConnect which) in
    sv! running := sv_running in
    if running then
      sv! r := sv_try sv_update in
      match r with
      | Ok _ => sv_ret tt
      | Err err =>
        sv! running := sv_running in
        if is_some lastConnected && running then
          sv! _ := sv_try (sv_db (OverwriteConnects lastConnected)) in
          sv! _ := sv_try sv_update in
          sv_fail err
        else sv_fail err
      end
    else sv_ret tt).

(** [None] is a nil pointer. *)
Definition Connect (which : option NodeRef) : SV unit :=
  sv_wrap "failed to connect: %w" (
    match which with
    | None => sv_fail (Errorf "no server was given to connect to" [])
    | Some which =>
      let which := with_outbound which (or_proxy (Outbound which)) in
      sv! setting := sv_db (GetOutboundSetting (Outbound which)) in
      if AutoAdd setting then sv_fail (managed_error (Outbound which))
      else
        sv! _ := sv_db (LocateServerRaw which) in
        sv! _ := (fun s => (k_check_support s.2, s)) in
        sv! _ := (fun s => (Ok tt, (s.1, k_set_ip_forward s.2))) in
        sv! currentConnected := sv_db (GetConnectedServersByOutbound (Outbound which)) in
        sv! r := sv_try (sv! _ := sv_db (AddConnect which) in sv_update) in
        match r with
        | Ok _ => sv_ret tt
        | Err err =>
          sv! _ := restore_group (Outbound which) currentConnected in
          sv! running := sv_running in
          if running then sv! _ := sv_try sv_update in sv_fail err else sv_fail err
        end
    end).

(** The touches of the request with the group's name, without repetitions;
    [i] is the position reported. *)
Fixpoint normalized_touches (outbound : string) (i : Z) (seen : list NodeRef) (touches : list NodeRef)
    : result (list NodeRef) :=
  match touches with
  | [] => Ok []
  | wt :: rest =>
    let wt := with_outbound wt outbound in
    if ID wt <=? 0 then Err (Errorf "invalid touch id at index %d: %d" [FInt i; FInt (ID wt)])
    else
      let? wt :=
        (if String.eqb (TYPE wt) ServerType then Ok (with_sub wt 0)
         else if String.eqb (TYPE wt) SubscriptionServerType then
           if Sub wt <? 0
           then Err (Errorf "invalid subscription index at index %d: %d" [FInt i; FInt (Sub wt)])
           else Ok wt
         else Err (Errorf "invalid touch type at index %d: %q" [FInt i; FStr (TYPE wt)])) in
      if decide (wt ∈ seen) then normalized_touches outbound (i + 1) seen rest
      else
        let? out := normalized_touches outbound (i + 1) (wt :: seen) rest in
        Ok (wt :: out)
  end.

Definition replaceOutboundConnections (outbound : string) (touches : list NodeRef) (managed : bool) : SV unit :=
  sv_wrap "failed to replace outbound connections: %w" (
    let outbound := or_proxy outbound in
    sv! setting := sv_db (GetOutboundSetting outbound) in
    if negb (Bool.eqb (AutoAdd setting) managed) then
      sv_fail (if managed then Errorf "group %q is no longer automatic" [FStr outbound] else managed_error outbound)
    else
      match normalized_touches outbound 0 [] touches with
      | Err e => sv_fail e
      | Ok normalized =>
        sv! backup := sv_db (GetConnectedServersByOutbound outbound) in
        sv! r := sv_try (sv_db (match normalized with
                                | [] => ClearConnects outbound
                                | _ => OverwriteConnects (Some (mkNodeRefs normalized))
                                end)) in
        match r with
        | Err err => sv! _ := restore_group outbound backup in sv_fail err
        | Ok _ =>
          sv! running := sv_running in
          if running then
            sv! r := sv_try sv_update_group in
            match r with
            | Ok _ => sv_ret tt
            | Err err =>
              sv! _ := restore_group outbound backup in
              sv! _ := sv_try sv_update_group in
              sv_fail err
            end
          else sv_ret tt
        end
      end).

End Catalog.
