(* ===== verification/DeleteProps.v ===== *)
(** * Renumbering references when nodes are deleted (service/server/service/touch.go)

    The loop of [DeleteWhich] edits a slice in place while reading another slice
    of the same array.  It is shown to compute, for each reference, whether its
    node survives and where it moves, and the order in which the touches are
    visited makes the moves add up. *)

From stdpp Require Import sorting.
From S2P Require Import Prelude.
From S2P Require Import Store StoreLists NodeRefs Configure Catalog.

#[local] Open Scope Z_scope.

(** ** The loop over the slice *)

Definition apply_verdict (visit : NodeRef -> verdict) (cs : NodeRef) : option NodeRef :=
  match visit cs with Drop => None | Change cs' => Some cs' | Keep => Some cs end.

Definition refs_at (h : list NodeRef) (ps : list nat) : list NodeRef := omap (fun p => h !! p) ps.

Lemma refs_at_app h ps qs : refs_at h (ps ++ qs) = refs_at h ps ++ refs_at h qs.
Proof. apply omap_app. Qed.

Lemma refs_at_insert h p x ps : p ∉ ps -> refs_at (<[p := x]> h) ps = refs_at h ps.
Proof.
  intros Hp. apply omap_ext_in. intros q Hq. apply list_lookup_insert_ne. by intros ->.
Qed.

(** The slice holds [P ++ Q]; pointers are distinct and lead to objects. *)
Record slice_is (s : css_state) (l : list nat) : Prop := {
  slice_len : length l = len s;
  slice_take : take (len s) (arr s) = l;
  slice_nodup : NoDup l;
  slice_range : Forall (fun p => (p < length (heap s))%nat) l;
}.

Lemma slice_remove_is s P p Q : slice_is s (P ++ p :: Q) -> slice_is (slice_remove (length P) s) (P ++ Q).
Proof.
  intros [Hl Ht Hn Hr]. rewrite length_app in Hl. cbn [length] in Hl.
  assert (Htake : take (len s - 1) (take (length P) (arr s) ++ drop (S (length P)) (take (len s) (arr s)) ++
                    drop (len s - 1) (arr s)) = P ++ Q).
  { assert (HP : take (length P) (arr s) = P).
    { pose proof (take_app_length P (p :: Q)) as HP. rewrite <-Ht, take_take, Nat.min_l in HP by lia. done. }
    assert (HQ : drop (S (length P)) (take (len s) (arr s)) = Q).
    { rewrite Ht. replace (P ++ p :: Q) with ((P ++ [p]) ++ Q) by (by rewrite <-app_assoc).
      replace (S (length P)) with (length (P ++ [p])) by (rewrite length_app; cbn; lia).
      apply drop_app_length. }
    rewrite HP, HQ, app_assoc. apply take_app_length'. rewrite length_app. lia. }
  split; cbn [heap arr len slice_remove].
  - rewrite length_app. lia.
  - exact Htake.
  - apply NoDup_app in Hn as (H1 & H2 & H3). apply NoDup_cons in H3 as [H3 H4].
    apply NoDup_app. split; [done|]. split; [|done]. intros x Hx Hx'. apply (H2 x Hx). by right.
  - apply Forall_app in Hr as [H1 H2]. apply Forall_cons in H2 as [_ H2]. by apply Forall_app.
Qed.

Lemma css_loop_spec visit P Q s : slice_is s (P ++ Q) ->
  exists l, slice_is (css_loop visit (length P) s) l /\
    refs_at (heap (css_loop visit (length P) s)) l =
      omap (apply_verdict visit) (refs_at (heap s) P) ++ refs_at (heap s) Q.
Proof.
  revert Q s. induction P as [|p P IH] using rev_ind; intros Q s Hs; [by exists Q|].
  rewrite length_app, Nat.add_1_r. cbn [css_loop].
  rewrite <-app_assoc in Hs. cbn [app] in Hs.
  assert (Hp : arr s !! length P = Some p).
  { pose proof (slice_take _ _ Hs) as Ht. pose proof (slice_len _ _ Hs) as Hl.
    rewrite length_app in Hl. cbn in Hl.
    rewrite <-(lookup_take_lt (arr s) (len s)) by lia. rewrite Ht.
    by apply list_lookup_middle. }
  assert (Hcs : exists cs, heap s !! p = Some cs).
  { apply lookup_lt_is_Some. pose proof (slice_range _ _ Hs) as Hr. apply Forall_app in Hr as [_ Hr].
    by apply Forall_cons in Hr as [Hr _]. }
  destruct Hcs as [cs Hcs]. rewrite Hp, Hcs.
  assert (Hnew : refs_at (heap s) (P ++ [p]) = refs_at (heap s) P ++ [cs]).
  { rewrite refs_at_app. cbn. by rewrite Hcs. }
  assert (Hnp : p ∉ P /\ p ∉ Q).
  { pose proof (slice_nodup _ _ Hs) as Hn. apply NoDup_app in Hn as (_ & H1 & H2).
    apply NoDup_cons in H2 as [H2 _]. split; [|done]. intros Hx. apply (H1 p Hx). left. }
  rewrite Hnew, omap_app. cbn [omap list_omap]. unfold apply_verdict at 2.
  destruct (visit cs) as [|cs'|] eqn:Hv.
  - destruct (IH Q (slice_remove (length P) s)) as (l & H1 & H2); [by apply (slice_remove_is _ _ p)|].
    exists l. split; [done|]. rewrite H2. cbn [heap slice_remove]. by rewrite app_nil_r.
  - destruct (IH (p :: Q) (mkCss (<[p := cs']> (heap s)) (arr s) (len s))) as (l & H1 & H2).
    { destruct Hs. split; cbn [heap arr len]; try done. by rewrite length_insert. }
    exists l. split; [done|]. rewrite H2. cbn [heap]. rewrite refs_at_insert by apply Hnp.
    rewrite <-app_assoc. f_equal. cbn [refs_at omap list_omap app].
    rewrite list_lookup_insert_eq by (by eapply lookup_lt_Some). f_equal.
    exact (refs_at_insert (heap s) p cs' Q (proj2 Hnp)).
  - destruct (IH (p :: Q) s Hs) as (l & H1 & H2). exists l. split; [done|]. rewrite H2.
    rewrite <-app_assoc. f_equal. cbn. by rewrite Hcs.
Qed.

(** Several touches, each with its loop. *)
Lemma css_touches_spec touches s l : slice_is s l ->
  css_refs (foldl css_touch s touches) =
  foldl (fun refs v => omap (apply_verdict (visit_touch (w_NodeRef v))) refs) (refs_at (heap s) l) touches.
Proof.
  revert s l. induction touches as [|v touches IH]; intros s l Hs; cbn [foldl].
  { unfold css_refs. by rewrite (slice_take _ _ Hs). }
  destruct (css_loop_spec (visit_touch (w_NodeRef v)) l [] s) as (l' & H1 & H2); [by rewrite app_nil_r|].
  rewrite (slice_len _ _ Hs) in H1, H2. rewrite (IH _ l') by done. cbn [refs_at omap list_omap] in H2.
  rewrite app_nil_r in H2. by rewrite <-H2.
Qed.

Lemma refs_at_seq css : refs_at css (seq 0 (length css)) = css.
Proof.
  induction css as [|c css IH] using rev_ind; [done|]. rewrite length_app, Nat.add_1_r, seq_S, refs_at_app.
  cbn [refs_at omap list_omap]. rewrite Nat.add_0_l, list_lookup_middle by done. f_equal.
  etrans; [|exact IH]. apply omap_ext_in. intros p [_ Hp]%elem_of_seq. apply lookup_app_l. lia.
Qed.

Lemma css_init_is css : slice_is (css_init css) (seq 0 (length css)).
Proof.
  split; cbn [heap arr len css_init].
  - apply length_seq.
  - rewrite <-(length_seq (length css) 0) at 1. apply firstn_all.
  - apply NoDup_seq.
  - apply Forall_forall. intros p [_ Hp]%elem_of_seq. lia.
Qed.

(** The reference after all touches, if its node is still there. *)
Definition survive (touches : list Which) (cs : NodeRef) : option NodeRef :=
  foldl (fun o v => o ≫= apply_verdict (visit_touch (w_NodeRef v))) (Some cs) touches.

Lemma foldl_none touches : foldl (fun o v => o ≫= apply_verdict (visit_touch (w_NodeRef v))) None touches = None.
Proof. induction touches as [|v touches IH]; [done|]. by cbn. Qed.

Lemma survive_cons v touches cs :
  survive (v :: touches) cs = apply_verdict (visit_touch (w_NodeRef v)) cs ≫= survive touches.
Proof.
  unfold survive. cbn [foldl]. cbn [mbind option_bind].
  destruct (apply_verdict _ cs); [done|]. apply foldl_none.
Qed.

Lemma omap_omap {A B C} (f : A -> option B) (g : B -> option C) (l : list A) :
  omap g (omap f l) = omap (fun x => f x ≫= g) l.
Proof.
  induction l as [|x l IH]; [done|]. cbn. destruct (f x) as [y|]; cbn; [|done].
  destruct (g y); cbn; by rewrite IH.
Qed.

(** The loop of the code, reference by reference. *)
Lemma css_is_survive touches css :
  css_refs (foldl css_touch (css_init css) touches) = omap (survive touches) css.
Proof.
  rewrite (css_touches_spec touches _ _ (css_init_is css)). cbn [heap css_init]. rewrite refs_at_seq.
  revert css. induction touches as [|v touches IH]; intros css; cbn [foldl].
  - induction css as [|c css IH]; [done|]. cbn. by rewrite <-IH.
  - rewrite IH, omap_omap. apply omap_ext_in. intros cs _. symmetry. apply survive_cons.
Qed.

(** ** The order of the touches *)

Section Sorting.
Context {A : Type} (less : A -> A -> bool).

(** [b] is not less than [a]. *)
Definition not_after (a b : A) : Prop := less b a = false.

Lemma insert_less_sorted (P : A -> Prop) x l :
  (forall a b c, P a -> P b -> P c -> not_after a b -> not_after b c -> not_after a c) ->
  (forall a b, P a -> P b -> less a b = true -> not_after a b) ->
  P x -> Forall P l -> StronglySorted not_after l -> StronglySorted not_after (insert_less less x l).
Proof.
  intros Htr Hlt Hx Hl. induction l as [|y l IH]; intros Hs; [repeat constructor|]. cbn [insert_less].
  apply Forall_cons in Hl as [Hy Hl]. apply StronglySorted_cons in Hs as [H1 H2].
  rewrite Forall_forall in H1. destruct (less y x) eqn:Hyx.
  - apply StronglySorted_cons. split; [|by apply IH]. apply Forall_forall. intros z Hz.
    rewrite (insert_less_perm less x l) in Hz. apply elem_of_cons in Hz as [->|Hz]; [by apply Hlt|by apply H1].
  - apply StronglySorted_cons. split; [|apply StronglySorted_cons; split; [by apply Forall_forall|done]].
    apply Forall_forall. intros z [->|Hz]%elem_of_cons; [done|].
    rewrite Forall_forall in Hl. apply (Htr x y z); auto.
Qed.

Lemma sort_by_sorted (P : A -> Prop) l :
  (forall a b c, P a -> P b -> P c -> not_after a b -> not_after b c -> not_after a c) ->
  (forall a b, P a -> P b -> less a b = true -> not_after a b) ->
  Forall P l -> StronglySorted not_after (sort_by less l).
Proof.
  intros Htr Hlt Hl. induction l as [|x l IH]; [constructor|].
  apply Forall_cons in Hl as [Hx Hl]. unfold sort_by in *. cbn [foldr].
  apply (insert_less_sorted P); auto. fold (sort_by less l). by rewrite sort_by_perm.
Qed.

End Sorting.

(** The types that [GetNonDuplicated] lets through. *)
Definition known_type (w : Which) : Prop :=
  let t := TYPE (w_NodeRef w) in
  t = ServerType \/ t = SubscriptionType \/ t = SubscriptionServerType.

Definition touch_key (w : Which) : Z * Z * Z :=
  let r := w_NodeRef w in
  (quantifyType (TYPE r), if String.eqb (TYPE r) ServerType then 0 else Sub r, ID r).

Definition lex_lt (a b : Z * Z * Z) : Prop :=
  a.1.1 < b.1.1 \/ (a.1.1 = b.1.1 /\ (a.1.2 < b.1.2 \/ (a.1.2 = b.1.2 /\ a.2 < b.2))).

Lemma quantify_inj a b : known_type a -> known_type b ->
  quantifyType (TYPE (w_NodeRef a)) = quantifyType (TYPE (w_NodeRef b)) <->
  TYPE (w_NodeRef a) = TYPE (w_NodeRef b).
Proof. unfold known_type. intros [->|[->| ->]] [->|[->| ->]]; done. Qed.

Lemma Less_lex a b : known_type a -> known_type b -> Less a b = true <-> lex_lt (touch_key a) (touch_key b).
Proof.
  intros Ha Hb. pose proof (quantify_inj a b Ha Hb) as Hq. unfold Less, lex_lt, touch_key. cbn [fst snd].
  destruct (String.eqb_spec (TYPE (w_NodeRef a)) (TYPE (w_NodeRef b))) as [He|He]; cbn [negb].
  - rewrite He. destruct (String.eqb (TYPE (w_NodeRef b)) ServerType).
    + rewrite Z.ltb_lt. lia.
    + destruct (Z.eqb_spec (Sub (w_NodeRef a)) (Sub (w_NodeRef b))); cbn [negb]; rewrite Z.ltb_lt; lia.
  - rewrite Z.ltb_lt. split; [by left|]. intros [H|[H _]]; [done|]. by apply Hq in H.
Qed.

Lemma Whiches_Sort_sorted ws : Forall known_type ws -> StronglySorted (not_after Less) (Whiches_Sort ws).
Proof.
  intros Hk. apply (sort_by_sorted _ known_type); [| |done].
  - intros a b c Ha Hb Hc. unfold not_after. rewrite <-!not_true_iff_false, !Less_lex by done.
    unfold lex_lt. lia.
  - intros a b Ha Hb. unfold not_after. rewrite <-not_true_iff_false, !Less_lex by done.
    unfold lex_lt. lia.
Qed.

(** *** The swaps reverse a range *)

Lemma swap_lookup {A} (l : list A) a b m : (a < length l)%nat -> (b < length l)%nat ->
  swap l a b !! m = if decide (m = a) then l !! b else if decide (m = b) then l !! a else l !! m.
Proof.
  intros Ha Hb. unfold swap.
  destruct (lookup_lt_is_Some_2 l a Ha) as [x Hx]. destruct (lookup_lt_is_Some_2 l b Hb) as [y Hy].
  rewrite Hx, Hy. destruct (decide (m = a)) as [->|Hma].
  - by rewrite list_lookup_insert_eq by (by rewrite length_insert).
  - rewrite list_lookup_insert_ne by done. destruct (decide (m = b)) as [->|Hmb].
    + by rewrite list_lookup_insert_eq.
    + by rewrite list_lookup_insert_ne.
Qed.

Lemma length_swap {A} (l : list A) a b : length (swap l a b) = length l.
Proof. unfold swap. destruct (l !! a), (l !! b); by rewrite ?length_insert. Qed.

Lemma reverse_loop_lookup {A} begin i k j (l : list A) m :
  (i <= length l)%nat -> (2 * (j + k) <= i - begin)%nat ->
  reverse_loop begin i k j l !! m =
  if decide ((begin + j <= m < begin + j + k) \/ (i - j - k <= m < i - j))%nat
  then l !! (begin + i - 1 - m)%nat else l !! m.
Proof.
  revert j l. induction k as [|k IH]; intros j l Hi Hk; cbn [reverse_loop].
  { rewrite decide_False by lia. done. }
  rewrite IH by (rewrite ?length_swap; lia). rewrite !swap_lookup by lia.
  repeat destruct (decide _); try lia; try done; f_equal; lia.
Qed.

Lemma reverse_range_spec {A} begin i (pre cur rest : list A) :
  length pre = begin -> length (pre ++ cur) = i ->
  reverse_range begin i (pre ++ cur ++ rest) = pre ++ reverse cur ++ rest.
Proof.
  intros Hb Hi. rewrite length_app in Hi. apply list_eq. intros m. unfold reverse_range.
  pose proof (Nat.div_mod_eq (i - begin) 2) as Hdm.
  pose proof (Nat.mod_upper_bound (i - begin) 2 ltac:(lia)) as Hmod.
  rewrite reverse_loop_lookup by (rewrite ?length_app; lia).
  destruct (decide (m < begin)%nat) as [H1|H1].
  { rewrite decide_False by lia. by rewrite !lookup_app_l by lia. }
  rewrite (lookup_app_r pre (reverse cur ++ rest)) by lia.
  destruct (decide (m < i)%nat) as [H2|H2].
  - rewrite (lookup_app_l (reverse cur)) by (rewrite length_reverse; lia).
    rewrite reverse_lookup by lia. destruct (decide _) as [H3|H3].
    + rewrite lookup_app_r, lookup_app_l by lia. f_equal. lia.
    + rewrite lookup_app_r, lookup_app_l by lia. f_equal. lia.
  - rewrite decide_False by lia. rewrite lookup_app_r by lia.
    rewrite !lookup_app_r by (rewrite ?length_reverse; lia). by rewrite length_reverse.
Qed.

(** Every run of one type reversed. *)
Fixpoint rev_runs (typ : string) (cur rest : list Which) : list Which :=
  match rest with
  | [] => reverse cur
  | w :: rest =>
    if String.eqb (TYPE (w_NodeRef w)) typ then rev_runs typ (cur ++ [w]) rest
    else reverse cur ++ rev_runs (TYPE (w_NodeRef w)) [w] rest
  end.

Definition finish_runs (p : nat * list Which) : list Which :=
  let '(begin, l) := p in
  if Z.of_nat begin <? Z.of_nat (length l) - 1 then reverse_range begin (length l) l else l.

Lemma reverse_short {A} (l : list A) : (length l <= 1)%nat -> reverse l = l.
Proof. destruct l as [|x [|y l]]; cbn; try done. lia. Qed.

Lemma reverse_runs_spec pre cur rest typ :
  typ <> ""%string -> Forall (fun w => TYPE (w_NodeRef w) <> ""%string) rest ->
  finish_runs (reverse_runs (length rest) (length (pre ++ cur)) (length pre) typ (pre ++ cur ++ rest)) =
  pre ++ rev_runs typ cur rest.
Proof.
  revert pre cur typ. induction rest as [|w rest IH]; intros pre cur typ Htyp Hne.
  - cbn [length reverse_runs finish_runs rev_runs]. rewrite !app_nil_r, !length_app.
    destruct (Z.ltb_spec (Z.of_nat (length pre)) (Z.of_nat (length pre + length cur) - 1)).
    + rewrite <-(app_nil_r cur) at 2. rewrite (reverse_range_spec _ _ pre cur []) by (by rewrite ?length_app).
      by rewrite app_nil_r.
    + rewrite reverse_short by lia. done.
  - apply Forall_cons in Hne as [Hw Hne]. cbn [length reverse_runs rev_runs].
    rewrite (proj2 (String.eqb_neq typ "")) by done.
    assert (Hl : (pre ++ cur ++ w :: rest) !! length (pre ++ cur) = Some w).
    { rewrite app_assoc. by apply list_lookup_middle. }
    rewrite Hl. destruct (String.eqb_spec (TYPE (w_NodeRef w)) typ) as [He|He]; cbn [negb].
    + rewrite <-(IH pre (cur ++ [w]) typ) by done.
      rewrite !length_app, <-!app_assoc. cbn [length app]. f_equal. f_equal. lia.
    + rewrite (reverse_range_spec _ _ pre cur (w :: rest)) by done.
      assert (Hl' : (pre ++ reverse cur ++ w :: rest) !! length (pre ++ cur) = Some w).
      { rewrite app_assoc. apply list_lookup_middle. by rewrite !length_app, length_reverse. }
      rewrite Hl'. specialize (IH (pre ++ reverse cur) [w] (TYPE (w_NodeRef w)) Hw Hne).
      rewrite <-!app_assoc in IH. rewrite <-IH. cbn [app].
      f_equal. f_equal; rewrite !length_app, !length_reverse; cbn; lia.
Qed.

Lemma known_nonempty w : known_type w -> TYPE (w_NodeRef w) <> ""%string.
Proof. unfold known_type. by intros [->|[->| ->]]. Qed.

Lemma SortSameTypeReverse_runs ws : Forall known_type ws ->
  SortSameTypeReverse ws =
  match Whiches_Sort ws with [] => [] | w :: rest => rev_runs (TYPE (w_NodeRef w)) [w] rest end.
Proof.
  intros Hk. unfold SortSameTypeReverse. fold (finish_runs (reverse_runs (length (Whiches_Sort ws)) 0 0 "" (Whiches_Sort ws))).
  assert (Hk' : Forall known_type (Whiches_Sort ws)) by (unfold Whiches_Sort; by rewrite sort_by_perm).
  destruct (Whiches_Sort ws) as [|w rest]; [done|].
  apply Forall_cons in Hk' as [Hw Hr]. apply known_nonempty in Hw.
  pose proof (reverse_runs_spec [] [w] rest (TYPE (w_NodeRef w)) Hw) as H. cbn [app length] in H.
  cbn [length reverse_runs]. change (String.eqb "" "") with true. cbn iota.
  change ((w :: rest) !! 0%nat) with (Some w). cbn iota. rewrite String.eqb_refl. cbn [negb]. apply H.
  apply (Forall_impl _ _ _ Hr). intros x. apply known_nonempty.
Qed.

Definition of_type (T : string) (l : list Which) : list Which :=
  filter (fun w => TYPE (w_NodeRef w) = T) l.

Lemma of_type_app T l1 l2 : of_type T (l1 ++ l2) = of_type T l1 ++ of_type T l2.
Proof. apply filter_app. Qed.

Lemma of_type_reverse T l : of_type T (reverse l) = reverse (of_type T l).
Proof.
  induction l as [|x l IH]; [done|]. rewrite reverse_cons, of_type_app, IH. unfold of_type.
  rewrite !filter_cons. destruct (decide _); [by rewrite reverse_cons|by rewrite app_nil_r].
Qed.

Lemma not_after_quantify a b : known_type a -> known_type b -> not_after Less a b ->
  quantifyType (TYPE (w_NodeRef a)) <= quantifyType (TYPE (w_NodeRef b)).
Proof.
  intros Ha Hb. unfold not_after. rewrite <-not_true_iff_false, Less_lex by done. unfold lex_lt, touch_key. cbn. lia.
Qed.

(** A new type never returns to an earlier one. *)
Lemma other_type_gone c w rest typ : known_type c -> known_type w -> Forall known_type rest ->
  TYPE (w_NodeRef c) = typ -> TYPE (w_NodeRef w) <> typ -> not_after Less c w ->
  Forall (not_after Less w) rest -> of_type typ (w :: rest) = [].
Proof.
  intros Hc Hw Hk Hct Hwt Hcw Hrest. apply filter_none. intros x Hx Hxt.
  assert (Hwx : quantifyType (TYPE (w_NodeRef w)) <= quantifyType (TYPE (w_NodeRef x)) /\ known_type x).
  { apply elem_of_cons in Hx as [->|Hx]; [split; [lia|done]|]. rewrite Forall_forall in Hk, Hrest.
    split; [apply not_after_quantify|]; auto. }
  destruct Hwx as [Hwx Hkx]. apply (not_after_quantify c w Hc Hw) in Hcw.
  apply Hwt. rewrite <-Hct. apply (quantify_inj w c Hw Hc).
  assert (Hxc : quantifyType (TYPE (w_NodeRef x)) = quantifyType (TYPE (w_NodeRef c))) by congruence. lia.
Qed.

Lemma rev_runs_filter T typ cur rest : Forall known_type (cur ++ rest) ->
  Forall (fun w => TYPE (w_NodeRef w) = typ) cur -> StronglySorted (not_after Less) (cur ++ rest) ->
  of_type T (rev_runs typ cur rest) = reverse (of_type T (cur ++ rest)).
Proof.
  revert typ cur. induction rest as [|w rest IH]; intros typ cur Hk Ht Hs; cbn [rev_runs].
  { by rewrite app_nil_r, of_type_reverse. }
  assert (Happ : cur ++ w :: rest = (cur ++ [w]) ++ rest) by (by rewrite <-app_assoc).
  destruct (String.eqb_spec (TYPE (w_NodeRef w)) typ) as [He|He].
  - rewrite Happ in Hk, Hs |- *. apply IH; [done| |done]. apply Forall_app. split; [done|]. by constructor.
  - apply Forall_app in Hk as [Hk1 Hk2]. pose proof (StronglySorted_app_1_r _ _ _ Hs) as Hs2.
    rewrite of_type_app, of_type_reverse, (IH (TYPE (w_NodeRef w)) [w]) by (try done; by repeat constructor).
    cbn [app]. rewrite of_type_app, reverse_app. destruct (decide (T = typ)) as [->|HT].
    + destruct cur as [|c cur]; [symmetry; apply app_nil_r|].
      rewrite (other_type_gone c w rest typ); [apply app_nil_r|..]; try done.
      * by apply Forall_cons in Hk1 as [? _].
      * by apply Forall_cons in Hk2 as [? _].
      * by apply Forall_cons in Hk2 as [_ ?].
      * by apply Forall_cons in Ht as [? _].
      * apply (StronglySorted_app_1_elem_of _ _ _ _ _ Hs); left.
      * by apply StronglySorted_cons in Hs2 as [? _].
    + assert (Hc : of_type T cur = []).
      { apply filter_none. intros x Hx HxT. rewrite Forall_forall in Ht. apply HT. by rewrite <-HxT, (Ht x Hx). }
      rewrite Hc. symmetry. apply app_nil_r.
Qed.

Lemma touches_of_type T ws : Forall known_type ws ->
  of_type T (SortSameTypeReverse ws) = reverse (of_type T (Whiches_Sort ws)).
Proof.
  intros Hk. rewrite SortSameTypeReverse_runs by done. pose proof (Whiches_Sort_sorted ws Hk) as Hs.
  assert (Hk' : Forall known_type (Whiches_Sort ws)) by (unfold Whiches_Sort; by rewrite sort_by_perm).
  destruct (Whiches_Sort ws) as [|w rest]; [done|].
  rewrite (rev_runs_filter T (TYPE (w_NodeRef w)) [w] rest) by (try done; by repeat constructor). done.
Qed.

(** ** The moves add up *)

(** The new position after deletions at [ds], one after the other. *)
Definition shift_one (d c : Z) : option Z := if d =? c then None else if d <? c then Some (c - 1) else Some c.
Definition shift (ds : list Z) (c : Z) : option Z := foldl (fun o d => o ≫= shift_one d) (Some c) ds.

Lemma shift_none ds : foldl (fun o d => o ≫= shift_one d) None ds = None.
Proof. induction ds as [|d ds IH]; [done|]. by cbn. Qed.

Lemma shift_cons d ds c : shift (d :: ds) c = shift_one d c ≫= shift ds.
Proof. unfold shift. cbn [foldl]. cbn [mbind option_bind]. destruct (shift_one d c); [done|]. apply shift_none. Qed.

Definition below (ds : list Z) (c : Z) : Z := Z.of_nat (length (filter (fun d => d < c) ds)).

(** From the largest to the smallest, the moves are the number of deletions
    below. *)
Lemma shift_decreasing ds c : StronglySorted Z.gt ds ->
  shift ds c = if decide (c ∈ ds) then None else Some (c - below ds c).
Proof.
  revert c. induction ds as [|d ds IH]; intros c Hs.
  { rewrite decide_False by apply not_elem_of_nil. unfold shift, below. cbn. f_equal. lia. }
  apply StronglySorted_cons in Hs as [Hd Hs]. rewrite shift_cons. unfold shift_one.
  destruct (Z.eqb_spec d c) as [->|Hne]; [by rewrite decide_True by left|].
  unfold below. rewrite filter_cons. destruct (Z.ltb_spec d c) as [Hlt|Hge].
  - assert (Hall : forall x, x ∈ ds -> x < d) by (rewrite Forall_forall in Hd; intros x Hx; specialize (Hd x Hx); lia).
    cbn [mbind option_bind]. rewrite IH by done.
    rewrite decide_False by (intros H; specialize (Hall _ H); lia).
    rewrite decide_False by (intros [?|H]%elem_of_cons; [lia|specialize (Hall _ H); lia]).
    rewrite decide_True by done. cbn [length]. f_equal. unfold below.
    rewrite !filter_all by (intros x Hx; specialize (Hall x Hx); lia). lia.
  - cbn [mbind option_bind]. rewrite IH by done. rewrite (decide_False (P := d < c)) by lia. fold (below ds c).
    destruct (decide (c ∈ ds)) as [Hin|Hin].
    + by rewrite decide_True by (by right).
    + rewrite decide_False by (intros [?|?]%elem_of_cons; congruence). done.
Qed.

Definition ids_of (T : string) (touches : list Which) : list Z :=
  map (fun w => ID (w_NodeRef w)) (of_type T touches).

Lemma ids_of_cons T w touches :
  ids_of T (w :: touches) =
  if decide (TYPE (w_NodeRef w) = T) then ID (w_NodeRef w) :: ids_of T touches else ids_of T touches.
Proof. unfold ids_of, of_type. rewrite filter_cons. by destruct (decide _). Qed.

Lemma survive_server touches cs : TYPE cs = ServerType ->
  survive touches cs = with_id cs <$> shift (ids_of ServerType touches) (ID cs).
Proof.
  revert cs. induction touches as [|v touches IH]; intros cs Ht.
  { cbn. by destruct cs. }
  rewrite survive_cons, ids_of_cons. unfold apply_verdict, visit_touch.
  destruct (String.eqb_spec (TYPE (w_NodeRef v)) SubscriptionType) as [He|He].
  - rewrite He, decide_False by done. unfold visit_subscription. rewrite Ht. cbn. by apply IH.
  - destruct (String.eqb_spec (TYPE (w_NodeRef v)) ServerType) as [He'|He'].
    + rewrite decide_True by done. rewrite shift_cons. unfold visit_server, shift_one.
      rewrite Ht, String.eqb_refl.
      destruct (ID (w_NodeRef v) =? ID cs); [done|]. destruct (ID (w_NodeRef v) <? ID cs); cbn [mbind option_bind].
      * rewrite IH by done. cbn [ID with_id]. by destruct (shift _ _).
      * by apply IH.
    + rewrite decide_False by done. cbn. by apply IH.
Qed.

Lemma survive_sub_server touches cs : TYPE cs = SubscriptionServerType ->
  survive touches cs =
  with_sub cs <$> shift (map (fun n => n - 1) (ids_of SubscriptionType touches)) (Sub cs).
Proof.
  revert cs. induction touches as [|v touches IH]; intros cs Ht.
  { cbn. by destruct cs. }
  rewrite survive_cons, ids_of_cons. unfold apply_verdict, visit_touch.
  destruct (String.eqb_spec (TYPE (w_NodeRef v)) SubscriptionType) as [He|He].
  - rewrite decide_True by done. cbn [map]. rewrite shift_cons. unfold visit_subscription, shift_one.
    rewrite Ht, String.eqb_refl.
    destruct (ID (w_NodeRef v) - 1 =? Sub cs); [done|].
    destruct (ID (w_NodeRef v) - 1 <? Sub cs); cbn [mbind option_bind].
    + rewrite IH by done. cbn [Sub with_sub]. by destruct (shift _ _).
    + by apply IH.
  - rewrite decide_False by done.
    destruct (String.eqb_spec (TYPE (w_NodeRef v)) ServerType) as [He'|He'].
    + unfold visit_server. rewrite Ht. cbn. by apply IH.
    + cbn. by apply IH.
Qed.

Lemma survive_other touches cs : TYPE cs <> ServerType -> TYPE cs <> SubscriptionServerType ->
  survive touches cs = Some cs.
Proof.
  intros H1 H2. induction touches as [|v touches IH]; [done|].
  rewrite survive_cons. unfold apply_verdict, visit_touch, visit_subscription, visit_server.
  rewrite (proj2 (String.eqb_neq _ _) H1), (proj2 (String.eqb_neq _ _) H2).
  destruct (String.eqb _ SubscriptionType); [done|]. by destruct (String.eqb _ ServerType).
Qed.

(** ** Positions after a removal *)

Lemma below_split (idx : list Z) k i : NoDup idx -> k < i ->
  length (filter (fun x => k <= x < i) idx) =
  ((if decide (k ∈ idx) then 1 else 0) + length (filter (fun x => k + 1 <= x < i)%Z idx))%nat.
Proof.
  intros Hn Hk. induction Hn as [|x idx Hx Hn IH].
  { by rewrite decide_False by apply not_elem_of_nil. }
  rewrite !filter_cons. destruct (decide (x = k)) as [->|Hne].
  - rewrite (decide_True (P := k <= k < i)) by lia. rewrite (decide_False (P := k + 1 <= k < i)) by lia.
    rewrite (decide_True (P := k ∈ k :: idx)) by left. cbn [length]. rewrite IH. by rewrite decide_False.
  - destruct (decide (k ∈ idx)) as [Hin|Hin].
    + rewrite (decide_True (P := k ∈ x :: idx)) by (by right).
      destruct (decide (k <= x < i)), (decide (k + 1 <= x < i)); cbn [length]; lia.
    + rewrite (decide_False (P := k ∈ x :: idx)) by (intros [?|?]%elem_of_cons; congruence).
      destruct (decide (k <= x < i)), (decide (k + 1 <= x < i)); cbn [length]; lia.
Qed.

Lemma remove_from_lookup {B} (l : list B) idx k i : NoDup idx -> k <= i -> i ∉ idx ->
  remove_from k idx l !! (Z.to_nat (i - k) - length (filter (fun x => k <= x < i)%Z idx))%nat =
  l !! Z.to_nat (i - k).
Proof.
  intros Hn. revert k. induction l as [|x l IH]; intros k Hk Hi; [done|]. cbn [remove_from].
  destruct (decide (k = i)) as [->|Hne].
  - rewrite decide_False by done. rewrite Z.sub_diag, filter_none by (intros; lia). done.
  - rewrite below_split by (done || lia).
    assert (Hle : (length (filter (fun x => k + 1 <= x < i)%Z idx) <= Z.to_nat (i - (k + 1)))%nat).
    { apply Nat.le_trans with (length (seqZ (k + 1) (i - (k + 1)))); [|by rewrite length_seqZ].
      apply submseteq_length, NoDup_submseteq; [by apply NoDup_filter|].
      intros y [Hy _]%list_elem_of_filter. apply elem_of_seqZ. lia. }
    replace (Z.to_nat (i - k)) with (S (Z.to_nat (i - (k + 1)))) by lia.
    destruct (decide (k ∈ idx)) as [Hin|Hin].
    + replace (_ - _)%nat with (Z.to_nat (i - (k + 1)) - length (filter (fun x => k + 1 <= x < i)%Z idx))%nat by lia.
      rewrite IH by (done || lia). done.
    + replace (_ - _)%nat with (S (Z.to_nat (i - (k + 1)) - length (filter (fun x => k + 1 <= x < i)%Z idx)))%nat by lia.
      cbn. rewrite IH by (done || lia). done.
Qed.

(** An element that is not removed is found at its position less the removed
    ones before it. *)
Lemma remove_at_lookup {B} (l : list B) idx i : NoDup idx -> Forall (Z.le 0) idx -> 0 <= i -> i ∉ idx ->
  at_index (remove_at idx l) (i - below idx i) = at_index l i.
Proof.
  intros Hn H0 Hi Hnot. pose proof (remove_from_lookup l idx 0 i Hn Hi Hnot) as H.
  rewrite Z.sub_0_r in H.
  assert (Hf : filter (fun x => 0 <= x < i) idx = filter (fun x => x < i) idx).
  { apply filter_ext_in. intros x Hx. rewrite Forall_forall in H0. specialize (H0 x Hx). lia. }
  rewrite Hf in H. unfold at_index, below.
  assert (Hle : (length (filter (fun x => x < i)%Z idx) <= Z.to_nat i)%nat).
  { apply Nat.le_trans with (length (seqZ 0 i)); [|by rewrite length_seqZ].
    apply submseteq_length, NoDup_submseteq; [by apply NoDup_filter|].
    intros y [Hy Hy']%list_elem_of_filter. rewrite Forall_forall in H0. specialize (H0 y Hy').
    apply elem_of_seqZ. lia. }
  rewrite !(proj2 (Z.ltb_ge _ _)) by lia. unfold remove_at. rewrite <-H. f_equal. lia.
Qed.
