(* ===== verification/ConfigureProps.v ===== *)
(** * What the stored configuration promises (service/db/configure)

    The groups and their connected lists as functions of the tables, and the
    reads and writes of configure.go against them. *)

From stdpp Require Import sorting.
From S2P Require Import Prelude.
From S2P Require Import Store StoreLists StoreProps NodeRefs Configure.
From S2P Require Import Catalog DeleteProps.

#[local] Open Scope Z_scope.
#[local] Open Scope go_scope.

(** What the encodings promise: a list of references, written, reads back, and
    [null] reads as an empty list; a subscription can be written; the setting of a
    group, written, reads back. *)
Class EncodingLaws `(E : Encodings) : Prop := {
  refs_roundtrip : forall refs : NodeRefs, exists d, Marshal refs = Ok d /\ Unmarshal d = Ok refs;
  sub_marshals : forall sub : SubscriptionRaw, exists d, Marshal sub = Ok d;
  nil_is_empty : exists d, Marshal tt = Ok d /\ Unmarshal d = Ok (mkNodeRefs []);
  setting_roundtrip : forall st : OutboundSetting, exists d, Marshal st = Ok d /\ Unmarshal d = Ok st;
}.

(** ** Keys *)

Lemma s_app_inj_tail p q t : p +:+ t = q +:+ t -> p = q.
Proof. intros H. apply (f_equal (fun s => TrimSuffix s t)) in H. by rewrite !TrimSuffix_app in H. Qed.

Lemma s_app_inj_head p q t : t +:+ p = t +:+ q -> p = q.
Proof. intros H. apply (f_equal (fun s => TrimPrefix s t)) in H. by rewrite !TrimPrefix_app in H. Qed.

Definition group_key (g : string) : string := makeKey (outbound_bucket g) connected_key.

Lemma group_key_inj g h : group_key g = group_key h -> g = h.
Proof.
  unfold group_key, makeKey, outbound_bucket. intros H. apply s_app_inj_tail in H. by apply s_app_inj_head in H.
Qed.

Lemma outbound_not_accounts g : String.eqb (outbound_bucket g) "accounts" = false.
Proof. apply String.eqb_neq. unfold outbound_bucket. rewrite s_app_cons. done. Qed.

Section ConfigureProps.
Context `{J : Json} `{O : ServerObjs} `{E : !Encodings} `{JL : !JsonLaws J} `{EL : !EncodingLaws E}.

(** ** The groups of a state *)

Definition group_names (t : tables) : list string :=
  "proxy"%string :: sort_strings (filter (fun m => m <> "proxy"%string)
                                    (map fst (order_by snd (t_outbound_names t)))).

Definition stored (t : tables) (g : string) : option NodeRefs :=
  d ← t_system_config t !! group_key g;
  match Unmarshal d with Ok w => Some w | Err _ => None end.

Definition refs_of (t : tables) (g : string) : list NodeRef := NodeRefs_Get (stored t g).
Definition connected (t : tables) : list NodeRef := concat (map (refs_of t) (group_names t)).

(** Group names are distinct and not empty, and the references of a group name
    it. *)
Record groups_ok (t : tables) : Prop := {
  groups_distinct : NoDup (map fst (t_outbound_names t));
  groups_named : ""%string ∉ map fst (t_outbound_names t);
  groups_refs : forall g, g ∈ group_names t -> Forall (fun r => Outbound r = g) (refs_of t g);
}.

(** A read without failing statements. *)
Definition reads {A} (c : DB A) (t : tables) (a : A) : Prop :=
  wp false c t (fun r t' => r = Ok a /\ t' = t).

Lemma reads_bind {A B} (c : DB A) (k : A -> DB B) t a Q :
  reads c t a -> wp false (k a) t Q -> wp false (db_bind c k) t Q.
Proof. intros Hc Hk. wp_step. eapply wp_mono; [apply Hc|]. by intros r t' [-> ->]. Qed.

Lemma reads_GetOutbounds t : reads GetOutbounds t (group_names t).
Proof.
  unfold reads, GetOutbounds, StringSetGetAll, SetMembers.
  change (names_key "outbounds" "names") with true. cbn iota.
  do 4 wp_step. done.
Qed.

Lemma reads_db_Get {V} `{!GoJson V} g k t (a : result V) :
  a = match t_system_config t !! makeKey (outbound_bucket g) k with
      | Some d => Unmarshal d
      | None => Err (Errorf "Get: key is not found" [])
      end ->
  reads (db_try (db_Get (outbound_bucket g) k)) t a.
Proof.
  intros ->. unfold reads, db_Get, find_value, select_value. rewrite outbound_not_accounts.
  do 4 wp_step.
  destruct (t_system_config t !! _) as [d|]; wp_step; by wp_step.
Qed.

Lemma reads_connected_by t g : reads (GetConnectedServersByOutbound g) t (stored t (or_proxy g)).
Proof.
  unfold reads, GetConnectedServersByOutbound. eapply reads_bind; [by apply reads_db_Get|]. wp_step.
  split; [|done]. f_equal. unfold stored. fold (group_key (or_proxy g)).
  by destruct (t_system_config t !! group_key (or_proxy g)).
Qed.

Lemma reads_gather t outs wts : ""%string ∉ outs ->
  wp false (gather_connected outs wts) t (fun r t' => t' = t /\
    exists w, r = Ok w /\ NodeRefs_Get w = NodeRefs_Get wts ++ concat (map (refs_of t) outs)).
Proof.
  revert wts. induction outs as [|g outs IH]; intros wts Hne; cbn [gather_connected].
  { wp_step. split; [done|]. exists wts. split; [done|]. by rewrite app_nil_r. }
  apply not_elem_of_cons in Hne as [Hg Hne].
  eapply reads_bind; [apply reads_connected_by|]. eapply wp_mono; [by apply IH|].
  intros r t' (-> & w & -> & Hw). split; [done|]. exists w. split; [done|]. rewrite Hw.
  assert (Hor : or_proxy g = g) by (unfold or_proxy; by rewrite (proj2 (String.eqb_neq _ _)) by done).
  rewrite Hor. cbn [map concat]. rewrite app_assoc. f_equal. unfold refs_of.
  destruct (stored t g) as [ws|]; cbn; [|by rewrite app_nil_r].
  by destruct wts.
Qed.

Lemma group_names_perm t : group_names t ≡ₚ
  "proxy"%string :: filter (fun m => m <> "proxy"%string) (map fst (order_by snd (t_outbound_names t))).
Proof. unfold group_names, sort_strings. by rewrite sort_by_perm. Qed.

Lemma insert_by_perm {A} (key : A -> Z) x l : insert_by key x l ≡ₚ x :: l.
Proof.
  induction l as [|y l IH]; [done|]. cbn [insert_by]. destruct (key x <=? key y); [done|].
  rewrite IH. by constructor.
Qed.

Lemma order_by_perm {A} (key : A -> Z) l : order_by key l ≡ₚ l.
Proof.
  induction l as [|x l IH]; [done|]. unfold order_by in *. cbn [foldr]. rewrite insert_by_perm. by constructor.
Qed.

Lemma group_names_nodup t : groups_ok t -> NoDup (group_names t).
Proof.
  intros H. rewrite group_names_perm. constructor; [by intros [? _]%list_elem_of_filter|].
  apply NoDup_filter. rewrite (Permutation_map fst (order_by_perm snd (t_outbound_names t))). apply H.
Qed.

Lemma group_names_nonempty t : groups_ok t -> ""%string ∉ group_names t.
Proof.
  intros H. rewrite group_names_perm. intros [?|[_ Hin]%list_elem_of_filter]%elem_of_cons; [done|].
  apply (groups_named _ H). by rewrite (Permutation_map fst (order_by_perm snd (t_outbound_names t))) in Hin.
Qed.

Lemma reads_GetConnectedServers t : groups_ok t ->
  wp false GetConnectedServers t (fun r t' => t' = t /\
    exists w, r = Ok w /\ NodeRefs_Get w = connected t).
Proof.
  intros Hg. unfold GetConnectedServers. eapply reads_bind; [apply reads_GetOutbounds|].
  wp_step. eapply wp_mono; [apply reads_gather; by apply group_names_nonempty|].
  intros r t' (-> & w & -> & Hw). wp_step. split; [done|]. eexists. split; [done|].
  unfold connected. cbn [NodeRefs_Get app] in Hw. rewrite <-Hw. destruct w as [w|]; [|done].
  cbn [NodeRefs_Len]. destruct (Z.eqb_spec (Z.of_nat (length (Touches w))) 0) as [H0|H0]; [|done].
  cbn. destruct (Touches w); [done|]. cbn in H0. lia.
Qed.

(** ** Grouping *)

Definition with_out (g : string) (ws : list NodeRef) : list NodeRef := filter (fun w => Outbound w = g) ws.

Lemma group_fold_lookup ws (m : gmap string NodeRefs) g :
  foldl (fun out w => <[Outbound w := NodeRefs_Add (default (mkNodeRefs []) (out !! Outbound w)) w]> out) m ws !! g =
  match with_out g ws with
  | [] => m !! g
  | l => Some (mkNodeRefs (NodeRefs_Get (m !! g) ++ l))
  end.
Proof.
  revert m. induction ws as [|w ws IH]; intros m; [done|]. cbn [foldl]. rewrite IH.
  unfold with_out at 2. rewrite filter_cons. fold (with_out g ws).
  destruct (decide (Outbound w = g)) as [<-|Hne].
  - rewrite lookup_insert_eq. unfold NodeRefs_Add. cbn [NodeRefs_Get Touches].
    destruct (m !! Outbound w) as [[l]|]; cbn [default NodeRefs_Get Touches app];
      destruct (with_out (Outbound w) ws); cbn [app]; by rewrite <-?app_assoc.
  - by rewrite lookup_insert_ne.
Qed.

Lemma byOutbound_lookup ws g :
  byOutbound ws !! g = match with_out g ws with [] => None | l => Some (mkNodeRefs l) end.
Proof. unfold byOutbound. rewrite group_fold_lookup, lookup_empty. done. Qed.

Lemma with_empty_lookup outs (m : gmap string NodeRefs) g :
  with_empty_groups outs m !! g =
  match m !! g with
  | Some x => Some x
  | None => if decide (g ∈ outs) then Some (mkNodeRefs []) else None
  end.
Proof.
  unfold with_empty_groups. revert m. induction outs as [|o outs IH]; intros m; cbn [foldl].
  { destruct (m !! g); [done|]. by rewrite decide_False by apply not_elem_of_nil. }
  rewrite IH. destruct (decide (g = o)) as [->|Hne].
  - destruct (m !! o) as [x|] eqn:Hm; [by rewrite Hm|]. rewrite lookup_insert_eq.
    by rewrite decide_True by left.
  - assert (Hl : match m !! o with None => <[o := NewNodeRefs []]> m | Some _ => m end !! g = m !! g).
    { destruct (m !! o); [done|]. by rewrite lookup_insert_ne. }
    rewrite Hl. destruct (m !! g); [done|].
    destruct (decide (g ∈ outs)) as [Hin|Hin].
    + by rewrite decide_True by (by right).
    + by rewrite decide_False by (intros [?|?]%elem_of_cons; congruence).
Qed.

(** ** Writing the lists *)

(** After writing [groups], their lists read back and every other key is as
    before. *)
Definition written (groups : list (string * NodeRefs)) (m m' : gmap string doc) : Prop :=
  (forall g refs, (g, refs) ∈ groups -> exists d, m' !! group_key g = Some d /\ Unmarshal d = Ok refs) /\
  (forall k, (forall g, g ∈ map fst groups -> k <> group_key g) -> m' !! k = m !! k).

Lemma write_lists_spec groups t : NoDup (map fst groups) ->
  exists m, written groups (t_system_config t) m /\
    forall F, writes_config F (write_lists groups) t (Some m).
Proof.
  revert t. induction groups as [|[g refs] groups IH]; intros t Hn; cbn [write_lists].
  { exists (t_system_config t). split; [split; [by intros ? ? ?%elem_of_nil|done]|].
    intros F. apply writes_nothing. }
  cbn [map fst] in Hn. apply NoDup_cons in Hn as [Hg Hn].
  destruct (refs_roundtrip refs) as (d & Hm & Hu).
  set (t1 := with_system_config t (<[group_key g := d]> (t_system_config t))).
  destruct (IH t1 Hn) as (m & [Hw1 Hw2] & Hw). exists m. split; [split|].
  - intros g' refs' [[= -> ->]|Hin]%elem_of_cons; [|by apply Hw1]. exists d. split; [|done].
    rewrite Hw2; [apply lookup_insert_eq|]. intros h Hh He. apply group_key_inj in He. congruence.
  - intros k Hk. rewrite Hw2 by (intros h Hh; apply Hk; cbn; by right). cbn.
    apply lookup_insert_ne. apply not_eq_sym, Hk. cbn. by left.
  - intros F. unfold writes_config, db_Set. do 3 wp_step. rewrite Hm. wp_step; [by left|].
    eapply wp_mono; [apply (Hw F)|]. intros [u|e] t' H; [|done]. destruct H as (m' & [= <-] & ->).
    by exists m.
Qed.

End ConfigureProps.
