(* ===== verification/CatalogRef.v ===== *)
(** * Concrete nodes, encodings and core

    Instances of the classes of the catalogue on the JSON trees of [JsonRef],
    with their laws, for the examples of the theorems. *)

From S2P Require Import Prelude.
From S2P Require Import Store NodeRefs Configure Catalog ConfigureProps JsonRef.

#[local] Open Scope Z_scope.

Module CatalogRef.
Import JsonRef.

Record node := mkNode { n_url : string; n_protocol : string; n_host : string; n_port : Z; n_name : string }.

#[export] Instance nodes_ref : ServerObjs := {
  ServerObj := node;
  ExportToURL := n_url;
  GetProtocol := n_protocol;
  GetHostname := n_host;
  GetPort := n_port;
  GetName := n_name;
  serverObj_New _ := Ok (mkNode "" "" "" 0 "");
}.

Definition node_json (n : node) : jval :=
  JObj [("url", JStr (n_url n)); ("protocol", JStr (n_protocol n)); ("host", JStr (n_host n));
        ("port", JInt (n_port n)); ("name", JStr (n_name n))]%string.
Definition json_node (d : jval) : node :=
  mkNode (as_string (field d "url")) (as_string (field d "protocol")) (as_string (field d "host"))
    (as_int (field d "port")) (as_string (field d "name")).

Definition server_json (s : ServerRaw) : jval :=
  JObj [("serverObj", node_json (sr_ServerObj s)); ("latency", JStr (sr_Latency s))]%string.
Definition json_server_raw (d : jval) : ServerRaw :=
  mkServerRaw (json_node (field d "serverObj")) (as_string (field d "latency")).

Definition ref_json (r : NodeRef) : jval :=
  JObj [("_type", JStr (TYPE r)); ("id", JInt (ID r)); ("sub", JInt (Sub r)); ("outbound", JStr (Outbound r))]%string.
Definition json_ref_of (d : jval) : NodeRef :=
  mkNodeRef (as_string (field d "_type")) (as_int (field d "id")) (as_int (field d "sub"))
    (as_string (field d "outbound")).

Definition refs_json (rs : NodeRefs) : jval := JObj [("touches", JArr (map ref_json (Touches rs)))]%string.
Definition json_refs_of (d : jval) : NodeRefs := mkNodeRefs (map json_ref_of (as_array (field d "touches"))).

Definition sub_json (s : SubscriptionRaw) : jval :=
  JObj [("databaseId", JInt (su_DatabaseID s)); ("updateMode", JStr (su_UpdateMode s));
        ("updateIntervalMinutes", JInt (su_UpdateIntervalMinutes s));
        ("failureIntervalMinutes", JInt (su_FailureIntervalMinutes s));
        ("allowDirectRecovery", JBool (su_AllowDirectRecovery s)); ("remarks", JStr (su_Remarks s));
        ("address", JStr (su_Address s)); ("status", JStr (su_Status s));
        ("servers", JArr (map server_json (su_Servers s))); ("info", JStr (su_Info s));
        ("autoSelect", JBool (su_AutoSelect s))]%string.
Definition json_sub (d : jval) : SubscriptionRaw :=
  mkSubscriptionRaw (as_int (field d "databaseId")) (as_string (field d "updateMode"))
    (as_int (field d "updateIntervalMinutes")) (as_int (field d "failureIntervalMinutes"))
    (as_bool (field d "allowDirectRecovery")) (as_string (field d "remarks")) (as_string (field d "address"))
    (as_string (field d "status")) (map json_server_raw (as_array (field d "servers")))
    (as_string (field d "info")) (as_bool (field d "autoSelect")).

Definition setting_json (s : OutboundSetting) : jval :=
  JObj [("autoAdd", JBool (AutoAdd s)); ("probeURL", JStr (ProbeURL s)); ("probeInterval", JStr (ProbeInterval s));
        ("type", JStr (os_Type s)); ("selected", JStr (os_Selected s)); ("stickyCurrent", JStr (StickyCurrent s))]%string.
Definition json_setting (d : jval) : OutboundSetting :=
  mkOutboundSetting (as_bool (field d "autoAdd")) (as_string (field d "probeURL"))
    (as_string (field d "probeInterval")) (as_string (field d "type")) (as_string (field d "selected"))
    (as_string (field d "stickyCurrent")).

Definition ok_json {A} (enc : A -> jval) (dec : jval -> A) : GoJson A :=
  {| Marshal x := Ok (enc x); Unmarshal d := Ok (dec d) |}.

#[export] Instance encodings_ref : Encodings := {
  json_servers := ok_json (fun l => JArr (map server_json l)) (fun d => map json_server_raw (as_array d));
  json_server := ok_json server_json json_server_raw;
  json_subscription := ok_json sub_json json_sub;
  json_refs := ok_json refs_json json_refs_of;
  json_nil := ok_json (fun _ => JNull) (fun _ => tt);
  json_outbound_setting := ok_json setting_json json_setting;
  json_string := ok_json JStr as_string;
  json_bool := ok_json JBool as_bool;
  json_subscriptions := ok_json (fun l => JArr (map sub_json l)) (fun d => map json_sub (as_array d));
  unmarshal_server _ d := Ok (json_server_raw d);
  unmarshal_subscription _ d := Ok (json_sub d);
  time_ParseDuration s := if String.eqb s "60s" then Ok (60 * Second) else Err (ExtErr "time: invalid duration");
}.

Lemma refs_json_inv rs : json_refs_of (refs_json rs) = rs.
Proof.
  destruct rs as [l]. unfold json_refs_of, refs_json. cbn. f_equal. rewrite map_map. etrans; [|apply map_id].
  apply map_ext. by intros [].
Qed.

#[export] Instance encodings_ref_laws : EncodingLaws encodings_ref.
Proof.
  split.
  - intros refs. exists (refs_json refs). split; [done|]. cbn. by rewrite refs_json_inv.
  - intros sub. by eexists.
  - by exists JNull.
  - intros [a u i ty se st]. by eexists.
Qed.

(** A core that runs, and accepts every configuration. *)
#[export] Instance kernel_ref : Kernel := {
  kernel := bool;
  k_running b := b;
  k_update s := (Ok tt, s);
  k_update_group s := (Ok tt, s);
  k_check_support _ := Ok tt;
  k_set_ip_forward k := k;
}.

#[export] Instance kernel_ref_laws : KernelLaws kernel_ref.
Proof. split; intros s r s' [= <- <-]; done. Qed.

End CatalogRef.
