(* ===== verification/CatalogProps.v ===== *)
(** * Deleting nodes keeps the other connections (service/server/service/touch.go)

    [DeleteWhich] removes what is asked and nothing else, and every connected
    node that stays is still found under its reference. *)

From stdpp Require Import sorting.
From S2P Require Import Prelude.
From S2P Require Import Store StoreLists StoreProps NodeRefs Configure.
From S2P Require Import Catalog DeleteProps ConfigureProps.
From S2P Require Import JsonRef CatalogRef.

#[local] Open Scope Z_scope.
#[local] Open Scope go_scope.

(** ** The touches that are deleted *)

Lemma StronglySorted_map {A} (R : relation A) (f : A -> Z) l :
  StronglySorted R l -> NoDup l ->
  (forall a b, a ∈ l -> b ∈ l -> a <> b -> R a b -> f a < f b) -> StronglySorted Z.lt (map f l).
Proof.
  induction l as [|a l IH]; intros Hs Hn Hf; [constructor|].
  apply StronglySorted_cons in Hs as [H1 H2]. apply NoDup_cons in Hn as [Hn1 Hn2].
  apply sorted_map_cons. split.
  - apply IH; auto. intros x y Hx Hy. apply Hf; by right.
  - rewrite Forall_forall in H1 |- *. intros b Hb. apply Hf; [by left|by right|by intros ->|auto].
Qed.

Lemma sorted_reverse l : StronglySorted Z.lt l -> StronglySorted Z.gt (reverse l).
Proof.
  induction l as [|x l IH]; intros H; [constructor|]. apply StronglySorted_cons in H as [H1 H2].
  rewrite reverse_cons. apply StronglySorted_app_2; [|by apply IH|by repeat constructor].
  intros a b Ha ->%list_elem_of_singleton. rewrite elem_of_reverse in Ha. rewrite Forall_forall in H1.
  specialize (H1 a Ha). lia.
Qed.

(** One touch per node, and no subscription index in a touch of a
    subscription. *)
Record plain_touches (data : list Which) : Prop := {
  pt_known : Forall known_type data;
  pt_nodup : NoDup (map w_NodeRef data);
  pt_once : forall a b, a ∈ data -> b ∈ data -> TYPE (w_NodeRef a) = TYPE (w_NodeRef b) ->
    TYPE (w_NodeRef a) <> SubscriptionServerType -> ID (w_NodeRef a) = ID (w_NodeRef b) ->
    w_NodeRef a = w_NodeRef b;
  pt_sub : forall a, a ∈ data -> TYPE (w_NodeRef a) = SubscriptionType -> Sub (w_NodeRef a) = 0;
}.

Lemma sorted_ids T data : plain_touches data -> T = ServerType \/ T = SubscriptionType ->
  StronglySorted Z.gt (ids_of T (SortSameTypeReverse data)).
Proof.
  intros [Hk Hn Ho Hs] HT. unfold ids_of. rewrite touches_of_type by done.
  change (map (fun w => ID (w_NodeRef w))) with (fmap (M := list) (fun w => ID (w_NodeRef w))).
  rewrite fmap_reverse. apply sorted_reverse.
  assert (Hin : forall a, a ∈ of_type T (Whiches_Sort data) -> a ∈ data /\ TYPE (w_NodeRef a) = T).
  { intros a [Ha Hin]%list_elem_of_filter. unfold Whiches_Sort in Hin. by rewrite sort_by_perm in Hin. }
  assert (Hnd : NoDup (of_type T (Whiches_Sort data))).
  { apply NoDup_filter. unfold Whiches_Sort. rewrite sort_by_perm.
    by apply (NoDup_fmap_1 w_NodeRef). }
  apply (StronglySorted_map (not_after Less)); [|done|].
  - pose proof (Whiches_Sort_sorted data Hk) as Hw.
    revert Hw. generalize (Whiches_Sort data). clear. intros l Hw. unfold of_type.
    induction l as [|a l IH]; [constructor|]. apply StronglySorted_cons in Hw as [H1 H2].
    rewrite filter_cons. destruct (decide _); [|by apply IH]. apply StronglySorted_cons.
    split; [|by apply IH]. by apply Forall_filter_sub.
  - intros a b Ha Hb Hab. apply Hin in Ha as [Ha HaT], Hb as [Hb HbT].
    rewrite Forall_forall in Hk. pose proof (Hk a Ha) as Hka. pose proof (Hk b Hb) as Hkb.
    unfold not_after. rewrite <-not_true_iff_false, Less_lex by done. unfold lex_lt, touch_key. cbn [fst snd].
    assert (Hne : ID (w_NodeRef a) <> ID (w_NodeRef b)).
    { intros He. apply Hab. assert (Href : w_NodeRef a = w_NodeRef b).
      { apply Ho; try done; [congruence|]. rewrite HaT. by destruct HT as [->| ->]. }
      apply list_elem_of_lookup_1 in Ha as [i Hi]. apply list_elem_of_lookup_1 in Hb as [j Hj].
      assert (i = j) as ->; [|congruence].
      apply (NoDup_lookup _ _ _ (w_NodeRef a) Hn).
      - by apply (list_lookup_fmap_Some_2 w_NodeRef).
      - rewrite Href. by apply (list_lookup_fmap_Some_2 w_NodeRef). }
    rewrite HaT, HbT. destruct HT as [->| ->].
    + rewrite String.eqb_refl. lia.
    + change (String.eqb SubscriptionType ServerType) with false. cbn iota.
      rewrite (Hs a Ha HaT), (Hs b Hb HbT). lia.
Qed.

Lemma ids_of_elem T data x : Forall known_type data ->
  x ∈ ids_of T (SortSameTypeReverse data) <->
  exists w, w ∈ data /\ TYPE (w_NodeRef w) = T /\ ID (w_NodeRef w) = x.
Proof.
  intros Hk. unfold ids_of. rewrite touches_of_type by done. rewrite list_elem_of_fmap.
  setoid_rewrite elem_of_reverse. unfold of_type. setoid_rewrite list_elem_of_filter.
  unfold Whiches_Sort. setoid_rewrite sort_by_perm. naive_solver.
Qed.

Lemma touched_indexes_ids T touches : touched_indexes T touches = map (fun n => n - 1) (ids_of T touches).
Proof.
  induction touches as [|v touches IH]; [done|]. rewrite ids_of_cons. unfold touched_indexes in *.
  cbn [omap list_omap]. destruct (String.eqb_spec (TYPE (w_NodeRef v)) T) as [He|He].
  - rewrite decide_True by done. cbn. by rewrite IH.
  - by rewrite decide_False by done.
Qed.

Lemma below_pred ds c : below (map (fun n => n - 1) ds) (c - 1) = below ds c.
Proof.
  unfold below. f_equal. induction ds as [|d ds IH]; [done|]. cbn [map]. rewrite !filter_cons.
  destruct (decide (d < c)); [rewrite decide_True by lia|rewrite decide_False by lia]; cbn [length]; by rewrite IH.
Qed.

Lemma pred_elem ds c : c - 1 ∈ map (fun n => n - 1) ds <-> c ∈ ds.
Proof.
  rewrite list_elem_of_fmap. split; [|by exists c]. intros (y & Hy & Hin).
  assert (y = c) as -> by lia. done.
Qed.

Lemma gt_pred ds : StronglySorted Z.gt ds -> StronglySorted Z.gt (map (fun n => n - 1) ds).
Proof.
  induction ds as [|d ds IH]; intros H; [constructor|]. apply StronglySorted_cons in H as [H1 H2].
  cbn [map]. apply StronglySorted_cons. split; [|by apply IH]. rewrite Forall_map.
  apply (Forall_impl _ _ _ H1). intros x Hx. lia.
Qed.

Lemma gt_nodup ds : StronglySorted Z.gt ds -> NoDup ds.
Proof.
  induction ds as [|d ds IH]; intros H; [constructor|]. apply StronglySorted_cons in H as [H1 H2].
  constructor; [|by apply IH]. intros Hx. rewrite Forall_forall in H1. specialize (H1 d Hx). lia.
Qed.

(** The element at a position, after the others have gone. *)
Lemma at_index_moved {B} (l : list B) ds c c' : StronglySorted Z.gt ds -> Forall (Z.le 0) ds ->
  shift ds c = Some c' -> at_index (remove_at ds l) c' = at_index l c.
Proof.
  intros Hs H0. rewrite shift_decreasing by done. destruct (decide (c ∈ ds)) as [|Hn]; [done|].
  intros [= <-]. destruct (decide (0 <= c)) as [Hc|Hc]; [apply remove_at_lookup; auto using gt_nodup|].
  unfold at_index. assert (Hb : 0 <= below ds c) by (unfold below; lia).
  by rewrite !(proj2 (Z.ltb_lt _ _)) by lia.
Qed.

Lemma shift_pred ds c : StronglySorted Z.gt ds ->
  shift (map (fun n => n - 1) ds) (c - 1) = (fun n => n - 1) <$> shift ds c.
Proof.
  intros Hs. rewrite !shift_decreasing by auto using gt_pred. rewrite below_pred.
  destruct (decide (c ∈ ds)) as [H|H].
  - by rewrite decide_True by (by apply pred_elem).
  - rewrite decide_False by (by rewrite pred_elem). cbn. f_equal. lia.
Qed.

Section CatalogProps.
Context `{J : Json} `{O : ServerObjs} `{E : !Encodings} `{JL : !JsonLaws J} `{EL : !EncodingLaws E}.

(** The stored node that a reference names. *)
Definition node_at (v : view) (r : NodeRef) : option doc :=
  if String.eqb (TYPE r) ServerType then at_index (v_servers v) (ID r - 1)
  else if String.eqb (TYPE r) SubscriptionServerType then
    p ← at_index (v_subs v) (Sub r); at_index p.2 (ID r - 1)
  else None.

(** A touch names something stored. *)
Definition valid_touch (v : view) (r : NodeRef) : Prop :=
  (TYPE r = SubscriptionType /\ is_Some (at_index (v_subs v) (ID r - 1))) \/
  (TYPE r = ServerType /\ is_Some (at_index (v_servers v) (ID r - 1))) \/
  (TYPE r = SubscriptionServerType /\ is_Some (node_at v r)).

Lemma at_index_is_Some {A} (l : list A) i :
  is_Some (at_index l i) <-> 0 <= i < Z.of_nat (length l).
Proof.
  unfold at_index. destruct (Z.ltb_spec i 0).
  - split; [by intros [? ?]|lia].
  - rewrite lookup_lt_is_Some. lia.
Qed.

Lemma reads_or_panic {A} (c : DB A) t a : reads c t a -> reads (or_panic c) t a.
Proof.
  intros H. unfold reads, or_panic. wp_step. wp_step. eapply wp_mono; [apply H|].
  intros r t' [-> ->]. by wp_step.
Qed.

Lemma reads_GetLenServers t : reads GetLenServers t (Z.of_nat (length (v_servers (view_of t)))).
Proof.
  apply reads_or_panic. eapply wp_mono; [apply wp_ServersLen|]. intros [n|e] t' [-> H]; [by subst n|done].
Qed.

Lemma reads_GetLenSubscriptions t : reads GetLenSubscriptions t (Z.of_nat (length (v_subs (view_of t)))).
Proof.
  apply reads_or_panic. eapply wp_mono; [apply wp_SubscriptionsLen|]. intros [n|e] t' [-> H]; [by subst n|done].
Qed.

Lemma json_of_total (p : sub_row * list doc) : exists d, json_of p = Ok d /\ gj_Array d "servers" = p.2.
Proof.
  destruct p as [r docs]. unfold json_of, subscriptionJSON. cbn [fst snd].
  edestruct marshal_total as [d Hd]. exists d. split; [exact Hd|].
  apply marshal_fields in Hd. cbn in Hd. by destruct_and! Hd.
Qed.

Lemma reads_GetLenSubscriptionServers t i p : store_ok t -> store_packed t ->
  at_index (v_subs (view_of t)) i = Some p ->
  reads (GetLenSubscriptionServers i) t (Z.of_nat (length p.2)).
Proof.
  intros Hok Hp Hi. unfold GetLenSubscriptionServers. destruct (json_of_total p) as (d & Hd & Hs).
  eapply reads_bind; [apply reads_or_panic|].
  - eapply wp_mono; [by apply wp_SubscriptionsGet|]. rewrite Hi.
    intros [d'|e] t' [-> H].
    + destruct H as (p' & [= <-] & Hd'). rewrite Hd in Hd'. by injection Hd' as <-.
    + destruct (H eq_refl) as [|(p' & [= <-] & Hd')]; [done|]. by rewrite Hd in Hd'.
  - wp_step. by rewrite Hs.
Qed.

(** One of the three cases of a touch. *)
Ltac touch_cases :=
  split; [intros ?; try done; first [left; split; [done|lia] | right; left; split; [done|lia] |
                                     right; right; split; [done|lia]]
         | intros [[? ?]|[[? ?]|[? ?]]]; (done || lia)].

Lemma reads_in_range t r : store_ok t -> store_packed t ->
  exists b, reads (in_range r) t b /\ (b = true <-> valid_touch (view_of t) r).
Proof.
  intros Hok Hp. unfold in_range, valid_touch.
  destruct (String.eqb_spec (TYPE r) SubscriptionType) as [H1|H1].
  { rewrite H1. destruct (Z.leb_spec 0 (ID r - 1)).
    - eexists. split; [eapply reads_bind; [apply reads_GetLenSubscriptions|]; by wp_step|].
      rewrite Z.ltb_lt, !at_index_is_Some. touch_cases.
    - exists false. split; [by apply wp_ret|]. rewrite !at_index_is_Some. touch_cases. }
  destruct (String.eqb_spec (TYPE r) ServerType) as [H2|H2].
  { rewrite H2. destruct (Z.leb_spec 0 (ID r - 1)).
    - eexists. split; [eapply reads_bind; [apply reads_GetLenServers|]; by wp_step|].
      rewrite Z.ltb_lt, !at_index_is_Some. touch_cases.
    - exists false. split; [by apply wp_ret|]. rewrite !at_index_is_Some. touch_cases. }
  destruct (String.eqb_spec (TYPE r) SubscriptionServerType) as [H3|H3].
  2:{ exists false. split; [by apply wp_ret|]. split; [done|].
      intros [[? ?]|[[? ?]|[? ?]]]; congruence. }
  unfold node_at. rewrite H3. change (String.eqb SubscriptionServerType ServerType) with false.
  rewrite String.eqb_refl. cbn iota.
  destruct (at_index (v_subs (view_of t)) (Sub r)) as [p|] eqn:Hs.
  - pose proof (mk_is_Some _ _ Hs) as Hr. apply at_index_is_Some in Hr.
    rewrite (proj2 (Z.leb_le _ _)) by lia. cbn [negb mbind option_bind].
    destruct (Z.leb_spec 0 (ID r - 1)).
    + eexists. split.
      * eapply reads_bind; [apply reads_GetLenSubscriptions|]. rewrite (proj2 (Z.ltb_lt _ _)) by lia. cbn [negb orb].
        eapply reads_bind; [by apply reads_GetLenSubscriptionServers|]. by wp_step.
      * rewrite Z.ltb_lt, !at_index_is_Some. touch_cases.
    + exists false. split.
      * eapply reads_bind; [apply reads_GetLenSubscriptions|]. rewrite orb_true_r. by wp_step.
      * rewrite !at_index_is_Some. touch_cases.
  - cbn [mbind option_bind]. assert (Hnone : ~ is_Some (at_index (v_subs (view_of t)) (Sub r))) by (rewrite Hs; by intros [? ?]).
    rewrite at_index_is_Some in Hnone. exists false. split; [|split; [done|]; intros [[? ?]|[[? ?]|[_ [? ?]]]]; done].
    destruct (Z.leb_spec 0 (Sub r)); cbn [negb]; [|by apply wp_ret].
    eapply reads_bind; [apply reads_GetLenSubscriptions|].
    rewrite (proj2 (Z.ltb_ge _ _)) by lia. cbn [negb orb]. by wp_step.
Qed.

(** What [collect_touches] keeps: one touch for every valid reference. *)
Lemma reads_collect t touches ts : store_ok t -> store_packed t ->
  NoDup (map fst ts) -> Forall (fun kv => kv.1 = w_NodeRef kv.2) ts ->
  exists ts', reads (collect_touches touches ts) t ts' /\
    NoDup (map fst ts') /\ Forall (fun kv => kv.1 = w_NodeRef kv.2) ts' /\
    forall k, k ∈ map fst ts' <-> k ∈ map fst ts \/
      exists w, w ∈ touches /\ w_NodeRef w = k /\ valid_touch (view_of t) k.
Proof.
  intros Hok Hp. revert ts. induction touches as [|v touches IH]; intros ts Hn Hf; cbn [collect_touches].
  { exists ts. split; [by apply wp_ret|]. split; [done|]. split; [done|]. intros k. split; [by left|].
    intros [?|(w & Hw & _)]; [done|]. by apply elem_of_nil in Hw. }
  destruct (reads_in_range t (w_NodeRef v) Hok Hp) as (b & Hb & Hv).
  set (ts1 := if b then
                if decide (w_NodeRef v ∈ map fst ts)
                then map (fun kv => if decide (fst kv = w_NodeRef v) then (fst kv, v) else kv) ts
                else ts ++ [(w_NodeRef v, v)]
              else ts).
  assert (H1 : NoDup (map fst ts1) /\ Forall (fun kv => kv.1 = w_NodeRef kv.2) ts1 /\
    forall k, k ∈ map fst ts1 <-> k ∈ map fst ts \/ (k = w_NodeRef v /\ valid_touch (view_of t) k)).
  { unfold ts1. destruct b.
    - assert (Hval : valid_touch (view_of t) (w_NodeRef v)) by (by apply Hv).
      destruct (decide (w_NodeRef v ∈ map fst ts)) as [Hin|Hin].
      + assert (Hm : map fst (map (fun kv => if decide (kv.1 = w_NodeRef v) then (kv.1, v) else kv) ts) = map fst ts).
        { rewrite map_map. apply map_ext. intros kv. by destruct (decide _). }
        rewrite Hm. split; [done|]. split; [|naive_solver].
        rewrite Forall_map. apply (Forall_impl _ _ _ Hf). intros kv Hkv. by destruct (decide _).
      + rewrite map_app. cbn [map fst]. split; [|split].
        * apply NoDup_app. split; [done|]. split; [|apply NoDup_singleton].
          intros x Hx ->%list_elem_of_singleton. done.
        * apply Forall_app. split; [done|]. by repeat constructor.
        * intros k. rewrite elem_of_app, list_elem_of_singleton. naive_solver.
    - assert (Hval : ~ valid_touch (view_of t) (w_NodeRef v)) by (rewrite <-Hv; done). naive_solver. }
  destruct H1 as (Hn1 & Hf1 & Hk1). destruct (IH ts1 Hn1 Hf1) as (ts' & Hr & Hn' & Hf' & Hk').
  exists ts'. split; [by eapply reads_bind|]. split; [done|]. split; [done|].
  intros k. rewrite Hk', Hk1. setoid_rewrite elem_of_cons. naive_solver.
Qed.

(** ** The connected lists *)

Lemma survive_same touches cs cs' : survive touches cs = Some cs' ->
  TYPE cs' = TYPE cs /\ Outbound cs' = Outbound cs.
Proof.
  destruct (decide (TYPE cs = ServerType)) as [H1|H1].
  { rewrite survive_server by done. by intros (n & _ & ->)%fmap_Some. }
  destruct (decide (TYPE cs = SubscriptionServerType)) as [H2|H2].
  { rewrite survive_sub_server by done. by intros (n & _ & ->)%fmap_Some. }
  rewrite survive_other by done. by intros [= <-].
Qed.

Lemma with_out_app g l1 l2 : with_out g (l1 ++ l2) = with_out g l1 ++ with_out g l2.
Proof. apply filter_app. Qed.

Lemma with_out_own g l : Forall (fun r => Outbound r = g) l -> with_out g l = l.
Proof. intros H. apply filter_all. by apply Forall_forall. Qed.

Lemma with_out_other g h l : Forall (fun r => Outbound r = h) l -> g <> h -> with_out g l = [].
Proof. intros H Hne. apply filter_none. intros r Hr He. rewrite Forall_forall in H. specialize (H r Hr). congruence. Qed.

Lemma with_out_concat (f : string -> list NodeRef) names g : NoDup names -> g ∈ names ->
  (forall h, h ∈ names -> Forall (fun r => Outbound r = h) (f h)) ->
  with_out g (concat (map f names)) = f g.
Proof.
  intros Hn Hg Hf. induction Hn as [|h names Hh Hn IH]; [by apply elem_of_nil in Hg|].
  cbn [map concat]. rewrite with_out_app. apply elem_of_cons in Hg as [<-|Hg].
  - rewrite with_out_own by (apply Hf; left).
    assert (Hnone : with_out g (concat (map f names)) = []).
    { apply filter_none. intros r Hr He. apply elem_of_concat_map in Hr as (k & Hk & Hr).
      specialize (Hf k ltac:(by right)). rewrite Forall_forall in Hf. specialize (Hf r Hr). congruence. }
    by rewrite Hnone, app_nil_r.
  - rewrite (with_out_other g h); [|apply Hf; left|by intros ->].
    cbn. apply IH; [done|]. intros k Hk. apply Hf. by right.
Qed.

Lemma omap_concat {A B} (f : A -> option B) (l : list (list A)) : omap f (concat l) = concat (map (omap f) l).
Proof. induction l as [|x l IH]; [done|]. cbn [concat map]. by rewrite omap_app, IH. Qed.

Lemma omap_survive_out touches g l : Forall (fun r => Outbound r = g) l ->
  Forall (fun r => Outbound r = g) (omap (survive touches) l).
Proof.
  rewrite !Forall_forall. intros H r (cs & Hcs & Hs)%list_elem_of_omap.
  apply survive_same in Hs as [_ ->]. by apply H.
Qed.

Lemma survivors_by_group t touches g : groups_ok t -> g ∈ group_names t ->
  with_out g (omap (survive touches) (connected t)) = omap (survive touches) (refs_of t g).
Proof.
  intros Hg Hin. unfold connected. rewrite omap_concat, map_map.
  apply (with_out_concat (fun h => omap (survive touches) (refs_of t h)));
    [by apply group_names_nodup|done|].
  intros h Hh. apply omap_survive_out. by apply (groups_refs _ Hg).
Qed.

Lemma stored_written t' groups m g refs : written groups m (t_system_config t') ->
  (g, refs) ∈ groups -> stored t' g = Some refs.
Proof.
  intros [Hw _] Hin. destruct (Hw g refs Hin) as (d & Hd & Hu). unfold stored. rewrite Hd. cbn. by rewrite Hu.
Qed.

Lemma wp_RemoveNodes subs servers conn t : store_ok t -> store_packed t -> groups_ok t ->
  Forall (fun r => Outbound r ∈ group_names t) conn ->
  wp false (RemoveNodes subs servers (NewNodeRefs conn)) t (fun r t' => r = Ok tt /\
    store_ok t' /\ store_packed t' /\
    v_servers (view_of t') = remove_at servers (v_servers (view_of t)) /\
    v_subs (view_of t') = remove_at subs (v_subs (view_of t)) /\
    t_outbound_names t' = t_outbound_names t /\
    (forall g, g ∈ group_names t -> stored t' g = Some (mkNodeRefs (with_out g conn))) /\
    (forall k, (forall g, g ∈ group_names t -> k <> group_key g) -> t_system_config t' !! k = t_system_config t !! k)).
Proof.
  intros Hok Hp Hg Hconn. unfold RemoveNodes. eapply reads_bind; [apply reads_GetOutbounds|].
  set (groups := with_empty_groups _ _).
  assert (Hlook : forall g, groups !! g =
    if decide (g ∈ group_names t) then Some (mkNodeRefs (with_out g conn)) else None).
  { intros g. unfold groups. rewrite with_empty_lookup. cbn [NewNodeRefs Touches]. rewrite byOutbound_lookup.
    destruct (with_out g conn) as [|r l] eqn:Hw; [done|]. rewrite decide_True; [done|].
    assert (Hr : r ∈ with_out g conn) by (rewrite Hw; left). apply list_elem_of_filter in Hr as [<- Hr].
    rewrite Forall_forall in Hconn. by apply Hconn. }
  destruct (write_lists_spec (map_to_list groups) t) as (m & Hw & Hwc); [apply NoDup_fst_map_to_list|].
  eapply wp_mono; [apply wp_RemoveTx; [done|done|apply Hwc]|].
  intros [u|e] t'; [|by intros [_ [?|?]]]. intros (H1 & H2 & m' & [= <-] & Hv). destruct u.
  assert (Hm : t_system_config t' = m) by apply (f_equal v_config Hv).
  split; [done|]. split; [done|]. split; [done|]. rewrite Hv. cbn [v_servers v_subs].
  split; [done|]. split; [done|]. split; [apply (f_equal v_names Hv)|]. rewrite <-Hm in Hw. split.
  - intros g Hin. apply (stored_written _ _ _ _ _ Hw). apply elem_of_map_to_list. rewrite Hlook.
    by rewrite decide_True.
  - intros k Hk. apply Hw. intros g (x & -> & Hx)%list_elem_of_fmap. apply Hk. destruct x as [g x].
    apply elem_of_map_to_list in Hx. rewrite Hlook in Hx. cbn. by destruct (decide (g ∈ group_names t)).
Qed.

(** ** Deletion *)

(** The touches of a request that count: those that name something stored. *)
Definition deleted (v : view) (ws : list Which) (T : string) (i : Z) : Prop :=
  exists w, w ∈ ws /\ valid_touch v (w_NodeRef w) /\ TYPE (w_NodeRef w) = T /\ ID (w_NodeRef w) - 1 = i.

(** The node of the reference, or its subscription, is deleted. *)
Definition doomed (v : view) (ws : list Which) (r : NodeRef) : Prop :=
  (TYPE r = ServerType /\ deleted v ws ServerType (ID r - 1)) \/
  (TYPE r = SubscriptionServerType /\ deleted v ws SubscriptionType (Sub r)).

(** A request names every server and every subscription in one way only, and
    subscriptions without an index of a subscription. *)
Definition plain_request (ws : list Which) : Prop :=
  (forall a b, a ∈ ws -> b ∈ ws -> TYPE (w_NodeRef a) = TYPE (w_NodeRef b) ->
     TYPE (w_NodeRef a) <> SubscriptionServerType -> ID (w_NodeRef a) = ID (w_NodeRef b) ->
     w_NodeRef a = w_NodeRef b) /\
  (forall a, a ∈ ws -> TYPE (w_NodeRef a) = SubscriptionType -> Sub (w_NodeRef a) = 0).

Lemma valid_known v w : valid_touch v (w_NodeRef w) -> known_type w.
Proof. unfold valid_touch, known_type. intuition. Qed.

(** The touches as they are visited. *)
Lemma reads_touches t order ws : store_ok t -> store_packed t -> (forall l, order l ≡ₚ l) -> plain_request ws ->
  exists data, reads (GetNonDuplicated order ws) t data /\ plain_touches data /\
    forall T x, T = ServerType \/ T = SubscriptionType ->
      x ∈ ids_of T (SortSameTypeReverse data) <-> deleted (view_of t) ws T (x - 1).
Proof.
  intros Hok Hp Ho [Hpl1 Hpl2].
  destruct (reads_collect t ws [] Hok Hp ltac:(constructor) ltac:(constructor)) as (ts & Hr & Hn & Hf & Hk).
  assert (Hmap : map w_NodeRef (map snd ts) = map fst ts).
  { rewrite map_map. apply map_ext_in. intros kv Hkv%list_elem_of_In. rewrite Forall_forall in Hf.
    symmetry. by apply Hf. }
  assert (Hmem : forall r, r ∈ map w_NodeRef (order (map snd ts)) <->
    exists w, w ∈ ws /\ w_NodeRef w = r /\ valid_touch (view_of t) r).
  { intros r. rewrite (Permutation_map w_NodeRef (Ho (map snd ts))), Hmap, Hk. cbn [map].
    rewrite elem_of_nil. naive_solver. }
  assert (Hin : forall a, a ∈ order (map snd ts) ->
    exists w, w ∈ ws /\ w_NodeRef w = w_NodeRef a /\ valid_touch (view_of t) (w_NodeRef a)).
  { intros a Ha. apply Hmem. apply list_elem_of_fmap. eauto. }
  exists (order (map snd ts)). split; [|split].
  - unfold GetNonDuplicated. eapply reads_bind; [apply Hr|]. by wp_step.
  - split.
    + apply Forall_forall. intros a Ha. destruct (Hin a Ha) as (_ & _ & _ & Hv). by eapply valid_known.
    + by rewrite (Permutation_map w_NodeRef (Ho (map snd ts))), Hmap.
    + intros a b Ha Hb. destruct (Hin a Ha) as (wa & Hwa & <- & _), (Hin b Hb) as (wb & Hwb & <- & _). auto.
    + intros a Ha. destruct (Hin a Ha) as (wa & Hwa & <- & _). auto.
  - intros T x HT. rewrite ids_of_elem.
    2:{ apply Forall_forall. intros a Ha. destruct (Hin a Ha) as (_ & _ & _ & Hv). by eapply valid_known. }
    unfold deleted. split.
    + intros (a & Ha & HaT & Hx). destruct (Hin a Ha) as (w & Hw & He & Hv). exists w. rewrite He.
      split; [done|]. split; [done|]. split; [done|lia].
    + intros (w & Hw & Hv & HwT & Hx).
      assert (Hr' : w_NodeRef w ∈ map w_NodeRef (order (map snd ts))) by (apply Hmem; eauto).
      apply list_elem_of_fmap in Hr' as (a & He & Ha). exists a. rewrite <-He. split; [done|]. split; [done|lia].
Qed.

Lemma deleted_nonneg v ws T i : T = ServerType \/ T = SubscriptionType -> deleted v ws T i -> 0 <= i.
Proof.
  intros HT (w & _ & Hv & HwT & <-). unfold valid_touch in Hv. rewrite HwT in Hv.
  rewrite !at_index_is_Some in Hv. destruct HT as [->| ->]; destruct Hv as [[? ?]|[[? ?]|[? ?]]]; (done || lia).
Qed.

(** Where a reference goes. *)
Lemma survive_moves v v' ws touches r :
  StronglySorted Z.gt (ids_of ServerType touches) -> StronglySorted Z.gt (ids_of SubscriptionType touches) ->
  (forall T x, T = ServerType \/ T = SubscriptionType -> x ∈ ids_of T touches <-> deleted v ws T (x - 1)) ->
  v_servers v' = remove_at (touched_indexes ServerType touches) (v_servers v) ->
  v_subs v' = remove_at (touched_indexes SubscriptionType touches) (v_subs v) ->
  (survive touches r = None <-> doomed v ws r) /\
  (forall r', survive touches r = Some r' -> node_at v' r' = node_at v r).
Proof.
  intros Hs1 Hs2 Hd Hv1 Hv2. rewrite !touched_indexes_ids in *.
  assert (Hpos : forall T, T = ServerType \/ T = SubscriptionType ->
    Forall (Z.le 0) (map (fun n => n - 1) (ids_of T touches))).
  { intros T HT. rewrite Forall_map. apply Forall_forall. intros x Hx. apply (Hd T x HT) in Hx.
    by eapply deleted_nonneg. }
  unfold node_at, doomed.
  destruct (decide (TYPE r = ServerType)) as [H1|H1]; [|destruct (decide (TYPE r = SubscriptionServerType)) as [H2|H2]].
  - rewrite survive_server, H1 by done. split.
    + rewrite fmap_None, shift_decreasing by done. destruct (decide _) as [Hin|Hin].
      * split; [|done]. intros _. left. split; [done|]. apply Hd; auto.
      * split; [done|]. intros [[_ Hx]|[? _]]; [|done]. exfalso. apply Hin. apply Hd; auto.
    + intros r' (n & Hn & ->)%fmap_Some. cbn [TYPE with_id ID]. rewrite H1, String.eqb_refl.
      rewrite Hv1. apply at_index_moved; [by apply gt_pred|by auto|].
      rewrite shift_pred by done. by rewrite Hn.
  - rewrite survive_sub_server, H2 by done. split.
    + rewrite fmap_None, shift_decreasing by (by apply gt_pred).
      assert (Hiff : Sub r ∈ map (fun n => n - 1) (ids_of SubscriptionType touches) <->
                     deleted v ws SubscriptionType (Sub r)).
      { rewrite <-(Z.add_simpl_r (Sub r) 1) at 1. rewrite pred_elem, Hd by auto. by rewrite Z.add_simpl_r. }
      destruct (decide _) as [Hin|Hin].
      * split; [|done]. intros _. right. split; [done|]. by apply Hiff.
      * split; [done|]. intros [[? _]|[_ Hx]]; [done|]. exfalso. by apply Hin, Hiff.
    + intros r' (n & Hn & ->)%fmap_Some. cbn [TYPE with_sub ID Sub]. rewrite H2.
      change (String.eqb SubscriptionServerType ServerType) with false. rewrite String.eqb_refl. cbn iota.
      rewrite Hv2. by rewrite (at_index_moved _ _ (Sub r) n (gt_pred _ Hs2) (Hpos SubscriptionType (or_intror eq_refl)) Hn).
  - rewrite survive_other by done. split.
    + split; [done|]. intros [[? _]|[? _]]; congruence.
    + intros r' [= <-]. by rewrite !(proj2 (String.eqb_neq _ _)) by done.
Qed.

(** The deletion of [ws] turns [t] into [t']: which servers and subscriptions are
    gone, and where the references of the groups have moved. *)
Definition connections_kept (ws : list Which) (t t' : tables) : Prop :=
  exists dservers dsubs (move : NodeRef -> option NodeRef),
    (forall i, i ∈ dservers <-> deleted (view_of t) ws ServerType i) /\
    (forall i, i ∈ dsubs <-> deleted (view_of t) ws SubscriptionType i) /\
    v_servers (view_of t') = remove_at dservers (v_servers (view_of t)) /\
    v_subs (view_of t') = remove_at dsubs (v_subs (view_of t)) /\
    group_names t' = group_names t /\
    (forall g, g ∈ group_names t -> refs_of t' g = omap move (refs_of t g)) /\
    (forall r, move r = None <-> doomed (view_of t) ws r) /\
    (forall r r', move r = Some r' -> TYPE r' = TYPE r /\ Outbound r' = Outbound r /\
       node_at (view_of t') r' = node_at (view_of t) r).

Lemma wp_delete_nodes order ws t : store_ok t -> store_packed t -> groups_ok t ->
  (forall l, order l ≡ₚ l) -> plain_request ws ->
  wp false (delete_nodes order ws) t (fun r t' => r = Ok tt /\ store_ok t' /\ store_packed t' /\
    connections_kept ws t t').
Proof.
  intros Hok Hp Hg Ho Hreq. unfold delete_nodes.
  destruct (reads_touches t order ws Hok Hp Ho Hreq) as (data & Hr & Hpl & Hids).
  eapply reads_bind; [apply Hr|]. wp_step. eapply wp_mono; [by apply reads_GetConnectedServers|].
  intros r t0 (-> & w & -> & Hw). rewrite Hw, css_is_survive.
  set (touches := SortSameTypeReverse data) in *.
  eapply wp_mono; [apply wp_RemoveNodes; try done|].
  { apply Forall_forall. intros r (cs & Hcs & Hs)%list_elem_of_omap. apply survive_same in Hs as [_ ->].
    unfold connected in Hcs. apply elem_of_concat_map in Hcs as (g & Hgin & Hcs).
    pose proof (groups_refs _ Hg g Hgin) as Hf. rewrite Forall_forall in Hf. by rewrite (Hf cs Hcs). }
  intros r t' (-> & H1 & H2 & H3 & H4 & H5 & H6 & _). split; [done|]. split; [done|]. split; [done|].
  assert (Hidx : forall T i, T = ServerType \/ T = SubscriptionType ->
    i ∈ touched_indexes T touches <-> deleted (view_of t) ws T i).
  { intros T i HT. rewrite touched_indexes_ids. rewrite <-(Z.add_simpl_r i 1) at 1.
    rewrite pred_elem, Hids by done. by rewrite Z.add_simpl_r. }
  assert (Hmv : forall r, (survive touches r = None <-> doomed (view_of t) ws r) /\
    (forall r', survive touches r = Some r' -> node_at (view_of t') r' = node_at (view_of t) r)).
  { intros r. apply survive_moves; try done; by apply sorted_ids; auto. }
  exists (touched_indexes ServerType touches), (touched_indexes SubscriptionType touches), (survive touches).
  split; [intros i; apply Hidx; auto|]. split; [intros i; apply Hidx; auto|]. split; [done|]. split; [done|].
  split; [unfold group_names; by rewrite H5|]. split; [|split].
  - intros g Hgin. unfold refs_of at 1. rewrite H6 by done. by apply survivors_by_group.
  - intros r. apply Hmv.
  - intros r r' Hs. pose proof (survive_same _ _ _ Hs) as [? ?]. split; [done|]. split; [done|]. by apply Hmv.
Qed.

End CatalogProps.

(** ** The property *)

Section Deletion.
Context `{J : Json} `{O : ServerObjs} `{E : !Encodings} `{JL : !JsonLaws J} `{EL : !EncodingLaws E}.
Context `{K : !Kernel} `{KL : !KernelLaws K}.

Lemma group_key_not_kernel g : ~ kernel_key (group_key g).
Proof.
  unfold kernel_key, group_key, makeKey, outbound_bucket. rewrite !s_app_cons. by vm_compute.
Qed.

(** What the core does leaves the lists and the groups alone. *)
Lemma same_catalogue_views t t' : same_catalogue t t' ->
  v_servers (view_of t') = v_servers (view_of t) /\ v_subs (view_of t') = v_subs (view_of t) /\
  (forall g, stored t' g = stored t g) /\ group_names t' = group_names t.
Proof.
  intros (H1 & H2 & H3 & H4 & H5). unfold view_of, group_names, stored. cbn. rewrite H1, H2, H4.
  split; [done|]. split; [done|]. split; [|done]. intros g. by rewrite H5 by apply group_key_not_kernel.
Qed.

Lemma same_catalogue_refl t : same_catalogue t t.
Proof. by repeat split. Qed.

Lemma node_at_views v v' r : v_servers v' = v_servers v -> v_subs v' = v_subs v -> node_at v' r = node_at v r.
Proof. intros H1 H2. unfold node_at. by rewrite H1, H2. Qed.

Lemma connections_kept_kernel ws t t1 t' : connections_kept ws t t1 -> same_catalogue t1 t' ->
  connections_kept ws t t'.
Proof.
  intros (ds & db & move & H1 & H2 & H3 & H4 & H5 & H6 & H7 & H8) Hs.
  destruct (same_catalogue_views _ _ Hs) as (V1 & V2 & V3 & V4). exists ds, db, move.
  rewrite V1, V2, V4. do 5 (split; [done|]). split; [|split; [done|]].
  - intros g Hg. rewrite <-H6 by done. unfold refs_of. by rewrite V3.
  - intros r r' Hm. destruct (H8 r r' Hm) as (? & ? & Hnode). split; [done|]. split; [done|].
    rewrite <-Hnode. by apply node_at_views.
Qed.


End Deletion.

(** ** Examples *)

Section Examples.
Import JsonRef CatalogRef.

Definition touch (type : string) (id sub : Z) (outbound : string) : Which :=
  mkWhich (mkNodeRef type id sub outbound) "" "" false.

(** Three servers, a subscription of two, and a group connected to the third and
    the first server and the second node of the subscription. *)
Definition example_refs : NodeRefs :=
  mkNodeRefs [mkNodeRef ServerType 3 0 "proxy"; mkNodeRef ServerType 1 0 "proxy";
              mkNodeRef SubscriptionServerType 2 0 "proxy"].
Definition example_tables : tables :=
  with_system_config (db_tables example_state) {[ group_key "proxy" := refs_json example_refs ]}.
Definition example_service (faults : list (option error)) : database * kernel :=
  (mkDatabase example_tables faults, true).

Lemma example_tables_ok : store_ok example_tables /\ store_packed example_tables /\ groups_ok example_tables.
Proof.
  destruct example_ok as [Hok Hp].
  destruct (config_changed (db_tables example_state) {[ group_key "proxy" := refs_json example_refs ]} Hok)
    as (H1 & H2 & _).
  split; [done|]. split; [by apply H2|]. split.
  - constructor.
  - apply not_elem_of_nil.
  - intros g ->%list_elem_of_singleton. vm_compute. by repeat constructor.
Qed.


(** The same server given with two groups counts twice: the reference to the
    third server then names the first, which is the second of before. *)
Lemma repeated_touch_moves_twice :
  let ws := [touch ServerType 1 0 "proxy"; touch ServerType 1 0 "other"] in
  refs_of (db_tables (DeleteWhich (fun l => l) ws (example_service [])).2.1) "proxy" =
    [mkNodeRef ServerType 1 0 "proxy"; mkNodeRef SubscriptionServerType 2 0 "proxy"].
Proof. vm_compute. reflexivity. Qed.

(** A stale subscription index in the touches of subscriptions puts the smaller
    number first. *)
Lemma subscription_touch_order :
  map (fun w => ID (w_NodeRef w))
    (SortSameTypeReverse [touch SubscriptionType 3 0 ""; touch SubscriptionType 1 5 ""]) = [1; 3].
Proof. vm_compute. reflexivity. Qed.

(** When reading the connected list fails, the deletion goes on with no
    connections and stores that. *)
Lemma failed_read_drops_connections :
  let '(r, s') := DeleteWhich (fun l => l) [touch ServerType 1 0 "proxy"]
                    (example_service [None; None; Some (ExtErr "database is locked")]) in
  r = Ok tt /\ refs_of (db_tables s'.1) "proxy" = [].
Proof. vm_compute. done. Qed.

End Examples.
