(* ===== verification/UpdateProps.v ===== *)
(** * Updating a subscription keeps the selection (service/server/service/subscription.go)

    [storeSubscriptionUpdate] replaces the servers of a subscription and leads
    every reference to one of its old servers to the node that takes over: one
    with the same link, the only one with the same end point or name, or the old
    server itself, kept at the end. *)

From stdpp Require Import sorting.
From S2P Require Import Prelude.
From S2P Require Import Store StoreLists StoreProps NodeRefs Configure.
From S2P Require Import Catalog DeleteProps ConfigureProps JsonRef CatalogRef CatalogProps.

#[local] Open Scope Z_scope.
#[local] Open Scope go_scope.

(** ** The search for the node that takes over *)

Section Remap.
Context `{O : ServerObjs}.

Lemma find_link_spec url i nodes k : find_link url i nodes = k -> 0 <= i ->
  (k = 0 /\ Forall (fun n => ExportToURL n <> url) nodes) \/
  (i < k /\ exists n, nodes !! Z.to_nat (k - i - 1) = Some n /\ ExportToURL n = url).
Proof.
  revert i. induction nodes as [|n nodes IH]; intros i Hk Hi; cbn [find_link] in Hk; [by left|].
  destruct (String.eqb_spec (ExportToURL n) url) as [He|He].
  - right. subst k. split; [lia|]. exists n. by replace (i + 1 - i - 1) with 0 by lia.
  - destruct (IH (i + 1) Hk ltac:(lia)) as [[-> Hf]|(Hlt & m & Hm & Hu)].
    + left. split; [done|]. by constructor.
    + right. split; [lia|]. exists m. split; [|done].
      replace (Z.to_nat (k - i - 1)) with (S (Z.to_nat (k - (i + 1) - 1))) by lia. done.
Qed.

(** The only node that matches, by its number. *)
Definition only_match (f : ServerObj -> bool) (nodes : list ServerObj) (k : Z) : Prop :=
  1 <= k /\ (exists n, nodes !! Z.to_nat (k - 1) = Some n /\ f n = true) /\
  forall j n, nodes !! j = Some n -> f n = true -> j = Z.to_nat (k - 1).

Lemma find_unique_found f i found nodes : 0 < found ->
  find_unique f i found nodes = found /\ Forall (fun n => f n = false) nodes \/ find_unique f i found nodes = -1.
Proof.
  revert i. induction nodes as [|n nodes IH]; intros i Hf; cbn [find_unique]; [by left|].
  destruct (f n) eqn:Hn; [rewrite (proj2 (Z.eqb_neq _ _)) by lia; by right|].
  destruct (IH (i + 1) Hf) as [[? ?]|?]; [left|by right]. split; [done|]. by constructor.
Qed.

Lemma find_unique_spec f i nodes k : 0 <= i -> find_unique f i 0 nodes = k -> 0 < k ->
  i < k /\ (exists n, nodes !! Z.to_nat (k - i - 1) = Some n /\ f n = true) /\
  forall j n, nodes !! j = Some n -> f n = true -> j = Z.to_nat (k - i - 1).
Proof.
  revert i. induction nodes as [|n nodes IH]; intros i Hi Hk Hpos; cbn [find_unique] in Hk; [lia|].
  destruct (f n) eqn:Hn; cbn [negb Z.eqb] in Hk.
  - destruct (find_unique_found f (i + 1) (i + 1) nodes) as [[Hu Hall]|Hu]; [lia| |lia].
    rewrite Hu in Hk. subst k. split; [lia|]. replace (i + 1 - i - 1) with 0 by lia. split; [by exists n|].
    intros [|j] m Hj Hm; [done|]. cbn in Hj. rewrite Forall_forall in Hall.
    apply list_elem_of_lookup_2 in Hj. specialize (Hall m Hj). congruence.
  - destruct (IH (i + 1) ltac:(lia) Hk Hpos) as (H1 & (m & Hm & Hfm) & H3). split; [lia|].
    replace (Z.to_nat (k - i - 1)) with (S (Z.to_nat (k - (i + 1) - 1))) by lia. split; [by exists m|].
    intros [|j] x Hj Hx; [cbn in Hj; congruence|]. f_equal. by apply (H3 j x).
Qed.

(** What the search finds. *)
Lemma remap_spec old nodes k exact : remapSubscriptionNodeDetailed (Some old) nodes = (k, exact) ->
  (k = 0 /\ exact = false /\ Forall (fun n => ExportToURL n <> ExportToURL old) nodes) \/
  (exact = true /\ 1 <= k /\ exists n, nodes !! Z.to_nat (k - 1) = Some n /\ ExportToURL n = ExportToURL old) \/
  (exact = false /\ Forall (fun n => ExportToURL n <> ExportToURL old) nodes /\
   (only_match (same_endpoint old) nodes k \/ only_match (same_name old) nodes k)).
Proof.
  unfold remapSubscriptionNodeDetailed. intros H.
  destruct (find_link_spec (ExportToURL old) 0 nodes _ eq_refl ltac:(lia)) as [[Hz Hall]|(Hlt & n & Hn & Hu)].
  - rewrite Hz in H. cbn [Z.eqb negb] in H.
    destruct (Z.ltb_spec 0 (find_unique (same_endpoint old) 0 0 nodes)) as [H1|H1].
    { injection H as <- <-. right. right. split; [done|]. split; [done|]. left.
      destruct (find_unique_spec _ 0 nodes _ ltac:(lia) eq_refl H1) as (Ha & Hb & Hc).
      rewrite Z.sub_0_r in Hb, Hc. split; [lia|]. by split. }
    destruct (Z.ltb_spec 0 (find_unique (same_name old) 0 0 nodes)) as [H2|H2].
    { injection H as <- <-. right. right. split; [done|]. split; [done|]. right.
      destruct (find_unique_spec _ 0 nodes _ ltac:(lia) eq_refl H2) as (Ha & Hb & Hc).
      rewrite Z.sub_0_r in Hb, Hc. split; [lia|]. by split. }
    injection H as <- <-. by left.
  - rewrite (proj2 (Z.eqb_neq _ _)) in H by lia. cbn [negb] in H. injection H as <- <-. right. left.
    split; [done|]. split; [lia|]. rewrite Z.sub_0_r in Hn. eauto.
Qed.

(** ** The claims *)

Context (index : Z) (oldServers : list ServerRaw) (nodes : list ServerObj).

(** A reference to a server of the subscription that is there. *)
Definition own (r : NodeRef) : bool := String.eqb (TYPE r) SubscriptionServerType && (Sub r =? index).
Definition own_valid (r : NodeRef) : Prop := own r = true /\ 1 <= ID r <= Z.of_nat (length oldServers).

Definition old_at (id : Z) : option ServerObj := sr_ServerObj <$> oldServers !! Z.to_nat (id - 1).

(** The maps say what the search said, and count the claims. *)
Record remap_ok (st : remap_state) : Prop := {
  rm_values : forall id v, mappedIDs st !! id = Some v -> v = remapSubscriptionNodeDetailed (old_at id) nodes;
  rm_claims : forall k, k <> 0 -> default 0 (fallbackClaims st !! k) =
    Z.of_nat (size (filter (fun kv : Z * (Z * bool) => kv.2 = (k, false)) (mappedIDs st)));
}.

Lemma remap_ref_ok st r : remap_ok st -> remap_ok (remap_ref index oldServers nodes st r).
Proof.
  intros [Hv Hc]. unfold remap_ref. destruct (_ || _); [done|].
  destruct (mappedIDs st !! ID r) as [v|] eqn:Hm; [done|].
  destruct (remapSubscriptionNodeDetailed _ nodes) as [id exact] eqn:Hr. split; cbn [mappedIDs fallbackClaims].
  - intros i v. rewrite lookup_insert_Some. intros [[<- <-]|[_ Hi]]; [|by apply Hv]. unfold old_at. by rewrite Hr.
  - intros k Hk. destruct (decide ((id, exact) = (k, false))) as [He|Hne].
    + injection He as -> ->. rewrite (proj2 (Z.eqb_neq _ _) Hk). cbn [negb andb].
      rewrite lookup_insert_eq. cbn [default from_option]. unfold id at 1. rewrite map_filter_insert_True by done.
      rewrite map_size_insert_None by (apply map_lookup_filter_None; by left). rewrite (Hc k Hk). lia.
    + rewrite map_filter_insert_not' by (first [exact Hne | intros y Hy; congruence]).
      rewrite <-(Hc k Hk). destruct (negb (id =? 0) && negb exact) eqn:Hb; [|done].
      rewrite lookup_insert_ne; [done|]. intros ->. apply Hne. apply andb_true_iff in Hb as [_ Hb].
      by destruct exact.
Qed.

Lemma remap_ref_seen st r : own_valid r -> is_Some (mappedIDs (remap_ref index oldServers nodes st r) !! ID r).
Proof.
  intros [Ho Hr]. unfold own in Ho. apply andb_true_iff in Ho as [H1 H2]. unfold remap_ref. rewrite H1, H2.
  rewrite (proj2 (Z.leb_gt _ _)), (proj2 (Z.ltb_ge _ _)) by lia. cbn [negb orb].
  destruct (mappedIDs st !! ID r) as [v|] eqn:Hm; [by exists v|].
  destruct (remapSubscriptionNodeDetailed _ nodes) as [id exact]. cbn [mappedIDs]. by rewrite lookup_insert_eq.
Qed.

Lemma remap_ref_mono st r id : is_Some (mappedIDs st !! id) ->
  is_Some (mappedIDs (remap_ref index oldServers nodes st r) !! id).
Proof.
  intros H. unfold remap_ref. destruct (_ || _); [done|]. destruct (mappedIDs st !! ID r) as [v|] eqn:Hm; [done|].
  destruct (remapSubscriptionNodeDetailed _ nodes) as [k exact]. cbn [mappedIDs].
  destruct (decide (ID r = id)) as [<-|Hne]; [by rewrite lookup_insert_eq|by rewrite lookup_insert_ne].
Qed.

Lemma remap_refs_ok refs : remap_ok (remap_refs index oldServers nodes refs) /\
  forall r, r ∈ refs -> own_valid r ->
    mappedIDs (remap_refs index oldServers nodes refs) !! ID r =
    Some (remapSubscriptionNodeDetailed (old_at (ID r)) nodes).
Proof.
  assert (H : forall st, remap_ok st ->
    remap_ok (foldl (remap_ref index oldServers nodes) st refs) /\
    (forall id, is_Some (mappedIDs st !! id) -> is_Some (mappedIDs (foldl (remap_ref index oldServers nodes) st refs) !! id)) /\
    forall r, r ∈ refs -> own_valid r -> is_Some (mappedIDs (foldl (remap_ref index oldServers nodes) st refs) !! ID r)).
  { induction refs as [|r refs IH]; intros st Hst; cbn [foldl].
    - split; [done|]. split; [done|]. by intros r ?%elem_of_nil.
    - destruct (IH _ (remap_ref_ok st r Hst)) as (H1 & H2 & H3). split; [done|]. split.
      + intros id Hid. by apply H2, remap_ref_mono.
      + intros x [->|Hx]%elem_of_cons Hv; [by apply H2, remap_ref_seen|by apply H3]. }
  destruct (H (mkRemap ∅ ∅)) as (H1 & _ & H3).
  { split; cbn [mappedIDs fallbackClaims]; [intros id v; by rewrite lookup_empty|].
    intros k _. rewrite lookup_empty, map_filter_empty, map_size_empty. done. }
  split; [done|]. intros r Hr Hv. destruct (H3 r Hr Hv) as [v Hm].
  unfold remap_refs. rewrite Hm. f_equal. by apply (rm_values _ H1).
Qed.

(** Two different old servers never give way to the same node, unless one has its
    link. *)
Lemma no_double_claim st r1 r2 k : remap_ok st -> k <> 0 ->
  mappedIDs st !! ID r1 = Some (k, false) -> mappedIDs st !! ID r2 = Some (k, false) -> ID r1 <> ID r2 ->
  new_id st r1 = 0.
Proof.
  intros Hst Hk H1 H2 Hne. unfold new_id. rewrite H1.
  change (default (0, false) (Some (k, false))) with (k, false). cbv beta iota. cbn [negb andb].
  pose proof (rm_claims _ Hst k Hk) as Hc.
  assert (Hsub : {[ID r1 := (k, false); ID r2 := (k, false)]} ⊆
    filter (fun kv : Z * (Z * bool) => kv.2 = (k, false)) (mappedIDs st)).
  { apply map_subseteq_spec. intros i x. rewrite lookup_insert_Some, lookup_singleton_Some.
    intros [[<- <-]|(_ & <- & <-)]; by apply map_lookup_filter_Some. }
  apply map_subseteq_size in Hsub.
  rewrite map_size_insert_None, map_size_singleton in Hsub by (by rewrite lookup_singleton_ne).
  rewrite (proj2 (Z.ltb_lt _ _)); [done|]. rewrite Hc. lia.
Qed.

(** ** The loop that builds the new references *)

Context (rm : remap_state) (dropg : string -> bool).

Definition ustep (st : update_state) (ref : NodeRef) : update_state :=
  if own ref then
    match oldServers !! Z.to_nat (ID ref - 1) with
    | Some raw => update_own rm (dropg (Outbound ref)) raw ref st
    | None => st
    end
  else mkUpdate (us_servers st) (us_retained st) (us_affected st) (us_updated st ++ [ref]).

(** Where a reference goes, given the old servers that are kept. *)
Definition image (retained : gmap Z Z) (r : NodeRef) : option NodeRef :=
  if own r then
    if new_id rm r =? 0 then
      if dropg (Outbound r) then None else with_id r <$> retained !! ID r
    else Some (with_id r (new_id rm r))
  else Some r.

(** Kept servers are where the map says. *)
Definition retained_ok (st : update_state) : Prop :=
  forall id n, us_retained st !! id = Some n ->
    1 <= n /\ exists raw, us_servers st !! Z.to_nat (n - 1) = Some raw /\ oldServers !! Z.to_nat (id - 1) = Some raw.

Lemma ustep_ok st r : retained_ok st -> (own r = true -> own_valid r) ->
  retained_ok (ustep st r) /\ us_retained st ⊆ us_retained (ustep st r) /\
  us_servers st `prefix_of` us_servers (ustep st r) /\
  us_updated (ustep st r) = us_updated st ++ option_list (image (us_retained (ustep st r)) r).
Proof.
  intros Hst Hr. unfold ustep, image. destruct (own r) eqn:Ho; [|done].
  destruct (Hr eq_refl) as [_ Hrange].
  destruct (lookup_lt_is_Some_2 oldServers (Z.to_nat (ID r - 1)) ltac:(lia)) as [raw Hraw]. rewrite Hraw.
  unfold update_own. destruct (Z.eqb_spec (new_id rm r) 0) as [Hz|Hz]; cbn [andb].
  - destruct (dropg (Outbound r)) eqn:Hd; cbn [us_retained us_servers us_updated].
    { split; [exact Hst|]. split; [done|]. split; [done|]. by rewrite app_nil_r. }
    destruct (us_retained st !! ID r) as [n|] eqn:Hn; cbn [default].
    + destruct (Hst _ _ Hn) as [Hn1 _]. unfold id. rewrite (proj2 (Z.eqb_neq _ _)) by lia.
      cbn [us_retained us_servers us_updated]. split; [exact Hst|]. split; [done|]. split; [done|].
      by rewrite Hn.
    + unfold id. rewrite Z.eqb_refl. cbn [us_retained us_servers us_updated]. split; [|split; [|split]].
      * intros i n. cbn [us_retained us_servers]. rewrite lookup_insert_Some. intros [[<- <-]|[_ Hi]].
        -- rewrite length_app. cbn [length]. split; [lia|]. exists raw. split; [|done].
           apply list_lookup_middle. lia.
        -- destruct (Hst _ _ Hi) as (H1 & x & H2 & H3). split; [done|]. exists x. split; [|done].
           by apply lookup_app_l_Some.
      * by apply insert_subseteq.
      * by apply prefix_app_r.
      * by rewrite lookup_insert_eq.
  - cbn [us_retained us_servers us_updated]. by split.
Qed.

Lemma ustep_retains st r : retained_ok st -> own_valid r -> new_id rm r = 0 -> dropg (Outbound r) = false ->
  is_Some (us_retained (ustep st r) !! ID r).
Proof.
  intros Hst [Ho Hrange] Hz Hd. unfold ustep. rewrite Ho.
  destruct (lookup_lt_is_Some_2 oldServers (Z.to_nat (ID r - 1)) ltac:(lia)) as [raw Hraw]. rewrite Hraw.
  unfold update_own. rewrite Hz, Hd. cbn [Z.eqb andb].
  destruct (us_retained st !! ID r) as [n|] eqn:Hn; cbn [default]; unfold id.
  - destruct (Hst _ _ Hn) as [Hn1 _]. rewrite (proj2 (Z.eqb_neq _ _)) by lia. cbn [us_retained]. by rewrite Hn.
  - rewrite Z.eqb_refl. cbn [us_retained]. by rewrite lookup_insert_eq.
Qed.

Lemma usteps_ok refs st : retained_ok st -> (forall r, r ∈ refs -> own r = true -> own_valid r) ->
  let st' := foldl ustep st refs in
  retained_ok st' /\ us_retained st ⊆ us_retained st' /\ us_servers st `prefix_of` us_servers st' /\
  us_updated st' = us_updated st ++ omap (image (us_retained st')) refs.
Proof.
  revert st. induction refs as [|r refs IH]; intros st Hst Hr; cbn [foldl].
  { split; [done|]. split; [done|]. split; [done|]. by rewrite app_nil_r. }
  destruct (ustep_ok st r Hst (Hr r ltac:(left))) as (H1 & H2 & H3 & H4).
  destruct (IH (ustep st r) H1) as (I1 & I2 & I3 & I4); [intros x Hx; apply Hr; by right|]. cbn zeta in *.
  split; [done|]. split; [by etrans|]. split; [by etrans|].
  rewrite I4, H4, <-app_assoc. f_equal. cbn [omap list_omap].
  assert (Him : image (us_retained (ustep st r)) r = image (us_retained (foldl ustep (ustep st r) refs)) r).
  { unfold image. destruct (own r) eqn:Ho; [|done]. destruct (new_id rm r =? 0) eqn:Hz; [|done].
    destruct (dropg (Outbound r)) eqn:Hd; [done|]. f_equal.
    destruct (us_retained (ustep st r) !! ID r) as [n|] eqn:Hn.
    - symmetry. by eapply lookup_weaken.
    - destruct (ustep_retains st r Hst (Hr r ltac:(left) Ho)) as [n Hn']; [by zbool|done|]. congruence. }
  rewrite Him. by destruct (image (us_retained (foldl ustep (ustep st r) refs)) r).
Qed.

Lemma usteps_retain refs st r : retained_ok st -> (forall r, r ∈ refs -> own r = true -> own_valid r) ->
  r ∈ refs -> own_valid r -> new_id rm r = 0 -> dropg (Outbound r) = false ->
  is_Some (us_retained (foldl ustep st refs) !! ID r).
Proof.
  revert st. induction refs as [|x refs IH]; intros st Hst Hv Hr Hown Hz Hd; [by apply elem_of_nil in Hr|].
  cbn [foldl]. destruct (ustep_ok st x Hst (Hv x ltac:(left))) as (H1 & _).
  assert (Hv' : forall r, r ∈ refs -> own r = true -> own_valid r) by (intros y Hy; apply Hv; by right).
  apply elem_of_cons in Hr as [->|Hr]; [|by apply IH].
  destruct (ustep_retains st x Hst Hown Hz Hd) as [n Hn].
  destruct (usteps_ok refs _ H1 Hv') as (_ & Hsub & _). exists n. by eapply lookup_weaken.
Qed.

(** The node a reference leads to afterwards. *)
Definition takes_over (raw s : ServerRaw) (k : Z) : Prop :=
  ExportToURL (sr_ServerObj s) = ExportToURL (sr_ServerObj raw) \/
  only_match (same_endpoint (sr_ServerObj raw)) nodes k \/
  only_match (same_name (sr_ServerObj raw)) nodes k.

Lemma image_leads st r raw r' :
  retained_ok st -> map (fun n => mkServerRaw n "") nodes `prefix_of` us_servers st ->
  own_valid r -> oldServers !! Z.to_nat (ID r - 1) = Some raw ->
  mappedIDs rm !! ID r = Some (remapSubscriptionNodeDetailed (old_at (ID r)) nodes) ->
  image (us_retained st) r = Some r' ->
  1 <= ID r' /\ exists s, us_servers st !! Z.to_nat (ID r' - 1) = Some s /\ takes_over raw s (ID r').
Proof.
  intros Hst Hpre [Ho Hrange] Hraw Hm. unfold image. rewrite Ho.
  destruct (Z.eqb_spec (new_id rm r) 0) as [Hz|Hz].
  - destruct (dropg (Outbound r)); [done|]. intros (n & Hn & ->)%fmap_Some. cbn [ID with_id].
    destruct (Hst _ _ Hn) as (H1 & x & H2 & H3). split; [done|]. exists x. split; [done|].
    assert (x = raw) as -> by congruence. by left.
  - intros [= <-]. cbn [ID with_id].
    destruct (remapSubscriptionNodeDetailed (old_at (ID r)) nodes) as [k exact] eqn:Hrm.
    assert (Hnew : new_id rm r = k).
    { unfold new_id in Hz |- *. rewrite Hm in Hz |- *. cbn in Hz |- *. by destruct (_ && _). }
    rewrite Hnew in Hz |- *. unfold old_at in Hrm. rewrite Hraw in Hrm. cbn in Hrm. apply remap_spec in Hrm.
    assert (Hlook : forall n, nodes !! Z.to_nat (k - 1) = Some n ->
      us_servers st !! Z.to_nat (k - 1) = Some (mkServerRaw n "")).
    { intros n Hn. eapply prefix_lookup_Some; [|done].
      by apply (list_lookup_fmap_Some_2 (fun n => mkServerRaw n "")). }
    destruct Hrm as [(? & _)|[(_ & H1 & n & Hn & Hu)|(_ & _ & [Hom|Hom])]]; [done|..].
    + split; [done|]. exists (mkServerRaw n ""). split; [by apply Hlook|]. left. done.
    + destruct Hom as (H1 & (n & Hn & Hf) & Hu) eqn:?. split; [done|]. exists (mkServerRaw n "").
      split; [by apply Hlook|]. right. left. done.
    + destruct Hom as (H1 & (n & Hn & Hf) & Hu) eqn:?. split; [done|]. exists (mkServerRaw n "").
      split; [by apply Hlook|]. right. right. done.
Qed.

End Remap.

(** ** The update in the database *)

Section Store.
Context `{J : Json} `{O : ServerObjs} `{E : !Encodings} `{JL : !JsonLaws J} `{EL : !EncodingLaws E}.

Definition setting_of (t : tables) (g : string) : OutboundSetting :=
  match t_system_config t !! makeKey (outbound_bucket g) "setting" with
  | Some d => match Unmarshal d with Ok s => s | Err _ => DefaultOutboundSetting end
  | None => DefaultOutboundSetting
  end.

Lemma reads_GetOutboundSetting t g : reads (GetOutboundSetting g) t (setting_of t g).
Proof.
  unfold reads, GetOutboundSetting. eapply reads_bind; [by apply reads_db_Get|]. wp_step. split; [|done].
  f_equal. unfold setting_of. by destruct (t_system_config t !! _).
Qed.

(** Groups whose references to a vanished node are dropped. *)
Definition drops (t : tables) (disconnect : bool) (g : string) : bool := disconnect || AutoAdd (setting_of t g).

Lemma update_own_drop rm d d' raw ref st : (new_id rm ref = 0 -> d = d') ->
  update_own rm d raw ref st = update_own rm d' raw ref st.
Proof.
  intros H. unfold update_own. destruct (Z.eqb_spec (new_id rm ref) 0) as [Hz|Hz]; [by rewrite H|done].
Qed.

Lemma wp_update_refs index oldServers rm disconnect refs st t :
  (forall r, r ∈ refs -> own index r = true -> own_valid index oldServers r) ->
  reads (update_refs index oldServers rm disconnect refs st) t
    (foldl (ustep index oldServers rm (drops t disconnect)) st refs).
Proof.
  revert st. induction refs as [|ref refs IH]; intros st Hv; cbn [update_refs foldl]; [by apply wp_ret|].
  unfold ustep at 2. fold (own index ref). destruct (own index ref) eqn:Ho; cycle 1.
  { apply IH. intros r Hr. apply Hv. by right. }
  destruct (Hv ref ltac:(left) Ho) as [_ Hrange].
  rewrite (proj2 (Z.leb_gt _ _)), (proj2 (Z.ltb_ge _ _)) by lia. cbn [orb].
  destruct (lookup_lt_is_Some_2 oldServers (Z.to_nat (ID ref - 1)) ltac:(lia)) as [raw Hraw]. rewrite Hraw.
  assert (HIH : forall st, reads (update_refs index oldServers rm disconnect refs st) t
    (foldl (ustep index oldServers rm (drops t disconnect)) st refs)).
  { intros st'. apply IH. intros r Hr. apply Hv. by right. }
  destruct ((new_id rm ref =? 0) && negb disconnect) eqn:Hb.
  - eapply reads_bind; [eapply reads_bind; [apply reads_GetOutboundSetting|]; by wp_step|].
    rewrite (update_own_drop _ _ (drops t disconnect (Outbound ref))); [apply HIH|].
    intros _. unfold drops. apply andb_true_iff in Hb as [_ Hb]. by destruct disconnect.
  - eapply reads_bind; [by apply wp_ret|].
    rewrite (update_own_drop _ _ (drops t disconnect (Outbound ref))); [apply HIH|].
    intros Hz. rewrite Hz in Hb. unfold drops. by destruct disconnect.
Qed.

(** What a transaction that stores a subscription with the connected lists
    leaves. *)
Definition stored_update (index : Z) (d : doc) (refs : list NodeRef) (t t' : tables) : Prop :=
  store_ok t' /\ store_packed t' /\ groups_ok t' /\
  v_servers (view_of t') = v_servers (view_of t) /\
  (exists row docs, at_index (v_subs (view_of t)) index = Some (row, docs) /\
     v_subs (view_of t') = <[Z.to_nat index := sub_of_doc (sb_id row) d]> (v_subs (view_of t))) /\
  group_names t' = group_names t /\
  forall g, g ∈ group_names t -> refs_of t' g = with_out g refs.

Lemma cleared_lookup refs (m : gmap string NodeRefs) g :
  foldl (fun m ref => <[Outbound ref := mkNodeRefs []]> m) m refs !! g =
  if decide (g ∈ map Outbound refs) then Some (mkNodeRefs []) else m !! g.
Proof.
  revert m. induction refs as [|r refs IH]; intros m; cbn [foldl map].
  { by rewrite decide_False by apply not_elem_of_nil. }
  rewrite IH. destruct (decide (g ∈ map Outbound refs)) as [Hin|Hin].
  - by rewrite decide_True by (by right).
  - destruct (decide (g = Outbound r)) as [->|Hne].
    + rewrite lookup_insert_eq. by rewrite decide_True by left.
    + rewrite lookup_insert_ne by done. by rewrite decide_False by (intros [?|?]%elem_of_cons; congruence).
Qed.

Lemma with_out_none g refs : g ∉ map Outbound refs -> with_out g refs = [].
Proof. intros H. apply filter_none. intros r Hr <-. apply H, list_elem_of_fmap. eauto. Qed.

(** The lists that are written. *)
Definition update_groups (current ws : list NodeRef) : gmap string NodeRefs :=
  foldl (fun m ref => <[Outbound ref := NodeRefs_Add (default (mkNodeRefs []) (m !! Outbound ref)) ref]> m)
    (foldl (fun m ref => <[Outbound ref := mkNodeRefs []]> m) ∅ current) ws.

Lemma update_groups_lookup current ws g :
  update_groups current ws !! g =
  if decide (g ∈ map Outbound (current ++ ws)) then Some (mkNodeRefs (with_out g ws)) else None.
Proof.
  unfold update_groups. rewrite group_fold_lookup, cleared_lookup, lookup_empty, map_app.
  destruct (with_out g ws) as [|r l] eqn:Hw.
  - destruct (decide (g ∈ map Outbound current)) as [H1|H1].
    + by rewrite decide_True by (rewrite elem_of_app; by left).
    + rewrite decide_False; [done|]. rewrite elem_of_app. intros [?|H2]; [done|].
      apply list_elem_of_fmap in H2 as (x & -> & Hx).
      assert (Hin : x ∈ with_out (Outbound x) ws) by (by apply list_elem_of_filter). rewrite Hw in Hin.
      by apply elem_of_nil in Hin.
  - rewrite (decide_True (P := g ∈ map Outbound current ++ map Outbound ws)).
    + by destruct (decide (g ∈ map Outbound current)).
    + assert (Hr : r ∈ with_out g ws) by (rewrite Hw; left). apply list_elem_of_filter in Hr as [<- Hr].
      rewrite elem_of_app. right. apply list_elem_of_fmap. eauto.
Qed.

Lemma refs_of_written t t' groups g refs : written groups (t_system_config t) (t_system_config t') ->
  (g, refs) ∈ groups -> refs_of t' g = Touches refs.
Proof. intros Hw Hin. unfold refs_of. by rewrite (stored_written _ _ _ _ _ Hw Hin). Qed.

Lemma refs_of_unwritten t t' groups g : written groups (t_system_config t) (t_system_config t') ->
  g ∉ map fst groups -> refs_of t' g = refs_of t g.
Proof.
  intros [_ Hw] Hin. unfold refs_of, stored. rewrite Hw; [done|].
  intros h Hh He. apply group_key_inj in He. congruence.
Qed.

Lemma with_out_named g refs : Forall (fun r => Outbound r = g) (with_out g refs).
Proof. apply Forall_forall. by intros r [? _]%list_elem_of_filter. Qed.

Lemma wp_SetSubscriptionAndConnects index sub ws t d p : store_ok t -> store_packed t -> groups_ok t ->
  at_index (v_subs (view_of t)) index = Some p -> Marshal sub = Ok d ->
  Forall (fun r => Outbound r ∈ group_names t) (NodeRefs_Get ws) ->
  wp false (SetSubscriptionAndConnects index sub ws) t (fun r t' =>
    r = Ok tt /\ stored_update index d (NodeRefs_Get ws) t t').
Proof.
  intros Hok Hp Hg Hi Hm Hws.
  set (groups := update_groups (connected t) (NodeRefs_Get ws)).
  destruct (write_lists_spec (map_to_list groups) t) as (m & Hw & Hwc); [apply NoDup_fst_map_to_list|].
  unfold SetSubscriptionAndConnects. eapply wp_mono; [apply (wp_SubscriptionsSet false index sub _ t (Some m) Hok Hp)|].
  { unfold writes_config. wp_step. eapply wp_mono; [by apply reads_GetConnectedServers|].
    intros r t0 (-> & w & -> & Hcw). rewrite Hcw. apply (Hwc false). }
  rewrite Hi, Hm. intros [u|e] t'.
  2:{ intros [_ H]. destruct (H eq_refl) as [?|[?|?]]; done. }
  intros (H1 & H2 & d' & r0 & docs & m' & [= <-] & [= Hp0] & [= <-] & Hv). destruct u.
  assert (Hm' : t_system_config t' = m) by apply (f_equal v_config Hv).
  assert (Hnames : t_outbound_names t' = t_outbound_names t) by apply (f_equal v_names Hv).
  assert (Hgn : group_names t' = group_names t) by (unfold group_names; by rewrite Hnames).
  rewrite <-Hm' in Hw.
  assert (Hrefs : forall g, g ∈ group_names t -> refs_of t' g = with_out g (NodeRefs_Get ws)).
  { intros g Hgin. pose proof (update_groups_lookup (connected t) (NodeRefs_Get ws) g) as Hl. fold groups in Hl.
    destruct (decide _) as [Hin|Hin].
    - rewrite (refs_of_written _ _ _ _ _ Hw (proj2 (elem_of_map_to_list _ _ _) Hl)). done.
    - rewrite (refs_of_unwritten _ _ _ g Hw).
      + rewrite map_app, elem_of_app in Hin.
        rewrite with_out_none by tauto. pose proof (groups_refs _ Hg g Hgin) as Hf.
        destruct (refs_of t g) as [|r l] eqn:Hr; [done|]. exfalso. apply Hin. left.
        apply list_elem_of_fmap. exists r. apply Forall_cons in Hf as [Hf _]. split; [done|].
        unfold connected. apply elem_of_concat_map. exists g. split; [done|]. rewrite Hr. left.
      + intros ((g' & x) & -> & Hx)%list_elem_of_fmap. apply elem_of_map_to_list in Hx. cbn in Hl. congruence. }
  split; [done|]. split; [done|]. split; [done|]. split; [|split; [|split; [|split]]].
  - destruct Hg. split; [by rewrite Hnames|by rewrite Hnames|].
    intros g Hgin. rewrite Hgn in Hgin. rewrite Hrefs by done. apply with_out_named.
  - by rewrite Hv.
  - exists r0, docs. by rewrite Hi, Hp0, Hv.
  - done.
  - done.
Qed.

End Store.

(** ** The property *)

Section Update.
Context `{J : Json} `{O : ServerObjs} `{E : !Encodings} `{JL : !JsonLaws J} `{EL : !EncodingLaws E}.
Context `{K : !Kernel} `{KL : !KernelLaws K}.

(** Where a reference goes when the subscription at [index] gets [servers]. *)
Definition selection_kept (index : Z) (oldServers : list ServerRaw) (nodes : list ServerObj)
    (servers : list ServerRaw) (dropped : string -> bool) (move : NodeRef -> option NodeRef) (r : NodeRef) : Prop :=
  if own index r then
    match move r with
    | None => dropped (Outbound r) = true /\
        forall raw, oldServers !! Z.to_nat (ID r - 1) = Some raw ->
          Forall (fun n => ExportToURL n <> ExportToURL (sr_ServerObj raw)) nodes
    | Some r' => TYPE r' = TYPE r /\ Sub r' = Sub r /\ Outbound r' = Outbound r /\ 1 <= ID r' /\
        exists raw s, oldServers !! Z.to_nat (ID r - 1) = Some raw /\
          servers !! Z.to_nat (ID r' - 1) = Some s /\ takes_over nodes raw s (ID r')
    end
  else move r = Some r.

Lemma reads_run {A} (c : DB A) t a : reads c t a -> c (mkDatabase t []) = (Ok a, mkDatabase t []).
Proof.
  intros H. destruct (H [] ltac:(done)) as (r & t' & fs & Hc & Hfs & -> & ->). by rewrite Hc, Hfs.
Qed.

Lemma image_outbound index rm dropg ret r r' : image index rm dropg ret r = Some r' ->
  TYPE r' = TYPE r /\ Sub r' = Sub r /\ Outbound r' = Outbound r.
Proof.
  unfold image. destruct (own index r); [|by intros [= <-]].
  destruct (new_id rm r =? 0); [|by intros [= <-]]. destruct (dropg (Outbound r)); [done|].
  by intros (n & _ & ->)%fmap_Some.
Qed.

Lemma image_kept index oldServers nodes t disconnect refs st r : r ∈ refs ->
  let rm := remap_refs index oldServers nodes refs in
  let dropg := drops t disconnect in
  (own index r = true -> own_valid index oldServers r) ->
  retained_ok oldServers st -> map (fun n => mkServerRaw n "") nodes `prefix_of` us_servers st ->
  (own index r = true -> new_id rm r = 0 -> dropg (Outbound r) = false -> is_Some (us_retained st !! ID r)) ->
  selection_kept index oldServers nodes (us_servers st) dropg (image index rm dropg (us_retained st)) r.
Proof.
  cbn zeta. intros Hr Hv Hst Hpre Hret. unfold selection_kept. destruct (own index r) eqn:Ho.
  2:{ unfold image. by rewrite Ho. }
  destruct (remap_refs_ok index oldServers nodes refs) as [_ Hmap].
  specialize (Hv eq_refl). specialize (Hmap r Hr Hv).
  destruct (lookup_lt_is_Some_2 oldServers (Z.to_nat (ID r - 1)) ltac:(destruct Hv; lia)) as [raw Hraw].
  destruct (image index _ _ (us_retained st) r) as [r'|] eqn:Him.
  - destruct (image_outbound _ _ _ _ _ _ Him) as (H1 & H2 & H3).
    destruct (image_leads index oldServers nodes _ _ st r raw r' Hst Hpre Hv Hraw Hmap Him) as (H4 & s & H5 & H6).
    split; [done|]. split; [done|]. split; [done|]. split; [done|]. by exists raw, s.
  - unfold image in Him. rewrite Ho in Him. destruct (Z.eqb_spec (new_id (remap_refs index oldServers nodes refs) r) 0) as [Hz|]; [|done].
    destruct (drops t disconnect (Outbound r)) eqn:Hd.
    2:{ destruct (Hret eq_refl Hz eq_refl) as [n Hn]. by rewrite Hn in Him. }
    split; [done|]. intros raw' Hraw'. assert (raw' = raw) as -> by congruence.
    destruct (remapSubscriptionNodeDetailed (old_at oldServers (ID r)) nodes) as [k exact] eqn:Hrm.
    unfold new_id in Hz. rewrite Hmap in Hz. cbn in Hz. unfold old_at in Hrm. rewrite Hraw in Hrm. cbn in Hrm.
    apply remap_spec in Hrm. destruct Hrm as [(_ & _ & H)|[(-> & H1 & _)|(_ & H & _)]]; [done| |done].
    cbn in Hz. lia.
Qed.

(** The state after the new servers and lists are stored. *)
Lemma stored_selection index (old : SubscriptionRaw) nodes disconnect t : groups_ok t ->
  (forall r, r ∈ connected t -> own index r = true -> own_valid index (su_Servers old) r) ->
  let rm := remap_refs index (su_Servers old) nodes (connected t) in
  let st := foldl (ustep index (su_Servers old) rm (drops t disconnect))
              (mkUpdate (map (fun n => mkServerRaw n "") nodes) ∅ false []) (connected t) in
  let move := image index rm (drops t disconnect) (us_retained st) in
  map (fun n => mkServerRaw n "") nodes `prefix_of` us_servers st /\
  us_updated st = omap move (connected t) /\
  Forall (fun r => Outbound r ∈ group_names t) (us_updated st) /\
  (forall g, g ∈ group_names t -> with_out g (us_updated st) = omap move (refs_of t g)) /\
  forall r, r ∈ connected t ->
    selection_kept index (su_Servers old) nodes (us_servers st) (drops t disconnect) move r.
Proof.
  intros Hg Hv. cbn zeta. set (rm := remap_refs _ _ _ _). set (st0 := mkUpdate _ _ _ _).
  destruct (usteps_ok index (su_Servers old) rm (drops t disconnect) (connected t) st0) as (H1 & H2 & H3 & H4); [|done|].
  { intros i n. cbn [st0 us_retained]. by rewrite lookup_empty. }
  cbn zeta in *. set (st := foldl _ st0 _) in *. cbn [st0 us_updated us_servers app] in H3, H4.
  assert (Hout : forall g l, Forall (fun r => Outbound r = g) l ->
    Forall (fun r => Outbound r = g) (omap (image index rm (drops t disconnect) (us_retained st)) l)).
  { intros g l Hl. rewrite Forall_forall in Hl |- *. intros r (x & Hx & Hi)%list_elem_of_omap.
    apply image_outbound in Hi as (_ & _ & ->). by apply Hl. }
  split; [done|]. split; [done|]. split; [|split].
  - rewrite H4. apply Forall_forall. intros r (x & Hx & Hi)%list_elem_of_omap.
    apply image_outbound in Hi as (_ & _ & ->). unfold connected in Hx.
    apply elem_of_concat_map in Hx as (g & Hgin & Hx). pose proof (groups_refs _ Hg g Hgin) as Hf.
    rewrite Forall_forall in Hf. by rewrite (Hf x Hx).
  - intros g Hgin. rewrite H4. unfold connected. rewrite omap_concat, map_map.
    apply (with_out_concat (fun h => omap (image index rm (drops t disconnect) (us_retained st)) (refs_of t h)));
      [by apply group_names_nodup|done|]. intros h Hh. apply Hout. by apply (groups_refs _ Hg).
  - intros r Hr. apply image_kept; [done|by auto|done|done|].
    intros Ho Hz Hd. apply usteps_retain; auto. intros i n. unfold st0. cbn [us_retained].
    by rewrite lookup_empty.
Qed.

Lemma same_catalogue_ok t t' : same_catalogue t t' -> store_ok t -> store_packed t -> groups_ok t ->
  store_ok t' /\ store_packed t' /\ groups_ok t'.
Proof.
  intros Hs Hok Hp Hg. destruct (same_catalogue_views _ _ Hs) as (_ & _ & V3 & V4).
  destruct Hs as (H1 & H2 & H3 & H4 & _). split; [|split].
  - destruct Hok. split; rewrite ?H1, ?H2, ?H3; done.
  - destruct Hp. split; rewrite ?H1, ?H2; done.
  - destruct Hg. split; rewrite ?H4; try done. intros g Hg. rewrite V4 in Hg.
    unfold refs_of. rewrite V3. by apply groups_refs.
Qed.

Lemma connected_by_group t g : groups_ok t -> g ∈ group_names t -> with_out g (connected t) = refs_of t g.
Proof.
  intros Hg Hin. unfold connected. apply (with_out_concat (refs_of t)); [by apply group_names_nodup|done|].
  intros h Hh. by apply (groups_refs _ Hg).
Qed.

Lemma connected_named t : groups_ok t -> Forall (fun r => Outbound r ∈ group_names t) (connected t).
Proof.
  intros Hg. apply Forall_forall. intros r Hr. unfold connected in Hr.
  apply elem_of_concat_map in Hr as (g & Hgin & Hr). pose proof (groups_refs _ Hg g Hgin) as Hf.
  rewrite Forall_forall in Hf. by rewrite (Hf r Hr).
Qed.

(** Storing the old subscription and the old lists over an update. *)
Lemma stored_rollback index old previous t t1 row docs d dold : store_ok t1 -> store_packed t1 -> groups_ok t1 ->
  groups_ok t -> group_names t1 = group_names t -> NodeRefs_Get previous = connected t -> Marshal old = Ok dold ->
  at_index (v_subs (view_of t)) index = Some (row, docs) ->
  v_servers (view_of t1) = v_servers (view_of t) ->
  v_subs (view_of t1) = <[Z.to_nat index := sub_of_doc (sb_id row) d]> (v_subs (view_of t)) ->
  exists t2, SetSubscriptionAndConnects index old previous (mkDatabase t1 []) = (Ok tt, mkDatabase t2 []) /\
    v_servers (view_of t2) = v_servers (view_of t) /\
    v_subs (view_of t2) = <[Z.to_nat index := sub_of_doc (sb_id row) dold]> (v_subs (view_of t)) /\
    forall g, g ∈ group_names t -> refs_of t2 g = refs_of t g.
Proof.
  intros Hok1 Hp1 Hg1 Hg Hn Hprev Hm Hi Hs Hv. destruct (at_index_Some _ _ _ Hi) as (Hz & _ & Hlt).
  assert (Hi1 : at_index (v_subs (view_of t1)) index = Some (sub_of_doc (sb_id row) d)).
  { rewrite Hv. unfold at_index. rewrite (proj2 (Z.ltb_ge _ _)) by lia. by apply list_lookup_insert_eq. }
  destruct (wp_SetSubscriptionAndConnects index old previous t1 dold _ Hok1 Hp1 Hg1 Hi1 Hm) with (fs := @nil (option error))
    as (r & t2 & fs & Hc & Hfs & -> & _ & _ & _ & Hs2 & (row2 & docs2 & Hi2 & Hv2) & _ & Hr2); [|done|].
  { rewrite Hprev, Hn. by apply connected_named. }
  rewrite Hfs in Hc by done. exists t2. split; [done|]. split; [by rewrite Hs2|]. split.
  - rewrite Hi1 in Hi2. injection Hi2 as <- <-. rewrite Hv2, Hv. cbn [sb_id doc_columns].
    by rewrite list_insert_insert_eq.
  - intros g Hgin. rewrite Hr2 by (by rewrite Hn). rewrite Hprev. by apply connected_by_group.
Qed.

(** What storing an update of the subscription in [row] makes of [t]; with
    [applied = false] the update was taken back. *)
Definition update_outcome (status : string) (index : Z) (old : SubscriptionRaw) (nodes : list ServerObj)
    (info : string) (disconnect : bool) (row : sub_row) (t : tables) (applied : bool) (t' : tables) : Prop :=
  exists servers d dold (move : NodeRef -> option NodeRef),
    Marshal (set_servers (set_status old status info) servers) = Ok d /\ Marshal old = Ok dold /\
    map (fun n => mkServerRaw n "") nodes `prefix_of` servers /\
    (forall r, r ∈ connected t ->
       selection_kept index (su_Servers old) nodes servers (drops t disconnect) move r) /\
    v_servers (view_of t') = v_servers (view_of t) /\
    v_subs (view_of t') = <[Z.to_nat index := sub_of_doc (sb_id row) (if applied then d else dold)]>
                            (v_subs (view_of t)) /\
    forall g, g ∈ group_names t ->
      refs_of t' g = if applied then omap move (refs_of t g) else refs_of t g.


End Update.

(** ** Example *)

Section Example.
Import JsonRef CatalogRef.

Definition node_of (url name : string) : node := mkNode url "ss" "example.org" 443 name.
Definition example_old : SubscriptionRaw :=
  mkSubscriptionRaw 1 "disabled" 0 1 false "" "https://sub.example" ""
    [mkServerRaw (node_of "ss://x" "x") ""; mkServerRaw (node_of "ss://y" "y") ""] "" false.


End Example.
