(* ===== verification/ConnectProps.v ===== *)
(** * Connecting nodes to a group (service/server/service/connect.go)

    A change of a group's list is stored and handed to the core; if the core
    refuses it, the list of before is put back. *)

From S2P Require Import Prelude.
From S2P Require Import Store StoreLists StoreProps NodeRefs Configure.
From S2P Require Import Catalog DeleteProps ConfigureProps JsonRef CatalogRef CatalogProps UpdateProps.

#[local] Open Scope Z_scope.
#[local] Open Scope go_scope.

Section Connect.
Context `{J : Json} `{O : ServerObjs} `{E : !Encodings} `{JL : !JsonLaws J} `{EL : !EncodingLaws E}.
Context `{K : !Kernel} `{KL : !KernelLaws K}.

(** [t'] is [t] with the list [l] in group [g]. *)
Definition sets_group (g : string) (l : list NodeRef) (t t' : tables) : Prop :=
  refs_of t' g = l /\ t_servers t' = t_servers t /\ t_subscriptions t' = t_subscriptions t /\
  t_subscriptions_seq t' = t_subscriptions_seq t /\ t_outbound_names t' = t_outbound_names t /\
  forall k, k <> group_key g -> ~ kernel_key k -> t_system_config t' !! k = t_system_config t !! k.

Lemma sets_group_trans g l l' t t1 t' : sets_group g l t t1 -> sets_group g l' t1 t' -> sets_group g l' t t'.
Proof.
  intros (_ & H1 & H2 & H3 & H4 & H5) (G0 & G1 & G2 & G3 & G4 & G5). unfold sets_group.
  rewrite G1, G2, G3, G4. do 5 (split; [done|]). intros k Hk Hk'. by rewrite G5, H5.
Qed.

Lemma sets_group_kernel g l t t1 t' : sets_group g l t t1 -> same_catalogue t1 t' -> sets_group g l t t'.
Proof.
  intros (H0 & H1 & H2 & H3 & H4 & H5) Hs. destruct (same_catalogue_views _ _ Hs) as (_ & _ & V3 & _).
  destruct Hs as (G1 & G2 & G3 & G4 & G5). unfold sets_group, refs_of. rewrite V3, G1, G2, G3, G4.
  do 5 (split; [done|]). intros k Hk Hk'. by rewrite G5, H5.
Qed.

Lemma sets_group_refl g t : sets_group g (refs_of t g) t t.
Proof. by repeat split. Qed.

Lemma write_refs g d t l :
  Unmarshal d = Ok (mkNodeRefs l) ->
  sets_group g l t (with_system_config t (<[group_key g := d]> (t_system_config t))).
Proof.
  intros Hd. split.
  - unfold refs_of, stored. cbn. rewrite lookup_insert_eq. cbn. by rewrite Hd.
  - do 4 (split; [done|]). intros k Hk _. cbn. by rewrite lookup_insert_ne.
Qed.

(** A write without failing statements. *)
Definition writes (c : DB unit) (g : string) (l : list NodeRef) (t : tables) : Prop :=
  exists t', c (mkDatabase t []) = (Ok tt, mkDatabase t' []) /\ sets_group g l t t'.

Lemma db_Set_run {V} `{!GoJson V} b k (v : V) t d : Marshal v = Ok d ->
  db_Set b k v (mkDatabase t []) =
  (Ok tt, mkDatabase (with_system_config t (<[makeKey b k := d]> (t_system_config t))) []).
Proof. intros Hd. unfold db_Set, db_bind, db_lift. by rewrite Hd. Qed.

Lemma writes_refs g rs t : writes (db_Set (outbound_bucket g) connected_key rs) g (Touches rs) t.
Proof.
  destruct (refs_roundtrip rs) as (d & Hm & Hu). eexists. split; [by apply db_Set_run|].
  apply write_refs. rewrite Hu. by destruct rs.
Qed.

Lemma writes_clear g t : writes (ClearConnects g) (or_proxy g) [] t.
Proof.
  destruct nil_is_empty as (d & Hm & Hu). eexists. split; [by apply db_Set_run|]. by apply write_refs.
Qed.

(** The list of one group, written alone. *)
Lemma byOutbound_one g l : l <> [] -> Forall (fun r => Outbound r = g) l ->
  map_to_list (byOutbound l) = [(g, mkNodeRefs l)].
Proof.
  intros Hne Hl.
  assert (Hm : byOutbound l = {[ g := mkNodeRefs l ]}).
  { apply map_eq. intros h. rewrite byOutbound_lookup. destruct (decide (h = g)) as [->|Hh].
    - rewrite with_out_own, lookup_singleton_eq by done. by destruct l.
    - by rewrite (with_out_other h g), lookup_singleton_ne. }
  by rewrite Hm, map_to_list_singleton.
Qed.

Lemma writes_overwrite g l t : l <> [] -> Forall (fun r => Outbound r = g) l ->
  writes (OverwriteConnects (Some (mkNodeRefs l))) g l t.
Proof.
  intros Hne Hl. unfold OverwriteConnects. cbn [NodeRefs_Get Touches]. rewrite (byOutbound_one g) by done.
  destruct (writes_refs g (mkNodeRefs l) t) as (t' & Hc & Hs). exists t'. split; [|done].
  cbn [write_lists]. unfold db_bind. by rewrite Hc.
Qed.

Lemma or_proxy_idem g : or_proxy (or_proxy g) = or_proxy g.
Proof.
  unfold or_proxy. destruct (String.eqb_spec g "") as [->|H]; [done|]. by rewrite (proj2 (String.eqb_neq _ _) H).
Qed.

Lemma or_proxy_nonempty g : or_proxy g <> ""%string.
Proof. unfold or_proxy. by destruct (String.eqb_spec g ""). Qed.

(** Putting back what a group had. *)
Lemma restore_run g backup t1 k : or_proxy g = g -> Forall (fun r => Outbound r = g) (NodeRefs_Get backup) ->
  exists t', restore_group g backup (mkDatabase t1 [], k) = (Ok tt, (mkDatabase t' [], k)) /\
    sets_group g (NodeRefs_Get backup) t1 t'.
Proof.
  intros Hg Hl. unfold restore_group, sv_bind, sv_try, sv_db, sv_ret. cbn [fst snd].
  destruct backup as [[l]|]; cbn [NodeRefs_Len NodeRefs_Get Touches] in *.
  - destruct l as [|r l].
    + destruct (writes_clear g t1) as (t' & Hc & Hs).
      change (0 <? Z.of_nat (length (@nil NodeRef))) with false. cbn iota. rewrite Hc. rewrite Hg in Hs. eauto.
    + destruct (writes_overwrite g (r :: l) t1) as (t' & Hc & Hs); [done|done|].
      cbn [length]. rewrite (proj2 (Z.ltb_lt 0 _)) by lia. rewrite Hc. eauto.
  - destruct (writes_clear g t1) as (t' & Hc & Hs). change (0 <? 0) with false. cbn iota. rewrite Hc. rewrite Hg in Hs. eauto.
Qed.

Lemma map_normalize l g : g <> ""%string -> Forall (fun r => Outbound r = g) l -> map normalize l = l.
Proof.
  intros Hg Hl. rewrite <-(map_id l) at 2. apply map_ext_in. intros r Hr%list_elem_of_In.
  rewrite Forall_forall in Hl. specialize (Hl r Hr). unfold normalize, or_proxy. rewrite Hl.
  rewrite (proj2 (String.eqb_neq _ _)) by done. rewrite <-Hl. by destruct r.
Qed.

Lemma run_connected_by t g : or_proxy g = g ->
  GetConnectedServersByOutbound g (mkDatabase t []) = (Ok (stored t g), mkDatabase t []).
Proof. intros Hg. rewrite <-Hg at 2. apply reads_run, reads_connected_by. Qed.

Lemma run_setting t g : GetOutboundSetting g (mkDatabase t []) = (Ok (setting_of t g), mkDatabase t []).
Proof. apply reads_run, reads_GetOutboundSetting. Qed.

(** The group with one more reference. *)
Definition with_ref (l : list NodeRef) (r : NodeRef) : list NodeRef :=
  if existsb (fun v => EqualTo v r) l then l else l ++ [r].

Lemma AddConnect_run r t : let g := or_proxy (Outbound r) in
  Forall (fun r => Outbound r = g) (refs_of t g) ->
  writes (AddConnect r) g (with_ref (refs_of t g) (with_outbound r g)) t.
Proof.
  cbn zeta. set (g := or_proxy (Outbound r)). intros Hl.
  assert (Hs : stored_refs (outbound_bucket g) (mkDatabase t []) = (Ok (mkNodeRefs (refs_of t g)), mkDatabase t [])).
  { apply reads_run. unfold reads, stored_refs. eapply reads_bind; [by apply reads_db_Get|]. wp_step. split; [|done].
    f_equal. unfold refs_of, stored. fold (group_key g).
    destruct (t_system_config t !! group_key g) as [d|]; [|done]. cbn. by destruct (Unmarshal d) as [[l]|]. }
  unfold AddConnect. change (Outbound (normalize r)) with g. unfold writes, db_bind. rewrite Hs. cbn [Touches].
  rewrite (map_normalize _ g) by (done || apply or_proxy_nonempty). unfold with_ref.
  change (normalize r) with (with_outbound r g).
  destruct (existsb _ (refs_of t g)); [by eexists; split; [|apply sets_group_refl]|].
  destruct (writes_refs g (NodeRefs_Add (mkNodeRefs (refs_of t g)) (with_outbound r g)) t) as (t' & Hc & Hs').
  exists t'. split; [by rewrite Hc|done].
Qed.

(** Reads change nothing. *)
Definition only_reads {A} (c : DB A) : Prop := forall t, exists r, c (mkDatabase t []) = (r, mkDatabase t []).

Lemma only_reads_ret {A} (a : A) : only_reads (db_ret a).
Proof. intros t. by eexists. Qed.
Lemma only_reads_lift {A} (r : result A) : only_reads (db_lift r).
Proof. intros t. by eexists. Qed.
Lemma only_reads_fail {A} e : only_reads (db_fail (A := A) e).
Proof. intros t. by eexists. Qed.
Lemma only_reads_query {A} (f : tables -> A) : only_reads (query f).
Proof. intros t. by eexists. Qed.
Lemma only_reads_try {A} (c : DB A) : only_reads c -> only_reads (db_try c).
Proof. intros H t. destruct (H t) as [r Hr]. unfold db_try. rewrite Hr. by eexists. Qed.
Lemma only_reads_bind {A B} (c : DB A) (k : A -> DB B) :
  only_reads c -> (forall a, only_reads (k a)) -> only_reads (db_bind c k).
Proof.
  intros H Hk t. destruct (H t) as [[a|e] Hr]; unfold db_bind; rewrite Hr; [apply Hk|by eexists].
Qed.

Create HintDb reads_db discriminated.
#[local] Hint Resolve only_reads_ret only_reads_lift only_reads_fail only_reads_query only_reads_try
  only_reads_bind : reads_db.

Lemma only_reads_docs rows : only_reads (subscription_docs rows).
Proof.
  induction rows as [|r rows IH]; cbn [subscription_docs]; [apply only_reads_ret|].
  unfold servers_of_subscription. auto 10 with reads_db.
Qed.
#[local] Hint Resolve only_reads_docs : reads_db.

Lemma only_reads_locate w : only_reads (LocateServerRaw w).
Proof.
  unfold LocateServerRaw, GetServers, GetSubscriptions, ServersGetAll, SubscriptionsGetAll.
  apply only_reads_bind; [destruct (String.eqb _ _); auto with reads_db|]. intros servers.
  apply only_reads_bind; [destruct (String.eqb _ _); auto 10 with reads_db|]. auto with reads_db.
Qed.


(** ** Replacing the members of a group *)

(** A member that may be stored in group [g]. *)
Definition good_member (g : string) (r : NodeRef) : Prop :=
  Outbound r = g /\ 1 <= ID r /\
  ((TYPE r = ServerType /\ Sub r = 0) \/ (TYPE r = SubscriptionServerType /\ 0 <= Sub r)).

Lemma normalized_good g i seen touches l : normalized_touches g i seen touches = Ok l ->
  Forall (good_member g) l /\ NoDup l /\ forall r, r ∈ l -> r ∉ seen.
Proof.
  revert i seen l. induction touches as [|wt touches IH]; intros i seen l; cbn [normalized_touches].
  { intros [= <-]. split; [constructor|]. split; [constructor|]. by intros r ?%elem_of_nil. }
  set (w := with_outbound wt g). destruct (Z.leb_spec (ID w) 0); [done|].
  assert (Hw : forall w', (if String.eqb (TYPE w) ServerType then Ok (with_sub w 0)
         else if String.eqb (TYPE w) SubscriptionServerType then
           if Sub w <? 0 then Err (Errorf "invalid subscription index at index %d: %d" [FInt i; FInt (Sub w)])
           else Ok w
         else Err (Errorf "invalid touch type at index %d: %q" [FInt i; FStr (TYPE w)])) = Ok w' ->
    good_member g w').
  { intros w'. destruct (String.eqb_spec (TYPE w) ServerType) as [H1|H1].
    - intros [= <-]. split; [done|]. split; [change (1 <= ID w); lia|]. left. by split.
    - destruct (String.eqb_spec (TYPE w) SubscriptionServerType) as [H2|H2]; [|done].
      destruct (Z.ltb_spec (Sub w) 0); [done|]. intros [= <-]. split; [done|]. split; [lia|]. right. by split. }
  destruct (if String.eqb (TYPE w) ServerType then _ else _) as [w'|e]; [|done]. specialize (Hw w' eq_refl).
  destruct (decide (w' ∈ seen)) as [Hin|Hin]; [by apply IH|].
  destruct (normalized_touches g (i + 1) (w' :: seen) touches) as [out|e] eqn:Hr; [|done]. intros [= <-].
  destruct (IH _ _ _ Hr) as (H1 & H2 & H3). split; [by constructor|]. split.
  - constructor; [|done]. intros Hx. apply (H3 w' Hx). left.
  - intros r [->|Hx]%elem_of_cons; [done|]. intros Hs. apply (H3 r Hx). by right.
Qed.

Lemma replace_run outbound touches managed s :
  let t := db_tables s.1 in
  let g := or_proxy outbound in
  db_faults s.1 = [] -> Forall (fun r => Outbound r = g) (refs_of t g) ->
  let '(res, s') := replaceOutboundConnections outbound touches managed s in
  let t' := db_tables s'.1 in
  match res with
  | Ok _ => AutoAdd (setting_of t g) = managed /\
      exists l, normalized_touches g 0 [] touches = Ok l /\ NoDup l /\ Forall (good_member g) l /\
        sets_group g l t t'
  | Err _ => sets_group g (refs_of t g) t t' /\
      (AutoAdd (setting_of t g) = managed -> is_ok (normalized_touches g 0 [] touches) = true -> k_running s.2 = true)
  end.
Proof.
  cbn zeta. destruct s as [[t fs] k]. cbn [fst db_tables db_faults]. intros -> Hl.
  set (g := or_proxy outbound) in *. assert (Hg : or_proxy g = g) by apply or_proxy_idem.
  unfold replaceOutboundConnections, sv_wrap, sv_bind, sv_try, sv_db, sv_ret, sv_fail, sv_running, sv_update_group.
  cbn [fst snd]. fold g. rewrite run_setting. cbn [fst snd].
  destruct (Bool.eqb (AutoAdd (setting_of t g)) managed) eqn:Ha; cbn [negb];
    [|cbn; split; [apply sets_group_refl|]; intros Hm; by rewrite Hm, Bool.eqb_reflx in Ha].
  apply Bool.eqb_prop in Ha.
  destruct (normalized_touches g 0 [] touches) as [l|e] eqn:Hn; [|cbn; split; [apply sets_group_refl|done]]. cbn [fst snd].
  destruct (normalized_good _ _ _ _ _ Hn) as (Hgood & Hnd & _).
  assert (Hw : writes (match l with [] => ClearConnects g | _ => OverwriteConnects (Some (mkNodeRefs l)) end) g l t).
  { destruct l as [|r l]; [rewrite <-Hg at 2; apply writes_clear|]. apply writes_overwrite; [done|].
    apply (Forall_impl _ _ _ Hgood). by intros x [? _]. }
  destruct Hw as (t1 & Hc1 & Hs1). rewrite (run_connected_by t g Hg). cbn [fst snd]. rewrite Hc1. cbn [fst snd].
  destruct (k_running k) eqn:Hrun; [|by cbn; eauto 10].
  destruct (k_update_group (mkDatabase t1 [], k)) as [r2 [[t2 fs2] k2]] eqn:Hk2.
  pose proof (update_group_keeps _ _ _ Hk2) as Hs2. pose proof (update_group_faults _ _ _ Hk2) as Hf2.
  cbn [fst snd db_tables db_faults] in *. apply suffix_nil_inv in Hf2 as ->.
  destruct r2 as [u2|err]; cbn [fst snd db_tables].
  { split; [done|]. exists l. do 3 (split; [done|]). by eapply sets_group_kernel. }
  destruct (restore_run g (stored t g) t2 k2 Hg Hl) as (t3 & Hc3 & Hs3). rewrite Hc3. cbn [fst snd].
  destruct (k_update_group (mkDatabase t3 [], k2)) as [r4 [[t4 fs4] k4]] eqn:Hk4.
  pose proof (update_group_keeps _ _ _ Hk4) as Hs4. cbn [fst snd db_tables] in *.
  split; [|done]. eapply sets_group_kernel; [|exact Hs4]. eapply sets_group_trans; [|exact Hs3]. by eapply sets_group_kernel.
Qed.

(** Replacing the members of a group either stores exactly the requested
    nodes, each once and with the group's name, or, when the core refuses them or
    at any other error, leaves the list of before; only a caller of the group's own
    kind, automatic or manual, gets through, and nothing else that is stored, but
    the core's own keys, changes. *)
Theorem replace_sets_or_restores outbound touches managed s :
  let t := db_tables s.1 in
  let g := or_proxy outbound in
  db_faults s.1 = [] -> Forall (fun r => Outbound r = g) (refs_of t g) ->
  let '(res, s') := replaceOutboundConnections outbound touches managed s in
  let t' := db_tables s'.1 in
  match res with
  | Ok _ => AutoAdd (setting_of t g) = managed /\
      exists l, normalized_touches g 0 [] touches = Ok l /\ NoDup l /\ Forall (good_member g) l /\
        sets_group g l t t'
  | Err _ => sets_group g (refs_of t g) t t'
  end.
Proof.
  intros t g Hf Hl. pose proof (replace_run outbound touches managed s Hf Hl) as H.
  destruct (replaceOutboundConnections _ _ _ _) as [[u|e] s']; [exact H|apply H].
Qed.

End Connect.

(** ** Examples *)

Section Examples.
Import JsonRef CatalogRef.


Lemma replace_sets_or_restores_witness :
  let s := example_service [] in
  let '(res, s') := replaceOutboundConnections "" [mkNodeRef ServerType 2 7 ""; mkNodeRef ServerType 2 0 "x"] false s in
  res = Ok tt /\ sets_group "proxy" [mkNodeRef ServerType 2 0 "proxy"] (db_tables s.1) (db_tables s'.1).
Proof.
  cbn zeta. pose proof (replace_sets_or_restores "" [mkNodeRef ServerType 2 7 ""; mkNodeRef ServerType 2 0 "x"] false
    (example_service []) eq_refl) as H. cbn zeta in H.
  assert (Hl : Forall (fun r => Outbound r = "proxy"%string) (refs_of (db_tables (example_service []).1) "proxy")).
  { apply (groups_refs _ (proj2 (proj2 example_tables_ok))). left. }
  specialize (H Hl).
  destruct (replaceOutboundConnections "" _ false (example_service [])) as [res s'] eqn:He.
  assert (Hr : res = Ok tt) by (apply (f_equal fst) in He; vm_compute in He; by rewrite <-He).
  subst res. split; [done|]. destruct H as (_ & l & Hn & _ & _ & Hs).
  assert (Hl' : l = [mkNodeRef ServerType 2 0 "proxy"]) by (vm_compute in Hn; by injection Hn).
  subst l. apply Hs.
Defined.

(** A core that refuses every configuration. *)
Definition refusing_core : Kernel := {|
  kernel := bool;
  k_running b := b;
  k_update s := (Err (ExtErr "core"), s);
  k_update_group s := (Err (ExtErr "core"), s);
  k_check_support _ := Ok tt;
  k_set_ip_forward k := k;
|}.

(** The database must answer: if the list of before cannot be read and the core
    then refuses the node, the list is cleared. *)
Lemma failed_backup_clears :
  let s : database * bool := (mkDatabase example_tables [None; None; Some (ExtErr "database is locked")], true) in
  let '(r, s') := Connect (K := refusing_core) (Some (mkNodeRef ServerType 2 0 "")) s in
  is_ok r = false /\ refs_of (db_tables s'.1) "proxy" = [] /\ length (refs_of example_tables "proxy") = 3%nat.
Proof. vm_compute. auto. Qed.

End Examples.
