(* ===== verification/Automation.v ===== *)
(** * The automation worker (service/server/service/automation.go)

    The worker updates subscriptions and the membership of groups in the
    background.  It runs between the requests of the dashboard: its context may be
    cancelled at any moment, and whenever it takes the configuration lock the
    stored configuration may have been changed by others.  What the outside does
    is the class [Outside], functions of the number of interactions so far. *)

From stdpp Require Import pretty.
From S2P Require Import Prelude.
From S2P Require Import Store NodeRefs Configure Catalog.

#[local] Open Scope Z_scope.
#[local] Open Scope go_scope.

(** ** Data *)

Record subscriptionSchedule := mkSchedule {
  ss_signature : string;
  nextUpdate : Z;
  nextHealth : Z;
  nextRetry : Z;
  warnedUnprobeable : bool;
}.

Definition set_update (st : subscriptionSchedule) (t : Z) : subscriptionSchedule :=
  mkSchedule (ss_signature st) t (nextHealth st) (nextRetry st) (warnedUnprobeable st).
Definition set_health (st : subscriptionSchedule) (t : Z) : subscriptionSchedule :=
  mkSchedule (ss_signature st) (nextUpdate st) t (nextRetry st) (warnedUnprobeable st).
Definition set_retry (st : subscriptionSchedule) (t : Z) : subscriptionSchedule :=
  mkSchedule (ss_signature st) (nextUpdate st) (nextHealth st) t (warnedUnprobeable st).
Definition set_warned (st : subscriptionSchedule) (b : bool) : subscriptionSchedule :=
  mkSchedule (ss_signature st) (nextUpdate st) (nextHealth st) (nextRetry st) b.

Record groupSchedule := mkGroupSchedule { gs_signature : string; gs_next : Z }.

(** The two maps of [automation]. *)
Record automation := mkAutomation {
  subscriptions : gmap Z subscriptionSchedule;
  groups : gmap string groupSchedule;
}.

Definition newAutomation : automation := mkAutomation ∅ ∅.

Record subscriptionProbeResult := mkProbeResult { pr_latency : Z; pr_err : option error }.

Definition healthy (r : subscriptionProbeResult) : bool := negb (is_some (pr_err r)).

Definition anyHealthy (results : list subscriptionProbeResult) : bool := existsb healthy results.

Definition isIntervalMode (mode : string) : bool :=
  String.eqb mode SubscriptionUpdateAtInterval || String.eqb mode SubscriptionUpdateIntervalFailsafe.

(** [time.Duration(n) * time.Minute] *)
Definition minutes (n : Z) : Z := i64 (n * Minute).

Definition HttpTestURL : string := "https://gstatic.com/generate_204".

(** The deadline [t] is set and has come. *)
Definition due (now t : Z) : bool := negb (time_is_zero t) && negb (now <? t).

(** ** The least deadline *)

(** [if !candidate.IsZero() && (next.IsZero() || candidate.Before(next)) { next = candidate }] *)
Definition earlier (next candidate : Z) : Z :=
  if negb (time_is_zero candidate) && (time_is_zero next || (candidate <? next)) then candidate else next.

Definition nextDeadline (a : automation) : Z :=
  let next := foldl (fun next (kv : Z * subscriptionSchedule) =>
    foldl earlier next [nextUpdate kv.2; nextHealth kv.2; nextRetry kv.2]) 0 (map_to_list (subscriptions a)) in
  foldl (fun next (kv : string * groupSchedule) => earlier next (gs_next kv.2)) next (map_to_list (groups a)).

(** ** What the worker sees of the rest of the program *)

(** Making a node from its link and what a probe may not start; the texts that
    [json.Marshal] makes of a policy and of a group; SHA-256 in hexadecimal; the
    scheme and the host that [url.Parse] finds. *)
Class Links `{ServerObjs} := {
  ResolveURL : string -> result ServerObj;
  is_plugin : ServerObj -> bool;
  policy_text : Z -> string -> string -> Z -> bool -> Z -> string;
  group_text : bool -> string -> string -> string -> string -> list string -> string;
  NodeFingerprint : string -> string;
  url_Parse : string -> result (string * string);
}.

(** The [n]th interaction: the time, whether the context is cancelled, what a
    probe, a download over the configured route and a direct download bring, the
    time stamp of an update, what others did to the configuration before the lock
    was taken, the order of a loop over a map. *)
Class Outside `{Links} `{Kernel} := {
  clock : nat -> Z;
  cancelled : nat -> option error;
  probed : nat -> list (option ServerObj) -> string -> list subscriptionProbeResult;
  http_client : nat -> option error;
  resolved : nat -> string -> result (list ServerObj * string);
  resolved_directly : nat -> string -> result (list ServerObj * string);
  proxy_is_direct : nat -> bool;
  update_status : nat -> string;
  meanwhile : nat -> database * kernel -> database * kernel;
  map_order : nat -> list string -> list string;
}.

Section Automation.
Context `{J : Json} `{O : ServerObjs} `{E : !Encodings} `{K : !Kernel} `{L : !Links} `{X : !Outside}.

(** ** Interactions *)

Record world := mkWorld { w_svc : database * kernel; w_auto : automation; w_tick : nat }.

(** [None] is a panic. *)
Definition AU (A : Type) : Type := world -> option (A * world).

Definition au_ret {A} (a : A) : AU A := fun w => Some (a, w).
Definition au_panic {A} : AU A := fun w => None.
Definition au_bind {A B} (c : AU A) (k : A -> AU B) : AU B :=
  fun w => match c w with Some (a, w) => k a w | None => None end.
Definition au_outside {A} (f : nat -> A) : AU A :=
  fun w => Some (f (w_tick w), mkWorld (w_svc w) (w_auto w) (S (w_tick w))).
Definition au_auto : AU automation := fun w => Some (w_auto w, w).
Definition au_set_auto (a : automation) : AU unit := fun w => Some (tt, mkWorld (w_svc w) a (w_tick w)).
(** A call that works on the configuration; its errors are values. *)
Definition au_sv {A} (c : SV A) : AU (result A) :=
  fun w => let '(r, s) := c (w_svc w) in Some (r, mkWorld s (w_auto w) (w_tick w)).
(** [ConfigurationMu.Lock()] *)
Definition au_lock : AU unit :=
  fun w => Some (tt, mkWorld (meanwhile (w_tick w) (w_svc w)) (w_auto w) (S (w_tick w))).

End Automation.

Notation "'au!' x ':=' e 'in' k" := (au_bind e (fun x => k))
  (at level 10, x pattern, e at level 100, k at level 200) : go_scope.

Section Subscriptions.
Context `{J : Json} `{O : ServerObjs} `{E : !Encodings} `{K : !Kernel} `{L : !Links} `{X : !Outside}.

Definition au_now : AU Z := au_outside clock.
Definition au_ctx_err : AU (option error) := au_outside cancelled.
Definition au_probe (nodes : list (option ServerObj)) (url : string) : AU (list subscriptionProbeResult) :=
  au_outside (fun n => probed n nodes url).
(** A read of the configuration that has no error. *)
Definition au_read {A} (dflt : A) (c : DB A) : AU A :=
  au! r := au_sv (sv_db c) in au_ret (match r with Ok a => a | Err _ => dflt end).

(** ** Subscriptions *)

Definition subscriptionPolicySignature (sub : SubscriptionRaw) : string :=
  policy_text (su_DatabaseID sub) (su_Address sub) (su_UpdateMode sub) (su_UpdateIntervalMinutes sub)
    (su_AllowDirectRecovery sub) (su_FailureIntervalMinutes sub).

Definition fetchSubscriptionForAutomation (address : string) (allowDirectFallback : bool)
    : AU (result (list ServerObj * string)) :=
  au! client_err := au_outside http_client in
  au! r := (match client_err with
            | Some e => au_ret (Err e)
            | None => au_outside (fun n => resolved n address)
            end) in
  match r with
  | Ok _ => au_ret r
  | Err _ =>
    if allowDirectFallback then
      au! c := au_ctx_err in
      au! direct := au_outside proxy_is_direct in
      if negb (is_some c) && negb direct then au_outside (fun n => resolved_directly n address) else au_ret r
    else au_ret r
  end.

(** The index among the subscriptions that were read, and the subscription. *)
Fixpoint find_subscription (id index : Z) (subs : list SubscriptionRaw) : Z * option SubscriptionRaw :=
  match subs with
  | [] => (-1, None)
  | sub :: subs => if su_DatabaseID sub =? id then (index, Some sub) else find_subscription id (index + 1) subs
  end.

Definition findSubscriptionByDatabaseID (id : Z) : DB (Z * option SubscriptionRaw) :=
  db! subs := GetSubscriptions in db_ret (find_subscription id 0 subs).

(** [Ok None] is a nil pointer without an error. *)
Definition applyUpdate (observed : SubscriptionRaw) (nodes : list ServerObj) (info : string)
    : AU (result (option SubscriptionRaw)) :=
  au! _ := au_lock in
  au! c := au_ctx_err in
  match c with
  | Some err => au_ret (Err err)
  | None =>
    au! (index, current) := au_read (-1, None) (findSubscriptionByDatabaseID (su_DatabaseID observed)) in
    match current with
    | None => au_ret (Err (Errorf "subscription changed during update" []))
    | Some current =>
      if negb (String.eqb (subscriptionPolicySignature current) (subscriptionPolicySignature observed))
      then au_ret (Err (Errorf "subscription changed during update" []))
      else
        au! status := au_outside update_status in
        au! r := au_sv (storeSubscriptionUpdate status index current nodes info false) in
        match r with
        | Err err => au_ret (Err err)
        | Ok _ =>
          au! (_, updated) := au_read (-1, None) (findSubscriptionByDatabaseID (su_DatabaseID observed)) in
          au_ret (Ok updated)
        end
    end
  end.

Definition subscriptionNodes (sub : SubscriptionRaw) : list (option ServerObj) :=
  map (fun raw => Some (sr_ServerObj raw)) (su_Servers sub).

(** A node made anew from its link; nil for plug-ins and links that do not parse. *)
Definition cloneProbeNodes (servers : list (option ServerObj)) : list (option ServerObj) :=
  map (fun server =>
    node ← server;
    if is_plugin node then None
    else match ResolveURL (ExportToURL node) with Ok clone => Some clone | Err _ => None end) servers.

Definition subscriptionUnavailable (sub : SubscriptionRaw) (probeURL : string) (state : subscriptionSchedule)
    : AU (bool * option error * subscriptionSchedule) :=
  let nodes := cloneProbeNodes (subscriptionNodes sub) in
  if existsb (fun node => negb (is_some node)) nodes then
    au! err := au_ctx_err in au_ret (false, err, set_warned state true)
  else
    au! results := au_probe nodes probeURL in
    au! err := au_ctx_err in
    au_ret (negb (anyHealthy results), err, set_warned state false).

(** The check of a subscription whose health deadline has come: [inl] is a
    return, [inr] goes on with an update that is a retry. *)
Definition process_health (sub : SubscriptionRaw) (probeURL : string) (now interval : Z)
    (state : subscriptionSchedule) : AU (subscriptionSchedule * option (option error)) :=
  au! (unavailable, err, state) := subscriptionUnavailable sub probeURL (set_health state (time_add now interval)) in
  match err with
  | Some err =>
    au! now := au_now in au_ret (set_health state (time_add now interval), Some (Some err))
  | None =>
    if negb unavailable then
      au! now := au_now in
      au_ret (set_health state (time_add now (minutes (su_FailureIntervalMinutes sub))), Some None)
    else au_ret (set_health state 0, None)
  end.

(** The deadlines set before the work that may be cancelled. *)
Definition reserve_retry (sub : SubscriptionRaw) (interval : Z) (regularDue : bool) (state : subscriptionSchedule)
    : AU subscriptionSchedule :=
  au! now := au_now in
  let state := set_retry state (time_add now interval) in
  if regularDue then
    au! now := au_now in au_ret (set_update state (time_add now (minutes (su_UpdateIntervalMinutes sub))))
  else au_ret state.

(** From the download to the end; the subscription of the result is what [sub]
    points to then. *)
Definition process_update (sub : SubscriptionRaw) (probeURL : string) (interval : Z) (regularDue retryDue : bool)
    (state : subscriptionSchedule) : AU (SubscriptionRaw * subscriptionSchedule * option error) :=
  au! fetched := fetchSubscriptionForAutomation (su_Address sub) (retryDue && su_AllowDirectRecovery sub) in
  au! c := au_ctx_err in
  match c with
  | Some err => au_ret (sub, state, Some err)
  | None =>
    au! sub := (match fetched with
                | Err _ => au_ret (Some sub)
                | Ok (nodes, info) =>
                  au! applied := applyUpdate sub nodes info in
                  match applied with Ok updated => au_ret updated | Err _ => au_ret (Some sub) end
                end) in
    au! finished := au_now in
    match sub with
    | None => au_panic
    | Some sub =>
      let state :=
        if regularDue then
          set_update state (if isIntervalMode (su_UpdateMode sub)
                            then time_add finished (minutes (su_UpdateIntervalMinutes sub)) else 0)
        else state in
      if negb (String.eqb (su_UpdateMode sub) SubscriptionUpdateIntervalFailsafe) then
        au_ret (sub, set_retry (set_health state 0) 0, None)
      else
        au! (unavailable, err, state) := subscriptionUnavailable sub probeURL state in
        match err with
        | Some err => au_ret (sub, state, Some err)
        | None =>
          let state := set_retry (set_health state 0) 0 in
          au! now := au_now in
          if negb unavailable then au_ret (sub, set_health state (time_add now interval), None)
          else au_ret (sub, set_retry state (time_add now interval), None)
        end
    end
  end.

(** The deferred function of the fail-safe mode runs last. *)
Definition process_due (sub : SubscriptionRaw) (probeURL : string) (interval : Z) (regularDue retryDue : bool)
    (state : subscriptionSchedule) : AU (subscriptionSchedule * option error) :=
  if String.eqb (su_UpdateMode sub) SubscriptionUpdateIntervalFailsafe then
    au! state := reserve_retry sub interval regularDue (set_health state 0) in
    au! (sub, state, err) := process_update sub probeURL interval regularDue retryDue state in
    au! c := au_ctx_err in
    if is_some c then
      au! state := reserve_retry sub interval regularDue state in au_ret (state, err)
    else au_ret (state, err)
  else
    au! (sub, state, err) := process_update sub probeURL interval regularDue retryDue state in
    au_ret (state, err).

(** The schedule that [process] finds or makes. *)
Definition schedule_of (a : automation) (sub : SubscriptionRaw) (now : Z) : subscriptionSchedule :=
  let signature := subscriptionPolicySignature sub in
  let fresh := mkSchedule signature now 0 0 false in
  match subscriptions a !! su_DatabaseID sub with
  | Some state => if String.eqb (ss_signature state) signature then state else fresh
  | None => fresh
  end.

(** [state] is a pointer into the map: the map has its value when [process]
    returns. *)
Definition process (sub : SubscriptionRaw) (probeURL : string) : AU (option error) :=
  au! now := au_now in
  au! a := au_auto in
  let state := schedule_of a sub now in
  let regularDue := due now (nextUpdate state) in
  let retryDue := due now (nextRetry state) in
  let healthDue := due now (nextHealth state) in
  let interval := minutes (su_FailureIntervalMinutes sub) in
  au! (state, early, retryDue) :=
    (if healthDue && negb regularDue && negb retryDue then
       au! (state, early) := process_health sub probeURL now interval state in au_ret (state, early, true)
     else au_ret (state, None, retryDue)) in
  au! (state, err) :=
    (match early with
     | Some err => au_ret (state, err)
     | None =>
       if negb regularDue && negb retryDue then au_ret (state, None)
       else process_due sub probeURL interval regularDue retryDue state
     end) in
  au! a := au_auto in
  au! _ := au_set_auto (mkAutomation (<[su_DatabaseID sub := state]> (subscriptions a)) (groups a)) in
  au_ret err.

End Subscriptions.

(** ** Groups *)

Record groupCandidate `{ServerObjs} := mkCandidate {
  gc_ref : NodeRef;
  gc_node : option ServerObj;
  gc_identity : string;
}.

Arguments mkCandidate {_} _ _ _.

(** [current] and [desired] have the same length, and every element of
    [desired] is in [current]. *)
Definition sameMembers (current desired : list NodeRef) : bool :=
  (length current =? length desired)%nat && forallb (fun ref => bool_decide (ref ∈ current)) desired.

Abbreviation probe_cache := (gmap string subscriptionProbeResult).

Section Groups.
Context `{J : Json} `{O : ServerObjs} `{E : !Encodings} `{K : !Kernel} `{L : !Links} `{X : !Outside}.

Definition writeGroupMembers (outbound : string) (members : list NodeRef) : DB unit :=
  match members with
  | [] => ClearConnects outbound
  | _ => OverwriteConnects (Some (mkNodeRefs (map (fun member => with_outbound member outbound) members)))
  end.

Definition applyManagedGroupState (outbound : string) (next : OutboundSetting) (members : list NodeRef)
    (replaceMembers : bool) : SV unit :=
  sv! previousSetting := sv_db (GetOutboundSetting outbound) in
  sv! previousMembers := sv_db (GetConnectedServersByOutbound outbound) in
  let restoreMembers :=
    if NodeRefs_Len previousMembers =? 0 then ClearConnects outbound else OverwriteConnects previousMembers in
  applyCoreConfig
    (sv! _ := (if replaceMembers then sv_db restoreMembers else sv_ret tt) in
     sv_db (SetOutboundSetting outbound previousSetting))
    (sv! _ := (if replaceMembers then sv_db (writeGroupMembers outbound members) else sv_ret tt) in
     sv! r := sv_try (sv_db (SetOutboundSetting outbound next)) in
     match r with
     | Ok _ => sv_ret tt
     | Err err =>
       sv! _ := (if replaceMembers then sv_try (sv_db restoreMembers) else sv_ret (Ok tt)) in sv_fail err
     end)
    sv_update_group.

Definition replaceManagedOutboundConnections (outbound : string) (touches : list NodeRef) : SV unit :=
  replaceOutboundConnections outbound touches true.

Definition ValidateOutboundSetting (setting : OutboundSetting) : result unit :=
  let url_ok := match url_Parse (ProbeURL setting) with
                | Ok (scheme, host) => negb (String.eqb host "") && (String.eqb scheme "http" || String.eqb scheme "https")
                | Err _ => false
                end in
  let interval_ok := match time_ParseDuration (ProbeInterval setting) with
                     | Ok interval => (Second <=? interval) && (interval <=? 365 * 24 * 3600 * Second)
                     | Err _ => false
                     end in
  fail_if negb url_ok with Errorf "probe URL must be HTTP or HTTPS" [] in
  fail_if negb interval_ok with Errorf "probe interval must be between 1 second and 365 days" [] in
  if existsb (String.eqb (os_Type setting)) [LeastPing; KeepCurrent; RoundRobin; Random] then Ok tt
  else Err (Errorf "unsupported group type" []).

(** Every server and every server of a subscription, by position.  A decoded
    server always has an object. *)
Definition server_candidate (index : nat) (raw : ServerRaw) : groupCandidate :=
  mkCandidate (mkNodeRef ServerType (Z.of_nat index + 1) 0 "") (Some (sr_ServerObj raw))
    ("server/" +:+ pretty (Z.of_nat index) +:+ "/" +:+ ExportToURL (sr_ServerObj raw)).

Definition subscription_candidate (id : Z) (subIndex nodeIndex : nat) (raw : ServerRaw) : groupCandidate :=
  mkCandidate (mkNodeRef SubscriptionServerType (Z.of_nat nodeIndex + 1) (Z.of_nat subIndex) "")
    (Some (sr_ServerObj raw))
    ("subscription/" +:+ pretty id +:+ "/" +:+ pretty (Z.of_nat subIndex) +:+ "/" +:+
     pretty (Z.of_nat nodeIndex) +:+ "/" +:+ ExportToURL (sr_ServerObj raw)).

Definition automaticGroupCandidates : DB (list groupCandidate) :=
  db! servers := GetServers in
  db! subs := GetSubscriptions in
  db_ret (imap server_candidate servers ++
          concat (imap (fun subIndex sub => imap (subscription_candidate (su_DatabaseID sub) subIndex) (su_Servers sub))
                    subs)).

Fixpoint locate_candidates (refs : list NodeRef) : DB (list groupCandidate) :=
  match refs with
  | [] => db_ret []
  | ref :: refs =>
    db! located := db_try (LocateServerRaw ref) in
    db! candidates := locate_candidates refs in
    db_ret (match located with
            | Err _ => candidates
            | Ok raw =>
              mkCandidate ref (Some (sr_ServerObj raw))
                (TYPE ref +:+ "/" +:+ pretty (Sub ref) +:+ "/" +:+ pretty (ID ref) +:+ "/" +:+
                 ExportToURL (sr_ServerObj raw)) :: candidates
            end)
  end.

Definition connectedGroupCandidates (name : string) : DB (list groupCandidate) :=
  db! refs := GetConnectedServersByOutbound name in locate_candidates (NodeRefs_Get refs).

Definition automaticGroupSignature (setting : OutboundSetting) (candidates : list groupCandidate) : string :=
  group_text (AutoAdd setting) (ProbeURL setting) (ProbeInterval setting) (os_Type setting) (os_Selected setting)
    (map gc_identity candidates).

(** The candidates whose probe has no error. *)
Definition healthy_candidates (candidates : list groupCandidate) (results : list subscriptionProbeResult)
    : list groupCandidate :=
  map fst (filter (fun cr => healthy (snd cr) = true) (zip candidates results)).

Definition group_members (name : string) (candidates : list groupCandidate) (results : list subscriptionProbeResult)
    : list NodeRef :=
  map (fun c => with_outbound (gc_ref c) name) (healthy_candidates candidates results).

Definition fingerprints (candidates : list groupCandidate) (results : list subscriptionProbeResult) : list string :=
  omap (fun c => (fun node => NodeFingerprint (ExportToURL node)) <$> gc_node c) (healthy_candidates candidates results).

(** The current node is kept while it is healthy; then the first healthy one,
    or none, takes its place. *)
Definition next_current (setting : OutboundSetting) (candidates : list groupCandidate)
    (results : list subscriptionProbeResult) : string :=
  let prints := fingerprints candidates results in
  if decide (StickyCurrent setting ∈ prints) then StickyCurrent setting
  else default ""%string (head prints).

Definition with_sticky (setting : OutboundSetting) (current : string) : OutboundSetting :=
  mkOutboundSetting (AutoAdd setting) (ProbeURL setting) (ProbeInterval setting) (os_Type setting)
    (os_Selected setting) current.

(** What is applied under the lock when the group is as it was probed. *)
Definition apply_group (name : string) (currentSetting : OutboundSetting) (candidates : list groupCandidate)
    (results : list subscriptionProbeResult) : AU (option error) :=
  let members := group_members name candidates results in
  let sticky := String.eqb (os_Type currentSetting) KeepCurrent && String.eqb (os_Selected currentSetting) "" in
  let nextSetting := if sticky then with_sticky currentSetting (next_current currentSetting candidates results)
                     else currentSetting in
  let stickyChanged := sticky && negb (String.eqb (StickyCurrent nextSetting) (StickyCurrent currentSetting)) in
  au! membershipChanged :=
    (if AutoAdd currentSetting then
       au! connected := au_read None (GetConnectedServersByOutbound name) in
       au_ret (negb (sameMembers (NodeRefs_Get connected) members))
     else au_ret false) in
  au! r := (if stickyChanged || (membershipChanged && String.eqb (os_Type currentSetting) KeepCurrent) then
              au_sv (applyManagedGroupState name nextSetting members (AutoAdd currentSetting))
            else if membershipChanged then au_sv (replaceManagedOutboundConnections name members)
            else au_ret (Ok tt)) in
  au_ret (match r with Ok _ => None | Err err => Some err end).

Definition probe_key (probeURL : string) (i : nat) (node : option ServerObj) : string :=
  probeURL +:+ String (Ascii.ascii_of_nat 10)
    (match node with None => "nil/" +:+ pretty (Z.of_nat i) | Some node => ExportToURL node end).

(** The keys that are not in the cache, once each, with their nodes. *)
Fixpoint missing (cache : probe_cache) (seen : list string) (nodes : list (string * option ServerObj))
    : list (string * option ServerObj) :=
  match nodes with
  | [] => []
  | (key, node) :: nodes =>
    if is_some (cache !! key) || bool_decide (key ∈ seen) then missing cache seen nodes
    else (key, node) :: missing cache (key :: seen) nodes
  end.

(** The closure [probe] of [step] and its cache. *)
Definition cached_probe (cache : probe_cache) (nodes : list (option ServerObj)) (probeURL : string)
    : AU (result (list subscriptionProbeResult) * probe_cache) :=
  let keys := imap (probe_key probeURL) nodes in
  let missed := missing cache [] (zip keys nodes) in
  let answer (cache : probe_cache) := map (fun key => default (mkProbeResult 0 None) (cache !! key)) keys in
  match missed with
  | [] => au_ret (Ok (answer cache), cache)
  | _ =>
    au! results := au_probe (cloneProbeNodes (map snd missed)) probeURL in
    au! c := au_ctx_err in
    match c with
    | Some err => au_ret (Err err, cache)
    | None =>
      if negb (length results =? length missed)%nat
      then au_ret (Err (Errorf "incomplete reachability results" []), cache)
      else
        let cache := foldl (fun (cache : probe_cache) kr => <[fst kr := snd kr]> cache) cache
                       (zip (map fst missed) results) in
        au_ret (Ok (answer cache), cache)
    end
  end.

(** The check under the lock that nothing has changed, and what follows. *)
Definition settle_group (name signature : string) (candidates : list groupCandidate)
    (results : list subscriptionProbeResult) : AU (option error) :=
  au! _ := au_lock in
  au! c := au_ctx_err in
  match c with
  | Some err => au_ret (Some err)
  | None =>
    au! currentSetting := au_read DefaultOutboundSetting (GetOutboundSetting name) in
    au! currentCandidates := au_read [] (connectedGroupCandidates name) in
    au! currentCandidates := (if AutoAdd currentSetting then au_read [] automaticGroupCandidates
                              else au_ret currentCandidates) in
    if negb (String.eqb (automaticGroupSignature currentSetting currentCandidates) signature)
    then au_ret (Some (Errorf "catalog or group setting changed during membership check" []))
    else apply_group name currentSetting candidates results
  end.

Definition set_group (name : string) (state : groupSchedule) : AU unit :=
  au! a := au_auto in au_set_auto (mkAutomation (subscriptions a) (<[name := state]> (groups a))).

(** The group was checked with the same setting and candidates, and its time has
    not come. *)
Definition group_rests (a : automation) (name signature : string) (now : Z) : bool :=
  match groups a !! name with
  | Some state => String.eqb (gs_signature state) signature && (now <? gs_next state)
  | None => false
  end.

Definition processGroup (cache : probe_cache) (name : string) (setting : OutboundSetting)
    (candidates : list groupCandidate) : AU probe_cache :=
  let signature := automaticGroupSignature setting candidates in
  au! a := au_auto in
  au! now := au_now in
  if group_rests a name signature now then au_ret cache
  else
    let interval := match time_ParseDuration (ProbeInterval setting) with Ok d => d | Err _ => 30 * Second end in
    let backoff := Z.max interval (30 * Second) in
    au! (probed, cache) := cached_probe cache (map gc_node candidates) (ProbeURL setting) in
    au! err := (match probed with
                | Err err => au_ret (Some err)
                | Ok results => settle_group name signature candidates results
                end) in
    au! now := au_now in
    au! _ := set_group name (mkGroupSchedule signature (time_add now (if is_some err then backoff else interval))) in
    au_ret cache.

(** ** One pass *)

Definition is_active (sub : SubscriptionRaw) : bool :=
  negb (String.eqb (su_UpdateMode sub) SubscriptionUpdateDisabled).

(** [true]: the pass was cancelled. *)
Fixpoint process_all (probeURL : string) (subs : list SubscriptionRaw) : AU bool :=
  match subs with
  | [] => au_ret false
  | sub :: subs =>
    if negb (is_active sub) then process_all probeURL subs
    else
      au! err := process sub probeURL in
      if is_some err then
        au! c := au_ctx_err in if is_some c then au_ret true else process_all probeURL subs
      else process_all probeURL subs
  end.

Definition prune_subscriptions (active : list Z) : AU unit :=
  au! a := au_auto in
  au_set_auto (mkAutomation (filter (fun kv => fst kv ∈ active) (subscriptions a)) (groups a)).

Definition prune_groups (active : list string) : AU unit :=
  au! a := au_auto in
  au_set_auto (mkAutomation (subscriptions a) (filter (fun kv => fst kv ∈ active) (groups a))).

Definition managed (setting : OutboundSetting) : bool :=
  AutoAdd setting || String.eqb (os_Type setting) KeepCurrent.

(** The setting of each group and the candidates of those that keep their
    current node. *)
Fixpoint read_groups (names : list string) : DB (list (string * (OutboundSetting * list groupCandidate))) :=
  match names with
  | [] => db_ret []
  | name :: names =>
    db! setting := GetOutboundSetting name in
    db! candidates := (if negb (AutoAdd setting) && String.eqb (os_Type setting) KeepCurrent
                       then connectedGroupCandidates name else db_ret []) in
    db! rest := read_groups names in
    db_ret ((name, (setting, candidates)) :: rest)
  end.

(** [true]: the pass was cancelled. *)
Fixpoint process_groups (catalog : list groupCandidate) (cache : probe_cache)
    (todo : list (string * (OutboundSetting * list groupCandidate))) : AU bool :=
  match todo with
  | [] => au_ret false
  | (name, (setting, candidates)) :: todo =>
    if negb (managed setting) then process_groups catalog cache todo
    else
      match ValidateOutboundSetting setting with
      | Err _ => process_groups catalog cache todo
      | Ok _ =>
        au! cache := processGroup cache name setting (if AutoAdd setting then catalog else candidates) in
        au! c := au_ctx_err in
        if is_some c then au_ret true else process_groups catalog cache todo
      end
  end.

(** The entries of [found] in the order of the loop over the map. *)
Definition in_order {A} (order : list string) (found : list (string * A)) : list (string * A) :=
  omap (fun name => pair name <$> (list_to_map (reverse found) : gmap string A) !! name) order.

Definition au_nextDeadline : AU Z := au! a := au_auto in au_ret (nextDeadline a).

Definition step : AU Z :=
  au! _ := au_lock in
  au! subs := au_read [] GetSubscriptions in
  au! default_setting := au_read DefaultOutboundSetting (GetOutboundSetting DefaultOutboundName) in
  let probeURL := if String.eqb (ProbeURL default_setting) "" then HttpTestURL else ProbeURL default_setting in
  au! cancelled := process_all probeURL subs in
  if cancelled then au_nextDeadline
  else
    au! _ := prune_subscriptions (map su_DatabaseID (filter (fun sub => is_active sub = true) subs)) in
    au! _ := au_lock in
    au! catalog := au_read [] automaticGroupCandidates in
    au! names := au_read [] GetOutbounds in
    au! found := au_read [] (read_groups names) in
    au! order := au_outside (fun n => map_order n (remove_dups (map fst found))) in
    let todo := in_order order found in
    au! cancelled := process_groups catalog ∅ todo in
    if cancelled then au_ret 0
    else
      au! _ := prune_groups (map fst (filter (fun g => managed (fst (snd g)) = true) found)) in
      au_nextDeadline.

End Groups.
