(* ===== verification/StoreFrame.v ===== *)
(** * What the operations of the catalogue leave alone

    Reads, settings and connected lists touch the key-value table at most, so the
    numbering of the lists survives them; storing an update changes one row of the
    subscriptions.  Both hold whatever statements fail. *)

From S2P Require Import Prelude.
From S2P Require Import Store StoreLists StoreProps NodeRefs Configure.
From S2P Require Import Catalog DeleteProps ConfigureProps CatalogProps UpdateProps Automation.

#[local] Open Scope Z_scope.
#[local] Open Scope go_scope.

(** ** Operations on the key-value table *)

Section ConfigOnly.
Context `{J : Json}.

(** At most the table system_config changes. *)
Class ConfigOnly {A} (c : DB A) : Prop :=
  config_only : forall t, wp true c t (fun _ t' => exists m, t' = with_system_config t m).

Lemma same_config t : t = with_system_config t (t_system_config t).
Proof. by destruct t. Qed.

Lemma config_only_step {A} (c : DB A) t (Q : result A -> tables -> Prop) : ConfigOnly c ->
  (forall r m, Q r (with_system_config t m)) -> wp true c t Q.
Proof. intros Hc HQ. eapply wp_mono; [apply Hc|]. intros r t' [m ->]. apply HQ. Qed.

#[export] Instance config_only_ret {A} (a : A) : ConfigOnly (db_ret a).
Proof. intros t. apply wp_ret. eexists. apply same_config. Qed.
#[export] Instance config_only_fail {A} e : ConfigOnly (A := A) (db_fail e).
Proof. intros t. apply wp_fail. eexists. apply same_config. Qed.
#[export] Instance config_only_lift {A} (r : result A) : ConfigOnly (db_lift r).
Proof. intros t. apply wp_lift. eexists. apply same_config. Qed.
#[export] Instance config_only_query {A} (f : tables -> A) : ConfigOnly (query f).
Proof. intros t. apply wp_query; intros; eexists; apply same_config. Qed.
#[export] Instance config_only_exec f : ConfigOnly (exec (fun t => with_system_config t (f t))).
Proof. intros t. apply wp_exec; intros; [eexists; apply same_config|by eexists]. Qed.
#[export] Instance config_only_try {A} (c : DB A) : ConfigOnly c -> ConfigOnly (db_try c).
Proof. intros Hc t. apply wp_try. apply config_only_step; [done|]. by eexists. Qed.
#[export] Instance config_only_bind {A B} (c : DB A) (k : A -> DB B) :
  ConfigOnly c -> (forall a, ConfigOnly (k a)) -> ConfigOnly (db_bind c k).
Proof.
  intros Hc Hk t. apply wp_bind, config_only_step; [done|]. intros [a|e] m; [|by eexists].
  eapply wp_mono; [apply Hk|]. intros r t' [m' ->]. by exists m'.
Qed.
#[export] Instance config_only_if {A} (b : bool) (c d : DB A) :
  ConfigOnly c -> ConfigOnly d -> ConfigOnly (if b then c else d).
Proof. by destruct b. Qed.
#[export] Instance config_only_option {A B} (o : option B) (f : B -> DB A) (d : DB A) :
  (forall b, ConfigOnly (f b)) -> ConfigOnly d -> ConfigOnly (match o with Some b => f b | None => d end).
Proof. by destruct o. Qed.
#[export] Instance config_only_result {A B} (o : result B) (f : B -> DB A) (d : error -> DB A) :
  (forall b, ConfigOnly (f b)) -> (forall e, ConfigOnly (d e)) ->
  ConfigOnly (match o with Ok b => f b | Err e => d e end).
Proof. by destruct o. Qed.

End ConfigOnly.

Ltac config_only := repeat (apply _ || intros).

Section Operations.
Context `{J : Json} `{O : ServerObjs} `{E : !Encodings}.

#[export] Instance config_only_Set {V} `{!GoJson V} b k (v : V) : ConfigOnly (db_Set b k v).
Proof. unfold db_Set. apply _. Qed.
#[export] Instance config_only_Get {V} `{!GoJson V} b k : ConfigOnly (db_Get (V := V) b k).
Proof. unfold db_Get, find_value, select_value. apply _. Qed.
#[export] Instance config_only_connected_by g : ConfigOnly (GetConnectedServersByOutbound g).
Proof. unfold GetConnectedServersByOutbound. apply _. Qed.
#[export] Instance config_only_setting g : ConfigOnly (GetOutboundSetting g).
Proof. unfold GetOutboundSetting. apply _. Qed.
#[export] Instance config_only_set_setting g s : ConfigOnly (SetOutboundSetting g s).
Proof. unfold SetOutboundSetting. apply _. Qed.
#[export] Instance config_only_outbounds : ConfigOnly GetOutbounds.
Proof. unfold GetOutbounds, StringSetGetAll, SetMembers. apply _. Qed.
#[export] Instance config_only_gather outs w : ConfigOnly (gather_connected outs w).
Proof. revert w. induction outs as [|g outs IH]; intros w; cbn [gather_connected]; apply _. Qed.
#[export] Instance config_only_connected : ConfigOnly GetConnectedServers.
Proof. unfold GetConnectedServers. apply _. Qed.
#[export] Instance config_only_write_lists l : ConfigOnly (write_lists l).
Proof. induction l as [|[g refs] l IH]; cbn [write_lists]; apply _. Qed.
#[export] Instance config_only_overwrite ws : ConfigOnly (OverwriteConnects ws).
Proof. unfold OverwriteConnects. apply _. Qed.
#[export] Instance config_only_clear g : ConfigOnly (ClearConnects g).
Proof. unfold ClearConnects. apply _. Qed.
#[export] Instance config_only_servers : ConfigOnly GetServers.
Proof. unfold GetServers, ServersGetAll. apply _. Qed.
#[export] Instance config_only_servers_of id : ConfigOnly (servers_of_subscription id).
Proof. unfold servers_of_subscription. apply _. Qed.
#[export] Instance config_only_docs rows : ConfigOnly (subscription_docs rows).
Proof. induction rows as [|r rows IH]; cbn [subscription_docs]; apply _. Qed.
#[export] Instance config_only_subscriptions : ConfigOnly GetSubscriptions.
Proof. unfold GetSubscriptions, SubscriptionsGetAll. apply _. Qed.
#[export] Instance config_only_locate w : ConfigOnly (LocateServerRaw w).
Proof. unfold LocateServerRaw. apply _. Qed.
#[export] Instance config_only_update_refs index old rm disc refs st :
  ConfigOnly (update_refs index old rm disc refs st).
Proof. revert st. induction refs as [|r refs IH]; intros st; cbn [update_refs]; apply _. Qed.

End Operations.

(** ** Operations that keep the lists numbered *)

Section Keeps.
Context `{J : Json} `{O : ServerObjs} `{E : !Encodings} `{K : !Kernel} `{KL : !KernelLaws K}.

Definition tables_ok (t : tables) : Prop := store_ok t /\ store_packed t.
Definition svc_ok (s : database * kernel) : Prop := tables_ok (db_tables s.1).

Class Keeps {A} (c : SV A) : Prop := keeps : forall s, svc_ok s -> svc_ok (c s).2.

Lemma wp_true_run {A} (c : DB A) s (Q : result A -> tables -> Prop) :
  wp true c (db_tables s) Q -> Q (c s).1 (db_tables (c s).2).
Proof.
  destruct s as [t fs]. cbn. intros H. destruct (H fs ltac:(done)) as (r & t' & fs' & Hc & _ & HQ). by rewrite Hc.
Qed.

Lemma config_keeps t m : tables_ok t -> tables_ok (with_system_config t m).
Proof. intros [H1 H2]. destruct (config_changed t m H1) as (? & ? & _). split; auto. Qed.

Lemma kernel_keeps t t' : same_catalogue t t' -> tables_ok t -> tables_ok t'.
Proof.
  intros (H1 & H2 & H3 & _) [Hok Hp]. split.
  - destruct Hok. split; rewrite ?H1, ?H2, ?H3; done.
  - destruct Hp. split; rewrite ?H1, ?H2; done.
Qed.

#[export] Instance keeps_ret {A} (a : A) : Keeps (sv_ret a).
Proof. by intros s. Qed.
#[export] Instance keeps_fail {A} e : Keeps (A := A) (sv_fail e).
Proof. by intros s. Qed.
#[export] Instance keeps_running : Keeps sv_running.
Proof. by intros s. Qed.
#[export] Instance keeps_bind {A B} (c : SV A) (k : A -> SV B) :
  Keeps c -> (forall a, Keeps (k a)) -> Keeps (sv_bind c k).
Proof.
  intros Hc Hk s Hs. unfold sv_bind. pose proof (Hc s Hs) as H. destruct (c s) as [[a|e] s']; [|done]. by apply Hk.
Qed.
#[export] Instance keeps_try {A} (c : SV A) : Keeps c -> Keeps (sv_try c).
Proof. intros Hc s Hs. unfold sv_try. pose proof (Hc s Hs) as H. by destruct (c s). Qed.
#[export] Instance keeps_db {A} (c : DB A) : ConfigOnly c -> Keeps (sv_db c).
Proof.
  intros Hc [d k] Hs. unfold sv_db. cbn [fst snd]. pose proof (wp_true_run c d _ (Hc _)) as (m & Hm).
  destruct (c d) as [r d']. unfold svc_ok in *. cbn [fst snd] in *. rewrite Hm. by apply config_keeps.
Qed.
#[export] Instance keeps_update : Keeps sv_update.
Proof.
  intros s Hs. unfold sv_update. destruct (k_update s) as [r s'] eqn:Hk.
  by eapply kernel_keeps, Hs; eapply update_keeps.
Qed.
#[export] Instance keeps_update_group : Keeps sv_update_group.
Proof.
  intros s Hs. unfold sv_update_group. destruct (k_update_group s) as [r s'] eqn:Hk.
  by eapply kernel_keeps, Hs; eapply update_group_keeps.
Qed.
#[export] Instance keeps_if {A} (b : bool) (c d : SV A) : Keeps c -> Keeps d -> Keeps (if b then c else d).
Proof. by destruct b. Qed.
#[export] Instance keeps_result {A B} (o : result B) (f : B -> SV A) (d : error -> SV A) :
  (forall b, Keeps (f b)) -> (forall e, Keeps (d e)) -> Keeps (match o with Ok b => f b | Err e => d e end).
Proof. by destruct o. Qed.
#[export] Instance keeps_wrap {A} format (c : SV A) : Keeps c -> Keeps (sv_wrap format c).
Proof. intros Hc. unfold sv_wrap. apply _. Qed.

(** Storing a subscription rewrites the row at the index, or nothing. *)
Lemma set_subscription_effect index sub ws t : tables_ok t ->
  wp true (SetSubscriptionAndConnects index sub ws) t (fun r t' => tables_ok t' /\
    match r with
    | Ok _ => exists d row docs, Marshal sub = Ok d /\ at_index (v_subs (view_of t)) index = Some (row, docs) /\
        v_subs (view_of t') = <[Z.to_nat index := sub_of_doc (sb_id row) d]> (v_subs (view_of t))
    | Err _ => t' = t
    end).
Proof.
  intros [Hok Hp]. unfold SetSubscriptionAndConnects, SubscriptionsSet. do 2 wp_step.
  destruct (Marshal sub) as [d|e]; [|by split].
  apply wp_ReadModifyWrite; [done|]. wp_step. apply config_only_step; [apply _|]. intros [u|e] m; [|done].
  destruct (config_changed t m Hok) as (Hok1 & Hp1 & Hv1).
  eapply wp_mono; [apply wp_setSubscription; auto|]. rewrite Hv1. cbn [v_subs view_config].
  intros [u'|e] t2 H2; [|done]. destruct H2 as (H2 & H3 & r0 & docs & H4 & H5).
  split; [by split|]. exists d, r0, docs. split; [done|]. split; [done|]. by rewrite H5.
Qed.

#[export] Instance keeps_set_subscription index sub ws : Keeps (sv_db (SetSubscriptionAndConnects index sub ws)).
Proof.
  intros [d k] Hs. unfold sv_db. cbn [fst snd].
  pose proof (wp_true_run _ d _ (set_subscription_effect index sub ws _ Hs)) as [H _].
  by destruct (SetSubscriptionAndConnects index sub ws d).
Qed.

#[export] Instance keeps_store status index old nodes info disc :
  Keeps (storeSubscriptionUpdate status index old nodes info disc).
Proof. unfold storeSubscriptionUpdate. cbn zeta. apply _. Qed.

#[export] Instance keeps_restore g backup : Keeps (restore_group g backup).
Proof. unfold restore_group. apply _. Qed.

#[export] Instance keeps_replace g touches m : Keeps (replaceOutboundConnections g touches m).
Proof.
  unfold replaceOutboundConnections. cbn zeta. apply keeps_wrap, keeps_bind; [apply _|]. intros setting.
  apply keeps_if; [by destruct m; apply _|]. apply keeps_result; [|apply _]. intros [|n l]; apply _.
Qed.

#[export] Instance keeps_apply restore store update : Keeps restore -> Keeps store -> Keeps update ->
  Keeps (applyCoreConfig restore store update).
Proof. intros. unfold applyCoreConfig. apply _. Qed.

#[export] Instance keeps_managed g next members b : Keeps (applyManagedGroupState g next members b).
Proof.
  unfold applyManagedGroupState, writeGroupMembers. cbn zeta. destruct members; apply _.
Qed.

(** A successful update leaves the row at the index rewritten. *)
Lemma store_effect status index old nodes info disc s s' u : svc_ok s ->
  storeSubscriptionUpdate status index old nodes info disc s = (Ok u, s') ->
  exists servers d row docs,
    Marshal (set_servers (set_status old status info) servers) = Ok d /\
    at_index (v_subs (view_of (db_tables s.1))) index = Some (row, docs) /\
    v_subs (view_of (db_tables s'.1)) =
      <[Z.to_nat index := sub_of_doc (sb_id row) d]> (v_subs (view_of (db_tables s.1))).
Proof.
  intros Hs. unfold storeSubscriptionUpdate. cbn zeta. unfold sv_bind at 1.
  destruct s as [d0 k]. unfold sv_db at 1. cbn [fst snd].
  pose proof (wp_true_run GetConnectedServers d0 _ (config_only _)) as (m0 & Hm0).
  destruct (GetConnectedServers d0) as [[prev|e] d1]; [|done]. cbn [fst snd] in *.
  set (refs := NodeRefs_Get prev). unfold sv_bind at 1. unfold sv_db at 1. cbn [fst snd].
  match goal with |- context [update_refs ?i ?o ?rm ?b ?r ?st ?d] => set (c := update_refs i o rm b r st) end.
  pose proof (wp_true_run c d1 _ (config_only _)) as (m1 & Hm1).
  destruct (c d1) as [[st|e] d2]; [|done]. cbn [fst snd] in *.
  assert (Htok : tables_ok (db_tables d2)) by (rewrite Hm1, Hm0; by apply config_keeps, config_keeps).
  unfold sv_bind at 1. unfold sv_db at 1. cbn [fst snd].
  match goal with |- context [SetSubscriptionAndConnects ?i ?sub ?ws ?d] =>
    pose proof (wp_true_run _ d _ (set_subscription_effect i sub ws _ Htok)) as [_ Heff];
    destruct (SetSubscriptionAndConnects i sub ws d) as [[u'|e] d3] end; [|done].
  cbn [fst snd] in *. destruct Heff as (d & row & docs & Hd & Hi & Hv).
  intros Hrun. exists (us_servers st), d, row, docs. split; [done|].
  assert (Hview : v_subs (view_of (db_tables d2)) = v_subs (view_of (db_tables d0))) by (by rewrite Hm1, Hm0).
  rewrite Hview in Hi, Hv. split; [done|].
  destruct (negb (us_affected st)); [by injection Hrun as _ <-|].
  unfold sv_bind at 1, sv_running in Hrun. cbn [fst snd] in Hrun.
  destruct (k_running k); [|by injection Hrun as _ <-].
  unfold sv_bind at 1, sv_try at 1, sv_update at 1 in Hrun.
  destruct (k_update (d3, k)) as [[u2|e2] s2] eqn:Hk; cbn [fst snd] in Hrun.
  - injection Hrun as _ <-. apply update_keeps in Hk. by destruct (same_catalogue_views _ _ Hk) as (_ & -> & _).
  - unfold sv_bind, sv_try, sv_fail in Hrun. by repeat case_match.
Qed.

End Keeps.
