(* ===== verification/AutomationProps.v ===== *)
(** * What the automation worker promises

    A subscription that is updated at intervals always has a deadline ahead,
    whatever is cancelled, fails or changes meanwhile, and the worker sleeps no
    longer than until the first one. *)

From S2P Require Import Prelude.
From S2P Require Import Store StoreLists StoreProps NodeRefs Configure.
From S2P Require Import Catalog DeleteProps ConfigureProps CatalogProps UpdateProps Automation StoreFrame.

#[local] Open Scope Z_scope.
#[local] Open Scope go_scope.

(** ** The least deadline *)

Definition all_deadlines (a : automation) : list Z :=
  concat (map (fun kv => [nextUpdate kv.2; nextHealth kv.2; nextRetry kv.2]) (map_to_list (subscriptions a))) ++
  map (fun kv => gs_next kv.2) (map_to_list (groups a)).

Lemma foldl_concat {A B C} (f : A -> B -> A) (g : C -> list B) a (l : list C) :
  foldl (fun a c => foldl f a (g c)) a l = foldl f a (concat (map g l)).
Proof.
  revert a. induction l as [|c l IH]; intros a; [done|]. cbn [foldl map concat]. by rewrite IH, foldl_app.
Qed.

Lemma foldl_map {A B C} (f : A -> B -> A) (g : C -> B) a (l : list C) :
  foldl (fun a c => f a (g c)) a l = foldl f a (map g l).
Proof. revert a. induction l as [|c l IH]; intros a; [done|]. cbn [foldl map]. apply IH. Qed.

Lemma nextDeadline_fold a : nextDeadline a = foldl earlier 0 (all_deadlines a).
Proof.
  unfold nextDeadline, all_deadlines. rewrite foldl_app, <-foldl_concat, <-foldl_map. done.
Qed.

Lemma earlier_spec n c : let r := earlier n c in
  (r = 0 <-> n = 0 /\ c = 0) /\ (n <> 0 -> r <= n) /\ (c <> 0 -> r <= c) /\ (r = n \/ r = c).
Proof.
  unfold earlier, time_is_zero. destruct (Z.eqb_spec c 0), (Z.eqb_spec n 0), (Z.ltb_spec c n); cbn; lia.
Qed.

Lemma earliest l n : let r := foldl earlier n l in
  (r = 0 <-> Forall (fun x => x = 0) (n :: l)) /\ (forall x, x ∈ n :: l -> x <> 0 -> r <= x) /\ r ∈ n :: l.
Proof.
  cbn zeta. revert n. induction l as [|c l IH]; intros n; cbn [foldl].
  - split; [by rewrite Forall_singleton|]. split; [|by left].
    intros x [->|[]%elem_of_nil]%elem_of_cons _. lia.
  - destruct (earlier_spec n c) as (E1 & E2 & E3 & E4). cbn zeta in *.
    destruct (IH (earlier n c)) as (I1 & I2 & I3). split; [|split].
    + rewrite I1, !Forall_cons, E1. tauto.
    + intros x Hx Hz. pose proof (I2 (earlier n c) ltac:(left)) as I.
      rewrite !elem_of_cons in Hx. destruct Hx as [->|[->|Hx]].
      * etrans; [apply I|by apply E2]. intros H. by apply E1 in H as [? _].
      * etrans; [apply I|by apply E3]. intros H. by apply E1 in H as [_ ?].
      * apply I2; [by right|done].
    + rewrite elem_of_cons in I3. destruct I3 as [->|I3]; [|by do 2 right].
      destruct E4 as [->| ->]; [left|right; left].
Qed.

Lemma nextDeadline_spec a :
  (nextDeadline a = 0 <-> Forall (fun t => t = 0) (all_deadlines a)) /\
  (forall t, t ∈ all_deadlines a -> t <> 0 -> nextDeadline a <= t) /\
  (nextDeadline a = 0 \/ nextDeadline a ∈ all_deadlines a).
Proof.
  rewrite nextDeadline_fold. destruct (earliest (all_deadlines a) 0) as (H1 & H2 & H3). cbn zeta in *.
  split; [rewrite H1, Forall_cons; tauto|]. split.
  - intros t Ht. apply H2. by right.
  - rewrite elem_of_cons in H3. done.
Qed.

Lemma deadline_of a id st t : subscriptions a !! id = Some st -> t ∈ [nextUpdate st; nextHealth st; nextRetry st] ->
  t ∈ all_deadlines a.
Proof.
  intros Hst Ht. unfold all_deadlines. rewrite elem_of_app. left. apply elem_of_concat_map.
  exists (id, st). split; [by apply elem_of_map_to_list|done].
Qed.

(** ** Policies as they are written *)

(** The two modes with deadlines. *)
Definition interval_mode (m : string) : Prop := isIntervalMode m = true.

(** What the texts promise: the row of a subscription that is updated at
    intervals reads as it is, such a subscription is written as it is, and the
    text of a policy tells its mode and its intervals. *)
Class PolicyLaws `{J : Json} `{O : ServerObjs} (E : Encodings) `{L : !Links} : Prop := {
  row_read : forall f d s0 s, Marshal_subscription f = Ok d -> unmarshal_subscription s0 d = Ok s ->
    su_DatabaseID s = sf_databaseId f /\ su_UpdateIntervalMinutes s = sf_updateIntervalMinutes f /\
    (forall m, interval_mode m -> su_UpdateMode s = m <-> sf_updateMode f = m);
  sub_written : forall sub d, Marshal sub = Ok d ->
    gj_Int d "updateIntervalMinutes" = su_UpdateIntervalMinutes sub /\
    (forall m, interval_mode m -> su_UpdateMode sub = m -> gj_String d "updateMode" = m);
  policy_told : forall id a m r al f id' a' m' r' al' f', interval_mode m ->
    policy_text id a m r al f = policy_text id' a' m' r' al' f' -> m' = m /\ r' = r /\ f' = f;
}.

Section Policy.
Context `{J : Json} `{O : ServerObjs} `{E : !Encodings} `{K : !Kernel} `{KL : !KernelLaws K}.
Context `{L : !Links} `{X : !Outside} `{PL : !PolicyLaws E}.

Lemma signature_told sub sub' : interval_mode (su_UpdateMode sub) ->
  subscriptionPolicySignature sub = subscriptionPolicySignature sub' ->
  su_UpdateMode sub' = su_UpdateMode sub /\ su_UpdateIntervalMinutes sub' = su_UpdateIntervalMinutes sub /\
  su_FailureIntervalMinutes sub' = su_FailureIntervalMinutes sub.
Proof. intros Hm. apply policy_told. done. Qed.

(** [sub] is read from the row [p]. *)
Definition read_from (p : sub_row * list doc) (sub : SubscriptionRaw) : Prop :=
  exists d, json_of p = Ok d /\ Bytes2SubscriptionRaw d = Ok sub.

Lemma read_from_row p sub : read_from p sub ->
  su_DatabaseID sub = sb_id p.1 /\ su_UpdateIntervalMinutes sub = sb_update_interval_minutes p.1 /\
  (forall m, interval_mode m -> su_UpdateMode sub = m <-> sb_update_mode p.1 = m).
Proof.
  intros (d & Hj & Hb). unfold json_of, subscriptionJSON in Hj. unfold Bytes2SubscriptionRaw in Hb.
  destruct (new_objects _) as [servers|e]; [|done]. by apply (row_read _ _ _ _ Hj) in Hb.
Qed.

Lemma read_from_fun p sub sub' : read_from p sub -> read_from p sub' -> sub = sub'.
Proof. intros (d & Hj & Hb) (d' & Hj' & Hb'). congruence. Qed.

(** The subscriptions that are read come from the rows, in their order. *)
Lemma wp_GetSubscriptions t : tables_ok t ->
  wp true GetSubscriptions t (fun r t' => t' = t /\ exists subs rows, r = Ok subs /\
    rows `sublist_of` v_subs (view_of t) /\ Forall2 read_from rows subs).
Proof.
  intros [Hok _]. unfold GetSubscriptions. do 2 wp_step. eapply wp_mono; [by apply wp_SubscriptionsGetAll|].
  intros [ds|e] t' [-> H]; wp_step; split; try done.
  - induction H as [|p d ps ds Hpd _ (subs & rows & [= <-] & Hs & Hr)].
    + exists [], []. split; [done|]. by split; [|constructor].
    + unfold decoded in *. cbn [omap list_omap]. destruct (Bytes2SubscriptionRaw d) as [sub|e] eqn:Hb.
      * exists (sub :: omap (fun b => match Bytes2SubscriptionRaw b with Ok t => Some t | Err _ => None end) ds), (p :: rows).
        split; [done|]. split; [by constructor|]. constructor; [by exists d|done].
      * eexists _, rows. split; [done|]. split; [by constructor|done].
  - exists [], []. split; [done|]. split; [apply sublist_nil_l|constructor].
Qed.

Lemma ids_unique t p q : tables_ok t -> p ∈ v_subs (view_of t) -> q ∈ v_subs (view_of t) ->
  sb_id p.1 = sb_id q.1 -> p = q.
Proof.
  intros [Hok _] Hp Hq He. unfold view_of in Hp, Hq. cbn [v_subs] in Hp, Hq.
  apply list_elem_of_fmap in Hp as (a & -> & Ha), Hq as (b & -> & Hb). cbn in He. f_equal.
  apply list_elem_of_lookup_1 in Ha as [m Ha], Hb as [n Hb].
  pose proof (sub_id_inj t m n a b Hok Ha Hb He) as Hmn. congruence.
Qed.

Lemma find_subscription_In id i subs k sub : find_subscription id i subs = (k, Some sub) ->
  sub ∈ subs /\ su_DatabaseID sub = id.
Proof.
  revert i. induction subs as [|s subs IH]; intros i; cbn; [done|].
  destruct (Z.eqb_spec (su_DatabaseID s) id) as [He|_].
  - intros [= _ <-]. split; [left|done].
  - intros [H1 H2]%IH. split; [by right|done].
Qed.

(** Finding a subscription changes nothing and returns one that is stored. *)
Lemma find_run id s : tables_ok (db_tables s) ->
  let '(r, s') := findSubscriptionByDatabaseID id s in
  db_tables s' = db_tables s /\
  forall k sub, r = Ok (k, Some sub) ->
    exists p, p ∈ v_subs (view_of (db_tables s)) /\ read_from p sub /\ su_DatabaseID sub = id.
Proof.
  intros Hok. unfold findSubscriptionByDatabaseID, db_bind.
  destruct (wp_true_run _ s _ (wp_GetSubscriptions _ Hok)) as (Ht & subs & rows & Hr & Hs & Hf).
  destruct (GetSubscriptions s) as [r s1]. cbn [fst snd] in *. subst r. cbn. split; [done|].
  intros k sub [= H]. apply find_subscription_In in H as [Hin Hid].
  apply list_elem_of_lookup_1 in Hin as [n Hn]. destruct (Forall2_lookup_r _ _ _ _ _ Hf Hn) as (p & Hp & Hrf).
  exists p. split; [|done]. eapply elem_of_sublist; [|done]. by eapply list_elem_of_lookup_2.
Qed.

(** After a successful update of [current], the subscription with its id has its
    mode and its interval. *)
Lemma policy_kept status k current nodes info s s1 p updated q u : svc_ok s ->
  interval_mode (su_UpdateMode current) ->
  p ∈ v_subs (view_of (db_tables s.1)) -> read_from p current ->
  storeSubscriptionUpdate status k current nodes info false s = (Ok u, s1) ->
  q ∈ v_subs (view_of (db_tables s1.1)) -> read_from q updated -> su_DatabaseID updated = su_DatabaseID current ->
  su_UpdateMode updated = su_UpdateMode current /\
  su_UpdateIntervalMinutes updated = su_UpdateIntervalMinutes current.
Proof.
  intros Hs Hm Hp Hrp Hrun Hq Hrq Hid.
  destruct (store_effect _ _ _ _ _ _ _ _ _ Hs Hrun) as (servers & d & row & docs & Hd & Hi & Hv).
  rewrite Hv in Hq. apply list_elem_of_lookup_1 in Hq as [n Hq].
  apply list_lookup_insert_Some in Hq as [(<- & Hq & _)|[_ Hq]].
  - subst q. destruct (read_from_row _ _ Hrq) as (_ & Hr & Hmode). cbn in Hr, Hmode.
    destruct (sub_written _ _ Hd) as [Hi' Hm']. cbn in Hi', Hm'. split; [|by rewrite Hr].
    apply (Hmode _ Hm). rewrite (Hm' _ Hm eq_refl).
    unfold interval_mode, isIntervalMode in Hm. destruct (String.eqb_spec (su_UpdateMode current) "") as [He|]; [|done].
    by rewrite He in Hm.
  - apply list_elem_of_lookup_2 in Hq. destruct (read_from_row _ _ Hrp) as (Hpid & _), (read_from_row _ _ Hrq) as (Hqid & _).
    rewrite (ids_unique _ q p Hs Hq Hp) in Hrq by congruence. by rewrite (read_from_fun _ _ _ Hrq Hrp).
Qed.

End Policy.

(** ** Runs of the worker *)

(** Time does not go back and is later than the year 292, and others leave the
    lists numbered. *)
Class OutsideLaws `{J : Json} `{O : ServerObjs} `{K : !Kernel} `{L : !Links} (X : Outside) : Prop := {
  clock_mono : forall m n, (m <= n)%nat -> clock m <= clock n;
  clock_late : forall n, 2 ^ 63 < clock n;
  others_ok : forall n s, svc_ok s -> svc_ok (meanwhile n s);
}.

Section Runs.
Context `{J : Json} `{O : ServerObjs} `{E : !Encodings} `{K : !Kernel} `{KL : !KernelLaws K}.
Context `{L : !Links} `{X : !Outside} `{XL : !OutsideLaws X} `{PL : !PolicyLaws E}.

(** Every run that does not panic ends in [Q]. *)
Definition awp {A} (c : AU A) (w : world) (Q : A -> world -> Prop) : Prop :=
  match c w with Some (a, w') => Q a w' | None => True end.

Lemma awp_bind {A B} (c : AU A) (k : A -> AU B) w Q :
  awp c w (fun a w' => awp (k a) w' Q) -> awp (au_bind c k) w Q.
Proof. unfold awp, au_bind. by destruct (c w) as [[a w']|]. Qed.

Lemma awp_ret {A} (a : A) w (Q : A -> world -> Prop) : Q a w -> awp (au_ret a) w Q.
Proof. done. Qed.

Lemma awp_mono {A} (c : AU A) w (Q Q' : A -> world -> Prop) :
  awp c w Q -> (forall a w', Q a w' -> Q' a w') -> awp c w Q'.
Proof. unfold awp. destruct (c w) as [[a w']|]; auto. Qed.

(** What a run leaves: the store is in order, the schedules are untouched, and
    time has passed. *)
Definition frame (w w' : world) : Prop :=
  svc_ok (w_svc w') /\ w_auto w' = w_auto w /\ (w_tick w <= w_tick w')%nat.

Lemma frame_refl w : svc_ok (w_svc w) -> frame w w.
Proof. intros H. split; [done|]. by split. Qed.

Lemma frame_trans w w1 w' : frame w w1 -> frame w1 w' -> frame w w'.
Proof. intros (H1 & H2 & H3) (G1 & G2 & G3). split; [done|]. split; [congruence|lia]. Qed.

Definition now_of (w : world) : Z := clock (w_tick w).

Lemma frame_now w w' : frame w w' -> now_of w <= now_of w'.
Proof. intros (_ & _ & H). by apply clock_mono. Qed.

Class Steady {A} (c : AU A) : Prop := steady : forall w, svc_ok (w_svc w) -> awp c w (fun _ w' => frame w w').

Lemma awp_steady {A} (c : AU A) w (Q : A -> world -> Prop) : Steady c -> svc_ok (w_svc w) ->
  (forall a w', frame w w' -> Q a w') -> awp c w Q.
Proof. intros Hc Hs HQ. eapply awp_mono; [by apply Hc|]. auto. Qed.

#[export] Instance steady_ret {A} (a : A) : Steady (au_ret a).
Proof. intros w Hs. by apply frame_refl. Qed.
#[export] Instance steady_panic {A} : Steady (A := A) au_panic.
Proof. by intros w Hs. Qed.
#[export] Instance steady_bind {A B} (c : AU A) (k : A -> AU B) :
  Steady c -> (forall a, Steady (k a)) -> Steady (au_bind c k).
Proof.
  intros Hc Hk w Hs. apply awp_bind. apply awp_steady; [done|done|]. intros a w1 Hf.
  apply awp_steady; [apply Hk|apply Hf|]. intros b w2. by apply frame_trans.
Qed.
#[export] Instance steady_outside {A} (f : nat -> A) : Steady (au_outside f).
Proof. intros w Hs. split; [done|]. split; [done|]. cbn. lia. Qed.
#[export] Instance steady_lock : Steady au_lock.
Proof. intros w Hs. split; [by apply others_ok|]. split; [done|]. cbn. lia. Qed.
#[export] Instance steady_auto : Steady au_auto.
Proof. intros w Hs. by apply frame_refl. Qed.
#[export] Instance steady_sv {A} (c : SV A) : Keeps c -> Steady (au_sv c).
Proof.
  intros Hc w Hs. unfold awp, au_sv. pose proof (Hc _ Hs) as H. destruct (c (w_svc w)) as [r s].
  split; [done|]. by split.
Qed.
#[export] Instance steady_if {A} (b : bool) (c d : AU A) : Steady c -> Steady d -> Steady (if b then c else d).
Proof. by destruct b. Qed.
#[export] Instance steady_option {A B} (o : option B) (f : B -> AU A) (d : AU A) :
  (forall b, Steady (f b)) -> Steady d -> Steady (match o with Some b => f b | None => d end).
Proof. by destruct o. Qed.
#[export] Instance steady_option' {A B} (o : option B) (f : B -> AU A) (d : AU A) :
  (forall b, Steady (f b)) -> Steady d -> Steady (match o with None => d | Some b => f b end).
Proof. by destruct o. Qed.
#[export] Instance steady_result {A B} (o : result B) (f : B -> AU A) (d : error -> AU A) :
  (forall b, Steady (f b)) -> (forall e, Steady (d e)) ->
  Steady (match o with Ok b => f b | Err e => d e end).
Proof. by destruct o. Qed.
#[export] Instance steady_pair {A B C} (p : B * C) (f : B -> C -> AU A) :
  (forall b c, Steady (f b c)) -> Steady (let '(b, c) := p in f b c).
Proof. by destruct p. Qed.

#[export] Instance steady_now : Steady au_now.
Proof. unfold au_now. apply _. Qed.
#[export] Instance steady_ctx_err : Steady au_ctx_err.
Proof. unfold au_ctx_err. apply _. Qed.
#[export] Instance steady_read {A} (x : A) (c : DB A) : ConfigOnly c -> Steady (au_read x c).
Proof. intros. unfold au_read. apply _. Qed.
#[export] Instance steady_probe nodes url : Steady (au_probe nodes url).
Proof. unfold au_probe. apply _. Qed.
#[export] Instance steady_fetch a b : Steady (fetchSubscriptionForAutomation a b).
Proof. unfold fetchSubscriptionForAutomation. apply _. Qed.
#[export] Instance config_only_find id : ConfigOnly (findSubscriptionByDatabaseID id).
Proof. unfold findSubscriptionByDatabaseID. apply _. Qed.
#[export] Instance steady_applyUpdate sub nodes info : Steady (applyUpdate sub nodes info).
Proof. unfold applyUpdate. apply _. Qed.
#[export] Instance steady_unavailable sub url st : Steady (subscriptionUnavailable sub url st).
Proof. unfold subscriptionUnavailable. cbn zeta. apply _. Qed.


(** ** Deadlines *)

Definition soon (T m x : Z) : Prop := 0 < x <= T + m.

Definition failsafe (sub : SubscriptionRaw) : Prop := su_UpdateMode sub = SubscriptionUpdateIntervalFailsafe.

(** The regular deadline of [sub] lies at most its interval ahead of [T]; in the
    fail-safe mode so does the next look at its health or the next retry. *)
Definition on_time (T : Z) (sub : SubscriptionRaw) (st : subscriptionSchedule) : Prop :=
  soon T (minutes (su_UpdateIntervalMinutes sub)) (nextUpdate st) /\
  (failsafe sub -> soon T (minutes (su_FailureIntervalMinutes sub)) (nextHealth st) \/
                   soon T (minutes (su_FailureIntervalMinutes sub)) (nextRetry st)).

(** A subscription with deadlines. *)
Definition timed (sub : SubscriptionRaw) : Prop :=
  interval_mode (su_UpdateMode sub) /\ 0 <= minutes (su_UpdateIntervalMinutes sub).

(** Every schedule is on time for the policy it was made for. *)
Definition schedules_on_time (T : Z) (a : automation) : Prop :=
  forall id st sub, subscriptions a !! id = Some st -> ss_signature st = subscriptionPolicySignature sub ->
    timed sub -> on_time T sub st.

Lemma soon_later T T' m x : T <= T' -> soon T m x -> soon T' m x.
Proof. unfold soon. lia. Qed.

Lemma soon_from n T m : clock n <= T -> soon T (minutes m) (time_add (clock n) (minutes m)).
Proof.
  intros HT. pose proof (clock_late n). pose proof (i64_range (m * Minute)) as Hr.
  unfold soon, time_add, minutes, is_i64 in *. lia.
Qed.

Lemma on_time_later T T' sub st : T <= T' -> on_time T sub st -> on_time T' sub st.
Proof.
  intros HT [H1 H2]. split; [by eapply soon_later|]. intros Hf.
  destruct (H2 Hf); [left|right]; by eapply soon_later.
Qed.

(** Looking for a subscription under the lock. *)
Lemma awp_find id w (Q : Z * option SubscriptionRaw -> world -> Prop) : svc_ok (w_svc w) ->
  (forall k o w', frame w w' -> db_tables (w_svc w').1 = db_tables (w_svc w).1 ->
     (forall sub, o = Some sub -> exists p, p ∈ v_subs (view_of (db_tables (w_svc w).1)) /\
        read_from p sub /\ su_DatabaseID sub = id) -> Q (k, o) w') ->
  awp (au_read (-1, None) (findSubscriptionByDatabaseID id)) w Q.
Proof.
  intros Hs HQ. unfold awp, au_read, au_bind, au_sv, sv_db.
  pose proof (find_run id (w_svc w).1 Hs) as H.
  destruct (findSubscriptionByDatabaseID id (w_svc w).1) as [r d]. destruct H as [Ht Hcur]. cbn [au_ret].
  assert (Hf : frame w (mkWorld (d, (w_svc w).2) (w_auto w) (w_tick w))).
  { split; [unfold svc_ok; cbn; by rewrite Ht|]. by split. }
  destruct r as [[k o]|e]; apply HQ; try done. intros sub ->. by eapply Hcur.
Qed.

(** Storing the update, with the policy of the subscription read afterwards. *)
Lemma awp_store status k current nodes info w (Q : result unit -> world -> Prop) p : svc_ok (w_svc w) ->
  interval_mode (su_UpdateMode current) ->
  p ∈ v_subs (view_of (db_tables (w_svc w).1)) -> read_from p current ->
  (forall r w', frame w w' ->
     (is_ok r = true -> forall q updated, q ∈ v_subs (view_of (db_tables (w_svc w').1)) -> read_from q updated ->
        su_DatabaseID updated = su_DatabaseID current -> su_UpdateMode updated = su_UpdateMode current /\
        su_UpdateIntervalMinutes updated = su_UpdateIntervalMinutes current) -> Q r w') ->
  awp (au_sv (storeSubscriptionUpdate status k current nodes info false)) w Q.
Proof.
  intros Hs Hm Hp Hrp HQ. unfold awp, au_sv.
  pose proof (keeps (c := storeSubscriptionUpdate status k current nodes info false) _ Hs) as Hk.
  destruct (storeSubscriptionUpdate _ k current nodes info false (w_svc w)) as [r s'] eqn:Hst. cbn [snd] in Hk.
  apply HQ; [split; [done|by split]|]. intros Hr q updated Hq Hrq Hid. destruct r as [u|e]; [|done].
  by apply (policy_kept _ _ _ _ _ _ _ p updated q u Hs Hm Hp Hrp Hst Hq Hrq).
Qed.

Lemma applyUpdate_policy sub nodes info w : svc_ok (w_svc w) -> interval_mode (su_UpdateMode sub) ->
  awp (applyUpdate sub nodes info) w (fun r w' => frame w w' /\
    forall updated, r = Ok (Some updated) -> su_UpdateMode updated = su_UpdateMode sub /\
      su_UpdateIntervalMinutes updated = su_UpdateIntervalMinutes sub).
Proof.
  intros Hs Hm. unfold applyUpdate. apply awp_bind. eapply awp_steady; [apply _|done|]. intros _ w1 Hf1.
  apply awp_bind. eapply awp_steady; [apply _|apply Hf1|]. intros c w2 Hf2. pose proof (frame_trans _ _ _ Hf1 Hf2) as Hf.
  destruct c as [err|]; [by split|]. apply awp_bind, awp_find; [apply Hf|]. intros k o w3 Hf3 Ht Hcur.
  pose proof (frame_trans _ _ _ Hf Hf3) as Hf'. clear Hf1 Hf2 Hf. destruct o as [current|]; [|by split].
  destruct (Hcur current eq_refl) as (p & Hp & Hrp & Hid).
  destruct (String.eqb_spec (subscriptionPolicySignature current) (subscriptionPolicySignature sub)) as [Hsig|_];
    [|by split].
  destruct (signature_told sub current Hm (eq_sym Hsig)) as (Hmode & Hreg & _). cbn [negb].
  apply awp_bind. unfold awp at 1, au_outside. set (w4 := mkWorld _ _ _).
  assert (Hf4 : frame w w4) by (destruct Hf' as (G1 & G2 & G3); split; [done|]; split; [done|]; cbn; lia).
  apply awp_bind, (awp_store _ _ _ _ _ _ _ p); [apply Hf4|by rewrite Hmode|cbn; by rewrite Ht|done|].
  intros r w5 Hf5 Hpol. pose proof (frame_trans _ _ _ Hf4 Hf5) as Hf''. destruct r as [u|e]; [|by split].
  apply awp_bind, awp_find; [apply Hf5|]. intros k' o w6 Hf6 Ht' Hupd.
  split; [by eapply frame_trans|]. intros updated [= ->]. destruct (Hupd updated eq_refl) as (q & Hq & Hrq & Hqid).
  rewrite <-Hmode, <-Hreg. apply (Hpol eq_refl q updated Hq Hrq). congruence.
Qed.

Definition keeps_policy (sub sub' : SubscriptionRaw) : Prop := interval_mode (su_UpdateMode sub) ->
  su_UpdateMode sub' = su_UpdateMode sub /\ su_UpdateIntervalMinutes sub' = su_UpdateIntervalMinutes sub.

Lemma awp_applyUpdate sub nodes info w : svc_ok (w_svc w) ->
  awp (applyUpdate sub nodes info) w (fun r w' => frame w w' /\
    forall updated, r = Ok (Some updated) -> keeps_policy sub updated).
Proof.
  intros Hs. destruct (isIntervalMode (su_UpdateMode sub)) eqn:Hm.
  - eapply awp_mono; [by apply applyUpdate_policy|]. intros r w' [Hf H]. split; [done|]. intros u Hu _. by apply H.
  - eapply awp_steady; [apply _|done|]. intros r w' Hf. split; [done|]. intros u _ H. unfold interval_mode in H. congruence.
Qed.

(** *** The parts of [process] *)

Definition tick (w : world) : world := mkWorld (w_svc w) (w_auto w) (S (w_tick w)).

Lemma awp_now w (Q : Z -> world -> Prop) : svc_ok (w_svc w) ->
  (frame w (tick w) -> now_of w <= now_of (tick w) -> Q (now_of w) (tick w)) -> awp au_now w Q.
Proof.
  intros Hs HQ. apply HQ.
  - split; [done|]. split; [done|]. cbn. lia.
  - apply clock_mono. cbn. lia.
Qed.

Lemma soon_now w T m : now_of w <= T -> soon T (minutes m) (time_add (now_of w) (minutes m)).
Proof. apply soon_from. Qed.

Lemma awp_unavailable sub url st w : svc_ok (w_svc w) ->
  awp (subscriptionUnavailable sub url st) w (fun r w' => frame w w' /\ exists b, r.2 = set_warned st b).
Proof.
  intros Hs. unfold subscriptionUnavailable. cbn zeta. destruct (existsb _ _); apply awp_bind.
  - eapply awp_steady; [apply _|done|]. intros e w' Hf. split; [done|]. by eexists.
  - eapply awp_steady; [apply _|done|]. intros rs w' Hf. apply awp_bind.
    eapply awp_steady; [apply _|apply Hf|]. intros e w2 Hf2. split; [by eapply frame_trans|]. by eexists.
Qed.

Lemma awp_reserve sub f regularDue st w : svc_ok (w_svc w) ->
  awp (reserve_retry sub (minutes f) regularDue st) w (fun st' w' => frame w w' /\
    ss_signature st' = ss_signature st /\ soon (now_of w') (minutes f) (nextRetry st') /\
    (soon (now_of w') (minutes (su_UpdateIntervalMinutes sub)) (nextUpdate st') \/ nextUpdate st' = nextUpdate st)).
Proof.
  intros Hs. unfold reserve_retry. apply awp_bind, awp_now; [done|]. intros Hf Hn. destruct regularDue.
  - apply awp_bind, awp_now; [done|]. intros Hf2 Hn2. split; [by eapply frame_trans|]. split; [done|].
    split; [apply soon_now; lia|]. left. by apply soon_now.
  - split; [done|]. split; [done|]. split; [by apply soon_now|]. by right.
Qed.

(** What the update of [sub] makes of its schedule, at [T]. *)
Definition rescheduled (T f : Z) (sub sub' : SubscriptionRaw) (st st' : subscriptionSchedule) : Prop :=
  keeps_policy sub sub' /\ ss_signature st' = ss_signature st /\
  (interval_mode (su_UpdateMode sub) ->
     soon T (minutes (su_UpdateIntervalMinutes sub)) (nextUpdate st') \/ nextUpdate st' = nextUpdate st) /\
  (failsafe sub -> soon T (minutes f) (nextHealth st') \/ soon T (minutes f) (nextRetry st') \/
                   nextRetry st' = nextRetry st).

Lemma keeps_policy_refl sub : keeps_policy sub sub.
Proof. done. Qed.

Lemma failsafe_interval sub : failsafe sub -> interval_mode (su_UpdateMode sub).
Proof. intros ->. done. Qed.

(** The state after the regular deadline was set anew. *)
Lemma rescheduled_update w T f sub sub' st (regularDue : bool) : now_of w <= T -> keeps_policy sub sub' ->
  rescheduled T f sub sub' st
    (if regularDue then
       set_update st (if isIntervalMode (su_UpdateMode sub')
                      then time_add (now_of w) (minutes (su_UpdateIntervalMinutes sub')) else 0)
     else st).
Proof.
  intros HT Hk. split; [done|]. destruct regularDue; [|by auto].
  split; [done|]. split; [|by right; right]. intros Hm. left. destruct (Hk Hm) as [Hm' Hr']. cbn.
  rewrite Hm', Hm, Hr'. by apply soon_now.
Qed.

Lemma awp_fetched sub url f (regularDue retryDue : bool) st w : svc_ok (w_svc w) ->
  awp (process_update sub url (minutes f) regularDue retryDue st) w (fun r w' => frame w w' /\
    rescheduled (now_of w') f sub r.1.1 st r.1.2).
Proof.
  intros Hs. unfold process_update. apply awp_bind. eapply awp_steady; [apply _|done|]. intros fetched w1 Hf1.
  apply awp_bind. eapply awp_steady; [apply _|apply Hf1|]. intros c w2 Hf2.
  pose proof (frame_trans _ _ _ Hf1 Hf2) as Hf. clear Hf1 Hf2 w1.
  destruct c as [err|]; [split; [done|]; split; [done|]; by auto|].
  apply awp_bind. apply (awp_mono _ _ (fun o w' => frame w w' /\ forall sub', o = Some sub' -> keeps_policy sub sub')).
  { destruct fetched as [[nodes info]|e]; [|split; [done|]; by intros ? [= <-]].
    apply awp_bind. eapply awp_mono; [apply awp_applyUpdate, Hf|]. intros [o|e] w3 [Hf3 Hk].
    - split; [by eapply frame_trans|]. intros sub' ->. by apply Hk.
    - split; [by eapply frame_trans|]. by intros ? [= <-]. }
  intros o w3 [Hf3 Hk]. apply awp_bind, awp_now; [apply Hf3|]. intros Hf4 Hn4.
  destruct o as [sub'|]; [|done]. specialize (Hk sub' eq_refl). pose proof (frame_trans _ _ _ Hf3 Hf4) as Hf5.
  set (st1 := if regularDue then _ else st). pose proof (rescheduled_update w3 _ f sub sub' st regularDue Hn4 Hk) as Hr1.
  fold st1 in Hr1. destruct (String.eqb_spec (su_UpdateMode sub') SubscriptionUpdateIntervalFailsafe) as [Hfs|Hfs]; cbn [negb].
  - apply awp_bind. eapply awp_mono; [apply awp_unavailable, Hf5|]. intros [[un e] st2] w6 [Hf6 [b Hb]]. cbn in Hb. subst st2.
    pose proof (frame_trans _ _ _ Hf5 Hf6) as Hf7. destruct Hr1 as (R1 & R2 & R3 & R4).
    assert (R3' : forall T, now_of (tick w3) <= T -> interval_mode (su_UpdateMode sub) ->
      soon T (minutes (su_UpdateIntervalMinutes sub)) (nextUpdate st1) \/ nextUpdate st1 = nextUpdate st).
    { intros T HT Hm. destruct (R3 Hm); [left; by eapply soon_later|by right]. }
    pose proof (frame_now _ _ Hf6) as Hn6. destruct e as [err|].
    + split; [done|]. split; [done|]. split; [done|]. split; [by apply R3'|]. right. right.
      by destruct regularDue.
    + apply awp_bind, awp_now; [apply Hf7|]. intros Hf8 Hn8.
      destruct un; (split; [by eapply frame_trans|]); (split; [done|]); (split; [done|]);
        (split; [apply R3'; lia|]); intros _; cbn; [right; left|left]; by apply soon_now.
  - split; [done|]. destruct Hr1 as (R1 & R2 & R3 & R4). split; [done|]. split; [done|]. split; [done|].
    intros Hf'. destruct Hfs. by destruct (Hk (failsafe_interval _ Hf')) as [-> _].
Qed.

Lemma awp_due sub url (regularDue retryDue : bool) st w : svc_ok (w_svc w) ->
  awp (process_due sub url (minutes (su_FailureIntervalMinutes sub)) regularDue retryDue st) w (fun r w' =>
    frame w w' /\ ss_signature r.1 = ss_signature st /\
    (interval_mode (su_UpdateMode sub) ->
     soon (now_of w) (minutes (su_UpdateIntervalMinutes sub)) (nextUpdate st) -> on_time (now_of w') sub r.1)).
Proof.
  intros Hs. unfold process_due.
  destruct (String.eqb_spec (su_UpdateMode sub) SubscriptionUpdateIntervalFailsafe) as [Hfs|Hfs]; apply awp_bind.
  - eapply awp_mono; [by apply awp_reserve|]. cbn beta. intros st1 w1 (Hf1 & S1 & N1 & U1).
    apply awp_bind. eapply awp_mono; [apply awp_fetched, Hf1|]. intros [[sub' st2] err] w2 [Hf2 (R1 & R2 & R3 & R4)].
    cbn [fst snd] in *. pose proof (frame_trans _ _ _ Hf1 Hf2) as Hf. pose proof (frame_now _ _ Hf1) as T1.
    pose proof (frame_now _ _ Hf2) as T2. pose proof (failsafe_interval _ Hfs) as Hm.
    assert (Hot : soon (now_of w) (minutes (su_UpdateIntervalMinutes sub)) (nextUpdate st) -> on_time (now_of w2) sub st2).
    { intros HU. split.
      - destruct (R3 Hm) as [?| ->]; [done|]. destruct U1 as [?| ->]; (eapply soon_later; [|done]); cbn in *; lia.
      - intros _. destruct (R4 Hfs) as [?|[?| ->]]; [by left|by right|]. right. by eapply soon_later. }
    apply awp_bind. eapply awp_steady; [apply _|apply Hf|]. intros c w3 Hf3. pose proof (frame_now _ _ Hf3) as T3.
    pose proof (frame_trans _ _ _ Hf Hf3) as Hf'. destruct (is_some c).
    + apply awp_bind. eapply awp_mono; [apply awp_reserve, Hf'|]. cbn beta. intros st4 w4 (Hf4 & S4 & N4 & U4).
      split; [by eapply frame_trans|]. split; [cbn in *; congruence|]. intros _ HU. split.
      * destruct (R1 Hm) as [_ Hreg]. rewrite Hreg in U4. destruct U4 as [?|He]; [done|]. cbn [fst]. rewrite He.
        eapply soon_later; [|apply (Hot HU)]. pose proof (frame_now _ _ Hf4). lia.
      * intros _. by right.
    + split; [done|]. split; [cbn in *; congruence|]. intros _ HU. eapply on_time_later; [|by apply Hot]. done.
  - eapply awp_mono; [by apply awp_fetched|]. intros [[sub' st2] err] w2 [Hf (R1 & R2 & R3 & R4)].
    cbn [fst snd] in *. split; [done|]. split; [done|]. intros Hm HU. split; [|done].
    cbn [fst]. destruct (R3 Hm) as [?| ->]; [done|]. eapply soon_later; [|done]. by apply frame_now.
Qed.

(** What [process] leaves of the state of the worker. *)
Definition processed (sub : SubscriptionRaw) (w w' : world) (st : subscriptionSchedule) : Prop :=
  svc_ok (w_svc w') /\ (w_tick w <= w_tick w')%nat /\
  w_auto w' = mkAutomation (<[su_DatabaseID sub := st]> (subscriptions (w_auto w))) (groups (w_auto w)) /\
  ss_signature st = subscriptionPolicySignature sub /\ (timed sub -> on_time (now_of w') sub st).

Lemma awp_health sub url now st w : svc_ok (w_svc w) ->
  awp (process_health sub url now (minutes (su_FailureIntervalMinutes sub)) st) w (fun r w' => frame w w' /\
    ss_signature r.1 = ss_signature st /\ nextUpdate r.1 = nextUpdate st /\
    (is_some r.2 = true -> soon (now_of w') (minutes (su_FailureIntervalMinutes sub)) (nextHealth r.1))).
Proof.
  intros Hs. unfold process_health. apply awp_bind. eapply awp_mono; [by apply awp_unavailable|].
  intros [[un e] st1] w1 [Hf [b Hb]]. cbn in Hb. subst st1. destruct e as [err|].
  - apply awp_bind, awp_now; [apply Hf|]. intros Hf2 Hn. split; [by eapply frame_trans|]. do 2 (split; [done|]).
    intros _. by apply soon_now.
  - destruct un; cbn [negb].
    + split; [done|]. do 2 (split; [done|]). done.
    + apply awp_bind, awp_now; [apply Hf|]. intros Hf2 Hn. split; [by eapply frame_trans|]. do 2 (split; [done|]).
      intros _. by apply soon_now.
Qed.

(** The schedule found is on time, or new and due. *)
Lemma schedule_of_spec w sub : schedules_on_time (now_of w) (w_auto w) ->
  let st := schedule_of (w_auto w) sub (now_of w) in
  ss_signature st = subscriptionPolicySignature sub /\
  (timed sub -> soon (now_of w) (minutes (su_UpdateIntervalMinutes sub)) (nextUpdate st) /\
     (on_time (now_of w) sub st \/ due (now_of w) (nextUpdate st) = true)).
Proof.
  intros Ha. cbn zeta. unfold schedule_of. pose proof (clock_late (w_tick w)) as Hl.
  assert (Hnew : timed sub -> soon (now_of w) (minutes (su_UpdateIntervalMinutes sub)) (now_of w) /\
    due (now_of w) (now_of w) = true).
  { intros [_ Hp]. unfold soon, due, time_is_zero, now_of in *. split; [lia|].
    destruct (Z.eqb_spec (clock (w_tick w)) 0); [lia|]. by rewrite Z.ltb_irrefl. }
  destruct (subscriptions (w_auto w) !! su_DatabaseID sub) as [st|] eqn:Hst.
  2:{ split; [done|]. intros Ht. destruct (Hnew Ht). auto. }
  destruct (String.eqb_spec (ss_signature st) (subscriptionPolicySignature sub)) as [He|_].
  - split; [done|]. intros Ht. pose proof (Ha _ _ _ Hst He Ht) as Hot. split; [apply Hot|by left].
  - split; [done|]. intros Ht. destruct (Hnew Ht). auto.
Qed.

Lemma awp_process sub url w : svc_ok (w_svc w) -> schedules_on_time (now_of w) (w_auto w) ->
  awp (process sub url) w (fun _ w' => exists st, processed sub w w' st).
Proof.
  intros Hs Ha. destruct (schedule_of_spec w sub Ha) as [Hsig Hst]. unfold process.
  apply awp_bind, awp_now; [done|]. intros Hf1 Hn1. apply awp_bind. unfold awp at 1, au_auto. cbn [w_auto tick].
  cbn zeta. set (st := schedule_of _ _ _) in *. set (w1 := tick w) in *.
  set (reg := due _ (nextUpdate st)) in *. set (ret := due _ (nextRetry st)). set (hea := due _ (nextHealth st)).
  apply awp_bind.
  apply (awp_mono _ _ (fun r w' => frame w w' /\ ss_signature r.1.1 = ss_signature st /\
    nextUpdate r.1.1 = nextUpdate st /\
    match r.1.2 with
    | Some _ => reg = false /\ soon (now_of w') (minutes (su_FailureIntervalMinutes sub)) (nextHealth r.1.1)
    | None => r.2 = false -> r.1.1 = st
    end)).
  { destruct (hea && negb reg && negb ret) eqn:Hb.
    - apply awp_bind. eapply awp_mono; [apply awp_health, Hf1|]. intros [st1 early] w2 (Hf2 & S2 & U2 & H2).
      split; [by eapply frame_trans|]. split; [done|]. split; [done|]. cbn [fst snd] in *.
      destruct early; [|done]. split; [by destruct reg, hea|by apply H2].
    - split; [done|]. by repeat split. }
  intros [[st1 early] ret1] w2 (Hf2 & S2 & U2 & H2). cbn [fst snd] in *. apply awp_bind.
  pose proof (frame_now _ _ Hf2) as T2.
  apply (awp_mono _ _ (fun r w' => frame w w' /\ ss_signature r.1 = ss_signature st /\
    (timed sub -> on_time (now_of w') sub r.1))).
  { destruct early as [err|].
    - split; [done|]. split; [done|]. intros Ht. destruct (Hst Ht) as [Hu Hd], H2 as [_ H2]. split.
      + cbn [fst]. rewrite U2. by eapply soon_later.
      + intros _. by left.
    - destruct (negb reg && negb ret1) eqn:Hb.
      + split; [done|]. split; [done|]. intros Ht. destruct (Hst Ht) as [_ [Hd|Hd]].
        * cbn [fst]. rewrite H2 by (by destruct reg, ret1). by eapply on_time_later.
        * fold reg in Hd. by rewrite Hd in Hb.
      + eapply awp_mono; [apply awp_due, Hf2|]. intros [st3 err] w3 (Hf3 & S3 & H3). cbn [fst] in *.
        split; [by eapply frame_trans|]. split; [congruence|]. intros Ht. apply H3; [apply Ht|]. rewrite U2.
        eapply soon_later; [|by apply Hst]. done. }
  intros [st3 err] w3 (Hf3 & S3 & H3). cbn [fst] in *. exists st3. destruct Hf3 as (G1 & G2 & G3).
  split; [done|]. split; [done|]. split; [cbn; by rewrite G2|]. split; [congruence|done].
Qed.

End Runs.
