(* ===== verification/AutomationRef.v ===== *)
(** * A concrete outside for the automation worker

    Instances of [Links] and [Outside] on the nodes of [CatalogRef], with their
    laws, for the examples of the theorems. *)

From stdpp Require Import countable.
From S2P Require Import Prelude.
From S2P Require Import Store StoreLists StoreProps NodeRefs Configure.
From S2P Require Import Catalog ConfigureProps Automation StoreFrame AutomationProps JsonRef CatalogRef.

#[local] Open Scope Z_scope.

Module AutomationRef.
Import JsonRef CatalogRef.

Fixpoint bits (p : positive) : string :=
  match p with
  | xH => ""
  | xO p => String "0" (bits p)
  | xI p => String "1" (bits p)
  end.

#[export] Instance bits_inj : Inj (=) (=) bits.
Proof.
  intros p. induction p as [p IH|p IH|]; intros [q|q|] H; cbn in H; try discriminate H; try done;
    injection H as H; by rewrite (IH q H).
Qed.

Definition text_of `{Countable A} (x : A) : string := bits (encode x).

#[export] Instance text_of_inj `{Countable A} : Inj (=) (=) (text_of (A := A)).
Proof. intros x y Hxy. unfold text_of in Hxy. apply (inj bits) in Hxy. by apply encode_inj in Hxy. Qed.

(** A link leads to a node with that link; links of plug-ins begin with
    "plugin:". *)
#[export] Instance links_ref : Links := {
  ResolveURL u := Ok (mkNode u "ss" "" 0 "");
  is_plugin n := HasPrefix (n_url n) "plugin:";
  policy_text id a m r al f := text_of (id, a, m, r, al, f);
  group_text auto url interval type selected candidates := text_of (auto, url, interval, type, selected, candidates);
  NodeFingerprint link := link;
  url_Parse s := Ok ("https"%string, s);
}.

#[export] Instance policy_ref_laws : PolicyLaws encodings_ref.
Proof.
  split.
  - intros f d s0 s [= <-] [= <-]. by split.
  - intros sub d [= <-]. by split.
  - intros id a m r al f id' a' m' r' al' f' _ H. cbn in H. apply (inj text_of) in H. by injection H as -> -> -> -> -> ->.
Qed.

Definition probe_one (_ : string) (node : option node) : subscriptionProbeResult :=
  mkProbeResult 1 (match node with
                   | Some n => if String.eqb (n_url n) "ss://down" then Some (ExtErr "timeout") else None
                   | None => Some (ExtErr "plugin")
                   end).

(** Every probe of a link other than "ss://down" succeeds, every download brings one node, a
    second passes between interactions, and nobody else acts.  The context is
    cancelled from the interaction [stop] on. *)
Definition outside_ref (stop : nat) : Outside := {|
  clock n := 2 ^ 64 + Z.of_nat n * Second;
  cancelled n := if (stop <=? n)%nat then Some (ExtErr "context canceled") else None;
  probed _ nodes url := map (probe_one url) nodes;
  http_client _ := None;
  resolved _ _ := Ok ([mkNode "ss://new" "ss" "example.org" 443 "new"], ""%string);
  resolved_directly _ _ := Err (ExtErr "unreachable");
  proxy_is_direct _ := false;
  update_status _ := ""%string;
  meanwhile _ s := s;
  map_order _ l := l;
|}.

#[export] Instance outside_ref_laws stop : OutsideLaws (outside_ref stop).
Proof.
  split.
  - intros m n H. cbn. unfold Second. lia.
  - intros n. cbn. unfold Second. lia.
  - done.
Qed.

(** A subscription that is updated every hour and watched every five minutes. *)
Definition watched : SubscriptionRaw :=
  mkSubscriptionRaw 0 SubscriptionUpdateIntervalFailsafe 60 5 true "" "https://sub.example" ""
    [mkServerRaw (mkNode "ss://x" "ss" "example.org" 443 "x") ""] "" false.

Definition watched_state : database := run_ops [OpSubscriptionsAppend (JArr [sub_json watched])] (mkDatabase empty_tables []).

Lemma watched_ok : tables_ok (db_tables watched_state).
Proof. apply run_ops_ok; [apply empty_ok..|]. by repeat split. Qed.

Definition watched_world : world := mkWorld (watched_state, true) newAutomation 0.

(** The same with a group that keeps its current node. *)
Definition keeping_world : world :=
  mkWorld (mkDatabase (with_system_config (db_tables watched_state)
             {[ "outbound.proxy:setting"%string :=
                  setting_json (mkOutboundSetting false "https://probe.example" "60s" KeepCurrent "" "") ]}) [], true)
    newAutomation 0.

End AutomationRef.
