(* ===== verification/AutomationPass.v ===== *)
(** * A pass of the automation worker

    One call of [step] visits every subscription and every group that manages
    itself.  After a pass that is not interrupted, every subscription with an
    interval has its deadlines, and the pass returns the first of them. *)

From S2P Require Import Prelude.
From S2P Require Import Store StoreLists StoreProps NodeRefs Configure.
From S2P Require Import Catalog DeleteProps ConfigureProps CatalogProps UpdateProps Automation StoreFrame AutomationProps.
From S2P Require Import JsonRef CatalogRef AutomationRef.

#[local] Open Scope Z_scope.
#[local] Open Scope go_scope.

Section Pass.
Context `{J : Json} `{O : ServerObjs} `{E : !Encodings} `{K : !Kernel} `{KL : !KernelLaws K}.
Context `{L : !Links} `{X : !Outside} `{XL : !OutsideLaws X} `{PL : !PolicyLaws E}.

(** ** The subscriptions *)

Definition in_order_at (w : world) : Prop := svc_ok (w_svc w) /\ schedules_on_time (now_of w) (w_auto w).

Lemma same_policy T sub sub' st : subscriptionPolicySignature sub' = subscriptionPolicySignature sub ->
  timed sub' -> (timed sub -> on_time T sub st) -> on_time T sub' st.
Proof.
  intros He [Hm Hp] H. destruct (signature_told sub' sub Hm He) as (M1 & M2 & M3).
  unfold timed, on_time, failsafe in *. rewrite M1, M2, M3 in H. by apply H.
Qed.

Lemma processed_in_order sub w w' st : in_order_at w -> processed sub w w' st -> in_order_at w'.
Proof.
  intros [_ Ha] (H1 & H2 & H3 & H4 & H5). split; [done|]. rewrite H3. intros id st' sub' Hl Hs Ht. cbn in Hl.
  destruct (decide (id = su_DatabaseID sub)) as [->|Hne].
  - rewrite lookup_insert_eq in Hl. injection Hl as <-. apply (same_policy _ sub); [congruence|done..].
  - rewrite lookup_insert_ne in Hl by done. eapply on_time_later; [|by eapply Ha]. by apply clock_mono.
Qed.

(** The context was found cancelled between [w] and [w']. *)
Definition interrupted_between (w w' : world) : Prop :=
  exists n, (w_tick w <= n < w_tick w')%nat /\ is_some (cancelled n) = true.

Lemma interrupted_wider w w1 w2 w' : (w_tick w <= w_tick w1)%nat -> (w_tick w2 <= w_tick w')%nat ->
  interrupted_between w1 w2 -> interrupted_between w w'.
Proof. intros H1 H2 (n & Hn & Hc). exists n. split; [lia|done]. Qed.

(** There is a schedule for the policy of [sub]. *)
Definition scheduled (a : automation) (sub : SubscriptionRaw) : Prop :=
  exists st, subscriptions a !! su_DatabaseID sub = Some st /\ ss_signature st = subscriptionPolicySignature sub.

Definition all_scheduled (subs : list SubscriptionRaw) (a : automation) : Prop :=
  forall sub, sub ∈ subs -> is_active sub = true -> scheduled a sub.

Definition passed (w : world) (subs : list SubscriptionRaw) (stopped : bool) (w' : world) : Prop :=
  in_order_at w' /\ (w_tick w <= w_tick w')%nat /\ groups (w_auto w') = groups (w_auto w) /\
  (forall id, id ∉ map su_DatabaseID subs -> subscriptions (w_auto w') !! id = subscriptions (w_auto w) !! id) /\
  if stopped then interrupted_between w w' else all_scheduled subs (w_auto w').

Lemma processed_other sub w w' st id : processed sub w w' st -> id <> su_DatabaseID sub ->
  subscriptions (w_auto w') !! id = subscriptions (w_auto w) !! id.
Proof. intros (_ & _ & -> & _) Hne. cbn. by rewrite lookup_insert_ne. Qed.

Lemma passed_cons sub subs w w1 w2 w' st (stopped : bool) : processed sub w w1 st ->
  (w_tick w1 <= w_tick w2)%nat -> w_auto w2 = w_auto w1 -> su_DatabaseID sub ∉ map su_DatabaseID subs ->
  passed w2 subs stopped w' -> passed w (sub :: subs) stopped w'.
Proof.
  intros Hp Ht Ha Hn (P1 & P2 & P3 & P4 & P5). pose proof Hp as (_ & Q2 & Q3 & Q4 & _).
  split; [done|]. split; [lia|]. split; [by rewrite P3, Ha, Q3|]. split.
  - intros id Hid. cbn [map] in Hid. rewrite P4 by (intros ?; apply Hid; by right). rewrite Ha.
    apply (processed_other _ _ _ _ _ Hp). intros ->. apply Hid. left.
  - destruct stopped; [by eapply interrupted_wider; [| |done]; lia|].
    intros s [->|Hs]%elem_of_cons Hact; [|by apply P5]. exists st. split; [|done].
    rewrite P4, Ha, Q3 by done. cbn. apply lookup_insert_eq.
Qed.

Lemma in_order_later w w' : in_order_at w -> frame w w' -> in_order_at w'.
Proof.
  intros [_ Ha] (H1 & H2 & H3). split; [done|]. rewrite H2. intros id st sub Hl Hs Ht.
  eapply on_time_later; [|by eapply Ha]. by apply clock_mono.
Qed.

Lemma awp_process_all url subs w : NoDup (map su_DatabaseID subs) -> in_order_at w ->
  awp (process_all url subs) w (passed w subs).
Proof.
  revert w. induction subs as [|sub subs IH]; intros w Hnd Hw; cbn [process_all].
  { split; [done|]. do 3 (split; [done|]). by intros s ?%elem_of_nil. }
  cbn [map] in Hnd. apply NoDup_cons in Hnd as [Hn Hnd]. destruct (is_active sub) eqn:Hact; cbn [negb].
  - apply awp_bind. eapply awp_mono; [apply awp_process; apply Hw|]. intros err w1 [st Hp].
    pose proof (processed_in_order _ _ _ _ Hw Hp) as Hw1. destruct (is_some err).
    + apply awp_bind. unfold awp at 1, au_ctx_err, au_outside.
      assert (Hw2 : in_order_at (tick w1)) by (apply (in_order_later w1); [done|]; split; [apply Hw1|]; split; [done|cbn; lia]).
      destruct (is_some (cancelled (w_tick w1))) eqn:Hc.
      * pose proof Hp as (_ & Q2 & Q3 & _). split; [done|]. split; [cbn; lia|]. split; [cbn; by rewrite Q3|]. split.
        -- intros id Hid. apply (processed_other _ _ _ _ _ Hp). intros ->. apply Hid. left.
        -- exists (w_tick w1). cbn. split; [lia|done].
      * eapply awp_mono; [by apply (IH (tick w1))|]. intros b w'. by apply (passed_cons _ _ _ w1 (tick w1) _ st); [done|cbn; lia|..].
    + eapply awp_mono; [by apply IH|]. intros b w'. by apply (passed_cons _ _ _ w1 w1 _ st).
  - eapply awp_mono; [by apply IH|]. intros b w' (P1 & P2 & P3 & P4 & P5). split; [done|]. split; [done|]. split; [done|].
    split; [intros id Hid; apply P4; intros ?; apply Hid; by right|]. destruct b; [done|].
    intros s [->|Hs]%elem_of_cons Ha; [congruence|by apply P5].
Qed.

(** ** The groups *)

#[export] Instance config_only_candidates : ConfigOnly automaticGroupCandidates.
Proof. unfold automaticGroupCandidates. apply _. Qed.
#[export] Instance config_only_locate_all refs : ConfigOnly (locate_candidates refs).
Proof. induction refs as [|r refs IH]; cbn [locate_candidates]; apply _. Qed.
#[export] Instance config_only_connected_candidates name : ConfigOnly (connectedGroupCandidates name).
Proof. unfold connectedGroupCandidates. apply _. Qed.
#[export] Instance config_only_read_groups names : ConfigOnly (read_groups names).
Proof. induction names as [|n names IH]; cbn [read_groups]; apply _. Qed.
#[export] Instance steady_apply_group name setting candidates results :
  Steady (apply_group name setting candidates results).
Proof. unfold apply_group, replaceManagedOutboundConnections. cbn zeta. apply _. Qed.
#[export] Instance steady_settle name sig candidates results : Steady (settle_group name sig candidates results).
Proof. unfold settle_group. apply _. Qed.
#[export] Instance steady_cached_probe cache nodes url : Steady (cached_probe cache nodes url).
Proof. unfold cached_probe. cbn zeta. destruct (missing _ _ _); apply _. Qed.

(** Only schedules of groups change. *)
Definition group_frame (w w' : world) : Prop :=
  svc_ok (w_svc w') /\ subscriptions (w_auto w') = subscriptions (w_auto w) /\ (w_tick w <= w_tick w')%nat.

Lemma group_frame_trans w w1 w' : group_frame w w1 -> group_frame w1 w' -> group_frame w w'.
Proof. intros (H1 & H2 & H3) (G1 & G2 & G3). split; [done|]. split; [congruence|lia]. Qed.

Lemma frame_group w w' : frame w w' -> group_frame w w'.
Proof. intros (H1 & H2 & H3). split; [done|]. split; [by rewrite H2|done]. Qed.

Lemma in_order_group w w' : in_order_at w -> group_frame w w' -> in_order_at w'.
Proof.
  intros [_ Ha] (H1 & H2 & H3). split; [done|]. intros id st sub Hl Hs Ht. rewrite H2 in Hl.
  eapply on_time_later; [|by eapply Ha]. by apply clock_mono.
Qed.

Lemma awp_processGroup cache name setting candidates w : svc_ok (w_svc w) ->
  awp (processGroup cache name setting candidates) w (fun _ w' => group_frame w w').
Proof.
  intros Hs. unfold processGroup. cbn zeta. apply awp_bind. unfold awp at 1, au_auto.
  apply awp_bind, awp_now; [done|]. intros Hf1 _. destruct (group_rests _ _ _ _); [by apply frame_group|].
  apply awp_bind. eapply awp_steady; [apply _|apply Hf1|]. intros [r cache'] w2 Hf2.
  apply awp_bind. eapply awp_steady; [apply _|apply Hf2|]. intros err w3 Hf3.
  apply awp_bind, awp_now; [apply Hf3|]. intros Hf4 _.
  pose proof (frame_trans _ _ _ (frame_trans _ _ _ Hf1 Hf2) (frame_trans _ _ _ Hf3 Hf4)) as (H1 & H2 & H3).
  apply awp_bind. unfold set_group. unfold awp at 1, au_bind, au_auto, au_set_auto. cbn [w_auto w_svc w_tick tick].
  split; [done|]. cbn in *. by rewrite H2.
Qed.

Lemma awp_process_groups catalog cache todo w : svc_ok (w_svc w) ->
  awp (process_groups catalog cache todo) w (fun stopped w' => group_frame w w' /\
    (stopped = true -> interrupted_between w w')).
Proof.
  revert cache w. induction todo as [|[name [setting candidates]] todo IH]; intros cache w Hs; cbn [process_groups].
  { split; [by apply frame_group, frame_refl|done]. }
  destruct (negb (managed setting)); [by apply IH|].
  destruct (ValidateOutboundSetting setting) as [u|e]; [|by apply IH].
  apply awp_bind. eapply awp_mono; [by apply awp_processGroup|]. intros cache' w1 Hf1.
  apply awp_bind. unfold awp at 1, au_ctx_err, au_outside. fold (tick w1).
  assert (Hf2 : group_frame w (tick w1)) by (destruct Hf1 as (H1 & H2 & H3); split; [done|]; split; [done|cbn; lia]).
  destruct (is_some (cancelled (w_tick w1))) eqn:Hc.
  - split; [done|]. intros _. exists (w_tick w1). destruct Hf1 as (_ & _ & ?). cbn. split; [lia|done].
  - eapply awp_mono; [by apply (IH cache' (tick w1)), Hf2|]. intros b w' [Hf3 Hi].
    split; [by eapply group_frame_trans|]. intros Hb. destruct (Hi Hb) as (n & Hn & Hcn). exists n.
    destruct Hf2 as (_ & _ & H). split; [lia|done].
Qed.

(** ** The pass *)

(** The subscriptions that a pass reads first. *)
Definition seen_by (w : world) : list SubscriptionRaw :=
  match (GetSubscriptions (meanwhile (w_tick w) (w_svc w)).1).1 with Ok subs => subs | Err _ => [] end.

Lemma awp_read_subscriptions w : svc_ok (w_svc w) ->
  awp (au_read [] GetSubscriptions) w (fun subs w' => frame w w' /\
    subs = match (GetSubscriptions (w_svc w).1).1 with Ok subs => subs | Err _ => [] end /\
    NoDup (map su_DatabaseID subs)).
Proof.
  intros Hs. destruct (wp_true_run _ (w_svc w).1 _ (wp_GetSubscriptions _ Hs)) as (Ht & subs & rows & Hr & Hsub & Hf).
  unfold awp, au_read, au_bind, au_sv, sv_db. destruct (GetSubscriptions (w_svc w).1) as [r d]. cbn [fst snd] in *.
  subst r. cbn [au_ret]. split; [split; [unfold svc_ok; cbn; by rewrite Ht|by split]|]. split; [done|].
  assert (He : map su_DatabaseID subs = map (fun p => sb_id p.1) rows).
  { clear -Hf PL. induction Hf as [|p sub rows subs H _ IH]; [done|]. cbn [map].
    rewrite IH. f_equal. by destruct (read_from_row _ _ H). }
  rewrite He. eapply sublist_NoDup; [|by apply (fmap_sublist (fun p : sub_row * list doc => sb_id p.1))].
  destruct Hs as [Hok _]. pose proof (sorted_nodup _ (ok_ids _ Hok)) as Hn. unfold view_of. cbn [v_subs].
  change (fmap (M := list) (fun p : sub_row * list doc => sb_id p.1)) with (map (fun p : sub_row * list doc => sb_id p.1)).
  by rewrite map_map.
Qed.

(** A subscription in the database that can be decoded. *)
Definition stored_subscription (t : tables) (sub : SubscriptionRaw) : Prop :=
  exists p, p ∈ v_subs (view_of t) /\ read_from p sub.

(** The database that a pass meets. *)
Definition met_by (w : world) : database := (meanwhile (w_tick w) (w_svc w)).1.

Lemma stored_seen w sub : svc_ok (meanwhile (w_tick w) (w_svc w)) -> is_ok (SubscriptionsGetAll (met_by w)).1 = true ->
  stored_subscription (db_tables (met_by w)) sub -> sub ∈ seen_by w.
Proof.
  intros [Hok _] Hread (p & Hp & d & Hd & Hb). fold (met_by w) in Hok. unfold seen_by. fold (met_by w). unfold GetSubscriptions, db_bind, db_try.
  destruct (wp_run SubscriptionsGetAll (met_by w) _ (fun F => wp_SubscriptionsGetAll F _ Hok)) as [[_ H] _].
  destruct (SubscriptionsGetAll (met_by w)) as [[ds|e] s1]; [|done]. cbn [fst snd] in *. cbn.
  apply list_elem_of_lookup_1 in Hp as [i Hi]. destruct (Forall2_lookup_l _ _ _ _ _ H Hi) as (d' & Hd' & Hj).
  unfold read_from in *. rewrite Hj in Hd. injection Hd as ->. unfold decoded. apply list_elem_of_omap. exists d.
  split; [by eapply list_elem_of_lookup_2|]. by rewrite Hb.
Qed.

Definition keeps_deadlines (subs : list SubscriptionRaw) (d : Z) (w' : world) : Prop :=
  forall sub, sub ∈ subs -> timed sub ->
    exists st, subscriptions (w_auto w') !! su_DatabaseID sub = Some st /\
      on_time (now_of w') sub st /\ d <> 0 /\ d <= now_of w' + minutes (su_UpdateIntervalMinutes sub) /\
      (failsafe sub -> d <= now_of w' + minutes (su_FailureIntervalMinutes sub)).

Lemma deadline_kept subs w' : in_order_at w' -> all_scheduled subs (w_auto w') ->
  keeps_deadlines subs (nextDeadline (w_auto w')) w'.
Proof.
  intros [_ Ha] Hall sub Hin Ht.
  assert (Hact : is_active sub = true).
  { destruct Ht as [Hm _]. unfold is_active, interval_mode, isIntervalMode in *.
    destruct (String.eqb_spec (su_UpdateMode sub) SubscriptionUpdateDisabled) as [He|]; [|done]. by rewrite He in Hm. }
  destruct (Hall sub Hin Hact) as (st & Hl & Hs). pose proof (Ha _ _ _ Hl Hs Ht) as Hot. exists st. split; [done|].
  split; [done|]. destruct (nextDeadline_spec (w_auto w')) as (H1 & H2 & _). pose proof Hot as [Hu Hf].
  pose proof (deadline_of _ _ _ (nextUpdate st) Hl ltac:(left)) as Hin1. unfold soon in *. split; [|split].
  - rewrite H1, Forall_forall. intros Hz. specialize (Hz _ Hin1). lia.
  - pose proof (H2 _ Hin1). lia.
  - intros Hfs. destruct (Hf Hfs) as [Hh|Hh].
    + pose proof (H2 _ (deadline_of _ _ _ (nextHealth st) Hl ltac:(right; left))). lia.
    + pose proof (H2 _ (deadline_of _ _ _ (nextRetry st) Hl ltac:(do 2 right; left))). lia.
Qed.

Lemma prune_in_order active w : in_order_at w ->
  awp (prune_subscriptions active) w (fun _ w' => in_order_at w' /\ w_tick w' = w_tick w /\
    forall id, id ∈ active -> subscriptions (w_auto w') !! id = subscriptions (w_auto w) !! id).
Proof.
  intros [Hs Ha]. unfold prune_subscriptions, awp, au_bind, au_auto, au_set_auto. split; [split; [done|]|split; [done|]].
  - intros id st sub Hl. cbn in Hl. apply map_lookup_filter_Some in Hl as [Hl _]. by eapply Ha.
  - intros id Hid. cbn. destruct (subscriptions (w_auto w) !! id) as [st|] eqn:Hl.
    + by apply map_lookup_filter_Some.
    + apply map_lookup_filter_None. by left.
Qed.

Lemma all_scheduled_kept subs a a' :
  (forall id, id ∈ map su_DatabaseID (filter (fun sub => is_active sub = true) subs) ->
     subscriptions a' !! id = subscriptions a !! id) ->
  all_scheduled subs a -> all_scheduled subs a'.
Proof.
  intros He Hall sub Hin Hact. destruct (Hall sub Hin Hact) as (st & Hl & Hs). exists st. split; [|done].
  rewrite He; [done|]. apply list_elem_of_fmap. exists sub. split; [done|]. by apply list_elem_of_filter.
Qed.

(** The groups' half of a pass. *)
Lemma awp_group_phase subs w : in_order_at w -> all_scheduled subs (w_auto w) ->
  awp (au! _ := au_lock in
       au! catalog := au_read [] automaticGroupCandidates in
       au! names := au_read [] GetOutbounds in
       au! found := au_read [] (read_groups names) in
       au! order := au_outside (fun n => map_order n (remove_dups (map fst found))) in
       let todo := in_order order found in
       au! cancelled := process_groups catalog ∅ todo in
       if cancelled then au_ret 0
       else
         au! _ := prune_groups (map fst (filter (fun g => managed (fst (snd g)) = true) found)) in
         au_nextDeadline) w
    (fun d w' => in_order_at w' /\ (w_tick w <= w_tick w')%nat /\
       (~ interrupted_between w w' -> keeps_deadlines subs d w')).
Proof.
  intros Hw Hall. apply awp_bind. eapply awp_steady; [apply _|apply Hw|]. intros _ w1 Hf1.
  apply awp_bind. eapply awp_steady; [apply _|apply Hf1|]. intros cat w2 Hf2.
  apply awp_bind. eapply awp_steady; [apply _|apply Hf2|]. intros names w3 Hf3.
  apply awp_bind. eapply awp_steady; [apply _|apply Hf3|]. intros found w4 Hf4.
  apply awp_bind. eapply awp_steady; [apply _|apply Hf4|]. intros order w5 Hf5.
  pose proof (frame_trans _ _ _ (frame_trans _ _ _ (frame_trans _ _ _ Hf1 Hf2) (frame_trans _ _ _ Hf3 Hf4)) Hf5) as Hf.
  cbn zeta. apply awp_bind. eapply awp_mono; [apply awp_process_groups, Hf5|]. intros stopped w6 [Hg Hi].
  pose proof (group_frame_trans _ _ _ (frame_group _ _ Hf) Hg) as Hg'. pose proof (in_order_group _ _ Hw Hg') as Hw6.
  destruct Hg' as (_ & G2 & G3), Hf as (_ & _ & F3). destruct stopped.
  - split; [done|]. split; [done|]. intros []. destruct (Hi eq_refl) as (n & Hn & Hc). exists n. split; [lia|done].
  - apply awp_bind. unfold prune_groups, au_nextDeadline, awp, au_bind, au_auto, au_set_auto, au_ret. cbn zeta.
    cbn [w_auto w_svc w_tick]. set (w7 := mkWorld _ _ _).
    assert (Hw7 : in_order_at w7) by (destruct Hw6 as [? Ha]; split; [done|]; intros id st sub Hl; by eapply Ha).
    split; [done|]. split; [done|]. intros _. apply deadline_kept; [done|].
    intros sub Hin Hact. destruct (Hall sub Hin Hact) as (st & Hl & Hs). exists st. split; [|done]. cbn. by rewrite G2.
Qed.

(** C16. A pass of the automation worker that does not panic, whatever fails, is
    cancelled or is changed by others meanwhile, leaves every schedule there is with a
    regular deadline at most the update interval ahead, and in the fail-safe mode
    with a health check or a retry at most the failure interval ahead.  If the list of
    the subscriptions could be read at its start and its context was not cancelled,
    every stored interval subscription has such a schedule, and the time the pass
    returns to be woken at is set and not later than any of these deadlines. *)
Theorem automation_keeps_deadlines w d w' :
  in_order_at w -> step w = Some (d, w') ->
  in_order_at w' /\
  (is_ok (SubscriptionsGetAll (met_by w)).1 = true -> ~ interrupted_between w w' ->
   forall sub, stored_subscription (db_tables (met_by w)) sub -> timed sub ->
     exists st, subscriptions (w_auto w') !! su_DatabaseID sub = Some st /\
       on_time (now_of w') sub st /\ d <> 0 /\ d <= now_of w' + minutes (su_UpdateIntervalMinutes sub) /\
       (failsafe sub -> d <= now_of w' + minutes (su_FailureIntervalMinutes sub))).
Proof.
  intros Hw Hrun. cut (awp step w (fun d w' => in_order_at w' /\ (w_tick w <= w_tick w')%nat /\
    (~ interrupted_between w w' -> keeps_deadlines (seen_by w) d w'))).
  { unfold awp. rewrite Hrun. intros (H1 & _ & H2). split; [done|]. intros Hread Hni sub Hsub Ht. apply H2; [done| |done].
    apply stored_seen; [by apply others_ok, Hw|done|done]. }
  clear d w' Hrun. unfold step. apply awp_bind. unfold awp at 1, au_lock. set (w1 := mkWorld _ _ _).
  assert (Hw1 : in_order_at w1).
  { apply (in_order_later w); [done|]. split; [by apply others_ok, Hw|]. split; [done|cbn; lia]. }
  apply awp_bind. eapply awp_mono; [apply awp_read_subscriptions, Hw1|]. intros subs w2 (Hf2 & Hsubs & Hnd).
  change (subs = seen_by w) in Hsubs. rewrite <-Hsubs. clear Hsubs.
  apply awp_bind. eapply awp_steady; [apply _|apply Hf2|]. intros setting w3 Hf3. cbn zeta.
  pose proof (in_order_later _ _ (in_order_later _ _ Hw1 Hf2) Hf3) as Hw3.
  assert (T3 : (w_tick w <= w_tick w3)%nat) by (destruct Hf2 as (_ & _ & ?), Hf3 as (_ & _ & ?); cbn in *; lia).
  apply awp_bind. eapply awp_mono; [by apply awp_process_all|]. intros stopped w4 (P1 & P2 & P3 & P4 & P5).
  destruct stopped.
  - unfold au_nextDeadline, awp, au_bind, au_auto, au_ret. split; [done|]. split; [lia|].
    intros []. by eapply interrupted_wider; [| |done]; lia.
  - apply awp_bind. eapply awp_mono; [by apply prune_in_order|]. intros _ w5 (Q1 & Q2 & Q3).
    pose proof (all_scheduled_kept _ _ _ Q3 P5) as Hall.
    eapply awp_mono; [by apply awp_group_phase|]. intros d w' (R1 & R2 & R3). split; [done|]. split; [lia|].
    intros Hni. apply R3. intros Hi. apply Hni. by eapply interrupted_wider; [| |done]; lia.
Qed.

End Pass.

(** ** Examples *)

Section Example.
Import JsonRef CatalogRef AutomationRef.

(** The subscription as it is read back. *)
Definition watched_read : SubscriptionRaw :=
  mkSubscriptionRaw 1 SubscriptionUpdateIntervalFailsafe 60 5 true "" "https://sub.example" "" (su_Servers watched) "" false.

Definition watched_row : sub_row * list doc :=
  hd (mkSubRow 0 "" "" "" "" 0 "" 0 0 false 0, []) (v_subs (view_of (db_tables watched_state))).

(** A first pass: the next look is at the health of the subscription. *)
Lemma automation_keeps_deadlines_witness :
  let X := outside_ref 1000 in
  match step watched_world with
  | None => False
  | Some (d, w') => in_order_at w' /\ d = 2 ^ 64 + 13 * Second + 5 * Minute /\
      exists sub st, stored_subscription (db_tables (met_by watched_world)) sub /\ timed sub /\
        subscriptions (w_auto w') !! su_DatabaseID sub = Some st /\ on_time (now_of w') sub st
  end.
Proof.
  intros X. assert (Hw : in_order_at watched_world).
  { split; [apply watched_ok|]. by intros id st sub Hl. }
  destruct (step watched_world) as [[d w']|] eqn:He.
  - pose proof (automation_keeps_deadlines watched_world d w' Hw He) as [H1 H2].
    assert (Hc : match step watched_world with Some (d, w) => Some (d, w_tick w) | None => None end =
      Some (2 ^ 64 + 13 * Second + 5 * Minute, 17%nat)) by (vm_compute; reflexivity).
    rewrite He in Hc. injection Hc as Hd Ht. split; [exact H1|]. split; [exact Hd|].
    assert (Hsub : exists sub, stored_subscription (db_tables (met_by watched_world)) sub /\ timed sub).
    { exists watched_read. split; [|split; [vm_compute; reflexivity|vm_compute; discriminate]].
      assert (Hp : v_subs (view_of (db_tables (met_by watched_world))) = [watched_row]) by (vm_compute; reflexivity).
      assert (Hr : (let? d := json_of watched_row in Bytes2SubscriptionRaw d) = Ok watched_read) by (vm_compute; reflexivity).
      exists watched_row. rewrite Hp. split; [left|]. unfold read_from. destruct (json_of watched_row) as [x|]; [|discriminate Hr].
      exists x. split; [reflexivity|exact Hr]. }
    destruct Hsub as (sub & Hst & Htm).
    assert (Hread : is_ok (SubscriptionsGetAll (met_by watched_world)).1 = true) by (vm_compute; reflexivity).
    assert (Hni : ~ interrupted_between watched_world w').
    { intros (n & [_ Hn] & Hc). rewrite Ht in Hn. unfold X, outside_ref in Hc. cbn [cancelled] in Hc.
      destruct (Nat.leb_spec 1000 n) as [Hle|_]; [lia|discriminate Hc]. }
    destruct (H2 Hread Hni sub Hst Htm) as (st & Hl & Ho & _). exists sub, st. split; [exact Hst|]. split; [exact Htm|]. split; [exact Hl|exact Ho].
  - apply (f_equal is_some) in He. vm_compute in He. discriminate.
Defined.

(** If the list cannot be read, it counts as empty: the schedule is dropped and the
    worker sets no timer. *)
Lemma failed_read_drops_schedules :
  let X := outside_ref 1000 in
  match step watched_world with
  | None => False
  | Some (_, w1) =>
    let '(s, k) := w_svc w1 in
    match step (mkWorld (mkDatabase (db_tables s) [Some (ExtErr "database is locked")], k) (w_auto w1) (w_tick w1)) with
    | None => False
    | Some (d, w2) => subscriptions (w_auto w1) <> ∅ /\ subscriptions (w_auto w2) = ∅ /\ d = 0
    end
  end.
Proof. vm_compute. split; [discriminate|]. by split. Qed.

(** A pass that is cancelled while it checks a group returns the zero time, so
    the worker sets no timer, although deadlines are set. *)
Lemma cancelled_group_check_sets_no_timer :
  let X := outside_ref 19 in
  match step keeping_world with
  | None => False
  | Some (d, w') => d = 0 /\ nextDeadline (w_auto w') <> 0
  end.
Proof. vm_compute. split; [reflexivity|discriminate]. Qed.

End Example.
