(* ===== verification/GroupProps.v ===== *)
(** * Groups that manage themselves (service/server/service/automation.go)

    The worker makes the list of an automatic group the candidates that answered,
    keeps the current node of a group that asks for it while it answers, and
    undoes both when the core refuses them. *)

From S2P Require Import Prelude.
From S2P Require Import Store StoreLists StoreProps NodeRefs Configure.
From S2P Require Import Catalog DeleteProps ConfigureProps CatalogProps UpdateProps ConnectProps.
From S2P Require Import Automation StoreFrame AutomationProps JsonRef CatalogRef AutomationRef.

#[local] Open Scope Z_scope.
#[local] Open Scope go_scope.

(** ** Membership *)

Lemma sameMembers_spec current desired : NoDup desired ->
  sameMembers current desired = true <-> current ≡ₚ desired.
Proof.
  intros Hd. unfold sameMembers. rewrite andb_true_iff, Nat.eqb_eq, forallb_forall. split.
  - intros [Hl Hin]. symmetry. apply submseteq_length_Permutation; [|lia].
    apply NoDup_submseteq; [done|]. intros x Hx%list_elem_of_In. by apply Hin, bool_decide_eq_true in Hx.
  - intros Hp. split; [by rewrite Hp|]. intros x Hx%list_elem_of_In. apply bool_decide_eq_true. by rewrite Hp.
Qed.

(** ** The setting and the list of a group *)

Definition setting_key (g : string) : string := makeKey (outbound_bucket g) "setting".

Lemma keys_differ g h : setting_key g <> group_key h.
Proof.
  intros H. apply (f_equal (fun s => HasSuffix s "g")) in H.
  assert (H1 : HasSuffix (setting_key g) "g" = true).
  { apply HasSuffix_spec. exists (outbound_bucket g +:+ ":settin"). unfold setting_key, makeKey. by rewrite <-s_app_assoc. }
  assert (H2 : HasSuffix (group_key h) "g" = false).
  { destruct (HasSuffix (group_key h) "g") eqn:E; [|done]. apply HasSuffix_spec in E as [p Hp].
    assert (Hs : group_key h = (outbound_bucket h +:+ ":connectedServer") +:+ "s")
      by (unfold group_key, makeKey, connected_key; by rewrite <-s_app_assoc).
    rewrite Hs in Hp. clear -Hp. exfalso. revert p Hp. generalize (outbound_bucket h +:+ ":connectedServer") as q.
    intros q. induction q as [|a q IH]; intros [|b p] Hp.
    - done.
    - rewrite s_app_cons in Hp. by destruct p.
    - rewrite s_app_cons in Hp. by destruct q.
    - rewrite !s_app_cons in Hp. injection Hp as _ Hp. by apply IH in Hp. }
  rewrite H1, H2 in H. done.
Qed.

Lemma setting_not_kernel g : ~ kernel_key (setting_key g).
Proof. unfold kernel_key, setting_key, makeKey, outbound_bucket. by rewrite !s_app_cons. Qed.

Section Groups.
Context `{J : Json} `{O : ServerObjs} `{E : !Encodings} `{JL : !JsonLaws J} `{EL : !EncodingLaws E}.
Context `{K : !Kernel} `{KL : !KernelLaws K}.

(** [t'] is [t] with the list [l] and the setting [st] in group [g]. *)
Definition group_state (g : string) (l : list NodeRef) (st : OutboundSetting) (t t' : tables) : Prop :=
  refs_of t' g = l /\ setting_of t' g = st /\
  t_servers t' = t_servers t /\ t_subscriptions t' = t_subscriptions t /\
  t_subscriptions_seq t' = t_subscriptions_seq t /\ t_outbound_names t' = t_outbound_names t /\
  forall k, k <> group_key g -> k <> setting_key g -> ~ kernel_key k -> t_system_config t' !! k = t_system_config t !! k.

Lemma group_state_refl g t : group_state g (refs_of t g) (setting_of t g) t t.
Proof. by repeat split. Qed.

Lemma group_state_trans g l l' st st' t t1 t' :
  group_state g l st t t1 -> group_state g l' st' t1 t' -> group_state g l' st' t t'.
Proof.
  intros (_ & _ & H1 & H2 & H3 & H4 & H5) (G0 & G0' & G1 & G2 & G3 & G4 & G5). unfold group_state.
  rewrite G1, G2, G3, G4. do 6 (split; [done|]). intros k Hk Hk' Hk''. by rewrite G5, H5.
Qed.

Lemma setting_of_ext t t' g : t_system_config t' !! setting_key g = t_system_config t !! setting_key g ->
  setting_of t' g = setting_of t g.
Proof. intros H. unfold setting_of. fold (setting_key g). by rewrite H. Qed.

Lemma group_state_refs g l t t' : sets_group g l t t' -> group_state g l (setting_of t g) t t'.
Proof.
  intros (H0 & H1 & H2 & H3 & H4 & H5). split; [done|]. split.
  - apply setting_of_ext, H5; [apply keys_differ|apply setting_not_kernel].
  - do 4 (split; [done|]). intros k Hk _. by apply H5.
Qed.

Lemma group_state_kernel g l st t t1 t' : group_state g l st t t1 -> same_catalogue t1 t' -> group_state g l st t t'.
Proof.
  intros H Hs. eapply group_state_trans; [exact H|]. destruct H as (<- & <- & _).
  apply group_state_refs. destruct (same_catalogue_views _ _ Hs) as (_ & _ & V3 & _).
  destruct Hs as (G1 & G2 & G3 & G4 & G5). split; [unfold refs_of; by rewrite V3|]. do 4 (split; [done|]).
  intros k _. apply G5.
Qed.

Lemma set_setting_run g st t :
  match time_ParseDuration (ProbeInterval st) with
  | Ok _ => exists t', SetOutboundSetting g st (mkDatabase t []) = (Ok tt, mkDatabase t' []) /\
      group_state g (refs_of t g) st t t'
  | Err e => SetOutboundSetting g st (mkDatabase t []) = (Err e, mkDatabase t [])
  end.
Proof.
  unfold SetOutboundSetting. destruct (time_ParseDuration (ProbeInterval st)) as [d|e]; [|done].
  destruct (setting_roundtrip st) as (x & Hm & Hu). eexists. split; [by apply db_Set_run|].
  unfold group_state, refs_of, stored, setting_of. cbn [t_system_config with_system_config t_servers t_subscriptions
    t_subscriptions_seq t_outbound_names]. fold (setting_key g).
  rewrite lookup_insert_eq, lookup_insert_ne by apply keys_differ. rewrite Hu. do 6 (split; [done|]).
  intros k _ Hk _. by rewrite lookup_insert_ne.
Qed.

Lemma write_members_run g members t : or_proxy g = g ->
  writes (writeGroupMembers g members) g (map (fun m => with_outbound m g) members) t.
Proof.
  intros Hg. unfold writeGroupMembers. destruct members as [|m members].
  - rewrite <-Hg at 2. apply writes_clear.
  - apply writes_overwrite; [done|]. apply Forall_forall. by intros r (x & -> & _)%list_elem_of_fmap.
Qed.

Definition back (previous : option NodeRefs) (g : string) : DB unit :=
  if NodeRefs_Len previous =? 0 then ClearConnects g else OverwriteConnects previous.

Lemma back_run g previous t : or_proxy g = g -> Forall (fun r => Outbound r = g) (NodeRefs_Get previous) ->
  writes (back previous g) g (NodeRefs_Get previous) t.
Proof.
  intros Hg Hl. unfold back. destruct previous as [[l]|]; cbn [NodeRefs_Len NodeRefs_Get Touches] in *.
  - destruct l as [|r l].
    + change (Z.of_nat (length (@nil NodeRef)) =? 0) with true. cbn iota. rewrite <-Hg at 2. apply writes_clear.
    + cbn [length]. rewrite (proj2 (Z.eqb_neq _ 0)) by lia. by apply writes_overwrite.
  - change (0 =? 0) with true. cbn iota. rewrite <-Hg at 2. apply writes_clear.
Qed.

(** An operation of the service that only writes the group. *)
Definition sv_writes (c : SV unit) (g : string) (l : list NodeRef) (st : OutboundSetting) (t : tables) : Prop :=
  forall k, exists t', c (mkDatabase t [], k) = (Ok tt, (mkDatabase t' [], k)) /\ group_state g l st t t'.

Lemma sv_writes_refs (c : DB unit) g l t : writes c g l t -> sv_writes (sv_db c) g l (setting_of t g) t.
Proof.
  intros (t' & Hc & Hs) k. exists t'. unfold sv_db. cbn [fst snd]. rewrite Hc. split; [done|]. by apply group_state_refs.
Qed.

Lemma sv_writes_bind c d g l st l' st' t : sv_writes c g l st t ->
  (forall t1, group_state g l st t t1 -> sv_writes d g l' st' t1) -> sv_writes (sv_bind c (fun _ => d)) g l' st' t.
Proof.
  intros Hc Hd k. destruct (Hc k) as (t1 & H1 & G1). destruct (Hd t1 G1 k) as (t2 & H2 & G2). exists t2.
  unfold sv_bind. rewrite H1. split; [done|]. by eapply group_state_trans.
Qed.

Lemma sv_writes_nothing g t : sv_writes (sv_ret tt) g (refs_of t g) (setting_of t g) t.
Proof. intros k. exists t. split; [done|]. apply group_state_refl. Qed.

Lemma sv_writes_setting g st t d : time_ParseDuration (ProbeInterval st) = Ok d ->
  sv_writes (sv_db (SetOutboundSetting g st)) g (refs_of t g) st t.
Proof.
  intros Hd k. pose proof (set_setting_run g st t) as H. rewrite Hd in H. destruct H as (t' & Hc & Hg). exists t'.
  unfold sv_db. cbn [fst snd]. by rewrite Hc.
Qed.

(** What the stored change becomes: it stays, or it is taken back, which takes a
    running core or an interval that is none. *)
Definition group_outcome (g : string) (l : list NodeRef) (st : OutboundSetting) (t : tables) (k : kernel) (res : result unit)
    (t' : tables) : Prop :=
  match res with
  | Ok _ => group_state g l st t t'
  | Err _ => group_state g (refs_of t g) (setting_of t g) t t' /\
      (k_running k = true \/ is_ok (time_ParseDuration (ProbeInterval st)) = false)
  end.

Lemma apply_core_run g l st restore store t k : sv_writes store g l st t ->
  (forall t1, group_state g l st t t1 -> sv_writes restore g (refs_of t g) (setting_of t g) t1) ->
  let '(res, s') := applyCoreConfig restore store sv_update_group (mkDatabase t [], k) in
  group_outcome g l st t k res (db_tables s'.1).
Proof.
  intros Hst Hre. destruct (Hst k) as (t1 & Hc1 & G1).
  unfold applyCoreConfig, sv_bind, sv_running, sv_try, sv_ret, sv_fail, sv_update_group. rewrite Hc1. cbn [fst snd].
  destruct (k_running k) eqn:Hrun; cbn [negb]; [|done].
  destruct (k_update_group (mkDatabase t1 [], k)) as [r2 [[t2 fs2] k2]] eqn:Hk2.
  pose proof (update_group_keeps _ _ _ Hk2) as Hs2. pose proof (update_group_faults _ _ _ Hk2) as Hf2.
  cbn [fst snd db_tables db_faults] in *. apply suffix_nil_inv in Hf2 as ->.
  pose proof (group_state_kernel _ _ _ _ _ _ G1 Hs2) as G2.
  destruct r2 as [u2|err]; cbn [fst snd db_tables]; [done|].
  destruct (Hre t2 G2 k2) as (t3 & Hc3 & G3). rewrite Hc3. cbn [fst snd].
  destruct (k_update_group (mkDatabase t3 [], k2)) as [r4 [[t4 fs4] k4]] eqn:Hk4.
  pose proof (update_group_keeps _ _ _ Hk4) as Hs4. cbn [fst snd db_tables] in *.
  pose proof (group_state_kernel _ _ _ _ _ _ (group_state_trans _ _ _ _ _ _ _ _ G2 G3) Hs4) as G4.
  destruct r4; (split; [exact G4|by left]).
Qed.

Lemma apply_managed_run g next members (replace : bool) t k : or_proxy g = g ->
  Forall (fun r => Outbound r = g) (refs_of t g) -> ProbeInterval next = ProbeInterval (setting_of t g) ->
  let '(res, s') := applyManagedGroupState g next members replace (mkDatabase t [], k) in
  group_outcome g (if replace then map (fun m => with_outbound m g) members else refs_of t g) next t k res (db_tables s'.1).
Proof.
  intros Hg Hl Hp. unfold applyManagedGroupState. unfold sv_bind at 1. unfold sv_db at 1. cbn [fst snd].
  rewrite run_setting. cbn [fst snd]. unfold sv_bind at 1. unfold sv_db at 1. cbn [fst snd].
  rewrite (run_connected_by t g Hg). cbn [fst snd]. cbn zeta. fold (back (stored t g) g).
  set (l := if replace then map _ members else refs_of t g).
  assert (Hmem : sv_writes (if replace then sv_db (writeGroupMembers g members) else sv_ret tt) g l (setting_of t g) t).
  { destruct replace; [by apply sv_writes_refs, write_members_run|apply sv_writes_nothing]. }
  assert (Hback : forall t1 st, group_state g l st t t1 ->
    sv_writes (if replace then sv_db (back (stored t g) g) else sv_ret tt) g (refs_of t g) st t1).
  { intros t1 st G1. pose proof G1 as (R1 & <- & _). destruct replace.
    - by apply sv_writes_refs, back_run.
    - subst l. rewrite <-R1. apply sv_writes_nothing. }
  destruct (time_ParseDuration (ProbeInterval next)) as [d|e] eqn:Hd.
  - apply apply_core_run.
    + apply (sv_writes_bind _ _ g l (setting_of t g)); [exact Hmem|]. intros t1 (R1 & _). intros k1.
      destruct (sv_writes_setting g next t1 d Hd k1) as (t2 & Hc2 & G2). exists t2. rewrite <-R1.
      unfold sv_bind, sv_try. rewrite Hc2. by split.
    + intros t1 G1. apply (sv_writes_bind _ _ g (refs_of t g) next); [by apply Hback|]. intros t2 (R2 & _).
      rewrite <-R2. apply (sv_writes_setting g (setting_of t g) t2 d). congruence.
  - destruct (Hmem k) as (t1 & Hc1 & G1).
    unfold applyCoreConfig. unfold sv_bind at 1 2. rewrite Hc1. unfold sv_bind at 1, sv_try at 1, sv_db at 1. cbn [fst snd].
    pose proof (set_setting_run g next t1) as Hs. rewrite Hd in Hs. rewrite Hs. cbn [fst snd].
    destruct (Hback t1 (setting_of t g) G1 k) as (t2 & Hc2 & G2). unfold sv_bind, sv_try, sv_ret, sv_fail in *.
    destruct replace.
    + rewrite Hc2. cbn. rewrite Hd. split; [by eapply group_state_trans|by right].
    + injection Hc2 as <-. cbn. rewrite Hd. split; [by eapply group_state_trans|by right].
Qed.

(** ** Candidates *)

#[local] Hint Resolve only_reads_ret only_reads_lift only_reads_fail only_reads_query only_reads_try only_reads_bind
  only_reads_docs only_reads_locate : reads_db.

Lemma only_reads_by g : only_reads (GetConnectedServersByOutbound g).
Proof. intros t. eexists. apply reads_run, reads_connected_by. Qed.

Lemma only_reads_candidates refs : only_reads (locate_candidates refs).
Proof. induction refs as [|r refs IH]; cbn [locate_candidates]; auto with reads_db. Qed.

Lemma only_reads_connected_candidates g : only_reads (connectedGroupCandidates g).
Proof. apply only_reads_bind; [apply only_reads_by|]. intros refs. apply only_reads_candidates. Qed.

Lemma only_reads_catalog : only_reads automaticGroupCandidates.
Proof.
  unfold automaticGroupCandidates, GetServers, GetSubscriptions, ServersGetAll, SubscriptionsGetAll.
  apply only_reads_bind; [auto with reads_db|]. intros servers. apply only_reads_bind; auto 10 with reads_db.
Qed.

End Groups.

(** ** The property *)

Section Settle.
Context `{J : Json} `{O : ServerObjs} `{E : !Encodings} `{JL : !JsonLaws J} `{EL : !EncodingLaws E}.
Context `{K : !Kernel} `{KL : !KernelLaws K} `{L : !Links} `{X : !Outside}.

(** Candidates with distinct references to nodes. *)
Definition good_candidates (name : string) (candidates : list groupCandidate) : Prop :=
  let refs := map (fun c => with_outbound (gc_ref c) name) candidates in
  NoDup refs /\ Forall (good_member name) refs.

Lemma group_members_sublist name candidates results :
  group_members name candidates results `sublist_of` map (fun c => with_outbound (gc_ref c) name) candidates.
Proof.
  unfold group_members, healthy_candidates. apply (fmap_sublist (fun c => with_outbound (gc_ref c) name)).
  revert results. induction candidates as [|c candidates IH]; intros [|r results]; cbn [zip zip_with].
  - done.
  - done.
  - apply sublist_nil_l.
  - rewrite filter_cons. destruct (decide _); cbn [map fst].
    + by constructor.
    + by constructor.
Qed.

Lemma normalized_members name i seen l : NoDup l -> Forall (good_member name) l -> (forall r, r ∈ l -> r ∉ seen) ->
  normalized_touches name i seen l = Ok l.
Proof.
  revert i seen. induction l as [|r l IH]; intros i seen Hnd Hg Hs; [done|]. cbn [normalized_touches].
  apply NoDup_cons in Hnd as [Hr Hnd]. apply Forall_cons in Hg as [(Ho & Hid & Ht) Hg].
  assert (Hw : with_outbound r name = r) by (rewrite <-Ho; by destruct r). rewrite Hw.
  rewrite (proj2 (Z.leb_gt _ _)) by lia.
  assert (Hn : (if String.eqb (TYPE r) ServerType then Ok (with_sub r 0)
       else if String.eqb (TYPE r) SubscriptionServerType then
         if Sub r <? 0 then Err (Errorf "invalid subscription index at index %d: %d" [FInt i; FInt (Sub r)]) else Ok r
       else Err (Errorf "invalid touch type at index %d: %q" [FInt i; FStr (TYPE r)])) = Ok r).
  { destruct Ht as [[Ht Hsub]|[Ht Hsub]]; rewrite Ht.
    - rewrite String.eqb_refl. f_equal. rewrite <-Hsub. by destruct r.
    - change (String.eqb SubscriptionServerType ServerType) with false. cbn iota. rewrite String.eqb_refl.
      by rewrite (proj2 (Z.ltb_ge _ _)) by lia. }
  rewrite Hn, decide_False by (apply Hs; left). rewrite IH; [done|done|done|].
  intros x Hx [->|Hin]%elem_of_cons; [done|]. apply (Hs x); [by right|done].
Qed.

(** *** What a check is to do *)

(** The probe of the [i]th candidate had no error. *)
Definition answered (candidates : list groupCandidate) (results : list subscriptionProbeResult) (i : nat) (c : groupCandidate) : Prop :=
  candidates !! i = Some c /\ exists r, results !! i = Some r /\ pr_err r = None.

(** The [i]th candidate answered and has a node with the fingerprint [f]. *)
Definition alive (candidates : list groupCandidate) (results : list subscriptionProbeResult) (i : nat) (f : string) : Prop :=
  exists c node, answered candidates results i c /\ gc_node c = Some node /\ f = NodeFingerprint (ExportToURL node).

(** The current node after the check: the one of before while it answers, else the
    first that answers, else none. *)
Inductive follows (before : string) (candidates : list groupCandidate) (results : list subscriptionProbeResult) : string -> Prop :=
| follows_kept i : alive candidates results i before -> follows before candidates results before
| follows_first i f : (forall j, ~ alive candidates results j before) -> alive candidates results i f ->
    (forall j f', (j < i)%nat -> ~ alive candidates results j f') -> follows before candidates results f
| follows_none : (forall j f, ~ alive candidates results j f) -> follows before candidates results "".

(** The candidates that the group has now. *)
Definition candidates_now (t : tables) (name : string) : list groupCandidate :=
  match ((if AutoAdd (setting_of t name) then automaticGroupCandidates else connectedGroupCandidates name) (mkDatabase t [])).1 with
  | Ok l => l
  | Err _ => []
  end.

Definition settled (name signature : string) (candidates : list groupCandidate) (results : list subscriptionProbeResult)
    (cancel : option error) (t : tables) (k : kernel) (err : option error) (t' : tables) : Prop :=
  let st := setting_of t name in
  match err with
  | None => cancel = None /\ automaticGroupSignature st (candidates_now t name) = signature /\
      exists l current, group_state name l (with_sticky st current) t t' /\
      (if AutoAdd st then NoDup l /\ forall r, r ∈ l <-> exists i c, answered candidates results i c /\ r = with_outbound (gc_ref c) name
       else l = refs_of t name) /\
      (if String.eqb (os_Type st) KeepCurrent && String.eqb (os_Selected st) "" then follows (StickyCurrent st) candidates results current
       else current = StickyCurrent st)
  | Some _ => group_state name (refs_of t name) st t t' /\
      (cancel <> None \/ automaticGroupSignature st (candidates_now t name) <> signature \/ k_running k = true \/
       is_ok (time_ParseDuration (ProbeInterval st)) = false)
  end.

Lemma healthy_elem c candidates results : c ∈ healthy_candidates candidates results <-> exists i, answered candidates results i c.
Proof.
  unfold healthy_candidates, answered. rewrite list_elem_of_fmap. split.
  - intros ([c' r] & -> & [Hh [i Hi]%list_elem_of_lookup_1]%list_elem_of_filter). apply lookup_zip_Some in Hi as [H1 H2]. exists i. split; [done|].
    exists r. split; [done|]. cbn [snd] in Hh. unfold healthy in Hh. by destruct (pr_err r).
  - intros (i & H1 & r & H2 & Hr). exists (c, r). split; [done|]. apply list_elem_of_filter. split; [cbn; unfold healthy; by rewrite Hr|].
    apply list_elem_of_lookup. exists i. by apply lookup_zip_Some.
Qed.

Lemma group_members_elem name candidates results r :
  r ∈ group_members name candidates results <-> exists i c, answered candidates results i c /\ r = with_outbound (gc_ref c) name.
Proof.
  unfold group_members. rewrite list_elem_of_fmap. split.
  - intros (c & -> & [i Hi]%healthy_elem). eauto.
  - intros (i & c & Hi & ->). exists c. split; [done|]. apply healthy_elem. eauto.
Qed.

(** The fingerprint of a pair of candidate and result. *)
Definition print_of (cr : groupCandidate * subscriptionProbeResult) : option string :=
  if healthy (snd cr) then (fun node => NodeFingerprint (ExportToURL node)) <$> gc_node (fst cr) else None.

Lemma fingerprints_zip candidates results : fingerprints candidates results = omap print_of (zip candidates results).
Proof.
  unfold fingerprints, healthy_candidates. generalize (zip candidates results) as l. intros l.
  induction l as [|[c r] l IH]; [done|]. rewrite filter_cons. unfold print_of at 1. cbn [omap list_omap fst snd].
  destruct (healthy r); [|by rewrite decide_False by done]. rewrite decide_True by done. cbn [map omap list_omap fst].
  rewrite IH. by destruct (gc_node c).
Qed.

Lemma alive_print candidates results i f : alive candidates results i f <-> exists cr, zip candidates results !! i = Some cr /\ print_of cr = Some f.
Proof.
  unfold alive, answered, print_of. split.
  - intros (c & node & (H1 & r & H2 & Hr) & Hn & ->). exists (c, r). split; [by apply lookup_zip_Some|]. cbn. unfold healthy. by rewrite Hr, Hn.
  - intros ([c r] & [H1 H2]%lookup_zip_Some & Hp). cbn in Hp. unfold healthy in Hp. destruct (pr_err r) eqn:Hr; [done|]. cbn in Hp.
    apply fmap_Some in Hp as (node & Hn & ->). exists c, node. eauto 10.
Qed.

(** The first value of a filtered list. *)
Lemma head_omap {A B} (f : A -> option B) l :
  match head (omap f l) with
  | Some y => exists i x, l !! i = Some x /\ f x = Some y /\ forall j z, (j < i)%nat -> l !! j = Some z -> f z = None
  | None => forall x, x ∈ l -> f x = None
  end.
Proof.
  induction l as [|x l IH]; [by intros x ?%elem_of_nil|]. cbn [omap list_omap]. destruct (f x) as [y|] eqn:Ef; cbn [head].
  - exists 0%nat, x. split; [done|]. split; [done|]. lia.
  - destruct (head _) as [y|].
    + destruct IH as (i & x' & H1 & H2 & H3). exists (S i), x'. split; [done|]. split; [done|]. intros [|j] z Hj Hz.
      * injection Hz as <-. done.
      * apply (H3 j z); [lia|done].
    + intros z [->|Hz]%elem_of_cons; auto.
Qed.

Lemma next_current_follows st candidates results : follows (StickyCurrent st) candidates results (next_current st candidates results).
Proof.
  unfold next_current. cbn zeta. rewrite fingerprints_zip. set (l := zip candidates results).
  assert (Hin : forall f, f ∈ omap print_of l <-> exists i, alive candidates results i f).
  { intros f. rewrite list_elem_of_omap. split.
    - intros (cr & [i Hi]%list_elem_of_lookup_1 & Hp). exists i. apply alive_print. eauto.
    - intros (i & (cr & Hi & Hp)%alive_print). exists cr. split; [by eapply list_elem_of_lookup_2|done]. }
  destruct (decide _) as [[i Hi]%Hin|Hno]; [by eapply follows_kept|].
  pose proof (head_omap print_of l) as Hh. destruct (head (omap print_of l)) as [f|]; cbn [default].
  - destruct Hh as (i & cr & H1 & H2 & H3). apply (follows_first _ _ _ i).
    + intros j Hj. apply Hno, Hin. eauto.
    + apply alive_print. eauto.
    + intros j f' Hj (cr' & H4 & H5)%alive_print. rewrite (H3 j cr' Hj H4) in H5. done.
  - apply follows_none. intros j f (cr & H1 & H2)%alive_print. rewrite (Hh cr) in H2; [done|]. by eapply list_elem_of_lookup_2.
Qed.

(** *** What is done under the lock *)

Definition settled_setting (st : OutboundSetting) (candidates : list groupCandidate)
    (results : list subscriptionProbeResult) : OutboundSetting :=
  if String.eqb (os_Type st) KeepCurrent && String.eqb (os_Selected st) ""
  then with_sticky st (next_current st candidates results) else st.

Definition applied (name : string) (candidates : list groupCandidate) (results : list subscriptionProbeResult)
    (t : tables) (k : kernel) (err : option error) (t' : tables) : Prop :=
  let st := setting_of t name in
  match err with
  | None => exists l, group_state name l (settled_setting st candidates results) t t' /\
      if AutoAdd st then l ≡ₚ group_members name candidates results else l = refs_of t name
  | Some _ => group_state name (refs_of t name) st t t' /\
      (k_running k = true \/ is_ok (time_ParseDuration (ProbeInterval st)) = false)
  end.

Lemma with_outbound_members name candidates results :
  map (fun m => with_outbound m name) (group_members name candidates results) = group_members name candidates results.
Proof. unfold group_members. by rewrite map_map. Qed.

Lemma sticky_same st c : String.eqb c (StickyCurrent st) = true -> with_sticky st c = st.
Proof. intros ->%String.eqb_eq. by destruct st. Qed.

Lemma apply_group_settles name candidates results w t : w_svc w = (mkDatabase t [], (w_svc w).2) -> or_proxy name = name ->
  Forall (fun r => Outbound r = name) (refs_of t name) -> good_candidates name candidates ->
  awp (apply_group name (setting_of t name) candidates results) w (fun err w' =>
    applied name candidates results t (w_svc w).2 err (db_tables (w_svc w').1)).
Proof.
  intros Hw Hn Hl [Hnd Hgood]. set (members := group_members name candidates results).
  pose proof (group_members_sublist name candidates results) as Hsub.
  assert (Hnd' : NoDup members) by (by eapply sublist_NoDup).
  assert (Hgood' : Forall (good_member name) members).
  { apply Forall_forall. intros r Hr. rewrite Forall_forall in Hgood. apply Hgood. by eapply elem_of_sublist. }
  set (st := setting_of t name). set (k := (w_svc w).2) in *. unfold apply_group. fold members. cbn zeta.
  assert (Hnext : (if String.eqb (os_Type st) KeepCurrent && String.eqb (os_Selected st) "" then
    with_sticky st (next_current st candidates results) else st) = settled_setting st candidates results) by done.
  rewrite Hnext. set (next := settled_setting st candidates results) in *.
  assert (Hint : ProbeInterval next = ProbeInterval st) by (subst next; unfold settled_setting; by destruct (_ && _)).
  apply awp_bind.
  apply (awp_mono _ _ (fun changed w' => w' = w /\ (changed = false -> AutoAdd st = true -> refs_of t name ≡ₚ members) /\
    (changed = true -> AutoAdd st = true))).
  { destruct (AutoAdd st) eqn:Ha; [|done]. unfold awp, au_read, au_bind, au_sv, sv_db, au_ret. rewrite Hw. cbn [fst snd].
    rewrite (run_connected_by t name Hn). cbn [fst snd]. split; [destruct w; cbn in *; congruence|]. split; [|done].
    intros Hc%negb_false_iff. by apply sameMembers_spec in Hc. }
  intros changed w' (-> & Hch1 & Hch2). set (sticky := _ && negb _).
  assert (Hsame : sticky = false -> next = st).
  { subst sticky next. unfold settled_setting. destruct (_ && String.eqb (os_Selected st) "") eqn:Hs; [|done].
    cbn. intros H%negb_false_iff. by apply sticky_same. }
  apply awp_bind. destruct (sticky || _) eqn:Hb1; [|destruct changed eqn:Hb2].
  - unfold awp, au_sv, au_ret. rewrite Hw. pose proof (apply_managed_run name next members (AutoAdd st) t k Hn Hl Hint) as H.
    destruct (applyManagedGroupState name next members (AutoAdd st) (mkDatabase t [], k)) as [r s'].
    cbn [w_svc]. destruct r as [u|e]; [|cbn; cbn in H; fold st; rewrite Hint in H; exact H]. eexists. split; [exact H|]. cbn. fold st. fold members.
    destruct (AutoAdd st); [|done]. subst members. by rewrite with_outbound_members.
  - apply orb_false_iff in Hb1 as [Hb1 _]. unfold awp, au_sv, au_ret. rewrite Hw.
    pose proof (replace_run name members true (mkDatabase t [], k)) as H. cbn zeta in H. rewrite Hn in H.
    specialize (H eq_refl Hl). unfold replaceManagedOutboundConnections.
    destruct (replaceOutboundConnections name members true (mkDatabase t [], k)) as [r s'].
    cbn [w_svc fst db_tables] in *. destruct r as [u|e].
    2: { destruct H as [H Hk]. cbn. fold st. split; [by apply group_state_refs|]. left. apply Hk; [by apply Hch2|].
         by rewrite normalized_members by (done || by intros r _ ?%elem_of_nil). }
    destruct H as (Ha & l & Hnorm & _ & _ & Hset). rewrite normalized_members in Hnorm; [|done|done|by intros r _ ?%elem_of_nil].
    injection Hnorm as <-. exists members. split; [|cbn; fold st; fold members; subst st; by rewrite Ha].
    fold st. fold next. rewrite (Hsame Hb1). by apply group_state_refs.
  - apply orb_false_iff in Hb1 as [Hb1 _]. unfold awp, au_ret. rewrite Hw. cbn [fst db_tables]. exists (refs_of t name).
    split; [fold st; fold next; rewrite (Hsame Hb1); apply group_state_refl|]. fold st. fold members.
    destruct (AutoAdd st); [by apply Hch1|done].
Qed.

Lemma awp_only_reads {A} (x : A) (c : DB A) w t (Q : A -> world -> Prop) : only_reads c ->
  w_svc w = (mkDatabase t [], (w_svc w).2) -> Q (match (c (mkDatabase t [])).1 with Ok a => a | Err _ => x end) w -> awp (au_read x c) w Q.
Proof.
  intros Hc Hw HQ. destruct (Hc t) as [r Hr]. unfold awp, au_read, au_bind, au_sv, sv_db, au_ret.
  replace ((w_svc w).1) with (mkDatabase t []) by (by rewrite Hw). rewrite Hr in *.
  destruct w as [s a n]. cbn in *. rewrite <-Hw. exact HQ.
Qed.

Lemma applied_settled name signature candidates results t k err t' : good_candidates name candidates ->
  automaticGroupSignature (setting_of t name) (candidates_now t name) = signature ->
  applied name candidates results t k err t' -> settled name signature candidates results None t k err t'.
Proof.
  intros [Hnd _] Hsig. unfold applied, settled. destruct err as [e|]; [intros [H1 H2]; split; [done|]; tauto|]. intros (l & Hs & Hl). set (st := setting_of t name) in *.
  split; [done|]. split; [done|].
  exists l, (if String.eqb (os_Type st) KeepCurrent && String.eqb (os_Selected st) "" then next_current st candidates results else StickyCurrent st).
  split; [|split].
  - revert Hs. unfold settled_setting. destruct (_ && _); [done|]. by destruct st.
  - destruct (AutoAdd st); [|done]. rewrite Hl. split; [by eapply sublist_NoDup; [|apply group_members_sublist]|].
    intros r. rewrite Hl. apply group_members_elem.
  - destruct (_ && _); [apply next_current_follows|done].
Qed.


End Settle.

(** ** Examples *)

Section Example.
Import JsonRef CatalogRef AutomationRef.

(** An automatic group that keeps its node, which is down, over three servers. *)
Definition automatic_setting : OutboundSetting := mkOutboundSetting true "https://probe.example" "60s" KeepCurrent "" "ss://a".
Definition three_servers : database :=
  run_ops [OpServersAppend (JArr (map server_json (map (fun url => mkServerRaw (mkNode url "ss" "" 0 "") "") ["ss://a"; "ss://b"; "ss://c"]%string)))]
    (mkDatabase empty_tables []).
Definition automatic_world : world :=
  mkWorld (mkDatabase (with_system_config (db_tables three_servers)
    {[ "outbound.proxy:setting"%string := setting_json automatic_setting ]}) [], true) newAutomation 0.
Definition three_candidates : list groupCandidate := candidates_now (db_tables (w_svc automatic_world).1) "proxy".

Definition probe_of (ok : bool) : subscriptionProbeResult :=
  mkProbeResult 1 (if ok then None else Some (ExtErr "timeout")).


End Example.
