(* ===== verification/ProbeProps.v ===== *)
(** * The probe cache of a pass (service/server/service/automation.go)

    Groups share the results of a pass: every link is probed once per probe URL,
    and the shared results are those of probing every candidate anew. *)

From S2P Require Import Prelude.
From S2P Require Import Store NodeRefs Configure Catalog Automation StoreFrame AutomationProps.
From S2P Require Import JsonRef CatalogRef AutomationRef.

#[local] Open Scope Z_scope.
#[local] Open Scope go_scope.

Definition newline : Ascii.ascii := Ascii.ascii_of_nat 10.

(** A text without line breaks is told from what follows the first line break. *)
Lemma line_split p q s t : has_byte newline p = false -> has_byte newline q = false ->
  p +:+ String newline s = q +:+ String newline t -> p = q /\ s = t.
Proof.
  revert q. induction p as [|a p IH]; intros [|b q] Hp Hq H; cbn [has_byte] in *.
  - by injection H as ->.
  - rewrite s_app_cons in H. injection H as <- _. by rewrite Ascii.eqb_refl in Hq.
  - rewrite s_app_cons in H. injection H as -> _. by rewrite Ascii.eqb_refl in Hp.
  - rewrite !s_app_cons in H. injection H as -> H. apply orb_false_iff in Hp as [_ Hp], Hq as [_ Hq].
    by destruct (IH q Hp Hq H) as [-> ->].
Qed.

Section Cache.
Context `{J : Json} `{O : ServerObjs} `{E : !Encodings} `{K : !Kernel} `{L : !Links} `{X : !Outside}.

(** What a node is replaced by for a probe. *)
Definition clone (node : ServerObj) : option ServerObj :=
  if is_plugin node then None
  else match ResolveURL (ExportToURL node) with Ok c => Some c | Err _ => None end.

Lemma cloneProbeNodes_map nodes : cloneProbeNodes (map Some nodes) = map clone nodes.
Proof. unfold cloneProbeNodes. by rewrite map_map. Qed.

(** A prober that answers for each node on its own, the same whenever it is
    asked, and nodes of which the link tells whether they are plug-ins. *)
Variable probe1 : string -> option ServerObj -> subscriptionProbeResult.
Hypothesis probed_each : forall n nodes url, probed n nodes url = map (probe1 url) nodes.
Hypothesis plugins_told : forall a b, ExportToURL a = ExportToURL b -> is_plugin a = is_plugin b.

Lemma clone_link a b : ExportToURL a = ExportToURL b -> clone a = clone b.
Proof. intros H. unfold clone. by rewrite (plugins_told a b H), H. Qed.

Definition key_of (url : string) (node : ServerObj) : string := url +:+ String newline (ExportToURL node).

(** Every entry is what a probe of its node gives. *)
Definition cache_ok (cache : probe_cache) : Prop :=
  forall url node r, has_byte newline url = false -> cache !! key_of url node = Some r -> r = probe1 url (clone node).

Lemma cache_ok_empty : cache_ok ∅.
Proof. by intros url node r _. Qed.

Lemma cache_ok_insert cache url node : has_byte newline url = false -> cache_ok cache ->
  cache_ok (<[key_of url node := probe1 url (clone node)]> cache).
Proof.
  intros Hu Hc url' node' r Hu' Hr. destruct (decide (key_of url node = key_of url' node')) as [He|Hne].
  - rewrite He, lookup_insert_eq in Hr. injection Hr as <-.
    destruct (line_split _ _ _ _ Hu Hu' He) as [-> Hl]. by rewrite (clone_link _ _ Hl).
  - rewrite lookup_insert_ne in Hr by done. by eapply Hc.
Qed.

(** The nodes that are not in the cache, once per link. *)
Fixpoint unknown (url : string) (cache : probe_cache) (seen : list string) (nodes : list ServerObj) : list ServerObj :=
  match nodes with
  | [] => []
  | node :: nodes =>
    if is_some (cache !! key_of url node) || bool_decide (key_of url node ∈ seen) then unknown url cache seen nodes
    else node :: unknown url cache (key_of url node :: seen) nodes
  end.

Lemma keys_imap url nodes : imap (probe_key url) (map Some nodes) = map (key_of url) nodes.
Proof. rewrite imap_fmap. exact (imap_const (key_of url) nodes). Qed.

Lemma missing_unknown url cache seen nodes :
  missing cache seen (zip (map (key_of url) nodes) (map Some nodes)) =
  map (fun node => (key_of url node, Some node)) (unknown url cache seen nodes).
Proof.
  revert seen. induction nodes as [|node nodes IH]; intros seen; [done|]. cbn [map zip zip_with missing unknown].
  destruct (_ || _); [apply IH|]. cbn [map]. by rewrite IH.
Qed.

Lemma unknown_spec url cache seen nodes :
  NoDup (map (key_of url) (unknown url cache seen nodes)) /\
  (forall node, node ∈ unknown url cache seen nodes -> node ∈ nodes /\ key_of url node ∉ seen /\ cache !! key_of url node = None) /\
  (forall node, node ∈ nodes -> key_of url node ∈ seen \/ is_Some (cache !! key_of url node) \/
     key_of url node ∈ map (key_of url) (unknown url cache seen nodes)).
Proof.
  revert seen. induction nodes as [|node nodes IH]; intros seen; cbn [unknown].
  { split; [constructor|]. split; by intros ? ?%elem_of_nil. }
  destruct (is_some (cache !! key_of url node)) eqn:Hc; cbn [orb].
  - destruct (IH seen) as (H1 & H2 & H3). split; [done|]. split.
    + intros n Hn. destruct (H2 n Hn) as [? ?]. split; [by right|done].
    + intros n [->|Hn]%elem_of_cons; [|by apply H3]. right. left. by destruct (cache !! _).
  - case_bool_decide as Hs.
    + destruct (IH seen) as (H1 & H2 & H3). split; [done|]. split.
      * intros n Hn. destruct (H2 n Hn) as [? ?]. split; [by right|done].
      * intros n [->|Hn]%elem_of_cons; [by left|by apply H3].
    + destruct (IH (key_of url node :: seen)) as (H1 & H2 & H3). cbn [map]. split; [|split].
      * constructor; [|done]. intros (n & Hk & Hn)%list_elem_of_fmap. destruct (H2 n Hn) as (_ & Hns & _).
        apply Hns. rewrite <-Hk. left.
      * intros n [->|Hn]%elem_of_cons; [split; [left|]; split; [done|by destruct (cache !! _)]|].
        destruct (H2 n Hn) as (? & Hns & ?). split; [by right|]. split; [|done]. intros ?. apply Hns. by right.
      * intros n [->|Hn]%elem_of_cons; [right; right; left|].
        destruct (H3 n Hn) as [[->|?]%elem_of_cons|[?|?]]; [right; right; left|by left|by right; left|].
        right. right. by right.
Qed.

(** The cache after the unknown nodes were probed. *)
Definition learn (url : string) (cache : probe_cache) (nodes : list ServerObj) : probe_cache :=
  foldl (fun (cache : probe_cache) node => <[key_of url node := probe1 url (clone node)]> cache) cache nodes.

Lemma learn_fold url nodes cache :
  foldl (fun (cache : probe_cache) kr => <[fst kr := snd kr]> cache) cache
    (zip (map (key_of url) nodes) (map (probe1 url) (map clone nodes))) = learn url cache nodes.
Proof. revert cache. induction nodes as [|n nodes IH]; intros cache; [done|]. cbn. apply IH. Qed.

Lemma learn_ok url nodes cache : has_byte newline url = false -> cache_ok cache -> cache_ok (learn url cache nodes).
Proof.
  intros Hu. revert cache. induction nodes as [|n nodes IH]; intros cache Hc; [done|]. cbn.
  apply IH. by apply cache_ok_insert.
Qed.

Lemma learn_known url nodes cache key : is_Some (cache !! key) -> is_Some (learn url cache nodes !! key).
Proof.
  revert cache. induction nodes as [|n nodes IH]; intros cache H; [done|]. cbn. apply IH.
  destruct (decide (key_of url n = key)) as [->|]; [by rewrite lookup_insert_eq|by rewrite lookup_insert_ne].
Qed.

Lemma learn_new url nodes cache key : key ∈ map (key_of url) nodes -> is_Some (learn url cache nodes !! key).
Proof.
  revert cache. induction nodes as [|n nodes IH]; intros cache H; [by apply elem_of_nil in H|]. cbn.
  cbn [map] in H. apply elem_of_cons in H as [->|H]; [|by apply IH]. apply learn_known. by rewrite lookup_insert_eq.
Qed.

Lemma answers url cache nodes : has_byte newline url = false -> cache_ok cache ->
  (forall node, node ∈ nodes -> is_Some (cache !! key_of url node)) ->
  map (fun key => default (mkProbeResult 0 None) (cache !! key)) (map (key_of url) nodes) =
  map (fun node => probe1 url (clone node)) nodes.
Proof.
  intros Hu Hc Hk. rewrite map_map. apply map_ext_in. intros n Hn%list_elem_of_In.
  destruct (Hk n Hn) as [r Hr]. rewrite Hr. cbn. by apply Hc.
Qed.

(** Within a pass, asking for the health of nodes through the cache gives
    the results of probing each of them anew, for any cache that earlier groups of
    the pass have filled; only links without an entry are probed, each once; the
    answer is missing only when the pass is cancelled. *)
Theorem cached_probe_transparent cache nodes url w : has_byte newline url = false -> cache_ok cache ->
  let todo := unknown url cache [] nodes in
  NoDup (map (key_of url) todo) /\ Forall (fun node => cache !! key_of url node = None) todo /\
  exists cache' w', cache_ok cache' /\
    cached_probe cache (map Some nodes) url w =
    match todo, cancelled (S (w_tick w)) with
    | _ :: _, Some err => Some (Err err, cache, w')
    | _, _ => Some (Ok (map (fun node => probe1 url (clone node)) nodes), cache', w')
    end.
Proof.
  intros Hu Hc. cbn zeta. destruct (unknown_spec url cache [] nodes) as (H1 & H2 & H3). split; [done|]. split.
  { apply Forall_forall. intros n Hn. by apply H2. }
  unfold cached_probe. cbn zeta. rewrite keys_imap, missing_unknown.
  set (todo := unknown url cache [] nodes) in *. destruct todo as [|n0 todo'] eqn:Htodo.
  - cbn [map]. exists cache, w. split; [done|]. unfold au_ret. rewrite (answers url cache nodes Hu Hc); [done|].
    intros n Hn. destruct (H3 n Hn) as [?%elem_of_nil|[?|?%elem_of_nil]]; done.
  - rewrite <-Htodo in *. assert (Hne : todo <> []) by (by rewrite Htodo). clear Htodo n0 todo'.
    destruct (map (fun node => (key_of url node, Some node)) todo) as [|kn rest] eqn:Hm; [by destruct todo|].
    rewrite <-Hm. clear Hm kn rest. rewrite !map_map. cbn [fst snd].
    change (map (fun x => Some x) todo) with (map Some todo). rewrite cloneProbeNodes_map.
    unfold au_bind, au_probe, au_ctx_err, au_outside. rewrite probed_each. cbn [w_tick w_svc w_auto].
    eexists (learn url cache todo), _. split; [by apply learn_ok|].
    destruct todo as [|n0 todo'] eqn:Ht; [done|]. rewrite <-Ht in *.
    destruct (cancelled (S (w_tick w))) as [err|]; [reflexivity|]. rewrite !length_map, Nat.eqb_refl. cbn [negb].
    unfold au_ret. change (map (fun x => key_of url x) todo) with (map (key_of url) todo). rewrite learn_fold.
    rewrite (answers url (learn url cache todo) nodes Hu); [done|by apply learn_ok|].
    intros n Hn. destruct (H3 n Hn) as [?%elem_of_nil|[?|?]]; [done|by apply learn_known|by apply learn_new].
Qed.

End Cache.

Section Example.
Import JsonRef CatalogRef AutomationRef.

(** Three nodes, two with the same link, and a plug-in. *)
Lemma cached_probe_transparent_witness :
  let X := outside_ref 1000 in
  let nodes := map (fun u => mkNode u "ss" "" 0 "") ["ss://a"; "ss://down"; "ss://a"; "plugin:p"]%string in
  let todo := unknown "https://probe.example" ∅ [] nodes in
  NoDup (map (key_of "https://probe.example") todo) /\ length todo = 3%nat /\
  exists cache' w', cache_ok probe_one cache' /\
    cached_probe ∅ (map Some nodes) "https://probe.example" watched_world =
    Some (Ok (map (fun node => probe_one "https://probe.example" (clone node)) nodes), cache', w').
Proof.
  intros X nodes todo.
  pose proof (cached_probe_transparent probe_one (fun n l u => eq_refl)
    (fun a b H => f_equal (fun u => HasPrefix u "plugin:") H) ∅ nodes "https://probe.example" watched_world eq_refl
    (cache_ok_empty probe_one)) as (H1 & _ & cache' & w' & H2 & H3).
  split; [exact H1|]. split; [vm_compute; reflexivity|]. exists cache', w'. split; [exact H2|]. exact H3.
Defined.

End Example.
