(* ===== verification/Process.v ===== *)
(** * The core process (service/kernel/v2ray: processManager.go, process.go, connectivity.go)

    Starting, reloading and stopping the core with the interception of packets
    around it.  The manager's lock is released while a start sets up the host:
    between two locked regions of [start], any sequence of the atomic actions of
    the other goroutines may run ([event]).  The rules in the host, the processes
    and the number of interactions so far are part of the state. *)

From S2P Require Import Prelude.
From S2P Require Import Store NodeRefs Configure Settings Catalog Automation.

#[local] Open Scope Z_scope.
#[local] Open Scope go_scope.

(** ** The host *)

Definition LastKernelExitRunning : string := "running".
Definition LastKernelExitStopped : string := "stopped".
Definition LastKernelExitCrashed : string := "crashed".

Record HostState := mkHostState {
  hs_TransparentType : string;
  hs_APIPort : Z;
  hs_TunAutoRoute : bool;
  hs_TunTeardownScript : string;
}.

(** ** Processes and the manager *)

(** What the manager uses of a template. *)
Record Template := mkTemplate { tp_Setting : Setting; tp_ApiPort : Z }.

(** A process, whether its template is still open (its API producers run), and
    whether its context was cancelled. *)
Record Process := mkProcess { pr_template : Template; pr_open : bool; pr_cancelled : bool; expectedStop : bool }.

(** [CoreProcessManager], with what the code does to the host: the processes by
    number; whether the host was set up for interception and the commands that undo it
    were not run since (a command that fails is ignored by the code, and what the
    commands do to the chains is the matter of InterceptProps); whether the proxy of
    the system was set and not restored since; and the interactions so far. *)
Record manager := mkManager {
  shuttingDown : bool;
  m_p : option nat;
  generation : Z;
  testing : bool;
  networkPaused : bool;
  connectivityStop : bool;
  transparentOn : bool;
  retainingInterception : bool;
  retainedSetting : option Setting;
  procs : gmap nat Process;
  rules : bool;
  systemProxy : bool;
  ticks : nat;
}.

Definition set_p (m : manager) (p : option nat) : manager :=
  mkManager (shuttingDown m) p (generation m) (testing m) (networkPaused m) (connectivityStop m)
    (transparentOn m) (retainingInterception m) (retainedSetting m) (procs m) (rules m) (systemProxy m) (ticks m).
Definition set_generation (m : manager) (g : Z) : manager :=
  mkManager (shuttingDown m) (m_p m) g (testing m) (networkPaused m) (connectivityStop m)
    (transparentOn m) (retainingInterception m) (retainedSetting m) (procs m) (rules m) (systemProxy m) (ticks m).
Definition set_testing (m : manager) (b : bool) : manager :=
  mkManager (shuttingDown m) (m_p m) (generation m) b (networkPaused m) (connectivityStop m)
    (transparentOn m) (retainingInterception m) (retainedSetting m) (procs m) (rules m) (systemProxy m) (ticks m).
Definition set_paused (m : manager) (b : bool) : manager :=
  mkManager (shuttingDown m) (m_p m) (generation m) (testing m) b (connectivityStop m)
    (transparentOn m) (retainingInterception m) (retainedSetting m) (procs m) (rules m) (systemProxy m) (ticks m).
Definition set_monitor (m : manager) (b : bool) : manager :=
  mkManager (shuttingDown m) (m_p m) (generation m) (testing m) (networkPaused m) b
    (transparentOn m) (retainingInterception m) (retainedSetting m) (procs m) (rules m) (systemProxy m) (ticks m).
Definition set_transparent (m : manager) (b : bool) : manager :=
  mkManager (shuttingDown m) (m_p m) (generation m) (testing m) (networkPaused m) (connectivityStop m)
    b (retainingInterception m) (retainedSetting m) (procs m) (rules m) (systemProxy m) (ticks m).
Definition set_retaining (m : manager) (b : bool) : manager :=
  mkManager (shuttingDown m) (m_p m) (generation m) (testing m) (networkPaused m) (connectivityStop m)
    (transparentOn m) b (retainedSetting m) (procs m) (rules m) (systemProxy m) (ticks m).
Definition set_retained (m : manager) (s : option Setting) : manager :=
  mkManager (shuttingDown m) (m_p m) (generation m) (testing m) (networkPaused m) (connectivityStop m)
    (transparentOn m) (retainingInterception m) s (procs m) (rules m) (systemProxy m) (ticks m).
Definition set_procs (m : manager) (ps : gmap nat Process) : manager :=
  mkManager (shuttingDown m) (m_p m) (generation m) (testing m) (networkPaused m) (connectivityStop m)
    (transparentOn m) (retainingInterception m) (retainedSetting m) ps (rules m) (systemProxy m) (ticks m).
Definition set_rules (m : manager) (b : bool) : manager :=
  mkManager (shuttingDown m) (m_p m) (generation m) (testing m) (networkPaused m) (connectivityStop m)
    (transparentOn m) (retainingInterception m) (retainedSetting m) (procs m) b (systemProxy m) (ticks m).
Definition set_systemProxy (m : manager) (b : bool) : manager :=
  mkManager (shuttingDown m) (m_p m) (generation m) (testing m) (networkPaused m) (connectivityStop m)
    (transparentOn m) (retainingInterception m) (retainedSetting m) (procs m) (rules m) b (ticks m).
Definition set_shuttingDown (m : manager) (b : bool) : manager :=
  mkManager b (m_p m) (generation m) (testing m) (networkPaused m) (connectivityStop m)
    (transparentOn m) (retainingInterception m) (retainedSetting m) (procs m) (rules m) (systemProxy m) (ticks m).
Definition tick_of (m : manager) : manager :=
  mkManager (shuttingDown m) (m_p m) (generation m) (testing m) (networkPaused m) (connectivityStop m)
    (transparentOn m) (retainingInterception m) (retainedSetting m) (procs m) (rules m) (systemProxy m) (S (ticks m)).

Definition template_of (m : manager) (p : nat) : option Template := pr_template <$> procs m !! p.
Definition setting_of_process (m : manager) (p : nat) : option Setting := tp_Setting <$> template_of m p.

Definition set_setting (m : manager) (p : nat) (s : Setting) : manager :=
  set_procs m (alter (fun pr => mkProcess (mkTemplate s (tp_ApiPort (pr_template pr))) (pr_open pr) (pr_cancelled pr)
                                  (expectedStop pr)) p (procs m)).

(** [p.Close()]: the first call cancels the context and closes the template. *)
Definition Close (m : manager) (p : nat) : manager :=
  set_procs m (alter (fun pr => if pr_cancelled pr then pr
                                else mkProcess (pr_template pr) false true true) p (procs m)).

Definition ownsProcessLocked (m : manager) (p : nat) (g : Z) : bool :=
  bool_decide (m_p m = Some p) && (generation m =? g).

(** What the other goroutines do under the lock: the report of a core that
    exited, [Stop], the teardown at the end of the program, the switch for latency
    tests, and the parts of the connectivity monitor of process [p]: removing
    the rules, marking the pause, setting the rules up again, marking the end of the pause. *)
Inductive event :=
| EvUnexpectedStop (p : nat)
| EvStop (saveRunning : bool)
| EvCheckAndStop
| EvTesting (b : bool)
| EvShuttingDown
| EvMonitorDelete (p : nat) (g : Z)
| EvMonitorPause (p : nat) (g : Z)
| EvMonitorFill (p : nat)
| EvMonitorWrite (p : nat) (g : Z)
| EvMonitorResume (p : nat) (g : Z).

(** How a core that was started shows itself: its API port opens, it exits, or
    nothing happens in time. *)
Inductive readiness := Ready | ExitedEarly | TimedOut.

(** The [n]th interaction with the outside: a hook of a stage, with its error;
    the stored setting; writing the core's configuration, looking at the ports,
    starting the core and waiting for it; writing rules; whether a snapshot of the
    system's proxy is stored, and restoring it; cleaning up after a start that never
    ended (the system's proxy apart); the template for the nodes; a probe of the core's API port
    and of the tunnel; and what others do while the lock is free. *)
Class HostOutside `{ServerObjs} := {
  lite : bool;
  core_hook : bool;
  transparent_hook : bool;
  asset_exists : string -> bool;
  hook : nat -> string -> option error;
  stored_setting : nat -> Setting;
  write_config : nat -> option error;
  ports_occupied : nat -> option error;
  start_core : nat -> option error;
  core_ready : nat -> readiness;
  write_rules : nat -> option error;
  proxy_snapshot : nat -> result bool;
  restore_proxy : nat -> option error;
  recover : nat -> HostState -> option error;
  make_template : nat -> list (ServerObj * string) -> result Template;
  api_reachable : nat -> bool;
  tunDeviceAlive : nat -> bool;
  others : nat -> list event;
}.

(** ** Selection *)

Section Selection.
Context `{O : ServerObjs} `{L : !Links}.

(** A [serverInfo]; its plug-in port is chosen later. *)
Definition serverInfo : Type := ServerObj * string.

Definition manual_match (settingOf : string -> OutboundSetting) (info : serverInfo) : bool :=
  let setting := settingOf (snd info) in
  negb (String.eqb (os_Selected setting) "") && String.eqb (ExportToURL (fst info)) (os_Selected setting).

Definition sticky_match (settingOf : string -> OutboundSetting) (info : serverInfo) : bool :=
  let setting := settingOf (snd info) in
  String.eqb (os_Type setting) KeepCurrent && negb (String.eqb (StickyCurrent setting) "") &&
  String.eqb (NodeFingerprint (ExportToURL (fst info))) (StickyCurrent setting).

(** The groups for which some node matches. *)
Definition matched (f : serverInfo -> bool) (infos : list serverInfo) (outbound : string) : bool :=
  existsb (fun info => String.eqb (snd info) outbound && f info) infos.

(** The second loop; [kept] are the groups whose choice has been kept. *)
Fixpoint keep_selected (settingOf : string -> OutboundSetting) (manual sticky : string -> bool) (kept : list string)
    (infos : list serverInfo) : list serverInfo :=
  match infos with
  | [] => []
  | info :: rest =>
    let outbound := snd info in
    let setting := settingOf outbound in
    let link := ExportToURL (fst info) in
    let chosen b := if b && negb (bool_decide (outbound ∈ kept))
                    then info :: keep_selected settingOf manual sticky (outbound :: kept) rest
                    else keep_selected settingOf manual sticky kept rest in
    if manual outbound then chosen (String.eqb link (os_Selected setting))
    else if String.eqb (os_Type setting) KeepCurrent then
      chosen (sticky outbound && String.eqb (NodeFingerprint link) (StickyCurrent setting))
    else info :: keep_selected settingOf manual sticky kept rest
  end.

(** [kept] reuses the array of [serverInfos] from its start, which is safe since
    it never overtakes the loop. *)
Definition applySelection (settingOf : string -> OutboundSetting) (serverInfos : list serverInfo) : list serverInfo :=
  keep_selected settingOf (matched (manual_match settingOf) serverInfos) (matched (sticky_match settingOf) serverInfos)
    [] serverInfos.

End Selection.

Section Nodes.
Context `{J : Json} `{O : ServerObjs} `{E : !Encodings} `{L : !Links}.

(** One [Locator] for all references: each list is read at its first use. *)
Fixpoint locate_all (servers : option (list ServerRaw)) (subs : option (list (list ServerRaw))) (refs : list NodeRef)
    : DB (list serverInfo) :=
  match refs with
  | [] => db_ret []
  | cs :: refs =>
    db! servers := (if String.eqb (TYPE cs) ServerType then
                      match servers with
                      | Some _ => db_ret servers
                      | None => db! l := GetServers in db_ret (Some l)
                      end
                    else db_ret servers) in
    db! subs := (if String.eqb (TYPE cs) SubscriptionServerType then
                   match subs with
                   | Some _ => db_ret subs
                   | None => db! l := GetSubscriptions in db_ret (Some (map su_Servers l))
                   end
                 else db_ret subs) in
    db! sr := db_lift (Locate (default [] servers) (default [] subs) cs) in
    db! rest := locate_all servers subs refs in
    db_ret ((sr_ServerObj sr, Outbound cs) :: rest)
  end.

(** The settings of the groups, each read once. *)
Fixpoint read_settings (read : gmap string OutboundSetting) (infos : list serverInfo)
    : DB (gmap string OutboundSetting) :=
  match infos with
  | [] => db_ret read
  | info :: infos =>
    match read !! snd info with
    | Some _ => read_settings read infos
    | None => db! s := GetOutboundSetting (snd info) in read_settings (<[snd info := s]> read) infos
    end
  end.

Definition getConnectedServerObjs : DB (list serverInfo) :=
  db! css := GetConnectedServers in
  if NodeRefs_Len css =? 0 then db_ret []
  else
    db! infos := locate_all None None (NodeRefs_Get css) in
    db! settings := read_settings ∅ infos in
    db_ret (applySelection (fun outbound => default DefaultOutboundSetting (settings !! outbound)) infos).

End Nodes.

(** ** Operations of the manager *)

Section Manager.
Context `{J : Json} `{O : ServerObjs} `{E : !Encodings} `{L : !Links} `{X : !HostOutside} `{JH : !GoJson HostState}.

Definition PM (A : Type) : Type := database * manager -> A * (database * manager).

Definition pm_ret {A} (a : A) : PM A := fun s => (a, s).
Definition pm_bind {A B} (c : PM A) (k : A -> PM B) : PM B := fun s => let '(a, s) := c s in k a s.
Definition pm_get : PM manager := fun s => (s.2, s).
Definition pm_mod (f : manager -> manager) : PM unit := fun s => (tt, (s.1, f s.2)).
Definition pm_outside {A} (f : nat -> A) : PM A := fun s => (f (ticks s.2), (s.1, tick_of s.2)).
Definition pm_db {A} (c : DB A) : PM (result A) := fun s => let '(r, d) := c s.1 in (r, (d, s.2)).

End Manager.

Notation "'pm!' x ':=' e 'in' k" := (pm_bind e (fun x => k))
  (at level 10, x pattern, e at level 100, k at level 200) : go_scope.

Section Operations.
Context `{J : Json} `{O : ServerObjs} `{E : !Encodings} `{L : !Links} `{X : !HostOutside} `{JH : !GoJson HostState}.

(** A hook that is not configured is not run. *)
Definition pm_hook (configured : bool) (stage : string) : PM (option error) :=
  if configured then pm_outside (fun n => hook n stage) else pm_ret None.

Definition IsTransparentOn (setting : Setting) : bool := transparent_on lite setting.

Definition deleteTransparentProxyRulesKeepSystemProxy : PM unit := pm_mod (fun m => set_rules m false).

(** The clean-up of the system's proxy, if a snapshot of it is stored. *)
Definition restoreSystemProxy : PM (option error) :=
  pm! found := pm_outside proxy_snapshot in
  match found with
  | Err e => pm_ret (Some e)
  | Ok false => pm_ret None
  | Ok true =>
    pm! err := pm_outside restore_proxy in
    pm! _ := (if is_some err then pm_ret tt else pm_mod (fun m => set_systemProxy m false)) in
    pm_ret err
  end.

(** What fails is logged. *)
Definition deleteTransparentProxyRules : PM unit :=
  pm! _ := deleteTransparentProxyRulesKeepSystemProxy in
  pm! _ := restoreSystemProxy in
  pm_ret tt.

(** On an error what was set up so far is undone. *)
Definition writeTransparentProxyRules (setting : Setting) : PM (option error) :=
  pm! err := pm_outside write_rules in
  pm! _ := pm_mod (fun m => set_rules m true) in
  pm! _ := pm_mod (fun m => if String.eqb (TransparentType setting) TransparentSystemProxy then set_systemProxy m true else m) in
  match err with
  | None => pm_ret None
  | Some err => pm! _ := deleteTransparentProxyRules in pm_ret (Some err)
  end.

Definition GetHostState : DB (option HostState) :=
  db! r := select_value "system:hostState" in
  match r with
  | None => db_ret None
  | Some raw => db! state := db_lift (Unmarshal raw) in db_ret (Some state)
  end.

Definition SetHostState (state : option HostState) : DB unit :=
  match state with
  | None => db_Delete "system" "hostState"
  | Some state => db_Set "system" "hostState" state
  end.

(** [errors.Join] *)
Definition join_errors (a b : option error) : option error :=
  match a with Some e => Some e | None => b end.

(** The tunnel is taken down if there was one, the commands that undo the rules are
    run unless the program runs without privileges, and the system's proxy is restored
    if it was set; all errors are returned. *)
Definition RecoverHostState (state : HostState) : PM (option error) :=
  pm! err := pm_outside (fun n => recover n state) in
  pm! _ := pm_mod (fun m => if lite && negb (String.eqb (hs_TransparentType state) TransparentTun) then m else set_rules m false) in
  if String.eqb (hs_TransparentType state) TransparentSystemProxy then
    pm! e := restoreSystemProxy in pm_ret (join_errors err e)
  else pm_ret err.

(** [None] is nil. *)
Definition checkAndStopTransparentProxy (setting : option Setting) : PM unit :=
  pm! m := pm_get in
  if negb (transparentOn m) then pm_ret tt
  else
    match setting with
    | None => pm_ret tt
    | Some setting =>
      pm! _ := pm_mod (fun m => set_transparent m false) in
      if negb (String.eqb (Transparent setting) TransparentClose) then
        pm! _ := pm_hook transparent_hook "pre-stop" in
        pm! _ := deleteTransparentProxyRules in
        pm! _ := pm_hook transparent_hook "post-stop" in
        pm_ret tt
      else pm_ret tt
    end.

Definition beforeStop (p : nat) : PM unit :=
  pm! m := pm_get in
  pm! _ := (if negb (retainingInterception m) then checkAndStopTransparentProxy (setting_of_process m p)
            else pm_ret tt) in
  pm! _ := pm_hook core_hook "pre-stop" in
  pm_ret tt.

Definition cleanupRetainedInterceptionLocked : PM unit :=
  pm! m := pm_get in
  match retainedSetting m with
  | None => pm_ret tt
  | Some setting =>
    pm! _ := checkAndStopTransparentProxy (Some setting) in
    pm_mod (fun m => set_retained m None)
  end.

Definition stop (saveRunning : bool) : PM unit :=
  pm! m := pm_get in
  match m_p m with
  | None => pm_ret tt
  | Some p =>
    pm! _ := pm_mod (fun m => set_paused (set_monitor m false) false) in
    pm! _ := beforeStop p in
    pm! _ := pm_mod (fun m => Close m p) in
    pm! _ := (if saveRunning then pm_db (SetRunning false) else pm_ret (Ok tt)) in
    pm! _ := pm_hook core_hook "post-stop" in
    pm_mod (fun m => set_p m None)
  end.

Definition Stop (saveRunning : bool) : PM unit :=
  pm! _ := pm_mod (fun m => set_retaining m false) in
  pm! m := pm_get in
  match m_p m with
  | None => cleanupRetainedInterceptionLocked
  | Some _ =>
    pm! _ := stop saveRunning in
    pm! _ := pm_mod (fun m => set_retained m None) in
    pm! _ := pm_db (SetLastKernelExitStatus (if saveRunning then LastKernelExitStopped else LastKernelExitRunning)) in
    pm_ret tt
  end.

Definition handleUnexpectedStop (p : nat) : PM unit :=
  pm! m := pm_get in
  if negb (bool_decide (m_p m = Some p)) then pm_ret tt
  else if shuttingDown m then stop false
  else
    pm! _ := stop true in
    pm! _ := pm_db (SetLastKernelExitStatus LastKernelExitCrashed) in
    pm_ret tt.

Definition CheckAndStopTransparentProxy : PM unit :=
  pm! m := pm_get in
  checkAndStopTransparentProxy (p ← m_p m; setting_of_process m p).

(** An action of another goroutine, under the lock. *)
Definition run_event (e : event) : PM unit :=
  match e with
  | EvUnexpectedStop p => handleUnexpectedStop p
  | EvStop saveRunning => Stop saveRunning
  | EvCheckAndStop => CheckAndStopTransparentProxy
  | EvTesting b => pm_mod (fun m => set_testing m b)
  | EvShuttingDown => pm_mod (fun m => set_shuttingDown m true)
  | EvMonitorDelete p g =>
    pm! m := pm_get in
    if ownsProcessLocked m p g then deleteTransparentProxyRulesKeepSystemProxy else pm_ret tt
  | EvMonitorPause p g =>
    pm_mod (fun m => if ownsProcessLocked m p g && negb (testing m) then set_paused m true else m)
  | EvMonitorFill p =>
    pm! d := pm_outside stored_setting in
    pm_mod (fun m => match setting_of_process m p with Some s => set_setting m p (FillEmpty s d) | None => m end)
  | EvMonitorWrite p g =>
    pm! m := pm_get in
    match setting_of_process m p with
    | None => pm_ret tt
    | Some s =>
      if ownsProcessLocked m p g && IsTransparentOn s then
        pm! _ := pm_mod (fun m => set_transparent m true) in
        pm! _ := writeTransparentProxyRules s in pm_ret tt
      else pm_ret tt
    end
  | EvMonitorResume p g =>
    pm_mod (fun m => if ownsProcessLocked m p g && negb (testing m) then set_paused m false else m)
  end.

Fixpoint run_events (es : list event) : PM unit :=
  match es with
  | [] => pm_ret tt
  | e :: es => pm! _ := run_event e in run_events es
  end.

(** The lock is free: the others get their turns. *)
Definition pm_unlocked : PM unit := pm! es := pm_outside others in run_events es.

Definition owner_error (format : string) : error := Errorf format [].

Definition checkProcessOwner (p : nat) (g : Z) : PM (option error) :=
  pm! _ := pm_unlocked in
  pm! m := pm_get in
  pm_ret (if ownsProcessLocked m p g then None
          else Some (owner_error "core process exited or was replaced during startup")).

(** The lock of the host is taken before the lock of the manager is given back,
    and a teardown needs both: the change and the check before it are one step. *)
Definition mutateHost (p : nat) (g : Z) (mutate : PM (option error)) : PM (option error) :=
  pm! _ := pm_unlocked in
  pm! m := pm_get in
  if negb (ownsProcessLocked m p g)
  then pm_ret (Some (owner_error "core process exited or was replaced before host setup"))
  else
    pm! err := mutate in
    pm! owner := checkProcessOwner p g in
    pm_ret (join_errors err owner).

(** Runs the next step if there is no error. *)
Definition pm_then (c : PM (option error)) (k : PM (option error)) : PM (option error) :=
  pm! err := c in match err with Some e => pm_ret (Some e) | None => k end.

Definition setupTransparentProxy (p : nat) (g : Z) : PM (option error) :=
  pm! d := pm_outside stored_setting in
  pm! _ := pm_mod (fun m => match setting_of_process m p with
                            | Some s => set_setting m p (FillEmpty s d)
                            | None => m
                            end) in
  pm! m := pm_get in
  match setting_of_process m p with
  | None => pm_ret None
  | Some s =>
    if IsTransparentOn s then
      pm_then (mutateHost p g (pm! _ := deleteTransparentProxyRules in pm_ret None))
      (pm_then (mutateHost p g (pm_hook transparent_hook "pre-start"))
      (pm_then (checkProcessOwner p g)
      (pm_then (mutateHost p g (pm! _ := pm_mod (fun m => set_transparent m true) in writeTransparentProxyRules s))
         (mutateHost p g (pm_hook transparent_hook "post-start")))))
    else pm_ret None
  end.

Definition startConnectivityMonitor (p : nat) (g : Z) : PM unit :=
  pm! m := pm_get in
  match setting_of_process m p with
  | None => pm_ret tt
  | Some s =>
    if negb (IsTransparentOn s) || String.eqb (TransparentType s) TransparentSystemProxy then pm_ret tt
    else
      pm! _ := pm_unlocked in
      pm_mod (fun m => if testing m || negb (ownsProcessLocked m p g) then m else set_monitor m true)
  end.

Definition afterStart (p : nat) (g : Z) (retained : bool) : PM (option error) :=
  pm_then (if retained then pm_ret None else setupTransparentProxy p g)
  (pm! _ := startConnectivityMonitor p g in
   pm_then (checkProcessOwner p g)
   (pm_then (pm_hook core_hook "post-start") (checkProcessOwner p g))).

(** ** The connectivity monitor *)

Definition second : Z := 1000000000.
Definition connectivityCheckInterval : Z := 15 * second.
Definition connectivityBackoffBase : Z := 30 * second.
Definition connectivityBackoffMax : Z := 120 * second.

(** The loop of [connectivityBackoffDelay], [n] turns before its end. *)
Fixpoint backoff (n : nat) (delay : Z) : Z :=
  match n with
  | 0%nat => delay
  | S n => let delay := delay * 2 in
           if connectivityBackoffMax <=? delay then connectivityBackoffMax else backoff n delay
  end.

Definition connectivityBackoffDelay (consecutiveFailures : nat) : Z :=
  backoff (Nat.pred consecutiveFailures) connectivityBackoffBase.

Definition tunDataPathDead (s : Setting) : PM bool :=
  if String.eqb (TransparentType s) TransparentTun then pm! alive := pm_outside tunDeviceAlive in pm_ret (negb alive)
  else pm_ret false.

Definition mark_paused (p : nat) (g : Z) (b : bool) : PM bool :=
  pm! _ := pm_unlocked in
  pm! m := pm_get in
  if ownsProcessLocked m p g && negb (testing m) then pm! _ := pm_mod (fun m => set_paused m b) in pm_ret true
  else pm_ret false.

(** [(stop, healthy)] *)
Definition syncConnectivityState (p : nat) (g : Z) : PM (bool * bool) :=
  pm! _ := pm_unlocked in
  pm! m := pm_get in
  match setting_of_process m p with
  | None => pm_ret (true, false)
  | Some setting =>
    if negb (ownsProcessLocked m p g) || testing m then pm_ret (true, false)
    else if String.eqb (TransparentType setting) TransparentSystemProxy || negb (IsTransparentOn setting)
    then pm_ret (false, true)
    else
      let paused := networkPaused m in
      pm! dead := tunDataPathDead setting in
      pm! healthy := (if dead then pm_ret false else pm_outside api_reachable) in
      pm! err := checkProcessOwner p g in
      if is_some err then pm_ret (true, false)
      else if negb healthy then
        if paused then pm_ret (false, false)
        else
          pm! err := mutateHost p g (pm! _ := deleteTransparentProxyRulesKeepSystemProxy in pm_ret None) in
          if is_some err then pm_ret (true, false)
          else
            pm! ok := mark_paused p g true in
            pm_ret (negb ok || dead, false)
      else if negb paused then pm_ret (false, true)
      else
        pm! err := setupTransparentProxy p g in
        if is_some err then
          pm! owner := checkProcessOwner p g in pm_ret (is_some owner, true)
        else
          pm! ok := mark_paused p g false in
          pm_ret (negb ok, true)
  end.

(** One turn of [connectivityLoop]: the number of failures and the time to wait,
    [None] when the monitor ends. *)
Definition connectivity_turn (p : nat) (g : Z) (failureCount : nat) : PM (option (nat * Z)) :=
  pm! (stop, healthy) := syncConnectivityState p g in
  pm_ret (if stop then None
          else if negb healthy then Some (S failureCount, connectivityBackoffDelay (S failureCount))
          else Some (0%nat, connectivityCheckInterval)).

(** What the rest of the program asks the manager. *)
Definition GetRunningTemplate (m : manager) : option Template := p ← m_p m; template_of m p.
Definition Running (m : manager) : bool := is_some (m_p m).
Definition ServiceRunning (m : manager) : bool := is_some (m_p m) && negb (testing m) && negb (networkPaused m).
Definition NetworkPaused (m : manager) : bool := networkPaused m.

(** ** Starting *)

(** The number of the new process and its error.  An error that the readiness
    loop returns is not in the variable that the deferred functions look at. *)
Definition NewProcess (tmpl : Template) : PM (nat * option error) :=
  pm! p := pm_outside (fun n => n) in
  let enter opened cancelled_ :=
    pm_mod (fun m => set_procs m (<[p := mkProcess tmpl opened cancelled_ false]> (procs m))) in
  let refuse err := pm! _ := enter false true in pm_ret (p, Some err) in
  pm! err := pm_outside write_config in
  match err with
  | Some err => refuse err
  | None =>
    pm! err := pm_outside ports_occupied in
    match err with
    | Some err => refuse err
    | None =>
      pm! err := pm_hook core_hook "pre-start" in
      match err with
      | Some err => refuse err
      | None =>
        pm! err := pm_outside start_core in
        match err with
        | Some err => refuse err
        | None =>
          pm! r := pm_outside core_ready in
          pm! _ := enter true false in
          pm_ret (p, match r with
                     | Ready => None
                     | ExitedEarly => Some (Errorf "v2raya_core exited right after starting; the reason is in the v2rayA log" [])
                     | TimedOut => Some (Errorf "v2raya_core did not open its API port within %d s (--core-startup-timeout); the reason is in the v2rayA log" [])
                     end)
        end
      end
    end
  end.

Definition canRetainInterception (before : option Setting) (after : Setting) : bool :=
  match before with
  | None => false
  | Some before =>
    bool_decide (before = after) && IsTransparentOn after && negb transparent_hook && negb core_hook &&
    (String.eqb (TransparentType after) TransparentTproxy || String.eqb (TransparentType after) TransparentRedirect)
  end.

(** A marker left by a start that never ended is torn down; what fails is
    logged. *)
Definition recover_pending : PM unit :=
  pm! r := pm_db GetHostState in
  match r with
  | Ok (Some state) =>
    pm! _ := RecoverHostState state in
    pm! _ := pm_db (SetHostState None) in
    pm_ret tt
  | _ => pm_ret tt
  end.

Definition err_of {A} (r : result A) : option error := match r with Ok _ => None | Err e => Some e end.

(** The state of the new start is made definite under the lock. *)
Definition commit (p : nat) (g : Z) : PM (option error) :=
  pm! _ := pm_unlocked in
  pm! m := pm_get in
  if negb (ownsProcessLocked m p g) then pm_ret (Some (owner_error "core process exited before startup committed"))
  else
    pm! r := pm_db (SetRunning true) in
    pm_then (pm_ret (err_of r)) (
    pm! r := pm_db (SetLastKernelExitStatus LastKernelExitRunning) in
    pm_then (pm_ret (err_of r)) (
    pm! r := pm_db (SetHostState None) in
    pm_then (pm_ret (err_of r)) (
    pm! _ := pm_mod (fun m => set_retained m None) in
    pm_ret None))).

(** The deferred function for an error after the process was started. *)
Definition abort_start (p : nat) (g : Z) (retained : bool) (err : error) : PM (option error) :=
  pm! _ := pm_unlocked in
  pm! m := pm_get in
  pm! err := (if ownsProcessLocked m p g then
                pm! _ := stop true in
                pm! r := pm_db (SetHostState None) in
                pm_ret (Some err)
              else if (generation m =? g) && negb (is_some (m_p m)) && negb retained then
                pm! r := pm_db GetHostState in
                match r with
                | Ok (Some state) =>
                  pm! e := RecoverHostState state in
                  match e with
                  | Some _ => pm_ret (Some err)
                  | None => pm! _ := pm_db (SetHostState None) in pm_ret (Some err)
                  end
                | _ => pm_ret (Some err)
                end
              else pm_ret (Some err)) in
  pm! _ := (if retained then cleanupRetainedInterceptionLocked else pm_ret tt) in
  pm_ret err.

(** Under the lock: the old process is stopped, the new one is started.  [inl]
    is the error of a process that could not be started. *)
Definition launch (t : Template) (retained : bool) : PM (error + nat * Z * option error) :=
  pm! _ := stop true in
  pm! _ := (if retained then pm_ret tt else recover_pending) in
  pm! _ := pm_mod (fun m => set_generation m ((generation m + 1) mod 2 ^ 64)) in
  pm! m := pm_get in
  let g := generation m in
  pm! (p, err) := NewProcess t in
  match err with
  | Some err =>
    pm! _ := (if retained then cleanupRetainedInterceptionLocked else pm_ret tt) in
    pm_ret (inl err)
  | None =>
    pm! _ := pm_mod (fun m => set_p m (Some p)) in
    pm! r := pm_db (SetHostState (Some (mkHostState (TransparentType (tp_Setting t)) (tp_ApiPort t)
                                          (TunAutoRoute (tp_Setting t)) (TunTeardownScript (tp_Setting t))))) in
    pm_ret (inr (p, g, err_of r))
  end.

(** Under the lock: whether the rules stay during the reload. *)
Definition retain (t : Template) (preserve : bool) : PM bool :=
  pm! m := pm_get in
  let previous := match m_p m with Some p => setting_of_process m p | None => retainedSetting m end in
  let retained := preserve && negb (networkPaused m) && transparentOn m && canRetainInterception previous (tp_Setting t) in
  pm! _ := (if retained then pm_mod (fun m => set_retained m previous) else pm_ret tt) in
  pm! _ := pm_mod (fun m => set_retaining m retained) in
  pm_ret retained.

(** Everything up to the release of the lock for the last time. *)
Definition start_main (t : Template) (preserve : bool) : PM (option error) :=
  pm! _ := pm_unlocked in
  pm! retained := retain t preserve in
  pm! started := launch t retained in
  match started with
  | inl err => pm_ret (Some err)
  | inr (p, g, err) =>
    pm! err := pm_then (pm_ret err) (pm_then (afterStart p g retained) (commit p g)) in
    match err with
    | None => pm_ret None
    | Some err => abort_start p g retained err
    end
  end.

(** The lock is free before [retainingInterception] is reset. *)
Definition start (t : Template) (preserve : bool) : PM (option error) :=
  let s := tp_Setting t in
  if (String.eqb (Transparent s) TransparentGfwlist || String.eqb (RulePortMode s) GfwlistMode) &&
     negb (asset_exists "LoyalsoldierSite.dat")
  then pm_ret (Some (Errorf "GFWList is missing" []))
  else
    pm! err := start_main t preserve in
    pm! _ := pm_unlocked in
    pm! _ := pm_mod (fun m => set_retaining m false) in
    pm_ret err.

(** [Ok None]: no node is selected and no group blocks without one. *)
Definition NewTemplateFromConnectedServers : PM (result (option Template)) :=
  pm! r := pm_db getConnectedServerObjs in
  match r with
  | Err e => pm_ret (Err e)
  | Ok infos =>
    pm! closed := (match infos with [] => pm_db HasFailClosedGroup | _ => pm_ret (Ok true) end) in
    match closed with
    | Ok true =>
      pm! t := pm_outside (fun n => make_template n infos) in
      pm_ret (match t with Ok t => Ok (Some t) | Err e => Err e end)
    | _ => pm_ret (Ok None)
    end
  end.

Definition updateV2RayConfig (preserveInterception : bool) : PM (option error) :=
  pm! r := NewTemplateFromConnectedServers in
  match r with
  | Err e => pm_ret (Some e)
  | Ok None => pm! _ := pm_unlocked in pm! _ := Stop true in pm_ret None
  | Ok (Some t) => start t preserveInterception
  end.

End Operations.
