(* ===== verification/ProcessProps.v ===== *)
(** * What the process manager promises

    Packets are intercepted only while a core runs: whatever the other
    goroutines do whenever the lock is free, a start that succeeds, fails or is
    overtaken by a crash leaves no rules without a core at its last release of the lock,
    and none afterwards, with one exception: a core that exits after a reload that keeps the rules has
    released the lock and before it has reset its flag ([late_exit_leaves_rules]). *)

From S2P Require Import Prelude.
From S2P Require Import Store NodeRefs Configure Catalog Automation Settings Process.
From S2P Require Import JsonRef CatalogRef AutomationRef.

#[local] Open Scope Z_scope.
#[local] Open Scope go_scope.

Section Invariant.
Context `{J : Json} `{O : ServerObjs} `{E : !Encodings} `{L : !Links} `{X : !HostOutside} `{JH : !GoJson HostState}.

(** ** Runs *)

Definition pwp {A} (c : PM A) (s : database * manager) (Q : A -> database * manager -> Prop) : Prop :=
  Q (c s).1 (c s).2.

Lemma pwp_bind {A B} (c : PM A) (k : A -> PM B) s Q : pwp c s (fun a s' => pwp (k a) s' Q) -> pwp (pm_bind c k) s Q.
Proof. unfold pwp, pm_bind. by destruct (c s). Qed.

Lemma pwp_mono {A} (c : PM A) s (Q Q' : A -> database * manager -> Prop) :
  pwp c s Q -> (forall a s', Q a s' -> Q' a s') -> pwp c s Q'.
Proof. unfold pwp. auto. Qed.

(** ** The invariant *)

Definition installable (s : Setting) : Prop := Transparent s <> TransparentClose.

(** The settings of the processes say whether packets are intercepted. *)
Definition filled (m : manager) : Prop :=
  forall p s, setting_of_process m p = Some s -> Transparent s <> ""%string.

(** Rules in the host are recorded, and what is recorded can be torn down: with
    the setting of the core, or, without a core, with the one kept by a reload. *)
Record bound (m : manager) : Prop := {
  rules_recorded : rules m = true -> transparentOn m = true;
  record_bound : transparentOn m = true ->
    match m_p m with
    | Some p => exists s, setting_of_process m p = Some s /\ installable s
    | None => exists s, retainedSetting m = Some s
    end;
  kept_installable : forall s, retainedSetting m = Some s -> installable s;
  known_process : forall p, m_p m = Some p -> is_Some (setting_of_process m p);
  bound_filled : filled m;
}.

(** While a reload keeps the rules, it knows how to remove them, unless there is
    nothing left to remove. *)
Definition reload_ok (m : manager) : Prop :=
  retainingInterception m = true -> is_Some (retainedSetting m) \/ (m_p m = None /\ transparentOn m = false).

(** No start is under way. *)
Definition idle (m : manager) : Prop :=
  bound m /\ retainingInterception m = false /\ retainedSetting m = None.

(** What a teardown leaves. *)
Definition clear (m : manager) : Prop := transparentOn m = false /\ rules m = false.

(** Nothing but the flag, the rules and the count of interactions differs. *)
Record same_core (m m' : manager) : Prop := {
  same_p : m_p m' = m_p m;
  same_generation : generation m' = generation m;
  same_retaining : retainingInterception m' = retainingInterception m;
  same_retained : retainedSetting m' = retainedSetting m;
  same_procs : procs m' = procs m;
}.

Lemma same_core_refl m : same_core m m.
Proof. by split. Qed.

Lemma same_core_trans m m1 m' : same_core m m1 -> same_core m1 m' -> same_core m m'.
Proof. intros [] []. split; congruence. Qed.

Lemma same_core_setting m m' p : same_core m m' -> setting_of_process m' p = setting_of_process m p.
Proof. intros []. unfold setting_of_process, template_of. by rewrite same_procs0. Qed.

(** With the same core, the record and the rules decide. *)
Lemma bound_same m m' : bound m -> same_core m m' -> (transparentOn m' = true -> transparentOn m = true) ->
  (rules m' = true -> transparentOn m' = true) -> bound m'.
Proof.
  intros [B1 B2 B3 B4 B5] Hs Ht Hr. pose proof Hs as [S1 S2 S3 S4 S5]. split.
  - done.
  - intros H. specialize (B2 (Ht H)). rewrite S1. destruct (m_p m) as [p|].
    + by rewrite (same_core_setting _ _ _ Hs).
    + by rewrite S4.
  - by rewrite S4.
  - intros p. rewrite S1, (same_core_setting _ _ _ Hs). apply B4.
  - intros p s. rewrite (same_core_setting _ _ _ Hs). apply B5.
Qed.

Lemma bound_clear m m' : bound m -> same_core m m' -> clear m' -> bound m'.
Proof. intros Hb Hs [H1 H2]. apply (bound_same m); congruence. Qed.

(** ** Steps that leave the core alone *)

Lemma pwp_hook b stage s (Q : option error -> database * manager -> Prop) :
  (forall e m', same_core s.2 m' -> transparentOn m' = transparentOn s.2 -> rules m' = rules s.2 -> Q e (s.1, m')) ->
  pwp (pm_hook b stage) s Q.
Proof.
  intros HQ. unfold pm_hook. destruct b; unfold pwp; cbn.
  - apply HQ; by try split.
  - destruct s as [d m]. by apply HQ.
Qed.

Lemma pwp_restore s (Q : option error -> database * manager -> Prop) :
  (forall e m', same_core s.2 m' -> transparentOn m' = transparentOn s.2 -> rules m' = rules s.2 -> Q e (s.1, m')) ->
  pwp restoreSystemProxy s Q.
Proof.
  intros HQ. unfold restoreSystemProxy, pwp, pm_bind, pm_outside. cbn [fst snd].
  destruct (proxy_snapshot _) as [[]|e]; cbn [fst snd]; [|by apply HQ..].
  destruct (restore_proxy _) as [e|]; by apply HQ.
Qed.

Lemma pwp_delete s (Q : unit -> database * manager -> Prop) :
  (forall m', same_core s.2 m' -> transparentOn m' = transparentOn s.2 -> rules m' = false -> Q tt (s.1, m')) ->
  pwp deleteTransparentProxyRules s Q.
Proof.
  intros HQ. unfold deleteTransparentProxyRules, deleteTransparentProxyRulesKeepSystemProxy.
  apply pwp_bind. unfold pwp at 1, pm_mod. cbn [fst snd]. apply pwp_bind, pwp_restore. cbn [fst snd].
  intros _ m' Hs Ht Hr. unfold pwp, pm_ret. cbn [fst snd]. apply HQ; [|done..]. destruct Hs. by split.
Qed.

Lemma pwp_check_stop setting s (Q : unit -> database * manager -> Prop) : bound s.2 ->
  (transparentOn s.2 = true -> exists st, setting = Some st /\ installable st) ->
  (forall m', same_core s.2 m' -> clear m' -> Q tt (s.1, m')) ->
  pwp (checkAndStopTransparentProxy setting) s Q.
Proof.
  intros Hb Hset HQ. unfold checkAndStopTransparentProxy. apply pwp_bind. unfold pwp at 1, pm_get. cbn [fst snd].
  destruct (transparentOn s.2) eqn:Ht; cbn [negb].
  - destruct (Hset eq_refl) as (st & -> & Hst). apply pwp_bind. unfold pwp at 1, pm_mod. cbn [fst snd].
    rewrite (proj2 (String.eqb_neq _ _) Hst). cbn [negb]. apply pwp_bind, pwp_hook. cbn [snd]. intros e m1 S1 T1 _.
    apply pwp_bind, pwp_delete. cbn [fst snd]. intros m3 S3 T3 R3.
    apply pwp_bind, pwp_hook. cbn [fst snd]. intros e2 m2 S2 T2 R2.
    apply HQ; cbn.
    + destruct S1, S2, S3. split; cbn in *; congruence.
    + split; [|by rewrite R2]. rewrite T2, T3. cbn. by rewrite T1.
  - unfold pwp, pm_ret. destruct s as [d m]. cbn [fst snd] in *. apply HQ; [apply same_core_refl|].
    split; [done|]. destruct (rules m) eqn:Hr; [|done]. rewrite (rules_recorded _ Hb Hr) in Ht. done.
Qed.

(** The parts of [stop] after the teardown. *)
Lemma setting_of_close m p q : setting_of_process (Close m p) q = setting_of_process m q.
Proof.
  unfold setting_of_process, template_of, Close. cbn. rewrite lookup_alter.
  destruct (decide (p = q)) as [->|]; [|done]. destruct (procs m !! q) as [pr|]; [|done]. cbn. by destruct (pr_cancelled pr).
Qed.

(** What [stop] leaves of the manager. *)
Record stopped (m m' : manager) : Prop := {
  stopped_p : m_p m' = None;
  stopped_generation : generation m' = generation m;
  stopped_retaining : retainingInterception m' = retainingInterception m;
  stopped_retained : retainedSetting m' = retainedSetting m;
  stopped_settings : forall q, setting_of_process m' q = setting_of_process m q;
}.

Lemma pwp_db {A} (c : DB A) s (Q : result A -> database * manager -> Prop) :
  (forall r d, Q r (d, s.2)) -> pwp (pm_db c) s Q.
Proof. intros HQ. unfold pwp, pm_db. destruct (c s.1) as [r d]. apply HQ. Qed.

Lemma pwp_beforeStop p s (Q : unit -> database * manager -> Prop) : bound s.2 -> m_p s.2 = Some p ->
  (forall m', bound m' -> same_core s.2 m' -> (retainingInterception s.2 = false -> clear m') -> Q tt (s.1, m')) ->
  pwp (beforeStop p) s Q.
Proof.
  intros Hb Hp HQ. unfold beforeStop. apply pwp_bind. unfold pwp at 1, pm_get. cbn [fst snd].
  apply pwp_bind. destruct (retainingInterception s.2) eqn:Hr; cbn [negb].
  - unfold pwp at 1, pm_ret. cbn [fst snd]. apply pwp_bind, pwp_hook. intros e m' S1 T1 R1. unfold pwp, pm_ret. cbn.
    apply HQ; [|done|done]. apply (bound_same s.2); [done|done|by rewrite T1|]. rewrite R1, T1. apply Hb.
  - apply pwp_check_stop; [done| |].
    + intros Ht. pose proof (record_bound _ Hb Ht) as H. rewrite Hp in H. done.
    + intros m1 S1 C1. apply pwp_bind, pwp_hook. cbn [fst snd]. intros e m2 S2 T2 R2. unfold pwp, pm_ret. cbn.
      assert (C2 : clear m2) by (destruct C1; split; congruence).
      pose proof (same_core_trans _ _ _ S1 S2) as S. apply HQ; [by eapply bound_clear|done|done].
Qed.

Lemma pwp_stop b s (Q : unit -> database * manager -> Prop) : bound s.2 -> reload_ok s.2 ->
  (forall s', bound s'.2 -> stopped s.2 s'.2 ->
     (retainingInterception s.2 = false /\ is_Some (m_p s.2) \/ retainedSetting s.2 = None -> clear s'.2) -> Q tt s') ->
  pwp (stop b) s Q.
Proof.
  intros Hb Hl HQ. unfold stop. apply pwp_bind. unfold pwp at 1, pm_get. cbn [fst snd].
  destruct (m_p s.2) as [p|] eqn:Hp.
  2:{ unfold pwp, pm_ret. apply HQ; [done|by split|]. intros [[_ []]|Hr]; [done|].
      assert (Ht : transparentOn s.2 = false).
      { destruct (transparentOn s.2) eqn:Ht; [|done]. pose proof (record_bound _ Hb Ht) as H. rewrite Hp, Hr in H.
        by destruct H. }
      split; [done|]. destruct (rules s.2) eqn:E2; [|done]. apply (rules_recorded _ Hb) in E2. congruence. }
  apply pwp_bind. unfold pwp at 1, pm_mod. cbn [fst snd].
  apply pwp_bind, pwp_beforeStop; [by eapply bound_same; [exact Hb|by split|done|apply Hb]|done|]. cbn [fst snd].
  intros m1 B1 S1 C1. change (retainingInterception s.2 = false -> clear m1) in C1.
  apply pwp_bind. unfold pwp at 1, pm_mod. cbn [fst snd].
  apply pwp_bind. apply (pwp_mono _ _ (fun _ s' => s'.2 = Close m1 p)).
  { destruct b; [by apply pwp_db|done]. }
  intros r s2 Hs2. apply pwp_bind, pwp_hook. rewrite Hs2. intros e m3 S3 T3 R3. unfold pwp, pm_mod. cbn [fst snd].
  assert (Hset : forall q, setting_of_process (set_p m3 None) q = setting_of_process s.2 q).
  { intros q. transitivity (setting_of_process m3 q); [done|]. rewrite (same_core_setting _ _ _ S3), setting_of_close.
    by rewrite (same_core_setting _ _ _ S1). }
  assert (Hst : stopped s.2 (set_p m3 None)).
  { split; [done| | | |exact Hset]; destruct S1, S3; cbn in *; congruence. }
  apply HQ; [|done|].
  - destruct B1 as [Q1 Q2 Q3 Q4 Q5]. destruct Hst as [_ _ H3 H4 _]. split; cbn [snd].
    + cbn. rewrite R3, T3. exact Q1.
    + cbn. rewrite T3. intros Ht. destruct (retainingInterception s.2) eqn:Hr.
      * destruct (Hl Hr) as [[x Hx]|[? _]]; [|congruence]. exists x. cbn in H4. by rewrite H4.
      * destruct (C1 eq_refl) as [Hc _]. cbn in Ht. congruence.
    + intros x. rewrite H4. apply (kept_installable _ Hb).
    + done.
    + intros q x. rewrite Hset. apply (bound_filled _ Hb).
  - intros [[Hr _]|Hr].
    + destruct (C1 Hr). split; cbn; [rewrite T3|rewrite R3]; done.
    + destruct (retainingInterception s.2) eqn:Hret.
      * destruct (Hl Hret) as [[x Hx]|[? _]]; congruence.
      * destruct (C1 eq_refl). split; cbn; [rewrite T3|rewrite R3]; done.
Qed.

(** ** The other goroutines *)

Lemma reload_not_retaining m : retainingInterception m = false -> reload_ok m.
Proof. intros H H'. congruence. Qed.

Lemma stopped_reload m m' : stopped m m' -> reload_ok m ->
  (retainingInterception m = false /\ is_Some (m_p m) \/ retainedSetting m = None -> clear m') -> reload_ok m'.
Proof.
  intros [H1 _ H3 H4 _] Hl Hc Hr. rewrite H3 in Hr. destruct (Hl Hr) as [?|[? ?]]; [left; by rewrite H4|].
  destruct (retainedSetting m) eqn:E1; [left; rewrite H4; by eexists|]. right. split; [done|]. by apply Hc; right.
Qed.

Lemma pwp_cleanup s (Q : unit -> database * manager -> Prop) : bound s.2 -> m_p s.2 = None ->
  (forall m', bound m' -> m_p m' = None -> generation m' = generation s.2 ->
     retainingInterception m' = retainingInterception s.2 -> retainedSetting m' = None -> clear m' ->
     (forall q, setting_of_process m' q = setting_of_process s.2 q) -> Q tt (s.1, m')) ->
  pwp cleanupRetainedInterceptionLocked s Q.
Proof.
  intros Hb Hp HQ. unfold cleanupRetainedInterceptionLocked. apply pwp_bind. unfold pwp at 1, pm_get. cbn [fst snd].
  destruct (retainedSetting s.2) as [x|] eqn:Hx.
  - apply pwp_bind, pwp_check_stop; [done|intros _; exists x; split; [done|by apply (kept_installable _ Hb)]|].
    intros m1 S1 C1. unfold pwp, pm_mod. cbn [fst snd]. pose proof S1 as [P1 P2 P3 P4 P5].
    assert (B1 : bound m1) by (by eapply bound_clear).
    destruct C1 as [C1 C2]. apply HQ; cbn; try done.
    + destruct B1 as [Q1 Q2 Q3 Q4 Q5]. split; cbn; try done; congruence.
    + congruence.
    + intros q. by rewrite <-(same_core_setting _ _ q S1).
  - unfold pwp, pm_ret. destruct s as [d m]. cbn [fst snd] in *. apply HQ; try done.
    assert (Ht : transparentOn m = false).
    { destruct (transparentOn m) eqn:Ht; [|done]. pose proof (record_bound _ Hb Ht) as H. rewrite Hp, Hx in H. by destruct H. }
    split; [done|]. destruct (rules m) eqn:E2; [|done]. apply (rules_recorded _ Hb) in E2. congruence.
Qed.

(** What the others leave: they start no process and keep no rules. *)
Record overtaken (m m' : manager) : Prop := {
  ov_generation : generation m' = generation m;
  ov_p : m_p m' = m_p m \/ m_p m' = None;
  ov_retaining : retainingInterception m' = true -> retainingInterception m = true;
  ov_retained : retainedSetting m' = retainedSetting m \/ retainedSetting m' = None;
  ov_settings : forall q, Transparent <$> setting_of_process m' q = Transparent <$> setting_of_process m q;
}.

Lemma overtaken_refl m : overtaken m m.
Proof. split; auto. Qed.

Lemma overtaken_trans m m1 m' : overtaken m m1 -> overtaken m1 m' -> overtaken m m'.
Proof.
  intros [H1 H2 H3 H4 H5] [G1 G2 G3 G4 G5]. split.
  - congruence.
  - destruct G2 as [->|?]; auto.
  - auto.
  - destruct G4 as [->|?]; auto.
  - intros q. by rewrite G5.
Qed.

Lemma same_overtaken m m' : same_core m m' -> overtaken m m'.
Proof.
  intros Hs. pose proof Hs as [H1 H2 H3 H4 H5]. split; rewrite ?H1, ?H2, ?H3, ?H4; auto.
  intros q. by rewrite (same_core_setting _ _ _ Hs).
Qed.

Lemma stopped_overtaken m m' : stopped m m' -> overtaken m m'.
Proof.
  intros [H1 H2 H3 H4 H5]. split; rewrite ?H1, ?H2, ?H3, ?H4; auto. intros q. by rewrite H5.
Qed.

Lemma same_reload m m' : same_core m m' -> reload_ok m -> (transparentOn m = false -> transparentOn m' = false) ->
  reload_ok m'.
Proof.
  intros [H1 H2 H3 H4 H5] Hl Ht Hr. rewrite H3 in Hr. destruct (Hl Hr) as [?|[? ?]]; [left; by rewrite H4|right].
  rewrite H1. auto.
Qed.

(** Neither the manager nor its core is replaced. *)
Definition safe_after (m : manager) (s' : database * manager) : Prop :=
  bound s'.2 /\ (reload_ok m -> reload_ok s'.2) /\ overtaken m s'.2.

Lemma same_safe d m m' : bound m -> same_core m m' -> transparentOn m' = transparentOn m ->
  (rules m' = true -> rules m = true) -> safe_after m (d, m').
Proof.
  intros Hb Hs Ht Hr. split; [|split].
  - apply (bound_same m); cbn; rewrite ?Ht; auto. intros H. apply (rules_recorded _ Hb), Hr, H.
  - intros Hl. apply (same_reload m); [done|done|]. cbn. by rewrite Ht.
  - by apply same_overtaken.
Qed.

Lemma pwp_Stop b s : bound s.2 -> pwp (Stop b) s (fun _ s' => safe_after s.2 s' /\ reload_ok s'.2).
Proof.
  intros Hb. unfold Stop. apply pwp_bind. unfold pwp at 1, pm_mod. cbn [fst snd].
  set (m1 := set_retaining s.2 false).
  assert (B1 : bound m1) by (destruct Hb; by split). apply pwp_bind. unfold pwp at 1, pm_get. cbn [fst snd].
  destruct (m_p m1) as [p|] eqn:Hp.
  - apply pwp_bind, pwp_stop; [done|by apply reload_not_retaining|]. cbn [snd]. intros s2 B2 [P1 P2 P3 P4 P5] C2.
    apply pwp_bind. unfold pwp at 1, pm_mod. cbn [fst snd]. apply pwp_bind, pwp_db. intros r d. unfold pwp, pm_ret. cbn [fst snd].
    destruct (C2 (or_introl (conj eq_refl (ex_intro _ p Hp)))) as [C3 C4].
    assert (B3 : bound (set_retained s2.2 None)).
    { destruct B2 as [Q1 Q2 Q3 Q4 Q5]. split; cbn; try done. congruence. }
    assert (Hl : reload_ok (set_retained s2.2 None)) by (intros H; cbn in H; rewrite P3 in H; done).
    split; [|done]. split; [done|]. split; [done|]. split; cbn; [by rewrite P2|by right|by rewrite P3|by right|].
    intros q. exact (f_equal (fmap Transparent) (P5 q)).
  - eapply pwp_cleanup; [done|done|]. cbn [snd]. intros m2 B2 P2 G2 R2 K2 C2 Z2.
    assert (Hl : reload_ok m2) by (intros H; by rewrite R2 in H).
    split; [|done]. split; [done|]. split; [done|]. split; cbn; [by rewrite G2|right; done|by rewrite R2|by right|].
    intros q. exact (f_equal (fmap Transparent) (Z2 q)).
Qed.

Lemma pwp_unexpected p s : bound s.2 -> reload_ok s.2 -> pwp (handleUnexpectedStop p) s (fun _ s' => safe_after s.2 s').
Proof.
  intros Hb Hl. unfold handleUnexpectedStop. apply pwp_bind. unfold pwp at 1, pm_get. cbn [fst snd].
  assert (H0 : safe_after s.2 s) by (split; [done|]; split; [done|apply overtaken_refl]).
  destruct (negb _); [done|].
  assert (Hstop : forall b, pwp (stop b) s (fun _ s' => safe_after s.2 s')).
  { intros b. apply pwp_stop; [done|done|]. intros s' B S C. split; [done|].
    split; [intros _; by eapply stopped_reload|by apply stopped_overtaken]. }
  destruct (shuttingDown s.2); [apply Hstop|]. apply pwp_bind. eapply pwp_mono; [apply Hstop|]. cbn beta. intros _ s1 H1.
  apply pwp_bind, pwp_db. intros r d. exact H1.
Qed.

Lemma setting_of_set m p q x : setting_of_process (set_setting m p x) q =
  if decide (p = q) then (fun _ => x) <$> setting_of_process m q else setting_of_process m q.
Proof.
  unfold setting_of_process, template_of, set_setting. cbn. rewrite lookup_alter.
  destruct (decide (p = q)) as [->|]; [|done]. by destruct (procs m !! q).
Qed.

(** Filling the setting of a process does not change whether packets are
    intercepted. *)
Lemma fill_bound m p d : bound m ->
  bound (match setting_of_process m p with Some x => set_setting m p (FillEmpty x d) | None => m end) /\
  forall q, (Transparent <$> setting_of_process (match setting_of_process m p with
                                                | Some x => set_setting m p (FillEmpty x d)
                                                | None => m
                                                end) q) = (Transparent <$> setting_of_process m q).
Proof.
  intros Hb. destruct (setting_of_process m p) as [x|] eqn:Hx; [|done]. pose proof (bound_filled _ Hb p x Hx) as Hf.
  assert (Ht : Transparent (FillEmpty x d) = Transparent x).
  { cbn. unfold fill_string. by rewrite (proj2 (String.eqb_neq _ _) Hf). }
  assert (Hq : forall q, Transparent <$> setting_of_process (set_setting m p (FillEmpty x d)) q =
    Transparent <$> setting_of_process m q).
  { intros q. rewrite setting_of_set. destruct (decide (p = q)) as [<-|]; [|done]. rewrite Hx. cbn [fmap option_fmap option_map].
    by rewrite Ht. }
  split; [|done]. destruct Hb as [B1 B2 B3 B4 B5]. split.
  - done.
  - intros H. specialize (B2 H). change (m_p (set_setting m p (FillEmpty x d))) with (m_p m).
    destruct (m_p m) as [q|]; [|done]. destruct B2 as (y & Hy & Hi). specialize (Hq q). rewrite Hy in Hq.
    destruct (setting_of_process (set_setting m p (FillEmpty x d)) q) as [z|]; [|done]. exists z. split; [done|].
    injection Hq as Hq. unfold installable. by rewrite Hq.
  - done.
  - intros q H. specialize (Hq q). destruct (B4 q H) as [y Hy]. rewrite Hy in Hq.
    by destruct (setting_of_process (set_setting m p (FillEmpty x d)) q).
  - intros q z Hz. specialize (Hq q). rewrite Hz in Hq. destruct (setting_of_process m q) as [y|] eqn:Hy; [|done].
    injection Hq as Hq. rewrite Hq. by eapply B5.
Qed.

Lemma owns_spec m p g : ownsProcessLocked m p g = true <-> m_p m = Some p /\ generation m = g.
Proof. unfold ownsProcessLocked. by rewrite andb_true_iff, bool_decide_eq_true, Z.eqb_eq. Qed.

(** Writing rules for the core that runs. *)
Lemma pwp_write setting p x s : bound s.2 -> m_p s.2 = Some p -> setting_of_process s.2 p = Some x -> installable x ->
  pwp (pm! _ := pm_mod (fun m => set_transparent m true) in writeTransparentProxyRules setting) s
    (fun _ s' => safe_after s.2 s').
Proof.
  intros Hb Hp Hx Hi.
  assert (Hon : forall d m', same_core s.2 m' -> transparentOn m' = true -> safe_after s.2 (d, m')).
  { intros d m' Hs Ht. pose proof Hs as [S1 S2 S3 S4 S5]. split; [|split].
    - destruct Hb as [B1 B2 B3 B4 B5]. split; cbn [snd]; [done| |by rewrite S4| |].
      + intros _. rewrite S1, Hp. exists x. by rewrite (same_core_setting _ _ _ Hs).
      + intros q. rewrite S1, (same_core_setting _ _ _ Hs). apply B4.
      + intros q y. rewrite (same_core_setting _ _ _ Hs). apply B5.
    - intros Hl Hr. cbn [snd] in *. rewrite S3 in Hr. destruct (Hl Hr) as [?|[? _]]; [left; by rewrite S4|congruence].
    - by apply same_overtaken. }
  apply pwp_bind. unfold pwp at 1, pm_mod. cbn [fst snd]. unfold writeTransparentProxyRules.
  apply pwp_bind. unfold pwp at 1, pm_outside. cbn [fst snd]. apply pwp_bind. unfold pwp at 1, pm_mod. cbn [fst snd].
  apply pwp_bind. unfold pwp at 1, pm_mod. cbn [fst snd].
  destruct (write_rules _) as [e|]; [|by apply Hon; [destruct (String.eqb _ _)..]].
  apply pwp_bind, pwp_delete. cbn [fst snd]. intros m' Hs Ht _. apply Hon.
  - destruct (String.eqb _ _); destruct Hs; by split.
  - rewrite Ht. by destruct (String.eqb _ _).
Qed.

Lemma IsTransparentOn_installable x : IsTransparentOn x = true -> installable x.
Proof. unfold IsTransparentOn, transparent_on, installable. by destruct (String.eqb_spec (Transparent x) TransparentClose). Qed.

Definition is_crash (e : event) : bool := match e with EvUnexpectedStop _ => true | _ => false end.

Lemma pwp_event e s : bound s.2 -> (is_crash e = true -> reload_ok s.2) ->
  pwp (run_event e) s (fun _ s' => safe_after s.2 s').
Proof.
  intros Hb Hl. destruct s as [d m]. cbn [snd] in *.
  assert (Hsame : forall d m', same_core m m' -> transparentOn m' = transparentOn m -> (rules m' = true -> rules m = true) ->
    safe_after m (d, m')) by (intros; by apply same_safe).
  destruct e as [p|b| |b| |p g|p g|p|p g|p g]; cbn [run_event].
  - by apply pwp_unexpected; [|apply Hl].
  - eapply pwp_mono; [by apply pwp_Stop|]. cbn beta. by intros _ s' [H _].
  - unfold CheckAndStopTransparentProxy. apply pwp_bind. unfold pwp at 1, pm_get. cbn [fst snd].
    destruct (m_p m) as [p|] eqn:Hp.
    + apply pwp_check_stop; [done|cbn [snd]; intros Ht; pose proof (record_bound _ Hb Ht) as H; by rewrite Hp in H|].
      cbn [fst snd]. intros m' Hs [H1 H2]. split; [by eapply bound_clear|]. split; [|by apply same_overtaken].
      intros Hl'. by apply (same_reload m).
    + unfold pwp, checkAndStopTransparentProxy, pm_bind, pm_get, pm_ret. cbn. destruct (transparentOn m); cbn;
        (split; [done|]; split; [done|apply overtaken_refl]).
  - by apply Hsame.
  - by apply Hsame.
  - unfold pwp, pm_bind, pm_get. cbn. destruct (ownsProcessLocked m p g); by apply Hsame.
  - unfold pwp, pm_mod. cbn. destruct (ownsProcessLocked m p g && _); by apply Hsame.
  - unfold pwp, pm_bind, pm_outside, pm_mod. cbn [fst snd].
    assert (Hb' : bound (tick_of m)) by (destruct Hb; by split).
    destruct (fill_bound (tick_of m) p (stored_setting (ticks m)) Hb') as [Hb'' Hq]. split; [done|].
    cbn [snd]. destruct (setting_of_process (tick_of m) p); (split; [intros Hl'; exact Hl'|split; [by auto..|exact Hq]]).
  - apply pwp_bind. unfold pwp at 1, pm_get. cbn [fst snd].
    destruct (setting_of_process m p) as [x|] eqn:Hx; [|by apply Hsame].
    destruct (ownsProcessLocked m p g) eqn:Ho; cbn [andb]; [|by apply Hsame].
    apply owns_spec in Ho as [Ho _]. destruct (IsTransparentOn x) eqn:Hi; [|by apply Hsame].
    pose proof (pwp_write x p x (d, m) Hb Ho Hx (IsTransparentOn_installable _ Hi)) as H.
    unfold pwp, pm_bind, pm_mod, pm_ret in *. cbn [fst snd] in *. by destruct (writeTransparentProxyRules x _).
  - unfold pwp, pm_mod. cbn. destruct (ownsProcessLocked m p g && _); by apply Hsame.
Qed.

Lemma safe_trans m s1 s2 : safe_after m s1 -> safe_after s1.2 s2 -> safe_after m s2.
Proof.
  intros (H1 & H2 & H3) (G1 & G2 & G3). split; [done|]. split; [auto|]. by eapply overtaken_trans.
Qed.

Lemma pwp_events es s : bound s.2 -> (Forall (fun e => is_crash e = false) es \/ reload_ok s.2) ->
  pwp (run_events es) s (fun _ s' => safe_after s.2 s').
Proof.
  revert s. induction es as [|e es IH]; intros s Hb Hor; cbn [run_events].
  { split; [done|]. split; [done|apply overtaken_refl]. }
  apply pwp_bind. eapply pwp_mono.
  { apply pwp_event; [done|]. intros He. destruct Hor as [H|H]; [|done]. apply Forall_cons in H as [H _]. congruence. }
  cbn beta. intros _ s1 H1. eapply pwp_mono.
  { apply IH; [apply H1|]. destruct Hor as [H|H]; [left; apply Forall_cons in H as [_ H]; done|right; by apply H1]. }
  cbn beta. intros _ s2 H2. by eapply safe_trans.
Qed.

Lemma tick_bound m : bound m -> bound (tick_of m).
Proof. intros []. by split. Qed.

Lemma pwp_unlocked s (Q : unit -> database * manager -> Prop) : bound s.2 -> reload_ok s.2 ->
  (forall s', bound s'.2 -> reload_ok s'.2 -> overtaken s.2 s'.2 -> Q tt s') -> pwp pm_unlocked s Q.
Proof.
  intros Hb Hl HQ. unfold pm_unlocked. apply pwp_bind. unfold pwp at 1, pm_outside. cbn [fst snd].
  eapply pwp_mono; [apply pwp_events; [by apply tick_bound|by right]|]. cbn beta. intros [] s' (H1 & H2 & H3).
  apply HQ; [done|by apply H2|]. cbn [snd] in H3. destruct H3. by split.
Qed.

(** ** Steps of a start *)

(** A step that keeps what has to be torn down known, replaces no core and keeps
    no rules, from states where [I] holds. *)
Class Tame {A} (I : manager -> Prop) (c : PM A) : Prop :=
  tame s : bound s.2 -> reload_ok s.2 -> I s.2 ->
    pwp c s (fun _ s' => bound s'.2 /\ reload_ok s'.2 /\ overtaken s.2 s'.2).

(** Properties that the others cannot break. *)
Class Stable (I : manager -> Prop) : Prop := stable m m' : overtaken m m' -> I m -> I m'.

(** The setting of [p] says that packets are intercepted. *)
Definition intercepting (p : nat) (m : manager) : Prop :=
  exists x, setting_of_process m p = Some x /\ installable x.

#[local] Instance stable_true : Stable (fun _ => True).
Proof. done. Qed.

#[local] Instance stable_intercepting p : Stable (intercepting p).
Proof.
  intros m m' [_ _ _ _ H] (x & Hx & Hi). specialize (H p). rewrite Hx in H.
  destruct (setting_of_process m' p) as [y|] eqn:Hy; [|done]. exists y. split; [done|]. injection H as H.
  unfold installable. by rewrite H.
Qed.

#[local] Instance tame_ret {A} I (a : A) : Tame I (pm_ret a).
Proof. intros s Hb Hl _. split; [done|]. split; [done|apply overtaken_refl]. Qed.

#[local] Instance tame_get I : Tame I pm_get.
Proof. intros s Hb Hl _. split; [done|]. split; [done|apply overtaken_refl]. Qed.

#[local] Instance tame_bind {A B} I `{!Stable I} (c : PM A) (k : A -> PM B) :
  Tame I c -> (forall a, Tame I (k a)) -> Tame I (pm_bind c k).
Proof.
  intros Hc Hk s Hb Hl Hi. apply pwp_bind. eapply pwp_mono; [by apply Hc|]. cbn beta. intros a s1 (B1 & L1 & O1).
  eapply pwp_mono; [apply Hk; [done|done|by eapply stable]|]. cbn beta. intros b s2 (B2 & L2 & O2).
  split; [done|]. split; [done|]. by eapply overtaken_trans.
Qed.

Lemma tame_same {A} I (c : PM A) :
  (forall s, pwp c s (fun _ s' => same_core s.2 s'.2 /\ transparentOn s'.2 = transparentOn s.2 /\
                                (rules s'.2 = true -> rules s.2 = true))) -> Tame I c.
Proof.
  intros H s Hb Hl _. eapply pwp_mono; [apply H|]. cbn beta. intros a [d m'] (H1 & H2 & H3). cbn [snd] in *.
  destruct (same_safe d s.2 m' Hb H1 H2 H3) as (G1 & G2 & G3). auto.
Qed.

#[local] Instance tame_outside {A} I (f : nat -> A) : Tame I (pm_outside f).
Proof. apply tame_same. intros s. unfold pwp, pm_outside. cbn. by split. Qed.

#[local] Instance tame_db {A} I (c : DB A) : Tame I (pm_db c).
Proof. apply tame_same. intros s. apply pwp_db. intros r d. cbn. by split. Qed.

#[local] Instance tame_hook I b stage : Tame I (pm_hook b stage).
Proof. apply tame_same. intros s. apply pwp_hook. intros e m' H1 H2 H3. cbn. split; [done|]. by rewrite H2, H3. Qed.

#[local] Instance tame_delete I : Tame I deleteTransparentProxyRules.
Proof. apply tame_same. intros s. apply pwp_delete. cbn [snd]. intros m' H1 H2 H3. by rewrite H2, H3. Qed.

#[local] Instance tame_delete_rules I : Tame I deleteTransparentProxyRulesKeepSystemProxy.
Proof. apply tame_same. intros s. by split. Qed.

#[local] Instance tame_restore I : Tame I restoreSystemProxy.
Proof. apply tame_same. intros s. apply pwp_restore. cbn [snd]. intros e m' H1 H2 H3. by rewrite H2, H3. Qed.

#[local] Instance tame_recover I x : Tame I (RecoverHostState x).
Proof.
  unfold RecoverHostState. intros s Hb Hl _. revert s Hb Hl.
  enough (H : Tame (fun _ => True) (RecoverHostState x)) by (intros s Hb Hl; by apply H).
  unfold RecoverHostState. apply tame_bind; [apply _..|]. intros err. apply tame_bind; [apply _| |].
  - apply tame_same. intros s. unfold pwp, pm_mod. cbn [fst snd]. by destruct (lite && _).
  - intros _. destruct (String.eqb _ _); apply _.
Qed.

#[local] Instance tame_unlocked I : Tame I pm_unlocked.
Proof. intros s Hb Hl _. by apply pwp_unlocked. Qed.

#[local] Instance tame_then I `{!Stable I} (c k : PM (option error)) : Tame I c -> Tame I k -> Tame I (pm_then c k).
Proof. intros Hc Hk. unfold pm_then. apply tame_bind; [done|done|]. intros [e|]; [apply _|done]. Qed.

#[local] Instance tame_owner I `{!Stable I} p g : Tame I (checkProcessOwner p g).
Proof. unfold checkProcessOwner. apply _. Qed.

(** Only the owner of the running core changes the host. *)
Lemma tame_mutateHost I `{!Stable I} p g c :
  (forall s, m_p s.2 = Some p -> bound s.2 -> reload_ok s.2 -> I s.2 ->
     pwp c s (fun _ s' => bound s'.2 /\ reload_ok s'.2 /\ overtaken s.2 s'.2)) -> Tame I (mutateHost p g c).
Proof.
  intros Hc. unfold mutateHost. apply tame_bind; [done|apply _|]. intros _ s Hb Hl Hi.
  apply pwp_bind. unfold pwp at 1, pm_get. cbn [fst snd]. destruct (ownsProcessLocked s.2 p g) eqn:Ho; cbn [negb].
  - apply owns_spec in Ho as [Ho _]. apply pwp_bind. eapply pwp_mono; [by apply Hc|]. cbn beta. intros err s1 (B1 & L1 & O1).
    eapply pwp_mono; [apply (tame (I := I)); [done|done|by eapply stable]|]. cbn beta.
    intros r s2 (B2 & L2 & O2). split; [done|]. split; [done|]. by eapply overtaken_trans.
  - by apply (tame (I := fun _ => True)).
Qed.

#[local] Instance tame_mutateHost_tame I `{!Stable I} p g c : Tame I c -> Tame I (mutateHost p g c).
Proof. intros Hc. apply tame_mutateHost; [done|]. intros s _ Hb Hl Hi. by apply Hc. Qed.

Lemma tame_mutateHost_write setting p g :
  Tame (intercepting p)
    (mutateHost p g (pm! _ := pm_mod (fun m => set_transparent m true) in writeTransparentProxyRules setting)).
Proof.
  apply tame_mutateHost; [apply _|]. intros s Hp Hb Hl (x & Hx & Hi).
  eapply pwp_mono; [by eapply pwp_write|]. cbn beta. intros _ s' (H1 & H2 & H3). auto.
Qed.

#[local] Instance tame_fill I p (d : Setting) :
  Tame I (pm_mod (fun m => match setting_of_process m p with Some x => set_setting m p (FillEmpty x d) | None => m end)).
Proof.
  intros s Hb Hl _. unfold pwp, pm_mod. cbn [fst snd]. destruct (fill_bound s.2 p d Hb) as [H1 H2]. split; [done|].
  destruct (setting_of_process s.2 p); (split; [exact Hl|split; auto; exact H2]).
Qed.

#[local] Instance tame_setup p g : Tame (fun _ => True) (setupTransparentProxy p g).
Proof.
  unfold setupTransparentProxy. apply tame_bind; [apply _..|]. intros d. apply tame_bind; [apply _..|]. intros _.
  intros s Hb Hl _. apply pwp_bind. unfold pwp at 1, pm_get. cbn [fst snd].
  destruct (setting_of_process s.2 p) as [x|] eqn:Hx; [|by apply (tame (I := fun _ => True))].
  destruct (IsTransparentOn x) eqn:Hi; [|by apply (tame (I := fun _ => True))].
  assert (Hi' : intercepting p s.2) by (exists x; split; [done|by apply IsTransparentOn_installable]).
  pose proof (tame_mutateHost_write x p g) as Hw. by apply (tame (I := intercepting p)).
Qed.

#[local] Instance tame_monitor p g : Tame (fun _ => True) (startConnectivityMonitor p g).
Proof.
  unfold startConnectivityMonitor. apply tame_bind; [apply _..|]. intros m.
  destruct (setting_of_process m p) as [x|]; [|apply _]. destruct (negb (IsTransparentOn x) || _); [apply _|].
  apply tame_bind; [apply _..|]. intros _. apply tame_same. intros s. unfold pwp, pm_mod. cbn [fst snd].
  destruct (testing s.2 || _); by split.
Qed.

#[local] Instance tame_afterStart p g retained : Tame (fun _ => True) (afterStart p g retained).
Proof. unfold afterStart. destruct retained; apply _. Qed.

(** ** The connectivity monitor *)

#[local] Instance tame_mark p g b : Tame (fun _ => True) (mark_paused p g b).
Proof.
  unfold mark_paused. apply tame_bind; [apply _..|]. intros _. apply tame_bind; [apply _..|]. intros m.
  destruct (_ && _); [|apply _]. apply tame_bind; [apply _| |apply _]. apply tame_same. intros s. by split.
Qed.

#[local] Instance tame_dead x : Tame (fun _ => True) (tunDataPathDead x).
Proof. unfold tunDataPathDead. destruct (String.eqb _ _); apply _. Qed.

#[local] Instance tame_sync p g : Tame (fun _ => True) (syncConnectivityState p g).
Proof.
  unfold syncConnectivityState. apply tame_bind; [apply _..|]. intros _. apply tame_bind; [apply _..|]. intros m.
  destruct (setting_of_process m p) as [x|]; [|apply _]. destruct (negb _ || _); [apply _|]. destruct (_ || _); [apply _|].
  apply tame_bind; [apply _..|]. intros dead. apply tame_bind; [apply _|destruct dead; apply _|]. intros healthy.
  apply tame_bind; [apply _..|]. intros err. destruct (is_some err); [apply _|]. destruct (negb healthy).
  - destruct (networkPaused m); [apply _|]. apply tame_bind; [apply _..|]. intros err2. destruct (is_some err2); apply _.
  - destruct (negb (networkPaused m)); [apply _|]. apply tame_bind; [apply _..|]. intros err2. destruct (is_some err2); apply _.
Qed.

(** A turn of the monitor leaves the manager as it must be. *)
Lemma monitor_keeps_idle p g n s : idle s.2 -> idle (connectivity_turn p g n s).2.2.
Proof.
  intros (Hb & Hr & Hn). assert (Ht : Tame (fun _ => True) (connectivity_turn p g n)).
  { unfold connectivity_turn. apply tame_bind; [apply _..|]. intros [stop healthy]. apply _. }
  destruct (Ht s Hb (reload_not_retaining _ Hr) I) as (B1 & _ & [_ _ O3 O4 _]). split; [done|]. split.
  - apply not_true_iff_false. intros H. apply O3 in H. congruence.
  - rewrite Hn in O4. by destruct O4.
Qed.

(** The delays double up to the largest. *)
Lemma backoff_spec n delay : 0 < delay <= connectivityBackoffMax ->
  backoff n delay = Z.min (delay * 2 ^ Z.of_nat n) connectivityBackoffMax.
Proof.
  revert delay. induction n as [|n IH]; intros delay Hd.
  { cbn [backoff]. change (2 ^ Z.of_nat 0) with 1. lia. }
  cbn [backoff]. rewrite Nat2Z.inj_succ, Z.pow_succ_r by lia. pose proof (Z.pow_pos_nonneg 2 (Z.of_nat n) ltac:(lia) ltac:(lia)).
  destruct (Z.leb_spec connectivityBackoffMax (delay * 2)); [|rewrite IH by lia; f_equal; lia]. nia.
Qed.

Lemma backoff_delay n : (1 <= n)%nat ->
  connectivityBackoffDelay n = Z.min (connectivityBackoffBase * 2 ^ Z.of_nat (n - 1)) connectivityBackoffMax.
Proof.
  intros Hn. unfold connectivityBackoffDelay. rewrite backoff_spec by (by vm_compute). by rewrite Nat.sub_1_r.
Qed.

(** ** A start *)

(** A start of [p] is under way: its core runs, or it exited and nothing took its
    place; without a reload nothing is kept. *)
Record under_way (p : nat) (g : Z) (retained : bool) (m : manager) : Prop := {
  uw_bound : bound m;
  uw_reload : reload_ok m;
  uw_p : m_p m = Some p \/ m_p m = None;
  uw_generation : generation m = g;
  uw_fresh : retained = false -> retainingInterception m = false /\ retainedSetting m = None;
}.

(** It is over: nothing is kept any more. *)
Record over (retained : bool) (m : manager) : Prop := {
  over_bound : bound m;
  over_retained : retainedSetting m = None;
  over_fresh : retained = false -> retainingInterception m = false;
}.

Lemma tame_under_way {A} (c : PM A) p g retained s : Tame (fun _ => True) c -> under_way p g retained s.2 ->
  pwp c s (fun _ s' => under_way p g retained s'.2).
Proof.
  intros Hc [H1 H2 H3 H4 H5]. eapply pwp_mono; [by apply Hc|]. cbn beta. intros _ s' (B1 & L1 & [O1 O2 O3 O4 O5]).
  split; [done|done| |congruence|].
  - destruct O2 as [->|?]; auto.
  - intros Hr. destruct (H5 Hr) as [Hf Hn]. split.
    + destruct (retainingInterception s'.2); [|done]. by rewrite O3 in Hf.
    + rewrite Hn in O4. by destruct O4.
Qed.

Lemma under_way_over p g m : under_way p g false m -> over false m.
Proof. intros [H1 _ _ _ H5]. destruct (H5 eq_refl). by split. Qed.

(** The retained rules are removed when a reload fails. *)
Lemma pwp_cleanup_over retained p g s : under_way p g retained s.2 -> m_p s.2 = None ->
  pwp (if retained then cleanupRetainedInterceptionLocked else pm_ret tt) s (fun _ s' => over retained s'.2 /\ m_p s'.2 = None).
Proof.
  intros Hu Hp. destruct retained; [|split; [by eapply under_way_over|done]].
  apply pwp_cleanup; [apply Hu|done|]. intros m' H1 H2 H3 H4 H5 H6 _. by split.
Qed.

Lemma stopped_under_way p g retained m m' : under_way p g retained m -> stopped m m' -> bound m' ->
  (retainingInterception m = false /\ is_Some (m_p m) \/ retainedSetting m = None -> clear m') -> under_way p g retained m'.
Proof.
  intros [H1 H2 H3 H4 H5] Hs Hb Hc. pose proof Hs as [S1 S2 S3 S4 S5]. split; [done| |by right|congruence|].
  - by eapply stopped_reload.
  - intros Hr. rewrite S3, S4. auto.
Qed.

Lemma pwp_stop_under_way p g retained b s : under_way p g retained s.2 ->
  pwp (stop b) s (fun _ s' => under_way p g retained s'.2 /\ m_p s'.2 = None).
Proof.
  intros Hu. apply pwp_stop; [apply Hu|apply Hu|]. intros s' B S C.
  split; [by eapply stopped_under_way|apply S].
Qed.

(** A start that fails leaves nothing behind. *)
Lemma pwp_abort p g retained err s : under_way p g retained s.2 ->
  pwp (abort_start p g retained err) s (fun r s' => over retained s'.2 /\ m_p s'.2 = None /\ r <> None).
Proof.
  intros Hu. unfold abort_start. apply pwp_bind. eapply pwp_mono; [by apply tame_under_way; [apply _|]|].
  clear s Hu. cbn beta. intros _ s Hu. apply pwp_bind. unfold pwp at 1, pm_get. cbn [fst snd]. apply pwp_bind.
  apply (pwp_mono _ _ (fun r s' => under_way p g retained s'.2 /\ m_p s'.2 = None /\ r <> None)).
  2:{ intros r s1 (Hu1 & Hp1 & Hr). apply pwp_bind. eapply pwp_mono; [by eapply pwp_cleanup_over|]. cbn beta.
      intros _ s2 [H1 H2]. unfold pwp, pm_ret. auto. }
  destruct (ownsProcessLocked s.2 p g) eqn:Ho.
  - apply pwp_bind. eapply pwp_mono; [by apply pwp_stop_under_way|]. cbn beta. intros _ s1 [Hu1 Hp1].
    apply pwp_bind, pwp_db. intros r d. unfold pwp, pm_ret. auto.
  - assert (Hn : m_p s.2 = None).
    { destruct (uw_p _ _ _ _ Hu) as [H|]; [|done]. apply not_true_iff_false in Ho. destruct Ho.
      apply owns_spec. split; [done|apply Hu]. }
    destruct (_ && _ && _); [|unfold pwp, pm_ret; auto].
    assert (Hk : forall A (c : PM A) s, Tame (fun _ => True) c -> under_way p g retained s.2 /\ m_p s.2 = None ->
      pwp c s (fun _ s' => under_way p g retained s'.2 /\ m_p s'.2 = None)).
    { clear s Hu Ho Hn. intros A c s Hc [Hu Hn]. unfold pwp. split; [by apply tame_under_way|].
      destruct (Hc s) as (_ & _ & [_ H _ _ _]); [apply Hu|apply Hu|done|]. rewrite Hn in H. by destruct H. }
    apply pwp_bind. eapply pwp_mono; [by apply Hk; [apply _|]|]. cbn beta. intros r s1 H1.
    destruct r as [[x|]|e]; [|unfold pwp, pm_ret; naive_solver..].
    apply pwp_bind. eapply pwp_mono; [by apply Hk; [apply _|]|]. cbn beta. intros [e|] s2 H2; [unfold pwp, pm_ret; naive_solver|].
    apply pwp_bind, pwp_db. intros r d. unfold pwp, pm_ret. naive_solver.
Qed.

(** The marker of a start that has not ended. *)
Definition marker (d : database) : option doc := t_system_config (db_tables d) !! "system:hostState"%string.

Lemma pwp_clear_marker s (Q : result unit -> database * manager -> Prop) :
  (forall e d, Q (Err e) (d, s.2)) -> (forall d, marker d = None -> Q (Ok tt) (d, s.2)) ->
  pwp (pm_db (SetHostState None)) s Q.
Proof.
  intros He Hk. unfold pwp, pm_db, SetHostState, db_Delete, exec, stmt.
  destruct (pop_fault s.1) as [[e|] d]; cbn [fst snd]; [apply He|]. apply Hk. unfold marker. cbn.
  apply lookup_delete_eq.
Qed.

(** A start that succeeds has its core running. *)
Lemma pwp_commit p g retained s : under_way p g retained s.2 ->
  pwp (commit p g) s (fun r s' => match r with
                                  | None => over retained s'.2 /\ m_p s'.2 = Some p /\ generation s'.2 = g /\ marker s'.1 = None
                                  | Some _ => under_way p g retained s'.2
                                  end).
Proof.
  intros Hu. unfold commit. apply pwp_bind. eapply pwp_mono; [by apply tame_under_way; [apply _|]|].
  clear s Hu. cbn beta. intros _ s Hu. apply pwp_bind. unfold pwp at 1, pm_get. cbn [fst snd].
  destruct (ownsProcessLocked s.2 p g) eqn:Ho; cbn [negb]; [|done]. apply owns_spec in Ho as [Ho Hg].
  apply pwp_bind, pwp_db. intros r1 d1. apply pwp_bind. unfold pwp at 1, pm_ret. destruct r1 as [[]|e1]; cbn [fst err_of]; [|done].
  apply pwp_bind, pwp_db. intros r2 d2. apply pwp_bind. unfold pwp at 1, pm_ret. destruct r2 as [[]|e2]; cbn [fst err_of]; [|done].
  apply pwp_bind, pwp_clear_marker; [done|]. intros d3 Hd3. apply pwp_bind. unfold pwp at 1, pm_ret. cbn [fst err_of].
  unfold pwp, pm_bind, pm_mod, pm_ret. cbn [fst snd]. split; [|done].
  destruct Hu as [[B1 B2 B3 B4 B5] _ _ _ H5]. split; [|done|].
  - split; cbn; try done. intros Ht. specialize (B2 Ht). rewrite Ho in *. done.
  - intros Hr. by apply H5.
Qed.

(** What a new process changes. *)
Record entered (p : nat) (t : Template) (m m' : manager) : Prop := {
  en_p : m_p m' = m_p m;
  en_generation : generation m' = generation m;
  en_retaining : retainingInterception m' = retainingInterception m;
  en_retained : retainedSetting m' = retainedSetting m;
  en_transparent : transparentOn m' = transparentOn m;
  en_rules : rules m' = rules m;
  en_new : setting_of_process m' p = Some (tp_Setting t);
  en_old : forall q, q <> p -> setting_of_process m' q = setting_of_process m q;
}.

Lemma enter_entered p t o c e m m1 :
  same_core m m1 -> transparentOn m1 = transparentOn m -> rules m1 = rules m ->
  entered p t m (set_procs m1 (<[p := mkProcess t o c e]> (procs m1))).
Proof.
  intros Hs Ht Hr. pose proof Hs as [S1 S2 S3 S4 S5].
  split; try (cbn; congruence); unfold setting_of_process, template_of; cbn.
  - by rewrite lookup_insert_eq.
  - intros q Hq. rewrite lookup_insert_ne by done. by rewrite S5.
Qed.

Lemma pwp_NewProcess t s : pwp (NewProcess t) s (fun r s' => entered r.1 t s.2 s'.2).
Proof.
  unfold NewProcess. set (p := ticks s.2). apply pwp_bind. unfold pwp at 1, pm_outside. cbn [fst snd]. fold p.
  apply pwp_bind. unfold pwp at 1, pm_outside. cbn [fst snd].
  destruct (write_config _) as [e1|]; [by apply enter_entered|].
  apply pwp_bind. unfold pwp at 1, pm_outside. cbn [fst snd].
  destruct (ports_occupied _) as [e2|]; [by apply enter_entered|].
  apply pwp_bind, pwp_hook. cbn [fst snd]. intros e m1 H1 H2 H3.
  assert (H : same_core s.2 m1) by (destruct H1; by split).
  destruct e as [e|]; [by apply enter_entered|].
  apply pwp_bind. unfold pwp at 1, pm_outside. cbn [fst snd].
  assert (H' : same_core s.2 (tick_of m1)) by (destruct H; by split).
  destruct (start_core _) as [e3|]; [by apply enter_entered|].
  apply enter_entered; [|done..]. destruct H'. by split.
Qed.

Lemma canRetain_spec before after : canRetainInterception before after = true ->
  before = Some after /\ installable after.
Proof.
  unfold canRetainInterception. destruct before as [x|]; [|done]. rewrite !andb_true_iff, bool_decide_eq_true.
  intros [[[[-> H] _] _] _]. split; [done|by apply IsTransparentOn_installable].
Qed.

Lemma no_rules_without_core m : bound m -> m_p m = None -> retainedSetting m = None -> transparentOn m = false.
Proof.
  intros Hb Hp Hr. destruct (transparentOn m) eqn:Ht; [|done]. pose proof (record_bound _ Hb Ht) as H.
  rewrite Hp, Hr in H. by destruct H.
Qed.

(** A process that was entered is not yet the one of the manager. *)
Lemma under_way_entered p g t retained m m' : under_way p g retained m -> m_p m = None -> entered p t m m' ->
  Transparent (tp_Setting t) <> ""%string -> under_way p g retained m'.
Proof.
  intros [[B1 B2 B3 B4 B5] H2 _ H4 H5] Hp [E1 E2 E3 E4 E5 E6 E7 E8] Ht. split.
  - split; rewrite ?E1, ?E4, ?E5, ?E6; try done.
    + intros H. specialize (B2 H). by rewrite Hp in *.
    + by rewrite Hp.
    + intros q x. destruct (decide (q = p)) as [->|Hq]; [rewrite E7; by intros [= <-]|rewrite E8 by done; apply B5].
  - unfold reload_ok. rewrite E1, E3, E4, E5. exact H2.
  - right. by rewrite E1.
  - congruence.
  - rewrite E3, E4. exact H5.
Qed.

(** The new process becomes the one of the manager. *)
Lemma under_way_started p g t retained m m' : under_way p g retained m -> m_p m = None -> entered p t m m' ->
  Transparent (tp_Setting t) <> ""%string ->
  (retained = true -> is_Some (retainedSetting m) /\ installable (tp_Setting t)) ->
  under_way p g retained (set_p m' (Some p)).
Proof.
  intros Hu Hp He Ht Hi. pose proof (under_way_entered _ _ _ _ _ _ Hu Hp He Ht) as [[B1 B2 B3 B4 B5] H2 _ H4 H5].
  pose proof He as [E1 E2 E3 E4 E5 E6 E7 E8]. split.
  - split; try done.
    + intros Hon. change (transparentOn m' = true) in Hon. exists (tp_Setting t). split; [done|]. apply Hi. destruct retained; [done|].
      destruct (H5 eq_refl) as [_ Hn]. rewrite (no_rules_without_core m') in Hon; [done|by split|congruence|done].
    + intros q [= <-]. change (is_Some (setting_of_process m' p)). by rewrite E7.
  - intros Hr. left. destruct retained; [|destruct (H5 eq_refl); cbn in Hr; congruence].
    cbn. rewrite E4. by apply Hi.
  - by left.
  - done.
  - done.
Qed.

#[local] Instance tame_recover_pending I `{!Stable I} : Tame I recover_pending.
Proof. unfold recover_pending. apply tame_bind; [apply _..|]. intros [[x|]|e]; apply _. Qed.

(** What a start decides to keep is what the running core was set up with. *)
Record retention (t : Template) (retained : bool) (m : manager) : Prop := {
  rt_bound : bound m;
  rt_reload : reload_ok m;
  rt_kept : retained = true -> is_Some (retainedSetting m) /\ installable (tp_Setting t);
  rt_fresh : retained = false -> retainingInterception m = false /\ retainedSetting m = None;
}.

Lemma pwp_retain t preserve s : bound s.2 -> retainedSetting s.2 = None ->
  pwp (retain t preserve) s (fun r s' => retention t r s'.2 /\ (preserve = false -> r = false)).
Proof.
  intros Hb Hn. unfold retain. apply pwp_bind. unfold pwp at 1, pm_get. cbn [fst snd].
  set (previous := match m_p s.2 with Some p => _ | None => _ end). set (retained := preserve && _ && _ && _).
  assert (Hpre : preserve = false -> retained = false) by (unfold retained; by intros ->).
  destruct retained eqn:Hr.
  - unfold retained in Hr. rewrite !andb_true_iff in Hr. destruct Hr as [_ H]. apply canRetain_spec in H as [Hp Hi].
    unfold pwp, pm_bind, pm_mod, pm_ret. cbn [fst snd]. split; [|done]. rewrite Hp.
    split; [|by left|done|done]. destruct Hb as [C1 C2 C3 C4 C5]. split; cbn; try done.
    + intros H. specialize (C2 H). unfold previous in Hp. destruct (m_p s.2); [done|congruence].
    + by intros x [= <-].
  - unfold pwp, pm_bind, pm_mod, pm_ret. cbn [fst snd]. split; [|done]. split; [|done|done|done]. destruct Hb. by split.
Qed.

(** Stopping the old core and starting the new one. *)
Lemma pwp_launch t retained s : retention t retained s.2 -> Transparent (tp_Setting t) <> ""%string ->
  pwp (launch t retained) s (fun r s' =>
    match r with
    | inl _ => over retained s'.2 /\ m_p s'.2 = None
    | inr (p, g, _) => under_way p g retained s'.2
    end).
Proof.
  intros [Hb Hl Hk Hf] Ht. unfold launch. apply pwp_bind, pwp_stop; [done|done|]. intros s1 B1 S1 C1.
  pose proof S1 as [P1 P2 P3 P4 P5]. apply pwp_bind.
  set (J1 := fun m => bound m /\ reload_ok m /\ m_p m = None /\
    (retained = true -> is_Some (retainedSetting m) /\ installable (tp_Setting t)) /\
    (retained = false -> retainingInterception m = false /\ retainedSetting m = None)).
  assert (H1 : J1 s1.2).
  { split; [done|]. split; [by eapply stopped_reload|]. rewrite P3, P4. auto. }
  apply (pwp_mono _ _ (fun _ s' => J1 s'.2)).
  { destruct retained; [done|]. destruct H1 as (G1 & G2 & G3 & G4 & G5).
    eapply pwp_mono; [by apply (tame (I := fun _ => True))|]. cbn beta. intros _ s2 (T1 & T2 & [O1 O2 O3 O4 O5]).
    destruct (G5 eq_refl) as [F1 F2]. split; [done|]. split; [done|]. split; [rewrite G3 in O2; by destruct O2|].
    split; [done|]. intros _. split; [|rewrite F2 in O4; by destruct O4].
    destruct (retainingInterception s2.2); [|done]. by rewrite O3 in F1. }
  clear s1 B1 S1 C1 P1 P2 P3 P4 P5 H1. intros _ s1 (G1 & G2 & G3 & G4 & G5).
  apply pwp_bind. unfold pwp at 1, pm_mod. cbn [fst snd]. apply pwp_bind. unfold pwp at 1, pm_get. cbn [fst snd].
  set (g := generation _). set (m2 := set_generation _ _).
  assert (Hu : forall p, under_way p g retained m2).
  { intros p. split; [destruct G1; by split|done|by right|done|done]. }
  apply pwp_bind. eapply pwp_mono; [apply pwp_NewProcess|]. cbn beta. cbn [snd]. intros [p err] s3 H3. cbn [fst] in H3.
  pose proof (under_way_started _ _ _ _ _ _ (Hu p) G3 H3 Ht G4) as Hs. destruct err as [err|].
  - apply pwp_bind.
    pose proof (under_way_entered _ _ _ _ _ _ (Hu p) G3 H3 Ht) as Hu3.
    eapply pwp_mono; [eapply pwp_cleanup_over; [done|by rewrite (en_p _ _ _ _ H3)]|]. cbn beta. intros _ s4 H4. exact H4.
  - apply pwp_bind. unfold pwp at 1, pm_mod. cbn [fst snd]. apply pwp_bind, pwp_db. intros r d. exact Hs.
Qed.

Lemma pwp_start_main t preserve s : idle s.2 -> Transparent (tp_Setting t) <> ""%string ->
  pwp (start_main t preserve) s (fun r s' =>
    over preserve s'.2 /\
    match r with
    | None => is_Some (m_p s'.2) /\ marker s'.1 = None
    | Some _ => m_p s'.2 = None
    end).
Proof.
  intros (Hb & Hr & Hn) Ht. unfold start_main. apply pwp_bind, pwp_unlocked; [done|by apply reload_not_retaining|].
  intros s1 B1 _ [_ _ _ O4 _]. apply pwp_bind. eapply pwp_mono.
  { apply pwp_retain; [done|]. rewrite Hn in O4. by destruct O4. }
  cbn beta. intros retained s2 [R2 Hpre]. assert (Hover : forall m, over retained m -> over preserve m).
  { intros m [V1 V2 V3]. split; auto. }
  clear s1 B1 O4. apply pwp_bind. eapply pwp_mono; [by apply pwp_launch|]. cbn beta.
  intros [err|[[p g] err]] s3 H3; [destruct H3 as [H3 Hp]; split; [by apply Hover|done]|].
  apply pwp_bind. apply (pwp_mono _ _ (fun r s' => match r with
    | None => over retained s'.2 /\ m_p s'.2 = Some p /\ generation s'.2 = g /\ marker s'.1 = None
    | Some _ => under_way p g retained s'.2
    end)).
  - apply pwp_bind. unfold pwp at 1, pm_ret. cbn [fst snd]. destruct err as [err|]; [done|].
    apply pwp_bind. eapply pwp_mono; [by apply tame_under_way; [apply _|]|]. cbn beta. intros [err|] s4 H4; [done|].
    by apply pwp_commit.
  - intros [err'|] s4 H4.
    + eapply pwp_mono; [by apply pwp_abort|]. cbn beta. intros [r|] s5 (V1 & V2 & V3); [|done]. auto.
    + destruct H4 as (V1 & V2 & _ & V3). split; [by apply Hover|]. split; [by eexists|done].
Qed.

(** No core exits between the last release of the lock and the reset of
    [retainingInterception]. *)
Definition quiet_end (t : Template) (preserve : bool) (s : database * manager) : Prop :=
  Forall (fun e => is_crash e = false) (others (ticks (start_main t preserve s).2.2)).

Lemma pwp_start t preserve s : idle s.2 -> Transparent (tp_Setting t) <> ""%string ->
  preserve = false \/ quiet_end t preserve s -> pwp (start t preserve) s (fun _ s' => idle s'.2).
Proof.
  intros Hi Ht Hq. unfold start. destruct (_ && _); [done|]. apply pwp_bind.
  pose proof (pwp_start_main t preserve s Hi Ht) as [[V1 V2 V3] _]. unfold quiet_end in Hq. unfold pwp at 1.
  destruct (start_main t preserve s) as [err s1]. cbn [fst snd] in *. apply pwp_bind. unfold pm_unlocked. apply pwp_bind.
  unfold pwp at 1, pm_outside. cbn [fst snd]. eapply pwp_mono.
  { apply pwp_events; [by apply tick_bound|]. destruct Hq as [Hq|Hq]; [right|by left].
    apply reload_not_retaining. cbn. by apply V3. }
  cbn beta. cbn [snd]. intros _ s2 ([B1 B2 B3 B4 B5] & _ & [_ _ _ O4 _]). cbn in O4. rewrite V2 in O4.
  unfold pwp, pm_bind, pm_mod, pm_ret. cbn [fst snd]. split; [by split|]. split; [done|]. cbn. by destruct O4.
Qed.

(** The rules in the host are those of a core that runs, with a setting that
    intercepts. *)
Definition core_behind (m : manager) : Prop :=
  rules m = true -> exists p x, m_p m = Some p /\ setting_of_process m p = Some x /\ installable x.

Lemma bound_core_behind m : bound m -> retainedSetting m = None -> core_behind m.
Proof.
  intros Hb Hn Hr. pose proof (record_bound _ Hb (rules_recorded _ Hb Hr)) as H. rewrite Hn in H.
  destruct (m_p m) as [p|]; [|by destruct H]. destruct H as (x & H1 & H2). eauto.
Qed.

(** C3. Packets are intercepted only while a core runs, after a start or a reload
    from a manager that is ready for one, with a template whose setting says
    whether packets are intercepted.  Whatever the hooks, the core and the database
    answer, and whatever the other goroutines do each time the lock is free (the core
    exits, the user stops it, the monitor takes the rules down and puts them back): when
    the lock is released for the last time, the rules in the host are those of a core that
    runs, with a setting that intercepts.  The same holds once the call has returned, and the
    manager is ready for the next start, except after a reload that may keep the rules
    ([preserve]) if a core exits between that release and the reset of the
    flag of the reload; [late_exit_leaves_rules] shows that the rules then stay without a core. *)
Theorem interception_needs_core t preserve s :
  idle s.2 -> Transparent (tp_Setting t) <> ""%string ->
  core_behind (start_main t preserve s).2.2 /\
  (preserve = false \/ quiet_end t preserve s ->
   idle (start t preserve s).2.2 /\ core_behind (start t preserve s).2.2).
Proof.
  intros Hi Ht. split.
  - pose proof (pwp_start_main t preserve s Hi Ht) as [[V1 V2 V3] _]. by apply bound_core_behind.
  - intros Hq. pose proof (pwp_start t preserve s Hi Ht Hq) as H. split; [exact H|]. by apply bound_core_behind; apply H.
Qed.

(** C26. A start succeeds or leaves nothing behind: at the last release of the
    lock either there is no error, a core runs and the marker of an unfinished start
    is gone from the database, or there is an error, no core runs, the commands that
    undo the rules were run since any were set up, and none are recorded; in both cases
    no setting is kept for a later teardown. *)
Theorem start_all_or_nothing t preserve s :
  idle s.2 -> Transparent (tp_Setting t) <> ""%string ->
  let '(err, s') := start_main t preserve s in
  retainedSetting s'.2 = None /\
  match err with
  | None => is_Some (m_p s'.2) /\ marker s'.1 = None
  | Some _ => m_p s'.2 = None /\ rules s'.2 = false /\ transparentOn s'.2 = false
  end.
Proof.
  intros Hi Ht. pose proof (pwp_start_main t preserve s Hi Ht) as [[V1 V2 V3] H]. unfold pwp in *.
  destruct (start_main t preserve s) as [err s']. cbn [fst snd] in *. split; [done|]. destruct err as [err|]; [|done].
  pose proof (no_rules_without_core _ V1 H V2) as Hoff. split; [done|]. split; [|done].
  destruct (rules s'.2) eqn:Hr; [|done]. rewrite (rules_recorded _ V1 Hr) in Hoff. done.
Qed.

(** The host at the start of the program. *)
Definition fresh_manager : manager :=
  mkManager false None 0 false false false false false None ∅ false false 0.

Lemma fresh_idle : idle fresh_manager.
Proof. split; [|done]. by split. Qed.

End Invariant.

(** ** Concrete runs *)

Import JsonRef CatalogRef AutomationRef.

#[export] Instance json_host_state : GoJson HostState :=
  ok_json (fun h => JObj [("type", JStr (hs_TransparentType h)); ("port", JInt (hs_APIPort h));
                          ("route", JBool (hs_TunAutoRoute h)); ("script", JStr (hs_TunTeardownScript h))]%string)
    (fun d => mkHostState (as_string (field d "type")) (as_int (field d "port")) (as_bool (field d "route"))
                (as_string (field d "script"))).

Definition tproxy_setting : Setting :=
  mkSetting "info" "whitelist" "direct" "none" 0 "none" 0 "default" "no" 8 "http,tls" "proxy" false false false
    TransparentTproxy "docker*" false "" "" "" "" "" "" "" "" true 0 0 0 false false.

(** A core that always comes up, and others that act as given. *)
Definition host_ref (turns : nat -> list event) : HostOutside := {|
  lite := false; core_hook := false; transparent_hook := false; asset_exists := fun _ => true;
  hook := fun _ _ => None; stored_setting := fun _ => tproxy_setting; write_config := fun _ => None;
  ports_occupied := fun _ => None; start_core := fun _ => None; core_ready := fun _ => Ready;
  write_rules := fun _ => None; proxy_snapshot := fun _ => Ok false; restore_proxy := fun _ => None; recover := fun _ _ => None;
  make_template := fun _ _ => Ok (mkTemplate tproxy_setting 10085); api_reachable := fun _ => true;
  tunDeviceAlive := fun _ => true; others := turns;
|}.

Definition tproxy_template : Template := mkTemplate tproxy_setting 10085.
Definition no_store : database := mkDatabase (mkTables [] 0 [] 0 [] ∅) [].

(** A start, then a reload that keeps the rules, with the given turns of the
    others. *)
Definition start_and_reload (turns : nat -> list event) : option error * (database * manager) :=
  let X := host_ref turns in
  let s := (start tproxy_template false (no_store, fresh_manager)).2 in start tproxy_template true s.


(** The core exits before the reload has taken over: the rules that were kept are
    removed. *)
Definition crash_at (n : nat) (k : nat) : list event := if Nat.eqb k n then [EvUnexpectedStop 24] else [].

Lemma interception_needs_core_witness :
  let X := host_ref (crash_at 31) in
  let s := (start tproxy_template false (no_store, fresh_manager)).2 in
  let '(err, s') := start tproxy_template true s in
  rules s.2 = true /\ err <> None /\ rules s'.2 = false /\ idle s'.2.
Proof.
  intros X s.
  assert (Hi : idle s.2).
  { pose proof (interception_needs_core (X := X) tproxy_template false (no_store, fresh_manager) fresh_idle
                  ltac:(by vm_compute)) as [_ H]. by apply H; left. }
  assert (Hq : quiet_end (X := X) tproxy_template true s) by (unfold quiet_end; vm_compute; constructor).
  pose proof (interception_needs_core (X := X) tproxy_template true s Hi ltac:(by vm_compute)) as [_ H].
  destruct (H (or_intror Hq)) as [Hend _].
  assert (Hs : rules s.2 = true) by (vm_compute; reflexivity).
  assert (He : (start tproxy_template true s).1 = Some (owner_error "core process exited or was replaced during startup"))
    by (vm_compute; reflexivity).
  assert (Hr : rules (start tproxy_template true s).2.2 = false) by (vm_compute; reflexivity).
  destruct (start tproxy_template true s) as [err s']. cbn [fst snd] in *.
  split; [exact Hs|]. split; [by rewrite He|]. by split.
Defined.

Lemma start_all_or_nothing_witness :
  let X := host_ref (fun _ => []) in
  let '(err, s') := start_main tproxy_template false (no_store, fresh_manager) in
  err = None /\ is_Some (m_p s'.2) /\ marker s'.1 = None /\ rules s'.2 = true.
Proof.
  intros X. pose proof (start_all_or_nothing (X := X) tproxy_template false (no_store, fresh_manager) fresh_idle
    ltac:(by vm_compute)) as H.
  assert (He : (start_main tproxy_template false (no_store, fresh_manager)).1 = None) by (vm_compute; reflexivity).
  assert (Hr : rules (start_main tproxy_template false (no_store, fresh_manager)).2.2 = true) by (vm_compute; reflexivity).
  destruct (start_main tproxy_template false (no_store, fresh_manager)) as [err s']. cbn [fst snd] in *. subst err.
  destruct H as [_ [H1 H2]]. auto.
Defined.

(** The core exits after the last release of the lock, while the flag of the
    reload is still set: the rules stay in the host without a core, and no later
    [Stop] removes them. *)
Lemma late_exit_leaves_rules :
  let X := host_ref (crash_at 33) in
  let '(err, s') := start_and_reload (crash_at 33) in
  err = None /\ m_p s'.2 = None /\ rules s'.2 = true /\ rules (Stop true s').2.2 = true.
Proof. vm_compute. auto. Qed.
