(* ===== verification/SelectionProps.v ===== *)
(** * Which nodes of a group the core uses

    [applySelection] walks all nodes once with two maps and an array it reuses.
    Its result is the one of a definition that looks at each group on its own. *)

From S2P Require Import Prelude.
From S2P Require Import Store NodeRefs Configure Catalog Automation Settings Process.

#[local] Open Scope Z_scope.

Section Selection.
Context `{O : ServerObjs} `{L : !Links}.
Context (settingOf : string -> OutboundSetting).

Definition in_group (g : string) (info : serverInfo) : bool := String.eqb (snd info) g.
Definition members (g : string) (infos : list serverInfo) : list serverInfo := List.filter (in_group g) infos.

Definition linked (g : string) (info : serverInfo) : bool :=
  String.eqb (ExportToURL (fst info)) (os_Selected (settingOf g)).
Definition printed (g : string) (info : serverInfo) : bool :=
  String.eqb (NodeFingerprint (ExportToURL (fst info))) (StickyCurrent (settingOf g)).

(** The nodes of one group: the one that was pinned, if it is there; otherwise,
    for a group that keeps its current node, that node or none; otherwise all. *)
Definition chosen_of (g : string) (nodes : list serverInfo) : list serverInfo :=
  let setting := settingOf g in
  if negb (String.eqb (os_Selected setting) "") && existsb (linked g) nodes then take 1 (List.filter (linked g) nodes)
  else if String.eqb (os_Type setting) KeepCurrent then
    if String.eqb (StickyCurrent setting) "" then [] else take 1 (List.filter (printed g) nodes)
  else nodes.

(** The second loop with the groups whose choice was already kept. *)
Definition remaining (manual sticky : string -> bool) (kept : list string) (g : string) (nodes : list serverInfo)
    : list serverInfo :=
  let first f := if bool_decide (g ∈ kept) then [] else take 1 (List.filter f nodes) in
  if manual g then first (linked g)
  else if String.eqb (os_Type (settingOf g)) KeepCurrent then first (fun i => sticky g && printed g i)
  else nodes.

Lemma members_cons g n o rest :
  members g ((n, o) :: rest) = if String.eqb o g then (n, o) :: members g rest else members g rest.
Proof. done. Qed.

Lemma remaining_other manual sticky kept g o nodes : o <> g ->
  remaining manual sticky (o :: kept) g nodes = remaining manual sticky kept g nodes.
Proof.
  intros Hne. unfold remaining. by rewrite (bool_decide_ext (g ∈ o :: kept) (g ∈ kept)) by set_solver.
Qed.

(** Nodes of another group change nothing. *)
Lemma keep_selected_other manual sticky kept g n o rest : o <> g ->
  (forall kept, members g (keep_selected settingOf manual sticky kept rest) = remaining manual sticky kept g (members g rest)) ->
  members g (keep_selected settingOf manual sticky kept ((n, o) :: rest)) = remaining manual sticky kept g (members g rest).
Proof.
  intros Hne IH. cbn [keep_selected fst snd].
  assert (Hb : forall b : bool, members g (if b then (n, o) :: keep_selected settingOf manual sticky (o :: kept) rest
                         else keep_selected settingOf manual sticky kept rest) = remaining manual sticky kept g (members g rest)).
  { intros []; [|apply IH]. rewrite members_cons, (proj2 (String.eqb_neq _ _) Hne), IH. by apply remaining_other. }
  destruct (manual o); [apply Hb|]. destruct (String.eqb (os_Type _) KeepCurrent); [apply Hb|].
  rewrite members_cons, (proj2 (String.eqb_neq _ _) Hne). apply IH.
Qed.

Lemma keep_selected_members manual sticky g infos : forall kept,
  members g (keep_selected settingOf manual sticky kept infos) = remaining manual sticky kept g (members g infos).
Proof.
  induction infos as [|[n o] rest IH]; intros kept.
  { unfold remaining. cbn. repeat case_match; done. }
  destruct (decide (o = g)) as [->|Hne].
  2:{ rewrite keep_selected_other by done. rewrite members_cons. by rewrite (proj2 (String.eqb_neq _ _) Hne). }
  assert (Hb : forall (b : bool) f, f (n, g) = b ->
    (forall ks nodes, remaining manual sticky ks g nodes = if bool_decide (g ∈ ks) then [] else take 1 (List.filter f nodes)) ->
    members g (if b && negb (bool_decide (g ∈ kept)) then (n, g) :: keep_selected settingOf manual sticky (g :: kept) rest
               else keep_selected settingOf manual sticky kept rest) =
    remaining manual sticky kept g ((n, g) :: members g rest)).
  { intros b f Hf Hr. rewrite Hr. cbn [List.filter]. rewrite Hf. destruct b; cbn [andb]; [|by rewrite IH, Hr].
    destruct (bool_decide_reflect (g ∈ kept)) as [Hk|Hk]; cbn [negb].
    - rewrite IH, Hr. by rewrite bool_decide_eq_true_2.
    - rewrite members_cons, String.eqb_refl, IH, Hr. by rewrite bool_decide_eq_true_2 by set_solver. }
  rewrite members_cons, String.eqb_refl. cbn [keep_selected fst snd].
  destruct (manual g) eqn:Hm.
  { apply (Hb _ (linked g)); [done|]. intros ks nodes. unfold remaining. by rewrite Hm. }
  destruct (String.eqb (os_Type (settingOf g)) KeepCurrent) eqn:Hk.
  { apply (Hb _ (fun i => sticky g && printed g i)); [done|]. intros ks nodes. unfold remaining. by rewrite Hm, Hk. }
  rewrite members_cons, String.eqb_refl, IH. unfold remaining. by rewrite Hm, Hk.
Qed.

Lemma existsb_members g f infos :
  existsb (fun i => in_group g i && f i) infos = existsb f (members g infos).
Proof.
  unfold members. induction infos as [|i rest IH]; [done|]. cbn [existsb List.filter]. rewrite IH.
  by destruct (in_group g i).
Qed.

Lemma existsb_in_group g f f' infos : (forall i, in_group g i = true -> f i = f' i) ->
  existsb (fun i => in_group g i && f i) infos = existsb f' (members g infos).
Proof.
  intros H. rewrite <-existsb_members. induction infos as [|i rest IH]; [done|]. cbn [existsb]. rewrite IH.
  specialize (H i). destruct (in_group g i); [by rewrite H|done].
Qed.

Lemma matched_manual g infos : matched (manual_match settingOf) infos g =
  negb (String.eqb (os_Selected (settingOf g)) "") && existsb (linked g) (members g infos).
Proof.
  transitivity (existsb (fun i => negb (String.eqb (os_Selected (settingOf g)) "") && linked g i) (members g infos)).
  - apply existsb_in_group. intros i Hi. apply String.eqb_eq in Hi. unfold manual_match, linked. by rewrite Hi.
  - generalize (members g infos). intros l. destruct (negb _); [done|]. by induction l.
Qed.

Lemma matched_sticky g infos : String.eqb (os_Type (settingOf g)) KeepCurrent = true ->
  matched (sticky_match settingOf) infos g =
  negb (String.eqb (StickyCurrent (settingOf g)) "") && existsb (printed g) (members g infos).
Proof.
  intros Hk.
  transitivity (existsb (fun i => negb (String.eqb (StickyCurrent (settingOf g)) "") && printed g i) (members g infos)).
  - apply existsb_in_group. intros i Hi. apply String.eqb_eq in Hi. unfold sticky_match, printed. by rewrite Hi, Hk.
  - generalize (members g infos). intros l. destruct (negb _); [done|]. by induction l.
Qed.

Lemma filter_no_match {A} (f : A -> bool) l : existsb f l = false -> List.filter f l = [].
Proof. induction l as [|x l IH]; [done|]. cbn. destruct (f x); [done|exact IH]. Qed.

Lemma filter_false {A} (l : list A) : List.filter (fun _ => false) l = [].
Proof. by induction l. Qed.

(** The order of the nodes is kept. *)
Lemma keep_selected_sublist manual sticky infos : forall kept,
  keep_selected settingOf manual sticky kept infos `sublist_of` infos.
Proof.
  induction infos as [|[n o] rest IH]; intros kept; [done|]. cbn [keep_selected fst snd].
  assert (Hb : forall b : bool, (if b then (n, o) :: keep_selected settingOf manual sticky (o :: kept) rest
                       else keep_selected settingOf manual sticky kept rest) `sublist_of` (n, o) :: rest).
  { intros []; [apply sublist_skip, IH|apply sublist_cons, IH]. }
  destruct (manual o); [apply Hb|]. destruct (String.eqb (os_Type _) KeepCurrent); [apply Hb|]. apply sublist_skip, IH.
Qed.

(** C27. The single pass over all nodes gives each group what the group
    alone would get: the first node that was pinned by hand, if it is still there;
    otherwise, in a group that keeps its current node, the first node with the kept
    fingerprint, and no node at all when it is missing or none was kept; otherwise
    all of its nodes.  The nodes keep their order. *)
Theorem selection_per_group infos :
  applySelection settingOf infos `sublist_of` infos /\
  forall g, members g (applySelection settingOf infos) = chosen_of g (members g infos).
Proof.
  split; [apply keep_selected_sublist|]. intros g. unfold applySelection. rewrite keep_selected_members.
  unfold remaining, chosen_of. rewrite (bool_decide_eq_false_2 (g ∈ [])) by set_solver. rewrite matched_manual.
  destruct (_ && existsb (linked g) _); [done|].
  destruct (String.eqb (os_Type (settingOf g)) KeepCurrent) eqn:Hk; [|done]. rewrite matched_sticky by done.
  destruct (String.eqb (StickyCurrent (settingOf g)) ""); cbn [negb andb]; [by rewrite filter_false|].
  destruct (existsb (printed g) _) eqn:Hx; cbn [andb]; [done|]. by rewrite filter_false, filter_no_match.
Qed.

End Selection.
