(* ===== verification/Netfilter.v ===== *)
(** * What iptables commands do to the chains

    The documented effect of the commands the program runs, as the laws of a host
    ([NetfilterLaws]), and an analysis of command lists: an abstract state says
    which of the program's chains may exist, where their rules may jump to, and
    which jumps may stand at the head of the other chains.  Running a list keeps
    the host in the abstract state the analysis computes. *)

From S2P Require Import Prelude.
From S2P Require Import NetIP Text Iptables.

#[local] Open Scope string_scope.

(** ** Chains and commands *)

Definition rule := list string.

(** A chain, in the tables of IPv6 or not. *)
Record key := mkKey { k_v6 : bool; k_table : string; k_chain : string }.

#[export] Instance key_eq : EqDecision key.
Proof. solve_decision. Defined.

Definition view := key -> option (list rule).

Definition upd (v : view) (k : key) (x : option (list rule)) : view := fun k' => if decide (k = k') then x else v k'.

Inductive op :=
| OpNew (k : key)
| OpAppend (k : key) (r : rule)
| OpInsert (k : key) (r : rule)
| OpDelete (k : key) (r : rule)
| OpFlush (k : key)
| OpRemove (k : key).

(** The word after [-j]. *)
Fixpoint target (r : rule) : option string :=
  match r with
  | [] => None
  | w :: r' => if String.eqb w "-j" then match r' with [] => None | t :: _ => Some t end else target r'
  end.

Definition is_number (w : string) : bool := free_of (fun a => negb ((48 <=? Ascii.nat_of_ascii a) && (Ascii.nat_of_ascii a <=? 57))%nat) w.

Definition parse_op (v6 : bool) (t : string) (ws : list string) : option op :=
  match ws with
  | c :: chain :: r =>
    let k := mkKey v6 t chain in
    if String.eqb c "-N" then match r with [] => Some (OpNew k) | _ => None end
    else if String.eqb c "-A" then Some (OpAppend k r)
    else if String.eqb c "-I" then
      match r with n :: _ => if is_number n then None else Some (OpInsert k r) | [] => Some (OpInsert k r) end
    else if String.eqb c "-D" then
      match r with n :: _ => if is_number n then None else Some (OpDelete k r) | [] => None end
    else if String.eqb c "-F" then match r with [] => Some (OpFlush k) | _ => None end
    else if String.eqb c "-X" then match r with [] => Some (OpRemove k) | _ => None end
    else None
  | _ => None
  end.

(** [iptables -w 2 -t table ...], with the suffix of the binaries. *)
Definition parse_args (v6 : bool) (args : list string) : option op :=
  match args with
  | w :: n :: tf :: t :: rest =>
    if String.eqb w "-w" && String.eqb n "2" && String.eqb tf "-t" then parse_op v6 t rest else None
  | _ => None
  end.

Definition binary_of (suffix : string) (v6 : bool) : string := (if v6 then "ip6tables" else "iptables") +:+ suffix.

Definition parse (suffix : string) (ws : list string) : option op :=
  match ws with
  | bin :: args =>
    if String.eqb bin (binary_of suffix false) then parse_args false args
    else if String.eqb bin (binary_of suffix true) then parse_args true args
    else None
  | [] => None
  end.

(** ** Words that mean themselves to a shell *)

Definition plain_char (a : Ascii.ascii) : bool :=
  let n := Ascii.nat_of_ascii a in
  ((65 <=? n) && (n <=? 90) || (97 <=? n) && (n <=? 122) || (48 <=? n) && (n <=? 57))%nat ||
  existsb (Ascii.eqb a) ["_"; "."; "/"; ":"; "+"; "-"; "!"]%char.

Definition plain (w : string) : bool := free_of (fun a => negb (plain_char a)) w.

(** Commands on routes, sets and connections; errors may be dropped. *)
Definition quiet_tools : list string := ["ip"; "ipset"; "conntrack"].

Fixpoint quiet_args (ws : list string) : bool :=
  match ws with
  | [] => true
  | w :: ws' => if plain w then quiet_args ws' else bool_decide (ws = ["2>/dev/null"; "||"; "true"])
  end.

Definition quiet (ws : list string) : bool :=
  match ws with
  | bin :: args => existsb (String.eqb bin) quiet_tools && quiet_args args
  | [] => false
  end.

(** ** Effects *)

Definition same (v v' : view) : Prop := forall k, v' k = v k.

Definition becomes (v v' : view) (k : key) (x : option (list rule)) : Prop := same (upd v k x) v'.

Definition unreferenced (v : view) (k : key) : Prop :=
  forall c rs r, v (mkKey (k_v6 k) (k_table k) c) = Some rs -> r ∈ rs -> target r <> Some (k_chain k).

Inductive effect : op -> view -> view -> Prop :=
| eff_new k v v' : v k = None -> becomes v v' k (Some []) -> effect (OpNew k) v v'
| eff_append k r rs v v' : v k = Some rs -> becomes v v' k (Some (rs ++ [r])%list) -> effect (OpAppend k r) v v'
| eff_insert k r rs v v' : v k = Some rs -> becomes v v' k (Some (r :: rs)) -> effect (OpInsert k r) v v'
| eff_delete k r l1 l2 v v' : v k = Some (l1 ++ r :: l2)%list -> r ∉ l1 -> becomes v v' k (Some (l1 ++ l2)%list) ->
    effect (OpDelete k r) v v'
| eff_flush k rs v v' : v k = Some rs -> becomes v v' k (Some []) -> effect (OpFlush k) v v'
| eff_remove k v v' : v k = Some [] -> unreferenced v k -> becomes v v' k None -> effect (OpRemove k) v v'.

(** Commands that take something away. *)
Definition undoes (o : op) : bool :=
  match o with OpNew _ | OpAppend _ _ | OpInsert _ _ => false | OpDelete _ _ | OpFlush _ | OpRemove _ => true end.

(** A command fails and changes nothing, or has its effect; one that takes
    something away that can be taken away does not fail. *)
Definition outcome (o : op) (v : view) (e : option error) (v' : view) : Prop :=
  (e <> None /\ same v v' /\ (undoes o = true -> forall v'', ~ effect o v v'')) \/ (e = None /\ effect o v v').

(** The names of the program's chains. *)
Definition own_names : list string := ["TP_OUT"; "TP_PRE"; "TP_RULE"; "TP_MARK"; "DNS_REDIRECT"; "DNS_MARK"].

Class NetfilterLaws `(T : HostTools) := {
  chains : string -> host -> view;
  sh_iptables suffix line o h : forallb plain (words line) = true -> parse suffix (words line) = Some o ->
    outcome o (chains suffix h) (sh line h).1 (chains suffix (sh line h).2);
  sh_quiet suffix line h : quiet (words line) = true -> same (chains suffix h) (chains suffix (sh line h).2);
  input_iptables suffix v6 args o h : parse_args v6 args = Some o ->
    outcome o (chains suffix h) (exec_input (binary_of suffix v6) args "" h).1
      (chains suffix (exec_input (binary_of suffix v6) args "" h).2);
  input_ipset suffix args input h : same (chains suffix h) (chains suffix (exec_input "ipset" args input h).2);
  input_restore suffix v6 t rules h input :
    input = ("*" +:+ t +:+ nl +:+ concat_strings (map (fun cr => "-A " +:+ fst cr +:+ " " +:+ snd cr +:+ nl) rules) +:+
             "COMMIT" +:+ nl) ->
    Forall (fun cr => forallb plain (words (fst cr +:+ " " +:+ snd cr)) = true) rules ->
    forall c rs, Forall (fun cr => fst cr = c) rules -> chains suffix h (mkKey v6 t c) = rs ->
    let r := exec_input (binary_of suffix v6 +:+ "-restore") ["-w"; "2"; "--noflush"] input h in
    same (chains suffix h) (chains suffix r.2) \/
    exists old, rs = Some old /\
      becomes (chains suffix h) (chains suffix r.2) (mkKey v6 t c) (Some (old ++ map (fun cr => words (snd cr)) rules)%list);
  extension : string -> Prop;
  own_not_extension c : c ∈ own_names -> ~ extension c;
  jumps_exist suffix h k rs r t : chains suffix h k = Some rs -> r ∈ rs -> target r = Some t ->
    extension t \/ is_Some (chains suffix h (mkKey (k_v6 k) (k_table k) t));
}.

(** ** The analysis *)

(** A chain of the program: it does not exist; it is empty if it exists; its rules,
    if it exists, have targets in the list. *)
Inductive status := Absent | Bare | Holds (ts : list string).

Record abs := mkAbs { a_own : list (key * status); a_jumps : list (key * rule) }.

Fixpoint status_of (l : list (key * status)) (k : key) : option status :=
  match l with
  | [] => None
  | (k', s) :: l => if decide (k = k') then Some s else status_of l k
  end.

Fixpoint set_status (l : list (key * status)) (k : key) (s : status) : list (key * status) :=
  match l with
  | [] => []
  | (k', s') :: l => if decide (k = k') then (k', s) :: l else (k', s') :: set_status l k s
  end.

Definition with_status (a : abs) (k : key) (s : status) : abs := mkAbs (set_status (a_own a) k s) (a_jumps a).

Definition add_target (s : status) (t : string) : status :=
  match s with
  | Holds ts => if bool_decide (t ∈ ts) then s else Holds (t :: ts)
  | _ => Holds [t]
  end.

(** Whether a rule with the target [k] may be somewhere. *)
Definition may_refer (a : abs) (k : key) : bool :=
  let near k' := bool_decide (k_v6 k' = k_v6 k) && bool_decide (k_table k' = k_table k) in
  existsb (fun ks => near (fst ks) && match snd ks with Holds ts => bool_decide (k_chain k ∈ ts) | _ => false end) (a_own a) ||
  existsb (fun kr => near (fst kr) && bool_decide (target (snd kr) = Some (k_chain k))) (a_jumps a).

(** A jump to one of the program's chains. *)
Definition jumps_to_own (a : abs) (k : key) (r : rule) : bool :=
  match target r with
  | Some t => is_some (status_of (a_own a) (mkKey (k_v6 k) (k_table k) t))
  | None => false
  end.

(** [None]: the command is not one the analysis follows. *)
Definition transfer (o : op) (a : abs) : option abs :=
  match o with
  | OpNew k => match status_of (a_own a) k with Some Absent => Some (with_status a k Bare) | _ => None end
  | OpAppend k r =>
    match status_of (a_own a) k, target r with
    | Some s, Some t => Some (with_status a k (add_target s t))
    | _, _ => None
    end
  | OpInsert k r =>
    match status_of (a_own a) k with
    | None => if jumps_to_own a k r && negb (bool_decide ((k, r) ∈ a_jumps a)) then Some (mkAbs (a_own a) ((k, r) :: a_jumps a))
              else None
    | Some _ => None
    end
  | OpDelete k r =>
    match status_of (a_own a) k with
    | None => if jumps_to_own a k r
              then Some (mkAbs (a_own a) (List.filter (fun kr => negb (bool_decide (kr = (k, r)))) (a_jumps a)))
              else None
    | Some _ => None
    end
  | OpFlush k =>
    match status_of (a_own a) k with
    | Some Absent => Some a
    | Some _ => Some (with_status a k Bare)
    | None => None
    end
  | OpRemove k =>
    match status_of (a_own a) k with
    | Some Absent => Some a
    | Some Bare => if may_refer a k then None else Some (with_status a k Absent)
    | _ => None
    end
  end.

Fixpoint analyse (os : list op) (a : abs) : option abs :=
  match os with
  | [] => Some a
  | o :: os => match transfer o a with Some a => analyse os a | None => None end
  end.

(** ** The abstract state describes the host *)

Definition described (s : status) (x : option (list rule)) : Prop :=
  match s with
  | Absent => x = None
  | Bare => x = None \/ x = Some []
  | Holds ts => forall rs r, x = Some rs -> r ∈ rs -> exists t, target r = Some t /\ t ∈ ts
  end.

(** The other chains are as in [base], after jumps of the program, each at most
    once. *)
Record describes (base : view) (a : abs) (v : view) : Prop := {
  d_own k s : status_of (a_own a) k = Some s -> described s (v k);
  d_base k : status_of (a_own a) k = None ->
    match base k with
    | None => v k = None
    | Some rs => exists P, v k = Some (P ++ rs)%list /\ NoDup P /\ forall r, r ∈ P -> (k, r) ∈ a_jumps a
    end;
}.

(** The program's chains do not exist, and no rule jumps to them. *)
Record untouched (a : abs) (base : view) : Prop := {
  u_absent k s : status_of (a_own a) k = Some s -> base k = None;
  u_unreferenced k r rs : base k = Some rs -> r ∈ rs -> jumps_to_own a k r = false;
}.

(** The chains are the same in every state of the analysis. *)
Definition same_own (a a' : abs) : Prop := forall k, is_some (status_of (a_own a') k) = is_some (status_of (a_own a) k).

Lemma status_set l k k' s :
  status_of (set_status l k s) k' = if decide (k = k') then (fun _ => s) <$> status_of l k else status_of l k'.
Proof.
  induction l as [|[k1 s1] l IH]; cbn; [by destruct (decide (k = k'))|].
  destruct (decide (k = k1)) as [->|H1]; cbn.
  - destruct (decide (k' = k1)) as [->|H2]; [by rewrite decide_True|]. by rewrite decide_False.
  - rewrite IH. destruct (decide (k' = k1)) as [->|H2]; [by rewrite decide_False|]. done.
Qed.

Lemma same_own_set a k s : same_own a (with_status a k s).
Proof.
  intros k'. cbn. rewrite status_set. destruct (decide (k = k')) as [->|]; [|done]. by destruct (status_of _ k').
Qed.

Lemma jumps_own_same a a' k r : same_own a a' -> jumps_to_own a' k r = jumps_to_own a k r.
Proof. intros H. unfold jumps_to_own. destruct (target r); [apply H|done]. Qed.

Lemma untouched_same a a' base : same_own a a' -> untouched a base -> untouched a' base.
Proof.
  intros H [U1 U2]. split.
  - intros k s Hs. pose proof (H k) as Hk. rewrite Hs in Hk. destruct (status_of (a_own a) k) eqn:E; [|done]. by eapply U1.
  - intros k r rs Hk Hr. rewrite (jumps_own_same _ _ _ _ H). by eapply U2.
Qed.

Lemma described_same base a v v' : same v v' -> describes base a v -> describes base a v'.
Proof. intros H [D1 D2]. split; intros k; rewrite (H k); [apply D1|apply D2]. Qed.

(** Changing a chain of the program. *)
Lemma describes_own base a v v' k s x : describes base a v -> status_of (a_own a) k <> None ->
  becomes v v' k x -> described s x -> describes base (with_status a k s) v'.
Proof.
  intros [D1 D2] Hk Hb Hs. split.
  - intros k' s'. cbn. rewrite status_set, (Hb k'). unfold upd. destruct (decide (k = k')) as [->|]; [|apply D1].
    destruct (status_of (a_own a) k') as [s0|]; [|done]. cbn. by intros [= <-].
  - intros k'. cbn. rewrite status_set, (Hb k'). unfold upd. destruct (decide (k = k')) as [->|]; [|apply D2].
    by destruct (status_of (a_own a) k').
Qed.

Lemma describes_weaker base a v k s : describes base a v -> status_of (a_own a) k <> None ->
  described s (v k) -> describes base (with_status a k s) v.
Proof.
  intros Hd Hk Hs. eapply describes_own; [done|done| |done]. intros k'. unfold upd. by destruct (decide (k = k')) as [->|].
Qed.

Lemma add_target_described s t x : described s x -> described (add_target s t) x.
Proof.
  destruct s as [| |ts]; cbn.
  - by intros ->.
  - intros [->| ->] rs r; [done|]. intros [= <-] H. by apply elem_of_nil in H.
  - intros H. destruct (bool_decide (t ∈ ts)); [done|]. intros rs r Hx Hr. destruct (H rs r Hx Hr) as (t' & H1 & H2).
    exists t'. split; [done|]. by right.
Qed.

Lemma add_target_holds s t : exists ts, add_target s t = Holds ts /\ t ∈ ts.
Proof.
  destruct s as [| |ts]; cbn; [eexists; split; [done|left]..|]. destruct (bool_decide_reflect (t ∈ ts)); [by exists ts|].
  eexists. split; [done|]. left.
Qed.

Lemma add_target_append s t rs r : described s (Some rs) -> target r = Some t ->
  described (add_target s t) (Some (rs ++ [r])%list).
Proof.
  intros Hs Ht. apply (add_target_described s t) in Hs. destruct (add_target_holds s t) as (ts & E & Hin). rewrite E in *.
  cbn in *. intros rs' r' [= <-]. rewrite elem_of_app, list_elem_of_singleton. intros [H| ->]; [by eapply Hs|]. eauto.
Qed.

(** Commands that set something up can fail at any time. *)
Lemma transfer_keeps base a a' o v : undoes o = false -> transfer o a = Some a' -> describes base a v ->
  describes base a' v /\ same_own a a'.
Proof.
  intros Hu Ht Hd. destruct o as [k|k r|k r|k r|k|k]; cbn in *; try done.
  - destruct (status_of (a_own a) k) as [[]|] eqn:E; try done. injection Ht as <-.
    split; [|apply same_own_set]. apply describes_weaker; [done|by rewrite E|]. left. exact (d_own _ _ _ Hd k _ E).
  - destruct (status_of (a_own a) k) as [s|] eqn:E; [|done]. destruct (target r) as [t|]; [|done]. injection Ht as <-.
    split; [|apply same_own_set]. apply describes_weaker; [done|by rewrite E|]. apply add_target_described.
    exact (d_own _ _ _ Hd k _ E).
  - destruct (status_of (a_own a) k) as [s|] eqn:E; [done|]. destruct (_ && _); [|done]. injection Ht as <-.
    split; [|done]. destruct Hd as [D1 D2]. split; [exact D1|]. intros k' Hk'. specialize (D2 k' Hk').
    destruct (base k') as [rs|]; [|done]. destruct D2 as (P & H1 & H2 & H3). exists P. split; [done|]. split; [done|].
    intros r' Hr'. right. by apply H3.
Qed.

(** Changing the head of another chain. *)
Lemma describes_head base a v v' k rs P js : describes base a v -> status_of (a_own a) k = None -> base k = Some rs ->
  becomes v v' k (Some (P ++ rs)%list) -> NoDup P -> (forall r, r ∈ P -> (k, r) ∈ js) ->
  (forall k' r, k' <> k -> (k', r) ∈ a_jumps a -> (k', r) ∈ js) -> describes base (mkAbs (a_own a) js) v'.
Proof.
  intros [D1 D2] Hk Hbase Hb HP Hjs Hother. split.
  - intros k' s Hs. cbn in Hs. rewrite (Hb k'). unfold upd. destruct (decide (k = k')) as [->|]; [congruence|]. by apply D1.
  - intros k' Hk'. cbn in Hk'. rewrite (Hb k'). unfold upd. destruct (decide (k = k')) as [->|Hne].
    + rewrite Hbase. eauto.
    + specialize (D2 k' Hk'). destruct (base k') as [rs'|]; [|done]. destruct D2 as (P' & H1 & H2 & H3). exists P'.
      split; [done|]. split; [done|]. intros r Hr. apply Hother; [done|]. by apply H3.
Qed.

Lemma head_of base a v k l : describes base a v -> status_of (a_own a) k = None -> v k = Some l ->
  exists P rs, base k = Some rs /\ l = (P ++ rs)%list /\ NoDup P /\ forall r, r ∈ P -> (k, r) ∈ a_jumps a.
Proof.
  intros [_ D2] Hk Hv. specialize (D2 k Hk). destruct (base k) as [rs|]; [|congruence].
  destruct D2 as (P & H1 & H2 & H3). exists P, rs. split; [done|]. split; [congruence|done].
Qed.

(** No rule of [base] is one of the jumps. *)
Lemma base_free base a k r rs : untouched a base -> jumps_to_own a k r = true -> base k = Some rs -> r ∉ rs.
Proof. intros [_ U] Hj Hb Hr. pose proof (U _ _ _ Hb Hr). congruence. Qed.

Lemma filter_other (k k' : key) (r r' : rule) js : (k', r') <> (k, r) -> (k', r') ∈ js ->
  (k', r') ∈ List.filter (fun kr => negb (bool_decide (kr = (k, r)))) js.
Proof.
  intros Hne Hin. apply list_elem_of_In, filter_In. split; [by apply list_elem_of_In|]. by rewrite bool_decide_eq_false_2.
Qed.

Lemma delete_effect base a v v' k r : untouched a base -> describes base a v -> status_of (a_own a) k = None ->
  jumps_to_own a k r = true -> effect (OpDelete k r) v v' ->
  describes base (mkAbs (a_own a) (List.filter (fun kr => negb (bool_decide (kr = (k, r)))) (a_jumps a))) v'.
Proof.
  intros Hun Hd Hk Hj He. inversion He as [| | |k0 r0 l1 l2 v0 v0' Hv Hl1 Hb| |]; subst.
  destruct (head_of _ _ _ _ _ Hd Hk Hv) as (P & rs & Hbase & Hl & HP & Hin).
  assert (Hr : r ∉ rs) by (by eapply base_free).
  assert (exists l3, P = (l1 ++ r :: l3)%list /\ l2 = (l3 ++ rs)%list) as (l3 & -> & ->).
  { clear -Hl Hl1 Hr. revert P Hl. induction l1 as [|x l1 IH]; intros [|y P] Hl; cbn in *.
    - subst rs. exfalso. apply Hr. left.
    - injection Hl as -> ->. by exists P.
    - subst rs. exfalso. apply Hr. right. apply elem_of_app. right. left.
    - injection Hl as <- Hl. destruct (IH ltac:(set_solver) P Hl) as (l3 & -> & ->). by exists l3. }
  apply NoDup_app in HP as (N1 & N2 & N3). apply NoDup_cons in N3 as [N3 N4].
  eapply (describes_head _ _ _ _ _ rs (l1 ++ l3)); [done|done|done|by rewrite <-app_assoc| | |].
  - apply NoDup_app. split; [done|]. split; [|done]. intros x Hx Hx'. apply (N2 x Hx). by right.
  - intros x Hx. apply filter_other; [|apply Hin; set_solver]. intros [= ->]. set_solver.
  - intros k' x Hne Hx. apply filter_other; [congruence|done].
Qed.

(** A jump that cannot be deleted is not there. *)
Lemma delete_missing base a v k r : untouched a base -> describes base a v -> status_of (a_own a) k = None ->
  jumps_to_own a k r = true -> (forall v', ~ effect (OpDelete k r) v v') ->
  describes base (mkAbs (a_own a) (List.filter (fun kr => negb (bool_decide (kr = (k, r)))) (a_jumps a))) v.
Proof.
  intros Hun Hd Hk Hj Hno. pose proof Hd as [D1 D2]. split; [exact D1|]. intros k' Hk'. specialize (D2 k' Hk').
  destruct (base k') as [rs|] eqn:Hbase; [|done]. destruct D2 as (P & H1 & H2 & H3). exists P. split; [done|]. split; [done|].
  intros x Hx. apply filter_other; [|by apply H3]. intros [= -> ->].
  apply list_elem_of_split in Hx as (l1 & l2 & ->). apply NoDup_app in H2 as (_ & N2 & _).
  apply (Hno (upd v k (Some (l1 ++ l2 ++ rs)%list))). eapply (eff_delete k r l1 (l2 ++ rs)).
  - by rewrite H1, <-app_assoc.
  - intros H. apply (N2 r H). left.
  - by intros k0.
Qed.

Lemma may_refer_false base a v k : untouched a base -> describes base a v -> status_of (a_own a) k <> None ->
  may_refer a k = false -> unreferenced v k.
Proof.
  intros Hun Hd Hk Hm c rs r Hv Hr Ht. unfold may_refer in Hm. apply orb_false_iff in Hm as [M1 M2].
  set (kc := mkKey (k_v6 k) (k_table k) c) in *.
  assert (Hnear : bool_decide (k_v6 kc = k_v6 k) && bool_decide (k_table kc = k_table k) = true).
  { by rewrite !bool_decide_eq_true_2. }
  destruct (status_of (a_own a) kc) as [s|] eqn:E.
  - pose proof (d_own _ _ _ Hd kc s E) as Hs. rewrite Hv in Hs. destruct s as [| |ts]; cbn in Hs.
    + done.
    + destruct Hs as [?|[= ->]]; [done|]. by apply elem_of_nil in Hr.
    + destruct (Hs rs r eq_refl Hr) as (t & Ht' & Hin). rewrite Ht in Ht'. injection Ht' as <-.
      assert (In (kc, Holds ts) (a_own a)) as Hown.
      { clear -E. revert E. induction (a_own a) as [|[k1 s1] l IH]; cbn; [done|]. destruct (decide (kc = k1)) as [<-|]; [|auto].
        intros [= ->]. by left. }
      pose proof (proj2 (not_true_iff_false _) M1) as Hex. apply Hex, existsb_exists. exists (kc, Holds ts).
      split; [done|]. cbn [fst snd]. rewrite Hnear. by rewrite bool_decide_eq_true_2.
  - destruct (head_of _ _ _ _ _ Hd E Hv) as (P & rs' & Hbase & -> & _ & Hin). apply elem_of_app in Hr as [Hr|Hr].
    + pose proof (proj2 (not_true_iff_false _) M2) as Hex. apply Hex, existsb_exists. exists (kc, r).
      split; [apply list_elem_of_In; by apply Hin|]. cbn [fst snd]. rewrite Hnear. by rewrite bool_decide_eq_true_2.
    + pose proof (u_unreferenced _ _ Hun _ _ _ Hbase Hr) as H. unfold jumps_to_own in H. rewrite Ht in H.
      change (mkKey (k_v6 kc) (k_table kc) (k_chain k)) with (mkKey (k_v6 k) (k_table k) (k_chain k)) in H.
      destruct k as [v6 t0 c0]. cbn in *. by destruct (status_of (a_own a) _).
Qed.

(** The effect of a command is the one of the analysis. *)
Lemma transfer_effect base a a' o v v' : untouched a base -> describes base a v -> transfer o a = Some a' ->
  effect o v v' -> describes base a' v' /\ same_own a a'.
Proof.
  intros Hun Hd Ht He. destruct o as [k|k r|k r|k r|k|k]; cbn in Ht.
  - destruct (status_of (a_own a) k) as [[]|] eqn:E; try done. injection Ht as <-. split; [|apply same_own_set].
    inversion He; subst. eapply describes_own; [done|by rewrite E|done|by right].
  - destruct (status_of (a_own a) k) as [s|] eqn:E; [|done]. destruct (target r) as [t|] eqn:Htr; [|done]. injection Ht as <-.
    split; [|apply same_own_set]. inversion He as [|k0 r0 rs v0 v0' Hv Hb| | | |]; subst.
    eapply describes_own; [done|by rewrite E|done|]. apply add_target_append; [|done]. rewrite <-Hv. exact (d_own _ _ _ Hd k s E).
  - destruct (status_of (a_own a) k) as [s|] eqn:E; [done|]. destruct (_ && _) eqn:Hc; [|done]. injection Ht as <-.
    apply andb_true_iff in Hc as [Hj Hn]. apply negb_true_iff, bool_decide_eq_false in Hn. split; [|done].
    inversion He as [| |k0 r0 rs v0 v0' Hv Hb| | |]; subst.
    destruct (head_of _ _ _ _ _ Hd E Hv) as (P & rs' & Hbase & -> & HP & Hin).
    eapply (describes_head _ _ _ _ _ rs' (r :: P)); [done..| | |].
    + apply NoDup_cons. split; [|done]. intros H. by apply Hn, Hin.
    + intros x. rewrite elem_of_cons. intros [->|Hx]; [left|right; by apply Hin].
    + intros k' x _ Hx. by right.
  - destruct (status_of (a_own a) k) as [s|] eqn:E; [done|]. destruct (jumps_to_own a k r) eqn:Hj; [|done]. injection Ht as <-.
    split; [|done]. by eapply delete_effect.
  - inversion He as [| | | |k0 rs v0 v0' Hv Hb|]; subst. destruct (status_of (a_own a) k) as [s|] eqn:E; [|done].
    pose proof (d_own _ _ _ Hd k s E) as Hs. rewrite Hv in Hs. destruct s as [| |ts]; [done|..]; injection Ht as <-;
      (split; [|apply same_own_set]; eapply describes_own; [done|by rewrite E|done|by right]).
  - inversion He as [| | | | |k0 v0 v0' Hv Hu Hb]; subst. destruct (status_of (a_own a) k) as [s|] eqn:E; [|done].
    pose proof (d_own _ _ _ Hd k s E) as Hs. rewrite Hv in Hs. destruct s as [| |ts]; [done| |done].
    destruct (may_refer a k); [done|]. injection Ht as <-.
    split; [|apply same_own_set]. eapply describes_own; [done|by rewrite E|done|done].
Qed.

(** A command that takes nothing away found nothing. *)
Lemma transfer_missing base a a' o v : untouched a base -> describes base a v -> transfer o a = Some a' ->
  undoes o = true -> (forall v', ~ effect o v v') -> describes base a' v /\ same_own a a'.
Proof.
  intros Hun Hd Ht Hu Hno. destruct o as [k|k r|k r|k r|k|k]; try done; cbn in Ht.
  - destruct (status_of (a_own a) k) as [s|] eqn:E; [done|]. destruct (jumps_to_own a k r) eqn:Hj; [|done]. injection Ht as <-.
    split; [|done]. by apply delete_missing.
  - destruct (status_of (a_own a) k) as [s|] eqn:E; [|done].
    assert (Hv : v k = None).
    { destruct (v k) as [rs|] eqn:Hv; [|done]. exfalso. apply (Hno (upd v k (Some []))). by eapply eff_flush. }
    destruct s as [| |ts]; injection Ht as <-; [by split|..];
      (split; [|apply same_own_set]; apply describes_weaker; [done|by rewrite E|left; done]).
  - destruct (status_of (a_own a) k) as [s|] eqn:E; [|done]. pose proof (d_own _ _ _ Hd k s E) as Hs.
    destruct s as [| |ts]; [by injection Ht as <-| |done]. destruct (may_refer a k) eqn:Hm; [done|]. injection Ht as <-.
    split; [|apply same_own_set]. apply describes_weaker; [done|by rewrite E|]. destruct Hs as [Hs|Hs]; [done|].
    exfalso. apply (Hno (upd v k None)). apply eff_remove; [done| |done]. eapply may_refer_false; [done|done|by rewrite E|done].
Qed.

Lemma transfer_outcome base a a' o v e v' : untouched a base -> describes base a v -> transfer o a = Some a' ->
  outcome o v e v' -> describes base a' v' /\ same_own a a'.
Proof.
  intros Hun Hd Ht [(_ & Hs & Hno)|[_ He]]; [|by eapply transfer_effect].
  destruct (undoes o) eqn:Hu.
  - destruct (transfer_missing _ _ _ _ _ Hun Hd Ht Hu (Hno eq_refl)) as [H1 H2]. split; [by eapply described_same|done].
  - destruct (transfer_keeps _ _ _ _ _ Hu Ht Hd) as [H1 H2]. split; [by eapply described_same|done].
Qed.

(** Commands that set something up only add to what may be there. *)
Lemma analyse_keeps base os : forall a a' v, forallb (fun o => negb (undoes o)) os = true -> analyse os a = Some a' ->
  describes base a v -> describes base a' v.
Proof.
  induction os as [|o os IH]; intros a a' v Hf Ha Hd; cbn in *; [congruence|].
  apply andb_true_iff in Hf as [H1 H2]. destruct (transfer o a) as [a1|] eqn:Ht; [|done].
  eapply IH; [done|done|]. eapply transfer_keeps; [by apply negb_true_iff|done|done].
Qed.
