(* ===== verification/CommandLines.v ===== *)
(** * Reading the texts as commands

    A text is rewritten (the port of the DNS module, the names of the binaries)
    and run line by line.  Rewriting maps words to words, so the commands of a
    rewritten text are the rewritten commands of the text. *)

From S2P Require Import Prelude.
From S2P Require Import NetIP Text Iptables Netfilter.

#[local] Open Scope string_scope.

(** ** Substrings *)

Lemma Cut_spec s m before after : Cut s m = Some (before, after) -> s = before +:+ m +:+ after.
Proof.
  assert (Hit : forall s, HasPrefix s m = true -> s = m +:+ TrimPrefix s m).
  { intros u Hp. apply HasPrefix_spec in Hp as [t ->]. by rewrite TrimPrefix_app. }
  revert before after. induction s as [|a s IH]; intros before after; cbn [Cut].
  - destruct (HasPrefix "" m) eqn:Hp; [|done]. intros [= <- <-]. by apply Hit.
  - destruct (HasPrefix (String a s) m) eqn:Hp; [intros [= <- <-]; by apply Hit|].
    destruct (Cut s m) as [[b1 a1]|]; [|done]. intros [= <- <-]. rewrite s_app_cons. by rewrite <-(IH b1 a1).
Qed.

Lemma Contains_cons a s m : Contains (String a s) m = HasPrefix (String a s) m || Contains s m.
Proof.
  unfold Contains. cbn [Cut]. destruct (HasPrefix (String a s) m); [done|]. by destruct (Cut s m) as [[]|].
Qed.

Lemma Contains_spec s m : Contains s m = true <-> exists b t, s = b +:+ m +:+ t.
Proof.
  split.
  - unfold Contains. destruct (Cut s m) as [[b t]|] eqn:E; [|done]. intros _. exists b, t. by apply Cut_spec.
  - intros (b & t & ->). induction b as [|a b IH].
    + rewrite s_app_nil. destruct (m +:+ t) as [|c u] eqn:E.
      * destruct m; [done|by rewrite s_app_cons in E].
      * rewrite Contains_cons, <-E. by rewrite (proj2 (HasPrefix_spec _ _)) by eauto.
    + rewrite s_app_cons, Contains_cons, IH. by rewrite orb_true_r.
Qed.

Lemma Contains_part s m m' : Contains m m' = true -> Contains s m' = false -> Contains s m = false.
Proof.
  intros Hm Hs. apply not_true_iff_false. intros H. apply Contains_spec in H as (b & t & ->).
  apply Contains_spec in Hm as (b' & t' & ->). apply not_true_iff_false in Hs. apply Hs, Contains_spec.
  exists (b +:+ b'), (t' +:+ t). by rewrite !s_app_assoc.
Qed.

Lemma ReplaceAll_unchanged s old new : old <> "" -> Contains s old = false -> ReplaceAll s old new = s.
Proof.
  intros Ho. induction s as [|a s IH]; [done|]. rewrite Contains_cons. intros H. apply orb_false_iff in H as [H1 H2].
  rewrite ReplaceAll_miss by done. by rewrite IH.
Qed.

Lemma free_of_replace p s old new : old <> "" -> free_of p s = true -> free_of p new = true ->
  free_of p (ReplaceAll s old new) = true.
Proof.
  intros Ho. remember (s_len s) as n eqn:Hl. revert s Hl. induction n as [n IH] using lt_wf_ind. intros s -> Hs Hn.
  destruct (HasPrefix s old) eqn:Hp.
  - apply HasPrefix_spec in Hp as [t ->]. rewrite ReplaceAll_hit by done. rewrite free_of_app in *.
    apply andb_true_iff in Hs as [_ Hs]. rewrite Hn. cbn [andb]. eapply (IH (s_len t)); [|done|done|done].
    rewrite s_len_app. destruct old; [done|]. cbn. lia.
  - destruct s as [|a s]; [done|]. rewrite ReplaceAll_miss by done. cbn [free_of] in *. apply andb_true_iff in Hs as [Ha Hs].
    rewrite Ha. cbn [andb]. by eapply (IH (s_len s)); [cbn; lia|..].
Qed.

(** What a replacement brings in does not make up something of other bytes. *)
Section Fresh.
Context (old new m : string) (Ho : old <> "") (Hm : m <> "").
Context (Hne : new <> "") (Hnew : free_of (fun a => has_byte a m) new = true).

Lemma prefix_replace m' s : (forall a, has_byte a m = false -> has_byte a m' = false) ->
  HasPrefix (ReplaceAll s old new) m' = true -> HasPrefix s m' = true.
Proof.
  revert s. induction m' as [|b m' IH]; intros s Hsub Hp; [by destruct s|].
  destruct (HasPrefix s old) eqn:Hs.
  - apply HasPrefix_spec in Hs as [t ->]. rewrite ReplaceAll_hit in Hp by done. destruct new as [|a u]; [done|].
    apply HasPrefix_spec in Hp as [t' Ht']. rewrite !s_app_cons in Ht'. injection Ht' as -> _.
    cbn [free_of] in Hnew. apply andb_true_iff in Hnew as [Hb _]. apply negb_true_iff in Hb.
    specialize (Hsub b Hb). cbn in Hsub. by rewrite Ascii.eqb_refl in Hsub.
  - destruct s as [|a s]; [done|]. rewrite ReplaceAll_miss in Hp by done. apply HasPrefix_spec in Hp as [t Ht].
    rewrite s_app_cons in Ht. injection Ht as -> Ht.
    assert (HasPrefix s m' = true) as Hp'.
    { apply IH; [|apply HasPrefix_spec; eauto]. intros c Hc. specialize (Hsub c Hc). cbn in Hsub.
      by apply orb_false_iff in Hsub as [_ ?]. }
    apply HasPrefix_spec in Hp' as [t' ->]. apply HasPrefix_spec. exists t'. by rewrite s_app_cons.
Qed.

Lemma contains_replace s : Contains s m = false -> Contains (ReplaceAll s old new) m = false.
Proof.
  intros Hs. apply not_true_iff_false. intros Hc. apply not_true_iff_false in Hs. apply Hs. clear Hs. revert Hc.
  remember (s_len s) as n eqn:Hl. revert s Hl. induction n as [n IH] using lt_wf_ind. intros s -> Hc.
  destruct (HasPrefix s old) eqn:Hp.
  - apply HasPrefix_spec in Hp as [t ->]. rewrite ReplaceAll_hit in Hc by done.
    assert (Ht : Contains (ReplaceAll t old new) m = true).
    { revert Hc. generalize (ReplaceAll t old new). intros X Hc. clear -Hm Hnew Hc. induction new as [|c u IHu]; [done|]. cbn [free_of] in Hnew.
      apply andb_true_iff in Hnew as [Hb Hu]. rewrite s_app_cons, Contains_cons in Hc.
      apply orb_true_iff in Hc as [Hc|Hc]; [|by apply IHu]. destruct m as [|d m']; [done|].
      apply HasPrefix_spec in Hc as [v Hv]. rewrite s_app_cons in Hv. injection Hv as -> _. cbn in Hb.
      by rewrite Ascii.eqb_refl in Hb. }
    assert (Hlt : (s_len t < s_len (old +:+ t))%nat) by (rewrite s_len_app; destruct old; [done|cbn; lia]).
    apply (IH _ Hlt _ eq_refl), Contains_spec in Ht as (b & u & ->). apply Contains_spec. exists (old +:+ b), u.
    by rewrite !s_app_assoc.
  - destruct s as [|a s]; [done|]. rewrite ReplaceAll_miss in Hc by done. rewrite Contains_cons in Hc.
    apply orb_true_iff in Hc as [Hc|Hc].
    + rewrite Contains_cons. rewrite (prefix_replace m); [done|auto|]. by rewrite ReplaceAll_miss.
    + rewrite Contains_cons, (IH (s_len s) ltac:(cbn; lia) s eq_refl Hc). apply orb_true_r.
Qed.
End Fresh.

Lemma replace_contains s old new : old <> "" -> Contains s old = true ->
  exists b t, ReplaceAll s old new = b +:+ new +:+ t.
Proof.
  intros Ho. induction s as [|a s IH]; [unfold Contains; cbn; by destruct old|].
  destruct (HasPrefix (String a s) old) eqn:Hp.
  - intros _. apply HasPrefix_spec in Hp as [t ->]. rewrite ReplaceAll_hit by done. by exists "", (ReplaceAll t old new).
  - rewrite Contains_cons, Hp. intros H. destruct (IH H) as (b & t & Hb). rewrite ReplaceAll_miss by done.
    exists (String a b), t. by rewrite Hb.
Qed.

(** ** Rewriting word by word *)

(** Words that no rewriting touches, and words that are not like the markers. *)
Definition fixed (w : string) : bool :=
  negb (Contains w "52353") && negb (Contains w "iptables") && negb (Contains w "ip6tables").
Definition unmarked (w : string) : bool := negb (Contains w "RAYA_WHITE").

Class WordMap (f : string -> string) : Prop := {
  wm_lines s : lines (f s) = map f (lines s);
  wm_split s : split_on is_space (f s) = map f (split_on is_space s);
  wm_words s : words (f s) = map f (words s);
  wm_plain w : plain w = true -> plain (f w) = true;
  wm_jump w : f w = "-j" -> w = "-j";
  wm_fixed w : fixed w = true -> f w = w;
  wm_unmarked w : unmarked w = true -> unmarked (f w) = true;
}.

#[export] Instance wm_id : WordMap (fun s => s).
Proof. split; intros; rewrite ?map_id; done. Qed.

#[export] Instance wm_compose f g : WordMap f -> WordMap g -> WordMap (fun s => f (g s)).
Proof.
  intros [F1 F2 F3 F4 F5 F6 F7] [G1 G2 G3 G4 G5 G6 G7]. split; intros.
  - by rewrite F1, G1, map_map.
  - by rewrite F2, G2, map_map.
  - by rewrite F3, G3, map_map.
  - auto.
  - auto.
  - rewrite G6 by done. auto.
  - auto.
Qed.

(** Replacements that give word maps. *)
Definition replaceable (old : string) : bool := existsb (String.eqb old) ["52353"; "iptables"; "ip6tables"].
Definition insertable (new : string) : bool :=
  nonempty new && plain new && free_of (fun a => has_byte a "RAYA_WHITE") new &&
  negb (free_of (fun a => negb (has_byte a "-j")) new).

Lemma plain_no_space w : plain w = true -> free_of is_space w = true.
Proof.
  assert (H : forall a, plain_char a = true -> is_space a = false).
  { intros [[] [] [] [] [] [] [] []]; by vm_compute. }
  unfold plain. induction w as [|a w IH]; [done|]. cbn [free_of]. rewrite !andb_true_iff, !negb_true_iff, negb_false_iff.
  intros [Ha Hw]. auto.
Qed.

Lemma space_newline s : free_of is_space s = true -> free_of (Ascii.eqb newline) s = true.
Proof.
  induction s as [|a s IH]; [done|]. cbn [free_of]. rewrite !andb_true_iff, !negb_true_iff. intros [Ha Hs].
  split; [|auto]. destruct (Ascii.eqb_spec newline a) as [<-|]; [done|done].
Qed.

Lemma wm_replace old new : replaceable old = true -> insertable new = true -> WordMap (fun s => ReplaceAll s old new).
Proof.
  intros Ho Hn. unfold insertable in Hn. rewrite !andb_true_iff, negb_true_iff in Hn. destruct Hn as [[[N1 N2] N3] N4].
  assert (Hne : new <> "") by (by destruct new). pose proof (plain_no_space _ N2) as Hs. pose proof (space_newline _ Hs) as Hl.
  assert (Hold : old <> "" /\ free_of is_space old = true).
  { unfold replaceable in Ho. cbn in Ho. rewrite !orb_true_iff in Ho.
    destruct Ho as [H|[H|[H|H]]]; [apply String.eqb_eq in H; subst; by split..|done]. }
  destruct Hold as [Ho1 Ho2]. pose proof (space_newline _ Ho2) as Ho3. split.
  - intros s. by apply lines_replace.
  - intros s. by apply split_on_replace.
  - intros s. by apply words_replace.
  - intros w. unfold plain. intros Hw. by apply free_of_replace.
  - intros w Hw. destruct (Contains w old) eqn:Hc; [|by rewrite ReplaceAll_unchanged in Hw].
    destruct (replace_contains w old new Ho1 Hc) as (b & t & Hb). rewrite Hb in Hw.
    assert (Hf : free_of (fun a => negb (has_byte a "-j")) (b +:+ new +:+ t) = true) by (by rewrite Hw).
    rewrite !free_of_app, N4, andb_false_r in Hf. done.
  - intros w Hw. apply ReplaceAll_unchanged; [done|]. unfold fixed in Hw. rewrite !andb_true_iff, !negb_true_iff in Hw.
    destruct Hw as [[W1 W2] W3]. unfold replaceable in Ho. cbn in Ho. rewrite !orb_true_iff in Ho.
    destruct Ho as [H|[H|[H|H]]]; [apply String.eqb_eq in H; by subst..|done].
  - intros w. unfold unmarked. rewrite !negb_true_iff. intros Hw. by apply contains_replace.
Qed.

(** ** Lines as commands *)

Definition map_op (f : string -> string) (o : op) : op :=
  match o with
  | OpNew k => OpNew k
  | OpAppend k r => OpAppend k (map f r)
  | OpInsert k r => OpInsert k (map f r)
  | OpDelete k r => OpDelete k (map f r)
  | OpFlush k => OpFlush k
  | OpRemove k => OpRemove k
  end.

(** A line that is skipped, that leaves the chains alone, or that is a command on
    them. *)
Inductive reads (suffix : string) : list string -> list op -> Prop :=
| reads_nil : reads suffix [] []
| reads_skip l ls os : skipped (words l) = true -> reads suffix ls os -> reads suffix (l :: ls) os
| reads_quiet l ls os : skipped (words l) = false -> quiet (words l) = true -> reads suffix ls os -> reads suffix (l :: ls) os
| reads_op l ls o os : skipped (words l) = false -> forallb plain (words l) = true -> parse suffix (words l) = Some o ->
    reads suffix ls os -> reads suffix (l :: ls) (o :: os).

Lemma reads_app suffix l1 o1 l2 o2 : reads suffix l1 o1 -> reads suffix l2 o2 -> reads suffix (l1 ++ l2)%list (o1 ++ o2)%list.
Proof.
  intros H1 H2. induction H1 as [|l ls os Hs _ IH|l ls os Hs Hq _ IH|l ls o os Hs Hp Ho _ IH]; cbn [app].
  - done.
  - by apply reads_skip.
  - by apply reads_quiet.
  - by apply reads_op.
Qed.

(** The command on one line of a text, before it is rewritten. *)
Definition line_op (ws : list string) : option (list op) :=
  if skipped ws then if forallb fixed (take 1 ws) then Some [] else None
  else if quiet ws then if forallb fixed ws then Some [] else None
  else match parse "" ws with
       | Some o => if forallb plain ws && forallb fixed (take 7 (tail ws)) then Some [o] else None
       | None => None
       end.

Fixpoint text_ops (ls : list string) : option (list op) :=
  match ls with
  | [] => Some []
  | l :: ls => match line_op (words l), text_ops ls with Some o, Some os => Some (o ++ os)%list | _, _ => None end
  end.

(** The rewriting gives the binaries their suffix. *)
Definition gives_suffix (f : string -> string) (suffix : string) : Prop :=
  f "iptables" = "iptables" +:+ suffix /\ f "ip6tables" = "ip6tables" +:+ suffix.

Section Rewritten.
Context (f : string -> string) `{!WordMap f} (suffix : string) (Hsuffix : gives_suffix f suffix).

Lemma f_fixed w : fixed w = true -> f w = w.
Proof. apply wm_fixed. Qed.
Lemma f_words s : words (f s) = map f (words s).
Proof. apply wm_words. Qed.
Lemma f_plain w : plain w = true -> plain (f w) = true.
Proof. apply wm_plain. Qed.
Lemma f_jump w : f w = "-j" -> w = "-j".
Proof. apply wm_jump. Qed.

Lemma map_fixed ws : forallb fixed ws = true -> map f ws = ws.
Proof.
  induction ws as [|w ws IH]; [done|]. cbn. intros H. apply andb_true_iff in H as [H1 H2].
  by rewrite (f_fixed w H1), IH.
Qed.

Lemma parse_op_map v6 t ws o : parse_op v6 t ws = Some o -> forallb fixed (take 3 ws) = true ->
  parse_op v6 t (map f ws) = Some (map_op f o).
Proof.
  destruct ws as [|c [|chain r]]; [done|done|]. cbn [take forallb parse_op map]. rewrite !andb_true_iff.
  intros Hp (Hc & Hch & Hr). rewrite (f_fixed c Hc), (f_fixed chain Hch).
  assert (Hn : forall n r', r = n :: r' -> is_number (f n) = is_number n).
  { intros n r' ->. cbn in Hr. apply andb_true_iff in Hr as [Hr _]. by rewrite (f_fixed n Hr). }
  destruct (String.eqb c "-N"); [destruct r; [by injection Hp as <-|done]|].
  destruct (String.eqb c "-A"); [by injection Hp as <-|].
  destruct (String.eqb c "-I").
  { destruct r as [|n r']; cbn [map]; [by injection Hp as <-|]. rewrite (Hn n r' eq_refl).
    destruct (is_number n); [done|]. by injection Hp as <-. }
  destruct (String.eqb c "-D").
  { destruct r as [|n r']; cbn [map]; [done|]. rewrite (Hn n r' eq_refl).
    destruct (is_number n); [done|]. by injection Hp as <-. }
  destruct (String.eqb c "-F"); [destruct r; [by injection Hp as <-|done]|].
  destruct (String.eqb c "-X"); [destruct r; [by injection Hp as <-|done]|]. done.
Qed.

Lemma parse_args_map v6 ws o : parse_args v6 ws = Some o -> forallb fixed (take 7 ws) = true ->
  parse_args v6 (map f ws) = Some (map_op f o).
Proof.
  destruct ws as [|w [|n [|tf [|t rest]]]]; try done. cbn [parse_args map]. intros Hp Hf.
  change (take 7 (w :: n :: tf :: t :: rest)) with (w :: n :: tf :: t :: take 3 rest) in Hf. cbn [forallb] in Hf.
  rewrite !andb_true_iff in Hf. destruct Hf as (H1 & H2 & H3 & H4 & H5).
  rewrite (f_fixed w H1), (f_fixed n H2), (f_fixed tf H3), (f_fixed t H4).
  destruct (_ && _); [|done]. by apply parse_op_map.
Qed.

Lemma parse_map ws o : parse "" ws = Some o -> forallb fixed (take 7 (tail ws)) = true ->
  parse suffix (map f ws) = Some (map_op f o).
Proof.
  destruct ws as [|bin args]; [done|]. cbn [parse map tail]. change (binary_of "" false) with "iptables".
  change (binary_of "" true) with "ip6tables". destruct Hsuffix as [S1 S2]. intros Hp Hf.
  destruct (String.eqb_spec bin "iptables") as [->|].
  - rewrite S1. change ("iptables" +:+ suffix) with (binary_of suffix false). rewrite String.eqb_refl. by apply parse_args_map.
  - destruct (String.eqb_spec bin "ip6tables") as [->|]; [|done].
    rewrite S2. change ("ip6tables" +:+ suffix) with (binary_of suffix true). rewrite String.eqb_refl.
    destruct (String.eqb_spec (binary_of suffix true) (binary_of suffix false)); [done|]. by apply parse_args_map.
Qed.

Lemma skipped_map ws : forallb fixed (take 1 ws) = true -> skipped (map f ws) = skipped ws.
Proof. destruct ws as [|w ws]; [done|]. cbn. rewrite andb_true_r. intros H. by rewrite (f_fixed w H). Qed.

Lemma plain_map ws : forallb plain ws = true -> forallb plain (map f ws) = true.
Proof.
  induction ws as [|w ws IH]; [done|]. cbn. rewrite !andb_true_iff. intros [H1 H2]. split; [by apply f_plain|auto].
Qed.

(** A command is not a comment. *)
Lemma plain_not_skipped ws : ws <> [] -> forallb plain ws = true -> skipped ws = false.
Proof.
  destruct ws as [|w ws]; [done|]. intros _ H. cbn in *. apply andb_true_iff in H as [H _].
  destruct (HasPrefix w "#") eqn:Hp; [|done]. apply HasPrefix_spec in Hp as [t ->]. by cbn in H.
Qed.

Lemma text_reads ls os : text_ops ls = Some os -> reads suffix (map f ls) (map (map_op f) os).
Proof.
  revert os. induction ls as [|l ls IH]; intros os; cbn [text_ops map]; [intros [= <-]; constructor|].
  destruct (line_op (words l)) as [o|] eqn:Hl; [|done]. destruct (text_ops ls) as [os'|]; [|done]. intros [= <-].
  specialize (IH os' eq_refl). unfold line_op in Hl. rewrite map_app. destruct (skipped (words l)) eqn:Hs.
  { destruct (forallb fixed (take 1 (words l))) eqn:Hf; [|done]. injection Hl as <-.
    apply reads_skip; [by rewrite f_words, skipped_map|done]. }
  destruct (quiet (words l)) eqn:Hq.
  { destruct (forallb fixed (words l)) eqn:Hf; [|done]. injection Hl as <-.
    apply reads_quiet; [by rewrite f_words, map_fixed..|done]. }
  destruct (parse "" (words l)) as [o1|] eqn:Hp; [|done]. destruct (forallb plain (words l)) eqn:Hpl; [|done].
  destruct (forallb fixed (take 7 (tail (words l)))) eqn:Hf; [|done]. cbn [andb] in Hl. injection Hl as <-. cbn [map app].
  assert (Hpl' : forallb plain (words (f l)) = true) by (rewrite f_words; by apply plain_map).
  apply reads_op; [|done| |done].
  - apply plain_not_skipped; [|done]. rewrite f_words. destruct (words l); [done|]. by cbn.
  - rewrite f_words. by apply parse_map.
Qed.

(** The analysis does not depend on the rewriting. *)
Definition op_fixed (o : op) : bool :=
  match o with
  | OpAppend _ r => match target r with Some t => fixed t | None => false end
  | OpInsert _ r | OpDelete _ r => forallb fixed r
  | _ => true
  end.

Lemma target_map r t : target r = Some t -> target (map f r) = Some (f t).
Proof.
  induction r as [|w r IH]; [done|]. cbn [target map]. destruct (String.eqb_spec w "-j") as [->|Hw].
  - rewrite (f_fixed "-j") by (by vm_compute). rewrite String.eqb_refl. destruct r as [|t' r]; [done|]. by intros [= ->].
  - destruct (String.eqb_spec (f w) "-j") as [H|]; [by apply f_jump in H|auto].
Qed.

Lemma transfer_map o a : op_fixed o = true -> transfer (map_op f o) a = transfer o a.
Proof.
  destruct o as [k|k r|k r|k r|k|k]; cbn [op_fixed map_op]; try done.
  - destruct (target r) as [t|] eqn:Ht; [|done]. intros Hf. cbn [transfer]. rewrite (target_map _ _ Ht), Ht.
    by rewrite (f_fixed t Hf).
  - intros Hf. by rewrite map_fixed.
  - intros Hf. by rewrite map_fixed.
Qed.

Lemma analyse_map os a : forallb op_fixed os = true -> analyse (map (map_op f) os) a = analyse os a.
Proof.
  revert a. induction os as [|o os IH]; intros a; [done|]. cbn [forallb map analyse]. rewrite andb_true_iff. intros [H1 H2].
  rewrite transfer_map by done. destruct (transfer o a); [auto|done].
Qed.

End Rewritten.

Lemma undoes_map f o : undoes (map_op f o) = undoes o.
Proof. by destruct o. Qed.

(** ** Running what was read *)

Section Running.
Context `{T : HostTools} `{NL : !NetfilterLaws T}.

(** Every command up to the first that fails, or all of them, has run. *)
Lemma exec_describes suffix base ls os : reads suffix ls os -> forall a a' stop e h,
  untouched a base -> describes base a (chains suffix h) -> analyse os a = Some a' ->
  stop = false \/ forallb (fun o => negb (undoes o)) os = true ->
  describes base a' (chains suffix (exec_lines ls stop e h).2) /\ same_own a a'.
Proof.
  induction 1 as [|l ls os Hs _ IH|l ls os Hs Hq _ IH|l ls o os Hs Hp Ho _ IH]; intros a a' stop e h Hu Hd Ha Hst;
    cbn [exec_lines analyse] in *.
  - by injection Ha as <-.
  - rewrite skipped_line, Hs. by apply IH.
  - rewrite skipped_line, Hs. unfold hm_bind. pose proof (sh_quiet suffix (TrimSpace l) h) as HQ.
    rewrite words_TrimSpace in HQ. specialize (HQ Hq). destruct (sh (TrimSpace l) h) as [err h1]. cbn [snd] in HQ.
    apply (described_same _ _ _ _ HQ) in Hd. destruct err as [err|]; [|by apply IH].
    destruct stop; [|by apply IH]. destruct Hst as [?|Hst]; [done|]. cbn [snd hm_ret]. split; [by eapply analyse_keeps|].
    clear -Ha Hst Hd. revert a Ha Hd. induction os as [|o os IH]; intros a Ha Hd; [by injection Ha as <-|].
    cbn in Ha, Hst. apply andb_true_iff in Hst as [H1 H2]. destruct (transfer o a) as [a1|] eqn:Ht; [|done].
    apply negb_true_iff in H1. destruct (transfer_keeps _ _ _ _ _ H1 Ht Hd) as [H3 H4]. intros k.
    rewrite (IH H2 a1 Ha H3 k). apply H4.
  - rewrite skipped_line, Hs. unfold hm_bind. pose proof (sh_iptables suffix (TrimSpace l) o h) as HO.
    rewrite words_TrimSpace in HO. specialize (HO Hp Ho). destruct (sh (TrimSpace l) h) as [err h1]. cbn [fst snd] in HO.
    destruct (transfer o a) as [a1|] eqn:Ht; [|done]. destruct (transfer_outcome _ _ _ _ _ _ _ Hu Hd Ht HO) as [Hd1 Hs1].
    pose proof (untouched_same _ _ _ Hs1 Hu) as Hu1.
    assert (Hgo : forall e', describes base a' (chains suffix (exec_lines ls stop e' h1).2) /\ same_own a a').
    { intros e'. destruct (IH a1 a' stop e' h1 Hu1 Hd1 Ha) as [H1 H2].
      - destruct Hst as [->|Hst]; [by left|right]. cbn in Hst. by apply andb_true_iff in Hst as [_ ?].
      - split; [done|]. intros k. by rewrite (H2 k). }
    destruct err as [err|]; [|apply Hgo]. destruct stop; [|apply Hgo]. destruct Hst as [?|Hst]; [done|]. cbn [snd hm_ret].
    cbn in Hst. apply andb_true_iff in Hst as [_ Hst]. split; [by eapply analyse_keeps|].
    intros k. destruct (Hgo None) as [_ H]. apply H.
Qed.
End Running.
