(* ===== verification/InterceptSetup.v ===== *)
(** * The texts of the modes, run

    The texts with their excluded interfaces and white lists, cut at the markers,
    run by [Setter.Run]: whatever fails on the way, the host stays in the state that
    the analysis computes for the whole text. *)

From S2P Require Import Prelude.
From S2P Require Import NetIP Text Iptables Netfilter CommandLines.

#[local] Open Scope string_scope.

(** ** Pieces that do not contain a marker *)

Lemma contains_piece p m s : free_of p m = true -> m <> "" -> Contains s m = true ->
  exists w, w ∈ split_on p s /\ Contains w m = true.
Proof.
  intros Hm Hne. induction s as [|a s IH]; [unfold Contains; cbn; by destruct m|].
  rewrite Contains_cons. intros H. destruct (HasPrefix (String a s) m) eqn:Hp.
  - apply HasPrefix_spec in Hp as [t ->]. rewrite split_on_app by done. destruct (split_on_cons p t) as (w & ws & ->).
    exists (m +:+ w). split; [left|]. apply Contains_spec. by exists "", w.
  - cbn [orb] in H. destruct (IH H) as (w & Hw & Hc). cbn [split_on]. destruct (p a); [exists w; split; [by right|done]|].
    destruct (split_on_cons p s) as (w0 & ws & Hs). rewrite Hs in *. apply elem_of_cons in Hw as [->|Hw].
    + exists (String a w0). split; [left|]. by rewrite Contains_cons, Hc, orb_true_r.
    + exists w. split; [by right|done].
Qed.

Lemma Cut_first m A c B : free_of is_space m = true -> m <> "" -> is_space c = true -> Contains A m = false ->
  Cut (A +:+ String c (m +:+ B)) m = Some (A +:+ String c "", B).
Proof.
  intros Hm Hne Hc. assert (Hsep : forall X u, HasPrefix (u +:+ String c X) m = true -> HasPrefix u m = true).
  { intros X. clear Hne. induction m as [|b m' IH]; intros u Hp; [by destruct u|]. cbn [free_of] in Hm.
    apply andb_true_iff in Hm as [Hb Hm']. apply HasPrefix_spec in Hp as [t Ht]. destruct u as [|d u].
    - rewrite s_app_nil, s_app_cons in Ht. injection Ht as -> _. by rewrite Hc in Hb.
    - rewrite !s_app_cons in Ht. injection Ht as -> Ht.
      destruct (proj1 (HasPrefix_spec _ _) (IH Hm' u (proj2 (HasPrefix_spec _ _) (ex_intro _ t Ht)))) as [t' ->].
      apply HasPrefix_spec. exists t'. by rewrite s_app_cons. }
  assert (Hhit : forall X, Cut (m +:+ X) m = Some ("", X)).
  { intros X. pose proof (TrimPrefix_app m X) as Htp. assert (Hpx : HasPrefix (m +:+ X) m = true) by (apply HasPrefix_spec; eauto).
    destruct (m +:+ X) as [|a s]; cbn [Cut]; rewrite Hpx, Htp; done. }
  induction A as [|a A IH]; intros HA.
  - rewrite !s_app_nil. cbn [Cut]. destruct (HasPrefix (String c (m +:+ B)) m) eqn:Hp.
    + pose proof (Hsep (m +:+ B) "" Hp) as H. by destruct m.
    + by rewrite Hhit.
  - rewrite Contains_cons in HA. apply orb_false_iff in HA as [HA1 HA2]. rewrite !s_app_cons. cbn [Cut].
    destruct (HasPrefix (String a (A +:+ String c (m +:+ B))) m) eqn:Hp.
    + rewrite <-s_app_cons in Hp. apply Hsep in Hp. congruence.
    + by rewrite (IH HA2).
Qed.

(** ** Texts *)

Definition ends_line (t : string) : Prop := t = "" \/ exists t', t = t' +:+ nl.

Lemma ends_line_check t : HasSuffix t nl = true -> ends_line t.
Proof. intros H. apply HasSuffix_spec in H as [p ->]. right. by exists p. Qed.

Lemma ends_line_app s t : ends_line s -> ends_line t -> ends_line (s +:+ t).
Proof.
  intros Hs [->|[t' ->]]; [by rewrite s_app_nil_r|]. right. exists (s +:+ t'). by rewrite s_app_assoc.
Qed.

Lemma reads_snoc suffix ls l os : reads suffix (ls ++ [l])%list os -> skipped (words l) = true -> reads suffix ls os.
Proof.
  revert os. induction ls as [|x ls IH]; intros os Hr Hs; cbn [app] in Hr; inversion Hr; subst; try congruence.
  - apply reads_skip; auto.
  - apply reads_quiet; auto.
  - apply reads_op; auto.
Qed.

Section Texts.
Context (f : string -> string) `{!WordMap f} (suffix : string) (Hsuffix : gives_suffix f suffix).

(** The commands of the rewritten text. *)
Definition commands_of (text : string) (os : list op) : Prop := reads suffix (lines (f text)) os.

Lemma f_lines s : lines (f s) = map f (lines s).
Proof. apply wm_lines. Qed.

Lemma f_empty : f "" = "".
Proof. by apply (f_fixed f). Qed.

Lemma commands_text text os : text_ops (lines text) = Some os -> commands_of text (map (map_op f) os).
Proof. intros H. unfold commands_of. rewrite f_lines. by apply text_reads. Qed.

Lemma commands_app t1 t2 o1 o2 : ends_line t1 -> commands_of t1 o1 -> commands_of t2 o2 ->
  commands_of (t1 +:+ t2) (o1 ++ o2)%list.
Proof.
  unfold commands_of. rewrite !f_lines. intros [->|[t' ->]] H1 H2.
  - rewrite s_app_nil. cbn in H1. rewrite f_empty in H1. apply (reads_snoc suffix [] "" o1) in H1; [|done]. inversion H1. done.
  - assert (Hl : forall X, lines ((t' +:+ nl) +:+ X) = (lines t' ++ lines X)%list).
    { intros X. rewrite <-s_app_assoc. unfold lines. by apply split_on_sep. }
    rewrite <-(s_app_nil_r (t' +:+ nl)), Hl, map_app in H1. rewrite Hl, map_app. apply reads_app; [|done].
    cbn [lines split_on map] in H1. change (lines "") with [""] in H1. cbn [map] in H1. rewrite f_empty in H1.
    by eapply reads_snoc.
Qed.

(** One rule per value, appended to [TP_RULE]. *)
Lemma commands_each (head : string) (k : key) (rule_of : string -> rule) (vs : list string) :
  free_of (Ascii.eqb newline) head = true ->
  (forall v, v ∈ vs -> free_of (Ascii.eqb newline) v = true /\
     line_op (words (head +:+ " " +:+ v +:+ " -j RETURN")) = Some [OpAppend k (rule_of v)]) ->
  commands_of (concat_strings (map (fun v => head +:+ " " +:+ v +:+ " -j RETURN" +:+ nl) vs))
    (map (fun v => map_op f (OpAppend k (rule_of v))) vs) /\
  ends_line (concat_strings (map (fun v => head +:+ " " +:+ v +:+ " -j RETURN" +:+ nl) vs)).
Proof.
  intros Hh. induction vs as [|v vs IH]; intros Hv; cbn [map concat_strings].
  { split; [|by left]. unfold commands_of. rewrite f_empty. apply reads_skip; [done|constructor]. }
  destruct IH as [IH1 IH2]; [intros v' Hv'; apply Hv; by right|]. destruct (Hv v) as [Hn Hl]; [left|].
  assert (He : ends_line (head +:+ " " +:+ v +:+ " -j RETURN" +:+ nl)).
  { right. exists (head +:+ " " +:+ v +:+ " -j RETURN"). by rewrite <-!s_app_assoc. }
  split; [|by apply ends_line_app]. change (?x :: ?l) with ([x] ++ l)%list. apply commands_app; [done| |done].
  apply (commands_text _ [OpAppend k (rule_of v)]).
  replace (head +:+ " " +:+ v +:+ " -j RETURN" +:+ nl) with ((head +:+ " " +:+ v +:+ " -j RETURN") +:+ nl)
    by (by rewrite <-!s_app_assoc).
  assert (Hl1 : lines ((head +:+ " " +:+ v +:+ " -j RETURN") +:+ nl) = [head +:+ " " +:+ v +:+ " -j RETURN"; ""]).
  { unfold lines, nl. rewrite split_on_sep by done. rewrite split_on_one; [done|]. by rewrite !free_of_app, Hh, Hn. }
  rewrite Hl1. cbn [text_ops]. rewrite Hl. done.
Qed.

End Texts.

(** ** Rules with one value *)

Definition rule_words (v6 : bool) (t flag : string) : list string :=
  [binary_of "" v6; "-w"; "2"; "-t"; t; "-A"; "TP_RULE"; flag].

Definition rule_head (v6 : bool) (t flag : string) : string :=
  binary_of "" v6 +:+ " -w 2 -t " +:+ t +:+ " -A TP_RULE " +:+ flag.

Definition tp_rule (v6 : bool) (t : string) : key := mkKey v6 t "TP_RULE".

(** The rule for a value: [flag value -j RETURN]. *)
Definition return_rule (flag v : string) : rule := [flag; v; "-j"; "RETURN"].

(** Values that a shell and iptables take as they are. *)
Definition good_value (v : string) : bool := nonempty v && plain v && negb (String.eqb v "-j").

Lemma words_value head v : good_value v = true ->
  words (head +:+ " " +:+ v +:+ " -j RETURN") = (words head ++ [v; "-j"; "RETURN"])%list.
Proof.
  unfold good_value. rewrite !andb_true_iff. intros [[H1 H2] _].
  change (" " +:+ v +:+ " -j RETURN") with (String " " (v +:+ String " " "-j RETURN")).
  assert (Hne : v <> "") by (by destruct v).
  rewrite words_sep, words_sep by done. by rewrite (words_one v Hne (plain_no_space v H2)).
Qed.

Lemma rule_line v6 t flag v : plain t = true -> fixed t = true -> plain flag = true -> fixed flag = true ->
  good_value v = true ->
  line_op (rule_words v6 t flag ++ [v; "-j"; "RETURN"])%list = Some [OpAppend (tp_rule v6 t) (return_rule flag v)].
Proof.
  intros P1 F1 P2 F2 Hv. unfold good_value in Hv. rewrite !andb_true_iff in Hv. destruct Hv as [[_ Pv] _]. unfold line_op, rule_words.
  assert (Hs : forall l, skipped (binary_of "" v6 :: l) = false) by (by destruct v6). cbn [app]. rewrite Hs.
  assert (Hq : forall l, quiet (binary_of "" v6 :: l) = false) by (by destruct v6). rewrite Hq.
  assert (Hp : forall l, parse "" (binary_of "" v6 :: l) = parse_args v6 l) by (by destruct v6). rewrite Hp.
  assert (Hb : plain (binary_of "" v6) = true) by (by destruct v6).
  cbn [parse_args parse_op tail take forallb]. rewrite Hb, P1, F1, P2, F2, Pv. done.
Qed.

(** ** The state during a setup *)

Lemma set_status_same l k s : status_of l k = Some s -> set_status l k s = l.
Proof.
  induction l as [|[k1 s1] l IH]; cbn; [done|]. destruct (decide (k = k1)) as [->|]; [by intros [= ->]|].
  intros H. by rewrite IH.
Qed.

(** The white list may be added to. *)
Definition takes_returns (a : abs) (k : key) : Prop := exists ts, status_of (a_own a) k = Some (Holds ts) /\ "RETURN" ∈ ts.

Lemma with_holds a k ts : status_of (a_own a) k = Some (Holds ts) -> with_status a k (Holds ts) = a.
Proof. intros H. unfold with_status. rewrite (set_status_same _ _ _ H). by destruct a. Qed.

Lemma append_return a k r : takes_returns a k -> target r = Some "RETURN" -> transfer (OpAppend k r) a = Some a.
Proof.
  intros (ts & Hs & Hin) Ht. cbn [transfer]. rewrite Hs, Ht. cbn [add_target].
  rewrite bool_decide_eq_true_2 by done. by rewrite with_holds.
Qed.

Lemma append_returns a k rs : takes_returns a k -> Forall (fun r => target r = Some "RETURN") rs ->
  analyse (map (OpAppend k) rs) a = Some a.
Proof.
  intros Ha. induction 1 as [|r rs Hr _ IH]; [done|]. cbn [map analyse]. by rewrite append_return.
Qed.

Lemma describes_returns base a k v v' old rs : describes base a v -> takes_returns a k -> v k = Some old ->
  becomes v v' k (Some (old ++ rs)%list) -> Forall (fun r => target r = Some "RETURN") rs -> describes base a v'.
Proof.
  intros Hd (ts & Hs & Hin) Hv Hb Hr. rewrite <-(with_holds a k ts Hs). eapply describes_own; [done|by rewrite Hs|done|].
  pose proof (d_own _ _ _ Hd k _ Hs) as Hk. rewrite Hv in Hk. cbn in *. intros rs' r [= <-].
  rewrite elem_of_app. intros [H|H]; [by eapply Hk|]. exists "RETURN". split; [|done].
  by apply (proj1 (Forall_forall _ _) Hr).
Qed.

(** [analyse] over parts. *)
Lemma analyse_app os1 os2 a : analyse (os1 ++ os2)%list a = a1 ← analyse os1 a; analyse os2 a1.
Proof. revert a. induction os1 as [|o os IH]; intros a; cbn; [done|]. destruct (transfer o a); cbn; auto. Qed.

(** ** The white list *)

Section Host.
Context `{T : HostTools} `{NL : !NetfilterLaws T}.

(** The names of the binaries after rewriting. *)
Definition rewrites_to (f : string -> string) (suffix : string) : Prop :=
  gives_suffix f suffix /\ forall v6, f (binary_of "" v6 +:+ "-restore") = binary_of suffix v6 +:+ "-restore".

Definition set_name (v6 : bool) : string := if v6 then "v2raya_white6" else "v2raya_white4".

(** A white list of such addresses. *)
Definition whitelist_for (v6 : bool) (t : string) (w : legacyWhitelist) : Prop :=
  binary w = binary_of "" v6 /\ table w = t /\ setName w = set_name v6 /\ Forall (fun c => good_value c = true) (cidrs w).

Lemma outcome_return base a k r v e v' : describes base a v -> takes_returns a k -> target r = Some "RETURN" ->
  outcome (OpAppend k r) v e v' -> describes base a v'.
Proof.
  intros Hd Ha Ht [(_ & Hs & _)|[_ He]]; [by eapply described_same|].
  inversion He as [|k0 r0 rs v0 v0' Hv Hb| | | |]; subst. eapply (describes_returns _ _ _ _ _ rs [r]); [done..|].
  by constructor.
Qed.

Lemma by_set_describes f suffix base a v6 t w h : rewrites_to f suffix -> whitelist_for v6 t w ->
  describes base a (chains suffix h) -> takes_returns a (tp_rule v6 t) ->
  describes base a (chains suffix (whitelist_by_set w f h).2).
Proof.
  intros [[S1 S2] _] (Hb & Ht & Hn & _) Hd Ha. unfold whitelist_by_set. destruct (commandAvailable "ipset"); [|done].
  unfold hm_bind. pose proof (input_ipset suffix ["restore"; "-!"] (ipsetPayload w) h) as H1.
  destruct (exec_input "ipset" ["restore"; "-!"] (ipsetPayload w) h) as [err h1]. cbn [snd] in H1.
  apply (described_same _ _ _ _ H1) in Hd. destruct err as [err|].
  - cbn. pose proof (input_ipset suffix ["destroy"; setName w] "" h1) as H2.
    destruct (exec_input "ipset" ["destroy"; setName w] "" h1). cbn in *. by eapply described_same.
  - assert (Hf : f (binary w) = binary_of suffix v6) by (rewrite Hb; by destruct v6). rewrite Hf.
    pose proof (input_iptables suffix v6 (set_match_args w)
      (OpAppend (tp_rule v6 t) ["-m"; "set"; "--match-set"; setName w; "dst"; "-j"; "RETURN"]) h1) as H2.
    specialize (H2 ltac:(unfold set_match_args; rewrite Ht; reflexivity)).
    destruct (exec_input (binary_of suffix v6) (set_match_args w) "" h1) as [err h2]. cbn [fst snd] in H2.
    apply (outcome_return base a) in H2; [|done|done|rewrite Hn; by destruct v6].
    destruct err as [err|]; [|done]. cbn.
    pose proof (input_ipset suffix ["destroy"; setName w] "" h2) as H3.
    destruct (exec_input "ipset" ["destroy"; setName w] "" h2). cbn in *. by eapply described_same.
Qed.

Lemma value_target flag v : String.eqb flag "-j" = false -> good_value v = true ->
  target (return_rule flag v) = Some "RETURN".
Proof.
  unfold good_value. rewrite !andb_true_iff, negb_true_iff. intros Hf [_ Hv]. unfold return_rule. cbn [target].
  by rewrite Hf, Hv.
Qed.

Lemma good_value_map f `{!WordMap f} v : good_value v = true -> String.eqb (f v) "-j" = false.
Proof.
  unfold good_value. rewrite !andb_true_iff, negb_true_iff. intros [_ Hv]. apply String.eqb_neq in Hv.
  apply String.eqb_neq. intros H. apply (f_jump f) in H. done.
Qed.

(** The rules for the values, after rewriting. *)
Lemma mapped_targets f `{!WordMap f} flag vs : String.eqb flag "-j" = false -> fixed flag = true ->
  Forall (fun v => good_value v = true) vs ->
  Forall (fun r => target r = Some "RETURN") (map (fun v => map f (return_rule flag v)) vs).
Proof.
  intros Hf Hx. induction 1 as [|v vs Hv _ IH]; [constructor|]. cbn [map]. constructor; [|done].
  unfold return_rule. cbn [map target]. rewrite (f_fixed f flag Hx), Hf, (good_value_map f v Hv).
  rewrite (f_fixed f "-j"), (f_fixed f "RETURN") by done. done.
Qed.

Lemma restore_payload v6 t w : whitelist_for v6 t w ->
  restorePayload w = "*" +:+ t +:+ nl +:+
    concat_strings (map (fun cr => "-A " +:+ fst cr +:+ " " +:+ snd cr +:+ nl)
      (map (fun c => ("TP_RULE", "-d " +:+ c +:+ " -j RETURN")) (cidrs w))) +:+ "COMMIT" +:+ nl.
Proof.
  intros (_ & Ht & _). unfold restorePayload. rewrite Ht. do 3 f_equal. f_equal. rewrite map_map.
  induction (cidrs w) as [|c cs IH]; [done|]. cbn [map concat_strings]. rewrite IH. cbn [fst snd]. by rewrite <-!s_app_assoc.
Qed.

Definition known (t flag : string) : Prop := t ∈ ["nat"; "mangle"] /\ flag ∈ ["-i"; "-o"; "-d"].

Lemma known_facts v6 t flag : known t flag ->
  words (rule_head v6 t flag) = rule_words v6 t flag /\ free_of (Ascii.eqb newline) (rule_head v6 t flag) = true /\
  plain t = true /\ fixed t = true /\ plain flag = true /\ fixed flag = true /\ String.eqb flag "-j" = false.
Proof.
  intros [Ht Hf]. repeat (apply elem_of_cons in Ht as [->|Ht]); [..|by apply elem_of_nil in Ht];
    repeat (apply elem_of_cons in Hf as [->|Hf]); try (by apply elem_of_nil in Hf); destruct v6; by vm_compute.
Qed.

(** The commands for values. *)
Lemma commands_values f `{!WordMap f} suffix v6 t flag vs : gives_suffix f suffix -> known t flag ->
  Forall (fun v => good_value v = true) vs ->
  commands_of f suffix (concat_strings (map (fun v => rule_head v6 t flag +:+ " " +:+ v +:+ " -j RETURN" +:+ nl) vs))
    (map (OpAppend (tp_rule v6 t)) (map (fun v => map f (return_rule flag v)) vs)) /\
  ends_line (concat_strings (map (fun v => rule_head v6 t flag +:+ " " +:+ v +:+ " -j RETURN" +:+ nl) vs)).
Proof.
  intros Hs Hk Hv. destruct (known_facts v6 t flag Hk) as (K1 & K2 & K3 & K4 & K5 & K6 & K7).
  rewrite map_map. apply (commands_each f suffix Hs _ (tp_rule v6 t) (return_rule flag)); [done|].
  intros v Hin. pose proof (proj1 (Forall_forall _ _) Hv v Hin) as Hg. split.
  - unfold good_value in Hg. rewrite !andb_true_iff in Hg. apply space_newline, plain_no_space, Hg.
  - rewrite words_value, K1 by done. by apply rule_line.
Qed.

Lemma per_line_text v6 t w : whitelist_for v6 t w -> t ∈ ["nat"; "mangle"] ->
  perLineCommands w = concat_strings (map (fun v => rule_head v6 t "-d" +:+ " " +:+ v +:+ " -j RETURN" +:+ nl) (cidrs w)).
Proof.
  intros (Hb & Ht & _) Hin. unfold perLineCommands. rewrite Hb, Ht. f_equal. apply map_ext. intros c.
  repeat (apply elem_of_cons in Hin as [->|Hin]); [..|by apply elem_of_nil in Hin]; by destruct v6.
Qed.

Lemma restore_plain v6 t w : whitelist_for v6 t w ->
  Forall (fun cr => forallb plain (words (fst cr +:+ " " +:+ snd cr)) = true)
    (map (fun c => ("TP_RULE", "-d " +:+ c +:+ " -j RETURN")) (cidrs w)).
Proof.
  intros (_ & _ & _ & Hc). apply Forall_map, Forall_forall. intros c Hin. cbn [fst snd].
  pose proof (proj1 (Forall_forall _ _) Hc c Hin) as Hg.
  change ("TP_RULE" +:+ " " +:+ "-d " +:+ c +:+ " -j RETURN") with ("TP_RULE -d" +:+ " " +:+ c +:+ " -j RETURN").
  rewrite words_value by done. rewrite forallb_app. unfold good_value in Hg. rewrite !andb_true_iff in Hg.
  cbn [forallb]. by rewrite (proj2 (proj1 Hg)).
Qed.

Lemma by_restore_describes f suffix base a v6 t w h : rewrites_to f suffix -> whitelist_for v6 t w ->
  describes base a (chains suffix h) -> takes_returns a (tp_rule v6 t) ->
  describes base a (chains suffix (whitelist_by_restore w f h).2).
Proof.
  intros [_ Hr] Hw Hd Ha. unfold whitelist_by_restore. destruct (commandAvailable _); [|done]. unfold hm_bind.
  pose proof Hw as (Hb & _ & _ & Hc). rewrite Hb, Hr.
  pose proof (input_restore suffix v6 t (map (fun c => ("TP_RULE", "-d " +:+ c +:+ " -j RETURN")) (cidrs w)) h
    (restorePayload w) (restore_payload v6 t w Hw)) as H2.
  destruct (exec_input _ _ _ h) as [err h2]. cbn [snd] in *.
  destruct (H2 ltac:(by eapply restore_plain) "TP_RULE" _ ltac:(clear; induction (cidrs w); by constructor) eq_refl)
    as [H3|(old & H3 & H4)]; [by eapply described_same|].
  eapply (describes_returns _ _ (tp_rule v6 t)); [done|done|exact H3|exact H4|].
  rewrite map_map. apply Forall_map, Forall_forall. intros c Hin. cbn [snd].
  pose proof (proj1 (Forall_forall _ _) Hc c Hin) as Hg.
  pose proof (words_value "-d" c Hg : words ("-d " +:+ c +:+ " -j RETURN") = return_rule "-d" c) as Hval.
  rewrite Hval. by apply value_target.
Qed.

(** Whatever way the white list takes, only rules that return are added. *)
Lemma whitelist_describes f `{!WordMap f} suffix base a v6 t w stop h : rewrites_to f suffix -> whitelist_for v6 t w ->
  t ∈ ["nat"; "mangle"] -> untouched a base -> describes base a (chains suffix h) -> takes_returns a (tp_rule v6 t) ->
  describes base a (chains suffix (whitelist_run w stop f h).2).
Proof.
  intros Hf Hw Ht Hu Hd Ha. unfold whitelist_run, hm_bind.
  pose proof (by_set_describes f suffix base a v6 t w h Hf Hw Hd Ha) as H1.
  destruct (whitelist_by_set w f h) as [[] h1]; [done|]. cbn [snd] in H1.
  pose proof (by_restore_describes f suffix base a v6 t w h1 Hf Hw H1 Ha) as H2.
  destruct (whitelist_by_restore w f h1) as [[] h2]; [done|]. cbn [snd] in H2.
  unfold ExecCommands. rewrite (per_line_text v6 t w Hw Ht).
  destruct Hw as (Hb & Htab & Hn & Hc). destruct Hf as [Hs Hr].
  destruct (commands_values f suffix v6 t "-d" (cidrs w) Hs ltac:(split; [done|set_solver]) Hc) as [Hcmd _].
  eapply exec_describes; [exact Hcmd|done|done| |].
  - apply append_returns; [done|]. by apply mapped_targets.
  - right. clear. induction (cidrs w) as [|c cs IH]; [done|]. exact IH.
Qed.
End Host.

(** ** Cutting at the markers *)

Fixpoint join_lines (ls : list string) : string :=
  match ls with
  | [] => ""
  | [l] => l
  | l :: ls => l +:+ nl +:+ join_lines ls
  end.

Lemma join_lines_cons l ls : ls <> [] -> join_lines (l :: ls) = l +:+ nl +:+ join_lines ls.
Proof. by destruct ls. Qed.

Lemma join_lines_lines s : join_lines (lines s) = s.
Proof.
  unfold lines. induction s as [|a s IH]; [done|]. cbn [split_on]. destruct (Ascii.eqb_spec newline a) as [<-|Hne].
  - rewrite join_lines_cons; [by rewrite IH|]. by destruct (split_on_cons (Ascii.eqb newline) s) as (w & ws & ->).
  - destruct (split_on_cons (Ascii.eqb newline) s) as (w & ws & Hw). rewrite Hw in *. destruct ws as [|w' ws].
    + cbn in *. by rewrite IH.
    + rewrite join_lines_cons by done. rewrite join_lines_cons in IH by done. rewrite s_app_cons. by rewrite IH.
Qed.

Lemma f_newline f `{!WordMap f} X Y : f (X +:+ nl +:+ Y) = f X +:+ nl +:+ f Y.
Proof.
  rewrite <-(join_lines_lines (f (X +:+ nl +:+ Y))), <-(join_lines_lines (f X +:+ nl +:+ f Y)). f_equal.
  rewrite (f_lines f). unfold lines. change (nl +:+ ?t) with (String newline t).
  rewrite !split_on_sep by done. rewrite map_app. change (split_on (Ascii.eqb newline)) with lines. by rewrite !(f_lines f).
Qed.

(** No word of the text looks like a marker. *)
Definition clean_text (s : string) : Prop := Forall (fun w => unmarked w = true) (split_on is_space s).

Lemma clean_text_check s : forallb unmarked (split_on is_space s) = true -> clean_text s.
Proof. intros H. apply forallb_Forall in H. exact H. Qed.

Lemma clean_text_app s t : ends_line s -> clean_text s -> clean_text t -> clean_text (s +:+ t).
Proof.
  intros [->|[s' ->]] Hs Ht; [by rewrite s_app_nil|]. unfold clean_text in *.
  unfold nl in *. rewrite <-s_app_assoc. rewrite s_app_cons, s_app_nil. rewrite split_on_sep in * by done.
  apply Forall_app in Hs as [Hs _]. by apply Forall_app.
Qed.

Lemma clean_contains m s : free_of is_space m = true -> Contains m "RAYA_WHITE" = true -> clean_text s -> Contains s m = false.
Proof.
  intros Hm Hr Hs. apply not_true_iff_false. intros Hc.
  destruct (contains_piece is_space m s Hm ltac:(by destruct m) Hc) as (w & Hw & Hcw).
  pose proof (proj1 (Forall_forall _ _) Hs w Hw) as Hu. unfold unmarked in Hu. apply negb_true_iff in Hu.
  pose proof (Contains_part w m _ Hr Hu). congruence.
Qed.

Lemma clean_map f `{!WordMap f} s : clean_text s -> clean_text (f s).
Proof.
  unfold clean_text. rewrite wm_split. intros H. apply Forall_map. eapply Forall_impl; [exact H|]. cbn. intros w. apply wm_unmarked.
Qed.

Lemma cut_marker f `{!WordMap f} m A R : free_of is_space m = true -> Contains m "RAYA_WHITE" = true -> fixed m = true ->
  ends_line A -> A <> "" -> clean_text A -> Cut (f (A +:+ m +:+ nl +:+ R)) m = Some (f A, f (nl +:+ R)).
Proof.
  intros Hm Hr Hf [->|[X ->]] Hne Hc; [done|].
  assert (HX : clean_text X).
  { unfold clean_text, nl in *. rewrite split_on_sep in Hc by done. by apply Forall_app in Hc as [Hc _]. }
  rewrite <-s_app_assoc, (f_newline f), (f_newline f), (f_fixed f m Hf).
  pose proof (f_newline f X "") as E1. pose proof (f_newline f "" R) as E2. rewrite s_app_nil_r, (f_empty f), s_app_nil_r in E1.
  rewrite s_app_nil, (f_empty f), s_app_nil in E2. rewrite E1, E2.
  apply (Cut_first m (f X) newline (nl +:+ f R)); [done|by destruct m|done|]. apply clean_contains; [done|done|by apply clean_map].
Qed.

Lemma cut_none f `{!WordMap f} m A : free_of is_space m = true -> Contains m "RAYA_WHITE" = true -> clean_text A ->
  Cut (f A) m = None.
Proof.
  intros Hm Hr Hc. pose proof (clean_contains m (f A) Hm Hr ltac:(by apply clean_map)) as H. unfold Contains in H.
  by destruct (Cut (f A) m).
Qed.

(** The steps of a setup. *)
Definition white_steps (v6 : bool) (t : string) (ips : list string) : list setterStep :=
  match ips with
  | [] => []
  | _ => [mkSetterStep "" (Some (mkLegacyWhitelist (binary_of "" v6) t (set_name v6) (if v6 then "inet6" else "inet") ips))]
  end.

Lemma setter_both f `{!WordMap f} t A4 A6 R i4 i6 :
  ends_line A4 -> A4 <> "" -> clean_text A4 -> ends_line A6 -> A6 <> "" -> clean_text A6 ->
  newLegacyWhitelistSetter
    (f (A4 +:+ legacyWhitelist4Marker +:+ nl +:+ A6 +:+ legacyWhitelist6Marker +:+ nl +:+ R)) t i4 i6 =
  mkSetter "" None ([mkSetterStep (f A4) None] ++ white_steps false t i4 ++ [mkSetterStep (f (nl +:+ A6)) None] ++
                    white_steps true t i6 ++ [mkSetterStep (f (nl +:+ R)) None])%list.
Proof.
  intros E4 N4 C4 E6 N6 C6. unfold newLegacyWhitelistSetter, family_steps at 2.
  rewrite cut_marker by done. cbn [family_steps].
  assert (Hc : clean_text (nl +:+ A6)).
  { apply clean_text_app; [right; by exists ""|by apply clean_text_check|done]. }
  assert (He : ends_line (nl +:+ A6)) by (apply ends_line_app; [right; by exists ""|done]).
  replace (nl +:+ A6 +:+ legacyWhitelist6Marker +:+ nl +:+ R) with ((nl +:+ A6) +:+ legacyWhitelist6Marker +:+ nl +:+ R)
    by (by rewrite <-!s_app_assoc).
  rewrite cut_marker by done. unfold white_steps. by destruct i4, i6.
Qed.

Lemma setter_one f `{!WordMap f} t A4 R i4 i6 : ends_line A4 -> A4 <> "" -> clean_text A4 -> clean_text R ->
  newLegacyWhitelistSetter (f (A4 +:+ legacyWhitelist4Marker +:+ nl +:+ R)) t i4 i6 =
  mkSetter "" None ([mkSetterStep (f A4) None] ++ white_steps false t i4 ++ [mkSetterStep (f (nl +:+ R)) None])%list.
Proof.
  intros E4 N4 C4 CR. unfold newLegacyWhitelistSetter, family_steps at 2. rewrite cut_marker by done. cbn [family_steps].
  assert (Hc : clean_text (nl +:+ R)).
  { apply clean_text_app; [right; by exists ""|by apply clean_text_check|done]. }
  rewrite (cut_none f legacyWhitelist6Marker) by done. unfold white_steps. by destruct i4.
Qed.
