(* ===== verification/InterceptRef.v ===== *)
(** * A host with chains

    An instance of [HostTools] and [NetfilterLaws]: chains are a finite map whose
    rules jump to chains that exist, commands are read from their words. *)

From stdpp Require Import gmap.
From S2P Require Import Prelude.
From S2P Require Import NetIP Text Iptables Netfilter.

#[local] Open Scope string_scope.

Module InterceptRef.

#[export] Instance key_countable : Countable key.
Proof.
  refine (inj_countable' (fun k => (k_v6 k, k_table k, k_chain k)) (fun x => mkKey x.1.1 x.1.2 x.2) _). by intros [].
Defined.

Definition near (k k' : key) : bool := bool_decide (k_v6 k' = k_v6 k) && bool_decide (k_table k' = k_table k).

(** Every jump to a chain of the program goes to one that exists. *)
Definition rule_ok (g : gmap key (list rule)) (k : key) (r : rule) : Prop :=
  match target r with
  | Some t => t ∈ own_names -> is_Some (g !! mkKey (k_v6 k) (k_table k) t)
  | None => True
  end.
#[export] Instance rule_ok_dec g k r : Decision (rule_ok g k r).
Proof. unfold rule_ok. destruct (target r); apply _. Defined.

Definition map_ok (g : gmap key (list rule)) : Prop := map_Forall (fun k rs => Forall (rule_ok g k) rs) g.

Definition chain_map : Type := { g : gmap key (list rule) | bool_decide (map_ok g) = true }.

Fixpoint remove_first (r : rule) (rs : list rule) : option (list rule) :=
  match rs with
  | [] => None
  | x :: rs => if decide (x = r) then Some rs else cons x <$> remove_first r rs
  end.

Definition refers (g : gmap key (list rule)) (k : key) : Prop :=
  map_Exists (fun k' rs => near k k' = true /\ Exists (fun r => target r = Some (k_chain k)) rs) g.

Definition apply_op (o : op) (g : gmap key (list rule)) : option (gmap key (list rule)) :=
  match o with
  | OpNew k => match g !! k with None => Some (<[k := []]> g) | Some _ => None end
  | OpAppend k r => rs ← g !! k; Some (<[k := (rs ++ [r])%list]> g)
  | OpInsert k r => rs ← g !! k; Some (<[k := r :: rs]> g)
  | OpDelete k r => rs ← g !! k; rs' ← remove_first r rs; Some (<[k := rs']> g)
  | OpFlush k => _ ← g !! k; Some (<[k := []]> g)
  | OpRemove k => rs ← g !! k; if bool_decide (rs = []) && negb (bool_decide (refers g k)) then Some (base.delete k g) else None
  end.

Definition tool_error : error := ExtErr "exit status 1".

(** The result is kept when it is one of a kernel. *)
Definition run_op (o : op) (h : chain_map) : option error * chain_map :=
  match apply_op o (proj1_sig h) with
  | Some g => match Sumbool.sumbool_of_bool (bool_decide (map_ok g)) with
              | left H => (None, exist _ g H)
              | right _ => (Some tool_error, h)
              end
  | None => (Some tool_error, h)
  end.

Definition run_words (ws : list string) (h : chain_map) : option error * chain_map :=
  match parse "" ws with
  | Some o => run_op o h
  | None => (None, h)
  end.

Definition tool_of (ws : list string) : string := match ws with w :: _ => w | [] => "" end.

Definition iptables_tool (w : string) : bool := String.eqb w "iptables" || String.eqb w "ip6tables".

(** A host without the suffixed binaries, sets and restore programs. *)
#[export] Instance host_ref : HostTools := {
  host := chain_map;
  sh := fun line h => if iptables_tool (tool_of (words line))
                      then run_words (words line) h
                      else if quiet (words line) then (None, h) else (Some tool_error, h);
  exec_input := fun bin args _ h =>
    if iptables_tool bin then run_words (bin :: args) h else (Some tool_error, h);
  commandAvailable := iptables_tool;
  on_linux := true; in_docker := false; supports_ipv6 := true; IPV6Support := "auto"; NftablesSupport := "off";
  iptables_version := None; geoip := fun _ => ([], []);
}.

(** ** Its laws *)

Lemma remove_first_spec r rs : match remove_first r rs with
  | Some rs' => exists l1 l2, rs = (l1 ++ r :: l2)%list /\ r ∉ l1 /\ rs' = (l1 ++ l2)%list
  | None => r ∉ rs
  end.
Proof.
  induction rs as [|x rs IH]; cbn; [by apply not_elem_of_nil|]. destruct (decide (x = r)) as [->|Hne].
  - exists [], rs. split; [done|]. split; [by apply not_elem_of_nil|done].
  - destruct (remove_first r rs) as [rs'|]; cbn.
    + destruct IH as (l1 & l2 & -> & H1 & ->). exists (x :: l1), l2. split; [done|]. split; [set_solver|done].
    + set_solver.
Qed.

Definition view_of_map (g : gmap key (list rule)) : view := fun k => g !! k.

Lemma becomes_insert g k rs : becomes (view_of_map g) (view_of_map (<[k := rs]> g)) k (Some rs).
Proof. intros k'. unfold view_of_map, upd. destruct (decide (k = k')) as [->|]; [apply lookup_insert_eq|by apply lookup_insert_ne]. Qed.

Lemma refers_spec g k : ~ refers g k <-> unreferenced (view_of_map g) k.
Proof.
  unfold refers, unreferenced, view_of_map, near. split.
  - intros H c rs r Hv Hr Ht. apply H. exists (mkKey (k_v6 k) (k_table k) c), rs. split; [done|]. split.
    + cbn. by rewrite !bool_decide_eq_true_2.
    + apply Exists_exists. by exists r.
  - intros H (k' & rs & Hk & Hn & He). apply andb_true_iff in Hn as [H1 H2]. apply bool_decide_eq_true in H1, H2.
    apply Exists_exists in He as (r & Hr & Ht). destruct k' as [v6 t c]. cbn in H1, H2. subst. by eapply (H c rs r).
Qed.

(** What [apply_op] does is the documented effect, and it does it when there is
    one. *)
Lemma apply_effect o g g' : apply_op o g = Some g' -> effect o (view_of_map g) (view_of_map g').
Proof.
  destruct o as [k|k r|k r|k r|k|k]; cbn; destruct (g !! k) as [rs|] eqn:E; cbn; try done.
  - intros [= <-]. apply eff_new; [done|apply becomes_insert].
  - intros [= <-]. by apply (eff_append k r rs); [|apply becomes_insert].
  - intros [= <-]. by apply (eff_insert k r rs); [|apply becomes_insert].
  - pose proof (remove_first_spec r rs) as H. destruct (remove_first r rs) as [rs'|]; [|done]. cbn. intros [= <-].
    destruct H as (l1 & l2 & -> & H1 & ->). by apply (eff_delete k r l1 l2); [..|apply becomes_insert].
  - intros [= <-]. by apply (eff_flush k rs); [|apply becomes_insert].
  - destruct (bool_decide_reflect (rs = [])) as [->|]; cbn; [|done]. destruct (bool_decide_reflect (refers g k)) as [|Hr]; [done|].
    intros [= <-]. apply eff_remove; [done|by apply refers_spec|]. intros k'. unfold view_of_map, upd.
    destruct (decide (k = k')) as [->|]; [apply lookup_delete_eq|by apply lookup_delete_ne].
Qed.

Lemma effect_applies o g v' : effect o (view_of_map g) v' -> is_Some (apply_op o g).
Proof.
  intros He. remember (view_of_map g) as v eqn:Ev.
  assert (Hg : forall k, v k = g !! k) by (intros k; by rewrite Ev). rename Ev into Ev0.
  destruct He as [k v v' H|k r rs v v' H|k r rs v v' H|k r l1 l2 v v' H|k rs v v' H|k v v' H U];
    rewrite Hg in H; cbn; rewrite H; cbn; try by eexists.
  - pose proof (remove_first_spec r (l1 ++ r :: l2)) as Hs. destruct (remove_first r _); [by eexists|]. set_solver.
  - rewrite Ev0 in U. apply refers_spec in U. rewrite bool_decide_eq_false_2 by done. by eexists.
Qed.

(** Taking something away leaves the jumps in order. *)
Lemma undo_ok o g g' : undoes o = true -> map_ok g -> apply_op o g = Some g' -> map_ok g'.
Proof.
  intros Hu Hok Ha. unfold map_ok in *.
  assert (Hsub : forall k rs rs', g !! k = Some rs -> rs' ⊆ rs -> g' = <[k := rs']> g ->
    map_Forall (fun k rs => Forall (rule_ok g' k) rs) g').
  { intros k rs rs' Hk Hs -> k1 rs1 H1. apply Forall_forall. intros r Hr.
    assert (Hin : exists rs0, g !! k1 = Some rs0 /\ r ∈ rs0).
    { destruct (decide (k = k1)) as [->|Hne]; [rewrite lookup_insert_eq in H1; injection H1 as <-; eauto|].
      rewrite lookup_insert_ne in H1 by done. eauto. }
    destruct Hin as (rs0 & H0 & Hr0). pose proof (proj1 (Forall_forall _ _) (Hok k1 rs0 H0) r Hr0) as H2.
    unfold rule_ok in *. destruct (target r) as [t|]; [|done]. intros Ht. destruct (H2 Ht) as [y Hy].
    destruct (decide (k = mkKey (k_v6 k1) (k_table k1) t)) as [->|Hne']; [rewrite lookup_insert_eq; by eexists|].
    rewrite lookup_insert_ne by done. by eexists. }
  destruct o as [k|k r|k r|k r|k|k]; try done; cbn in Ha; destruct (g !! k) as [rs|] eqn:E; cbn in Ha; try done.
  - pose proof (remove_first_spec r rs) as H. destruct (remove_first r rs) as [rs'|]; [|done]. cbn in Ha. injection Ha as <-.
    destruct H as (l1 & l2 & -> & _ & ->). eapply (Hsub k); [done| |done]. set_solver.
  - injection Ha as <-. eapply (Hsub k rs []); [done|set_solver|done].
  - destruct (bool_decide_reflect (rs = [])) as [->|]; cbn in Ha; [|done].
    destruct (bool_decide_reflect (refers g k)) as [|Hr]; [done|]. injection Ha as <-. apply refers_spec in Hr.
    intros k1 rs1 H1. apply lookup_delete_Some in H1 as [Hne H1]. apply Forall_forall. intros x Hx.
    pose proof (proj1 (Forall_forall _ _) (Hok k1 rs1 H1) x Hx) as H2. unfold rule_ok in *.
    destruct (target x) as [t|] eqn:Ht; [|done]. intros Hin. destruct (H2 Hin) as [y Hy]. exists y.
    apply lookup_delete_Some. split; [|done]. intros ->. destruct k1 as [v6 tb c]. cbn in *. by eapply (Hr c rs1 x).
Qed.

Definition chains_ref (suffix : string) (h : chain_map) : view :=
  if String.eqb suffix "" then view_of_map (proj1_sig h) else fun _ => None.

Lemma run_op_outcome o h : outcome o (chains_ref "" h) (run_op o h).1 (chains_ref "" (run_op o h).2).
Proof.
  unfold run_op, chains_ref. cbn [String.eqb]. destruct (apply_op o (proj1_sig h)) as [g|] eqn:Ha.
  - destruct (Sumbool.sumbool_of_bool _) as [H|H]; cbn [fst snd proj1_sig]; [right; split; [done|by apply apply_effect]|].
    left. split; [done|]. split; [by intros k|]. intros Hu. exfalso. apply bool_decide_eq_false in H. apply H.
    eapply undo_ok; [done| |done]. destruct h as [g0 H0]. exact (bool_decide_eq_true_1 _ H0).
  - left. cbn. split; [done|]. split; [by intros k|]. intros _ v'' He. apply effect_applies in He as [? He]. congruence.
Qed.

Lemma no_chains_outcome suffix o h e : suffix <> "" -> e <> None -> outcome o (chains_ref suffix h) e (chains_ref suffix h).
Proof.
  intros Hs He. left. split; [done|]. split; [by intros k|]. intros Hu v'' Hf. unfold chains_ref in Hf.
  apply String.eqb_neq in Hs. rewrite Hs in Hf. inversion Hf; subst; done.
Qed.

Lemma binary_suffix suffix v6 : binary_of suffix v6 = "iptables" \/ binary_of suffix v6 = "ip6tables" -> suffix = "".
Proof. destruct suffix; [done|]. destruct v6; cbn; by intros [H|H]. Qed.

Lemma parse_bin suffix bin args o : parse suffix (bin :: args) = Some o ->
  exists v6, bin = binary_of suffix v6 /\ parse_args v6 args = Some o.
Proof.
  cbn [parse]. destruct (String.eqb_spec bin (binary_of suffix false)) as [->|]; [by exists false|].
  destruct (String.eqb_spec bin (binary_of suffix true)) as [->|]; [by exists true|done].
Qed.

Lemma parse_empty v6 args : parse "" (binary_of "" v6 :: args) = parse_args v6 args.
Proof. by destruct v6. Qed.

#[export] Instance netfilter_ref : NetfilterLaws host_ref.
Proof.
  refine {| chains := chains_ref; extension := fun t => t ∉ own_names |}.
  - intros suffix line o h Hp Ho. destruct (words line) as [|bin args] eqn:Hw; [done|].
    destruct (parse_bin _ _ _ _ Ho) as (v6 & -> & Ha). cbn [sh host_ref]. rewrite Hw. cbn [tool_of].
    destruct (String.eqb_spec suffix "") as [->|Hs].
    + assert (Hb : iptables_tool (binary_of "" v6) = true) by (by destruct v6).
      rewrite Hb. unfold run_words. rewrite parse_empty, Ha. apply run_op_outcome.
    + destruct (iptables_tool (binary_of suffix v6)) eqn:Hb.
      { apply orb_true_iff in Hb. rewrite !String.eqb_eq in Hb. by apply binary_suffix in Hb. }
      destruct (quiet (binary_of suffix v6 :: args)) eqn:Hq; [|by apply no_chains_outcome].
      exfalso. cbn in Hq. apply andb_true_iff in Hq as [Hq _]. destruct v6; cbn in Hq; rewrite !orb_true_iff, !String.eqb_eq in Hq;
        destruct Hq as [Hq|[Hq|[Hq|Hq]]]; done.
  - intros suffix line h Hq. cbn [sh host_ref]. rewrite Hq. destruct (words line) as [|bin args]; [done|]. cbn [tool_of].
    destruct (iptables_tool _) eqn:Hb; [|by intros k]. exfalso. cbn in Hq. apply andb_true_iff in Hq as [Hq _].
    apply orb_true_iff in Hb. rewrite !String.eqb_eq in Hb. by destruct Hb as [->| ->].
  - intros suffix v6 args o h Ha. cbn [exec_input host_ref]. destruct (String.eqb_spec suffix "") as [->|Hs].
    + assert (Hb : iptables_tool (binary_of "" v6) = true) by (by destruct v6).
      rewrite Hb. unfold run_words. rewrite parse_empty, Ha. apply run_op_outcome.
    + destruct (iptables_tool _) eqn:Hb; [|by apply no_chains_outcome].
      apply orb_true_iff in Hb. rewrite !String.eqb_eq in Hb. by apply binary_suffix in Hb.
  - intros suffix args input h k. done.
  - intros suffix v6 t rules h input _ _ c rs _ _. left. cbn [exec_input host_ref].
    destruct (iptables_tool _) eqn:Hb; [|by intros k]. exfalso. apply orb_true_iff in Hb. rewrite !String.eqb_eq in Hb.
    unfold binary_of in Hb. destruct v6, Hb as [Hb|Hb]; apply (f_equal s_len) in Hb; rewrite !s_len_app in Hb; cbn in Hb; lia.
  - intros c Hc Hn. by apply Hn.
  - intros suffix h k rs r t Hk Hr Ht. unfold chains_ref in *. destruct (String.eqb suffix ""); [|done].
    destruct (decide (t ∈ own_names)) as [Hin|]; [right|by left]. destruct h as [g Hg]. cbn in *.
    apply bool_decide_eq_true_1 in Hg. pose proof (proj1 (Forall_forall _ _) (Hg k rs Hk) r Hr) as H. unfold rule_ok in H.
    rewrite Ht in H. by apply H.
Defined.

End InterceptRef.
