(* ===== verification/InterceptProps.v ===== *)
(** * Setting up and removing the interception

    Whatever command of a setup fails, the cleanup of the same mode leaves every
    chain of the host as it was. *)

From stdpp Require Import gmap.
From S2P Require Import Prelude.
From S2P Require Import NetIP Text Iptables Netfilter CommandLines InterceptSetup InterceptRef.

#[local] Open Scope string_scope.

(** ** The rewritings *)

Definition port_char (a : Ascii.ascii) : bool := digit_char a || Ascii.eqb a "+" || Ascii.eqb a "-".

Lemma atoi_chars s : is_some (Atoi s) = true ->
  free_of (fun a => negb (port_char a)) s = true /\ free_of digit_char s = false.
Proof.
  assert (Hd : forall neg t, is_some (if nonempty t && free_of (fun a => negb (digit_char a)) t then
      let n := (if neg : bool then - digits_value t 0 else digits_value t 0)%Z in
      if ((MinInt64 <=? n) && (n <=? MaxInt64))%Z then Some n else None else None) = true ->
    free_of (fun a => negb (port_char a)) t = true /\ free_of digit_char t = false).
  { intros neg t. destruct (nonempty t) eqn:Hn; [|done]. destruct (free_of _ t) eqn:Hf; [|done]. intros _. split.
    - eapply free_of_mono; [|exact Hf]. intros a. unfold port_char. by destruct (digit_char a).
    - destruct t as [|a t]; [done|]. cbn in *. by destruct (digit_char a). }
  destruct s as [|a s]; [done|]. cbn [Atoi]. destruct (Ascii.eqb_spec a "-") as [->|H1].
  { intros H. apply (Hd true) in H as [H2 H3]. by split. }
  destruct (Ascii.eqb_spec a "+") as [->|H2].
  { intros H. apply (Hd false) in H as [H3 H4]. by split. }
  intros H. apply (Hd false) in H. exact H.
Qed.

Lemma port_insertable listen : insertable (DnsModulePort listen) = true.
Proof.
  unfold DnsModulePort. destruct (last_index_byte ":" listen) as [i|]; [|by vm_compute].
  destruct (nonempty (s_drop (S i) listen) && _) eqn:E; [|by vm_compute]. apply andb_true_iff in E as [E1 E2].
  apply atoi_chars in E2 as [E2 E3]. unfold insertable. rewrite E1. cbn [andb].
  assert (H1 : plain (s_drop (S i) listen) = true).
  { unfold plain. eapply free_of_mono; [|exact E2]. intros [[] [] [] [] [] [] [] []]; by vm_compute. }
  assert (H2 : free_of (fun a => has_byte a "RAYA_WHITE") (s_drop (S i) listen) = true).
  { eapply free_of_mono; [|exact E2]. intros [[] [] [] [] [] [] [] []]; by vm_compute. }
  rewrite H1, H2. cbn [andb]. apply negb_true_iff, not_true_iff_false. intros H. apply not_true_iff_false in E3. apply E3.
  eapply free_of_mono; [|exact H]. intros [[] [] [] [] [] [] [] []]; by vm_compute.
Qed.

#[export] Instance wm_port listen : WordMap (withDnsModulePort (DnsModulePort listen)).
Proof.
  unfold withDnsModulePort. destruct (String.eqb _ _); [apply wm_id|]. apply wm_replace; [done|apply port_insertable].
Qed.

Lemma wm_variant variant : insertable ("iptables-" +:+ variant) = true -> insertable ("ip6tables-" +:+ variant) = true ->
  WordMap (fun s => rewriteIptablesBinaries s variant).
Proof.
  intros H1 H2. unfold rewriteIptablesBinaries. apply (wm_compose (fun s => ReplaceAll s "ip6tables" ("ip6tables-" +:+ variant))
    (fun s => ReplaceAll s "iptables" ("iptables-" +:+ variant))); by apply wm_replace.
Qed.

Section Rewrite.
Context `{T : HostTools}.

(** The suffix of the binaries on this host. *)
Definition host_suffix : string :=
  if in_docker then "-legacy"
  else if (negb (commandAvailable "iptables") || IsNftablesSupported) && commandAvailable "iptables-nft" then "-nft"
  else "".

#[export] Instance wm_rewrite : WordMap rewriteIptablesCommands.
Proof.
  unfold rewriteIptablesCommands. destruct in_docker; [by apply wm_variant|]. destruct (_ && _); [by apply wm_variant|].
  apply wm_id.
Qed.

Lemma rewrite_suffix : rewrites_to rewriteIptablesCommands host_suffix.
Proof.
  unfold rewrites_to, gives_suffix, rewriteIptablesCommands, host_suffix.
  destruct in_docker; [split; [by vm_compute|intros []; by vm_compute]|].
  destruct (_ && _); (split; [by vm_compute|intros []; by vm_compute]).
Qed.

End Rewrite.

Lemma both_suffix f listen suffix : gives_suffix f suffix ->
  gives_suffix (fun s => f (withDnsModulePort (DnsModulePort listen) s)) suffix.
Proof.
  intros [H1 H2]. unfold gives_suffix, withDnsModulePort. destruct (String.eqb _ _); [by split|].
  by rewrite !ReplaceAll_unchanged.
Qed.

(** ** The steps of a setup *)

Inductive steps_read (f : string -> string) (suffix t : string) : list setterStep -> abs -> abs -> Prop :=
| sr_nil a : steps_read f suffix t [] a a
| sr_text s ss os a a1 a' : reads suffix (lines (f s)) os -> forallb (fun o => negb (undoes o)) os = true ->
    analyse os a = Some a1 -> steps_read f suffix t ss a1 a' -> steps_read f suffix t (mkSetterStep s None :: ss) a a'
| sr_white v6 w ss a a' : whitelist_for v6 t w -> takes_returns a (tp_rule v6 t) -> steps_read f suffix t ss a a' ->
    steps_read f suffix t (mkSetterStep "" (Some w) :: ss) a a'.

Lemma analyse_same base os : forall a a' v, forallb (fun o => negb (undoes o)) os = true -> analyse os a = Some a' ->
  describes base a v -> same_own a a'.
Proof.
  induction os as [|o os IH]; intros a a' v Hf Ha Hd; cbn in *; [by injection Ha as <-|].
  apply andb_true_iff in Hf as [H1 H2]. destruct (transfer o a) as [a1|] eqn:Ht; [|done].
  destruct (transfer_keeps base a a1 o v) as [H3 H4]; [by apply negb_true_iff|done|done|].
  intros k. rewrite (IH a1 a' v H2 Ha H3 k). apply H4.
Qed.

Section Steps.
Context `{T : HostTools} `{NL : !NetfilterLaws T}.
Context (f : string -> string) `{!WordMap f} (suffix t : string) (Hf : rewrites_to f suffix) (Ht : t ∈ ["nat"; "mangle"]).

Lemma steps_keep base ss a a' v : steps_read f suffix t ss a a' -> describes base a v -> describes base a' v /\ same_own a a'.
Proof.
  induction 1 as [a|s ss os a a1 a' Hr Hu Ha _ IH|v6 w ss a a' Hw Hk _ IH]; intros Hd; [done| |auto].
  pose proof (analyse_same base os a a1 v Hu Ha Hd) as H1. destruct (IH (analyse_keeps base os a a1 v Hu Ha Hd)) as [H2 H3].
  split; [done|]. intros k. by rewrite (H3 k).
Qed.

Lemma steps_describe base ss a a' : steps_read f suffix t ss a a' -> forall first h, untouched a base ->
  describes base a (chains suffix h) -> describes base a' (chains suffix (run_steps ss true f first h).2).
Proof.
  induction 1 as [a|s ss os a a1 a' Hr Hu Ha Hs IH|v6 w ss a a' Hw Hk Hs IH]; intros first h Hun Hd; cbn [run_steps]; [done|..].
  - unfold hm_bind, step_run. cbn [step_whitelist step_commands].
    assert (Hstep : exists e h1, (if nonempty s then ExecCommands (f s) true else hm_ret None) h = (e, h1) /\
                      describes base a1 (chains suffix h1)).
    { destruct (nonempty s); [|exists None, h; split; [done|by eapply analyse_keeps]].
      pose proof (exec_describes suffix base (lines (f s)) os Hr a a1 true None h Hun Hd Ha (or_intror Hu)) as [H1 _].
      unfold ExecCommands. destruct (exec_lines _ _ _ h) as [e h1]. eauto. }
    destruct Hstep as (e & h1 & -> & Hd1). pose proof (analyse_same base os a a1 _ Hu Ha Hd) as Hso.
    destruct e as [e|]; [|by apply IH; [eapply untouched_same|]]. cbn. by eapply steps_keep.
  - unfold hm_bind, step_run. cbn [step_whitelist].
    pose proof (whitelist_describes f suffix base a v6 t w true h Hf Hw Ht Hun Hd Hk) as Hd1.
    destruct (whitelist_run w true f h) as [e h1]. cbn [snd] in Hd1. destruct e as [e|]; [|by apply IH].
    cbn. by eapply steps_keep.
Qed.

End Steps.

(** Nothing of the program is left. *)
Definition all_absent (a : abs) : bool :=
  forallb (fun ks => match snd ks with Absent => true | _ => false end) (a_own a) && bool_decide (a_jumps a = []).

Lemma status_in l k s : status_of l k = Some s -> (k, s) ∈ l.
Proof.
  induction l as [|[k1 s1] l IH]; [done|]. cbn. destruct (decide (k = k1)) as [->|]; [intros [= ->]; left|right; auto].
Qed.

Lemma restored base a v : untouched a base -> describes base a v -> all_absent a = true -> forall k, v k = base k.
Proof.
  unfold all_absent. rewrite andb_true_iff, bool_decide_eq_true, List.forallb_forall. intros [U1 _] [D1 D2] [H1 H2] k.
  destruct (status_of (a_own a) k) as [s|] eqn:E.
  - rewrite (U1 k s E). specialize (H1 _ (proj1 (list_elem_of_In _ _) (status_in _ _ _ E))). destruct s; try done.
    exact (D1 k Absent E).
  - specialize (D2 k E). destruct (base k) as [rs|]; [|done]. destruct D2 as (P & H3 & _ & H5). rewrite H3.
    destruct P as [|r P]; [done|]. specialize (H5 r ltac:(left)). rewrite H2 in H5. by apply elem_of_nil in H5.
Qed.

(** ** Excluded interfaces *)

Definition interface_value (v : string) : string := ReplaceAll v "*" "+".

Lemma interface_text v6 t flag ifs : known t flag ->
  interface_rules (binary_of "" v6) t flag ifs =
  concat_strings (map (fun v => rule_head v6 t flag +:+ " " +:+ v +:+ " -j RETURN" +:+ nl) (map interface_value ifs)).
Proof.
  intros Hk. unfold interface_rules, interface_value. rewrite map_map. f_equal. apply map_ext. intros v.
  unfold rule_head. by rewrite <-!s_app_assoc.
Qed.

Lemma interface_plain v : interface_name v = true -> plain (interface_value v) = true.
Proof.
  unfold interface_name. rewrite andb_true_iff. intros [_ H]. unfold interface_value. induction v as [|a v IH]; [done|].
  cbn [free_of] in H. rewrite andb_true_iff, negb_involutive in H. destruct H as [Ha Hv].
  destruct (Ascii.ascii_dec a "*") as [->|Hne].
  - change (String "*" v) with ("*" +:+ v). rewrite ReplaceAll_hit by done. unfold plain. rewrite free_of_app. apply IH in Hv.
    exact Hv.
  - assert (Hp : HasPrefix (String a v) "*" = false).
    { apply not_true_iff_false. intros Hp. apply HasPrefix_spec in Hp as [t Ht]. rewrite s_app_cons in Ht. by injection Ht. }
    rewrite ReplaceAll_miss by done. unfold plain. cbn [free_of]. rewrite (IH Hv : free_of _ _ = true), negb_involutive, andb_true_r.
    revert Ha Hne. clear. destruct a as [[] [] [] [] [] [] [] []]; by vm_compute.
Qed.

(** Names that iptables does not take for an option, and that are not the markers. *)
Definition usable_name (v : string) : Prop := v <> "-j" /\ Contains v "RAYA_WHITE" = false.

Lemma interface_good v : interface_name v = true -> usable_name v -> good_value (interface_value v) = true.
Proof.
  intros Hn [Hj _]. unfold good_value. rewrite (interface_plain v Hn).
  assert (H1 : nonempty (interface_value v) = true).
  { unfold interface_name in Hn. apply andb_true_iff in Hn as [Hn _]. by apply ReplaceAll_nonempty. }
  rewrite H1. cbn [andb]. apply negb_true_iff, String.eqb_neq. intros H. unfold interface_value in H.
  destruct (Contains v "*") eqn:Hc; [|by rewrite ReplaceAll_unchanged in H].
  destruct (replace_contains v "*" "+" ltac:(done) Hc) as (b & u & Hb). rewrite H in Hb.
  assert (Hf : has_byte "+" "-j" = true) by (rewrite Hb, !has_byte_app; by rewrite orb_true_r). done.
Qed.

Lemma words_clean head v : clean_text head -> free_of is_space v = true -> unmarked v = true ->
  clean_text (head +:+ " " +:+ v +:+ " -j RETURN" +:+ nl).
Proof.
  intros Hh Hs Hv. unfold clean_text in *.
  change (" " +:+ v +:+ " -j RETURN" +:+ nl) with (String " " (v +:+ String " " ("-j RETURN" +:+ nl))).
  rewrite !split_on_sep by done. rewrite (split_on_one _ v Hs). apply Forall_app. split; [done|]. apply Forall_app.
  split; [by constructor|]. by repeat constructor.
Qed.

Lemma interfaces_clean v6 t flag ifs : known t flag -> Forall (fun v => interface_name v = true) ifs -> Forall usable_name ifs ->
  clean_text (interface_rules (binary_of "" v6) t flag ifs).
Proof.
  intros Hk Hn Hu. rewrite interface_text by done.
  destruct (known_facts v6 t flag Hk) as (K1 & _). assert (Hh : clean_text (rule_head v6 t flag)).
  { apply clean_text_check. destruct Hk as [Ht Hf]. repeat (apply elem_of_cons in Ht as [->|Ht]); [..|by apply elem_of_nil in Ht];
      repeat (apply elem_of_cons in Hf as [->|Hf]); try (by apply elem_of_nil in Hf); destruct v6; by vm_compute. }
  induction ifs as [|v ifs IH]; [by apply clean_text_check|]. apply Forall_cons in Hn as [Hn1 Hn2]. apply Forall_cons in Hu as [Hu1 Hu2].
  cbn [map concat_strings]. apply clean_text_app; [|apply words_clean; [done|..]|by apply IH].
  - right. exists (rule_head v6 t flag +:+ " " +:+ interface_value v +:+ " -j RETURN"). by rewrite <-!s_app_assoc.
  - by apply plain_no_space, interface_plain.
  - unfold unmarked, interface_value. apply negb_true_iff. apply contains_replace; try done. apply Hu1.
Qed.

(** ** The parts of a setup *)

Definition known_names (ifs : list string) : Prop :=
  Forall (fun v => interface_name v = true) ifs /\ Forall usable_name ifs.

Lemma names_good ifs : known_names ifs -> Forall (fun v => good_value v = true) (map interface_value ifs).
Proof.
  intros [Hn Hu]. apply Forall_map, Forall_forall. intros v Hv.
  apply interface_good; [by apply (proj1 (Forall_forall _ _) Hn)|by apply (proj1 (Forall_forall _ _) Hu)].
Qed.

Lemma interface_ends v6 t flag ifs : known t flag -> known_names ifs -> ends_line (interface_rules (binary_of "" v6) t flag ifs).
Proof.
  intros Hk Hn. rewrite interface_text by done.
  apply (commands_values (fun s => s) "" v6 t flag (map interface_value ifs)); [by split|done|by apply names_good].
Qed.

(** A text, the excluded interfaces and another text: what the analysis gives. *)
Definition part_state (v6 : bool) (t t1 t2 : string) (a : abs) : option abs :=
  match text_ops (lines t1), text_ops (lines t2) with
  | Some o1, Some o2 =>
    if forallb (fun o => negb (undoes o) && op_fixed o) (o1 ++ o2)%list && HasSuffix t1 nl then
      match analyse o1 a with
      | Some a1 =>
        match status_of (a_own a1) (tp_rule v6 t) with
        | Some (Holds ts) => if bool_decide ("RETURN" ∈ ts) then analyse o2 a1 else None
        | _ => None
        end
      | None => None
      end
    else None
  | _, _ => None
  end.

Definition part_text (v6 : bool) (t t1 t2 : string) (ifs : list string) : string :=
  t1 +:+ interface_rules (binary_of "" v6) t "-i" ifs +:+ interface_rules (binary_of "" v6) t "-o" ifs +:+ t2.

Lemma part_read f `{!WordMap f} suffix v6 t t1 t2 ifs a a' : gives_suffix f suffix -> t ∈ ["nat"; "mangle"] ->
  known_names ifs -> part_state v6 t t1 t2 a = Some a' ->
  exists os, commands_of f suffix (part_text v6 t t1 t2 ifs) os /\ forallb (fun o => negb (undoes o)) os = true /\
    analyse os a = Some a'.
Proof.
  intros Hs Ht Hk Hp. unfold part_state in Hp. destruct (text_ops (lines t1)) as [o1|] eqn:E1; [|done].
  destruct (text_ops (lines t2)) as [o2|] eqn:E2; [|done]. destruct (_ && _) eqn:Hc; [|done].
  apply andb_true_iff in Hc as [Hc1 Hc2]. rewrite forallb_app, andb_true_iff in Hc1. destruct Hc1 as [C1 C2].
  destruct (analyse o1 a) as [a1|] eqn:Ea; [|done]. destruct (status_of _ _) as [[| |ts]|] eqn:Est; try done.
  destruct (bool_decide_reflect ("RETURN" ∈ ts)) as [Hin|]; [|done].
  assert (Htr : takes_returns a1 (tp_rule v6 t)) by (by exists ts).
  pose proof (names_good ifs Hk) as Hg.
  assert (Hsplit : forall os, forallb (fun o => negb (undoes o) && op_fixed o) os = true ->
    forallb (fun o => negb (undoes o)) (map (map_op f) os) = true /\ forallb op_fixed os = true).
  { clear. induction os as [|o os IH]; [done|]. cbn. rewrite !andb_true_iff, undoes_map. intros [[H1 H2] H3].
    destruct (IH H3). auto. }
  destruct (Hsplit o1 C1) as [S1 F1]. destruct (Hsplit o2 C2) as [S2 F2].
  destruct (commands_values f suffix v6 t "-i" _ Hs ltac:(split; [done|set_solver]) Hg) as [R1 N1].
  destruct (commands_values f suffix v6 t "-o" _ Hs ltac:(split; [done|set_solver]) Hg) as [R2 N2].
  rewrite <-interface_text in R1, N1 by (split; [done|set_solver]). rewrite <-interface_text in R2, N2 by (split; [done|set_solver]).
  eexists. split; [|split].
  - unfold part_text. apply commands_app; [done|by apply ends_line_check|by apply commands_text|].
    apply commands_app; [done|done|exact R1|]. apply commands_app; [done|done|exact R2|by apply commands_text].
  - rewrite !forallb_app, S1, S2. cbn [andb]. rewrite andb_true_r. clear. rewrite andb_true_iff.
    split; induction (map interface_value ifs); done.
  - rewrite analyse_app, analyse_map, Ea by done. cbn [mbind option_bind].
    rewrite analyse_app, append_returns; [|done|by apply mapped_targets]. cbn [mbind option_bind].
    rewrite analyse_app, append_returns; [|done|by apply mapped_targets]. cbn [mbind option_bind]. by rewrite analyse_map.
Qed.

(** ** The modes *)

Inductive mode := Redirect | Tproxy.

Definition mode_table (m : mode) : string := match m with Redirect => "nat" | Tproxy => "mangle" end.
Definition mode_chains (m : mode) : list string :=
  match m with
  | Redirect => ["TP_OUT"; "TP_PRE"; "TP_RULE"; "DNS_REDIRECT"]
  | Tproxy => ["TP_OUT"; "TP_PRE"; "TP_RULE"; "TP_MARK"; "DNS_MARK"]
  end.

Definition rules_text (m : mode) (v6 : bool) : string :=
  match m, v6 with
  | Redirect, false => redirect_rules4 | Redirect, true => redirect_rules6
  | Tproxy, false => tproxy_rules4 | Tproxy, true => tproxy_rules6
  end.
Definition dns_text (m : mode) (v6 : bool) : string :=
  match m, v6 with Redirect, _ => "" | Tproxy, false => tproxy_dns4 | Tproxy, true => tproxy_dns6 end.
Definition last_text (m : mode) (v6 : bool) : string :=
  match m, v6 with
  | Redirect, false => redirect_hooks4 | Redirect, true => redirect_hooks6
  | Tproxy, false => tproxy_mark4 | Tproxy, true => tproxy_mark6
  end.
Definition removal_text (m : mode) (v6 : bool) : string :=
  match m with
  | Redirect => redirect_clean4 +:+ (if v6 then redirect_clean6 else "") +:+ clean_sets
  | Tproxy => tproxy_clean4 +:+ (if v6 then tproxy_clean6 else "") +:+ tproxy_clean_rest
  end.

Definition own_keys (m : mode) (v6 : bool) : list key :=
  (map (mkKey false (mode_table m)) (mode_chains m) ++ if v6 then map (mkKey true (mode_table m)) (mode_chains m) else [])%list.

Definition initial (m : mode) (v6 : bool) : abs := mkAbs (map (fun k => (k, Absent)) (own_keys m v6)) [].

(** The states after the parts. *)
Definition state_rules4 (m : mode) (v6 : bool) : option abs :=
  part_state false (mode_table m) (rules_text m false) (dns_text m false) (initial m v6).

Definition state_end (m : mode) (v6 : bool) : option abs :=
  a1 ← state_rules4 m v6;
  if v6 then
    a2 ← part_state true (mode_table m) (nl +:+ last_text m false +:+ rules_text m true) (dns_text m true) a1;
    part_state true (mode_table m) (nl +:+ last_text m true) "" a2
  else part_state false (mode_table m) (nl +:+ last_text m false) "" a1.

(** Cleaning up from the end of a setup, or from its start, leaves nothing. *)
Definition removes (m : mode) (v6 : bool) (a : abs) : bool :=
  match text_ops (lines (removal_text m v6)) with
  | Some os => forallb op_fixed os && match analyse os a with Some a' => all_absent a' | None => false end
  | None => false
  end.

Definition can_return (a : option abs) (k : key) : bool :=
  match a with
  | Some a => match status_of (a_own a) k with Some (Holds ts) => bool_decide ("RETURN" ∈ ts) | _ => false end
  | None => false
  end.

Definition mode_checked (m : mode) (v6 : bool) : bool :=
  can_return (state_rules4 m v6) (tp_rule false (mode_table m)) &&
  (negb v6 || can_return (a1 ← state_rules4 m v6;
                          part_state true (mode_table m) (nl +:+ last_text m false +:+ rules_text m true) (dns_text m true) a1)
                (tp_rule true (mode_table m))) &&
  match state_end m v6 with Some a => removes m v6 a | None => false end &&
  removes m v6 (initial m v6) &&
  forallb (fun s => forallb unmarked (split_on is_space s))
    [rules_text m false; rules_text m true; dns_text m false; dns_text m true; last_text m false; last_text m true] &&
  HasSuffix (last_text m false) nl && HasSuffix (rules_text m false) nl && HasSuffix (rules_text m true) nl &&
  (String.eqb (dns_text m false) "" || HasSuffix (dns_text m false) nl) &&
  (String.eqb (dns_text m true) "" || HasSuffix (dns_text m true) nl).

Lemma modes_checked m v6 : mode_checked m v6 = true.
Proof. destruct m, v6; vm_compute; reflexivity. Qed.

Lemma can_return_spec a k : can_return a k = true -> exists a', a = Some a' /\ takes_returns a' k.
Proof.
  unfold can_return. destruct a as [a'|]; [|done]. destruct (status_of (a_own a') k) as [[| |ts]|] eqn:E; try done.
  intros H. apply bool_decide_eq_true in H. exists a'. split; [done|]. by exists ts.
Qed.

Section Modes.
Context `{T : HostTools} `{NL : !NetfilterLaws T}.

Definition setup (m : mode) (s : settings) : Setter :=
  match m with Redirect => legacyRedirect_GetSetupCommands s | Tproxy => legacyTproxy_GetSetupCommands s end.
Definition cleanup (m : mode) (s : settings) : Setter :=
  match m with Redirect => legacyRedirect_GetCleanCommands s | Tproxy => legacyTproxy_GetCleanCommands s end.

(** The values that the settings give can be used in commands. *)
Definition usable (s : settings) : Prop :=
  forall ifs i4 i6, getTproxySetupValues s = Ok (ifs, i4, i6) ->
    Forall usable_name ifs /\ Forall (fun c => good_value c = true) i4 /\ Forall (fun c => good_value c = true) i6.

Lemma interfaces_named vs ifs : read_interfaces vs = Ok ifs -> Forall (fun v => interface_name v = true) ifs.
Proof.
  revert ifs. induction vs as [|v vs IH]; intros ifs; cbn; [intros [= <-]; constructor|].
  destruct (String.eqb (TrimSpace v) ""); [apply IH|]. destruct (interface_name (TrimSpace v)) eqn:Hn; cbn [negb]; [|done].
  destruct (read_interfaces vs) as [res|]; [|done]. intros [= <-]. constructor; [done|]. by apply IH.
Qed.

Lemma values_named s ifs i4 i6 : getTproxySetupValues s = Ok (ifs, i4, i6) -> Forall (fun v => interface_name v = true) ifs.
Proof.
  unfold getTproxySetupValues. destruct (GetExcludedInterfaces (s_excluded s)) as [xs|] eqn:E; [|done].
  destruct (GetWhiteListIPs (s_white s)) as [[a b]|]; [|done]. intros [= <- <- <-]. unfold GetExcludedInterfaces in E.
  destruct (String.eqb _ _); [injection E as <-; constructor|]. by eapply interfaces_named.
Qed.

Lemma mode_text_both m ifs : IsIPv6Supported = true ->
  match m with Redirect => redirect_text ifs | Tproxy => tproxy_text ifs end =
  part_text false (mode_table m) (rules_text m false) (dns_text m false) ifs +:+ legacyWhitelist4Marker +:+ nl +:+
  (last_text m false +:+ part_text true (mode_table m) (rules_text m true) (dns_text m true) ifs) +:+
  legacyWhitelist6Marker +:+ nl +:+ last_text m true.
Proof.
  intros Hv. destruct m; unfold redirect_text, tproxy_text, part_text; rewrite Hv; cbn [mode_table rules_text dns_text last_text];
    rewrite ?s_app_nil_r, <-!s_app_assoc; done.
Qed.

Lemma mode_text_one m ifs : IsIPv6Supported = false ->
  match m with Redirect => redirect_text ifs | Tproxy => tproxy_text ifs end =
  part_text false (mode_table m) (rules_text m false) (dns_text m false) ifs +:+ legacyWhitelist4Marker +:+ nl +:+
  last_text m false.
Proof.
  intros Hv. destruct m; unfold redirect_text, tproxy_text, part_text; rewrite Hv; cbn [mode_table rules_text dns_text last_text];
    rewrite ?s_app_nil_r, <-!s_app_assoc, ?s_app_nil_r; done.
Qed.

Lemma mode_table_known m : mode_table m ∈ ["nat"; "mangle"].
Proof. destruct m; [left|right; left]. Qed.

Lemma known_table m flag : flag ∈ ["-i"; "-o"; "-d"] -> known (mode_table m) flag.
Proof. intros H. split; [apply mode_table_known|done]. Qed.

Lemma part_clean m v6 t1 t2 ifs : known_names ifs -> HasSuffix t1 nl = true -> clean_text t1 -> clean_text t2 ->
  clean_text (part_text v6 (mode_table m) t1 t2 ifs).
Proof.
  intros [Hn Hu] Hs H1 H2. unfold part_text. apply clean_text_app; [by apply ends_line_check|done|].
  apply clean_text_app; [apply interface_ends; [apply known_table; set_solver|done]|
    apply interfaces_clean; [apply known_table; set_solver|done|done]|].
  apply clean_text_app; [apply interface_ends; [apply known_table; set_solver|done]|
    apply interfaces_clean; [apply known_table; set_solver|done|done]|done].
Qed.

Lemma part_ends m v6 t1 t2 ifs : known_names ifs -> HasSuffix t1 nl = true -> String.eqb t2 "" || HasSuffix t2 nl = true ->
  ends_line (part_text v6 (mode_table m) t1 t2 ifs) /\ part_text v6 (mode_table m) t1 t2 ifs <> "".
Proof.
  intros Hn Hs H2. split.
  - unfold part_text. repeat apply ends_line_app; [by apply ends_line_check|
      apply interface_ends; [apply known_table; set_solver|done]..|].
    apply orb_true_iff in H2 as [H2|H2]; [left; by apply String.eqb_eq|by apply ends_line_check].
  - unfold part_text. apply HasSuffix_spec in Hs as [p ->]. by destruct p.
Qed.

(** A text without interfaces. *)
Lemma part_alone v6 t t1 : part_text v6 t t1 "" [] = t1.
Proof. unfold part_text, interface_rules. cbn [map concat_strings]. by rewrite !s_app_nil_r. Qed.

Lemma white_read f suffix m v6 ips ss a a' : Forall (fun c => good_value c = true) ips ->
  takes_returns a (tp_rule v6 (mode_table m)) -> steps_read f suffix (mode_table m) ss a a' ->
  steps_read f suffix (mode_table m) (white_steps v6 (mode_table m) ips ++ ss)%list a a'.
Proof.
  intros Hg Ha Hs. destruct ips as [|ip ips]; [done|]. cbn [white_steps app]. by eapply sr_white.
Qed.

Lemma part_prefix v6 t x t1 t2 ifs : part_text v6 t (x +:+ t1) t2 ifs = x +:+ part_text v6 t t1 t2 ifs.
Proof. unfold part_text. by rewrite <-s_app_assoc. Qed.

(** What was checked of the texts. *)
Record mode_facts (m : mode) (v6 : bool) : Prop := {
  mf_rules : exists a1, state_rules4 m v6 = Some a1 /\ takes_returns a1 (tp_rule false (mode_table m));
  mf_rules6 : v6 = true -> exists a1 a2, state_rules4 m v6 = Some a1 /\
    part_state true (mode_table m) (nl +:+ last_text m false +:+ rules_text m true) (dns_text m true) a1 = Some a2 /\
    takes_returns a2 (tp_rule true (mode_table m));
  mf_end : exists a, state_end m v6 = Some a /\ removes m v6 a = true;
  mf_start : removes m v6 (initial m v6) = true;
  mf_clean : forall w, clean_text (rules_text m w) /\ clean_text (dns_text m w) /\ clean_text (last_text m w);
  mf_suffix : forall w, HasSuffix (rules_text m w) nl = true /\ String.eqb (dns_text m w) "" || HasSuffix (dns_text m w) nl = true;
  mf_last : HasSuffix (last_text m false) nl = true;
}.

Lemma mode_has_facts m v6 : mode_facts m v6.
Proof.
  pose proof (modes_checked m v6) as Hc. unfold mode_checked in Hc. rewrite !andb_true_iff in Hc.
  destruct Hc as [[[[[[[[[C1 C2] C3] C4] C5] C6] C7] C8] C9] C10]. cbn [forallb] in C5. rewrite !andb_true_iff in C5.
  destruct C5 as (X1 & X2 & X3 & X4 & X5 & X6 & _). split.
  - by apply can_return_spec.
  - intros ->. cbn [negb orb] in C2. apply can_return_spec in C2 as (a2 & E2 & R2).
    destruct (state_rules4 m true) as [a1|]; [|done]. exists a1, a2. auto.
  - destruct (state_end m v6) as [a|]; [|done]. by exists a.
  - exact C4.
  - intros []; (split; [|split]); by apply clean_text_check.
  - intros []; by split.
  - exact C6.
Qed.

Section Read.
Context (m : mode) (s : settings) (ifs i4 i6 : list string).
Context (Hk : known_names ifs) (U4 : Forall (fun c => good_value c = true) i4) (U6 : Forall (fun c => good_value c = true) i6).

Let pm := withDnsModulePort (DnsModulePort (s_listen s)).

Lemma wm_all : WordMap (fun x => rewriteIptablesCommands (pm x)).
Proof. apply wm_compose; apply _. Qed.

Lemma suffix_all : gives_suffix (fun x => rewriteIptablesCommands (pm x)) host_suffix.
Proof. apply both_suffix, rewrite_suffix. Qed.

(** One step of text. *)
Lemma text_step v6 t1 t2 ns a a1 a' ss : known_names ns -> part_state v6 (mode_table m) t1 t2 a = Some a1 ->
  steps_read rewriteIptablesCommands host_suffix (mode_table m) ss a1 a' ->
  steps_read rewriteIptablesCommands host_suffix (mode_table m)
    (mkSetterStep (pm (part_text v6 (mode_table m) t1 t2 ns)) None :: ss) a a'.
Proof.
  intros Hn Hp Hs. pose proof wm_all as Hw.
  destruct (part_read _ host_suffix v6 _ _ _ ns _ _ suffix_all (mode_table_known m) Hn Hp) as (os & O1 & O2 & O3).
  eapply sr_text; [exact O1|exact O2|exact O3|exact Hs].
Qed.

Lemma no_names : known_names [].
Proof. split; constructor. Qed.

Lemma read_both : IsIPv6Supported = true ->
  exists ss a', newLegacyWhitelistSetter (pm (match m with Redirect => redirect_text ifs | Tproxy => tproxy_text ifs end))
      (mode_table m) i4 i6 = mkSetter "" None ss /\ ss <> [] /\
    steps_read rewriteIptablesCommands host_suffix (mode_table m) ss (initial m true) a' /\ state_end m true = Some a'.
Proof.
  intros Hv. destruct (mode_has_facts m true) as [_ F2 F3 _ F5 F6 F7].
  destruct (F2 eq_refl) as (a1 & a2 & E1 & E2 & R2). destruct F3 as (a3 & E3 & _).
  destruct (mf_rules _ _ (mode_has_facts m true)) as (a1' & E1' & R1). assert (a1' = a1) as -> by congruence.
  destruct (F5 false) as (L1 & L2 & L3). destruct (F5 true) as (K1 & K2 & K3). destruct (F6 false) as [S1 S2]. destruct (F6 true) as [S3 S4].
  destruct (part_ends m false _ _ ifs Hk S1 S2) as [P1 P2]. destruct (part_ends m true _ _ ifs Hk S3 S4) as [Q1 Q2].
  pose proof (part_clean m false _ _ ifs Hk S1 L1 L2) as P3. pose proof (part_clean m true _ _ ifs Hk S3 K1 K2) as Q3.
  rewrite mode_text_both by done. rewrite setter_both; [|apply _|done|done|done| | |].
  - eexists _, a3. split; [reflexivity|]. split; [done|]. split; [|done]. cbn [app].
    apply (text_step false _ _ ifs _ a1); [done|done|]. apply white_read; [done|done|]. cbn [app].
    rewrite <-!part_prefix. apply (text_step true _ _ ifs _ a2); [done|done|]. apply white_read; [done|done|].
    rewrite <-(part_alone true (mode_table m) (nl +:+ last_text m true)).
    unfold state_end in E3. rewrite E1 in E3. cbn [mbind option_bind] in E3. rewrite E2 in E3. cbn [mbind option_bind] in E3.
    apply (text_step true _ _ [] _ a3); [apply no_names|done|constructor].
  - apply ends_line_app; [by apply ends_line_check|done].
  - intros H. apply HasSuffix_spec in F7 as [p Hp]. rewrite Hp in H. by destruct p.
  - apply clean_text_app; [by apply ends_line_check|done|done].
Qed.

Lemma read_one : IsIPv6Supported = false ->
  exists ss a', newLegacyWhitelistSetter (pm (match m with Redirect => redirect_text ifs | Tproxy => tproxy_text ifs end))
      (mode_table m) i4 i6 = mkSetter "" None ss /\ ss <> [] /\
    steps_read rewriteIptablesCommands host_suffix (mode_table m) ss (initial m false) a' /\ state_end m false = Some a'.
Proof.
  intros Hv. destruct (mode_has_facts m false) as [F1 _ F3 _ F5 F6 F7]. destruct F1 as (a1 & E1 & R1). destruct F3 as (a3 & E3 & _).
  destruct (F5 false) as (L1 & L2 & L3). destruct (F6 false) as [S1 S2].
  destruct (part_ends m false _ _ ifs Hk S1 S2) as [P1 P2]. pose proof (part_clean m false _ _ ifs Hk S1 L1 L2) as P3.
  rewrite mode_text_one by done. rewrite setter_one; [|apply _|done|done|done|done].
  eexists _, a3. split; [reflexivity|]. split; [done|]. split; [|done]. cbn [app].
  apply (text_step false _ _ ifs _ a1); [done|done|]. apply white_read; [done|done|].
  rewrite <-(part_alone false (mode_table m) (nl +:+ last_text m false)).
  unfold state_end in E3. rewrite E1 in E3. cbn [mbind option_bind] in E3.
  apply (text_step false _ _ [] _ a3); [apply no_names|done|constructor].
Qed.

End Read.

(** The steps of a setup are read by the analysis. *)
Lemma setup_read m s ifs i4 i6 : getTproxySetupValues s = Ok (ifs, i4, i6) -> usable s ->
  exists ss a', setup m s = mkSetter "" None ss /\ ss <> [] /\
    steps_read rewriteIptablesCommands host_suffix (mode_table m) ss (initial m IsIPv6Supported) a' /\
    state_end m IsIPv6Supported = Some a'.
Proof.
  intros Hv Hu. destruct (Hu _ _ _ Hv) as (U1 & U2 & U3). assert (Hk : known_names ifs) by (split; [by eapply values_named|done]).
  assert (Hset : setup m s = newLegacyWhitelistSetter (withDnsModulePort (DnsModulePort (s_listen s))
    (match m with Redirect => redirect_text ifs | Tproxy => tproxy_text ifs end)) (mode_table m) i4 i6).
  { destruct m; cbn [setup mode_table]; unfold legacyRedirect_GetSetupCommands, legacyTproxy_GetSetupCommands; by rewrite Hv. }
  rewrite Hset. destruct IsIPv6Supported eqn:H6; [by apply read_both|by apply read_one].
Qed.

(** ** The host before a setup *)

Definition no_own_chains (m : mode) (h : host) : Prop :=
  forall k, k ∈ own_keys m IsIPv6Supported -> chains host_suffix h k = None.

Lemma status_initial m v6 k s : status_of (a_own (initial m v6)) k = Some s -> s = Absent /\ k ∈ own_keys m v6.
Proof.
  unfold initial. cbn [a_own]. induction (own_keys m v6) as [|k1 ks IH]; cbn [map status_of]; [done|].
  destruct (decide (k = k1)) as [->|]; [intros [= <-]; split; [done|left]|]. intros H. destruct (IH H). split; [done|by right].
Qed.

Lemma own_chain_name m v6 k : k ∈ own_keys m v6 -> k_chain k ∈ own_names.
Proof.
  assert (H : forallb (fun k => bool_decide (k_chain k ∈ own_names)) (own_keys m v6) = true) by (destruct m, v6; by vm_compute).
  intros Hk. apply forallb_Forall in H. pose proof (proj1 (Forall_forall _ _) H k Hk) as Hb. by apply bool_decide_eq_true in Hb.
Qed.

Lemma host_untouched m h : no_own_chains m h -> untouched (initial m IsIPv6Supported) (chains host_suffix h).
Proof.
  intros Hn. split.
  - intros k s Hs. apply status_initial in Hs as [_ Hs]. by apply Hn.
  - intros k r rs Hk Hr. unfold jumps_to_own. destruct (target r) as [t|] eqn:Ht; [|done].
    destruct (status_of _ _) as [s|] eqn:Hs; [|done]. exfalso. apply status_initial in Hs as [_ Hs].
    destruct (jumps_exist _ _ _ _ _ _ Hk Hr Ht) as [He|[rs' Hrs']].
    + by apply (own_not_extension t (own_chain_name _ _ _ Hs)).
    + rewrite (Hn _ Hs) in Hrs'. done.
Qed.

Lemma host_described m h : no_own_chains m h -> describes (chains host_suffix h) (initial m IsIPv6Supported) (chains host_suffix h).
Proof.
  intros Hn. split.
  - intros k s Hs. apply status_initial in Hs as [-> Hs]. by apply Hn.
  - intros k _. destruct (chains host_suffix h k) as [rs|]; [|done]. exists []. split; [done|]. split; [constructor|].
    intros r Hr. by apply elem_of_nil in Hr.
Qed.

(** Whatever happened, the host is in the state at the end of the analysis. *)
Lemma setup_describes m s h : usable s -> no_own_chains m h ->
  exists a, describes (chains host_suffix h) a (chains host_suffix (Run (setup m s) true h).2) /\
    untouched a (chains host_suffix h) /\ removes m IsIPv6Supported a = true.
Proof.
  intros Hu Hn. pose proof (host_untouched m h Hn) as H0. pose proof (host_described m h Hn) as H1.
  destruct (getTproxySetupValues s) as [[[ifs i4] i6]|err] eqn:Hv.
  - destruct (setup_read m s ifs i4 i6 Hv Hu) as (ss & a' & -> & Hss & Hr & He).
    destruct (mf_end _ _ (mode_has_facts m IsIPv6Supported)) as (a & Ha & Hrem). assert (a = a') as -> by congruence.
    exists a'. unfold Run, setter_run. cbn [PreFunc steps]. cbn [default is_some andb].
    pose proof (steps_describe rewriteIptablesCommands host_suffix _ rewrite_suffix (mode_table_known m) _ _ _ _ Hr None h H0 H1) as Hd.
    destruct (steps_keep rewriteIptablesCommands host_suffix (mode_table m) _ _ _ _ _ Hr H1) as [_ Hs].
    split; [|split; [by eapply untouched_same|done]]. destruct ss; [done|exact Hd].
  - exists (initial m IsIPv6Supported). split; [|split; [done|apply mode_has_facts]].
    destruct m; cbn [setup]; unfold legacyRedirect_GetSetupCommands, legacyTproxy_GetSetupCommands; by rewrite Hv.
Qed.

Lemma port_nonempty listen t : nonempty t = true -> nonempty (withDnsModulePort (DnsModulePort listen) t) = true.
Proof.
  intros Ht. unfold withDnsModulePort. destruct (String.eqb _ _); [done|]. apply ReplaceAll_nonempty; [done| |done].
  pose proof (port_insertable listen) as H. intros E. by rewrite E in H.
Qed.

(** The texts of the cleanup. *)
Lemma cleanup_text m s : cleanup m s =
  mkSetter (withDnsModulePort (DnsModulePort (s_listen s)) (removal_text m IsIPv6Supported)) None [].
Proof. by destruct m. Qed.

Lemma cleanup_restores m s a base h : describes base a (chains host_suffix h) -> untouched a base ->
  removes m IsIPv6Supported a = true -> forall k, chains host_suffix (Run (cleanup m s) false h).2 k = base k.
Proof.
  intros Hd Hu Hr. unfold removes in Hr. destruct (text_ops _) as [os|] eqn:Eo; [|done]. apply andb_true_iff in Hr as [Hf Hr].
  destruct (analyse os a) as [a'|] eqn:Ea; [|done]. rewrite cleanup_text. unfold Run, setter_run. cbn [PreFunc steps Cmds].
  cbn [default is_some andb].
  pose proof (wm_all s) as Hw. pose proof (commands_text _ _ (suffix_all s) _ _ Eo) as Hc.
  assert (Hm : analyse (map (map_op (fun x => rewriteIptablesCommands (withDnsModulePort (DnsModulePort (s_listen s)) x))) os) a = Some a')
    by (by rewrite analyse_map).
  destruct (exec_describes host_suffix base _ _ Hc a a' false None h Hu Hd Hm (or_introl eq_refl)) as [Hd' Hs'].
  pose proof (untouched_same _ _ _ Hs' Hu) as Hu'. unfold hm_bind, ExecCommands.
  rewrite port_nonempty by (by destruct m).
  destruct (exec_lines _ _ _ h) as [e h2]. cbn [snd hm_ret] in *. by apply (restored _ _ _ Hu' Hd').
Qed.

(** C10. Whatever goes wrong in a setup, its cleanup removes it: if the
    program's chains are not there, any command of the setup may fail (the setup then
    stops), the white list may be installed in any of its three ways or not at all,
    and the settings may be refused; after the cleanup every chain of every table has
    exactly the rules it had before, for IPv4 and IPv6, with the port of the DNS
    module and the names of the binaries rewritten as the host requires.  The laws say
    what iptables documents of its commands; a command that takes something away fails
    only when there is nothing to take away. *)
Theorem interrupted_setup_is_removed m s h : usable s -> no_own_chains m h ->
  let h1 := (Run (setup m s) true h).2 in
  let h2 := (Run (cleanup m s) false h1).2 in
  forall k, chains host_suffix h2 k = chains host_suffix h k.
Proof.
  intros Hu Hn h1 h2. destruct (setup_describes m s h Hu Hn) as (a & Hd & Hun & Hr). by apply (cleanup_restores m s a).
Qed.
End Modes.

(** A host with rules of its own in the base chains; the setup adds the program's. *)
Module InterceptWitness.
Import InterceptRef.

Definition ref_bases : gmap key (list rule) := list_to_map (
  v6 ← [false; true]; tc ← [("nat", "OUTPUT"); ("nat", "PREROUTING"); ("mangle", "OUTPUT"); ("mangle", "PREROUTING")];
  [(mkKey v6 (fst tc) (snd tc), [["-s"; "10.9.0.0/16"; "-j"; "ACCEPT"]])]).

Lemma ref_bases_ok : bool_decide (map_ok ref_bases) = true.
Proof. vm_compute. reflexivity. Defined.

Definition ref_host : @host host_ref := exist _ ref_bases ref_bases_ok.

Definition ref_settings : settings := mkSettings "docker*,veth*" (mkTproxyWhiteIpGroups [] ["1.2.3.0/24"; "fd12::/16"]) ":6060".

Lemma ref_usable : usable ref_settings.
Proof.
  intros ifs i4 i6 H. vm_compute in H. injection H as <- <- <-.
  split; [|split]; repeat constructor; by vm_compute.
Defined.

Lemma ref_no_own m : no_own_chains m ref_host.
Proof.
  assert (H : forallb (fun k => negb (is_some (chains host_suffix ref_host k))) (own_keys m IsIPv6Supported) = true)
    by (destruct m; vm_compute; reflexivity).
  intros k Hk. apply forallb_Forall in H. pose proof (proj1 (Forall_forall _ _) H k Hk) as Hb. cbn beta in Hb.
  destruct (chains host_suffix ref_host k); [done|reflexivity].
Defined.

(** The rules of a chain after the setup. *)
Definition rules_after (m : mode) (t c : string) : nat :=
  length (default [] (chains host_suffix (Run (setup m ref_settings) true ref_host).2 (mkKey false t c))).

Lemma interrupted_setup_is_removed_witness :
  (Run (setup Redirect ref_settings) true ref_host).1 = None /\
  rules_after Redirect "nat" "TP_RULE" = 22%nat /\ rules_after Redirect "nat" "OUTPUT" = 4%nat /\
  (let h1 := (Run (setup Redirect ref_settings) true ref_host).2 in
   let h2 := (Run (cleanup Redirect ref_settings) false h1).2 in
   forall k, chains host_suffix h2 k = chains host_suffix ref_host k).
Proof.
  do 3 (split; [vm_compute; reflexivity|]).
  exact (interrupted_setup_is_removed Redirect ref_settings ref_host ref_usable (ref_no_own Redirect)).
Defined.

End InterceptWitness.
