(* ===== verification/CoreConfig.v ===== *)
(** * Configuration of the core (service/kernel/coreObj/coreObj.go, service/kernel/v2ray/template_core.go)

    The records the service fills to configure the core.  A pointer is an option;
    a field of interface type has the type of the values the service stores in
    it, and a header of a kcp or quic transport is its type.  Settings that a
    protocol writes as JSON of its own are kept as text. *)

From stdpp Require Import gmap.
From S2P Require Import Prelude.

#[local] Open Scope Z_scope.

(** ** Observation and routing *)

Record APIObject := mkAPIObject { api_Tag : string; api_Services : list string }.

Record PingConfig := mkPingConfig {
  Destination : string;
  Connectivity : string;
  Interval : string;
  SamplingCount : Z;
  ping_Timeout : string;
  HTTPMethod : string;
}.

Record Observatory := mkObservatory {
  SubjectSelector : list string;
  obs_PingConfig : option PingConfig;
  obs_ProbeURL : string;
  obs_ProbeInterval : string;
}.

Record ObservatoryItem := mkObservatoryItem { oi_Tag : string; oi_Settings : Observatory }.

Record MultiObservatory := mkMultiObservatory { Observers : list ObservatoryItem }.

Record StrategySettings := mkStrategySettings { ObserverTag : string }.

Record BalancerStrategy := mkBalancerStrategy { bs_Type : string; bs_Settings : option StrategySettings }.

Record Balancer := mkBalancer {
  b_Tag : string;
  Selector : list string;
  Strategy : BalancerStrategy;
  FallbackTag : string;
}.

Record RoutingRule := mkRoutingRule {
  rr_Type : string;
  rr_OutboundTag : string;
  rr_BalancerTag : string;
  rr_InboundTag : list string;
  rr_Domain : list string;
  rr_IP : list string;
  rr_Network : string;
  rr_Port : string;
  rr_SourcePort : string;
  rr_Protocol : list string;
  rr_Source : list string;
  rr_User : list string;
}.

Record Log := mkLog { log_Access : string; log_Error : string; Loglevel : string }.

(** ** Inbounds *)

Record Sniffing := mkSniffing {
  sn_Enabled : bool;
  DestOverride : list string;
  MetadataOnly : bool;
  DomainsExcluded : list string;
  sn_RouteOnly : bool;
}.

Record VlessClient := mkVlessClient { vc_Id : string; vc_Level : Z; vc_Email : string }.

Record Account := mkAccount { ac_User : string; ac_Pass : string }.

Record InboundSettings := mkInboundSettings {
  is_Auth : string;
  is_UDP : bool;
  is_Accounts : list Account;
  is_Clients : list VlessClient;
  is_Decryption : string;
  is_Network : string;
  is_UserLevel : Z;
  is_Address : string;
  is_Port : Z;
  FollowRedirect : bool;
  tun_Name : string;
  tun_MTU : Z;
  Address4 : string;
  Address6 : string;
  DnsTarget : string;
  ExcludeProcesses : list string;
  SelfPids : list Z;
  DirectTag : string;
}.

(** ** Transports *)

Record Sockopt := mkSockopt {
  Mark : option Z;
  so_Interface : string;
  Tos : option Z;
  TCPFastOpen : option bool;
  Tproxy : option string;
}.

Record Certificate := mkCertificate { CertificateFile : string; KeyFile : string }.

Record TLSSettings := mkTLSSettings {
  tls_ServerName : option string;
  Alpn : list string;
  PinnedPeerCertSha256 : string;
  VerifyPeerCertByName : string;
  Certificates : list Certificate;
  tls_Fingerprint : string;
}.

Record WsSettings := mkWsSettings {
  ws_Path : string;
  ws_Host : string;
  MaxEarlyData : Z;
  EarlyDataHeaderName : string;
}.

Record RealitySettings := mkRealitySettings {
  re_ServerName : string;
  re_Fingerprint : string;
  re_Show : bool;
  PublicKey : string;
  ShortID : string;
  SpiderX : string;
}.

Record GrpcSettings := mkGrpcSettings {
  ServiceName : string;
  MultiMode : bool;
  IdleTimeout : Z;
  HealthCheckTimeout : Z;
  PermitWithoutStream : bool;
  InitialWindowsSize : Z;
}.

Record HTTPReqHeader := mkHTTPReqHeader {
  rq_Host : list string;
  UserAgent : list string;
  AcceptEncoding : list string;
  rq_Connection : list string;
  rq_Pragma : string;
}.

Record HTTPRequest := mkHTTPRequest {
  rq_Version : string;
  rq_Method : string;
  rq_Path : list string;
  rq_Headers : HTTPReqHeader;
}.

Record HTTPRespHeader := mkHTTPRespHeader {
  ContentType : list string;
  TransferEncoding : list string;
  rs_Connection : list string;
  rs_Pragma : string;
}.

Record HTTPResponse := mkHTTPResponse {
  rs_Version : string;
  rs_Status : string;
  rs_Reason : string;
  rs_Headers : HTTPRespHeader;
}.

Record TCPHeader := mkTCPHeader { th_Type : string; th_Request : HTTPRequest; th_Response : HTTPResponse }.

Record TCPSettings := mkTCPSettings { ConnectionReuse : bool; tcp_Header : TCPHeader }.

Record KcpSettings := mkKcpSettings {
  Mtu : Z;
  Tti : Z;
  UplinkCapacity : Z;
  DownlinkCapacity : Z;
  Congestion : bool;
  ReadBufferSize : Z;
  WriteBufferSize : Z;
  kcp_Header : string;
  Seed : string;
}.

Record HttpSettings := mkHttpSettings { h2_Path : string; h2_Host : list string; h2_Method : string }.

Record QuicSettings := mkQuicSettings { quic_Header : string; quic_Key : string; quic_Security : string }.

Record HysteriaSettings := mkHysteriaSettings { hy_Version : Z; hy_Auth : string }.

Record UdpMask := mkUdpMask { um_Type : string; um_Settings : string }.

Record FinalMask := mkFinalMask { Udp : list UdpMask }.

Record XHTTPRangeConfig := mkXHTTPRangeConfig { xr_From : Z; xr_To : Z }.

Record XHTTPXmux := mkXHTTPXmux {
  MaxConcurrency : option XHTTPRangeConfig;
  MaxConnections : option XHTTPRangeConfig;
  CMaxReuseTimes : option XHTTPRangeConfig;
  HMaxRequestTimes : option XHTTPRangeConfig;
  HMaxReusableSecs : option XHTTPRangeConfig;
  HKeepAlivePeriod : Z;
}.

Record XHTTPSettings := mkXHTTPSettings {
  xh_Path : string;
  xh_Host : string;
  xh_Mode : string;
  xh_Headers : gmap string string;
  XPaddingBytes : option XHTTPRangeConfig;
  NoGRPCHeader : bool;
  NoSSEHeader : bool;
  ScMaxEachPostBytes : option XHTTPRangeConfig;
  ScMinPostsIntervalMs : option XHTTPRangeConfig;
  ScMaxBufferedPosts : Z;
  ScStreamUpServerSecs : option XHTTPRangeConfig;
  Xmux : option XHTTPXmux;
  UplinkHTTPMethod : string;
}.

Record StreamSettings := mkStreamSettings {
  ss_Network : string;
  ss_Security : string;
  ss_TLSSettings : option TLSSettings;
  XTLSSettings : option TLSSettings;
  ss_XHTTPSettings : option XHTTPSettings;
  ss_RealitySettings : option RealitySettings;
  ss_TCPSettings : option TCPSettings;
  ss_KcpSettings : option KcpSettings;
  ss_WsSettings : option WsSettings;
  HTTPSettings : option HttpSettings;
  ss_GrpcSettings : option GrpcSettings;
  ss_QuicSettings : option QuicSettings;
  ss_HysteriaSettings : option HysteriaSettings;
  ss_FinalMask : option FinalMask;
  ss_Sockopt : option Sockopt;
}.

Record Inbound := mkInbound {
  in_Port : Z;
  in_Protocol : string;
  in_Listen : string;
  in_Sniffing : Sniffing;
  in_Settings : option InboundSettings;
  in_StreamSettings : option StreamSettings;
  in_Tag : string;
}.

(** ** Outbounds *)

Record User := mkUser {
  us_ID : string;
  AlterID : Z;
  Encryption : string;
  Flow : string;
  us_Security : string;
  us_Level : Z;
}.

Record Vnext := mkVnext { vn_Address : string; vn_Port : Z; vn_Users : list User }.

Record OutboundUser := mkOutboundUser { ou_User : string; ou_Pass : string; ou_Level : Z }.

Record Server := mkServer {
  sv_Network : string;
  sv_Address : string;
  sv_Method : string;
  sv_Ota : bool;
  sv_Password : string;
  sv_Port : Z;
  sv_Users : list OutboundUser;
}.

Record Settings := mkSettings_ {
  se_Vnext : list Vnext;
  se_Servers : list Server;
  se_DomainStrategy : string;
  se_Port : Z;
  se_Address : string;
  se_Network : string;
  se_Redirect : string;
  se_UserLevel : option Z;
  Inlined : option string;
}.

Record MuxConfig := mkMuxConfig { mux_Enabled : bool; mux_Concurrency : Z }.

Record ProxySettings := mkProxySettings { ps_Tag : string }.

Record OutboundObject := mkOutboundObject {
  out_Tag : string;
  out_Protocol : string;
  SendThrough : string;
  out_Settings : Settings;
  out_StreamSettings : option StreamSettings;
  out_ProxySettings : option ProxySettings;
  out_Mux : option MuxConfig;
  Balancers : list string;
}.

(** ** Empty values *)

Definition new_Sockopt : Sockopt := mkSockopt None "" None None None.
Definition new_StreamSettings : StreamSettings :=
  mkStreamSettings "" "" None None None None None None None None None None None None None.
Definition new_Settings : Settings := mkSettings_ [] [] "" 0 "" "" "" None None.
Definition new_InboundSettings : InboundSettings :=
  mkInboundSettings "" false [] [] "" "" 0 "" 0 false "" 0 "" "" "" [] [] "".
Definition new_Sniffing : Sniffing := mkSniffing false [] false [] false.

Definition rule_to (out : string) (inbounds : list string) : RoutingRule :=
  mkRoutingRule "field" out "" inbounds [] [] "" "" "" [] [] [].
Definition outbound (tag protocol : string) : OutboundObject :=
  mkOutboundObject tag protocol "" new_Settings None None None [].

(** ** Assignments to fields *)

Definition set_outbound_tag (r : RoutingRule) (v : string) : RoutingRule :=
  mkRoutingRule (rr_Type r) v (rr_BalancerTag r) (rr_InboundTag r) (rr_Domain r) (rr_IP r) (rr_Network r) (rr_Port r)
    (rr_SourcePort r) (rr_Protocol r) (rr_Source r) (rr_User r).
Definition set_balancer_tag (r : RoutingRule) (v : string) : RoutingRule :=
  mkRoutingRule (rr_Type r) (rr_OutboundTag r) v (rr_InboundTag r) (rr_Domain r) (rr_IP r) (rr_Network r) (rr_Port r)
    (rr_SourcePort r) (rr_Protocol r) (rr_Source r) (rr_User r).
Definition set_inbound_tags (r : RoutingRule) (v : list string) : RoutingRule :=
  mkRoutingRule (rr_Type r) (rr_OutboundTag r) (rr_BalancerTag r) v (rr_Domain r) (rr_IP r) (rr_Network r) (rr_Port r)
    (rr_SourcePort r) (rr_Protocol r) (rr_Source r) (rr_User r).
Definition set_domains (r : RoutingRule) (v : list string) : RoutingRule :=
  mkRoutingRule (rr_Type r) (rr_OutboundTag r) (rr_BalancerTag r) (rr_InboundTag r) v (rr_IP r) (rr_Network r) (rr_Port r)
    (rr_SourcePort r) (rr_Protocol r) (rr_Source r) (rr_User r).
Definition set_ips (r : RoutingRule) (v : list string) : RoutingRule :=
  mkRoutingRule (rr_Type r) (rr_OutboundTag r) (rr_BalancerTag r) (rr_InboundTag r) (rr_Domain r) v (rr_Network r) (rr_Port r)
    (rr_SourcePort r) (rr_Protocol r) (rr_Source r) (rr_User r).
Definition set_port (r : RoutingRule) (v : string) : RoutingRule :=
  mkRoutingRule (rr_Type r) (rr_OutboundTag r) (rr_BalancerTag r) (rr_InboundTag r) (rr_Domain r) (rr_IP r) (rr_Network r) v
    (rr_SourcePort r) (rr_Protocol r) (rr_Source r) (rr_User r).

Definition set_in_port (i : Inbound) (v : Z) : Inbound :=
  mkInbound v (in_Protocol i) (in_Listen i) (in_Sniffing i) (in_Settings i) (in_StreamSettings i) (in_Tag i).
Definition set_in_listen (i : Inbound) (v : string) : Inbound :=
  mkInbound (in_Port i) (in_Protocol i) v (in_Sniffing i) (in_Settings i) (in_StreamSettings i) (in_Tag i).
Definition set_in_sniffing (i : Inbound) (v : Sniffing) : Inbound :=
  mkInbound (in_Port i) (in_Protocol i) (in_Listen i) v (in_Settings i) (in_StreamSettings i) (in_Tag i).
Definition set_in_settings (i : Inbound) (v : option InboundSettings) : Inbound :=
  mkInbound (in_Port i) (in_Protocol i) (in_Listen i) (in_Sniffing i) v (in_StreamSettings i) (in_Tag i).
Definition set_in_tag (i : Inbound) (v : string) : Inbound :=
  mkInbound (in_Port i) (in_Protocol i) (in_Listen i) (in_Sniffing i) (in_Settings i) (in_StreamSettings i) v.

Definition set_clients (s : InboundSettings) (v : list VlessClient) : InboundSettings :=
  mkInboundSettings (is_Auth s) (is_UDP s) (is_Accounts s) v (is_Decryption s) (is_Network s) (is_UserLevel s) (is_Address s)
    (is_Port s) (FollowRedirect s) (tun_Name s) (tun_MTU s) (Address4 s) (Address6 s) (DnsTarget s) (ExcludeProcesses s)
    (SelfPids s) (DirectTag s).

Definition set_out_settings (o : OutboundObject) (v : Settings) : OutboundObject :=
  mkOutboundObject (out_Tag o) (out_Protocol o) (SendThrough o) v (out_StreamSettings o) (out_ProxySettings o) (out_Mux o)
    (Balancers o).
Definition set_out_stream (o : OutboundObject) (v : option StreamSettings) : OutboundObject :=
  mkOutboundObject (out_Tag o) (out_Protocol o) (SendThrough o) (out_Settings o) v (out_ProxySettings o) (out_Mux o)
    (Balancers o).
Definition set_out_mux (o : OutboundObject) (v : option MuxConfig) : OutboundObject :=
  mkOutboundObject (out_Tag o) (out_Protocol o) (SendThrough o) (out_Settings o) (out_StreamSettings o) (out_ProxySettings o) v
    (Balancers o).
Definition set_balancers (o : OutboundObject) (v : list string) : OutboundObject :=
  mkOutboundObject (out_Tag o) (out_Protocol o) (SendThrough o) (out_Settings o) (out_StreamSettings o) (out_ProxySettings o)
    (out_Mux o) v.

Definition set_sockopt (s : StreamSettings) (v : option Sockopt) : StreamSettings :=
  mkStreamSettings (ss_Network s) (ss_Security s) (ss_TLSSettings s) (XTLSSettings s) (ss_XHTTPSettings s)
    (ss_RealitySettings s) (ss_TCPSettings s) (ss_KcpSettings s) (ss_WsSettings s) (HTTPSettings s) (ss_GrpcSettings s)
    (ss_QuicSettings s) (ss_HysteriaSettings s) (ss_FinalMask s) v.
Definition set_mark (s : Sockopt) (v : option Z) : Sockopt :=
  mkSockopt v (so_Interface s) (Tos s) (TCPFastOpen s) (Tproxy s).
Definition set_interface (s : Sockopt) (v : string) : Sockopt :=
  mkSockopt (Mark s) v (Tos s) (TCPFastOpen s) (Tproxy s).
Definition set_fast_open (s : Sockopt) (v : option bool) : Sockopt :=
  mkSockopt (Mark s) (so_Interface s) (Tos s) v (Tproxy s).
Definition set_domain_strategy (s : Settings) (v : string) : Settings :=
  mkSettings_ (se_Vnext s) (se_Servers s) v (se_Port s) (se_Address s) (se_Network s) (se_Redirect s) (se_UserLevel s)
    (Inlined s).
