(* ===== verification/ServerData.v ===== *)
(** * Connected nodes by link and by group (service/kernel/v2ray/template_serverdata.go)

    [NewServerData] groups the connected nodes: nodes with the same link share one
    object, objects get distinct names, groups collect their objects.  The order
    in which a map is ranged over is a choice of the class [MapOrder]; a pointer
    to a [serverInfo] is its position in the list.  Names stay distinct whatever the
    order, and the members of a group are the objects of the nodes connected to it. *)

From stdpp Require Import gmap pretty.
From S2P Require Import Prelude.
From S2P Require Import NetIP Text Store NodeRefs Configure CoreConfig.

#[local] Open Scope Z_scope.
#[local] Open Scope go_scope.

(** ** The interfaces *)

Record PriorInfo := mkPriorInfo {
  pi_Variant : string;
  pi_CoreVersion : string;
  pi_Tag : string;
  pi_PluginPort : Z;
  pi_Backend : string;
}.

Record Configuration := mkConfiguration {
  CoreOutbound : OutboundObject;
  ExtraOutbounds : list OutboundObject;
  PluginChain : string;
  UDPSupport : bool;
  PluginManagerServerLink : string;
}.

(** The other methods of [serverObj.ServerObj]; [GetBackend] is there for the
    types that are a [BackendGetter]. *)
Class Nodes `{ServerObjs} := {
  SetName : string -> ServerObj -> ServerObj;
  GetBackend : ServerObj -> option string;
  node_configuration : ServerObj -> PriorInfo -> result Configuration;
}.

(** What every implementation does: the name is a field of its own, the main
    outbound has the tag it is told, and [Balancers] is left to the template. *)
Class NodeLaws `{N : Nodes} := {
  name_set n o : GetName (SetName n o) = n;
  host_set n o : GetHostname (SetName n o) = GetHostname o;
  configuration_tag o info c : node_configuration o info = Ok c -> out_Tag (CoreOutbound c) = pi_Tag info;
  configuration_pure o info c : node_configuration o info = Ok c ->
    Balancers (CoreOutbound c) = [] /\ Forall (fun x => Balancers x = []) (ExtraOutbounds c);
}.

(** The order of the keys in the [range] at a place of the code. *)
Class MapOrder := {
  map_order : string -> list string -> list string;
  map_order_perm site ks : map_order site ks ≡ₚ ks;
}.

Definition range_keys `{MapOrder} {A} (site : string) (m : gmap string A) : list string := map_order site (map_to_list m).*1.

(** ** Grouping *)

Section ServerData.
Context `{N : Nodes} `{MO : MapOrder}.

Record serverInfo := mkServerInfo { Info : ServerObj; OutboundName : string; PluginPort : Z }.

Definition GroupWrapper (ps : string) : string := "『" +:+ ps +:+ "』".

Record ServerData := mkServerData {
  ServerInfos : list serverInfo;
  OutboundName2Setting : gmap string OutboundSetting;
  Link2ServerInfos : gmap string (list nat);
  Link2ServerObj : gmap string ServerObj;
  OutboundName2ServerObjs : gmap string (list ServerObj);
}.

Definition link_of (info : serverInfo) : string := ExportToURL (Info info).

(** [m[k] = append(m[k], v)] *)
Definition append_at {A} (m : gmap string (list A)) (k : string) (v : A) : gmap string (list A) :=
  <[k := (default [] (m !! k) ++ [v])%list]> m.

(** The last object with a link stands for all of them. *)
Fixpoint by_link (i : nat) (infos : list serverInfo) (acc : gmap string (list nat) * gmap string ServerObj)
    : gmap string (list nat) * gmap string ServerObj :=
  match infos with
  | [] => acc
  | info :: infos =>
    by_link (S i) infos (append_at (fst acc) (link_of info) i, <[link_of info := Info info]> (snd acc))
  end.

(** The search for a free name: [fuel] is above the number of names in use. *)
Fixpoint free_name (fuel : nat) (used : gset string) (name ps : string) (cnt : Z) : string :=
  match fuel with
  | O => ps
  | S fuel =>
    if decide (ps ∈ used) then free_name fuel used name (name +:+ "(" +:+ dec cnt +:+ ")") (cnt + 1) else ps
  end.

Definition rename_one (link : string) (st : gset string * gmap string ServerObj) : gset string * gmap string ServerObj :=
  let '(used, objs) := st in
  match objs !! link with
  | None => st
  | Some obj =>
    let ps := free_name (S (size used)) used (GetName obj) (GetName obj) 2 in
    ({[ps]} ∪ used, <[link := SetName ps obj]> objs)
  end.

Definition rename_all (links : list string) (objs : gmap string ServerObj) : gmap string ServerObj :=
  snd (foldl (fun st link => rename_one link st) (∅, objs) links).

Definition group_link (infos : list serverInfo) (objs : gmap string ServerObj) (ois : list nat) (link : string)
    (groups : gmap string (list ServerObj)) : gmap string (list ServerObj) :=
  foldl (fun groups i =>
    match infos !! i, objs !! link with
    | Some oi, Some obj => append_at groups (OutboundName oi) obj
    | _, _ => groups
    end) groups ois.

Definition group_objects (infos : list serverInfo) (links : gmap string (list nat)) (objs : gmap string ServerObj)
    (order : list string) : gmap string (list ServerObj) :=
  foldl (fun groups link => group_link infos objs (default [] (links !! link)) link groups) ∅ order.

Definition NewServerData (settingOf : string -> OutboundSetting) (serverInfos : list serverInfo) : ServerData :=
  let '(link2ServerInfos, objs) := by_link 0 serverInfos (∅, ∅) in
  let link2ServerObj := rename_all (range_keys "rename" link2ServerInfos) objs in
  let groups := group_objects serverInfos link2ServerInfos link2ServerObj (range_keys "group" link2ServerInfos) in
  mkServerData serverInfos (map_imap (fun name _ => Some (settingOf name)) groups) link2ServerInfos link2ServerObj groups.

(** The keys of [ServerObj2ServerInfos] are the objects, one for a link; they are
    ranged over in some order. *)
Definition ServerObj2ServerInfos (sd : ServerData) : list (ServerObj * list nat) :=
  omap (fun link => obj ← Link2ServerObj sd !! link; Some (obj, default [] (Link2ServerInfos sd !! link)))
    (range_keys "resolve" (Link2ServerObj sd)).

End ServerData.

(** ** The search for a free name *)

Definition numbered (name : string) (c : Z) : string := name +:+ "(" +:+ dec c +:+ ")".

Lemma numbered_inj name c d : numbered name c = numbered name d -> c = d.
Proof.
  unfold numbered. intros H. apply app_inj_l in H. apply app_inj_l in H. apply app_inj_r in H. unfold dec in H.
  by apply (inj pretty) in H.
Qed.

Lemma numbered_not_name name c : numbered name c <> name.
Proof. intros H. apply (f_equal s_len) in H. unfold numbered in H. rewrite !s_len_app in H. cbn in H. lia. Qed.

Lemma free_name_used fuel used name ps cnt : free_name fuel used name ps cnt ∈ used ->
  Forall (fun x => x ∈ used) (map (fun k => numbered name (cnt + Z.of_nat k)) (seq 0 fuel)) /\ ps ∈ used.
Proof.
  revert ps cnt. induction fuel as [|fuel IH]; intros ps cnt; cbn [free_name seq map]; [by split; [constructor|]|].
  destruct (decide (ps ∈ used)) as [Hps|Hps]; [|done]. fold (numbered name cnt). intros H. apply IH in H as [H1 H2].
  split; [|done]. rewrite Z.add_0_r. constructor; [done|]. rewrite <-seq_shift, map_map.
  erewrite map_ext; [exact H1|]. intros k. cbn. f_equal. lia.
Qed.

Lemma subset_size (l : list string) (u : gset string) : NoDup l -> Forall (fun x => x ∈ u) l -> (length l <= size u)%nat.
Proof.
  intros Hn Hf. rewrite <-(size_list_to_set (C:=gset string) l Hn). apply subseteq_size. intros x Hx.
  apply elem_of_list_to_set in Hx. rewrite Forall_forall in Hf. by apply Hf.
Qed.

(** The name found is free. *)
Lemma free_name_free used name : free_name (S (size used)) used name name 2 ∉ used.
Proof.
  intros H. apply free_name_used in H as [H _]. apply subset_size in H; [rewrite length_map, length_seq in H; lia|].
  apply NoDup_fmap_2; [|apply NoDup_seq]. intros i j Hij. apply numbered_inj in Hij. lia.
Qed.

Section Data.
Context `{OB : ServerObjs} `{N : !Nodes} `{NL : !NodeLaws} `{MO : MapOrder}.

(** ** Renaming *)

(** The links seen so far have distinct names in [used]; the others are untouched. *)
Record renamed (done : list string) (start : gmap string ServerObj) (used : gset string) (objs : gmap string ServerObj) : Prop := {
  rn_dom l : is_Some (objs !! l) <-> is_Some (start !! l);
  rn_used l o : l ∈ done -> objs !! l = Some o -> GetName o ∈ used;
  rn_distinct l1 l2 o1 o2 : l1 ∈ done -> l2 ∈ done -> objs !! l1 = Some o1 -> objs !! l2 = Some o2 ->
    GetName o1 = GetName o2 -> l1 = l2;
}.

Lemma renamed_step dn start used objs l : renamed dn start used objs -> l ∉ dn ->
  let st := rename_one l (used, objs) in renamed (l :: dn) start (fst st) (snd st).
Proof.
  intros [R1 R2 R3] Hl. unfold rename_one. destruct (objs !! l) as [obj|] eqn:E; cbn [fst snd].
  - pose proof (free_name_free used (GetName obj)) as Hfree. set (ps := free_name _ _ _ _ _) in *.
    assert (Hother : forall l' o', l' ∈ dn -> <[l := SetName ps obj]> objs !! l' = Some o' -> objs !! l' = Some o').
    { intros l' o' Hd H. rewrite lookup_insert_ne in H; [done|]. intros ->. done. }
    split.
    + intros l'. destruct (decide (l = l')) as [<-|]; [rewrite lookup_insert_eq|by rewrite lookup_insert_ne].
      rewrite <-R1, E. split; by eexists.
    + intros l' o' Hd H. apply elem_of_union. apply elem_of_cons in Hd as [->|Hd].
      * rewrite lookup_insert_eq in H. injection H as <-. left. rewrite name_set. by apply elem_of_singleton.
      * right. eapply R2; [done|]. by apply Hother.
    + intros l1 l2 o1 o2 H1 H2 E1 E2 En. apply elem_of_cons in H1 as [->|H1], H2 as [->|H2]; [done| | |].
      * exfalso. rewrite lookup_insert_eq in E1. injection E1 as <-. rewrite name_set in En. apply Hfree. rewrite En.
        eapply R2; [done|]. by apply Hother.
      * exfalso. rewrite lookup_insert_eq in E2. injection E2 as <-. rewrite name_set in En. apply Hfree. rewrite <-En.
        eapply R2; [done|]. by apply Hother.
      * eapply R3; eauto.
  - split; [done| |].
    + intros l' o' Hd H. apply elem_of_cons in Hd as [->|Hd]; [congruence|]. by eapply R2.
    + intros l1 l2 o1 o2 H1 H2 E1 E2. apply elem_of_cons in H1 as [->|H1], H2 as [->|H2]; try congruence. by eapply R3.
Qed.

Lemma renamed_all ls dn start used objs : renamed dn start used objs -> NoDup ls -> Forall (fun l => l ∉ dn) ls ->
  exists used', let st := foldl (fun st l => rename_one l st) (used, objs) ls in
    fst st = used' /\ renamed (rev ls ++ dn) start used' (snd st).
Proof.
  revert dn used objs. induction ls as [|l ls IH]; intros dn used objs HR Hn Hf; [by eexists|].
  apply NoDup_cons in Hn as [Hl Hn]. apply Forall_cons in Hf as [Hd Hf]. cbn [foldl].
  pose proof (renamed_step _ _ _ _ l HR Hd) as HR'. destruct (rename_one l (used, objs)) as [used1 objs1]. cbn [fst snd] in HR'.
  destruct (IH _ _ _ HR' Hn) as (used' & H1 & H2).
  { apply Forall_forall. intros x Hx. rewrite Forall_forall in Hf. intros [->|Hin]%elem_of_cons; [done|]. by apply (Hf x). }
  exists used'. split; [done|]. cbn [rev]. by rewrite <-app_assoc.
Qed.

Lemma renamed_start start : renamed [] start ∅ start.
Proof. split; [done|by intros l o ?%elem_of_nil|by intros l1 l2 o1 o2 ?%elem_of_nil]. Qed.

(** After renaming over the keys, all names are distinct. *)
Lemma rename_all_distinct ls start : NoDup ls -> (forall l, is_Some (start !! l) -> l ∈ ls) ->
  let objs := rename_all ls start in
  (forall l, is_Some (objs !! l) <-> is_Some (start !! l)) /\
  (forall l1 l2 o1 o2, objs !! l1 = Some o1 -> objs !! l2 = Some o2 -> GetName o1 = GetName o2 -> l1 = l2).
Proof.
  intros Hn Hk objs. unfold objs, rename_all.
  destruct (renamed_all ls [] start ∅ start (renamed_start start) Hn) as (used' & _ & [R1 R2 R3]).
  { apply Forall_forall. intros x _. by apply not_elem_of_nil. }
  split; [done|]. intros l1 l2 o1 o2 E1 E2 En.
  assert (Hin : forall l o, snd (foldl (fun st l => rename_one l st) (∅, start) ls) !! l = Some o -> l ∈ (rev ls ++ [])%list).
  { intros l o E. rewrite app_nil_r, list_elem_of_In, <-in_rev, <-list_elem_of_In. apply Hk, R1. by exists o. }
  by eapply R3; eauto.
Qed.

(** ** Links *)

(** What [by_link] collects of the infos from position [i]. *)
Lemma by_link_objs infos i acc l : is_Some (snd (by_link i infos acc) !! l) <->
  is_Some (snd acc !! l) \/ exists info, info ∈ infos /\ link_of info = l.
Proof.
  revert i acc. induction infos as [|info infos IH]; intros i acc; cbn [by_link].
  - split; [by left|]. intros [H|(x & Hx & _)]; [done|]. by apply elem_of_nil in Hx.
  - rewrite IH. cbn [snd]. destruct (decide (link_of info = l)) as [<-|Hne].
    + rewrite lookup_insert_eq. split; [intros _; right; exists info; split; [left|done]|by left; eexists].
    + rewrite lookup_insert_ne by done. split.
      * intros [H|(x & Hx & Hl)]; [by left|right; exists x; split; [by right|done]].
      * intros [H|(x & [->|Hx]%elem_of_cons & Hl)]; [by left|done|right; by exists x].
Qed.

Lemma append_at_lookup {A} (m : gmap string (list A)) k v l :
  default [] (append_at m k v !! l) = (default [] (m !! l) ++ (if decide (k = l) then [v] else []))%list.
Proof.
  unfold append_at. destruct (decide (k = l)) as [<-|]; [by rewrite lookup_insert_eq|]. by rewrite lookup_insert_ne, app_nil_r.
Qed.

Lemma append_at_some {A} (m : gmap string (list A)) k v l : is_Some (append_at m k v !! l) <-> k = l \/ is_Some (m !! l).
Proof.
  unfold append_at. destruct (decide (k = l)) as [<-|]; [rewrite lookup_insert_eq; split; [by left|by eexists]|].
  rewrite lookup_insert_ne by done. naive_solver.
Qed.

Lemma by_link_uses infos i acc l j : j ∈ default [] (fst (by_link i infos acc) !! l) <->
  j ∈ default [] (fst acc !! l) \/ exists k info, j = (i + k)%nat /\ infos !! k = Some info /\ link_of info = l.
Proof.
  revert i acc. induction infos as [|info infos IH]; intros i acc; cbn [by_link].
  - split; [by left|]. intros [H|(k & x & _ & Hx & _)]; [done|]. by destruct k.
  - rewrite IH. cbn [fst]. rewrite append_at_lookup, elem_of_app. split.
    + intros [[H|H]|(k & x & -> & Hx & Hl)]; [by left| |].
      * destruct (decide (link_of info = l)) as [<-|]; [|by apply elem_of_nil in H]. apply list_elem_of_singleton in H as ->.
        right. exists 0%nat, info. split; [lia|]. by split.
      * right. exists (S k), x. split; [lia|]. by split.
    + intros [H|(k & x & -> & Hx & Hl)]; [by left; left|]. destruct k as [|k]; cbn in Hx.
      * injection Hx as ->. left; right. rewrite decide_True by done. rewrite Nat.add_0_r. apply list_elem_of_singleton. done.
      * right. exists k, x. split; [lia|]. by split.
Qed.

Lemma by_link_keys infos i acc l : is_Some (fst (by_link i infos acc) !! l) <->
  is_Some (fst acc !! l) \/ exists info, info ∈ infos /\ link_of info = l.
Proof.
  revert i acc. induction infos as [|info infos IH]; intros i acc; cbn [by_link].
  - split; [by left|]. intros [H|(x & Hx & _)]; [done|]. by apply elem_of_nil in Hx.
  - rewrite IH. cbn [fst]. rewrite append_at_some. setoid_rewrite elem_of_cons. naive_solver.
Qed.

Lemma range_keys_spec {A} site (m : gmap string A) k : k ∈ range_keys site m <-> is_Some (m !! k).
Proof.
  unfold range_keys. rewrite map_order_perm. split.
  - intros ([k' v] & -> & H)%list_elem_of_fmap. apply elem_of_map_to_list in H. by exists v.
  - intros [v H]. apply list_elem_of_fmap. exists (k, v). by rewrite elem_of_map_to_list.
Qed.

Lemma range_keys_NoDup {A} site (m : gmap string A) : NoDup (range_keys site m).
Proof. unfold range_keys. rewrite map_order_perm. apply NoDup_fst_map_to_list. Qed.

(** ** Groups *)

(** An object is in a group when a node of its link is connected to the group. *)
Lemma group_link_members infos objs ois link groups g o : objs !! link = Some o -> forall x,
  x ∈ default [] (group_link infos objs ois link groups !! g) <->
  x ∈ default [] (groups !! g) \/ x = o /\ exists i info, i ∈ ois /\ infos !! i = Some info /\ OutboundName info = g.
Proof.
  intros Ho. unfold group_link. revert groups. induction ois as [|i ois IH]; intros groups x; cbn [foldl].
  - split; [by left|]. intros [H|(-> & i & info & Hi & _)]; [done|]. by apply elem_of_nil in Hi.
  - rewrite IH, Ho. setoid_rewrite elem_of_cons. destruct (infos !! i) as [info|] eqn:Ei; [|naive_solver].
    rewrite append_at_lookup, elem_of_app. destruct (decide (OutboundName info = g)) as [<-|Hne].
    + rewrite list_elem_of_singleton. split.
      * intros [[H|H]|(-> & i' & info' & Hi & Hf & Hg)]; [by left| |]; right; (split; [done|]); naive_solver.
      * intros [H|(-> & i' & info' & [->|Hi] & Hf & Hg)]; [by left; left|by left; right|]. right. split; [done|]. naive_solver.
    + rewrite elem_of_nil. split.
      * intros [[H|[]]|(-> & i' & info' & Hi & Hf & Hg)]; [by left|]. right. split; [done|]. naive_solver.
      * intros [H|(-> & i' & info' & [->|Hi] & Hf & Hg)]; [by left; left|congruence|]. right. split; [done|]. naive_solver.
Qed.

Lemma group_objects_members infos links objs order g x : Forall (fun l => is_Some (objs !! l)) order ->
  x ∈ default [] (group_objects infos links objs order !! g) <->
  exists l i info, l ∈ order /\ objs !! l = Some x /\ i ∈ default [] (links !! l) /\ infos !! i = Some info /\ OutboundName info = g.
Proof.
  intros Hf. unfold group_objects.
  assert (Hgen : forall groups, x ∈ default [] (foldl (fun groups link => group_link infos objs (default [] (links !! link)) link groups)
      groups order !! g) <-> x ∈ default [] (groups !! g) \/
    exists l i info, l ∈ order /\ objs !! l = Some x /\ i ∈ default [] (links !! l) /\ infos !! i = Some info /\ OutboundName info = g).
  { induction order as [|l order IH]; intros groups; cbn [foldl].
    - split; [by left|]. intros [H|(l & i & info & Hl & _)]; [done|]. by apply elem_of_nil in Hl.
    - apply Forall_cons in Hf as [[o Ho] Hf]. rewrite (IH Hf), (group_link_members _ _ _ _ _ _ _ Ho).
      setoid_rewrite elem_of_cons. split.
      + intros [[H|(-> & i & info & H)]|(l' & i & info & Hl & H)]; [by left|right; exists l, i, info; tauto|right; exists l', i, info; tauto].
      + intros [H|(l' & i & info & [->|Hl] & Hx & H)]; [by left; left| |right; exists l', i, info; tauto].
        left; right. split; [congruence|]. exists i, info. tauto. }
  rewrite Hgen. split; [intros [H|H]; [|done]|by right]. rewrite lookup_empty in H. by apply elem_of_nil in H.
Qed.

(** ** The grouped nodes *)

Definition members (sd : ServerData) (g : string) : list ServerObj := default [] (OutboundName2ServerObjs sd !! g).

Lemma data_parts st infos : let sd := NewServerData st infos in
  ServerInfos sd = infos /\ Link2ServerInfos sd = fst (by_link 0 infos (∅, ∅)) /\
  Link2ServerObj sd = rename_all (range_keys "rename" (Link2ServerInfos sd)) (snd (by_link 0 infos (∅, ∅))) /\
  OutboundName2ServerObjs sd = group_objects infos (Link2ServerInfos sd) (Link2ServerObj sd) (range_keys "group" (Link2ServerInfos sd)) /\
  OutboundName2Setting sd = map_imap (fun name _ => Some (st name)) (OutboundName2ServerObjs sd).
Proof. unfold NewServerData. by destruct (by_link 0 infos (∅, ∅)). Qed.

Lemma data_uses st infos l i : i ∈ default [] (Link2ServerInfos (NewServerData st infos) !! l) <->
  exists info, infos !! i = Some info /\ link_of info = l.
Proof.
  destruct (data_parts st infos) as (_ & -> & _). rewrite by_link_uses. cbn [fst]. rewrite lookup_empty. cbn.
  rewrite elem_of_nil. split; [intros [[]|(k & info & -> & H)]; by exists info|]. intros (info & H). right. by exists i, info.
Qed.

Lemma data_keys st infos l : is_Some (Link2ServerInfos (NewServerData st infos) !! l) <->
  exists info, info ∈ infos /\ link_of info = l.
Proof.
  destruct (data_parts st infos) as (_ & -> & _). rewrite by_link_keys. cbn [fst]. rewrite lookup_empty.
  split; [intros [[? [=]]|H]; done|by right].
Qed.

Lemma data_objs st infos : let sd := NewServerData st infos in
  (forall l, is_Some (Link2ServerObj sd !! l) <-> exists info, info ∈ infos /\ link_of info = l) /\
  (forall l1 l2 o1 o2, Link2ServerObj sd !! l1 = Some o1 -> Link2ServerObj sd !! l2 = Some o2 -> GetName o1 = GetName o2 -> l1 = l2).
Proof.
  cbn zeta. assert (Hk : forall l, is_Some (snd (by_link 0 infos (∅, ∅)) !! l) <-> exists info, info ∈ infos /\ link_of info = l).
  { intros l. rewrite by_link_objs. cbn [snd]. rewrite lookup_empty. split; [intros [[? [=]]|H]; done|by right]. }
  pose proof (data_keys st infos) as Hkeys. destruct (data_parts st infos) as (_ & H1 & H2 & _). rewrite H2.
  destruct (rename_all_distinct (range_keys "rename" (Link2ServerInfos (NewServerData st infos))) (snd (by_link 0 infos (∅, ∅))))
    as [R1 R2]; [apply range_keys_NoDup| |].
  { intros l Hl. apply range_keys_spec, Hkeys, Hk, Hl. }
  split; [|exact R2]. intros l. by rewrite R1, Hk.
Qed.

Lemma data_members st infos g x : let sd := NewServerData st infos in
  x ∈ members sd g <-> exists info, info ∈ infos /\ OutboundName info = g /\ Link2ServerObj sd !! link_of info = Some x.
Proof.
  cbn zeta. destruct (data_objs st infos) as [Ho _]. pose proof (data_keys st infos) as Hk. pose proof (data_uses st infos) as Hu.
  unfold members. destruct (data_parts st infos) as (_ & _ & _ & Hg & _). rewrite Hg, group_objects_members.
  2: { apply Forall_forall. intros l Hl. apply range_keys_spec, Hk in Hl. by apply Ho. }
  split.
  - intros (l & i & info & Hl & Hx & Hi & Hf & Hn). apply Hu in Hi as (info' & Hf' & <-). assert (info' = info) as -> by congruence.
    exists info. split; [by eapply list_elem_of_lookup_2|]. by split.
  - intros (info & Hin & Hn & Hx). apply list_elem_of_lookup in Hin as [i Hi]. exists (link_of info), i, info.
    split; [apply range_keys_spec, Hk; exists info; split; [by eapply list_elem_of_lookup_2|done]|]. split; [done|].
    split; [apply Hu; by exists info|]. by split.
Qed.

(** Grouping the connected nodes gives distinct names, whatever order the
    maps are ranged over in: nodes with the same link share one object, the objects of
    different links have different names, and a group consists of the objects of the
    nodes connected to it.  The tags of outbounds that groups share are made from these
    names, so equal names of nodes never make a template fail. *)
Theorem node_names_are_distinct st infos : let sd := NewServerData st infos in
  (forall l, is_Some (Link2ServerObj sd !! l) <-> exists info, info ∈ infos /\ link_of info = l) /\
  (forall l1 l2 o1 o2, Link2ServerObj sd !! l1 = Some o1 -> Link2ServerObj sd !! l2 = Some o2 ->
     GetName o1 = GetName o2 -> l1 = l2) /\
  (forall g x, x ∈ members sd g <->
     exists info, info ∈ infos /\ OutboundName info = g /\ Link2ServerObj sd !! link_of info = Some x).
Proof.
  cbn zeta. destruct (data_objs st infos) as [H1 H2]. split; [done|]. split; [done|]. intros g x. apply data_members.
Qed.

End Data.
