(* ===== verification/Upgrade.v ===== *)
(** * Upgrading databases (service/db: migrate.go, schema.go, auto_select_group_migration.go, subscription_update_migration.go)

    Older releases kept their data in a BoltDB file.  It is copied to a new SQLite
    database that is checked and put in place before the old file is moved aside.
    Files are a map from paths; an operation on them may fail, and the process may
    end, wherever [fault]s say so; statements fail as in [Store]. *)

From stdpp Require Import gmap pretty.
From S2P Require Import Prelude.
From S2P Require Import NetIP Text Store StoreLists StoreProps NodeRefs ServerData JsonRef.

#[local] Open Scope Z_scope.
#[local] Open Scope go_scope.

(** ** JSON texts *)

(** [text] is a string constant as a document and [bytes_of] the bytes of a stored
    value; [sj_Set_string] and [sj_Set_bool] are [sjson.Set]; [json_members] reads
    the struct of [proxyHasManualMembers], with [None] for a null element, and
    [check_setting] and [check_connections] those of [verifyOutboundValue];
    [marshal_members] is [jsoniter.Marshal] of the map with the key touches. *)
Class UpgradeJson `{J : Json} := {
  text : string -> doc;
  bytes_of : doc -> string;
  doc_eqb : doc -> doc -> bool;
  gj_valid : doc -> bool;
  sj_Set_string : doc -> string -> string -> result doc;
  sj_Set_bool : doc -> string -> bool -> result doc;
  json_members : doc -> result (list (option (string * Z)));
  check_setting : doc -> result unit;
  check_connections : doc -> result unit;
  marshal_members : list NodeRef -> result doc;
}.

(** Texts are compared as bytes. *)
Class UpgradeLaws `(U : UpgradeJson) : Prop := {
  doc_eqb_spec a b : doc_eqb a b = true <-> a = b;
}.

Section Upgrade.
Context `{J : Json} `{U : !UpgradeJson}.

(** ** Statements *)

(** [SELECT COUNT( * ) FROM system_config WHERE key = ?] *)
Definition count_key (key : string) : DB Z :=
  query (fun t => match t_system_config t !! key with Some _ => 1 | None => 0 end).

(** [INSERT OR REPLACE INTO system_config] *)
Definition replace_config (key : string) (value : doc) : DB unit :=
  exec (fun t => with_system_config t (<[key := value]> (t_system_config t))).

(** [INSERT INTO system_config] *)
Definition insert_config (key : string) (value : doc) : DB unit :=
  db! taken := stmt (fun t =>
    match t_system_config t !! key with
    | Some _ => (true, t)
    | None => (false, with_system_config t (<[key := value]> (t_system_config t)))
    end) in
  if taken : bool then db_fail (ExtErr "UNIQUE constraint failed: system_config.key") else db_ret tt.

(** [INSERT OR IGNORE INTO outbound_names] *)
Definition insert_name (name : string) (sort : Z) : DB unit :=
  exec (fun t => if decide (name ∈ map fst (t_outbound_names t)) then t
                 else with_outbound_names t (t_outbound_names t ++ [(name, sort)])).

Definition db_wrap {A} (wrap : error -> error) (c : DB A) : DB A :=
  fun s => match c s with (Err e, s) => (Err (wrap e), s) | r => r end.

(** Begin, work, and commit, or roll back. *)
Definition transaction {A} (begin_ commit : error -> error) (fn : DB A) : DB A :=
  fun s =>
    match pop_fault s with
    | (Some e, s) => (Err (begin_ e), s)
    | (None, s) =>
      match fn s with
      | (Err e, s') => (Err e, mkDatabase (db_tables s) (db_faults s'))
      | (Ok a, s') =>
        match pop_fault s' with
        | (Some e, s'') => (Err (commit e), mkDatabase (db_tables s) (db_faults s''))
        | (None, s'') => (Ok a, s'')
        end
      end
    end.

(** ** Policies of subscriptions *)

Definition subscriptionUpdateMigrationKey : string := "migration:subscription_update_policy_v1".

(** The mode and the minutes; no mode is the empty text. *)
Definition legacy_policy (setting : doc) : string * Z :=
  let legacyMode := gj_String setting "subscriptionAutoUpdateMode" in
  let hours := gj_Int setting "subscriptionAutoUpdateIntervalHour" in
  if String.eqb legacyMode "auto_update" then ("on_start"%string, 0)
  else if String.eqb legacyMode "auto_update_at_intervals" then ("at_interval"%string, i64 ((if hours <=? 0 then 1 else hours) * 60))
  else (EmptyString, 0).

Definition set_policy (p : string * Z) (r : sub_row) : sub_row :=
  if negb (String.eqb (fst p) "") && String.eqb (sb_update_mode r) "disabled" then
    mkSubRow (sb_id r) (sb_address r) (sb_remarks r) (sb_status r) (sb_info r) (sb_auto_select r) (fst p) (snd p)
      (sb_failure_interval_minutes r) (sb_allow_direct_recovery r) (sb_sort r)
  else r.

Definition migrateSubscriptionUpdatePolicy : DB unit :=
  db! migrated := count_key subscriptionUpdateMigrationKey in
  if negb (migrated =? 0) then db_ret tt else
  db! row := select_value "system:setting" in
  let setting := default (text "") row in
  let p := legacy_policy setting in
  db! _ := (if String.eqb (fst p) "" then db_ret tt
            else exec (fun t => with_subscriptions t (map (set_policy p) (t_subscriptions t)))) in
  db! _ := (if doc_eqb setting (text "") then db_ret tt
            else match sj_Set_string setting "subscriptionAutoUpdateMode" "none" with
                 | Err e => db_fail (Wrapf "reset legacy subscription update mode: %w" [] e)
                 | Ok setting => exec (fun t => with_system_config t (alter (fun _ => setting) "system:setting" (t_system_config t)))
                 end) in
  insert_config subscriptionUpdateMigrationKey (text "1").

(** ** The automatic group *)

Definition autoSelectGroupMigrationKey : string := "migration:auto_select_group_v1".

Definition manual_member (autoSelect : list bool) (ref : option (string * Z)) : bool :=
  match ref with
  | None => true
  | Some (type, sub) =>
    negb (String.eqb type "subscriptionServer") || (sub <? 0) ||
    match autoSelect !! Z.to_nat sub with Some enabled => negb enabled | None => true end
  end.

Definition proxyHasManualMembers (autoSelect : list bool) : DB bool :=
  db! raw := select_value "outbound.proxy:connectedServers" in
  match raw with
  | None => db_ret false
  | Some raw =>
    match json_members raw with
    | Err e => db_fail (Wrapf "read PROXY members for auto-select migration: %w" [] e)
    | Ok touches => db_ret (existsb (manual_member autoSelect) touches)
    end
  end.

Definition quoted (s : string) : string := String "034" (s +:+ String "034" EmptyString).

Definition default_proxy_setting : string :=
  "{" +:+ quoted "probeURL" +:+ ":" +:+ quoted "https://www.gstatic.com/generate_204" +:+ "," +:+ quoted "probeInterval" +:+ ":" +:+
  quoted "300s" +:+ "," +:+ quoted "type" +:+ ":" +:+ quoted "leastping" +:+ "}".

(** [if cond { setting, err = sjson.Set(setting, key, value) }] *)
Definition set_if (cond : bool) (setting : doc) (key value what : string) : result doc :=
  if cond then match sj_Set_string setting key value with Ok d => Ok d | Err e => Err (Wrapf what [] e) end else Ok setting.

Definition automatic_setting (manual : bool) (setting : doc) : result doc :=
  let? setting := set_if (negb manual && String.eqb (gj_String setting "probeURL") "") setting "probeURL"
                    "https://www.gstatic.com/generate_204" "set automatic PROXY probe URL: %w" in
  let interval := gj_String setting "probeInterval" in
  let? setting := set_if (negb manual && (String.eqb interval "" || String.eqb interval "60s")) setting "probeInterval" "300s"
                    "set automatic PROXY interval: %w" in
  let? setting := set_if (negb manual && String.eqb (gj_String setting "type") "") setting "type" "leastping"
                    "set automatic PROXY type: %w" in
  match sj_Set_bool setting "autoAdd" (negb manual) with
  | Ok d => Ok d
  | Err e => Err (Wrapf "migrate automatic PROXY membership: %w" [] e)
  end.

Definition clear_auto_select (r : sub_row) : sub_row :=
  mkSubRow (sb_id r) (sb_address r) (sb_remarks r) (sb_status r) (sb_info r) 0 (sb_update_mode r) (sb_update_interval_minutes r)
    (sb_failure_interval_minutes r) (sb_allow_direct_recovery r) (sb_sort r).

Definition migrateAutoSelectToAutomaticGroup : DB unit :=
  db! migrated := count_key autoSelectGroupMigrationKey in
  if negb (migrated =? 0) then db_ret tt else
  db! autoSelect := query (fun t => map (fun r => negb (sb_auto_select r =? 0)) (order_by sb_sort (t_subscriptions t))) in
  db! _ := (if existsb id autoSelect then
              db! manual := proxyHasManualMembers autoSelect in
              db! row := select_value "outbound.proxy:setting" in
              db! setting := db_lift (automatic_setting manual (default (text default_proxy_setting) row)) in
              db! _ := replace_config "outbound.proxy:setting" setting in
              exec (fun t => with_subscriptions t (map clear_auto_select (t_subscriptions t)))
            else db_ret tt) in
  insert_config autoSelectGroupMigrationKey (text "1").

(** ** schema.go *)

(** A column that is added reads as its default in every row. *)
Definition add_column (name : string) (r : sub_row) : sub_row :=
  if String.eqb name "remarks" then
    mkSubRow (sb_id r) (sb_address r) "" (sb_status r) (sb_info r) (sb_auto_select r) (sb_update_mode r) (sb_update_interval_minutes r)
      (sb_failure_interval_minutes r) (sb_allow_direct_recovery r) (sb_sort r)
  else if String.eqb name "auto_select" then clear_auto_select r
  else if String.eqb name "update_mode" then
    mkSubRow (sb_id r) (sb_address r) (sb_remarks r) (sb_status r) (sb_info r) (sb_auto_select r) "disabled" (sb_update_interval_minutes r)
      (sb_failure_interval_minutes r) (sb_allow_direct_recovery r) (sb_sort r)
  else if String.eqb name "update_interval_minutes" then
    mkSubRow (sb_id r) (sb_address r) (sb_remarks r) (sb_status r) (sb_info r) (sb_auto_select r) (sb_update_mode r) 0
      (sb_failure_interval_minutes r) (sb_allow_direct_recovery r) (sb_sort r)
  else if String.eqb name "failure_interval_minutes" then
    mkSubRow (sb_id r) (sb_address r) (sb_remarks r) (sb_status r) (sb_info r) (sb_auto_select r) (sb_update_mode r) (sb_update_interval_minutes r)
      1 (sb_allow_direct_recovery r) (sb_sort r)
  else
    mkSubRow (sb_id r) (sb_address r) (sb_remarks r) (sb_status r) (sb_info r) (sb_auto_select r) (sb_update_mode r) (sb_update_interval_minutes r)
      (sb_failure_interval_minutes r) false (sb_sort r).

(** What an older release left: the columns of its table of subscriptions, and the
    tables of the first SQLite release, the first with the name of an outbound, the
    id of a server and a position. *)
Record Legacy := mkLegacy {
  lg_columns : list string;
  outbound_connections : option (list (string * Z * Z));
  outbound_settings : option (list (string * doc));
}.

Definition ensure_column (lg : Legacy) (check add : error -> error) (name : string) : DB unit :=
  db! count := db_wrap check (query (fun _ => bool_decide (name ∈ lg_columns lg))) in
  if count : bool then db_ret tt
  else db_wrap add (exec (fun t => with_subscriptions t (map (add_column name) (t_subscriptions t)))).

Fixpoint ensure_columns (lg : Legacy) (names : list string) : DB unit :=
  match names with
  | [] => db_ret tt
  | name :: rest => db! _ := ensure_column lg id id name in ensure_columns lg rest
  end.

(** [ORDER BY c.outbound_name, c.sort] *)
Definition row_le (x y : string * Z * Z) : bool :=
  match String.compare (fst (fst x)) (fst (fst y)) with Lt => true | Eq => snd x <=? snd y | Gt => false end.

Fixpoint insert_row (x : string * Z * Z) (l : list (string * Z * Z)) : list (string * Z * Z) :=
  match l with
  | [] => [x]
  | y :: l' => if row_le x y then x :: l else y :: insert_row x l'
  end.

(** The joined rows: the name, and the member the row says. *)
Definition joined (t : tables) (rows : list (string * Z * Z)) : list (string * NodeRef) :=
  omap (fun c =>
    let '(name, server, _) := c in
    match List.find (fun r => sv_id r =? server) (t_servers t) with
    | None => None
    | Some s =>
      let sub := match sv_sub_id s with
                 | Some id => match List.find (fun r => sb_id r =? id) (t_subscriptions t) with Some r => sb_sort r | None => -1 end
                 | None => -1
                 end in
      Some (name, if String.eqb (sv_type s) "subscription_server" then mkNodeRef "subscriptionServer" (sv_sort s + 1) sub name
                  else mkNodeRef "server" (sv_sort s + 1) 0 name)
    end) (foldr insert_row [] rows).

Fixpoint first_names (seen : list string) (rows : list (string * NodeRef)) : list string :=
  match rows with
  | [] => []
  | (name, _) :: rest => if decide (name ∈ seen) then first_names seen rest else name :: first_names (name :: seen) rest
  end.

Definition members_of (name : string) (rows : list (string * NodeRef)) : list NodeRef :=
  omap (fun row => if String.eqb (fst row) name then Some (snd row) else None) rows.

Fixpoint recover_members (rows : list (string * NodeRef)) (order : list string) : DB unit :=
  match order with
  | [] => db_ret tt
  | name :: rest =>
    let key := makeKey ("outbound." +:+ name) "connectedServers" in
    db! n := count_key key in
    if 0 <? n then recover_members rows rest
    else
      db! b := db_lift (marshal_members (members_of name rows)) in
      db! _ := insert_config key b in
      recover_members rows rest
  end.

Fixpoint recover_settings (settings : list (string * doc)) : DB unit :=
  match settings with
  | [] => db_ret tt
  | (name, setting) :: rest =>
    let key := makeKey ("outbound." +:+ name) "setting" in
    db! n := count_key key in
    if (0 <? n) || doc_eqb setting (text "") || doc_eqb setting (text "{}") then recover_settings rest
    else db! _ := insert_config key setting in recover_settings rest
  end.

(** A table that is missing, or a query that fails, is no members, and no settings. *)
Definition migrateLegacyOutboundTables (lg : Legacy) : DB unit :=
  db! none := query (fun _ => negb (is_some (outbound_connections lg)) && negb (is_some (outbound_settings lg))) in
  if none : bool then db_ret tt else
  db! rows := db_try (query (fun t => joined t (default [] (outbound_connections lg)))) in
  let rows := match rows, outbound_connections lg with Ok rows, Some _ => rows | _, _ => [] end in
  db! _ := recover_members rows (first_names [] rows) in
  db! settings := db_try (query (fun _ => tt)) in
  match settings, outbound_settings lg with Ok _, Some settings => recover_settings settings | _, _ => db_ret tt end.

Definition MigrateSchema (lg : Legacy) : DB unit :=
  db! _ := ensure_column lg (fun e => Wrapf "failed to check for remarks column: %w" [] e) (fun e => Wrapf "failed to add remarks column: %w" [] e) "remarks" in
  db! _ := ensure_columns lg ["auto_select"; "update_mode"; "update_interval_minutes"; "failure_interval_minutes"; "allow_direct_recovery"]%string in
  db! _ := migrateLegacyOutboundTables lg in
  transaction id id (db! _ := migrateSubscriptionUpdatePolicy in migrateAutoSelectToAutomaticGroup).

(** ** migrate.go: copying *)

(** Buckets, and in them keys, in the order of [ForEach]. *)
Definition bolt : Type := list (string * list (string * doc)).

Fixpoint lookup_first {V} (l : list (string * V)) (k : string) : option V :=
  match l with [] => None | (k', v) :: l => if String.eqb k k' then Some v else lookup_first l k end.

Definition Bucket (b : bolt) (name : string) : option (list (string * doc)) := lookup_first b name.

Fixpoint copy_system (entries : list (string * doc)) : DB unit :=
  match entries with
  | [] => db_ret tt
  | (k, v) :: rest =>
    db! _ := db_wrap (fun e => Wrapf "failed to insert system config %s: %w" [FStr k] e) (replace_config ("system:" +:+ k) v) in
    copy_system rest
  end.

(** [tx.Prepare] *)
Definition prepare : DB unit := query (fun _ => tt).

Definition migrateSystemBucket (b : bolt) : DB unit :=
  match Bucket b "system" with
  | None => db_ret tt
  | Some entries => db! _ := prepare in copy_system entries
  end.

Fixpoint copy_servers (i : Z) (results : list doc) : DB unit :=
  match results with
  | [] => db_ret tt
  | r :: rest =>
    db! _ := db_wrap (fun e => Wrapf "failed to insert server %d: %w" [FInt i] e) (exec (insert_server "server" None r i)) in
    copy_servers (i + 1) rest
  end.

Definition migrateServers (data : doc) : DB unit :=
  if negb (gj_valid data) then db_fail (Errorf "invalid JSON for servers" []) else
  match gj_elements data with
  | None => db_fail (Errorf "servers data is not an array" [])
  | Some [] => db_ret tt
  | Some results => db! _ := prepare in copy_servers 0 results
  end.

Fixpoint copy_subscriptions (i : Z) (results : list doc) : DB unit :=
  match results with
  | [] => db_ret tt
  | r :: rest =>
    db! subID := db_wrap (fun e => Wrapf "failed to insert subscription %d: %w" [FInt i] e) (stmt (fun t =>
      let id := t_subscriptions_seq t + 1 in
      (id, mkTables (t_servers t) (t_servers_seq t) (t_subscriptions t ++ [doc_columns r id i]) id (t_outbound_names t) (t_system_config t)))) in
    db! _ := insert_sub_servers (fun j e => Wrapf "failed to insert subscription server %d/%d: %w" [FInt i; FInt j] e) subID 0 (gj_Array r "servers") in
    copy_subscriptions (i + 1) rest
  end.

Definition migrateSubscriptions (data : doc) : DB unit :=
  if negb (gj_valid data) then db_fail (Errorf "invalid JSON for subscriptions" []) else
  match gj_elements data with
  | None => db_fail (Errorf "subscriptions data is not an array" [])
  | Some [] => db_ret tt
  | Some results => db! _ := prepare in db! _ := prepare in copy_subscriptions 0 results
  end.

Definition when_some {A} (o : option A) (f : A -> DB unit) : DB unit :=
  match o with Some a => f a | None => db_ret tt end.

Definition migrateTouchBucket (b : bolt) : DB unit :=
  when_some (Bucket b "touch") (fun bkt =>
    db! _ := when_some (lookup_first bkt "servers") migrateServers in
    when_some (lookup_first bkt "subscriptions") migrateSubscriptions).

(** The printable runs that are taken for names; one at the very end is not. *)
Definition gob_word (s : string) : bool :=
  (2 <? s_len s)%nat && negb (existsb (String.eqb s) ["map"; "uint8"; "string"; "interface"; "false"; "true"]%string).

Definition printable_byte (a : ascii) : bool := (32 <=? N_of_ascii a)%N && (N_of_ascii a <? 127)%N.

Fixpoint extractStringsFromGob (current data : string) : list string :=
  match data with
  | EmptyString => []
  | String a data =>
    if printable_byte a then extractStringsFromGob (current +:+ String a EmptyString) data
    else if gob_word current then current :: extractStringsFromGob EmptyString data
    else extractStringsFromGob EmptyString data
  end.

Fixpoint copy_names (i : Z) (names : list string) : DB unit :=
  match names with
  | [] => db_ret tt
  | name :: rest =>
    db! _ := db_wrap (fun e => Wrapf "failed to insert outbound name %s: %w" [FStr name] e) (insert_name name (i + 1)) in
    copy_names (i + 1) rest
  end.

Definition migrateOutboundNames (data : doc) : DB unit :=
  db! _ := db_wrap (fun e => Wrapf "failed to insert default outbound name: %w" [] e) (insert_name "proxy" 0) in
  copy_names 0 (extractStringsFromGob EmptyString (bytes_of data)).

Definition migrateOutboundSetting (outboundName : string) (data : doc) : DB unit :=
  db! _ := insert_name outboundName 0 in
  db_wrap (fun e => Wrapf "failed to insert outbound setting for %s: %w" [FStr outboundName] e)
    (replace_config (makeKey ("outbound." +:+ outboundName) "setting") data).

Definition migrateOutboundConnections (outboundName : string) (data : doc) : DB unit :=
  db! _ := db_wrap (fun e => Wrapf "failed to ensure outbound name %s exists: %w" [FStr outboundName] e) (insert_name outboundName 0) in
  db_wrap (fun e => Wrapf "failed to insert outbound connections for %s: %w" [FStr outboundName] e)
    (replace_config (makeKey ("outbound." +:+ outboundName) "connectedServers") data).

Definition outbound_bucket (name : string) : bool := (9 <? s_len name)%nat && HasPrefix name "outbound.".

Fixpoint copy_outbounds (buckets : bolt) : DB unit :=
  match buckets with
  | [] => db_ret tt
  | (name, bkt) :: rest =>
    db! _ := (if outbound_bucket name then
                let outboundName := TrimPrefix name "outbound." in
                db! _ := when_some (lookup_first bkt "setting") (migrateOutboundSetting outboundName) in
                when_some (lookup_first bkt "connectedServers") (migrateOutboundConnections outboundName)
              else db_ret tt) in
    copy_outbounds rest
  end.

Definition migrateOutboundsBucket (b : bolt) : DB unit :=
  db! _ := when_some (Bucket b "outbounds") (fun bkt => when_some (lookup_first bkt "names") migrateOutboundNames) in
  copy_outbounds b.

(** The transaction of [MigrateFromBoltDB]. *)
Definition copy_bolt (b : bolt) : DB unit :=
  transaction (fun e => Wrapf "failed to begin SQLite transaction: %w" [] e) (fun e => Wrapf "failed to commit migration transaction: %w" [] e)
    (db! _ := db_wrap (fun e => Wrapf "failed to migrate system bucket: %w" [] e) (migrateSystemBucket b) in
     db! _ := db_wrap (fun e => Wrapf "failed to migrate touch bucket: %w" [] e) (migrateTouchBucket b) in
     db! _ := db_wrap (fun e => Wrapf "failed to migrate outbounds bucket: %w" [] e) (migrateOutboundsBucket b) in
     db! _ := db_wrap (fun e => Wrapf "failed to migrate subscription update policy: %w" [] e) migrateSubscriptionUpdatePolicy in
     db_wrap (fun e => Wrapf "failed to migrate subscription auto-select: %w" [] e) migrateAutoSelectToAutomaticGroup).

(** ** migrate.go: checking *)

(** [key LIKE 'system:%'], which ignores case. *)
Definition system_keys (t : tables) : Z :=
  Z.of_nat (length (filter (fun kv => HasPrefix (ToLower (fst kv)) "system:" = true) (map_to_list (t_system_config t)))).

Definition verifyOutboundValue (key : string) (value : doc) : result unit :=
  if String.eqb key "setting" then check_setting value
  else if String.eqb key "connectedServers" then check_connections value
  else Ok tt.

Definition verify_value (name : string) (bkt : list (string * doc)) (key : string) : DB unit :=
  when_some (lookup_first bkt key) (fun value =>
    let fullKey := makeKey name key in
    let unread e := Wrapf "failed to read migrated %s: %w" [FStr fullKey] e in
    db! migrated := db_wrap unread (select_value fullKey) in
    match migrated with
    | None => db_fail (unread (ExtErr "sql: no rows in result set"))
    | Some migrated =>
      if negb (doc_eqb migrated value) then db_fail (Errorf "outbound config mismatch for %s" [FStr fullKey])
      else db_wrap (fun e => Wrapf "invalid migrated %s: %w" [FStr fullKey] e) (db_lift (verifyOutboundValue key migrated))
    end).

Fixpoint verify_outbounds (buckets : bolt) : DB unit :=
  match buckets with
  | [] => db_ret tt
  | (name, bkt) :: rest =>
    db! _ := (if HasPrefix name "outbound." then db! _ := verify_value name bkt "setting" in verify_value name bkt "connectedServers"
              else db_ret tt) in
    verify_outbounds rest
  end.

(** [len(gjson.ParseBytes(data).Array())]: a value that is no array counts as one,
    which the copying refused. *)
Definition gj_count (data : doc) : Z := match gj_elements data with Some l => Z.of_nat (length l) | None => 1 end.

(** An error of the query leaves the count at 0. *)
Definition verify_count (data : doc) (count : tables -> Z) (mismatch : string) : DB unit :=
  db! n := db_try (query count) in
  let n := match n with Ok n => n | Err _ => 0 end in
  if gj_count data =? n then db_ret tt else db_fail (Errorf mismatch [FInt (gj_count data); FInt n]).

Definition verifyMigration (b : bolt) : DB unit :=
  db! _ := when_some (Bucket b "system") (fun bkt =>
    db! sqlCount := db_wrap (fun e => Wrapf "failed to count migrated system config: %w" [] e) (query system_keys) in
    let boltCount := Z.of_nat (length bkt) in
    if boltCount =? sqlCount then db_ret tt else db_fail (Errorf "system config count mismatch: BoltDB=%d, SQLite=%d" [FInt boltCount; FInt sqlCount])) in
  db! _ := when_some (Bucket b "touch") (fun bkt =>
    db! _ := when_some (lookup_first bkt "servers") (fun data =>
      verify_count data (fun t => Z.of_nat (length (filter (fun r => is_server r = true) (t_servers t)))) "server count mismatch: BoltDB=%d, SQLite=%d") in
    when_some (lookup_first bkt "subscriptions") (fun data =>
      verify_count data (fun t => Z.of_nat (length (t_subscriptions t))) "subscription count mismatch: BoltDB=%d, SQLite=%d")) in
  verify_outbounds b.

(** ** migrate.go: files *)

Inductive file :=
| FBolt (b : bolt)
| FSqlite (t : tables)
| FPlain.

(** What happens to an operation on files: nothing, an error, or the end of the
    process before it. *)
Inductive fault := Fine | Fails (e : error) | Ends.

Record disk := mkDisk { d_files : gmap string file; d_faults : list fault; d_sql : list (option error) }.

(** [None]: the process has ended. *)
Definition OS (A : Type) : Type := disk -> option (result A) * disk.

Definition os_ret {A} (a : A) : OS A := fun d => (Some (Ok a), d).
Definition os_fail {A} (e : error) : OS A := fun d => (Some (Err e), d).
Definition os_bind {A B} (c : OS A) (k : A -> OS B) : OS B :=
  fun d => match c d with (Some (Ok a), d) => k a d | (Some (Err e), d) => (Some (Err e), d) | (None, d) => (None, d) end.
Definition os_try {A} (c : OS A) : OS (result A) :=
  fun d => match c d with (Some r, d) => (Some (Ok r), d) | (None, d) => (None, d) end.
Definition os_wrap {A} (wrap : error -> error) (c : OS A) : OS A :=
  fun d => match c d with (Some (Err e), d) => (Some (Err (wrap e)), d) | r => r end.
(** [log.Fatal] on an error *)
Definition os_fatal {A} (c : OS A) : OS A := fun d => match c d with (Some (Err _), d) => (None, d) | r => r end.

Definition os_step {A} (f : gmap string file -> result A * gmap string file) : OS A :=
  fun d =>
    let '(fault, rest) := match d_faults d with [] => (Fine, []) | x :: l => (x, l) end in
    match fault with
    | Fine => let '(r, fs) := f (d_files d) in (Some r, mkDisk fs rest (d_sql d))
    | Fails e => (Some (Err e), mkDisk (d_files d) rest (d_sql d))
    | Ends => (None, mkDisk (d_files d) rest (d_sql d))
    end.

(** An operation that leaves the files alone, such as [Close]. *)
Definition os_effect : OS unit := os_step (fun fs => (Ok tt, fs)).

(** Whether there is such a file; other errors are errors. *)
Definition os_Stat (p : string) : OS bool := os_step (fun fs => (Ok (is_some (fs !! p)), fs)).

(** An error that [os.IsNotExist] knows is not reported. *)
Definition os_Remove (p : string) : OS unit := os_step (fun fs => (Ok tt, base.delete p fs)).

Definition os_Rename (a b : string) : OS unit :=
  os_step (fun fs => match fs !! a with
                     | Some f => (Ok tt, <[b := f]> (base.delete a fs))
                     | None => (Err (ExtErr "no such file or directory"), fs)
                     end).

Definition os_Create (p : string) (f : file) : OS unit := os_step (fun fs => (Ok tt, <[p := f]> fs)).

(** Statements on the database in a file *)
Definition on_database {A} (p : string) (c : DB A) : OS A :=
  fun d =>
    match os_step (fun fs => match fs !! p with Some (FSqlite t) => (Ok t, fs) | _ => (Err (ExtErr "file is not a database"), fs) end) d with
    | (Some (Ok t), d) =>
      let '(r, s) := c (mkDatabase t (d_sql d)) in
      (Some r, mkDisk (<[p := FSqlite (db_tables s)]> (d_files d)) (d_faults d) (db_faults s))
    | (Some (Err e), d) => (Some (Err e), d)
    | (None, d) => (None, d)
    end.

End Upgrade.

Notation "'os!' x ':=' e 'in' k" := (os_bind e (fun x => k))
  (at level 10, x pattern, e at level 100, k at level 200) : go_scope.

Section Bolt.
Context `{J : Json} `{U : !UpgradeJson} (dir suffix : string).

Definition boltPath : string := dir +:+ "/bolt.db".
Definition sqlitePath : string := dir +:+ "/v2raya.db".
(** The name that [os.CreateTemp] chose *)
Definition tempPath : string := dir +:+ "/.v2raya.db.migrate-" +:+ suffix.

(** A database that cannot be opened or read holds no data. *)
Definition sqliteHoldsData (path : string) : OS bool :=
  os! opened := os_try os_effect in
  match opened with
  | Err _ => os_ret false
  | Ok _ =>
    os! n := os_try (on_database path (query system_keys)) in
    os_ret (match n with Ok n => 0 <? n | Err _ => false end)
  end.

Fixpoint free_backup (fuel : nat) (backupPath : string) (n : Z) : OS string :=
  os! taken := os_Stat backupPath in
  match (taken : bool), fuel with
  | true, S fuel => free_backup fuel (boltPath +:+ ".bak." +:+ dec n) (n + 1)
  | _, _ => os_ret backupPath
  end.

Definition moveBoltAside : OS string :=
  fun d => (os! backupPath := free_backup (size (d_files d)) (boltPath +:+ ".bak") 1 in
            os! _ := os_Rename boltPath backupPath in
            os_ret backupPath) d.

Fixpoint run_pragmas (pragmas : list string) : OS unit :=
  match pragmas with
  | [] => os_ret tt
  | p :: rest => os! _ := os_wrap (fun e => Wrapf "failed to set PRAGMA %s: %w" [FStr p] e) os_effect in run_pragmas rest
  end.

Definition createSQLiteDB (dbPath : string) : OS unit :=
  os! _ := os_wrap (fun e => Wrapf "failed to create SQLite database file: %w" [] e) (os_Create dbPath FPlain) in
  os! _ := os_effect in
  os! _ := os_wrap (fun e => Wrapf "failed to open SQLite database: %w" [] e) os_effect in
  os! _ := run_pragmas ["PRAGMA journal_mode=WAL"; "PRAGMA synchronous=NORMAL"; "PRAGMA busy_timeout=5000"; "PRAGMA foreign_keys=ON";
                        "PRAGMA cache_size=-8000"]%string in
  os_fatal (os_Create dbPath (FSqlite empty_tables)).

Definition open_bolt : OS bolt :=
  os_step (fun fs => match fs !! boltPath with Some (FBolt b) => (Ok b, fs) | _ => (Err (ExtErr "invalid database"), fs) end).

(** Fills the temporary database and puts it in place; in the one error that names
    two, the text of the first is left out. *)
Definition fill_and_publish (b : bolt) : OS unit :=
  os! _ := os_wrap (fun e => Wrapf "failed to create SQLite database for migration: %w" [] e) (createSQLiteDB tempPath) in
  os! _ := on_database tempPath (copy_bolt b) in
  os! _ := os_wrap (fun e => Wrapf "migration verification failed: %w" [] e) (on_database tempPath (verifyMigration b)) in
  os! _ := os_wrap (fun e => Wrapf "failed to close migrated SQLite database: %w" [] e) os_effect in
  os! _ := os_wrap (fun e => Wrapf "failed to close BoltDB: %w" [] e) os_effect in
  os! _ := os_wrap (fun e => Wrapf "failed to publish migrated SQLite database: %w" [] e) (os_Rename tempPath sqlitePath) in
  os! moved := os_try moveBoltAside in
  match moved with
  | Ok _ => os_ret tt
  | Err err =>
    os! rolled := os_try (os_Rename sqlitePath tempPath) in
    match rolled with
    | Err rollbackErr => os_fail (Wrapf "failed to back up bolt.db: %v; failed to remove published SQLite database: %w" [] rollbackErr)
    | Ok _ => os_fail (Wrapf "failed to back up bolt.db: %w" [] err)
    end
  end.

(** The deferred removal of the temporary files *)
Definition with_cleanup {A} (c : OS A) : OS A :=
  os! r := os_try c in
  os! _ := os_try (os_Remove tempPath) in
  os! _ := os_try (os_Remove (tempPath +:+ "-shm")) in
  os! _ := os_try (os_Remove (tempPath +:+ "-wal")) in
  match r with Ok a => os_ret a | Err e => os_fail e end.

Definition migrate_bolt : OS unit :=
  os! b := os_wrap (fun e => Wrapf "failed to open BoltDB: %w" [] e) open_bolt in
  os! _ := os_wrap (fun e => Wrapf "failed to create temporary SQLite database: %w" [] e) (os_Create tempPath FPlain) in
  os! closed := os_try os_effect in
  match closed with
  | Err e => os! _ := os_try (os_Remove tempPath) in os_fail (Wrapf "failed to close temporary SQLite database: %w" [] e)
  | Ok _ => with_cleanup (fill_and_publish b)
  end.

Fixpoint discard (suffixes : list string) : OS unit :=
  match suffixes with
  | [] => os_ret tt
  | x :: rest =>
    os! _ := os_wrap (fun e => Wrapf "failed to discard the partial SQLite database: %w" [] e) (os_Remove (sqlitePath +:+ x)) in
    discard rest
  end.

Definition MigrateFromBoltDB : OS unit :=
  os! there := os_wrap (fun e => Wrapf "failed to inspect BoltDB: %w" [] e) (os_Stat boltPath) in
  if negb there then os_ret tt else
  os! both := os_wrap (fun e => Wrapf "failed to inspect SQLite database: %w" [] e) (os_Stat sqlitePath) in
  if negb both then migrate_bolt else
  os! holds := sqliteHoldsData sqlitePath in
  if holds : bool then
    os! _ := os_wrap (fun e => Wrapf "SQLite database already exists but bolt.db could not be moved aside: %w" [] e) moveBoltAside in
    os_ret tt
  else
    os! _ := discard [""; "-wal"; "-shm"]%string in
    migrate_bolt.

End Bolt.

(** ** Running with files *)

Section Owp.
Context `{J : Json} `{U : !UpgradeJson}.

(** With [F = false] nothing fails. *)
Definition owp (F : bool) {A} (c : OS A) (fs : gmap string file) (Q : option (result A) -> gmap string file -> Prop) : Prop :=
  forall faults sql, (F = false -> faults = [] /\ sql = []) ->
  exists r fs' faults' sql', c (mkDisk fs faults sql) = (r, mkDisk fs' faults' sql') /\ (F = false -> faults' = [] /\ sql' = []) /\ Q r fs'.

Lemma owp_ret F {A} (a : A) fs Q : Q (Some (Ok a)) fs -> owp F (os_ret a) fs Q.
Proof. intros H faults sql Hf. by eexists _, _, _, _. Qed.

Lemma owp_fail F {A} e fs (Q : option (result A) -> gmap string file -> Prop) : Q (Some (Err e)) fs -> owp F (os_fail e) fs Q.
Proof. intros H faults sql Hf. by eexists _, _, _, _. Qed.

Lemma owp_mono F {A} (c : OS A) fs (Q Q' : option (result A) -> gmap string file -> Prop) :
  owp F c fs Q -> (forall r fs', Q r fs' -> Q' r fs') -> owp F c fs Q'.
Proof. intros H HQ faults sql Hf. destruct (H faults sql Hf) as (r & fs' & x & y & ? & ? & ?). exists r, fs', x, y. auto. Qed.

Lemma owp_bind F {A B} (c : OS A) (k : A -> OS B) fs Q :
  owp F c fs (fun r fs' => match r with Some (Ok a) => owp F (k a) fs' Q | Some (Err e) => Q (Some (Err e)) fs' | None => Q None fs' end) ->
  owp F (os_bind c k) fs Q.
Proof.
  intros H faults sql Hf. destruct (H faults sql Hf) as (r & fs' & x & y & Hc & Hf' & HQ). unfold os_bind. rewrite Hc.
  destruct r as [[a|e]|]; [by apply HQ|by eexists _, _, _, _..].
Qed.

(** The outcomes of a computation, mapped. *)
Lemma owp_map F {A B} (g : option (result A) -> option (result B)) (c : OS A) (c' : OS B) fs Q :
  (forall d, c' d = (g (c d).1, (c d).2)) -> owp F c fs (fun r fs' => Q (g r) fs') -> owp F c' fs Q.
Proof.
  intros He H faults sql Hf. destruct (H faults sql Hf) as (r & fs' & x & y & Hc & Hf' & HQ). rewrite He, Hc. by eexists _, _, _, _.
Qed.

Lemma owp_try F {A} (c : OS A) fs Q : owp F c fs (fun r fs' => Q (match r with Some r => Some (Ok r) | None => None end) fs') -> owp F (os_try c) fs Q.
Proof. apply owp_map. intros d. unfold os_try. by destruct (c d) as [[]]. Qed.

Lemma owp_wrap F {A} wrap (c : OS A) fs Q :
  owp F c fs (fun r fs' => Q (match r with Some (Err e) => Some (Err (wrap e)) | r => r end) fs') -> owp F (os_wrap wrap c) fs Q.
Proof. apply owp_map. intros d. unfold os_wrap. by destruct (c d) as [[[]|]]. Qed.

Lemma owp_fatal F {A} (c : OS A) fs Q :
  owp F c fs (fun r fs' => Q (match r with Some (Err _) => None | r => r end) fs') -> owp F (os_fatal c) fs Q.
Proof. apply owp_map. intros d. unfold os_fatal. by destruct (c d) as [[[]|]]. Qed.

Lemma owp_step F {A} (f : gmap string file -> result A * gmap string file) fs Q :
  (F = true -> (forall e, Q (Some (Err e)) fs) /\ Q None fs) -> Q (Some (f fs).1) (f fs).2 -> owp F (os_step f) fs Q.
Proof.
  intros He HQ faults sql Hf. unfold os_step. destruct faults as [|x faults]; cbn.
  - destruct (f fs) as [r fs']. by eexists _, _, _, _.
  - destruct F; [|by destruct (Hf eq_refl)]. destruct (He eq_refl) as [H1 H2]. destruct x as [|e|].
    + destruct (f fs) as [r fs']. by eexists _, _, _, _.
    + eexists _, _, _, _. split; [done|]. split; [done|apply H1].
    + by eexists _, _, _, _.
Qed.

Lemma owp_on_database F {A} p (c : DB A) fs t (P : result A -> tables -> Prop) Q : fs !! p = Some (FSqlite t) -> wp F c t P ->
  (F = true -> (forall e, Q (Some (Err e)) fs) /\ Q None fs) -> (forall r t', P r t' -> Q (Some r) (<[p := FSqlite t']> fs)) ->
  owp F (on_database p c) fs Q.
Proof.
  intros Hp Hc He HQ faults sql Hf. unfold on_database, os_step. cbn [d_faults d_files d_sql].
  destruct faults as [|x faults].
  - rewrite Hp. cbn [d_sql d_files d_faults]. destruct (Hc sql ltac:(naive_solver)) as (r & t' & fs' & Hr & Hf' & HP). rewrite Hr.
    eexists _, _, _, _. split; [done|]. cbn. split; [naive_solver|auto].
  - destruct F; [|by destruct (Hf eq_refl)]. destruct (He eq_refl) as [H1 H2]. destruct x as [|e|].
    + rewrite Hp. cbn [d_sql d_files d_faults]. destruct (Hc sql ltac:(done)) as (r & t' & fs' & Hr & Hf' & HP). rewrite Hr.
      eexists _, _, _, _. split; [done|]. cbn. split; [done|auto].
    + eexists _, _, _, _. split; [done|]. split; [done|apply H1].
    + by eexists _, _, _, _.
Qed.

Lemma owp_files F {A} (g : gmap string file -> OS A) fs Q : owp F (g fs) fs Q -> owp F (fun d => g (d_files d) d) fs Q.
Proof. done. Qed.

Lemma wp_wrap F {A} wrap (c : DB A) t Q :
  wp F c t (fun r t' => Q (match r with Err e => Err (wrap e) | Ok a => Ok a end) t') -> wp F (db_wrap wrap c) t Q.
Proof.
  intros H fs Hfs. destruct (H fs Hfs) as (r & t' & fs' & Hc & Hf & HQ). unfold db_wrap. rewrite Hc. destruct r; by eexists _, _, _.
Qed.

Lemma wp_transaction F {A} wb wc (fn : DB A) t (Q : result A -> tables -> Prop) : (F = true -> forall e, Q (Err e) t) ->
  wp F fn t (fun r t' => match r with Ok a => Q (Ok a) t' | Err e => Q (Err e) t end) -> wp F (transaction wb wc fn) t Q.
Proof.
  intros He H fs Hfs. destruct (pop_cases F t fs Hfs) as (fo & fs1 & Hp & Hf1). unfold transaction. rewrite Hp.
  destruct fo as [e|]; [eexists (Err _), t, fs1; split; [done|]; destruct F; [by split; [|apply He]|by destruct (Hf1 eq_refl)]|].
  destruct (H fs1) as (r & t' & fs2 & Hc & Hf2 & HQ); [naive_solver|]. rewrite Hc. destruct r as [a|e]; cbn; [|by exists (Err e), t, fs2].
  destruct (pop_cases F t' fs2 Hf2) as (fo & fs3 & Hp3 & Hf3). rewrite Hp3. destruct fo as [e|]; cbn.
  - exists (Err (wc e)), t, fs3. split; [done|]. destruct F; [by split; [|apply He]|by destruct (Hf3 eq_refl)].
  - exists (Ok a), t', fs3. naive_solver.
Qed.

End Owp.

(** ** What is copied *)

Ltac up_step := first [wp_step | apply wp_wrap].

Section Copy.
Context `{J : Json} `{U : !UpgradeJson} `{UL : !UpgradeLaws U}.

Definition touch_value (b : bolt) (key : string) : option doc := bkt ← Bucket b "touch"; lookup_first bkt key.
Definition system_value (b : bolt) (key : string) : option doc := bkt ← Bucket b "system"; lookup_first bkt key.

(** The list in the bucket touch. *)
Definition stored (b : bolt) (key : string) : list doc :=
  default [] (d ← touch_value b key; gj_elements d).

Lemma wp_copy_servers F items i t : store_ok t -> store_packed t -> i = Z.of_nat (length (v_servers (view_of t))) ->
  wp F (copy_servers i items) t (fun r t' =>
    match r with
    | Ok _ => store_ok t' /\ store_packed t' /\ view_of t' = view_servers (view_of t) (v_servers (view_of t) ++ items) /\
              t_subscriptions_seq t' = t_subscriptions_seq t
    | Err _ => F = true
    end).
Proof.
  revert i t. induction items as [|d items IH]; intros i t Hok Hp Hi; cbn [copy_servers].
  { wp_step. split; [done|]. split; [done|]. split; [apply view_servers_nil|done]. }
  do 3 up_step; [done|]. assert (i = max_or_minus_one (map sv_sort (server_rows (t_servers t))) + 1) as ->.
  { rewrite Hi. cbn [v_servers view_of]. rewrite max_packed by apply Hp. by rewrite !length_map. }
  destruct (append_server_row t d Hok) as (H1 & H2 & H3). cbn zeta in *. eapply wp_mono.
  { apply IH; [done|by apply H3|]. rewrite H2. cbn [v_servers view_servers]. rewrite length_app. cbn [length]. lia. }
  intros [u|e] t'; [|done]. intros (Hok' & Hp' & Hv & Hs). split; [done|]. split; [done|]. split; [|done].
  rewrite Hv, H2. unfold view_servers. cbn [v_servers v_subs v_names v_config]. by rewrite <-app_assoc.
Qed.

Lemma wp_copy_subscriptions F items i t : store_ok t -> store_packed t -> i = Z.of_nat (length (v_subs (view_of t))) ->
  wp F (copy_subscriptions i items) t (fun r t' =>
    match r with
    | Ok _ => store_ok t' /\ store_packed t' /\
              view_of t' = view_subs (view_of t) (v_subs (view_of t) ++ new_subs (t_subscriptions_seq t) items)
    | Err _ => F = true
    end).
Proof.
  revert i t. induction items as [|d items IH]; intros i t Hok Hp Hi; cbn [copy_subscriptions].
  { wp_step. split; [done|]. split; [done|]. apply view_subs_nil. }
  do 3 up_step; [done|]. cbn [fst snd]. up_step.
  assert (i = max_or_minus_one (map sb_sort (t_subscriptions t)) + 1) as ->.
  { rewrite Hi. cbn [v_subs view_of]. rewrite max_packed by apply Hp. by rewrite !length_map. }
  fold (add_sub d t). eapply wp_mono; [apply wp_insert_sub_servers|]. intros [u|e] t2 (k & -> & Hk); [|done]. subst k. rewrite firstn_all.
  destruct (append_sub_row t d (gj_Array d "servers") Hok) as (H1 & H2 & H3). cbn zeta in *. eapply wp_mono.
  { apply IH; [done|by apply H2|]. rewrite H3. cbn [v_subs view_subs]. rewrite length_app. cbn [length].
    cbn [v_subs view_of]. rewrite max_packed by apply Hp. rewrite !length_map. lia. }
  intros [u'|e] t'; [|done]. intros (Hok' & Hp' & Hv). split; [done|]. split; [done|]. rewrite Hv, H3. cbn [v_subs view_subs add_rows add_sub t_subscriptions_seq].
  rewrite new_subs_cons, <-app_assoc. done.
Qed.

(** A list that is stored is a valid array. *)
Definition listed (o : option doc) : Prop := match o with Some d => gj_valid d = true /\ is_some (gj_elements d) = true | None => True end.

Lemma wp_migrateTouchBucket F b t : store_ok t -> store_packed t -> v_servers (view_of t) = [] -> v_subs (view_of t) = [] ->
  wp F (migrateTouchBucket b) t (fun r t' =>
    match r with
    | Ok _ => store_ok t' /\ store_packed t' /\
              view_of t' = mkView (stored b "servers") (new_subs (t_subscriptions_seq t) (stored b "subscriptions")) (t_outbound_names t) (t_system_config t)
    | Err _ => F = false -> ~ (listed (touch_value b "servers") /\ listed (touch_value b "subscriptions"))
    end).
Proof.
  intros Hok Hp Hs Hb. assert (Hv : view_of t = mkView [] [] (t_outbound_names t) (t_system_config t)).
  { unfold view_of in *. cbn [v_servers v_subs] in Hs, Hb. by rewrite Hs, Hb. }
  unfold migrateTouchBucket, stored, touch_value. destruct (Bucket b "touch") as [bkt|]; cbn [when_some mbind option_bind]; [|by wp_step].
  wp_step. eapply (wp_mono _ _ _ (fun r t1 => match r with
    | Ok _ => store_ok t1 /\ store_packed t1 /\
        view_of t1 = mkView (default [] (d ← lookup_first bkt "servers"; gj_elements d)) [] (t_outbound_names t) (t_system_config t) /\
        t_subscriptions_seq t1 = t_subscriptions_seq t
    | Err _ => F = false -> ~ listed (lookup_first bkt "servers") end)).
  { destruct (lookup_first bkt "servers") as [d|]; cbn [when_some mbind option_bind listed]; [|by wp_step].
    unfold migrateServers. destruct (gj_valid d); cbn [negb]; [|by wp_step; intros _ []].
    destruct (gj_elements d) as [[|x l]|]; [by wp_step| |by wp_step; intros _ []].
    unfold prepare. do 2 wp_step; [done|]. eapply wp_mono; [apply wp_copy_servers; [done|done|by rewrite Hv]|].
    intros [u|e] t1; [by rewrite Hv|]. by intros ->. }
  intros [u|e] t1; [|by intros H HF [? _]; apply H]. intros (Hok1 & Hp1 & Hv1 & Hq1).
  destruct (lookup_first bkt "subscriptions") as [d|]; cbn [when_some mbind option_bind listed]; [|by wp_step; rewrite Hv1].
  unfold migrateSubscriptions. destruct (gj_valid d); cbn [negb]; [|by wp_step; intros _ [_ []]].
  destruct (gj_elements d) as [[|x l]|]; [by wp_step; rewrite Hv1| |by wp_step; intros _ [_ []]].
  unfold prepare. do 2 wp_step; [done|]. do 2 wp_step; [done|]. eapply wp_mono; [apply wp_copy_subscriptions; [done|done|by rewrite Hv1]|].
  intros [u'|e] t2; [|by intros ->]. by rewrite Hq1, Hv1.
Qed.

(** *** The configuration *)

(** Nothing but names and configuration changed. *)
Definition lists_kept (t t' : tables) : Prop :=
  t_servers t' = t_servers t /\ t_servers_seq t' = t_servers_seq t /\ t_subscriptions t' = t_subscriptions t /\
  t_subscriptions_seq t' = t_subscriptions_seq t.

Lemma lists_kept_trans t1 t2 t3 : lists_kept t1 t2 -> lists_kept t2 t3 -> lists_kept t1 t3.
Proof. unfold lists_kept. intuition congruence. Qed.

Definition system_config (entries : list (string * doc)) (m : gmap string doc) : gmap string doc :=
  foldl (fun m kv => <["system:" +:+ fst kv := snd kv]> m) m entries.

Lemma wp_copy_system F entries t : wp F (copy_system entries) t (fun r t' =>
  match r with Ok _ => t' = with_system_config t (system_config entries (t_system_config t)) | Err _ => F = true end).
Proof.
  revert t. induction entries as [|[k v] entries IH]; intros t; cbn [copy_system]; [by wp_step; destruct t|].
  unfold replace_config. do 3 up_step; [done|]. eapply wp_mono; [apply IH|]. by intros [u|e] t' H.
Qed.

Lemma lookup_first_elem {V} (l : list (string * V)) k v : lookup_first l k = Some v -> (k, v) ∈ l.
Proof.
  induction l as [|[k' v'] l IH]; cbn [lookup_first]; [done|]. destruct (String.eqb_spec k k') as [->|]; [intros [= ->]; constructor|].
  intros H. constructor. auto.
Qed.

Lemma system_config_lookup entries m k : NoDup (map fst entries) ->
  system_config entries m !! ("system:" +:+ k) = match lookup_first entries k with Some v => Some v | None => m !! ("system:" +:+ k) end.
Proof.
  revert m. induction entries as [|[k' v] entries IH]; intros m Hn; [done|]. cbn [system_config foldl lookup_first fst snd].
  apply NoDup_cons in Hn as [Hk Hn]. fold (system_config entries (<["system:" +:+ k' := v]> m)). rewrite IH by done.
  destruct (String.eqb_spec k k') as [->|Hne].
  - destruct (lookup_first entries k') as [v'|] eqn:E; [|by rewrite lookup_insert_eq]. exfalso. apply Hk.
    apply lookup_first_elem in E. apply (list_elem_of_fmap_2 fst) in E. exact E.
  - destruct (lookup_first entries k); [done|]. rewrite lookup_insert_ne; [done|]. intros H%app_inj_l. done.
Qed.

Lemma system_config_other entries m k : (forall x, k <> "system:" +:+ x) -> system_config entries m !! k = m !! k.
Proof.
  revert m. induction entries as [|[k' v] entries IH]; intros m Hk; [done|]. cbn [system_config foldl fst snd].
  fold (system_config entries (<["system:" +:+ k' := v]> m)). rewrite IH by done. by rewrite lookup_insert_ne.
Qed.

Lemma wp_insert_name F name n t : wp F (insert_name name n) t (fun r t' =>
  match r with
  | Ok _ => lists_kept t t' /\ t_system_config t' = t_system_config t /\ name ∈ map fst (t_outbound_names t') /\
            forall x, x ∈ map fst (t_outbound_names t) -> x ∈ map fst (t_outbound_names t')
  | Err _ => F = true
  end).
Proof.
  unfold insert_name. wp_step; [done|]. destruct (decide _) as [Hin|Hin]; [done|]. split; [done|]. split; [done|].
  cbn [with_outbound_names t_outbound_names]. rewrite map_app. split; [|intros x Hx]; rewrite elem_of_app; [right; by constructor|by left].
Qed.

Lemma wp_migrateOutboundNames F data t : wp F (migrateOutboundNames data) t (fun r t' =>
  match r with
  | Ok _ => lists_kept t t' /\ t_system_config t' = t_system_config t
  | Err _ => F = true
  end).
Proof.
  unfold migrateOutboundNames. generalize (extractStringsFromGob EmptyString (bytes_of data)) as names. intros names.
  do 2 up_step. eapply wp_mono; [apply wp_insert_name|]. intros [u|e] t1; [|done]. intros (H1 & H2 & _). rewrite <-H2.
  generalize 0 as i. clear H2. revert t1 H1. induction names as [|name names IH]; intros t1 H1 i; cbn [copy_names]; [by wp_step|].
  do 2 up_step. eapply wp_mono; [apply wp_insert_name|]. intros [u'|e] t2; [|done]. intros (H3 & H4 & _). rewrite <-H4.
  apply IH. by eapply lists_kept_trans.
Qed.

(** A name and one of its values. *)
Definition value_set (F : bool) (name key : string) (d : doc) (t : tables) (r : result unit) (t' : tables) : Prop :=
  match r with
  | Ok _ => lists_kept t t' /\ t_system_config t' = <[makeKey ("outbound." +:+ name) key := d]> (t_system_config t) /\
            name ∈ map fst (t_outbound_names t') /\ forall x, x ∈ map fst (t_outbound_names t) -> x ∈ map fst (t_outbound_names t')
  | Err _ => F = true
  end.

Lemma wp_replace_value F wrap name key d t t1 : value_set F name key d t (Ok tt) (with_system_config t1 (<[makeKey ("outbound." +:+ name) key := d]> (t_system_config t1))) ->
  wp F (db_wrap wrap (replace_config (makeKey ("outbound." +:+ name) key) d)) t1 (value_set F name key d t).
Proof. intros H. unfold replace_config. by do 2 up_step. Qed.

Lemma wp_migrateOutboundSetting F name d t : wp F (migrateOutboundSetting name d) t (value_set F name "setting" d t).
Proof.
  unfold migrateOutboundSetting. up_step. eapply wp_mono; [apply wp_insert_name|]. intros [u|e] t1; [|done]. intros (H1 & H2 & H3 & H4).
  apply wp_replace_value. cbn [value_set with_system_config t_system_config]. rewrite H2. done.
Qed.

Lemma wp_migrateOutboundConnections F name d t : wp F (migrateOutboundConnections name d) t (value_set F name "connectedServers" d t).
Proof.
  unfold migrateOutboundConnections. do 2 up_step. eapply wp_mono; [apply wp_insert_name|]. intros [u|e] t1; [|done]. intros (H1 & H2 & H3 & H4).
  apply wp_replace_value. cbn [value_set with_system_config t_system_config]. rewrite H2. done.
Qed.

(** The values of a bucket, in a configuration. *)
Definition put (name key : string) (o : option doc) (m : gmap string doc) : gmap string doc :=
  match o with Some d => <[makeKey name key := d]> m | None => m end.

Fixpoint outbound_config (buckets : bolt) (m : gmap string doc) : gmap string doc :=
  match buckets with
  | [] => m
  | (name, bkt) :: rest =>
    outbound_config rest (if outbound_bucket name then put name "connectedServers" (lookup_first bkt "connectedServers") (put name "setting" (lookup_first bkt "setting") m) else m)
  end.

Lemma wp_when_put F (o : option doc) f name key t : outbound_bucket name = true ->
  (forall d t, wp F (f d) t (value_set F (TrimPrefix name "outbound.") key d t)) ->
  wp F (when_some o f) t (fun r t' => match r with
    | Ok _ => lists_kept t t' /\ t_system_config t' = put name key o (t_system_config t)
    | Err _ => F = true end).
Proof.
  intros Hn Hf. destruct o as [d|]; cbn [when_some put]; [|by wp_step]. eapply wp_mono; [apply Hf|].
  intros [u|e] t'; [|done]. intros (H1 & H2 & _). split; [done|]. rewrite H2. f_equal.
  apply andb_true_iff in Hn as [_ Hn]. apply HasPrefix_spec in Hn as [x ->]. by rewrite TrimPrefix_app.
Qed.

Lemma wp_copy_outbounds F buckets t : wp F (copy_outbounds buckets) t (fun r t' =>
  match r with
  | Ok _ => lists_kept t t' /\ t_system_config t' = outbound_config buckets (t_system_config t)
  | Err _ => F = true
  end).
Proof.
  revert t. induction buckets as [|[name bkt] buckets IH]; intros t; cbn [copy_outbounds outbound_config]; [by wp_step|].
  wp_step. destruct (outbound_bucket name) eqn:Hn.
  2:{ wp_step. apply IH. }
  wp_step. eapply wp_mono; [apply (wp_when_put _ _ _ name "setting"); [done|apply wp_migrateOutboundSetting]|]. intros [u|e] t1; [|done]. intros [H1 H2].
  eapply wp_mono; [apply (wp_when_put _ _ _ name "connectedServers"); [done|apply wp_migrateOutboundConnections]|]. intros [u'|e] t2; [|done]. intros [H3 H4].
  eapply wp_mono; [apply IH|]. intros [u''|e] t3; [|done]. intros [H5 H6]. split; [by eapply lists_kept_trans; [|eapply lists_kept_trans]|].
  by rewrite H6, H4, H2.
Qed.

Lemma wp_migrateOutboundsBucket F b t : wp F (migrateOutboundsBucket b) t (fun r t' =>
  match r with
  | Ok _ => lists_kept t t' /\ t_system_config t' = outbound_config b (t_system_config t)
  | Err _ => F = true
  end).
Proof.
  unfold migrateOutboundsBucket. wp_step. eapply (wp_mono _ _ _ (fun r t1 => match r with
    | Ok _ => lists_kept t t1 /\ t_system_config t1 = t_system_config t | Err _ => F = true end)).
  { destruct (Bucket b "outbounds") as [bkt|]; cbn [when_some]; [|by wp_step].
    destruct (lookup_first bkt "names"); cbn [when_some]; [apply wp_migrateOutboundNames|by wp_step]. }
  intros [u|e] t1; [|done]. intros [H1 <-]. eapply wp_mono; [apply wp_copy_outbounds|]. intros [u'|e] t2; [|done]. intros [H2 H3].
  split; [by eapply lists_kept_trans|done].
Qed.

(** *** Lookups *)

Lemma snoc_last x y a b : x +:+ String a EmptyString = y +:+ String b EmptyString -> a = b.
Proof.
  revert y. induction x as [|c x IH]; intros [|c' y]; rewrite ?s_app_cons, ?s_app_nil.
  - by intros [= ->].
  - by destruct y.
  - by destruct x.
  - intros [= -> H]. eauto.
Qed.

Definition value_keys : list string := ["setting"; "connectedServers"]%string.

Lemma makeKey_inj n n' k k' : k ∈ value_keys -> k' ∈ value_keys -> makeKey n k = makeKey n' k' -> n = n' /\ k = k'.
Proof.
  unfold makeKey. intros Hk Hk' H. assert (k = k') as ->.
  { apply list_elem_of_In in Hk, Hk'. cbn in Hk, Hk'. destruct_or! Hk; destruct_or! Hk'; subst; try done; exfalso;
      change "setting"%string with ("settin" +:+ "g") in H; change "connectedServers"%string with ("connectedServer" +:+ "s") in H;
      rewrite !s_app_assoc in H; apply snoc_last in H; done. }
  split; [|done]. rewrite !s_app_assoc in H. by apply app_inj_r, app_inj_r in H.
Qed.

Lemma put_lookup name key o m n k : key ∈ value_keys -> k ∈ value_keys ->
  put name key o m !! makeKey n k = if String.eqb name n && String.eqb key k then match o with Some d => Some d | None => m !! makeKey n k end else m !! makeKey n k.
Proof.
  intros Hk Hk'. destruct o as [d|]; cbn [put]; [|by destruct (_ && _)].
  destruct (String.eqb_spec name n) as [->|Hn]; [|by rewrite lookup_insert_ne by (intros H; by apply makeKey_inj in H as [])].
  destruct (String.eqb_spec key k) as [->|Hne]; cbn [andb]; [by rewrite lookup_insert_eq|].
  by rewrite lookup_insert_ne by (intros H; by apply makeKey_inj in H as []).
Qed.

(** The values of distinct buckets stay. *)
Lemma outbound_config_other buckets m n k : k ∈ value_keys -> n ∉ map fst buckets ->
  outbound_config buckets m !! makeKey n k = m !! makeKey n k.
Proof.
  intros Hk. revert m. induction buckets as [|[name bkt] buckets IH]; intros m Hn; [done|]. cbn [outbound_config]. cbn [map fst] in Hn.
  apply not_elem_of_cons in Hn as [Hne Hn]. rewrite IH by done. destruct (outbound_bucket name); [|done].
  rewrite !put_lookup by (done || by unfold value_keys; set_solver). by rewrite (proj2 (String.eqb_neq _ _)) by done.
Qed.

Lemma outbound_config_lookup buckets m n bkt k v : k ∈ value_keys -> NoDup (map fst buckets) -> (n, bkt) ∈ buckets -> outbound_bucket n = true ->
  lookup_first bkt k = Some v -> outbound_config buckets m !! makeKey n k = Some v.
Proof.
  intros Hk. revert m. induction buckets as [|[name bkt'] buckets IH]; intros m Hn Hin Ho Hv; [by apply not_elem_of_nil in Hin|].
  cbn [outbound_config]. apply NoDup_cons in Hn as [Hnot Hn]. apply elem_of_cons in Hin as [[= <- <-]|Hin]; [|by apply IH].
  rewrite outbound_config_other by done. rewrite Ho.
  apply list_elem_of_In in Hk. cbn in Hk. destruct Hk as [<-|[<-|[]]]; rewrite !put_lookup by (unfold value_keys; set_solver);
    rewrite String.eqb_refl; cbn [andb]; rewrite ?String.eqb_refl, ?Hv; done.
Qed.

(** Keys of other prefixes are not touched. *)
Lemma outbound_config_prefix buckets m k : HasPrefix k "outbound." = false -> outbound_config buckets m !! k = m !! k.
Proof.
  intros Hk. revert m. induction buckets as [|[name bkt] buckets IH]; intros m; [done|]. cbn [outbound_config]. rewrite IH.
  destruct (outbound_bucket name) eqn:Ho; [|done]. apply andb_true_iff in Ho as [_ Ho]. apply HasPrefix_spec in Ho as [x ->].
  assert (Hp : forall key o m, put ("outbound." +:+ x) key o m !! k = m !! k); [|by rewrite !Hp].
  intros key [d|] m'; [|done]. cbn [put]. rewrite lookup_insert_ne; [done|]. intros <-.
  assert (HasPrefix (makeKey ("outbound." +:+ x) key) "outbound." = true); [|congruence]. apply HasPrefix_spec. unfold makeKey. rewrite <-s_app_assoc. eauto.
Qed.

(** *** The policies *)

Lemma wp_insert_config F key d t : t_system_config t !! key = None -> wp F (insert_config key d) t (fun r t' =>
  match r with Ok _ => t' = with_system_config t (<[key := d]> (t_system_config t)) | Err _ => F = true end).
Proof. intros H. unfold insert_config. do 2 wp_step; [done|]. rewrite H. cbn [fst snd]. by wp_step. Qed.

(** The stored setting with its legacy mode reset. *)
Definition reset_setting (m m' : gmap string doc) : Prop :=
  match m !! "system:setting"%string with
  | None => m' = m
  | Some d => d = text "" /\ m' = m \/ exists d', sj_Set_string d "subscriptionAutoUpdateMode" "none" = Ok d' /\ m' = <["system:setting"%string := d']> m
  end.

Definition resettable (m : gmap string doc) : Prop :=
  match m !! "system:setting"%string with
  | None => True
  | Some d => d = text "" \/ is_ok (sj_Set_string d "subscriptionAutoUpdateMode" "none") = true
  end.

Definition policy_in (m : gmap string doc) : string * Z := legacy_policy (default (text "") (m !! "system:setting"%string)).

Lemma set_policy_none r n : set_policy (EmptyString, n) r = r.
Proof. done. Qed.

Lemma wp_migrateSubscriptionUpdatePolicy F t : t_system_config t !! subscriptionUpdateMigrationKey = None ->
  wp F migrateSubscriptionUpdatePolicy t (fun r t' =>
    match r with
    | Ok _ => exists m, reset_setting (t_system_config t) m /\
        t' = with_system_config (with_subscriptions t (map (set_policy (policy_in (t_system_config t))) (t_subscriptions t)))
               (<[subscriptionUpdateMigrationKey := text "1"]> m)
    | Err _ => F = false -> ~ resettable (t_system_config t)
    end).
Proof.
  intros Hkey. unfold migrateSubscriptionUpdatePolicy, count_key, select_value. do 2 wp_step; [done|]. rewrite Hkey. cbn [Z.eqb negb].
  do 2 wp_step; [done|]. fold (policy_in (t_system_config t)). set (p := policy_in (t_system_config t)). wp_step.
  eapply (wp_mono _ _ _ (fun r t1 => match r with Ok _ => t1 = with_subscriptions t (map (set_policy p) (t_subscriptions t)) | Err _ => F = true end)).
  { destruct (String.eqb_spec (fst p) "") as [Hp|Hp]; [|by wp_step]. wp_step. destruct p as [mode n]. cbn in Hp. subst mode.
    rewrite (map_ext _ id) by (intros r; apply set_policy_none). rewrite map_id. by destruct t. }
  intros [u|e] t1; [|by intros ->]. intros ->. wp_step. unfold resettable, reset_setting.
  eapply (wp_mono _ _ _ (fun r t2 => match r with
    | Ok _ => exists m, reset_setting (t_system_config t) m /\ t2 = with_system_config (with_subscriptions t (map (set_policy p) (t_subscriptions t))) m
    | Err _ => F = false -> ~ resettable (t_system_config t) end)).
  { unfold resettable, reset_setting. destruct (t_system_config t !! "system:setting"%string) as [d|] eqn:Ed; cbn [default from_option id].
    - unfold id. destruct (doc_eqb d (text "")) eqn:Ee.
      + wp_step. apply doc_eqb_spec in Ee. exists (t_system_config t). split; [by left|]. done.
      + destruct (sj_Set_string d _ _) as [d'|e] eqn:Es; [|wp_step; intros _ [->|?]; [|done]; by rewrite (proj2 (doc_eqb_spec _ _)) in Ee].
        wp_step; [done|]. eexists. split; [right; by exists d'|]. unfold with_system_config. cbn. f_equal. apply map_eq. intros k.
        destruct (decide (k = "system:setting"%string)) as [->|Hne]; [by rewrite lookup_alter_eq, lookup_insert_eq, Ed|by rewrite lookup_alter_ne, lookup_insert_ne].
    - rewrite (proj2 (doc_eqb_spec _ _) eq_refl). wp_step. by exists (t_system_config t). }
  intros [u'|e] t2; [|done]. intros (m & Hm & ->). eapply wp_mono.
  { apply wp_insert_config. cbn [with_system_config t_system_config]. unfold reset_setting in Hm.
    destruct (t_system_config t !! "system:setting"%string); [|by subst m]. destruct Hm as [[_ ->]|(d' & _ & ->)]; [done|]. by rewrite lookup_insert_ne. }
  intros [u''|e] t3; [|by intros ->]. intros ->. exists m. split; [exact Hm|done].
Qed.

(** *** The automatic group *)

Definition selects (r : sub_row) : bool := negb (sb_auto_select r =? 0).

Definition group_config (t : tables) (m : gmap string doc) : Prop :=
  if existsb selects (t_subscriptions t) then
    exists manual d, automatic_setting manual (default (text default_proxy_setting) (t_system_config t !! "outbound.proxy:setting"%string)) = Ok d /\
      m = <["outbound.proxy:setting"%string := d]> (t_system_config t)
  else m = t_system_config t.

Lemma clear_selected r : selects r = false -> clear_auto_select r = r.
Proof. unfold selects. rewrite negb_false_iff, Z.eqb_eq. destruct r. cbn. by intros ->. Qed.

Lemma wp_proxyHasManualMembers F l t : wp F (proxyHasManualMembers l) t (fun _ t' => t' = t).
Proof.
  unfold proxyHasManualMembers, select_value. wp_step. apply wp_query; [done|]. destruct (t_system_config t !! _) as [raw|]; [|by wp_step].
  destruct (json_members raw); by wp_step.
Qed.

Lemma wp_migrateAutoSelect F t : increasing (map sb_sort (t_subscriptions t)) -> t_system_config t !! autoSelectGroupMigrationKey = None ->
  wp F migrateAutoSelectToAutomaticGroup t (fun r t' =>
    match r with
    | Ok _ => exists m, group_config t m /\
        t' = with_system_config (with_subscriptions t (map clear_auto_select (t_subscriptions t))) (<[autoSelectGroupMigrationKey := text "1"]> m)
    | Err _ => F = false -> existsb selects (t_subscriptions t) = true
    end).
Proof.
  intros Hinc Hkey. unfold migrateAutoSelectToAutomaticGroup, count_key, select_value. do 2 wp_step; [done|]. rewrite Hkey. cbn [Z.eqb negb].
  do 2 wp_step; [done|]. rewrite order_by_sorted by apply Hinc.
  assert (existsb id (map (fun r => negb (sb_auto_select r =? 0)) (t_subscriptions t)) = existsb selects (t_subscriptions t)) as ->.
  { clear. induction (t_subscriptions t) as [|r l IH]; [done|]. cbn [map existsb]. by rewrite IH. }
  wp_step. eapply (wp_mono _ _ _ (fun r t1 => match r with
    | Ok _ => exists m, group_config t m /\ t1 = with_system_config (with_subscriptions t (map clear_auto_select (t_subscriptions t))) m
    | Err _ => F = false -> existsb selects (t_subscriptions t) = true end)).
  { unfold group_config. destruct (existsb selects (t_subscriptions t)) eqn:Ea.
    - wp_step. eapply wp_mono; [apply wp_proxyHasManualMembers|]. intros [manual|e] t1 ->; [|done]. do 2 wp_step; [done|]. do 2 wp_step.
      destruct (automatic_setting _ _) as [d|e] eqn:Es; [|done]. unfold replace_config. do 2 wp_step; [done|]. wp_step; [done|].
      eexists. split; [by exists manual, d|]. done.
    - wp_step. eexists. split; [done|]. rewrite (map_ext_in _ id), map_id; [by destruct t|]. intros r Hr. unfold id. apply clear_selected.
      destruct (selects r) eqn:E; [|done]. assert (existsb selects (t_subscriptions t) = true) by (apply existsb_exists; by exists r). congruence. }
  intros [u|e] t1; [|done]. intros (m & Hm & ->). eapply wp_mono.
  { apply wp_insert_config. cbn [with_system_config t_system_config]. unfold group_config in Hm. destruct (existsb _ _); [|by subst m].
    destruct Hm as (manual & d & _ & ->). by rewrite lookup_insert_ne. }
  intros [u'|e] t2; [|by intros ->]. intros ->. by exists m.
Qed.

(** *** The whole transaction *)

Definition system_entries (b : bolt) : list (string * doc) := default [] (Bucket b "system").

(** Keys are distinct, in the file and in its buckets. *)
Definition bolt_ok (b : bolt) : Prop := NoDup (map fst b) /\ NoDup (map fst (system_entries b)).

Definition policy_of (b : bolt) : string * Z := legacy_policy (default (text "") (system_value b "setting")).

Definition selected (b : bolt) : bool := existsb (fun d => gj_Bool d "autoSelect") (stored b "subscriptions").

Definition upgraded_sub (b : bolt) (r : sub_row) : sub_row := clear_auto_select (set_policy (policy_of b) r).

Definition old_config (b : bolt) : gmap string doc := outbound_config b (system_config (system_entries b) ∅).

(** The old lists, with the policy of the old setting and without automatic
    selection, which the setting of the group takes over; the old system values, the
    setting with its mode reset. *)
Record copied (b : bolt) (t : tables) : Prop := {
  cp_ok : store_ok t;
  cp_packed : store_packed t;
  cp_servers : v_servers (view_of t) = stored b "servers";
  cp_subs : v_subs (view_of t) = map (fun x => (upgraded_sub b (fst x), snd x)) (new_subs 0 (stored b "subscriptions"));
  cp_system k v : system_value b k = Some v -> exists v', t_system_config t !! ("system:" +:+ k) = Some v' /\
    (v' = v \/ k = "setting"%string /\ sj_Set_string v "subscriptionAutoUpdateMode" "none" = Ok v');
  cp_group : selected b = true -> exists manual d,
    automatic_setting manual (default (text default_proxy_setting) (old_config b !! "outbound.proxy:setting"%string)) = Ok d /\
    t_system_config t !! "outbound.proxy:setting"%string = Some d;
}.

Definition config_copied (b : bolt) (m : gmap string doc) : Prop :=
  exists m1 m2, reset_setting (old_config b) m1 /\ m = <[autoSelectGroupMigrationKey := text "1"]> m2 /\
    if selected b then
      exists manual d, automatic_setting manual (default (text default_proxy_setting) (m1 !! "outbound.proxy:setting"%string)) = Ok d /\
        m2 = <["outbound.proxy:setting"%string := d]> (<[subscriptionUpdateMigrationKey := text "1"]> m1)
    else m2 = <[subscriptionUpdateMigrationKey := text "1"]> m1.

(** Changing subscriptions in place, but for their ids and positions. *)
Lemma subs_mapped (f : sub_row -> sub_row) t t' : (forall r, sb_id (f r) = sb_id r /\ sb_sort (f r) = sb_sort r) ->
  (forall r, set_sub_sort (f r) 0 = f (set_sub_sort r 0)) -> store_ok t -> store_packed t -> t_servers t' = t_servers t ->
  t_subscriptions_seq t' = t_subscriptions_seq t -> t_subscriptions t' = map f (t_subscriptions t) ->
  store_ok t' /\ store_packed t' /\ v_servers (view_of t') = v_servers (view_of t) /\
  v_subs (view_of t') = map (fun x => (f (fst x), snd x)) (v_subs (view_of t)).
Proof.
  intros Hf Hs Hok Hp H1 H2 H3.
  assert (Hsort : map sb_sort (t_subscriptions t') = map sb_sort (t_subscriptions t)) by (rewrite H3, map_map; apply map_ext; intros r; apply Hf).
  assert (Hid : map sb_id (t_subscriptions t') = map sb_id (t_subscriptions t)) by (rewrite H3, map_map; apply map_ext; intros r; apply Hf).
  split; [|split; [|split]].
  - destruct Hok as [A1 A2 A3 A4 A5 A6]. split; rewrite ?H1, ?H2, ?Hsort, ?Hid; try done. rewrite H3. apply Forall_map. eapply Forall_impl; [exact A4|].
    intros r Hr. by rewrite (proj1 (Hf r)).
  - destruct Hp. by split; rewrite ?H1, ?Hsort.
  - cbn [v_servers view_of]. by rewrite H1.
  - cbn [v_subs view_of]. rewrite H3, !map_map. apply map_ext. intros r. unfold sub_view. cbn [fst snd]. rewrite (proj1 (Hf r)), Hs, H1. done.
Qed.

Lemma set_policy_keeps p r : (sb_id (set_policy p r) = sb_id r /\ sb_sort (set_policy p r) = sb_sort r) /\
  set_sub_sort (set_policy p r) 0 = set_policy p (set_sub_sort r 0) /\ selects (set_policy p r) = selects r.
Proof. unfold set_policy. cbn [set_sub_sort sb_update_mode]. by destruct (_ && _). Qed.

Lemma old_config_system b k : bolt_ok b -> old_config b !! ("system:" +:+ k) = system_value b k.
Proof.
  intros [_ Hn]. unfold old_config. rewrite outbound_config_prefix by done. rewrite system_config_lookup by done. unfold system_entries, system_value.
  destruct (Bucket b "system"); cbn; [|by rewrite lookup_empty]. by destruct (lookup_first _ _).
Qed.

Lemma old_config_other b k : HasPrefix k "outbound." = false -> HasPrefix k "system:" = false -> old_config b !! k = None.
Proof.
  intros H1 H2. unfold old_config. rewrite outbound_config_prefix by done. rewrite system_config_other; [apply lookup_empty|].
  intros x ->. assert (HasPrefix ("system:" +:+ x) "system:" = true) by (apply HasPrefix_spec; eauto). congruence.
Qed.

Lemma reset_other m m' k : reset_setting m m' -> k <> "system:setting"%string -> m' !! k = m !! k.
Proof.
  unfold reset_setting. intros H Hk. destruct (m !! "system:setting"%string); [|by subst]. destruct H as [[_ ->]|(d' & _ & ->)]; [done|]. by rewrite lookup_insert_ne.
Qed.

Lemma selects_new p seq docs t : v_subs (view_of t) = new_subs seq docs -> existsb selects (map (set_policy p) (t_subscriptions t)) = existsb (fun d => gj_Bool d "autoSelect") docs.
Proof.
  intros H. apply (f_equal (map fst)) in H. cbn [v_subs view_of] in H. rewrite map_map in H. cbn [sub_view fst] in H.
  assert (Hs : forall l : list sub_row, existsb selects (map (set_policy p) l) = existsb selects (map (fun r => set_sub_sort r 0) l)).
  { induction l as [|r l IH]; [done|]. cbn [map existsb]. rewrite IH. by rewrite (proj2 (proj2 (set_policy_keeps p r))). }
  rewrite Hs, H. clear. revert seq. induction docs as [|d docs IH]; intros seq; [done|]. rewrite new_subs_cons. cbn [map existsb]. rewrite IH.
  f_equal. unfold selects. cbn. by destruct (gj_Bool d "autoSelect").
Qed.

(** What can be copied without a fault. *)
Record copyable (b : bolt) : Prop := {
  cb_servers : listed (touch_value b "servers");
  cb_subs : listed (touch_value b "subscriptions");
  cb_setting : resettable (old_config b);
  cb_selected : selected b = false;
}.

Lemma wp_migrateSystemBucket F b t : wp F (migrateSystemBucket b) t (fun r t' =>
  match r with Ok _ => t' = with_system_config t (system_config (system_entries b) (t_system_config t)) | Err _ => F = true end).
Proof.
  unfold migrateSystemBucket, system_entries. destruct (Bucket b "system") as [entries|]; [|by wp_step; destruct t].
  unfold prepare. do 2 wp_step; [done|]. apply wp_copy_system.
Qed.

(** The lists, with the policies applied, and the configuration before them. *)
Lemma wp_copy_lists F b wrap1 wrap2 wrap3 :
  wp F (db! _ := (db! _ := db_wrap wrap1 (migrateSystemBucket b) in db_wrap wrap2 (migrateTouchBucket b)) in db_wrap wrap3 (migrateOutboundsBucket b))
    empty_tables (fun r t => match r with
    | Ok _ => store_ok t /\ store_packed t /\ v_servers (view_of t) = stored b "servers" /\ v_subs (view_of t) = new_subs 0 (stored b "subscriptions") /\
              t_system_config t = old_config b
    | Err _ => F = false -> ~ copyable b end).
Proof.
  do 3 up_step. eapply wp_mono; [apply wp_migrateSystemBucket|]. intros [u|e] t1; [|by intros ->]. intros ->. destruct empty_ok as [H1 H2].
  up_step. eapply wp_mono; [apply wp_migrateTouchBucket; [by destruct H1; split|by destruct H2; split|done|done]|].
  intros [u'|e] t2; [|by intros H HF []; apply H]. intros (Hok & Hp & Hv). up_step.
  eapply wp_mono; [apply wp_migrateOutboundsBucket|]. intros [u''|e] t3; [|by intros ->]. intros [Hl Hc].
  assert (t_system_config t2 = system_config (system_entries b) ∅) as Hc2 by (apply (f_equal v_config) in Hv; exact Hv).
  destruct (subs_mapped id t2 t3) as (Ha & Hb & Hd & He); try done; [by apply Hl|by apply Hl|by rewrite map_id; apply Hl|].
  split; [done|]. split; [done|]. split; [by rewrite Hd, Hv|]. split; [|unfold old_config; by rewrite Hc, Hc2].
  rewrite He, Hv. cbn [v_subs]. rewrite (map_ext _ id), map_id; [done|]. by intros [].
Qed.

Lemma wp_policies F b wrap1 wrap2 t : bolt_ok b -> store_ok t -> store_packed t -> v_servers (view_of t) = stored b "servers" ->
  v_subs (view_of t) = new_subs 0 (stored b "subscriptions") -> t_system_config t = old_config b ->
  wp F (db! _ := db_wrap wrap1 migrateSubscriptionUpdatePolicy in db_wrap wrap2 migrateAutoSelectToAutomaticGroup) t (fun r t' =>
    match r with Ok _ => copied b t' /\ config_copied b (t_system_config t') | Err _ => F = false -> ~ copyable b end).
Proof.
  intros Hb Hok Hp Hs Hv Hc. do 2 up_step. eapply wp_mono; [apply wp_migrateSubscriptionUpdatePolicy; rewrite Hc; by apply old_config_other|].
  rewrite Hc. intros [u|e] t1; [|by intros H HF []; apply H]. intros (m1 & Hm1 & Ht1). up_step.
  assert (Hpol : policy_in (old_config b) = policy_of b).
  { unfold policy_in, policy_of. change "system:setting"%string with ("system:" +:+ "setting"). by rewrite old_config_system. }
  rewrite Hpol in Ht1. set (p := policy_of b) in *.
  destruct (subs_mapped (set_policy p) t t1) as (Hok1 & Hp1 & Hs1 & Hv1); try (done || by subst t1); [intros r; apply set_policy_keeps..|].
  assert (Hk2 : t_system_config t1 !! autoSelectGroupMigrationKey = None).
  { subst t1. cbn [with_system_config t_system_config]. rewrite lookup_insert_ne, (reset_other _ _ _ Hm1) by done. by apply old_config_other. }
  assert (Hsel : existsb selects (t_subscriptions t1) = selected b) by (subst t1; by apply selects_new with (seq := 0)).
  eapply wp_mono; [apply wp_migrateAutoSelect; [by apply Hok1|done]|].
  intros [u'|e] t2; [|intros H HF []; rewrite Hsel in H; rewrite H in cb_selected0; done].
  intros (m2 & Hm2 & Ht2). destruct (subs_mapped clear_auto_select t1 t2) as (Hok2 & Hp2 & Hs2 & Hv2); try (done || by subst t2).
  assert (Hcfg : config_copied b (t_system_config t2)).
  { exists m1, m2. split; [done|]. split; [by subst t2|]. unfold group_config in Hm2. rewrite Hsel in Hm2. destruct (selected b); [|by subst m2 t1].
    destruct Hm2 as (manual & d & Hd & ->). exists manual, d. subst t1. cbn [with_system_config t_system_config] in *. by rewrite lookup_insert_ne in Hd by done. }
  split; [|done]. split; [done|done|by rewrite Hs2, Hs1| | |].
  { rewrite Hv2, Hv1, Hv, map_map. done. }
  2:{ intros Hsb. destruct Hcfg as (m & m' & Hr & -> & Hm'). rewrite Hsb in Hm'. destruct Hm' as (manual & d & Hd & ->). exists manual, d.
      rewrite (reset_other _ _ _ Hr) in Hd by done. split; [exact Hd|]. rewrite lookup_insert_ne by done. apply lookup_insert_eq. }
  intros k v Hk. pose proof (old_config_system b k Hb) as Ho. rewrite Hk in Ho. destruct Hcfg as (m & m' & Hr & -> & Hm').
  assert (Hlook : (<[autoSelectGroupMigrationKey := text "1"]> m' : gmap string doc) !! ("system:" +:+ k) = m !! ("system:" +:+ k)).
  { rewrite lookup_insert_ne by done. destruct (selected b); [destruct Hm' as (? & ? & _ & ->)|subst m']; by rewrite !lookup_insert_ne by done. }
  rewrite Hlook. destruct (decide (k = "setting"%string)) as [->|Hne].
  - unfold reset_setting in Hr. change ("system:" +:+ "setting") with "system:setting"%string in *. rewrite Ho in Hr.
    destruct Hr as [[_ ->]|(d' & Hd' & ->)]; [by eauto|]. rewrite lookup_insert_eq. eauto.
  - rewrite (reset_other _ _ _ Hr); [eauto|]. intros H. apply Hne. by apply (app_inj_l "system:").
Qed.

Lemma wp_assoc F {A B C} (c : DB A) (k1 : A -> DB B) (k2 : B -> DB C) t Q :
  wp F (db_bind (db_bind c k1) k2) t Q -> wp F (db_bind c (fun x => db_bind (k1 x) k2)) t Q.
Proof.
  intros H fs Hfs. destruct (H fs Hfs) as (r & t' & fs' & Hc & HQ). exists r, t', fs'. split; [|done]. rewrite <-Hc. unfold db_bind.
  by destruct (c _) as [[] ?].
Qed.

Lemma wp_copy_bolt F b : bolt_ok b -> wp F (copy_bolt b) empty_tables (fun r t =>
  match r with
  | Ok _ => copied b t /\ config_copied b (t_system_config t)
  | Err _ => t = empty_tables /\ (F = false -> ~ copyable b)
  end).
Proof.
  intros Hb. unfold copy_bolt. apply wp_transaction; [by intros ->|]. do 2 apply wp_assoc. wp_step.
  eapply wp_mono; [apply wp_copy_lists|]. intros [u|e] t1; [|done]. intros (H1 & H2 & H3 & H4 & H5).
  eapply wp_mono; [by apply wp_policies|]. by intros [u'|e] t2 H.
Qed.

(** *** The verification *)

(** What is compared. *)
Record verifiable (b : bolt) (t : tables) : Prop := {
  vf_system bkt : Bucket b "system" = Some bkt -> Z.of_nat (length bkt) = system_keys t;
  vf_servers d : touch_value b "servers" = Some d -> gj_count d = Z.of_nat (length (filter (fun r => is_server r = true) (t_servers t)));
  vf_subs d : touch_value b "subscriptions" = Some d -> gj_count d = Z.of_nat (length (t_subscriptions t));
  vf_outbound n bkt k v : (n, bkt) ∈ b -> HasPrefix n "outbound." = true -> k ∈ value_keys -> lookup_first bkt k = Some v ->
    t_system_config t !! makeKey n k = Some v /\ is_ok (verifyOutboundValue k v) = true;
}.

Lemma wp_verify_value F n bkt k t : wp F (verify_value n bkt k) t (fun r t' => t' = t /\
  match r with
  | Ok _ => forall v, lookup_first bkt k = Some v -> t_system_config t !! makeKey n k = Some v
  | Err _ => F = false -> ~ (forall v, lookup_first bkt k = Some v -> t_system_config t !! makeKey n k = Some v /\ is_ok (verifyOutboundValue k v) = true)
  end).
Proof.
  unfold verify_value. destruct (lookup_first bkt k) as [v|]; cbn [when_some]; [|by wp_step]. unfold select_value. do 3 up_step; [done|].
  destruct (t_system_config t !! makeKey n k) as [v'|] eqn:E.
  2:{ wp_step. split; [done|]. intros _ H. by destruct (H v eq_refl). }
  destruct (doc_eqb v' v) eqn:Ee; cbn [negb].
  2:{ wp_step. split; [done|]. intros _ H. destruct (H v eq_refl) as [[= ->] _]. by rewrite (proj2 (doc_eqb_spec _ _)) in Ee. }
  apply doc_eqb_spec in Ee as ->. do 2 up_step. split; [done|]. destruct (verifyOutboundValue k v) eqn:Ev; [by intros v' [= <-]|].
  intros _ H. destruct (H v eq_refl) as [_ H']. by rewrite Ev in H'.
Qed.

Lemma wp_verify_outbounds F b t : wp F (verify_outbounds b) t (fun r t' => t' = t /\
  match r with
  | Ok _ => forall n bkt k v, (n, bkt) ∈ b -> HasPrefix n "outbound." = true -> k ∈ value_keys -> lookup_first bkt k = Some v ->
      t_system_config t !! makeKey n k = Some v
  | Err _ => F = false -> ~ (forall n bkt k v, (n, bkt) ∈ b -> HasPrefix n "outbound." = true -> k ∈ value_keys -> lookup_first bkt k = Some v ->
      t_system_config t !! makeKey n k = Some v /\ is_ok (verifyOutboundValue k v) = true)
  end).
Proof.
  induction b as [|[n bkt] b IH]; cbn [verify_outbounds]; [wp_step; split; [done|]; by intros ? ? ? ? ?%not_elem_of_nil|].
  assert (Hs : "setting"%string ∈ value_keys /\ "connectedServers"%string ∈ value_keys) by (unfold value_keys; set_solver). destruct Hs as [Hs Hc].
  wp_step. eapply (wp_mono _ _ _ (fun r t' => t' = t /\ match r with
    | Ok _ => HasPrefix n "outbound." = true -> forall k v, k ∈ value_keys -> lookup_first bkt k = Some v -> t_system_config t !! makeKey n k = Some v
    | Err _ => F = false -> HasPrefix n "outbound." = true /\ ~ (forall k v, k ∈ value_keys -> lookup_first bkt k = Some v ->
        t_system_config t !! makeKey n k = Some v /\ is_ok (verifyOutboundValue k v) = true) end)).
  { destruct (HasPrefix n "outbound."); [|by wp_step]. wp_step. eapply wp_mono; [apply wp_verify_value|]. intros [u|e] t1 [-> H1].
    - eapply wp_mono; [apply wp_verify_value|]. intros [u'|e] t2 [-> H2]; (split; [done|]).
      + intros _ k v Hk. apply list_elem_of_In in Hk. cbn in Hk. destruct Hk as [<-|[<-|[]]]; auto.
      + intros HF. split; [done|]. intros H. apply H2; [done|]. auto.
    - split; [done|]. intros HF. split; [done|]. intros H. apply H1; [done|]. auto. }
  intros [u|e] t1 [-> H1].
  - eapply wp_mono; [apply IH|]. intros [u'|e] t2 [-> H2]; (split; [done|]).
    + intros n' bkt' k v [[= -> ->]|Hin]%elem_of_cons Hn Hk Hv; [by apply H1|by eapply H2].
    + intros HF H. apply H2; [done|]. intros n' bkt' k v Hin. apply H. by constructor.
  - split; [done|]. intros HF H. destruct (H1 HF) as [Hn H2]. apply H2. intros k v Hk Hv. eapply H; [by constructor|done..].
Qed.

Lemma wp_verify_count F data count mismatch t : wp F (verify_count data count mismatch) t (fun r t' => t' = t /\
  match r with Ok _ => True | Err _ => F = false -> gj_count data <> count t end).
Proof.
  unfold verify_count. do 3 wp_step.
  - destruct (_ =? _); by wp_step.
  - destruct (Z.eqb_spec (gj_count data) (count t)); by wp_step.
Qed.

Lemma wp_verifyMigration F b t : wp F (verifyMigration b) t (fun r t' => t' = t /\
  match r with
  | Ok _ => forall n bkt k v, (n, bkt) ∈ b -> HasPrefix n "outbound." = true -> k ∈ value_keys -> lookup_first bkt k = Some v ->
      t_system_config t !! makeKey n k = Some v
  | Err _ => F = false -> ~ verifiable b t
  end).
Proof.
  assert (Hcount : forall o count mismatch, wp F (when_some o (fun data => verify_count data count mismatch)) t (fun r t' => t' = t /\
    match r with Ok _ => True | Err _ => F = false -> ~ (forall d, o = Some d -> gj_count d = count t) end)).
  { intros [d|] count mismatch; cbn [when_some]; [|by wp_step]. eapply wp_mono; [apply wp_verify_count|]. intros [u|e] t' [-> H]; [done|].
    split; [done|]. intros HF H'. by apply H, H'. }
  unfold verifyMigration. wp_step. eapply (wp_mono _ _ _ (fun r t' => t' = t /\ match r with Ok _ => True | Err _ => F = false -> ~ verifiable b t end)).
  { destruct (Bucket b "system") as [bkt|] eqn:Eb; cbn [when_some]; [|by wp_step]. do 3 up_step; [done|].
    destruct (Z.eqb_spec (Z.of_nat (length bkt)) (system_keys t)); wp_step; [done|]. split; [done|]. intros _ []. by rewrite (vf_system0 bkt) in n. }
  intros [u|e] t1 [-> H]; [|done]. wp_step.
  eapply (wp_mono _ _ _ (fun r t' => t' = t /\ match r with Ok _ => True | Err _ => F = false -> ~ verifiable b t end)).
  { unfold touch_value. destruct (Bucket b "touch") as [bkt|] eqn:Eb; cbn [when_some]; [|by wp_step]. wp_step.
    assert (Ht : forall k d, lookup_first bkt k = Some d -> touch_value b k = Some d) by (intros k d Hd; unfold touch_value; by rewrite Eb).
    eapply wp_mono; [apply Hcount|]. intros [u'|e] t1 [-> H1].
    - eapply wp_mono; [apply Hcount|]. intros [u''|e] t2 [-> H2]; [done|]. split; [done|]. intros HF []. apply H2; eauto.
    - split; [done|]. intros HF []. apply H1; eauto. }
  intros [u'|e] t1 [-> H1]; [|done]. eapply wp_mono; [apply wp_verify_outbounds|]. intros [u''|e] t2 [-> H2]; (split; [done|]); [done|].
  intros HF []. by apply H2.
Qed.

(** *** The copy passes the verification *)

Lemma system_config_dom entries m k :
  is_Some (system_config entries m !! k) <-> k ∈ map (fun kv => "system:" +:+ fst kv) entries \/ is_Some (m !! k).
Proof.
  revert m. induction entries as [|[k' v] entries IH]; intros m; cbn [map]; [split; [by right|by intros [?%not_elem_of_nil|]]|].
  cbn [system_config foldl fst snd]. fold (system_config entries (<["system:" +:+ k' := v]> m)). rewrite IH, lookup_insert_is_Some', elem_of_cons.
  naive_solver.
Qed.

Definition counted (k : string) : bool := HasPrefix (ToLower k) "system:".

Lemma counted_not_outbound k : counted k = true -> HasPrefix k "outbound." = false.
Proof.
  intros H. destruct (HasPrefix k "outbound.") eqn:E; [|done]. apply HasPrefix_spec in E as [x ->]. exfalso. revert H. unfold counted.
  rewrite !s_app_cons. cbn [ToLower]. done.
Qed.

Lemma system_count b t : bolt_ok b -> selected b = false -> config_copied b (t_system_config t) -> system_keys t = Z.of_nat (length (system_entries b)).
Proof.
  intros Hb Hsel (m1 & m2 & Hr & Hm & Hm2). rewrite Hsel in Hm2. subst m2. unfold system_keys. f_equal.
  transitivity (length (map (fun kv => "system:" +:+ fst kv) (system_entries b))); [|by rewrite length_map].
  transitivity (length (map fst (filter (fun kv : string * doc => HasPrefix (ToLower kv.1) "system:" = true) (map_to_list (t_system_config t)))));
    [by rewrite length_map|].
  apply Permutation_length, NoDup_Permutation.
  - eapply sublist_NoDup; [|apply fmap_sublist, sublist_filter]. apply NoDup_fst_map_to_list.
  - rewrite <-(map_map fst (fun x => "system:" +:+ x)). apply NoDup_fmap_2; [intros x y; apply app_inj_l|]. apply Hb.
  - intros k. assert (Hin : k ∈ map fst (filter (fun kv : string * doc => HasPrefix (ToLower kv.1) "system:" = true) (map_to_list (t_system_config t))) <->
      counted k = true /\ is_Some (t_system_config t !! k)).
    { split.
      - intros ([k' v] & -> & [Hp Hv%elem_of_map_to_list]%list_elem_of_filter)%list_elem_of_fmap. split; [exact Hp|by exists v].
      - intros [Hp [v Hv]]. apply list_elem_of_fmap. exists (k, v). split; [done|]. apply list_elem_of_filter. split; [exact Hp|by apply elem_of_map_to_list]. }
    rewrite Hin, Hm. clear Hin.
    assert (Hdom : counted k = true -> (is_Some (m1 !! k) <-> k ∈ map (fun kv => "system:" +:+ fst kv) (system_entries b))).
    { intros Hk. transitivity (is_Some (old_config b !! k)).
      - unfold reset_setting in Hr. destruct (old_config b !! "system:setting"%string) as [d|] eqn:Ed; [|by subst]. destruct Hr as [[_ ->]|(d' & _ & ->)]; [done|].
        rewrite lookup_insert_is_Some'. split; [|by right]. intros [<-|]; [by exists d|done].
      - unfold old_config. rewrite outbound_config_prefix by by apply counted_not_outbound. rewrite system_config_dom, lookup_empty.
        split; [intros [?|[? ?]]; done|by left]. }
    split.
    + intros [Hk [v Hv]]. apply Hdom; [done|]. exists v. rewrite !lookup_insert_ne in Hv; [done|by intros <-..].
    + intros Hk. assert (Hc : counted k = true).
      { apply list_elem_of_fmap in Hk as ([x v] & -> & _). unfold counted. cbn [fst]. rewrite !s_app_cons, s_app_nil. cbn [ToLower].
        apply HasPrefix_spec. by exists (ToLower x). }
      split; [done|]. apply Hdom in Hk as [v Hv]; [|done]. exists v. rewrite !lookup_insert_ne; [done|by intros <-..].
Qed.

(** Values of outbounds are those of named outbounds, and can be decoded. *)
Definition checked (b : bolt) : Prop :=
  forall n bkt k v, (n, bkt) ∈ b -> HasPrefix n "outbound." = true -> k ∈ value_keys -> lookup_first bkt k = Some v ->
    outbound_bucket n = true /\ is_ok (verifyOutboundValue k v) = true.

Lemma copy_verifiable b t : bolt_ok b -> copyable b -> checked b -> copied b t -> config_copied b (t_system_config t) -> verifiable b t.
Proof.
  intros Hb Hc Hch Hcp Hcfg. destruct Hc as [C1 C2 _ C4].
  assert (Hl : forall k d, touch_value b k = Some d -> listed (touch_value b k) -> gj_count d = Z.of_nat (length (stored b k))).
  { intros k d Hd. unfold stored, gj_count. rewrite Hd. cbn [listed]. intros [_ He]. cbn. by destruct (gj_elements d). }
  split.
  - intros bkt Hbk. rewrite (system_count b t) by done. unfold system_entries. by rewrite Hbk.
  - intros d Hd. rewrite (Hl _ _ Hd C1), <-(cp_servers _ _ Hcp). cbn [v_servers view_of]. by rewrite length_map.
  - intros d Hd. rewrite (Hl _ _ Hd C2). pose proof (f_equal length (cp_subs _ _ Hcp)) as H. cbn [v_subs view_of] in H.
    rewrite !length_map in H. unfold new_subs in H. by rewrite length_imap in H; rewrite H.
  - intros n bkt k v Hin Hn Hk Hv. destruct (Hch n bkt k v Hin Hn Hk Hv) as [Ho Hok]. split; [|done].
    destruct Hcfg as (m1 & m2 & Hr & -> & Hm2). rewrite C4 in Hm2. subst m2. apply HasPrefix_spec in Hn as [x Hx].
    assert (Hkey : exists y, makeKey n k = String "o" y) by (rewrite Hx; unfold makeKey; rewrite !s_app_cons; eauto).
    assert (Hold : old_config b !! makeKey n k = Some v) by (unfold old_config; by eapply outbound_config_lookup; [|apply Hb|..]).
    destruct Hkey as [y Hy]. rewrite Hy in *. rewrite !lookup_insert_ne by done. by rewrite (reset_other _ _ _ Hr).
Qed.

End Copy.

(** ** What happens to the files *)

Section Files.
Context `{J : Json} `{U : !UpgradeJson} `{UL : !UpgradeLaws U} (dir suffix : string).

Notation bolt_at := (boltPath dir).
Notation sqlite_at := (sqlitePath dir).
Notation temp_at := (tempPath dir suffix).

Definition backup (x : string) : string := bolt_at +:+ ".bak" +:+ x.

(** The paths that may be written, but for backups. *)
Definition temps : list string := [temp_at; temp_at +:+ "-shm"; temp_at +:+ "-wal"].
Definition own : list string := bolt_at :: sqlite_at :: (sqlite_at +:+ "-wal") :: (sqlite_at +:+ "-shm") :: temps.

Ltac paths := unfold backup, boltPath, sqlitePath, tempPath; rewrite <-?s_app_assoc; intros H%app_inj_l; discriminate H.

Lemma bolt_not_sqlite x : bolt_at <> sqlite_at +:+ x.
Proof. paths. Qed.
Lemma bolt_not_temp x : bolt_at <> temp_at +:+ x.
Proof. paths. Qed.
Lemma sqlite_not_temp x : sqlite_at <> temp_at +:+ x.
Proof. paths. Qed.
Lemma backup_not_sqlite x y : backup x <> sqlite_at +:+ y.
Proof. paths. Qed.
Lemma backup_not_temp x y : backup x <> temp_at +:+ y.
Proof. paths. Qed.
Lemma backup_not_bolt x : backup x <> bolt_at.
Proof. unfold backup. intros H. apply (f_equal s_len) in H. rewrite !s_len_app in H. assert (s_len ".bak" = 4)%nat by done. lia. Qed.

Lemma app_empty p : p = p +:+ "".
Proof. by rewrite s_app_nil_r. Qed.

Lemma not_temps p : (forall x, p <> temp_at +:+ x) -> p ∉ temps.
Proof. intros H. unfold temps. rewrite !not_elem_of_cons. split; [rewrite (app_empty temp_at); apply H|]. split; [apply H|]. split; [apply H|apply not_elem_of_nil]. Qed.

Lemma backup_not_own x : backup x ∉ own.
Proof.
  unfold own. rewrite !not_elem_of_cons. split; [apply backup_not_bolt|]. split; [rewrite (app_empty sqlite_at); apply backup_not_sqlite|].
  do 2 (split; [apply backup_not_sqlite|]). apply not_temps. intros y. apply backup_not_temp.
Qed.

(** *** Moving the old file aside *)

Lemma free_backup_taken fuel F p n fs : owp F (free_backup dir fuel p n) fs (fun r fs' => fs' = fs /\
  match r with
  | Some (Ok q) => (q = p \/ exists k, q = backup ("." +:+ dec k)) /\
      (is_Some (fs !! q) -> Forall (fun x => is_Some (fs !! x)) (p :: map (fun k => backup ("." +:+ dec (n + Z.of_nat k))) (seq 0 fuel)))
  | _ => F = true
  end).
Proof.
  revert p n. induction fuel as [|fuel IH]; intros p n; cbn [free_backup]; apply owp_bind, owp_step; try (by intros ->); cbn [fst snd].
  { destruct (fs !! p) as [x|] eqn:E; cbn [is_some]; apply owp_ret; (split; [done|]); (split; [by left|]); rewrite ?E; [by repeat constructor|by intros []]. }
  destruct (fs !! p) as [x|] eqn:E; cbn [is_some].
  - eapply owp_mono; [apply IH|]. intros [[q|e]|] fs' [-> H]; (split; [done|]); try done. destruct H as [Hq H].
    split; [right; destruct Hq as [->|?]; [by exists n|done]|]. intros Hs. specialize (H Hs). constructor; [by exists x|]. cbn [seq map].
    rewrite <-seq_shift, map_map. rewrite Z.add_0_r. apply Forall_cons in H as [H1 H2]. constructor; [done|].
    erewrite map_ext; [exact H2|]. intros k. cbv beta. do 3 f_equal. lia.
  - apply owp_ret. split; [done|]. split; [by left|]. rewrite E. by intros [].
Qed.

Lemma backup_free (fs : gmap string file) p : (p = bolt_at +:+ ".bak" \/ exists k, p = backup ("." +:+ dec k)) ->
  (is_Some (fs !! p) -> Forall (fun x => is_Some (fs !! x)) ((bolt_at +:+ ".bak") :: map (fun k => backup ("." +:+ dec (1 + Z.of_nat k))) (seq 0 (size fs)))) ->
  exists x, p = backup x /\ fs !! p = None.
Proof.
  intros Hp H. assert (Hb : exists x, p = backup x).
  { destruct Hp as [->|[k ->]]; [|by eexists]. exists EmptyString. unfold backup. by rewrite s_app_nil_r. }
  destruct Hb as [x ->]. exists x. split; [done|]. destruct (fs !! backup x) as [f|] eqn:E; [exfalso|done].
  specialize (H ltac:(eauto)). apply (Forall_impl _ (fun x => x ∈ (dom fs : gset string))) in H; [|intros y Hy; exact (proj2 (elem_of_dom (D := gset string) fs y) Hy)].
  apply subset_size in H; [rewrite size_dom in H; cbn [length] in H; rewrite length_map, length_seq in H; lia|]. constructor.
  - intros (k & Hk & _)%list_elem_of_fmap. unfold backup in Hk. by apply app_inj_l in Hk.
  - apply NoDup_fmap_2; [|apply NoDup_seq]. intros i j Hij. unfold backup in Hij. do 3 apply app_inj_l in Hij. unfold dec in Hij.
    apply (inj pretty) in Hij. lia.
Qed.

Lemma owp_moveBoltAside F b fs : fs !! bolt_at = Some (FBolt b) -> owp F (moveBoltAside dir) fs (fun r fs' =>
  match r with
  | Some (Ok p) => exists x, fs !! backup x = None /\ fs' = <[backup x := FBolt b]> (base.delete bolt_at fs)
  | _ => F = true /\ fs' = fs
  end).
Proof.
  intros Hb. apply (owp_files F (fun fs => os! p := free_backup dir (size fs) (bolt_at +:+ ".bak") 1 in os! _ := os_Rename bolt_at p in os_ret p)).
  apply owp_bind. eapply owp_mono; [apply free_backup_taken|]. intros [[p|e]|] fs' [-> H]; try done. destruct H as [Hp H].
  destruct (backup_free fs p Hp H) as (x & -> & Hn). apply owp_bind, owp_step; [by intros ->|]. rewrite Hb. cbn [fst snd]. apply owp_ret. by exists x.
Qed.

(** *** Outcomes *)

(** The new database has what the old file had. *)
Definition upgraded (b : bolt) (t : tables) : Prop :=
  copied b t /\ forall n bkt k v, (n, bkt) ∈ b -> HasPrefix n "outbound." = true -> k ∈ value_keys -> lookup_first bkt k = Some v ->
    t_system_config t !! makeKey n k = Some v.

(** Files of others are as they were. *)
Definition others_kept (fs fs' : gmap string file) : Prop := forall p x, fs !! p = Some x -> p ∉ own -> fs' !! p = Some x.

Definition kept (b : bolt) (fs' : gmap string file) : Prop := fs' !! bolt_at = Some (FBolt b).

(** The old file is a backup under a name that was free, and a database is in place
    that has its data, or had data before. *)
Definition moved (b : bolt) (fs fs' : gmap string file) : Prop :=
  fs' !! bolt_at = None /\ (exists x, fs !! backup x = None /\ fs' !! backup x = Some (FBolt b)) /\
  exists t, fs' !! sqlite_at = Some (FSqlite t) /\ (fs !! sqlite_at = Some (FSqlite t) /\ 0 < system_keys t \/ upgraded b t).

(** What a run leaves, by its outcome; [good] is what a run without faults needs. *)
Definition leaves (F : bool) (good : Prop) (b : bolt) (fs : gmap string file) {A} (r : option (result A)) (fs' : gmap string file) : Prop :=
  others_kept fs fs' /\
  match r with
  | Some (Ok _) => moved b fs fs'
  | Some (Err _) => kept b fs' /\ (F = false -> ~ good)
  | None => F = true /\ (kept b fs' \/ moved b fs fs')
  end.

(** Only temporary files differ. *)
Definition but_temps (fs fs' : gmap string file) : Prop := forall p, p ∉ temps -> fs' !! p = fs !! p.

Lemma leaves_but_temps F good b fs {A} (r : option (result A)) fs1 fs2 : but_temps fs1 fs2 -> leaves F good b fs r fs1 -> leaves F good b fs r fs2.
Proof.
  intros Ht [Ho H].
  assert (Hb : fs2 !! bolt_at = fs1 !! bolt_at) by (apply Ht, not_temps; intros x; apply bolt_not_temp).
  assert (Hs : fs2 !! sqlite_at = fs1 !! sqlite_at) by (apply Ht, not_temps; intros x; apply sqlite_not_temp).
  assert (Hm : moved b fs fs1 -> moved b fs fs2).
  { intros (H1 & (x & H2 & H3) & t & H4 & H5). split; [by rewrite Hb|]. split; [|exists t; by rewrite Hs]. exists x. split; [done|].
    rewrite Ht; [done|]. apply not_temps. intros y. apply backup_not_temp. }
  split.
  - intros p x Hp Hn. rewrite Ht; [by apply Ho|]. intros Hin. apply Hn. unfold own. rewrite !elem_of_cons. auto.
  - unfold kept in *. rewrite Hb. destruct r as [[a|e]|]; [auto|done|]. destruct H as [? [?|?]]; auto.
Qed.

(** A step that removes or writes a temporary file. *)
Lemma but_temps_trans fs1 fs2 fs3 : but_temps fs1 fs2 -> but_temps fs2 fs3 -> but_temps fs1 fs3.
Proof. intros H1 H2 p Hp. rewrite H2, H1; done. Qed.

Lemma but_temps_delete p fs : p ∈ temps -> but_temps fs (base.delete p fs).
Proof. intros Hp q Hq. apply lookup_delete_ne. by intros ->. Qed.

Lemma but_temps_insert p x fs : p ∈ temps -> but_temps fs (<[p := x]> fs).
Proof. intros Hp q Hq. apply lookup_insert_ne. by intros ->. Qed.

Lemma temps_in : temp_at ∈ temps /\ temp_at +:+ "-shm" ∈ temps /\ temp_at +:+ "-wal" ∈ temps.
Proof. unfold temps. rewrite !elem_of_cons. naive_solver. Qed.

Lemma owp_remove_temp F p fs : p ∈ temps -> owp F (os_try (os_Remove p)) fs (fun r fs' => but_temps fs fs' /\ match r with Some (Ok _) => True | _ => F = true /\ r = None end).
Proof.
  intros Hp. apply owp_try, owp_step; [intros ->; split; [intros e|]; done|]. cbn [fst snd]. split; [by apply but_temps_delete|done].
Qed.

(** The end of the process in the cleanup is an end after the outcome. *)
Lemma leaves_end F good b fs {A B} (r : option (result A)) fs' : F = true -> leaves F good b fs r fs' -> leaves F good b fs (None : option (result B)) fs'.
Proof. intros HF [Ho H]. split; [done|]. split; [done|]. destruct r as [[]|]; [by right|left; by destruct H|by destruct H]. Qed.

Lemma owp_with_cleanup F good b {A} (c : OS A) fs fs0 : owp F c fs (leaves F good b fs0) -> owp F (with_cleanup dir suffix c) fs (leaves F good b fs0).
Proof.
  intros H. destruct temps_in as (T1 & T2 & T3). unfold with_cleanup.
  assert (Hrm : forall p fs1 (r : result A) (k : result unit -> OS A), p ∈ temps -> leaves F good b fs0 (Some r) fs1 ->
    (forall u fs2, leaves F good b fs0 (Some r) fs2 -> owp F (k u) fs2 (leaves F good b fs0)) ->
    owp F (os! x := os_try (os_Remove p) in k x) fs1 (leaves F good b fs0)).
  { intros p fs1 r k Hp Hl Hk. apply owp_bind. eapply owp_mono; [by apply owp_remove_temp|]. intros [[u|e]|] fs2 [Ht Hr].
    - apply Hk. by eapply leaves_but_temps.
    - by destruct Hr.
    - destruct Hr as [HF _]. eapply leaves_end; [done|]. by eapply leaves_but_temps. }
  apply owp_bind, owp_try. eapply owp_mono; [exact H|]. intros [r|] fs1 Hl; [|done].
  apply (Hrm temp_at fs1 r); [done|done|]. intros _ fs2 Hl2. apply (Hrm _ fs2 r); [done|done|]. intros _ fs3 Hl3. apply (Hrm _ fs3 r); [done|done|].
  intros _ fs4 Hl4. destruct r as [a|e]; [by apply owp_ret|by apply owp_fail].
Qed.

(** *** Filling and publishing *)

Lemma but_temps_others fs fs' : but_temps fs fs' -> others_kept fs fs'.
Proof. intros H p x Hp Hn. rewrite H; [done|]. intros Hin. apply Hn. unfold own. rewrite !elem_of_cons. auto. Qed.

Lemma kept_but_temps b fs fs' : kept b fs -> but_temps fs fs' -> kept b fs'.
Proof. intros Hk H. unfold kept. rewrite H; [done|]. apply not_temps. intros x. apply bolt_not_temp. Qed.

(** Before the new database is in place, a fault costs nothing. *)
Lemma leaves_kept F good b fs fs' {A} (r : option (result A)) : kept b fs -> others_kept fs fs' -> kept b fs' -> F = true ->
  match r with Some (Ok _) => False | _ => True end -> leaves F good b fs r fs'.
Proof. intros Hk Ho Hk' HF Hr. split; [done|]. destruct r as [[]|]; [done|by subst|by auto]. Qed.

Lemma owp_effect F fs (Q : option (result unit) -> gmap string file -> Prop) : (F = true -> (forall e, Q (Some (Err e)) fs) /\ Q None fs) -> Q (Some (Ok tt)) fs ->
  owp F os_effect fs Q.
Proof. intros. by apply owp_step. Qed.

Lemma owp_pragmas F l fs : owp F (run_pragmas l) fs (fun r fs' => fs' = fs /\ match r with Some (Ok _) => True | _ => F = true end).
Proof.
  induction l as [|p l IH]; cbn [run_pragmas]; [by apply owp_ret|]. apply owp_bind, owp_wrap, owp_effect; [by intros ->|]. apply IH.
Qed.

Lemma owp_createSQLiteDB F fs : owp F (createSQLiteDB temp_at) fs (fun r fs' => but_temps fs fs' /\
  match r with Some (Ok _) => fs' !! temp_at = Some (FSqlite empty_tables) | _ => F = true end).
Proof.
  destruct temps_in as (T1 & _). assert (Hc : forall x, but_temps fs (<[temp_at := x]> fs)) by (intros x; by apply but_temps_insert).
  unfold createSQLiteDB. apply owp_bind, owp_wrap, owp_step; [by intros ->|]. cbn [fst snd].
  apply owp_bind, owp_effect; [intros ->; split; auto|]. apply owp_bind, owp_wrap, owp_effect; [intros ->; split; auto|].
  apply owp_bind. eapply owp_mono; [apply owp_pragmas|]. intros [[u|e]|] fs' [-> Hp]; [|auto..].
  apply owp_fatal, owp_step; [intros ->; split; auto|]. cbn [fst snd]. rewrite insert_insert_eq, lookup_insert_eq. auto.
Qed.

(** The old file is moved aside once the new database is in place. *)
Lemma owp_publish F good b fs fs1 t : kept b fs -> but_temps fs fs1 -> fs1 !! temp_at = Some (FSqlite t) -> upgraded b t ->
  owp F (os! _ := os_wrap (fun e => Wrapf "failed to publish migrated SQLite database: %w" [] e) (os_Rename temp_at sqlite_at) in
         os! moved := os_try (moveBoltAside dir) in
         match moved with
         | Ok _ => os_ret tt
         | Err err =>
           os! rolled := os_try (os_Rename sqlite_at temp_at) in
           match rolled with
           | Err rollbackErr => os_fail (Wrapf "failed to back up bolt.db: %v; failed to remove published SQLite database: %w" [] rollbackErr)
           | Ok _ => os_fail (Wrapf "failed to back up bolt.db: %w" [] err)
           end
         end) fs1 (leaves F good b fs).
Proof.
  intros Hk Ht1 Ht Hup. pose proof (but_temps_others _ _ Ht1) as Ho1. pose proof (kept_but_temps _ _ _ Hk Ht1) as Hk1.
  apply owp_bind, owp_wrap, owp_step; [intros HF; split; [intros e|]; by apply leaves_kept|]. rewrite Ht. cbn [fst snd].
  set (fs2 := <[sqlite_at := FSqlite t]> (base.delete temp_at fs1)).
  assert (Hown : temp_at ∈ own /\ sqlite_at ∈ own) by (unfold own, temps; rewrite !elem_of_cons; naive_solver). destruct Hown as [Hto Hso].
  assert (Hk2 : kept b fs2).
  { unfold kept, fs2. rewrite lookup_insert_ne, lookup_delete_ne; [done| |]; apply not_eq_sym.
    - rewrite (app_empty temp_at). apply bolt_not_temp.
    - rewrite (app_empty sqlite_at). apply bolt_not_sqlite. }
  assert (Ho2 : others_kept fs fs2).
  { intros p x Hp Hn. unfold fs2. rewrite lookup_insert_ne, lookup_delete_ne by (intros <-; by apply Hn). by apply Ho1. }
  apply owp_bind, owp_try. eapply owp_mono; [by apply (owp_moveBoltAside F b)|]. intros [[p|e]|] fs3 H.
  - destruct H as (x & Hx & ->). apply owp_ret.
    assert (Hbk : forall q, q = temp_at \/ q = sqlite_at -> backup x <> q).
    { intros q [->| ->]; [rewrite (app_empty temp_at); apply backup_not_temp|rewrite (app_empty sqlite_at); apply backup_not_sqlite]. }
    split; [|split; [|split]].
    + intros p' y Hp Hn. rewrite lookup_insert_ne, lookup_delete_ne; [by apply Ho2| |]; intros <-.
      * apply Hn. unfold own. by constructor.
      * specialize (Ho2 _ _ Hp Hn). by rewrite Ho2 in Hx.
    + rewrite lookup_insert_ne by apply backup_not_bolt. apply lookup_delete_eq.
    + exists x. rewrite lookup_insert_eq. split; [|done]. destruct (fs !! backup x) as [y|] eqn:E; [|done].
      rewrite (Ho2 _ _ E (backup_not_own x)) in Hx. done.
    + exists t. rewrite lookup_insert_ne by (apply Hbk; by right). rewrite lookup_delete_ne; [unfold fs2; rewrite lookup_insert_eq; auto|].
      rewrite (app_empty sqlite_at). apply bolt_not_sqlite.
  - destruct H as [HF ->]. apply owp_bind, owp_try, owp_step.
    + intros _. split; [intros e'; apply owp_fail|]; by apply leaves_kept.
    + assert (Hs2 : fs2 !! sqlite_at = Some (FSqlite t)) by (unfold fs2; apply lookup_insert_eq). rewrite Hs2. cbn [fst snd]. apply owp_fail. apply leaves_kept; try done.
      * intros p y Hp Hn. rewrite lookup_insert_ne, lookup_delete_ne by (intros <-; by apply Hn). by apply Ho2.
      * unfold kept. rewrite lookup_insert_ne, lookup_delete_ne; [done| |]; apply not_eq_sym;
          [rewrite (app_empty sqlite_at); apply bolt_not_sqlite|rewrite (app_empty temp_at); apply bolt_not_temp].
  - destruct H as [HF ->]. by apply leaves_kept.
Qed.

Lemma owp_fill F b fs fs1 : bolt_ok b -> kept b fs -> but_temps fs fs1 -> owp F (fill_and_publish dir suffix b) fs1 (leaves F (copyable b /\ checked b) b fs).
Proof.
  intros Hb Hk Ht1. destruct temps_in as (T1 & _).
  assert (Hl : forall fs2, but_temps fs fs2 -> F = true ->
    (forall e, leaves F (copyable b /\ checked b) b fs (Some (Err e) : option (result unit)) fs2) /\ leaves F (copyable b /\ checked b) b fs (None : option (result unit)) fs2).
  { intros fs2 Ht2 HF. pose proof (but_temps_others _ _ Ht2). pose proof (kept_but_temps _ _ _ Hk Ht2). split; [intros e|]; by apply leaves_kept. }
  unfold fill_and_publish. apply owp_bind, owp_wrap. eapply owp_mono; [apply owp_createSQLiteDB|]. intros [[u|e]|] fs2 [Ht2 H2];
    pose proof (but_temps_trans _ _ _ Ht1 Ht2) as Ht; [|by apply Hl..].
  apply owp_bind. eapply owp_on_database; [exact H2|by apply (wp_copy_bolt F b)|by intros HF; apply Hl|]. intros [u'|e] t Hcp.
  2:{ destruct Hcp as [-> Hc]. split; [apply but_temps_others; by eapply but_temps_trans; [|apply but_temps_insert]|]. split; [|by intros HF [? _]; apply Hc].
      eapply kept_but_temps; [exact Hk|]. by eapply but_temps_trans; [|apply but_temps_insert]. }
  destruct Hcp as [Hcp Hcfg]. assert (Ht3 : but_temps fs (<[temp_at := FSqlite t]> fs2)) by (by eapply but_temps_trans; [|apply but_temps_insert]).
  apply owp_bind, owp_wrap. eapply owp_on_database; [apply lookup_insert_eq|apply (wp_verifyMigration F b)|by intros HF; apply Hl|].
  intros [u''|e] t' [-> Hv]; rewrite insert_insert_eq.
  2:{ split; [by apply but_temps_others|]. split; [by eapply kept_but_temps|]. intros HF [Hc Hch]. apply Hv; [done|]. by apply copy_verifiable. }
  apply owp_bind, owp_wrap, owp_effect; [by intros HF; apply Hl|]. apply owp_bind, owp_wrap, owp_effect; [by intros HF; apply Hl|].
  apply (owp_publish F _ b fs _ t); [done|done|apply lookup_insert_eq|done].
Qed.

Lemma owp_migrate_bolt F b fs : bolt_ok b -> kept b fs -> owp F (migrate_bolt dir suffix) fs (leaves F (copyable b /\ checked b) b fs).
Proof.
  intros Hb Hk. destruct temps_in as (T1 & _).
  assert (Hl : forall fs2, but_temps fs fs2 -> F = true ->
    (forall e, leaves F (copyable b /\ checked b) b fs (Some (Err e) : option (result unit)) fs2) /\ leaves F (copyable b /\ checked b) b fs (None : option (result unit)) fs2).
  { intros fs2 Ht2 HF. pose proof (but_temps_others _ _ Ht2). pose proof (kept_but_temps _ _ _ Hk Ht2). split; [intros e|]; by apply leaves_kept. }
  unfold migrate_bolt, open_bolt. apply owp_bind, owp_wrap, owp_step; [by intros HF; apply Hl|]. unfold kept in Hk. rewrite Hk. cbn [fst snd].
  apply owp_bind, owp_wrap, owp_step; [by intros HF; apply Hl|]. cbn [fst snd]. pose proof (but_temps_insert temp_at FPlain fs T1) as Ht.
  apply owp_bind, owp_try, owp_effect.
  - intros HF. split; [|by apply Hl]. intros e. apply owp_bind. eapply owp_mono; [by apply (owp_remove_temp F temp_at)|]. intros [[u|e']|] fs2 [Ht2 Hr];
      destruct (Hl _ (but_temps_trans _ _ _ Ht Ht2) HF) as [L1 L2]; [apply owp_fail, L1|apply L1|apply L2].
  - apply owp_with_cleanup. by apply owp_fill.
Qed.

Lemma owp_discard F b fs l : kept b fs -> (forall x, x ∈ l -> sqlite_at +:+ x ∈ own) -> owp F (discard dir l) fs (fun r fs' =>
  others_kept fs fs' /\ kept b fs' /\ (forall p, fs !! p = None -> fs' !! p = None) /\
  match r with Some (Ok _) => forall x, x ∈ l -> fs' !! (sqlite_at +:+ x) = None | _ => F = true end).
Proof.
  revert fs. induction l as [|x l IH]; intros fs Hk Hl; cbn [discard]; assert (Hrefl : others_kept fs fs) by (by intros p y).
  { apply owp_ret. do 3 (split; [done|]). by intros x ?%not_elem_of_nil. }
  apply owp_bind, owp_wrap, owp_step; [by intros ->|]. cbn [fst snd].
  assert (Hk1 : kept b (base.delete (sqlite_at +:+ x) fs)) by (unfold kept; rewrite lookup_delete_ne; [done|apply not_eq_sym, bolt_not_sqlite]).
  eapply owp_mono; [apply IH; [exact Hk1|intros y Hy; apply Hl; by constructor]|]. intros r fs' (Ho & Hk' & Hb & Hr). split; [|split; [done|split]].
  - intros p y Hp Hn. apply Ho; [|done]. rewrite lookup_delete_ne; [done|]. intros <-. apply Hn, Hl. by constructor.
  - intros y Hy. apply Hb. apply lookup_delete_None. by right.
  - destruct r as [[u|e]|]; [|done..]. intros y [->|Hy]%elem_of_cons; [|by apply Hr]. apply Hb, lookup_delete_eq.
Qed.

(** Leaving relative to files of which some were discarded. *)
Lemma leaves_from F good b fs fs1 {A} (r : option (result A)) fs' : others_kept fs fs1 -> fs1 !! sqlite_at = None ->
  leaves F good b fs1 r fs' -> leaves F good b fs r fs'.
Proof.
  intros Ho Hs [Ho' H]. split; [intros p x Hp Hn; by apply Ho', Hn; apply Ho|].
  assert (Hm : moved b fs1 fs' -> moved b fs fs').
  { intros (H1 & (x & H2 & H3) & t & H4 & H5). split; [done|]. split.
    - exists x. split; [|done]. destruct (fs !! backup x) as [y|] eqn:E; [|done]. by rewrite (Ho _ _ E (backup_not_own x)) in H2.
    - exists t. split; [done|]. right. destruct H5 as [[H5 _]|H5]; [by rewrite Hs in H5|done]. }
  destruct r as [[a|e]|]; [auto|done|]. destruct H as [? [?|?]]; auto.
Qed.

(** A run without faults needs a file that can be copied, unless a database with
    data is in place. *)
Definition ready (b : bolt) (fs : gmap string file) : Prop :=
  match fs !! sqlite_at with
  | Some (FSqlite t) => 0 < system_keys t \/ copyable b /\ checked b
  | _ => copyable b /\ checked b
  end.

Lemma owp_holds F fs : owp F (sqliteHoldsData sqlite_at) fs (fun r fs' => fs' = fs /\
  match r with
  | Some (Ok true) => exists t, fs !! sqlite_at = Some (FSqlite t) /\ 0 < system_keys t
  | Some (Ok false) => F = true \/ forall t, fs !! sqlite_at = Some (FSqlite t) -> system_keys t <= 0
  | Some (Err _) => False
  | None => F = true
  end).
Proof.
  unfold sqliteHoldsData. apply owp_bind, owp_try, owp_effect; [intros HF; split; [intros e; apply owp_ret; auto|done]|]. apply owp_bind, owp_try.
  destruct (fs !! sqlite_at) as [[b|t|]|] eqn:E.
  2:{ eapply (owp_on_database F _ _ fs t (fun r t' => t' = t /\ match r with Ok n => n = system_keys t | Err _ => F = true end)); [done| |..].
      - by wp_step.
      - intros HF. split; [intros e; apply owp_ret; auto|done].
      - intros [n|e] t' [-> Hn]; rewrite insert_id by done; apply owp_ret; (split; [done|]); [|by left]. subst n.
        destruct (Z.ltb_spec 0 (system_keys t)); [by exists t|]. right. by intros t' [= <-]. }
  all: intros faults sql Hf; unfold on_database, os_step; cbn [d_faults d_files d_sql]; destruct faults as [|[|e|] faults]; cbn [d_faults d_files d_sql];
    rewrite ?E; eexists _, _, _, _; (split; [reflexivity|]); (split; [by intros HF; destruct (Hf HF)|]).
  all: try (apply owp_ret; split; [done|]; right; intros t Ht; congruence).
  all: destruct F; [|by destruct (Hf eq_refl)]; try (apply owp_ret; split; [done|]; by left); done.
Qed.

Lemma owp_MigrateFromBoltDB F b fs : bolt_ok b -> kept b fs -> owp F (MigrateFromBoltDB dir suffix) fs (leaves F (ready b fs) b fs).
Proof.
  intros Hb Hk. assert (Ho : others_kept fs fs) by (by intros p x).
  assert (Hl : F = true -> (forall e, leaves F (ready b fs) b fs (Some (Err e) : option (result unit)) fs) /\ leaves F (ready b fs) b fs (None : option (result unit)) fs).
  { intros HF. split; [intros e|]; by apply leaves_kept. }
  unfold MigrateFromBoltDB. apply owp_bind, owp_wrap, owp_step; [exact Hl|]. unfold kept in Hk. rewrite Hk. cbn [fst snd is_some negb].
  apply owp_bind, owp_wrap, owp_step; [exact Hl|]. cbn [fst snd]. destruct (fs !! sqlite_at) as [f|] eqn:Es; cbn [is_some negb].
  2:{ eapply owp_mono; [by apply (owp_migrate_bolt F b)|]. intros r fs' H. unfold ready. by rewrite Es. }
  apply owp_bind. eapply owp_mono; [apply owp_holds|]. intros [[[]|e]|] fs' [-> H]; [| |done|by apply Hl].
  - destruct H as (t & Ht & Hpos). apply owp_bind, owp_wrap. eapply owp_mono; [by apply (owp_moveBoltAside F b)|].
    intros [[p|e]|] fs2 H; [|by destruct H as [HF ->]; apply Hl..]. destruct H as (x & Hx & ->). apply owp_ret. split; [|split; [|split]].
    + intros p' y Hp Hn. rewrite lookup_insert_ne, lookup_delete_ne; [done| |]; intros <-.
      * apply Hn. unfold own. by constructor.
      * by rewrite Hp in Hx.
    + rewrite lookup_insert_ne by apply backup_not_bolt. apply lookup_delete_eq.
    + exists x. by rewrite lookup_insert_eq.
    + exists t. rewrite lookup_insert_ne by (rewrite (app_empty sqlite_at); apply backup_not_sqlite).
      rewrite lookup_delete_ne by (rewrite (app_empty sqlite_at); apply bolt_not_sqlite). auto.
  - apply owp_bind. eapply owp_mono; [apply (owp_discard F b); [done|]|].
    { intros x Hx. apply list_elem_of_In in Hx. cbn [In] in Hx. unfold own. apply list_elem_of_In. cbn [In].
      destruct Hx as [<-|[<-|[<-|[]]]]; [rewrite <-app_empty|..]; auto. }
    intros r fs2 (Ho2 & Hk2 & _ & Hr). destruct r as [[u|e]|]; [|by apply leaves_kept..].
    assert (Hs2 : fs2 !! sqlite_at = None) by (rewrite (app_empty sqlite_at); apply Hr; by constructor).
    eapply owp_mono; [by apply (owp_migrate_bolt F b)|]. intros r' fs' Hl'.
    apply (leaves_from F (ready b fs) b fs fs2); [done|done|]. destruct Hl' as [H1 H2]. split; [done|].
    destruct r' as [[a|e]|]; [done| |done]. destruct H2 as [H2 H3]. split; [done|]. intros HF Hrd. apply H3; [done|]. unfold ready in Hrd. rewrite Es in Hrd.
    destruct H as [H|H]; [congruence|]. destruct f as [b'|t|]; [done| |done]. destruct Hrd as [Hrd|Hrd]; [|done]. specialize (H t Es). lia.
Qed.

(** C4. Whatever operation on files or statement fails, and wherever the
    process ends, upgrading a BoltDB file leaves the files of others alone, and the
    old file where it was; only when a database with its data, or one that had data
    before, is in place, it is moved to a name that was free.  A run that succeeds
    has moved it, a run that fails has not. *)
Theorem upgrade_is_safe d b : d_files d !! bolt_at = Some (FBolt b) -> bolt_ok b ->
  let '(r, d') := MigrateFromBoltDB dir suffix d in
  others_kept (d_files d) (d_files d') /\
  match r with
  | Some (Ok _) => moved b (d_files d) (d_files d')
  | Some (Err _) => kept b (d_files d')
  | None => kept b (d_files d') \/ moved b (d_files d) (d_files d')
  end.
Proof.
  intros Hk Hb. destruct d as [fs faults sql]. cbn [d_files] in *.
  destruct (owp_MigrateFromBoltDB true b fs Hb Hk faults sql ltac:(done)) as (r & fs' & f' & s' & -> & _ & Ho & H). cbn [d_files]. split; [done|].
  destruct r as [[a|e]|]; [done|by destruct H|by destruct H].
Qed.

(** C20. When nothing fails, upgrading succeeds for every BoltDB file whose
    lists are arrays, whose groups have names and values that can be decoded, whose
    stored setting can be changed and whose subscriptions select no server
    automatically: what was copied passes the verification. *)
Theorem upgrade_succeeds fs b : fs !! bolt_at = Some (FBolt b) -> bolt_ok b -> ready b fs ->
  exists d', MigrateFromBoltDB dir suffix (mkDisk fs [] []) = (Some (Ok tt), d') /\ moved b fs (d_files d').
Proof.
  intros Hk Hb Hr. destruct (owp_MigrateFromBoltDB false b fs Hb Hk [] [] ltac:(done)) as (r & fs' & f' & s' & Hc & _ & Ho & H).
  destruct r as [[[]|e]|]; [|by destruct H as [_ H]; destruct (H eq_refl)|by destruct H]. rewrite Hc. by eexists.
Qed.

(** C21. A BoltDB file with a subscription that selects servers
    automatically and a setting of the group proxy, which the upgrade changes, is,
    without a SQLite file in place, never upgraded: the verification compares the changed setting with the old one. *)
Theorem selection_blocks_upgrade d b bkt s : d_files d !! bolt_at = Some (FBolt b) -> d_files d !! sqlite_at = None -> bolt_ok b ->
  selected b = true -> ("outbound.proxy"%string, bkt) ∈ b -> lookup_first bkt "setting" = Some s ->
  (forall manual s', automatic_setting manual s = Ok s' -> s' <> s) ->
  forall u, fst (MigrateFromBoltDB dir suffix d) <> Some (Ok u).
Proof.
  intros Hk Hs Hb Hsel Hin Hset Hch u Hr. destruct d as [fs faults sql]. cbn [d_files] in *.
  destruct (owp_MigrateFromBoltDB true b fs Hb Hk faults sql ltac:(done)) as (r & fs' & f' & s' & Hc & _ & Ho & H). rewrite Hc in Hr. cbn in Hr. subst r.
  destruct H as (_ & _ & t & _ & [[H _]|[Hcp Hv]]); [by rewrite Hs in H|].
  assert (Hkey : "setting"%string ∈ value_keys) by (unfold value_keys; set_solver).
  pose proof (Hv _ _ _ _ Hin eq_refl Hkey Hset) as Hnew. change (makeKey "outbound.proxy" "setting") with "outbound.proxy:setting"%string in Hnew.
  assert (Hold : old_config b !! makeKey "outbound.proxy" "setting" = Some s) by (unfold old_config; by eapply outbound_config_lookup; [|apply Hb|..]).
  change (makeKey "outbound.proxy" "setting") with "outbound.proxy:setting"%string in Hold.
  destruct (cp_group _ _ Hcp Hsel) as (manual & s2 & Ha & Hn2). rewrite Hold in Ha. rewrite Hnew in Hn2. injection Hn2 as <-. by apply (Hch manual s Ha).
Qed.

End Files.

(** ** A file that is upgraded, and one that is not *)

Module UpgradeRef.
Import JsonRef.

Fixpoint jval_eqb (a b : jval) {struct a} : bool :=
  match a, b with
  | JNull, JNull => true
  | JBool x, JBool y => Bool.eqb x y
  | JInt x, JInt y => x =? y
  | JStr x, JStr y => String.eqb x y
  | JArr l, JArr l' =>
    (fix go l l' := match l, l' with [], [] => true | x :: l, y :: l' => jval_eqb x y && go l l' | _, _ => false end) l l'
  | JObj l, JObj l' =>
    (fix go l l' := match l, l' with
                    | [], [] => true
                    | (k, x) :: l, (k', y) :: l' => String.eqb k k' && jval_eqb x y && go l l'
                    | _, _ => false
                    end) l l'
  | _, _ => false
  end.

Lemma jval_eqb_spec a b : jval_eqb a b = true <-> a = b.
Proof.
  revert a b. fix IH 1. intros a b. destruct a as [|x|x|x|l|l], b as [|y|y|y|l'|l']; cbn [jval_eqb]; try done.
  - rewrite Bool.eqb_true_iff. clear IH. naive_solver.
  - rewrite Z.eqb_eq. clear IH. naive_solver.
  - rewrite String.eqb_eq. clear IH. naive_solver.
  - assert (H : forall l', (fix go l l' := match l, l' with [], [] => true | x :: l, y :: l' => jval_eqb x y && go l l' | _, _ => false end) l l' = true <-> l = l').
    { induction l as [|x l IHl]; intros [|y l'']; [done..|]. rewrite andb_true_iff, IHl, IH. clear IH. naive_solver. }
    rewrite H. clear IH. naive_solver.
  - assert (H : forall l', (fix go l l' := match l, l' with [], [] => true | (k, x) :: l, (k', y) :: l' => String.eqb k k' && jval_eqb x y && go l l' | _, _ => false end) l l' = true <-> l = l').
    { induction l as [|[k x] l IHl]; intros [|[k' y] l'']; [done..|]. rewrite !andb_true_iff, IHl, IH, String.eqb_eq. clear IH. naive_solver. }
    rewrite H. clear IH. naive_solver.
Qed.

Fixpoint set_field (fs : list (string * jval)) (k : string) (v : jval) : list (string * jval) :=
  match fs with
  | [] => [(k, v)]
  | (k', x) :: fs => if String.eqb k k' then (k, v) :: fs else (k', x) :: set_field fs k v
  end.

Definition with_field (d : jval) (k : string) (v : jval) : jval := JObj (set_field (match d with JObj fs => fs | _ => [] end) k v).

Definition member_of (d : jval) : option (string * Z) :=
  match d with JNull => None | d => Some (as_string (field d "_type"), as_int (field d "sub")) end.

#[export] Instance upgrade_json : UpgradeJson := {|
  text s := if String.eqb s default_proxy_setting
            then JObj [("probeURL", JStr "https://www.gstatic.com/generate_204"); ("probeInterval", JStr "300s"); ("type", JStr "leastping")]%string
            else JStr s;
  bytes_of := as_string;
  doc_eqb := jval_eqb;
  gj_valid _ := true;
  sj_Set_string d k v := Ok (with_field d k (JStr v));
  sj_Set_bool d k v := Ok (with_field d k (JBool v));
  json_members d := Ok (map member_of (as_array (field d "touches")));
  check_setting _ := Ok tt;
  check_connections _ := Ok tt;
  marshal_members refs := Ok (JObj [("touches", JArr (map (fun r => JObj [("_type", JStr (TYPE r)); ("id", JInt (ID r)); ("sub", JInt (Sub r))]) refs))]%string);
|}.

#[export] Instance upgrade_laws : UpgradeLaws upgrade_json.
Proof. split. exact jval_eqb_spec. Qed.

Definition old_setting : jval := JObj [("probeURL", JStr "https://example.test/ping"); ("probeInterval", JStr "45s"); ("type", JStr "leastping")]%string.

Definition old_sub (auto : bool) : jval :=
  JObj [("address", JStr "https://example.test/sub"); ("autoSelect", JBool auto); ("servers", JArr [JStr "x"; JStr "y"])]%string.

Definition old_file (auto : bool) : bolt :=
  [("outbound.proxy", [("connectedServers", JObj [("touches", JArr [])]); ("setting", old_setting)]);
   ("system", [("setting", JObj [("subscriptionAutoUpdateMode", JStr "auto_update_at_intervals"); ("subscriptionAutoUpdateIntervalHour", JInt 7)]);
               ("version", JStr "2")]);
   ("touch", [("servers", JArr [JStr "a"; JStr "b"]); ("subscriptions", JArr [old_sub auto])])]%string.

Definition before (auto : bool) : gmap string file := <["/etc/v2raya/bolt.db"%string := FBolt (old_file auto)]> ∅.

Lemma old_file_ok auto : bolt_ok (old_file auto).
Proof. split; apply (bool_decide_unpack _); vm_compute; reflexivity. Qed.

(** An error when the database is put in place. *)
Lemma upgrade_is_safe_witness : exists e d', MigrateFromBoltDB "/etc/v2raya" "1" (mkDisk (before false) (replicate 16 Fine ++ [Fails (ExtErr "no space")]) []) = (Some (Err e), d') /\
  kept "/etc/v2raya" (old_file false) (d_files d').
Proof.
  pose proof (upgrade_is_safe "/etc/v2raya" "1" (mkDisk (before false) (replicate 16 Fine ++ [Fails (ExtErr "no space")]) []) (old_file false) eq_refl (old_file_ok false)) as H.
  destruct (MigrateFromBoltDB _ _ _) as [r d'] eqn:E. apply (f_equal fst) in E. cbn [fst] in E. destruct r as [[u|e]|]; [vm_compute in E; discriminate E| |vm_compute in E; discriminate E].
  exists e, d'. split; [reflexivity|]. exact (proj2 H).
Defined.

Lemma old_file_ready : ready "/etc/v2raya" (old_file false) (before false).
Proof.
  split; [split|].
  - split; reflexivity.
  - split; reflexivity.
  - right. reflexivity.
  - reflexivity.
  - intros n bkt k v Hin Hn Hk Hv. split; [|unfold verifyOutboundValue; destruct (String.eqb k "setting"), (String.eqb k "connectedServers"); reflexivity].
    apply list_elem_of_In in Hin. cbn [In old_file] in Hin. destruct Hin as [[= <- _]|[[= <- _]|[[= <- _]|[]]]]; [reflexivity|discriminate Hn..].
Qed.

Lemma upgrade_succeeds_witness : exists d', MigrateFromBoltDB "/etc/v2raya" "1" (mkDisk (before false) [] []) = (Some (Ok tt), d') /\
  moved "/etc/v2raya" (old_file false) (before false) (d_files d').
Proof. exact (upgrade_succeeds "/etc/v2raya" "1" (before false) (old_file false) eq_refl (old_file_ok false) old_file_ready). Defined.

Lemma selection_blocks_upgrade_witness : fst (MigrateFromBoltDB "/etc/v2raya" "1" (mkDisk (before true) [] [])) <> Some (Ok tt).
Proof.
  apply (selection_blocks_upgrade "/etc/v2raya" "1" (mkDisk (before true) [] []) (old_file true)
           [("connectedServers", JObj [("touches", JArr [])]); ("setting", old_setting)]%string old_setting).
  - reflexivity.
  - reflexivity.
  - apply old_file_ok.
  - reflexivity.
  - left.
  - reflexivity.
  - intros [] s'; vm_compute; intros [= <-]; discriminate.
Defined.

(** A database that holds data is discarded when opening it once fails. *)
Definition in_use : tables := mkTables [mkServerRow 1 "server" None (JStr "new") 0] 1 [] 0 [] (<["system:version"%string := JStr "3"]> ∅).

Lemma failed_probe_discards :
  let '(r, d') := MigrateFromBoltDB "/etc/v2raya" "1" (mkDisk (<["/etc/v2raya/v2raya.db"%string := FSqlite in_use]> (before false)) [Fine; Fine; Fails (ExtErr "busy")] []) in
  is_some r = true /\ match d_files d' !! "/etc/v2raya/v2raya.db"%string with Some (FSqlite t) => v_servers (view_of t) = [JStr "a"; JStr "b"] | _ => False end.
Proof. vm_compute. split; reflexivity. Qed.

(** Names of two bytes, of other scripts or at the end are not found. *)
Lemma names_are_missed : let b n := String (ascii_of_N n) EmptyString in
  extractStringsFromGob EmptyString (b 2%N +:+ "hk" +:+ b 5%N +:+ "tokyo" +:+ b 5%N +:+ "paris") = ["tokyo"%string].
Proof. vm_compute. reflexivity. Qed.

End UpgradeRef.
