(* ===== verification/TemplateData.v ===== *)
(** * The template under construction (service/kernel/v2ray/template_core.go)

    The template of the core's configuration, what its construction reads from the
    database and the host, and what it takes from libraries ([ServiceEnv]).  The
    stored values do not change while a template is made. *)

From stdpp Require Import gmap.
From S2P Require Import Prelude.
From S2P Require Import Configure Settings CoreConfig.

#[local] Open Scope Z_scope.

(** ** JSON values, as [map[string]interface{}] *)

Inductive json :=
| JNull
| JBool (b : bool)
| JNum (n : Z)
| JStr (s : string)
| JArr (items : list json)
| JObj (fields : list (string * json)).

(** ** RoutingA, as its parser returns it

    The named parameters of a function are a map, here in the order in which the
    code ranges over them. *)

Record ra_function := mkFunction {
  f_Name : string;
  f_Params : list string;
  f_NamedParams : list (string * list string);
}.

Inductive ra_value :=
| VString (s : string)
| VBound (name : string) (value : ra_function).

Inductive ra_rule :=
| RDefine (name : string) (value : ra_value)
| RRouting (out : string) (and : list ra_function).

(** ** What is read *)

Class ServiceEnv := {
  env_lite : bool;
  env_LogLevel : string;
  stored_settings : Setting;
  stored_ports : Ports;
  stored_inbounds : list CustomInbound;
  stored_outbounds : list string;
  stored_outbound_setting : string -> OutboundSetting;
  stored_routingA : string;
  stored_domains_excluded : string;
  stored_accounts : result (list (string * string));
  stored_dns_rules : option (list ServiceDnsRule);
  core_variant : string;
  core_version : string;
  asset : string -> bool;
  local_cidrs : list string;
  ipv6_supported : bool;
  goos : string;
  free_port : Z;
  lookup_env : string -> option string;
  could_listen : bool * option error;
  can_bind : string -> option error;
  tun_egress : string;
  tun_device : string;
  own_executable : option string;
  core_binary : option string;
  own_pid : Z;
  resolv_conf : option string;
  resolv_backup : option string;
  accounts_uuid : list (string * string) -> string;
  RoutingA_Parse : string -> result (list ra_rule);
  slicex_Uniq : list string -> list string;
  parse_duration : string -> result Z;
  duration_string : Z -> string;
  url_hostname : string -> option string;
}.

(** ** The template *)

(** The functions that [Close] calls, by what they stop. *)
Inductive producer :=
| ObservatoryProducer (port : Z) (tags : list string)
| TrafficProducer (port : Z).

Record Template := mkTemplate {
  t_Log : option Log;
  Inbounds : list Inbound;
  Outbounds : list OutboundObject;
  DomainStrategy : string;
  DomainMatcher : string;
  Rules : list RoutingRule;
  t_Balancers : list Balancer;
  t_MultiObservatory : option MultiObservatory;
  t_API : option APIObject;
  t_Stats : bool;
  StatsOutbound : bool;
  t_DnsModuleConfig : option json;
  Variant : string;
  CoreVersion : string;
  OutboundTags : list string;
  ApiCloses : list producer;
  t_ApiPort : Z;
  t_Setting : Setting;
  serverInfoMap : gmap string nat;
}.

Definition set_rules (t : Template) (v : list RoutingRule) : Template :=
  mkTemplate (t_Log t) (Inbounds t) (Outbounds t) (DomainStrategy t) (DomainMatcher t) v (t_Balancers t)
    (t_MultiObservatory t) (t_API t) (t_Stats t) (StatsOutbound t) (t_DnsModuleConfig t) (Variant t) (CoreVersion t)
    (OutboundTags t) (ApiCloses t) (t_ApiPort t) (t_Setting t) (serverInfoMap t).
Definition set_inbounds (t : Template) (v : list Inbound) : Template :=
  mkTemplate (t_Log t) v (Outbounds t) (DomainStrategy t) (DomainMatcher t) (Rules t) (t_Balancers t)
    (t_MultiObservatory t) (t_API t) (t_Stats t) (StatsOutbound t) (t_DnsModuleConfig t) (Variant t) (CoreVersion t)
    (OutboundTags t) (ApiCloses t) (t_ApiPort t) (t_Setting t) (serverInfoMap t).
Definition set_outbounds (t : Template) (v : list OutboundObject) : Template :=
  mkTemplate (t_Log t) (Inbounds t) v (DomainStrategy t) (DomainMatcher t) (Rules t) (t_Balancers t)
    (t_MultiObservatory t) (t_API t) (t_Stats t) (StatsOutbound t) (t_DnsModuleConfig t) (Variant t) (CoreVersion t)
    (OutboundTags t) (ApiCloses t) (t_ApiPort t) (t_Setting t) (serverInfoMap t).
Definition set_strategy (t : Template) (strategy matcher : string) : Template :=
  mkTemplate (t_Log t) (Inbounds t) (Outbounds t) strategy matcher (Rules t) (t_Balancers t)
    (t_MultiObservatory t) (t_API t) (t_Stats t) (StatsOutbound t) (t_DnsModuleConfig t) (Variant t) (CoreVersion t)
    (OutboundTags t) (ApiCloses t) (t_ApiPort t) (t_Setting t) (serverInfoMap t).
Definition set_observation (t : Template) (bs : list Balancer) (m : option MultiObservatory) : Template :=
  mkTemplate (t_Log t) (Inbounds t) (Outbounds t) (DomainStrategy t) (DomainMatcher t) (Rules t) bs m (t_API t) (t_Stats t)
    (StatsOutbound t) (t_DnsModuleConfig t) (Variant t) (CoreVersion t) (OutboundTags t) (ApiCloses t) (t_ApiPort t)
    (t_Setting t) (serverInfoMap t).
Definition set_api (t : Template) (api : APIObject) (port : Z) (closes : list producer) : Template :=
  mkTemplate (t_Log t) (Inbounds t) (Outbounds t) (DomainStrategy t) (DomainMatcher t) (Rules t) (t_Balancers t)
    (t_MultiObservatory t) (Some api) true true (t_DnsModuleConfig t) (Variant t) (CoreVersion t) (OutboundTags t) closes
    port (t_Setting t) (serverInfoMap t).
Definition set_dns (t : Template) (v : json) : Template :=
  mkTemplate (t_Log t) (Inbounds t) (Outbounds t) (DomainStrategy t) (DomainMatcher t) (Rules t) (t_Balancers t)
    (t_MultiObservatory t) (t_API t) (t_Stats t) (StatsOutbound t) (Some v) (Variant t) (CoreVersion t)
    (OutboundTags t) (ApiCloses t) (t_ApiPort t) (t_Setting t) (serverInfoMap t).
Definition set_core (t : Template) (variant version : string) : Template :=
  mkTemplate (t_Log t) (Inbounds t) (Outbounds t) (DomainStrategy t) (DomainMatcher t) (Rules t) (t_Balancers t)
    (t_MultiObservatory t) (t_API t) (t_Stats t) (StatsOutbound t) (t_DnsModuleConfig t) variant version
    (OutboundTags t) (ApiCloses t) (t_ApiPort t) (t_Setting t) (serverInfoMap t).
Definition set_tags (t : Template) (tags : list string) (infos : gmap string nat) : Template :=
  mkTemplate (t_Log t) (Inbounds t) (Outbounds t) (DomainStrategy t) (DomainMatcher t) (Rules t) (t_Balancers t)
    (t_MultiObservatory t) (t_API t) (t_Stats t) (StatsOutbound t) (t_DnsModuleConfig t) (Variant t) (CoreVersion t)
    tags (ApiCloses t) (t_ApiPort t) (t_Setting t) infos.

Definition add_rules (t : Template) (rs : list RoutingRule) : Template := set_rules t (Rules t ++ rs)%list.
Definition map_rules (t : Template) (f : RoutingRule -> RoutingRule) : Template := set_rules t (map f (Rules t)).
Definition add_inbounds (t : Template) (ibs : list Inbound) : Template := set_inbounds t (Inbounds t ++ ibs)%list.
Definition add_outbounds (t : Template) (os : list OutboundObject) : Template := set_outbounds t (Outbounds t ++ os)%list.

(** ** Small helpers of the service *)

Definition has (x : string) (l : list string) : bool := existsb (String.eqb x) l.

(** [common.Deduplicate] *)
Fixpoint dedup_from (seen l : list string) : list string :=
  match l with
  | [] => []
  | v :: l => if has v seen then dedup_from seen l else v :: dedup_from (v :: seen) l
  end.

Definition Deduplicate (l : list string) : list string := dedup_from [] l.

Definition TunOn `{ServiceEnv} (setting : Setting) : bool :=
  String.eqb (TransparentType setting) TransparentTun && transparent_on env_lite setting.

Definition TunEgressInterfaceIfTun `{ServiceEnv} (setting : Setting) : string :=
  if TunOn setting then tun_egress else "".
