(* ===== verification/Routing.v ===== *)
(** * Routing rules of the template (service/kernel/v2ray/template_routing.go)

    The rules of the three modes of the rule port, the translation of RoutingA, the
    rules of the transparent inbound, and the passes over the rules at the end. *)

From stdpp Require Import gmap.
From S2P Require Import Prelude.
From S2P Require Import NetIP Text Iptables Configure Settings CoreConfig TemplateData.

#[local] Open Scope Z_scope.
#[local] Open Scope go_scope.

(** ** Names of outbounds and groups *)

(** The names that rules can use, and whether the name is a group. *)
Definition outNames (t : Template) : gmap string bool :=
  foldl (fun tags o =>
    match Balancers o with
    | [] => <[out_Tag o := false]> tags
    | gs => foldl (fun tags g => <[g := true]> tags) tags gs
    end) ∅ (Outbounds t).

(** The first group of an outbound that the filter takes; [m] holds the groups it
    refused. *)
Fixpoint first_group (filter : string -> bool -> bool) (gs : list string) (m : gset string) : option string * gset string :=
  match gs with
  | [] => (None, m)
  | v :: gs =>
    if decide (v ∈ m) then first_group filter gs m
    else if filter v true then (Some v, m) else first_group filter gs ({[v]} ∪ m)
  end.

Fixpoint first_proxy (filter : string -> bool -> bool) (os : list OutboundObject) (m : gset string) : string * bool :=
  match os with
  | [] => (EmptyString, false)
  | o :: os =>
    if has (out_Tag o) ["direct"; "block"; "dns-out"]%string then first_proxy filter os m
    else
      match Balancers o with
      | [] => if filter (out_Tag o) false then (out_Tag o, false) else first_proxy filter os m
      | gs =>
        match first_group filter gs m with
        | (Some v, _) => (v, true)
        | (None, m) => first_proxy filter os m
        end
      end
  end.

Definition FirstProxyOutboundName (t : Template) (filter : option (string -> bool -> bool)) : string * bool :=
  first_proxy (default (fun _ _ => true) filter) (Outbounds t) ∅.

(** ** RoutingA *)

Section Env.
Context `{SE : ServiceEnv}.

(** [strings.Replace(s, old, new, 1)] *)
Definition ReplaceFirst (s old new : string) : string :=
  match Cut s old with Some (before, after) => before +:+ new +:+ after | None => s end.

(** [regexp.MustCompile(`\$\$.+?\$\$`).FindAllString(s, -1)]: from the left, the
    shortest stretches of at least one character between two marks. *)
Fixpoint find_hardcodes (fuel : nat) (s : string) : list string :=
  match fuel with
  | O => []
  | S fuel =>
    match Cut s "$$" with
    | Some (_, String c rest) =>
      match Cut rest "$$" with
      | Some (b, rest) => ("$$" +:+ String c b +:+ "$$") :: find_hardcodes fuel rest
      | None => []
      end
    | _ => []
    end
  end.

Definition hardcode_line (line : string) : string :=
  foldl (fun line hardcode =>
    let env := TrimSuffix (TrimPrefix hardcode "$$") "$$" in
    ReplaceFirst line hardcode (default "" (lookup_env env))) line (find_hardcodes (S (s_len line)) line).

Definition RoutingATemplate : string := "default: proxy
# write your own rules below
domain(domain:mail.qq.com)->direct

domain(geosite:google-scholar)->proxy
domain(geosite:category-scholar-!cn, geosite:category-scholar-cn)->direct
domain(geosite:geolocation-!cn, geosite:google)->proxy
domain(geosite:cn)->direct
ip(geoip:hk,geoip:mo)->proxy
ip(geoip:private, geoip:cn)->direct".

Definition GetRoutingA : string := if String.eqb stored_routingA "" then RoutingATemplate else stored_routingA.

Definition routingA_text (text : string) : string := Join nl (map hardcode_line (lines text)).

(** The values of a named parameter. *)
Fixpoint named (k : string) (ps : list (string * list string)) : list string :=
  match ps with
  | [] => []
  | (k', vs) :: ps => if String.eqb k k' then vs else named k ps
  end.

(** [strings.SplitN(v, ":", 2)] and the checks of a file of an asset.  The message
    of the code goes on with an example in quotes. *)
Definition check_ext (v : string) : result unit :=
  match Cut v ":" with
  | None => Err (Errorf "RoutingA ext value %q is missing its tag" [FStr v])
  | Some (file, _) =>
    fail_if negb (asset file) with Errorf "RoutingA ext file %q is not in the asset directory" [FStr file] in Ok tt
  end.

(** The values of one named parameter of [domain] ([contains] is bare) or [ip]. *)
Fixpoint named_values (is_domain : bool) (k : string) (vs acc : list string) : result (list string) :=
  match vs with
  | [] => Ok acc
  | v :: vs =>
    if is_domain && String.eqb k "contains" then named_values is_domain k vs (acc ++ [v])%list
    else
      let? _ := (if String.eqb k "ext" then check_ext v else Ok tt) in
      named_values is_domain k vs (acc ++ [k +:+ ":" +:+ v])%list
  end.

Fixpoint named_all (is_domain : bool) (ps : list (string * list string)) (acc : list string) : result (list string) :=
  match ps with
  | [] => Ok acc
  | (k, vs) :: ps => let? acc := named_values is_domain k vs acc in named_all is_domain ps acc
  end.

Definition apply_function (rr : RoutingRule) (f : ra_function) : result RoutingRule :=
  let params := f_Params f in
  if has (f_Name f) ["domain"; "domains"]%string then
    let? ds := named_all true (f_NamedParams f) (rr_Domain rr) in Ok (set_domains rr (ds ++ params)%list)
  else if String.eqb (f_Name f) "ip" then
    let? ips := named_all false (f_NamedParams f) (rr_IP rr) in Ok (set_ips rr (ips ++ params)%list)
  else if String.eqb (f_Name f) "network" then
    Ok (mkRoutingRule (rr_Type rr) (rr_OutboundTag rr) (rr_BalancerTag rr) (rr_InboundTag rr) (rr_Domain rr) (rr_IP rr)
          (Join "," params) (rr_Port rr) (rr_SourcePort rr) (rr_Protocol rr) (rr_Source rr) (rr_User rr))
  else if String.eqb (f_Name f) "port" then Ok (set_port rr (Join "," params))
  else if String.eqb (f_Name f) "sourcePort" then
    Ok (mkRoutingRule (rr_Type rr) (rr_OutboundTag rr) (rr_BalancerTag rr) (rr_InboundTag rr) (rr_Domain rr) (rr_IP rr)
          (rr_Network rr) (rr_Port rr) (Join "," params) (rr_Protocol rr) (rr_Source rr) (rr_User rr))
  else if String.eqb (f_Name f) "protocol" then
    Ok (mkRoutingRule (rr_Type rr) (rr_OutboundTag rr) (rr_BalancerTag rr) (rr_InboundTag rr) (rr_Domain rr) (rr_IP rr)
          (rr_Network rr) (rr_Port rr) (rr_SourcePort rr) params (rr_Source rr) (rr_User rr))
  else if String.eqb (f_Name f) "source" then
    Ok (mkRoutingRule (rr_Type rr) (rr_OutboundTag rr) (rr_BalancerTag rr) (rr_InboundTag rr) (rr_Domain rr) (rr_IP rr)
          (rr_Network rr) (rr_Port rr) (rr_SourcePort rr) (rr_Protocol rr) params (rr_User rr))
  else if String.eqb (f_Name f) "user" then
    Ok (mkRoutingRule (rr_Type rr) (rr_OutboundTag rr) (rr_BalancerTag rr) (rr_InboundTag rr) (rr_Domain rr) (rr_IP rr)
          (rr_Network rr) (rr_Port rr) (rr_SourcePort rr) (rr_Protocol rr) (rr_Source rr) params)
  else if String.eqb (f_Name f) "inboundTag" then Ok (set_inbound_tags rr params)
  else Ok rr.

Fixpoint apply_functions (rr : RoutingRule) (fs : list ra_function) : result RoutingRule :=
  match fs with
  | [] => Ok rr
  | f :: fs => let? rr := apply_function rr f in apply_functions rr fs
  end.

(** The users of a server that is written in RoutingA. *)
Fixpoint ra_users (i : nat) (unames passwords levels : list string) : list OutboundUser :=
  match unames with
  | [] => []
  | uname :: unames =>
    mkOutboundUser uname (default "" (passwords !! i)) (default 0 (l ← levels !! i; Atoi l)) ::
    ra_users (S i) unames passwords levels
  end.

(** An outbound that is defined in RoutingA, when it is complete; definitions of
    inbounds are ignored. *)
Definition defined_outbound (kind name : string) (proto : ra_function) : list OutboundObject :=
  let ps := f_NamedParams proto in
  if has (f_Name proto) ["http"; "socks"]%string then
    match named "address" ps, named "port" ps with
    | address :: _, port :: _ =>
      match Atoi port with
      | None => []
      | Some port =>
        if String.eqb kind "outbound" then
          [set_out_settings (outbound name (f_Name proto))
             (mkSettings_ [] [mkServer "" address "" false "" port
                (ra_users 0 (named "user" ps) (named "pass" ps) (named "level" ps))] "" 0 "" "" "" None None)]
        else []
      end
    | _, _ => []
    end
  else if String.eqb (f_Name proto) "freedom" then
    [set_out_settings (outbound name (f_Name proto))
       (mkSettings_ [] [] (default "" (head (named "domainStrategy" ps))) 0 "" "" (default "" (head (named "redirect" ps)))
          (l ← head (named "userLevel" ps); Atoi l) None)]
  else [].

Definition defined_outbounds (rules : list ra_rule) : list OutboundObject :=
  concat (map (fun rule =>
    match rule with
    | RDefine kind (VBound name proto) =>
      if has kind ["inbound"; "outbound"]%string then defined_outbound kind name proto else []
    | _ => []
    end) rules).

Definition no_outbound (tag : string) : error :=
  Errorf "your RoutingA rules depend on the outbound %q, thus you should select at least one server in this outbound" [FStr tag].

(** The second loop of [parseRoutingA]. *)
Fixpoint routingA_rules (names : gmap string bool) (inbounds : list string) (rules : list ra_rule)
    (dflt : string) (acc : list RoutingRule) : result (string * list RoutingRule) :=
  match rules with
  | [] => Ok (dflt, acc)
  | RDefine name (VString v) :: rules =>
    if String.eqb name "default" then
      fail_if negb (is_some (names !! v)) with no_outbound v in routingA_rules names inbounds rules v acc
    else routingA_rules names inbounds rules dflt acc
  | RDefine _ (VBound _ _) :: rules => routingA_rules names inbounds rules dflt acc
  | RRouting out and :: rules =>
    let? rr := apply_functions (rule_to out inbounds) and in
    fail_if negb (String.eqb (rr_OutboundTag rr) "") && negb (is_some (names !! rr_OutboundTag rr))
      with no_outbound (rr_OutboundTag rr) in
    routingA_rules names inbounds rules dflt (acc ++ [rr])%list
  end.

Definition parseRoutingA (t : Template) (routingInboundTags : list string) : result Template :=
  let? rules := RoutingA_Parse (routingA_text GetRoutingA) in
  let defaultOutbound := fst (FirstProxyOutboundName t None) in
  let t := add_outbounds t (defined_outbounds rules) in
  let? (dflt, rs) := routingA_rules (outNames t) routingInboundTags rules defaultOutbound [] in
  Ok (add_rules t (rs ++ [rule_to dflt ["rule-http"; "rule-socks"]%string])%list).

(** The rules of a custom inbound; a rule without an outbound is dropped. *)
Fixpoint inbound_rules (inboundTag : string) (rules : list ra_rule) (acc : list RoutingRule) : result (list RoutingRule) :=
  match rules with
  | [] => Ok acc
  | RRouting out and :: rules =>
    let? rr := apply_functions (rule_to out [inboundTag]) and in
    inbound_rules inboundTag rules (if String.eqb (rr_OutboundTag rr) "" then acc else acc ++ [rr])%list
  | RDefine _ _ :: rules => inbound_rules inboundTag rules acc
  end.

Definition parseRoutingARules (rulesText inboundTag : string) : result (list RoutingRule) :=
  let? rules := RoutingA_Parse (routingA_text rulesText) in inbound_rules inboundTag rules [].

(** ** The modes of the rule port *)

Definition domain_rule (out : string) (inbounds domains : list string) : RoutingRule :=
  set_domains (rule_to out inbounds) domains.
Definition ip_rule (out : string) (inbounds ips : list string) : RoutingRule := set_ips (rule_to out inbounds) ips.

Definition apple_push : list string := ["domain:push-apple.com.akadns.net"; "domain:push.apple.com"].

Definition telegram : list string :=
  ["91.105.192.0/23"; "91.108.4.0/22"; "91.108.8.0/21"; "91.108.16.0/21"; "91.108.56.0/22";
   "95.161.64.0/20"; "149.154.160.0/20"; "185.76.151.0/24"; "2001:67c:4e8::/48"; "2001:b28:f23c::/47";
   "2001:b28:f23f::/48"; "2a0a:f280:203::/48"].

Definition foreign_sites : list string :=
  if asset "LoyalsoldierSite.dat" then ["ext:LoyalsoldierSite.dat:geolocation-!cn"]%string
  else ["geosite:geolocation-!cn"]%string.

Definition whitelist_rules (first : string) (inbounds : list string) : list RoutingRule :=
  [domain_rule first inbounds foreign_sites;
   domain_rule "proxy" inbounds ["geosite:google"]%string;
   domain_rule "direct" inbounds ["geosite:cn"]%string;
   ip_rule "proxy" inbounds ["geoip:hk"; "geoip:mo"]%string;
   ip_rule "direct" inbounds ["geoip:private"; "geoip:cn"]%string].

Definition gfwlist_rules (first : string) (inbounds : list string) : list RoutingRule :=
  ((if asset "LoyalsoldierSite.dat"
    then [domain_rule first inbounds ["ext:LoyalsoldierSite.dat:gfw"]%string;
          domain_rule first inbounds ["ext:LoyalsoldierSite.dat:greatfire"]%string]
    else [domain_rule first inbounds ["geosite:geolocation-!cn"]%string]) ++
   [ip_rule first inbounds telegram; rule_to "direct" inbounds])%list.

Definition AppendRoutingRuleByMode (t : Template) (mode : string) (inbounds : list string) : result Template :=
  let first := fst (FirstProxyOutboundName t None) in
  let t := add_rules t [domain_rule "direct" inbounds apple_push] in
  if String.eqb mode WhitelistMode then Ok (add_rules t (whitelist_rules first inbounds))
  else if String.eqb mode GfwlistMode then Ok (add_rules t (gfwlist_rules first inbounds))
  else if String.eqb mode RoutingAMode then parseRoutingA t inbounds
  else Ok t.

Definition setRulePortRouting (t : Template) : result Template :=
  AppendRoutingRuleByMode t (RulePortMode (t_Setting t)) ["rule-http"; "rule-socks"]%string.

(** A rule of the rule port also takes the inbound [tag]. *)
Definition follow_rule_port (tag : string) (r : RoutingRule) : RoutingRule :=
  if has "rule-http" (rr_InboundTag r) then set_inbound_tags r (rr_InboundTag r ++ [tag])%list else r.

Definition setTransparentRouting (t : Template) : result Template :=
  let mode := Transparent (t_Setting t) in
  if String.eqb mode TransparentProxy
  then Ok (add_rules t [rule_to (fst (FirstProxyOutboundName t None)) ["transparent"]%string])
  else if String.eqb mode TransparentWhitelist then AppendRoutingRuleByMode t WhitelistMode ["transparent"]%string
  else if String.eqb mode TransparentGfwlist then AppendRoutingRuleByMode t GfwlistMode ["transparent"]%string
  else if String.eqb mode TransparentFollowRule then Ok (map_rules t (follow_rule_port "transparent"))
  else Ok t.

Definition setVmessInboundRouting (t : Template) : Template :=
  if Vmess stored_ports <=? 0 then t else map_rules t (follow_rule_port "vmess").

(** ** Passes over the rules *)

Definition private_rule (r : RoutingRule) : RoutingRule :=
  if has "geoip:private" (rr_IP r) then set_ips r (rr_IP r ++ local_cidrs)%list else r.

Definition updatePrivateRouting (t : Template) : Template :=
  match local_cidrs with [] => t | _ => map_rules t private_rule end.

Definition small_geoip (ip : string) : string :=
  if has ip ["geoip:private"; "geoip:cn"]%string
  then "ext:geoip-only-cn-private.dat:" +:+ TrimPrefix ip "geoip:" else ip.

Definition small_rule (r : RoutingRule) : RoutingRule :=
  if asset "geoip-only-cn-private.dat" then set_ips r (map small_geoip (rr_IP r)) else r.

Definition optimizeGeoipMemoryOccupation (t : Template) : Template :=
  if asset "geoip-only-cn-private.dat" then map_rules t small_rule else t.

(** The host and the port of a node. *)
Definition whitelist_rule (addr : string * string) : RoutingRule :=
  set_port (if is_some (ParseIP (fst addr)) then ip_rule "direct" [] [fst addr] else domain_rule "direct" [] [fst addr])
    (snd addr).

Definition setWhitelistRouting (t : Template) (whitelist : list (string * string)) : Template :=
  set_rules t (map whitelist_rule whitelist ++ Rules t)%list.

Definition group_rule (names : gmap string bool) (r : RoutingRule) : RoutingRule :=
  if negb (String.eqb (rr_OutboundTag r) "") && default false (names !! rr_OutboundTag r)
  then set_outbound_tag (set_balancer_tag r (rr_OutboundTag r)) "" else r.

Definition setGroupRouting (t : Template) : Template := map_rules t (group_rule (outNames t)).

End Env.
