(* ===== verification/DnsTemplate.v ===== *)
(** * The configuration of the DNS module (service/kernel/v2ray/template_dns.go, core/main/dns_module.go)

    How the service turns the DNS rules into the configuration of the core's DNS
    module, and how the core reads it.  The two programs share only the names of
    the fields of a JSON object. *)

From stdpp Require Import gmap.
From S2P Require Import Prelude.
From S2P Require Import NetIP Text Iptables Configure Settings DnsConfig CoreConfig TemplateData.

#[local] Open Scope Z_scope.
#[local] Open Scope go_scope.

(** [strings.Split(s, sep)] for one character, items trimmed, empty ones left out. *)
Definition trimmed_items (items : list string) : list string := List.filter nonempty (map TrimSpace items).

Section Env.
Context `{SE : ServiceEnv}.

(** ** Listeners *)

Definition dnsModuleListenAddr (setting : Setting) : string :=
  if negb (String.eqb (DnsListenAddr setting) "") && negb (String.eqb (DnsListenAddr setting) "0.0.0.0:52353")
  then DnsListenAddr setting
  else if PortSharing setting || IpForward setting then "0.0.0.0:52353" else "127.0.0.1:52353".

(** The host of the primary listener, empty when it cannot be read. *)
Definition listen_ip (setting : Setting) : option (list Z) :=
  ParseIP (match SplitHostPort (dnsModuleListenAddr setting) with Ok (host, _) => host | Err _ => "" end).

Definition dnsModuleExtraListenAddrs (setting : Setting) : list string :=
  let port := dnsModulePort setting in
  let addrs :=
    match listen_ip setting with
    | Some ip => if negb (IsUnspecified ip) && is_some (To4 ip) && ipv6_supported then [JoinHostPort "::1" port] else []
    | None => []
    end in
  if String.eqb goos "darwin" then
    if String.eqb (TransparentType setting) TransparentTun && transparent_on env_lite setting then
      match can_bind "127.0.0.1:53" with
      | Some _ => addrs
      | None => (addrs ++ ["127.0.0.1:53"%string])%list
      end
    else addrs
  else if negb (String.eqb goos "linux") then addrs
  else
    let addrs :=
      match listen_ip setting with
      | Some ip =>
        if negb (IsUnspecified ip) then
          (addrs ++ (if negb (IsLoopback ip) then [JoinHostPort "127.0.0.1" port] else []) ++
           [JoinHostPort "127.2.0.17" port])%list
        else addrs
      | None => addrs
      end in
    if fst could_listen then (addrs ++ ["127.2.0.17:53"%string])%list else addrs.

(** ** Upstreams *)

Definition CheckDnsUpstream (upstream : string) : result unit :=
  match Cut upstream "://" with
  | None => fail_if String.eqb (TrimSpace upstream) "" with Errorf "DNS upstream is empty" [] in Ok tt
  | Some (scheme, rest) =>
    let s := ToLower scheme in
    if has s ["udp"; "tcp"; "tls"]%string then
      fail_if String.eqb rest "" with Errorf "DNS upstream %q has no address after the scheme" [FStr upstream] in Ok tt
    else if String.eqb s "https" then
      match url_hostname upstream with
      | Some h => fail_if String.eqb h "" with Errorf "DNS upstream %q is not a URL with a host" [FStr upstream] in Ok tt
      | None => Err (Errorf "DNS upstream %q is not a URL with a host" [FStr upstream])
      end
    else if String.eqb s "quic" then Err (Errorf "DNS upstream %q: DNS over QUIC is not supported; use an address (8.8.8.8), tls://host or https://host/dns-query" [FStr upstream])
    else Err (Errorf "DNS upstream %q: unknown scheme %q; use an address, tcp://, tls:// or https://" [FStr upstream; FStr scheme])
  end.

Definition upstream_text (rule : ServiceDnsRule) : string :=
  if String.eqb (dr_Upstream rule) "" then dr_Server rule else dr_Upstream rule.

Definition direct_server (rule : ServiceDnsRule) : option string :=
  if negb (String.eqb (dr_Outbound rule) "") && negb (String.eqb (dr_Outbound rule) "direct") then None
  else
    let addr := upstream_text rule in
    let plain := match Cut addr "://" with
                 | Some (scheme, rest) => if has scheme ["udp"; "tcp"]%string then Some rest else None
                 | None => Some addr
                 end in
    addr ← plain;
    let '(host, port) := match SplitHostPort addr with Ok hp => hp | Err _ => (addr, "53"%string) end in
    ip ← ParseIP host;
    if IsLoopback ip || IsUnspecified ip then None else Some (JoinHostPort host port).

Definition migrated_rules : list ServiceDnsRule := MigrateDnsRules (GetDnsRulesNotNil stored_dns_rules).

Definition directDnsServers : list string := Deduplicate (omap direct_server migrated_rules).

Definition HijackFlag : string := "# v2rayA DNS hijack".

Definition nameserver_line (line : string) : option string :=
  let line := TrimSpace line in
  if HasPrefix line "nameserver" then
    match words line with
    | _ :: ip :: _ => if is_some (ParseIP ip) then Some (JoinHostPort ip "53") else None
    | _ => None
    end
  else None.

Definition getSystemDnsServers : list string :=
  match resolv_conf with
  | None => []
  | Some data =>
    let data := if HasPrefix data HijackFlag then resolv_backup else Some data in
    match data with
    | None => []
    | Some data => omap nameserver_line (lines data)
    end
  end.

(** The protocol and the address of an upstream, with a port, and the host that
    must be resolved first, if it is a name. *)
Definition scheme_of (upstreamAddr : string) : string * string * bool :=
  if Contains upstreamAddr "://" then
    if HasPrefix upstreamAddr "https://" then ("https", upstreamAddr, false)%string
    else if HasPrefix upstreamAddr "tcp://" then ("tcp"%string, TrimPrefix upstreamAddr "tcp://", true)
    else if HasPrefix upstreamAddr "tls://" then ("tcp-tls"%string, TrimPrefix upstreamAddr "tls://", true)
    else if HasPrefix upstreamAddr "quic://" then ("quic"%string, TrimPrefix upstreamAddr "quic://", true)
    else ("udp"%string, upstreamAddr, true)
  else ("udp"%string, upstreamAddr, true).

Definition with_port (proto addr : string) : string :=
  match SplitHostPort addr with
  | Ok _ => addr
  | Err _ => if String.eqb proto "https" then addr
             else if has proto ["tcp-tls"; "tls"]%string then JoinHostPort addr "853" else JoinHostPort addr "53"
  end.

Definition upstream_of (upstreamAddr : string) : string * string :=
  let '(proto, addr, needDefaultPort) := scheme_of upstreamAddr in
  (proto, if needDefaultPort then with_port proto addr else addr).

Definition boot_host (upstreamAddr proto addr : string) : string :=
  if String.eqb proto "https" then default addr (url_hostname upstreamAddr)
  else match SplitHostPort addr with Ok (host, _) => host | Err _ => addr end.

(** ** One rule *)

Definition split_domains (domainStr : string) : list string * list string :=
  let items := trimmed_items (lines (TrimSpace domainStr)) in
  (List.filter (fun d => negb (HasPrefix d "domain:")) items,
   map (fun d => TrimPrefix d "domain:") (List.filter (fun d => HasPrefix d "domain:") items)).

(** A rule with its strings as JSON; [query_type] only when types are listed. *)
Record dns_rule_cfg := mkDnsRuleCfg {
  drc_id : string;
  drc_upstream : string;
  drc_action : string;
  drc_policy : string;
  drc_domain : list string;
  drc_domain_suffix : list string;
  drc_ip : list string;
  drc_client_ip : list string;
  drc_query_type : option (list string);
}.

Record dns_upstream_cfg := mkDnsUpstreamCfg {
  duc_id : string;
  duc_addr : string;
  duc_protocol : string;
  duc_proxy_tag : string;
}.

Record dns_gen := mkDnsGen {
  proxyMap : list string;
  bootstrapList : list string;
  seenUpstream : list (string * string * nat);
  g_upstreams : list dns_upstream_cfg;
  rulesList : list dns_rule_cfg;
  defaultUpstream : string;
}.

Fixpoint seen_at (addr tag : string) (l : list (string * string * nat)) : option nat :=
  match l with
  | [] => None
  | (a, t, i) :: l => if String.eqb a addr && String.eqb t tag then Some i else seen_at addr tag l
  end.

Definition upstream_id (n : nat) : string := "upstream-" +:+ dec (Z.of_nat n).

(** The address [localhost] stands for the resolver of the host. *)
Definition rule_upstream (rule : ServiceDnsRule) : string :=
  let addr := upstream_text rule in if String.eqb addr "localhost" then "127.0.0.1" else addr.

Definition note_upstream (rule : ServiceDnsRule) (g : dns_gen) : string * dns_gen :=
  let upstreamAddr := rule_upstream rule in
  let '(proto, addr) := upstream_of upstreamAddr in
  let bootHost := boot_host upstreamAddr proto addr in
  let boots := if negb (String.eqb bootHost "") && negb (is_some (ParseIP bootHost))
               then (bootstrapList g ++ [bootHost])%list else bootstrapList g in
  let tag := if String.eqb (dr_Outbound rule) "" then "direct"%string else dr_Outbound rule in
  let proxies := if has tag ["direct"; "block"]%string || has tag (proxyMap g) then proxyMap g
                 else (proxyMap g ++ [tag])%list in
  match seen_at addr tag (seenUpstream g) with
  | Some idx =>
    (upstream_id idx, mkDnsGen proxies boots (seenUpstream g) (g_upstreams g) (rulesList g) (defaultUpstream g))
  | None =>
    let n := length (g_upstreams g) in
    (upstream_id n,
     mkDnsGen proxies boots (seenUpstream g ++ [(addr, tag, n)])%list
       (g_upstreams g ++ [mkDnsUpstreamCfg (upstream_id n) addr proto tag])%list (rulesList g) (defaultUpstream g))
  end.

Definition query_types (rule : ServiceDnsRule) : option (list string) :=
  if String.eqb (dr_QueryType rule) "" || String.eqb (dr_QueryType rule) "*" then None
  else Some (map ToUpper (trimmed_items (Split_byte "," (dr_QueryType rule)))).

Definition set_rulesList (g : dns_gen) (v : list dns_rule_cfg) : dns_gen :=
  mkDnsGen (proxyMap g) (bootstrapList g) (seenUpstream g) (g_upstreams g) v (defaultUpstream g).
Definition set_defaultUpstream (g : dns_gen) (v : string) : dns_gen :=
  mkDnsGen (proxyMap g) (bootstrapList g) (seenUpstream g) (g_upstreams g) (rulesList g) v.

Definition add_dns_rule (g : dns_gen) (rule : ServiceDnsRule) : dns_gen :=
  if String.eqb (upstream_text rule) "" then g
  else
    let '(upstreamID, g) := note_upstream rule g in
    let domainStr := if String.eqb (dr_Domain rule) "" then dr_Domains rule else dr_Domain rule in
    let '(domains, suffixes) := split_domains domainStr in
    let ips := trimmed_items (Split_byte "," (dr_IP rule)) in
    let clientIPs := trimmed_items (Split_byte "," (dr_ClientIP rule)) in
    match domains, suffixes, clientIPs, ips with
    | [], [], [], [] => set_defaultUpstream g upstreamID
    | _, _, _, _ =>
      set_rulesList g (rulesList g ++
        [mkDnsRuleCfg
           (if String.eqb (dr_RuleID rule) "" then "rule-" +:+ dec (Z.of_nat (length (rulesList g))) else dr_RuleID rule)
           upstreamID (fill_string (dr_Action rule) "route") (fill_string (dr_Policy rule) "single") domains suffixes ips
           clientIPs (query_types rule)])%list
    end.

(** ** The nodes *)

Definition node_domains (hosts : list string) : list string :=
  Deduplicate (List.filter (fun host => nonempty host && negb (is_some (ParseIP host))) hosts).

(** A server given as an IP address, not one of the loopback interface, with a port. *)
Definition usable_server (s : string) : bool :=
  match SplitHostPort s with
  | Ok (host, _) => match ParseIP host with Some ip => negb (IsLoopback ip) | None => false end
  | Err _ => false
  end.

Definition node_upstream (bootstrapDns : list string) : string :=
  default "223.5.5.5:53"%string (List.find usable_server (directDnsServers ++ bootstrapDns)%list).

Definition add_node_rule (hosts bootstrapDns : list string) (g : dns_gen) : dns_gen :=
  match node_domains hosts with
  | [] => g
  | nodeDomains =>
    mkDnsGen (proxyMap g) (bootstrapList g) (seenUpstream g)
      (mkDnsUpstreamCfg "upstream-node" (node_upstream bootstrapDns) "udp" "direct" :: g_upstreams g)
      (mkDnsRuleCfg "rule-node" "upstream-node" "route" "single" [] nodeDomains [] [] None :: rulesList g)
      (defaultUpstream g)
  end.

(** ** The JSON object *)

Definition JStrs (l : list string) : json := JArr (map JStr l).

Definition json_of_upstream (u : dns_upstream_cfg) : json :=
  JObj [("id", JStr (duc_id u)); ("addr", JStr (duc_addr u)); ("protocol", JStr (duc_protocol u));
        ("proxy_tag", JStr (duc_proxy_tag u)); ("bootstrap", JBool false)]%string.

(** A nil slice is null, which the core reads as an empty list. *)
Definition json_of_rule (r : dns_rule_cfg) : json :=
  let nullable l := match l with [] => JNull | _ => JStrs l end in
  JObj (app [("id", JStr (drc_id r)); ("upstream", JStr (drc_upstream r)); ("action", JStr (drc_action r));
         ("policy", JStr (drc_policy r)); ("domain", nullable (drc_domain r));
         ("domain_suffix", nullable (drc_domain_suffix r)); ("ip", nullable (drc_ip r));
         ("client_ip", nullable (drc_client_ip r))]
        match drc_query_type r with Some l => [("query_type", nullable l)] | None => [] end)%string.

Definition or_default (n d : Z) : Z := if n <=? 0 then d else n.

Definition socks_port : Z := if 0 <? Socks5 stored_ports then Socks5 stored_ports else 20170.

Definition dns_bootstrap : list string := Deduplicate (getSystemDnsServers ++ directDnsServers)%list.

Definition dns_generated (hosts : list string) : dns_gen :=
  add_node_rule hosts dns_bootstrap (foldl add_dns_rule (mkDnsGen [] [] [] [] [] "") migrated_rules).

Definition generateDnsModuleConfig (setting : Setting) (hosts : list string) : json :=
  let g := dns_generated hosts in
  JObj
    [("listener", JObj [("listen_addr", JStr (dnsModuleListenAddr setting));
                        ("extra_listen_addrs", JStrs (dnsModuleExtraListenAddrs setting)); ("timeout", JNum 5)]);
     ("cache", JObj [("enabled", JBool (DnsCacheEnabled setting)); ("size", JNum (or_default (DnsCacheSize setting) 4096));
                     ("min_ttl", JNum (or_default (DnsCacheMinTTL setting) 60));
                     ("max_ttl", JNum (or_default (DnsCacheMaxTTL setting) 86400));
                     ("prefetch", JBool (DnsPrefetch setting)); ("neg_cache", JBool (DnsNegativeCache setting))]);
     ("proxy_map", JObj (map (fun tag => (tag, JStr ("127.0.0.1:" +:+ dec socks_port))) (proxyMap g)));
     ("bootstrap", JStrs (Deduplicate (bootstrapList g)));
     ("bootstrap_dns", JStrs dns_bootstrap);
     ("egress_interface", JStr (TunEgressInterfaceIfTun setting));
     ("upstreams", JArr (map json_of_upstream (g_upstreams g)));
     ("rules", JArr (map json_of_rule (rulesList g)));
     ("default_upstream", JStr (defaultUpstream g))]%string.

Definition setDNS (t : Template) (hosts : list string) : Template :=
  set_dns t (generateDnsModuleConfig (t_Setting t) hosts).

End Env.

(** ** The core's side: [json.Unmarshal] into [DnsModuleConfig] *)

Definition type_error : error := ExtErr "json: cannot unmarshal".

(** The value of a key, null when it is absent. *)
Fixpoint field (k : string) (fs : list (string * json)) : json :=
  match fs with
  | [] => JNull
  | (k', v) :: fs => if String.eqb k k' then v else field k fs
  end.

Definition as_object (j : json) : result (list (string * json)) :=
  match j with JObj fs => Ok fs | JNull => Ok [] | _ => Err type_error end.
Definition as_string (j : json) : result string :=
  match j with JStr s => Ok s | JNull => Ok EmptyString | _ => Err type_error end.
Definition as_int (j : json) : result Z := match j with JNum n => Ok n | JNull => Ok 0 | _ => Err type_error end.
Definition as_bool (j : json) : result bool := match j with JBool b => Ok b | JNull => Ok false | _ => Err type_error end.

Fixpoint map_result {A B} (f : A -> result B) (l : list A) : result (list B) :=
  match l with
  | [] => Ok []
  | x :: l => let? y := f x in let? ys := map_result f l in Ok (y :: ys)
  end.

Definition as_list {A} (f : json -> result A) (j : json) : result (list A) :=
  match j with JArr l => map_result f l | JNull => Ok [] | _ => Err type_error end.

Section Core.
(** The type names of the DNS library. *)
Variable StringToType : string -> option Z.

Definition QueryType_UnmarshalJSON (j : json) : result Z :=
  match j with
  | JStr name => match StringToType (ToUpper name) with
                 | Some qtype => Ok qtype
                 | None => Err (Errorf "dns: unknown query type %q" [FStr name])
                 end
  | JNum n => fail_if (n <? 0) || (65535 <? n) with Wrapf "dns: invalid query type: %w" [] type_error in Ok n
  | _ => Err (Wrapf "dns: invalid query type: %w" [] type_error)
  end.

Definition decode_listener (j : json) : result DnsListenerConfig :=
  let? fs := as_object j in
  let? addr := as_string (field "listen_addr" fs) in
  let? extra := as_list as_string (field "extra_listen_addrs" fs) in
  let? timeout := as_int (field "timeout" fs) in
  Ok (mkListenerConfig addr extra timeout).

Definition decode_cache (j : json) : result CacheConfig :=
  let? fs := as_object j in
  let? enabled := as_bool (field "enabled" fs) in
  let? size := as_int (field "size" fs) in
  let? min_ttl := as_int (field "min_ttl" fs) in
  let? max_ttl := as_int (field "max_ttl" fs) in
  let? prefetch := as_bool (field "prefetch" fs) in
  let? threshold := as_int (field "prefetch_threshold" fs) in
  let? neg := as_bool (field "neg_cache" fs) in
  Ok (mkCacheConfig enabled size min_ttl max_ttl prefetch threshold neg).

Definition decode_upstream (j : json) : result UpstreamConfig :=
  let? fs := as_object j in
  let? id := as_string (field "id" fs) in
  let? addr := as_string (field "addr" fs) in
  let? protocol := as_string (field "protocol" fs) in
  let? tag := as_string (field "proxy_tag" fs) in
  let? bootstrap := as_bool (field "bootstrap" fs) in
  let? name := as_string (field "server_name" fs) in
  Ok (mkUpstreamConfig id addr protocol tag bootstrap name).

Definition decode_rule (j : json) : result RuleConfig :=
  let? fs := as_object j in
  let? id := as_string (field "id" fs) in
  let? domain := as_list as_string (field "domain" fs) in
  let? suffix := as_list as_string (field "domain_suffix" fs) in
  let? regex := as_list as_string (field "domain_regex" fs) in
  let? ip := as_list as_string (field "ip" fs) in
  let? qtypes := as_list QueryType_UnmarshalJSON (field "query_type" fs) in
  let? client := as_list as_string (field "client_ip" fs) in
  let? upstream := as_string (field "upstream" fs) in
  let? action := as_string (field "action" fs) in
  let? policy := as_string (field "policy" fs) in
  Ok (mkRuleConfig id domain suffix regex ip qtypes client upstream action policy).

Definition decode_map (j : json) : result (gmap string string) :=
  let? fs := as_object j in
  let? kvs := map_result (fun kv => let? v := as_string (snd kv) in Ok (fst kv, v)) fs in
  Ok (foldl (fun m kv => <[kv.1 := kv.2]> m) ∅ kvs).

Definition decode_config (j : json) : result DnsModuleConfig :=
  let? fs := as_object j in
  let? listener := decode_listener (field "listener" fs) in
  let? cache := decode_cache (field "cache" fs) in
  let? upstreams := as_list decode_upstream (field "upstreams" fs) in
  let? rules := as_list decode_rule (field "rules" fs) in
  let? dflt := as_string (field "default_upstream" fs) in
  let? proxies := decode_map (field "proxy_map" fs) in
  let? boot := as_list as_string (field "bootstrap" fs) in
  let? boot_dns := as_list as_string (field "bootstrap_dns" fs) in
  let? egress := as_string (field "egress_interface" fs) in
  Ok (mkModuleConfig listener cache upstreams rules dflt proxies boot boot_dns egress).

(** What is still missing takes a default. *)
Definition apply_defaults (c : DnsModuleConfig) : DnsModuleConfig :=
  let l := mc_Listener c in
  let k := mc_Cache c in
  let positive n d := if n <=? 0 then d else n in
  mkModuleConfig
    (mkListenerConfig (if String.eqb (ListenAddr l) "" then "0.0.0.0:52353" else ListenAddr l) (ExtraListenAddrs l)
       (positive (Timeout l) 5))
    (mkCacheConfig (cfg_Enabled k) (positive (cfg_Size k) 4096) (positive (cfg_MinTTL k) 60) (positive (cfg_MaxTTL k) 86400)
       (cfg_Prefetch k) (cfg_PrefetchThreshold k) (cfg_NegativeCache k))
    (mc_Upstreams c) (mc_Rules c) (mc_DefaultUpstream c) (mc_ProxyMap c) (mc_Bootstrap c) (mc_BootstrapDns c)
    (mc_EgressInterface c).

(** [None]: the configuration has no DNS module. *)
Definition extractDnsModuleConfig (dns_module : option json) : result (option DnsModuleConfig) :=
  match dns_module with
  | None => Ok None
  | Some raw =>
    match decode_config raw with
    | Err err => Err (Wrapf "unmarshal dns_module config: %w" [] err)
    | Ok c => Ok (Some (apply_defaults c))
    end
  end.

End Core.
