(* ===== verification/Template.v ===== *)
(** * The template of the core's configuration (service/kernel/v2ray: template_core.go, template_outbound.go, template_inbound.go, template_api.go, template_validate.go, tun_core.go, tun_exclude.go)

    [NewTemplate]: outbounds for the connected nodes, inbounds for the ports, the
    API with its balancers, marks on sockets, the twins on the IPv6 loopback and
    the final checks, composed with the routing rules and the DNS module. *)

From stdpp Require Import gmap.
From S2P Require Import Prelude.
From S2P Require Import NetIP Text Iptables Store NodeRefs Configure Settings CoreConfig ServerData TemplateData Routing DnsTemplate.

#[local] Open Scope Z_scope.
#[local] Open Scope go_scope.

Section Template.
Context `{N : Nodes} `{MO : MapOrder} `{SE : ServiceEnv}.

(** ** Outbounds *)

Definition resolveEffectiveBackend (obj : ServerObj) (setting : Setting) : string :=
  match GetBackend obj with
  | None => ""
  | Some nodeBackend =>
    if negb (String.eqb nodeBackend "") then nodeBackend
    else if has (GetProtocol obj) ["shadowsocks"; "ss"]%string then SsBackend setting
    else if has (GetProtocol obj) ["trojan"; "trojan-go"]%string then TrojanBackend setting
    else ""
  end.

Record resolved := mkResolved {
  rs_infos : gmap string nat;
  rs_extra : list OutboundObject;
  rs_outbounds : list (Z * OutboundObject);
  rs_tags : list string;
  rs_udp : gmap string bool;
}.

Definition configure_node (obj : ServerObj) (tag : string) (pluginPort : Z) : result Configuration :=
  node_configuration obj
    (mkPriorInfo core_variant core_version tag pluginPort (resolveEffectiveBackend obj stored_settings)).

Definition is_group (sd : ServerData) (name : string) : bool :=
  (1 <? length (default [] (OutboundName2ServerObjs sd !! name)))%nat.

(** The uses of an object: outbounds of its own, and the groups it is in. *)
Fixpoint resolve_uses (sd : ServerData) (obj : ServerObj) (uses : list nat) (st : resolved) (balancers : list (string * nat))
    : result (resolved * list (string * nat)) :=
  match uses with
  | [] => Ok (st, balancers)
  | i :: uses =>
    match ServerInfos sd !! i with
    | None => resolve_uses sd obj uses st balancers
    | Some sInfo =>
      let tag := OutboundName sInfo in
      if is_group sd tag then resolve_uses sd obj uses st (balancers ++ [(tag, i)])%list
      else
        let? c := configure_node obj tag (PluginPort sInfo) in
        resolve_uses sd obj uses
          (mkResolved (<[tag := i]> (rs_infos st)) (rs_extra st ++ ExtraOutbounds c)%list
             (rs_outbounds st ++ [(Z.of_nat i, CoreOutbound c)])%list (<[i := tag]> (rs_tags st))
             (<[tag := UDPSupport c]> (rs_udp st))) balancers
    end
  end.

(** The least position of the uses by groups. *)
Definition least (l : list nat) : Z :=
  foldl (fun weight i => if (weight =? -1) || (Z.of_nat i <? weight) then Z.of_nat i else weight) (-1) l.

(** A group supports UDP when all its members do. *)
Definition note_udp (supported : bool) (m : gmap string bool) (name : string) : gmap string bool :=
  <[name := default supported (m !! name) && supported]> m.

(** One outbound serves all groups of the object. *)
Definition resolve_balancers (obj : ServerObj) (balancers : list (string * nat)) (st : resolved) : result resolved :=
  match balancers with
  | [] => Ok st
  | (_, first) :: _ =>
    let tag := GroupWrapper (GetName obj) in
    let? c := configure_node obj tag 0 in
    let names := (Balancers (CoreOutbound c) ++ map fst balancers)%list in
    Ok (mkResolved (<[tag := first]> (rs_infos st)) (rs_extra st ++ ExtraOutbounds c)%list
          (rs_outbounds st ++ [(least (map snd balancers), set_balancers (CoreOutbound c) names)])%list
          (foldl (fun tags i => <[i := tag]> tags) (rs_tags st) (map snd balancers))
          (foldl (note_udp (UDPSupport c)) (rs_udp st) names))
  end.

Fixpoint resolve_objects (sd : ServerData) (objs : list (ServerObj * list nat)) (st : resolved) : result resolved :=
  match objs with
  | [] => Ok st
  | (obj, uses) :: objs =>
    let? (st, balancers) := resolve_uses sd obj uses st [] in
    let? st := resolve_balancers obj balancers st in
    resolve_objects sd objs st
  end.

(** A group that is filled automatically or keeps its node stays routable while it
    has no member: its traffic is blocked. *)
Definition block_group (sd : ServerData) (os : list OutboundObject) (name : string) : list OutboundObject :=
  let s := stored_outbound_setting name in
  match OutboundName2ServerObjs sd !! name with
  | Some (_ :: _) => os
  | _ =>
    if AutoAdd s || String.eqb (os_Type s) KeepCurrent then
      if String.eqb name DefaultOutboundName then outbound name "blackhole" :: os
      else (os ++ [outbound name "blackhole"])%list
    else os
  end.

Definition by_weight (a b : Z * OutboundObject) : bool := fst a <? fst b.

Definition resolveOutbounds (t : Template) (sd : ServerData) : result (gmap string bool * Template) :=
  let? st := resolve_objects sd (ServerObj2ServerInfos sd)
               (mkResolved ∅ [] [] (replicate (length (ServerInfos sd)) EmptyString) ∅) in
  let os := (Outbounds t ++ map snd (sort_by by_weight (rs_outbounds st)))%list in
  let os := foldl (block_group sd) os stored_outbounds in
  let os := (os ++ [outbound "direct" "freedom"; outbound "block" "blackhole"] ++ rs_extra st)%list in
  Ok (rs_udp st, set_tags (set_outbounds t os) (rs_tags st) (rs_infos st)).

(** ** Marks *)

Definition checkAndSetMark (setting : Setting) (mark : Z) (o : OutboundObject) : OutboundObject :=
  if negb (transparent_on env_lite setting) then o
  else
    let stream := default new_StreamSettings (out_StreamSettings o) in
    let sockopt := set_mark (default new_Sockopt (ss_Sockopt stream)) (Some mark) in
    let iface := TunEgressInterfaceIfTun setting in
    let sockopt := if String.eqb iface "" then sockopt else set_interface sockopt iface in
    set_out_stream o (Some (set_sockopt stream (Some sockopt))).

Definition outbound_sockopt (setting : Setting) (o : OutboundObject) : OutboundObject :=
  if has (out_Protocol o) ["blackhole"; "dns"]%string then o
  else
    let stream := default new_StreamSettings (out_StreamSettings o) in
    let sockopt := default new_Sockopt (ss_Sockopt stream) in
    let sockopt := if String.eqb (TcpFastOpen setting) Default then sockopt
                   else set_fast_open sockopt (Some (String.eqb (TcpFastOpen setting) Yes)) in
    let o := set_out_stream o (Some (set_sockopt stream (Some sockopt))) in
    let o := if String.eqb (out_Protocol o) "freedom" && String.eqb (out_Tag o) "direct"
             then set_out_settings o (set_domain_strategy (out_Settings o) "UseIP") else o in
    let o := if String.eqb (MuxOn setting) Yes && String.eqb (out_Protocol o) "vmess" && negb (is_some (out_Mux o))
             then set_out_mux o (Some (mkMuxConfig true (Mux setting))) else o in
    checkAndSetMark setting 128 o.

Definition SetOutboundSockopt (t : Template) : Template :=
  set_outbounds t (map (outbound_sockopt (t_Setting t)) (Outbounds t)).

(** ** The tunnel's inbound *)

Fixpoint dedupe_from (seen values : list string) : list string :=
  match values with
  | [] => []
  | value :: values =>
    if String.eqb value "" || has value seen then dedupe_from seen values
    else value :: dedupe_from (value :: seen) values
  end.

Definition dedupeStrings (values : list string) : list string := dedupe_from [] values.

(** [filepath.Base] for slashes. *)
Definition last_element (path : string) : string := default EmptyString (last (Split_byte "/" path)).

Fixpoint trim_slashes (s : string) : string :=
  match s with
  | EmptyString => EmptyString
  | String a s' => match trim_slashes s' with
                   | EmptyString => if Ascii.eqb a "/" then EmptyString else String a EmptyString
                   | r => String a r
                   end
  end.

Definition filepath_Base (path : string) : string :=
  if String.eqb path "" then "."
  else let p := trim_slashes path in if String.eqb p "" then "/" else last_element p.

Definition process_separator (a : Ascii.ascii) : bool :=
  existsb (Nat.eqb (Ascii.nat_of_ascii a)) [44; 10; 13; 59; 9]%nat.

Definition base_name (p : string) : string :=
  let base := filepath_Base p in if String.eqb base "" || String.eqb base "." then p else base.

Definition parseCustomExcludeProcesses (raw : string) : list string :=
  dedupeStrings (map base_name (trimmed_items (split_on process_separator raw))).

Definition named_binary (path : option string) : list string :=
  match path with
  | Some p => let name := filepath_Base p in if String.eqb name "" || String.eqb name "." then [] else [name]
  | None => []
  end.

Definition collectExcludeProcesses (customRaw : string) : list string :=
  dedupeStrings (named_binary own_executable ++ named_binary core_binary ++ parseCustomExcludeProcesses customRaw)%list.

Definition tunDnsTarget (setting : Setting) : string :=
  match SplitHostPort (dnsModuleListenAddr setting) with
  | Err _ => "127.0.0.1:52353"
  | Ok (host, port) =>
    let host := match ParseIP host with
                | Some ip => if IsUnspecified ip then "127.0.0.1"%string else host
                | None => "127.0.0.1"%string
                end in
    JoinHostPort host port
  end.

Definition tunInboundSettings (setting : Setting) : InboundSettings :=
  mkInboundSettings "" false [] [] "" "" 0 "" 0 false tun_device 1500 "10.0.85.2/30"
    (if ipv6_supported then "fdfe:dcba:9876::2/126" else "") (tunDnsTarget setting)
    (collectExcludeProcesses (TunExcludeProcesses setting)) [own_pid] "direct".

(** ** Inbounds *)

Definition sniff_off : Sniffing := mkSniffing false ["http"; "tls"]%string false [] false.

(** [TemplateJson] *)
Definition socks_settings : InboundSettings :=
  mkInboundSettings "noauth" true [] [] "" "" 0 "" 0 false "" 0 "" "" "" [] [] "".

Definition template_inbounds : list Inbound :=
  [mkInbound 20170 "socks" "0.0.0.0" sniff_off (Some socks_settings) None "socks";
   mkInbound 20171 "http" "0.0.0.0" sniff_off None None "http";
   mkInbound 0 "socks" "0.0.0.0" sniff_off (Some socks_settings) None "rule-socks";
   mkInbound 20172 "http" "0.0.0.0" sniff_off None None "rule-http";
   mkInbound 0 "vmess" "0.0.0.0" new_Sniffing (Some (set_clients new_InboundSettings [mkVlessClient "" 0 ""])) None "vmess"].

(** Accounts in the order of their names, then of their passwords. *)
Definition account_before (a b : string * string) : bool :=
  if String.eqb (fst a) (fst b) then String.ltb (snd a) (snd b) else String.ltb (fst a) (fst b).

Definition GenerateIdFromAccounts : result string :=
  let? accounts := stored_accounts in Ok (accounts_uuid (sort_by account_before accounts)).

Definition SetVmessInbound (vmess : Inbound) : result Inbound :=
  let? id := GenerateIdFromAccounts in
  Ok (set_in_settings vmess ((fun s => set_clients s [mkVlessClient id 0 ""]) <$> in_Settings vmess)).

Definition sharing_address (setting : Setting) : string := if PortSharing setting then "0.0.0.0" else "127.0.0.1".

(** The five inbounds of the template at the stored ports; those without a port go. *)
Definition port_inbounds (setting : Setting) (ins : list Inbound) : result (list Inbound) :=
  let p := stored_ports in
  let listen i := set_in_listen i (sharing_address setting) in
  match ins with
  | [a; b; c; d; vmess] =>
    let vmess := set_in_port (listen vmess) (Vmess p) in
    let? vmess := (if 0 <? Vmess p then SetVmessInbound vmess else Ok vmess) in
    Ok (List.filter (fun i => negb (in_Port i =? 0))
          [set_in_port (listen a) (Socks5 p); set_in_port (listen b) (Http p); set_in_port (listen c) (Socks5WithPac p);
           set_in_port (listen d) (HttpWithPac p); vmess])
  | _ => Ok ins
  end.

Definition custom_inbound (setting : Setting) (ci : CustomInbound) : Inbound :=
  let settings := if String.eqb (ci_Protocol ci) "socks"
                  then Some (mkInboundSettings "" true [] [] "" "" 0 "" 0 false "" 0 "" "" "" [] [] "") else None in
  let settings :=
    if negb (String.eqb (ci_Username ci) "") || negb (String.eqb (ci_Password ci) "") then
      let s := default new_InboundSettings settings in
      Some (mkInboundSettings "password" (is_UDP s) [mkAccount (ci_Username ci) (ci_Password ci)] [] "" "" 0 "" 0 false "" 0
              "" "" "" [] [] "")
    else settings in
  mkInbound (ci_Port ci) (ci_Protocol ci) (sharing_address setting) new_Sniffing settings None (ci_Tag ci).

(** The rules of a custom inbound; RoutingA that cannot be read is dropped. *)
Definition custom_rules (ci : CustomInbound) : list RoutingRule :=
  if String.eqb (ci_Outbound ci) "" || String.eqb (ci_OutboundType ci) "" then []
  else if String.eqb (ci_OutboundType ci) "direct" then [rule_to (ci_Outbound ci) [ci_Tag ci]]
  else if String.eqb (ci_OutboundType ci) "routingA" then
    if String.eqb (ci_RoutingARules ci) "" then []
    else match parseRoutingARules (ci_RoutingARules ci) (ci_Tag ci) with Ok rules => rules | Err _ => [] end
  else [].

Definition usable_custom (ci : CustomInbound) : bool :=
  negb (ci_Port ci <=? 0) && has (ci_Protocol ci) ["socks"; "http"]%string.

Definition add_custom (t : Template) (ci : CustomInbound) : Template :=
  if usable_custom ci
  then add_rules (add_inbounds t [custom_inbound (t_Setting t) ci]) (custom_rules ci) else t.

Definition AppendDokodemoTProxy (t : Template) (tproxy : string) (port : Z) (tag : string) : Template :=
  add_inbounds t
    [mkInbound port "dokodemo-door" "127.0.0.1" (mkSniffing true ["http"; "tls"]%string false [] false)
       (Some (mkInboundSettings "" false [] [] "" "tcp,udp" 0 "" 0 true "" 0 "" "" "" [] [] ""))
       (Some (set_sockopt new_StreamSettings (Some (mkSockopt None "" None None (Some tproxy))))) tag].

Definition transparent_inbounds (t : Template) : Template :=
  let ty := TransparentType (t_Setting t) in
  if negb (transparent_on env_lite (t_Setting t)) then t
  else if has ty [TransparentTproxy; TransparentRedirect] then AppendDokodemoTProxy t ty 52345 "transparent"
  else if String.eqb ty TransparentSystemProxy then
    add_inbounds t
      [mkInbound 52345 "http" "127.0.0.1" new_Sniffing None None "transparent";
       mkInbound 52306 "socks" "127.0.0.1" new_Sniffing
         (Some (mkInboundSettings "" true [] [] "" "" 0 "" 0 false "" 0 "" "" "" [] [] "")) None "transparent-socks"]
  else if String.eqb ty TransparentTun then
    add_inbounds t [mkInbound 0 "tun-mips" "" new_Sniffing (Some (tunInboundSettings (t_Setting t))) None "transparent"]
  else t.

Definition splitNonEmptyLines (text : string) : list string := trimmed_items (lines text).

Definition sniff (setting : Setting) (i : Inbound) : Inbound :=
  set_in_sniffing i
    (mkSniffing true
       (if String.eqb (InboundSniffing setting) InboundSniffingHttpTLS then ["http"; "tls"]%string else ["http"; "tls"; "quic"]%string)
       (MetadataOnly (in_Sniffing i)) (splitNonEmptyLines stored_domains_excluded) (RouteOnly stored_settings)).

Definition setInbound (t : Template) (setting : Setting) : result Template :=
  let? ins := port_inbounds (t_Setting t) (Inbounds t) in
  let t := set_inbounds t ins in
  let t := foldl add_custom t stored_inbounds in
  let t := transparent_inbounds t in
  Ok (if String.eqb (InboundSniffing setting) InboundSniffingDisable || String.eqb (InboundSniffing setting) "" then t
      else set_inbounds t (map (sniff setting) (Inbounds t))).

(** ** The API *)

Definition zero_setting : OutboundSetting := mkOutboundSetting false "" "" "" "" "".

(** The balancer of a group and, for the strategies that measure, its observer. *)
Definition observe_group (sd : ServerData) (t : Template) (group : string) : Template :=
  let s := default zero_setting (OutboundName2Setting sd !! group) in
  let interval := match parse_duration (ProbeInterval s) with Ok d => d | Err _ => 10 * Second end in
  let selector := map (fun vi => GroupWrapper (GetName vi)) (default [] (OutboundName2ServerObjs sd !! group)) in
  let balancers := (t_Balancers t ++
    [mkBalancer group selector (mkBalancerStrategy (os_Type s) (Some (mkStrategySettings group))) "block"])%list in
  let observers := match t_MultiObservatory t with Some m => Observers m | None => [] end in
  if has (ToLower (os_Type s)) ["leastping"; "random"; "roundrobin"]%string then
    let probeUrl := if is_some (url_hostname (ProbeURL s)) then ProbeURL s else "https://gstatic.com/generate_204"%string in
    let text := duration_string interval in
    set_observation t balancers (Some (mkMultiObservatory (observers ++
      [mkObservatoryItem group (mkObservatory selector (Some (mkPingConfig probeUrl "" text 0 "" "")) probeUrl text)])%list))
  else set_observation t balancers (t_MultiObservatory t).

Definition group_names (site : string) (t : Template) : list string :=
  List.filter (fun name => default false (outNames t !! name)) (range_keys site (outNames t)).

Definition api_inbound (port : Z) : Inbound :=
  mkInbound port "dokodemo-door" "127.0.0.1" new_Sniffing
    (Some (mkInboundSettings "" false [] [] "" "" 0 "127.0.0.1" 0 false "" 0 "" "" "" [] [] "")) None "api-in".

Definition SetAPI (t : Template) (sd : option ServerData) : Template :=
  let port := if ap_Port (Api stored_ports) =? 0 then free_port else ap_Port (Api stored_ports) in
  let services := slicex_Uniq (["LoggerService"; "StatsService"]%string ++ ap_Services (Api stored_ports))%list in
  let t := match sd with
           | None => t
           | Some sd => foldl (observe_group sd) t (group_names "observe" t)
           end in
  let closes := if is_some sd && is_some (t_MultiObservatory t) && String.eqb (Variant t) "V2rayaCore"
                then (ApiCloses t ++ [ObservatoryProducer port (group_names "tags" t)])%list else ApiCloses t in
  let t := set_api t (mkAPIObject "api-out" services) port (closes ++ [TrafficProducer port])%list in
  add_rules (add_inbounds t [api_inbound port]) [rule_to "api-out" ["api-in"]%string].

(** ** Twins on the IPv6 loopback *)

Definition needs_twin (setting : Setting) (i : Inbound) : bool :=
  negb (String.eqb (in_Tag i) "transparent" && String.eqb (TransparentType setting) TransparentRedirect) &&
  negb (String.eqb (in_Tag i) "dns-in") && negb (String.eqb (in_Protocol i) "tun-mips") && HasPrefix (in_Listen i) "127.".

Definition add_suffix (tag suffix : string) : string := if String.eqb tag "" then "" else tag +:+ suffix.

Definition name_v4 (setting : Setting) (i : Inbound) : Inbound :=
  if needs_twin setting i then set_in_tag i (add_suffix (in_Tag i) "_ipv4") else i.

Definition twin (i : Inbound) : Inbound := set_in_tag (set_in_listen i "::1") (add_suffix (in_Tag i) "_ipv6").

Definition twin_rule (tagMap : list string) (r : RoutingRule) : RoutingRule :=
  let tags := map (fun tag => if has tag tagMap then tag +:+ "_ipv4" else tag) (rr_InboundTag r) in
  let tag6 := map (fun tag => tag +:+ "_ipv6") (List.filter (fun tag => has tag tagMap) (rr_InboundTag r)) in
  set_inbound_tags r (if ipv6_supported then tags ++ tag6 else tags)%list.

(** The first inbound [dns-in] and what becomes of it. *)
Fixpoint dns_in_listen (ins : list Inbound) : list Inbound :=
  match ins with
  | [] => []
  | i :: ins => if String.eqb (in_Tag i) "dns-in" then set_in_listen i "127.2.0.17" :: ins else i :: dns_in_listen ins
  end.

Definition local_dns_rule (r : RoutingRule) : RoutingRule :=
  if has "dns-in" (rr_InboundTag r) then set_inbound_tags r (rr_InboundTag r ++ ["dns-in-local"%string])%list else r.

Definition dns_in_local (t : Template) : Template :=
  match List.find (fun i => String.eqb (in_Tag i) "dns-in") (Inbounds t) with
  | None => t
  | Some i =>
    if negb (PortSharing (t_Setting t)) || (fst could_listen && is_some (snd could_listen))
    then set_inbounds t (dns_in_listen (Inbounds t))
    else map_rules (add_inbounds t [set_in_tag (set_in_listen i "127.2.0.17") "dns-in-local"]) local_dns_rule
  end.

Definition twin_tags (setting : Setting) (ins : list Inbound) : list string :=
  List.filter nonempty (map in_Tag (List.filter (needs_twin setting) ins)).

Definition setDualStack (t : Template) : Template :=
  let setting := t_Setting t in
  let ins := Inbounds t in
  let twins := map twin (List.filter (needs_twin setting) ins) in
  let ins4 := map (name_v4 setting) ins in
  let t := set_inbounds t (if ipv6_supported then ins4 ++ twins else ins4)%list in
  dns_in_local (map_rules t (twin_rule (twin_tags setting ins))).

(** ** Checks *)

Fixpoint first_repeated (seen l : list string) : option string :=
  match l with
  | [] => None
  | x :: l => if has x seen then Some x else first_repeated (x :: seen) l
  end.

Definition checkDuplicatedTags (t : Template) : result unit :=
  match first_repeated [] (map in_Tag (Inbounds t)) with
  | Some tag => Err (Errorf "duplicated inbound tag: %v" [FStr tag])
  | None =>
    match first_repeated [] (map out_Tag (Outbounds t)) with
    | Some tag => Err (Errorf "duplicated outbound tag: %v" [FStr tag])
    | None => Ok tt
    end
  end.

Definition socket_of (i : Inbound) : string :=
  JoinHostPort (if String.eqb (in_Listen i) "" then "0.0.0.0" else in_Listen i) (dec (in_Port i)).

Definition checkDuplicatedInboundSockets (t : Template) : result unit :=
  match first_repeated [] (map socket_of (Inbounds t)) with
  | Some socket => Err (Errorf "duplicated inbound listening address: %v" [FStr socket])
  | None => Ok tt
  end.

(** What [CheckInboundPortsOccupied] asks for. *)
Definition occupied_syntax (i : Inbound) : option string :=
  let port := dec (in_Port i) in
  let p := ToLower (in_Protocol i) in
  if has p ["http"; "vmess"; "vless"; "trojan"]%string then Some (port +:+ ":tcp")
  else if String.eqb p "dokodemo-door" then
    if HasPrefix (in_Tag i) "dns-in" then None
    else match in_Settings i with
         | Some s => if String.eqb (is_Network s) "" then Some (port +:+ ":tcp,udp") else Some (port +:+ ":" +:+ is_Network s)
         | None => Some (port +:+ ":tcp,udp")
         end
  else Some (port +:+ ":tcp,udp").

Definition CheckInboundPortsOccupied (port_occupied : list string -> option error) (t : Template) : option error :=
  port_occupied (omap occupied_syntax (Inbounds t)).

(** ** The template *)

Definition log_config (level : string) : option Log :=
  let level := ToLower level in
  if has level ["trace"; "debug"]%string then Some (mkLog "" "" "debug")
  else if String.eqb level "info" then Some (mkLog "" "none" "info")
  else if has level ["warn"; "warning"]%string then Some (mkLog "none" "" "warning")
  else if String.eqb level "error" then Some (mkLog "none" "" "error")
  else None.

(** The settings to use: those given, filled up from the stored ones. *)
Definition effective_setting (setting : option Setting) : Setting :=
  match setting with Some s => FillEmpty s stored_settings | None => stored_settings end.

Definition initial_template (setting : Setting) : Template :=
  mkTemplate (log_config (if String.eqb (LogLevel setting) "" then env_LogLevel else LogLevel setting)) template_inbounds []
    "IPOnDemand" "" [] [] None None false false None core_variant core_version [] [] 0 setting ∅.

Definition node_address (info : serverInfo) : string * string :=
  (GetHostname (Info info), if GetPort (Info info) =? 0 then EmptyString else dec (GetPort (Info info))).

Definition spare_rule : RoutingRule := set_port (rule_to "proxy" []) "0-65535".

(** The steps between the inbounds and the checks. *)
Definition route_template (sd : ServerData) (serverInfos : list serverInfo) (t : Template) : result Template :=
  let t := set_strategy t (DomainStrategy t) "mph" in
  let? t := setRulePortRouting t in
  let? t := (if transparent_on env_lite (t_Setting t) then setTransparentRouting t else Ok t) in
  let t := setVmessInboundRouting t in
  let t := SetAPI t (Some sd) in
  let t := setWhitelistRouting t (map node_address serverInfos) in
  let t := updatePrivateRouting t in
  let t := add_rules t [spare_rule] in
  let t := setGroupRouting t in
  Ok (optimizeGeoipMemoryOccupation t).

Definition NewTemplate (serverInfos : list serverInfo) (setting : option Setting) : result Template :=
  let sd := NewServerData stored_outbound_setting serverInfos in
  let setting := effective_setting setting in
  let? (_, t) := resolveOutbounds (initial_template setting) sd in
  let? t := setInbound t setting in
  let t := setDNS t (map (fun info => GetHostname (Info info)) serverInfos) in
  let? t := route_template sd serverInfos t in
  let t := SetOutboundSockopt t in
  let t := setDualStack t in
  let? _ := checkDuplicatedTags t in
  let? _ := checkDuplicatedInboundSockets t in
  Ok t.

Definition NewEmptyTemplate (setting : option Setting) : Template :=
  mkTemplate None [] [] "" "" [] [] None None false false None core_variant core_version [] [] 0 (effective_setting setting) ∅.

(** A node behind a port of its own, for a measurement.  The template that a
    failure leaves has the outbounds already. *)
Definition InsertMappingOutbound (t : Template) (o : ServerObj) (inboundPort : string) (udpSupport : bool) (pluginPort : Z)
    (protocol : string) : Template * option error :=
  let t := if String.eqb (CoreVersion t) "" then set_core t core_variant core_version else t in
  let info := mkPriorInfo (Variant t) (CoreVersion t) ("outbound" +:+ inboundPort) pluginPort
                (resolveEffectiveBackend o stored_settings) in
  match node_configuration o info with
  | Err err => (t, Some err)
  | Ok c =>
    let t := add_outbounds t (checkAndSetMark (t_Setting t) 128 (CoreOutbound c) :: ExtraOutbounds c) in
    let iPort := default 0 (Atoi inboundPort) in
    if iPort <=? 0 then (t, Some (Errorf "port of inbound must be a positive number with string type" []))
    else
      let t := add_inbounds t
        [mkInbound iPort (fill_string protocol "socks") "0.0.0.0" sniff_off
           (Some (mkInboundSettings "noauth" udpSupport [] [] "" "" 0 "" 0 false "" 0 "" "" "" [] [] "")) None
           ("inbound" +:+ inboundPort)] in
      let t := if String.eqb (DomainStrategy t) "" then set_strategy t "IPOnDemand" (DomainMatcher t) else t in
      (set_rules t (rule_to ("outbound" +:+ inboundPort) ["inbound" +:+ inboundPort] :: Rules t), None)
  end.

End Template.
