(* ===== verification/TemplateProps.v ===== *)
(** * What a generated template guarantees

    Frames of the steps of [NewTemplate], and the properties of the template they
    make: marked sockets, blocked groups, rules that lead somewhere. *)

From stdpp Require Import gmap.
From S2P Require Import Prelude.
From S2P Require Import NetIP Text Iptables Store NodeRefs Configure Settings CoreConfig ServerData TemplateData Routing DnsTemplate Template.

#[local] Open Scope Z_scope.
#[local] Open Scope go_scope.

(** Take apart a chain of [let?] that succeeded. *)
Ltac ok_steps :=
  repeat match goal with
  | H : (match ?e with Ok _ => _ | Err _ => _ end) = Ok _ |- _ => destruct e eqn:?; [|discriminate H]
  | H : (let '(_, _) := ?p in _) = Ok _ |- _ => destruct p
  | H : (if ?b then Err _ else _) = Ok _ |- _ => destruct b eqn:?; [discriminate H|]
  | H : Err _ = Ok _ |- _ => discriminate H
  | H : Ok _ = Ok _ |- _ => injection H as H
  end.

Lemma has_spec x l : has x l = true <-> x ∈ l.
Proof.
  unfold has. rewrite existsb_exists. setoid_rewrite String.eqb_eq. split.
  - intros (y & Hy & ->). by apply list_elem_of_In.
  - intros H. exists x. by rewrite <-list_elem_of_In.
Qed.

Lemma has_false x l : has x l = false <-> x ∉ l.
Proof. rewrite <-has_spec. by destruct (has x l). Qed.

Section Frames.
Context `{OB : ServerObjs} `{N : !Nodes} `{MO : MapOrder} `{SE : ServiceEnv}.

(** ** Frames *)

(** The outbounds that RoutingA defines. *)
Definition routingA_outbounds (setting : Setting) : list OutboundObject :=
  if String.eqb (RulePortMode setting) RoutingAMode
  then match RoutingA_Parse (routingA_text GetRoutingA) with Ok rules => defined_outbounds rules | Err _ => [] end
  else [].

Lemma mode_not_routingA m t ins t' : m <> RoutingAMode -> AppendRoutingRuleByMode t m ins = Ok t' ->
  exists rs, t' = add_rules t rs.
Proof.
  intros Hm. unfold AppendRoutingRuleByMode. destruct (String.eqb m WhitelistMode); [|destruct (String.eqb m GfwlistMode)].
  1-2: intros [= <-]; eexists; unfold add_rules; cbn; by rewrite <-app_assoc.
  destruct (String.eqb_spec m RoutingAMode); [done|]. intros [= <-]. by eexists.
Qed.

Lemma parseRoutingA_frame t ins t' : parseRoutingA t ins = Ok t' ->
  exists rules rs, RoutingA_Parse (routingA_text GetRoutingA) = Ok rules /\
    t' = add_rules (add_outbounds t (defined_outbounds rules)) rs.
Proof.
  unfold parseRoutingA. intros H. ok_steps. subst. eexists _, _. split; [done|]. reflexivity.
Qed.

(** The rule port adds rules, and in the mode RoutingA the outbounds it defines. *)
Lemma rule_port_frame t t' : setRulePortRouting t = Ok t' ->
  exists rs, t' = add_rules (add_outbounds t (routingA_outbounds (t_Setting t))) rs.
Proof.
  unfold setRulePortRouting, routingA_outbounds. destruct (String.eqb_spec (RulePortMode (t_Setting t)) RoutingAMode) as [E|E].
  - unfold AppendRoutingRuleByMode. rewrite E. cbn [String.eqb]. intros H. apply parseRoutingA_frame in H as (rules & rs & -> & ->).
    eexists. unfold add_rules, add_outbounds. cbn. rewrite <-app_assoc. reflexivity.
  - intros H. apply mode_not_routingA in H as [rs ->]; [|done]. exists rs. unfold add_rules, add_outbounds. cbn.
    rewrite app_nil_r. by destruct t.
Qed.

(** The transparent inbound adds rules or changes the inbounds of the rules. *)
Lemma transparent_frame t t' : setTransparentRouting t = Ok t' -> exists rs, t' = set_rules t rs.
Proof.
  unfold setTransparentRouting.
  destruct (String.eqb _ TransparentProxy); [intros [= <-]; by eexists|].
  destruct (String.eqb _ TransparentWhitelist).
  { intros H. apply mode_not_routingA in H as [rs ->]; [|done]. by eexists. }
  destruct (String.eqb _ TransparentGfwlist).
  { intros H. apply mode_not_routingA in H as [rs ->]; [|done]. by eexists. }
  destruct (String.eqb _ TransparentFollowRule); intros [= <-]; [by eexists|]. exists (Rules t). by destruct t.
Qed.

Lemma maybe_transparent_frame (b : bool) t t' : (if b then setTransparentRouting t else Ok t) = Ok t' ->
  exists rs, t' = set_rules t rs.
Proof. destruct b; [apply transparent_frame|]. intros [= <-]. exists (Rules t). by destruct t. Qed.

Lemma vmess_frame t : exists rs, setVmessInboundRouting t = set_rules t rs.
Proof. unfold setVmessInboundRouting. destruct (_ <=? 0); [exists (Rules t); by destruct t|by eexists]. Qed.

Lemma private_frame t : exists rs, updatePrivateRouting t = set_rules t rs.
Proof. unfold updatePrivateRouting. destruct local_cidrs; [exists (Rules t); by destruct t|by eexists]. Qed.

Lemma geoip_frame t : exists rs, optimizeGeoipMemoryOccupation t = set_rules t rs.
Proof. unfold optimizeGeoipMemoryOccupation. destruct (asset _); [by eexists|exists (Rules t); by destruct t]. Qed.

Lemma observe_frame sd gs t : exists bs m, foldl (observe_group sd) t gs = set_observation t bs m.
Proof.
  revert t. induction gs as [|g gs IH]; intros t; cbn [foldl].
  - exists (t_Balancers t), (t_MultiObservatory t). by destruct t.
  - assert (H : exists bs m, observe_group sd t g = set_observation t bs m).
    { unfold observe_group. destruct (has _ _); by eexists _, _. }
    destruct H as (bs & m & ->). destruct (IH (set_observation t bs m)) as (bs' & m' & ->). by exists bs', m'.
Qed.

(** Everything but the parts that [SetAPI] fills in. *)
Lemma api_outbounds t sd : Outbounds (SetAPI t sd) = Outbounds t /\ t_Setting (SetAPI t sd) = t_Setting t.
Proof.
  unfold SetAPI. destruct sd as [sd|]; [|done]. destruct (observe_frame sd (group_names "observe" t) t) as (bs & m & ->). done.
Qed.

Lemma route_outbounds sd infos t t' : route_template sd infos t = Ok t' ->
  Outbounds t' = (Outbounds t ++ routingA_outbounds (t_Setting t))%list /\ t_Setting t' = t_Setting t.
Proof.
  unfold route_template. intros H. ok_steps. subst t'.
  match goal with H : setRulePortRouting _ = Ok _ |- _ => apply rule_port_frame in H as [rs ->] end.
  match goal with H : (if _ then _ else _) = Ok _ |- _ => apply maybe_transparent_frame in H as [rs' ->] end.
  set (t1 := set_rules _ rs'). destruct (vmess_frame t1) as [rs2 ->]. set (t2 := set_rules t1 rs2).
  destruct (api_outbounds t2 (Some sd)) as [Ha Hs].
  destruct (private_frame (setWhitelistRouting (SetAPI t2 (Some sd)) (map node_address infos))) as [rs3 ->].
  set (t3 := setGroupRouting _). destruct (geoip_frame t3) as [rs4 ->].
  unfold t3, setGroupRouting, setWhitelistRouting, map_rules, add_rules. cbn [Outbounds t_Setting set_rules].
  rewrite Ha, Hs. by cbn.
Qed.

Lemma custom_frame t ci : exists ins rs, add_custom t ci = set_rules (set_inbounds t ins) rs.
Proof. unfold add_custom. destruct (usable_custom ci); [by eexists _, _|exists (Inbounds t), (Rules t); by destruct t]. Qed.

Lemma customs_frame cis t : exists ins rs, foldl add_custom t cis = set_rules (set_inbounds t ins) rs.
Proof.
  revert t. induction cis as [|ci cis IH]; intros t; cbn [foldl]; [exists (Inbounds t), (Rules t); by destruct t|].
  destruct (custom_frame t ci) as (ins & rs & ->). destruct (IH (set_rules (set_inbounds t ins) rs)) as (ins' & rs' & ->).
  by exists ins', rs'.
Qed.

Lemma transparent_inbounds_frame t : exists ins, transparent_inbounds t = set_inbounds t ins.
Proof.
  unfold transparent_inbounds, AppendDokodemoTProxy. repeat case_match; try (by eexists); exists (Inbounds t); by destruct t.
Qed.

Lemma inbound_frame t s t' : setInbound t s = Ok t' -> exists ins rs, t' = set_rules (set_inbounds t ins) rs.
Proof.
  unfold setInbound. destruct (port_inbounds _ _) as [l|]; [|done]. intros [= <-].
  destruct (customs_frame stored_inbounds (set_inbounds t l)) as (ins & rs & ->).
  destruct (transparent_inbounds_frame (set_rules (set_inbounds (set_inbounds t l) ins) rs)) as [ins' ->].
  destruct (_ || _); by eexists _, _.
Qed.

Lemma resolve_frame t sd udp t' : resolveOutbounds t sd = Ok (udp, t') ->
  exists os tags infos, t' = set_tags (set_outbounds t os) tags infos.
Proof. unfold resolveOutbounds. intros H. ok_steps. subst. by eexists _, _, _. Qed.

Lemma dns_in_frame t : exists ins rs, dns_in_local t = set_rules (set_inbounds t ins) rs.
Proof.
  unfold dns_in_local. destruct (List.find _ _); [|exists (Inbounds t), (Rules t); by destruct t].
  destruct (_ || _); [exists (dns_in_listen (Inbounds t)), (Rules t); by destruct t|by eexists _, _].
Qed.

Lemma dual_frame t : exists ins rs, setDualStack t = set_rules (set_inbounds t ins) rs.
Proof.
  unfold setDualStack. match goal with |- context [dns_in_local ?u] => destruct (dns_in_frame u) as (ins & rs & ->) end.
  by eexists _, _.
Qed.

(** ** The steps of a template that is made *)

Record made (infos : list serverInfo) (setting : option Setting) (t : Template) := {
  md_udp : gmap string bool;
  md_resolved : Template;
  md_inbounds : Template;
  md_routed : Template;
  md_1 : resolveOutbounds (initial_template (effective_setting setting)) (NewServerData stored_outbound_setting infos) =
         Ok (md_udp, md_resolved);
  md_2 : setInbound md_resolved (effective_setting setting) = Ok md_inbounds;
  md_3 : route_template (NewServerData stored_outbound_setting infos) infos
           (setDNS md_inbounds (map (fun info => GetHostname (Info info)) infos)) = Ok md_routed;
  md_4 : t = setDualStack (SetOutboundSockopt md_routed);
  md_5 : checkDuplicatedTags t = Ok tt;
  md_6 : checkDuplicatedInboundSockets t = Ok tt;
}.

Lemma template_made infos setting t : NewTemplate infos setting = Ok t -> exists m : made infos setting t, True.
Proof.
  unfold NewTemplate. intros H. ok_steps. subst t. repeat match goal with u : unit |- _ => destruct u end.
  unshelve eexists; [|done]. by econstructor.
Qed.

Lemma made_setting infos setting t (m : made infos setting t) :
  t_Setting t = effective_setting setting /\ t_Setting (md_routed _ _ _ m) = effective_setting setting /\
  t_Setting (md_inbounds _ _ _ m) = effective_setting setting.
Proof.
  destruct m as [udp t1 t2 t3 H1 H2 H3 H4 H5 H6]. cbn.
  apply resolve_frame in H1 as (os & tags & im & ->). apply inbound_frame in H2 as (ins & rs & ->).
  apply route_outbounds in H3 as [_ Hs]. rewrite H4. destruct (dual_frame (SetOutboundSockopt t3)) as (ins' & rs' & ->). done.
Qed.

(** The outbounds of the template: those resolved and those of RoutingA, with
    their socket options. *)
Lemma made_outbounds infos setting t (m : made infos setting t) :
  Outbounds t = map (outbound_sockopt (effective_setting setting))
    (Outbounds (md_resolved _ _ _ m) ++ routingA_outbounds (effective_setting setting))%list.
Proof.
  destruct (made_setting _ _ _ m) as (S1 & S2 & S3). destruct m as [udp t1 t2 t3 H1 H2 H3 H4 H5 H6]. cbn in *.
  rewrite H4. destruct (dual_frame (SetOutboundSockopt t3)) as (ins & rs & ->). cbn.
  apply route_outbounds in H3 as [Ho _]. cbn in Ho. rewrite S2, Ho, S3.
  apply inbound_frame in H2 as (ins' & rs' & ->). done.
Qed.

(** ** Marks *)

Definition mark_of (o : OutboundObject) : option Z := s ← out_StreamSettings o; k ← ss_Sockopt s; Mark k.
Definition interface_of (o : OutboundObject) : string :=
  default "" (s ← out_StreamSettings o; k ← ss_Sockopt s; Some (so_Interface k)).

Lemma mark_set setting mark o : transparent_on env_lite setting = true ->
  mark_of (checkAndSetMark setting mark o) = Some mark /\
  (TunEgressInterfaceIfTun setting <> "" -> interface_of (checkAndSetMark setting mark o) = TunEgressInterfaceIfTun setting).
Proof.
  intros Ht. unfold checkAndSetMark, mark_of, interface_of. rewrite Ht. cbn.
  destruct (String.eqb_spec (TunEgressInterfaceIfTun setting) "") as [->|]; by cbn.
Qed.

Lemma mark_frame setting mark o : out_Protocol (checkAndSetMark setting mark o) = out_Protocol o /\
  out_Tag (checkAndSetMark setting mark o) = out_Tag o /\ Balancers (checkAndSetMark setting mark o) = Balancers o.
Proof. unfold checkAndSetMark. by destruct (negb _). Qed.

Lemma sockopt_frame setting o : out_Protocol (outbound_sockopt setting o) = out_Protocol o /\
  out_Tag (outbound_sockopt setting o) = out_Tag o /\ Balancers (outbound_sockopt setting o) = Balancers o.
Proof.
  unfold outbound_sockopt. destruct (has _ _); [done|].
  match goal with |- context [checkAndSetMark setting 128 ?x] => destruct (mark_frame setting 128 x) as (-> & -> & ->) end.
  repeat case_match; done.
Qed.

Lemma sockopt_mark setting o : transparent_on env_lite setting = true -> has (out_Protocol o) ["blackhole"; "dns"]%string = false ->
  mark_of (outbound_sockopt setting o) = Some 128 /\
  (TunEgressInterfaceIfTun setting <> "" -> interface_of (outbound_sockopt setting o) = TunEgressInterfaceIfTun setting).
Proof. intros Ht Hp. unfold outbound_sockopt. rewrite Hp. by apply mark_set. Qed.

(** C29. While a transparent proxy is on, every outbound of a generated
    template that opens sockets carries the mark 0x80, which exempts its packets from
    the interception, and where sockets are bound to the physical interface instead,
    that interface; only the outbounds of the protocols blackhole and dns open none. *)
Theorem core_sockets_are_marked infos setting t : NewTemplate infos setting = Ok t ->
  transparent_on env_lite (effective_setting setting) = true ->
  forall o, o ∈ Outbounds t -> out_Protocol o <> "blackhole"%string -> out_Protocol o <> "dns"%string ->
  mark_of o = Some 128 /\
  (TunEgressInterfaceIfTun (effective_setting setting) <> "" ->
   interface_of o = TunEgressInterfaceIfTun (effective_setting setting)).
Proof.
  intros H Ht o Ho Hb Hd. apply template_made in H as [m _]. rewrite (made_outbounds _ _ _ m) in Ho.
  apply list_elem_of_fmap in Ho as (o0 & -> & _). destruct (sockopt_frame (effective_setting setting) o0) as (E & _).
  rewrite E in Hb, Hd. apply sockopt_mark; [done|]. apply has_false. set_solver.
Qed.

End Frames.
