(* ===== verification/OutboundProps.v ===== *)
(** * Outbounds of a template

    Which outbounds the connected nodes get, and the names that rules can use. *)

From stdpp Require Import gmap.
From S2P Require Import Prelude.
From S2P Require Import NetIP Text Iptables Store NodeRefs Configure DeleteProps Settings CoreConfig ServerData.
From S2P Require Import TemplateData Routing DnsTemplate Template TemplateProps.

#[local] Open Scope Z_scope.
#[local] Open Scope go_scope.

(** ** Names *)

Section Names.

(** A name of an outbound, or of a group. *)
Definition named_by (name : string) (o : OutboundObject) : Prop :=
  match Balancers o with [] => out_Tag o = name | gs => name ∈ gs end.

#[export] Instance named_by_dec name o : Decision (named_by name o).
Proof. unfold named_by. destruct (Balancers o); apply _. Defined.

Definition note_names (tags : gmap string bool) (o : OutboundObject) : gmap string bool :=
  match Balancers o with
  | [] => <[out_Tag o := false]> tags
  | gs => foldl (fun tags g => <[g := true]> tags) tags gs
  end.

Lemma outNames_fold t : outNames t = foldl note_names ∅ (Outbounds t).
Proof. done. Qed.

Lemma note_groups gs (tags : gmap string bool) name :
  foldl (fun tags g => <[g := true]> tags) tags gs !! name = if decide (name ∈ gs) then Some true else tags !! name.
Proof.
  revert tags. induction gs as [|g gs IH]; intros tags; cbn [foldl]; [rewrite decide_False; [done|apply not_elem_of_nil]|].
  rewrite IH. destruct (decide (name ∈ gs)) as [H|H]; [by rewrite decide_True by (by right)|].
  destruct (decide (g = name)) as [->|Hne]; [rewrite lookup_insert_eq, decide_True; [done|left]|].
  rewrite lookup_insert_ne by done. rewrite decide_False; [done|]. intros [->|?]%elem_of_cons; done.
Qed.

Lemma note_names_lookup tags o name : note_names tags o !! name =
  if decide (named_by name o) then Some (match Balancers o with [] => false | _ => true end) else tags !! name.
Proof.
  destruct (decide (named_by name o)) as [H|H]; unfold named_by in H; unfold note_names; destruct (Balancers o) as [|g gs].
  - rewrite H. apply lookup_insert_eq.
  - by rewrite note_groups, decide_True.
  - by apply lookup_insert_ne.
  - by rewrite note_groups, decide_False.
Qed.

Lemma outNames_from os tags name : is_Some (foldl note_names tags os !! name) <->
  is_Some (tags !! name) \/ exists o, o ∈ os /\ named_by name o.
Proof.
  revert tags. induction os as [|o os IH]; intros tags; cbn [foldl].
  - split; [by left|]. intros [H|(o & Ho & _)]; [done|]. by apply elem_of_nil in Ho.
  - rewrite IH, note_names_lookup. setoid_rewrite elem_of_cons. destruct (decide (named_by name o)) as [Hn|Hn]; [|naive_solver].
    split; [intros _; right; exists o; by split; [left|]|]. intros _. left. by eexists.
Qed.

Lemma outNames_spec t name : is_Some (outNames t !! name) <-> exists o, o ∈ Outbounds t /\ named_by name o.
Proof. rewrite outNames_fold, outNames_from, lookup_empty. split; [intros [[? [=]]|H]; done|by right]. Qed.

(** A group has an outbound that is in it; another name is the tag of an outbound. *)
Lemma outNames_kind os tags name b : foldl note_names tags os !! name = Some b ->
  tags !! name = Some b \/
  exists o, o ∈ os /\ named_by name o /\ b = match Balancers o with [] => false | _ => true end.
Proof.
  revert tags. induction os as [|o os IH]; intros tags; cbn [foldl]; [by left|]. intros H. apply IH in H as [H|(o' & Ho & H)].
  - rewrite note_names_lookup in H. destruct (decide (named_by name o)) as [Hn|]; [|by left]. injection H as <-. right. exists o.
    by split; [left|].
  - right. exists o'. by split; [right|].
Qed.

Lemma outNames_value t name b : outNames t !! name = Some b ->
  exists o, o ∈ Outbounds t /\ named_by name o /\ b = match Balancers o with [] => false | _ => true end.
Proof. rewrite outNames_fold. intros H. apply outNames_kind in H as [H|H]; [by rewrite lookup_empty in H|done]. Qed.

Lemma names_of_outbounds os os' : Forall2 (fun o o' => out_Tag o' = out_Tag o /\ Balancers o' = Balancers o) os os' ->
  forall tags, foldl note_names tags os' = foldl note_names tags os.
Proof.
  induction 1 as [|o o' os os' [H1 H2] Hf IH]; intros tags; [done|]. cbn [foldl]. rewrite IH. f_equal. unfold note_names.
  by rewrite H1, H2.
Qed.

(** The first proxy has a name, when there is one. *)
Lemma first_proxy_named t : let n := fst (FirstProxyOutboundName t None) in n = EmptyString \/ is_Some (outNames t !! n).
Proof.
  cbn zeta. rewrite outNames_spec. unfold FirstProxyOutboundName. cbn [default].
  assert (H : forall os m, (fst (first_proxy (fun _ _ => true) os m) = EmptyString) \/
    exists o, o ∈ os /\ named_by (fst (first_proxy (fun _ _ => true) os m)) o); [|apply H].
  induction os as [|o os IH]; intros m; cbn [first_proxy]; [by left|].
  assert (Hrest : forall m', fst (first_proxy (fun _ _ => true) os m') = EmptyString \/
    exists o', o' ∈ o :: os /\ named_by (fst (first_proxy (fun _ _ => true) os m')) o').
  { intros m'. destruct (IH m') as [H|(o' & Ho & H)]; [by left|]. right. exists o'. by split; [right|]. }
  destruct (has _ _); [apply Hrest|]. unfold named_by at 1. destruct (Balancers o) as [|g gs] eqn:E; cbn [fst].
  - right. exists o. split; [left|]. unfold named_by. by rewrite E.
  - assert (Hg : forall l m', match first_group (fun _ _ => true) l m' with (Some v, _) => v ∈ l | _ => True end).
    { induction l as [|v l IHl]; intros m'; cbn [first_group]; [done|]. destruct (decide (v ∈ m')); [|left].
      specialize (IHl m'). destruct (first_group _ l m') as [[w|] ?]; [by right|done]. }
    specialize (Hg (g :: gs) m). destruct (first_group _ (g :: gs) m) as [[v|] m']; [|apply Hrest]. cbn [fst].
    right. exists o. split; [left|]. unfold named_by. by rewrite E.
Qed.

End Names.

Section Resolve.
Context `{OB : ServerObjs} `{N : !Nodes} `{NL : !NodeLaws} `{MO : MapOrder} `{SE : ServiceEnv}.

(** ** Outbounds of the nodes *)

(** The uses of an object by groups. *)
Definition group_uses (sd : ServerData) (uses : list nat) : list (string * nat) :=
  omap (fun i => info ← ServerInfos sd !! i;
    if is_group sd (OutboundName info) then Some (OutboundName info, i) else None) uses.

Definition alone (o : OutboundObject) : Prop := Balancers o = [].

Lemma resolve_uses_spec sd obj uses st bs st' bs' : resolve_uses sd obj uses st bs = Ok (st', bs') ->
  bs' = (bs ++ group_uses sd uses)%list /\
  exists outs extra, rs_outbounds st' = (rs_outbounds st ++ outs)%list /\ rs_extra st' = (rs_extra st ++ extra)%list /\
    Forall (fun wo => alone (snd wo)) outs /\ Forall alone extra /\
    (forall i info, i ∈ uses -> ServerInfos sd !! i = Some info -> is_group sd (OutboundName info) = false ->
       exists wo, wo ∈ outs /\ out_Tag (snd wo) = OutboundName info).
Proof.
  revert st bs. induction uses as [|i uses IH]; intros st bs; cbn [resolve_uses].
  - intros [= <- <-]. split; [by rewrite app_nil_r|]. exists [], []. rewrite !app_nil_r. repeat split; try constructor.
    by intros i info ?%elem_of_nil.
  - unfold group_uses. cbn [omap list_omap]. destruct (ServerInfos sd !! i) as [info|] eqn:Ei; cbn [mbind option_bind].
    + destruct (is_group sd (OutboundName info)) eqn:Eg.
      * intros H. apply IH in H as (-> & outs & extra & H1 & H2 & H3 & H4 & H5). rewrite <-app_assoc. split; [done|].
        exists outs, extra. repeat split; try done. intros j info' [->|Hj]%elem_of_cons Hf Hg; [congruence|eauto].
      * destruct (configure_node obj _ _) as [c|] eqn:Ec; [|done]. intros H.
        apply IH in H as (-> & outs & extra & H1 & H2 & H3 & H4 & H5). split; [done|].
        destruct (configuration_pure _ _ _ Ec) as [Hp He]. pose proof (configuration_tag _ _ _ Ec) as Ht. cbn in Ht, H1, H2.
        exists ((Z.of_nat i, CoreOutbound c) :: outs), (ExtraOutbounds c ++ extra)%list. rewrite H1, H2, <-!app_assoc.
        split; [done|]. split; [done|]. split; [by constructor|]. split; [by apply Forall_app|].
        intros j info' [->|Hj]%elem_of_cons Hf Hg.
        -- exists (Z.of_nat i, CoreOutbound c). split; [left|]. cbn. congruence.
        -- destruct (H5 _ _ Hj Hf Hg) as (wo & Hwo & Htag). exists wo. by split; [right|].
    + intros H. apply IH in H as (-> & outs & extra & H1 & H2 & H3 & H4 & H5). split; [done|]. exists outs, extra.
      repeat split; try done. intros j info' [->|Hj]%elem_of_cons Hf Hg; [congruence|eauto].
Qed.

(** An outbound that groups share. *)
Definition shared (sd : ServerData) (obj : ServerObj) (uses : list nat) (o : OutboundObject) : Prop :=
  out_Tag o = GroupWrapper (GetName obj) /\ Balancers o = map fst (group_uses sd uses).

Lemma resolve_balancers_spec sd obj uses st st' : resolve_balancers obj (group_uses sd uses) st = Ok st' ->
  exists outs extra, rs_outbounds st' = (rs_outbounds st ++ outs)%list /\ rs_extra st' = (rs_extra st ++ extra)%list /\
    Forall alone extra /\ Forall (fun wo => shared sd obj uses (snd wo)) outs /\
    (group_uses sd uses <> [] -> exists wo, wo ∈ outs).
Proof.
  unfold resolve_balancers, shared. destruct (group_uses sd uses) as [|[g i] bs] eqn:E.
  - intros [= <-]. exists [], []. rewrite !app_nil_r. by repeat split; try constructor.
  - destruct (configure_node obj _ _) as [c|] eqn:Ec; [|done]. intros [= <-]. cbn [rs_outbounds rs_extra].
    destruct (configuration_pure _ _ _ Ec) as [Hp He]. pose proof (configuration_tag _ _ _ Ec) as Ht.
    eexists [_], _. repeat split; try done; [constructor; [|constructor]|by eexists; left]. cbn in *. rewrite Hp. by split.
Qed.

(** The outbounds of a list of objects with their uses. *)
Record outs_ok (sd : ServerData) (objs : list (ServerObj * list nat)) (outs : list (Z * OutboundObject)) : Prop := {
  oo_each wo : wo ∈ outs -> alone (snd wo) \/ exists ou, ou ∈ objs /\ shared sd (fst ou) (snd ou) (snd wo);
  oo_shared ou : ou ∈ objs -> group_uses sd (snd ou) <> [] -> exists wo, wo ∈ outs /\ shared sd (fst ou) (snd ou) (snd wo);
  oo_alone ou i info : ou ∈ objs -> i ∈ snd ou -> ServerInfos sd !! i = Some info -> is_group sd (OutboundName info) = false ->
    exists wo, wo ∈ outs /\ out_Tag (snd wo) = OutboundName info /\ alone (snd wo);
}.

Lemma resolve_objects_spec sd objs st st' : resolve_objects sd objs st = Ok st' ->
  exists outs extra, rs_outbounds st' = (rs_outbounds st ++ outs)%list /\ rs_extra st' = (rs_extra st ++ extra)%list /\
    Forall alone extra /\ outs_ok sd objs outs.
Proof.
  revert st. induction objs as [|[obj uses] objs IH]; intros st; cbn [resolve_objects].
  - intros [= <-]. exists [], []. rewrite !app_nil_r. split; [done|]. split; [done|]. split; [done|].
    split; [by intros wo ?%elem_of_nil|by intros ou ?%elem_of_nil|by intros ou i info ?%elem_of_nil].
  - destruct (resolve_uses sd obj uses st []) as [[st1 bs]|] eqn:E1; [|done].
    destruct (resolve_uses_spec _ _ _ _ _ _ _ E1) as (-> & o1 & e1 & A1 & A2 & A3 & A4 & A5). cbn [app].
    destruct (resolve_balancers obj (group_uses sd uses) st1) as [st2|] eqn:E2; [|done].
    destruct (resolve_balancers_spec _ _ _ _ _ E2) as (o2 & e2 & B1 & B2 & B3 & B4 & B5).
    intros H. destruct (IH _ H) as (o3 & e3 & C1 & C2 & C3 & [D1 D2 D3]).
    exists (o1 ++ o2 ++ o3)%list, (e1 ++ e2 ++ e3)%list. rewrite C1, C2, B1, B2, A1, A2, <-!app_assoc.
    split; [done|]. split; [done|]. split; [by repeat apply Forall_app_2|]. rewrite Forall_forall in A3, B4. split.
    + intros wo [Hw|[Hw|Hw]%elem_of_app]%elem_of_app; [left; by apply A3|right; exists (obj, uses); split; [left|by apply B4]|].
      destruct (D1 _ Hw) as [Ha|(ou & Hou & Hs)]; [by left|]. right. exists ou. by split; [right|].
    + intros ou [->|Hou]%elem_of_cons Hg.
      * destruct (B5 Hg) as [wo Hw]. exists wo. split; [set_solver|]. by apply B4.
      * destruct (D2 _ Hou Hg) as (wo & Hw & Hs). exists wo. split; [set_solver|done].
    + intros ou i info [->|Hou]%elem_of_cons Hi Hf Hg.
      * destruct (A5 _ _ Hi Hf Hg) as (wo & Hw & Ht). exists wo. split; [set_solver|]. split; [done|]. by apply A3.
      * destruct (D3 _ _ _ Hou Hi Hf Hg) as (wo & Hw & Hs). exists wo. split; [set_solver|done].
Qed.

(** ** Blocked groups *)

Definition fail_closed (name : string) : bool :=
  AutoAdd (stored_outbound_setting name) || String.eqb (os_Type (stored_outbound_setting name)) KeepCurrent.

Lemma block_group_spec sd os name o : o ∈ block_group sd os name <->
  o ∈ os \/ members sd name = [] /\ fail_closed name = true /\ o = outbound name "blackhole".
Proof.
  unfold block_group, members, fail_closed. destruct (OutboundName2ServerObjs sd !! name) as [[|x xs]|]; cbn [default];
    [|split; [by left|intros [H|(H & _)]; done]|].
  all: destruct (_ || _); [|split; [by left|intros [H|(_ & H & _)]; done]]; destruct (String.eqb name _);
    rewrite ?elem_of_cons, ?elem_of_app, ?list_elem_of_singleton; naive_solver.
Qed.

Lemma block_groups_spec sd names os o : o ∈ foldl (block_group sd) os names <->
  o ∈ os \/ exists name, name ∈ names /\ members sd name = [] /\ fail_closed name = true /\ o = outbound name "blackhole".
Proof.
  revert os. induction names as [|n names IH]; intros os; cbn [foldl].
  - split; [by left|]. intros [H|(n & Hn & _)]; [done|]. by apply elem_of_nil in Hn.
  - rewrite IH, block_group_spec. setoid_rewrite elem_of_cons. naive_solver.
Qed.

Lemma head_app_Some {A} (l k : list A) x : head l = Some x -> head (l ++ k)%list = Some x.
Proof. by destruct l. Qed.

(** The blocked default group comes first. *)
Lemma block_groups_first sd names os : members sd DefaultOutboundName = [] -> fail_closed DefaultOutboundName = true ->
  DefaultOutboundName ∈ names \/ head os = Some (outbound DefaultOutboundName "blackhole") ->
  head (foldl (block_group sd) os names) = Some (outbound DefaultOutboundName "blackhole").
Proof.
  intros Hm Hc. assert (Hd : forall os, block_group sd os DefaultOutboundName = outbound DefaultOutboundName "blackhole" :: os).
  { intros os'. unfold block_group. unfold members in Hm. unfold fail_closed in Hc. destruct (OutboundName2ServerObjs sd !! _) as [[|]|];
      [|done|]; by rewrite Hc. }
  revert os. induction names as [|n names IH]; intros os; cbn [foldl]; [intros [H|H]; [by apply elem_of_nil in H|done]|].
  intros H. apply IH. destruct (decide (n = DefaultOutboundName)) as [->|Hne]; [right; by rewrite Hd|].
  destruct H as [[E|H]%elem_of_cons|H]; [congruence|by left|]. right. unfold block_group.
  destruct (String.eqb_spec n DefaultOutboundName); [done|]. repeat case_match; try done; by apply head_app_Some.
Qed.

(** ** The resolved outbounds *)

Record resolved_ok (sd : ServerData) (os : list OutboundObject) : Prop := {
  ro_each o : o ∈ os -> alone o \/ exists ou, ou ∈ ServerObj2ServerInfos sd /\ shared sd (fst ou) (snd ou) o;
  ro_shared ou : ou ∈ ServerObj2ServerInfos sd -> group_uses sd (snd ou) <> [] ->
    exists o, o ∈ os /\ shared sd (fst ou) (snd ou) o;
  ro_alone ou i info : ou ∈ ServerObj2ServerInfos sd -> i ∈ snd ou -> ServerInfos sd !! i = Some info ->
    is_group sd (OutboundName info) = false -> exists o, o ∈ os /\ out_Tag o = OutboundName info /\ alone o;
  ro_blocked name : name ∈ stored_outbounds -> members sd name = [] -> fail_closed name = true -> outbound name "blackhole" ∈ os;
  ro_direct : exists os1 os2, os = (os1 ++ outbound "direct" "freedom" :: os2)%list /\ Forall alone os2;
  ro_block : outbound "block" "blackhole" ∈ os;
  ro_first : DefaultOutboundName ∈ stored_outbounds -> members sd DefaultOutboundName = [] -> fail_closed DefaultOutboundName = true ->
    head os = Some (outbound DefaultOutboundName "blackhole");
}.

Lemma resolve_ok setting sd udp t : resolveOutbounds (initial_template setting) sd = Ok (udp, t) -> resolved_ok sd (Outbounds t).
Proof.
  unfold resolveOutbounds. destruct (resolve_objects sd _ _) as [st|] eqn:E; [|done]. intros [= _ <-].
  cbn [Outbounds set_tags set_outbounds initial_template app].
  destruct (resolve_objects_spec _ _ _ _ E) as (outs & extra & H1 & H2 & H3 & [O1 O2 O3]). cbn in H1, H2. rewrite H1, H2.
  assert (Hsort : forall o, o ∈ map snd (sort_by by_weight outs) <-> exists wo, wo ∈ outs /\ snd wo = o).
  { intros o. rewrite list_elem_of_fmap. setoid_rewrite sort_by_perm. naive_solver. }
  rewrite Forall_forall in H3. split.
  - intros o. rewrite elem_of_app, block_groups_spec, Hsort, !elem_of_cons.
    intros [[(wo & Hw & <-)|(n & _ & _ & _ & ->)]|[->|[->|Ho]]]; [by apply O1|left; done..|left; by apply H3].
  - intros ou Hou Hg. destruct (O2 _ Hou Hg) as (wo & Hw & Hs). exists (snd wo). split; [|done].
    rewrite elem_of_app, block_groups_spec, Hsort. left; left. by exists wo.
  - intros ou i info Hou Hi Hf Hg. destruct (O3 _ _ _ Hou Hi Hf Hg) as (wo & Hw & Hs). exists (snd wo). split; [|done].
    rewrite elem_of_app, block_groups_spec, Hsort. left; left. by exists wo.
  - intros name Hn Hm Hc. rewrite elem_of_app, block_groups_spec. left; right. by exists name.
  - eexists _, _. split; [done|]. constructor; [done|]. apply Forall_forall. intros o Ho. by apply H3.
  - rewrite elem_of_app. right. right. left.
  - intros Hn Hm Hc. apply head_app_Some, block_groups_first; auto.
Qed.

End Resolve.
