(* ===== verification/TemplateClosed.v ===== *)
(** * Templates are closed

    Every name that a rule or a balancer of a generated template uses is defined in
    it; traffic to the nodes is direct; a group without members is blocked. *)

From stdpp Require Import gmap.
From S2P Require Import Prelude.
From S2P Require Import NetIP Text Iptables Store NodeRefs Configure DeleteProps Settings CoreConfig ServerData.
From S2P Require Import TemplateData Routing DnsTemplate Template TemplateProps OutboundProps.

#[local] Open Scope Z_scope.
#[local] Open Scope go_scope.

(** Where a rule sends its traffic. *)
Definition aim (r : RoutingRule) : string * string := (rr_OutboundTag r, rr_BalancerTag r).

Section Closed.
Context `{OB : ServerObjs} `{N : !Nodes} `{NL : !NodeLaws} `{MO : MapOrder} `{SE : ServiceEnv}.

(** ** The rules before the groups are put in *)

(** No balancer, and a name that is empty, fixed or defined. *)
Definition open_aim (names : gmap string bool) (known : list string) (r : RoutingRule) : Prop :=
  rr_BalancerTag r = EmptyString /\
  (rr_OutboundTag r = EmptyString \/ rr_OutboundTag r ∈ known \/ is_Some (names !! rr_OutboundTag r)).

Definition fixed_names : list string := ["direct"; "proxy"; "api-out"].

Lemma open_weaken names names' known known' r : (forall n, is_Some (names !! n) -> is_Some (names' !! n)) ->
  known ⊆ known' -> open_aim names known r -> open_aim names' known' r.
Proof. intros Hn Hk [H1 [H2|[H2|H2]]]; split; auto. Qed.

Lemma rule_to_open names known out ins : out = EmptyString \/ out ∈ known \/ is_Some (names !! out) ->
  open_aim names known (rule_to out ins).
Proof. done. Qed.

Lemma same_aim_open names known f (rs : list RoutingRule) : (forall r, aim (f r) = aim r) ->
  Forall (open_aim names known) rs -> Forall (open_aim names known) (map f rs).
Proof.
  intros Hf H. apply Forall_map. eapply Forall_impl; [exact H|]. intros r [H1 H2]. cbn. specialize (Hf r). injection Hf as E1 E2.
  unfold open_aim. by rewrite E1, E2.
Qed.

Lemma follow_aim tag r : aim (follow_rule_port tag r) = aim r.
Proof. unfold follow_rule_port. by destruct (has _ _). Qed.

Lemma private_aim r : aim (private_rule r) = aim r.
Proof. unfold private_rule. by destruct (has _ _). Qed.

Lemma small_aim r : aim (small_rule r) = aim r.
Proof. unfold small_rule. by destruct (asset _). Qed.

Lemma twin_aim tags r : aim (twin_rule tags r) = aim r.
Proof. done. Qed.

Lemma local_aim r : aim (local_dns_rule r) = aim r.
Proof. unfold local_dns_rule. by destruct (has _ _). Qed.

(** *** Modes *)

Local Ltac aims :=
  repeat (apply Forall_cons; split; [split; [done|cbn; try by (right; left; match goal with Hk : fixed_names ⊆ _ |- _ => apply Hk end; unfold fixed_names; set_solver)]|]); try by apply Forall_nil.

Lemma apply_function_aim rr f rr' : apply_function rr f = Ok rr' -> aim rr' = aim rr.
Proof.
  unfold apply_function. destruct (has _ _); [destruct (named_all _ _ _); [|done]; by intros [= <-]|].
  destruct (String.eqb _ "ip"); [destruct (named_all _ _ _); [|done]; by intros [= <-]|].
  repeat (destruct (String.eqb _ _); [by intros [= <-]|]). by intros [= <-].
Qed.

Lemma apply_functions_aim fs rr rr' : apply_functions rr fs = Ok rr' -> aim rr' = aim rr.
Proof.
  revert rr. induction fs as [|f fs IH]; intros rr; cbn [apply_functions]; [by intros [= <-]|].
  destruct (apply_function rr f) as [rr1|] eqn:E; [|done]. intros H. rewrite (IH _ H). by eapply apply_function_aim.
Qed.

Lemma routingA_rules_open names ins rules dflt acc dflt' rs known : routingA_rules names ins rules dflt acc = Ok (dflt', rs) ->
  dflt = EmptyString \/ is_Some (names !! dflt) -> Forall (open_aim names known) acc ->
  (dflt' = EmptyString \/ is_Some (names !! dflt')) /\ Forall (open_aim names known) rs.
Proof.
  revert dflt acc. induction rules as [|rule rules IH]; intros dflt acc; cbn [routingA_rules]; [by intros [= <- <-]|].
  destruct rule as [name [v|b f]|out fs].
  - destruct (String.eqb name "default"); [|by apply IH]. destruct (names !! v) eqn:E; cbn [is_some negb]; [|done].
    intros H _ Ha. eapply IH; [done| |done]. right. by eexists.
  - by apply IH.
  - destruct (apply_functions (rule_to out ins) fs) as [rr|] eqn:E; [|done]. apply apply_functions_aim in E.
    injection E as E1 E2. destruct (negb _ && negb _) eqn:Eb; [done|]. intros H Hd Ha. eapply IH; [done|done|].
    apply Forall_app. split; [done|]. constructor; [|done]. split; [done|]. apply andb_false_iff in Eb as [Eb|Eb].
    + apply negb_false_iff, String.eqb_eq in Eb. by left.
    + right; right. destruct (names !! rr_OutboundTag rr); [by eexists|done].
Qed.

Lemma whitelist_open names known first ins : fixed_names ⊆ known -> first = EmptyString \/ is_Some (names !! first) ->
  Forall (open_aim names known) (whitelist_rules first ins).
Proof.
  intros Hk H. unfold whitelist_rules. aims. destruct H; auto.
Qed.

Lemma gfwlist_open names known first ins : fixed_names ⊆ known -> first = EmptyString \/ is_Some (names !! first) ->
  Forall (open_aim names known) (gfwlist_rules first ins).
Proof.
  intros Hk H. unfold gfwlist_rules. destruct (asset _); aims; destruct H; auto.
Qed.

(** The names only grow when outbounds are added. *)
Lemma names_grow t os n : is_Some (outNames t !! n) -> is_Some (outNames (add_outbounds t os) !! n).
Proof.
  rewrite !outNames_spec. intros (o & Ho & Hn). exists o. split; [|done]. apply elem_of_app. by left.
Qed.

Lemma names_rules t rs : outNames (set_rules t rs) = outNames t.
Proof. done. Qed.

Lemma mode_open known t m ins t' : fixed_names ⊆ known -> AppendRoutingRuleByMode t m ins = Ok t' ->
  Forall (open_aim (outNames t') known) (Rules t) -> Forall (open_aim (outNames t') known) (Rules t').
Proof.
  intros Hk.
  pose proof (first_proxy_named t) as Hfirst. cbn zeta in Hfirst. unfold AppendRoutingRuleByMode.
  set (t1 := add_rules t _).
  assert (Happle : forall names, Forall (open_aim names known) (Rules t) -> Forall (open_aim names known) (Rules t1)).
  { intros names H. unfold t1. cbn. apply Forall_app. split; [done|]. aims. }
  destruct (String.eqb m WhitelistMode).
  { intros [= <-] H. cbn [Rules add_rules set_rules]. apply Forall_app. split; [by apply Happle|]. by apply whitelist_open. }
  destruct (String.eqb m GfwlistMode).
  { intros [= <-] H. cbn [Rules add_rules set_rules]. apply Forall_app. split; [by apply Happle|]. by apply gfwlist_open. }
  destruct (String.eqb m RoutingAMode); [|intros [= <-]; by apply Happle].
  unfold parseRoutingA. destruct (RoutingA_Parse _) as [rules|]; [|done].
  set (t2 := add_outbounds t1 _). destruct (routingA_rules _ _ _ _ _) as [[dflt rs]|] eqn:E; [|done]. intros [= <-] H.
  assert (Hgrow : forall n, is_Some (outNames t !! n) -> is_Some (outNames t2 !! n)) by (intros n; apply (names_grow t1)).
  destruct (routingA_rules_open _ _ _ _ _ _ _ known E) as [H1 H2]; [|constructor|].
  { change (outNames t1) with (outNames t) in *. change (FirstProxyOutboundName t1 None) with (FirstProxyOutboundName t None).
    destruct Hfirst as [->|Hf]; [by left|right; by apply Hgrow]. }
  change (Rules (add_rules t2 ?x)) with (Rules t1 ++ x)%list.
  apply Forall_app_2; [by apply Happle|]. apply Forall_app_2; [done|]. constructor; [|done].
  apply rule_to_open. destruct H1; auto.
Qed.

Lemma transparent_open known t t' : fixed_names ⊆ known -> setTransparentRouting t = Ok t' ->
  Forall (open_aim (outNames t') known) (Rules t) -> Forall (open_aim (outNames t') known) (Rules t').
Proof.
  intros Hk.
  unfold setTransparentRouting. destruct (String.eqb _ TransparentProxy).
  { intros [= <-] H. cbn [Rules add_rules set_rules]. apply Forall_app. split; [done|]. constructor; [|done]. apply rule_to_open.
    destruct (first_proxy_named t); auto. }
  destruct (String.eqb _ TransparentWhitelist); [by apply mode_open|].
  destruct (String.eqb _ TransparentGfwlist); [by apply mode_open|].
  destruct (String.eqb _ TransparentFollowRule); intros [= <-]; [|done]. apply same_aim_open. intros r. apply follow_aim.
Qed.

Lemma vmess_open names known t : Forall (open_aim names known) (Rules t) -> Forall (open_aim names known) (Rules (setVmessInboundRouting t)).
Proof.
  unfold setVmessInboundRouting. destruct (_ <=? 0); [done|]. apply same_aim_open. intros r. apply follow_aim.
Qed.

(** ** The passes as maps over the rules *)

Lemma set_rules_same t : set_rules t (Rules t) = t.
Proof. by destruct t. Qed.

Lemma private_pass t : updatePrivateRouting t = map_rules t private_rule.
Proof.
  unfold updatePrivateRouting. destruct local_cidrs eqn:E; [|done]. unfold map_rules. rewrite <-(set_rules_same t) at 1. f_equal.
  rewrite <-(map_id (Rules t)) at 1. apply map_ext. intros r. unfold private_rule. destruct (has _ _); [|done]. rewrite E, app_nil_r.
  by destruct r.
Qed.

Lemma small_pass t : optimizeGeoipMemoryOccupation t = map_rules t small_rule.
Proof.
  unfold optimizeGeoipMemoryOccupation, small_rule. destruct (asset _); [done|]. unfold map_rules. by rewrite map_id, set_rules_same.
Qed.

(** ** Balancers *)

Definition selector (sd : ServerData) (group : string) : list string :=
  map (fun vi => GroupWrapper (GetName vi)) (members sd group).

Definition balancer_for (sd : ServerData) (group : string) : Balancer :=
  mkBalancer group (selector sd group)
    (mkBalancerStrategy (os_Type (default zero_setting (OutboundName2Setting sd !! group))) (Some (mkStrategySettings group))) "block".

Lemma observe_balancers sd gs t :
  t_Balancers (foldl (observe_group sd) t gs) = (t_Balancers t ++ map (balancer_for sd) gs)%list.
Proof.
  revert t. induction gs as [|g gs IH]; intros t; cbn [foldl map]; [by rewrite app_nil_r|]. rewrite IH.
  assert (H : t_Balancers (observe_group sd t g) = (t_Balancers t ++ [balancer_for sd g])%list).
  { unfold observe_group. by destruct (has _ _). }
  rewrite H, <-app_assoc. done.
Qed.

Lemma api_parts t sd : let t' := SetAPI t (Some sd) in
  Rules t' = (Rules t ++ [rule_to "api-out" ["api-in"%string]])%list /\
  t_Balancers t' = (t_Balancers t ++ map (balancer_for sd) (group_names "observe" t))%list.
Proof.
  cbn zeta. unfold SetAPI. pose proof (observe_balancers sd (group_names "observe" t) t) as Hb.
  destruct (observe_frame sd (group_names "observe" t) t) as (bs & m & E). rewrite E in *. cbn in *. by rewrite Hb.
Qed.

(** ** The routed template *)

Record routed (sd : ServerData) (infos : list serverInfo) (t t1 t' : Template) : Prop := {
  rt_outbounds : Outbounds t' = Outbounds t1;
  rt_open known : fixed_names ⊆ known -> Forall (open_aim (outNames t') known) (Rules t) -> Forall (open_aim (outNames t') known) (Rules t1);
  rt_rules : Rules t' = map small_rule (map (group_rule (outNames t')) (map private_rule
    (map whitelist_rule (map node_address infos) ++ Rules t1 ++ [rule_to "api-out" ["api-in"%string]]) ++ [spare_rule]))%list;
  rt_balancers : t_Balancers t' = (t_Balancers t ++ map (balancer_for sd) (group_names "observe" t1))%list;
}.

Lemma rule_port_open known t t' : fixed_names ⊆ known -> setRulePortRouting t = Ok t' ->
  Forall (open_aim (outNames t') known) (Rules t) -> Forall (open_aim (outNames t') known) (Rules t').
Proof. intros Hk. by apply mode_open. Qed.

Lemma routed_open known (b : bool) t t1 t2 : fixed_names ⊆ known -> setRulePortRouting t = Ok t1 ->
  (if b then setTransparentRouting t1 else Ok t1) = Ok t2 ->
  Forall (open_aim (outNames t2) known) (Rules t) -> Forall (open_aim (outNames t2) known) (Rules (setVmessInboundRouting t2)).
Proof.
  intros Hk H1 H2 H. apply vmess_open. assert (E : outNames t2 = outNames t1).
  { by apply maybe_transparent_frame in H2 as [rs ->]. }
  destruct b; [|injection H2 as <-; by eapply rule_port_open]. eapply transparent_open; [done|done|].
  rewrite E in *. by eapply rule_port_open.
Qed.

Lemma route_routed sd infos t t' : route_template sd infos t = Ok t' -> exists t1, routed sd infos t t1 t'.
Proof.
  unfold route_template. intros H. ok_steps. subst t'.
  match goal with H1 : setRulePortRouting _ = Ok ?a, H2 : (if _ then _ else _) = Ok ?b |- _ =>
    rename a into ta, b into tb; rename H1 into HA, H2 into HB end.
  pose proof (fun known Hk => routed_open known _ _ _ _ Hk HA HB) as Hopen. cbn [Rules set_strategy] in Hopen.
  apply rule_port_frame in HA as [rs1 ->]. apply maybe_transparent_frame in HB as [rs2 ->].
  destruct (vmess_frame (set_rules (add_rules (add_outbounds (set_strategy t (DomainStrategy t) "mph") (routingA_outbounds
    (t_Setting (set_strategy t (DomainStrategy t) "mph")))) rs1) rs2)) as [rs3 Ev]. rewrite Ev in *. set (t1 := set_rules _ rs3) in *.
  exists t1. destruct (api_parts t1 sd) as [Hr Hb]. destruct (api_outbounds t1 (Some sd)) as [Ho _].
  rewrite small_pass, private_pass. set (ta := SetAPI t1 (Some sd)) in *.
  assert (En : outNames (add_rules (map_rules (setWhitelistRouting ta (map node_address infos)) private_rule) [spare_rule]) = outNames t1).
  { unfold outNames. cbn [Outbounds add_rules map_rules set_rules setWhitelistRouting]. by rewrite Ho. }
  split.
  - cbn. exact Ho.
  - intros known Hk H. assert (E2 : outNames (map_rules (setGroupRouting (add_rules (map_rules (setWhitelistRouting ta
      (map node_address infos)) private_rule) [spare_rule])) small_rule) = outNames t1) by exact En. rewrite E2 in *. by apply Hopen.
  - unfold setGroupRouting. rewrite En. assert (E2 : outNames (map_rules (map_rules (add_rules (map_rules (setWhitelistRouting ta
      (map node_address infos)) private_rule) [spare_rule]) (group_rule (outNames t1))) small_rule) = outNames t1) by exact En.
    rewrite E2. cbn [Rules add_rules map_rules set_rules setWhitelistRouting]. by rewrite Hr.
  - cbn [t_Balancers add_rules map_rules set_rules setWhitelistRouting setGroupRouting]. by rewrite Hb.
Qed.

(** ** The rules of the custom inbounds *)

Definition all_custom_rules : list RoutingRule := concat (map custom_rules (List.filter usable_custom stored_inbounds)).

Lemma inbound_rules_plain tag rules acc rs : inbound_rules tag rules acc = Ok rs ->
  Forall (fun r => rr_BalancerTag r = EmptyString) acc -> Forall (fun r => rr_BalancerTag r = EmptyString) rs.
Proof.
  revert acc. induction rules as [|[name v|out fs] rules IH]; intros acc; cbn [inbound_rules]; [by intros [= <-]|by apply IH|].
  destruct (apply_functions _ fs) as [rr|] eqn:E; [|done]. intros H Ha. eapply IH; [done|].
  destruct (String.eqb _ _); [done|]. apply Forall_app. split; [done|]. constructor; [|done].
  apply apply_functions_aim in E. by injection E as _ ->.
Qed.

Lemma custom_rules_plain ci : Forall (fun r => rr_BalancerTag r = EmptyString) (custom_rules ci).
Proof.
  unfold custom_rules. destruct (_ || _); [done|]. destruct (String.eqb _ "direct"); [by constructor|].
  destruct (String.eqb _ "routingA"); [|done]. destruct (String.eqb _ ""); [done|]. unfold parseRoutingARules.
  destruct (RoutingA_Parse _); [|done]. destruct (inbound_rules _ _ _) eqn:E; [|done]. by eapply inbound_rules_plain.
Qed.

Lemma customs_parts cis t : let t' := foldl add_custom t cis in
  Rules t' = (Rules t ++ concat (map custom_rules (List.filter usable_custom cis)))%list /\ t_Balancers t' = t_Balancers t.
Proof.
  cbn zeta. revert t. induction cis as [|ci cis IH]; intros t; cbn [foldl List.filter map concat]; [by rewrite app_nil_r|].
  destruct (IH (add_custom t ci)) as [-> ->]. unfold add_custom. destruct (usable_custom ci); [|done].
  cbn. by rewrite <-app_assoc.
Qed.

Lemma inbound_parts t s t' : setInbound t s = Ok t' ->
  Rules t' = (Rules t ++ all_custom_rules)%list /\ t_Balancers t' = t_Balancers t /\ Outbounds t' = Outbounds t.
Proof.
  unfold setInbound. destruct (port_inbounds _ _) as [l|]; [|done]. intros [= <-].
  destruct (customs_parts stored_inbounds (set_inbounds t l)) as [Hr Hb].
  destruct (customs_frame stored_inbounds (set_inbounds t l)) as (ins & rs & E). rewrite E in *.
  destruct (transparent_inbounds_frame (set_rules (set_inbounds (set_inbounds t l) ins) rs)) as [ins' ->].
  cbn in Hr. destruct (_ || _); by cbn.
Qed.

(** The names that no check of the code covers. *)
Definition unchecked : list string := "proxy"%string :: map rr_OutboundTag all_custom_rules.

Lemma custom_open names : Forall (open_aim names (fixed_names ++ unchecked)) all_custom_rules.
Proof.
  apply Forall_forall. intros r Hr. split.
  - unfold all_custom_rules in Hr. apply list_elem_of_In, in_concat in Hr as (rs & Hrs & Hr). apply in_map_iff in Hrs as (ci & <- & _).
    apply list_elem_of_In in Hr. pose proof (custom_rules_plain ci) as Hf. rewrite Forall_forall in Hf. by apply Hf.
  - right; left. apply elem_of_app. right. right. by apply list_elem_of_fmap_2.
Qed.

(** ** The rules and balancers of the template *)

(** A rule names an outbound or a balancer that is there, the API, or nothing. *)
Definition leads (t : Template) (r : RoutingRule) : Prop :=
  rr_BalancerTag r = EmptyString /\
    (rr_OutboundTag r = EmptyString \/ rr_OutboundTag r = "api-out"%string \/ rr_OutboundTag r ∈ map out_Tag (Outbounds t)) \/
  rr_OutboundTag r = EmptyString /\ rr_BalancerTag r ∈ map b_Tag (t_Balancers t).

(** A balancer chooses between outbounds that are in its group, and falls back to
    the outbound that blocks. *)
Definition balances (t : Template) (b : Balancer) : Prop :=
  Selector b <> [] /\
  (forall tag, tag ∈ Selector b -> exists o, o ∈ Outbounds t /\ out_Tag o = tag /\ b_Tag b ∈ Balancers o) /\
  FallbackTag b = "block"%string /\ exists o, o ∈ Outbounds t /\ out_Tag o = "block"%string /\ out_Protocol o = "blackhole"%string.

Lemma open_group names known r : open_aim names known r ->
  let r' := group_rule names r in
  rr_BalancerTag r' = EmptyString /\ (rr_OutboundTag r' = EmptyString \/ names !! rr_OutboundTag r' = Some false \/
    rr_OutboundTag r' ∈ known /\ names !! rr_OutboundTag r' = None) \/
  rr_OutboundTag r' = EmptyString /\ names !! rr_BalancerTag r' = Some true.
Proof.
  intros [Hb Ho]. cbn zeta. unfold group_rule. destruct (String.eqb_spec (rr_OutboundTag r) ""); cbn [negb andb]; [by left; auto|].
  destruct (names !! rr_OutboundTag r) as [[]|] eqn:E; cbn [default].
  - right. by cbn.
  - left. auto.
  - left. split; [done|]. right; right. destruct Ho as [?|[?|[? ?]]]; [done|done|congruence].
Qed.

Lemma dual_rules t : exists f, (forall r, aim (f r) = aim r) /\ (forall r, rr_InboundTag r = [] -> f r = r) /\
  Rules (setDualStack t) = map f (Rules t).
Proof.
  unfold setDualStack. set (tags := twin_tags _ _). set (u := set_inbounds t _).
  assert (Ht : forall r, rr_InboundTag r = [] -> twin_rule tags r = r).
  { intros r Hr. unfold twin_rule. rewrite Hr. cbn. destruct r, ipv6_supported; cbn in *; by rewrite Hr. }
  unfold dns_in_local. destruct (List.find _ _); [|by exists (twin_rule tags)].
  destruct (_ || _); [by exists (twin_rule tags)|]. exists (fun r => local_dns_rule (twin_rule tags r)). split; [|split].
  - intros r. by rewrite local_aim, twin_aim.
  - intros r Hr. rewrite Ht by done. unfold local_dns_rule. by rewrite Hr.
  - cbn. by rewrite map_map.
Qed.

Lemma dual_balancers t : t_Balancers (setDualStack t) = t_Balancers t.
Proof. by destruct (dual_frame t) as (ins & rs & ->). Qed.

Lemma sockopt_names t : outNames (SetOutboundSockopt t) = outNames t.
Proof.
  rewrite !outNames_fold. apply names_of_outbounds. cbn. apply Forall2_fmap_r, Forall_Forall2_diag, Forall_forall. intros o _. cbn.
  by destruct (sockopt_frame (t_Setting t) o) as (_ & -> & ->).
Qed.

Lemma dual_names t : outNames (setDualStack t) = outNames t.
Proof. destruct (dual_frame t) as (ins & rs & ->). done. Qed.

(** The parts of a template that is made. *)
Record parts (infos : list serverInfo) (setting : option Setting) (t : Template) : Prop := {
  pt_rules : exists (f : RoutingRule -> RoutingRule) rs,
    (forall r, aim (f r) = aim r) /\ (forall r, rr_InboundTag r = [] -> f r = r) /\
    Forall (open_aim (outNames t) (fixed_names ++ unchecked)) rs /\
    Rules t = map f (map small_rule (map (group_rule (outNames t)) (map private_rule
      (map whitelist_rule (map node_address infos) ++ rs ++ [rule_to "api-out" ["api-in"%string]]) ++ [spare_rule])))%list;
  pt_balancers : exists gs, NoDup gs /\ (forall g, g ∈ gs <-> outNames t !! g = Some true) /\
    t_Balancers t = map (balancer_for (NewServerData stored_outbound_setting infos)) gs;
  pt_outbounds : exists os, resolved_ok (NewServerData stored_outbound_setting infos) os /\
    Outbounds t = map (outbound_sockopt (effective_setting setting)) (os ++ routingA_outbounds (effective_setting setting))%list;
}.

Lemma made_parts infos setting t : made infos setting t -> parts infos setting t.
Proof.
  intros m. pose proof (made_outbounds _ _ _ m) as Ho. destruct m as [udp t1 t2 t3 H1 H2 H3 H4 H5 H6]. cbn in Ho.
  set (sd := NewServerData stored_outbound_setting infos) in *.
  destruct (route_routed _ _ _ _ H3) as [t4 [R1 R2 R3 R4]]. destruct (inbound_parts _ _ _ H2) as (I1 & I2 & I3).
  pose proof (resolve_ok _ _ _ _ H1) as Hok. apply resolve_frame in H1 as (os & tags & im & ->). cbn in I1, I2, I3.
  assert (En : outNames t = outNames t3) by (by rewrite H4, dual_names, sockopt_names).
  assert (En4 : outNames t3 = outNames t4) by (unfold outNames; by rewrite R1).
  split.
  - destruct (dual_rules (SetOutboundSockopt t3)) as (f & F1 & F2 & F3). exists f, (Rules t4). split; [done|]. split; [done|].
    rewrite En. split.
    + apply R2; [set_solver|]. cbn. rewrite I1. apply custom_open.
    + rewrite H4, F3. f_equal. exact R3.
  - exists (group_names "observe" t4). split; [|split].
    + apply NoDup_ListNoDup, List.NoDup_filter, NoDup_ListNoDup, range_keys_NoDup.
    + intros g. rewrite En, En4. unfold group_names. rewrite list_elem_of_In, filter_In, <-list_elem_of_In, range_keys_spec.
      destruct (outNames t4 !! g) as [[]|]; cbn; naive_solver.
    + rewrite H4, dual_balancers. cbn. rewrite R4. cbn. by rewrite I2.
  - by eexists.
Qed.

(** ** Groups and their outbounds *)

Lemma routingA_alone setting : Forall alone (routingA_outbounds setting).
Proof.
  unfold routingA_outbounds. destruct (String.eqb _ _); [|done]. destruct (RoutingA_Parse _) as [rules|]; [|done].
  unfold defined_outbounds. apply Forall_concat, Forall_map, Forall_forall. intros rule _. cbn.
  destruct rule as [kind [v|name proto]|]; [done| |done].
  unfold defined_outbound. repeat case_match; try done; by constructor.
Qed.

Lemma objects_spec st infos obj uses : (obj, uses) ∈ ServerObj2ServerInfos (NewServerData st infos) <->
  exists link, Link2ServerObj (NewServerData st infos) !! link = Some obj /\
    uses = default [] (Link2ServerInfos (NewServerData st infos) !! link).
Proof.
  unfold ServerObj2ServerInfos. rewrite list_elem_of_omap. setoid_rewrite range_keys_spec. split.
  - intros (link & _ & H). destruct (Link2ServerObj _ !! link) as [o|] eqn:E; [|done]. cbn in H. injection H as -> <-. by exists link.
  - intros (link & H & ->). exists link. split; [by eexists|]. by rewrite H.
Qed.

Lemma group_uses_spec sd uses g i : (g, i) ∈ group_uses sd uses <->
  i ∈ uses /\ is_group sd g = true /\ exists info, ServerInfos sd !! i = Some info /\ OutboundName info = g.
Proof.
  unfold group_uses. rewrite list_elem_of_omap. split.
  - intros (j & Hj & H). destruct (ServerInfos sd !! j) as [info|] eqn:E; [|done]. cbn [mbind option_bind] in H.
    destruct (is_group sd (OutboundName info)) eqn:Eg; [|done]. injection H as <- <-. eauto.
  - intros (Hi & Hg & info & Hf & <-). exists i. split; [done|]. rewrite Hf. cbn [mbind option_bind]. by rewrite Hg.
Qed.

(** A member of a group has an outbound in it. *)
Lemma member_outbound st infos os g x : let sd := NewServerData st infos in resolved_ok sd os ->
  is_group sd g = true -> x ∈ members sd g -> exists o, o ∈ os /\ out_Tag o = GroupWrapper (GetName x) /\ g ∈ Balancers o.
Proof.
  cbn zeta. intros Hok Hg Hx. apply data_members in Hx as (info & Hi & Hn & Hl). apply list_elem_of_lookup in Hi as [i Hi].
  assert (Hu : (g, i) ∈ group_uses (NewServerData st infos) (default [] (Link2ServerInfos (NewServerData st infos) !! link_of info))).
  { apply group_uses_spec. split; [apply data_uses; by exists info|]. split; [done|]. exists info. split; [|done].
    by destruct (data_parts st infos) as (-> & _). }
  destruct (ro_shared _ _ Hok (x, default [] (Link2ServerInfos (NewServerData st infos) !! link_of info))) as (o & Ho & Ht & Hb).
  - apply objects_spec. by eexists.
  - cbn [snd]. intros E. rewrite E in Hu. by apply elem_of_nil in Hu.
  - exists o. split; [done|]. split; [done|]. rewrite Hb. apply list_elem_of_fmap. by exists (g, i).
Qed.

(** What the names say about groups. *)
Lemma group_name infos setting t (P : parts infos setting t) g : outNames t !! g = Some true ->
  is_group (NewServerData stored_outbound_setting infos) g = true.
Proof.
  intros H. apply outNames_value in H as (o & Ho & Hn & Hb). unfold named_by in Hn. destruct (Balancers o) as [|b bs] eqn:E; [done|].
  destruct (pt_outbounds _ _ _ P) as (os & Hok & Hos). rewrite Hos in Ho. apply list_elem_of_fmap in Ho as (o0 & -> & Ho).
  destruct (sockopt_frame (effective_setting setting) o0) as (_ & _ & Eb). rewrite Eb in E. rewrite <-E in Hn.
  apply elem_of_app in Ho as [Ho|Ho].
  - destruct (ro_each _ _ Hok _ Ho) as [Ha|(ou & _ & _ & Hs)]; [unfold alone in Ha; congruence|]. rewrite Hs in Hn.
    apply list_elem_of_fmap in Hn as ([g' i] & -> & Hn). by apply group_uses_spec in Hn as (_ & Hg & _).
  - pose proof (routingA_alone (effective_setting setting)) as Ha. rewrite Forall_forall in Ha. apply Ha in Ho. unfold alone in Ho.
    congruence.
Qed.

Lemma kept_outbound setting os o : o ∈ os ->
  exists o', o' ∈ map (outbound_sockopt setting) os /\ out_Tag o' = out_Tag o /\ Balancers o' = Balancers o /\ out_Protocol o' = out_Protocol o.
Proof.
  intros H. exists (outbound_sockopt setting o). split; [by apply list_elem_of_fmap_2|].
  by destruct (sockopt_frame setting o) as (-> & -> & ->).
Qed.

Lemma balancer_balances infos setting t (P : parts infos setting t) g : outNames t !! g = Some true ->
  balances t (balancer_for (NewServerData stored_outbound_setting infos) g).
Proof.
  intros Hg. apply (group_name _ _ _ P) in Hg. destruct (pt_outbounds _ _ _ P) as (os & Hok & Hos).
  split; [|split; [|split]].
  - unfold balancer_for, selector, members. cbn [Selector]. unfold is_group in Hg.
    destruct (default [] _) as [|x l]; [done|]. done.
  - intros tag Ht. cbn [Selector balancer_for] in Ht. apply list_elem_of_fmap in Ht as (x & -> & Hx).
    destruct (member_outbound _ _ _ _ _ Hok Hg Hx) as (o & Ho & Htag & Hb).
    destruct (kept_outbound (effective_setting setting) (os ++ routingA_outbounds (effective_setting setting)) o) as (o' & Ho' & E1 & E2 & _);
      [set_solver|]. exists o'. rewrite Hos. split; [done|]. rewrite E1, E2. by split.
  - done.
  - destruct (kept_outbound (effective_setting setting) (os ++ routingA_outbounds (effective_setting setting)) (outbound "block" "blackhole"))
      as (o' & Ho' & E1 & _ & E3); [apply elem_of_app; left; apply (ro_block _ _ Hok)|].
    exists o'. rewrite Hos. by rewrite E1, E3.
Qed.

End Closed.
