(* ===== verification/TemplateSafe.v ===== *)
(** * What a generated template guarantees

    The theorems over [NewTemplate]: the names that rules and balancers use are
    defined, traffic to the nodes is direct, groups without members are blocked. *)

From stdpp Require Import gmap.
From S2P Require Import Prelude.
From S2P Require Import NetIP Text Iptables Store NodeRefs Configure DeleteProps Settings CoreConfig ServerData.
From S2P Require Import TemplateData Routing DnsTemplate Template TemplateProps OutboundProps TemplateClosed.

#[local] Open Scope Z_scope.
#[local] Open Scope go_scope.

Lemma first_repeated_NoDup seen l : first_repeated seen l = None -> NoDup l /\ Forall (fun x => x ∉ seen) l.
Proof.
  revert seen. induction l as [|x l IH]; intros seen; cbn [first_repeated]; [by split; constructor|].
  destruct (has x seen) eqn:E; [done|]. apply has_false in E. intros H. apply IH in H as [H1 H2]. rewrite Forall_forall in H2.
  split; constructor; [|done|done|].
  - intros Hx. apply H2 in Hx. apply Hx. left.
  - apply Forall_forall. intros y Hy Hs. apply (H2 y Hy). by right.
Qed.

Lemma repeated_free l : first_repeated [] l = None -> NoDup l.
Proof. intros H. by apply first_repeated_NoDup in H as [? _]. Qed.

(** The first of a list that is taken, when one of a prefix is. *)
Lemma find_app_first {A B} (takes : A -> bool) (g : B -> A) (l : list B) (rest : list A) (Q : A -> Prop) :
  (forall x, x ∈ map g l -> Q x) -> (exists b, b ∈ l /\ takes (g b) = true) ->
  exists x, List.find takes (map g l ++ rest)%list = Some x /\ Q x.
Proof.
  intros HQ (b & Hb & Ht). induction l as [|c l IH]; [by apply elem_of_nil in Hb|]. cbn. destruct (takes (g c)) eqn:E.
  - exists (g c). split; [done|]. apply HQ. left.
  - apply IH; [intros x Hx; apply HQ; by right|]. apply elem_of_cons in Hb as [->|Hb]; [congruence|done].
Qed.

Section Safe.
Context `{OB : ServerObjs} `{N : !Nodes} `{NL : !NodeLaws} `{MO : MapOrder} `{SE : ServiceEnv}.

Lemma tags_NoDup t : checkDuplicatedTags t = Ok tt -> NoDup (map in_Tag (Inbounds t)) /\ NoDup (map out_Tag (Outbounds t)).
Proof.
  unfold checkDuplicatedTags. destruct (first_repeated [] (map in_Tag _)) eqn:E1; [done|].
  destruct (first_repeated [] (map out_Tag _)) eqn:E2; [done|]. intros _. by split; apply repeated_free.
Qed.

Lemma sockets_NoDup t : checkDuplicatedInboundSockets t = Ok tt -> NoDup (map socket_of (Inbounds t)).
Proof. unfold checkDuplicatedInboundSockets. destruct (first_repeated [] _) eqn:E; [done|]. intros _. by apply repeated_free. Qed.

(** Outbounds with the same tag are the same. *)
Lemma tag_unique t o o' : NoDup (map out_Tag (Outbounds t)) -> o ∈ Outbounds t -> o' ∈ Outbounds t -> out_Tag o = out_Tag o' -> o = o'.
Proof.
  intros Hn Ho Ho' E. apply list_elem_of_lookup in Ho as [i Hi]. apply list_elem_of_lookup in Ho' as [j Hj].
  assert (i = j) as ->; [|congruence]. eapply (NoDup_lookup _ _ _ (out_Tag o) Hn); [|rewrite E]; apply list_lookup_fmap_Some; eauto.
Qed.

(** Groups come before the outbound that is direct. *)
Lemma alone_names os tags n : Forall alone os -> tags !! n = Some false -> foldl note_names tags os !! n = Some false.
Proof.
  intros Hf. revert tags. induction Hf as [|o os Ho Hf IH]; intros tags Ht; [done|]. cbn [foldl]. apply IH.
  rewrite note_names_lookup. unfold alone in Ho. rewrite Ho. by destruct (decide _).
Qed.

Lemma direct_name infos setting t : parts infos setting t -> outNames t !! "direct"%string = Some false.
Proof.
  intros P. destruct (pt_outbounds _ _ _ P) as (os & Hok & Hos). rewrite outNames_fold, Hos.
  erewrite (names_of_outbounds (os ++ routingA_outbounds (effective_setting setting))%list).
  - destruct (ro_direct _ _ Hok) as (os1 & os2 & -> & Ha). rewrite <-app_assoc, foldl_app. cbn [app foldl].
    apply alone_names; [apply Forall_app; split; [done|apply routingA_alone]|]. by rewrite note_names_lookup, decide_True.
  - apply Forall2_fmap_r, Forall_Forall2_diag, Forall_forall. intros o _. cbn.
    by destruct (sockopt_frame (effective_setting setting) o) as (_ & -> & ->).
Qed.

Lemma whole_open infos setting t rs : parts infos setting t -> Forall (open_aim (outNames t) (fixed_names ++ unchecked)) rs ->
  Forall (open_aim (outNames t) (fixed_names ++ unchecked))
    (map private_rule (map whitelist_rule (map node_address infos) ++ rs ++ [rule_to "api-out" ["api-in"%string]]) ++ [spare_rule])%list.
Proof.
  intros P Hr. apply Forall_app_2; [|constructor; [|done]; apply rule_to_open; set_solver].
  apply same_aim_open; [apply private_aim|]. apply Forall_app_2; [|apply Forall_app_2; [done|]].
  - apply Forall_map, Forall_forall. intros a _. cbn. unfold whitelist_rule. split; [by destruct (is_some _)|].
    right; left. destruct (is_some _); cbn; set_solver.
  - constructor; [|done]. apply rule_to_open. set_solver.
Qed.

(** C11. A generated template is closed: tags of inbounds and of outbounds,
    the sockets of inbounds and the tags of balancers are distinct; a balancer chooses
    between existing outbounds of its own group, of which there is at least one, and
    falls back to the outbound that blocks; a rule names an outbound or a balancer
    that exists, the API, or nothing.  Only two kinds of names are not checked by the
    code and may be undefined: [proxy], and what the rules of a custom inbound name. *)
Theorem template_is_closed infos setting t : NewTemplate infos setting = Ok t ->
  NoDup (map in_Tag (Inbounds t)) /\ NoDup (map out_Tag (Outbounds t)) /\ NoDup (map socket_of (Inbounds t)) /\
  NoDup (map b_Tag (t_Balancers t)) /\ Forall (balances t) (t_Balancers t) /\
  Forall (fun r => leads t r \/
    rr_BalancerTag r = EmptyString /\ rr_OutboundTag r ∈ unchecked /\ outNames t !! rr_OutboundTag r = None) (Rules t).
Proof.
  intros H. apply template_made in H as [m _]. pose proof (made_parts _ _ _ m) as P.
  destruct (tags_NoDup _ (md_5 _ _ _ m)) as [Hi Ho]. pose proof (sockets_NoDup _ (md_6 _ _ _ m)) as Hs.
  destruct (pt_balancers _ _ _ P) as (gs & Hn & Hgs & Hb). repeat (split; [done|]). rewrite Hb. split; [|split].
  - rewrite map_map. cbn. by rewrite map_id.
  - apply Forall_map, Forall_forall. intros g Hg. apply (balancer_balances _ _ _ P), Hgs, Hg.
  - destruct (pt_rules _ _ _ P) as (f & rs & F1 & _ & F3 & ->). pose proof (whole_open _ _ _ _ P F3) as Hopen.
    apply Forall_map, Forall_map, Forall_map. eapply Forall_impl; [exact Hopen|]. intros r Hr. cbn.
    apply open_group in Hr. set (r' := group_rule _ r) in *. unfold leads. rewrite Hb.
    assert (E : aim (f (small_rule r')) = aim r') by (by rewrite F1, small_aim). injection E as -> ->.
    destruct Hr as [[E1 [E2|[E2|[E2 E3]]]]|[E1 E2]].
    + left; left; auto.
    + left; left. split; [done|]. right; right. apply outNames_value in E2 as (o & Hin & Hnm & Hbal). unfold named_by in Hnm.
      destruct (Balancers o); [|done]. rewrite <-Hnm. by apply list_elem_of_fmap_2.
    + apply elem_of_app in E2 as [E2|E2]; [|by right]. unfold fixed_names in E2.
      rewrite !elem_of_cons, elem_of_nil in E2. destruct E2 as [E2|[E2|[E2|[]]]].
      * rewrite E2, (direct_name _ _ _ P) in E3. done.
      * right. rewrite E2 in *. repeat split; [done|left|done].
      * left; left. auto.
    + left; right. split; [done|]. rewrite map_map. cbn. rewrite map_id. by apply Hgs.
Qed.

(** ** Traffic to the nodes *)

Lemma address_plain a x : x ∈ rr_IP (whitelist_rule a) -> x <> "geoip:private"%string /\ x <> "geoip:cn"%string.
Proof.
  unfold whitelist_rule. destruct (ParseIP (fst a)) as [ip|] eqn:E; cbn; [|by intros ?%elem_of_nil]. intros ->%list_elem_of_singleton.
  split; intros E'; rewrite E' in E; vm_compute in E; done.
Qed.

(** The later passes do not touch the rules of the nodes. *)
Lemma whitelist_kept names a : names !! "direct"%string = Some false ->
  small_rule (group_rule names (private_rule (whitelist_rule a))) = whitelist_rule a.
Proof.
  intros Hd. pose proof (address_plain a) as Hx. assert (E : private_rule (whitelist_rule a) = whitelist_rule a).
  { unfold private_rule. destruct (has _ _) eqn:E; [|done]. apply has_spec in E. by destruct (Hx _ E). }
  rewrite E. assert (Et : rr_OutboundTag (whitelist_rule a) = "direct"%string) by (unfold whitelist_rule; by destruct (is_some _)).
  assert (Eg : group_rule names (whitelist_rule a) = whitelist_rule a) by (unfold group_rule; by rewrite Et, Hd). rewrite Eg.
  unfold small_rule. destruct (asset _); [|done]. assert (Em : map small_geoip (rr_IP (whitelist_rule a)) = rr_IP (whitelist_rule a)).
  { rewrite <-(map_id (rr_IP _)) at 2. apply map_ext_in. intros x Hin%list_elem_of_In. apply Hx in Hin as [H1 H2]. unfold small_geoip.
    destruct (has x _) eqn:Eh; [|done]. apply has_spec in Eh. rewrite !elem_of_cons, elem_of_nil in Eh. naive_solver. }
  rewrite Em. by destruct (whitelist_rule a).
Qed.

(** C13. Traffic to a connected node is never sent into the proxy: the rules of
    the nodes come first in a generated template, unchanged by the later passes, so
    whatever a connection is matched by, when a rule of a node takes it the first rule
    that takes it is one to the outbound [direct].  That outbound exists, is the only
    one of its name, connects directly, and carries the mark while a transparent proxy
    is on. *)
Theorem node_traffic_is_direct infos setting t : NewTemplate infos setting = Ok t ->
  (exists rest, Rules t = (map whitelist_rule (map node_address infos) ++ rest)%list) /\
  (forall (takes : RoutingRule -> bool) info, info ∈ infos -> takes (whitelist_rule (node_address info)) = true ->
     exists r, List.find takes (Rules t) = Some r /\ aim r = ("direct"%string, EmptyString) /\ rr_InboundTag r = []) /\
  exists o, o ∈ Outbounds t /\ out_Tag o = "direct"%string /\ out_Protocol o = "freedom"%string /\
    (transparent_on env_lite (effective_setting setting) = true -> mark_of o = Some 128) /\
    forall o', o' ∈ Outbounds t -> out_Tag o' = "direct"%string -> o' = o.
Proof.
  intros H. apply template_made in H as [m _]. pose proof (made_parts _ _ _ m) as P. pose proof (direct_name _ _ _ P) as Hd.
  assert (Hrest : exists rest, Rules t = (map whitelist_rule (map node_address infos) ++ rest)%list).
  { destruct (pt_rules _ _ _ P) as (f & rs & _ & F2 & _ & ->). rewrite (map_app private_rule), <-app_assoc, !map_app, !map_map.
    eexists. f_equal. apply map_ext. intros info. rewrite whitelist_kept by done. apply F2. unfold whitelist_rule.
    by destruct (is_some _). }
  split; [done|]. split.
  - intros takes info Hin Ht. destruct Hrest as [rest ->]. rewrite map_map.
    apply find_app_first; [|by exists info]. intros r Hr. apply list_elem_of_fmap in Hr as (a & -> & _). unfold whitelist_rule. by destruct (is_some _).
  - destruct (tags_NoDup _ (md_5 _ _ _ m)) as [_ Hn]. destruct (pt_outbounds _ _ _ P) as (os & Hok & Hos).
    destruct (ro_direct _ _ Hok) as (os1 & os2 & Eo & _). exists (outbound_sockopt (effective_setting setting) (outbound "direct" "freedom")).
    assert (Hin : outbound_sockopt (effective_setting setting) (outbound "direct" "freedom") ∈ Outbounds t).
    { rewrite Hos. apply list_elem_of_fmap_2. rewrite Eo. set_solver. }
    destruct (sockopt_frame (effective_setting setting) (outbound "direct" "freedom")) as (E1 & E2 & _).
    split; [done|]. split; [done|]. split; [done|]. split.
    + intros Ht. by apply sockopt_mark.
    + intros o' Ho' Et. eapply tag_unique; [done|done|done|]. by rewrite Et, E2.
Qed.

(** ** Groups without members *)

Lemma no_members st infos name : (forall info, info ∈ infos -> OutboundName info <> name) -> members (NewServerData st infos) name = [].
Proof.
  intros H. destruct (members (NewServerData st infos) name) as [|x l] eqn:E; [done|].
  assert (Hx : x ∈ members (NewServerData st infos) name) by (rewrite E; left).
  apply data_members in Hx as (info & Hi & Hn & _). by destruct (H info).
Qed.

Lemma not_group st infos name : members (NewServerData st infos) name = [] -> is_group (NewServerData st infos) name = false.
Proof. unfold members, is_group. by intros ->. Qed.

(** C28. A group that fills itself or keeps its node fails closed: when no
    connected node is in it, a generated template has exactly one outbound of its
    name, which drops the traffic, and no balancer of that name; the default group's
    is the first outbound, so that traffic no rule takes is dropped too. *)
Theorem empty_group_blocks infos setting t name : NewTemplate infos setting = Ok t -> name ∈ stored_outbounds ->
  AutoAdd (stored_outbound_setting name) = true \/ os_Type (stored_outbound_setting name) = KeepCurrent ->
  (forall info, info ∈ infos -> OutboundName info <> name) ->
  name ∉ map b_Tag (t_Balancers t) /\
  exists o, o ∈ Outbounds t /\ out_Tag o = name /\ out_Protocol o = "blackhole"%string /\
    (forall o', o' ∈ Outbounds t -> out_Tag o' = name -> o' = o) /\
    (name = DefaultOutboundName -> head (Outbounds t) = Some o).
Proof.
  intros H Hs Hc Hm. apply template_made in H as [m _]. pose proof (made_parts _ _ _ m) as P.
  apply (no_members stored_outbound_setting) in Hm. assert (Hf : fail_closed name = true).
  { unfold fail_closed. destruct Hc as [->|Hc]; [done|]. rewrite Hc. apply orb_true_r. }
  destruct (pt_outbounds _ _ _ P) as (os & Hok & Hos). destruct (tags_NoDup _ (md_5 _ _ _ m)) as [_ Hn]. split.
  - destruct (pt_balancers _ _ _ P) as (gs & _ & Hgs & ->). rewrite map_map. cbn. rewrite map_id. intros Hg%Hgs.
    apply (group_name _ _ _ P) in Hg. by rewrite not_group in Hg.
  - pose proof (ro_blocked _ _ Hok _ Hs Hm Hf) as Hb. exists (outbound_sockopt (effective_setting setting) (outbound name "blackhole")).
    destruct (sockopt_frame (effective_setting setting) (outbound name "blackhole")) as (E1 & E2 & _).
    assert (Hin : outbound_sockopt (effective_setting setting) (outbound name "blackhole") ∈ Outbounds t).
    { rewrite Hos. apply list_elem_of_fmap_2. set_solver. }
    split; [done|]. split; [done|]. split; [done|]. split.
    + intros o' Ho' Et. eapply tag_unique; [done|done|done|]. by rewrite Et, E2.
    + intros ->. rewrite Hos. pose proof (ro_first _ _ Hok Hs Hm Hf) as Hh. destruct os as [|o os]; [done|]. injection Hh as ->. done.
Qed.

End Safe.
