(* ===== verification/DnsTemplateProps.v ===== *)
(** * The DNS configuration from the service to the core

    What the service generates is what the core reads, names only upstreams that
    it defines, and lets the names of the nodes be resolved outside the proxy. *)

From stdpp Require Import gmap pretty.
From S2P Require Import Prelude.
From S2P Require Import NetIP Text Iptables Configure Settings DnsMsg DnsConfig Rule Router CoreConfig TemplateData DnsTemplate TemplateProps.

#[local] Open Scope Z_scope.
#[local] Open Scope go_scope.

(** ** Reading lists *)

Lemma map_result_map {A B C} (f : B -> result C) (g : A -> B) (h : A -> C) l :
  (forall x, x ∈ l -> f (g x) = Ok (h x)) -> map_result f (map g l) = Ok (map h l).
Proof.
  induction l as [|x l IH]; intros H; [done|]. cbn [map map_result]. rewrite H by left. rewrite IH; [done|].
  intros y Hy. apply H. by right.
Qed.

Lemma map_result_err {A B} (f : A -> result B) l : Exists (fun x => exists e, f x = Err e) l -> exists e, map_result f l = Err e.
Proof.
  induction 1 as [x l [e H]|x l _ [e IH]]; cbn [map_result]; [rewrite H; by eexists|]. rewrite IH. by destruct (f x); eexists.
Qed.

Lemma read_strings l : as_list as_string (JStrs l) = Ok l.
Proof. unfold JStrs. cbn [as_list]. rewrite (map_result_map _ _ id); [by rewrite map_id|done]. Qed.

Lemma read_nullable l : as_list as_string (match l with [] => JNull | _ => JStrs l end) = Ok l.
Proof. destruct l as [|x l]; [done|]. apply read_strings. Qed.

Section Dns.
Context `{SE : ServiceEnv}.
Variable StringToType : string -> option Z.

(** ** The configuration that is meant *)

Definition core_upstream (u : dns_upstream_cfg) : UpstreamConfig :=
  mkUpstreamConfig (duc_id u) (duc_addr u) (duc_protocol u) (duc_proxy_tag u) false "".

Definition types_of (r : dns_rule_cfg) : list string := default [] (drc_query_type r).

Definition core_rule (r : dns_rule_cfg) : RuleConfig :=
  mkRuleConfig (drc_id r) (drc_domain r) (drc_domain_suffix r) [] (drc_ip r)
    (omap (fun ty => StringToType (ToUpper ty)) (types_of r)) (drc_client_ip r) (drc_upstream r) (drc_action r) (drc_policy r).

Definition core_proxies (tags : list string) : gmap string string :=
  list_to_map (map (fun tag => (tag, "127.0.0.1:" +:+ dec socks_port)) tags).

Definition core_config (setting : Setting) (hosts : list string) : DnsModuleConfig :=
  let g := dns_generated hosts in
  mkModuleConfig (mkListenerConfig (dnsModuleListenAddr setting) (dnsModuleExtraListenAddrs setting) 5)
    (mkCacheConfig (DnsCacheEnabled setting) (or_default (DnsCacheSize setting) 4096) (or_default (DnsCacheMinTTL setting) 60)
       (or_default (DnsCacheMaxTTL setting) 86400) (DnsPrefetch setting) 0 (DnsNegativeCache setting))
    (map core_upstream (g_upstreams g)) (map core_rule (rulesList g)) (defaultUpstream g) (core_proxies (proxyMap g))
    (Deduplicate (bootstrapList g)) dns_bootstrap (TunEgressInterfaceIfTun setting).

Definition known_types (r : dns_rule_cfg) : Prop := Forall (fun ty => is_Some (StringToType (ToUpper ty))) (types_of r).

(** ** Reading the parts *)

Lemma read_types l : Forall (fun ty => is_Some (StringToType (ToUpper ty))) l ->
  map_result (QueryType_UnmarshalJSON StringToType) (map JStr l) = Ok (omap (fun ty => StringToType (ToUpper ty)) l).
Proof.
  induction 1 as [|ty l [n Hn] Hl IH]; [done|]. cbn [map map_result QueryType_UnmarshalJSON omap list_omap]. by rewrite Hn, IH.
Qed.

Lemma refuse_types l : ~ Forall (fun ty => is_Some (StringToType (ToUpper ty))) l ->
  exists e, map_result (QueryType_UnmarshalJSON StringToType) (map JStr l) = Err e.
Proof.
  induction l as [|ty l IH]; intros H; [by destruct H|]. cbn [map map_result QueryType_UnmarshalJSON].
  destruct (StringToType (ToUpper ty)) as [n|] eqn:E; [|by eexists]. destruct IH as [e ->]; [|by eexists].
  intros Hl. apply H. constructor; [by eexists|done].
Qed.

Lemma read_upstream u : decode_upstream (json_of_upstream u) = Ok (core_upstream u).
Proof. done. Qed.

Local Ltac read_rule r :=
  unfold decode_rule, json_of_rule; cbn [as_object app field String.eqb Ascii.eqb Bool.eqb]; rewrite ?read_nullable;
  cbn [field String.eqb Ascii.eqb Bool.eqb as_string].

Lemma read_rule r : known_types r -> decode_rule StringToType (json_of_rule r) = Ok (core_rule r).
Proof.
  intros H. read_rule r. unfold known_types, core_rule, types_of in *. destruct (drc_query_type r) as [l|]; [|done].
  cbn in *. apply read_types in H. destruct l as [|ty l]; [done|]. cbn [as_list JStrs]. by rewrite H.
Qed.

Lemma refuse_rule r : ~ known_types r -> exists e, decode_rule StringToType (json_of_rule r) = Err e.
Proof.
  intros H. read_rule r. unfold known_types, types_of in *. destruct (drc_query_type r) as [l|]; [|by destruct H; constructor].
  cbn in *. apply refuse_types in H as [e H]. destruct l as [|ty l]; [done|]. cbn [as_list JStrs]. rewrite H. by eexists.
Qed.

(** ** The generator *)

Definition ids (g : dns_gen) : list string := map duc_id (g_upstreams g).

Record gen_ok (g : dns_gen) : Prop := {
  go_ids : ids g = map upstream_id (seq 0 (length (g_upstreams g)));
  go_seen a tag i : (a, tag, i) ∈ seenUpstream g -> (i < length (g_upstreams g))%nat;
  go_rules : Forall (fun r => drc_upstream r ∈ ids g) (rulesList g);
  go_default : defaultUpstream g = EmptyString \/ defaultUpstream g ∈ ids g;
  go_tags : Forall (fun u => has (duc_proxy_tag u) ["direct"; "block"]%string = true \/ duc_proxy_tag u ∈ proxyMap g) (g_upstreams g);
  go_proxies : NoDup (proxyMap g);
}.

Lemma seen_at_elem a tag l i : seen_at a tag l = Some i -> (a, tag, i) ∈ l.
Proof.
  induction l as [|[[a' t'] j] l IH]; [done|]. cbn [seen_at]. destruct (String.eqb_spec a' a) as [->|]; cbn [andb].
  - destruct (String.eqb_spec t' tag) as [->|]; [intros [= ->]; left|]. intros H. right. by apply IH.
  - intros H. right. by apply IH.
Qed.

Lemma ids_lookup g i : gen_ok g -> (i < length (g_upstreams g))%nat -> upstream_id i ∈ ids g.
Proof.
  intros [H _ _ _ _ _] Hi. rewrite H. apply list_elem_of_fmap. exists i. split; [done|]. apply elem_of_seq. lia.
Qed.

(** The set of proxies once a tag is noted. *)
Lemma proxies_step (tag : string) (ps : list string) : NoDup ps ->
  let ps' := if has tag ["direct"; "block"]%string || has tag ps then ps else (ps ++ [tag])%list in
  NoDup ps' /\ ps ⊆ ps' /\ (has tag ["direct"; "block"]%string = true \/ tag ∈ ps').
Proof.
  intros Hn. cbn zeta. destruct (has tag ["direct"; "block"]%string); cbn [orb]; [by repeat split; try left|].
  destruct (has tag ps) eqn:E; [apply has_spec in E; by repeat split; try right|]. apply has_false in E. split; [|split].
  - apply NoDup_app. split; [done|]. split; [|apply NoDup_singleton]. intros x Hx ->%list_elem_of_singleton. done.
  - set_solver.
  - right. set_solver.
Qed.

Lemma note_upstream_ok rule g : gen_ok g -> let r := note_upstream rule g in
  gen_ok (snd r) /\ fst r ∈ ids (snd r) /\ rulesList (snd r) = rulesList g.
Proof.
  intros Hg. pose proof Hg as [G1 G2 G3 G4 G5 G6]. cbn zeta. unfold note_upstream.
  destruct (upstream_of (rule_upstream rule)) as [proto addr]. set (boots := if negb _ && negb _ then _ else _).
  set (tag := if String.eqb (dr_Outbound rule) "" then "direct"%string else dr_Outbound rule).
  destruct (proxies_step tag _ G6) as (P1 & P2 & P3). set (ps := if _ || _ then _ else _) in *.
  assert (G5' : Forall (fun u => has (duc_proxy_tag u) ["direct"; "block"]%string = true \/ duc_proxy_tag u ∈ ps) (g_upstreams g)).
  { eapply Forall_impl; [exact G5|]. intros u [H|H]; auto. }
  destruct (seen_at addr tag (seenUpstream g)) as [i|] eqn:E; cbn [fst snd].
  - apply seen_at_elem, G2 in E. split; [split; [exact G1|exact G2|exact G3|exact G4|exact G5'|exact P1]|]. split; [|done]. by apply ids_lookup.
  - assert (Ei : ids (mkDnsGen ps boots (seenUpstream g ++ [(addr, tag, length (g_upstreams g))])
        (g_upstreams g ++ [mkDnsUpstreamCfg (upstream_id (length (g_upstreams g))) addr proto tag]) (rulesList g) (defaultUpstream g)) =
      (ids g ++ [upstream_id (length (g_upstreams g))])%list) by (unfold ids; cbn [g_upstreams]; by rewrite map_app).
    split; [|split; [rewrite Ei; set_solver|done]]. split; rewrite ?Ei; cbn [g_upstreams seenUpstream rulesList defaultUpstream proxyMap].
    + rewrite length_app, Nat.add_1_r, seq_S, map_app, G1. cbn. by rewrite <-G1.
    + intros a t i [H|H]%elem_of_app; rewrite length_app; cbn; [apply G2 in H; lia|].
      apply list_elem_of_singleton in H. injection H as _ _ ->. lia.
    + eapply Forall_impl; [exact G3|]. intros r Hr. cbn in *. set_solver.
    + destruct G4 as [->|H]; [by left|right; set_solver].
    + apply Forall_app. split; [done|]. by constructor.
    + done.
Qed.

Lemma add_dns_rule_ok g rule : gen_ok g -> gen_ok (add_dns_rule g rule).
Proof.
  intros Hg. unfold add_dns_rule. destruct (String.eqb _ ""); [done|].
  destruct (note_upstream_ok rule g Hg) as ([G1 G2 G3 G4 G5 G6] & Hi & _). destruct (note_upstream rule g) as [id g1]. cbn [fst snd] in *.
  destruct (split_domains _) as [ds sfx].
  set (cip := trimmed_items (Split_byte "," (dr_ClientIP rule))). set (ips := trimmed_items (Split_byte "," (dr_IP rule))).
  assert (Hd : gen_ok (set_defaultUpstream g1 id)) by (split; try assumption; by right).
  destruct ds, sfx, cip, ips; try done.
  all: split; try assumption; apply Forall_app; by split; [|constructor].
Qed.

Lemma generated_ok rules g : gen_ok g -> gen_ok (foldl add_dns_rule g rules).
Proof. revert g. induction rules as [|r rules IH]; intros g Hg; [done|]. cbn [foldl]. by apply IH, add_dns_rule_ok. Qed.

Lemma empty_gen_ok : gen_ok (mkDnsGen [] [] [] [] [] "").
Proof. split; try done; [by intros a t i ?%elem_of_nil|by left|apply NoDup_nil_2]. Qed.

Lemma rules_gen_ok : gen_ok (foldl add_dns_rule (mkDnsGen [] [] [] [] [] "") migrated_rules).
Proof. apply generated_ok, empty_gen_ok. Qed.

(** With the rule of the nodes in front. *)
Lemma upstream_id_inj i j : upstream_id i = upstream_id j -> i = j.
Proof. unfold upstream_id. intros H%app_inj_l. unfold dec in H. apply (inj pretty) in H. lia. Qed.

Lemma digits_not_node x s : s <> "node"%string -> pretty_N_go x s <> "node"%string.
Proof.
  revert s. induction (N.lt_wf_0 x) as [x _ IH]; intros s Hs. assert (x = 0 \/ 0 < x)%N as [->|?] by lia; [by rewrite pretty_N_go_0|].
  rewrite pretty_N_go_step by done. apply IH; [by apply N.div_lt|]. unfold pretty_N_char. by repeat case_match.
Qed.

Lemma dec_not_node z : dec z <> "node"%string.
Proof.
  unfold dec, pretty, pretty_Z, pretty, pretty_N. destruct z as [|p|p]; [done| |done].
  by apply (digits_not_node (N.pos p) EmptyString).
Qed.

Lemma upstream_id_node i : upstream_id i <> "upstream-node"%string.
Proof.
  unfold upstream_id. change "upstream-node"%string with ("upstream-" +:+ "node")%string. intros H%app_inj_l.
  by apply dec_not_node in H.
Qed.

Record config_ok (g : dns_gen) : Prop := {
  co_ids : NoDup (ids g);
  co_rules : Forall (fun r => drc_upstream r ∈ ids g) (rulesList g);
  co_default : defaultUpstream g = EmptyString \/ defaultUpstream g ∈ ids g;
  co_tags : Forall (fun u => has (duc_proxy_tag u) ["direct"; "block"]%string = true \/ duc_proxy_tag u ∈ proxyMap g) (g_upstreams g);
  co_proxies : NoDup (proxyMap g);
}.

Lemma generated_config hosts : config_ok (dns_generated hosts).
Proof.
  unfold dns_generated. pose proof rules_gen_ok as [G1 G2 G3 G4 G5 G6]. set (g := foldl _ _ _) in *.
  assert (Hn : NoDup (ids g)).
  { rewrite G1. apply NoDup_fmap_2; [|apply NoDup_seq]. intros i j. apply upstream_id_inj. }
  unfold add_node_rule. destruct (node_domains hosts) as [|d ds]; [by split|].
  split; cbn [rulesList defaultUpstream g_upstreams proxyMap]; [| | |by constructor; [left|]|done].
  - change (ids _) with ("upstream-node"%string :: ids g). constructor; [|done]. rewrite G1. intros (i & Hi & _)%list_elem_of_fmap.
    by destruct (upstream_id_node i).
  - constructor; [left|]. eapply Forall_impl; [exact G3|]. intros r Hr. by right.
  - destruct G4 as [H|H]; [by left|right; by right].
Qed.

(** ** Reading the configuration *)

Lemma read_proxies tags : NoDup tags ->
  decode_map (JObj (map (fun tag => (tag, JStr ("127.0.0.1:" +:+ dec socks_port))) tags)) = Ok (core_proxies tags).
Proof.
  intros Hn. unfold decode_map. cbn [as_object].
  rewrite (map_result_map _ _ (fun tag => (tag, "127.0.0.1:" +:+ dec socks_port))) by done. f_equal. unfold core_proxies.
  set (v := "127.0.0.1:" +:+ dec socks_port). apply map_eq. intros k.
  assert (H : forall m, foldl (fun m kv => <[kv.1 := kv.2]> m) m (map (fun tag => (tag, v)) tags) !! k =
    if decide (k ∈ tags) then Some v else (m : gmap string string) !! k).
  { clear Hn. induction tags as [|x tags IH]; intros m; cbn [map foldl]; [by rewrite decide_False by apply not_elem_of_nil|].
    rewrite IH. cbn [fst snd]. destruct (decide (k ∈ tags)) as [Hk|Hk]; [by rewrite decide_True by (by right)|].
    destruct (decide (x = k)) as [->|Hne]; [by rewrite lookup_insert_eq, decide_True by left|].
    rewrite lookup_insert_ne by done. rewrite decide_False; [done|]. intros [->|?]%elem_of_cons; done. }
  rewrite H, lookup_empty. clear H Hn. induction tags as [|x tags IH]; cbn [map list_to_map foldr]; [done|].
  destruct (decide (x = k)) as [->|Hne]; [by rewrite decide_True, lookup_insert_eq by left|].
  cbn. rewrite lookup_insert_ne by done. rewrite <-IH. destruct (decide (k ∈ tags)) as [Hk|Hk]; [by rewrite decide_True by (by right)|].
  rewrite decide_False; [done|]. intros [->|?]%elem_of_cons; done.
Qed.

Lemma listen_addr_set setting : dnsModuleListenAddr setting <> EmptyString.
Proof.
  unfold dnsModuleListenAddr. destruct (String.eqb_spec (DnsListenAddr setting) ""); cbn; repeat case_match; done.
Qed.

Lemma or_default_pos n d : 0 < d -> (if or_default n d <=? 0 then d else or_default n d) = or_default n d.
Proof. intros H. unfold or_default. destruct (Z.leb_spec n 0); destruct (Z.leb_spec d 0), (Z.leb_spec n 0); lia. Qed.

Lemma defaults_config setting hosts : apply_defaults (core_config setting hosts) = core_config setting hosts.
Proof.
  unfold apply_defaults, core_config. cbn -[or_default String.eqb dnsModuleListenAddr dns_generated].
  rewrite !or_default_pos by lia. destruct (String.eqb_spec (dnsModuleListenAddr setting) ""); [by destruct (listen_addr_set setting)|done].
Qed.

Lemma read_config setting hosts : Forall (known_types) (rulesList (dns_generated hosts)) ->
  decode_config StringToType (generateDnsModuleConfig setting hosts) = Ok (core_config setting hosts).
Proof.
  intros H. pose proof (co_proxies _ (generated_config hosts)) as Hp. unfold core_config, generateDnsModuleConfig.
  set (g := dns_generated hosts) in *. unfold decode_config. cbn [as_object field String.eqb Ascii.eqb Bool.eqb].
  unfold decode_listener, decode_cache. cbn [as_object field String.eqb Ascii.eqb Bool.eqb as_string as_int as_bool].
  rewrite !read_strings, read_proxies by done. cbn [as_list].
  rewrite (map_result_map _ _ core_upstream) by (intros; apply read_upstream).
  rewrite (map_result_map _ _ core_rule); [done|]. intros r Hr. apply read_rule. rewrite Forall_forall in H. by apply H.
Qed.

Lemma refuse_config setting hosts : ~ Forall known_types (rulesList (dns_generated hosts)) ->
  exists e, decode_config StringToType (generateDnsModuleConfig setting hosts) = Err e.
Proof.
  intros H. unfold generateDnsModuleConfig. set (g := dns_generated hosts) in *. unfold decode_config.
  cbn [as_object field String.eqb Ascii.eqb Bool.eqb].
  unfold decode_listener, decode_cache. cbn [as_object field String.eqb Ascii.eqb Bool.eqb as_string as_int as_bool].
  rewrite !read_strings. cbn [as_list]. rewrite (map_result_map _ _ core_upstream) by (intros; apply read_upstream).
  destruct (map_result_err (decode_rule StringToType) (map json_of_rule (rulesList g))) as [e ->]; [|by eexists].
  apply Exists_fmap. assert (Hd : forall r, Decision (known_types r)).
  { intros r. unfold known_types. apply Forall_dec. intros ty. destruct (StringToType _); [left; by eexists|right; by intros [? ?]]. }
  apply (not_Forall_Exists _) in H. eapply Exists_impl; [exact H|]. intros r Hr. by apply refuse_rule.
Qed.

Lemma extracted setting hosts : Forall known_types (rulesList (dns_generated hosts)) ->
  extractDnsModuleConfig StringToType (Some (generateDnsModuleConfig setting hosts)) = Ok (Some (core_config setting hosts)).
Proof. intros H. unfold extractDnsModuleConfig. by rewrite read_config, defaults_config. Qed.

Lemma extracted_inv setting hosts c :
  extractDnsModuleConfig StringToType (Some (generateDnsModuleConfig setting hosts)) = Ok (Some c) -> c = core_config setting hosts.
Proof.
  assert (Hd : Decision (Forall known_types (rulesList (dns_generated hosts)))).
  { apply Forall_dec. intros r. unfold known_types. apply Forall_dec. intros ty.
    destruct (StringToType _); [left; by eexists|right; by intros [? ?]]. }
  destruct Hd as [H|H]; [rewrite extracted by done; by intros [= <-]|].
  unfold extractDnsModuleConfig. by destruct (refuse_config setting hosts H) as [e ->].
Qed.

(** C14. The core reads from the configuration of the DNS module exactly what
    the service put into it: listeners, cache with the bounds that are set or their
    defaults, upstreams, rules in their order with their types as numbers, default
    upstream, proxies, names to look up first and the servers for that, and the
    interface.  It refuses the configuration exactly when a rule lists a query type
    whose name the DNS library does not know. *)
Theorem dns_config_arrives setting hosts :
  (Forall known_types (rulesList (dns_generated hosts)) ->
   extractDnsModuleConfig StringToType (Some (generateDnsModuleConfig setting hosts)) = Ok (Some (core_config setting hosts))) /\
  (~ Forall known_types (rulesList (dns_generated hosts)) ->
   exists e, extractDnsModuleConfig StringToType (Some (generateDnsModuleConfig setting hosts)) = Err e).
Proof.
  split; [apply extracted|]. intros H. unfold extractDnsModuleConfig. destruct (refuse_config setting hosts H) as [e ->]. by eexists.
Qed.

(** C30. The configuration that the core reads is closed: the ids of the
    upstreams are distinct, every rule and the default name one of them (or there is
    no default), and every upstream is reached directly, blocked, or has a proxy. *)
Theorem dns_config_is_closed setting hosts c :
  extractDnsModuleConfig StringToType (Some (generateDnsModuleConfig setting hosts)) = Ok (Some c) ->
  NoDup (map uc_ID (mc_Upstreams c)) /\
  Forall (fun r => rc_Upstream r ∈ map uc_ID (mc_Upstreams c)) (mc_Rules c) /\
  (mc_DefaultUpstream c = EmptyString \/ mc_DefaultUpstream c ∈ map uc_ID (mc_Upstreams c)) /\
  Forall (fun u => uc_ProxyTag u = "direct"%string \/ uc_ProxyTag u = "block"%string \/ is_Some (mc_ProxyMap c !! uc_ProxyTag u))
    (mc_Upstreams c).
Proof.
  intros ->%extracted_inv. destruct (generated_config hosts) as [G1 G2 G3 G4 G5]. unfold core_config.
  set (g := dns_generated hosts) in *. cbn [mc_Upstreams mc_Rules mc_DefaultUpstream mc_ProxyMap].
  assert (Ei : map uc_ID (map core_upstream (g_upstreams g)) = ids g) by (rewrite map_map; done). rewrite Ei.
  split; [done|]. split; [by apply Forall_map|]. split; [done|]. apply Forall_map. eapply Forall_impl; [exact G4|]. intros u [H|H]; cbn.
  - apply has_spec in H. rewrite !elem_of_cons, elem_of_nil in H. naive_solver.
  - right; right. unfold core_proxies. eexists. apply elem_of_list_to_map.
    + rewrite map_map. cbn. by rewrite map_id.
    + apply list_elem_of_fmap. by eexists.
Qed.

End Dns.

(** ** Names of the nodes in the core's router *)

Section NodeNames.
Context `{SE : ServiceEnv} `{RX : Regexp}.
Variable StringToType : string -> option Z.

Lemma dedup_elem seen l x : x ∈ dedup_from seen l <-> x ∈ l /\ x ∉ seen.
Proof.
  revert seen. induction l as [|v l IH]; intros seen; cbn [dedup_from]; [rewrite elem_of_nil; naive_solver|].
  destruct (has v seen) eqn:E; rewrite elem_of_cons, ?elem_of_cons, IH, ?elem_of_cons.
  - apply has_spec in E. split; [naive_solver|]. intros [[->|H] Hs]; done.
  - apply has_false in E. destruct (decide (x = v)) as [->|Hne]; naive_solver.
Qed.

Lemma Deduplicate_elem l x : x ∈ Deduplicate l <-> x ∈ l.
Proof. unfold Deduplicate. rewrite dedup_elem, elem_of_nil. naive_solver. Qed.

Lemma node_domains_elem hosts host : host ∈ hosts -> host <> EmptyString -> ParseIP host = None -> host ∈ node_domains hosts.
Proof.
  intros H He Hp. apply Deduplicate_elem, list_elem_of_In, filter_In. rewrite <-list_elem_of_In, Hp. split; [done|]. by destruct host.
Qed.

(** The addresses of 127.0.0.0/8, in both forms, and ::1. *)
Definition loopback_address (ip : list Z) : Prop :=
  (exists a b c, ip = [127; a; b; c]) \/ (exists a b c, ip = [0; 0; 0; 0; 0; 0; 0; 0; 0; 0; 255; 255; 127; a; b; c]) \/
  ip = [0; 0; 0; 0; 0; 0; 0; 0; 0; 0; 0; 0; 0; 0; 0; 1].

Lemma IsLoopback_spec ip : IsLoopback ip = true <-> loopback_address ip.
Proof.
  unfold IsLoopback, To4, loopback_address. split.
  - destruct (Nat.eqb_spec (length ip) 4) as [H4|H4].
    { destruct ip as [|x [|y [|z [|w [|? ?]]]]]; try discriminate. unfold nth_byte. cbn [nth]. intros ->%Z.eqb_eq. left. eauto. }
    destruct (Nat.eqb_spec (length ip) 16) as [H16|H16]; cbn [andb].
    + do 16 (destruct ip as [|? ip]; [discriminate|]). destruct ip; [|discriminate].
      case_bool_decide as Ht; cbn [take] in Ht.
      * unfold v4in6_prefix in Ht. simplify_eq. unfold nth_byte. cbn [drop nth]. intros ->%Z.eqb_eq. right. left. eauto.
      * unfold IP_Equal, IPv6loopback. cbn. intros H%bool_decide_eq_true. auto.
    + unfold IP_Equal, IPv6loopback. cbn [length replicate app]. rewrite (proj2 (Nat.eqb_neq _ _) H16), (proj2 (Nat.eqb_neq _ _) H4). done.
  - intros [(a & b & c & ->)|[(a & b & c & ->)| ->]]; done.
Qed.

(** A server that is given as an IP address, not one of the loopback interface,
    with a port. *)
Definition answers_nodes (s : string) : Prop :=
  exists host port ip, SplitHostPort s = Ok (host, port) /\ ParseIP host = Some ip /\ ~ loopback_address ip.

Lemma usable_server_spec s : usable_server s = true <-> answers_nodes s.
Proof.
  unfold usable_server, answers_nodes. destruct (SplitHostPort s) as [[host port]|e]; [|naive_solver].
  destruct (ParseIP host) as [ip|] eqn:E; [|naive_solver]. rewrite negb_true_iff, <-not_true_iff_false, IsLoopback_spec. naive_solver.
Qed.

(** The first of the servers that answers for the nodes, or a public one. *)
Lemma node_upstream_spec servers : let all := (directDnsServers ++ servers)%list in
  answers_nodes (node_upstream servers) /\
  ((exists pre post, all = pre ++ node_upstream servers :: post /\ Forall (fun s => ~ answers_nodes s) pre) \/
   node_upstream servers = "223.5.5.5:53"%string /\ Forall (fun s => ~ answers_nodes s) all).
Proof.
  cbv zeta. unfold node_upstream. generalize (directDnsServers ++ servers)%list as all. intros all.
  assert (H : match List.find usable_server all with
              | Some s => usable_server s = true /\ exists pre post, all = pre ++ s :: post /\ Forall (fun s => ~ answers_nodes s) pre
              | None => Forall (fun s => ~ answers_nodes s) all
              end).
  { induction all as [|s l IH]; [by constructor|]. cbn [List.find]. destruct (usable_server s) eqn:E.
    - split; [done|]. by exists [], l.
    - assert (Hs : ~ answers_nodes s) by (rewrite <-usable_server_spec; congruence).
      destruct (List.find usable_server l) as [x|]; [|by constructor]. destruct IH as (Hx & pre & post & -> & Hp). split; [done|].
      exists (s :: pre), post. split; [done|]. by constructor. }
  destruct (List.find usable_server all) as [s|]; cbn [default].
  - destruct H as [Hs H]. split; [by apply usable_server_spec|]. by left.
  - split; [apply usable_server_spec; by vm_compute|]. by right.
Qed.

Lemma last_of_none f id us : Forall (fun u => uc_ID u <> id) us -> last_of f id us = None.
Proof.
  induction 1 as [|u us Hu Hf IH]; [done|]. rewrite last_of_cons, IH. by rewrite decide_False by naive_solver.
Qed.

Lemma tagged_cons u us : tagged (u :: us) = if decide (uc_ProxyTag u <> "") then u :: tagged us else tagged us.
Proof. unfold tagged. by rewrite filter_cons. Qed.

(** A router of rules that start with one that selects the query. *)
Lemma first_rule_taken rule rules ups d r q : NewRouter (rule :: rules) ups d = Ok r -> rule_selects None rule q ->
  Route r q = Some (matched_result r rule) /\
  r_upstreamMap r = fst (upstream_maps ups ∅ ∅) /\ r_upstreamProxyTag r = snd (upstream_maps ups ∅ ∅).
Proof.
  intros Hr Hs. pose proof (reachable_compiled _ _ (reach_new _ _ _ _ Hr)) as Hc.
  assert (Hf : r_rules r = rule :: rules /\ r_upstreamMap r = fst (upstream_maps ups ∅ ∅) /\
    r_upstreamProxyTag r = snd (upstream_maps ups ∅ ∅)).
  { revert Hr. unfold NewRouter. destruct (upstream_maps ups ∅ ∅) as [addrs tags]. unfold UpdateRules.
    destruct (build_all _ _ _); [|done]. by intros [= <-]. }
  destruct Hf as (Hrules & Hf). split; [|done].
  destruct (route_loop_spec r q None (r_rules r) (r_matchers r) 0 Hc) as (res & E & Hres); [done|].
  unfold Route. rewrite E. f_equal. rewrite Hrules in Hres. destruct Hres as [(pre & x & post & Ep & Hp & Hx & ->)|[Ha _]].
  - destruct pre as [|y pre]; [by injection Ep as <- _|]. injection Ep as <- _. apply Forall_cons in Hp as [Hp _]. done.
  - apply Forall_cons in Ha as [Ha _]. done.
Qed.

(** C12. The name of a connected node is resolved without the proxy that
    needs it: in the router that the core builds from the generated configuration, a
    query for the name of a node, or a name below it, of any type and from any client,
    goes to the upstream of the nodes, which is reached directly.  Its address is the
    first, of the direct servers of the rules and then of the bootstrap servers, that
    is an IP address outside 127.0.0.0/8 and ::1 with a port, and a public server if
    none is. *)
Theorem node_names_resolve_directly setting hosts c d r q host :
  extractDnsModuleConfig StringToType (Some (generateDnsModuleConfig setting hosts)) = Ok (Some c) ->
  NewRouter (map rule_of_config (mc_Rules c)) (mc_Upstreams c) d = Ok r ->
  host ∈ hosts -> host <> EmptyString -> ParseIP host = None -> HasPrefix host geosite = false -> names_under host q ->
  let all := (directDnsServers ++ dns_bootstrap)%list in
  exists addr, Route r q = Some (mkRouteResult "upstream-node" addr "route" "rule-node" "single" "direct") /\ answers_nodes addr /\
    ((exists pre post, all = pre ++ addr :: post /\ Forall (fun s => ~ answers_nodes s) pre) \/
     addr = "223.5.5.5:53"%string /\ Forall (fun s => ~ answers_nodes s) all).
Proof.
  intros ->%extracted_inv Hr Hh He Hp Hg Hq all. exists (node_upstream dns_bootstrap). split; [|apply node_upstream_spec].
  pose proof (node_domains_elem _ _ Hh He Hp) as Hd. pose proof (co_ids _ (generated_config StringToType hosts)) as Hn. revert Hr Hn.
  unfold core_config, dns_generated, add_node_rule. destruct (node_domains hosts) as [|x ds] eqn:E; [by apply elem_of_nil in Hd|].
  cbn [g_upstreams rulesList mc_Rules mc_Upstreams map core_upstream core_rule]. set (g := foldl _ _ _). set (us := map (core_upstream) _).
  intros Hr Hn. apply first_rule_taken with (q := q) in Hr as (-> & Em & Et).
  2: { split; [right; by eapply hit_suffix|]. split; [by left|]. split; by left. }
  assert (Hother : Forall (fun u => uc_ID u <> "upstream-node"%string) us).
  { apply Forall_map, Forall_forall. intros u Hu. cbn. intros Eu. change (ids _) with ("upstream-node"%string :: ids g) in Hn.
    apply NoDup_cons in Hn as [Hn _]. apply Hn. rewrite <-Eu. by apply list_elem_of_fmap_2. }
  f_equal. unfold matched_result, map_get. rewrite Em, Et. cbn [rule_of_config rule_Upstream rc_Upstream drc_upstream].
  set (u := core_upstream _). cbn [rule_of_config rule_Upstream rc_Upstream core_rule drc_upstream].
  destruct (upstream_maps_spec (u :: us) "upstream-node" ∅ ∅) as [-> ->].
  rewrite tagged_cons. rewrite decide_True by done. rewrite !last_of_cons, !last_of_none.
  - done.
  - apply Forall_forall. intros v Hv. apply list_elem_of_filter in Hv as [_ Hv]. rewrite Forall_forall in Hother. by apply Hother.
  - done.
Qed.

End NodeNames.
