(* ===== verification/TemplateDual.v ===== *)
(** * The twins on the IPv6 loopback

    [setDualStack] gives inbounds of the IPv4 loopback a twin and rewrites the
    rules; a rule takes a copy of an inbound exactly when it took the inbound. *)

From stdpp Require Import gmap.
From S2P Require Import Prelude.
From S2P Require Import NetIP Text Iptables Configure Settings CoreConfig ServerData.
From S2P Require Import TemplateData Routing DnsTemplate Template TemplateProps.

#[local] Open Scope Z_scope.
#[local] Open Scope go_scope.

(** Ends of the same length of equal strings. *)
Lemma app_inj_end (x y a b : string) : s_len a = s_len b -> x +:+ a = y +:+ b -> a = b.
Proof.
  intros Hl. revert y. induction x as [|c x IH]; intros [|d y]; rewrite ?s_app_cons, ?s_app_nil; [done| | |].
  - intros H. apply (f_equal s_len) in H. cbn in H. rewrite s_len_app in H. lia.
  - intros H. apply (f_equal s_len) in H. cbn in H. rewrite s_len_app in H. lia.
  - intros [= _ H]. by apply IH in H.
Qed.

Section Dual.
Context `{SE : ServiceEnv}.

(** The inbounds that take the place of one. *)
Definition copies (setting : Setting) (i : Inbound) : list Inbound :=
  name_v4 setting i :: if ipv6_supported && needs_twin setting i then [twin i] else [].

(** No tag in use is one that a copy gets. *)
Definition unsuffixed (setting : Setting) (t : Template) : Prop :=
  forall x g, x ∈ (map in_Tag (Inbounds t) ++ concat (map rr_InboundTag (Rules t)))%list ->
    g ∈ twin_tags setting (Inbounds t) -> x <> g +:+ "_ipv4" /\ x <> g +:+ "_ipv6".

Lemma twin_tags_spec setting ins g : g ∈ twin_tags setting ins <->
  g <> EmptyString /\ exists i, i ∈ ins /\ needs_twin setting i = true /\ in_Tag i = g.
Proof.
  unfold twin_tags. rewrite list_elem_of_In, filter_In, in_map_iff. setoid_rewrite filter_In. setoid_rewrite <-list_elem_of_In.
  split; [intros [(i & <- & Hi & Hn) Hg]|intros [Hg (i & Hi & Hn & <-)]]; (split; [|]); eauto; by destruct (in_Tag i).
Qed.

(** The tags of a rewritten rule. *)
Lemma twin_rule_tags tm r y : y ∈ rr_InboundTag (twin_rule tm r) <->
  exists x, x ∈ rr_InboundTag r /\
    (if has x tm then y = x +:+ "_ipv4" \/ ipv6_supported = true /\ y = x +:+ "_ipv6" else y = x).
Proof.
  unfold twin_rule. cbn [rr_InboundTag set_inbound_tags]. set (tags := rr_InboundTag r).
  assert (H4 : y ∈ map (fun tag => if has tag tm then tag +:+ "_ipv4" else tag) tags <->
    exists x, x ∈ tags /\ y = if has x tm then x +:+ "_ipv4" else x).
  { rewrite list_elem_of_fmap. naive_solver. }
  assert (H6 : y ∈ map (fun tag => tag +:+ "_ipv6") (List.filter (fun tag => has tag tm) tags) <->
    exists x, x ∈ tags /\ has x tm = true /\ y = x +:+ "_ipv6").
  { rewrite list_elem_of_fmap. setoid_rewrite list_elem_of_In. setoid_rewrite filter_In. naive_solver. }
  destruct ipv6_supported; [rewrite elem_of_app, H4, H6|rewrite H4]; split.
  - intros [(x & Hx & ->)|(x & Hx & Hh & ->)]; exists x; (split; [done|]); [destruct (has x tm); auto|rewrite Hh; auto].
  - intros (x & Hx & H). destruct (has x tm) eqn:E; [destruct H as [->|[_ ->]]|subst y].
    + left. exists x. by rewrite E.
    + right. by exists x.
    + left. exists x. by rewrite E.
  - intros (x & Hx & ->). exists x. split; [done|]. destruct (has x tm); auto.
  - intros (x & Hx & H). exists x. split; [done|]. destruct (has x tm); naive_solver.
Qed.

Lemma suffix_ne (x y : string) : x +:+ "_ipv4" <> y +:+ "_ipv6".
Proof. intros H. by apply app_inj_end in H. Qed.

Lemma tag_not_twin setting t i : NoDup (map in_Tag (Inbounds t)) -> i ∈ Inbounds t -> needs_twin setting i = false ->
  has (in_Tag i) (twin_tags setting (Inbounds t)) = false.
Proof.
  intros Hn Hi Hb. apply has_false. intros (_ & j & Hj & Hw & E)%twin_tags_spec.
  apply list_elem_of_lookup in Hi as [a Ha]. apply list_elem_of_lookup in Hj as [b Hb'].
  assert (a = b) as ->; [|congruence]. eapply (NoDup_lookup _ _ _ (in_Tag i) Hn); [|rewrite <-E]; apply list_lookup_fmap_Some; eauto.
Qed.

(** A rule takes a copy exactly when it took the inbound. *)
Lemma copy_taken setting t r i j : let tm := twin_tags setting (Inbounds t) in
  unsuffixed setting t -> NoDup (map in_Tag (Inbounds t)) -> r ∈ Rules t -> i ∈ Inbounds t -> in_Tag i <> EmptyString ->
  j ∈ copies setting i -> in_Tag j ∈ rr_InboundTag (twin_rule tm r) <-> in_Tag i ∈ rr_InboundTag r.
Proof.
  cbn zeta. intros Hu Hn Hr Hi He Hj. set (tm := twin_tags _ _) in *. rewrite twin_rule_tags.
  assert (Hin : forall x, x ∈ rr_InboundTag r -> x ∈ (map in_Tag (Inbounds t) ++ concat (map rr_InboundTag (Rules t)))%list).
  { intros x Hx. apply elem_of_app. right. apply list_elem_of_In, in_concat. exists (rr_InboundTag r).
    split; [apply in_map|]; by apply list_elem_of_In. }
  assert (Hit : in_Tag i ∈ (map in_Tag (Inbounds t) ++ concat (map rr_InboundTag (Rules t)))%list).
  { apply elem_of_app. left. by apply list_elem_of_fmap_2. }
  assert (Hv4 : forall x, has x tm = true -> x ∈ tm) by (intros x; apply has_spec).
  destruct (needs_twin setting i) eqn:Eb.
  - assert (Hg : has (in_Tag i) tm = true) by (apply has_spec, twin_tags_spec; eauto).
    assert (Hg' : in_Tag i ∈ tm) by (by apply Hv4).
    assert (Hs : forall s, add_suffix (in_Tag i) s = in_Tag i +:+ s).
    { intros s. unfold add_suffix. by destruct (String.eqb_spec (in_Tag i) ""). }
    assert (Hcases : in_Tag j = in_Tag i +:+ "_ipv4" \/ ipv6_supported = true /\ in_Tag j = in_Tag i +:+ "_ipv6").
    { unfold copies in Hj. rewrite Eb, andb_true_r in Hj. apply elem_of_cons in Hj as [->|Hj].
      - left. unfold name_v4. rewrite Eb. apply Hs.
      - destruct ipv6_supported; [|by apply elem_of_nil in Hj]. apply list_elem_of_singleton in Hj as ->. right. split; [done|]. apply Hs. }
    split.
    + intros (x & Hx & H). assert (x = in_Tag i) as <-; [|done]. destruct (has x tm) eqn:Ex.
      * destruct Hcases as [E|[_ E]], H as [H|[_ H]]; rewrite H in E; [by apply app_inj_r in E| | |by apply app_inj_r in E].
        -- symmetry in E. by apply suffix_ne in E.
        -- by apply suffix_ne in E.
      * destruct (Hu x (in_Tag i) (Hin _ Hx) Hg') as [U1 U2]. subst x. naive_solver.
    + intros H. exists (in_Tag i). rewrite Hg. naive_solver.
  - assert (Et : in_Tag j = in_Tag i).
    { unfold copies in Hj. rewrite Eb, andb_false_r in Hj. apply list_elem_of_singleton in Hj as ->. unfold name_v4. by rewrite Eb. }
    rewrite Et. pose proof (tag_not_twin _ _ _ Hn Hi Eb) as Hg. fold tm in Hg. split.
    + intros (x & Hx & H). destruct (has x tm) eqn:Ex; [|by subst]. destruct (Hu (in_Tag i) x Hit (Hv4 _ Ex)) as [U1 U2]. naive_solver.
    + intros H. exists (in_Tag i). by rewrite Hg.
Qed.

Lemma no_dns_in setting ins i : Forall (fun i => in_Tag i <> EmptyString /\ in_Tag i <> "dns-in"%string) ins ->
  i ∈ (if ipv6_supported then map (name_v4 setting) ins ++ map twin (List.filter (needs_twin setting) ins)
       else map (name_v4 setting) ins)%list -> in_Tag i <> "dns-in"%string.
Proof.
  intros Hf. rewrite Forall_forall in Hf.
  assert (Hs : forall g s, s_len s = 5%nat -> s <> "ns-in"%string -> add_suffix g s <> "dns-in"%string).
  { intros g s Hl Hne. unfold add_suffix. destruct (String.eqb g ""); [done|].
    change "dns-in"%string with ("d" +:+ "ns-in")%string. intros H. by apply app_inj_end in H. }
  assert (H4 : i ∈ map (name_v4 setting) ins -> in_Tag i <> "dns-in"%string).
  { intros (x & -> & Hx)%list_elem_of_fmap. unfold name_v4. destruct (needs_twin setting x); [by apply Hs|]. by apply Hf. }
  destruct ipv6_supported; [|done]. intros [H|H]%elem_of_app; [by apply H4|].
  apply list_elem_of_fmap in H as (x & -> & _). by apply Hs.
Qed.

(** Giving inbounds of the IPv4 loopback a twin changes no route: the
    inbounds become their copies, with the same port, protocol and settings, one of
    them on the address of before; every rule keeps its aim and its other conditions,
    still restricts the inbounds or not, and takes a copy exactly when it took the
    inbound. *)
Theorem twins_are_routed_alike t : let setting := t_Setting t in let t' := setDualStack t in
  NoDup (map in_Tag (Inbounds t)) -> Forall (fun i => in_Tag i <> EmptyString /\ in_Tag i <> "dns-in"%string) (Inbounds t) ->
  unsuffixed setting t ->
  Inbounds t' ≡ₚ concat (map (copies setting) (Inbounds t)) /\
  (forall i j, j ∈ copies setting i -> in_Port j = in_Port i /\ in_Protocol j = in_Protocol i /\ in_Settings j = in_Settings i /\
     in_StreamSettings j = in_StreamSettings i /\ (in_Listen j = in_Listen i \/ in_Listen j = "::1"%string)) /\
  length (Rules t') = length (Rules t) /\
  forall k r, Rules t !! k = Some r -> exists r', Rules t' !! k = Some r' /\
    set_inbound_tags r' (rr_InboundTag r) = r /\ (rr_InboundTag r' = [] <-> rr_InboundTag r = []) /\
    forall i j, i ∈ Inbounds t -> j ∈ copies setting i -> in_Tag j ∈ rr_InboundTag r' <-> in_Tag i ∈ rr_InboundTag r.
Proof.
  cbn zeta. intros Hn Hf Hu. set (tm := twin_tags (t_Setting t) (Inbounds t)).
  assert (E : setDualStack t = map_rules (set_inbounds t (if ipv6_supported
    then map (name_v4 (t_Setting t)) (Inbounds t) ++ map twin (List.filter (needs_twin (t_Setting t)) (Inbounds t))
    else map (name_v4 (t_Setting t)) (Inbounds t))%list) (twin_rule tm)).
  { unfold setDualStack, dns_in_local. destruct (List.find _ _) as [i|] eqn:Ef; [|done]. apply find_some in Ef as [Hi Et].
    apply String.eqb_eq in Et. by apply list_elem_of_In, (no_dns_in (t_Setting t) (Inbounds t)) in Hi. }
  rewrite E. cbn [Inbounds Rules map_rules set_rules set_inbounds]. split; [|split; [|split]].
  - unfold copies. generalize (Inbounds t) as ins. intros ins. clear. induction ins as [|i ins IH]; [by destruct ipv6_supported|].
    cbn [map concat List.filter]. destruct ipv6_supported; cbn [andb] in *; [|by rewrite <-IH].
    destruct (needs_twin _ i); cbn [map app]; rewrite <-IH; [|done]. constructor. symmetry. apply Permutation_middle.
  - intros i j. unfold copies, name_v4, twin. destruct (needs_twin _ i), ipv6_supported; cbn [andb]; rewrite !elem_of_cons, ?elem_of_nil;
      intros Hj; repeat destruct Hj as [Hj|Hj]; subst; try done; cbn; auto 6.
  - apply length_map.
  - intros k r Hk. exists (twin_rule tm r). split; [by apply list_lookup_fmap_Some; eauto|]. split; [by destruct r|]. split.
    + unfold twin_rule. cbn. destruct (rr_InboundTag r), ipv6_supported; done.
    + intros i j Hi Hj. apply copy_taken; try done; [by eapply list_elem_of_lookup_2|]. rewrite Forall_forall in Hf. by apply Hf.
Qed.

End Dual.
