(* ===== verification/TemplateRef.v ===== *)
(** * A host with connected nodes

    Concrete nodes and a concrete environment of the template's construction, for
    the examples of its theorems: the group [proxy] has two nodes, with the same
    name, and [spare] fills itself but has none. *)

From stdpp Require Import gmap.
From S2P Require Import Prelude.
From S2P Require Import NetIP Text Iptables Store NodeRefs Configure CatalogRef Settings DnsMsg DnsConfig Rule Router CoreConfig ServerData.
From S2P Require Import TemplateData Routing DnsTemplate Template TemplateProps OutboundProps TemplateClosed TemplateSafe DnsTemplateProps TemplateDual.

#[local] Open Scope Z_scope.

Module TemplateRef.
Import CatalogRef.

#[export] Instance nodes_conf : Nodes := {
  SetName name n := mkNode (n_url n) (n_protocol n) (n_host n) (n_port n) name;
  GetBackend _ := Some ""%string;
  node_configuration n info := Ok (mkConfiguration (outbound (pi_Tag info) (n_protocol n)) [] "" true "");
}.

#[export] Instance nodes_laws : NodeLaws.
Proof.
  split; try done.
  - intros o info c [= <-]. done.
  - intros o info c [= <-]. done.
Qed.

#[export] Instance reversed : MapOrder.
Proof.
  refine {| map_order _ ks := reverse ks |}. intros site ks. apply reverse_Permutation.
Defined.

Definition sample_setting : Setting :=
  mkSetting "info" "whitelist" "direct" "none" 0 "none" 0 "default" "no" 8 "http,tls" "proxy" false false false
    "tproxy" "" true "" "" "" "" "" "" "" "" true 0 0 0 false true.

Definition sample_group (name : string) : OutboundSetting :=
  if String.eqb name "spare" then mkOutboundSetting true "https://gstatic.com/generate_204" "10s" "leastping" "" ""
  else mkOutboundSetting false "https://gstatic.com/generate_204" "10s" "leastping" "" "".

#[export] Instance sample_env : ServiceEnv := {
  env_lite := false;
  env_LogLevel := "info";
  stored_settings := sample_setting;
  stored_ports := mkPorts 20170 20171 0 20172 0 (mkApiPort 20175 []);
  stored_inbounds := [mkCustomInbound "guests" "socks" 1090 "proxy" "direct" "" "" ""];
  stored_outbounds := ["proxy"; "spare"]%string;
  stored_outbound_setting := sample_group;
  stored_routingA := "";
  stored_domains_excluded := "";
  stored_accounts := Ok [("admin", "secret")]%string;
  stored_dns_rules := None;
  core_variant := "V2rayaCore";
  core_version := "5.0.0";
  asset _ := false;
  local_cidrs := ["192.168.1.0/24"]%string;
  ipv6_supported := true;
  goos := "linux";
  free_port := 40000;
  lookup_env _ := None;
  could_listen := (false, None);
  can_bind _ := None;
  tun_egress := "eth0";
  tun_device := "v2raya-tun";
  own_executable := Some "/usr/bin/v2raya"%string;
  core_binary := Some "/usr/bin/v2raya_core"%string;
  own_pid := 7;
  resolv_conf := Some "nameserver 192.168.1.1"%string;
  resolv_backup := None;
  accounts_uuid _ := "00000000-0000-0000-0000-000000000000";
  RoutingA_Parse _ := Ok [];
  slicex_Uniq l := remove_dups l;
  parse_duration _ := Ok (10 * 1000000000);
  duration_string _ := "10s";
  url_hostname s := Some s;
}.

Definition tokyo : serverInfo := mkServerInfo (mkNode "vmess://a" "vmess" "tokyo.example.com" 443 "node" : ServerObj) "proxy" 0.
Definition osaka : serverInfo := mkServerInfo (mkNode "trojan://b" "trojan" "203.0.113.9" 8443 "node" : ServerObj) "proxy" 0.
Definition infos : list serverInfo := [tokyo; osaka].

Definition sample_template : result Template := NewTemplate infos None.

(** The template: names, sockets and the aims of the rules. *)
Example sample_outbounds : match sample_template with Ok t => map out_Tag (Outbounds t) | Err _ => [] end =
  ["『node(2)』"; "『node』"; "spare"; "direct"; "block"]%string.
Proof. vm_compute. reflexivity. Qed.


Example sample_rules : match sample_template with Ok t => map aim (take 3 (Rules t)) | Err _ => [] end =
  [("direct", ""); ("direct", ""); ("", "proxy")]%string.
Proof. vm_compute. reflexivity. Qed.

(** ** Examples of the theorems *)

Lemma node_names_are_distinct_witness : let sd := NewServerData sample_group infos in
  is_Some (Link2ServerObj sd !! "vmess://a"%string) /\
  forall l1 l2 o1 o2, Link2ServerObj sd !! l1 = Some o1 -> Link2ServerObj sd !! l2 = Some o2 -> GetName o1 = GetName o2 -> l1 = l2.
Proof.
  destruct (node_names_are_distinct sample_group infos) as (H1 & H2 & _). split; [|exact H2].
  apply H1. exists tokyo. split; [left|reflexivity].
Defined.

Lemma core_sockets_are_marked_witness :
  match sample_template with
  | Ok t => forall o, o ∈ Outbounds t -> out_Protocol o <> "blackhole"%string -> out_Protocol o <> "dns"%string -> mark_of o = Some 128
  | Err _ => False
  end.
Proof.
  destruct sample_template as [t|] eqn:E; [|vm_compute in E; discriminate E]. intros o Ho H1 H2.
  apply (core_sockets_are_marked infos None t E); try done.
Defined.

Lemma template_is_closed_witness :
  match sample_template with
  | Ok t => NoDup (map out_Tag (Outbounds t)) /\ Forall (balances t) (t_Balancers t) /\ map b_Tag (t_Balancers t) = ["proxy"%string]
  | Err _ => False
  end.
Proof.
  destruct sample_template as [t|] eqn:E; [|vm_compute in E; discriminate E].
  destruct (template_is_closed infos None t E) as (_ & H1 & _ & _ & H2 & _). split; [exact H1|]. split; [exact H2|].
  clear H1 H2. vm_compute in E. injection E as <-. reflexivity.
Defined.

Lemma node_traffic_is_direct_witness :
  match sample_template with
  | Ok t => exists r, List.find (fun r => has "tokyo.example.com" (rr_Domain r)) (Rules t) = Some r /\ aim r = ("direct", "")%string
  | Err _ => False
  end.
Proof.
  destruct sample_template as [t|] eqn:E; [|vm_compute in E; discriminate E].
  destruct (node_traffic_is_direct infos None t E) as (_ & H & _).
  destruct (H (fun r => has "tokyo.example.com" (rr_Domain r)) tokyo) as (r & H1 & H2 & _);
    [left|vm_compute; reflexivity|]. exists r. split; assumption.
Defined.

Lemma empty_group_blocks_witness :
  match sample_template with
  | Ok t => exists o, o ∈ Outbounds t /\ out_Tag o = "spare"%string /\ out_Protocol o = "blackhole"%string
  | Err _ => False
  end.
Proof.
  destruct sample_template as [t|] eqn:E; [|vm_compute in E; discriminate E].
  destruct (empty_group_blocks infos None t "spare" E) as (_ & o & H1 & H2 & H3 & _).
  - right. left.
  - left. reflexivity.
  - intros info [->|[->|Hn]%elem_of_cons]%elem_of_cons; [discriminate|discriminate|]. destruct (not_elem_of_nil info Hn).
  - exists o. split; [exact H1|]. split; [exact H2|exact H3].
Defined.

Definition types (name : string) : option Z := if String.eqb name "A" then Some 1 else if String.eqb name "AAAA" then Some 28 else None.

Definition hosts : list string := ["tokyo.example.com"; "203.0.113.9"]%string.

Lemma types_known : Forall (known_types types) (rulesList (dns_generated hosts)).
Proof. vm_compute. repeat constructor. Qed.

Lemma dns_config_arrives_witness :
  extractDnsModuleConfig types (Some (generateDnsModuleConfig sample_setting hosts)) = Ok (Some (core_config types sample_setting hosts)).
Proof. exact (proj1 (dns_config_arrives types sample_setting hosts) types_known). Defined.

Lemma dns_config_is_closed_witness : NoDup (map uc_ID (mc_Upstreams (core_config types sample_setting hosts))).
Proof.
  apply (dns_config_is_closed types sample_setting hosts (core_config types sample_setting hosts)). vm_compute. reflexivity.
Defined.

#[local] Existing Instance LiteralRe.literal_re.

Lemma node_names_resolve_directly_witness :
  let c := core_config types sample_setting hosts in
  match NewRouter (map rule_of_config (mc_Rules c)) (mc_Upstreams c) "upstream-0" with
  | Ok r => exists addr, Route r (mkQuery "www.tokyo.example.com." TypeAAAA ClassINET [10; 0; 0; 9] false) =
              Some (mkRouteResult "upstream-node" addr "route" "rule-node" "single" "direct") /\ answers_nodes addr
  | Err _ => False
  end.
Proof.
  cbv zeta. destruct (NewRouter _ _ _) as [r|] eqn:E; [|vm_compute in E; discriminate E].
  destruct (node_names_resolve_directly types sample_setting hosts (core_config types sample_setting hosts) "upstream-0" r
    (mkQuery "www.tokyo.example.com." TypeAAAA ClassINET [10; 0; 0; 9] false) "tokyo.example.com") as (addr & H & Ha & _).
  - vm_compute. reflexivity.
  - exact E.
  - left.
  - discriminate.
  - vm_compute. reflexivity.
  - reflexivity.
  - right. exists "www"%string. reflexivity.
  - exists addr. split; [exact H|exact Ha].
Defined.

Definition two_inbounds : Template :=
  set_rules (set_inbounds (initial_template sample_setting)
    [api_inbound 20175; mkInbound 1090 "socks" "0.0.0.0" new_Sniffing None None "guests"])
    [rule_to "api-out" ["api-in"%string]; rule_to "proxy" ["guests"%string]; spare_rule].

Lemma twins_are_routed_alike_witness :
  Inbounds (setDualStack two_inbounds) ≡ₚ concat (map (copies sample_setting) (Inbounds two_inbounds)).
Proof.
  apply (twins_are_routed_alike two_inbounds).
  - cbn. repeat constructor; set_solver.
  - repeat constructor; discriminate.
  - intros x g Hx Hg. change (twin_tags _ _) with ["api-in"%string] in Hg. apply list_elem_of_singleton in Hg as ->.
    change (x ∈ ["api-in"; "guests"; "api-in"; "guests"]%string) in Hx. rewrite !elem_of_cons, elem_of_nil in Hx.
    destruct Hx as [->|[->|[->|[->|[]]]]]; split; discriminate.
Defined.

End TemplateRef.
