(* ===== verification/Codecs.v ===== *)
(** * Codecs: base64, JSON texts, identifiers and pins

    The base64 encodings that share links use, with and without padding, and the
    tolerant decoders of the service (service/common/crypto.go); a character stands
    for six bits, three bytes for four characters.  The JSON text of the flat
    objects that protocols write as settings of their own: strings are quoted as
    [json.Marshal] does, with HTML characters escaped and invalid UTF-8 replaced.
    [StringToUUID5], which names a user by the SHA-1 of a text, and
    [PinnedPeerCertSha256Hex] (service/kernel/coreObj/coreObj.go), which brings
    certificate pins to the form the core reads. *)

From S2P Require Import Prelude.
From S2P Require Import NetIP Text.

#[local] Open Scope Z_scope.
#[local] Open Scope go_scope.

(** ** Six bits and the two alphabets *)

Inductive sextet := Sextet (b5 b4 b3 b2 b1 b0 : bool).

#[export] Instance sextet_eq : EqDecision sextet.
Proof. solve_decision. Defined.

Definition bit (b : bool) : nat := if b then 1%nat else 0%nat.

Definition value (x : sextet) : nat :=
  let '(Sextet b5 b4 b3 b2 b1 b0) := x in
  (32 * bit b5 + 16 * bit b4 + 8 * bit b3 + 4 * bit b2 + 2 * bit b1 + bit b0)%nat.

Definition sextet_of (n : nat) : sextet :=
  let t k := Nat.testbit n k in Sextet (t 5%nat) (t 4%nat) (t 3%nat) (t 2%nat) (t 1%nat) (t 0%nat).

(** Standard, or for URLs. *)
Inductive alphabet := StdAlphabet | URLAlphabet.

Definition char_of (al : alphabet) (x : sextet) : Ascii.ascii :=
  let n := value x in
  if (n <? 26)%nat then Ascii.ascii_of_nat (65 + n)
  else if (n <? 52)%nat then Ascii.ascii_of_nat (97 + (n - 26))
  else if (n <? 62)%nat then Ascii.ascii_of_nat (48 + (n - 52))
  else match al, (n =? 62)%nat with
       | StdAlphabet, true => "+"
       | StdAlphabet, false => "/"
       | URLAlphabet, true => "-"
       | URLAlphabet, false => "_"
       end%char.

Definition sextet_at (al : alphabet) (a : Ascii.ascii) : option sextet :=
  let n := Ascii.nat_of_ascii a in
  if between 65 n 90 then Some (sextet_of (n - 65))
  else if between 97 n 122 then Some (sextet_of (n - 97 + 26))
  else if between 48 n 57 then Some (sextet_of (n - 48 + 52))
  else
    let '(plus, slash) := match al with StdAlphabet => ("+", "/") | URLAlphabet => ("-", "_") end%char in
    if Ascii.eqb a plus then Some (sextet_of 62) else if Ascii.eqb a slash then Some (sextet_of 63) else None.

(** ** Three bytes as four characters *)

Definition first_of (a : Ascii.ascii) : sextet :=
  let '(Ascii.Ascii a0 a1 a2 a3 a4 a5 a6 a7) := a in Sextet a7 a6 a5 a4 a3 a2.
Definition second_of (a b : Ascii.ascii) : sextet :=
  let '(Ascii.Ascii a0 a1 a2 a3 a4 a5 a6 a7) := a in
  let '(Ascii.Ascii b0 b1 b2 b3 b4 b5 b6 b7) := b in Sextet a1 a0 b7 b6 b5 b4.
Definition third_of (b c : Ascii.ascii) : sextet :=
  let '(Ascii.Ascii b0 b1 b2 b3 b4 b5 b6 b7) := b in
  let '(Ascii.Ascii c0 c1 c2 c3 c4 c5 c6 c7) := c in Sextet b3 b2 b1 b0 c7 c6.
Definition fourth_of (c : Ascii.ascii) : sextet :=
  let '(Ascii.Ascii c0 c1 c2 c3 c4 c5 c6 c7) := c in Sextet c5 c4 c3 c2 c1 c0.

Definition byte1 (w x : sextet) : Ascii.ascii :=
  let '(Sextet w5 w4 w3 w2 w1 w0) := w in let '(Sextet x5 x4 x3 x2 x1 x0) := x in
  Ascii.Ascii x4 x5 w0 w1 w2 w3 w4 w5.
Definition byte2 (x y : sextet) : Ascii.ascii :=
  let '(Sextet x5 x4 x3 x2 x1 x0) := x in let '(Sextet y5 y4 y3 y2 y1 y0) := y in
  Ascii.Ascii y2 y3 y4 y5 x0 x1 x2 x3.
Definition byte3 (y z : sextet) : Ascii.ascii :=
  let '(Sextet y5 y4 y3 y2 y1 y0) := y in let '(Sextet z5 z4 z3 z2 z1 z0) := z in
  Ascii.Ascii z0 z1 z2 z3 z4 z5 y0 y1.

Definition zero_byte : Ascii.ascii := Ascii.zero.

(** [EncodeToString]; [pad] is false for the raw encodings. *)
Fixpoint Encode (al : alphabet) (pad : bool) (s : string) : string :=
  let ch := char_of al in
  match s with
  | EmptyString => EmptyString
  | String a EmptyString =>
    String (ch (first_of a)) (String (ch (second_of a zero_byte)) (if pad then "==" else ""))
  | String a (String b EmptyString) =>
    String (ch (first_of a)) (String (ch (second_of a b)) (String (ch (third_of b zero_byte)) (if pad then "=" else "")))
  | String a (String b (String c s')) =>
    String (ch (first_of a)) (String (ch (second_of a b)) (String (ch (third_of b c)) (String (ch (fourth_of c))
      (Encode al pad s'))))
  end.

(** [DecodeString] once the line ends are gone.  The unused bits of the last
    character are not looked at. *)
Fixpoint decode_groups (al : alphabet) (pad : bool) (s : string) : option string :=
  let at_ := sextet_at al in
  match s with
  | EmptyString => Some EmptyString
  | String p (String q EmptyString) =>
    if pad then None else w ← at_ p; x ← at_ q; Some (String (byte1 w x) EmptyString)
  | String p (String q (String r EmptyString)) =>
    if pad then None
    else w ← at_ p; x ← at_ q; y ← at_ r; Some (String (byte1 w x) (String (byte2 x y) EmptyString))
  | String p (String q (String r (String t s'))) =>
    w ← at_ p; x ← at_ q;
    if pad && Ascii.eqb r "=" then
      if Ascii.eqb t "=" && String.eqb s' "" then Some (String (byte1 w x) EmptyString) else None
    else
      y ← at_ r;
      if pad && Ascii.eqb t "=" then
        if String.eqb s' "" then Some (String (byte1 w x) (String (byte2 x y) EmptyString)) else None
      else
        z ← at_ t; rest ← decode_groups al pad s';
        Some (String (byte1 w x) (String (byte2 x y) (String (byte3 y z) rest)))
  | _ => None
  end.

Definition line_end (a : Ascii.ascii) : bool := let n := Ascii.nat_of_ascii a in (n =? 10)%nat || (n =? 13)%nat.

Fixpoint strip_line_ends (s : string) : string :=
  match s with
  | EmptyString => EmptyString
  | String a s' => if line_end a then strip_line_ends s' else String a (strip_line_ends s')
  end.

Definition Decode (al : alphabet) (pad : bool) (s : string) : option string := decode_groups al pad (strip_line_ends s).

(** ** The service's decoders *)

Definition illegal_base64 : error := ExtErr "illegal base64 data".

(** Fill up with [=] to a multiple of four. *)
Definition pad_to_four (s : string) : string :=
  match (s_len s mod 4)%nat with
  | 1%nat => s +:+ "==="
  | 2%nat => s +:+ "=="
  | 3%nat => s +:+ "="
  | _ => s
  end.

(** The decoded text and no error, or the input without the spaces around it. *)
Definition decode_padded (al : alphabet) (s : string) : string * option error :=
  let s := TrimSpace s in
  match Decode al true (pad_to_four (strip_line_ends s)) with
  | Some raw => (raw, None)
  | None => (s, Some illegal_base64)
  end.

Definition Base64StdDecode (s : string) : string * option error := decode_padded StdAlphabet s.
Definition Base64URLDecode (s : string) : string * option error := decode_padded URLAlphabet s.

(** ** Decoding what was encoded *)

Lemma sextet_char al x : sextet_at al (char_of al x) = Some x.
Proof. destruct al, x as [[] [] [] [] [] []]; reflexivity. Qed.

Lemma char_plain al x : Ascii.eqb (char_of al x) "=" = false /\ line_end (char_of al x) = false /\ is_space (char_of al x) = false.
Proof. destruct al, x as [[] [] [] [] [] []]; repeat split; reflexivity. Qed.

Lemma bytes_one a b : byte1 (first_of a) (second_of a b) = a.
Proof. by destruct a, b. Qed.
Lemma bytes_two a b c : byte2 (second_of a b) (third_of b c) = b.
Proof. by destruct a, b, c. Qed.
Lemma bytes_three b c : byte3 (third_of b c) (fourth_of c) = c.
Proof. by destruct b, c. Qed.

(** Induction by three characters. *)
Lemma string_ind3 (Q : string -> Prop) : Q EmptyString -> (forall a, Q (String a EmptyString)) ->
  (forall a b, Q (String a (String b EmptyString))) -> (forall a b c s, Q s -> Q (String a (String b (String c s)))) -> forall s, Q s.
Proof.
  intros H0 H1 H2 H3. fix IH 1. intros [|a [|b [|c s]]]; [exact H0|apply H1|apply H2|]. apply H3, IH.
Qed.

Lemma decode_encode al pad s : decode_groups al pad (Encode al pad s) = Some s.
Proof.
  induction s as [|a|a b|a b c s IH] using string_ind3; [done| | |].
  - cbn [Encode]. destruct pad; cbn [decode_groups]; rewrite !sextet_char; cbn; by rewrite bytes_one.
  - cbn [Encode]. destruct pad; cbn [decode_groups]; rewrite !sextet_char; cbn [mbind option_bind].
    + destruct (char_plain al (third_of b zero_byte)) as (-> & _). cbn. by rewrite bytes_one, bytes_two.
    + by rewrite bytes_one, bytes_two.
  - cbn [Encode]. cbn [decode_groups]. rewrite !sextet_char, IH. cbn [mbind option_bind].
    destruct (char_plain al (third_of b c)) as (-> & _), (char_plain al (fourth_of c)) as (-> & _). rewrite !andb_false_r.
    by rewrite bytes_one, bytes_two, bytes_three.
Qed.

(** Characters of an encoding are those of the alphabet. *)
Lemma encode_raw_free (Q : Ascii.ascii -> bool) al s : (forall x, Q (char_of al x) = false) -> free_of Q (Encode al false s) = true.
Proof.
  intros H. induction s as [|a|a b|a b c s IH] using string_ind3; cbn [Encode free_of]; rewrite ?H; auto.
Qed.

Lemma strip_free s : free_of line_end s = true -> strip_line_ends s = s.
Proof.
  induction s as [|a s IH]; [done|]. cbn [free_of strip_line_ends]. destruct (line_end a); [done|]. intros H. by rewrite IH.
Qed.

Lemma trim_free s : free_of is_space s = true -> TrimSpace s = s.
Proof.
  intros H. unfold TrimSpace. assert (Hl : trim_left s = s) by (destruct s as [|a s']; cbn in *; [done|by destruct (is_space a)]).
  rewrite Hl. clear Hl. induction s as [|a s IH]; [done|]. cbn [free_of trim_right] in *. destruct (is_space a) eqn:E; [done|].
  rewrite IH by done. by destruct s.
Qed.

(** Filling up an unpadded encoding gives the padded one. *)
Lemma pad_encoding al s : pad_to_four (Encode al false s) = Encode al true s.
Proof.
  induction s as [|a|a b|a b c s IH] using string_ind3; [done|done|done|]. revert IH. unfold pad_to_four.
  cbn [Encode String.length]. change (S (S (S (S (s_len (Encode al false s)))))) with (4 + s_len (Encode al false s))%nat.
  rewrite (Nat.add_comm 4), <-(Nat.mul_1_l 4), Nat.Div0.mod_add, Nat.mul_1_l.
  destruct (s_len (Encode al false s) mod 4)%nat as [|[|[|[|n]]]]; intros <-; done.
Qed.

Lemma encode_free (Q : Ascii.ascii -> bool) al pad s : (forall x, Q (char_of al x) = false) -> Q "="%char = false ->
  free_of Q (Encode al pad s) = true.
Proof.
  intros H He. destruct pad; [|by apply encode_raw_free].
  induction s as [|a|a b|a b c s IH] using string_ind3; cbn [Encode free_of]; rewrite ?H, ?He; auto.
Qed.

Lemma pad_padded al s : pad_to_four (Encode al true s) = Encode al true s.
Proof.
  assert (H : (s_len (Encode al true s) mod 4 = 0)%nat); [|unfold pad_to_four; by rewrite H].
  induction s as [|a|a b|a b c s IH] using string_ind3; [done|done|done|]. cbn [Encode String.length].
  change (S (S (S (S (s_len (Encode al true s)))))) with (4 + s_len (Encode al true s))%nat.
  by rewrite (Nat.add_comm 4), <-(Nat.mul_1_l 4), Nat.Div0.mod_add, Nat.mul_1_l.
Qed.

(** The decoders undo every encoding, padded or not. *)
Lemma decode_padded_encoded al pad s : decode_padded al (Encode al pad s) = (s, None).
Proof.
  assert (Hs : forall p, strip_line_ends (Encode al p s) = Encode al p s) by (intros p; apply strip_free, encode_free; [apply char_plain|done]).
  unfold decode_padded, Decode. rewrite trim_free by (apply encode_free; [apply char_plain|done]). rewrite Hs.
  assert (pad_to_four (Encode al pad s) = Encode al true s) as -> by (destruct pad; [apply pad_padded|apply pad_encoding]).
  by rewrite Hs, decode_encode.
Qed.

Lemma decode_padded_raw al s : decode_padded al (Encode al false s) = (s, None).
Proof. apply decode_padded_encoded. Qed.

(** *** Texts that are no encoding *)

Definition base64_char (al : alphabet) (a : Ascii.ascii) : bool := is_some (sextet_at al a) || Ascii.eqb a "=".

Lemma decoded_chars al pad s r : decode_groups al pad s = Some r -> free_of (fun a => negb (base64_char al a)) s = true.
Proof.
  revert s r. fix IH 1. intros [|p [|q [|u [|t s]]]] r; cbn [decode_groups free_of]; [done|done| | |].
  - clear IH. destruct pad; [done|]. unfold base64_char. destruct (sextet_at al p); [|done]. by destruct (sextet_at al q).
  - clear IH. destruct pad; [done|]. unfold base64_char. destruct (sextet_at al p); [|done]. destruct (sextet_at al q); [|done]. by destruct (sextet_at al u).
  - unfold base64_char at 1 2. destruct (sextet_at al p); [|done]. destruct (sextet_at al q); [|done]. cbn [mbind option_bind is_some orb negb andb].
    destruct (pad && Ascii.eqb u "=") eqn:Eu.
    { apply andb_true_iff in Eu as [_ Eu]. destruct (Ascii.eqb t "=") eqn:Et; [|done]. destruct (String.eqb_spec s "") as [->|]; [|done].
      unfold base64_char. by rewrite Eu, Et, !orb_true_r. }
    unfold base64_char at 1. destruct (sextet_at al u); [|done]. cbn [mbind option_bind is_some orb negb andb].
    destruct (pad && Ascii.eqb t "=") eqn:Et.
    { apply andb_true_iff in Et as [_ Et]. destruct (String.eqb_spec s "") as [->|]; [|done]. unfold base64_char. by rewrite Et, orb_true_r. }
    unfold base64_char at 1. destruct (sextet_at al t); [|done]. cbn [mbind option_bind is_some orb negb andb].
    destruct (decode_groups al pad s) as [r'|] eqn:Es; [|done]. intros _. exact (IH s r' Es).
Qed.

Lemma has_byte_trim c s : is_space c = false -> has_byte c s = true -> has_byte c (TrimSpace s) = true.
Proof.
  intros Hc H. assert (Hl : has_byte c (trim_left s) = true).
  { induction s as [|a s IH]; [done|]. cbn [trim_left has_byte] in *. destruct (is_space a) eqn:E; [|done]. apply IH.
    destruct (Ascii.eqb_spec a c) as [->|]; [congruence|done]. }
  unfold TrimSpace. destruct (trim_right_spec (trim_left s)) as (u & Hs & Hu). rewrite Hs in Hl. clear Hs H.
  revert Hl. generalize (trim_right (trim_left s)) as t. intros t. induction t as [|a t IH].
  - rewrite s_app_nil. clear -Hu Hc. induction u as [|a u IH]; [done|]. cbn [has_byte free_of] in *. destruct (is_space a) eqn:E; [|done].
    destruct (Ascii.eqb_spec a c) as [->|]; [congruence|]. by apply IH.
  - rewrite s_app_cons. cbn [has_byte]. destruct (Ascii.eqb a c); [done|exact IH].
Qed.

(** A byte out of the alphabet is noticed; the input comes back. *)
Lemma foreign_refused al c s : base64_char al c = false -> line_end c = false -> is_space c = false -> has_byte c s = true ->
  decode_padded al s = (TrimSpace s, Some illegal_base64).
Proof.
  intros Hc Hl Hs H%(has_byte_trim c s Hs). unfold decode_padded, Decode. revert H. generalize (TrimSpace s) as t. intros t H.
  assert (Hstrip : forall x, has_byte c x = true -> has_byte c (strip_line_ends x) = true).
  { intros x. induction x as [|a x IH]; [done|]. cbn [has_byte strip_line_ends]. destruct (Ascii.eqb_spec a c) as [->|Hn]; cbn [orb].
    - intros _. rewrite Hl. cbn [has_byte]. by rewrite (proj2 (Ascii.eqb_eq c c)).
    - intros Hx. destruct (line_end a); [by apply IH|]. cbn [has_byte]. rewrite IH by done. apply orb_true_r. }
  assert (Hpad : forall x, has_byte c x = true -> has_byte c (pad_to_four x) = true).
  { intros x Hx. unfold pad_to_four. destruct (s_len x mod 4)%nat as [|[|[|[|n]]]]; rewrite ?has_byte_app, Hx; done. }
  destruct (decode_groups _ _ _) as [r|] eqn:E; [|done]. apply decoded_chars in E. exfalso.
  assert (Hb : has_byte c (strip_line_ends (pad_to_four (strip_line_ends t))) = true) by auto.
  revert E Hb. generalize (strip_line_ends (pad_to_four (strip_line_ends t))) as x. intros x. clear -Hc.
  induction x as [|a x IH]; [done|]. cbn [free_of has_byte]. destruct (Ascii.eqb_spec a c) as [->|]; [by rewrite Hc|].
  intros [_ Hx]%andb_true_iff. by apply IH.
Qed.

(** The alphabets differ in two characters only. *)
Lemma decode_agrees pad s r : free_of (fun a => has_byte a "+/") s = true -> decode_groups StdAlphabet pad s = Some r ->
  decode_groups URLAlphabet pad s = Some r.
Proof.
  assert (Ha : forall a x, has_byte a "+/" = false -> sextet_at StdAlphabet a = Some x -> sextet_at URLAlphabet a = Some x).
  { intros [[] [] [] [] [] [] [] []] x; (discriminate || (intros _ H; exact H)). }
  revert s r. fix IH 1. intros [|p [|q [|u [|t s]]]] r; cbn [decode_groups free_of]; [done|done| | |].
  - clear IH. rewrite !andb_true_iff, !negb_true_iff. intros (Hp & Hq & _). destruct pad; [done|].
    destruct (sextet_at StdAlphabet p) as [w|] eqn:E1; [|done]. destruct (sextet_at StdAlphabet q) as [x|] eqn:E2; [|done].
    by rewrite (Ha _ _ Hp E1), (Ha _ _ Hq E2).
  - clear IH. rewrite !andb_true_iff, !negb_true_iff. intros (Hp & Hq & Hu & _). destruct pad; [done|].
    destruct (sextet_at StdAlphabet p) as [w|] eqn:E1; [|done]. destruct (sextet_at StdAlphabet q) as [x|] eqn:E2; [|done].
    destruct (sextet_at StdAlphabet u) as [y|] eqn:E3; [|done]. by rewrite (Ha _ _ Hp E1), (Ha _ _ Hq E2), (Ha _ _ Hu E3).
  - rewrite !andb_true_iff, !negb_true_iff. intros (Hp & Hq & Hu & Ht & Hs).
    destruct (sextet_at StdAlphabet p) as [w|] eqn:E1; [|done]. destruct (sextet_at StdAlphabet q) as [x|] eqn:E2; [|done].
    rewrite (Ha _ _ Hp E1), (Ha _ _ Hq E2). cbn [mbind option_bind]. destruct (pad && Ascii.eqb u "="); [done|].
    destruct (sextet_at StdAlphabet u) as [y|] eqn:E3; [|done]. rewrite (Ha _ _ Hu E3). cbn [mbind option_bind].
    destruct (pad && Ascii.eqb t "="); [done|]. destruct (sextet_at StdAlphabet t) as [z|] eqn:E4; [|done]. rewrite (Ha _ _ Ht E4).
    cbn [mbind option_bind]. destruct (decode_groups StdAlphabet pad s) as [r'|] eqn:Es; [|done]. by rewrite (IH s r' Hs Es).
Qed.

(** The first decoder never misreads what is meant for the second. *)
Lemma std_or_url al pad s : match Base64StdDecode (Encode al pad s) with
  | (raw, None) => raw = s
  | (_, Some _) => Base64URLDecode (Encode al pad s) = (s, None)
  end.
Proof.
  destruct al; [unfold Base64StdDecode; by rewrite decode_padded_encoded|]. unfold Base64StdDecode, Base64URLDecode.
  pose proof (decode_padded_encoded URLAlphabet pad s) as Hu. destruct (decode_padded StdAlphabet _) as [raw [e|]] eqn:E; [done|].
  assert (Hf : free_of (fun a => has_byte a "+/") (strip_line_ends (pad_to_four (strip_line_ends (TrimSpace (Encode URLAlphabet pad s))))) = true).
  { rewrite trim_free by (apply encode_free; [apply char_plain|done]). rewrite (strip_free (Encode _ _ _)) by (apply encode_free; [apply char_plain|done]).
    assert (pad_to_four (Encode URLAlphabet pad s) = Encode URLAlphabet true s) as -> by (destruct pad; [apply pad_padded|apply pad_encoding]).
    rewrite strip_free by (apply encode_free; [apply char_plain|done]). apply encode_free; [|done]. by intros [[] [] [] [] [] []]. }
  revert E Hu. unfold decode_padded, Decode. destruct (decode_groups StdAlphabet true _) as [r|] eqn:Es; [|done]. intros [= ->].
  rewrite (decode_agrees _ _ _ Hf Es). by intros [= ->].
Qed.

Example encoded_foobar : Encode StdAlphabet true "fooba" = "Zm9vYmE=" /\ Decode URLAlphabet false "Zm9vYmE" = Some "fooba".
Proof. by vm_compute. Qed.

Section JsonText.
#[local] Open Scope nat_scope.

(** ** UTF-8 *)

Definition cont (a : Ascii.ascii) : bool := between 128 (Ascii.nat_of_ascii a) 191.

(** The bytes a second byte may have after the first one. *)
Definition second_ok (n : nat) (b : Ascii.ascii) : bool :=
  let m := Ascii.nat_of_ascii b in
  if n =? 224 then between 160 m 191
  else if n =? 237 then between 128 m 159
  else if n =? 240 then between 144 m 191
  else if n =? 244 then between 128 m 143
  else cont b.

(** The first rune of a text: its bytes and the rest; [None] at an invalid one. *)
Definition first_rune (s : string) : option (string * string) :=
  match s with
  | EmptyString => None
  | String a s1 =>
    let n := Ascii.nat_of_ascii a in
    if n <? 128 then Some (String a EmptyString, s1)
    else
      match s1 with
      | String b s2 =>
        if between 194 n 223 then if cont b then Some (String a (String b EmptyString), s2) else None
        else
          match s2 with
          | String c s3 =>
            if between 224 n 239 then
              if second_ok n b && cont c then Some (String a (String b (String c EmptyString)), s3) else None
            else
              match s3 with
              | String d s4 =>
                if between 240 n 244 && second_ok n b && cont c && cont d
                then Some (String a (String b (String c (String d EmptyString))), s4) else None
              | EmptyString => None
              end
          | EmptyString => None
          end
      | EmptyString => None
      end
  end.

(** [utf8.ValidString] *)
Fixpoint valid_from (fuel : nat) (s : string) : bool :=
  match fuel, s with
  | _, EmptyString => true
  | S fuel, _ => match first_rune s with Some (_, rest) => valid_from fuel rest | None => false end
  | O, _ => false
  end.
Definition ValidString (s : string) : bool := valid_from (s_len s) s.

(** ** Quoting *)

Definition ascii_of (n : nat) : Ascii.ascii := Ascii.ascii_of_nat n.
Definition dquote : string := String (ascii_of 34) EmptyString.
Definition backslash : Ascii.ascii := ascii_of 92.

Definition lower_hex (n : nat) : Ascii.ascii := if n <? 10 then ascii_of (48 + n) else ascii_of (87 + n).

Definition quote_byte (a : Ascii.ascii) : string :=
  let n := Ascii.nat_of_ascii a in
  let esc c := String backslash (String c EmptyString) in
  if (n =? 34) || (n =? 92) then esc a
  else if n =? 8 then esc "b"%char
  else if n =? 12 then esc "f"%char
  else if n =? 10 then esc "n"%char
  else if n =? 13 then esc "r"%char
  else if n =? 9 then esc "t"%char
  else if (n <? 32) || has_byte a "<>&"
  then String backslash ("u00" +:+ String (lower_hex (n / 16)) (String (lower_hex (n mod 16)) EmptyString))
  else String a EmptyString.

(** U+2028 and U+2029 *)
Definition line_separator (r : string) : option Ascii.ascii :=
  match r with
  | String a (String b (String c EmptyString)) =>
    let n := Ascii.nat_of_ascii c in
    if (Ascii.nat_of_ascii a =? 226) && (Ascii.nat_of_ascii b =? 128) && between 168 n 169
    then Some (lower_hex (n mod 16)) else None
  | _ => None
  end.

Definition quote_rune (r : string) : string :=
  match r with
  | String a EmptyString => quote_byte a
  | _ => match line_separator r with
         | Some h => String backslash ("u202" +:+ String h EmptyString)
         | None => r
         end
  end.

Fixpoint quote_from (fuel : nat) (s : string) : string :=
  match fuel, s with
  | S fuel, String _ s' =>
    match first_rune s with
    | Some (r, rest) => quote_rune r +:+ quote_from fuel rest
    | None => String backslash "ufffd" +:+ quote_from fuel s'
    end
  | _, _ => EmptyString
  end.

Definition Quote (s : string) : string := dquote +:+ quote_from (s_len s) s +:+ dquote.

(** ** Objects *)

Inductive member :=
| MStr (v : string)
| MInt (n : Z)
| MBool (b : bool)
| MStrs (l : list string)
| MInts (l : list Z)
| MObjs (l : list (list (string * bool * member))).

Definition bracketed (l : list string) : string := "[" +:+ Join "," l +:+ "]".

(** [omitempty] leaves these out. *)
Definition empty_member (m : member) : bool :=
  match m with
  | MStr v => String.eqb v ""
  | MInt n => Z.eqb n 0
  | MBool b => negb b
  | MStrs l => match l with [] => true | _ => false end
  | MInts l => match l with [] => true | _ => false end
  | MObjs l => match l with [] => true | _ => false end
  end.

(** A member is its name, whether it is left out when empty, and its value. *)
Fixpoint member_text (m : member) : string :=
  match m with
  | MStr v => Quote v
  | MInt n => dec n
  | MBool b => if b then "true" else "false"
  | MStrs l => bracketed (map Quote l)
  | MInts l => bracketed (map dec l)
  | MObjs l =>
    bracketed (map (fun fs =>
      "{" +:+ Join "," (omap (fun f =>
        let '(k, omitempty, m) := f in
        if omitempty && empty_member m then None else Some (Quote k +:+ ":" +:+ member_text m)) fs) +:+ "}") l)
  end.

Definition object_text (fs : list (string * bool * member)) : string :=
  "{" +:+ Join "," (omap (fun f =>
    let '(k, omitempty, m) := f in
    if omitempty && empty_member m then None else Some (Quote k +:+ ":" +:+ member_text m)) fs) +:+ "}".

End JsonText.

(** ** SHA-1 (crypto/sha1) *)

Definition u32 (n : Z) : Z := n mod 2 ^ 32.
Definition add32 (a b : Z) : Z := u32 (a + b).
Definition rotl (k x : Z) : Z := Z.lor (u32 (Z.shiftl x k)) (Z.shiftr x (32 - k)).

(** Big-endian bytes of a number. *)
Fixpoint be_bytes (n : nat) (x : Z) : list Z :=
  match n with O => [] | S k => be_bytes k (Z.shiftr x 8) ++ [Z.land x 255] end.

Definition word (b : list Z) : Z := fold_left (fun acc x => acc * 256 + x) b 0.

(** The message, a bit, zeros, and the length in bits: a multiple of 64 bytes. *)
Definition sha_padded (m : list Z) : list Z :=
  let n := Z.of_nat (length m) in
  let zeros := Z.to_nat ((55 - n) mod 64) in
  (m ++ [128] ++ replicate zeros 0 ++ be_bytes 8 (8 * n))%list.

Fixpoint chunks (k : nat) (n : nat) (l : list Z) : list (list Z) :=
  match n with O => [] | S n => take k l :: chunks k n (drop k l) end.

(** The schedule, the newest word first. *)
Fixpoint extend (n : nat) (ws : list Z) : list Z :=
  match n with
  | O => ws
  | S n =>
    let w i := nth i ws 0 in
    extend n (rotl 1 (Z.lxor (Z.lxor (w 2%nat) (w 7%nat)) (Z.lxor (w 13%nat) (w 15%nat))) :: ws)
  end.

Definition schedule (block : list Z) : list Z := rev (extend 64 (rev (map word (chunks 4 16 block)))).

Record digest := mkDigest { d_a : Z; d_b : Z; d_c : Z; d_d : Z; d_e : Z }.

Definition sha_round (d : digest) (iw : nat * Z) : digest :=
  let '(i, w) := iw in let '(mkDigest a b c d e) := d in
  let '(f, k) :=
    if (i <? 20)%nat then (Z.lor (Z.land b c) (Z.land (Z.lxor b (2 ^ 32 - 1)) d), 0x5A827999)
    else if (i <? 40)%nat then (Z.lxor b (Z.lxor c d), 0x6ED9EBA1)
    else if (i <? 60)%nat then (Z.lor (Z.lor (Z.land b c) (Z.land b d)) (Z.land c d), 0x8F1BBCDC)
    else (Z.lxor b (Z.lxor c d), 0xCA62C1D6) in
  mkDigest (add32 (add32 (add32 (rotl 5 a) f) (add32 e k)) w) a (rotl 30 b) c d.

Definition sha_block (d : digest) (block : list Z) : digest :=
  let x := fold_left sha_round (imap (fun i w => (i, w)) (schedule block)) d in
  mkDigest (add32 (d_a d) (d_a x)) (add32 (d_b d) (d_b x)) (add32 (d_c d) (d_c x)) (add32 (d_d d) (d_d x)) (add32 (d_e d) (d_e x)).

Definition sha_init : digest := mkDigest 0x67452301 0xEFCDAB89 0x98BADCFE 0x10325476 0xC3D2E1F0.

Definition sha1_sum (m : list Z) : list Z :=
  let p := sha_padded m in
  let d := fold_left sha_block (chunks 64 (length p / 64) p) sha_init in
  concat (map (be_bytes 4) [d_a d; d_b d; d_c d; d_d d; d_e d]).

(** ** Name-based identifiers *)

(** [hex.Encode] *)
Definition hex_byte (b : Z) : string :=
  String (lower_hex (Z.to_nat (Z.shiftr b 4))) (String (lower_hex (Z.to_nat (Z.land b 15))) EmptyString).
Definition hex_bytes (l : list Z) : string := concat_strings (map hex_byte l).

Definition uuid_bytes (str : string) : list Z :=
  let u := take 16 (sha1_sum (replicate 16 0 ++ codes str)%list) in
  let u := <[6%nat := Z.lor (Z.land (nth_byte u 6) 15) (Z.shiftl 5 4)]> u in
  <[8%nat := Z.lor (Z.land (nth_byte u 8) (Z.shiftr 255 2)) (Z.shiftl 2 6)]> u.

Definition StringToUUID5 (str : string) : string :=
  let u := uuid_bytes str in
  let part i n := hex_bytes (take n (drop i u)) in
  part 0%nat 4%nat +:+ "-" +:+ part 4%nat 2%nat +:+ "-" +:+ part 6%nat 2%nat +:+ "-" +:+ part 8%nat 2%nat +:+ "-" +:+ part 10%nat 6%nat.

Example uuid_of_example : StringToUUID5 "example" = "feb54431-301b-52bb-a6dd-e1e93e81bb9e"%string.
Proof. vm_compute. reflexivity. Qed.

(** ** Certificate pins *)

(** [hex.DecodeString], as the bytes. *)
Fixpoint hex_decode (s : list Z) : option (list Z) :=
  match s with
  | [] => Some []
  | h :: l :: s' => h ← hex_value h; l ← hex_value l; r ← hex_decode s'; Some (h * 16 + l :: r)
  | _ => None
  end.

Definition pin_part (part : string) : string :=
  let part := TrimSpace part in
  let part := TrimPrefix part "sha256:" in
  let part := TrimPrefix part "SHA256:" in
  TrimSpace (ReplaceAll part ":" "").

Definition of_length_32 (l : list Z) : option (list Z) := if (length l =? 32)%nat then Some l else None.

(** Hexadecimal, or the first of the four base64 encodings that gives 32 bytes. *)
Definition pin_bytes (part : string) : option (list Z) :=
  let b64 al pad := raw ← Decode al pad part; of_length_32 (codes raw) in
  match (raw ← hex_decode (codes part); of_length_32 raw) with
  | Some raw => Some raw
  | None =>
    match b64 StdAlphabet true with
    | Some raw => Some raw
    | None =>
      match b64 StdAlphabet false with
      | Some raw => Some raw
      | None => match b64 URLAlphabet true with Some raw => Some raw | None => b64 URLAlphabet false end
      end
    end
  end.

Fixpoint pin_loop (pin : string) (parts : list string) : result (list string) :=
  match parts with
  | [] => Ok []
  | part :: parts =>
    let part := pin_part part in
    if String.eqb part "" then pin_loop pin parts
    else
      match pin_bytes part with
      | None => Err (Errorf "unrecognized peer certificate pin: %q" [FStr pin])
      | Some raw => let? out := pin_loop pin parts in Ok (hex_bytes raw :: out)
      end
  end.

Definition PinnedPeerCertSha256Hex (pin : string) : result string :=
  let pin := TrimSpace pin in
  if String.eqb pin "" then Ok EmptyString
  else let? out := pin_loop pin (Split_byte "," pin) in Ok (Join "," out).
