(* ===== verification/Url.v ===== *)
(** * URLs (net/url)

    What share links use of Go's package: parsing, and building from the scheme,
    the user, the host and port, the query and the fragment.  The paths of the
    URLs that are built are empty.  Hosts are checked as Go 1.26 does. *)

From S2P Require Import Prelude.
From S2P Require Import NetIP Text Iptables NodeRefs.

#[local] Open Scope Z_scope.
#[local] Open Scope go_scope.

(** ** Escaping *)

Inductive encoding := encodePath | encodeHost | encodeZone | encodeUserPassword | encodeQueryComponent | encodeFragment.

Definition letter (a : Ascii.ascii) : bool :=
  let n := Ascii.nat_of_ascii a in between 97 n 122 || between 65 n 90.
Definition digit (a : Ascii.ascii) : bool := between 48 (Ascii.nat_of_ascii a) 57.

Definition quote_char : Ascii.ascii := Ascii.ascii_of_nat 34.

Definition shouldEscape (m : encoding) (a : Ascii.ascii) : bool :=
  let at_ s := has_byte a s in
  if letter a || digit a then false
  else if match m with encodeHost | encodeZone => at_ "!$&'()*+,;=:[]<>" || Ascii.eqb a quote_char | _ => false end then false
  else if at_ "-_.~" then false
  else
    match m, at_ "$&+,/:;=?@" with
    | encodePath, true => at_ "?"
    | encodeUserPassword, true => at_ "@/?:"
    | encodeQueryComponent, true => true
    | encodeFragment, true => false
    | encodeFragment, false => negb (at_ "!()*")
    | _, _ => true
    end.

Definition upper_hex (n : nat) : Ascii.ascii :=
  if (n <? 10)%nat then Ascii.ascii_of_nat (48 + n) else Ascii.ascii_of_nat (55 + n).

Definition unhex (a : Ascii.ascii) : option nat :=
  let n := Ascii.nat_of_ascii a in
  if between 48 n 57 then Some (n - 48)%nat
  else if between 97 n 102 then Some (n - 87)%nat
  else if between 65 n 70 then Some (n - 55)%nat
  else None.

Definition escape_char (m : encoding) (a : Ascii.ascii) : string :=
  let n := Ascii.nat_of_ascii a in
  match m, Ascii.eqb a " " with
  | encodeQueryComponent, true => "+"
  | _, _ =>
    if shouldEscape m a
    then String "%" (String (upper_hex (n / 16)) (String (upper_hex (n mod 16)) EmptyString))
    else String a EmptyString
  end.

Fixpoint escape (m : encoding) (s : string) : string :=
  match s with
  | EmptyString => EmptyString
  | String a s' => escape_char m a +:+ escape m s'
  end.

(** An escape that a host or a zone may not have. *)
Definition bad_escape (m : encoding) (h l : nat) : bool :=
  let v := Ascii.ascii_of_nat (16 * h + l) in
  let percent := (h =? 2)%nat && (l =? 5)%nat in
  match m with
  | encodeHost => (h <? 8)%nat && negb percent
  | encodeZone => negb percent && negb (Ascii.eqb v " ") && shouldEscape encodeHost v
  | _ => false
  end.

(** An unescaped character that a host or a zone may not have. *)
Definition bad_char (m : encoding) (a : Ascii.ascii) : bool :=
  match m with
  | encodeHost | encodeZone => (Ascii.nat_of_ascii a <? 128)%nat && shouldEscape m a
  | _ => false
  end.

Fixpoint unescape (m : encoding) (s : string) : option string :=
  match s with
  | EmptyString => Some EmptyString
  | String "%" s' =>
    match s' with
    | String h (String l s'') =>
      h ← unhex h; l ← unhex l;
      if bad_escape m h l then None
      else String (Ascii.ascii_of_nat (16 * h + l)) <$> unescape m s''
    | _ => None
    end
  | String a s' =>
    if bad_char m a then None
    else
      let a := match m with encodeQueryComponent => if Ascii.eqb a "+" then " "%char else a | _ => a end in
      String a <$> unescape m s'
  end.

(** ** Users and hosts *)

Record Userinfo := mkUserinfo { Username : string; Password : option string }.

(** [Userinfo.String] *)
Definition user_string (u : Userinfo) : string :=
  if nonempty (Username u) || is_some (Password u) then
    escape encodeUserPassword (Username u) +:+
    match Password u with Some p => ":" +:+ escape encodeUserPassword p | None => EmptyString end
  else EmptyString.

Definition user_char (a : Ascii.ascii) : bool := letter a || digit a || has_byte a "-._:~!$&'()*+,;=%@".

Definition validUserinfo (s : string) : bool := free_of (fun a => negb (user_char a)) s.

Definition validOptionalPort (port : string) : bool :=
  match port with
  | EmptyString => true
  | String a s => Ascii.eqb a ":" && free_of (fun a => negb (digit a)) s
  end.

(** [strings.LastIndex] of a byte, as the two sides. *)
Definition cut_last (c : Ascii.ascii) (s : string) : option (string * string) :=
  match last_index_byte c s with Some i => Some (s_take i s, s_drop (S i) s) | None => None end.

Definition parse_user (userinfo : string) : option Userinfo :=
  if negb (validUserinfo userinfo) then None
  else
    match Cut userinfo ":" with
    | None => u ← unescape encodeUserPassword userinfo; Some (mkUserinfo u None)
    | Some (u, p) =>
      u ← unescape encodeUserPassword u; p ← unescape encodeUserPassword p; Some (mkUserinfo u (Some p))
    end.

(** The inside of brackets. *)
Definition unescape_literal (hostname : string) : option string :=
  match Cut hostname "%25" with
  | Some (h, z) => h ← unescape encodeHost h; z ← unescape encodeZone ("%25" +:+ z); Some (h +:+ z)
  | None => unescape encodeHost hostname
  end.

Definition parse_host (host : string) : option string :=
  match last_index_byte "[" host with
  | Some (S _) => None
  | Some O =>
    match cut_last "]" (s_drop 1 host) with
    | None => None
    | Some (hostname, colonPort) =>
      if negb (validOptionalPort colonPort) then None
      else
        port ← unescape encodeHost colonPort; h ← unescape_literal hostname;
        match ParseAddr h with
        | Some (AddrV6 _ _) => Some ("[" +:+ h +:+ "]" +:+ port)
        | _ => None
        end
    end
  | None =>
    match Cut host ":" with
    | Some (_, port) =>
      if has_byte ":" port || negb (validOptionalPort (":" +:+ port)) then None else unescape encodeHost host
    | None => unescape encodeHost host
    end
  end.

(** ** Parsing *)

Record URL := mkURL {
  Scheme : string;
  Opaque_ : string;
  url_User : option Userinfo;
  url_Host : string;
  url_Path : string;
  RawQuery : string;
  Fragment : string;
}.

(** The scheme and the rest; [Some None]: there is no scheme. *)
Fixpoint getScheme (first : bool) (s : string) : option (option (string * string)) :=
  match s with
  | EmptyString => Some None
  | String a s' =>
    let more := match getScheme false s' with
                | Some (Some (sch, rest)) => Some (Some (String a sch, rest))
                | r => r
                end in
    if letter a then more
    else if digit a || has_byte a "+-." then if first then Some None else more
    else if Ascii.eqb a ":" then if first then None else Some (Some (EmptyString, s'))
    else Some None
  end.

Definition control (a : Ascii.ascii) : bool := let n := Ascii.nat_of_ascii a in (n <? 32)%nat || (n =? 127)%nat.

(** The user and the host; without [//] there are none. *)
Definition parseAuthority (authority : string) : option (option Userinfo * string) :=
  match cut_last "@" authority with
  | None => h ← parse_host authority; Some (None, h)
  | Some (userinfo, host) => h ← parse_host host; u ← parse_user userinfo; Some (Some u, h)
  end.

Definition parse_rest (scheme rest : string) : option URL :=
  let '(rest, query) := default (rest, EmptyString) (Cut rest "?") in
  if negb (HasPrefix rest "/") && nonempty scheme then Some (mkURL scheme rest None "" "" query "")
  else if negb (HasPrefix rest "/") && has_byte ":" (fst (default (rest, EmptyString) (Cut rest "/"))) then None
  else if (nonempty scheme || negb (HasPrefix rest "///")) && HasPrefix rest "//" then
    let authority := TrimPrefix rest "//" in
    let '(authority, path) := match Cut authority "/" with
                              | Some (a, p) => (a, "/" +:+ p)
                              | None => (authority, EmptyString)
                              end in
    '(user, host) ← parseAuthority authority; path ← unescape encodePath path;
    Some (mkURL scheme "" user host path query "")
  else path ← unescape encodePath rest; Some (mkURL scheme "" None "" path query "").

Definition parse_url (s : string) : option URL :=
  if negb (free_of control s) then None
  else if String.eqb s "*" then Some (mkURL "" "" None "" "*" "" "")
  else
    match getScheme true s with
    | None => None
    | Some None => parse_rest EmptyString s
    | Some (Some (scheme, rest)) => parse_rest (ToLower scheme) rest
    end.

Definition set_fragment (u : URL) (f : string) : URL :=
  mkURL (Scheme u) (Opaque_ u) (url_User u) (url_Host u) (url_Path u) (RawQuery u) f.

Definition url_error : error := ExtErr "parse url".

Definition url_Parse (raw : string) : result URL :=
  let '(u, frag) := default (raw, EmptyString) (Cut raw "#") in
  match parse_url u with
  | None => Err url_error
  | Some url =>
    if String.eqb frag "" then Ok url
    else match unescape encodeFragment frag with Some f => Ok (set_fragment url f) | None => Err url_error end
  end.

(** [splitHostPort] *)
Definition host_port (hostPort : string) : string * string :=
  let '(host, port) :=
    match cut_last ":" hostPort with
    | Some (h, p) => if validOptionalPort (":" +:+ p) then (h, p) else (hostPort, EmptyString)
    | None => (hostPort, EmptyString)
    end in
  (if HasPrefix host "[" && HasSuffix host "]" then TrimSuffix (TrimPrefix host "[") "]" else host, port).

Definition Hostname (u : URL) : string := fst (host_port (url_Host u)).
Definition Port (u : URL) : string := snd (host_port (url_Host u)).

(** [u.User.Username()], also of a nil user. *)
Definition user_name (u : URL) : string := match url_User u with Some x => Username x | None => EmptyString end.
Definition user_password (u : URL) : option string := x ← url_User u; Password x.

(** ** Queries *)

Definition query_piece (piece : string) : option (string * string) :=
  if has_byte ";" piece || String.eqb piece "" then None
  else
    let '(k, v) := default (piece, EmptyString) (Cut piece "=") in
    k ← unescape encodeQueryComponent k; v ← unescape encodeQueryComponent v; Some (k, v).

(** Pieces that cannot be read are skipped. *)
Definition parse_query (q : string) : list (string * string) := omap query_piece (Split_byte "&" q).

Definition Query (u : URL) : list (string * string) := parse_query (RawQuery u).

(** [q.Get(k)] and [q[k]] *)
Fixpoint get (k : string) (q : list (string * string)) : string :=
  match q with
  | [] => EmptyString
  | (k', v) :: q => if String.eqb k k' then v else get k q
  end.

Definition all_of (k : string) (q : list (string * string)) : list string :=
  map snd (List.filter (fun kv => String.eqb k (fst kv)) q).

(** [q.Set(k, v)] on values with one value for a key, in any order. *)
Fixpoint set (k v : string) (q : list (string * string)) : list (string * string) :=
  match q with
  | [] => [(k, v)]
  | (k', v') :: q => if String.eqb k k' then (k, v) :: q else (k', v') :: set k v q
  end.

Definition key_before (a b : string * string) : bool := String.ltb (fst a) (fst b).

Definition encode_pair (kv : string * string) : string :=
  escape encodeQueryComponent (fst kv) +:+ "=" +:+ escape encodeQueryComponent (snd kv).

(** [Values.Encode] *)
Definition Encode_query (q : list (string * string)) : string := Join "&" (map encode_pair (sort_by key_before q)).

(** ** Building *)

Definition url_String (scheme : string) (user : option Userinfo) (host query fragment : string) : string :=
  (if String.eqb scheme "" then EmptyString else scheme +:+ ":") +:+ "//" +:+ (match user with Some u => user_string u +:+ "@" | None => EmptyString end) +:+
  escape encodeHost host +:+ (if String.eqb query "" then EmptyString else "?" +:+ query) +:+
  (if String.eqb fragment "" then EmptyString else "#" +:+ escape encodeFragment fragment).

Example parsed : url_Parse "trojan://p%40ss@[2001:db8::1]:443?sni=a.b&alpn=h2%2Ch3#my%20node" =
  Ok (mkURL "trojan" "" (Some (mkUserinfo "p@ss" None)) "[2001:db8::1]:443" "" "sni=a.b&alpn=h2%2Ch3" "my node").
Proof. by vm_compute. Qed.
