(* ===== verification/UrlProps.v ===== *)
(** * Parsing what was built: URLs

    A URL that is built from a scheme, a user, a host with a port, an encoded query
    and a fragment is parsed to just these; an encoded query is parsed to its
    parameters in order of their keys. *)

From stdpp Require Import pretty.
From S2P Require Import Prelude.
From S2P Require Import NetIP Text Iptables NodeRefs Url.

#[local] Open Scope Z_scope.

(** A claim about every byte. *)
Ltac all_bytes := intros [[] [] [] [] [] [] [] []]; vm_compute; done.

(** ** Free of a byte *)

Abbreviation lacks c s := (has_byte c s = false).

Lemma lacks_free c s : lacks c s <-> free_of (fun a => Ascii.eqb a c) s = true.
Proof.
  induction s as [|a s IH]; [done|]. cbn [has_byte free_of]. rewrite orb_false_iff, andb_true_iff, negb_true_iff, IH. done.
Qed.

Lemma lacks_app c s t : lacks c (s +:+ t) <-> lacks c s /\ lacks c t.
Proof. by rewrite has_byte_app, orb_false_iff. Qed.

Lemma free_lacks p c s : p c = true -> free_of p s = true -> lacks c s.
Proof. intros Hc. rewrite lacks_free. apply free_of_mono. by intros a ->%Ascii.eqb_eq. Qed.

(** ** Cutting at a byte *)

Lemma prefix_byte c a s : HasPrefix (String a s) (String c EmptyString) = Ascii.eqb a c.
Proof.
  unfold HasPrefix, String.prefix. destruct (Ascii.ascii_dec c a) as [->|H].
  - rewrite Ascii.eqb_refl. by destruct s.
  - symmetry. apply Ascii.eqb_neq. congruence.
Qed.

Lemma cut_at_byte c s t : lacks c s -> Cut (s +:+ String c t) (String c EmptyString) = Some (s, t).
Proof.
  induction s as [|a s IH].
  - intros _. rewrite s_app_nil. cbn [Cut]. rewrite prefix_byte, Ascii.eqb_refl. f_equal. f_equal.
    exact (TrimPrefix_app (String c EmptyString) t).
  - cbn [has_byte]. intros [Ha Hs]%orb_false_iff. rewrite s_app_cons. cbn [Cut]. rewrite prefix_byte, Ha. by rewrite IH.
Qed.

Lemma cut_lacking c s : lacks c s -> Cut s (String c EmptyString) = None.
Proof.
  induction s as [|a s IH]; [done|]. cbn [has_byte]. intros [Ha Hs]%orb_false_iff. cbn [Cut].
  by rewrite prefix_byte, Ha, IH.
Qed.

Lemma s_drop_succ h c t : s_drop (S (s_len h)) (h +:+ String c t) = t.
Proof.
  change (String c t) with (String c EmptyString +:+ t). rewrite s_app_assoc.
  replace (S (s_len h)) with (s_len (h +:+ String c EmptyString)) by (rewrite s_len_app; cbn; lia). apply s_drop_app.
Qed.

Lemma cut_last_app c s t : lacks c t -> cut_last c (s +:+ String c t) = Some (s, t).
Proof. intros H. unfold cut_last. by rewrite last_index_app, s_take_app, s_drop_succ. Qed.

Lemma cut_last_none c s : lacks c s -> cut_last c s = None.
Proof. intros H. unfold cut_last. by rewrite last_index_none. Qed.

(** ** Escaping *)

Lemma escape_free m p s : (forall a, free_of p (escape_char m a) = true) -> free_of p (escape m s) = true.
Proof. intros H. induction s as [|a s IH]; [done|]. cbn [escape]. by rewrite free_of_app, H, IH. Qed.

Lemma escape_lacks m c s : (forall a, lacks c (escape_char m a)) -> lacks c (escape m s).
Proof. intros H. apply lacks_free, escape_free. intros a. apply lacks_free, H. Qed.

Lemma escape_nil m s : escape m s = EmptyString -> s = EmptyString.
Proof.
  destruct s as [|a s]; [done|]. cbn [escape]. intros H. exfalso. apply (f_equal s_len) in H. rewrite s_len_app in H.
  assert (0 < s_len (escape_char m a))%nat; [|cbn in H; lia]. unfold escape_char.
  destruct (shouldEscape m a), m, (Ascii.eqb a " "); cbn; lia.
Qed.

(** Unescaping is byte by byte. *)
Definition unescapes (m : encoding) (a : Ascii.ascii) : Prop :=
  forall t, unescape m (escape_char m a +:+ t) = String a <$> unescape m t.

Lemma unescape_escape m s : (forall a, has_byte a s = true -> unescapes m a) -> unescape m (escape m s) = Some s.
Proof.
  induction s as [|a s IH]; intros H; [done|]. cbn [escape]. rewrite H by (cbn; by rewrite Ascii.eqb_refl).
  rewrite IH; [done|]. intros b Hb. apply H. cbn. by rewrite Hb, orb_true_r.
Qed.

Lemma user_unescapes a : unescapes encodeUserPassword a.
Proof. intros t. destruct a as [[] [] [] [] [] [] [] []]; reflexivity. Qed.
Lemma query_unescapes a : unescapes encodeQueryComponent a.
Proof. intros t. destruct a as [[] [] [] [] [] [] [] []]; reflexivity. Qed.
Lemma fragment_unescapes a : unescapes encodeFragment a.
Proof. intros t. destruct a as [[] [] [] [] [] [] [] []]; reflexivity. Qed.

(** The bytes a host may have: those that are left alone, those of other alphabets
    and the percent sign. *)
Definition host_char (a : Ascii.ascii) : bool :=
  negb (shouldEscape encodeHost a) || (128 <=? Ascii.nat_of_ascii a)%nat || Ascii.eqb a "%".

Lemma host_unescapes a : host_char a = true -> unescapes encodeHost a.
Proof. intros H t. revert H. destruct a as [[] [] [] [] [] [] [] []]; (discriminate || reflexivity). Qed.

(** ** Decimal numbers *)

Lemma digit_code d : (d < 10)%N -> code (pretty_N_char d) - 48 = Z.of_N d /\ digit_char (pretty_N_char d) = true.
Proof.
  intros H. assert (d = 0 \/ d = 1 \/ d = 2 \/ d = 3 \/ d = 4 \/ d = 5 \/ d = 6 \/ d = 7 \/ d = 8 \/ d = 9)%N as Hd by lia.
  destruct_or! Hd; by subst d.
Qed.

Lemma digits_go x s : digits_value (pretty_N_go x s) 0 = digits_value s (Z.of_N x) /\
  free_of (fun a => negb (digit_char a)) (pretty_N_go x s) = free_of (fun a => negb (digit_char a)) s /\
  (s <> EmptyString -> pretty_N_go x s <> EmptyString).
Proof.
  revert s. induction (N.lt_wf_0 x) as [x _ IH]; intros s. assert (x = 0 \/ 0 < x)%N as [->|Hx] by lia; [by rewrite pretty_N_go_0|].
  rewrite pretty_N_go_step by done. assert (x / 10 < x)%N as Hlt by by apply N.div_lt.
  destruct (IH (x / 10)%N Hlt (String (pretty_N_char (x mod 10)) s)) as (-> & -> & Hn).
  assert (x mod 10 < 10)%N as Hm by (apply N.mod_lt; lia). destruct (digit_code _ Hm) as [Hc Hd]. split; [|split].
  - cbn [digits_value]. f_equal. rewrite Hc. pose proof (N.div_mod x 10 ltac:(lia)). lia.
  - cbn [free_of]. by rewrite Hd.
  - intros _. by apply Hn.
Qed.

Lemma dec_spec n : 0 <= n -> digits_value (dec n) 0 = n /\ free_of (fun a => negb (digit_char a)) (dec n) = true /\ dec n <> EmptyString.
Proof.
  intros Hn. destruct n as [|p|p]; [done| |lia].
  assert (dec (Z.pos p) = pretty_N_go (N.pos p) EmptyString) as -> by done. rewrite pretty_N_go_step by done.
  assert (N.pos p mod 10 < 10)%N as Hm by (apply N.mod_lt; lia). destruct (digit_code _ Hm) as [Hc Hd].
  destruct (digits_go (N.pos p / 10)%N (String (pretty_N_char (N.pos p mod 10)) EmptyString)) as (-> & -> & He). split; [|split].
  - cbn [digits_value]. rewrite Hc. pose proof (N.div_mod (N.pos p) 10 ltac:(lia)). lia.
  - cbn [free_of]. by rewrite Hd.
  - by apply He.
Qed.

(** Printed and read again. *)
Lemma Atoi_dec n : MinInt64 <= n <= MaxInt64 -> Atoi (dec n) = Some n.
Proof.
  intros Hn. destruct (decide (0 <= n)) as [H0|H0].
  - destruct (dec_spec n H0) as (Hv & Hd & He). destruct (dec n) as [|a s] eqn:E; [done|].
    assert (Ha : digit_char a = true) by (cbn [free_of] in Hd; by destruct (digit_char a)).
    unfold Atoi. assert (Ascii.eqb a "-" = false /\ Ascii.eqb a "+" = false) as [-> ->].
    { clear -Ha. split; apply Ascii.eqb_neq; by intros ->. }
    change (nonempty (String a s)) with true. rewrite Hd. cbn [andb]. rewrite Hv.
    by rewrite !(proj2 (Z.leb_le _ _)) by lia.
  - destruct n as [|p|p]; [lia..|]. change (dec (Z.neg p)) with (String "-" (dec (Z.pos p))).
    destruct (dec_spec (Z.pos p) ltac:(lia)) as (Hv & Hd & He). unfold Atoi. change (Ascii.eqb "-" "-") with true. cbv iota.
    assert (nonempty (dec (Z.pos p)) = true) as -> by by destruct (dec (Z.pos p)). rewrite Hd. cbn [andb]. rewrite Hv.
    by rewrite !(proj2 (Z.leb_le _ _)) by lia.
Qed.

(** ** Queries *)

Lemma split_byte_join c l : l <> [] -> Forall (fun s => lacks c s) l -> Split_byte c (Join (String c EmptyString) l) = l.
Proof.
  intros Hn H. unfold Split_byte. assert (Hone : forall s, lacks c s -> split_on (Ascii.eqb c) s = [s]).
  { intros s Hs. apply split_on_one. apply lacks_free in Hs. eapply free_of_mono; [|exact Hs].
    intros a ->%Ascii.eqb_eq. apply Ascii.eqb_refl. }
  induction l as [|x l IH]; [done|]. apply Forall_cons in H as [Hx Hl]. destruct l as [|y l]; [by apply Hone|].
  change (Join (String c EmptyString) (x :: y :: l)) with (x +:+ String c (Join (String c EmptyString) (y :: l))).
  rewrite split_on_sep by apply Ascii.eqb_refl. rewrite Hone by done. rewrite IH by done. done.
Qed.

Definition query_special (c : Ascii.ascii) : bool := has_byte c "&=;# " || control c.

Lemma escaped_query s : free_of query_special (escape encodeQueryComponent s) = true.
Proof. apply escape_free. all_bytes. Qed.

Lemma piece_encode kv : query_piece (encode_pair kv) = Some kv.
Proof.
  destruct kv as [k v]. unfold query_piece, encode_pair. cbn [fst snd].
  assert (Hk : forall c s, query_special c = true -> lacks c (escape encodeQueryComponent s)).
  { intros c s Hc. by apply (free_lacks query_special), escaped_query. }
  assert (has_byte ";" (escape encodeQueryComponent k +:+ "=" +:+ escape encodeQueryComponent v) = false) as ->.
  { rewrite !has_byte_app, !Hk by done. done. }
  destruct (String.eqb_spec (escape encodeQueryComponent k +:+ "=" +:+ escape encodeQueryComponent v) "") as [E|_].
  { apply (f_equal s_len) in E. rewrite !s_len_app in E. cbn in E. lia. }
  change ("=" +:+ escape encodeQueryComponent v) with (String "=" (escape encodeQueryComponent v)).
  rewrite cut_at_byte by by apply Hk. cbn [orb from_option id].
  rewrite !unescape_escape by (intros; apply query_unescapes). done.
Qed.

Lemma encode_pair_lacks kv : lacks "&" (encode_pair kv).
Proof.
  unfold encode_pair. rewrite !has_byte_app. by rewrite !(free_lacks query_special "&" _ eq_refl (escaped_query _)).
Qed.

(** The parameters come back in order of their keys. *)
Lemma parse_encode q : parse_query (Encode_query q) = sort_by key_before q.
Proof.
  unfold parse_query, Encode_query. generalize (sort_by key_before q) as l. intros l.
  destruct l as [|kv l]; [done|]. rewrite split_byte_join; [|done|].
  - induction (kv :: l) as [|x l' IH]; [done|]. cbn [map omap list_omap]. by rewrite piece_encode, IH.
  - apply Forall_fmap, Forall_true. intros x. apply encode_pair_lacks.
Qed.

Lemma encoded_free p q : (forall c, p c = true -> (has_byte c "# " || control c) = true) -> free_of p (Encode_query q) = true.
Proof.
  intros Hp. unfold Encode_query. generalize (sort_by key_before q) as l. intros l.
  assert (H : forall kv, free_of (fun c => has_byte c "# " || control c) (encode_pair kv) = true).
  { intros kv. unfold encode_pair. rewrite !free_of_app, !andb_true_iff. repeat split; try done;
      (eapply free_of_mono; [|apply escaped_query]); all_bytes. }
  apply (free_of_mono (fun c => has_byte c "# " || control c)); [done|].
  induction l as [|x l IH]; [done|]. destruct l as [|y l]; [apply H|].
  change (Join "&" (map encode_pair (x :: y :: l))) with (encode_pair x +:+ "&" +:+ Join "&" (map encode_pair (y :: l))).
  by rewrite !free_of_app, H, IH.
Qed.

(** *** Values of a key *)

Abbreviation keys q := (q.*1).

Lemma get_absent k q : k ∉ keys q -> get k q = EmptyString /\ all_of k q = [].
Proof.
  induction q as [|[k' v] q IH]; [done|]. cbn [fmap list_fmap fst get all_of List.filter map]. intros [Hne Hq]%not_elem_of_cons.
  unfold all_of in *. cbn [List.filter fst]. destruct (String.eqb_spec k k'); [done|]. by apply IH.
Qed.

Lemma get_present k v q : NoDup (keys q) -> (k, v) ∈ q -> get k q = v /\ all_of k q = [v].
Proof.
  induction q as [|[k' v'] q IH]; [by intros _ ?%elem_of_nil|]. rewrite fmap_cons. cbn [fst]. intros [Hk Hn]%NoDup_cons Hin.
  unfold all_of in *. cbn [get List.filter fst map]. destruct (String.eqb_spec k k') as [->|Hne].
  - apply elem_of_cons in Hin as [[= ->]|Hin].
    + split; [done|]. cbn [map snd]. f_equal. by apply get_absent.
    + exfalso. apply Hk. apply list_elem_of_fmap. by exists (k', v).
  - apply elem_of_cons in Hin as [[= -> _]|Hin]; [done|]. by apply IH.
Qed.

Lemma values_perm k q q' : q ≡ₚ q' -> NoDup (keys q) -> get k q = get k q' /\ all_of k q = all_of k q'.
Proof.
  intros Hp Hn. assert (Hn' : NoDup (keys q')) by by rewrite <-Hp. destruct (decide (k ∈ keys q)) as [Hk|Hk].
  - apply list_elem_of_fmap in Hk as ([k' v] & -> & Hin). cbn [fst]. assert (Hin' : (k', v) ∈ q') by by rewrite <-Hp.
    destruct (get_present k' v q Hn Hin) as [-> ->], (get_present k' v q' Hn' Hin') as [-> ->]. done.
  - assert (Hk' : k ∉ keys q') by by rewrite <-Hp. destruct (get_absent k q Hk) as [-> ->], (get_absent k q' Hk') as [-> ->]. done.
Qed.

Lemma set_keys k v q : keys (set k v q) = if bool_decide (k ∈ keys q) then keys q else keys q ++ [k].
Proof.
  induction q as [|[k' v'] q IH]; [done|]. cbn [set fmap list_fmap fst]. destruct (String.eqb_spec k k') as [->|Hne].
  - rewrite bool_decide_true; [done|]. by left.
  - cbn [fmap list_fmap fst]. rewrite IH. case_bool_decide as H1; case_bool_decide as H2; try done.
    + exfalso. apply H2. by right.
    + exfalso. apply elem_of_cons in H2 as [?|?]; done.
Qed.

Lemma set_nodup k v q : NoDup (keys q) -> NoDup (keys (set k v q)).
Proof.
  intros H. rewrite set_keys. case_bool_decide as Hk; [done|]. apply NoDup_app. split; [done|].
  split; [by intros x Hx ->%list_elem_of_singleton|apply NoDup_singleton].
Qed.

Lemma get_set k k' v q : get k (set k' v q) = if String.eqb k k' then v else get k q.
Proof.
  induction q as [|[k2 v2] q IH]; [done|]. cbn [set]. destruct (String.eqb_spec k' k2) as [->|H2]; cbn [get].
  - by destruct (String.eqb_spec k k2).
  - rewrite IH. destruct (String.eqb_spec k k2) as [->|]; [|done]. by rewrite (proj2 (String.eqb_neq _ _)).
Qed.

(** ** Hosts and ports *)

Definition is_v6 (a : option Addr) : bool := match a with Some (AddrV6 _ _) => true | _ => false end.

(** A name or an address: an IPv6 address without a zone, or bytes that a host may
    have and no colon and bracket. *)
Definition host_ok (h : string) : bool :=
  if has_byte ":" h then free_of (fun a => shouldEscape encodeHost a || has_byte a "[]") h && is_v6 (ParseAddr h)
  else free_of (fun a => negb (host_char a) || Ascii.eqb a "[") h.

Definition port_digits (p : string) : bool := free_of (fun a => negb (digit a)) p.

Lemma escape_app m s t : escape m (s +:+ t) = escape m s +:+ escape m t.
Proof. induction s as [|a s IH]; [done|]. rewrite s_app_cons. cbn [escape]. by rewrite IH, s_app_assoc. Qed.

Lemma escape_plain s : free_of (shouldEscape encodeHost) s = true -> escape encodeHost s = s.
Proof.
  induction s as [|a s IH]; [done|]. cbn [free_of escape]. intros [Ha Hs]%andb_true_iff. rewrite IH by done.
  apply negb_true_iff in Ha. unfold escape_char. rewrite Ha. by destruct (Ascii.eqb a " ").
Qed.

Lemma digits_plain p : port_digits p = true -> free_of (shouldEscape encodeHost) p = true.
Proof. apply free_of_mono. all_bytes. Qed.

Lemma cut_none_long c t s : lacks c s -> Cut s (String c t) = None.
Proof.
  induction s as [|a s IH]; [done|]. cbn [has_byte]. intros [Ha Hs]%orb_false_iff. cbn [Cut].
  assert (HasPrefix (String a s) (String c t) = false) as ->; [|by rewrite IH].
  unfold HasPrefix. cbn [String.prefix]. destruct (Ascii.ascii_dec c a) as [->|]; [|done]. by rewrite Ascii.eqb_refl in Ha.
Qed.

Lemma escaped_bracket h : free_of (fun a => negb (host_char a) || Ascii.eqb a "[") h = true -> lacks "[" (escape encodeHost h).
Proof.
  induction h as [|a h IH]; [done|]. cbn [free_of escape]. intros [Ha Hh]%andb_true_iff. rewrite lacks_app. split; [|auto].
  revert Ha. clear. revert a. all_bytes.
Qed.

Lemma escaped_colon h : lacks ":" h -> lacks ":" (escape encodeHost h).
Proof.
  induction h as [|a h IH]; [done|]. cbn [has_byte escape]. intros [Ha Hh]%orb_false_iff. rewrite lacks_app. split; [|auto].
  revert Ha. clear. revert a. all_bytes.
Qed.

Lemma port_lacks c p : digit c = false -> port_digits p = true -> lacks c p.
Proof. intros Hc. apply free_lacks. by rewrite Hc. Qed.

Lemma unescape_host s : free_of (fun a => negb (host_char a)) s = true -> unescape encodeHost (escape encodeHost s) = Some s.
Proof.
  intros H. apply unescape_escape. intros a Ha. apply host_unescapes. destruct (host_char a) eqn:E; [done|]. exfalso.
  assert (lacks a s) by (apply (free_lacks (fun a => negb (host_char a))); [by rewrite E|done]). congruence.
Qed.

Lemma unescape_plain s : free_of (shouldEscape encodeHost) s = true -> unescape encodeHost s = Some s.
Proof.
  intros H. rewrite <-(escape_plain s H) at 1. apply unescape_host. eapply free_of_mono; [|exact H]. all_bytes.
Qed.

Lemma parse_host_name h p : lacks ":" h -> free_of (fun a => negb (host_char a) || Ascii.eqb a "[") h = true ->
  port_digits p = true -> parse_host (escape encodeHost (h +:+ ":" +:+ p)) = Some (h +:+ ":" +:+ p).
Proof.
  intros Hc Hh Hp. unfold parse_host. rewrite last_index_none.
  2: { rewrite !escape_app, !lacks_app. split; [by apply escaped_bracket|]. split; [done|].
       rewrite escape_plain by by apply digits_plain. by apply port_lacks. }
  assert (Hu : unescape encodeHost (escape encodeHost (h +:+ ":" +:+ p)) = Some (h +:+ ":" +:+ p)).
  { apply unescape_host. rewrite !free_of_app, !andb_true_iff. split; [|split; [done|]].
    - eapply free_of_mono; [|exact Hh]. intros a Ha. cbv beta in *. by rewrite Ha.
    - eapply free_of_mono; [|exact Hp]. all_bytes. }
  rewrite !escape_app in *. change (escape encodeHost ":") with ":"%string in *. rewrite (escape_plain p) in * by by apply digits_plain.
  change (":" +:+ p) with (String ":" p) at 1. rewrite cut_at_byte by by apply escaped_colon.
  rewrite (port_lacks ":" p) by done.
  change (validOptionalPort (":" +:+ p)) with (port_digits p). rewrite Hp. exact Hu.
Qed.

Lemma parse_host_literal h p : free_of (fun a => shouldEscape encodeHost a || has_byte a "[]") h = true -> is_v6 (ParseAddr h) = true ->
  port_digits p = true -> parse_host (escape encodeHost ("[" +:+ h +:+ "]:" +:+ p)) = Some ("[" +:+ h +:+ "]:" +:+ p).
Proof.
  intros Hh Hv Hp.
  assert (Hplain : free_of (shouldEscape encodeHost) h = true) by (eapply free_of_mono; [|exact Hh]; intros a Ha; cbv beta in *; by rewrite Ha).
  rewrite escape_plain by (rewrite !free_of_app, Hplain, (digits_plain p Hp); done).
  unfold parse_host. change ("[" +:+ h +:+ "]:" +:+ p) with (EmptyString +:+ String "[" (h +:+ "]:" +:+ p)).
  rewrite last_index_app.
  2: { rewrite !lacks_app. split; [|split; [done|by apply port_lacks]]. eapply free_lacks; [|exact Hh]. done. }
  cbn [s_len]. rewrite s_app_nil. change (String "[" (h +:+ "]:" +:+ p)) with ("[" +:+ (h +:+ "]:" +:+ p)).
  assert (s_drop 1 ("[" +:+ (h +:+ "]:" +:+ p)) = h +:+ "]:" +:+ p) as -> by exact (s_drop_app "[" _). change ("]:" +:+ p) with (String "]" (":" +:+ p)).
  rewrite cut_last_app by (rewrite lacks_app; split; [done|by apply port_lacks]).
  change (validOptionalPort (":" +:+ p)) with (port_digits p). rewrite Hp. cbn [negb].
  rewrite (unescape_plain (":" +:+ p)) by (rewrite free_of_app; by apply digits_plain). cbn [mbind option_bind].
  unfold unescape_literal. rewrite cut_none_long by (eapply free_lacks; [|exact Hh]; done).
  rewrite unescape_plain by done. cbn [mbind option_bind].
  destruct (ParseAddr h) as [[|]|]; try done.
Qed.

Lemma parse_host_join h p : host_ok h = true -> port_digits p = true ->
  parse_host (escape encodeHost (JoinHostPort h p)) = Some (JoinHostPort h p).
Proof.
  unfold host_ok, JoinHostPort. destruct (has_byte ":" h) eqn:Hc.
  - intros [H1 H2]%andb_true_iff Hp. by apply parse_host_literal.
  - intros H Hp. by apply parse_host_name.
Qed.

(** The host and the port are told apart. *)
Lemma host_port_join h p : host_ok h = true -> port_digits p = true -> host_port (JoinHostPort h p) = (h, p).
Proof.
  unfold host_ok, JoinHostPort, host_port. intros Hh Hp. assert (Hv : validOptionalPort (":" +:+ p) = true) by exact Hp.
  destruct (has_byte ":" h) eqn:Hc.
  - replace ("[" +:+ h +:+ "]:" +:+ p) with (("[" +:+ h +:+ "]") +:+ String ":" p) by (by rewrite <-!s_app_assoc).
    rewrite cut_last_app by by apply port_lacks. rewrite Hv.
    rewrite (proj2 (HasPrefix_spec _ _)) by by eexists. rewrite (proj2 (HasSuffix_spec _ _)) by (exists ("[" +:+ h); by rewrite <-s_app_assoc).
    cbn [andb]. by rewrite TrimPrefix_app, TrimSuffix_app.
  - change (":" +:+ p) with (String ":" p). rewrite cut_last_app by by apply port_lacks. change (String ":" p) with (":" +:+ p). rewrite Hv.
    destruct (HasPrefix h "[") eqn:E; [|done]. exfalso. apply prefix_has_byte in E.
    assert (lacks "[" h) by (eapply free_lacks; [|exact Hh]; done). congruence.
Qed.

(** ** Whole URLs *)

Definition lower_letter (a : Ascii.ascii) : bool := between 97 (Ascii.nat_of_ascii a) 122.
Definition scheme_char (a : Ascii.ascii) : bool := lower_letter a || digit a || has_byte a "+-.".

Definition scheme_ok (s : string) : bool :=
  match s with String a s' => lower_letter a && free_of (fun a => negb (scheme_char a)) s' | EmptyString => false end.

Lemma get_scheme_tail s t : free_of (fun a => negb (scheme_char a)) s = true ->
  getScheme false (s +:+ String ":" t) = Some (Some (s, t)).
Proof.
  induction s as [|a s IH]; [done|]. cbn [free_of]. rewrite negb_involutive. intros [Ha Hs]%andb_true_iff.
  rewrite s_app_cons. cbn [getScheme]. rewrite (IH Hs). unfold scheme_char in Ha.
  assert (H : lower_letter a = true -> letter a = true) by (clear; revert a; all_bytes).
  destruct (letter a); [done|]. destruct (lower_letter a); [by specialize (H eq_refl)|]. cbn [orb] in Ha. by rewrite Ha.
Qed.

Lemma get_scheme s t : scheme_ok s = true -> getScheme true (s +:+ String ":" t) = Some (Some (s, t)).
Proof.
  destruct s as [|a s]; [done|]. cbn [scheme_ok]. intros [Ha Hs]%andb_true_iff. rewrite s_app_cons. cbn [getScheme].
  rewrite (get_scheme_tail s t Hs). assert (letter a = true) as ->; [|done]. revert a Ha. clear. all_bytes.
Qed.

Lemma scheme_chars s : scheme_ok s = true -> free_of (fun a => negb (scheme_char a)) s = true.
Proof.
  destruct s as [|a s]; [done|]. cbn [scheme_ok free_of]. unfold scheme_char at 2. intros [-> Hs]%andb_true_iff. by rewrite Hs.
Qed.

Lemma scheme_lower s : scheme_ok s = true -> ToLower s = s.
Proof.
  intros H%scheme_chars. induction s as [|a s IH]; [done|]. cbn [free_of] in H. apply andb_true_iff in H as [Ha Hs].
  cbn [ToLower]. rewrite IH by done. f_equal. revert a Ha. clear. all_bytes.
Qed.

Lemma user_string_eq u : user_string u =
  escape encodeUserPassword (Username u) +:+ match Password u with Some p => ":" +:+ escape encodeUserPassword p | None => EmptyString end.
Proof. unfold user_string. by destruct u as [[|a n] [p|]]. Qed.

Definition user_special (c : Ascii.ascii) : bool := has_byte c "@/?:#" || control c || negb (user_char c).

Lemma escaped_user s : free_of user_special (escape encodeUserPassword s) = true.
Proof. apply escape_free. all_bytes. Qed.

(** The text of a user has no special byte but the colon. *)
Lemma user_string_free p u : (forall c, p c = true -> user_special c && negb (Ascii.eqb c ":") = true) -> free_of p (user_string u) = true.
Proof.
  intros Hp. rewrite user_string_eq, free_of_app. apply andb_true_iff. split.
  - eapply free_of_mono; [|apply escaped_user]. intros a Ha. by apply Hp, andb_true_iff in Ha as [? _].
  - destruct (Password u) as [pw|]; [|done]. rewrite free_of_app. apply andb_true_iff. split.
    + cbn [free_of]. destruct (p ":"%char) eqn:E; [|done]. by apply Hp in E.
    + eapply free_of_mono; [|apply escaped_user]. intros a Ha. by apply Hp, andb_true_iff in Ha as [? _].
Qed.

Lemma parse_user_string u : parse_user (user_string u) = Some u.
Proof.
  unfold parse_user, validUserinfo. rewrite (user_string_free (fun a => negb (user_char a))) by all_bytes. cbn [negb].
  assert (Hc : forall s, lacks ":" (escape encodeUserPassword s)) by (intros s; exact (free_lacks user_special ":" _ eq_refl (escaped_user s))).
  rewrite user_string_eq. destruct u as [n [p|]]; cbn [Username Password].
  - change (":" +:+ escape encodeUserPassword p) with (String ":" (escape encodeUserPassword p)). rewrite cut_at_byte by apply Hc.
    by rewrite !unescape_escape by (intros; apply user_unescapes).
  - rewrite s_app_nil_r, cut_lacking by apply Hc. by rewrite unescape_escape by (intros; apply user_unescapes).
Qed.

(** What stands between the slashes and the query. *)
Definition authority (user : option Userinfo) (host : string) : string :=
  (match user with Some u => user_string u +:+ "@" | None => EmptyString end) +:+ escape encodeHost host.

Definition host_special (c : Ascii.ascii) : bool := has_byte c "@/?#" || control c.

Lemma escaped_host s : free_of host_special (escape encodeHost s) = true.
Proof. apply escape_free. all_bytes. Qed.

Lemma authority_free p user host : (forall c, p c = true -> (has_byte c "/?#" || control c) = true) -> free_of p (authority user host) = true.
Proof.
  intros Hp. unfold authority. rewrite free_of_app. apply andb_true_iff. split.
  - destruct user as [u|]; [|done]. rewrite free_of_app. apply andb_true_iff. split.
    + apply user_string_free. intros c Hc. apply Hp in Hc. revert c Hc. clear. all_bytes.
    + cbn [free_of]. destruct (p "@"%char) eqn:E; [|done]. by apply Hp in E.
  - eapply free_of_mono; [|apply escaped_host]. intros c Hc. apply Hp in Hc. revert c Hc. clear. all_bytes.
Qed.

Lemma parse_authority user h p : host_ok h = true -> port_digits p = true ->
  parseAuthority (authority user (JoinHostPort h p)) = Some (user, JoinHostPort h p).
Proof.
  intros Hh Hp. unfold parseAuthority, authority.
  assert (Ha : lacks "@" (escape encodeHost (JoinHostPort h p))) by exact (free_lacks host_special "@" _ eq_refl (escaped_host _)).
  destruct user as [u|].
  - rewrite <-s_app_assoc. change ("@" +:+ escape encodeHost (JoinHostPort h p)) with (String "@" (escape encodeHost (JoinHostPort h p))).
    rewrite cut_last_app by done. rewrite parse_host_join by done. cbn [mbind option_bind]. by rewrite parse_user_string.
  - rewrite s_app_nil, cut_last_none by done. by rewrite parse_host_join.
Qed.

Definition query_part (q : string) : string := if String.eqb q "" then EmptyString else "?" +:+ q.

Lemma parse_rest_built scheme user h p q : scheme <> EmptyString -> host_ok h = true -> port_digits p = true ->
  parse_rest scheme ("//" +:+ authority user (JoinHostPort h p) +:+ query_part q) =
  Some (mkURL scheme "" user (JoinHostPort h p) "" q "").
Proof.
  intros Hs Hh Hp. unfold parse_rest. set (a := authority user (JoinHostPort h p)).
  assert (Hfree : forall c, has_byte c "/?#" || control c = true -> lacks c a).
  { intros c Hc. apply (free_lacks (fun c => has_byte c "/?#" || control c)); [done|]. by apply authority_free. }
  assert (Hcut : default (("//" +:+ a +:+ query_part q)%string, EmptyString) (Cut ("//" +:+ a +:+ query_part q) "?") = ("//" +:+ a, q)).
  { unfold query_part. destruct (String.eqb_spec q "") as [->|Hq].
    - rewrite s_app_nil_r, cut_lacking; [done|]. rewrite lacks_app. split; [done|by apply Hfree].
    - change ("?" +:+ q) with (String "?" q). rewrite s_app_assoc, cut_at_byte; [done|]. rewrite lacks_app. split; [done|by apply Hfree]. }
  rewrite Hcut. assert (HasPrefix ("//" +:+ a) "/" = true) as -> by (apply HasPrefix_spec; by exists ("/" +:+ a)). cbn [negb andb].
  assert (nonempty scheme = true) as -> by by destruct scheme. cbn [orb].
  rewrite (proj2 (HasPrefix_spec _ _)) by by eexists. cbn [andb]. rewrite TrimPrefix_app.
  rewrite cut_lacking by by apply Hfree. unfold a. rewrite parse_authority by done. done.
Qed.

Lemma url_string_eq scheme user host q f : scheme <> EmptyString ->
  url_String scheme user host q f =
  (scheme +:+ ":" +:+ "//" +:+ authority user host +:+ query_part q) +:+
  (if String.eqb f "" then EmptyString else "#" +:+ escape encodeFragment f).
Proof.
  intros Hs. unfold url_String, authority, query_part. rewrite (proj2 (String.eqb_neq _ _)) by done. by rewrite <-!s_app_assoc.
Qed.

(** What was built is parsed. *)
Lemma parse_built scheme user h p q f : scheme_ok scheme = true -> host_ok h = true -> port_digits p = true ->
  free_of (fun c => Ascii.eqb c "#" || control c) q = true ->
  url_Parse (url_String scheme user (JoinHostPort h p) q f) = Ok (mkURL scheme "" user (JoinHostPort h p) "" q f).
Proof.
  intros Hs Hh Hp Hq. assert (Hne : scheme <> EmptyString) by by intros ->. rewrite url_string_eq by done.
  set (u := scheme +:+ ":" +:+ "//" +:+ authority user (JoinHostPort h p) +:+ query_part q).
  assert (Hfree : free_of (fun c => Ascii.eqb c "#" || control c) u = true).
  { unfold u. rewrite !free_of_app, !andb_true_iff. repeat split; try done.
    - eapply free_of_mono; [|by apply scheme_chars]. all_bytes.
    - apply authority_free. all_bytes.
    - unfold query_part. destruct (String.eqb q ""); [done|]. by rewrite free_of_app. }
  assert (Hu : parse_url u = Some (mkURL scheme "" user (JoinHostPort h p) "" q "")).
  { unfold parse_url. assert (free_of control u = true) as ->.
    { eapply free_of_mono; [|exact Hfree]. intros a Ha. cbv beta. rewrite Ha. apply orb_true_r. }
    cbn [negb].
    destruct (String.eqb_spec u "*") as [E|_].
    { exfalso. unfold u in E. apply (f_equal s_len) in E. rewrite !s_len_app in E. cbn in E. lia. }
    unfold u. change (":" +:+ "//" +:+ authority user (JoinHostPort h p) +:+ query_part q) with
      (String ":" ("//" +:+ authority user (JoinHostPort h p) +:+ query_part q)).
    rewrite get_scheme, scheme_lower by done. by apply parse_rest_built. }
  assert (Hl : lacks "#" u) by (eapply free_lacks; [|exact Hfree]; done).
  unfold url_Parse. destruct (String.eqb_spec f "") as [->|Hf].
  - rewrite s_app_nil_r, cut_lacking by done. cbn [from_option id]. by rewrite Hu.
  - change ("#" +:+ escape encodeFragment f) with (String "#" (escape encodeFragment f)). rewrite cut_at_byte by done.
    cbn [from_option id]. rewrite Hu. destruct (String.eqb_spec (escape encodeFragment f) "") as [E|_]; [by apply escape_nil in E|].
    by rewrite unescape_escape by (intros; apply fragment_unescapes).
Qed.

(** A built link has no spaces around it. *)
Lemma built_spaces scheme user host q f : scheme_ok scheme = true -> free_of is_space q = true ->
  free_of is_space (url_String scheme user host q f) = true.
Proof.
  intros Hs Hq. rewrite url_string_eq by by intros ->. unfold authority. rewrite !free_of_app, !andb_true_iff. repeat split; try done.
  - eapply free_of_mono; [|by apply scheme_chars]. all_bytes.
  - destruct user as [u|]; [|done]. rewrite free_of_app, user_string_free by all_bytes. done.
  - apply escape_free. all_bytes.
  - unfold query_part. destruct (String.eqb q ""); [done|]. by rewrite free_of_app.
  - destruct (String.eqb f ""); [done|]. rewrite free_of_app. apply andb_true_iff. split; [done|]. apply escape_free. all_bytes.
Qed.
