(* ===== verification/ShareLinkProps.v ===== *)
(** * Links are read as they were written

    For each protocol what a node becomes when its link is parsed again: the
    function [shared_...] of the protocol, and when nothing that matters is lost. *)

From S2P Require Import Prelude.
From S2P Require Import NetIP Text Codecs Iptables NodeRefs Url UrlProps ShareLinks.

#[local] Open Scope Z_scope.
#[local] Open Scope go_scope.

(** ** Values that were set *)

(** [setValue] keeps the old value when the new one is empty. *)
Definition or_kept (v old : string) : string := if String.eqb v "" then old else v.

(** The value a key has after the calls; [acc] before them. *)
Fixpoint last_value (k : string) (kvs : list (string * string)) (acc : string) : string :=
  match kvs with
  | [] => acc
  | (k', v) :: kvs => last_value k kvs (if String.eqb k k' then or_kept v acc else acc)
  end.

Lemma get_set_values k kvs q : get k (set_values kvs q) = last_value k kvs (get k q).
Proof.
  revert q. induction kvs as [|[k' v] kvs IH]; intros q; [done|]. cbn [last_value].
  change (set_values ((k', v) :: kvs) q) with (set_values kvs (setValue q (k', v))). rewrite IH. f_equal. unfold setValue, or_kept.
  cbn [fst snd]. destruct (String.eqb v ""); [by destruct (String.eqb k k')|]. apply get_set.
Qed.

Lemma set_values_nodup kvs q : NoDup (keys q) -> NoDup (keys (set_values kvs q)).
Proof.
  revert q. induction kvs as [|[k' v] kvs IH]; intros q Hq; [done|].
  change (set_values ((k', v) :: kvs) q) with (set_values kvs (setValue q (k', v))). apply IH. unfold setValue.
  cbn [fst snd]. destruct (String.eqb v ""); [done|]. by apply set_nodup.
Qed.

Lemma last_value_app k kvs kvs' acc : last_value k (kvs ++ kvs')%list acc = last_value k kvs' (last_value k kvs acc).
Proof. revert acc. induction kvs as [|[k' v] kvs IH]; intros acc; [done|]. cbn [last_value app]. apply IH. Qed.

Lemma kept_nil v : or_kept v "" = v.
Proof. unfold or_kept. by destruct (String.eqb_spec v ""). Qed.

Lemma kept_same v : or_kept v v = v.
Proof. unfold or_kept. by destruct (String.eqb v ""). Qed.

(** The keys of the queries are literals. *)
Ltac values :=
  repeat first [rewrite get_set_values|rewrite get_set]; cbn [last_value get String.eqb Ascii.eqb Bool.eqb andb]; rewrite ?kept_nil, ?kept_same.

(** ** Built links *)

Definition port_ok (p : Z) : bool := (0 <=? p) && (p <=? MaxInt64).

Lemma port_ok_spec p : port_ok p = true <-> 0 <= p <= MaxInt64.
Proof. unfold port_ok. rewrite andb_true_iff, !Z.leb_le. lia. Qed.

Lemma dec_digits p : port_ok p = true -> port_digits (dec p) = true.
Proof. intros H%port_ok_spec. destruct (dec_spec p ltac:(lia)) as (_ & Hd & _). eapply free_of_mono; [|exact Hd]. all_bytes. Qed.

Lemma Atoi_port p : port_ok p = true -> Atoi (dec p) = Some p.
Proof. intros H%port_ok_spec. apply Atoi_dec. unfold MinInt64. lia. Qed.

(** [u] has these parts. *)
Record parts (u : URL) (scheme : string) (user : option Userinfo) (server port : string) (q : list (string * string)) (name : string) : Prop := {
  p_scheme : Scheme u = scheme;
  p_user : url_User u = user;
  p_server : Hostname u = server;
  p_port : Port u = port;
  p_name : Fragment u = name;
  p_path : url_Path u = EmptyString;
  p_query : RawQuery u = Encode_query q;
  p_get k : get k (Query u) = get k q;
  p_all k : all_of k (Query u) = all_of k q;
}.

Lemma built_parses scheme user server port q name : scheme_ok scheme = true -> host_ok server = true -> port_digits port = true ->
  NoDup (keys q) ->
  exists u, url_Parse (url_String scheme user (JoinHostPort server port) (Encode_query q) name) = Ok u /\
            parts u scheme user server port q name.
Proof.
  intros Hs Hh Hp Hq. eexists. split; [apply parse_built; [done..|apply encoded_free; all_bytes]|].
  assert (Hv : forall k, get k (parse_query (Encode_query q)) = get k q /\ all_of k (parse_query (Encode_query q)) = all_of k q).
  { intros k. rewrite parse_encode. destruct (values_perm k q (sort_by key_before q)) as [-> ->]; [by rewrite sort_by_perm|done|done]. }
  split; try done; unfold Hostname, Port; cbn [url_Host]; rewrite ?host_port_join by done; try done; intros k; apply Hv.
Qed.

Lemma built_link scheme user server port q name : scheme_ok scheme = true -> host_ok server = true -> port_ok port = true ->
  NoDup (keys q) ->
  exists u, url_Parse (url_String scheme user (host_and_port server port) (Encode_query q) name) = Ok u /\
            parts u scheme user server (dec port) q name.
Proof. intros. apply built_parses; try done. by apply dec_digits. Qed.

(** ** Trojan *)

Definition is_go (t : Trojan) : bool := String.eqb (tr_Protocol t) "trojan-go".

(** Whether the link says the host and the path, or the service. *)
Definition says_host (t : Trojan) : bool := is_go t || one_of (ToLower (tr_Type t)) ["websocket"; "ws"; "http"; "h2"; "tcp"].
Definition says_service (t : Trojan) : bool := is_go t || String.eqb (ToLower (tr_Type t)) "grpc".

Definition shared_trojan (t : Trojan) : Trojan :=
  mkTrojan (tr_Name t) (tr_Server t) (tr_Port t) (tr_Password t) (firstNonEmpty [tr_Sni t; tr_Server t]) (tr_Type t)
    (if is_go t then tr_Encryption t else "") (if says_host t then tr_Host t else "") (if says_host t then tr_Path t else "")
    (if says_service t then tr_ServiceName t else "") "" (tr_PinnedPeerCertSha256 t) (tr_VerifyPeerCertByName t)
    (if is_go t then "trojan-go" else "trojan") (tr_Backend t).

Lemma trojan_query_nodup t : NoDup (keys (trojan_query t)).
Proof.
  unfold trojan_query. destruct (String.eqb _ _); repeat apply set_values_nodup; apply NoDup_nil_2.
Qed.

(** Case analysis on the name of a transport. *)
Ltac by_transport net :=
  generalize net as nt; intros nt; unfold one_of; cbn [existsb];
  repeat match goal with |- context [String.eqb nt ?s] => destruct (String.eqb_spec nt s) as [->|?] end; cbn [orb String.eqb Ascii.eqb Bool.eqb].

Lemma trojan_values t :
  get "type" (trojan_query t) = tr_Type t /\ get "sni" (trojan_query t) = tr_Sni t /\
  get "host" (trojan_query t) = (if says_host t then tr_Host t else "") /\
  get "path" (trojan_query t) = (if says_host t then tr_Path t else "") /\
  get "serviceName" (trojan_query t) = (if says_service t then tr_ServiceName t else "") /\
  (is_go t = true -> get "encryption" (trojan_query t) = tr_Encryption t) /\
  get "pinnedPeerCertSha256" (trojan_query t) = tr_PinnedPeerCertSha256 t /\
  get "verifyPeerCertByName" (trojan_query t) = tr_VerifyPeerCertByName t /\
  get "v2raya-backend" (trojan_query t) = tr_Backend t /\ get "peer" (trojan_query t) = "" /\ get "alpn" (trojan_query t) = "".
Proof.
  unfold trojan_query, trojan_transport, says_host, says_service, is_go.
  destruct (String.eqb (tr_Protocol t) "trojan-go"); cbn [orb]; by_transport (ToLower (tr_Type t)); repeat split; intros; by values.
Qed.

Lemma trojan_round_trip t : host_ok (tr_Server t) = true -> port_ok (tr_Port t) = true -> tr_Password t <> "" ->
  ParseTrojanURL (Trojan_ExportToURL t) = Ok (shared_trojan t).
Proof.
  intros Hh Hp Hw. unfold Trojan_ExportToURL, ParseTrojanURL, parse_link.
  set (scheme := if String.eqb (tr_Protocol t) "trojan-go" then "trojan-go" else "trojan").
  assert (Hs : scheme_ok scheme = true) by (unfold scheme; by destruct (String.eqb _ _)).
  destruct (built_link scheme (Some (mkUserinfo (tr_Password t) None)) _ _ (trojan_query t) (tr_Name t) Hs Hh Hp (trojan_query_nodup t)) as (u & -> & Hu).
  destruct Hu as [H1 H2 H3 H4 H5 _ _ Hg _]. unfold user_name. rewrite H2. cbn [Username].
  rewrite (proj2 (String.eqb_neq _ _)) by done. unfold link_port. rewrite H1, H3, H4, H5, Atoi_port by done. rewrite !Hg.
  destruct (trojan_values t) as (-> & -> & -> & -> & -> & He & -> & -> & -> & -> & ->). unfold shared_trojan.
  assert (String.eqb scheme "trojan-go" = is_go t) as -> by (unfold scheme, is_go; by destruct (String.eqb _ _)).
  destruct (is_go t); [by rewrite He|done].
Qed.

(** ** HTTP and SOCKS *)

(** The user is said only with a password. *)
Definition shared_proxy (h : Proxy) : Proxy :=
  let said := nonempty (px_Username h) && nonempty (px_Password h) in
  mkProxy (px_Name h) (px_Server h) (px_Port h) (if said then px_Username h else "") (if said then px_Password h else "") (px_Protocol h).

Definition said_user (h : Proxy) : option Userinfo :=
  if nonempty (px_Username h) && nonempty (px_Password h) then Some (mkUserinfo (px_Username h) (Some (px_Password h))) else None.

Lemma proxy_user_said h u : url_User u = said_user h -> proxy_user u = (px_Username (shared_proxy h), px_Password (shared_proxy h)).
Proof.
  intros H. unfold proxy_user. rewrite H. unfold said_user, shared_proxy.
  destruct (nonempty (px_Username h)) eqn:E; [|done]. destruct (nonempty (px_Password h)); [|done]. cbn [andb].
  assert (nonempty (user_string (mkUserinfo (px_Username h) (Some (px_Password h)))) = true) as ->; [|done].
  unfold user_string. cbn [Username]. rewrite E. cbn [orb]. destruct (escape encodeUserPassword (px_Username h)) eqn:Ee; [|done].
  apply escape_nil in Ee. by rewrite Ee in E.
Qed.

Lemma proxy_parses h : scheme_ok (px_Protocol h) = true -> host_ok (px_Server h) = true -> port_ok (px_Port h) = true ->
  exists u, url_Parse (HTTP_ExportToURL h) = Ok u /\ parts u (px_Protocol h) (said_user h) (px_Server h) (dec (px_Port h)) [] (px_Name h).
Proof. intros Hs Hh Hp. exact (built_link _ (said_user h) _ _ [] (px_Name h) Hs Hh Hp (NoDup_nil_2)). Qed.

Lemma dec_nonempty p : port_ok p = true -> String.eqb (dec p) "" = false.
Proof. intros H%port_ok_spec. destruct (dec_spec p ltac:(lia)) as (_ & _ & He). by apply String.eqb_neq. Qed.

Lemma http_round_trip h : one_of (px_Protocol h) ["http"; "https"] = true -> host_ok (px_Server h) = true -> px_Server h <> "" ->
  port_ok (px_Port h) = true -> px_Port h <> 0 -> ParseHttpURL (HTTP_ExportToURL h) = Ok (shared_proxy h).
Proof.
  intros Hs Hh He Hp H0. assert (Hso : scheme_ok (px_Protocol h) = true).
  { apply existsb_exists in Hs as (x & Hx & ->%String.eqb_eq). by destruct Hx as [<-|[<-|[]]]. }
  unfold ParseHttpURL, parse_link. destruct (proxy_parses h Hso Hh Hp) as (u & -> & [H1 H2 H3 H4 H5 H6 H7 _ _]).
  rewrite H6, H7. cbn [nonempty String.eqb negb andb orb]. rewrite H3, (proj2 (String.eqb_neq _ _)) by done.
  unfold optional_port, link_port. rewrite H4, dec_nonempty, Atoi_port by done. rewrite (proxy_user_said h u H2), H1, H5.
  rewrite (proj2 (Z.eqb_neq _ _)) by done. unfold one_of in *. cbn [existsb] in *.
  destruct (String.eqb_spec (px_Protocol h) "http") as [E|_].
  - rewrite E. cbn. unfold shared_proxy. rewrite E. done.
  - destruct (String.eqb_spec (px_Protocol h) "https") as [E|_]; [|done]. rewrite E. cbn. unfold shared_proxy. by rewrite E.
Qed.

Lemma socks_round_trip h : px_Protocol h = "socks5"%string -> host_ok (px_Server h) = true -> px_Server h <> "" ->
  port_ok (px_Port h) = true -> px_Port h <> 0 -> ParseSocksURL (SOCKS_ExportToURL h) = Ok (shared_proxy h).
Proof.
  intros Hs Hh He Hp H0. assert (Hso : scheme_ok (px_Protocol h) = true) by by rewrite Hs.
  unfold ParseSocksURL, parse_link. change (SOCKS_ExportToURL h) with (HTTP_ExportToURL h).
  destruct (proxy_parses h Hso Hh Hp) as (u & -> & [H1 H2 H3 H4 H5 _ _ _ _]). rewrite H3, (proj2 (String.eqb_neq _ _)) by done.
  unfold optional_port, link_port. rewrite H4, dec_nonempty, Atoi_port by done. rewrite (proxy_user_said h u H2), H1, H5, Hs.
  rewrite (proj2 (Z.eqb_neq _ _)) by done. unfold shared_proxy. by rewrite Hs.
Qed.

(** ** TUIC *)

Definition shared_tuic (s : Tuic) : Tuic :=
  mkTuic (tu_Name s) (tu_Server s) (tu_Port s) (tu_UUID s) (tu_Password s) (tu_Sni s) (tu_DisableSni s) (alpn_or_h3 (tu_Alpn s))
    (tu_CongestionControl s) (tu_UdpRelayMode s) (tu_PinnedPeerCertSha256 s) (tu_VerifyPeerCertByName s) "tuic".

Lemma alpn_nonempty s : alpn_or_h3 s <> "".
Proof. unfold alpn_or_h3. by destruct (String.eqb_spec (ReplaceAll s " " "") ""). Qed.

Lemma no_spaces s : lacks " " s -> ReplaceAll s " " "" = s.
Proof.
  induction s as [|a s IH]; [done|]. cbn [has_byte]. intros [Ha Hs]%orb_false_iff. rewrite ReplaceAll_miss by by rewrite prefix_byte.
  by rewrite IH.
Qed.

Lemma spaces_gone s : lacks " " (ReplaceAll s " " "").
Proof.
  induction s as [|a s IH]; [done|]. destruct (Ascii.eqb_spec a " ") as [->|Ha].
  - change (String " " s) with (" " +:+ s). by rewrite ReplaceAll_hit.
  - apply Ascii.eqb_neq in Ha. rewrite ReplaceAll_miss by by rewrite prefix_byte. cbn [has_byte]. by rewrite Ha.
Qed.

Lemma alpn_idem s : alpn_or_h3 (alpn_or_h3 s) = alpn_or_h3 s.
Proof.
  unfold alpn_or_h3 at 1. assert (lacks " " (alpn_or_h3 s)).
  { unfold alpn_or_h3. destruct (String.eqb (ReplaceAll s " " "") ""); [done|apply spaces_gone]. }
  rewrite no_spaces by done. by rewrite (proj2 (String.eqb_neq _ _)) by apply alpn_nonempty.
Qed.

Lemma tuic_query_nodup s : NoDup (keys (tuic_query s)).
Proof.
  unfold tuic_query. apply set_values_nodup. destruct (tu_DisableSni s); [apply set_nodup|]; apply set_values_nodup, NoDup_nil_2.
Qed.

Lemma tuic_values s :
  get "sni" (tuic_query s) = tu_Sni s /\ get "disable_sni" (tuic_query s) = (if tu_DisableSni s then "true" else "")%string /\
  get "alpn" (tuic_query s) = alpn_or_h3 (tu_Alpn s) /\ get "congestion_control" (tuic_query s) = tu_CongestionControl s /\
  get "udp_relay_mode" (tuic_query s) = tu_UdpRelayMode s /\ get "pinnedPeerCertSha256" (tuic_query s) = tu_PinnedPeerCertSha256 s /\
  get "verifyPeerCertByName" (tuic_query s) = tu_VerifyPeerCertByName s /\ get "pinned_peer_cert_sha256" (tuic_query s) = "" /\
  get "verify_peer_cert_by_name" (tuic_query s) = "".
Proof. unfold tuic_query. destruct (tu_DisableSni s); repeat split; by values. Qed.

(** A value that is there is the only one of its key. *)
Lemma all_of_one k q : NoDup (keys q) -> get k q <> "" -> all_of k q = [get k q].
Proof.
  intros Hn Hg. destruct (decide (k ∈ keys q)) as [Hk|Hk]; [|by destruct (get_absent k q Hk) as [E _]].
  apply list_elem_of_fmap in Hk as ([k' v] & -> & Hin). cbn [fst]. by destruct (get_present k' v q Hn Hin) as [-> ->].
Qed.

Lemma first_or v : firstNonEmpty [v; ""] = v.
Proof. cbn. by destruct (String.eqb_spec v ""). Qed.

Lemma tuic_round_trip s : host_ok (tu_Server s) = true -> port_ok (tu_Port s) = true ->
  ParseTuicURL (Tuic_ExportToURL s) = Ok (shared_tuic s).
Proof.
  intros Hh Hp. unfold Tuic_ExportToURL, ParseTuicURL, parse_link.
  destruct (built_link "tuic" (Some (mkUserinfo (tu_UUID s) (Some (tu_Password s)))) _ _ (tuic_query s) (tu_Name s) eq_refl Hh Hp (tuic_query_nodup s))
    as (u & -> & [H1 H2 H3 H4 H5 _ _ Hg Ha]).
  unfold link_port. rewrite H3, H4, H5, Atoi_port by done. unfold user_name, user_password. rewrite H2. cbn [mbind option_bind Username Password].
  destruct (tuic_values s) as (V1 & V2 & V3 & V4 & V5 & V6 & V7 & V8 & V9).
  rewrite Ha, all_of_one by (apply tuic_query_nodup || (rewrite V3; apply alpn_nonempty)). rewrite !Hg, V1, V2, V3, V4, V5, V6, V7, V8, V9, !first_or.
  cbn [Join firstNonEmpty]. rewrite (proj2 (String.eqb_neq _ _)) by apply alpn_nonempty. rewrite alpn_idem. unfold shared_tuic.
  by destruct (tu_DisableSni s).
Qed.

(** ** WireGuard *)

Definition shared_wireguard (s : WireGuard) : WireGuard :=
  let pos n := if 0 <? n then n else 0 in
  mkWireGuard (wg_Name s) (wg_Server s) (wg_Port s) (wg_PublicKey s) "" (wg_Address s) (wg_PrivateKey s) (wg_PreSharedKey s)
    (wg_AllowedIPs s) (pos (wg_KeepAlive s)) (pos (wg_Workers s)) (pos (wg_Mtu s)) (wg_Reserved s) (wg_KernelMode s) "wireguard".

Lemma wireguard_values s :
  get "publicKey" (wireguard_query s) = wg_PublicKey s /\ get "address" (wireguard_query s) = wg_Address s /\
  get "preSharedKey" (wireguard_query s) = wg_PreSharedKey s /\ get "allowedIPs" (wireguard_query s) = wg_AllowedIPs s /\
  get "keepAlive" (wireguard_query s) = if_positive (wg_KeepAlive s) /\ get "workers" (wireguard_query s) = if_positive (wg_Workers s) /\
  get "mtu" (wireguard_query s) = if_positive (wg_Mtu s) /\ get "reserved" (wireguard_query s) = wg_Reserved s /\
  get "kernelMode" (wireguard_query s) = (if wg_KernelMode s then "true" else "")%string.
Proof. unfold wireguard_query. repeat split; by values. Qed.

Lemma atoi_value_of s n : Atoi s = Some n -> atoi_value s = n.
Proof.
  assert (H : forall (neg : bool) t,
    (if nonempty t && free_of (fun a => negb (digit_char a)) t then
       let m := if neg then - digits_value t 0 else digits_value t 0 in
       if (MinInt64 <=? m) && (m <=? MaxInt64) then Some m else None else None) = Some n ->
    (if nonempty t && free_of (fun a => negb (digit_char a)) t then
       let m := if neg then - digits_value t 0 else digits_value t 0 in Z.max MinInt64 (Z.min MaxInt64 m) else 0) = n).
  { intros neg t. destruct (nonempty t && _); [|done]. cbv zeta. set (m := if neg then _ else _).
    destruct (Z.leb_spec MinInt64 m); [|done]. destruct (Z.leb_spec m MaxInt64); [|done]. cbn [andb]. intros [= <-]. lia. }
  unfold Atoi, atoi_value. destruct s as [|a s]; [done|]. destruct (Ascii.eqb a "-"); [apply (H true)|].
  destruct (Ascii.eqb a "+"); [apply (H false)|]. apply (H false).
Qed.

Lemma positive_back n : n <= MaxInt64 -> atoi_value (if_positive n) = if 0 <? n then n else 0.
Proof.
  intros H. unfold if_positive. destruct (Z.ltb_spec 0 n); [|done]. apply atoi_value_of, Atoi_dec. unfold MinInt64. lia.
Qed.

Lemma wireguard_round_trip s : host_ok (wg_Server s) = true -> port_ok (wg_Port s) = true ->
  wg_KeepAlive s <= MaxInt64 -> wg_Workers s <= MaxInt64 -> wg_Mtu s <= MaxInt64 ->
  ParseWireGuardURL (WireGuard_ExportToURL s) = Ok (shared_wireguard s).
Proof.
  intros Hh Hp Hk Hw Hm. unfold WireGuard_ExportToURL, ParseWireGuardURL, parse_link.
  destruct (built_link "wireguard" (Some (mkUserinfo (wg_PrivateKey s) None)) _ _ (wireguard_query s) (wg_Name s) eq_refl Hh Hp)
    as (u & -> & [H1 H2 H3 H4 H5 _ _ Hg _]); [apply set_values_nodup, NoDup_nil_2|].
  unfold link_port. rewrite H3, H4, H5, Atoi_port by done. unfold user_name. rewrite H2. cbn [Username]. rewrite !Hg.
  destruct (wireguard_values s) as (-> & -> & -> & -> & -> & -> & -> & -> & ->). rewrite !positive_back by done.
  unfold shared_wireguard. by destruct (wg_KernelMode s).
Qed.

(** ** Shadowsocks: plugins *)

Definition opt_char_ok (a : Ascii.ascii) : bool := negb (has_byte a ";=").
Definition opt_ok (v : string) : bool := free_of (fun a => negb (opt_char_ok a)) v.

#[export] Instance Sip003Opts_eq_dec : EqDecision Sip003Opts.
Proof. solve_decision. Defined.

(** The options that a link can say: no separators, a path with its slash. *)
Definition opts_ok (o : Sip003Opts) : bool :=
  opt_ok (o_Obfs o) && opt_ok (o_Host o) && opt_ok (o_Path o) && opt_ok (o_Impl o) &&
  (String.eqb (o_Path o) "" || HasPrefix (o_Path o) "/").

Definition sip_ok (p : Sip003) : bool :=
  let o := sip_Opts p in
  if String.eqb (sip_Name p) "simple-obfs" then opts_ok o && String.eqb (o_Tls o) ""
  else if String.eqb (sip_Name p) "v2ray-plugin" then opts_ok o && one_of (o_Tls o) [""; "tls"]
  else String.eqb (sip_Name p) "" && bool_decide (o = no_opts).

Lemma opt_lacks v : opt_ok v = true -> lacks ";" v /\ lacks "=" v.
Proof. intros H. split; (eapply free_lacks; [|exact H]; done). Qed.

Lemma split_two c k v : lacks c k -> lacks c v -> Split_byte c (k +:+ String c v) = [k; v].
Proof. intros Hk Hv. apply (split_byte_join c [k; v]); [done|]. by repeat constructor. Qed.

(** Reading a joined list of fields reads each. *)
Lemma parse_joined name fields : lacks ";" name -> Forall (fun f => lacks ";" f) fields ->
  ParseSip003 (Join ";" (name :: fields)) =
  mkSip003 (if one_of name ["obfs-local"; "simpleobfs"] then "simple-obfs" else name) (fold_left parse_opt fields no_opts).
Proof.
  intros Hn Hf. unfold ParseSip003. destruct fields as [|f fields].
  - cbn [Join]. by rewrite cut_lacking.
  - change (Join ";" (name :: f :: fields)) with (name +:+ String ";" (Join ";" (f :: fields))). rewrite cut_at_byte by done.
    unfold ParseSip003Opts. by rewrite split_byte_join.
Qed.

(** The effect of a field, if it is there. *)
Lemma opt_field_read o k v : lacks "=" k -> opt_ok v = true ->
  fold_left parse_opt (opt_field (k +:+ "=") v) o = if String.eqb v "" then o else parse_opt o (k +:+ String "=" v).
Proof.
  intros Hk [_ Hv]%opt_lacks. unfold opt_field. destruct (String.eqb v ""); [done|]. cbn [fold_left].
  by rewrite <-s_app_assoc.
Qed.

Ltac read_field := intros Hv; rewrite opt_field_read by done; unfold parse_opt; rewrite split_two by (done || by apply opt_lacks).

Lemma read_mode o k v : k = "obfs"%string \/ k = "mode"%string -> opt_ok v = true ->
  fold_left parse_opt (opt_field (k +:+ "=") v) o = mkSip003Opts (o_Tls o) (or_kept v (o_Obfs o)) (o_Host o) (o_Path o) (o_Impl o).
Proof. intros [->| ->]; read_field; unfold or_kept; by destruct o, (String.eqb v ""). Qed.

Lemma read_host o k v : k = "obfs-host"%string \/ k = "host"%string -> opt_ok v = true ->
  fold_left parse_opt (opt_field (k +:+ "=") v) o = mkSip003Opts (o_Tls o) (o_Obfs o) (or_kept v (o_Host o)) (o_Path o) (o_Impl o).
Proof. intros [->| ->]; read_field; unfold or_kept; by destruct o, (String.eqb v ""). Qed.

Lemma read_impl o v : opt_ok v = true ->
  fold_left parse_opt (opt_field "impl=" v) o = mkSip003Opts (o_Tls o) (o_Obfs o) (o_Host o) (o_Path o) (or_kept v (o_Impl o)).
Proof. change "impl="%string with ("impl" +:+ "=")%string. read_field. unfold or_kept. by destruct o, (String.eqb v ""). Qed.

Lemma slashed_path p : HasPrefix p "/" = true -> slashed p = p.
Proof. unfold slashed. by intros ->. Qed.

Lemma read_path o k v : k = "obfs-uri"%string \/ k = "path"%string -> opt_ok v = true -> String.eqb v "" || HasPrefix v "/" = true ->
  fold_left parse_opt (opt_field (k +:+ "=") v) o = mkSip003Opts (o_Tls o) (o_Obfs o) (o_Host o) (or_kept v (o_Path o)) (o_Impl o).
Proof.
  intros [->| ->]; read_field; intros Hs; unfold or_kept; destruct o, (String.eqb v ""); try done; cbn [orb] in Hs;
    by rewrite slashed_path.
Qed.

Lemma opt_field_lacks k v : lacks ";" k -> opt_ok v = true -> Forall (fun f => lacks ";" f) (opt_field k v).
Proof.
  intros Hk [Hv _]%opt_lacks. unfold opt_field. destruct (String.eqb v ""); [done|]. constructor; [|done]. by apply lacks_app.
Qed.

Lemma sip_round_trip p : sip_ok p = true -> sip_Name p <> "" -> ParseSip003 (Sip003_String p) = p.
Proof.
  destruct p as [name [tls obfs host path impl]]. unfold sip_ok, Sip003_String, opts_ok. cbn [sip_Name sip_Opts o_Tls o_Obfs o_Host o_Path o_Impl].
  destruct (String.eqb_spec name "simple-obfs") as [->|Hn1]; [|destruct (String.eqb_spec name "v2ray-plugin") as [->|Hn2]].
  - rewrite !andb_true_iff. intros [[[[[H1 H2] H3] H4] H5] ->%String.eqb_eq] _. rewrite parse_joined; [|done|].
    + change (one_of "simple-obfs" _) with false. f_equal. rewrite !fold_left_app.
      rewrite (read_mode _ "obfs"), (read_host _ "obfs-host"), (read_path _ "obfs-uri"), read_impl by auto.
      cbn [no_opts o_Tls o_Obfs o_Host o_Path o_Impl]. by rewrite !kept_nil.
    + rewrite !Forall_app. repeat split; by apply opt_field_lacks.
  - rewrite !andb_true_iff. intros [[[[[H1 H2] H3] H4] H5] Ht] _. rewrite parse_joined; [|done|].
    + change (one_of "v2ray-plugin" _) with false. f_equal. rewrite !fold_left_app.
      assert (fold_left parse_opt (if String.eqb tls "" then [] else ["tls"%string]) no_opts = mkSip003Opts tls "" "" "" "") as ->.
      { unfold one_of in Ht. cbn [existsb] in Ht. destruct (String.eqb_spec tls "") as [->|]; [done|].
        destruct (String.eqb_spec tls "tls") as [->|]; [reflexivity|done]. }
      rewrite (read_mode _ "mode"), (read_host _ "host"), (read_path _ "path"), read_impl by auto.
      cbn [o_Tls o_Obfs o_Host o_Path o_Impl]. by rewrite !kept_nil.
    + rewrite !Forall_app. repeat split; try by apply opt_field_lacks. destruct (String.eqb tls ""); [done|]. by repeat constructor.
  - intros H He. apply andb_true_iff in H as [H _]. by apply String.eqb_eq in H.
Qed.

(** ** Shadowsocks: links *)

Lemma supported_cipher c : ssCipherSupported c = true -> ToLower c = c /\ lacks ":" c.
Proof.
  unfold ssCipherSupported, one_of. intros (x & Hx & ->%String.eqb_eq)%existsb_exists. revert x Hx. apply List.Forall_forall.
  repeat constructor.
Qed.

Definition shared_ss (s : Shadowsocks) : Shadowsocks :=
  mkShadowsocks (ss_Name s) (ss_Server s) (ss_Port s) (ss_Password s) (ss_Cipher s) (ss_Plugin s) "shadowsocks" (ss_Backend s).

Definition ss_ok (s : Shadowsocks) : bool :=
  host_ok (ss_Server s) && port_ok (ss_Port s) && ssCipherSupported (ss_Cipher s) && sip_ok (ss_Plugin s).

Lemma ss_query_nodup s : NoDup (keys (ss_query s)).
Proof.
  unfold ss_query. destruct (String.eqb (ss_Backend s) ""); [|apply set_nodup]; (destruct (String.eqb _ _); [|apply set_nodup]); apply NoDup_nil_2.
Qed.

Lemma ss_values s :
  get "plugin" (ss_query s) = (if String.eqb (sip_Name (ss_Plugin s)) "" then "" else Sip003_String (ss_Plugin s)) /\
  get "v2raya-backend" (ss_query s) = ss_Backend s.
Proof.
  unfold ss_query. destruct (String.eqb_spec (ss_Backend s) "") as [E|_]; destruct (String.eqb (sip_Name (ss_Plugin s)) "");
    rewrite ?get_set; cbn [get String.eqb Ascii.eqb Bool.eqb andb]; by rewrite ?get_set, ?E.
Qed.

Lemma sip_string_nonempty p : sip_Name p <> "" -> nonempty (Sip003_String p) = true.
Proof.
  intros H. unfold Sip003_String. destruct p as [[|a name] o]; [done|]. cbn [sip_Name sip_Opts].
  generalize (if String.eqb (String a name) "simple-obfs" then opt_field "obfs=" (o_Obfs o) ++ opt_field "obfs-host=" (o_Host o) ++ opt_field "obfs-uri=" (o_Path o) ++ opt_field "impl=" (o_Impl o)
    else if String.eqb (String a name) "v2ray-plugin" then (if String.eqb (o_Tls o) "" then [] else ["tls"]) ++ opt_field "mode=" (o_Obfs o) ++ opt_field "host=" (o_Host o) ++ opt_field "path=" (o_Path o) ++ opt_field "impl=" (o_Impl o) else [])%list%string as l.
  by intros [|x l].
Qed.

Lemma ss_round_trips s : ss_ok s = true -> ParseSSURL (Shadowsocks_ExportToURL s) = Ok (shared_ss s).
Proof.
  unfold ss_ok. rewrite !andb_true_iff. intros [[[Hh Hp] Hc] Hs]. destruct (supported_cipher _ Hc) as [Hl Hcol].
  unfold ParseSSURL, parse_ss, Shadowsocks_ExportToURL.
  destruct (built_link "ss" (Some (ss_user s)) _ _ (ss_query s) (ss_Name s) eq_refl Hh Hp (ss_query_nodup s))
    as (u & -> & [H1 H2 H3 H4 H5 _ _ Hg _]).
  rewrite H2. cbn [mbind option_bind]. unfold ss_credentials, ss_user, raw_url, Base64URLDecode. cbn [Password Username].
  rewrite decode_padded_raw. change (":" +:+ ss_Password s) with (String ":" (ss_Password s)). rewrite cut_at_byte by done.
  cbn [mbind option_bind]. rewrite H3, H4, H5, Atoi_port by done. cbn [mbind option_bind]. rewrite !Hg.
  destruct (ss_values s) as [-> ->]. rewrite Hl. cbn [ss_Cipher]. rewrite Hc. cbn [negb]. unfold shared_ss. do 2 f_equal.
  destruct (String.eqb_spec (sip_Name (ss_Plugin s)) "") as [E|E].
  - cbn. destruct (ss_Plugin s) as [name opts]. cbn in E. subst name. unfold sip_ok in Hs. cbn in Hs.
    apply bool_decide_eq_true in Hs. by subst.
  - rewrite sip_string_nonempty by done. by apply sip_round_trip.
Qed.

(** What is imported has a cipher of the core. *)
Lemma imported_cipher link s : ParseSSURL link = Ok s -> ssCipherSupported (ss_Cipher s) = true.
Proof.
  unfold ParseSSURL. match goal with |- match ?r with _ => _ end = _ -> _ => destruct r as [[v|]|] end; [|done|done].
  destruct (ssCipherSupported (ss_Cipher v)) eqn:E; [|done]. by intros [= <-].
Qed.
