(* ===== verification/V2RayLinks.v ===== *)
(** * VMess and VLESS links (service/kernel/serverObj/v2ray.go)

    A VLESS link is a URL; a VMess link is JSON in base64, or a URL whose host part
    is [BASE64(security:id@host:port)].  What jsoniter does is the class
    [VmessJson], with its laws [VmessLaws]; the lemmas at the end say what a link
    says of a node, and that it is read as it was written.  The fields of the xhttp
    transport are a record of their own, a pair of [From] and [To] fields is a
    pair. *)

From stdpp Require Import gmap.
From S2P Require Import Prelude.
From S2P Require Import NetIP Text Codecs Iptables NodeRefs Url UrlProps ShareLinks ShareLinkProps.

#[local] Open Scope Z_scope.
#[local] Open Scope go_scope.

(** ** Nodes *)

Record XHTTPFields := mkXHTTPFields {
  XHTTPMode : string;
  XHTTPHeaders : string;
  v_NoGRPCHeader : bool;
  v_NoSSEHeader : bool;
  v_UplinkHTTPMethod : string;
  scMaxEachPostBytes : Z * Z;
  scMinPostsInterval : Z * Z;
  scMaxBufferedPosts : Z;
  scStreamUpServer : Z * Z;
  xPaddingBytes : Z * Z;
  xmuxMaxConcur : Z * Z;
  xmuxMaxConn : Z * Z;
  xmuxCMaxReuse : Z * Z;
  xmuxHMaxReq : Z * Z;
  xmuxHMaxReusable : Z * Z;
  xmuxHKeepAlive : Z;
}.

Definition no_xhttp : XHTTPFields :=
  mkXHTTPFields "" "" false false "" (0, 0) (0, 0) 0 (0, 0) (0, 0) (0, 0) (0, 0) (0, 0) (0, 0) (0, 0) 0.

Record V2Ray := mkV2Ray {
  v_Ps : string;
  v_Add : string;
  v_Port : string;
  v_ID : string;
  v_Aid : string;
  v_Security : string;
  v_Net : string;
  v_Type : string;
  v_Host : string;
  v_SNI : string;
  v_Path : string;
  v_TLS : string;
  v_Fingerprint : string;
  v_PublicKey : string;
  v_ShortId : string;
  v_SpiderX : string;
  v_Flow : string;
  v_Alpn : string;
  v_PinnedPeerCertSha256 : string;
  v_VerifyPeerCertByName : string;
  v_Key : string;
  v_QuicSecurity : string;
  v_XHTTP : XHTTPFields;
  v_MaxEarlyData : string;
  v_EarlyDataHeaderName : string;
  v_MultiMode : string;
  v_IdleTimeout : string;
  v_HealthCheckTimeout : string;
  v_PermitWithoutStream : string;
  v_InitialWindowsSize : string;
  v_V : string;
  v_Protocol : string;
}.

(** The fields that are assigned to after the node was made. *)
Definition reassign (ps aid net host path version protocol : string) (v : V2Ray) : V2Ray :=
  mkV2Ray ps (v_Add v) (v_Port v) (v_ID v) aid (v_Security v) net (v_Type v) host (v_SNI v) path
    (v_TLS v) (v_Fingerprint v) (v_PublicKey v) (v_ShortId v) (v_SpiderX v) (v_Flow v) (v_Alpn v)
    (v_PinnedPeerCertSha256 v) (v_VerifyPeerCertByName v) (v_Key v) (v_QuicSecurity v) (v_XHTTP v) (v_MaxEarlyData v)
    (v_EarlyDataHeaderName v) (v_MultiMode v) (v_IdleTimeout v) (v_HealthCheckTimeout v) (v_PermitWithoutStream v)
    (v_InitialWindowsSize v) version protocol.

Definition set_Ps (ps : string) (v : V2Ray) : V2Ray := reassign ps (v_Aid v) (v_Net v) (v_Host v) (v_Path v) (v_V v) (v_Protocol v) v.
Definition set_Net (net : string) (v : V2Ray) : V2Ray := reassign (v_Ps v) (v_Aid v) net (v_Host v) (v_Path v) (v_V v) (v_Protocol v) v.
Definition set_Path (path : string) (v : V2Ray) : V2Ray := reassign (v_Ps v) (v_Aid v) (v_Net v) (v_Host v) path (v_V v) (v_Protocol v) v.
Definition set_V (version : string) (v : V2Ray) : V2Ray := reassign (v_Ps v) (v_Aid v) (v_Net v) (v_Host v) (v_Path v) version (v_Protocol v) v.

(** ** VLESS *)

Definition or_else (a b : string) : string := if String.eqb a "" then b else a.

Definition queryInt (q : list (string * string)) (key : string) : Z :=
  let v := get key q in
  if String.eqb v "" then 0 else match Atoi v with Some n => n | None => 0 end.

(** The fields of the xhttp transport in a query. *)
Definition parse_xhttp (q : list (string * string)) : XHTTPFields :=
  mkXHTTPFields (or_else (get "xhttpMode" q) "auto") (get "xhttpHeaders" q) (String.eqb (get "noGRPCHeader" q) "true")
    (String.eqb (get "noSSEHeader" q) "true") (get "uplinkHTTPMethod" q)
    (queryInt q "scMaxEachPostBytesFrom", queryInt q "scMaxEachPostBytesTo")
    (queryInt q "scMinPostsIntervalFrom", queryInt q "scMinPostsIntervalTo")
    (queryInt q "scMaxBufferedPosts")
    (queryInt q "scStreamUpServerFrom", queryInt q "scStreamUpServerTo")
    (queryInt q "xPaddingBytesFrom", queryInt q "xPaddingBytesTo")
    (queryInt q "xmuxMaxConcurFrom", queryInt q "xmuxMaxConcurTo")
    (queryInt q "xmuxMaxConnFrom", queryInt q "xmuxMaxConnTo")
    (queryInt q "xmuxCMaxReuseFrom", queryInt q "xmuxCMaxReuseTo")
    (queryInt q "xmuxHMaxReqFrom", queryInt q "xmuxHMaxReqTo")
    (queryInt q "xmuxHMaxReusableFrom", queryInt q "xmuxHMaxReusableTo")
    (queryInt q "xmuxHKeepAlive").

Definition ParseVlessURL (vless : string) : result V2Ray :=
  let? u := parse_link vless (malformed "vless link is not a valid URL; expected vless://uuid@host:port: %v") in
  let? _ := link_port u (malformed_at "vless link for %q has a missing or invalid port; expected vless://uuid@host:port" (Hostname u)) in
  let q := Query u in
  let net := or_else (get "type" q) "tcp" in
  let path := if one_of net ["mkcp"; "kcp"] then get "seed" q
              else if String.eqb net "grpc" then get "serviceName" q else get "path" q in
  Ok (mkV2Ray (Fragment u) (Hostname u) (Port u) (user_name u) (get "aid" q) "" net (or_else (get "headerType" q) "none")
        (get "host" q) (get "sni" q) path (or_else (get "security" q) "none") (get "fp" q) (get "pbk" q) (get "sid" q)
        (get "spx" q) (get "flow" q) (get "alpn" q) (get "pinnedPeerCertSha256" q) (get "verifyPeerCertByName" q)
        (get "key" q) (if String.eqb net "quic" then get "quicSecurity" q else "")
        (if String.eqb net "xhttp" then parse_xhttp q else no_xhttp)
        (get "maxEarlyData" q) (get "earlyDataHeaderName" q) (get "multiMode" q) (get "idleTimeout" q)
        (get "healthCheckTimeout" q) (get "permitWithoutStream" q) (get "initialWindowsSize" q) vless "vless").

(** [setIntQuery] sets this value, none when it is empty. *)
Definition int_value (n : Z) : string := if n =? 0 then "" else dec n.

Definition set_range (key : string) (r : Z * Z) : list (string * string) :=
  [(key +:+ "From", int_value (fst r)); (key +:+ "To", int_value (snd r))].

Definition xhttp_values (x : XHTTPFields) : list (string * string) :=
  [("xhttpMode", XHTTPMode x); ("xhttpHeaders", XHTTPHeaders x);
   ("noGRPCHeader", if v_NoGRPCHeader x then "true" else ""); ("noSSEHeader", if v_NoSSEHeader x then "true" else "");
   ("uplinkHTTPMethod", v_UplinkHTTPMethod x)] ++
  set_range "scMaxEachPostBytes" (scMaxEachPostBytes x) ++ set_range "scMinPostsInterval" (scMinPostsInterval x) ++
  [("scMaxBufferedPosts", int_value (scMaxBufferedPosts x))] ++
  set_range "scStreamUpServer" (scStreamUpServer x) ++ set_range "xPaddingBytes" (xPaddingBytes x) ++
  set_range "xmuxMaxConcur" (xmuxMaxConcur x) ++ set_range "xmuxMaxConn" (xmuxMaxConn x) ++
  set_range "xmuxCMaxReuse" (xmuxCMaxReuse x) ++ set_range "xmuxHMaxReq" (xmuxHMaxReq x) ++
  set_range "xmuxHMaxReusable" (xmuxHMaxReusable x) ++ [("xmuxHKeepAlive", int_value (xmuxHKeepAlive x))].

(** The parameters a transport has in the link. *)
Definition vless_transport (v : V2Ray) : list (string * string) :=
  let net := ToLower (v_Net v) in
  if one_of net ["websocket"; "ws"; "http"; "h2"] then
    [("path", v_Path v); ("host", v_Host v); ("maxEarlyData", v_MaxEarlyData v); ("earlyDataHeaderName", v_EarlyDataHeaderName v)]
  else if one_of net ["mkcp"; "kcp"] then [("headerType", v_Type v); ("seed", v_Path v)]
  else if one_of net ["tcp"; "raw"] then [("headerType", v_Type v); ("host", v_Host v); ("path", v_Path v)]
  else if String.eqb net "grpc" then
    [("serviceName", v_Path v); ("multiMode", v_MultiMode v); ("idleTimeout", v_IdleTimeout v);
     ("healthCheckTimeout", v_HealthCheckTimeout v); ("permitWithoutStream", v_PermitWithoutStream v);
     ("initialWindowsSize", v_InitialWindowsSize v)]
  else if String.eqb net "quic" then [("headerType", v_Type v); ("key", v_Key v); ("quicSecurity", v_QuicSecurity v)]
  else if String.eqb net "xhttp" then [("path", v_Path v); ("host", v_Host v)] ++ xhttp_values (v_XHTTP v)
  else [].

Definition vless_security (v : V2Ray) : list (string * string) :=
  if String.eqb (v_TLS v) "none" then []
  else
    [("flow", v_Flow v); ("sni", v_SNI v); ("alpn", v_Alpn v); ("pinnedPeerCertSha256", v_PinnedPeerCertSha256 v);
     ("verifyPeerCertByName", v_VerifyPeerCertByName v); ("fp", v_Fingerprint v)] ++
    (if String.eqb (v_TLS v) "reality" then [("pbk", v_PublicKey v); ("sid", v_ShortId v); ("spx", v_SpiderX v)] else []).

Definition vless_query (v : V2Ray) : list (string * string) :=
  set_values ([("type", v_Net v); ("security", v_TLS v)] ++ vless_transport v ++ vless_security v) [].

Definition vless_ExportToURL (v : V2Ray) : string :=
  url_String "vless" (Some (mkUserinfo (v_ID v) None)) (JoinHostPort (v_Add v) (v_Port v)) (Encode_query (vless_query v)) (v_Ps v).

(** ** VMess *)

(** What jsoniter makes of a JSON value; [F] are the numbers. *)
Inductive jvalue (F : Type) :=
| JvNull
| JvBool (b : bool)
| JvNumber (f : F)
| JvString (s : string)
| JvArray (l : list (jvalue F))
| JvObject (l : list (string * jvalue F)).
Arguments JvNull {F}.
Arguments JvBool {F} _.
Arguments JvNumber {F} _.
Arguments JvString {F} _.
Arguments JvArray {F} _.
Arguments JvObject {F} _.

(** [jsoniter.Marshal] and [Unmarshal] at the types that are used.  Reading a map
    of strings gives what was read, and whether all of it was. *)
Class VmessJson := {
  float64 : Type;
  int64_of : float64 -> Z;
  json_map : string -> option (gmap string (jvalue float64));
  map_json : gmap string (jvalue float64) -> option string;
  json_v2ray : string -> result V2Ray;
  v2ray_json : V2Ray -> string;
  json_strings : string -> gmap string string * bool;
  strings_json : gmap string string -> string;
  object_json : list (string * jvalue float64) -> string;
}.

Section Vmess.
Context `{VJ : VmessJson}.

Fixpoint assoc_value (k : string) (l : list (string * jvalue float64)) : option (jvalue float64) :=
  match l with
  | [] => None
  | (k', v) :: l => if String.eqb k k' then Some v else assoc_value k l
  end.

Definition string_member (k : string) (l : list (string * jvalue float64)) : string :=
  match assoc_value k l with Some (JvString s) => s | _ => EmptyString end.

(** The headers of the legacy array of keys and values. *)
Definition legacy_header (hdrs : gmap string string) (e : jvalue float64) : gmap string string :=
  match e with
  | JvObject obj => let k := string_member "key" obj in if String.eqb k "" then hdrs else <[k := string_member "value" obj]> hdrs
  | _ => hdrs
  end.

Definition coerceStringField (key : string) (m : gmap string (jvalue float64)) : gmap string (jvalue float64) :=
  match m !! key with
  | Some (JvBool b) => <[key := JvString (if b then "true" else "false")]> m
  | Some (JvArray val) =>
    let hdrs := fold_left legacy_header val ∅ in
    <[key := JvString (if bool_decide (hdrs = ∅) then "" else strings_json hdrs)]> m
  | Some (JvObject val) => <[key := JvString (match val with [] => "" | _ => object_json val end)]> m
  | _ => m
  end.

Definition coerceNumber (m : gmap string (jvalue float64)) (key : string) : gmap string (jvalue float64) :=
  match m !! key with
  | Some (JvNumber f) => <[key := JvString (dec (int64_of f))]> m
  | _ => m
  end.

Definition normalizeVmessFields (m : gmap string (jvalue float64)) : gmap string (jvalue float64) :=
  let m := coerceStringField "xhttpHeaders" m in
  let m := coerceStringField "multiMode" m in
  let m := coerceStringField "permitWithoutStream" m in
  fold_left coerceNumber ["port"; "aid"; "v"]%string m.

(** *** The form [vmess://BASE64(security:id@host:port)?...] *)

(** The two sides of every occurrence of [c], the last occurrence first. *)
Fixpoint splits (c : Ascii.ascii) (s : string) : list (string * string) :=
  match s with
  | EmptyString => []
  | String a s' =>
    (map (fun lr => (String a (fst lr), snd lr)) (splits c s') ++ (if Ascii.eqb a c then [(EmptyString, s')] else []))%list
  end.

Fixpoint digits_prefix (s : string) : string :=
  match s with
  | String a s' => if digit_char a then String a (digits_prefix s') else EmptyString
  | EmptyString => EmptyString
  end.

Fixpoint first_some {A B} (f : A -> option B) (l : list A) : option B :=
  match l with
  | [] => None
  | x :: l => match f x with Some y => Some y | None => first_some f l end
  end.

(** [(.+):(\d+)] at the start, greedy *)
Definition match_host_port (s : string) : option (string * string) :=
  first_some (fun lr => let '(l, r) := lr in
    let p := digits_prefix r in if nonempty l && nonempty p then Some (l, p) else None) (splits ":" s).

(** [(.+)@(.+):(\d+)] *)
Definition match_user (s : string) : option (string * string * string) :=
  first_some (fun lr => let '(l, r) := lr in
    if nonempty l then '(h, p) ← match_host_port r; Some (l, h, p) else None) (splits "@" s).

(** [.*:(.+)@(.+):(\d+)], searched in a text: a match is within a line. *)
Definition FindStringSubmatch (s : string) : option (string * string * string) :=
  first_some (fun line => first_some (fun lr => match_user (snd lr)) (splits ":" line)) (lines s).

Definition with_websocket (net : string) : string := if String.eqb net "websocket" then "ws" else net.

Definition vmess_of_url (vmess : string) : result V2Ray :=
  let? u := parse_link vmess (malformed "vmess link is not a valid URL; expected vmess://BASE64(JSON) or vmess://BASE64(security:id@host:port)") in
  let s := hd EmptyString (Split_byte "?" (s_drop 8 vmess)) in
  let s := match Base64StdDecode s with (s, None) => s | (s, Some _) => fst (Base64URLDecode s) end in
  match FindStringSubmatch s with
  | None => Err (malformed "vmess link is neither base64 JSON nor vmess://BASE64(security:id@host:port); check that the whole link was copied")
  | Some (id, add, port) =>
    let q := Query u in
    let obfs := get "obfs" q in
    let kcp := one_of obfs ["kcp"; "mkcp"] in
    let path := if kcp then default "" (fst (json_strings (get "obfsParam" q)) !! "seed"%string) else get "path" q in
    Ok (mkV2Ray (or_else (get "remarks" q) (get "remark" q)) add port id (or_else (get "alterId" q) (get "aid" q))
          (or_else (get "scy" q) (get "security" q)) (with_websocket obfs) "" (if kcp then "" else get "obfsParam" q)
          (get "sni" q) path (if String.eqb (get "tls" q) "1" then "tls" else "") "" "" "" "" "" "" "" "" "" "" no_xhttp
          "" "" "" "" "" "" "" "" "")
  end.

Definition vmess_of_json (raw : string) : result V2Ray :=
  let raw := match json_map raw with
             | Some m => match map_json (normalizeVmessFields m) with Some b => b | None => raw end
             | None => raw
             end in
  match json_v2ray raw with
  | Ok info => Ok info
  | Err _ => Err (malformed "vmess link payload is not a JSON object; expected vmess://BASE64(JSON)")
  end.

(** The corrections at the end. *)
Definition correct_vmess (info : V2Ray) : V2Ray :=
  let host_is_path := HasPrefix (v_Host info) "/" && String.eqb (v_Path info) "" in
  reassign (v_Ps info) (or_else (v_Aid info) "0") (v_Net info) (if host_is_path then "" else v_Host info)
    (if host_is_path then v_Host info else v_Path info) (v_V info) "vmess" info.

Definition ParseVmessURL (vmess : string) : result V2Ray :=
  fail_if (s_len vmess <=? 8)%nat with malformed "vmess link too short" in
  let? info :=
    match Base64StdDecode (s_drop 8 vmess) with
    | (raw, None) => vmess_of_json raw
    | (_, Some _) =>
      match Base64URLDecode (s_drop 8 vmess) with
      | (raw, None) => vmess_of_json raw
      | (_, Some _) => vmess_of_url vmess
      end
    end in
  let info := correct_vmess info in
  match Atoi (v_Port info) with
  | Some _ => Ok info
  | None => Err (malformed_at "vmess link for %q has a missing or invalid port" (v_Add info))
  end.

Definition NewV2Ray (link : string) : result V2Ray :=
  if HasPrefix link "vmess://" then ParseVmessURL link
  else if HasPrefix link "vless://" then ParseVlessURL link
  else Err (malformed "expected a link starting with vmess:// or vless://").

(** Exporting a VMess node assigns [v.V] too, which nothing else reads. *)
Definition V2Ray_ExportToURL (v : V2Ray) : string :=
  if String.eqb (v_Protocol v) "vless" then vless_ExportToURL v
  else if String.eqb (v_Protocol v) "vmess" then "vmess://" +:+ Encode StdAlphabet false (v2ray_json (set_V "2" v))
  else EmptyString.

Definition V2Ray_ProtoToShow (v : V2Ray) : string :=
  if nonempty (v_TLS v) && negb (String.eqb (v_TLS v) "none")
  then v_Protocol v +:+ "(" +:+ v_Net v +:+ "+" +:+ v_TLS v +:+ ")" else v_Protocol v +:+ "(" +:+ v_Net v +:+ ")".

End Vmess.

Example greedy_submatch : FindStringSubmatch "auto:x@y:id@h:1:443b" = Some ("id", "h:1", "443")%string.
Proof. by vm_compute. Qed.

#[local] Close Scope go_scope.

(** ** A VLESS link is read as it was written *)

Definition web_transports : list string := ["websocket"; "ws"; "http"; "h2"]%string.

Definition on (b : bool) (v : string) : string := if b then v else EmptyString.

Definition shared_xhttp (x : XHTTPFields) : XHTTPFields :=
  mkXHTTPFields (or_else (XHTTPMode x) "auto") (XHTTPHeaders x) (v_NoGRPCHeader x) (v_NoSSEHeader x) (v_UplinkHTTPMethod x)
    (scMaxEachPostBytes x) (scMinPostsInterval x) (scMaxBufferedPosts x) (scStreamUpServer x) (xPaddingBytes x) (xmuxMaxConcur x)
    (xmuxMaxConn x) (xmuxCMaxReuse x) (xmuxHMaxReq x) (xmuxHMaxReusable x) (xmuxHKeepAlive x).

Definition shared_vless (v : V2Ray) : V2Ray :=
  let net := v_Net v in
  let web := one_of net web_transports in
  let kcp := one_of net ["mkcp"; "kcp"] in
  let tcp := one_of net ["tcp"; "raw"] in
  let grpc := String.eqb net "grpc" in
  let quic := String.eqb net "quic" in
  let xhttp := String.eqb net "xhttp" in
  let tls := negb (String.eqb (v_TLS v) "none") in
  let reality := String.eqb (v_TLS v) "reality" in
  mkV2Ray (v_Ps v) (v_Add v) (v_Port v) (v_ID v) "" "" net (or_else (on (kcp || tcp || quic) (v_Type v)) "none")
    (on (web || tcp || xhttp) (v_Host v)) (on tls (v_SNI v)) (on (web || kcp || tcp || grpc || xhttp) (v_Path v))
    (or_else (v_TLS v) "none") (on tls (v_Fingerprint v)) (on reality (v_PublicKey v)) (on reality (v_ShortId v))
    (on reality (v_SpiderX v)) (on tls (v_Flow v)) (on tls (v_Alpn v)) (on tls (v_PinnedPeerCertSha256 v))
    (on tls (v_VerifyPeerCertByName v)) (on quic (v_Key v)) (on quic (v_QuicSecurity v))
    (if xhttp then shared_xhttp (v_XHTTP v) else no_xhttp) (on web (v_MaxEarlyData v)) (on web (v_EarlyDataHeaderName v))
    (on grpc (v_MultiMode v)) (on grpc (v_IdleTimeout v)) (on grpc (v_HealthCheckTimeout v)) (on grpc (v_PermitWithoutStream v))
    (on grpc (v_InitialWindowsSize v)) (vless_ExportToURL v) "vless".

Definition int64_ok (n : Z) : bool := (MinInt64 <=? n) && (n <=? MaxInt64).
Definition range_ok (r : Z * Z) : bool := int64_ok (fst r) && int64_ok (snd r).

(** The numbers of the record are Go integers. *)
Definition xhttp_ok (x : XHTTPFields) : bool :=
  forallb range_ok [scMaxEachPostBytes x; scMinPostsInterval x; scStreamUpServer x; xPaddingBytes x; xmuxMaxConcur x; xmuxMaxConn x;
                    xmuxCMaxReuse x; xmuxHMaxReq x; xmuxHMaxReusable x] && int64_ok (scMaxBufferedPosts x) && int64_ok (xmuxHKeepAlive x).

Definition vless_ok (v : V2Ray) : bool :=
  host_ok (v_Add v) && port_digits (v_Port v) && is_some (Atoi (v_Port v)) && String.eqb (ToLower (v_Net v)) (v_Net v) &&
  negb (String.eqb (v_Net v) "") && xhttp_ok (v_XHTTP v).

Lemma int_back n : int64_ok n = true ->
  (if String.eqb (int_value n) "" then 0 else match Atoi (int_value n) with Some m => m | None => 0 end) = n.
Proof.
  unfold int64_ok. rewrite andb_true_iff, !Z.leb_le. intros Hn. unfold int_value. destruct (Z.eqb_spec n 0) as [->|H0]; [done|].
  rewrite Atoi_dec by lia. destruct (String.eqb_spec (dec n) "") as [E|_]; [|done]. pose proof (Atoi_dec n Hn) as Ha. by rewrite E in Ha.
Qed.

Lemma bool_back (b : bool) : String.eqb (if b then "true" else "") "true" = b.
Proof. by destruct b. Qed.

Lemma vless_query_nodup v : NoDup (keys (vless_query v)).
Proof. unfold vless_query. apply set_values_nodup, NoDup_nil_2. Qed.

(** The parameters of the security come after those of the transport, and share
    no key with them. *)
Lemma vless_get k v : get k (vless_query v) =
  last_value k (vless_security v) (last_value k (vless_transport v) (last_value k [("type", v_Net v); ("security", v_TLS v)] ""))%string.
Proof. unfold vless_query. by rewrite get_set_values, !last_value_app. Qed.

Ltac literals :=
  cbv beta iota zeta delta [last_value String.eqb Ascii.eqb Bool.eqb andb orb negb existsb one_of String.append app fst snd]; rewrite ?kept_nil.

Lemma vless_security_values v :
  let q := vless_security v in let tls := negb (String.eqb (v_TLS v) "none") in let reality := String.eqb (v_TLS v) "reality" in
  (forall acc, last_value "flow" q acc = or_kept (on tls (v_Flow v)) acc /\ last_value "sni" q acc = or_kept (on tls (v_SNI v)) acc /\
   last_value "alpn" q acc = or_kept (on tls (v_Alpn v)) acc /\
   last_value "pinnedPeerCertSha256" q acc = or_kept (on tls (v_PinnedPeerCertSha256 v)) acc /\
   last_value "verifyPeerCertByName" q acc = or_kept (on tls (v_VerifyPeerCertByName v)) acc /\
   last_value "fp" q acc = or_kept (on tls (v_Fingerprint v)) acc /\ last_value "pbk" q acc = or_kept (on reality (v_PublicKey v)) acc /\
   last_value "sid" q acc = or_kept (on reality (v_ShortId v)) acc /\ last_value "spx" q acc = or_kept (on reality (v_SpiderX v)) acc).
Proof.
  cbv zeta. intros acc. unfold vless_security. destruct (String.eqb_spec (v_TLS v) "none") as [->|].
  - repeat split.
  - destruct (String.eqb_spec (v_TLS v) "reality"); repeat split.
Qed.

(** Keys that are not the security's. *)
Definition security_keys : list string :=
  ["flow"; "sni"; "alpn"; "pinnedPeerCertSha256"; "verifyPeerCertByName"; "fp"; "pbk"; "sid"; "spx"]%string.

Lemma last_value_other k kvs acc : existsb (String.eqb k) (map fst kvs) = false -> last_value k kvs acc = acc.
Proof.
  revert acc. induction kvs as [|[k' v] kvs IH]; intros acc; [done|]. cbn [map fst existsb last_value].
  intros [-> H]%orb_false_iff. by apply IH.
Qed.

Lemma security_other k v acc : one_of k security_keys = false -> last_value k (vless_security v) acc = acc.
Proof.
  intros H. apply last_value_other. unfold vless_security. destruct (String.eqb (v_TLS v) "none"); [done|].
  unfold one_of, security_keys in H. destruct (String.eqb (v_TLS v) "reality"); cbn in *; [done|].
  rewrite !orb_false_iff in *. tauto.
Qed.

Lemma transport_other k v acc : one_of k security_keys = true -> last_value k (vless_transport v) acc = acc.
Proof.
  intros (x & Hx & ->%String.eqb_eq)%existsb_exists. apply last_value_other. unfold vless_transport.
  revert x Hx. apply List.Forall_forall. by_transport (ToLower (v_Net v)); repeat constructor.
Qed.

Lemma security_gets v :
  let tls := negb (String.eqb (v_TLS v) "none") in let reality := String.eqb (v_TLS v) "reality" in let q := vless_query v in
  get "flow" q = on tls (v_Flow v) /\ get "sni" q = on tls (v_SNI v) /\ get "alpn" q = on tls (v_Alpn v) /\
  get "pinnedPeerCertSha256" q = on tls (v_PinnedPeerCertSha256 v) /\ get "verifyPeerCertByName" q = on tls (v_VerifyPeerCertByName v) /\
  get "fp" q = on tls (v_Fingerprint v) /\ get "pbk" q = on reality (v_PublicKey v) /\ get "sid" q = on reality (v_ShortId v) /\
  get "spx" q = on reality (v_SpiderX v).
Proof.
  cbv zeta. rewrite !vless_get. rewrite !transport_other by done.
  rewrite !(last_value_other _ [("type", v_Net v); ("security", v_TLS v)]%string) by done.
  destruct (vless_security_values v "") as (-> & -> & -> & -> & -> & -> & -> & -> & ->). by rewrite !kept_nil.
Qed.

Lemma plain_get k v : one_of k security_keys = false ->
  get k (vless_query v) = last_value k (vless_transport v) (last_value k [("type", v_Net v); ("security", v_TLS v)] "")%string.
Proof. intros H. rewrite vless_get. by apply security_other. Qed.

Lemma xhttp_back v : v_Net v = "xhttp"%string -> xhttp_ok (v_XHTTP v) = true ->
  parse_xhttp (vless_query v) = shared_xhttp (v_XHTTP v).
Proof.
  intros Hn Hx. unfold parse_xhttp, queryInt. rewrite !plain_get by done. unfold vless_transport. rewrite Hn.
  change (ToLower "xhttp") with "xhttp"%string. unfold one_of. cbn [existsb orb String.eqb Ascii.eqb Bool.eqb]. unfold xhttp_values, set_range.
  cbn [String.append]. destruct (v_XHTTP v) as [mode hdrs g s m r1 r2 b r3 r4 r5 r6 r7 r8 r9 ka].
  cbn [XHTTPMode XHTTPHeaders v_NoGRPCHeader v_NoSSEHeader v_UplinkHTTPMethod scMaxEachPostBytes scMinPostsInterval scMaxBufferedPosts
    scStreamUpServer xPaddingBytes xmuxMaxConcur xmuxMaxConn xmuxCMaxReuse xmuxHMaxReq xmuxHMaxReusable xmuxHKeepAlive].
  literals. rewrite !bool_back. unfold xhttp_ok, range_ok in Hx. cbn [forallb] in Hx.
  cbn [XHTTPMode XHTTPHeaders v_NoGRPCHeader v_NoSSEHeader v_UplinkHTTPMethod scMaxEachPostBytes scMinPostsInterval scMaxBufferedPosts
    scStreamUpServer xPaddingBytes xmuxMaxConcur xmuxMaxConn xmuxCMaxReuse xmuxHMaxReq xmuxHMaxReusable xmuxHKeepAlive] in Hx.
  rewrite !andb_true_iff in Hx. destruct_and! Hx. rewrite !int_back by done. unfold shared_xhttp. cbn.
  by destruct r1, r2, r3, r4, r5, r6, r7, r8, r9.
Qed.

(** What the transport says, field by field. *)
Record transport_said (v : V2Ray) : Prop := {
  ts_type : or_else (get "type" (vless_query v)) "tcp" = v_Net v;
  ts_security : get "security" (vless_query v) = v_TLS v;
  ts_aid : get "aid" (vless_query v) = "";
  ts_header : get "headerType" (vless_query v) = on (one_of (v_Net v) ["mkcp"; "kcp"; "tcp"; "raw"; "quic"]) (v_Type v);
  ts_host : get "host" (vless_query v) = on (one_of (v_Net v) ["websocket"; "ws"; "http"; "h2"; "tcp"; "raw"; "xhttp"]) (v_Host v);
  ts_path : (if one_of (v_Net v) ["mkcp"; "kcp"] then get "seed" (vless_query v)
             else if String.eqb (v_Net v) "grpc" then get "serviceName" (vless_query v) else get "path" (vless_query v)) =
    on (one_of (v_Net v) ["websocket"; "ws"; "http"; "h2"; "mkcp"; "kcp"; "tcp"; "raw"; "grpc"; "xhttp"]) (v_Path v);
  ts_key : get "key" (vless_query v) = on (String.eqb (v_Net v) "quic") (v_Key v);
  ts_quic : (if String.eqb (v_Net v) "quic" then get "quicSecurity" (vless_query v) else "") = on (String.eqb (v_Net v) "quic") (v_QuicSecurity v);
  ts_early : get "maxEarlyData" (vless_query v) = on (one_of (v_Net v) web_transports) (v_MaxEarlyData v);
  ts_early_name : get "earlyDataHeaderName" (vless_query v) = on (one_of (v_Net v) web_transports) (v_EarlyDataHeaderName v);
  ts_multi : get "multiMode" (vless_query v) = on (String.eqb (v_Net v) "grpc") (v_MultiMode v);
  ts_idle : get "idleTimeout" (vless_query v) = on (String.eqb (v_Net v) "grpc") (v_IdleTimeout v);
  ts_health : get "healthCheckTimeout" (vless_query v) = on (String.eqb (v_Net v) "grpc") (v_HealthCheckTimeout v);
  ts_permit : get "permitWithoutStream" (vless_query v) = on (String.eqb (v_Net v) "grpc") (v_PermitWithoutStream v);
  ts_window : get "initialWindowsSize" (vless_query v) = on (String.eqb (v_Net v) "grpc") (v_InitialWindowsSize v);
}.

Lemma kept_other k v w acc : one_of k ["type"; "security"]%string = false ->
  last_value k [("type", v); ("security", w)]%string acc = acc.
Proof. unfold one_of. cbn. intros [-> [-> _]%orb_false_iff]%orb_false_iff. done. Qed.

Lemma vless_transport_said v : ToLower (v_Net v) = v_Net v -> v_Net v <> "" -> transport_said v.
Proof.
  intros Hl Hn. assert (Ht : last_value "type" (vless_transport v) (v_Net v) = v_Net v /\ last_value "security" (vless_transport v) (v_TLS v) = v_TLS v).
  { split; apply last_value_other; unfold vless_transport; by_transport (ToLower (v_Net v)); reflexivity. }
  split; rewrite ?plain_get by done.
  1: { change (last_value "type" [("type", v_Net v); ("security", v_TLS v)]%string "") with (or_kept (v_Net v) "").
       rewrite kept_nil. destruct Ht as [-> _]. unfold or_else. by rewrite (proj2 (String.eqb_neq _ _)). }
  1: { change (last_value "security" [("type", v_Net v); ("security", v_TLS v)]%string "") with (or_kept (v_TLS v) "").
       rewrite kept_nil. by destruct Ht as [_ ->]. }
  all: rewrite ?kept_other by done; unfold vless_transport; rewrite Hl; clear Hl Hn Ht; unfold web_transports, on;
    destruct v as [ps add port id aid sec net ty host sni path tls fp pk sid spx flow alpn pin vp key qs [mode hdrs g s m r1 r2 b r3 r4 r5 r6 r7 r8 r9 ka] med edh mm it ht pws iws vv pr];
    cbn [v_Net v_Type v_Host v_Path v_Key v_QuicSecurity v_XHTTP v_MaxEarlyData v_EarlyDataHeaderName v_MultiMode v_IdleTimeout v_HealthCheckTimeout
      v_PermitWithoutStream v_InitialWindowsSize]; by_transport net; unfold xhttp_values, set_range; by literals.
Qed.

Lemma parse_xhttp_ext q q' : (forall k, get k q = get k q') -> parse_xhttp q = parse_xhttp q'.
Proof. intros H. unfold parse_xhttp, queryInt. by rewrite !H. Qed.

Lemma vless_round_trip v : vless_ok v = true -> ParseVlessURL (vless_ExportToURL v) = Ok (shared_vless v).
Proof.
  unfold vless_ok. rewrite !andb_true_iff. intros [[[[[Hh Hd] Ha] Hl%String.eqb_eq] Hn%negb_true_iff%String.eqb_neq] Hx].
  unfold ParseVlessURL, parse_link.
  destruct (built_parses "vless" (Some (mkUserinfo (v_ID v) None)) _ _ (vless_query v) (v_Ps v) eq_refl Hh Hd (vless_query_nodup v))
    as (u & E & [H1 H2 H3 H4 H5 _ _ Hg _]).
  change (url_String "vless" _ _ _ _) with (vless_ExportToURL v) in E. rewrite E. unfold link_port. rewrite H3, H4, H5.
  destruct (Atoi (v_Port v)); [|done]. unfold user_name. rewrite H2. cbn [Username].
  rewrite (parse_xhttp_ext _ _ Hg), !Hg. destruct (security_gets v) as (-> & -> & -> & -> & -> & -> & -> & -> & ->).
  destruct (vless_transport_said v Hl Hn) as [-> -> -> -> -> -> -> -> -> -> -> -> -> -> ->].
  unfold shared_vless. f_equal. f_equal.
  - f_equal. unfold one_of. cbn [existsb]. by rewrite !orb_false_r, !orb_assoc.
  - f_equal. unfold one_of, web_transports. cbn [existsb]. by rewrite !orb_false_r, !orb_assoc.
  - f_equal. unfold one_of, web_transports. cbn [existsb]. by rewrite !orb_false_r, !orb_assoc.
  - destruct (String.eqb_spec (v_Net v) "xhttp"); [|done]. by apply xhttp_back.
Qed.

(** ** So is a VMess link *)

Definition texts (v : V2Ray) : list string :=
  [v_Ps v; v_Add v; v_Port v; v_ID v; v_Aid v; v_Security v; v_Net v; v_Type v; v_Host v; v_SNI v; v_Path v; v_TLS v; v_Fingerprint v;
   v_PublicKey v; v_ShortId v; v_SpiderX v; v_Flow v; v_Alpn v; v_PinnedPeerCertSha256 v; v_VerifyPeerCertByName v; v_Key v; v_QuicSecurity v;
   XHTTPMode (v_XHTTP v); XHTTPHeaders (v_XHTTP v); v_UplinkHTTPMethod (v_XHTTP v); v_MaxEarlyData v; v_EarlyDataHeaderName v; v_MultiMode v;
   v_IdleTimeout v; v_HealthCheckTimeout v; v_PermitWithoutStream v; v_InitialWindowsSize v; v_V v; v_Protocol v].

(** Numbers that a [float64] holds exactly. *)
Definition exact_int (n : Z) : bool := (- 2 ^ 53 <=? n) && (n <=? 2 ^ 53).
Definition exact_range (r : Z * Z) : bool := exact_int (fst r) && exact_int (snd r).
Definition xhttp_exact (x : XHTTPFields) : bool :=
  forallb exact_range [scMaxEachPostBytes x; scMinPostsInterval x; scStreamUpServer x; xPaddingBytes x; xmuxMaxConcur x; xmuxMaxConn x;
                       xmuxCMaxReuse x; xmuxHMaxReq x; xmuxHMaxReusable x] && exact_int (scMaxBufferedPosts x) && exact_int (xmuxHKeepAlive x).

Definition printable (v : V2Ray) : bool := forallb ValidString (texts v) && xhttp_exact (v_XHTTP v).

Definition coerced_keys : list string := ["xhttpHeaders"; "multiMode"; "permitWithoutStream"; "port"; "aid"; "v"]%string.

(** What is relied on of the JSON library, for a node of UTF-8 texts and numbers
    that a [float64] holds: fields that are texts are printed as texts, a generic
    value that is printed again says the same, and a printed node is read back. *)
Class VmessLaws `(VJ : VmessJson) : Prop := {
  printed_nonempty v : v2ray_json v <> EmptyString;
  printed_texts v m k : json_map (v2ray_json v) = Some m -> k ∈ coerced_keys ->
    match m !! k with None | Some (JvString _) => True | _ => False end;
  printed_again v m : printable v = true -> json_map (v2ray_json v) = Some m -> exists b, map_json m = Some b /\ json_v2ray b = Ok v;
  printed_read v : printable v = true -> json_v2ray (v2ray_json v) = Ok v;
}.

Section VmessBack.
Context `{VJ : VmessJson} `{VL : !VmessLaws VJ}.

Lemma normal_fields m : (forall k, k ∈ coerced_keys -> match m !! k with None | Some (JvString _) => True | _ => False end) ->
  normalizeVmessFields m = m.
Proof.
  intros H. assert (Hs : forall k, k ∈ coerced_keys -> coerceStringField k m = m /\ coerceNumber m k = m).
  { intros k Hk. specialize (H k Hk). unfold coerceStringField, coerceNumber. by destruct (m !! k) as [[]|]. }
  unfold normalizeVmessFields. cbn [fold_left].
  repeat match goal with |- context [coerceStringField ?k m] => rewrite (proj1 (Hs k ltac:(apply list_elem_of_In; cbn; tauto))) end.
  repeat match goal with |- context [coerceNumber m ?k] => rewrite (proj2 (Hs k ltac:(apply list_elem_of_In; cbn; tauto))) end. done.
Qed.

Lemma json_back v : printable v = true -> vmess_of_json (v2ray_json v) = Ok v.
Proof.
  intros Hp. unfold vmess_of_json. destruct (json_map (v2ray_json v)) as [m|] eqn:E.
  - rewrite normal_fields by (intros k Hk; by eapply printed_texts). destruct (printed_again v m Hp E) as (b & -> & ->). done.
  - by rewrite printed_read.
Qed.

Definition shared_vmess (v : V2Ray) : V2Ray := correct_vmess (set_V "2" v).

Definition vmess_ok (v : V2Ray) : bool := printable (set_V "2" v) && is_some (Atoi (v_Port v)).

Lemma encode_nonempty al s : s <> "" -> (0 < s_len (Encode al false s))%nat.
Proof. intros H. destruct s as [|a [|b [|c s]]]; [done|cbn; lia..]. Qed.

Lemma vmess_round_trip v : vmess_ok v = true ->
  ParseVmessURL ("vmess://" +:+ Encode StdAlphabet false (v2ray_json (set_V "2" v))) = Ok (shared_vmess v).
Proof.
  unfold vmess_ok. rewrite andb_true_iff. intros [Hp Ha]. unfold ParseVmessURL.
  pose proof (encode_nonempty StdAlphabet _ (printed_nonempty (set_V "2" v))) as Hlen. rewrite s_len_app.
  destruct (Nat.leb_spec (s_len "vmess://" + s_len (Encode StdAlphabet false (v2ray_json (set_V "2" v)))) 8) as [Hle|_];
    [cbn [s_len] in Hle; lia|].
  assert (s_drop 8 ("vmess://" +:+ Encode StdAlphabet false (v2ray_json (set_V "2" v))) = Encode StdAlphabet false (v2ray_json (set_V "2" v))) as ->
    by exact (s_drop_app "vmess://" _).
  unfold Base64StdDecode. rewrite decode_padded_raw, json_back by done. unfold shared_vmess.
  change (v_Port (correct_vmess (set_V "2" v))) with (v_Port v). by destruct (Atoi (v_Port v)).
Qed.

End VmessBack.
