(* ===== verification/NodeConfig.v ===== *)
(** * What a node asks of the core (service/kernel/serverObj, the [Configuration] methods)

    The outbound of each protocol, with its transport and security.  [info] says
    the tag the outbound gets.  Configuring a V2Ray node assigns two of its fields
    on the way, so its definition gives the node back; the check of the clock that
    it makes is the class [Ntp]. *)

From stdpp Require Import gmap.
From S2P Require Import Prelude.
From S2P Require Import NetIP Text Codecs Iptables Store NodeRefs Configure CoreConfig ServerData.
From S2P Require Import Url ShareLinks V2RayLinks.

#[local] Open Scope Z_scope.
#[local] Open Scope go_scope.

(** ** Pieces *)

Definition new_TLSSettings : TLSSettings := mkTLSSettings None [] "" "" [] "".
Definition tls_named (name : string) : TLSSettings := mkTLSSettings (Some name) [] "" "" [] "".

Definition with_servers (servers : list Server) : Settings := mkSettings_ [] servers "" 0 "" "" "" None None.
Definition with_vnext (vnext : list Vnext) : Settings := mkSettings_ vnext [] "" 0 "" "" "" None None.
Definition with_text (text : string) : Settings := mkSettings_ [] [] "" 0 "" "" "" None (Some text).

Definition server_at (address : string) (port : Z) : Server := mkServer "" address "" false "" port [].

(** One main outbound and nothing else. *)
Definition main_outbound (tag protocol : string) (settings : Settings) (stream : option StreamSettings) (udp : bool) : Configuration :=
  mkConfiguration (mkOutboundObject tag protocol "" settings stream None None []) [] "" udp "".

(** ** Trojan *)

Definition trojan_stream (t : Trojan) (tls : TLSSettings) : StreamSettings :=
  let net := ToLower (tr_Type t) in
  let '(network, ws, grpc) :=
    if String.eqb net "grpc" then ("grpc"%string, None, Some (mkGrpcSettings (tr_ServiceName t) false 0 0 false 0))
    else if one_of net ["ws"; "websocket"] then ("ws"%string, Some (mkWsSettings (tr_Path t) (tr_Host t) 0 ""), None)
    else (EmptyString, None, None) in
  mkStreamSettings network "tls" (Some tls) None None None None None ws None grpc None None None None.

Definition Trojan_ConfigurationMC (t : Trojan) (info : PriorInfo) : result Configuration :=
  let? pins := PinnedPeerCertSha256Hex (tr_PinnedPeerCertSha256 t) in
  let alpn := if String.eqb (tr_Alpn t) "" then [] else Split_byte "," (tr_Alpn t) in
  let tls := mkTLSSettings (Some (tr_Sni t)) alpn pins (tr_VerifyPeerCertByName t) [] "" in
  Ok (main_outbound (pi_Tag info) "trojan"
        (with_servers [mkServer "" (tr_Server t) "" false (tr_Password t) (tr_Port t) []]) (Some (trojan_stream t tls)) false).

Definition Trojan_Configuration (t : Trojan) (info : PriorInfo) : result Configuration :=
  let? c := Trojan_ConfigurationMC t info in
  Ok (mkConfiguration (CoreOutbound c) (ExtraOutbounds c) (PluginChain c) true (PluginManagerServerLink c)).

Definition Trojan_ProtoToShow (t : Trojan) : string :=
  if String.eqb (tr_Protocol t) "trojan" then tr_Protocol t
  else if String.eqb (tr_Encryption t) "" then tr_Protocol t +:+ "(" +:+ tr_Type t +:+ ")"
  else tr_Protocol t +:+ "(" +:+ tr_Type t +:+ "+" +:+ hd EmptyString (Split_byte ";" (tr_Encryption t)) +:+ ")".

(** ** HTTP and SOCKS *)

Definition proxy_server (h : Proxy) : Server :=
  mkServer "" (px_Server h) "" false "" (px_Port h)
    (if String.eqb (px_Username h) "" then [] else [mkOutboundUser (px_Username h) (px_Password h) 0]).

Definition HTTP_Configuration (h : Proxy) (info : PriorInfo) : result Configuration :=
  let stream := if String.eqb (px_Protocol h) "https"
                then Some (mkStreamSettings "" "tls" (Some (tls_named (px_Server h))) None None None None None None None None None None None None)
                else None in
  Ok (main_outbound (pi_Tag info) "http" (with_servers [proxy_server h]) stream false).

Definition SOCKS_Configuration (h : Proxy) (info : PriorInfo) : result Configuration :=
  Ok (main_outbound (pi_Tag info) "socks" (with_servers [proxy_server h]) None true).

(** ** Protocols with settings of their own *)

Definition tuicSettings (s : Tuic) : string :=
  let alpn := match Split_byte "," (ReplaceAll (tu_Alpn s) " " "") with
              | [] => ["h3"%string]
              | [a] => if String.eqb a "" then ["h3"%string] else [a]
              | l => l
              end in
  object_text
    [("address", false, MStr (host_and_port (tu_Server s) (tu_Port s))); ("uuid", false, MStr (tu_UUID s));
     ("password", false, MStr (tu_Password s)); ("sni", true, MStr (tu_Sni s));
     ("congestion_control", true, MStr (tu_CongestionControl s)); ("udp_relay_mode", true, MStr (tu_UdpRelayMode s));
     ("alpn", true, MStrs alpn); ("disable_sni", true, MBool (tu_DisableSni s));
     ("pinned_peer_certificate_chain_sha256", true, MStr (tu_PinnedPeerCertSha256 s));
     ("verifyPeerCertByName", true, MStr (tu_VerifyPeerCertByName s))]%string.

Definition Tuic_Configuration (s : Tuic) (info : PriorInfo) : result Configuration :=
  Ok (main_outbound (pi_Tag info) "tuic" (with_text (tuicSettings s)) None true).

(** The numbers of the list, blanks skipped. *)
Definition wg_reserved_ints (s : WireGuard) : list Z :=
  if String.eqb (wg_Reserved s) "" then []
  else omap (fun p => let p := TrimSpace p in if String.eqb p "" then None else Some (atoi_value p)) (Split_byte "," (wg_Reserved s)).

Definition positive_or_zero (n : Z) : Z := if 0 <? n then n else 0.

Definition wireguardSettings (s : WireGuard) : string :=
  let allowedIPs := if String.eqb (wg_AllowedIPs s) "" then ["0.0.0.0/0"; "::/0"]%string else Split_byte "," (wg_AllowedIPs s) in
  object_text
    [("secretKey", false, MStr (wg_PrivateKey s)); ("address", false, MStrs [wg_Address s]);
     ("workers", true, MInt (positive_or_zero (wg_Workers s)));
     ("mtu", true, MInt (positive_or_zero (wg_Mtu s))); ("reserved", true, MInts (wg_reserved_ints s));
     ("peers", false, MObjs
       [[("endpoint", false, MStr (host_and_port (wg_Server s) (wg_Port s))); ("publicKey", false, MStr (wg_PublicKey s));
         ("preSharedKey", true, MStr (wg_PreSharedKey s)); ("allowedIPs", false, MStrs allowedIPs);
         ("keepAlive", true, MInt (wg_KeepAlive s))]]);
     ("kernelMode", true, MBool (wg_KernelMode s))]%string.

Definition WireGuard_Configuration (s : WireGuard) (info : PriorInfo) : result Configuration :=
  Ok (main_outbound (pi_Tag info) "wireguard" (with_text (wireguardSettings s)) None true).

Definition AnyTLS_Configuration (s : Linked) (info : PriorInfo) : result Configuration :=
  match url_Parse (lk_Link s) with
  | Err e => Err (Wrapf "anytls: parse link: %w" [] e)
  | Ok u =>
    let q := Query u in
    let text := object_text
      [("address", false, MStr (lk_Server s)); ("port", false, MInt (lk_Port s)); ("password", false, MStr (user_name u));
       ("sni", true, MStr (get "sni" q)); ("min_idle_sessions", true, MInt (atoi_value (get "minIdleSession" q)));
       ("pinned_peer_certificate_chain_sha256", true, MStr (get "pinnedPeerCertSha256" q));
       ("verifyPeerCertByName", true, MStr (get "verifyPeerCertByName" q))]%string in
    Ok (main_outbound (pi_Tag info) "anytls" (with_text text) None true)
  end.

Definition Juicity_Configuration (s : Linked) (info : PriorInfo) : result Configuration :=
  match url_Parse (lk_Link s) with
  | Err e => Err (Wrapf "juicity: parse link: %w" [] e)
  | Ok u =>
    let q := Query u in
    let text := object_text
      [("address", false, MStr (host_and_port (lk_Server s) (lk_Port s))); ("uuid", false, MStr (user_name u));
       ("password", false, MStr (default "" (user_password u))); ("sni", true, MStr (get "sni" q));
       ("congestion_control", true, MStr (firstNonEmpty [get "congestion_control" q; get "congestionControl" q]));
       ("pinned_certchain_sha256", true, MStr (get "pinned_certchain_sha256" q))]%string in
    Ok (main_outbound (pi_Tag info) "juicity" (with_text text) None true)
  end.

(** *** Hysteria2 *)

Record hysteria2Params := mkHysteria2Params {
  hp_password : string;
  hp_sni : string;
  hp_pinnedPeerCertSha256 : string;
  hp_verifyPeerCertByName : string;
  hp_obfs : string;
  hp_obfsPassword : string;
}.

Definition parseLinkParams (s : Linked) : hysteria2Params :=
  let none := mkHysteria2Params "" "" "" "" "" "" in
  if String.eqb (lk_Link s) "" then none
  else
    match url_Parse (lk_Link s) with
    | Err _ => none
    | Ok u =>
      let q := Query u in
      let password := match url_User u with
                      | None => EmptyString
                      | Some x => Username x +:+ (match Password x with Some pw => ":" +:+ pw | None => EmptyString end)
                      end in
      mkHysteria2Params password (get "sni" q)
        (firstNonEmpty [get "pinSHA256" q; get "pinSha256" q; get "pin_sha256" q; get "pinned_peer_cert_sha256" q])
        (get "verify_peer_cert_by_name" q) (get "obfs" q) (get "obfs-password" q)
    end.

Definition Hysteria2_Configuration (s : Linked) (info : PriorInfo) : result Configuration :=
  let p := parseLinkParams s in
  let text := object_text [("version", false, MInt 2); ("address", false, MStr (lk_Server s)); ("port", false, MInt (lk_Port s))]%string in
  match PinnedPeerCertSha256Hex (hp_pinnedPeerCertSha256 p) with
  | Err e => Err (Wrapf "hysteria2: %w" [] e)
  | Ok pins =>
    let tls := mkTLSSettings (Some (or_else (hp_sni p) (lk_Server s))) [] pins (hp_verifyPeerCertByName p) [] "" in
    let mask := if String.eqb (hp_obfs p) "salamander"
                then Some (mkFinalMask [mkUdpMask "salamander" (object_text [("password"%string, false, MStr (hp_obfsPassword p))])])
                else None in
    let stream := mkStreamSettings "hysteria" "tls" (Some tls) None None None None None None None None None
                    (Some (mkHysteriaSettings 2 (hp_password p))) mask None in
    Ok (main_outbound (pi_Tag info) "hysteria" (with_text text) (Some stream) true)
  end.

(** ** Shadowsocks *)

Definition or_cloudflare (host : string) : string := or_else host "cloudflare.com".

(** The request and the response a disguised TCP stream starts with. *)
Definition http_disguise (path host agents : list string) : TCPHeader :=
  mkTCPHeader "http"
    (mkHTTPRequest "1.1" "GET" path (mkHTTPReqHeader host agents ["gzip, deflate"%string] ["keep-alive"%string] "no-cache"))
    (mkHTTPResponse "1.1" "200" "OK"
       (mkHTTPRespHeader ["application/octet-stream"; "video/mpeg"]%string ["chunked"%string] ["keep-alive"%string] "no-cache")).

Definition ss_agents : list string :=
  ["Mozilla/5.0 (Windows NT 10.0; WOW64) AppleWebKit/527.36 (KHTML, like Gecko) Chrome/55.2883.75 Safari/537.36";
   "Mozilla/5.0 (iPhone; CPU iPhone OS 10_0_2 like Mac OS X) AppleWebKit/601.1 (KHTML, like Gecko) CriOS/53.0.2785.109 Mobile/14A456 Safari/601.46"]%string.

Definition unsupported_obfs (s : Shadowsocks) : error :=
  Errorf "unsupported obfs %v of plugin %v" [FStr (o_Obfs (sip_Opts (ss_Plugin s))); FStr (sip_Name (ss_Plugin s))].

(** The transport of the v2ray plugin: websocket, under TLS when it says so. *)
Definition v2ray_plugin_stream (o : Sip003Opts) : StreamSettings :=
  let host := or_cloudflare (o_Host o) in
  let tls := String.eqb (o_Tls o) "tls" in
  mkStreamSettings "ws" (if tls then "tls" else "") (if tls then Some (tls_named host) else None) None None None None None
    (Some (mkWsSettings (slashed (o_Path o)) host 0 "")) None None None None None None.

Definition ss_server (s : Shadowsocks) : Server := mkServer "" (ss_Server s) (ss_Cipher s) false (ss_Password s) (ss_Port s) [].

Definition Shadowsocks_ConfigurationMT (s : Shadowsocks) (info : PriorInfo) : result Configuration :=
  let o := sip_Opts (ss_Plugin s) in
  let name := sip_Name (ss_Plugin s) in
  let host := or_cloudflare (o_Host o) in
  let? (stream, mux) :=
    if String.eqb name "simple-obfs" then
      if String.eqb (o_Obfs o) "http" then
        let tcp := mkTCPSettings false (http_disguise (Split_byte "," (slashed (o_Path o))) (Split_byte "," host) ss_agents) in
        Ok (Some (mkStreamSettings "tcp" "" None None None None (Some tcp) None None None None None None None None), None)
      else if String.eqb (o_Obfs o) "tls" then
        Ok (Some (mkStreamSettings "" "tls" (Some (tls_named host)) None None None None None None None None None None None None), None)
      else Err (unsupported_obfs s)
    else if String.eqb name "v2ray-plugin" then
      if String.eqb (o_Obfs o) "quic" then Err (Errorf "quic is not yet supported" [])
      else Ok (Some (v2ray_plugin_stream o), Some (mkMuxConfig true 1))
    else if String.eqb name "" then Ok (None, None)
    else Err (Errorf "unsupported plugin %v" [FStr name]) in
  Ok (mkConfiguration (mkOutboundObject (pi_Tag info) "shadowsocks" "" (with_servers [ss_server s]) stream None mux []) [] "" true "").

Definition Shadowsocks_Configuration (s : Shadowsocks) (info : PriorInfo) : result Configuration := Shadowsocks_ConfigurationMT s info.

(** The variant with a plugin chain and a dialer. *)
Definition Shadowsocks_ConfigurationMC (s : Shadowsocks) (info : PriorInfo) : result Configuration :=
  let o := sip_Opts (ss_Plugin s) in
  let name := sip_Name (ss_Plugin s) in
  let config server proxy extra chain udp :=
    mkConfiguration (mkOutboundObject (pi_Tag info) "shadowsocks" "" (with_servers [server]) None proxy None []) extra
      (Join "," chain) udp "" in
  if String.eqb name "simple-obfs" then
    let server := mkServer "" "127.0.0.1" (ss_Cipher s) false (ss_Password s) (pi_PluginPort info) [] in
    let tcp := url_String "tcp" None (host_and_port "127.0.0.1" (pi_PluginPort info)) "" "" in
    let obfs := url_String "simple-obfs" None (host_and_port (ss_Server s) (ss_Port s))
                  (Encode_query [("obfs", o_Obfs o); ("host", o_Host o); ("uri", o_Path o)]%string) "" in
    fail_if negb (one_of (o_Obfs o) ["http"; "tls"]) with unsupported_obfs s in
    Ok (config server None [] [tcp; obfs] false)
  else if String.eqb name "v2ray-plugin" then
    let dialerTag := pi_Tag info +:+ "-dialer" in
    fail_if String.eqb (o_Obfs o) "quic" with Errorf "quic is not yet supported" [] in
    let dialer := mkOutboundObject dialerTag "freedom" ""
                    (mkSettings_ [] [] "AsIs" 0 "" "" (host_and_port (ss_Server s) (ss_Port s)) None None)
                    (Some (v2ray_plugin_stream o)) None (Some (mkMuxConfig true 1)) [] in
    Ok (config (ss_server s) (Some (mkProxySettings dialerTag)) [dialer] [] false)
  else if String.eqb name "" then Ok (config (ss_server s) None [] [] true)
  else Err (Errorf "unsupported plugin %v" [FStr name]).

Definition ssrUnsupported : string := "ShadowsocksR is not supported; use Shadowsocks, VMess, VLESS or Trojan instead".

Definition ShadowsocksR_Configuration (s : ShadowsocksR) (info : PriorInfo) : result Configuration :=
  Err (Errorf "unsupported: %s" [FStr ssrUnsupported]).

(** ** VMess and VLESS *)

(** [ntp.IsDatetimeSynced] *)
Class Ntp := { IsDatetimeSynced : bool }.

Section V2RayConfig.
Context `{VJ : VmessJson} `{NT : Ntp}.

(** ** Transports *)

Definition ParseBool (s : string) : option bool :=
  if one_of s ["1"; "t"; "T"; "TRUE"; "true"; "True"] then Some true
  else if one_of s ["0"; "f"; "F"; "FALSE"; "false"; "False"] then Some false else None.

Definition bool_or_false (s : string) : bool := default false (ParseBool s).
Definition int_or_zero (s : string) : Z := default 0 (Atoi s).

Definition grpc_settings (v : V2Ray) : GrpcSettings :=
  mkGrpcSettings (v_Path v) (bool_or_false (v_MultiMode v)) (int_or_zero (v_IdleTimeout v))
    (int_or_zero (v_HealthCheckTimeout v)) (bool_or_false (v_PermitWithoutStream v)) (int_or_zero (v_InitialWindowsSize v)).

Definition ws_settings (v : V2Ray) : WsSettings :=
  let early := int_or_zero (v_MaxEarlyData v) in
  if 0 <? early then mkWsSettings (v_Path v) (v_Host v) early (v_EarlyDataHeaderName v)
  else mkWsSettings (v_Path v) (v_Host v) 0 "".

Definition kcp_settings (v : V2Ray) : KcpSettings := mkKcpSettings 1350 50 12 100 false 2 2 (v_Type v) (v_Path v).

Definition v2ray_agents : list string :=
  ["Mozilla/5.0 (Windows NT 10.0; WOW64) AppleWebKit/537.36 (KHTML, like Gecko) Chrome/55.0.2883.75 Safari/537.36";
   "Mozilla/5.0 (iPhone; CPU iPhone OS 10_0_2 like Mac OS X) AppleWebKit/601.1 (KHTML, like Gecko) CriOS/53.0.2785.109 Mobile/14A456 Safari/601.1.46"]%string.

Definition tcp_settings (v : V2Ray) : option TCPSettings :=
  if String.eqb (ToLower (v_Type v)) "http" then
    let path := Split_byte "," (v_Path v) in
    let path := if String.eqb (v_Path v) "" then path else map slashed path in
    Some (mkTCPSettings true (http_disguise path (Split_byte "," (v_Host v)) v2ray_agents))
  else None.

Definition h2_settings (v : V2Ray) : HttpSettings :=
  mkHttpSettings (v_Path v) (if String.eqb (v_Host v) "" then [] else Split_byte "," (v_Host v)) "".

(** [int32(n)] *)
Definition int32 (n : Z) : Z := (n + 2 ^ 31) mod 2 ^ 32 - 2 ^ 31.

Definition range_config (r : Z * Z) : option XHTTPRangeConfig :=
  if (fst r =? 0) && (snd r =? 0) then None else Some (mkXHTTPRangeConfig (int32 (fst r)) (int32 (snd r))).

Definition xmux_settings (x : XHTTPFields) : option XHTTPXmux :=
  let xmux := mkXHTTPXmux (range_config (xmuxMaxConcur x)) (range_config (xmuxMaxConn x)) (range_config (xmuxCMaxReuse x))
                (range_config (xmuxHMaxReq x)) (range_config (xmuxHMaxReusable x)) (xmuxHKeepAlive x) in
  if is_some (MaxConcurrency xmux) || is_some (MaxConnections xmux) || is_some (CMaxReuseTimes xmux) ||
     is_some (HMaxRequestTimes xmux) || is_some (HMaxReusableSecs xmux) || negb (HKeepAlivePeriod xmux =? 0)
  then Some xmux else None.

Definition xhttp_settings (v : V2Ray) : XHTTPSettings :=
  let x := v_XHTTP v in
  let headers := if String.eqb (XHTTPHeaders x) "" then ∅
                 else let '(hdrs, ok) := json_strings (XHTTPHeaders x) in if ok then hdrs else ∅ in
  mkXHTTPSettings (v_Path v) (v_Host v) (XHTTPMode x) headers (range_config (xPaddingBytes x)) (v_NoGRPCHeader x)
    (v_NoSSEHeader x) (range_config (scMaxEachPostBytes x)) (range_config (scMinPostsInterval x)) (scMaxBufferedPosts x)
    (range_config (scStreamUpServer x)) (xmux_settings x) (v_UplinkHTTPMethod x).

(** The stream with the settings of the transport. *)
Definition transport_stream (v : V2Ray) : result StreamSettings :=
  let stream xhttp tcp kcp ws http grpc quic :=
    Ok (mkStreamSettings (v_Net v) "" None None xhttp None tcp kcp ws http grpc quic None None None) in
  let net := ToLower (v_Net v) in
  if String.eqb net "grpc" then stream None None None None None (Some (grpc_settings v)) None
  else if String.eqb net "ws" then stream None None None (Some (ws_settings v)) None None None
  else if one_of net ["mkcp"; "kcp"] then stream None None (Some (kcp_settings v)) None None None None
  else if String.eqb net "tcp" then stream None (tcp_settings v) None None None None None
  else if one_of net ["h2"; "http"] then stream None None None None (Some (h2_settings v)) None None
  else if String.eqb net "quic" then
    stream None None None None None None (Some (mkQuicSettings (v_Type v) (v_Key v) (v_QuicSecurity v)))
  else if String.eqb net "xhttp" then stream (Some (xhttp_settings v)) None None None None None None
  else Err (Errorf "unexpected transport type: %v" [FStr (v_Net v)]).

(** ** Security *)

Definition tls_settings (v : V2Ray) (pins fingerprint : string) : TLSSettings :=
  let name := if nonempty (v_SNI v) then Some (v_SNI v) else if nonempty (v_Host v) then Some (v_Host v) else None in
  let alpn := if String.eqb (v_Alpn v) "" then [] else map TrimSpace (Split_byte "," (v_Alpn v)) in
  mkTLSSettings name alpn pins (v_VerifyPeerCertByName v) [] fingerprint.

Definition set_security (security : string) (tls xtls : option TLSSettings) (reality : option RealitySettings) (s : StreamSettings) : StreamSettings :=
  mkStreamSettings (ss_Network s) security tls xtls (ss_XHTTPSettings s) reality (ss_TCPSettings s) (ss_KcpSettings s)
    (ss_WsSettings s) (HTTPSettings s) (ss_GrpcSettings s) (ss_QuicSettings s) (ss_HysteriaSettings s) (ss_FinalMask s) (ss_Sockopt s).

Definition secured (v : V2Ray) (s : StreamSettings) : result StreamSettings :=
  let security := ToLower (v_TLS v) in
  if String.eqb security "tls" then
    let? pins := PinnedPeerCertSha256Hex (v_PinnedPeerCertSha256 v) in
    Ok (set_security "tls" (Some (tls_settings v pins (v_Fingerprint v))) None None s)
  else if String.eqb security "xtls" then
    let? pins := PinnedPeerCertSha256Hex (v_PinnedPeerCertSha256 v) in
    Ok (set_security "xtls" None (Some (tls_settings v pins "")) None s)
  else if String.eqb security "reality" then
    Ok (set_security "reality" None None
          (Some (mkRealitySettings (v_SNI v) (v_Fingerprint v) false (v_PublicKey v) (v_ShortId v) (v_SpiderX v))) s)
  else Ok s.

(** ** The outbound *)

(** An identifier that is not a UUID is a name of one. *)
Definition user_id (id : string) : string :=
  if (s_len id <? 32)%nat || (36 <? s_len id)%nat then StringToUUID5 id else id.

Definition v2ray_user (v : V2Ray) : User :=
  if String.eqb (ToLower (v_Protocol v)) "vmess"
  then mkUser (user_id (v_ID v)) (int_or_zero (v_Aid v)) "" (v_Flow v) (or_else (v_Security v) "auto") 0
  else mkUser (user_id (v_ID v)) 0 "none" (v_Flow v) "" 0.

(** The assignments to the node on the way: the transport [raw] is [tcp], and a
    gRPC service has a name. *)
Definition raw_is_tcp (v : V2Ray) : V2Ray := if String.eqb (ToLower (v_Net v)) "raw" then set_Net "tcp" v else v.
Definition service_named (v : V2Ray) : V2Ray :=
  if String.eqb (ToLower (v_Net v)) "grpc" && String.eqb (v_Path v) "" then set_Path "GunService" v else v.

Definition V2Ray_Configuration (v : V2Ray) (info : PriorInfo) : V2Ray * result Configuration :=
  if one_of (ToLower (v_Protocol v)) ["vmess"; "vless"] then
    let v := raw_is_tcp v in
    if String.eqb (ToLower (v_Protocol v)) "vmess" && negb IsDatetimeSynced then
      (v, Err (Errorf "please sync datetime first. Your datetime is %v, and the correct datetime is %v" []))
    else
      let v := service_named v in
      let vnext := mkVnext (v_Add v) (atoi_value (v_Port v)) [v2ray_user v] in
      (v, let? s := transport_stream v in
          let? s := secured v s in
          Ok (main_outbound (pi_Tag info) (v_Protocol v) (with_vnext [vnext]) (Some s) true))
  else (v, Ok (main_outbound (pi_Tag info) (v_Protocol v) new_Settings None true)).

End V2RayConfig.
