(* ===== verification/ShareNodes.v ===== *)
(** * Nodes of every protocol (service/kernel/serverObj/serverObj.go, service/server/service/resolve.go)

    The interface [ServerObj] as the sum of its implementations, the registers of
    the constructors, and the resolution of a link.  The instances say that these
    nodes are what the catalogue and the template are built on. *)

From stdpp Require Import gmap.
From S2P Require Import Prelude.
From S2P Require Import NetIP Text Codecs Iptables Store NodeRefs Configure CoreConfig ServerData.
From S2P Require Import Url ShareLinks V2RayLinks NodeConfig.

#[local] Open Scope Z_scope.
#[local] Open Scope go_scope.

(** ** The implementations *)

Inductive node :=
| NV2Ray (v : V2Ray)
| NShadowsocks (s : Shadowsocks)
| NShadowsocksR (s : ShadowsocksR)
| NTrojan (t : Trojan)
| NHTTP (h : Proxy)
| NSOCKS (h : Proxy)
| NTuic (s : Tuic)
| NWireGuard (s : WireGuard)
| NAnyTLS (s : Linked)
| NJuicity (s : Linked)
| NHysteria2 (s : Linked)
| NPlugin (p : Plugin).

(** Decoding the JSON of an outbound; a field without a JSON name stays empty. *)
Class OutboundJson := {
  json_outbound : string -> option OutboundObject;
  json_outbound_balancers s o : json_outbound s = Some o -> Balancers o = [];
}.

Section Nodes.
Context `{VJ : VmessJson} `{NT : Ntp} `{PM : PluginManager} `{OJ : OutboundJson}.

Definition export_node (o : node) : string :=
  match o with
  | NV2Ray v => V2Ray_ExportToURL v
  | NShadowsocks s => Shadowsocks_ExportToURL s
  | NShadowsocksR s => ShadowsocksR_ExportToURL s
  | NTrojan t => Trojan_ExportToURL t
  | NHTTP h => HTTP_ExportToURL h
  | NSOCKS h => SOCKS_ExportToURL h
  | NTuic s => Tuic_ExportToURL s
  | NWireGuard s => WireGuard_ExportToURL s
  | NAnyTLS s | NJuicity s | NHysteria2 s => lk_Link s
  | NPlugin p => pg_Link p
  end.

Definition node_protocol (o : node) : string :=
  match o with
  | NV2Ray v => v_Protocol v
  | NShadowsocks s => ss_Protocol s
  | NShadowsocksR s => ssr_Protocol s
  | NTrojan t => tr_Protocol t
  | NHTTP h | NSOCKS h => px_Protocol h
  | NTuic s => tu_Protocol s
  | NWireGuard s => wg_Protocol s
  | NAnyTLS s | NJuicity s | NHysteria2 s => lk_Protocol s
  | NPlugin p => pg_ProtocolToShow p
  end.

Definition node_host (o : node) : string :=
  match o with
  | NV2Ray v => v_Add v
  | NShadowsocks s => ss_Server s
  | NShadowsocksR s => ssr_Server s
  | NTrojan t => tr_Server t
  | NHTTP h | NSOCKS h => px_Server h
  | NTuic s => tu_Server s
  | NWireGuard s => wg_Server s
  | NAnyTLS s | NJuicity s | NHysteria2 s => lk_Server s
  | NPlugin p => pg_Host p
  end.

Definition node_port (o : node) : Z :=
  match o with
  | NV2Ray v => atoi_value (v_Port v)
  | NShadowsocks s => ss_Port s
  | NShadowsocksR s => ssr_Port s
  | NTrojan t => tr_Port t
  | NHTTP h | NSOCKS h => px_Port h
  | NTuic s => tu_Port s
  | NWireGuard s => wg_Port s
  | NAnyTLS s | NJuicity s | NHysteria2 s => lk_Port s
  | NPlugin p => atoi_value (pg_Port p)
  end.

Definition node_name (o : node) : string :=
  match o with
  | NV2Ray v => v_Ps v
  | NShadowsocks s => ss_Name s
  | NShadowsocksR s => ssr_Name s
  | NTrojan t => tr_Name t
  | NHTTP h | NSOCKS h => px_Name h
  | NTuic s => tu_Name s
  | NWireGuard s => wg_Name s
  | NAnyTLS s | NJuicity s | NHysteria2 s => lk_Name s
  | NPlugin p => pg_Name p
  end.

Definition set_linked_name (n : string) (s : Linked) : Linked := mkLinked n (lk_Server s) (lk_Port s) (lk_Protocol s) (lk_Link s).
Definition set_proxy_name (n : string) (h : Proxy) : Proxy :=
  mkProxy n (px_Server h) (px_Port h) (px_Username h) (px_Password h) (px_Protocol h).

Definition set_node_name (n : string) (o : node) : node :=
  match o with
  | NV2Ray v => NV2Ray (set_Ps n v)
  | NShadowsocks s => NShadowsocks (mkShadowsocks n (ss_Server s) (ss_Port s) (ss_Password s) (ss_Cipher s) (ss_Plugin s) (ss_Protocol s) (ss_Backend s))
  | NShadowsocksR s => NShadowsocksR (mkShadowsocksR n (ssr_Server s) (ssr_Port s) (ssr_Password s) (ssr_Cipher s) (ssr_Proto s) (ssr_ProtoParam s) (ssr_Obfs s) (ssr_ObfsParam s) (ssr_Protocol s))
  | NTrojan t => NTrojan (mkTrojan n (tr_Server t) (tr_Port t) (tr_Password t) (tr_Sni t) (tr_Type t) (tr_Encryption t) (tr_Host t) (tr_Path t) (tr_ServiceName t) (tr_Alpn t) (tr_PinnedPeerCertSha256 t) (tr_VerifyPeerCertByName t) (tr_Protocol t) (tr_Backend t))
  | NHTTP h => NHTTP (set_proxy_name n h)
  | NSOCKS h => NSOCKS (set_proxy_name n h)
  | NTuic s => NTuic (mkTuic n (tu_Server s) (tu_Port s) (tu_UUID s) (tu_Password s) (tu_Sni s) (tu_DisableSni s) (tu_Alpn s) (tu_CongestionControl s) (tu_UdpRelayMode s) (tu_PinnedPeerCertSha256 s) (tu_VerifyPeerCertByName s) (tu_Protocol s))
  | NWireGuard s => NWireGuard (mkWireGuard n (wg_Server s) (wg_Port s) (wg_PublicKey s) (wg_SecretKey s) (wg_Address s) (wg_PrivateKey s) (wg_PreSharedKey s) (wg_AllowedIPs s) (wg_KeepAlive s) (wg_Workers s) (wg_Mtu s) (wg_Reserved s) (wg_KernelMode s) (wg_Protocol s))
  | NAnyTLS s => NAnyTLS (set_linked_name n s)
  | NJuicity s => NJuicity (set_linked_name n s)
  | NHysteria2 s => NHysteria2 (set_linked_name n s)
  | NPlugin p => NPlugin (mkPlugin n (pg_Host p) (pg_Port p) (pg_ProtocolToShow p) (pg_Link p) (pg_Protocol p))
  end.

(** The types that are a [BackendGetter]. *)
Definition node_backend (o : node) : option string :=
  match o with
  | NShadowsocks s => Some (ss_Backend s)
  | NTrojan t => Some (tr_Backend t)
  | _ => None
  end.

Definition NeedPluginPort (o : node) : bool := match o with NPlugin _ => true | _ => false end.

Definition ProtoToShow (o : node) : string :=
  match o with
  | NV2Ray v => V2Ray_ProtoToShow v
  | NShadowsocks s => Shadowsocks_ProtoToShow s
  | NShadowsocksR s => "SSR (unsupported)"
  | NTrojan t => Trojan_ProtoToShow t
  | NHTTP h | NSOCKS h => px_Protocol h
  | NTuic s => "tuic"
  | NWireGuard s => "WireGuard"
  | NAnyTLS s => "anytls"
  | NJuicity s => "Juicity"
  | NHysteria2 s => "hysteria2"
  | NPlugin p => pg_ProtocolToShow p +:+ "(plugin)"
  end.

Definition Plugin_Configuration (p : Plugin) (info : PriorInfo) : result Configuration :=
  fail_if String.eqb pm_path "" with ErrUnsupportedPlugin in
  let '(out, err) := pm_configuration (pg_Link p) (pi_PluginPort info) in
  let sOut := TrimSpace out in
  match err with
  | Some e => Err (Wrapf "[PluginManager] Error when Configuration: %w: %v" [FStr sOut] e)
  | None =>
    match json_outbound sOut with
    | None => Err (Errorf "[PluginManager] Error when Configuration: failed to parse json output" [])
    | Some core =>
      Ok (mkConfiguration
            (mkOutboundObject (pi_Tag info) (out_Protocol core) (SendThrough core) (out_Settings core) (out_StreamSettings core)
               (out_ProxySettings core) (out_Mux core) (Balancers core)) [] "" true (pg_Link p))
    end
  end.

Definition configure_node (o : node) (info : PriorInfo) : result Configuration :=
  match o with
  | NV2Ray v => snd (V2Ray_Configuration v info)
  | NShadowsocks s => Shadowsocks_Configuration s info
  | NShadowsocksR s => ShadowsocksR_Configuration s info
  | NTrojan t => Trojan_Configuration t info
  | NHTTP h => HTTP_Configuration h info
  | NSOCKS h => SOCKS_Configuration h info
  | NTuic s => Tuic_Configuration s info
  | NWireGuard s => WireGuard_Configuration s info
  | NAnyTLS s => AnyTLS_Configuration s info
  | NJuicity s => Juicity_Configuration s info
  | NHysteria2 s => Hysteria2_Configuration s info
  | NPlugin p => Plugin_Configuration p info
  end.

(** ** Registers *)

Definition fmap_result {A B} (f : A -> B) (r : result A) : result B :=
  match r with Ok a => Ok (f a) | Err e => Err e end.

Definition new_Plugin : node := NPlugin (mkPlugin "" "" "" "" "" "").

Definition unsupported_scheme (name : string) : error :=
  Errorf "%q links are not supported; supported schemes: vmess, vless, ss, trojan, trojan-go, socks5, http, https, http-proxy, https-proxy, hysteria2, hy2, tuic, juicity, anytls, wireguard" [FStr name].

(** [fromLinkCreators] *)
Definition from_link (name : string) : option (string -> result node) :=
  if one_of name ["vmess"; "vless"] then Some (fun l => fmap_result NV2Ray (NewV2Ray l))
  else if one_of name ["shadowsocks"; "ss"] then Some (fun l => fmap_result NShadowsocks (ParseSSURL l))
  else if one_of name ["trojan"; "trojan-go"] then Some (fun l => fmap_result NTrojan (ParseTrojanURL l))
  else if one_of name ["http"; "https"; "http-proxy"; "https-proxy"] then Some (fun l => fmap_result NHTTP (ParseHttpURL l))
  else if String.eqb name "socks5" then Some (fun l => fmap_result NSOCKS (ParseSocksURL l))
  else if String.eqb name "tuic" then Some (fun l => fmap_result NTuic (ParseTuicURL l))
  else if String.eqb name "wireguard" then Some (fun l => fmap_result NWireGuard (ParseWireGuardURL l))
  else if String.eqb name "anytls" then Some (fun l => fmap_result NAnyTLS (ParseAnyTLSURL l))
  else if String.eqb name "juicity" then Some (fun l => fmap_result NJuicity (ParseJuicityURL l))
  else if one_of name ["hysteria2"; "hy2"] then Some (fun l => fmap_result NHysteria2 (ParseHysteria2URL l))
  else if String.eqb name PluginManagerScheme then Some (fun l => fmap_result NPlugin (NewPlugin l))
  else None.

(** [emptyCreators] *)
Definition empty_node (name : string) : option node :=
  if one_of name ["vmess"; "vless"] then
    Some (NV2Ray (mkV2Ray "" "" "" "" "" "" "" "" "" "" "" "" "" "" "" "" "" "" "" "" "" "" no_xhttp "" "" "" "" "" "" "" "" ""))
  else if one_of name ["shadowsocks"; "ss"] then Some (NShadowsocks (mkShadowsocks "" "" 0 "" "" (mkSip003 "" no_opts) "" ""))
  else if one_of name ["shadowsocksr"; "ssr"] then Some (NShadowsocksR (mkShadowsocksR "" "" 0 "" "" "" "" "" "" ""))
  else if one_of name ["trojan"; "trojan-go"] then Some (NTrojan (mkTrojan "" "" 0 "" "" "" "" "" "" "" "" "" "" "" ""))
  else if one_of name ["http"; "https"; "http-proxy"; "https-proxy"] then Some (NHTTP (mkProxy "" "" 0 "" "" ""))
  else if String.eqb name "socks5" then Some (NSOCKS (mkProxy "" "" 0 "" "" ""))
  else if String.eqb name "tuic" then Some (NTuic (mkTuic "" "" 0 "" "" "" false "" "" "" "" "" ""))
  else if String.eqb name "wireguard" then Some (NWireGuard (mkWireGuard "" "" 0 "" "" "" "" "" "" 0 0 0 "" false ""))
  else if String.eqb name "anytls" then Some (NAnyTLS (mkLinked "" "" 0 "" ""))
  else if String.eqb name "juicity" then Some (NJuicity (mkLinked "" "" 0 "" ""))
  else if one_of name ["hysteria2"; "hy2"] then Some (NHysteria2 (mkLinked "" "" 0 "" ""))
  else if String.eqb name PluginManagerScheme then Some new_Plugin
  else None.

Definition New (name : string) : result node :=
  match empty_node name with
  | Some o => Ok o
  | None => if nonempty pm_path then Ok new_Plugin else Err (unsupported_scheme name)
  end.

(** [errors.As(err, &coded)] *)
Fixpoint is_coded (e : error) : bool :=
  match e with
  | Wrapf f _ inner => HasPrefix f "coded " || is_coded inner
  | _ => false
  end.

Definition NewFromLink (name link : string) : result node :=
  fail_if one_of name ["ssr"; "shadowsocksr"]
  with Coded "LINK_UNSUPPORTED_SCHEME" [FStr name] (Errorf "%s" [FStr ssrUnsupported]) in
  match from_link name with
  | Some creator =>
    match creator link with
    | Ok obj => Ok obj
    | Err err => Err (if is_coded err then err else Coded "LINK_MALFORMED" [FStr name] err)
    end
  | None =>
    if nonempty pm_path then fmap_result NPlugin (NewPlugin link)
    else Err (Coded "LINK_UNSUPPORTED_SCHEME" [FStr name] (unsupported_scheme name))
  end.

(** ** Resolving a link *)

Definition EmptyAddressErr : error := Coded "LINK_EMPTY" [] (Errorf "link is empty" []).
Definition InvalidURLErr : error :=
  Coded "LINK_NO_SCHEME" [] (Errorf "link has no scheme; expected vmess://..., ss://..., trojan://..., or a subscription URL starting with http(s)://" []).

Definition ResolveURL (u : string) : result node :=
  let u := TrimSpace u in
  fail_if String.eqb u "" with EmptyAddressErr in
  match url_Parse (TrimSpace u) with
  | Err err => Err (Wrapf "link is not a valid URL: %w" [] err)
  | Ok U =>
    fail_if String.eqb (Scheme U) "" with InvalidURLErr in
    NewFromLink (Scheme U) u
  end.

(** The copy of a node that is probed; none for a plugin's node. *)
Definition cloneProbeNode (server : node) : option node :=
  match server with
  | NPlugin _ => None
  | _ => match ResolveURL (export_node server) with Ok clone => Some clone | Err _ => None end
  end.

(** ** What the other components rely on *)

#[export] Instance share_objects : ServerObjs := {
  ServerObj := node;
  ExportToURL := export_node;
  GetProtocol := node_protocol;
  GetHostname := node_host;
  GetPort := node_port;
  GetName := node_name;
  serverObj_New := New;
}.

#[export] Instance share_nodes : Nodes := {
  SetName := set_node_name;
  GetBackend := node_backend;
  node_configuration := configure_node;
}.

Definition tag_kept (info : PriorInfo) (c : Configuration) : Prop :=
  out_Tag (CoreOutbound c) = pi_Tag info /\ Balancers (CoreOutbound c) = [] /\ ExtraOutbounds c = [].

Lemma main_tag info protocol settings stream udp : tag_kept info (main_outbound (pi_Tag info) protocol settings stream udp).
Proof. done. Qed.

Lemma configured_tag o info c : configure_node o info = Ok c -> tag_kept info c.
Proof.
  destruct o as [v|s|s|t|h|h|s|s|s|s|s|p]; cbn [configure_node].
  - unfold V2Ray_Configuration. destruct (one_of _ _); [|by intros [= <-]]. destruct (_ && _); [done|]. cbn [snd].
    destruct (transport_stream _); [|done]. destruct (secured _ _); [|done]. by intros [= <-].
  - unfold Shadowsocks_Configuration, Shadowsocks_ConfigurationMT.
    match goal with |- context [match ?r with Ok _ => _ | Err _ => _ end] => destruct r as [[stream mux]|] end; [|done]. by intros [= <-].
  - done.
  - unfold Trojan_Configuration, Trojan_ConfigurationMC. destruct (PinnedPeerCertSha256Hex _); [|done]. by intros [= <-].
  - by intros [= <-].
  - by intros [= <-].
  - by intros [= <-].
  - by intros [= <-].
  - unfold AnyTLS_Configuration. destruct (url_Parse _); [|done]. by intros [= <-].
  - unfold Juicity_Configuration. destruct (url_Parse _); [|done]. by intros [= <-].
  - unfold Hysteria2_Configuration. destruct (PinnedPeerCertSha256Hex _); [|done]. by intros [= <-].
  - unfold Plugin_Configuration. destruct (String.eqb _ _); [done|]. destruct (pm_configuration _ _) as [out [e|]]; [done|].
    destruct (json_outbound _) as [core|] eqn:E; [|done]. intros [= <-]. split; [done|]. split; [|done].
    exact (json_outbound_balancers _ _ E).
Qed.

#[export] Instance share_laws : NodeLaws.
Proof.
  split.
  - by intros n [].
  - by intros n [].
  - intros o info c H. by apply configured_tag in H as (? & _).
  - intros o info c H. apply configured_tag in H as (_ & Hb & He). split; [done|]. by rewrite He.
Qed.

End Nodes.
