(* ===== verification/ShareProps.v ===== *)
(** * Nodes survive being shared

    The link of a node is resolved to a node of the same kind, [shared]; when the
    link says all that matters, the copy asks the core for the same outbound. *)

From stdpp Require Import gmap.
From S2P Require Import Prelude.
From S2P Require Import NetIP Text Codecs Iptables Store NodeRefs Configure CoreConfig ServerData.
From S2P Require Import Url UrlProps ShareLinks ShareLinkProps V2RayLinks.
From S2P Require Import NodeConfig ShareNodes.

#[local] Open Scope Z_scope.

(** ** Resolving what was exported *)

Lemma unescape_path s : lacks "%" s -> unescape encodePath s = Some s.
Proof.
  induction s as [|a s IH]; [done|]. cbn [has_byte]. intros [Ha Hs]%orb_false_iff. cbn [unescape]. rewrite (IH Hs).
  apply Ascii.eqb_neq in Ha. destruct a as [[] [] [] [] [] [] [] []]; by (done || exfalso; apply Ha).
Qed.

Lemma unescape_plain_host s : free_of (shouldEscape encodeHost) s = true -> lacks ":" s -> lacks "[" s -> parse_host s = Some s.
Proof. intros H Hc Hb. unfold parse_host. rewrite last_index_none, cut_lacking by done. by apply unescape_plain. Qed.

Definition vmess_special (a : Ascii.ascii) : bool := has_byte a "#?%@:[ " || control a || is_space a || (shouldEscape encodeHost a && negb (Ascii.eqb a "/")).

Lemma base64_plain s : free_of vmess_special (Encode StdAlphabet false s) = true.
Proof. apply encode_raw_free. intros [[] [] [] [] [] []]; reflexivity. Qed.

(** A VMess link is a URL, whatever it means as one. *)
Lemma vmess_is_url s : exists u, url_Parse ("vmess://" +:+ Encode StdAlphabet false s) = Ok u /\ Scheme u = "vmess"%string.
Proof.
  set (e := Encode StdAlphabet false s). pose proof (base64_plain s) as He. fold e in He. clearbody e.
  assert (Hl : forall c, vmess_special c = true -> lacks c e) by (intros c Hc; by apply (free_lacks vmess_special)).
  assert (Hp : exists host path, parse_rest "vmess" ("//" +:+ e) = Some (mkURL "vmess" "" None host path "" "")).
  { unfold parse_rest. rewrite cut_lacking by (rewrite lacks_app; split; [done|by apply Hl]). cbn [from_option id].
    assert (HasPrefix ("//" +:+ e) "/" = true) as -> by (apply HasPrefix_spec; by exists ("/" +:+ e)). cbn [negb andb].
    change (nonempty "vmess") with true. rewrite (proj2 (HasPrefix_spec ("//" +:+ e) "//")) by by eexists. cbn [orb andb].
    rewrite TrimPrefix_app.
    assert (Hauth : forall a, free_of vmess_special a = true -> lacks "/" a -> parseAuthority a = Some (None, a)).
    { intros a Ha Hs. assert (Hla : forall c, vmess_special c = true -> lacks c a) by (intros c Hc; by apply (free_lacks vmess_special)).
      unfold parseAuthority. rewrite cut_last_none by by apply Hla. rewrite unescape_plain_host; [done| |by apply Hla..].
      clear -Ha Hs. induction a as [|b a IH]; [done|]. cbn [free_of has_byte] in *. apply andb_true_iff in Ha as [Hb Ha].
      apply orb_false_iff in Hs as [Hsb Hs]. rewrite IH by done. rewrite andb_true_r. revert Hb Hsb. clear. revert b. all_bytes. }
    destruct (Cut e "/") as [[a p]|] eqn:E.
    - assert (Hap : e = a +:+ String "/" p /\ lacks "/" a).
      { clear -E. revert a E. induction e as [|b e IH]; intros a E; [done|]. cbn [Cut] in E. rewrite prefix_byte in E.
        destruct (Ascii.eqb_spec b "/") as [->|Hb].
        - injection E as <- <-. split; [|done]. change (String "/" e) with ("/" +:+ e). by rewrite (TrimPrefix_app "/" e).
        - destruct (Cut e "/") as [[x y]|]; [|done]. injection E as <- <-. destruct (IH x eq_refl) as [-> Hx]. split; [done|].
          cbn [has_byte]. by rewrite (proj2 (Ascii.eqb_neq _ _)). }
      destruct Hap as [Heq Ha]. rewrite Heq, free_of_app in He. apply andb_true_iff in He as [He1 He2].
      exists a, ("/" +:+ p)%string. rewrite Hauth by done. cbn [mbind option_bind]. rewrite unescape_path; [done|].
      specialize (Hl "%"%char eq_refl). rewrite Heq in Hl. by apply lacks_app in Hl as [_ Hl].
    - exists e, EmptyString. rewrite Hauth; [done|done|]. clear -E. induction e as [|b e IH]; [done|]. cbn [Cut] in E. rewrite prefix_byte in E.
      cbn [has_byte]. destruct (Ascii.eqb b "/"); [done|]. apply IH. by destruct (Cut e "/") as [[]|]. }
  destruct Hp as (host & path & Hp). exists (mkURL "vmess" "" None host path "" ""). split; [|done].
  unfold url_Parse. rewrite cut_lacking by (rewrite lacks_app; split; [done|by apply Hl]). cbn [from_option id].
  assert (parse_url ("vmess://" +:+ e) = Some (mkURL "vmess" "" None host path "" "")) as ->; [|done]. unfold parse_url.
  assert (free_of control ("vmess://" +:+ e) = true) as ->.
  { rewrite free_of_app. apply andb_true_iff. split; [done|]. eapply free_of_mono; [|exact He]. all_bytes. }
  cbn [negb]. change (String.eqb ("vmess://" +:+ e) "*") with false. cbv iota.
  change ("vmess://" +:+ e) with ("vmess" +:+ String ":" ("//" +:+ e)). rewrite get_scheme by done. exact Hp.
Qed.

(** ** Identifiers and pins *)

Lemma be_bytes_length n x : length (be_bytes n x) = n.
Proof. revert x. induction n as [|n IH]; intros x; [done|]. cbn [be_bytes]. rewrite length_app, IH. cbn. lia. Qed.

Lemma hex_bytes_length l : s_len (hex_bytes l) = (2 * length l)%nat.
Proof.
  induction l as [|x l IH]; [done|]. change (hex_bytes (x :: l)) with (hex_byte x +:+ hex_bytes l). rewrite s_len_app, IH. cbn. lia.
Qed.

Lemma uuid_length str : s_len (StringToUUID5 str) = 36%nat.
Proof.
  assert (Hu : length (uuid_bytes str) = 16%nat).
  { unfold uuid_bytes. rewrite !length_insert, length_take. unfold sha1_sum. cbn [map concat]. rewrite !length_app, !be_bytes_length. done. }
  unfold StringToUUID5. rewrite !s_len_app, !hex_bytes_length, !length_take, !length_drop, Hu. done.
Qed.

Lemma user_id_length id : (32 <= s_len (user_id id) <= 36)%nat.
Proof.
  unfold user_id. destruct (Nat.ltb_spec (s_len id) 32); [cbn [orb]; rewrite uuid_length; lia|].
  destruct (Nat.ltb_spec 36 (s_len id)); cbn [orb]; [rewrite uuid_length|]; lia.
Qed.

Definition is_byte (x : Z) : Prop := 0 <= x < 256.

(** A claim about a nibble is checked on the sixteen of them. *)
Lemma each_nibble (P : Z -> Prop) n : Forall P (seqZ 0 16) -> 0 <= n < 16 -> P n.
Proof. rewrite Forall_forall. intros H Hn. apply H, elem_of_seqZ. lia. Qed.

Lemma nibble_back n : 0 <= n < 16 -> hex_value (code (lower_hex (Z.to_nat n))) = Some n.
Proof. apply (each_nibble (fun n => hex_value (code (lower_hex (Z.to_nat n))) = Some n)). by repeat constructor. Qed.

Lemma byte_nibbles x : is_byte x -> 0 <= Z.shiftr x 4 < 16 /\ 0 <= Z.land x 15 < 16 /\ Z.shiftr x 4 * 16 + Z.land x 15 = x.
Proof.
  unfold is_byte. intros H. rewrite Z.shiftr_div_pow2 by lia. change 15 with (Z.ones 4). rewrite Z.land_ones by lia. change (2 ^ 4) with 16.
  pose proof (Z.div_mod x 16 ltac:(lia)). pose proof (Z.mod_pos_bound x 16 ltac:(lia)). lia.
Qed.

Lemma hex_back raw : Forall is_byte raw -> hex_decode (codes (hex_bytes raw)) = Some raw.
Proof.
  induction raw as [|x raw IH]; [done|]. intros [Hx Hr]%Forall_cons. destruct (byte_nibbles x Hx) as (Hh & Hl & Hs).
  change (hex_bytes (x :: raw)) with (hex_byte x +:+ hex_bytes raw). unfold hex_byte. rewrite !s_app_cons, s_app_nil. cbn [codes hex_decode].
  rewrite !nibble_back by done. cbn [mbind option_bind]. rewrite IH by done. cbn [mbind option_bind]. by rewrite Hs.
Qed.

Definition lower_hex_char (a : Ascii.ascii) : bool := between 48 (Ascii.nat_of_ascii a) 57 || between 97 (Ascii.nat_of_ascii a) 102.

Lemma nibble_char n : 0 <= n < 16 -> lower_hex_char (lower_hex (Z.to_nat n)) = true.
Proof. apply (each_nibble (fun n => lower_hex_char (lower_hex (Z.to_nat n)) = true)). by repeat constructor. Qed.

Lemma hex_chars raw : Forall is_byte raw -> free_of (fun a => negb (lower_hex_char a)) (hex_bytes raw) = true.
Proof.
  induction raw as [|x raw IH]; [done|]. intros [Hx Hr]%Forall_cons. destruct (byte_nibbles x Hx) as (Hh & Hl & _).
  change (hex_bytes (x :: raw)) with (hex_byte x +:+ hex_bytes raw). rewrite free_of_app, IH by done. unfold hex_byte. cbn [free_of].
  by rewrite !nibble_char by done.
Qed.

Lemma codes_bytes s : Forall is_byte (codes s).
Proof.
  induction s as [|a s IH]; [done|]. cbn [codes]. constructor; [|done]. unfold is_byte, code.
  assert (Ascii.nat_of_ascii a < 256)%nat by apply Ascii.nat_ascii_bounded. lia.
Qed.

Lemma hex_value_range c v : hex_value c = Some v -> 0 <= v < 16.
Proof.
  unfold hex_value, is_digit. destruct (Z.leb_spec 48 c), (Z.leb_spec c 57); cbn [andb]; try (intros [= <-]; lia);
    destruct (Z.leb_spec 97 c), (Z.leb_spec c 102); cbn [andb]; try (intros [= <-]; lia);
    destruct (Z.leb_spec 65 c), (Z.leb_spec c 70); cbn [andb]; try (intros [= <-]; lia); done.
Qed.

Lemma hex_decode_bytes l raw : hex_decode l = Some raw -> Forall is_byte raw.
Proof.
  revert l raw. fix IH 1. intros [|a [|b l]] raw; [intros [= <-]; constructor|done|]. cbn [hex_decode].
  destruct (hex_value a) as [x|] eqn:Ea; [|done]. destruct (hex_value b) as [y|] eqn:Eb; [|done]. cbn [mbind option_bind].
  destruct (hex_decode l) as [r|] eqn:El; [|done]. intros [= <-]. apply hex_value_range in Ea, Eb. constructor; [unfold is_byte; lia|].
  exact (IH l r El).
Qed.

Lemma pin_bytes_ok part raw : pin_bytes part = Some raw -> length raw = 32%nat /\ Forall is_byte raw.
Proof.
  assert (Hl : forall l r, of_length_32 l = Some r -> r = l /\ length r = 32%nat).
  { intros l r. unfold of_length_32. destruct (Nat.eqb_spec (length l) 32); [|done]. by intros [= <-]. }
  assert (Hb : forall al pad r, (x ← Decode al pad part; of_length_32 (codes x)) = Some r -> length r = 32%nat /\ Forall is_byte r).
  { intros al pad r. destruct (Decode al pad part) as [x|]; [|done]. cbn [mbind option_bind]. intros [-> H]%Hl. split; [done|apply codes_bytes]. }
  unfold pin_bytes. destruct (x ← hex_decode (codes part); of_length_32 x) as [r|] eqn:E.
  { intros [= <-]. destruct (hex_decode (codes part)) as [x|] eqn:Ex; [|done]. apply Hl in E as [-> H]. split; [done|]. by eapply hex_decode_bytes. }
  destruct (x ← Decode StdAlphabet true part; _) as [r|] eqn:E1; [intros [= <-]; by eapply Hb|].
  destruct (x ← Decode StdAlphabet false part; _) as [r|] eqn:E2; [intros [= <-]; by eapply Hb|].
  destruct (x ← Decode URLAlphabet true part; _) as [r|] eqn:E3; [intros [= <-]; by eapply Hb|]. apply Hb.
Qed.

Lemma pin_loop_spec pin parts out : pin_loop pin parts = Ok out ->
  exists raws, out = map hex_bytes raws /\ Forall (fun r => length r = 32%nat /\ Forall is_byte r) raws /\
    Forall2 (fun part raw => pin_bytes part = Some raw) (List.filter nonempty (map pin_part parts)) raws.
Proof.
  revert out. induction parts as [|part parts IH]; intros out; cbn [pin_loop map List.filter].
  { intros [= <-]. by exists []. }
  unfold nonempty at 1. destruct (String.eqb (pin_part part) ""); [apply IH|]. cbn [negb].
  destruct (pin_bytes (pin_part part)) as [raw|] eqn:E; [|done]. destruct (pin_loop pin parts) as [o|]; [|done]. intros [= <-].
  destruct (IH o eq_refl) as (raws & -> & H1 & H2). exists (raw :: raws). split; [done|]. split; constructor; try done. by eapply pin_bytes_ok.
Qed.

(** A pin in normal form is left alone. *)
Lemma pin_part_hex raw : length raw = 32%nat -> Forall is_byte raw -> pin_part (hex_bytes raw) = hex_bytes raw /\
  pin_bytes (hex_bytes raw) = Some raw /\ nonempty (hex_bytes raw) = true.
Proof.
  intros Hl Hb. pose proof (hex_chars raw Hb) as Hc.
  assert (Ht : TrimSpace (hex_bytes raw) = hex_bytes raw) by (apply trim_free; eapply free_of_mono; [|exact Hc]; all_bytes).
  assert (Hcol : lacks ":" (hex_bytes raw)) by (eapply free_lacks; [|exact Hc]; done).
  assert (Hp : forall pre, has_byte ":" pre = true -> TrimPrefix (hex_bytes raw) pre = hex_bytes raw).
  { intros pre Hpre. unfold TrimPrefix. destruct (HasPrefix (hex_bytes raw) pre) eqn:E; [|done]. apply HasPrefix_spec in E as [t E].
    rewrite E, has_byte_app, Hpre in Hcol. done. }
  split; [|split].
  - unfold pin_part. rewrite Ht, !Hp by done.
    assert (ReplaceAll (hex_bytes raw) ":" "" = hex_bytes raw) as ->; [|done].
    clear -Hcol. induction (hex_bytes raw) as [|a s IH]; [done|]. cbn [has_byte] in Hcol. apply orb_false_iff in Hcol as [Ha Hs].
    rewrite ReplaceAll_miss by by rewrite prefix_byte. by rewrite IH.
  - unfold pin_bytes. rewrite hex_back by done. cbn [mbind option_bind]. unfold of_length_32. by rewrite Hl.
  - pose proof (hex_bytes_length raw) as H. destruct (hex_bytes raw); [cbn in H; lia|done].
Qed.

Lemma join_free p sep l : free_of p sep = true -> Forall (fun s => free_of p s = true) l -> free_of p (Join sep l) = true.
Proof.
  intros Hs H. induction l as [|x l IH]; [done|]. apply Forall_cons in H as [Hx Hl]. destruct l as [|y l]; [done|].
  change (Join sep (x :: y :: l)) with (x +:+ sep +:+ Join sep (y :: l)). by rewrite !free_of_app, Hx, Hs, IH.
Qed.

(** C23. When certificate pins are accepted, every one that is
    not blank was decoded to a SHA-256 value in one of the five encodings, and comes
    out as its 64 lower-case hexadecimal characters, in order; what comes out is
    accepted again unchanged. *)
Theorem pins_are_normalized pin out : PinnedPeerCertSha256Hex pin = Ok out ->
  (exists pins, out = Join "," pins /\
     Forall2 (fun part h => exists raw, pin_bytes part = Some raw /\ length raw = 32%nat /\ h = hex_bytes raw /\
         s_len h = 64%nat /\ free_of (fun a => negb (lower_hex_char a)) h = true)
       (List.filter nonempty (map pin_part (Split_byte "," (TrimSpace pin)))) pins) /\
  PinnedPeerCertSha256Hex out = Ok out.
Proof.
  unfold PinnedPeerCertSha256Hex at 1. destruct (String.eqb_spec (TrimSpace pin) "") as [E|_].
  { intros [= <-]. split; [|done]. exists []. rewrite E. split; [done|constructor]. }
  destruct (pin_loop _ _) as [o|] eqn:E; [|done]. intros [= <-]. destruct (pin_loop_spec _ _ _ E) as (raws & -> & Hr & H2). split.
  - exists (map hex_bytes raws). split; [done|]. apply Forall2_fmap_r, Forall2_same_length_lookup.
    split; [by eapply Forall2_length|]. intros i part raw Hi Hj. destruct (proj1 (Forall_lookup _ _) Hr _ _ Hj) as [Hl Hb].
    exists raw. cbv beta. rewrite hex_bytes_length, Hl. split; [exact (Forall2_lookup_lr _ _ _ _ _ _ H2 Hi Hj)|]. split; [done|]. split; [done|]. split; [done|by apply hex_chars].
  - unfold PinnedPeerCertSha256Hex. set (l := map hex_bytes raws).
    assert (Hc : free_of (fun a => negb (lower_hex_char a) && negb (Ascii.eqb a ",")) (Join "," l) = true).
    { apply join_free; [done|]. apply Forall_fmap. eapply Forall_impl; [exact Hr|]. intros r [_ Hb]. cbn. eapply free_of_mono; [|by apply hex_chars]. all_bytes. }
    rewrite trim_free by (eapply free_of_mono; [|exact Hc]; all_bytes).
    destruct (String.eqb_spec (Join "," l) "") as [E0|E0]; [by rewrite E0|]. assert (Hne : l <> []) by by (intros Hn; rewrite Hn in E0).
    rewrite split_byte_join; [|done|].
    + assert (Hloop : forall q rs, Forall (fun r => length r = 32%nat /\ Forall is_byte r) rs -> pin_loop q (map hex_bytes rs) = Ok (map hex_bytes rs)).
      { intros q rs. induction rs as [|r rs IH]; [done|]. intros [[Hl Hb] Hrs]%Forall_cons. destruct (pin_part_hex r Hl Hb) as (H3 & H4 & H5).
        cbn [map pin_loop]. rewrite H3. unfold nonempty in H5. apply negb_true_iff in H5. rewrite H5, H4, IH by done. done. }
      unfold l. by rewrite Hloop.
    + apply Forall_fmap. eapply Forall_impl; [exact Hr|]. intros r [_ Hb]. cbn. eapply free_lacks; [|by apply hex_chars]. done.
Qed.

Section Share.
Context `{VJ : VmessJson} `{VL : !VmessLaws VJ} `{NT : Ntp} `{PM : PluginManager} `{OJ : OutboundJson}.

(** ** Nodes that can be shared *)

(** A node that keeps its link was made from it, and may have been renamed since. *)
Definition shared_linked (s : Linked) : Linked :=
  match url_Parse (lk_Link s) with Ok u => set_linked_name (Fragment u) s | Err _ => s end.

Definition linked_ok (parse : string -> result Linked) (schemes : list string) (s : Linked) : Prop :=
  (exists made name, parse (lk_Link s) = Ok made /\ s = set_linked_name name made) /\ TrimSpace (lk_Link s) = lk_Link s /\
  exists u, url_Parse (lk_Link s) = Ok u /\ one_of (Scheme u) schemes = true.

Definition share_ok (o : node) : Prop :=
  match o with
  | NV2Ray v => v_Protocol v = "vless"%string /\ vless_ok v = true \/ v_Protocol v = "vmess"%string /\ vmess_ok v = true
  | NShadowsocks s => ss_ok s = true
  | NTrojan t => host_ok (tr_Server t) = true /\ port_ok (tr_Port t) = true /\ tr_Password t <> ""
  | NHTTP h => one_of (px_Protocol h) ["http"; "https"] = true /\ host_ok (px_Server h) = true /\ px_Server h <> "" /\
               port_ok (px_Port h) = true /\ px_Port h <> 0
  | NSOCKS h => px_Protocol h = "socks5"%string /\ host_ok (px_Server h) = true /\ px_Server h <> "" /\
                port_ok (px_Port h) = true /\ px_Port h <> 0
  | NTuic s => host_ok (tu_Server s) = true /\ port_ok (tu_Port s) = true
  | NWireGuard s => host_ok (wg_Server s) = true /\ port_ok (wg_Port s) = true /\
                    wg_KeepAlive s <= MaxInt64 /\ wg_Workers s <= MaxInt64 /\ wg_Mtu s <= MaxInt64
  | NAnyTLS s => linked_ok ParseAnyTLSURL ["anytls"%string] s
  | NJuicity s => linked_ok ParseJuicityURL ["juicity"%string] s
  | NHysteria2 s => linked_ok ParseHysteria2URL ["hysteria2"; "hy2"]%string s
  | NShadowsocksR _ | NPlugin _ => False
  end.

(** What the node is after it was shared. *)
Definition shared (o : node) : node :=
  match o with
  | NV2Ray v => NV2Ray (if String.eqb (v_Protocol v) "vless" then shared_vless v else shared_vmess v)
  | NShadowsocks s => NShadowsocks (shared_ss s)
  | NTrojan t => NTrojan (shared_trojan t)
  | NHTTP h => NHTTP (shared_proxy h)
  | NSOCKS h => NSOCKS (shared_proxy h)
  | NTuic s => NTuic (shared_tuic s)
  | NWireGuard s => NWireGuard (shared_wireguard s)
  | NAnyTLS s => NAnyTLS (shared_linked s)
  | NJuicity s => NJuicity (shared_linked s)
  | NHysteria2 s => NHysteria2 (shared_linked s)
  | o => o
  end.

(** The link is trimmed to itself, has a scheme, and its creator makes [o]. *)
Lemma resolve_link link u creator o : TrimSpace link = link -> url_Parse link = Ok u -> Scheme u <> "" ->
  from_link (Scheme u) = Some creator -> one_of (Scheme u) ["ssr"; "shadowsocksr"] = false -> creator link = Ok o ->
  ResolveURL link = Ok o.
Proof.
  intros Ht Hu Hs Hc Hr Ho. unfold ResolveURL. rewrite !Ht. destruct (String.eqb_spec link "") as [->|_].
  { injection Hu as <-. done. }
  rewrite Hu, (proj2 (String.eqb_neq _ _)) by done. unfold NewFromLink. by rewrite Hr, Hc, Ho.
Qed.

Lemma trim_built scheme user host q f : scheme_ok scheme = true ->
  TrimSpace (url_String scheme user host (Encode_query q) f) = url_String scheme user host (Encode_query q) f.
Proof. intros Hs. apply trim_free, built_spaces; [done|]. apply encoded_free. all_bytes. Qed.

(** The scheme of a built link. *)
Lemma resolve_built scheme user server port q f creator o : scheme_ok scheme = true -> host_ok server = true -> port_digits port = true ->
  from_link scheme = Some creator -> one_of scheme ["ssr"; "shadowsocksr"] = false ->
  creator (url_String scheme user (JoinHostPort server port) (Encode_query q) f) = Ok o ->
  ResolveURL (url_String scheme user (JoinHostPort server port) (Encode_query q) f) = Ok o.
Proof.
  intros Hs Hh Hp Hc Hr Ho. eapply resolve_link; [by apply trim_built|apply parse_built; [done..|apply encoded_free; all_bytes]| | | |done]; [|done..].
  cbn [Scheme]. by intros ->.
Qed.

Lemma resolve_linked parse schemes s (f : Linked -> node) : linked_ok parse schemes s ->
  (forall scheme, one_of scheme schemes = true -> scheme <> "" /\ one_of scheme ["ssr"; "shadowsocksr"] = false /\
     from_link scheme = Some (fun l => fmap_result f (parse l))) ->
  (forall l made, parse l = Ok made -> exists u, url_Parse l = Ok u /\ lk_Name made = Fragment u) ->
  ResolveURL (lk_Link s) = Ok (f (shared_linked s)).
Proof.
  intros ((made & name & Hp & Hm) & Ht & u & Hu & Hs) Hf Hn. destruct (Hf _ Hs) as (He & Hr & Hc). eapply resolve_link; [done..|exact Hc|done|].
  cbv beta. rewrite Hp. destruct (Hn _ _ Hp) as (u' & Hu' & Hname). unfold shared_linked. rewrite Hu'. cbn. do 2 f_equal. rewrite <-Hname, Hm. by destruct made.
Qed.

Lemma linked_names l made : ParseAnyTLSURL l = Ok made \/ ParseJuicityURL l = Ok made \/ ParseHysteria2URL l = Ok made ->
  exists u, url_Parse l = Ok u /\ lk_Name made = Fragment u.
Proof.
  unfold ParseAnyTLSURL, ParseJuicityURL, ParseHysteria2URL, parse_link.
  destruct (url_Parse l) as [u|]; [|by intros [|[|]]]. intros H. exists u. split; [done|].
  destruct H as [H|[H|H]]; repeat (case_match; simplify_eq/=; try done).
Qed.

Lemma one_of_cases (P : string -> Prop) s l : one_of s l = true -> Forall P l -> P s.
Proof. intros (x & Hx & ->%String.eqb_eq)%existsb_exists. rewrite Forall_forall. intros H. apply H. by apply list_elem_of_In. Qed.

Lemma vless_resolves v : v_Protocol v = "vless"%string -> vless_ok v = true -> ResolveURL (V2Ray_ExportToURL v) = Ok (NV2Ray (shared_vless v)).
Proof.
  intros Hp Hv. unfold V2Ray_ExportToURL. rewrite Hp. assert (Hv' := Hv). unfold vless_ok in Hv'. rewrite !andb_true_iff in Hv'.
  destruct Hv' as [[[[[Hh Hd] _] _] _] _]. assert (Hl : exists r, vless_ExportToURL v = "vless://" +:+ r).
  { unfold vless_ExportToURL. rewrite url_string_eq by done. eexists. by rewrite <-!s_app_assoc. }
  cbn [String.eqb Ascii.eqb Bool.eqb]. eapply resolve_built; [done|done|done|done|done|]. cbv beta.
  change (url_String _ _ _ _ _) with (vless_ExportToURL v). unfold NewV2Ray. destruct Hl as [r Hl].
  assert (HasPrefix (vless_ExportToURL v) "vmess://" = false) as -> by by rewrite Hl.
  assert (HasPrefix (vless_ExportToURL v) "vless://" = true) as -> by (apply HasPrefix_spec; by exists r). by rewrite vless_round_trip.
Qed.

Lemma vmess_resolves v : v_Protocol v = "vmess"%string -> vmess_ok v = true -> ResolveURL (V2Ray_ExportToURL v) = Ok (NV2Ray (shared_vmess v)).
Proof.
  intros Hp Hv. unfold V2Ray_ExportToURL. rewrite Hp. cbn [String.eqb Ascii.eqb Bool.eqb].
  destruct (vmess_is_url (v2ray_json (set_V "2" v))) as (u & Hu & Hs).
  eapply resolve_link; [|exact Hu|by rewrite Hs|rewrite Hs; reflexivity|by rewrite Hs|].
  - apply trim_free. rewrite free_of_app. apply andb_true_iff. split; [done|]. eapply free_of_mono; [|apply base64_plain]. all_bytes.
  - cbv beta. unfold NewV2Ray. rewrite (proj2 (HasPrefix_spec _ "vmess://")) by by eexists. by rewrite vmess_round_trip.
Qed.

Lemma ss_resolves s : ss_ok s = true -> ResolveURL (Shadowsocks_ExportToURL s) = Ok (NShadowsocks (shared_ss s)).
Proof.
  intros H. pose proof (ss_round_trips s H) as Hr. unfold ss_ok in H. rewrite !andb_true_iff in H. destruct H as [[[Hh Hp] _] _].
  unfold Shadowsocks_ExportToURL, host_and_port in *. eapply resolve_built; [done|done|by apply dec_digits|done|done|]. cbv beta. by rewrite Hr.
Qed.

Lemma trojan_resolves t : host_ok (tr_Server t) = true -> port_ok (tr_Port t) = true -> tr_Password t <> "" ->
  ResolveURL (Trojan_ExportToURL t) = Ok (NTrojan (shared_trojan t)).
Proof.
  intros Hh Hp Hw. pose proof (trojan_round_trip t Hh Hp Hw) as Hr. unfold Trojan_ExportToURL, host_and_port in *.
  destruct (String.eqb (tr_Protocol t) "trojan-go"); (eapply resolve_built; [done|done|by apply dec_digits|done|done|]); cbv beta; by rewrite Hr.
Qed.

Lemma http_resolves h : one_of (px_Protocol h) ["http"; "https"] = true -> host_ok (px_Server h) = true -> px_Server h <> "" ->
  port_ok (px_Port h) = true -> px_Port h <> 0 -> ResolveURL (HTTP_ExportToURL h) = Ok (NHTTP (shared_proxy h)).
Proof.
  intros Hs Hh He Hp H0. pose proof (http_round_trip h Hs Hh He Hp H0) as Hr.
  assert (Hc : px_Protocol h = "http"%string \/ px_Protocol h = "https"%string).
  { apply existsb_exists in Hs as (x & Hx & ->%String.eqb_eq). destruct Hx as [<-|[<-|[]]]; auto. }
  unfold HTTP_ExportToURL, host_and_port in *. change EmptyString with (Encode_query []) in Hr |- *.
  destruct Hc as [Hc|Hc]; rewrite Hc in Hr |- *; (eapply resolve_built; [done|done|by apply dec_digits|done|done|]); cbv beta; by rewrite Hr.
Qed.

Lemma socks_resolves h : px_Protocol h = "socks5"%string -> host_ok (px_Server h) = true -> px_Server h <> "" ->
  port_ok (px_Port h) = true -> px_Port h <> 0 -> ResolveURL (SOCKS_ExportToURL h) = Ok (NSOCKS (shared_proxy h)).
Proof.
  intros Hs Hh He Hp H0. pose proof (socks_round_trip h Hs Hh He Hp H0) as Hr.
  unfold SOCKS_ExportToURL, host_and_port in *. change EmptyString with (Encode_query []) in Hr |- *. rewrite Hs in Hr |- *.
  eapply resolve_built; [done|done|by apply dec_digits|done|done|]. cbv beta. by rewrite Hr.
Qed.

Lemma tuic_resolves s : host_ok (tu_Server s) = true -> port_ok (tu_Port s) = true -> ResolveURL (Tuic_ExportToURL s) = Ok (NTuic (shared_tuic s)).
Proof.
  intros Hh Hp. pose proof (tuic_round_trip s Hh Hp) as Hr. unfold Tuic_ExportToURL, host_and_port in *.
  eapply resolve_built; [done|done|by apply dec_digits|done|done|]. cbv beta. by rewrite Hr.
Qed.

Lemma wireguard_resolves s : host_ok (wg_Server s) = true -> port_ok (wg_Port s) = true ->
  wg_KeepAlive s <= MaxInt64 -> wg_Workers s <= MaxInt64 -> wg_Mtu s <= MaxInt64 ->
  ResolveURL (WireGuard_ExportToURL s) = Ok (NWireGuard (shared_wireguard s)).
Proof.
  intros Hh Hp Hk Hw Hm. pose proof (wireguard_round_trip s Hh Hp Hk Hw Hm) as Hr. unfold WireGuard_ExportToURL, host_and_port in *.
  eapply resolve_built; [done|done|by apply dec_digits|done|done|]. cbv beta. by rewrite Hr.
Qed.

Lemma shared_resolves o : share_ok o -> ResolveURL (export_node o) = Ok (shared o).
Proof.
  destruct o as [v|s|s|t|h|h|s|s|s|s|s|p]; cbn [share_ok export_node shared]; [| |done| | | | | | | | |done].
  - intros [[Hp Hv]|[Hp Hv]]; [rewrite (vless_resolves v Hp Hv)|rewrite (vmess_resolves v Hp Hv)]; by rewrite Hp.
  - apply ss_resolves.
  - intros (? & ? & ?). by apply trojan_resolves.
  - intros (? & ? & ? & ? & ?). by apply http_resolves.
  - intros (? & ? & ? & ? & ?). by apply socks_resolves.
  - intros (? & ?). by apply tuic_resolves.
  - intros (? & ? & ? & ? & ?). by apply wireguard_resolves.
  - intros H. apply (resolve_linked _ _ _ NAnyTLS H); [|intros; apply linked_names; auto]. intros scheme Hs. pattern scheme. by apply (one_of_cases _ _ _ Hs); repeat constructor.
  - intros H. apply (resolve_linked _ _ _ NJuicity H); [|intros; apply linked_names; auto]. intros scheme Hs. pattern scheme. by apply (one_of_cases _ _ _ Hs); repeat constructor.
  - intros H. apply (resolve_linked _ _ _ NHysteria2 H); [|intros; apply linked_names; auto]. intros scheme Hs. pattern scheme. by apply (one_of_cases _ _ _ Hs); repeat constructor.
Qed.

(** ** When the link says all that matters *)

Definition hosted : list string := ["websocket"; "ws"; "http"; "h2"; "tcp"; "raw"; "xhttp"]%string.

(** The security is in lower case; a flow needs a security; a header type or a mode
    is there where it is used; a server name is said by the link. *)
Definition vless_lossless (v : V2Ray) : bool :=
  String.eqb (ToLower (v_TLS v)) (v_TLS v) && (negb (String.eqb (v_TLS v) "none") || String.eqb (v_Flow v) "") &&
  (negb (one_of (v_Net v) ["mkcp"; "kcp"; "quic"]) || nonempty (v_Type v)) &&
  (negb (String.eqb (v_Net v) "xhttp") || nonempty (XHTTPMode (v_XHTTP v))) &&
  (nonempty (v_SNI v) || one_of (v_Net v) hosted || String.eqb (v_Host v) "").

(** The host is not a path in the wrong field. *)
Definition vmess_lossless (v : V2Ray) : bool := negb (HasPrefix (v_Host v) "/" && String.eqb (v_Path v) "").

Definition lossless (o : node) : Prop :=
  match o with
  | NV2Ray v => if String.eqb (v_Protocol v) "vless" then vless_lossless v = true else vmess_lossless v = true
  | NTrojan t => tr_Alpn t = "" /\ tr_Sni t <> ""
  | NHTTP h | NSOCKS h => px_Username h = "" \/ px_Password h <> ""
  | NWireGuard s => 0 <= wg_KeepAlive s
  | _ => True
  end.

Definition effective (v : V2Ray) : V2Ray := service_named (raw_is_tcp v).

Lemma secured_effective v s : secured (effective v) s = secured v s.
Proof. unfold effective, service_named, raw_is_tcp. by repeat (case_match; try done). Qed.

Lemma user_effective v : v2ray_user (effective v) = v2ray_user v /\ v_Add (effective v) = v_Add v /\ v_Port (effective v) = v_Port v /\
  v_Protocol (effective v) = v_Protocol v.
Proof. unfold effective, service_named, raw_is_tcp. by repeat (case_match; try done). Qed.

Lemma on_host v : v_Host (shared_vless v) = on (one_of (v_Net v) hosted) (v_Host v).
Proof. unfold shared_vless, hosted. cbn [v_Host]. f_equal. unfold one_of, web_transports. cbn [existsb]. by rewrite !orb_false_r, !orb_assoc. Qed.

Lemma vless_secured v s : vless_lossless v = true -> secured (shared_vless v) s = secured v s.
Proof.
  unfold vless_lossless. rewrite !andb_true_iff. intros [[[[Hl%String.eqb_eq _] _] _] Hh].
  assert (Htls : v_TLS v <> "none"%string -> forall pins fp, tls_settings (shared_vless v) pins fp = tls_settings v pins fp).
  { intros Hn pins fp. unfold tls_settings. rewrite on_host. unfold shared_vless, on. cbn [v_SNI v_Alpn v_VerifyPeerCertByName].
    rewrite (proj2 (String.eqb_neq _ _)) by done. cbn [negb]. destruct (nonempty (v_SNI v)); [done|]. cbn [orb] in Hh.
    destruct (one_of (v_Net v) hosted); [done|]. cbn [orb] in Hh. apply String.eqb_eq in Hh. by rewrite Hh. }
  assert (Hsaid : v_TLS v <> "none"%string ->
    v_PinnedPeerCertSha256 (shared_vless v) = v_PinnedPeerCertSha256 v /\ v_Fingerprint (shared_vless v) = v_Fingerprint v).
  { intros Hn. unfold shared_vless. cbn [v_PinnedPeerCertSha256 v_Fingerprint]. by rewrite (proj2 (String.eqb_neq _ _) Hn). }
  unfold secured. change (v_TLS (shared_vless v)) with (or_else (v_TLS v) "none"). rewrite Hl.
  destruct (String.eqb_spec (v_TLS v) "") as [E|Hne]; [by rewrite E|]. unfold or_else. rewrite (proj2 (String.eqb_neq _ _) Hne), Hl.
  destruct (String.eqb_spec (v_TLS v) "tls") as [E|H1]; [|destruct (String.eqb_spec (v_TLS v) "xtls") as [E|H2]; [|destruct (String.eqb_spec (v_TLS v) "reality") as [E|H3]; [|done]]].
  - destruct (Hsaid ltac:(by rewrite E)) as [-> ->]. destruct (PinnedPeerCertSha256Hex _); [|done]. by rewrite Htls by by rewrite E.
  - destruct (Hsaid ltac:(by rewrite E)) as [-> _]. destruct (PinnedPeerCertSha256Hex _); [|done]. by rewrite Htls by by rewrite E.
  - unfold shared_vless. cbn [v_SNI v_Fingerprint v_PublicKey v_ShortId v_SpiderX]. rewrite E. done.
Qed.

Lemma none_or ty : (ToLower (or_else ty "none") =? "http")%string = (ToLower ty =? "http")%string.
Proof. unfold or_else. by destruct (String.eqb_spec ty "") as [->|]. Qed.

Lemma or_else_there a b : nonempty a = true -> or_else a b = a.
Proof. unfold or_else, nonempty. by destruct (String.eqb a ""). Qed.

Lemma shared_xhttp_there x : nonempty (XHTTPMode x) = true -> shared_xhttp x = x.
Proof. intros H. unfold shared_xhttp. rewrite or_else_there by done. by destruct x. Qed.

Lemma tcp_stream a b : v_Net a = "tcp"%string -> v_Net b = "tcp"%string -> v_Path a = v_Path b -> v_Host a = v_Host b ->
  (ToLower (v_Type a) =? "http")%string = (ToLower (v_Type b) =? "http")%string -> transport_stream a = transport_stream b.
Proof. intros Ha Hb Hp Hh Ht. unfold transport_stream, tcp_settings. by rewrite Ha, Hb, Hp, Hh, Ht. Qed.

Lemma vless_transport_same v : ToLower (v_Net v) = v_Net v -> vless_lossless v = true ->
  transport_stream (effective (shared_vless v)) = transport_stream (effective v).
Proof.
  unfold vless_lossless. rewrite !andb_true_iff. intros Hl [[[_ Ht] Hx] _].
  destruct v as [ps add port id aid sec net ty host sni path tls fp pk sid spx flow alpn pin vp key qs x med edh mm it ht pws iws vv pr].
  cbn [v_Net v_Type v_XHTTP] in *. unfold effective, raw_is_tcp. change (v_Net (shared_vless _)) with net. cbn [v_Net].
  destruct (String.eqb_spec (ToLower net) "raw") as [E|Hraw].
  { rewrite Hl in E. subst net. apply tcp_stream; try done. apply none_or. }
  unfold service_named. change (v_Net (shared_vless _)) with net. cbn [v_Net].
  destruct (String.eqb_spec (ToLower net) "grpc") as [E|Hgrpc].
  { rewrite Hl in E. subst net. cbn. by destruct (String.eqb path ""). }
  cbn [andb]. unfold transport_stream. change (v_Net (shared_vless _)) with net. cbn [v_Net].
  rewrite (proj2 (String.eqb_neq _ _)) by done. rewrite Hl in *. clear Hl Hraw.
  destruct (String.eqb_spec net "ws") as [->|Hws]; [done|].
  destruct (one_of net ["mkcp"; "kcp"]) eqn:Ek.
  { assert (nonempty ty = true). { unfold one_of in *. cbn [existsb] in *. by destruct (String.eqb net "mkcp"), (String.eqb net "kcp"). }
    unfold kcp_settings, shared_vless, on. cbn [v_Type v_Path v_Net]. rewrite Ek. cbn [orb]. rewrite orb_true_r. cbn [orb]. by rewrite or_else_there. }
  destruct (String.eqb_spec net "tcp") as [->|Htcp].
  { f_equal. f_equal. unfold tcp_settings. change (v_Type (shared_vless _)) with (or_else ty "none"). by rewrite none_or. }
  destruct (one_of net ["h2"; "http"]) eqn:Eh.
  { unfold h2_settings, shared_vless, on. cbn [v_Host v_Path v_Net].
    assert (one_of net web_transports = true) as ->; [|done]. pattern net. by apply (one_of_cases _ _ _ Eh); repeat constructor. }
  destruct (String.eqb_spec net "quic") as [->|Hq].
  { unfold shared_vless. cbn [v_Type v_Key v_QuicSecurity v_Net]. cbn [orb negb] in Ht. cbn. cbn in Ht. by rewrite or_else_there. }
  destruct (String.eqb_spec net "xhttp") as [->|Hxh]; [|done].
  cbn in Hx. unfold xhttp_settings. change (v_XHTTP (shared_vless _)) with (shared_xhttp x). by rewrite shared_xhttp_there.
Qed.

Lemma vless_configures v info : v_Protocol v = "vless"%string -> vless_ok v = true -> vless_lossless v = true ->
  snd (V2Ray_Configuration (shared_vless v) info) = snd (V2Ray_Configuration v info).
Proof.
  intros Hp Hok Hl. unfold vless_ok in Hok. rewrite !andb_true_iff in Hok. destruct Hok as [[[[[_ _] _] Hn%String.eqb_eq] _] _].
  pose proof (vless_transport_same v Hn Hl) as Ht. pose proof (fun s => vless_secured v s Hl) as Hs.
  assert (Hf : v_Flow (shared_vless v) = v_Flow v).
  { unfold vless_lossless in Hl. rewrite !andb_true_iff in Hl. destruct Hl as [[[[_ Hl] _] _] _]. cbn [shared_vless v_Flow]. unfold on.
    destruct (String.eqb (v_TLS v) "none"); [|done]. cbn [negb orb] in *. apply String.eqb_eq in Hl. by rewrite Hl. }
  unfold V2Ray_Configuration. change (v_Protocol (shared_vless v)) with "vless"%string. rewrite Hp.
  change (one_of (ToLower "vless") ["vmess"; "vless"]) with true. cbv iota zeta.
  assert (Hpr : forall w, v_Protocol w = "vless"%string -> v_Protocol (raw_is_tcp w) = "vless"%string) by (intros w Hw; unfold raw_is_tcp; by case_match).
  rewrite (Hpr v Hp), (Hpr (shared_vless v) eq_refl). change (String.eqb (ToLower "vless") "vmess") with false. cbn [andb snd].
  change (service_named (raw_is_tcp v)) with (effective v). change (service_named (raw_is_tcp (shared_vless v))) with (effective (shared_vless v)).
  rewrite Ht. destruct (transport_stream (effective v)); [|done]. rewrite !secured_effective, Hs. destruct (secured v a); [|done].
  destruct (user_effective v) as (-> & -> & -> & ->), (user_effective (shared_vless v)) as (-> & -> & -> & ->).
  unfold v2ray_user. rewrite Hf, Hp. done.
Qed.

Lemma vmess_same v : vmess_lossless v = true -> v_Protocol v = "vmess"%string ->
  shared_vmess v = reassign (v_Ps v) (or_else (v_Aid v) "0") (v_Net v) (v_Host v) (v_Path v) "2" (v_Protocol v) v.
Proof.
  unfold vmess_lossless. intros Hl%negb_true_iff Hp. unfold shared_vmess, correct_vmess. cbn [set_V reassign v_Host v_Path v_Ps v_Aid v_Net v_V].
  rewrite Hl, Hp. by destruct v.
Qed.

Lemma aid_or_zero aid : int_or_zero (or_else aid "0") = int_or_zero aid.
Proof. unfold or_else. by destruct (String.eqb_spec aid "") as [->|]. Qed.

Lemma vmess_configures v info : v_Protocol v = "vmess"%string -> vmess_lossless v = true ->
  snd (V2Ray_Configuration (shared_vmess v) info) = snd (V2Ray_Configuration v info).
Proof.
  intros Hp Hl. rewrite (vmess_same v Hl Hp). set (w := reassign _ _ _ _ _ _ _ v).
  assert (Hu : v2ray_user w = v2ray_user v).
  { unfold v2ray_user. change (v_Aid w) with (or_else (v_Aid v) "0"). rewrite aid_or_zero. done. }
  assert (Ht : transport_stream (effective w) = transport_stream (effective v)).
  { unfold effective, raw_is_tcp. change (v_Net w) with (v_Net v). destruct (String.eqb (ToLower (v_Net v)) "raw"); [done|].
    unfold service_named. change (v_Net w) with (v_Net v). change (v_Path w) with (v_Path v). by case_match. }
  unfold V2Ray_Configuration. change (v_Protocol w) with (v_Protocol v). destruct (one_of _ _); [|done].
  assert (Hpr : forall x, v_Protocol (raw_is_tcp x) = v_Protocol x) by (intros x; unfold raw_is_tcp; by case_match).
  rewrite !Hpr. change (v_Protocol w) with (v_Protocol v). destruct (_ && _); [done|]. cbn [snd].
  change (service_named (raw_is_tcp v)) with (effective v). change (service_named (raw_is_tcp w)) with (effective w).
  rewrite Ht. destruct (transport_stream (effective v)); [|done]. rewrite !secured_effective. change (secured w a) with (secured v a).
  destruct (secured v a); [|done]. destruct (user_effective v) as (-> & -> & -> & ->), (user_effective w) as (-> & -> & -> & ->). by rewrite Hu.
Qed.

Lemma trojan_configures t info : tr_Alpn t = "" -> tr_Sni t <> "" ->
  Trojan_Configuration (shared_trojan t) info = Trojan_Configuration t info.
Proof.
  intros Ha Hs. unfold Trojan_Configuration, Trojan_ConfigurationMC. cbn [shared_trojan tr_PinnedPeerCertSha256 tr_Alpn tr_Sni tr_VerifyPeerCertByName tr_Server tr_Port tr_Password].
  rewrite Ha. cbn [firstNonEmpty]. rewrite (proj2 (String.eqb_neq _ _)) by done. destruct (PinnedPeerCertSha256Hex _); [|done].
  cbn [main_outbound CoreOutbound ExtraOutbounds PluginChain PluginManagerServerLink]. do 4 f_equal.
  unfold trojan_stream. cbn [shared_trojan tr_Type tr_Path tr_Host tr_ServiceName]. unfold says_host, says_service, one_of. cbn [existsb].
  destruct (String.eqb (ToLower (tr_Type t)) "grpc"); [by rewrite orb_true_r|].
  destruct (String.eqb (ToLower (tr_Type t)) "ws"); [cbn [orb]; by rewrite !orb_true_r|].
  destruct (String.eqb (ToLower (tr_Type t)) "websocket"); [cbn [orb]; by rewrite !orb_true_r|]. done.
Qed.

Lemma proxy_server_same h : px_Username h = "" \/ px_Password h <> "" -> proxy_server (shared_proxy h) = proxy_server h.
Proof.
  intros H. unfold proxy_server, shared_proxy. cbn [px_Server px_Port px_Username px_Password]. unfold nonempty.
  destruct (String.eqb_spec (px_Username h) "") as [E|E]; cbn [negb andb]; [done|]. destruct H as [H|H]; [done|].
  rewrite (proj2 (String.eqb_neq (px_Password h) "") H). cbn [negb]. by rewrite (proj2 (String.eqb_neq _ _)).
Qed.

Lemma tuic_settings_same s : tuicSettings (shared_tuic s) = tuicSettings s.
Proof.
  unfold tuicSettings. cbn [shared_tuic tu_Server tu_Port tu_UUID tu_Password tu_Sni tu_DisableSni tu_Alpn tu_CongestionControl tu_UdpRelayMode
    tu_PinnedPeerCertSha256 tu_VerifyPeerCertByName].
  assert (H : ReplaceAll (alpn_or_h3 (tu_Alpn s)) " " "" = alpn_or_h3 (tu_Alpn s)).
  { apply no_spaces. unfold alpn_or_h3. destruct (String.eqb (ReplaceAll (tu_Alpn s) " " "") ""); [done|apply spaces_gone]. }
  rewrite H. unfold alpn_or_h3. by destruct (String.eqb_spec (ReplaceAll (tu_Alpn s) " " "") "") as [->|].
Qed.

Lemma wireguard_settings_same s : 0 <= wg_KeepAlive s -> wireguardSettings (shared_wireguard s) = wireguardSettings s.
Proof.
  intros H. unfold wireguardSettings, wg_reserved_ints. cbn [shared_wireguard wg_PrivateKey wg_Address wg_Workers wg_Mtu wg_Server wg_Port wg_PublicKey
    wg_PreSharedKey wg_AllowedIPs wg_KeepAlive wg_Reserved wg_KernelMode].
  assert (Hz : forall n, positive_or_zero (if 0 <? n then n else 0) = positive_or_zero n) by (intros n; unfold positive_or_zero; by destruct (Z.ltb_spec 0 n); [rewrite (proj2 (Z.ltb_lt _ _)) by lia|]).
  rewrite !Hz. assert ((if 0 <? wg_KeepAlive s then wg_KeepAlive s else 0) = wg_KeepAlive s) as -> by (destruct (Z.ltb_spec 0 (wg_KeepAlive s)); lia). done.
Qed.

Lemma linked_same s : lk_Link (shared_linked s) = lk_Link s /\ lk_Server (shared_linked s) = lk_Server s /\ lk_Port (shared_linked s) = lk_Port s.
Proof. unfold shared_linked. by destruct (url_Parse _). Qed.

Lemma linked_configures s info : AnyTLS_Configuration (shared_linked s) info = AnyTLS_Configuration s info /\
  Juicity_Configuration (shared_linked s) info = Juicity_Configuration s info /\
  Hysteria2_Configuration (shared_linked s) info = Hysteria2_Configuration s info.
Proof.
  destruct (linked_same s) as (H1 & H2 & H3). unfold AnyTLS_Configuration, Juicity_Configuration, Hysteria2_Configuration, parseLinkParams.
  by rewrite !H1, !H2, !H3.
Qed.

Lemma shared_configures o info : share_ok o -> lossless o -> configure_node (shared o) info = configure_node o info.
Proof.
  destruct o as [v|s|s|t|h|h|s|s|s|s|s|p]; cbn [share_ok lossless configure_node shared].
  - intros [[Hp Hv]|[Hp Hv]]; rewrite Hp; cbn [String.eqb Ascii.eqb Bool.eqb]; intros Hl; [by apply vless_configures|by apply vmess_configures].
  - intros _ _. reflexivity.
  - intros [].
  - intros _ [Ha Hs]. by apply trojan_configures.
  - intros _ H. unfold HTTP_Configuration. by rewrite proxy_server_same.
  - intros _ H. unfold SOCKS_Configuration. by rewrite proxy_server_same.
  - intros _ _. unfold Tuic_Configuration. by rewrite tuic_settings_same.
  - intros _ H. unfold WireGuard_Configuration. by rewrite wireguard_settings_same.
  - intros _ _. apply linked_configures.
  - intros _ _. apply linked_configures.
  - intros _ _. apply linked_configures.
  - intros [].
Qed.

Lemma shared_endpoint o : node_host (shared o) = node_host o /\ node_port (shared o) = node_port o.
Proof.
  destruct o as [v|s|s|t|h|h|s|s|s|s|s|p]; cbn [shared node_host node_port]; try done; try (destruct (linked_same s) as (_ & ? & ?); done).
  by destruct (String.eqb (v_Protocol v) "vless").
Qed.

(** ** The theorems *)

(** C5. The link a node exports is resolved to a node of the same
    kind with the fields the link says, for every protocol that can be shared:
    URLs, base64 and JSON are undone. *)
Theorem links_resolve o : share_ok o -> ResolveURL (export_node o) = Ok (shared o).
Proof. apply shared_resolves. Qed.

(** C22. The copy of a node that is probed goes to the same
    host and port and asks the core for the same outbound as the node itself, when
    its link says all that matters. *)
Theorem clone_asks_the_same o info : share_ok o -> lossless o ->
  exists clone, cloneProbeNode o = Some clone /\ node_host clone = node_host o /\ node_port clone = node_port o /\
                configure_node clone info = configure_node o info.
Proof.
  intros Hs Hl. exists (shared o). destruct (shared_endpoint o) as [Hh Hp]. split; [|split; [done|split; [done|by apply shared_configures]]].
  unfold cloneProbeNode. rewrite shared_resolves by done. by destruct o.
Qed.

(** The application protocols of a Trojan node are not in its link. *)
Theorem trojan_alpn_is_lost : exists t info clone, share_ok (NTrojan t) /\ cloneProbeNode (NTrojan t) = Some clone /\
  configure_node clone info <> configure_node (NTrojan t) info.
Proof.
  set (t := mkTrojan "a" "example.com" 443 "secret" "example.com" "" "" "" "" "" "h2" "" "" "trojan" "").
  assert (Hs : share_ok (NTrojan t)) by (split; [|split]; vm_compute; done).
  exists t, (mkPriorInfo "" "" "t" 0 ""), (shared (NTrojan t)). split; [done|]. split.
  - unfold cloneProbeNode. by rewrite shared_resolves by done.
  - vm_compute. discriminate.
Qed.

(** The outbound of a VMess or VLESS node has one server, the
    node's, and one user; its identifier is the node's when that has the length of
    a UUID, and otherwise the name-based UUID made from it: it always has 32 to 36
    bytes. *)
Theorem user_ids_have_uuid_length v info c : one_of (ToLower (v_Protocol v)) ["vmess"; "vless"] = true ->
  snd (V2Ray_Configuration v info) = Ok c ->
  exists u, se_Vnext (out_Settings (CoreOutbound c)) = [mkVnext (v_Add v) (atoi_value (v_Port v)) [u]] /\
    (32 <= s_len (us_ID u) <= 36)%nat /\ ((32 <= s_len (v_ID v) <= 36)%nat -> us_ID u = v_ID v).
Proof.
  intros Hp. unfold V2Ray_Configuration. rewrite Hp. destruct (_ && _); [done|]. cbn [snd].
  change (service_named (raw_is_tcp v)) with (effective v). destruct (transport_stream _); [|done]. destruct (secured _ _); [|done].
  intros [= <-]. destruct (user_effective v) as (-> & -> & -> & _). exists (v2ray_user v). split; [done|].
  assert (us_ID (v2ray_user v) = user_id (v_ID v)) as -> by (unfold v2ray_user; by case_match). split; [apply user_id_length|].
  intros H. unfold user_id. rewrite (proj2 (Nat.ltb_ge _ _)), (proj2 (Nat.ltb_ge _ _)) by lia. done.
Qed.

End Share.
