(* ===== verification/Clash.v ===== *)
(** * Clash configurations (service/kernel/serverObj/clash/clash.go)

    A proxy of a Clash configuration is turned into the share link of its type,
    which is then resolved.  Decoding YAML is the class [ClashYaml].  The theorem at
    the end: a supported proxy becomes the node it describes. *)

From stdpp Require Import gmap.
From S2P Require Import Prelude.
From S2P Require Import NetIP Text Codecs Iptables Store NodeRefs Configure CoreConfig ServerData.
From S2P Require Import Url UrlProps ShareLinks ShareLinkProps V2RayLinks NodeConfig ShareNodes.

#[local] Open Scope Z_scope.
#[local] Open Scope go_scope.

(** ** Proxies *)

Record clashPluginOpts := mkClashPluginOpts { po_Mode : string; po_Host : string; po_Path : string; po_TLS : bool }.
Record clashReality := mkClashReality { ro_PublicKey : string; ro_ShortID : string; ro_SpiderX : string }.

Record clashProxy := mkClashProxy {
  cp_Name : string;
  cp_Type : string;
  cp_Server : string;
  cp_Port : Z;
  cp_UUID : string;
  cp_Password : string;
  cp_Username : string;
  cp_Cipher : string;
  cp_AlterID : Z;
  cp_TLS : bool;
  cp_SNI : string;
  cp_ServerName : string;
  cp_ALPN : list string;
  cp_Fingerprint : string;
  cp_Network : string;
  cp_Flow : string;
  cp_Plugin : string;
  cp_PluginOpts : clashPluginOpts;
  cp_WSPath : string;
  cp_WSHeaders : gmap string string;
  cp_ServiceName : string;
  cp_H2Host : list string;
  cp_H2Path : string;
  cp_Reality : clashReality;
  cp_Obfs : string;
  cp_ObfsPassword : string;
  cp_CongestionController : string;
  cp_UDPRelayMode : string;
  cp_DisableSNI : bool;
}.

Section Clash.
Context `{VJ : VmessJson} `{PM : PluginManager}.

Definition hostPort (p : clashProxy) : string := host_and_port (cp_Server p) (cp_Port p).
Definition sni (p : clashProxy) : string := or_else (cp_SNI p) (cp_ServerName p).
Definition alpn (p : clashProxy) : string := Join "," (cp_ALPN p).
Definition ws_host (p : clashProxy) : string := default "" (cp_WSHeaders p !! "Host"%string).
Definition network (p : clashProxy) : string := or_else (cp_Network p) "tcp".

(** [transport] *)
Definition clash_transport (p : clashProxy) (q : list (string * string)) : list (string * string) :=
  let q := set "type" (network p) q in
  if String.eqb (network p) "ws" then set_values [("path", cp_WSPath p); ("host", ws_host p)] q
  else if String.eqb (network p) "grpc" then set_values [("serviceName", cp_ServiceName p)] q
  else if String.eqb (network p) "h2" then
    let q := set_values [("path", cp_H2Path p)] q in
    match cp_H2Host p with h :: _ => set "host" h q | [] => q end
  else q.

Definition buildLink (scheme : string) (user : option Userinfo) (host : string) (q : list (string * string)) (name : string) : string :=
  url_String scheme user host (Encode_query q) name.

Definition password_only (p : clashProxy) : option Userinfo := Some (mkUserinfo (cp_Password p) None).

Definition anytls_link (p : clashProxy) : string :=
  buildLink "anytls" (password_only p) (hostPort p) (set_values [("sni", sni p)] []) (cp_Name p).

Definition trojan_link (p : clashProxy) : string :=
  let q := set_values [("sni", sni p); ("alpn", alpn p)] [] in
  let q := if nonempty (cp_Network p) && negb (String.eqb (cp_Network p) "tcp") then clash_transport p q else q in
  buildLink "trojan" (password_only p) (hostPort p) q (cp_Name p).

Definition vless_link (p : clashProxy) : string :=
  let q := clash_transport p [] in
  let q := set_values [("flow", cp_Flow p); ("fp", cp_Fingerprint p); ("alpn", alpn p)] q in
  let r := cp_Reality p in
  let q := if nonempty (ro_PublicKey r) then
             set_values [("sid", ro_ShortID r); ("spx", ro_SpiderX r)] (set "pbk" (ro_PublicKey r) (set "security" "reality" q))
           else set "security" (if cp_TLS p then "tls" else "none") q in
  let q := set_values [("sni", sni p)] q in
  buildLink "vless" (Some (mkUserinfo (cp_UUID p) None)) (hostPort p) q (cp_Name p).

(** The object of a VMess link. *)
Definition vmess_info (p : clashProxy) : gmap string (jvalue float64) :=
  let '(path, host) :=
    if String.eqb (network p) "ws" then (cp_WSPath p, ws_host p)
    else if String.eqb (network p) "grpc" then (cp_ServiceName p, EmptyString)
    else if String.eqb (network p) "h2" then (cp_H2Path p, hd EmptyString (cp_H2Host p))
    else (EmptyString, EmptyString) in
  list_to_map (map (fun kv => (fst kv, JvString (snd kv)))
    [("v", "2"); ("ps", cp_Name p); ("add", cp_Server p); ("port", dec (cp_Port p)); ("id", cp_UUID p); ("aid", dec (cp_AlterID p));
     ("scy", cp_Cipher p); ("net", network p); ("type", "none"); ("host", host); ("path", path); ("tls", if cp_TLS p then "tls" else "");
     ("sni", sni p); ("alpn", alpn p); ("fingerprint", cp_Fingerprint p)]%string).

Definition vmess_link (p : clashProxy) : result string :=
  match map_json (vmess_info p) with
  | Some b => Ok ("vmess://" +:+ Encode StdAlphabet true b)
  | None => Err (ExtErr "jsoniter.Marshal")
  end.

(** The value of the parameter [plugin]. *)
Definition plugin_value (p : clashProxy) : result string :=
  let o := cp_PluginOpts p in
  if String.eqb (cp_Plugin p) "obfs" then
    Ok (Join ";" ("simple-obfs" :: opt_field "obfs=" (po_Mode o) ++ opt_field "obfs-host=" (po_Host o)))%list%string
  else if String.eqb (cp_Plugin p) "v2ray-plugin" then
    Ok (Join ";" (cp_Plugin p :: (if po_TLS o then ["tls"] else []) ++ opt_field "mode=" (po_Mode o) ++ opt_field "host=" (po_Host o) ++
                  opt_field "path=" (po_Path o)))%list%string
  else Err (Errorf "ss plugin %q not supported" [FStr (cp_Plugin p)]).

Definition ss_link (p : clashProxy) : result string :=
  let? q := if String.eqb (cp_Plugin p) "" then Ok [] else let? v := plugin_value p in Ok (set "plugin" v []) in
  Ok (buildLink "ss" (Some (mkUserinfo (raw_url (cp_Cipher p +:+ ":" +:+ cp_Password p)) None)) (hostPort p) q (cp_Name p)).

Definition hysteria2_link (p : clashProxy) : string :=
  buildLink "hysteria2" (password_only p) (hostPort p)
    (set_values [("sni", sni p); ("obfs", cp_Obfs p); ("obfs-password", cp_ObfsPassword p)] []) (cp_Name p).

Definition tuic_link (p : clashProxy) : string :=
  let q := set_values [("sni", sni p); ("congestion_control", cp_CongestionController p); ("udp_relay_mode", cp_UDPRelayMode p); ("alpn", alpn p)] [] in
  let q := if cp_DisableSNI p then set "disable_sni" "true" q else q in
  buildLink "tuic" (Some (mkUserinfo (cp_UUID p) (Some (cp_Password p)))) (hostPort p) q (cp_Name p).

Definition proxy_link (p : clashProxy) : string :=
  let user := if String.eqb (cp_Username p) "" then None else Some (mkUserinfo (cp_Username p) (Some (cp_Password p))) in
  let scheme := if String.eqb (cp_Type p) "http" then if cp_TLS p then "https-proxy" else "http-proxy" else "socks5" in
  buildLink scheme user (hostPort p) [] (cp_Name p).

(** The share link of a proxy, empty for a type without one. *)
Definition link (p : clashProxy) : result string :=
  fail_if String.eqb (cp_Server p) "" || (cp_Port p =? 0) with Errorf "missing server or port" [] in
  let t := cp_Type p in
  if String.eqb t "anytls" then Ok (anytls_link p)
  else if String.eqb t "trojan" then Ok (trojan_link p)
  else if String.eqb t "vless" then Ok (vless_link p)
  else if String.eqb t "vmess" then vmess_link p
  else if String.eqb t "ss" then ss_link p
  else if String.eqb t "ssr" then Err (Errorf "ShadowsocksR is not supported" [])
  else if String.eqb t "hysteria2" then Ok (hysteria2_link p)
  else if String.eqb t "tuic" then Ok (tuic_link p)
  else if one_of t ["socks5"; "http"] then Ok (proxy_link p)
  else Ok "".

(** ** Whole configurations *)

(** The node of a proxy; none when it cannot be made, with a warning. *)
Definition clash_node (p : clashProxy) : option node :=
  match link p with
  | Err _ => None
  | Ok l =>
    if String.eqb l "" then None
    else match NewFromLink (hd EmptyString (SplitN 2 "://" l)) l with Ok obj => Some obj | Err _ => None end
  end.

End Clash.

(** [yaml.Unmarshal] *)
Class ClashYaml := { yaml_proxies : string -> option (list clashProxy) }.

(** The nodes, whether the text is a Clash configuration, and the error. *)
Definition Resolve `{VJ : VmessJson} `{PM : PluginManager} `{CY : ClashYaml} (raw : string) : list node * bool * option error :=
  if negb (Contains raw "proxies:") then ([], false, None)
  else
    match yaml_proxies raw with
    | None | Some [] => ([], false, None)
    | Some proxies =>
      match omap clash_node proxies with
      | [] => ([], true, Some (Errorf "no supported proxy in the Clash config (%d entries)" [FInt (Z.of_nat (length proxies))]))
      | infos => (infos, true, None)
      end
    end.

(** ** Texts as JSON *)

(** The names under which the texts of a node are read. *)
Definition text_tags : list string :=
  ["ps"; "add"; "port"; "id"; "aid"; "scy"; "net"; "type"; "host"; "sni"; "path"; "tls"; "fingerprint"; "pbk"; "sid"; "spx"; "flow"; "alpn";
   "pinnedPeerCertSha256"; "verifyPeerCertByName"; "key"; "quicSecurity"; "xhttpMode"; "xhttpHeaders"; "uplinkHTTPMethod"; "maxEarlyData";
   "earlyDataHeaderName"; "multiMode"; "idleTimeout"; "healthCheckTimeout"; "permitWithoutStream"; "initialWindowsSize"; "v"; "protocol"]%string.

(** The node of these texts; what is not among them is empty. *)
Definition texts_node (q : list (string * string)) : V2Ray :=
  mkV2Ray (get "ps" q) (get "add" q) (get "port" q) (get "id" q) (get "aid" q) (get "scy" q) (get "net" q) (get "type" q) (get "host" q)
    (get "sni" q) (get "path" q) (get "tls" q) (get "fingerprint" q) (get "pbk" q) (get "sid" q) (get "spx" q) (get "flow" q) (get "alpn" q)
    (get "pinnedPeerCertSha256" q) (get "verifyPeerCertByName" q) (get "key" q) (get "quicSecurity" q)
    (mkXHTTPFields (get "xhttpMode" q) (get "xhttpHeaders" q) false false (get "uplinkHTTPMethod" q) (0, 0) (0, 0) 0 (0, 0) (0, 0) (0, 0) (0, 0)
       (0, 0) (0, 0) (0, 0) 0)
    (get "maxEarlyData" q) (get "earlyDataHeaderName" q) (get "multiMode" q) (get "idleTimeout" q) (get "healthCheckTimeout" q)
    (get "permitWithoutStream" q) (get "initialWindowsSize" q) (get "v" q) (get "protocol" q).

Definition text_object `{VJ : VmessJson} (q : list (string * string)) : gmap string (jvalue float64) :=
  list_to_map (map (fun kv => (fst kv, JvString (snd kv))) q).

(** What is relied on of the JSON library: an object of UTF-8 texts is printed,
    what is printed is read back, and it is read as the node with these texts in
    the fields of these names. *)
Class TextLaws `(VJ : VmessJson) : Prop := {
  texts_printed (q : list (string * string)) : NoDup (keys q) -> forallb ValidString (map snd q) = true ->
    Forall (fun k => k ∈ text_tags) (keys q) ->
    exists b, map_json (text_object q) = Some b /\ b <> EmptyString /\ json_map b = Some (text_object q) /\ json_v2ray b = Ok (texts_node q);
}.

(** ** What a proxy describes *)

Section ClashProps.
Context `{VJ : VmessJson} `{TL : !TextLaws VJ} `{PM : PluginManager}.

Definition clash_path (p : clashProxy) : string :=
  if String.eqb (network p) "ws" then cp_WSPath p else if String.eqb (network p) "h2" then cp_H2Path p else "".
Definition clash_host (p : clashProxy) : string :=
  if String.eqb (network p) "ws" then ws_host p else if String.eqb (network p) "h2" then hd EmptyString (cp_H2Host p) else "".
Definition clash_service (p : clashProxy) : string := if String.eqb (network p) "grpc" then cp_ServiceName p else "".

Definition carried (p : clashProxy) : bool := nonempty (cp_Network p) && negb (String.eqb (cp_Network p) "tcp").

Definition clash_trojan (p : clashProxy) : Trojan :=
  let c := carried p in
  mkTrojan (cp_Name p) (cp_Server p) (cp_Port p) (cp_Password p) (firstNonEmpty [sni p; cp_Server p]) (on c (cp_Network p)) ""
    (on c (clash_host p)) (on c (clash_path p)) (on c (clash_service p)) (alpn p) "" "" "trojan" "".

Definition clash_vless (p : clashProxy) : V2Ray :=
  let r := cp_Reality p in
  let reality := nonempty (ro_PublicKey r) in
  let security := if reality then "reality" else if cp_TLS p then "tls" else "none" in
  mkV2Ray (cp_Name p) (cp_Server p) (dec (cp_Port p)) (cp_UUID p) "" "" (network p) "none" (clash_host p) (sni p)
    (if String.eqb (network p) "grpc" then cp_ServiceName p else if one_of (network p) ["mkcp"; "kcp"] then "" else clash_path p)
    security (cp_Fingerprint p) (ro_PublicKey r) (on reality (ro_ShortID r)) (on reality (ro_SpiderX r)) (cp_Flow p) (alpn p) "" "" "" ""
    (if String.eqb (network p) "xhttp" then mkXHTTPFields "auto" "" false false "" (0, 0) (0, 0) 0 (0, 0) (0, 0) (0, 0) (0, 0) (0, 0) (0, 0) (0, 0) 0 else no_xhttp)
    "" "" "" "" "" "" "" (vless_link p) "vless".

Definition clash_tuic (p : clashProxy) : Tuic :=
  mkTuic (cp_Name p) (cp_Server p) (cp_Port p) (cp_UUID p) (cp_Password p) (sni p) (cp_DisableSNI p) (alpn_or_h3 (alpn p))
    (cp_CongestionController p) (cp_UDPRelayMode p) "" "" "tuic".

(** The plugin of a Shadowsocks proxy. *)
Definition clash_plugin (p : clashProxy) : Sip003 :=
  let o := cp_PluginOpts p in
  if String.eqb (cp_Plugin p) "obfs" then mkSip003 "simple-obfs" (mkSip003Opts "" (po_Mode o) (po_Host o) "" "")
  else if String.eqb (cp_Plugin p) "v2ray-plugin"
  then mkSip003 "v2ray-plugin" (mkSip003Opts (if po_TLS o then "tls" else "") (po_Mode o) (po_Host o) (po_Path o) "")
  else mkSip003 "" no_opts.

Definition clash_ss (p : clashProxy) : Shadowsocks :=
  mkShadowsocks (cp_Name p) (cp_Server p) (cp_Port p) (cp_Password p) (cp_Cipher p) (clash_plugin p) "shadowsocks" "".

Definition clash_proxy (p : clashProxy) (protocol : string) : Proxy :=
  mkProxy (cp_Name p) (cp_Server p) (cp_Port p) (cp_Username p) (if String.eqb (cp_Username p) "" then "" else cp_Password p) protocol.

(** The node of a VMess proxy.  A host that starts with a slash, without a path,
    is taken for the path. *)
Definition vmess_place (p : clashProxy) : string * string :=
  let path := if String.eqb (network p) "grpc" then cp_ServiceName p else clash_path p in
  if HasPrefix (clash_host p) "/" && String.eqb path "" then ("", clash_host p) else (clash_host p, path).

Definition clash_vmess (p : clashProxy) : V2Ray :=
  let '(host, path) := vmess_place p in
  mkV2Ray (cp_Name p) (cp_Server p) (dec (cp_Port p)) (cp_UUID p) (dec (cp_AlterID p)) (cp_Cipher p) (network p) "none" host (sni p) path
    (if cp_TLS p then "tls" else "") (cp_Fingerprint p) "" "" "" "" (alpn p) "" "" "" "" no_xhttp "" "" "" "" "" "" "" "2" "vmess".

(** The node of a protocol that keeps its link, whose link says the password, the
    server, the port, the name and the given parameters, and nothing else. *)
Definition link_says (p : clashProxy) (params : list (string * string)) (l : string) : Prop :=
  exists u, url_Parse l = Ok u /\ url_User u = Some (mkUserinfo (cp_Password p) None) /\ Hostname u = cp_Server p /\
    Port u = dec (cp_Port p) /\ Fragment u = cp_Name p /\ forall k, get k (Query u) = get k params.

Definition keeps_link (p : clashProxy) (protocol : string) (params : list (string * string)) (s : Linked) : Prop :=
  exists l, s = mkLinked (cp_Name p) (cp_Server p) (cp_Port p) protocol l /\ link_says p params l.

(** The node is the one the proxy describes. *)
Definition describes (p : clashProxy) (o : node) : Prop :=
  match o with
  | NTrojan t => cp_Type p = "trojan"%string /\ t = clash_trojan p
  | NV2Ray v => cp_Type p = "vless"%string /\ v = clash_vless p \/ cp_Type p = "vmess"%string /\ v = clash_vmess p
  | NShadowsocks s => cp_Type p = "ss"%string /\ s = clash_ss p
  | NTuic s => cp_Type p = "tuic"%string /\ s = clash_tuic p
  | NAnyTLS s => cp_Type p = "anytls"%string /\ keeps_link p "anytls" [("sni"%string, sni p)] s
  | NHysteria2 s => cp_Type p = "hysteria2"%string /\
      keeps_link p "hysteria2" [("sni", sni p); ("obfs", cp_Obfs p); ("obfs-password", cp_ObfsPassword p)]%string s
  | NHTTP s => cp_Type p = "http"%string /\ s = clash_proxy p (if cp_TLS p then "https" else "http")
  | NSOCKS s => cp_Type p = "socks5"%string /\ s = clash_proxy p "socks5"
  | _ => False
  end.

Definition supported_types : list string := ["anytls"; "trojan"; "vless"; "vmess"; "ss"; "hysteria2"; "tuic"; "socks5"; "http"]%string.

(** A proxy without a server or a port, of a type that is not supported, or with a
    plugin that is not. *)
Definition left_out (p : clashProxy) : bool :=
  String.eqb (cp_Server p) "" || (cp_Port p =? 0) || negb (one_of (cp_Type p) supported_types) ||
  (String.eqb (cp_Type p) "ss" && negb (one_of (cp_Plugin p) [""; "obfs"; "v2ray-plugin"])).

(** The texts of a VMess proxy. *)
Definition vmess_texts (p : clashProxy) : list (string * string) :=
  let path := if String.eqb (network p) "grpc" then cp_ServiceName p else clash_path p in
  [("v", "2"); ("ps", cp_Name p); ("add", cp_Server p); ("port", dec (cp_Port p)); ("id", cp_UUID p); ("aid", dec (cp_AlterID p));
   ("scy", cp_Cipher p); ("net", network p); ("type", "none"); ("host", clash_host p); ("path", path); ("tls", if cp_TLS p then "tls" else "");
   ("sni", sni p); ("alpn", alpn p); ("fingerprint", cp_Fingerprint p)]%string.

(** The server and the port are fit for a link, and so is what is special to a type. *)
Definition clash_ok (p : clashProxy) : bool :=
  host_ok (cp_Server p) && nonempty (cp_Server p) && port_ok (cp_Port p) && negb (cp_Port p =? 0) &&
  (negb (String.eqb (cp_Type p) "trojan") || nonempty (cp_Password p)) &&
  (negb (String.eqb (cp_Type p) "ss") ||
   (ssCipherSupported (cp_Cipher p) && sip_ok (clash_plugin p) && one_of (cp_Plugin p) [""; "obfs"; "v2ray-plugin"])) &&
  (negb (String.eqb (cp_Type p) "vmess") || forallb ValidString (map snd (vmess_texts p))).

Lemma transport_gets p q : get "path" q = "" -> get "host" q = "" -> get "serviceName" q = "" ->
  get "type" (clash_transport p q) = network p /\ get "path" (clash_transport p q) = clash_path p /\
  get "host" (clash_transport p q) = clash_host p /\ get "serviceName" (clash_transport p q) = clash_service p.
Proof.
  intros H1 H2 H3. unfold clash_transport, clash_path, clash_host, clash_service. generalize (network p) as n. intros n.
  destruct (String.eqb_spec n "ws") as [->|_]; [|destruct (String.eqb_spec n "grpc") as [->|_]; [|destruct (String.eqb_spec n "h2") as [->|_]]].
  - values. by rewrite H1, H2, H3, !kept_nil.
  - values. by rewrite H1, H2, H3, !kept_nil.
  - destruct (cp_H2Host p) as [|h hs]; values; by rewrite ?H1, ?H2, ?H3, ?kept_nil.
  - values. by rewrite H1, H2, H3.
Qed.

Lemma transport_other_get p q k : one_of k ["type"; "path"; "host"; "serviceName"] = false -> get k (clash_transport p q) = get k q.
Proof.
  unfold one_of. cbn [existsb]. rewrite !orb_false_iff. intros (H1 & H2 & H3 & H4 & _). unfold clash_transport.
  assert (Ht : forall v q, get k (set "type" v q) = get k q) by (intros; by rewrite get_set, H1).
  assert (Hh : forall v q, get k (set "host" v q) = get k q) by (intros; by rewrite get_set, H3).
  repeat case_match; rewrite ?Hh, ?get_set_values; cbn [last_value]; rewrite ?H2, ?H3, ?H4; apply Ht.
Qed.

Lemma transport_nodup p q : NoDup (keys q) -> NoDup (keys (clash_transport p q)).
Proof.
  intros H. unfold clash_transport. repeat case_match; repeat first [apply set_values_nodup|apply set_nodup]; done.
Qed.

Lemma trojan_imported p : clash_ok p = true -> cp_Type p = "trojan"%string -> ParseTrojanURL (trojan_link p) = Ok (clash_trojan p).
Proof.
  unfold clash_ok. rewrite !andb_true_iff. intros [[[[[[Hh _] Hp] _] Hw] _] _] Ht. rewrite Ht in Hw. cbn [String.eqb Ascii.eqb Bool.eqb negb orb] in Hw.
  unfold trojan_link, buildLink, hostPort, ParseTrojanURL, parse_link. fold (carried p).
  set (q := if carried p then clash_transport p _ else _).
  assert (Hq : NoDup (keys q)).
  { unfold q. destruct (carried p); [apply transport_nodup|]; apply set_values_nodup, NoDup_nil_2. }
  destruct (built_link "trojan" (password_only p) _ _ q (cp_Name p) eq_refl Hh Hp Hq) as (u & -> & [H1 H2 H3 H4 H5 _ _ Hg _]).
  unfold user_name. rewrite H2. unfold password_only. cbn [Username].
  destruct (String.eqb_spec (cp_Password p) "") as [E|_]; [by rewrite E in Hw|]. unfold link_port. rewrite H1, H3, H4, H5, Atoi_port by done.
  rewrite !Hg. change (String.eqb "trojan" "trojan-go") with false. cbv iota. unfold clash_trojan, on.
  unfold q. destruct (carried p) eqn:Ec.
  - set (q0 := set_values _ []). destruct (transport_gets p q0) as (-> & -> & -> & ->); [unfold q0; by values..|].
    rewrite !transport_other_get by done. unfold q0. values. unfold carried in Ec. apply andb_true_iff in Ec as [Ec _].
    unfold network, or_else. unfold nonempty in Ec. apply negb_true_iff in Ec. by rewrite Ec.
  - by values.
Qed.

(** The query of a VLESS link, and what it says. *)
Definition vless_values (p : clashProxy) : list (string * string) :=
  let r := cp_Reality p in
  let q := set_values [("flow", cp_Flow p); ("fp", cp_Fingerprint p); ("alpn", alpn p)]%string (clash_transport p []) in
  set_values [("sni", sni p)]%string
    (if nonempty (ro_PublicKey r) then
       set_values [("sid", ro_ShortID r); ("spx", ro_SpiderX r)]%string (set "pbk" (ro_PublicKey r) (set "security" "reality" q))
     else set "security" (if cp_TLS p then "tls" else "none") q).

Lemma vless_values_nodup p : NoDup (keys (vless_values p)).
Proof.
  unfold vless_values. apply set_values_nodup.
  assert (Hq : NoDup (keys (set_values [("flow", cp_Flow p); ("fp", cp_Fingerprint p); ("alpn", alpn p)]%string (clash_transport p []))))
    by (apply set_values_nodup, transport_nodup, NoDup_nil_2).
  destruct (nonempty _); [apply set_values_nodup, set_nodup, set_nodup|apply set_nodup]; done.
Qed.

Lemma vless_unsaid p k : one_of k ["type"; "path"; "host"; "serviceName"; "flow"; "fp"; "alpn"; "sid"; "spx"; "pbk"; "security"; "sni"] = false ->
  get k (vless_values p) = "".
Proof.
  unfold one_of. cbn [existsb]. rewrite !orb_false_iff. intros (K1 & K2 & K3 & K4 & K5 & K6 & K7 & K8 & K9 & K10 & K11 & K12 & _).
  assert (Hc : get k (clash_transport p []) = "") by (rewrite transport_other_get; [done|]; unfold one_of; cbn [existsb]; by rewrite K1, K2, K3, K4).
  unfold vless_values. destruct (nonempty _); repeat first [rewrite get_set_values|rewrite get_set]; cbn [last_value];
    by rewrite ?K5, ?K6, ?K7, ?K8, ?K9, ?K10, ?K11, ?K12.
Qed.

Lemma vless_said p :
  let r := cp_Reality p in let reality := nonempty (ro_PublicKey r) in
  get "type" (vless_values p) = network p /\ get "path" (vless_values p) = clash_path p /\ get "host" (vless_values p) = clash_host p /\
  get "serviceName" (vless_values p) = clash_service p /\ get "flow" (vless_values p) = cp_Flow p /\ get "fp" (vless_values p) = cp_Fingerprint p /\
  get "alpn" (vless_values p) = alpn p /\ get "sni" (vless_values p) = sni p /\ get "pbk" (vless_values p) = ro_PublicKey r /\
  get "sid" (vless_values p) = on reality (ro_ShortID r) /\ get "spx" (vless_values p) = on reality (ro_SpiderX r) /\
  get "security" (vless_values p) = (if reality then "reality" else if cp_TLS p then "tls" else "none")%string.
Proof.
  cbv zeta. destruct (transport_gets p []) as (G1 & G2 & G3 & G4); [done..|].
  assert (Hother : forall k, one_of k ["type"; "path"; "host"; "serviceName"] = false -> get k (clash_transport p []) = "") by (intros k Hk; by rewrite transport_other_get).
  unfold vless_values, on. destruct (nonempty (ro_PublicKey (cp_Reality p))) eqn:Er; values; rewrite ?G1, ?G2, ?G3, ?G4, !Hother, ?kept_nil by reflexivity.
  - done.
  - unfold nonempty in Er. apply negb_false_iff, String.eqb_eq in Er. by rewrite Er.
Qed.

Lemma vless_imported p : clash_ok p = true -> ParseVlessURL (vless_link p) = Ok (clash_vless p).
Proof.
  unfold clash_ok. rewrite !andb_true_iff. intros [[[[[[Hh _] Hp] _] _] _] _]. unfold ParseVlessURL, parse_link.
  assert (E : vless_link p = url_String "vless" (Some (mkUserinfo (cp_UUID p) None)) (host_and_port (cp_Server p) (cp_Port p)) (Encode_query (vless_values p)) (cp_Name p)) by done.
  destruct (built_link "vless" (Some (mkUserinfo (cp_UUID p) None)) _ _ _ (cp_Name p) eq_refl Hh Hp (vless_values_nodup p)) as (u & Eu & [H1 H2 H3 H4 H5 _ _ Hg _]).
  rewrite <-E in Eu. rewrite Eu. unfold link_port. rewrite H3, H4, H5, Atoi_port by done. unfold user_name. rewrite H2. cbn [Username].
  rewrite (parse_xhttp_ext _ _ Hg), !Hg. destruct (vless_said p) as (-> & -> & -> & -> & -> & -> & -> & -> & -> & -> & -> & ->).
  assert (Hn : or_else (network p) "tcp" = network p).
  { unfold network, or_else. destruct (String.eqb_spec (cp_Network p) ""); [done|]. by rewrite (proj2 (String.eqb_neq _ _)). }
  rewrite Hn. unfold parse_xhttp, queryInt. rewrite !vless_unsaid by reflexivity. unfold clash_vless. f_equal. f_equal.
  - unfold clash_service. destruct (String.eqb_spec (network p) "grpc") as [->|]; done.
  - by destruct (nonempty _), (cp_TLS p).
  - by destruct (String.eqb (network p) "quic").
Qed.

Lemma ss_plugin_value p : cp_Plugin p <> "" -> one_of (cp_Plugin p) [""; "obfs"; "v2ray-plugin"] = true ->
  plugin_value p = Ok (Sip003_String (clash_plugin p)).
Proof.
  intros Hn Hp. unfold plugin_value, clash_plugin, one_of in *. cbn [existsb] in Hp. rewrite (proj2 (String.eqb_neq _ _) Hn) in Hp. cbn [orb] in Hp.
  destruct (String.eqb_spec (cp_Plugin p) "obfs") as [->|_].
  - unfold Sip003_String. cbn [sip_Name sip_Opts o_Obfs o_Host o_Path o_Impl String.eqb Ascii.eqb Bool.eqb]. change (opt_field _ "") with (@nil string).
    by rewrite !app_nil_r.
  - destruct (String.eqb_spec (cp_Plugin p) "v2ray-plugin") as [->|_]; [|done]. unfold Sip003_String.
    cbn [sip_Name sip_Opts o_Tls o_Obfs o_Host o_Path o_Impl String.eqb Ascii.eqb Bool.eqb]. change (opt_field "impl=" "") with (@nil string).
    rewrite app_nil_r. by destruct (po_TLS (cp_PluginOpts p)).
Qed.

Lemma ss_link_export p : one_of (cp_Plugin p) [""; "obfs"; "v2ray-plugin"] = true -> ss_link p = Ok (Shadowsocks_ExportToURL (clash_ss p)).
Proof.
  intros Hp. unfold ss_link, Shadowsocks_ExportToURL, ss_query. cbn [clash_ss ss_Plugin ss_Backend ss_Server ss_Port ss_Name].
  destruct (String.eqb_spec (cp_Plugin p) "") as [E|E].
  - assert (clash_plugin p = mkSip003 "" no_opts) as -> by by (unfold clash_plugin; rewrite E). done.
  - rewrite ss_plugin_value by done. assert (String.eqb (sip_Name (clash_plugin p)) "" = false) as ->; [|done].
    unfold clash_plugin, one_of in *. cbn [existsb] in Hp. rewrite (proj2 (String.eqb_neq _ _) E) in Hp. cbn [orb] in Hp.
    destruct (String.eqb (cp_Plugin p) "obfs"); [done|]. by destruct (String.eqb (cp_Plugin p) "v2ray-plugin").
Qed.

Lemma tuic_imported p : clash_ok p = true -> ParseTuicURL (tuic_link p) = Ok (clash_tuic p).
Proof.
  unfold clash_ok. rewrite !andb_true_iff. intros [[[[[[Hh _] Hp] _] _] _] _]. unfold tuic_link, buildLink, hostPort, ParseTuicURL, parse_link.
  set (q := if cp_DisableSNI p then _ else _).
  assert (Hq : NoDup (keys q)) by (unfold q; destruct (cp_DisableSNI p); [apply set_nodup|]; apply set_values_nodup, NoDup_nil_2).
  assert (Hv : get "sni" q = sni p /\ get "disable_sni" q = (if cp_DisableSNI p then "true" else "")%string /\ get "alpn" q = alpn p /\
    get "congestion_control" q = cp_CongestionController p /\ get "udp_relay_mode" q = cp_UDPRelayMode p /\ get "pinnedPeerCertSha256" q = "" /\
    get "pinned_peer_cert_sha256" q = "" /\ get "verifyPeerCertByName" q = "" /\ get "verify_peer_cert_by_name" q = "").
  { unfold q. destruct (cp_DisableSNI p); repeat split; by values. }
  destruct Hv as (V1 & V2 & V3 & V4 & V5 & V6 & V7 & V8 & V9).
  destruct (built_link "tuic" (Some (mkUserinfo (cp_UUID p) (Some (cp_Password p)))) _ _ q (cp_Name p) eq_refl Hh Hp Hq)
    as (u & -> & [H1 H2 H3 H4 H5 _ _ Hg Ha]).
  unfold link_port. rewrite H3, H4, H5, Atoi_port by done. unfold user_name, user_password. rewrite H2. cbn [mbind option_bind Username Password].
  assert (Hal : firstNonEmpty [Join "," (all_of "alpn" q); get "alpn" q] = alpn p).
  { rewrite V3. cbn [firstNonEmpty]. destruct (String.eqb_spec (alpn p) "") as [E|E].
    - rewrite E. destruct (decide ("alpn"%string ∈ keys q)) as [Hk|Hk].
      + apply list_elem_of_fmap in Hk as ([k v] & Hkk & Hin). cbn [fst] in Hkk. subst k. destruct (get_present _ v q Hq Hin) as [Hv ->].
        rewrite V3, E in Hv. by subst v.
      + by destruct (get_absent "alpn" q Hk) as [_ ->].
    - rewrite all_of_one by (done || by rewrite V3). rewrite V3. cbn [Join]. by rewrite (proj2 (String.eqb_neq _ _)). }
  rewrite Ha, !Hg, Hal, V1, V2, V4, V5, V6, V7, V8, V9. unfold clash_tuic. by destruct (cp_DisableSNI p).
Qed.

Definition proxy_userinfo (p : clashProxy) : option Userinfo :=
  if String.eqb (cp_Username p) "" then None else Some (mkUserinfo (cp_Username p) (Some (cp_Password p))).

Lemma proxy_userinfo_read p u : url_User u = proxy_userinfo p ->
  proxy_user u = (cp_Username p, if String.eqb (cp_Username p) "" then EmptyString else cp_Password p).
Proof.
  intros H. unfold proxy_user. rewrite H. unfold proxy_userinfo. destruct (String.eqb_spec (cp_Username p) "") as [->|Hn]; [done|].
  unfold user_string. cbn [Username Password is_some]. rewrite orb_true_r.
  destruct (escape encodeUserPassword (cp_Username p)) eqn:Ee; [by apply escape_nil in Ee|done].
Qed.

Lemma proxy_imported p : clash_ok p = true ->
  (cp_Type p = "http"%string -> ParseHttpURL (proxy_link p) = Ok (clash_proxy p (if cp_TLS p then "https" else "http"))) /\
  (cp_Type p = "socks5"%string -> ParseSocksURL (proxy_link p) = Ok (clash_proxy p "socks5")).
Proof.
  unfold clash_ok. rewrite !andb_true_iff. intros [[[[[[Hh Hne] Hp] H0%negb_true_iff] _] _] _].
  assert (Hs0 : String.eqb (cp_Server p) "" = false) by (unfold nonempty in Hne; by apply negb_true_iff in Hne).
  assert (Hb : forall scheme, scheme_ok scheme = true -> exists u,
    url_Parse (buildLink scheme (proxy_userinfo p) (hostPort p) [] (cp_Name p)) = Ok u /\
    parts u scheme (proxy_userinfo p) (cp_Server p) (dec (cp_Port p)) [] (cp_Name p)).
  { intros scheme Hs. apply built_link; try done. apply NoDup_nil_2. }
  unfold proxy_link. fold (proxy_userinfo p). split; intros Ht; rewrite Ht; cbn [String.eqb Ascii.eqb Bool.eqb].
  - unfold ParseHttpURL, parse_link. set (scheme := if cp_TLS p then "https-proxy" else "http-proxy").
    destruct (Hb scheme) as (u & -> & [H1 H2 H3 H4 H5 H6 H7 _ _]); [unfold scheme; by destruct (cp_TLS p)|].
    rewrite H6, H7. cbn [nonempty String.eqb negb andb orb]. rewrite H3, Hs0.
    unfold optional_port, link_port. rewrite H4, dec_nonempty, Atoi_port by done. rewrite (proxy_userinfo_read p u H2), H1, H5, H0.
    unfold scheme. by destruct (cp_TLS p).
  - unfold ParseSocksURL, parse_link. destruct (Hb "socks5"%string eq_refl) as (u & -> & [H1 H2 H3 H4 H5 _ _ _ _]). rewrite H3, Hs0.
    unfold optional_port, link_port. rewrite H4, dec_nonempty, Atoi_port by done. by rewrite (proxy_userinfo_read p u H2), H1, H5, H0.
Qed.

(** The scheme is what stands before the slashes. *)
Lemma scheme_before scheme r : scheme_ok scheme = true ->
  hd EmptyString (SplitN 2 "://" (scheme +:+ "://" +:+ r)) = scheme /\ String.eqb (scheme +:+ "://" +:+ r) "" = false.
Proof.
  intros Hs. split.
  - cbn [SplitN]. assert (Hc : lacks ":" scheme) by (eapply free_lacks; [|by apply scheme_chars]; done).
    assert (Cut (scheme +:+ "://" +:+ r) "://" = Some (scheme, r)) as ->; [|done]. clear Hs.
    induction scheme as [|a s IH].
    + change (EmptyString +:+ "://" +:+ r) with (String ":" (String "/" (String "/" r))). cbn [Cut].
      rewrite (proj2 (HasPrefix_spec _ "://")) by by exists r. f_equal. f_equal. exact (TrimPrefix_app "://" r).
    + cbn [has_byte] in Hc. apply orb_false_iff in Hc as [Ha Hc]. rewrite s_app_cons. cbn [Cut].
      assert (HasPrefix (String a (s +:+ "://" +:+ r)) "://" = false) as ->; [|by rewrite IH].
      unfold HasPrefix. cbn [String.prefix]. destruct (Ascii.ascii_dec ":" a) as [<-|]; [done|done].
  - apply String.eqb_neq. intros E. apply (f_equal s_len) in E. rewrite !s_len_app in E. cbn in E. lia.
Qed.

Lemma scheme_of_built scheme user host q name : scheme_ok scheme = true ->
  hd EmptyString (SplitN 2 "://" (buildLink scheme user host q name)) = scheme /\ String.eqb (buildLink scheme user host q name) "" = false.
Proof.
  intros Hs. assert (Hl : exists r, buildLink scheme user host q name = scheme +:+ "://" +:+ r).
  { unfold buildLink. rewrite url_string_eq by by intros ->. eexists. by rewrite <-!s_app_assoc. }
  destruct Hl as [r ->]. by apply scheme_before.
Qed.

Lemma import_link p l scheme user host q name creator o : link p = Ok l -> l = buildLink scheme user host q name ->
  scheme_ok scheme = true -> one_of scheme ["ssr"; "shadowsocksr"] = false -> from_link scheme = Some creator ->
  creator l = Ok o -> clash_node p = Some o.
Proof.
  intros Hl -> Hs Hr Hc Ho. unfold clash_node. rewrite Hl. destruct (scheme_of_built scheme user host q name Hs) as [-> ->].
  unfold NewFromLink. by rewrite Hr, Hc, Ho.
Qed.

(** *** Protocols that keep their link *)

Lemma kept_imported p scheme kvs : clash_ok p = true -> scheme_ok scheme = true ->
  exists u, url_Parse (buildLink scheme (password_only p) (hostPort p) (set_values kvs []) (cp_Name p)) = Ok u /\
    Hostname u = cp_Server p /\ Port u = dec (cp_Port p) /\ Fragment u = cp_Name p /\ Atoi (Port u) = Some (cp_Port p) /\ String.eqb (Port u) "" = false /\
    ((forall k, get k (set_values kvs []) = get k kvs) ->
     link_says p kvs (buildLink scheme (password_only p) (hostPort p) (set_values kvs []) (cp_Name p))).
Proof.
  unfold clash_ok. rewrite !andb_true_iff. intros [[[[[[Hh _] Hp] _] _] _] _] Hs. unfold buildLink, hostPort.
  destruct (built_link scheme (password_only p) _ _ (set_values kvs []) (cp_Name p) Hs Hh Hp) as (u & Eu & [H1 H2 H3 H4 H5 _ _ Hg _]);
    [apply set_values_nodup, NoDup_nil_2|].
  exists u. rewrite H4, Atoi_port, dec_nonempty by done. repeat split; try done. intros Hk. exists u. repeat split; try done. intros k. by rewrite Hg.
Qed.

Lemma last_value_absent k kvs acc : k ∉ keys kvs -> last_value k kvs acc = acc.
Proof.
  revert acc. induction kvs as [|[k' v] kvs IH]; intros acc Hk; [done|]. cbn in Hk. apply not_elem_of_cons in Hk as [Hn Hk]. cbn [last_value].
  by rewrite (proj2 (String.eqb_neq _ _)) by done; apply IH.
Qed.

(** A key that is set at most once is read as it was set. *)
Lemma set_once kvs k : NoDup (keys kvs) -> get k (set_values kvs []) = get k kvs.
Proof.
  intros Hd. rewrite get_set_values. change (get k []) with "". induction kvs as [|[k' v] kvs IH]; [done|].
  inversion Hd as [|? ? Hn Hd']; subst. cbn [last_value get]. destruct (String.eqb_spec k k') as [->|_]; [|by apply IH].
  by rewrite last_value_absent, kept_nil.
Qed.

Lemma anytls_imported p : clash_ok p = true ->
  exists s, ParseAnyTLSURL (anytls_link p) = Ok s /\ keeps_link p "anytls" [("sni"%string, sni p)] s.
Proof.
  intros Hok. destruct (kept_imported p "anytls" [("sni"%string, sni p)] Hok eq_refl) as (u & Eu & H1 & H2 & H3 & H4 & H5 & Hl).
  unfold ParseAnyTLSURL, parse_link, link_port, anytls_link. rewrite Eu, H4. cbn [mbind]. eexists. split; [reflexivity|]. rewrite H1, H3.
  eexists. split; [reflexivity|]. apply Hl. intros k. apply set_once. by apply (bool_decide_unpack _); vm_compute.
Qed.

Lemma hysteria2_imported p : clash_ok p = true -> exists s, ParseHysteria2URL (hysteria2_link p) = Ok s /\
  keeps_link p "hysteria2" [("sni", sni p); ("obfs", cp_Obfs p); ("obfs-password", cp_ObfsPassword p)]%string s.
Proof.
  intros Hok. destruct (kept_imported p "hysteria2" [("sni", sni p); ("obfs", cp_Obfs p); ("obfs-password", cp_ObfsPassword p)]%string Hok eq_refl)
    as (u & Eu & H1 & H2 & H3 & H4 & H5 & Hl).
  unfold ParseHysteria2URL, hysteria2_link. rewrite Eu. cbn [mbind]. rewrite H5, H4. eexists. split; [reflexivity|]. rewrite H1, H3.
  eexists. split; [reflexivity|]. apply Hl. intros k. apply set_once. by apply (bool_decide_unpack _); vm_compute.
Qed.

(** *** VMess *)

Lemma vmess_info_texts p : vmess_info p = text_object (vmess_texts p).
Proof.
  unfold vmess_info, vmess_texts, clash_host, clash_path.
  destruct (String.eqb_spec (network p) "ws") as [->|_]; [done|]. destruct (String.eqb_spec (network p) "grpc") as [->|_]; [done|].
  by destruct (String.eqb (network p) "h2").
Qed.

Lemma text_fields kvs : normalizeVmessFields (text_object kvs) = text_object kvs.
Proof.
  apply normal_fields. intros k _. induction kvs as [|[k' v] kvs IH]; [done|]. unfold text_object in *. cbn [map list_to_map foldr fst snd].
  destruct (decide (k' = k)) as [->|Hn]; [by rewrite lookup_insert_eq|by rewrite lookup_insert_ne].
Qed.

Lemma vmess_imported p : clash_ok p = true -> cp_Type p = "vmess"%string ->
  exists l, vmess_link p = Ok ("vmess://" +:+ l) /\ ParseVmessURL ("vmess://" +:+ l) = Ok (clash_vmess p).
Proof.
  unfold clash_ok. rewrite !andb_true_iff. intros [[[[[[_ _] Hp] _] _] _] Hv] Ht. rewrite Ht in Hv. cbn [String.eqb Ascii.eqb Bool.eqb negb orb] in Hv.
  destruct (texts_printed (vmess_texts p)) as (b & Hb & Hne & Hm & Hr); [by apply (bool_decide_unpack _); vm_compute|done| |].
  { by apply (bool_decide_unpack _); vm_compute. }
  unfold vmess_link. rewrite vmess_info_texts, Hb. eexists. split; [reflexivity|]. unfold ParseVmessURL.
  assert (Hlen : (0 < s_len (Encode StdAlphabet true b))%nat).
  { destruct b as [|x [|y [|z b]]]; [done|cbn; lia..]. }
  rewrite s_len_app. destruct (Nat.leb_spec (s_len "vmess://" + s_len (Encode StdAlphabet true b)) 8) as [Hle|_]; [cbn [s_len] in Hle; lia|].
  assert (s_drop 8 ("vmess://" +:+ Encode StdAlphabet true b) = Encode StdAlphabet true b) as -> by exact (s_drop_app "vmess://" _).
  unfold Base64StdDecode. rewrite decode_padded_encoded. unfold vmess_of_json. rewrite Hm, text_fields, Hb, Hr. cbn [mbind].
  assert (correct_vmess (texts_node (vmess_texts p)) = clash_vmess p) as ->.
  { unfold clash_vmess, vmess_place, correct_vmess, texts_node, vmess_texts. cbn [get String.eqb Ascii.eqb Bool.eqb reassign v_Host v_Path v_Ps v_Aid v_Net v_V].
    assert (or_else (dec (cp_AlterID p)) "0" = dec (cp_AlterID p)) as ->.
    { unfold or_else. destruct (String.eqb_spec (dec (cp_AlterID p)) "") as [E|]; [|done].
      destruct (cp_AlterID p) as [|q|q]; [done| |done]. by destruct (dec_spec (Z.pos q) ltac:(lia)) as (_ & _ & []). }
    by destruct (_ && _). }
  unfold clash_vmess. destruct (vmess_place p). cbn [v_Port]. by rewrite Atoi_port.
Qed.

(** *** Every proxy *)

Ltac of_type Et Hl := rewrite Et in Hl; cbn [one_of existsb orb String.eqb Ascii.eqb Bool.eqb] in Hl.
Ltac by_link Hl := eapply import_link; [exact Hl|reflexivity|done..|]; cbv beta.

Lemma proxy_imports p : clash_ok p = true -> left_out p = false -> exists o, clash_node p = Some o /\ describes p o.
Proof.
  intros Hok Hout. unfold left_out in Hout. rewrite !orb_false_iff in Hout. destruct Hout as [[[Hs Hp0] Hty%negb_false_iff] _].
  assert (Hl := eq_refl (link p)). unfold link in Hl at 2. rewrite Hs, Hp0 in Hl. cbn [orb] in Hl.
  destruct (proxy_imported p Hok) as [Hhttp Hsocks]. unfold one_of, supported_types in Hty. cbn [existsb] in Hty. rewrite !orb_true_iff, !String.eqb_eq in Hty.
  destruct Hty as [Et|[Et|[Et|[Et|[Et|[Et|[Et|[Et|[Et|[=]]]]]]]]]]; of_type Et Hl.
  - destruct (anytls_imported p Hok) as (s & Hs1 & Hs2). exists (NAnyTLS s). split; [|by split]. by_link Hl. fold (anytls_link p). by rewrite Hs1.
  - exists (NTrojan (clash_trojan p)). split; [|by split]. by_link Hl. fold (trojan_link p). by rewrite (trojan_imported p Hok Et).
  - exists (NV2Ray (clash_vless p)). split; [|by left]. by_link Hl. unfold NewV2Ray.
    assert (exists r, vless_link p = "vless://" +:+ r) as [r Hr].
    { unfold vless_link, buildLink. rewrite url_string_eq by done. eexists. by rewrite <-!s_app_assoc. }
    assert (HasPrefix (vless_link p) "vmess://" = false) as -> by by rewrite Hr.
    assert (HasPrefix (vless_link p) "vless://" = true) as -> by (apply HasPrefix_spec; by exists r). by rewrite vless_imported.
  - destruct (vmess_imported p Hok Et) as (l & Hl1 & Hl2). exists (NV2Ray (clash_vmess p)). split; [|by right]. unfold clash_node. rewrite Hl, Hl1.
    destruct (scheme_before "vmess" l eq_refl) as [E1 E2]. change ("vmess" +:+ "://" +:+ l) with ("vmess://" +:+ l) in *. rewrite E1, E2.
    unfold NewFromLink. cbn [one_of existsb orb String.eqb Ascii.eqb Bool.eqb from_link]. unfold NewV2Ray.
    assert (HasPrefix ("vmess://" +:+ l) "vmess://" = true) as -> by (apply HasPrefix_spec; by exists l). by rewrite Hl2.
  - exists (NShadowsocks (clash_ss p)). split; [|by split]. assert (Hk := Hok). unfold clash_ok in Hk. rewrite Et in Hk.
    cbn [String.eqb Ascii.eqb Bool.eqb negb orb] in Hk. rewrite !andb_true_iff in Hk. destruct Hk as [[[[[[Hh _] Hp] _] _] [[Hc Hsi] Hpl]] _].
    rewrite (ss_link_export p Hpl) in Hl. by_link Hl. rewrite ss_round_trips; [done|]. unfold ss_ok.
    cbn [clash_ss ss_Server ss_Port ss_Cipher ss_Plugin]. by rewrite Hh, Hp, Hc, Hsi.
  - destruct (hysteria2_imported p Hok) as (s & Hs1 & Hs2). exists (NHysteria2 s). split; [|by split]. by_link Hl. fold (hysteria2_link p). by rewrite Hs1.
  - exists (NTuic (clash_tuic p)). split; [|by split]. by_link Hl. fold (tuic_link p). by rewrite tuic_imported.
  - exists (NSOCKS (clash_proxy p "socks5")). split; [|by split]. specialize (Hsocks Et). unfold proxy_link in *. rewrite Et in *.
    cbn [String.eqb Ascii.eqb Bool.eqb] in *. by_link Hl. by rewrite Hsocks.
  - exists (NHTTP (clash_proxy p (if cp_TLS p then "https" else "http"))). split; [|by split]. specialize (Hhttp Et). unfold proxy_link in *. rewrite Et in *.
    cbn [String.eqb Ascii.eqb Bool.eqb] in *. destruct (cp_TLS p); by_link Hl; by rewrite Hhttp.
Qed.

Lemma left_out_skipped p : left_out p = true -> clash_node p = None.
Proof.
  unfold left_out, clash_node, link. destruct (String.eqb (cp_Server p) "" || (cp_Port p =? 0)); [done|]. cbn [orb].
  unfold one_of at 1, supported_types. cbn [existsb]. intros H.
  destruct (String.eqb_spec (cp_Type p) "ss") as [Et|_].
  - rewrite Et in *. cbn [String.eqb Ascii.eqb Bool.eqb negb orb andb] in *. apply negb_true_iff in H. unfold ss_link, plugin_value.
    unfold one_of in H. cbn [existsb] in H. rewrite !orb_false_iff in H. by destruct H as (-> & -> & -> & _).
  - cbn [andb] in H. rewrite orb_false_r in H. apply negb_true_iff in H. rewrite !orb_false_iff in H.
    unfold one_of. cbn [existsb]. destruct H as (-> & -> & -> & -> & _ & -> & -> & -> & -> & _). by destruct (String.eqb (cp_Type p) "ssr").
Qed.

(** What becomes of a proxy: nothing if it is left out, and the node it describes
    if it is well formed. *)
Definition imports (p : clashProxy) (o : option node) : Prop :=
  if left_out p then o = None else clash_ok p = true -> exists n, o = Some n /\ describes p n.

Context `{CY : ClashYaml}.

(** C6. A Clash configuration is imported as the nodes its proxies describe, in
    order.  A proxy without a server or port, of a type that is not supported or
    with an unsupported Shadowsocks plugin is left out.  A well-formed proxy of any
    of the nine supported types becomes the node with the server, port, credentials,
    transport, security and plugin it states; for anytls and hysteria2, which keep
    their link, that link says the password, the server and the parameters.  What
    becomes of an ill-formed one does not change the others.  There is an error
    exactly if no node is left. *)
Theorem clash_proxies_are_imported raw proxies : Contains raw "proxies:" = true -> yaml_proxies raw = Some proxies -> proxies <> [] ->
  exists nodes err, Resolve raw = (omap id nodes, true, err) /\ Forall2 imports proxies nodes /\ (err = None <-> omap id nodes <> []).
Proof.
  intros Hc Hy Hn. unfold Resolve. rewrite Hc, Hy. cbn [negb]. exists (map clash_node proxies).
  assert (Ho : omap clash_node proxies = omap id (map clash_node proxies)).
  { clear Hy Hn. induction proxies as [|p ps IH]; [done|]. cbn [omap list_omap map]. rewrite IH. by destruct (clash_node p). }
  rewrite <-Ho. destruct proxies as [|p0 ps]; [done|].
  assert (Hi : Forall2 imports (p0 :: ps) (map clash_node (p0 :: ps))).
  { clear Hc Hy Hn Ho. generalize (p0 :: ps) as l. intros l. induction l as [|p l IH]; constructor; [|exact IH]. unfold imports.
    destruct (left_out p) eqn:E; [by apply left_out_skipped|]. intros Hok. by apply proxy_imports. }
  destruct (omap clash_node (p0 :: ps)) as [|n ns]; eexists; (split; [reflexivity|]); (split; [exact Hi|]); by split.
Qed.

End ClashProps.
