(* ===== verification/Imports.v ===== *)
(** * Importing links and subscriptions (service/server/service: import.go, share.go, subscription.go)

    A text is resolved to nodes: SIP008 JSON, a Clash configuration or a list of
    links; the nodes are stored as servers or as a subscription.  Requests, the
    clock and decoding SIP008 are the class [Web]. *)

From stdpp Require Import gmap.
From S2P Require Import Prelude.
From S2P Require Import NetIP Text Codecs Iptables Store StoreLists StoreProps NodeRefs Configure Catalog CoreConfig ServerData.
From S2P Require Import Url UrlProps ShareLinks ShareLinkProps V2RayLinks NodeConfig ShareNodes ShareProps Clash.

#[local] Open Scope Z_scope.
#[local] Open Scope go_scope.

(** ** What is fetched *)

Record SIP008Server := mkSIP008Server {
  si_Server : string;
  si_ServerPort : Z;
  si_Password : string;
  si_Method : string;
  si_Plugin : string;
  si_PluginOpts : string;
  si_Remarks : string;
}.

Record SIP008 := mkSIP008 { BytesUsed : Z; BytesRemaining : Z; si_Servers : list SIP008Server }.

(** A response: the bytes of the body, and the error that ends them early. *)
Record Reply := mkReply {
  rp_StatusCode : Z;
  rp_Status : string;
  rp_ContentLength : Z;
  rp_Body : string;
  rp_BodyErr : option error;
  rp_Userinfo : string;
}.

(** [http_get] is the request and [Do]; [client] says whether the client of the
    chosen mode can be had; [status_now] is [touch.NewUpdateStatus]. *)
Class Web := {
  json_sip008 : string -> result SIP008;
  client : result unit;
  http_get : string -> result Reply;
  status_now : string;
  local_date : Z -> string;
}.

Definition maxSubscriptionDocumentSize : Z := 32 * 2 ^ 20.

Definition too_large : error := Errorf "subscription document exceeds the 32 MiB limit" [].

(** [io.ReadAll(io.LimitReader(body, n))] *)
Definition read_limited (n : Z) (body : string) (err : option error) : result string :=
  if n <=? Z.of_nat (s_len body) then Ok (s_take (Z.to_nat n) body)
  else match err with Some e => Err e | None => Ok body end.

Definition readSubscriptionBody (resp : Reply) : result string :=
  fail_if maxSubscriptionDocumentSize <? rp_ContentLength resp with too_large in
  let? b := read_limited (maxSubscriptionDocumentSize + 1) (rp_Body resp) (rp_BodyErr resp) in
  fail_if maxSubscriptionDocumentSize <? Z.of_nat (s_len b) with too_large in
  Ok b.

(** ** Usage *)

Definition round_to_even (n d : Z) : Z :=
  let q := n / d in
  let r := n mod d in
  if 2 * r <? d then q else if d <? 2 * r then q + 1 else if Z.even q then q else q + 1.

(** [float64(n)] *)
Definition float64_of_int (n : Z) : Z :=
  if Z.abs n <? 2 ^ 53 then n
  else let e := 2 ^ (Z.log2 (Z.abs n) - 52) in Z.sgn n * (round_to_even (Z.abs n) e * e).

(** [%.2f] of that many GiB *)
Definition gib (n : Z) : string :=
  let f := float64_of_int n in
  let h := round_to_even (Z.abs f * 100) (2 ^ 30) in
  (if f <? 0 then "-" else "") +:+ dec (h / 100) +:+ "." +:+ dec (h mod 100 / 10) +:+ dec (h mod 10).

Record SubscriptionUserInfo := mkUserInfo { Upload : Z; Download : Z; Total : Z; Expire : Z }.

(** Seconds of the zero [time.Time] *)
Definition zero_time : Z := -62135596800.

Definition Known (sui : SubscriptionUserInfo) : bool :=
  negb (Download sui =? -1) || negb (Upload sui =? -1) || negb (Total sui =? -1) || negb (Expire sui =? zero_time).

Definition UserInfo_String `{Web} (sui : SubscriptionUserInfo) : string :=
  let usage :=
    if negb (Download sui =? -1) || negb (Upload sui =? -1) then
      let used := gib (i64 (Z.max (Download sui) 0 + Z.max (Upload sui) 0)) in
      if 0 <? Total sui then ["Used " +:+ used +:+ " GiB / " +:+ gib (Total sui) +:+ " GiB"] else ["Used " +:+ used +:+ " GiB"]
    else if 0 <? Total sui then ["Total " +:+ gib (Total sui) +:+ " GiB"] else [] in
  Join " · " (usage ++ (if Expire sui =? zero_time then [] else ["Expires " +:+ local_date (Expire sui)]))%list.

Definition userinfo_field (sui : SubscriptionUserInfo) (field : string) : SubscriptionUserInfo :=
  match Cut (TrimSpace field) "=" with
  | None => sui
  | Some (k, v) =>
    match Atoi v with
    | None => sui
    | Some n =>
      if String.eqb k "upload" then mkUserInfo n (Download sui) (Total sui) (Expire sui)
      else if String.eqb k "download" then mkUserInfo (Upload sui) n (Total sui) (Expire sui)
      else if String.eqb k "total" then mkUserInfo (Upload sui) (Download sui) n (Expire sui)
      else if String.eqb k "expire" then mkUserInfo (Upload sui) (Download sui) (Total sui) n
      else sui
    end
  end.

Definition parseSubscriptionUserInfo (str : string) : SubscriptionUserInfo :=
  fold_left userinfo_field (Split_byte ";" str) (mkUserInfo (-1) (-1) (-1) zero_time).

Definition getDataUsageStatus (bytesUsed bytesRemaining : Z) : string :=
  if bytesUsed =? 0 then EmptyString
  else "Used: " +:+ gib bytesUsed +:+ " GiB" +:+
       (if bytesRemaining =? 0 then EmptyString else " | Remaining: " +:+ gib bytesRemaining +:+ " GiB").

(** ** Resolving a text *)

Section Imports.
Context `{VJ : VmessJson} `{NT : Ntp} `{PM : PluginManager} `{OJ : OutboundJson} `{CY : ClashYaml} `{WB : Web}.

(** The link a server of a SIP008 document is resolved from. *)
Definition sip008_link (server : SIP008Server) : string :=
  let plugin := si_Plugin server +:+ (if String.eqb (si_PluginOpts server) "" then EmptyString else ";" +:+ si_PluginOpts server) in
  let q := if String.eqb (si_Plugin server) "" then [] else set "plugin" plugin [] in
  url_String "ss" (Some (mkUserinfo (si_Method server) (Some (si_Password server)))) (host_and_port (si_Server server) (si_ServerPort server))
    (Encode_query q) (si_Remarks server).

Fixpoint sip008_nodes (servers : list SIP008Server) : result (list node) :=
  match servers with
  | [] => Ok []
  | server :: rest =>
    let? obj := NewFromLink "shadowsocks" (sip008_link server) in
    let? infos := sip008_nodes rest in
    Ok (obj :: infos)
  end.

Definition resolveSIP008 (raw : string) : result (list node * SIP008) :=
  let? sip := json_sip008 raw in
  let? infos := sip008_nodes (si_Servers sip) in
  Ok (infos, sip).

(** The nodes and the status so far, with one more row. *)
Definition resolve_row (st : list node * string) (row : string) : list node * string :=
  let '(infos, status) := st in
  if HasPrefix row "STATUS=" then (infos, TrimPrefix row "STATUS=")
  else match ResolveURL row with Ok data => (infos ++ [data], status) | Err _ => (infos, status) end.

Definition resolveByLines (raw : string) : list node * string :=
  fold_left resolve_row (lines (TrimSpace raw)) ([], EmptyString).

Definition ResolveByLines (raw : string) : result (list node * string) :=
  match resolveSIP008 raw with
  | Ok (infos, sip) => Ok (infos, getDataUsageStatus (BytesUsed sip) (BytesRemaining sip))
  | Err _ =>
    match Clash.Resolve raw with
    | (infos, true, None) => Ok (infos, EmptyString)
    | (_, true, Some err) => Err err
    | (_, false, _) => Ok (resolveByLines raw)
    end
  end.

(** *** Subscriptions *)

Definition bom : string := String "239" (String "187" (String "191" EmptyString)).

(** [bytes.Trim(b, bom)], at most [n] marks on each side *)
Fixpoint trim_marks (n : nat) (b : string) : string :=
  match n with
  | O => b
  | S n => trim_marks n (TrimSuffix (TrimPrefix b bom) bom)
  end.

Definition trapBOM (b : string) : string := trim_marks (s_len b) b.

(** The text in a body, which may be base64. *)
Definition body_text (b : string) : string :=
  match Base64StdDecode (trapBOM b) with
  | (raw, None) => raw
  | (_, Some _) => fst (Base64URLDecode b)
  end.

Definition subscriptionHost (source : string) : string :=
  match url_Parse source with
  | Err _ => "unknown host"
  | Ok u => if String.eqb (Hostname u) "" then "unknown host" else Hostname u
  end.

Definition subscription_of (res : Reply) : result (list node * string) :=
  fail_if 400 <=? rp_StatusCode res with Errorf "subscription server answered %s" [FStr (rp_Status res)] in
  let? b := readSubscriptionBody res in
  let? (infos, status) := ResolveByLines (body_text b) in
  fail_if match infos with [] => true | _ => false end
    with Coded "SUBSCRIPTION_EMPTY" [] (Errorf "no server found in the subscription response" []) in
  let sui := parseSubscriptionUserInfo (rp_Userinfo res) in
  Ok (infos, if Known sui then UserInfo_String sui else status).

Definition ResolveSubscriptionWithClient (source : string) : result (list node * string) :=
  match (let? res := http_get source in subscription_of res) with
  | Ok r => Ok r
  | Err err => Err (if is_coded err then err else Coded "SUBSCRIPTION_FETCH_FAILED" [FStr (subscriptionHost source)] err)
  end.

(** ** Storing *)

Context `{J : Json} `{E : !Encodings} `{K : !Kernel}.

Definition server_of (obj : node) : ServerRaw := mkServerRaw obj "".

Fixpoint append_each (i n : Z) (infos : list node) : SV unit :=
  match infos with
  | [] => sv_ret tt
  | info :: rest =>
    sv! r := sv_try (sv_db (AppendServers [server_of info])) in
    match r with
    | Err e => sv_fail (Wrapf "failed to import server %d/%d (%v): %w" [FInt (i + 1); FInt n; FStr (node_name info)] e)
    | Ok _ => append_each (i + 1) n rest
    end
  end.

(** One update of the core for every connected node that was modified. *)
Fixpoint update_modified (which : NodeRef) (css : list NodeRef) : SV unit :=
  match css with
  | [] => sv_ret tt
  | cs :: rest =>
    if String.eqb (TYPE which) (TYPE cs) && (ID which =? ID cs) then sv! _ := sv_update in update_modified which rest
    else update_modified which rest
  end.

Definition modify_server (which : NodeRef) (obj : node) : SV unit :=
  let ind := ID which - 1 in
  if String.eqb (TYPE which) ServerType then
    sv! n := (if ind <? 0 then sv_ret 0 else sv_db GetLenServers) in
    if (ind <? 0) || (n <=? ind) then
      sv! shown := sv_db GetLenServers in
      sv! count := sv_db GetLenServers in
      sv_fail (Coded "SERVER_NOT_FOUND" [FInt (ID which); FInt count]
                 (Errorf "server #%d does not exist (there are %d servers); reload the page" [FInt (ID which); FInt shown]))
    else sv_db (SetServer ind (server_of obj))
  else if String.eqb (TYPE which) SubscriptionServerType then
    sv! subs := sv_db GetSubscriptions in
    match (if Sub which <? 0 then None else subs !! Z.to_nat (Sub which)) with
    | Some sub =>
      if (ind <? 0) || (Z.of_nat (length (su_Servers sub)) <=? ind) then
        sv_fail (Coded "SUBSCRIPTION_SERVER_NOT_FOUND" [FInt (ID which)] (Errorf "server #%d of subscription #%d does not exist; reload the page" [FInt (ID which); FInt (Sub which + 1)]))
      else sv_db (SetSubscription (Sub which) (set_servers sub (<[Z.to_nat ind := server_of obj]> (su_Servers sub))))
    | None =>
      sv_fail (Coded "SUBSCRIPTION_SERVER_NOT_FOUND" [FInt (ID which)] (Errorf "server #%d of subscription #%d does not exist; reload the page" [FInt (ID which); FInt (Sub which + 1)]))
    end
  else sv_fail (Errorf "cannot edit an item of type %q; only server and subscriptionServer can be edited" [FStr (TYPE which)]).

(** Several links, or a JSON document. *)
Definition many (url : string) : bool := (2 <=? length (lines url))%nat || HasPrefix url "{".

Definition ImportServer (url : string) (which : option NodeRef) : SV unit :=
  let url := TrimSpace url in
  if many url then
    match ResolveByLines url with
    | Err e => sv_fail (Wrapf "failed to resolve addresses: %w" [] e)
    | Ok (infos, _) => append_each 0 (Z.of_nat (length infos)) infos
    end
  else
    match ResolveURL url with
    | Err e => sv_fail e
    | Ok obj =>
      match which with
      | Some w =>
        if 0 <? ID w then
          sv! _ := modify_server w obj in
          sv! css := sv_db GetConnectedServers in
          update_modified w (NodeRefs_Get css)
        else sv_db (AppendServers [server_of obj])
      | None => sv_db (AppendServers [server_of obj])
      end
    end.

(** [u.Scheme = "http"; u.String()] of an address without a scheme: what stands
    before the path stays, a part that is not validly escaped is escaped anew. *)
Definition escaped_part (m : encoding) (p : string) : string :=
  if free_of (fun a => negb (has_byte a "!$&'()*+,;=:@[]%") && shouldEscape m a) p then p
  else escape m (default EmptyString (unescape m p)).

Definition with_http (source : string) (u : URL) : string :=
  let '(front, frag) := default (source, EmptyString) (Cut source "#") in
  let '(rest, query) := default (front, EmptyString) (Cut front "?") in
  let path := if HasPrefix rest "//" && negb (HasPrefix rest "///")
              then match Cut (TrimPrefix rest "//") "/" with Some (_, p) => "/" +:+ p | None => EmptyString end
              else rest in
  "http:" +:+ (if nonempty (url_Host u) || nonempty path || is_some (url_User u) then "//" else EmptyString) +:+
  (match url_User u with Some x => user_string x +:+ "@" | None => EmptyString end) +:+ escape encodeHost (url_Host u) +:+
  escaped_part encodePath path +:+ (if has_byte "?" front then "?" +:+ query else EmptyString) +:+
  (if String.eqb frag "" then EmptyString else "#" +:+ escaped_part encodeFragment frag).

(** The address to fetch. *)
Definition subscription_source (source : string) : result string :=
  match url_Parse source with
  | Err _ => Ok source
  | Ok u =>
    if String.eqb (ToLower (Scheme u)) "sub" then
      fail_if (s_len source <? s_len (Scheme u) + 3)%nat with Wrapf "panic: %w" [] (ExtErr "slice bounds out of range") in
      let payload := s_drop (s_len (Scheme u) + 3) source in
      match Base64StdDecode payload with
      | (source, None) => Ok source
      | (_, Some _) =>
        match Base64URLDecode payload with
        | (source, None) => Ok source
        | (_, Some _) =>
          Err (Coded "SUBSCRIPTION_FETCH_FAILED" [FStr "unknown host"]
                 (Errorf "sub:// link payload is not valid base64; expected sub://BASE64(subscription URL)" []))
        end
      end
    else if String.eqb (Scheme u) "" then Ok (with_http source u)
    else Ok source
  end.

(** The first of the servers with the same link. *)
Fixpoint unique_servers (seen : list string) (servers : list ServerRaw) : list ServerRaw :=
  match servers with
  | [] => []
  | s :: rest =>
    let key := ExportToURL (sr_ServerObj s) in
    if one_of key seen then unique_servers seen rest else s :: unique_servers (key :: seen) rest
  end.

Definition new_subscription (source status : string) (infos : list node) : SubscriptionRaw :=
  mkSubscriptionRaw 0 "" 0 0 false "" source status_now (unique_servers [] (map server_of infos)) status false.

Definition ImportSubscription (url : string) : SV unit :=
  match subscription_source (TrimSpace url) with
  | Err e => sv_fail e
  | Ok source =>
    match client with
    | Err e => sv_fail e
    | Ok _ =>
      match ResolveSubscriptionWithClient source with
      | Err err => sv_fail (Wrapf "could not fetch subscription from %s: %w" [FStr (subscriptionHost source)] err)
      | Ok (infos, status) => sv_db (AppendSubscriptions [new_subscription source status infos])
      end
    end
  end.

Definition UpdateSubscription (index : Z) (disconnectIfNecessary : bool) : SV unit :=
  sv! subscription := sv_db (GetSubscription index) in
  match subscription with
  | None => sv_fail (Coded "SUBSCRIPTION_NOT_FOUND" [FInt (index + 1)] (Errorf "subscription #%d no longer exists; reload the page" [FInt (index + 1)]))
  | Some subscription =>
    match client with
    | Err e => sv_fail e
    | Ok _ =>
      match ResolveSubscriptionWithClient (su_Address subscription) with
      | Err err => sv_fail (Wrapf "could not fetch subscription from %s: %w" [FStr (subscriptionHost (su_Address subscription))] err)
      | Ok (infos, status) => storeSubscriptionUpdate status_now index subscription infos status disconnectIfNecessary
      end
    end
  end.

(** ** Guessing *)

Definition PluginManagerValidateLink (url : string) : bool :=
  nonempty pm_path && is_ok (NewFromLink PluginManagerScheme url).

Definition isBareHttpProxyLink (rawURL : string) : bool :=
  match url_Parse rawURL with
  | Err _ => false
  | Ok u =>
    match url_User u with
    | None => false
    | Some user =>
      nonempty (user_string user) && one_of (ToLower (Scheme u)) ["http"; "https"] && String.eqb (RawQuery u) "" &&
      one_of (url_Path u) [""; "/"]
    end
  end.

Definition supportedPrefix : list string :=
  ["vmess"; "vless"; "ss"; "ssr"; "trojan"; "trojan-go"; "http-proxy"; "https-proxy"; "socks5"; "http2"; "juicity"; "tuic"; "hysteria";
   "hysteria2"; "anytls"; "shadowsocks"; "shadowsocksr"; "hy1"; "hy2"; "mcore"; "mcp"; "plugin"; "wireguard"].

Definition HasAnyPrefix (s : string) (prefix : list string) : bool := existsb (HasPrefix s) prefix.

(** Whether an address is imported as servers. *)
Definition imports_servers (url : string) : bool :=
  many url || PluginManagerValidateLink url || HasAnyPrefix (ToLower url) (map (fun p => p +:+ "://") supportedPrefix) || isBareHttpProxyLink url.

Definition Import (url : string) (which : option NodeRef) : SV unit :=
  let url := TrimSpace url in if imports_servers url then ImportServer url which else ImportSubscription url.

(** ** share.go *)

Definition GetSharingAddress (w : option NodeRef) : DB string :=
  match w with
  | None => db_fail (Errorf "no server was given to share" [])
  | Some w =>
    db! subscriptions := GetSubscriptions in
    if String.eqb (TYPE w) SubscriptionType then
      match (if ID w - 1 <? 0 then None else subscriptions !! Z.to_nat (ID w - 1)) with
      | Some sub => db_ret (su_Address sub)
      | None => db_fail (Coded "SUBSCRIPTION_NOT_FOUND" [FInt (ID w)] (Errorf "subscription #%d does not exist; reload the page" [FInt (ID w)]))
      end
    else
      db! tsr := LocateServerRaw w in
      let addr := ExportToURL (sr_ServerObj tsr) in
      if String.eqb addr "" then db_fail (Errorf "server %q has no shareable link; re-import it" [FStr (GetName (sr_ServerObj tsr))])
      else db_ret addr
  end.

End Imports.

(** ** Lists of links *)

Lemma parse_rest_scheme scheme rest u : parse_rest scheme rest = Some u -> Scheme u = scheme.
Proof.
  unfold parse_rest. destruct (default _ _) as [r q]. destruct (_ && nonempty scheme); [by intros [= <-]|]. destruct (_ && has_byte _ _); [done|].
  destruct (_ && HasPrefix r "//").
  - destruct (match Cut _ _ with Some _ => _ | None => _ end) as [a p]. destruct (parseAuthority a) as [[user host]|]; [|done].
    cbn [mbind option_bind]. destruct (unescape _ _); [|done]. by intros [= <-].
  - destruct (unescape _ _); [|done]. by intros [= <-].
Qed.

Lemma scheme_colon first s sch rest : getScheme first s = Some (Some (sch, rest)) ->
  has_byte ":" s = true /\ (first = true -> exists a t, s = String a t /\ letter a = true).
Proof.
  revert first sch rest. induction s as [|a s IH]; intros first sch rest; [done|]. cbn [getScheme has_byte].
  assert (Hmore : forall r, match getScheme false s with Some (Some (sch, rest)) => Some (Some (String a sch, rest)) | r => r end = Some (Some r) ->
    has_byte ":" s = true).
  { intros r. destruct (getScheme false s) as [[[sch' rest']|]|] eqn:E; try done. intros _. by apply (IH _ _ _ E). }
  destruct (letter a) eqn:El.
  { intros H. rewrite (Hmore _ H), orb_true_r. split; [done|]. intros _. by exists a, s. }
  destruct (digit a || _); [destruct first; [done|]; intros H; by rewrite (Hmore _ H), orb_true_r|].
  destruct (Ascii.eqb a ":"); [|done]. by destruct first.
Qed.

Lemma status_no_scheme l u : url_Parse l = Ok u -> HasPrefix l "STATUS=" = true -> Scheme u = "".
Proof.
  intros Hu [t ->]%HasPrefix_spec. revert Hu. unfold url_Parse.
  assert (Hc : exists y f, default ("STATUS=" +:+ t, EmptyString) (Cut ("STATUS=" +:+ t) "#") = ("STATUS=" +:+ y, f)).
  { rewrite !s_app_cons, s_app_nil. cbn [Cut]. rewrite !prefix_byte. cbn [Ascii.eqb Bool.eqb andb].
    destruct (Cut t "#") as [[y f]|]; [by exists y, f|by exists t, EmptyString]. }
  destruct Hc as (y & f & ->). assert (Hp : forall url, parse_url ("STATUS=" +:+ y) = Some url -> Scheme url = "").
  { intros url. unfold parse_url. destruct (negb _); [done|]. rewrite !s_app_cons, s_app_nil. change (String.eqb (String "S" _) "*") with false.
    cbv iota. change (getScheme true _) with (Some (@None (string * string))). cbv iota. apply parse_rest_scheme. }
  destruct (parse_url _) as [url|]; [|done]. destruct (String.eqb f ""); [intros [= <-]; auto|].
  destruct (unescape _ _); [|done]. intros [= <-]. cbn [set_fragment Scheme]. auto.
Qed.

Lemma parsed_head l u : url_Parse l = Ok u -> Scheme u <> "" -> has_byte ":" l = true /\ exists a t, l = String a t /\ letter a = true.
Proof.
  unfold url_Parse. intros Hu Hs.
  assert (Hl : exists y f r, default (l, EmptyString) (Cut l "#") = (y, f) /\ l = y +:+ r).
  { destruct (Cut l "#") as [[y f]|] eqn:E; [|exists l, EmptyString, EmptyString; by rewrite s_app_nil_r].
    exists y, f, ("#" +:+ f). split; [done|]. clear Hu. revert y f E. induction l as [|a l IH]; intros y f; [done|]. cbn [Cut]. rewrite prefix_byte.
    destruct (Ascii.eqb_spec a "#") as [->|_].
    - intros [= <- <-]. change (String "#" l) with ("#" +:+ l). by rewrite (TrimPrefix_app "#" l).
    - destruct (Cut l "#") as [[y' f']|]; [|done]. intros [= <- <-]. rewrite (IH y' f' eq_refl) at 1. done. }
  destruct Hl as (y & f & r & Hd & ->). rewrite Hd in Hu.
  assert (Hp : exists url, parse_url y = Some url /\ Scheme url <> "").
  { destruct (parse_url y) as [url|]; [|done]. exists url. split; [done|]. destruct (String.eqb f ""); [by injection Hu as <-|].
    destruct (unescape _ _); [|done]. by injection Hu as <-. }
  destruct Hp as (url & Hp & Hne). revert Hp. unfold parse_url. destruct (negb _); [done|]. destruct (String.eqb y "*"); [by intros [= <-]|].
  destruct (getScheme true y) as [[[sch rest]|]|] eqn:E; [|by intros H%parse_rest_scheme|done]. intros _.
  destruct (scheme_colon _ _ _ _ E) as [Hc Ha]. rewrite has_byte_app, Hc. split; [done|]. destruct (Ha eq_refl) as (a & t & -> & Hl).
  exists a, (t +:+ r). by rewrite s_app_cons.
Qed.

Lemma trim_right_app s t : trim_right t <> EmptyString -> trim_right (s +:+ t) = s +:+ trim_right t.
Proof.
  intros Ht. induction s as [|a s IH]; [done|]. rewrite !s_app_cons. cbn [trim_right]. rewrite IH.
  destruct s; [by destruct (trim_right t)|done].
Qed.

Lemma trimmed_ends l : TrimSpace l = l -> trim_left l = l /\ trim_right l = l.
Proof.
  intros H. assert (Hl : trim_left l = l); [|split; [done|]; by rewrite <-H at 2; unfold TrimSpace; rewrite Hl].
  pose proof (TrimSpace_head l) as Hh. rewrite H in Hh. destruct l as [|a l]; [done|]. cbn [trim_left]. by rewrite Hh.
Qed.

Lemma trim_join ls : Forall (fun l => TrimSpace l = l /\ l <> EmptyString) ls -> TrimSpace (Join nl ls) = Join nl ls.
Proof.
  intros H. destruct ls as [|x ls]; [done|]. assert (Hr : trim_right (Join nl (x :: ls)) = Join nl (x :: ls) /\ Join nl (x :: ls) <> EmptyString).
  { revert x H. induction ls as [|y ls IH]; intros x [[Hx Hne] H]%Forall_cons; [split; [by apply trimmed_ends|done]|].
    destruct (IH y H) as [Ht Hn]. change (Join nl (x :: y :: ls)) with (x +:+ nl +:+ Join nl (y :: ls)).
    split; [|destruct x; [done|rewrite s_app_cons; done]]. rewrite trim_right_app; rewrite trim_right_app; rewrite ?Ht; done. }
  unfold TrimSpace. apply Forall_cons in H as [[Hx Hne] _]. assert (trim_left (Join nl (x :: ls)) = Join nl (x :: ls)) as ->; [|apply Hr].
  destruct x as [|a x]; [done|]. pose proof (TrimSpace_head (String a x)) as Hh. rewrite Hx in Hh.
  destruct ls; cbn [Join]; rewrite ?s_app_cons; cbn [trim_left]; by rewrite Hh.
Qed.

(** What is relied on of the decoding of SIP008: only an object, or [null], is
    taken for a document. *)
Class SipLaws `(WB : Web) : Prop := {
  sip_is_object s sip : json_sip008 s = Ok sip -> HasPrefix (TrimSpace s) "{" = true \/ TrimSpace s = "null"%string;
}.

Section ImportProps.
Context `{VJ : VmessJson} `{VL : !VmessLaws VJ} `{NT : Ntp} `{PM : PluginManager} `{OJ : OutboundJson} `{CY : ClashYaml}.
Context `{WB : Web} `{WL : !SipLaws WB}.

(** The link of a node in a list: on a line of its own. *)
Definition listable (o : node) : Prop := share_ok o /\ lacks newline (export_node o).

Lemma export_trimmed o : share_ok o -> TrimSpace (export_node o) = export_node o.
Proof.
  assert (Hb : forall scheme user host q f, scheme_ok scheme = true ->
    TrimSpace (url_String scheme user host (Encode_query q) f) = url_String scheme user host (Encode_query q) f) by (intros; by apply trim_built).
  destruct o as [v|s|s|t|h|h|s|s|s|s|s|p]; cbn [share_ok export_node]; [| |done| | | | | | | | |done].
  - intros [[Hp _]|[Hp _]]; unfold V2Ray_ExportToURL; rewrite Hp; cbn [String.eqb Ascii.eqb Bool.eqb]; [by apply Hb|].
    apply trim_free. rewrite free_of_app. apply andb_true_iff. split; [done|]. eapply free_of_mono; [|apply base64_plain]. all_bytes.
  - intros _. by apply Hb.
  - intros _. unfold Trojan_ExportToURL. destruct (String.eqb (tr_Protocol t) "trojan-go"); by apply Hb.
  - intros (Hs & _). unfold HTTP_ExportToURL. change EmptyString with (Encode_query []). apply Hb. pattern (px_Protocol h). by apply (one_of_cases _ _ _ Hs); repeat constructor.
  - intros (Hs & _). unfold SOCKS_ExportToURL. change EmptyString with (Encode_query []). apply Hb. by rewrite Hs.
  - intros _. by apply Hb.
  - intros _. by apply Hb.
  - by intros (_ & H & _).
  - by intros (_ & H & _).
  - by intros (_ & H & _).
Qed.

Lemma resolved_parse l o : TrimSpace l = l -> ResolveURL l = Ok o -> exists u, url_Parse l = Ok u /\ Scheme u <> "".
Proof.
  intros Ht. unfold ResolveURL. rewrite !Ht. destruct (String.eqb l ""); [done|]. destruct (url_Parse l) as [u|]; [|done].
  destruct (String.eqb_spec (Scheme u) "") as [|Hs]; [done|]. by exists u.
Qed.

Lemma rows_resolve links os infos status : Forall2 (fun l o => HasPrefix l "STATUS=" = false /\ ResolveURL l = Ok o) links os ->
  fold_left resolve_row links (infos, status) = ((infos ++ os)%list, status).
Proof.
  intros H. revert infos. induction H as [|l o links os [Hs Hr] H IH]; intros infos; cbn [fold_left]; [by rewrite app_nil_r|].
  unfold resolve_row at 2. rewrite Hs, Hr. rewrite IH. by rewrite <-app_assoc.
Qed.

Lemma links_trimmed os : Forall listable os -> Forall (fun l => TrimSpace l = l /\ l <> EmptyString) (map export_node os).
Proof.
  intros H. apply Forall_fmap. eapply Forall_impl; [exact H|]. intros o [Ho _]. cbv beta. split; [by apply export_trimmed|]. intros E.
  pose proof (shared_resolves o Ho) as Hr. by rewrite E in Hr.
Qed.

(** The links of nodes, one on each line, give the nodes. *)
Lemma lines_resolve os : Forall listable os -> resolveByLines (Join nl (map export_node os)) = (map shared os, EmptyString).
Proof.
  intros H. destruct (decide (os = [])) as [->|Hne].
  { reflexivity. }
  unfold resolveByLines. rewrite trim_join by by apply links_trimmed. change (lines ?s) with (Split_byte newline s). unfold nl.
  rewrite split_byte_join; [|by destruct os|apply Forall_fmap; eapply Forall_impl; [exact H|]; by intros o [_ ?]].
  rewrite (rows_resolve _ (map shared os)); [done|]. apply Forall2_fmap, Forall_Forall2_diag. eapply Forall_impl; [exact H|]. intros o [Ho _]. cbv beta.
  pose proof (shared_resolves o Ho) as Hr. split; [|done]. destruct (HasPrefix _ _) eqn:E; [|done].
  destruct (resolved_parse _ _ (export_trimmed o Ho) Hr) as (u & Hu & Hs). by apply (status_no_scheme _ _ Hu) in E.
Qed.

(** A list of links is no SIP008 document. *)
Lemma list_head os : Forall listable os -> os <> [] ->
  has_byte ":" (Join nl (map export_node os)) = true /\ exists a t, Join nl (map export_node os) = String a t /\ letter a = true.
Proof.
  intros [|o os' [Ho _] _] Hne; [done|]. destruct (resolved_parse _ _ (export_trimmed o Ho) (shared_resolves o Ho)) as (u & Hu & Hs).
  destruct (parsed_head _ _ Hu Hs) as (Hc & a & t & He & Ha). cbn [map Join]. destruct (map export_node os') as [|y ys]; [eauto|].
  rewrite has_byte_app, Hc. split; [done|]. exists a, (t +:+ nl +:+ Join nl (y :: ys)). rewrite He at 1. by rewrite s_app_cons.
Qed.

Lemma list_text_resolves os : Forall listable os -> os <> [] -> Contains (Join nl (map export_node os)) "proxies:" = false ->
  ResolveByLines (Join nl (map export_node os)) = Ok (map shared os, EmptyString).
Proof.
  intros H Hne Hc. destruct (list_head os H Hne) as (Hcol & a & t & Ha & Hl). unfold ResolveByLines, resolveSIP008.
  pose proof (trim_join _ (links_trimmed os H)) as Ht.
  destruct (json_sip008 _) as [sip|e] eqn:E.
  { exfalso. apply sip_is_object in E. rewrite Ht in E. destruct E as [E|E]; [|rewrite E in Hcol; done].
    rewrite Ha, prefix_byte in E. apply Ascii.eqb_eq in E as ->. done. }
  unfold Clash.Resolve. rewrite Hc. cbn [negb]. by rewrite lines_resolve.
Qed.

(** *** Bodies *)

(** A body carries a text plainly or in base64 of either alphabet, padded or not. *)
Definition carries (body text : string) : Prop := body = text \/ exists al pad, body = Encode al pad text.

Lemma trim_mark_keeps c b : has_byte c bom = false -> has_byte c (TrimSuffix (TrimPrefix b bom) bom) = has_byte c b.
Proof.
  intros Hc. assert (Hp : has_byte c (TrimPrefix b bom) = has_byte c b).
  { destruct (HasPrefix b bom) eqn:E; [|by unfold TrimPrefix; rewrite E]. apply HasPrefix_spec in E as [t ->]. by rewrite TrimPrefix_app, has_byte_app, Hc. }
  rewrite <-Hp. generalize (TrimPrefix b bom) as x. intros x. destruct (HasSuffix x bom) eqn:E; [|by unfold TrimSuffix; rewrite E].
  apply HasSuffix_spec in E as [t ->]. by rewrite TrimSuffix_app, has_byte_app, Hc, orb_false_r.
Qed.

Lemma trap_keeps c b : has_byte c bom = false -> has_byte c (trapBOM b) = has_byte c b.
Proof.
  intros Hc. unfold trapBOM. generalize (s_len b) as n. intros n. revert b. induction n as [|n IH]; intros b; [done|].
  cbn [trim_marks]. by rewrite IH, trim_mark_keeps.
Qed.

Lemma trap_free b : lacks "239" b -> trapBOM b = b.
Proof.
  intros Hb. unfold trapBOM. generalize (s_len b) as n. intros n. induction n as [|n IH]; [done|]. cbn [trim_marks].
  assert (TrimPrefix b bom = b) as ->.
  { unfold TrimPrefix. destruct (HasPrefix b bom) eqn:E; [|done]. apply HasPrefix_spec in E as [t ->]. by rewrite has_byte_app in Hb. }
  assert (TrimSuffix b bom = b) as ->; [|done].
  unfold TrimSuffix. destruct (HasSuffix b bom) eqn:E; [|done]. apply HasSuffix_spec in E as [t ->]. rewrite has_byte_app, orb_true_r in Hb. done.
Qed.

Lemma body_read body text : carries body text -> TrimSpace text = text -> has_byte ":" text = true -> body_text body = text.
Proof.
  intros [->|(al & pad & ->)] Ht Hc; unfold body_text.
  - unfold Base64StdDecode, Base64URLDecode. rewrite (foreign_refused StdAlphabet ":") by (done || by rewrite trap_keeps).
    by rewrite (foreign_refused URLAlphabet ":").
  - rewrite trap_free by (apply lacks_free; apply encode_free; [|done]; intros [[] [] [] [] [] []]; by destruct al).
    pose proof (std_or_url al pad text) as H. destruct (Base64StdDecode _) as [raw [e|]]; [by rewrite H|done].
Qed.

(** C7. A subscription that is a list of the links of nodes, one
    on each line, plainly or in base64 of either kind, is resolved to those nodes,
    in order and none missing; what is told of its usage is the header's. *)
Theorem link_lists_arrive os source res : os <> [] -> Forall listable os ->
  Contains (Join nl (map export_node os)) "proxies:" = false ->
  http_get source = Ok res -> carries (rp_Body res) (Join nl (map export_node os)) ->
  rp_StatusCode res < 400 -> rp_BodyErr res = None -> rp_ContentLength res <= maxSubscriptionDocumentSize ->
  Z.of_nat (s_len (rp_Body res)) <= maxSubscriptionDocumentSize ->
  exists status, ResolveSubscriptionWithClient source = Ok (map shared os, status) /\
    status = (if Known (parseSubscriptionUserInfo (rp_Userinfo res)) then UserInfo_String (parseSubscriptionUserInfo (rp_Userinfo res)) else EmptyString).
Proof.
  intros Hne Hl Hcl Hg Hb Hst He Hlen Hsz. eexists. split; [|reflexivity].
  assert (Hread : readSubscriptionBody res = Ok (rp_Body res)).
  { unfold readSubscriptionBody, read_limited. rewrite He, (proj2 (Z.ltb_ge _ _)), (proj2 (Z.leb_gt _ _)) by lia.
    by rewrite (proj2 (Z.ltb_ge _ _)) by lia. }
  assert (Htext : body_text (rp_Body res) = Join nl (map export_node os)) by
    (apply body_read; [done|by apply trim_join, links_trimmed|by apply list_head]).
  unfold ResolveSubscriptionWithClient. rewrite Hg. unfold subscription_of. rewrite (proj2 (Z.leb_gt _ _)), Hread, Htext by lia.
  rewrite list_text_resolves by done. by destruct os.
Qed.

(** ** What is stored *)

Context `{J : Json} `{JL : !JsonLaws J} `{E : !Encodings} `{K : !Kernel}.

Lemma decoded_all {A} (f : doc -> result A) ds xs : Forall2 (fun d x => f d = Ok x) ds xs -> decoded f ds = xs.
Proof. intros H. induction H as [|d x ds xs Hx H IH]; [done|]. unfold decoded in *. cbn [omap list_omap]. by rewrite Hx, IH. Qed.

Lemma wp_sharing t w i raw raws : store_ok t -> Forall2 (fun d r => Bytes2ServerRaw d = Ok r) (v_servers (view_of t)) raws ->
  TYPE w = ServerType -> ID w = Z.of_nat i + 1 -> raws !! i = Some raw -> export_node (sr_ServerObj raw) <> EmptyString ->
  wp false (GetSharingAddress (Some w)) t (fun r t' => r = Ok (export_node (sr_ServerObj raw)) /\ t' = t).
Proof.
  intros Hok Hd Ht Hi Hl Hne. unfold GetSharingAddress. wp_step. unfold GetSubscriptions. do 2 wp_step.
  eapply wp_mono; [by apply wp_SubscriptionsGetAll|]. intros r t' [-> _]. wp_step. rewrite Ht. cbn [String.eqb Ascii.eqb Bool.eqb ServerType SubscriptionType].
  wp_step. unfold LocateServerRaw. rewrite Ht. change (String.eqb ServerType ServerType) with true. change (String.eqb ServerType SubscriptionServerType) with false.
  cbv iota. wp_step. unfold GetServers. do 2 wp_step. eapply wp_mono; [by apply wp_ServersGetAll|].
  intros [l|e] t' [-> H]; [|done]. do 3 wp_step. wp_step. rewrite H, (decoded_all _ _ _ Hd). unfold Locate. rewrite Ht.
  change (String.eqb ServerType ServerType) with true. cbv iota zeta. rewrite (proj2 (Z.ltb_ge _ _)) by lia.
  replace (Z.to_nat (ID w - 1)) with i by lia. rewrite Hl. change (ExportToURL (sr_ServerObj raw)) with (export_node (sr_ServerObj raw)).
  rewrite (proj2 (String.eqb_neq _ _)) by done. by wp_step.
Qed.

Lemma single_link o : listable o -> many (export_node o) = false.
Proof.
  intros [Ho Hn]. destruct (resolved_parse _ _ (export_trimmed o Ho) (shared_resolves o Ho)) as (u & Hu & Hs).
  destruct (parsed_head _ _ Hu Hs) as (_ & a & t & He & Ha). unfold many.
  assert (lines (export_node o) = [export_node o]) as ->.
  { apply split_on_one. apply lacks_free in Hn. eapply free_of_mono; [|exact Hn]. intros b Hb%Ascii.eqb_eq. by apply Ascii.eqb_eq. }
  rewrite He, prefix_byte. destruct (Ascii.eqb_spec a "{") as [->|]; done.
Qed.

(** C9. The link that is given out for a stored server,
    imported again, appends the node it says to the stored servers and changes
    nothing else. *)
Theorem shared_server_is_imported s w i raw raws d : store_ok (db_tables s.1) -> db_faults s.1 = [] ->
  Forall2 (fun d r => Bytes2ServerRaw d = Ok r) (v_servers (view_of (db_tables s.1))) raws ->
  TYPE w = ServerType -> ID w = Z.of_nat i + 1 -> raws !! i = Some raw -> listable (sr_ServerObj raw) ->
  Marshal [server_of (shared (sr_ServerObj raw))] = Ok d ->
  exists link t', GetSharingAddress (Some w) s.1 = (Ok link, s.1) /\ ImportServer link None s = (Ok tt, (mkDatabase t' [], s.2)) /\
    store_ok t' /\ view_of t' = view_servers (view_of (db_tables s.1)) (v_servers (view_of (db_tables s.1)) ++ appended d).
Proof.
  destruct s as [[t fs] k]. cbn [fst snd db_tables db_faults]. intros Hok -> Hd Ht Hi Hl Hli Hm. set (o := sr_ServerObj raw) in *.
  pose proof (shared_resolves o (proj1 Hli)) as Hr. assert (Hne : export_node o <> EmptyString) by (intros E0; by rewrite E0 in Hr).
  destruct (wp_sharing t w i raw raws Hok Hd Ht Hi Hl Hne [] ltac:(done)) as (r & t1 & fs1 & Hc & Hf & -> & ->). rewrite Hf in Hc by done.
  exists (export_node o). unfold ImportServer. rewrite (export_trimmed o (proj1 Hli)), (single_link o Hli), Hr.
  destruct (wp_ServersAppend false [server_of (shared o)] t Hok [] ltac:(done)) as (r2 & t2 & fs2 & Hc2 & Hf2 & Hok2 & _ & Hv). rewrite Hf2 in Hc2 by done.
  exists t2. split; [done|]. unfold sv_db, AppendServers. cbn [fst snd]. rewrite Hc2. destruct r2 as [[]|e].
  - split; [done|]. split; [done|]. destruct Hv as (d' & Hm' & ->). rewrite Hm in Hm'. by injection Hm' as ->.
  - exfalso. rewrite Hm in Hv. destruct Hv as [(? & ? & _ & ? & _)|[? _]]; done.
Qed.

Definition linked_before (before : list node) (o : node) : bool :=
  existsb (fun o' => String.eqb (export_node o') (export_node o)) before.

(** Of the nodes, those before which no other has the same link. *)
Definition firsts (infos : list node) : list node :=
  omap id (imap (fun i o => if linked_before (take i infos) o then None else Some o) infos).

Lemma linked_before_spec before o : linked_before before o = true <-> export_node o ∈ map export_node before.
Proof.
  unfold linked_before. rewrite existsb_exists, list_elem_of_fmap. split.
  - intros (o' & Hin & He%String.eqb_eq). exists o'. by rewrite list_elem_of_In.
  - intros (o' & -> & Hin). exists o'. rewrite String.eqb_refl. by rewrite <-list_elem_of_In.
Qed.

(** What the loop has seen are the links of the nodes before. *)
Lemma unique_firsts before seen infos : (forall k, k ∈ seen <-> k ∈ map export_node before) ->
  unique_servers seen (map server_of infos) =
  map server_of (omap id (imap (fun i o => if linked_before (before ++ take i infos) o then None else Some o) infos)).
Proof.
  revert before seen. induction infos as [|o infos IH]; intros before seen Hs; [done|]. cbn [map unique_servers imap].
  change (ExportToURL (sr_ServerObj (server_of o))) with (export_node o). rewrite take_0, app_nil_r.
  assert (Hone : one_of (export_node o) seen = linked_before before o).
  { apply eq_true_iff_eq. rewrite linked_before_spec, <-Hs. unfold one_of. rewrite existsb_exists, list_elem_of_In.
    split; [by intros (x & Hx & ->%String.eqb_eq)|]. intros H. exists (export_node o). by rewrite String.eqb_refl. }
  rewrite Hone. cbn [omap list_omap].
  assert (Hk : forall seen', (forall k, k ∈ seen' <-> k ∈ map export_node (before ++ [o])%list) ->
    unique_servers seen' (map server_of infos) =
    map server_of (omap id (imap (fun i o' => if linked_before (before ++ take (S i) (o :: infos)) o' then None else Some o') infos))).
  { intros seen' H'. rewrite (IH (before ++ [o])%list seen' H'). do 2 f_equal. apply imap_ext. intros i x _. cbn [take]. by rewrite <-app_assoc. }
  destruct (linked_before before o) eqn:Eb; cbn [id]; [|cbn [map]; f_equal].
  - apply Hk. intros k. rewrite Hs, map_app, elem_of_app. cbn [map]. rewrite list_elem_of_singleton. apply linked_before_spec in Eb. naive_solver.
  - apply Hk. intros k. rewrite elem_of_cons, Hs, map_app, elem_of_app. cbn [map]. rewrite list_elem_of_singleton. tauto.
Qed.

(** What is relied on of the JSON library: a subscription is printed with its
    fields under their names and its servers one by one. *)
Class SubscriptionLaws : Prop := {
  subscription_printed (x : SubscriptionRaw) : exists d d1, Marshal [x] = Ok d /\ gj_elements d = Some [d1] /\
    gj_String d1 "address" = su_Address x /\ gj_String d1 "remarks" = su_Remarks x /\ gj_String d1 "status" = su_Status x /\
    gj_String d1 "info" = su_Info x /\ gj_Bool d1 "autoSelect" = su_AutoSelect x /\ gj_String d1 "updateMode" = su_UpdateMode x /\
    gj_Int d1 "updateIntervalMinutes" = su_UpdateIntervalMinutes x /\ gj_Int d1 "failureIntervalMinutes" = su_FailureIntervalMinutes x /\
    gj_Bool d1 "allowDirectRecovery" = su_AllowDirectRecovery x /\
    Forall2 (fun s e => Marshal s = Ok e) (su_Servers x) (gj_Array d1 "servers");
}.
Context `{SL : !SubscriptionLaws}.


End ImportProps.
