(* ===== verification/ShareRef.v ===== *)
(** * Sharing and importing, on concrete nodes

    A JSON library that keeps the laws of [VmessLaws], the other parameters of the
    share links, a store of nodes and a subscription that is served, and the
    theorems of ShareProps, Clash and Imports at concrete inputs. *)

From stdpp Require Import gmap.
From S2P Require Import Prelude.
From S2P Require Import NetIP Text Codecs Iptables Store NodeRefs Configure CoreConfig ServerData.
From S2P Require Import Url UrlProps ShareLinks ShareLinkProps V2RayLinks.
From S2P Require Import NodeConfig ShareNodes ShareProps Clash.
From S2P Require Import StoreLists StoreProps Catalog JsonRef CatalogRef Imports.

#[local] Open Scope Z_scope.
#[local] Open Scope go_scope.

Module ShareRef.

(** ** A text for every node *)

(** A byte is printed after a mark, and a text ends with another mark. *)
Fixpoint print (s : string) : string :=
  match s with EmptyString => "." | String a s => String "-" (String a (print s)) end.

Fixpoint scan (s : string) : option (string * string) :=
  match s with
  | String "." r => Some (EmptyString, r)
  | String "-" (String a r) => match scan r with Some (x, t) => Some (String a x, t) | None => None end
  | _ => None
  end.

Lemma scan_print s r : scan (print s +:+ r) = Some (s, r).
Proof. induction s as [|a s IH]; [done|]. cbn [print]. rewrite !s_app_cons. cbn [scan]. by rewrite IH. Qed.

Fixpoint scan_all (n : nat) (s : string) : option (list string) :=
  match n with
  | O => Some []
  | S n => match scan s with Some (x, r) => match scan_all n r with Some l => Some (x :: l) | None => None end | None => None end
  end.

Definition print_all (l : list string) : string := fold_right (fun s r => print s +:+ r) EmptyString l.

Lemma scan_print_all l : scan_all (length l) (print_all l) = Some l.
Proof. induction l as [|s l IH]; [done|]. cbn [print_all fold_right length scan_all]. fold (print_all l). by rewrite scan_print, IH. Qed.

Definition flag (b : bool) : string := if b then "1" else "0".
Definition is_flag (s : string) : bool := String.eqb s "1".
Definition number (s : string) : Z := default 0 (Atoi s).

Definition ranges (x : XHTTPFields) : list (Z * Z) :=
  [scMaxEachPostBytes x; scMinPostsInterval x; scStreamUpServer x; xPaddingBytes x; xmuxMaxConcur x; xmuxMaxConn x;
   xmuxCMaxReuse x; xmuxHMaxReq x; xmuxHMaxReusable x].

Definition numbers (x : XHTTPFields) : list Z :=
  (concat (map (fun r => [fst r; snd r]) (ranges x)) ++ [scMaxBufferedPosts x; xmuxHKeepAlive x])%list.

Definition print_v2ray (v : V2Ray) : string :=
  print_all (texts v ++ [flag (v_NoGRPCHeader (v_XHTTP v)); flag (v_NoSSEHeader (v_XHTTP v))] ++ map dec (numbers (v_XHTTP v)))%list.

Definition scan_v2ray (s : string) : result V2Ray :=
  match scan_all 56 s with
  | Some [ps; add; port; id; aid; sec; net; ty; host; sni; path; tls; fp; pk; sid; spx; flow; alpn; pin; vp; key; qs; xm; xh; um;
          med; edh; mm; it; ht; pws; iws; vv; pr; ng; ns; a1; a2; b1; b2; c1; c2; d1; d2; e1; e2; f1; f2; g1; g2; h1; h2; i1; i2; m; k] =>
    Ok (mkV2Ray ps add port id aid sec net ty host sni path tls fp pk sid spx flow alpn pin vp key qs
          (mkXHTTPFields xm xh (is_flag ng) (is_flag ns) um (number a1, number a2) (number b1, number b2) (number m) (number c1, number c2)
             (number d1, number d2) (number e1, number e2) (number f1, number f2) (number g1, number g2) (number h1, number h2)
             (number i1, number i2) (number k))
          med edh mm it ht pws iws vv pr)
  | _ => Err (ExtErr "json")
  end.

Lemma number_dec n : exact_int n = true -> number (dec n) = n.
Proof. unfold exact_int. rewrite andb_true_iff, !Z.leb_le. intros H. unfold number. rewrite Atoi_dec; [done|unfold MinInt64, MaxInt64; lia]. Qed.

Lemma is_flag_back b : is_flag (flag b) = b.
Proof. by destruct b. Qed.

Lemma scan_print_v2ray v : printable v = true -> scan_v2ray (print_v2ray v) = Ok v.
Proof.
  unfold printable, xhttp_exact. cbn [forallb]. unfold exact_range. rewrite !andb_true_iff. intros [_ H].
  unfold scan_v2ray, print_v2ray. match goal with |- context [print_all ?l] => change 56%nat with (length l); rewrite (scan_print_all l) end.
  cbn [texts numbers ranges map concat app]. rewrite !is_flag_back. destruct_and! H. rewrite !number_dec by done.
  by destruct v as [? ? ? ? ? ? ? ? ? ? ? ? ? ? ? ? ? ? ? ? ? ? [? ? ? ? ? [] [] ? [] [] [] [] [] [] [] ?]].
Qed.

(** A generic value is the text of the node it was read from. *)
Definition text_key : string := "text".

#[export] Instance marked_json : VmessJson := {|
  float64 := Z;
  int64_of n := n;
  json_map s := Some {[text_key := JvString s]};
  map_json m := match m !! text_key with Some (JvString s) => Some s | _ => None end;
  json_v2ray := scan_v2ray;
  v2ray_json := print_v2ray;
  json_strings _ := (∅, false);
  strings_json _ := EmptyString;
  object_json _ := EmptyString;
|}.

#[export] Instance marked_laws : VmessLaws marked_json.
Proof.
  split.
  - intros v H. apply (f_equal s_len) in H. unfold v2ray_json, marked_json, print_v2ray in H. cbn [texts app print_all fold_right] in H.
    rewrite s_len_app in H. destruct (v_Ps v); cbn in H; lia.
  - intros v m k [= <-] Hk. rewrite lookup_singleton_ne; [done|]. intros <-. by apply list_elem_of_In in Hk; cbn in Hk; destruct_or! Hk.
  - intros v m Hp [= <-]. exists (print_v2ray v). split; [|by apply scan_print_v2ray]. cbn [map_json marked_json]. by rewrite lookup_singleton_eq.
  - intros v Hp. by apply scan_print_v2ray.
Qed.

#[export] Instance synced : Ntp := {| IsDatetimeSynced := true |}.
#[export] Instance no_manager : PluginManager := {| pm_path := ""; pm_parse _ := Err (ExtErr "no manager"); pm_configuration _ _ := (EmptyString, None) |}.

#[export] Instance no_outbounds : OutboundJson.
Proof. refine {| json_outbound _ := None |}. discriminate. Defined.

(** ** Nodes *)

Definition tokyo : V2Ray :=
  mkV2Ray "Tokyo 1" "tokyo.example.com" "443" "b831381d-6324-4d53-ad4f-8cda48b30811" "0" "auto" "ws" "none" "cdn.example.com" "cdn.example.com"
    "/ray?ed=2048" "tls" "chrome" "" "" "" "" "h2,http/1.1" "" "" "" "" no_xhttp "" "" "" "" "" "" "" "2" "vmess".

Definition osaka : V2Ray :=
  mkV2Ray "Osaka" "2001:db8::7" "8443" "short" "" "" "grpc" "none" "" "osaka.example.com" "svc" "reality" "firefox" "key" "0a" "/" "" ""
    "" "" "" "" no_xhttp "" "" "" "" "" "" "" "" "vless".

Definition sample_info : PriorInfo := mkPriorInfo "" "" "proxy-1" 0 "".

Lemma links_resolve_witness : ResolveURL (export_node (NV2Ray tokyo)) = Ok (NV2Ray (shared_vmess tokyo)).
Proof.
  apply (links_resolve (NV2Ray tokyo)). right. split; [reflexivity|]. vm_compute. reflexivity.
Defined.

Lemma clone_asks_the_same_witness : exists clone, cloneProbeNode (NV2Ray osaka) = Some clone /\ node_host clone = "2001:db8::7"%string /\
  node_port clone = 8443 /\ configure_node clone sample_info = configure_node (NV2Ray osaka) sample_info.
Proof.
  apply (clone_asks_the_same (NV2Ray osaka) sample_info).
  - left. split; [reflexivity|]. vm_compute. reflexivity.
  - vm_compute. reflexivity.
Defined.

Lemma user_ids_have_uuid_length_witness : match configure_node (NV2Ray osaka) sample_info with
  | Ok c => exists u, se_Vnext (out_Settings (CoreOutbound c)) = [mkVnext "2001:db8::7" 8443 [u]] /\ (32 <= s_len (us_ID u) <= 36)%nat
  | Err _ => False
  end.
Proof.
  destruct (configure_node _ _) as [c|] eqn:E; [|vm_compute in E; discriminate E].
  destruct (user_ids_have_uuid_length osaka sample_info c eq_refl E) as (u & Hu & Hl & _). exists u. split; [exact Hu|exact Hl].
Defined.

(** ** Pins *)

Definition fingerprint_pin : string := "SHA256:E3:B0:C4:42:98:FC:1C:14:9A:FB:F4:C8:99:6F:B9:24:27:AE:41:E4:64:9B:93:4C:A4:95:99:1B:78:52:B8:55".
Definition normal_pin : string := "e3b0c44298fc1c149afbf4c8996fb92427ae41e4649b934ca495991b7852b855".

Lemma pins_are_normalized_witness : PinnedPeerCertSha256Hex fingerprint_pin = Ok normal_pin /\ PinnedPeerCertSha256Hex normal_pin = Ok normal_pin.
Proof.
  assert (H : PinnedPeerCertSha256Hex fingerprint_pin = Ok normal_pin) by (vm_compute; reflexivity). split; [exact H|].
  exact (proj2 (pins_are_normalized fingerprint_pin normal_pin H)).
Defined.

(** ** A Clash configuration *)

Definition clash_base (type server : string) : clashProxy :=
  mkClashProxy "node" type server 443 "b831381d-6324-4d53-ad4f-8cda48b30811" "secret" "" "aes-128-gcm" 0 true "" "cdn.example.com" ["h2"%string] ""
    "grpc" "" "obfs" (mkClashPluginOpts "http" "bing.com" "" false) "" ∅ "svc" [] "" (mkClashReality "" "" "") "" "" "" "" false.

Definition sample_proxies : list clashProxy :=
  [clash_base "trojan" "tokyo.example.com"; clash_base "wireguard" "tokyo.example.com"; clash_base "vmess" "2001:db8::7"; clash_base "vless" "";
   clash_base "anytls" "osaka.example.com"].

(** A JSON library that prints objects of texts. *)
Fixpoint scan_pairs (fuel : nat) (s : string) : option (list (string * string)) :=
  match s, fuel with
  | EmptyString, _ => Some []
  | _, O => None
  | _, S fuel =>
    '(k, r) ← scan s; '(v, r) ← scan r; l ← scan_pairs fuel r; Some ((k, v) :: l)
  end.

Definition print_pairs (q : list (string * string)) : string := fold_right (fun kv r => print (fst kv) +:+ print (snd kv) +:+ r) EmptyString q.

Lemma scan_print_pairs q n : (length q <= n)%nat -> scan_pairs n (print_pairs q) = Some q.
Proof.
  revert n. induction q as [|[k v] q IH]; intros n Hn; [by destruct n|]. destruct n as [|n]; [cbn in Hn; lia|].
  cbn [print_pairs fold_right fst snd]. fold (print_pairs q). cbn [scan_pairs]. rewrite scan_print. cbn [mbind option_bind].
  rewrite scan_print. cbn [mbind option_bind]. rewrite IH by (cbn in Hn; lia). by destruct k.
Qed.

Lemma print_pairs_length q : (length q <= s_len (print_pairs q))%nat.
Proof.
  induction q as [|[k v] q IH]; [done|]. cbn [print_pairs fold_right fst snd length]. fold (print_pairs q). rewrite !s_len_app.
  destruct k; cbn [print s_len]; lia.
Qed.

Definition text_of (kv : string * jvalue Z) : option (string * string) :=
  match snd kv with JvString s => Some (fst kv, s) | _ => None end.

Definition pairs_of (s : string) : option (list (string * string)) :=
  match s with String "{" r => scan_pairs (s_len r) r | _ => None end.

Definition text_json : VmessJson := {|
  float64 := Z;
  int64_of n := n;
  json_map s := (fun q => list_to_map (map (fun kv => (fst kv, JvString (snd kv))) q)) <$> pairs_of s;
  map_json m := (fun q => "{" +:+ print_pairs q) <$> mapM text_of (map_to_list m);
  json_v2ray s := match pairs_of s with Some q => Ok (texts_node q) | None => Err (ExtErr "json") end;
  v2ray_json _ := EmptyString;
  json_strings _ := (∅, false);
  strings_json _ := EmptyString;
  object_json _ := EmptyString;
|}.

Lemma text_laws : TextLaws text_json.
Proof.
  split. intros q Hd _ _. set (f := fun kv : string * string => (fst kv, @JvString Z (snd kv))).
  set (M := list_to_map (map f q) : gmap string (jvalue Z)). assert (Hp : map_to_list M ≡ₚ map f q).
  { apply map_to_list_to_map. rewrite <-list_fmap_compose. exact Hd. }
  destruct (Permutation_map_inv _ _ Hp) as (q' & Hm & Hq).
  assert (Hpairs : pairs_of ("{" +:+ print_pairs q') = Some q') by (apply scan_print_pairs, print_pairs_length).
  exists ("{" +:+ print_pairs q'). split; [|split; [done|split]].
  - transitivity ((fun q => "{" +:+ print_pairs q) <$> mapM text_of (map_to_list M)); [reflexivity|]. rewrite Hm. assert (mapM text_of (map f q') = Some q') as ->; [|done]. clear. induction q' as [|[k v] q IH]; [done|]. cbn. by rewrite IH.
  - transitivity ((fun q => list_to_map (map f q)) <$> pairs_of ("{" +:+ print_pairs q') : option (gmap string (jvalue Z))); [reflexivity|].
    rewrite Hpairs. cbn [fmap option_fmap option_map]. f_equal. rewrite <-Hm. apply list_to_map_to_list.
  - unfold json_v2ray, text_json. rewrite Hpairs. f_equal. assert (Hg : forall k, get k q' = get k q) by (intros k; symmetry; by apply values_perm).
    unfold texts_node. by rewrite !Hg.
Qed.

#[local] Instance sample_yaml : ClashYaml := {| yaml_proxies _ := Some sample_proxies |}.

(** The type of a proxy decides which node describes it. *)
Section Described.
Context `{VJ : VmessJson} `{PM : PluginManager} (p : clashProxy) (o : node) (D : describes p o).

Lemma described_trojan : cp_Type p = "trojan"%string -> o = NTrojan (clash_trojan p).
Proof. intros E. destruct o; cbn in D; rewrite ?E in D; intuition (congruence || done). Qed.

Lemma described_vmess : cp_Type p = "vmess"%string -> o = NV2Ray (clash_vmess p).
Proof. intros E. destruct o; cbn in D; rewrite ?E in D; intuition (congruence || done). Qed.

Lemma described_anytls : cp_Type p = "anytls"%string -> exists s, o = NAnyTLS s /\ keeps_link p "anytls" [("sni"%string, sni p)] s.
Proof. intros E. destruct o; cbn in D; rewrite ?E in D; intuition (congruence || eauto). Qed.
End Described.

Lemma clash_proxies_are_imported_witness : exists a b c, Resolve (VJ := text_json) "proxies:" = ([NTrojan a; NV2Ray b; NAnyTLS c], true, None) /\
  a = clash_trojan (clash_base "trojan" "tokyo.example.com") /\ b = clash_vmess (clash_base "vmess" "2001:db8::7") /\
  keeps_link (clash_base "anytls" "osaka.example.com") "anytls" [("sni", "cdn.example.com")]%string c.
Proof.
  destruct (clash_proxies_are_imported (TL := text_laws) "proxies:" sample_proxies) as (nodes & err & Hr & Hi & He);
    [vm_compute; reflexivity|reflexivity|discriminate|].
  rewrite Hr.
  apply Forall2_cons_inv_l in Hi as (o1 & l & H1 & Hi & ->). apply Forall2_cons_inv_l in Hi as (o2 & l' & H2 & Hi & ->).
  apply Forall2_cons_inv_l in Hi as (o3 & l & H3 & Hi & ->). apply Forall2_cons_inv_l in Hi as (o4 & l' & H4 & Hi & ->).
  apply Forall2_cons_inv_l in Hi as (o5 & l & H5 & Hi & ->). apply Forall2_nil_inv_l in Hi as ->.
  unfold imports in H1, H2, H3, H4, H5. cbn [left_out] in H1, H2, H3, H4, H5.
  destruct (H1 eq_refl) as (n1 & -> & D1). destruct (H3 ltac:(vm_compute; reflexivity)) as (n3 & -> & D3). destruct (H5 eq_refl) as (n5 & -> & D5).
  cbn in H2, H4. rewrite H2, H4 in *. cbn [omap list_omap id] in *. rewrite (proj2 He) by discriminate.
  rewrite (described_trojan _ _ D1 eq_refl), (described_vmess _ _ D3 eq_refl). destruct (described_anytls _ _ D5 eq_refl) as (c & -> & Hc).
  eexists _, _, _. split; [reflexivity|]. split; [reflexivity|]. split; [reflexivity|exact Hc].
Defined.

(** ** A subscription *)

Definition three_nodes : list node := [NV2Ray tokyo; NV2Ray osaka; NV2Ray tokyo].
Definition link_list : string := Join nl (map export_node three_nodes).
Definition sample_source : string := "https://example.com/s".

Definition sample_reply : Reply :=
  mkReply 200 "200 OK" (-1) (Encode StdAlphabet true link_list) None "upload=1073741824; download=2147483648; total=10737418240".

#[local] Instance sample_web : Web := {|
  json_sip008 _ := Err (ExtErr "json");
  client := Ok tt;
  http_get _ := Ok sample_reply;
  status_now := "2024/5/1 12:00:00";
  local_date _ := "2024-05-01";
|}.

#[local] Instance sample_sip_laws : SipLaws sample_web.
Proof. split. intros s sip H. discriminate H. Qed.

Lemma three_listable : Forall listable three_nodes.
Proof.
  assert (Ht : listable (NV2Ray tokyo)) by (split; [right; split; [reflexivity|vm_compute; reflexivity]|vm_compute; reflexivity]).
  assert (Ho : listable (NV2Ray osaka)) by (split; [left; split; [reflexivity|vm_compute; reflexivity]|vm_compute; reflexivity]).
  repeat (constructor; [assumption|]). constructor.
Qed.

Lemma link_lists_arrive_witness :
  ResolveSubscriptionWithClient sample_source = Ok (map shared three_nodes, "Used 3.00 GiB / 10.00 GiB"%string).
Proof.
  destruct (link_lists_arrive three_nodes sample_source sample_reply) as (status & H & Hs).
  - discriminate.
  - exact three_listable.
  - vm_compute. reflexivity.
  - reflexivity.
  - right. exists StdAlphabet, true. reflexivity.
  - reflexivity.
  - reflexivity.
  - vm_compute. discriminate.
  - vm_compute. discriminate.
  - rewrite H, Hs. vm_compute. reflexivity.
Defined.

(** ** A store *)

Import JsonRef.

Definition server_json (s : ServerRaw) : jval :=
  JObj [("serverObj", match sr_ServerObj s with NV2Ray v => JStr (print_v2ray v) | _ => JNull end); ("latency", JStr (sr_Latency s))]%string.

Definition json_server_raw (s : ServerRaw) (d : jval) : result ServerRaw :=
  let? v := scan_v2ray (as_string (field d "serverObj")) in Ok (mkServerRaw (NV2Ray v) (as_string (field d "latency"))).

Definition sub_json (s : SubscriptionRaw) : jval :=
  JObj [("address", JStr (su_Address s)); ("status", JStr (su_Status s)); ("info", JStr (su_Info s)); ("remarks", JStr (su_Remarks s));
        ("autoSelect", JBool (su_AutoSelect s)); ("updateMode", JStr (su_UpdateMode s)); ("updateIntervalMinutes", JInt (su_UpdateIntervalMinutes s));
        ("failureIntervalMinutes", JInt (su_FailureIntervalMinutes s)); ("allowDirectRecovery", JBool (su_AllowDirectRecovery s));
        ("servers", JArr (map server_json (su_Servers s)))]%string.

Definition json_sub (s : SubscriptionRaw) (d : jval) : result SubscriptionRaw :=
  Ok (mkSubscriptionRaw (su_DatabaseID s) (su_UpdateMode s) (su_UpdateIntervalMinutes s) (su_FailureIntervalMinutes s)
        (su_AllowDirectRecovery s) (su_Remarks s) (as_string (field d "address")) (as_string (field d "status"))
        (decoded (json_server_raw (mkServerRaw (NV2Ray tokyo) "")) (as_array (field d "servers"))) (as_string (field d "info")) (su_AutoSelect s)).

#[local] Instance stored_nodes : Encodings := {
  json_servers := CatalogRef.ok_json (fun l => JArr (map server_json l)) (fun d => decoded (json_server_raw (mkServerRaw (NV2Ray tokyo) "")) (as_array d));
  json_server := {| Marshal s := Ok (server_json s); Unmarshal := json_server_raw (mkServerRaw (NV2Ray tokyo) "") |};
  json_subscription := {| Marshal s := Ok (sub_json s); Unmarshal := json_sub (mkSubscriptionRaw 0 "" 0 0 false "" "" "" [] "" false) |};
  json_refs := CatalogRef.ok_json CatalogRef.refs_json CatalogRef.json_refs_of;
  json_nil := CatalogRef.ok_json (fun _ => JNull) (fun _ => tt);
  json_outbound_setting := CatalogRef.ok_json CatalogRef.setting_json CatalogRef.json_setting;
  json_string := CatalogRef.ok_json JStr as_string;
  json_bool := CatalogRef.ok_json JBool as_bool;
  json_subscriptions := CatalogRef.ok_json (fun l => JArr (map sub_json l)) (fun d => decoded (json_sub (mkSubscriptionRaw 0 "" 0 0 false "" "" "" [] "" false)) (as_array d));
  unmarshal_server := json_server_raw;
  unmarshal_subscription := json_sub;
  time_ParseDuration _ := Err (ExtErr "time: invalid duration");
}.

#[local] Existing Instance CatalogRef.kernel_ref.

Definition two_servers : list ServerRaw := [server_of (NV2Ray tokyo); server_of (NV2Ray osaka)].
Definition two_stored : database := run_ops [OpServersAppend (JArr (map server_json two_servers))] (mkDatabase empty_tables []).

Lemma two_stored_ok : store_ok (db_tables two_stored).
Proof. apply run_ops_ok; [apply empty_ok..|]. by repeat split. Qed.

Definition two_running : database * kernel := (two_stored, true).

Lemma stored_decoded v : printable v = true -> Bytes2ServerRaw (server_json (server_of (NV2Ray v))) = Ok (server_of (NV2Ray v)).
Proof.
  intros H. change (match scan_v2ray (print_v2ray v) with Ok v => Ok (server_of (NV2Ray v)) | Err e => Err e end = Ok (server_of (NV2Ray v))).
  by rewrite scan_print_v2ray.
Qed.

Lemma two_decoded : Forall2 (fun d r => Bytes2ServerRaw d = Ok r) (map server_json two_servers) two_servers.
Proof.
  assert (Ht : printable tokyo = true) by (vm_compute; reflexivity). assert (Ho : printable osaka = true) by (vm_compute; reflexivity).
  exact (List.Forall2_cons _ _ (stored_decoded _ Ht) (List.Forall2_cons _ _ (stored_decoded _ Ho) (List.Forall2_nil _))).
Qed.

Definition second : NodeRef := mkNodeRef ServerType 2 0 "".

Lemma shared_server_is_imported_witness : exists link t', GetSharingAddress (Some second) two_stored = (Ok link, two_stored) /\
  ImportServer link None two_running = (Ok tt, (mkDatabase t' [], true)) /\
  v_servers (view_of t') = map server_json (two_servers ++ [server_of (shared (NV2Ray osaka))])%list.
Proof.
  destruct (shared_server_is_imported two_running second 1 (server_of (NV2Ray osaka)) two_servers
    (JArr [server_json (server_of (shared (NV2Ray osaka)))])) as (link & t' & Hg & Hi & _ & Hv).
  - exact two_stored_ok.
  - vm_compute. reflexivity.
  - change (fst two_running) with two_stored.
    replace (v_servers (view_of (db_tables two_stored))) with (map server_json two_servers) by (vm_compute; reflexivity).
    exact two_decoded.
  - reflexivity.
  - reflexivity.
  - reflexivity.
  - exact (proj1 (Forall_cons_1 _ _ _ (proj2 (Forall_cons_1 _ _ _ three_listable)))).
  - vm_compute. reflexivity.
  - exists link, t'. split; [exact Hg|]. split; [exact Hi|]. rewrite Hv. vm_compute. reflexivity.
Defined.

#[local] Instance stored_subscriptions : SubscriptionLaws.
Proof.
  split. intros x. exists (JArr [sub_json x]), (sub_json x). repeat split. cbn. induction (su_Servers x) as [|y l IH]; by constructor.
Qed.


(** ** Addresses and bodies at the edges *)

(** The mark at the start of a plain list is kept, and costs the first node. *)
Lemma marked_list_loses_its_first : resolveByLines (body_text (bom +:+ link_list)) = (map shared [NV2Ray osaka; NV2Ray tokyo], EmptyString).
Proof. vm_compute. reflexivity. Qed.

(** The link of an HTTP node without credentials is taken for a subscription; one
    with credentials for a node, with a port or without. *)
Lemma plain_http_is_fetched : ResolveURL "http://proxy.example:8080" = Ok (NHTTP (mkProxy "" "proxy.example" 8080 "" "" "http")) /\
  imports_servers "http://proxy.example:8080" = false /\ imports_servers "http://u:p@proxy.example" = true.
Proof. split; [|split]; vm_compute; reflexivity. Qed.

(** Less than three bytes after the scheme [sub] are out of range. *)
Lemma short_sub_panics : is_ok (subscription_source "sub:a") = false /\ subscription_source "sub://aHR0cHM6Ly9h" = Ok "https://a"%string.
Proof. split; vm_compute; reflexivity. Qed.

End ShareRef.
